(* ===== verification/_CoqProject ===== *)
-Q . S2P
Prelude.v
GoString.v
GoPath.v
GoFloat.v
Types.v
KtpTypes.v
KtpSchema.v
KtpGate.v
KtpRegistry.v
KtpExecutor.v
Sandbox.v
Permissions.v
Breaker.v
Lifecycle.v
Queue.v
GoRegexp.v
GoJson.v
Security.v
Spending.v
Chat.v
Router.v
AgentText.v
AgentLoop.v
History.v
ContextBudget.v
Workflow.v
MessageSystem.v
Teams.v
TeamBus.v
Paired.v
PairedTurns.v
GoFS.v
HostFS.v
FileTool.v
Scheduler.v
Access.v
AccessRuns.v
Nodes.v
NodeRuns.v
ApiAccess.v
GoNet.v
NetTools.v
Vault.v
Webhooks.v
Outbound.v
ProcTools.v
GitTool.v
DockerTool.v
DbTool.v
