(* ===== verification/Prelude.v ===== *)
(** * Kyvik: a verification development

    Kyvik is a server that runs AI agents.  An agent is a row of the [agents] table
    and, while it runs, a goroutine that feeds messages to a model and executes the tool
    calls the model asks for.  The parts this development is about, and how they meet:

    - [internal/core] owns the agents: it starts, stops, kills, quarantines and resumes
      them, keeps the rows in step with the running goroutines, and restores them after
      a restart;
    - [internal/ktp] is the tool protocol: a registry of tool declarations, validation of
      call parameters against JSON schemas, a permission gate over tiers and
      capabilities, and an executor that strings these together, injects secrets, runs
      the tool and redacts its answer;
    - [internal/sandbox] runs tools in separate processes; the executor reaches it through
      the [SandboxExecutor] interface;
    - [internal/permissions] is the operator's gate: templates of capabilities and a table
      of overrides that grant or deny;
    - [internal/circuitbreaker] watches tool calls, costs and answers of each agent over
      sliding windows and reports a trip, upon which the core quarantines the agent;
    - [internal/queue] keeps the messages of the agents in a table and hands them to the
      goroutines through channels;
    - [core.handleMessage] is what a goroutine does with a message: it assembles the prompt
      ([internal/ctxbudget], over [internal/history] and [internal/compression]), chooses a
      model ([internal/router]), and alternates model calls with tool calls under the
      budgets of [internal/spending] and the checks of [internal/security];
    - [internal/teams] groups agents: it says who may message whom, carries their messages
      over a bus with channels and a table, and lets two agents converse in turns;
    - [internal/workflow] runs the steps of a stored workflow through the executor, and is
      itself a tool: a workflow may run workflows;
    - [internal/scheduler] puts messages into the queue at the times of cron expressions, and
      agents have a tool for their own tasks;
    - [internal/tools] holds the tools themselves: files of the host ([hostfs]) and of a
      workspace ([file]), HTTP and browser, shell, code, git, docker and databases; the
      proxy of the sandboxes is [internal/netproxy];
    - [internal/users], [internal/auth] and [web/handlers/middleware.go] decide what a user of
      the dashboard may do; [internal/apikeys] and [web/api] what a key of the REST API may;
    - [internal/cluster] spreads the agents over nodes and moves those of dead ones;
    - [internal/secrets] keeps secrets, encrypted and by scope; [internal/webhooks] turns
      requests into messages and events into requests.

    ** Files

    - [Prelude]: results and their notation, 64-bit integers, tactics, hint databases,
      lemmas on lists and maps.
    - [GoString], [GoPath], [GoFloat]: what the code uses of [strings], [unicode/utf8],
      [path/filepath] and of [float64] (the executable IEEE 754 binary64 of the Standard Library).
    - [Types]: the records of [pkg/types/types.go] that the modelled code reads.
    - [KtpTypes], [KtpSchema]: [ktp/types.go] and [ktp/schema.go].  [conforms] is the
      specification of a schema; [validation_decides_conformance] shows that the
      validator decides it.
    - [KtpGate]: [ktp/gate.go].  [call_permitted] is the specification of a decision
      ([gate_allows_iff]); confinement of host paths, the need of a grant for recursive
      deletion, refusal of unknown templates, the ladder of tiers.
    - [KtpRegistry]: [ktp/registry.go], [convert.go], [audit.go].  The registry invariant,
      agreement of what a model is shown with what the gate allows, the round trip of
      action names.
    - [KtpExecutor]: [ktp/executor.go].  State [World]: environment, sandboxes, trace.  The
      class [SandboxExecutor] with its laws [SandboxLaws] is all the executor's theorems
      know of the sandbox.  No run without permission, secrets cleared and redacted,
      failures contained; [shared_step] is a step relation for calls that interleave.
    - [Sandbox]: [sandbox/manager.go] and its adapter, an instance of [SandboxExecutor]
      with a proof of the laws; workspaces, limits, the environment of the process,
      the output limit.
    - [Permissions]: [permissions/gate.go], [store_gate.go] and the override table.
      Priority of overrides, bounded escalation, what the interface lists.
    - [Breaker]: [circuitbreaker/].  The specification [verdict] is computed over the
      whole history of an agent; [breaker_refines_history] shows that the windows
      maintained by the code give the same answers.
    - [Lifecycle]: [core/agent.go] (handlers), [lifecycle.go], [vacation.go],
      [router/slots.go] and the store's agent rows.  State [Kyvik]; one function per
      handler; [run_ops] runs histories of them.  The invariant between rows and
      runners, the guards of a start, emergency stop, vacation mode, and the
      refinement of start-up reconciliation to the per-row specification [reconciled].

    - [Queue]: [internal/queue] and the consuming loop [runAgentQueued].  State
      [PostgresQueue], one function per operation, and the step relation [queue_step] for
      operations, consumers, kills and restarts in any order.  No double delivery, no loss
      while consumers report back, exactness of a replay, the bound on attempts.

    - [GoRegexp], [GoJson]: the regular expressions of the security patterns, executed by
      backtracking over sets of positions, and JSON text as [encoding/json] writes it.
    - [Security]: [internal/security].  Sanitizing leaves no match, the boundary of a wrapped
      result is not broken, blocked calls, canary tokens.
    - [Spending]: [internal/spending] and its tables.  A budget check holds exactly when
      usage is below every limit; overruns persist within a period; prices.
    - [Router]: [internal/router].  The priority of prefix, vision and classifier, the cache,
      and the counters.
    - [Chat], [AgentText], [AgentLoop]: the messages of a model call, the pure helpers of
      [core/agent.go] (estimates, chunks, trimming), and [handleMessage] over the class of
      services it calls.  Termination with a bound on model calls, budgets before each of
      them, one answer per message, the canary stays inside.
    - [History], [ContextBudget]: [internal/history], [internal/compression],
      [internal/ctxbudget].  What a compression keeps; the repair of tool rounds; the prompt
      within its budget; exactly when building the history ends.
    - [MessageSystem]: the services of [AgentLoop] taken from [KtpExecutor], [Spending],
      [Router] and [Security], and the theorems of their composition.
    - [Teams], [TeamBus]: [teams/manager.go], [bus.go], [permissions.go], the bus adapter and
      the router of incoming messages.  Membership is consistent, who may message whom,
      replay delivers what is undelivered.
    - [Paired], [PairedTurns]: [teams/paired.go], a conversation's goroutine as steps that
      interleave with the operations ([Paired]), and what holds of every run
      ([PairedTurns]): turns alternate, are bounded, and end with a stop.

    - [Workflow]: [internal/workflow] and its tool.  The executor is the class [ToolExecutor];
      [nested_call] is the instance in which a call of the workflow tool runs the engine over
      the same executor, as deep as the executor has slots, each level holding one.  Every tool
      run of a workflow was cleared as a call of its own ([workflow_runs_only_cleared_steps]).
    - [GoFS], [HostFS], [FileTool]: a file system with symbolic links, resolution as the
      kernel and as [EvalSymlinks] do it, and the two tools on it.  What a call may change.
    - [Scheduler]: [internal/scheduler] and its tool.  Fires are interleaved steps; the jobs
      of the engine refine the table.
    - [Access], [AccessRuns]: [internal/users], [internal/auth], the middleware of the
      dashboard; histories in which logins and changes of users overlap.
    - [Nodes], [NodeRuns]: [internal/cluster].  State [Sys]: tables, the advisory lock, one
      process per node.  One leader, recovery of orphans, drains.
    - [ApiAccess]: [internal/apikeys], [web/api].  Who passes, how often, and what becomes of
      keys and synchronised users.
    - [GoNet], [NetTools]: addresses and prefixes of [net]; the HTTP tool, the browser's guards
      and the proxy over an internet that may answer anything.
    - [Vault]: [internal/secrets].  The round trip and the isolation of scopes.
    - [Webhooks], [Outbound]: [internal/webhooks].  Which requests become messages; how often
      an event is posted, redirects included.
    - [ProcTools], [GitTool], [DockerTool], [DbTool]: the tools that start processes or send
      statements: which, with which options, and where.

    ** Conventions

    Errors are the right component of a sum, optional values an [option].  Go maps are
    [gmap]s; where the iteration order of a map can be observed it is an argument or the
    theorem holds for every order.  Integers are [Z], with 64-bit wrap-around written out
    ([wrap64]) where it can happen.  Strings are byte strings; runes are decoded where
    the code ranges over them.  Clocks, identifiers, regular expressions, SHA-256, JSON
    decoding of stored documents, model and channel services are arguments; what a
    theorem needs of one is a named hypothesis with an instance in its witness.

    ** Bounds and fuel

    Most functions are structurally recursive (schema validation on the schema, redaction on
    the value).  The others take fuel, with a lemma that what they are given is enough:
    [resume_attempts] counts the attempts of [reconcileStart] (five in the code); [rounds]
    the iterations of the tool loop (the configuration bounds them by 256; the helper calls of
    routing and compression are counted beside them); [chunk_loop] the
    bytes of the text; [fit_memories] the memories, one of which is dropped per round;
    [climb] the length of a path; removal the depth of a tree ([tree_depth]); resolution the links
    the system follows (255 for [EvalSymlinks], 40 for the kernel); the HTTP client its ten
    redirects ([client_do]), and so a delivery ([client_post]); [nested_call] the slots of
    the executor, since every level of nesting holds one; the parsers of addresses their
    groups and digits; the readers of git's and SQL's texts the text.  The
    recursion of [buildHistory] is the exception: [history_ends_iff] says when it ends.

    ** Behaviours the code was not meant to have

    Some theorems state what the code does where a comment or a neighbouring function
    says otherwise: secrets of in-process tools that leak or cross agents, sandbox
    limits frozen at creation, wildcard grants to operators, a vacation that forgets its
    agents, goroutines that overwrite the state of their successors, messages that are
    stranded by a kill or doubled by a refused retry, limits that are lifted by a negative
    one, messages that a replay delivers although they were refused or delivered before,
    conversations that cannot be stopped any more, a prompt assembly that never ends, paths that
    end in a dangling link, workflows that stay running or exhaust the slots by calling
    themselves, heartbeats lost at a restart, stale rows written back by fires and logins,
    agents stranded by a follower's heartbeat, two leaders after a lost session, a restricted key
    that makes an unrestricted one, a proxy that can be rebound, redirects without end,
    events posted again by redirects, secrets passed over, forms without a body,
    retries lost by a crash, long outputs reported as failures, a clone URL or an image read
    as an option, and read-only connections that delete.

    ** Not modelled

    The interleavings inside one lifecycle handler and inside an operation that holds a lock;
    other processes that change the file system during a call, the working directory, and
    writes that end half way; what started processes and databases do; compression and
    extraction of memories that run in the background after an answer; the dispatchers of webhooks
    of several nodes at once; what is said under each component in its file.  Parsing of URLs,
    templates, JSON of stored documents, HMAC, AES and bcrypt are classes.  Clients of
    external services, SQL beyond the rows above, the pages of the dashboard, terminal and
    configuration are outside. *)

From stdpp Require Export base option list gmap strings.
From Stdlib Require Export ZArith Lia Ascii.

(** * Conventions

    A Go [error] return is the right component of a sum: [inl v] is a value
    with a nil error, [inr e] an error.  A Go [(value, bool)] pair is an
    [option].  A Go pointer that may be nil is an [option]. *)

Declare Scope kyvik_scope.
Delimit Scope kyvik_scope with kyvik.
Global Open Scope string_scope.
Global Open Scope list_scope.
Global Open Scope Z_scope.

(** ** The end of a list *)

Definition last_n {A} (n : nat) (l : list A) : list A := drop (length l - n) l.

Lemma last_n_suffix {A} (n : nat) (l : list A) : last_n n l `suffix_of` l.
Proof. exists (take (length l - n) l). symmetry. apply take_drop. Qed.

Lemma last_n_length {A} (n : nat) (l : list A) : length (last_n n l) = (n `min` length l)%nat.
Proof. unfold last_n. rewrite length_drop. lia. Qed.

(** ** Result type for fallible code *)

Definition result (E A : Type) : Type := (A + E)%type.

Definition Ok {E A} (a : A) : result E A := inl a.
Definition Err {E A} (e : E) : result E A := inr e.

Definition rbind {E A B} (r : result E A) (k : A -> result E B) : result E B :=
  match r with
  | inl a => k a
  | inr e => inr e
  end.

Notation "'let?' x := r 'in' k" := (rbind r (fun x => k))
  (at level 10, x pattern, r at level 100, k at level 200) : kyvik_scope.
Global Open Scope kyvik_scope.

(** ** Machine integers

    Go's [int] and [int64] are 64-bit two's complement: [wrap64] is the value a
    64-bit register keeps of an unbounded result. *)

Definition wrap64 (z : Z) : Z := (z + 2 ^ 63) mod 2 ^ 64 - 2 ^ 63.
Definition max_int64 : Z := 2 ^ 63 - 1.
Definition min_int64 : Z := - 2 ^ 63.

Definition in_int64 (z : Z) : Prop := min_int64 <= z <= max_int64.

Lemma wrap64_id (z : Z) : in_int64 z -> wrap64 z = z.
Proof.
  unfold in_int64, wrap64, min_int64, max_int64. intros H.
  rewrite Z.mod_small; lia.
Qed.

Lemma wrap64_in (z : Z) : in_int64 (wrap64 z).
Proof.
  unfold in_int64, wrap64, min_int64, max_int64.
  pose proof (Z.mod_pos_bound (z + 2 ^ 63) (2 ^ 64) ltac:(lia)). lia.
Qed.

(** The default of an empty text. *)
Definition or_default (s d : string) : string := if bool_decide (s = EmptyString) then d else s.

(** [slices.Delete] at the first occurrence *)
Fixpoint remove_first {A} `{EqDecision A} (a : A) (l : list A) : list A :=
  match l with
  | [] => []
  | x :: l' => if bool_decide (x = a) then l' else x :: remove_first a l'
  end.

(** ** Tactics *)

(** Case analysis on the first [if] or [match] of the goal or of a hypothesis. *)
Ltac break :=
  match goal with
  | |- context [match ?x with _ => _ end] => destruct x eqn:?
  end.

Ltac break_in H :=
  match type of H with
  | context [match ?x with _ => _ end] => destruct x eqn:?
  end.

(** Close a goal by exhausting the branches of the definitions in it. *)
Ltac branches := repeat (simplify_eq/=; try done; try break).

(** Turn boolean tests in the context and the goal into propositions. *)
Ltac to_prop :=
  repeat match goal with
  | H : andb _ _ = true |- _ => apply andb_true_iff in H as [? ?]
  | H : andb _ _ = false |- _ => apply andb_false_iff in H
  | H : orb _ _ = true |- _ => apply orb_true_iff in H
  | H : orb _ _ = false |- _ => apply orb_false_iff in H as [? ?]
  | H : negb _ = true |- _ => apply negb_true_iff in H
  | H : negb _ = false |- _ => apply negb_false_iff in H
  | H : bool_decide _ = true |- _ => apply bool_decide_eq_true_1 in H
  | H : bool_decide _ = false |- _ => apply bool_decide_eq_false_1 in H
  | H : (_ <? _)%Z = true |- _ => apply Z.ltb_lt in H
  | H : (_ <? _)%Z = false |- _ => apply Z.ltb_ge in H
  | H : (_ <=? _)%Z = true |- _ => apply Z.leb_le in H
  | H : (_ <=? _)%Z = false |- _ => apply Z.leb_gt in H
  | H : (_ =? _)%Z = true |- _ => apply Z.eqb_eq in H
  | H : (_ =? _)%Z = false |- _ => apply Z.eqb_neq in H
  | H : (_ =? _)%string = true |- _ => apply String.eqb_eq in H
  | H : (_ =? _)%string = false |- _ => apply String.eqb_neq in H
  end.

(** ** Generic list lemmas *)

Create HintDb kyvik discriminated.

Section lists.
Context {A B : Type}.

Lemma existsb_elem (f : A -> bool) (l : list A) :
  existsb f l = true <-> exists x, x ∈ l /\ f x = true.
Proof.
  rewrite existsb_exists. by setoid_rewrite <- list_elem_of_In.
Qed.

Lemma existsb_elem_false (f : A -> bool) (l : list A) :
  existsb f l = false <-> forall x, x ∈ l -> f x = false.
Proof.
  split.
  - intros H x Hx. destruct (f x) eqn:E; [|done].
    assert (existsb f l = true) by (apply existsb_elem; eauto). congruence.
  - intros H. destruct (existsb f l) eqn:E; [|done].
    apply existsb_elem in E as (x & Hx & Hf). rewrite (H x Hx) in Hf. done.
Qed.

Lemma forallb_elem (f : A -> bool) (l : list A) :
  forallb f l = true <-> forall x, x ∈ l -> f x = true.
Proof.
  rewrite forallb_forall. by setoid_rewrite <- list_elem_of_In.
Qed.

Lemma filter_elem (f : A -> bool) (l : list A) (x : A) :
  x ∈ List.filter f l <-> x ∈ l /\ f x = true.
Proof. rewrite !list_elem_of_In. apply filter_In. Qed.

Lemma find_elem_Some (f : A -> bool) (l : list A) (x : A) :
  List.find f l = Some x -> x ∈ l /\ f x = true.
Proof. intros H. rewrite list_elem_of_In. by apply (find_some f). Qed.

Lemma find_elem_None (f : A -> bool) (l : list A) (x : A) :
  List.find f l = None -> x ∈ l -> f x = false.
Proof. rewrite list_elem_of_In. intros H. by apply (find_none f l H). Qed.
End lists.
