(* ===== verification/GoString.v ===== *)
(** Go's [strings] package, as far as Kyvik uses it.

    Go strings are byte sequences; here they are [string]s of 8-bit [ascii].
    Functions that look at runes (case mapping, white space, [range] loops)
    decode UTF-8 the way [unicode/utf8] does: an invalid byte is the rune
    U+FFFD of width one.  The Unicode case tables are the one part that is
    left abstract (class [UnicodeCase]); they only matter for runes outside
    ASCII, where the mapping is exact. *)

From S2P Require Import Prelude.



(** * Prefixes, suffixes and substrings *)

(** [strip_prefix p s] is [Some r] when [s = p ++ r]: [strings.CutPrefix]. *)
Fixpoint strip_prefix (p s : string) : option string :=
  match p, s with
  | EmptyString, _ => Some s
  | String a p', String b s' => if Ascii.eqb a b then strip_prefix p' s' else None
  | String _ _, EmptyString => None
  end.

(** [strings.HasPrefix(s, p)] *)
Definition has_prefix (s p : string) : bool :=
  match strip_prefix p s with Some _ => true | None => false end.

Fixpoint str_drop (n : nat) (s : string) : string :=
  match n, s with
  | O, _ => s
  | S n', String _ s' => str_drop n' s'
  | S _, EmptyString => EmptyString
  end.

Fixpoint str_take (n : nat) (s : string) : string :=
  match n, s with
  | O, _ => EmptyString
  | S n', String c s' => String c (str_take n' s')
  | S _, EmptyString => EmptyString
  end.

(** [strings.CutSuffix(s, suf)] *)
Definition cut_suffix (s suf : string) : option string :=
  let k := (String.length s - String.length suf)%nat in
  if String.eqb (str_drop k s) suf then Some (str_take k s) else None.

(** [strings.HasSuffix(s, suf)] *)
Definition has_suffix (s suf : string) : bool :=
  match cut_suffix s suf with Some _ => true | None => false end.

(** [strings.TrimSuffix(s, suf)] *)
Definition trim_suffix (s suf : string) : string :=
  match cut_suffix s suf with Some p => p | None => s end.

(** [strings.Index(s, sub)]: the offset of the first occurrence. *)
Fixpoint str_index (s sub : string) : option nat :=
  if has_prefix s sub then Some O
  else match s with
       | EmptyString => None
       | String _ s' => S <$> str_index s' sub
       end.

(** [strings.Contains(s, sub)] *)
Definition contains (s sub : string) : bool :=
  match str_index s sub with Some _ => true | None => false end.

(** [strings.Cut(s, sep)] *)
Definition cut (s sep : string) : string * string * bool :=
  match str_index s sep with
  | Some i => (str_take i s, str_drop (i + String.length sep) s, true)
  | None => (s, EmptyString, false)
  end.

(** * Runes *)

Definition byte_of (c : ascii) : Z := Z.of_N (N_of_ascii c).
Definition of_byte (z : Z) : ascii := ascii_of_N (Z.to_N z).

Definition rune_error : Z := 65533.

Definition is_cont (c : ascii) : bool := (128 <=? byte_of c) && (byte_of c <=? 191).

(** One step of [utf8.DecodeRune]: the rune at the head of a non-empty string
    and the number of bytes it takes. *)
Definition decode_rune (c : ascii) (s : string) : Z * nat :=
  let b0 := byte_of c in
  if b0 <? 128 then (b0, 1%nat)
  else match s with
  | String c1 s1 =>
    let b1 := byte_of c1 in
    if (194 <=? b0) && (b0 <=? 223) then
      if is_cont c1 then ((b0 - 192) * 64 + (b1 - 128), 2%nat) else (rune_error, 1%nat)
    else match s1 with
    | String c2 s2 =>
      let b2 := byte_of c2 in
      if (224 <=? b0) && (b0 <=? 239) then
        let lo := if b0 =? 224 then 160 else 128 in
        let hi := if b0 =? 237 then 159 else 191 in
        if (lo <=? b1) && (b1 <=? hi) && is_cont c2
        then ((b0 - 224) * 4096 + (b1 - 128) * 64 + (b2 - 128), 3%nat)
        else (rune_error, 1%nat)
      else match s2 with
      | String c3 _ =>
        let b3 := byte_of c3 in
        if (240 <=? b0) && (b0 <=? 244) then
          let lo := if b0 =? 240 then 144 else 128 in
          let hi := if b0 =? 244 then 143 else 191 in
          if (lo <=? b1) && (b1 <=? hi) && is_cont c2 && is_cont c3
          then ((b0 - 240) * 262144 + (b1 - 128) * 4096 + (b2 - 128) * 64 + (b3 - 128), 4%nat)
          else (rune_error, 1%nat)
        else (rune_error, 1%nat)
      | EmptyString => (rune_error, 1%nat)
      end
    | EmptyString => (rune_error, 1%nat)
    end
  | EmptyString => (rune_error, 1%nat)
  end.

(** The runes of a string, each with the bytes it was read from; [skip] counts
    the bytes of the current rune that are still to be passed over. *)
Fixpoint runes_from (skip : nat) (s : string) : list (Z * string) :=
  match s with
  | EmptyString => []
  | String c s' =>
    match skip with
    | S k => runes_from k s'
    | O => let '(r, w) := decode_rune c s' in
           (r, str_take w s) :: runes_from (w - 1) s'
    end
  end.

Definition runes (s : string) : list (Z * string) := runes_from 0 s.

(** [string(r)] for a valid rune, [utf8.EncodeRune] *)
Definition encode_rune (r : Z) : string :=
  if (r <? 0) || (1114111 <? r) || ((55296 <=? r) && (r <=? 57343)) then
    String (of_byte 239) (String (of_byte 191) (String (of_byte 189) EmptyString))
  else if r <? 128 then String (of_byte r) EmptyString
  else if r <? 2048 then
    String (of_byte (192 + r / 64)) (String (of_byte (128 + r mod 64)) EmptyString)
  else if r <? 65536 then
    String (of_byte (224 + r / 4096))
      (String (of_byte (128 + (r / 64) mod 64)) (String (of_byte (128 + r mod 64)) EmptyString))
  else
    String (of_byte (240 + r / 262144))
      (String (of_byte (128 + (r / 4096) mod 64))
        (String (of_byte (128 + (r / 64) mod 64)) (String (of_byte (128 + r mod 64)) EmptyString))).

Definition str_concat (l : list string) : string := foldr String.app EmptyString l.

(** [unicode.IsSpace] *)
Definition is_space (r : Z) : bool :=
  bool_decide (r ∈ [9; 10; 11; 12; 13; 32; 133; 160; 5760; 8232; 8233; 8239; 8287; 12288])
  || ((8192 <=? r) && (r <=? 8202)).

(** The case tables of package [unicode] for runes outside ASCII. *)
Class UnicodeCase := {
  unicode_lower : Z -> Z;
  unicode_upper : Z -> Z;
}.

Definition lower_rune `{UnicodeCase} (r : Z) : Z :=
  if (65 <=? r) && (r <=? 90) then r + 32
  else if r <? 128 then r else unicode_lower r.

Definition upper_rune `{UnicodeCase} (r : Z) : Z :=
  if (97 <=? r) && (r <=? 122) then r - 32
  else if r <? 128 then r else unicode_upper r.

(** [strings.ToLower] and [strings.ToUpper] *)
Definition to_lower `{UnicodeCase} (s : string) : string :=
  str_concat (map (fun x => encode_rune (lower_rune x.1)) (runes s)).

Definition to_upper `{UnicodeCase} (s : string) : string :=
  str_concat (map (fun x => encode_rune (upper_rune x.1)) (runes s)).

Fixpoint drop_space (l : list (Z * string)) : list (Z * string) :=
  match l with
  | (r, b) :: l' => if is_space r then drop_space l' else l
  | [] => []
  end.

(** [strings.TrimSpace] *)
Definition trim_space (s : string) : string :=
  str_concat (map snd (rev (drop_space (rev (drop_space (runes s)))))).

(** The tables restricted to ASCII: every other rune is its own case. *)
Definition ascii_case : UnicodeCase :=
  {| unicode_lower := fun r => r; unicode_upper := fun r => r |}.

(** * [strings.ReplaceAll]

    [skip] counts the bytes of the last match that are still to be passed over. *)
Fixpoint replace_from (old new : string) (skip : nat) (s : string) : string :=
  match s with
  | EmptyString => EmptyString
  | String c s' =>
    match skip with
    | S k => replace_from old new k s'
    | O => if has_prefix s old
           then new +:+ replace_from old new (String.length old - 1) s'
           else String c (replace_from old new 0 s')
    end
  end.

(** An empty [old] matches before every rune and at the end. *)
Definition replace_all (s old new : string) : string :=
  match old with
  | EmptyString => new +:+ str_concat (map (fun x => x.2 +:+ new) (runes s))
  | String _ _ => replace_from old new 0 s
  end.

(** * [strings.Split] on a single-byte separator *)
Fixpoint split_byte (sep : ascii) (s : string) : list string :=
  match s with
  | EmptyString => [EmptyString]
  | String c s' =>
    if Ascii.eqb c sep then EmptyString :: split_byte sep s'
    else match split_byte sep s' with
         | p :: ps => String c p :: ps
         | [] => [String c EmptyString]
         end
  end.

(** [strings.Join] *)
Fixpoint join (sep : string) (l : list string) : string :=
  match l with
  | [] => EmptyString
  | [x] => x
  | x :: l' => x +:+ sep +:+ join sep l'
  end.

(** [strconv.Atoi] *)
Definition digit_of (c : ascii) : option Z :=
  let b := byte_of c in if (48 <=? b) && (b <=? 57) then Some (b - 48) else None.

Fixpoint digits_from (acc : Z) (s : string) : option Z :=
  match s with
  | EmptyString => Some acc
  | String c s' => digit_of c ≫= fun d => digits_from (acc * 10 + d) s'
  end.

Definition Atoi (s : string) : option Z :=
  let '(neg, body) := match s with
                      | String c s' => if Ascii.eqb c "-" then (true, s')
                                       else if Ascii.eqb c "+" then (false, s') else (false, s)
                      | EmptyString => (false, s)
                      end in
  match body with
  | EmptyString => None
  | _ =>
    digits_from 0 body ≫= fun n =>
      let n := if neg then - n else n in
      if (min_int64 <=? n) && (n <=? max_int64) then Some n else None
  end.

(** [strings.Fields]: the maximal runs of runes that are not spaces. *)
Fixpoint fields_from (word : string) (l : list (Z * string)) : list string :=
  match l with
  | [] => if bool_decide (word = EmptyString) then [] else [word]
  | (r, b) :: l' =>
    if is_space r then
      (if bool_decide (word = EmptyString) then [] else [word]) ++ fields_from EmptyString l'
    else fields_from (word +:+ b) l'
  end.

Definition fields (s : string) : list string := fields_from EmptyString (runes s).

(** * Lemmas *)

#[local] Arguments String.append !s1 s2 : simpl nomatch.

Lemma str_app_nil_r (s : string) : s +:+ EmptyString = s.
Proof. induction s as [|c s IH]; simpl; [done|by rewrite IH]. Qed.

Lemma str_app_assoc (a b c : string) : a +:+ (b +:+ c) = (a +:+ b) +:+ c.
Proof. induction a as [|x a IH]; simpl; [done|by rewrite IH]. Qed.

Lemma str_length_app (a b : string) :
  String.length (a +:+ b) = (String.length a + String.length b)%nat.
Proof. induction a as [|x a IH]; simpl; [done|by rewrite IH]. Qed.

Lemma str_app_inv_l (a b c : string) : a +:+ b = a +:+ c -> b = c.
Proof. induction a as [|x a IH]; simpl; [done|]. intros [= H]. by apply IH. Qed.

Lemma str_drop_app (a b : string) : str_drop (String.length a) (a +:+ b) = b.
Proof. by induction a. Qed.

Lemma str_take_app (a b : string) : str_take (String.length a) (a +:+ b) = a.
Proof. induction a as [|x a IH]; simpl; [by destruct b|by rewrite IH]. Qed.

Lemma str_take_drop (n : nat) (s : string) : str_take n s +:+ str_drop n s = s.
Proof.
  revert s. induction n as [|n IH]; intros [|c s]; simpl; try done. by rewrite IH.
Qed.

Lemma str_length_take (n : nat) (s : string) :
  (n <= String.length s)%nat -> String.length (str_take n s) = n.
Proof.
  revert s. induction n as [|n IH]; intros [|c s]; simpl; try done; try lia.
  intros H. rewrite IH; lia.
Qed.

Lemma strip_prefix_spec (p s r : string) : strip_prefix p s = Some r <-> s = p +:+ r.
Proof.
  revert s. induction p as [|a p IH]; intros [|b s]; simpl.
  1,2: split; [by intros [= ->]|by intros <-].
  - split; [done|]. intros [=].
  - destruct (Ascii.eqb_spec a b) as [->|Hne].
    + rewrite IH. split; [by intros ->|]. by intros [= ->].
    + split; [done|]. intros [= ->]. done.
Qed.

Lemma has_prefix_spec (s p : string) : has_prefix s p = true <-> exists r, s = p +:+ r.
Proof.
  unfold has_prefix. destruct (strip_prefix p s) as [r|] eqn:E.
  - apply strip_prefix_spec in E. naive_solver.
  - split; [done|]. intros [r Hr]. apply strip_prefix_spec in Hr. congruence.
Qed.

Lemma has_prefix_app (p r : string) : has_prefix (p +:+ r) p = true.
Proof. apply has_prefix_spec. by exists r. Qed.

Lemma cut_suffix_spec (s suf p : string) : cut_suffix s suf = Some p <-> s = p +:+ suf.
Proof.
  unfold cut_suffix.
  destruct (String.eqb_spec (str_drop (String.length s - String.length suf) s) suf)
    as [Heq|Hne].
  - split.
    + intros [= <-]. etransitivity; [symmetry; apply str_take_drop|]. by rewrite Heq.
    + intros ->. f_equal. rewrite str_length_app.
      replace (String.length p + String.length suf - String.length suf)%nat
        with (String.length p) by lia.
      apply str_take_app.
  - split; [done|]. intros ->. destruct Hne. rewrite str_length_app.
    replace (String.length p + String.length suf - String.length suf)%nat
      with (String.length p) by lia.
    apply str_drop_app.
Qed.

Lemma has_suffix_spec (s suf : string) : has_suffix s suf = true <-> exists p, s = p +:+ suf.
Proof.
  unfold has_suffix. destruct (cut_suffix s suf) as [p|] eqn:E.
  - apply cut_suffix_spec in E. naive_solver.
  - split; [done|]. intros [p Hp]. apply cut_suffix_spec in Hp. congruence.
Qed.

(** ** Occurrences *)

Definition occurs (sub s : string) : Prop := exists a b, s = a +:+ (sub +:+ b).

Lemma str_index_Some (s sub : string) (i : nat) :
  str_index s sub = Some i ->
  s = str_take i s +:+ (sub +:+ str_drop (i + String.length sub) s) /\ (i <= String.length s)%nat.
Proof.
  revert i. induction s as [|c s IH]; intros i; cbn [str_index].
  - destruct (has_prefix EmptyString sub) eqn:E; [|done].
    intros [= <-]. apply has_prefix_spec in E as [r Hr].
    destruct sub; [|done]. simpl. auto.
  - destruct (has_prefix (String c s) sub) eqn:E.
    + intros [= <-]. apply has_prefix_spec in E as [r Hr]. rewrite Hr.
      simpl (str_take 0 _). rewrite Nat.add_0_l, str_drop_app. simpl. split; [done|lia].
    + destruct (str_index s sub) as [j|] eqn:Ej; [|done].
      intros [= <-]. destruct (IH j eq_refl) as [IH1 IH2]. simpl. split; [by f_equal|lia].
Qed.

Lemma contains_spec (s sub : string) : contains s sub = true <-> occurs sub s.
Proof.
  unfold contains. split.
  - destruct (str_index s sub) as [i|] eqn:E; [|done]. intros _.
    apply str_index_Some in E as [E _]. eexists _, _. exact E.
  - intros (a & b & ->). induction a as [|x a IH]; cbn [String.app].
    + destruct (sub +:+ b) eqn:E; cbn [str_index]; rewrite <- E, has_prefix_app; done.
    + cbn [str_index]. destruct (has_prefix (String x (a +:+ (sub +:+ b))) sub); [done|].
      by destruct (str_index (a +:+ (sub +:+ b)) sub).
Qed.

#[global] Instance occurs_dec (sub s : string) : Decision (occurs sub s).
Proof.
  destruct (contains s sub) eqn:E.
  - left. by apply contains_spec.
  - right. rewrite <- contains_spec. congruence.
Defined.

Lemma occurs_cons (sub s : string) (c : ascii) : occurs sub s -> occurs sub (String c s).
Proof. intros (a & b & ->). by exists (String c a), b. Qed.

Lemma occurs_cons_inv (sub s : string) (c : ascii) :
  occurs sub (String c s) -> has_prefix (String c s) sub = true \/ occurs sub s.
Proof.
  intros ([|x a] & b & H).
  - left. apply has_prefix_spec. by exists b.
  - right. injection H as -> H. by exists a, b.
Qed.

Lemma occurs_app_r (sub a b : string) : occurs sub b -> occurs sub (a +:+ b).
Proof. induction a; simpl; [done|]. intros. by apply occurs_cons, IHa. Qed.

(** Characters of a string. *)
Fixpoint str_elem (c : ascii) (s : string) : bool :=
  match s with
  | EmptyString => false
  | String x s' => Ascii.eqb x c || str_elem c s'
  end.

Lemma str_elem_app (c : ascii) (a b : string) :
  str_elem c (a +:+ b) = str_elem c a || str_elem c b.
Proof. induction a as [|x a IH]; simpl; [done|]. by rewrite IH, orb_assoc. Qed.

(** A word without the byte [c] does not straddle an occurrence of [c]. *)
Lemma prefix_split (c : ascii) (p x y : string) :
  str_elem c p = false -> has_prefix (x +:+ String c y) p = true -> has_prefix x p = true.
Proof.
  rewrite !has_prefix_spec. intros Hp [r Hr]. revert p Hp Hr.
  induction x as [|a x IH]; intros [|b p] Hp Hr; simpl in *; try (by eauto).
  - injection Hr as -> _. by rewrite Ascii.eqb_refl in Hp.
  - injection Hr as -> Hr. apply orb_false_iff in Hp as [_ Hp].
    destruct (IH p Hp Hr) as [r' ->]. by exists r'.
Qed.

Lemma occurs_split (c : ascii) (p x y : string) :
  str_elem c p = false -> p <> EmptyString ->
  occurs p (x +:+ String c y) -> occurs p x \/ occurs p y.
Proof.
  intros Hp Hne. induction x as [|a x IH]; cbn [String.app]; intros Ho.
  - apply occurs_cons_inv in Ho as [Hpre|Ho]; [|by right].
    apply has_prefix_spec in Hpre as [r Hr]. destruct p as [|b p]; [done|].
    injection Hr as -> _. simpl in Hp. by rewrite Ascii.eqb_refl in Hp.
  - apply occurs_cons_inv in Ho as [Hpre|Ho].
    + left. apply (prefix_split c p (String a x) y Hp) in Hpre.
      apply has_prefix_spec in Hpre as [r Hr]. by exists EmptyString, r.
    + destruct (IH Ho); [left|by right]. by apply occurs_cons.
Qed.

(** ** What replacement leaves behind

    The replacement text is a marker [l :: body ++ [r]] whose first and last
    bytes do not occur in the word looked for, as in ["[REDACTED]"]. *)
Section replacement.
Context (l r : ascii) (body : string).

Definition marker : string := String l (body +:+ String r EmptyString).

(** Words that the marker can neither contain nor straddle. *)
Definition marker_free (p : string) : Prop :=
  p <> EmptyString /\ str_elem l p = false /\ str_elem r p = false /\ ~ occurs p body.

Lemma marker_split (p t : string) :
  marker_free p -> occurs p (marker +:+ t) -> occurs p t.
Proof.
  intros (Hne & Hl & Hr & Hb). unfold marker. simpl.
  intros Ho. apply (occurs_split l p EmptyString _ Hl Hne) in Ho as [Ho|Ho].
  - destruct Ho as (a & b & Hab). destruct a, p; done.
  - rewrite <- str_app_assoc in Ho. simpl in Ho.
    apply (occurs_split r p body t Hr Hne) in Ho as [Ho|Ho]; done.
Qed.

(** A marker-free prefix of the output is a prefix of the input. *)
Lemma replace_from_prefix (old p s : string) :
  str_elem l p = false ->
  has_prefix (replace_from old marker 0 s) p = true -> has_prefix s p = true.
Proof.
  revert p. induction s as [|c s IH]; intros p Hp; cbn [replace_from]; [done|].
  destruct (has_prefix (String c s) old) eqn:E.
  - intros H. apply (prefix_split l p EmptyString) in H; [|done].
    apply has_prefix_spec in H as [q Hq]. destruct p; [done|done].
  - intros H. apply has_prefix_spec in H as [q Hq].
    destruct p as [|b p]; [done|]. simpl in Hq. injection Hq as -> Hq.
    simpl in Hp. apply orb_false_iff in Hp as [_ Hp].
    assert (has_prefix s p = true) as Hs.
    { apply IH; [done|]. rewrite Hq. apply has_prefix_app. }
    apply has_prefix_spec in Hs as [q' ->]. apply has_prefix_spec. by exists q'.
Qed.

(** Replacing [old] creates no new occurrence of a marker-free word. *)
Lemma replace_from_occurs (old p : string) (skip : nat) (s : string) :
  marker_free p -> occurs p (replace_from old marker skip s) -> occurs p s.
Proof.
  intros Hp. revert skip. induction s as [|c s IH]; intros skip; cbn [replace_from]; [done|].
  destruct skip as [|k]; [|intros; by eapply occurs_cons, IH].
  destruct (has_prefix (String c s) old) eqn:E.
  - intros Ho. apply occurs_cons. eapply IH. by eapply marker_split.
  - intros Ho. apply occurs_cons_inv in Ho as [Hpre|Ho].
    + change (String c (replace_from old marker 0 s)) with
        (String c EmptyString +:+ replace_from old marker 0 s) in Hpre.
      assert (has_prefix (String c s) p = true) as Hs.
      { apply (replace_from_prefix old); [by apply Hp|]. cbn [replace_from]. by rewrite E. }
      apply has_prefix_spec in Hs as [q ->]. by exists EmptyString, q.
    + apply occurs_cons. by eapply IH.
Qed.

(** After replacement a marker-free [old] is gone. *)
Lemma replace_from_gone (old : string) (skip : nat) (s : string) :
  marker_free old -> ~ occurs old (replace_from old marker skip s).
Proof.
  intros Hp. revert skip. induction s as [|c s IH]; intros skip; cbn [replace_from].
  { intros (a & b & H). destruct Hp as [Hne _]. destruct a, old; done. }
  destruct skip as [|k]; [|apply IH].
  destruct (has_prefix (String c s) old) eqn:E.
  - intros Ho. eapply IH. by eapply marker_split.
  - intros Ho. apply occurs_cons_inv in Ho as [Hpre|Ho]; [|by eapply IH].
    assert (has_prefix (String c s) old = true); [|congruence].
    apply (replace_from_prefix old); [by apply Hp|]. cbn [replace_from]. by rewrite E.
Qed.

Lemma replace_all_occurs (old p s : string) :
  old <> EmptyString -> marker_free p -> occurs p (replace_all s old marker) -> occurs p s.
Proof. destruct old; [done|]. intros _. apply replace_from_occurs. Qed.

Lemma replace_all_gone (old s : string) :
  marker_free old -> ~ occurs old (replace_all s old marker).
Proof. intros H. destruct old; [by destruct H|]. by apply replace_from_gone. Qed.
End replacement.

(** Text without an occurrence is left alone. *)
Lemma replace_from_id (old new s : string) :
  ~ occurs old s -> replace_from old new 0 s = s.
Proof.
  induction s as [|c s IH]; cbn [replace_from]; intros H; [done|].
  destruct (has_prefix (String c s) old) eqn:E.
  - destruct H. apply has_prefix_spec in E as [q ->]. by exists EmptyString, q.
  - rewrite IH; [done|]. intros Ho. by apply H, occurs_cons.
Qed.

Lemma replace_all_id (old new s : string) :
  old <> EmptyString -> ~ occurs old s -> replace_all s old new = s.
Proof. destruct old; [done|]. intros _. apply replace_from_id. Qed.

(** Two ways to cut one string. *)
Lemma str_app_split (a x b y : string) :
  a +:+ x = b +:+ y ->
  (exists z, a = b +:+ z /\ y = z +:+ x) \/ (exists z, b = a +:+ z /\ x = z +:+ y).
Proof.
  revert b. induction a as [|c a IH]; intros b; simpl.
  - intros ->. right. by exists b.
  - destruct b as [|d b]; simpl.
    + intros <-. left. by exists (String c a).
    + intros [= -> H]. destruct (IH b H) as [(z & -> & ->)|(z & -> & ->)]; [left|right]; by exists z.
Qed.

Lemma str_app_inv_r (a b x : string) : a +:+ x = b +:+ x -> a = b.
Proof.
  intros H. apply str_app_split in H as [(z & -> & Hz)|(z & -> & Hz)];
    apply (f_equal String.length) in Hz; rewrite str_length_app in Hz;
    (destruct z; [by rewrite str_app_nil_r|simpl in Hz; lia]).
Qed.

(** ** What is before a byte *)

Lemma before_cons (b c : ascii) (s : string) :
  (cut (String c s) (String b EmptyString)).1.1 = if Ascii.eqb c b then EmptyString else String c (cut s (String b EmptyString)).1.1.
Proof.
  unfold cut. cbn [str_index]. unfold has_prefix. cbn [strip_prefix]. rewrite Ascii.eqb_sym.
  destruct (Ascii.eqb c b); [done|]. by destruct (str_index s _).
Qed.

Lemma before_spec (b : ascii) (s : string) :
  let first := (cut s (String b EmptyString)).1.1 in
  str_elem b first = false /\ (s = first \/ exists rest, s = first +:+ String b rest).
Proof.
  induction s as [|c s [IHn IHs]]; cbv zeta in *; [by split; [|left]|]. rewrite before_cons. destruct (Ascii.eqb_spec c b) as [->|Hc].
  - split; [done|]. right. by exists s.
  - split; [cbn [str_elem]; apply orb_false_iff; split; [by apply Ascii.eqb_neq|done]|].
    destruct IHs as [IHs|[rest IHs]]; [left|right; exists rest]; exact (f_equal (String c) IHs).
Qed.

Lemma before_unique (b : ascii) (first rest : string) :
  str_elem b first = false ->
  (cut first (String b EmptyString)).1.1 = first /\ (cut (first +:+ String b rest) (String b EmptyString)).1.1 = first.
Proof.
  induction first as [|c first IH]; [intros _; split; [done|]; change (EmptyString +:+ String b rest) with (String b rest);
    rewrite before_cons; by rewrite Ascii.eqb_refl|].
  cbn [str_elem]. intros [Hc Hn]%orb_false_iff. destruct (IH Hn) as [E E'].
  change (String c first +:+ String b rest) with (String c (first +:+ String b rest)). rewrite !before_cons, Hc, E, E'. done.
Qed.

(** [first] is what stands before the first [b] of [s], or all of [s]. *)
Definition stands_before (b : ascii) (s first : string) : Prop :=
  str_elem b first = false /\ (s = first \/ exists rest, s = first +:+ String b rest).

Lemma stands_before_spec (b : ascii) (s first : string) : stands_before b s first <-> first = (cut s (String b EmptyString)).1.1.
Proof.
  split; [|intros ->; apply before_spec]. intros [Hn [->|[rest ->]]]; [by rewrite (proj1 (before_unique b first EmptyString Hn))|].
  by rewrite (proj2 (before_unique b first rest Hn)).
Qed.

(** ** Split and join *)

Lemma join_cons (sep x y : string) (t : list string) :
  join sep (x :: y :: t) = x +:+ sep +:+ join sep (y :: t).
Proof. done. Qed.

Lemma split_byte_nonempty (sep : ascii) (s : string) : split_byte sep s <> [].
Proof.
  destruct s as [|c s]; simpl; [done|].
  destruct (Ascii.eqb c sep); [done|]. by destruct (split_byte sep s).
Qed.

Lemma split_byte_no_sep (sep : ascii) (s p : string) :
  p ∈ split_byte sep s -> str_elem sep p = false.
Proof.
  revert p. induction s as [|c s IH]; simpl; intros p.
  - rewrite list_elem_of_singleton. by intros ->.
  - destruct (Ascii.eqb_spec c sep) as [->|Hne].
    + rewrite elem_of_cons. intros [->|H]; [done|by apply IH].
    + destruct (split_byte sep s) as [|q qs] eqn:E; [by apply split_byte_nonempty in E|].
      rewrite elem_of_cons. intros [->|H].
      * simpl. apply orb_false_iff. split; [by apply Ascii.eqb_neq|].
        apply IH. by left.
      * apply IH. by right.
Qed.

Lemma join_split_byte (sep : ascii) (s : string) :
  join (String sep EmptyString) (split_byte sep s) = s.
Proof.
  induction s as [|c s IH]; simpl; [done|].
  destruct (Ascii.eqb_spec c sep) as [->|Hne].
  - destruct (split_byte sep s) as [|q qs] eqn:E; [by apply split_byte_nonempty in E|].
    rewrite join_cons, IH. done.
  - destruct (split_byte sep s) as [|q [|q' qs]] eqn:E;
      [by apply split_byte_nonempty in E| |].
    + simpl in *. by rewrite IH.
    + rewrite join_cons in IH. rewrite join_cons. rewrite <- IH. done.
Qed.

Lemma split_byte_plain (sep : ascii) (p : string) :
  str_elem sep p = false -> split_byte sep p = [p].
Proof.
  induction p as [|c p IH]; simpl; [done|]. intros H.
  apply orb_false_iff in H as [H1 H2]. rewrite H1, IH by done. done.
Qed.

Lemma split_byte_app (sep : ascii) (a b : string) :
  split_byte sep (a +:+ String sep b) = split_byte sep a ++ split_byte sep b.
Proof.
  induction a as [|c a IH]; simpl.
  - by rewrite Ascii.eqb_refl.
  - rewrite IH. destruct (Ascii.eqb c sep); [done|].
    destruct (split_byte sep a) as [|p ps] eqn:E; [by apply split_byte_nonempty in E|done].
Qed.

Lemma split_byte_join (sep : ascii) (l : list string) :
  l <> [] -> Forall (fun p => str_elem sep p = false) l ->
  split_byte sep (join (String sep EmptyString) l) = l.
Proof.
  intros Hne H. induction H as [|x l Hx Hl IH]; [done|].
  destruct l as [|y l].
  - by apply split_byte_plain.
  - rewrite join_cons. cbn [String.append]. rewrite split_byte_app, split_byte_plain by done. by rewrite IH.
Qed.
