(* ===== verification/GoPath.v ===== *)
(** Go's [path/filepath] on Unix: [Clean], [IsAbs], [Join], [Rel], [Dir] and [Base].

    [clean] splits the path at the slashes, resolves [.], [..] and empty
    elements with a stack, and joins what remains, which is the normal form the
    documentation of [filepath.Clean] describes.  The lemmas give what the
    permission gate relies on: a cleaned absolute path has no [..] element, so
    a textual prefix test on it is a test of directory containment. *)

From S2P Require Import Prelude GoString.

#[local] Arguments String.append !s1 s2 : simpl nomatch.

Definition slash : ascii := "/"%char.
Definition slash_s : string := "/".

(** [filepath.IsAbs] *)
Definition is_abs (p : string) : bool := has_prefix p slash_s.

(** One element on top of the stack of kept elements (innermost first). *)
Definition clean_step (rooted : bool) (stack : list string) (e : string) : list string :=
  if bool_decide (e = EmptyString \/ e = ".") then stack
  else if bool_decide (e = "..") then
    match stack with
    | [] => if rooted then [] else [".."]
    | top :: rest => if bool_decide (top = "..") then ".." :: stack else rest
    end
  else e :: stack.

Definition clean_elems (rooted : bool) (es : list string) : list string :=
  rev (fold_left (clean_step rooted) es []).

(** [filepath.Clean] *)
Definition clean (p : string) : string :=
  let rooted := is_abs p in
  let es := clean_elems rooted (split_byte slash p) in
  if rooted then slash_s +:+ join slash_s es
  else match es with
       | [] => "."
       | _ => join slash_s es
       end.

(** * Elements of a cleaned absolute path *)

(** An element that names an entry: no slash, not empty, not [.], not [..]. *)
Definition plain_elem (e : string) : Prop :=
  str_elem slash e = false /\ e <> EmptyString /\ e <> "." /\ e <> "..".

Lemma clean_step_plain (stack : list string) (e : string) :
  str_elem slash e = false -> Forall plain_elem stack ->
  Forall plain_elem (clean_step true stack e).
Proof.
  intros He Hs. unfold clean_step.
  case_bool_decide as H1; [done|]. case_bool_decide as H2.
  - destruct stack as [|t rest]; [done|]. inversion_clear Hs as [|? ? Ht Hr].
    case_bool_decide; [|done]. by destruct Ht as (_ & _ & _ & ?).
  - constructor; [|done]. unfold plain_elem. tauto.
Qed.

Lemma fold_clean_plain (es stack : list string) :
  Forall (fun e => str_elem slash e = false) es -> Forall plain_elem stack ->
  Forall plain_elem (fold_left (clean_step true) es stack).
Proof.
  revert stack. induction es as [|e es IH]; simpl; intros stack He Hs; [done|].
  inversion_clear He. apply IH; [done|]. by apply clean_step_plain.
Qed.

Lemma clean_elems_plain (es : list string) :
  Forall (fun e => str_elem slash e = false) es -> Forall plain_elem (clean_elems true es).
Proof. intros H. unfold clean_elems. apply Forall_rev. by apply fold_clean_plain. Qed.

Lemma split_slash_ok (p : string) : Forall (fun e => str_elem slash e = false) (split_byte slash p).
Proof. apply Forall_forall. intros e. apply split_byte_no_sep. Qed.

(** The elements of an absolute path in normal form. *)
Definition abs_of (es : list string) : string := String slash (join slash_s es).

Lemma split_slash_cons (s : string) :
  split_byte slash (String slash s) = EmptyString :: split_byte slash s.
Proof. done. Qed.

Lemma clean_abs (p : string) :
  is_abs p = true ->
  exists es, clean p = abs_of es /\ Forall plain_elem es.
Proof.
  intros H. unfold clean. rewrite H. eexists. split; [done|].
  apply clean_elems_plain, split_slash_ok.
Qed.

Lemma plain_no_step (rooted : bool) (es stack : list string) :
  Forall plain_elem es -> fold_left (clean_step rooted) es stack = rev es ++ stack.
Proof.
  intros H. revert stack. induction H as [|e es He Hes IH]; intros stack; simpl; [done|].
  rewrite IH. unfold clean_step at 1. destruct He as (_ & H1 & H2 & H3).
  case_bool_decide; [tauto|]. case_bool_decide; [done|].
  by rewrite <- app_assoc.
Qed.

Lemma split_abs (es : list string) :
  es <> [] -> Forall plain_elem es -> split_byte slash (abs_of es) = EmptyString :: es.
Proof.
  intros Hne H. unfold abs_of. rewrite split_slash_cons. f_equal.
  apply split_byte_join; [done|]. eapply Forall_impl; [exact H|]. by intros e [? _].
Qed.

(** [Clean] is the identity on its own absolute results. *)
Lemma clean_abs_of (es : list string) : Forall plain_elem es -> clean (abs_of es) = abs_of es.
Proof.
  intros H. unfold clean. replace (is_abs (abs_of es)) with true
    by (symmetry; apply (has_prefix_app slash_s)).
  destruct (decide (es = [])) as [->|Hne]; [done|].
  rewrite split_abs by done. unfold clean_elems.
  cbn [fold_left]. change (clean_step true [] EmptyString) with (@nil string).
  rewrite plain_no_step by done. by rewrite app_nil_r, rev_involutive.
Qed.

Lemma clean_abs_idem (p : string) : is_abs p = true -> clean (clean p) = clean p.
Proof. intros H. destruct (clean_abs p H) as (es & -> & Hes). by apply clean_abs_of. Qed.

(** Elements kept by [clean] are never empty. *)
Definition named_elem (e : string) : Prop := str_elem slash e = false /\ e <> EmptyString.

Lemma dotdot_named : named_elem "..".
Proof. by split. Qed.

Lemma clean_step_named (rooted : bool) (stack : list string) (e : string) :
  str_elem slash e = false -> Forall named_elem stack ->
  Forall named_elem (clean_step rooted stack e).
Proof.
  intros He Hs. unfold clean_step.
  case_bool_decide as H1; [done|]. case_bool_decide as H2.
  - destruct stack as [|t rest].
    + destruct rooted; [done|]. constructor; [apply dotdot_named|done].
    + case_bool_decide; [|by inversion Hs]. constructor; [apply dotdot_named|done].
  - constructor; [unfold named_elem; tauto|done].
Qed.

Lemma clean_elems_named (rooted : bool) (p : string) :
  Forall named_elem (clean_elems rooted (split_byte slash p)).
Proof.
  unfold clean_elems. apply Forall_rev. pose proof (split_slash_ok p) as Hok.
  assert (Forall named_elem []) as Hst by done. revert Hst. generalize (@nil string).
  induction Hok as [|x l Hx Hl IH]; cbn [fold_left]; [done|].
  intros st Hst. apply IH. by apply clean_step_named.
Qed.

Lemma clean_is_abs (p : string) : is_abs (clean p) = is_abs p.
Proof.
  unfold clean. destruct (is_abs p) eqn:E.
  - unfold is_abs. apply has_prefix_app.
  - destruct (clean_elems false (split_byte slash p)) as [|e es] eqn:Ec; [done|].
    assert (named_elem e) as [Hs Hne].
    { pose proof (clean_elems_named false p) as Hall. rewrite Ec in Hall. by inversion Hall. }
    unfold is_abs. destruct e as [|c e]; [done|].
    assert (join slash_s (String c e :: es) = String c (e +:+
      match es with [] => EmptyString | _ => slash_s +:+ join slash_s es end)) as ->.
    { destruct es; simpl; [by rewrite str_app_nil_r|done]. }
    destruct (has_prefix _ _) eqn:Hp; [|done]. apply has_prefix_spec in Hp as [r Hr].
    injection Hr as -> _. done.
Qed.

(** * Directory containment *)

(** The text of a directory whose elements are [ds], without a final slash. *)
Definition dir_text (ds : list string) : string :=
  match ds with [] => EmptyString | _ => abs_of ds end.

(** A textual prefix test on a normal form is containment of elements. *)
Lemma prefix_elems (base : string) (es : list string) :
  Forall plain_elem es ->
  has_prefix (abs_of es) (base +:+ "/") = true ->
  exists ds rest, es = ds ++ rest /\ base = dir_text ds.
Proof.
  intros He Hp. apply has_prefix_spec in Hp as [r Hr].
  rewrite <- str_app_assoc in Hr. change ("/" +:+ r) with (String slash r) in Hr.
  destruct base as [|c base].
  { exists [], es. done. }
  assert (es <> []) as Hes.
  { intros ->. apply (f_equal String.length) in Hr. revert Hr. simpl.
    rewrite str_length_app. simpl. lia. }
  assert (c = slash) as -> by (by injection Hr as <- _).
  apply (f_equal (split_byte slash)) in Hr.
  rewrite split_abs, split_byte_app, split_slash_cons in Hr by done.
  injection Hr as Hr. exists (split_byte slash base), (split_byte slash r). split; [done|].
  pose proof (split_byte_nonempty slash base) as Hne.
  unfold dir_text, abs_of. destruct (split_byte slash base) as [|d ds] eqn:E; [done|].
  rewrite <- E. f_equal. symmetry. apply join_split_byte.
Qed.

(** One more element below a directory in normal form. *)
Lemma clean_below (es : list string) (a : string) :
  Forall plain_elem es -> plain_elem a ->
  clean (abs_of es +:+ String slash a) = abs_of (es ++ [a]).
Proof.
  intros Hes Ha. unfold clean.
  replace (is_abs (abs_of es +:+ String slash a)) with true
    by (symmetry; apply (has_prefix_app slash_s)).
  rewrite split_byte_app, (split_byte_plain slash a) by apply Ha. unfold clean_elems.
  rewrite fold_left_app.
  assert (fold_left (clean_step true) (split_byte slash (abs_of es)) [] = rev es) as ->.
  { destruct (decide (es = [])) as [->|Hne]; [done|]. rewrite split_abs by done.
    cbn [fold_left]. change (clean_step true [] EmptyString) with (@nil string).
    rewrite plain_no_step by done. apply app_nil_r. }
  rewrite plain_no_step by (by constructor).
  simpl. by rewrite rev_involutive.
Qed.

Lemma abs_of_inj (es es' : list string) :
  Forall plain_elem es -> Forall plain_elem es' -> abs_of es = abs_of es' -> es = es'.
Proof.
  intros He He' Heq.
  assert (forall l, l <> [] -> Forall plain_elem l -> abs_of l <> abs_of []) as Hnil.
  { intros l Hne Hl Ha. apply (f_equal (split_byte slash)) in Ha. rewrite split_abs in Ha by done.
    injection Ha as ->. inversion_clear Hl as [|? ? Hp]. by destruct Hp as (_ & Hp & _). }
  destruct (decide (es = [])) as [->|Hne], (decide (es' = [])) as [->|Hne']; [done| | |].
  - by apply symmetry, Hnil in Heq.
  - by apply Hnil in Heq.
  - apply (f_equal (split_byte slash)) in Heq. rewrite !split_abs in Heq by done. congruence.
Qed.

(** * Join, Rel, Dir and Base *)

(** [filepath.Join] of two elements *)
Definition path_join (a b : string) : string :=
  if bool_decide (a = EmptyString) then
    if bool_decide (b = EmptyString) then EmptyString else clean b
  else clean (a +:+ slash_s +:+ b).

Fixpoint strip_common (bs ts : list string) : list string * list string :=
  match bs, ts with
  | b :: bs', t :: ts' => if bool_decide (b = t) then strip_common bs' ts' else (bs, ts)
  | _, _ => (bs, ts)
  end.

Definition path_elems (p : string) : list string :=
  List.filter (fun e => negb (bool_decide (e = EmptyString))) (split_byte slash p).

(** [filepath.Rel]: [None] is its error. *)
Definition path_rel (base targ : string) : option string :=
  let b := clean base in
  let t := clean targ in
  if bool_decide (t = b) then Some "."
  else
    let b' := if bool_decide (b = ".") then EmptyString else b in
    if negb (Bool.eqb (is_abs b') (is_abs t)) then None
    else match strip_common (path_elems b') (path_elems t) with
         | ([], ts) => Some (join slash_s ts)
         | (e :: bs, ts) => if bool_decide (e = "..") then None
                            else Some (join slash_s (map (fun _ => "..") (e :: bs) ++ ts))
         end.

(** [filepath.Dir] *)
Definition path_dir (p : string) : string :=
  match removelast (split_byte slash p) with
  | [] => "."
  | es => clean (join slash_s es +:+ slash_s)
  end.

(** [filepath.Base] *)
Definition path_base (p : string) : string :=
  if bool_decide (p = EmptyString) then "."
  else match last (path_elems p) with Some e => e | None => slash_s end.

Lemma path_join_below (es : list string) (a : string) :
  Forall plain_elem es -> plain_elem a -> path_join (abs_of es) a = abs_of (es ++ [a]).
Proof.
  intros Hes Ha. unfold path_join. rewrite bool_decide_eq_false_2 by done.
  by apply clean_below.
Qed.

Lemma path_elems_abs (es : list string) : Forall plain_elem es -> path_elems (abs_of es) = es.
Proof.
  intros He. destruct (decide (es = [])) as [->|Hne]; [done|]. unfold path_elems. rewrite split_abs by done. simpl.
  clear Hne. induction He as [|e es [_ [H1 _]] _ IH]; simpl; [done|]. by rewrite bool_decide_eq_false_2, IH.
Qed.

Lemma path_base_abs (es : list string) (a : string) :
  Forall plain_elem es -> plain_elem a -> path_base (abs_of (es ++ [a])) = a.
Proof.
  intros He Ha. unfold path_base. rewrite bool_decide_eq_false_2 by done.
  rewrite path_elems_abs by (apply Forall_app; by rewrite Forall_singleton). by rewrite last_snoc.
Qed.

Lemma clean_trailing (es : list string) : Forall plain_elem es -> clean (dir_text es +:+ slash_s) = abs_of es.
Proof.
  intros He. destruct (decide (es = [])) as [->|Hne]; [by vm_compute|].
  assert (dir_text es = abs_of es) as -> by (by destruct es). unfold clean.
  replace (is_abs (abs_of es +:+ slash_s)) with true by (symmetry; apply (has_prefix_app slash_s)).
  change (abs_of es +:+ slash_s) with (abs_of es +:+ String slash EmptyString). rewrite split_byte_app, split_abs by done.
  unfold clean_elems. rewrite fold_left_app.
  assert (fold_left (clean_step true) (EmptyString :: es) [] = rev es) as ->.
  { cbn [fold_left]. change (clean_step true [] EmptyString) with (@nil string).
    rewrite plain_no_step by done. apply app_nil_r. }
  change (fold_left (clean_step true) (split_byte slash EmptyString) (rev es)) with (rev es). by rewrite rev_involutive.
Qed.

Lemma path_dir_abs (es : list string) (a : string) :
  Forall plain_elem es -> plain_elem a -> path_dir (abs_of (es ++ [a])) = abs_of es.
Proof.
  intros He Ha. unfold path_dir. rewrite split_abs by
    (first [by destruct es|apply Forall_app; by rewrite Forall_singleton]).
  rewrite app_comm_cons, removelast_last. rewrite <- (clean_trailing es) by done. f_equal.
Qed.

(** Several elements below a directory in normal form. *)
Lemma clean_below_all (es t : list string) :
  Forall plain_elem es -> Forall plain_elem t -> t <> [] ->
  clean (abs_of es +:+ String slash (join slash_s t)) = abs_of (es ++ t).
Proof.
  intros Hes Ht Hne. unfold clean.
  replace (is_abs (abs_of es +:+ String slash (join slash_s t))) with true by (symmetry; apply (has_prefix_app slash_s)).
  rewrite split_byte_app.
  assert (split_byte slash (join slash_s t) = t) as -> by (apply split_byte_join; [done|]; eapply Forall_impl; [exact Ht|]; by intros e [? _]).
  unfold clean_elems. rewrite fold_left_app.
  assert (fold_left (clean_step true) (split_byte slash (abs_of es)) [] = rev es) as ->.
  { destruct (decide (es = [])) as [->|Hn]; [done|]. rewrite split_abs by done.
    cbn [fold_left]. change (clean_step true [] EmptyString) with (@nil string).
    rewrite plain_no_step by done. apply app_nil_r. }
  rewrite plain_no_step by done. by rewrite <- rev_app_distr, rev_involutive.
Qed.

(** [filepath.Join] of a list *)
Definition path_joins (l : list string) : string :=
  match List.filter (fun e => negb (bool_decide (e = EmptyString))) l with
  | [] => EmptyString
  | es => clean (join slash_s es)
  end.

Lemma filter_plain (t : list string) :
  Forall plain_elem t -> List.filter (fun e => negb (bool_decide (e = EmptyString))) t = t.
Proof. induction 1 as [|e t [_ [He _]] _ IH]; simpl; [done|]. by rewrite bool_decide_eq_false_2, IH. Qed.

Lemma path_joins_below (es t : list string) :
  Forall plain_elem es -> Forall plain_elem t -> path_joins (abs_of es :: t) = abs_of (es ++ t).
Proof.
  intros Hes Ht. unfold path_joins. simpl List.filter. rewrite filter_plain by done.
  destruct t as [|x t].
  - simpl. rewrite app_nil_r. by apply clean_abs_of.
  - rewrite join_cons. by apply clean_below_all.
Qed.

(** [path == dir || strings.HasPrefix(path, dir+"/")] *)
Definition inside (path dir : string) : bool := bool_decide (path = dir) || has_prefix path (dir +:+ slash_s).

Lemma inside_elems (es ds : list string) :
  Forall plain_elem es -> Forall plain_elem ds -> inside (abs_of es) (abs_of ds) = true -> exists rest, es = ds ++ rest.
Proof.
  intros He Hd. unfold inside. intros [E%bool_decide_eq_true_1|Hp]%orb_true_iff.
  - exists []. rewrite app_nil_r. by apply abs_of_inj.
  - destruct (prefix_elems _ _ He Hp) as (ds' & rest & -> & E). exists rest. f_equal.
    apply Forall_app in He as [He _]. destruct ds' as [|d ds']; [done|]. apply abs_of_inj; [done..|]. by rewrite E.
Qed.

Lemma abs_length (es : list string) : Forall plain_elem es -> (length es <= String.length (abs_of es))%nat.
Proof.
  intros He. unfold abs_of. simpl. assert (length es <= S (String.length (join slash_s es)))%nat; [|lia].
  induction He as [|e es [_ [Hne _]] _ IH]; simpl; [lia|]. destruct es as [|x es]; [simpl; lia|].
  rewrite !str_length_app. simpl in *. destruct e; [done|]. simpl. lia.
Qed.
