(* ===== verification/GoFloat.v ===== *)
(** Go's [float64]: IEEE 754 binary64 with round to nearest even, from the
    executable specification of the Standard Library ([SpecFloat]). *)

From S2P Require Import Prelude.
From Stdlib Require Import SpecFloat.

Definition float64 : Type := spec_float.

Definition f64_prec : Z := 53.
Definition f64_emax : Z := 1024.

Definition f64_add : float64 -> float64 -> float64 := SFadd f64_prec f64_emax.
Definition f64_sub : float64 -> float64 -> float64 := SFsub f64_prec f64_emax.
Definition f64_mul : float64 -> float64 -> float64 := SFmul f64_prec f64_emax.
Definition f64_div : float64 -> float64 -> float64 := SFdiv f64_prec f64_emax.

(** [float64(n)] for an integer [n]. *)
Definition f64_of_Z (n : Z) : float64 := binary_normalize f64_prec f64_emax n 0 false.

(** [int(f)] for a [float64]: truncation; out of range, NaN and infinities give
    the integer indefinite value of amd64. *)
Definition f64_to_int (f : float64) : Z :=
  match f with
  | S754_zero _ => 0
  | S754_finite s m e =>
    let mag := if 0 <=? e then Z.pos m * 2 ^ e else Z.pos m / 2 ^ (- e) in
    let v := if s then - mag else mag in
    if (min_int64 <=? v) && (v <=? max_int64) then v else min_int64
  | _ => min_int64
  end.

Definition f64_zero : float64 := S754_zero false.

(** [a < b], [a <= b], [a == b]: false when an operand is NaN. *)
Definition f64_lt (a b : float64) : bool := SFltb a b.
Definition f64_le (a b : float64) : bool := SFleb a b.
Definition f64_eq (a b : float64) : bool := SFeqb a b.

Definition f64_is_nan (a : float64) : bool :=
  match a with S754_nan => true | _ => false end.

#[global] Instance float64_eq_dec : EqDecision float64.
Proof. intros a b. unfold Decision. repeat decide equality. Defined.

(** * Order lemmas *)

Lemma SFcompare_antisym (a b : float64) :
  SFcompare b a = option_map CompOpp (SFcompare a b).
Proof.
  destruct a as [[]|[]| |[] ma ea], b as [[]|[]| |[] mb eb]; simpl; try done;
    rewrite (Z.compare_antisym ea eb); destruct (ea ?= eb); simpl; try done;
    by rewrite (Pos.compare_cont_antisym ma mb Eq).
Qed.

Lemma SFcompare_None (a b : float64) :
  SFcompare a b = None <-> f64_is_nan a = true \/ f64_is_nan b = true.
Proof.
  destruct a as [[]|[]| |[] ma ea], b as [[]|[]| |[] mb eb]; simpl;
    try (by split; auto); try (split; [done|by intros [?|?]]);
    destruct (ea ?= eb); split; try done; by intros [?|?].
Qed.

Lemma f64_lt_le (a b : float64) : f64_lt a b = true -> f64_le a b = true.
Proof. unfold f64_lt, f64_le, SFltb, SFleb. by destruct (SFcompare a b) as [[]|]. Qed.

Lemma f64_not_lt_le (a b : float64) :
  f64_is_nan a = false -> f64_is_nan b = false -> f64_lt a b = false -> f64_le b a = true.
Proof.
  intros Ha Hb. unfold f64_lt, f64_le, SFltb, SFleb. rewrite (SFcompare_antisym a b).
  destruct (SFcompare a b) as [[]|] eqn:E; simpl; try done.
  apply SFcompare_None in E as [?|?]; congruence.
Qed.

Lemma f64_not_le_lt (a b : float64) :
  f64_is_nan a = false -> f64_is_nan b = false -> f64_le a b = false -> f64_lt b a = true.
Proof.
  intros Ha Hb. unfold f64_lt, f64_le, SFltb, SFleb. rewrite (SFcompare_antisym a b).
  destruct (SFcompare a b) as [[]|] eqn:E; simpl; try done.
  apply SFcompare_None in E as [?|?]; congruence.
Qed.

(** [math.Trunc(f) == f]: [f] has no fractional part (infinities included). *)
Definition f64_is_integral (f : float64) : bool :=
  match f with
  | S754_zero _ | S754_infinity _ => true
  | S754_nan => false
  | S754_finite _ m e => (0 <=? e) || (Z.pos m mod 2 ^ (- e) =? 0)
  end.

Example f64_is_integral_3 : f64_is_integral (f64_of_Z 3) = true.
Proof. reflexivity. Qed.

Example f64_is_integral_half : f64_is_integral (f64_div (f64_of_Z 3) (f64_of_Z 2)) = false.
Proof. reflexivity. Qed.

(** ** The order is total on numbers: comparison is that of a key, lexicographically *)

Definition signed (s : bool) (z : Z) : Z := if s then - z else z.

Definition f64_key (a : float64) : Z * Z * Z :=
  match a with
  | S754_zero _ | S754_nan => (0, 0, 0)
  | S754_infinity s => (signed s 2, 0, 0)
  | S754_finite s m e => (signed s 1, signed s e, signed s (Z.pos m))
  end.

Definition key_le (a b : Z * Z * Z) : Prop :=
  a.1.1 < b.1.1 \/ (a.1.1 = b.1.1 /\ (a.1.2 < b.1.2 \/ (a.1.2 = b.1.2 /\ a.2 <= b.2))).

Lemma f64_le_key (a b : float64) :
  f64_is_nan a = false -> f64_is_nan b = false ->
  f64_le a b = true <-> key_le (f64_key a) (f64_key b).
Proof.
  unfold f64_le, SFleb, key_le. intros Ha Hb.
  destruct a as [sa|sa| |sa ma ea], b as [sb|sb| |sb mb eb]; try done;
    repeat match goal with s : bool |- _ => destruct s end; simpl;
    try (split; [try done; lia|try done; lia]).
  all: destruct (Z.compare_spec ea eb); simpl; try (split; [try done; lia|try done; lia]).
  all: fold (Pos.compare ma mb); destruct (Pos.compare_spec ma mb); simpl; split; try done; lia.
Qed.

Lemma f64_le_trans (a b c : float64) :
  f64_le a b = true -> f64_le b c = true -> f64_le a c = true.
Proof.
  intros H1 H2.
  assert (forall x y, f64_le x y = true -> f64_is_nan x = false /\ f64_is_nan y = false) as Hn.
  { intros x y. unfold f64_le, SFleb. intros H.
    destruct (SFcompare x y) eqn:E; [|done].
    destruct (f64_is_nan x) eqn:Ex; [by rewrite (proj2 (SFcompare_None x y)) in E by auto|].
    destruct (f64_is_nan y) eqn:Ey; [by rewrite (proj2 (SFcompare_None x y)) in E by auto|done]. }
  destruct (Hn _ _ H1), (Hn _ _ H2). rewrite f64_le_key in * by done. unfold key_le in *. lia.
Qed.
