(* ===== verification/Types.v ===== *)
(** Shared types ([pkg/types]) and Go's dynamic values ([any]).

    Records keep the fields that modelled code reads or writes; a Go
    [time.Time] is its number of nanoseconds since the epoch (a [Z]). *)

From S2P Require Import Prelude GoString GoFloat.

(** * Dynamic values

    The values an interface of type [any] can hold where Kyvik inspects one:
    JSON data, Go integers, and the typed maps and slices of a type switch.
    A map is its list of entries in the order one [range] loop visits them. *)

Inductive any : Type :=
| ANil
| ABool (b : bool)
| AString (s : string)
| AFloat64 (f : float64)
| AFloat32 (f : float64)
| AInt (z : Z)
| ANumber (s : string)                     (* json.Number *)
| AMap (m : list (string * any))           (* map[string]any *)
| AStrMap (m : list (string * string))     (* map[string]string *)
| ASlice (l : list any)                    (* []any *)
| AStrSlice (l : list string)              (* []string *)
| ATypedSlice (l : list any)               (* any other slice type *)
| AOther (type_name : string).

Section any_induction.
Context (P : any -> Prop)
  (Hnil : P ANil) (Hbool : forall b, P (ABool b)) (Hstr : forall s, P (AString s))
  (Hf64 : forall f, P (AFloat64 f)) (Hf32 : forall f, P (AFloat32 f))
  (Hint : forall z, P (AInt z)) (Hnum : forall s, P (ANumber s))
  (Hmap : forall m, Forall (fun e => P e.2) m -> P (AMap m))
  (Hsmap : forall m, P (AStrMap m))
  (Hslice : forall l, Forall P l -> P (ASlice l))
  (Hsslice : forall l, P (AStrSlice l))
  (Htslice : forall l, Forall P l -> P (ATypedSlice l))
  (Hother : forall t, P (AOther t)).

Fixpoint any_strong_ind (v : any) : P v :=
  match v with
  | ANil => Hnil
  | ABool b => Hbool b
  | AString s => Hstr s
  | AFloat64 f => Hf64 f
  | AFloat32 f => Hf32 f
  | AInt z => Hint z
  | ANumber s => Hnum s
  | AMap m => Hmap m ((fix go m : Forall (fun e => P e.2) m :=
      match m with
      | [] => Forall_nil_2 _
      | (k, x) :: m' => Forall_cons_2 (fun e => P e.2) (k, x) m' (any_strong_ind x) (go m')
      end) m)
  | AStrMap m => Hsmap m
  | ASlice l => Hslice l ((fix go l : Forall P l :=
      match l with
      | [] => Forall_nil_2 _
      | x :: l' => Forall_cons_2 P x l' (any_strong_ind x) (go l')
      end) l)
  | AStrSlice l => Hsslice l
  | ATypedSlice l => Htslice l ((fix go l : Forall P l :=
      match l with
      | [] => Forall_nil_2 _
      | x :: l' => Forall_cons_2 P x l' (any_strong_ind x) (go l')
      end) l)
  | AOther t => Hother t
  end.
End any_induction.

(** Lookup in a map given by its entries: [v, ok := m[k]]. *)
Fixpoint alookup {A} (k : string) (m : list (string * A)) : option A :=
  match m with
  | [] => None
  | (k', v) :: m' => if bool_decide (k' = k) then Some v else alookup k m'
  end.

Lemma alookup_elem {A} (k : string) (m : list (string * A)) (v : A) :
  alookup k m = Some v -> (k, v) ∈ m.
Proof.
  induction m as [|[k' v'] m IH]; simpl; [done|].
  case_bool_decide as E; [|right; by apply IH]. intros [= ->]. subst. by left.
Qed.

Lemma alookup_key {A} (k : string) (m : list (string * A)) (v : A) :
  alookup k m = Some v -> k ∈ m.*1.
Proof. intros H%alookup_elem. apply list_elem_of_fmap. by exists (k, v). Qed.

Lemma elem_alookup {A} (k : string) (m : list (string * A)) (v : A) :
  NoDup m.*1 -> (k, v) ∈ m -> alookup k m = Some v.
Proof.
  induction m as [|[k' v'] m IH]; simpl; [by intros _ ?%elem_of_nil|].
  rewrite NoDup_cons, elem_of_cons. intros [Hk Hm] [Heq|Hin].
  - injection Heq as -> ->. by rewrite bool_decide_eq_true_2.
  - case_bool_decide as E; [|by apply IH]. subst k'. destruct Hk.
    apply list_elem_of_fmap. by exists (k, v).
Qed.

(** * Capabilities, limits and agents *)

(** [types.Capability] *)
Record Capability := mkCapability {
  Tool : string;
  Action : string;
  Resource : string;
}.

#[global] Instance Capability_eq_dec : EqDecision Capability.
Proof. solve_decision. Defined.

(** [types.ModelConfig] *)
Record ModelConfig := mkModelConfig { Provider : string; Model : string }.

(** [types.SpendingLimits] *)
Record SpendingLimits := mkSpendingLimits {
  MaxTokensPerDay : Z;
  MaxTokensPerMonth : Z;
  MaxSpendPerDay : float64;
  MaxSpendPerMonth : float64;
}.

(** [types.HostPathConfig], [HostFilesystemConfig] and its allowlist entries *)
Record HostPathConfig := mkHostPathConfig {
  HostRead : list string;
  HostWrite : list string;
  HostDeny : list string;
}.

Record HostFilesystemAllowlistEntry := mkHostEntry {
  EntryPath : string;
  EntryAccess : string;
}.

Record HostFilesystemConfig := mkHostFilesystem {
  Allowlist : list HostFilesystemAllowlistEntry;
}.

(** [types.AgentStatus] *)
Inductive AgentStatus : Type :=
| AgentStatusStopped
| AgentStatusStarting
| AgentStatusRunning
| AgentStatusPaused
| AgentStatusError
| AgentStatusQuarantined
| AgentStatusKilled
| AgentStatusOther (s : string).

(** [types.DesiredState] *)
Inductive DesiredState : Type :=
| DesiredStateRunning
| DesiredStateStopped
| DesiredStateQuarantined
| DesiredStateKilled
| DesiredStateOther (s : string).

#[global] Instance AgentStatus_eq_dec : EqDecision AgentStatus.
Proof. solve_decision. Defined.

#[global] Instance DesiredState_eq_dec : EqDecision DesiredState.
Proof. solve_decision. Defined.

(** [types.ChannelMapping] *)
Record ChannelMapping := mkChannelMapping { ChannelType : string; ChannelID : string }.

(** [types.AgentConfig] *)
Record AgentConfig := mkAgentConfig {
  ID : string;
  Name : string;
  ModelConf : ModelConfig;
  ModelSlotsJSON : string;
  RoutingConfigJSON : string;
  Template : string;
  Channels : list ChannelMapping;
  Limits : SpendingLimits;
  ToolGrants : list string;
  CapabilityGrants : list Capability;
  SlackMode : string;
  DiscordMode : string;
  SecurityJSON : string;
  CircuitBreakerJSON : string;
  HeartbeatJSON : string;
  TeamID : string;
  HostPaths : option HostPathConfig;
  HostFilesystem : option HostFilesystemConfig;
  Desired : DesiredState;
  Actual : AgentStatus;
  LastError : string;
}.

(** [types.SkillSandboxConfig] *)
Record SkillSandboxConfig := mkSkillSandbox {
  AllowNetwork : bool;
  AllowedHosts : list string;
  ReadPaths : list string;
  WritePaths : list string;
}.

(** [types.CircuitBreakerConfig] and its defaults *)
Record CircuitBreakerConfig := mkBreakerConfig {
  Enabled : bool;
  ErrorThreshold : Z;
  ErrorWindowMinutes : Z;
  SpendingVelocityPct : Z;
  SpendingWindowMinutes : Z;
  ActionRatePerMinute : Z;
  DestructiveLimit : Z;
  LoopIdenticalCount : Z;
}.

Definition DefaultCircuitBreakerConfig : CircuitBreakerConfig :=
  mkBreakerConfig true 5 10 50 5 30 5 3.

(** [types.SecurityConfig] and its defaults *)
Record SecurityConfig := mkSecurityConfig {
  SanitizeExternalContent : bool;
  ContentBoundaries : bool;
  IdentityReinforcement : bool;
  CanaryTokens : bool;
  OutputValidation : bool;
  AnomalyDetectionSensitivity : string;
}.

Definition DefaultSecurityConfig : SecurityConfig :=
  mkSecurityConfig true true true true true "medium".

(** An agent with no optional configuration, for examples. *)
Definition zero_limits : SpendingLimits := mkSpendingLimits 0 0 f64_zero f64_zero.

Definition plain_agent (id template : string) : AgentConfig :=
  mkAgentConfig id id (mkModelConfig "ollama" "llama3") EmptyString EmptyString template []
    zero_limits [] [] "none" "none" EmptyString EmptyString EmptyString EmptyString
    None None DesiredStateStopped AgentStatusStopped EmptyString.
