(* ===== verification/KtpTypes.v ===== *)
(** The Kyvik Tool Protocol: declarations, tiers and capability matching
    ([internal/ktp/types.go]).

    Names that [pkg/types] also uses carry a [Ktp] or [k] prefix. *)

From S2P Require Import Prelude GoString GoPath GoFloat Types.

(** * Tiers *)

Definition TierReader : string := "reader".
Definition TierWriter : string := "writer".
Definition TierOperator : string := "operator".
Definition TierAdmin : string := "admin".
Definition TierGuide : string := "guide".

(** [tierLevels] *)
Definition tierLevels : list (string * Z) :=
  [(TierReader, 0); (TierGuide, 0); (TierWriter, 1); (TierOperator, 2); (TierAdmin, 3)].

Definition TierLevel (tier : string) : Z :=
  match alookup tier tierLevels with
  | Some level => level
  | None => -1
  end.

Definition TierAtLeast (agentTier requiredTier : string) : bool :=
  if bool_decide (requiredTier = TierGuide) then
    bool_decide (agentTier = TierGuide) || bool_decide (agentTier = TierAdmin)
  else
    let agent := TierLevel agentTier in
    let required := TierLevel requiredTier in
    if (agent <? 0) || (required <? 0) then false
    else required <=? agent.

(** * Capabilities *)

Record KtpCapability := mkKtpCapability {
  kType : string;
  kAccess : string;
  kResource : string;
}.

#[global] Instance KtpCapability_eq_dec : EqDecision KtpCapability.
Proof. solve_decision. Defined.

Definition star : string := "*".

Definition matchField (pattern value : string) : bool :=
  if bool_decide (pattern = star) then true else bool_decide (pattern = value).

Definition matchResource (pattern resource : string) : bool :=
  if bool_decide (pattern = star) then true
  else if bool_decide (resource = star) then false
  else match cut_suffix pattern "/*" with
       | Some prefix => bool_decide (resource = prefix) || has_prefix resource (prefix +:+ "/")
       | None => bool_decide (pattern = resource)
       end.

(** [Capability.Matches] *)
Definition Matches (c required : KtpCapability) : bool :=
  matchField (kType c) (kType required) &&
  matchField (kAccess c) (kAccess required) &&
  matchResource (kResource c) (kResource required).

(** * Schemas and declarations *)

Inductive JSONSchema : Type := mkSchema {
  sType : string;
  sProperties : list (string * JSONSchema);
  sRequired : list string;
  sItems : option JSONSchema;
  sDescription : string;
  sEnum : list string;
  sDefault : any;
  sMinLength : option Z;
  sMaxLength : option Z;
  sMinimum : option float64;
  sMaximum : option float64;
  sPattern : string;
}.

Record ActionSpec := mkActionSpec {
  aName : string;
  aDescription : string;
  aParameters : JSONSchema;
  aReturns : JSONSchema;
  aRequiredCapabilities : list KtpCapability;
  aDestructive : bool;
}.

Record ToolDeclaration := mkToolDeclaration {
  dName : string;
  dVersion : string;
  dDescription : string;
  dCapabilities : list KtpCapability;
  dActions : list ActionSpec;
  dMinTier : string;
  dRequiredSecrets : list string;
  dDefaultTiers : list string;
}.

(** The errors of [ToolDeclaration.Validate], all wrapping [ErrInvalidDeclaration]. *)
Inductive InvalidDeclaration : Type :=
| NameRequired
| VersionRequired
| ActionRequired
| ActionNameRequired
| ParametersTypeRequired (action : string).

Fixpoint validate_actions (l : list ActionSpec) : result InvalidDeclaration unit :=
  match l with
  | [] => Ok tt
  | a :: l' =>
    if bool_decide (aName a = EmptyString) then Err ActionNameRequired
    else if bool_decide (sType (aParameters a) = EmptyString)
    then Err (ParametersTypeRequired (aName a))
    else validate_actions l'
  end.

(** [ToolDeclaration.Validate] *)
Definition Validate (d : ToolDeclaration) : result InvalidDeclaration unit :=
  if bool_decide (dName d = EmptyString) then Err NameRequired
  else if bool_decide (dVersion d = EmptyString) then Err VersionRequired
  else if bool_decide (dActions d = []) then Err ActionRequired
  else validate_actions (dActions d).

(** [ToolDeclaration.GetAction] *)
Definition GetAction (d : ToolDeclaration) (name : string) : option ActionSpec :=
  List.find (fun a => bool_decide (aName a = name)) (dActions d).

(** [ToolRequest] and [ToolResponse] *)
Record ToolRequest := mkToolRequest {
  rID : string;
  rAgentID : string;
  rTeamID : string;
  rTool : string;
  rAction : string;
  rParameters : list (string * any);
  rPermissionToken : string;
  rTier : string;
  rSkillSandboxConfig : option SkillSandboxConfig;
}.

Record ToolResponse := mkToolResponse {
  respRequestID : string;
  respSuccess : bool;
  respResult : any;
  respError : string;
  respExecutionMs : Z;
  respSandboxID : string;
}.

(** [NewToolRequest]: [id] is the fresh ULID. *)
Definition NewToolRequest (id agentID tool action : string) (params : list (string * any))
    : ToolRequest :=
  mkToolRequest id agentID EmptyString tool action params EmptyString EmptyString None.

(** [NewToolResponse] *)
Definition NewToolResponse (requestID : string) (success : bool) (res : any) (errMsg : string)
    (executionMs : Z) : ToolResponse :=
  mkToolResponse requestID success res errMsg executionMs EmptyString.

(** * Lemmas on tiers *)

Definition known_tiers : list string :=
  [TierReader; TierGuide; TierWriter; TierOperator; TierAdmin].

Lemma TierLevel_known (t : string) : 0 <= TierLevel t <-> t ∈ known_tiers.
Proof.
  unfold TierLevel. split.
  - destruct (alookup t tierLevels) as [level|] eqn:E; [|lia]. intros _.
    by apply alookup_key in E.
  - intros H. unfold known_tiers in H. repeat (apply elem_of_cons in H as [->|H]; [done|]).
    by apply elem_of_nil in H.
Qed.

Lemma TierLevel_bounds (t : string) : -1 <= TierLevel t <= 3.
Proof.
  destruct (decide (t ∈ known_tiers)) as [H|H].
  - unfold known_tiers in H. repeat (apply elem_of_cons in H as [->|H]; [by compute|]).
    by apply elem_of_nil in H.
  - assert (~ 0 <= TierLevel t) by by rewrite TierLevel_known.
    unfold TierLevel in *. destruct (alookup t tierLevels) as [level|] eqn:E; [|lia].
    destruct H. by apply alookup_key in E.
Qed.

(** The order of tiers, spelt out: a guide requirement needs the guide or the
    admin role, any other requirement compares levels. *)
Lemma TierAtLeast_spec (a r : string) :
  TierAtLeast a r = true <->
  (r = TierGuide /\ (a = TierGuide \/ a = TierAdmin)) \/
  (r <> TierGuide /\ a ∈ known_tiers /\ r ∈ known_tiers /\ TierLevel r <= TierLevel a).
Proof.
  unfold TierAtLeast. rewrite <- !TierLevel_known. case_bool_decide as Hr.
  - rewrite orb_true_iff, !bool_decide_eq_true. tauto.
  - destruct (Z.ltb_spec (TierLevel a) 0), (Z.ltb_spec (TierLevel r) 0); cbn [orb];
      try (split; [done|]; intros [[? _]|(_ & ? & ? & _)]; [done|lia]).
    rewrite Z.leb_le. split; [intros; right; by repeat split|].
    intros [[? _]|(_ & _ & _ & ?)]; done.
Qed.

(** * Lemmas on matching *)

Lemma matchField_spec (p v : string) : matchField p v = true <-> p = star \/ p = v.
Proof.
  unfold matchField. case_bool_decide as H; [by split; auto|].
  rewrite bool_decide_eq_true. tauto.
Qed.

Lemma matchResource_spec (p r : string) :
  matchResource p r = true <->
  p = star \/
  (r <> star /\
    ((exists base, p = base +:+ "/*" /\ (r = base \/ has_prefix r (base +:+ "/") = true)) \/
     ((forall base, p <> base +:+ "/*") /\ p = r))).
Proof.
  unfold matchResource. case_bool_decide as Hp; [by split; auto|].
  case_bool_decide as Hr; [split; [done|tauto]|].
  destruct (cut_suffix p "/*") as [base|] eqn:E.
  - apply cut_suffix_spec in E. rewrite orb_true_iff, bool_decide_eq_true. split.
    + intros H. right. split; [done|]. left. by exists base.
    + intros [?|(_ & [(b & Hb & H)|[H _]])]; [done| |by destruct (H base)].
      rewrite E in Hb.
      assert (b = base) as ->; [|done].
      apply (f_equal (fun s => cut_suffix s "/*")) in Hb.
      assert (forall x : string, cut_suffix (x +:+ "/*") "/*" = Some x) as Hc
        by (intros; by apply cut_suffix_spec).
      rewrite !Hc in Hb. by injection Hb as ->.
  - rewrite bool_decide_eq_true.
    assert (forall base, p <> base +:+ "/*") as Hno.
    { intros base Hb. apply cut_suffix_spec in Hb. congruence. }
    split.
    + intros H. right. split; [done|]. by right.
    + intros [?|(_ & [(b & Hb & _)|[_ H]])]; [done| |done]. by destruct (Hno b).
Qed.

Lemma Matches_spec (c r : KtpCapability) :
  Matches c r = true <->
  (kType c = star \/ kType c = kType r) /\ (kAccess c = star \/ kAccess c = kAccess r) /\
  matchResource (kResource c) (kResource r) = true.
Proof. unfold Matches. rewrite !andb_true_iff, !matchField_spec. tauto. Qed.
