(* ===== verification/KtpSchema.v ===== *)
(** Parameter and result validation against a JSON schema
    ([internal/ktp/schema.go]).

    Violations are values of an inductive type in place of formatted text.
    [regexp.MatchString] is the parameter [regexp_match]: a pattern and a
    subject give a boolean or the error of a pattern that does not compile. *)

From S2P Require Import Prelude GoString GoFloat Types KtpTypes.
From stdpp Require Import pretty.
#[local] Open Scope Z_scope.

Inductive Violation : Type :=
| ExpectedType (want : string) (got : any)
| ExpectedIntegral (got : any)
| NotInEnum (s : string) (enum : list string)
| LengthBelow (len minimum : Z)
| LengthAbove (len maximum : Z)
| InvalidPattern (pattern err : string)
| PatternMismatch (s pattern : string)
| ValueBelow (f minimum : float64)
| ValueAbove (f maximum : float64)
| RequiredFieldMissing
| UnknownSchemaType (t : string).

Record ValidationError := mkValidationError { Field : string; Message : Violation }.

(** [toFloat64] *)
Definition toFloat64 (v : any) : option float64 :=
  match v with
  | AFloat64 f => Some f
  | AFloat32 f => Some f
  | AInt z => Some (f64_of_Z z)
  | _ => None
  end.

(** [toAnySlice] *)
Definition toAnySlice (v : any) : option (list any) :=
  match v with
  | ASlice l => Some l
  | AStrSlice l => Some (map AString l)
  | ATypedSlice l => Some l
  | _ => None
  end.

(** [joinPath] *)
Definition joinPath (parent child : string) : string :=
  if bool_decide (parent = EmptyString) then child else parent +:+ "." +:+ child.

(** The path of an array element, [fmt.Sprintf("%s[%d]", path, i)]. *)
Definition elemPath (path : string) (i : nat) : string :=
  path +:+ "[" +:+ pretty i +:+ "]".

(** [if cond { appendErr(errs, path, msg) }] *)
Definition err_when (cond : bool) (path : string) (msg : Violation) : list ValidationError :=
  if cond then [mkValidationError path msg] else [].

Section validation.
Context (regexp_match : string -> string -> result string bool).

(** [validateStringConstraints] *)
Definition validateStringConstraints (path s : string) (schema : JSONSchema)
    : list ValidationError :=
  let len := Z.of_nat (String.length s) in
  err_when (negb (bool_decide (sEnum schema = [])) && negb (bool_decide (s ∈ sEnum schema)))
    path (NotInEnum s (sEnum schema))
  ++ match sMinLength schema with
     | Some m => err_when (len <? m) path (LengthBelow len m)
     | None => []
     end
  ++ match sMaxLength schema with
     | Some m => err_when (m <? len) path (LengthAbove len m)
     | None => []
     end
  ++ (if bool_decide (sPattern schema = EmptyString) then []
      else match regexp_match (sPattern schema) s with
           | inr e => [mkValidationError path (InvalidPattern (sPattern schema) e)]
           | inl matched => err_when (negb matched) path (PatternMismatch s (sPattern schema))
           end).

(** [validateNumberConstraints] *)
Definition validateNumberConstraints (path : string) (f : float64) (schema : JSONSchema)
    : list ValidationError :=
  match sMinimum schema with
  | Some m => err_when (f64_lt f m) path (ValueBelow f m)
  | None => []
  end
  ++ match sMaximum schema with
     | Some m => err_when (f64_lt m f) path (ValueAbove f m)
     | None => []
     end.

(** The required-field loop of [validateObject]. *)
Definition validateRequired (path : string) (m : list (string * any)) (required : list string)
    : list ValidationError :=
  mjoin (map (fun req =>
    match alookup req m with
    | None | Some ANil => [mkValidationError (joinPath path req) RequiredFieldMissing]
    | Some _ => []
    end) required).

(** [validateValue], with the bodies of [validateObject] and [validateArray]
    inlined where they recur. *)
Fixpoint validateValue (schema : JSONSchema) (path : string) (value : any) {struct schema}
    : list ValidationError :=
  match schema with
  | mkSchema ty props required items _ _ _ _ _ _ _ _ =>
    if bool_decide (ty = EmptyString) then []
    else if bool_decide (ty = "string") then
      match value with
      | AString s => validateStringConstraints path s schema
      | _ => [mkValidationError path (ExpectedType "string" value)]
      end
    else if bool_decide (ty = "number") then
      match toFloat64 value with
      | Some f => validateNumberConstraints path f schema
      | None => [mkValidationError path (ExpectedType "number" value)]
      end
    else if bool_decide (ty = "integer") then
      match toFloat64 value with
      | Some f => if f64_is_integral f then validateNumberConstraints path f schema
                  else [mkValidationError path (ExpectedIntegral value)]
      | None => [mkValidationError path (ExpectedType "integer" value)]
      end
    else if bool_decide (ty = "boolean") then
      match value with
      | ABool _ => []
      | _ => [mkValidationError path (ExpectedType "boolean" value)]
      end
    else if bool_decide (ty = "object") then
      match value with
      | AMap m =>
        validateRequired path m required
        ++ (fix go (ps : list (string * JSONSchema)) : list ValidationError :=
              match ps with
              | [] => []
              | (key, propSchema) :: ps' =>
                match alookup key m with
                | Some v => validateValue propSchema (joinPath path key) v
                | None => []
                end ++ go ps'
              end) props
      | _ => [mkValidationError path (ExpectedType "object" value)]
      end
    else if bool_decide (ty = "array") then
      match value with
      | ANil => []
      | _ =>
        match toAnySlice value with
        | Some arr =>
          match items with
          | None => []
          | Some it => mjoin (imap (fun i elem => validateValue it (elemPath path i) elem) arr)
          end
        | None => [mkValidationError path (ExpectedType "array" value)]
        end
      end
    else [mkValidationError path (UnknownSchemaType ty)]
  end.

(** [ValidateParams] and [ValidateResult] *)
Definition ValidateParams (params : list (string * any)) (schema : JSONSchema)
    : list ValidationError :=
  validateValue schema EmptyString (AMap params).

Definition ValidateResult (res : list (string * any)) (schema : JSONSchema)
    : list ValidationError :=
  validateValue schema EmptyString (AMap res).

(** * Conformance, stated without reference to the validator *)

Definition string_ok (s : string) (schema : JSONSchema) : Prop :=
  (sEnum schema = [] \/ s ∈ sEnum schema) /\
  (forall m, sMinLength schema = Some m -> m <= Z.of_nat (String.length s)) /\
  (forall m, sMaxLength schema = Some m -> Z.of_nat (String.length s) <= m) /\
  (sPattern schema = EmptyString \/ regexp_match (sPattern schema) s = Ok true).

Definition number_ok (f : float64) (schema : JSONSchema) : Prop :=
  (forall m, sMinimum schema = Some m -> f64_lt f m = false) /\
  (forall m, sMaximum schema = Some m -> f64_lt m f = false).

Inductive conforms : JSONSchema -> any -> Prop :=
| conf_unconstrained schema v :
    sType schema = EmptyString -> conforms schema v
| conf_string schema s :
    sType schema = "string" -> string_ok s schema -> conforms schema (AString s)
| conf_number schema v f :
    sType schema = "number" -> toFloat64 v = Some f -> number_ok f schema ->
    conforms schema v
| conf_integer schema v f :
    sType schema = "integer" -> toFloat64 v = Some f -> f64_is_integral f = true ->
    number_ok f schema -> conforms schema v
| conf_boolean schema b :
    sType schema = "boolean" -> conforms schema (ABool b)
| conf_object schema m :
    sType schema = "object" ->
    (forall req, req ∈ sRequired schema -> exists v, alookup req m = Some v /\ v <> ANil) ->
    (forall key ps v, (key, ps) ∈ sProperties schema -> alookup key m = Some v ->
      conforms ps v) ->
    conforms schema (AMap m)
| conf_array_nil schema :
    sType schema = "array" -> conforms schema ANil
| conf_array schema v arr :
    sType schema = "array" -> toAnySlice v = Some arr ->
    (forall it elem, sItems schema = Some it -> elem ∈ arr -> conforms it elem) ->
    conforms schema v.
End validation.

(** * Induction on schemas *)

Section schema_induction.
Context (P : JSONSchema -> Prop)
  (Hstep : forall schema,
    Forall (fun e => P e.2) (sProperties schema) ->
    (forall it, sItems schema = Some it -> P it) -> P schema).

Fixpoint schema_strong_ind (schema : JSONSchema) : P schema :=
  match schema with
  | mkSchema ty props req items d en df mi ma mn mx pa =>
    Hstep (mkSchema ty props req items d en df mi ma mn mx pa)
      ((fix go ps : Forall (fun e => P e.2) ps :=
          match ps with
          | [] => Forall_nil_2 _
          | (k, s) :: ps' => Forall_cons_2 (fun e => P e.2) (k, s) ps' (schema_strong_ind s) (go ps')
          end) props)
      (match items as o return (forall it, o = Some it -> P it) with
       | Some x => fun it H => eq_rect x P (schema_strong_ind x) it
           (match H in _ = o return x = default x o with eq_refl => eq_refl end)
       | None => fun it H => False_ind _ (match H in _ = o return
           match o with None => True | Some _ => False end with eq_refl => I end)
       end)
  end.
End schema_induction.

(** * The validator decides conformance *)

Lemma app_nil_iff {A} (l k : list A) : l ++ k = [] <-> l = [] /\ k = [].
Proof. destruct l; naive_solver. Qed.

Lemma err_when_nil (cond : bool) (path : string) (msg : Violation) :
  err_when cond path msg = [] <-> cond = false.
Proof. by destruct cond. Qed.

Lemma opt_err_nil {A} (o : option A) (k : A -> list ValidationError) :
  match o with Some m => k m | None => [] end = [] <-> forall m, o = Some m -> k m = [].
Proof. destruct o as [x|]; naive_solver. Qed.

Lemma join_map_nil {A B} (f : A -> list B) (l : list A) :
  mjoin (map f l) = [] <-> forall x, x ∈ l -> f x = [].
Proof.
  induction l as [|a l IH]; simpl; [split; [by intros _ ? ?%elem_of_nil|done]|].
  rewrite app_nil_iff, IH. setoid_rewrite elem_of_cons. naive_solver.
Qed.

Lemma join_imap_nil {A B} (f : nat -> A -> list B) (l : list A) (Q : A -> Prop) :
  (forall i x, x ∈ l -> f i x = [] <-> Q x) ->
  mjoin (imap f l) = [] <-> forall x, x ∈ l -> Q x.
Proof.
  revert f. induction l as [|a l IH]; intros f Hf; [split; [by intros _ ? ?%elem_of_nil|done]|].
  rewrite imap_cons. simpl. rewrite app_nil_iff, (Hf 0%nat a) by by left.
  rewrite (IH (f ∘ S)); [|intros i x Hx; apply Hf; by right].
  setoid_rewrite elem_of_cons. naive_solver.
Qed.

Section correctness.
Context (regexp_match : string -> string -> result string bool).

Lemma string_constraints_nil (path s : string) (schema : JSONSchema) :
  validateStringConstraints regexp_match path s schema = [] <->
  string_ok regexp_match s schema.
Proof.
  unfold validateStringConstraints, string_ok.
  rewrite !app_nil_iff, err_when_nil, !opt_err_nil.
  setoid_rewrite err_when_nil. setoid_rewrite Z.ltb_ge.
  assert ((negb (bool_decide (sEnum schema = [])) && negb (bool_decide (s ∈ sEnum schema))
    = false) <-> (sEnum schema = [] \/ s ∈ sEnum schema)) as ->.
  { rewrite andb_false_iff, !negb_false_iff, !bool_decide_eq_true. done. }
  assert ((if bool_decide (sPattern schema = EmptyString) then [] else
    match regexp_match (sPattern schema) s with
    | inl matched => err_when (negb matched) path (PatternMismatch s (sPattern schema))
    | inr e => [mkValidationError path (InvalidPattern (sPattern schema) e)]
    end) = [] <->
    (sPattern schema = EmptyString \/ regexp_match (sPattern schema) s = Ok true)) as ->; [|done].
  case_bool_decide as H; [by split; auto|]. unfold Ok.
  destruct (regexp_match (sPattern schema) s) as [[]|e]; simpl; naive_solver.
Qed.

Lemma number_constraints_nil (path : string) (f : float64) (schema : JSONSchema) :
  validateNumberConstraints path f schema = [] <-> number_ok f schema.
Proof.
  unfold validateNumberConstraints, number_ok.
  rewrite app_nil_iff, !opt_err_nil. by setoid_rewrite err_when_nil.
Qed.

Lemma required_nil (path : string) (m : list (string * any)) (required : list string) :
  validateRequired path m required = [] <->
  forall req, req ∈ required -> exists v, alookup req m = Some v /\ v <> ANil.
Proof.
  unfold validateRequired. rewrite join_map_nil.
  assert (forall req, (match alookup req m with
    | None | Some ANil => [mkValidationError (joinPath path req) RequiredFieldMissing]
    | Some _ => []
    end = []) <-> exists v, alookup req m = Some v /\ v <> ANil) as Hreq.
  { intros req. destruct (alookup req m) as [[]|]; naive_solver. }
  by setoid_rewrite Hreq.
Qed.

(** The property loop of [validateObject]. *)
Lemma properties_nil (path : string) (m : list (string * any)) (props : list (string * JSONSchema)) :
  Forall (fun e => forall path v, validateValue regexp_match e.2 path v = [] <->
    conforms regexp_match e.2 v) props ->
  (fix go (ps : list (string * JSONSchema)) : list ValidationError :=
     match ps with
     | [] => []
     | (key, propSchema) :: ps' =>
       match alookup key m with
       | Some v => validateValue regexp_match propSchema (joinPath path key) v
       | None => []
       end ++ go ps'
     end) props = [] <->
  forall key ps v, (key, ps) ∈ props -> alookup key m = Some v -> conforms regexp_match ps v.
Proof.
  induction 1 as [|[key ps] props Hps Hprops IH].
  { split; [by intros _ ? ? ? ?%elem_of_nil|done]. }
  rewrite app_nil_iff, IH, opt_err_nil. setoid_rewrite Hps. setoid_rewrite elem_of_cons.
  split.
  - intros [H1 H2] k s v [[= -> ->]|Hin] Hv; [by apply H1|by eapply H2].
  - intros H. split; [intros v Hv; eapply H; [by left|done]|].
    intros k s v Hin. apply H. by right.
Qed.

Lemma validateValue_conforms (schema : JSONSchema) :
  forall path v, validateValue regexp_match schema path v = [] <-> conforms regexp_match schema v.
Proof.
  induction schema as [schema IHp IHi] using schema_strong_ind; intros path v.
  destruct schema as [ty props required items d en df mi ma mn mx pa]; simpl in *.
  cbn [validateValue]. case_bool_decide as E0; [subst; split; [by constructor|done]|].
  case_bool_decide as E1.
  { subst. split; [|inversion 1; simplify_eq/=; by apply string_constraints_nil].
    destruct v; try done. intros H. apply conf_string; [done|]. by eapply string_constraints_nil. }
  case_bool_decide as E2.
  { subst. split.
    - destruct (toFloat64 v) as [f|] eqn:Ef; [|done]. intros H.
      eapply conf_number; [done..|]. by eapply number_constraints_nil.
    - inversion 1; simplify_eq/=. case_match; simplify_eq. by apply number_constraints_nil. }
  case_bool_decide as E3.
  { subst. split.
    - destruct (toFloat64 v) as [f|] eqn:Ef; [|done].
      destruct (f64_is_integral f) eqn:Ei; [|done]. intros H.
      eapply conf_integer; [done..|]. by eapply number_constraints_nil.
    - inversion 1; simplify_eq/=. repeat (case_match; simplify_eq).
      by apply number_constraints_nil. }
  case_bool_decide as E4.
  { subst. split; [|by inversion 1; simplify_eq/=]. destruct v; try done. by constructor. }
  case_bool_decide as E5.
  { subst. split.
    - destruct v; try done. rewrite app_nil_iff, required_nil, properties_nil by done.
      intros [H1 H2]. by apply conf_object.
    - inversion 1; simplify_eq/=. rewrite app_nil_iff, required_nil, properties_nil by done.
      done. }
  case_bool_decide as E6.
  { subst. assert (forall arr it, items = Some it ->
      mjoin (imap (fun i elem => validateValue regexp_match it (elemPath path i) elem) arr) = []
      <-> forall elem, elem ∈ arr -> conforms regexp_match it elem) as Harr.
    { intros arr it Hit. apply join_imap_nil. intros i x _. by apply (IHi it). }
    split.
    - intros H. assert (v = ANil \/ v <> ANil) as [->|Hnil];
        [destruct v; auto|by apply conf_array_nil|].
      destruct (toAnySlice v) as [arr|] eqn:Ea; [|by destruct v].
      eapply conf_array; [done..|]. simpl. intros it elem Hit. subst items.
      apply Harr; [done|]. by destruct v.
    - inversion 1 as [| | | | | | |? ? arr ? Ha Hel]; simplify_eq/=; [done|].
      destruct items as [it|]; [|destruct v; try done; by rewrite Ha].
      assert (mjoin (imap (fun i elem => validateValue regexp_match it (elemPath path i) elem) arr)
        = []) as Hj by (apply Harr; [done|]; intros; by eapply Hel).
      destruct v; simplify_eq/=; done. }
  split; [done|]. inversion 1; simplify_eq/=.
Qed.
End correctness.

(** * Property *)

(** C24: Parameter validation is sound and complete: it reports no violation
    exactly when the parameters conform to the schema, a relation that does not
    mention the order in which properties are visited nor the error paths. *)
Theorem validation_decides_conformance
    (regexp_match : string -> string -> result string bool)
    (params : list (string * any)) (schema : JSONSchema) :
  ValidateParams regexp_match params schema = [] <->
  conforms regexp_match schema (AMap params).
Proof. apply validateValue_conforms. Qed.
