(* ===== verification/KtpGate.v ===== *)
(** The KTP permission gate ([internal/ktp/gate.go]).

    [Check] is the whole handler: agent lookup, action lookup, tier check,
    tool grants, capability expansion (with the extra capability of a recursive
    host delete), capability matching, and the audit record of each decision.
    The reasons of a denial are values of an inductive type in place of
    formatted text; the ULID token is an argument. *)

From S2P Require Import Prelude GoString GoPath GoFloat Types KtpTypes.

(** * Tiers and default capabilities of an agent *)

(** [ResolveAgentTier] *)
Definition ResolveAgentTier (template : string) : string :=
  if bool_decide (template = "worker") then TierWriter
  else if bool_decide (template = "guide") then TierGuide
  else if 0 <=? TierLevel template then template
  else EmptyString.

Definition readerCaps : list KtpCapability := [
  mkKtpCapability "filesystem" "read" "{workspace}/*";
  mkKtpCapability "memory" "read" "*";
  mkKtpCapability "memory" "write" "*";
  mkKtpCapability "network" "read" "*";
  mkKtpCapability "scheduler" "read" "*";
  mkKtpCapability "scheduler" "write" "*";
  mkKtpCapability "github" "read" "api.github.com";
  mkKtpCapability "git" "read" "*";
  mkKtpCapability "database" "select" "*";
  mkKtpCapability "obsidian" "read" "*"].

Definition guideCaps : list KtpCapability := [
  mkKtpCapability "system" "read" "agents";
  mkKtpCapability "system" "read" "overview";
  mkKtpCapability "system" "read" "spending";
  mkKtpCapability "system" "read" "audit";
  mkKtpCapability "system" "read" "security";
  mkKtpCapability "memory" "read" "*";
  mkKtpCapability "memory" "write" "*";
  mkKtpCapability "scheduler" "read" "*";
  mkKtpCapability "scheduler" "write" "*"].

Definition writerExtraCaps : list KtpCapability := [
  mkKtpCapability "filesystem" "write" "{workspace}/*";
  mkKtpCapability "network" "write" "*";
  mkKtpCapability "github" "issues" "api.github.com";
  mkKtpCapability "git" "write" "*";
  mkKtpCapability "database" "insert" "*";
  mkKtpCapability "database" "update" "*";
  mkKtpCapability "workflow" "read" "*";
  mkKtpCapability "workflow" "write" "*";
  mkKtpCapability "workflow" "execute" "*";
  mkKtpCapability "obsidian" "write" "*"].

Definition operatorExtraCaps : list KtpCapability := [
  mkKtpCapability "shell" "execute" "*";
  mkKtpCapability "process" "execute" "*";
  mkKtpCapability "code" "execute" "*";
  mkKtpCapability "browser" "execute" "*";
  mkKtpCapability "github" "pull_requests" "api.github.com";
  mkKtpCapability "git" "push" "*";
  mkKtpCapability "docker" "read" "*";
  mkKtpCapability "docker" "manage" "*";
  mkKtpCapability "database" "delete" "*";
  mkKtpCapability "obsidian" "delete" "*"].

Definition adminExtraCaps : list KtpCapability := [
  mkKtpCapability "system" "read" "*";
  mkKtpCapability "docker" "registry" "*"].

(** [defaultCapabilities] *)
Definition defaultCapabilities (tier : string) : list KtpCapability :=
  if bool_decide (tier = TierReader) then readerCaps
  else if bool_decide (tier = TierGuide) then guideCaps
  else if bool_decide (tier = TierWriter) then readerCaps ++ writerExtraCaps
  else if bool_decide (tier = TierOperator) then
    (readerCaps ++ writerExtraCaps) ++ operatorExtraCaps
  else if bool_decide (tier = TierAdmin) then
    ((readerCaps ++ writerExtraCaps) ++ operatorExtraCaps) ++ adminExtraCaps
  else [].

(** [toKTPCapability] *)
Definition toKTPCapability (c : Capability) : KtpCapability :=
  mkKtpCapability (Tool c) (Action c) (Resource c).

Definition star_suffix : string := "/*".

(** [normalizeHostFSResource] *)
Definition normalizeHostFSResource (raw : string) : string :=
  let trimmed := trim_space raw in
  if has_suffix trimmed star_suffix then
    clean (trim_suffix trimmed star_suffix) +:+ star_suffix
  else
    let cleaned := clean trimmed in
    if has_suffix trimmed "/" then cleaned +:+ star_suffix else cleaned.

Section gate.
Context `{UnicodeCase}.

(** [hostFSCapabilities] *)
Definition hostfs_entries (agent : AgentConfig) : list HostFilesystemAllowlistEntry :=
  match HostFilesystem agent with
  | Some (mkHostFilesystem (e :: l)) => e :: l
  | _ =>
    match HostPaths agent with
    | Some hp => map (fun p => mkHostEntry p "read") (HostRead hp)
                 ++ map (fun p => mkHostEntry p "write") (HostWrite hp)
    | None => []
    end
  end.

Definition hostfs_entry_cap (entry : HostFilesystemAllowlistEntry) : list KtpCapability :=
  if bool_decide (EntryPath entry = EmptyString) then []
  else
    let resource := normalizeHostFSResource (EntryPath entry) in
    let access := to_lower (trim_space (EntryAccess entry)) in
    if bool_decide (access = "read") then [mkKtpCapability "host_filesystem" "read" resource]
    else if bool_decide (access = "write")
    then [mkKtpCapability "host_filesystem" "write" resource]
    else [].

Definition hostFSCapabilities (agent : AgentConfig) : list KtpCapability :=
  mjoin (map hostfs_entry_cap (hostfs_entries agent)).

(** [getEffectiveCapabilities] *)
Definition getEffectiveCapabilities (agent : AgentConfig) (tier : string) : list KtpCapability :=
  let base :=
    match CapabilityGrants agent with
    | [] => defaultCapabilities tier
    | grants => map toKTPCapability grants
    end in
  match hostFSCapabilities agent with
  | [] => base
  | hostfsCaps => base ++ hostfsCaps
  end.

(** * Required capabilities *)

Inductive ExpandError : Type :=
| MissingPath
| PathNotString
| PathNotAbsolute.

Definition path_hole : string := "{path}".

(** [expandResource] *)
Definition expandResource (resource : string) (params : list (string * any))
    : result ExpandError string :=
  if negb (contains resource path_hole) then Ok resource
  else match alookup "path" params with
       | None => Err MissingPath
       | Some (AString path) =>
         let cleaned := clean path in
         if is_abs cleaned then Ok (replace_all resource path_hole cleaned)
         else Err PathNotAbsolute
       | Some _ => Err PathNotString
       end.

(** [expandRequiredCapabilities] *)
Fixpoint expandRequiredCapabilities (required : list KtpCapability)
    (params : list (string * any)) : result ExpandError (list KtpCapability) :=
  match required with
  | [] => Ok []
  | cap :: required' =>
    let? resource := expandResource (kResource cap) params in
    let? rest := expandRequiredCapabilities required' params in
    Ok (mkKtpCapability (kType cap) (kAccess cap) resource :: rest)
  end.

(** [boolParam] *)
Definition boolParam (params : list (string * any)) (key : string) : bool :=
  match alookup key params with
  | Some (ABool b) => b
  | Some (ANumber n) =>
    let s := to_lower n in bool_decide (s = "1") || bool_decide (s = "true")
  | Some (AString v) =>
    let s := to_lower (trim_space v) in bool_decide (s = "1") || bool_decide (s = "true")
  | _ => false
  end.

(** [hasMatchingCapability] *)
Definition hasMatchingCapability (caps : list KtpCapability) (required : KtpCapability) : bool :=
  existsb (fun c => Matches c required) caps.

(** * The check *)

Inductive DenyReason : Type :=
| ActionNotFound (action tool : string)
| TierTooLow (agentTier minTier : string)
| ToolNotGranted (tool : string)
| CannotExpand (e : ExpandError)
| MissingCapability (c : KtpCapability)
| AllChecksPassed.

(** [PermissionResult] *)
Record PermissionResult := mkPermissionResult {
  pAllowed : bool;
  pToken : string;
  pReason : DenyReason;
  pAgentID : string;
  pTool : string;
  pAction : string;
  pDestructive : bool;
  pTier : string;
}.

Definition denied (reason : DenyReason) (agentID tool action tier : string) : PermissionResult :=
  mkPermissionResult false EmptyString reason agentID tool action false tier.

Definition delete_recursive_cap : KtpCapability :=
  mkKtpCapability "host_filesystem" "delete_recursive" "{path}".

(** The capabilities a call needs: those of the action, and one more for a
    recursive delete of the host file system. *)
Definition neededCapabilities (toolDecl : ToolDeclaration) (action : ActionSpec)
    (actionName : string) (params : list (string * any))
    : result ExpandError (list KtpCapability) :=
  let? requiredCaps := expandRequiredCapabilities (aRequiredCapabilities action) params in
  if bool_decide (dName toolDecl = "hostfs") && bool_decide (actionName = "delete")
     && boolParam params "recursive"
  then let? extra := expandRequiredCapabilities [delete_recursive_cap] params in
       Ok (requiredCaps ++ extra)
  else Ok requiredCaps.

(** The decision for an agent that was found. *)
Definition decide_call (agent : AgentConfig) (token agentID : string)
    (toolDecl : ToolDeclaration) (actionName : string) (params : list (string * any))
    : PermissionResult :=
  let tool := dName toolDecl in
  match GetAction toolDecl actionName with
  | None => denied (ActionNotFound actionName tool) agentID tool actionName EmptyString
  | Some action =>
    let agentTier := ResolveAgentTier (Template agent) in
    if negb (TierAtLeast agentTier (dMinTier toolDecl)) then
      denied (TierTooLow agentTier (dMinTier toolDecl)) agentID tool actionName agentTier
    else if negb (bool_decide (ToolGrants agent = [])) && negb (bool_decide (tool ∈ ToolGrants agent))
    then denied (ToolNotGranted tool) agentID tool actionName agentTier
    else match neededCapabilities toolDecl action actionName params with
         | inr e => denied (CannotExpand e) agentID tool actionName agentTier
         | inl requiredCaps =>
           let effectiveCaps := getEffectiveCapabilities agent agentTier in
           match List.find (fun c => negb (hasMatchingCapability effectiveCaps c)) requiredCaps with
           | Some c => denied (MissingCapability c) agentID tool actionName agentTier
           | None => mkPermissionResult true token AllChecksPassed agentID tool actionName
                       (aDestructive action) agentTier
           end
         end
  end.

(** [PermissionGate.Check]: the result and the entries handed to the audit
    logger ([hasAudit] is [g.audit != nil]). *)
Definition Check {E : Type} (GetAgent : string -> result E AgentConfig) (hasAudit : bool)
    (token agentID : string) (toolDecl : ToolDeclaration) (actionName : string)
    (params : list (string * any)) : result E PermissionResult * list PermissionResult :=
  match GetAgent agentID with
  | inr e => (Err e, [])
  | inl agent =>
    let r := decide_call agent token agentID toolDecl actionName params in
    (Ok r, if hasAudit then [r] else [])
  end.
End gate.

(** * Matching against a cleaned absolute path *)

(** The patterns that can match the absolute path with elements [es]: the
    wildcard, the path itself, or ["dir/*"] for a directory [dir] whose elements
    are an initial segment of [es]. *)
Definition covers (pattern : string) (es : list string) : Prop :=
  pattern = star \/ pattern = abs_of es \/ pattern = abs_of es +:+ star_suffix \/
  exists ds rest, es = ds ++ rest /\ pattern = dir_text ds +:+ star_suffix.

Lemma matchResource_covers (pattern : string) (es : list string) :
  Forall plain_elem es -> matchResource pattern (abs_of es) = true -> covers pattern es.
Proof.
  intros He. rewrite matchResource_spec. unfold covers.
  intros [->|(_ & [(base & -> & [Hb|Hp])|[_ ->]])]; [by left| | |by right; left].
  - subst base. right. right. by left.
  - right. right. right. destruct (prefix_elems base es He Hp) as (ds & rest & -> & ->).
    by exists ds, rest.
Qed.

Section gate_lemmas.
Context `{UnicodeCase}.

Lemma hasMatchingCapability_spec (caps : list KtpCapability) (c : KtpCapability) :
  hasMatchingCapability caps c = true <-> exists c', c' ∈ caps /\ Matches c' c = true.
Proof. apply existsb_elem. Qed.

Lemma no_missing_spec (caps needed : list KtpCapability) :
  List.find (fun c => negb (hasMatchingCapability caps c)) needed = None <->
  forall c, c ∈ needed -> exists c', c' ∈ caps /\ Matches c' c = true.
Proof.
  setoid_rewrite <- hasMatchingCapability_spec. split.
  - intros Hf c Hc. apply (find_elem_None _ _ c Hf) in Hc. by apply negb_false_iff.
  - intros Hall. destruct (List.find _ needed) as [c|] eqn:Hf; [|done].
    apply find_elem_Some in Hf as [Hc Hn]. rewrite (Hall c Hc) in Hn. done.
Qed.

(** When a call is allowed: the conditions the source checks in sequence. *)
Definition call_permitted (agent : AgentConfig) (toolDecl : ToolDeclaration)
    (actionName : string) (params : list (string * any)) (action : ActionSpec)
    (needed : list KtpCapability) : Prop :=
  GetAction toolDecl actionName = Some action /\
  TierAtLeast (ResolveAgentTier (Template agent)) (dMinTier toolDecl) = true /\
  (ToolGrants agent = [] \/ dName toolDecl ∈ ToolGrants agent) /\
  neededCapabilities toolDecl action actionName params = Ok needed /\
  forall c, c ∈ needed -> exists c',
    c' ∈ getEffectiveCapabilities agent (ResolveAgentTier (Template agent)) /\
    Matches c' c = true.

Lemma decide_call_spec agent token agentID toolDecl actionName params :
  pAllowed (decide_call agent token agentID toolDecl actionName params) = true <->
  exists action needed, call_permitted agent toolDecl actionName params action needed.
Proof.
  unfold decide_call, call_permitted. split.
  - destruct (GetAction toolDecl actionName) as [action|] eqn:Ea; [|done].
    destruct (TierAtLeast _ _) eqn:Et; [|done]. cbn [negb].
    destruct (_ && _) eqn:Eg; [done|].
    destruct (neededCapabilities _ _ _ _) as [needed|e] eqn:En; [|done].
    destruct (List.find _ needed) as [c|] eqn:Ef; [done|]. intros _.
    exists action, needed. pose proof (proj1 (no_missing_spec _ _) Ef) as Hall.
    apply andb_false_iff in Eg. rewrite !negb_false_iff, !bool_decide_eq_true in Eg.
    done.
  - intros (action & needed & Ea & Et & Eg & En & Hall).
    rewrite Ea, Et. cbn [negb].
    replace (negb (bool_decide (ToolGrants agent = [])) &&
      negb (bool_decide (dName toolDecl ∈ ToolGrants agent))) with false; cycle 1.
    { symmetry. apply andb_false_iff. by rewrite !negb_false_iff, !bool_decide_eq_true. }
    rewrite En. unfold Ok. pose proof (proj2 (no_missing_spec _ _) Hall) as Hf. by rewrite Hf.
Qed.

(** ** Expansion of required capabilities *)

Lemma expand_elem (required : list KtpCapability) params out (cap : KtpCapability) :
  expandRequiredCapabilities required params = Ok out -> cap ∈ required ->
  exists res, expandResource (kResource cap) params = Ok res /\
    mkKtpCapability (kType cap) (kAccess cap) res ∈ out.
Proof.
  revert out. induction required as [|c required IH]; simpl; intros out.
  { by intros _ ?%elem_of_nil. }
  destruct (expandResource (kResource c) params) as [res|] eqn:Er; [|done]. simpl.
  destruct (expandRequiredCapabilities required params) as [rest|] eqn:Ex; [|done]. simpl.
  intros [= <-] [->|Hin]%elem_of_cons.
  - exists res. split; [done|]. by left.
  - destruct (IH rest eq_refl Hin) as (res' & ? & ?). exists res'. split; [done|]. by right.
Qed.

Lemma needed_includes toolDecl action actionName params needed cap :
  neededCapabilities toolDecl action actionName params = Ok needed ->
  cap ∈ aRequiredCapabilities action ->
  exists res, expandResource (kResource cap) params = Ok res /\
    mkKtpCapability (kType cap) (kAccess cap) res ∈ needed.
Proof.
  unfold neededCapabilities. intros Hn Hcap.
  destruct (expandRequiredCapabilities _ params) as [out|] eqn:Ex; [|done]. simpl in Hn.
  destruct (expand_elem _ _ _ _ Ex Hcap) as (res & Hres & Hin).
  exists res. split; [done|]. destruct (_ && _ && _).
  - destruct (rbind _ _) as [extra|] eqn:Ee in Hn; [|done].
    injection Hn as <-. destruct (expandResource _ params) in Ee; [|done]. simpl in Ee.
    injection Ee as <-. apply elem_of_app. by left.
  - by injection Hn as <-.
Qed.

(** A path hole is filled with the cleaned, absolute path. *)
Lemma expand_path (params : list (string * any)) (res : string) :
  expandResource path_hole params = Ok res ->
  exists p, alookup "path" params = Some (AString p) /\ is_abs p = true /\ res = clean p.
Proof.
  unfold expandResource. change (contains path_hole path_hole) with true. simpl negb.
  destruct (alookup "path" params) as [[]|]; try done.
  destruct (is_abs (clean s)) eqn:Ea; [|done]. intros [= <-].
  exists s. rewrite clean_is_abs in Ea. repeat split; [done|].
  unfold replace_all, path_hole. cbn.
  by destruct (clean s); rewrite ?str_app_nil_r.
Qed.

(** ** Host file system capabilities *)

Lemma hostfs_cap_elem (agent : AgentConfig) (c : KtpCapability) :
  c ∈ hostFSCapabilities agent ->
  exists e, e ∈ hostfs_entries agent /\ kType c = "host_filesystem" /\
    (kAccess c = "read" \/ kAccess c = "write") /\
    to_lower (trim_space (EntryAccess e)) = kAccess c /\
    kResource c = normalizeHostFSResource (EntryPath e).
Proof.
  unfold hostFSCapabilities. rewrite list_elem_of_join. intros (l & Hc & Hl).
  apply list_elem_of_fmap in Hl as (e & -> & He). exists e. split; [done|].
  unfold hostfs_entry_cap in Hc. case_bool_decide; [by apply elem_of_nil in Hc|].
  case_bool_decide; [|case_bool_decide; [|by apply elem_of_nil in Hc]];
    apply list_elem_of_singleton in Hc as ->; simpl; tauto.
Qed.

(** No tier has a host file system capability by default. *)
Lemma default_no_hostfs (tier : string) (c : KtpCapability) :
  c ∈ defaultCapabilities tier -> matchField (kType c) "host_filesystem" = false.
Proof.
  intros Hc.
  assert (Forall (fun c => matchField (kType c) "host_filesystem" = false)
    (defaultCapabilities tier)) as Hall.
  { unfold defaultCapabilities. repeat case_bool_decide; by repeat constructor. }
  rewrite Forall_forall in Hall. by apply Hall.
Qed.

Lemma effective_elem (agent : AgentConfig) (tier : string) (c : KtpCapability) :
  c ∈ getEffectiveCapabilities agent tier <->
  (CapabilityGrants agent = [] /\ c ∈ defaultCapabilities tier) \/
  (c ∈ map toKTPCapability (CapabilityGrants agent)) \/ c ∈ hostFSCapabilities agent.
Proof.
  unfold getEffectiveCapabilities.
  destruct (CapabilityGrants agent) as [|g gs], (hostFSCapabilities agent) as [|h hs];
    rewrite ?elem_of_app; simpl; rewrite ?elem_of_nil; naive_solver.
Qed.

(** Without explicit grants a host capability comes from the allowlist. *)
Lemma hostfs_source {agent tier} {c c' : KtpCapability} :
  CapabilityGrants agent = [] -> kType c = "host_filesystem" ->
  c' ∈ getEffectiveCapabilities agent tier -> Matches c' c = true ->
  c' ∈ hostFSCapabilities agent.
Proof.
  intros Hg Ht Hin Hm. apply effective_elem in Hin as [[_ Hd]|[Hin|Hin]]; [| |done].
  - apply default_no_hostfs in Hd. apply Matches_spec in Hm as (Hk & _).
    rewrite Ht in Hk. apply matchField_spec in Hk. congruence.
  - rewrite Hg in Hin. by apply elem_of_nil in Hin.
Qed.
(** An allowed call on the host file system names a path that an entry covers. *)
Lemma hostfs_call_covered agent token agentID toolDecl actionName params access action :
  CapabilityGrants agent = [] ->
  GetAction toolDecl actionName = Some action ->
  mkKtpCapability "host_filesystem" access path_hole ∈ aRequiredCapabilities action ->
  pAllowed (decide_call agent token agentID toolDecl actionName params) = true ->
  exists p es entry,
    alookup "path" params = Some (AString p) /\ is_abs p = true /\
    clean p = abs_of es /\ Forall plain_elem es /\
    entry ∈ hostfs_entries agent /\
    to_lower (trim_space (EntryAccess entry)) = access /\
    covers (normalizeHostFSResource (EntryPath entry)) es.
Proof.
  intros Hg Ha Hcap Hallow.
  apply decide_call_spec in Hallow as (action' & needed & Ha' & _ & _ & Hn & Hall).
  assert (action' = action) as -> by congruence.
  destruct (needed_includes _ _ _ _ _ _ Hn Hcap) as (res & Hres & Hin). simpl in *.
  apply expand_path in Hres as (p & Hp & Habs & ->).
  destruct (Hall _ Hin) as (c' & Hc' & Hm).
  assert (c' ∈ hostFSCapabilities agent) as Hhost
    by (by apply (hostfs_source (c:=mkKtpCapability _ access (clean p)) Hg eq_refl Hc' Hm)).
  destruct (hostfs_cap_elem _ _ Hhost) as (e & He & Ht & Hrw & Hacc & Hr).
  apply Matches_spec in Hm as (_ & Hacc' & Hmr). simpl in *.
  destruct (clean_abs p Habs) as (es & Hes & Hplain). rewrite Hes in *.
  exists p, es, e. repeat (split; [done|]). split.
  - rewrite Hacc. destruct Hacc' as [Hstar|]; [|done].
    rewrite Hstar in Hrw. by destruct Hrw.
  - rewrite <- Hr. by apply matchResource_covers.
Qed.
End gate_lemmas.

(** * Properties of the gate *)

Section gate_properties.
Context `{UnicodeCase}.

(** C5: A tool call is allowed exactly when the agent exists, the action is
    declared, the agent's tier reaches the tool's minimum, the tool is in the
    grant list (when there is one) and every capability the call needs is
    matched by one the agent has; the decision is what the audit log gets. *)
Theorem gate_allows_iff {E : Type} (GetAgent : string -> result E AgentConfig)
    token agentID toolDecl actionName params r log :
  Check GetAgent true token agentID toolDecl actionName params = (Ok r, log) ->
  log = [r] /\
  (pAllowed r = true <->
    exists agent action needed, GetAgent agentID = Ok agent /\
      call_permitted agent toolDecl actionName params action needed).
Proof.
  unfold Check. destruct (GetAgent agentID) as [agent|e]; [|done].
  intros [= <- <-]. split; [done|]. rewrite decide_call_spec. split.
  - intros (action & needed & Hp). by exists agent, action, needed.
  - intros (agent' & action & needed & [= <-] & Hp). by exists action, needed.
Qed.

(** A host file system call that is allowed stays inside the agent's
    allowlist: without explicit capability grants, an allowed call on an action
    that needs [host_filesystem/access/{path}] names an absolute path whose
    cleaned form has no [..] element and is covered by an allowlist entry with
    that access. *)
Theorem hostfs_confinement agent token agentID toolDecl actionName params access action :
  CapabilityGrants agent = [] ->
  GetAction toolDecl actionName = Some action ->
  mkKtpCapability "host_filesystem" access path_hole ∈ aRequiredCapabilities action ->
  pAllowed (decide_call agent token agentID toolDecl actionName params) = true ->
  exists p es entry,
    alookup "path" params = Some (AString p) /\ is_abs p = true /\
    clean p = abs_of es /\ Forall plain_elem es /\
    entry ∈ hostfs_entries agent /\
    to_lower (trim_space (EntryAccess entry)) = access /\
    covers (normalizeHostFSResource (EntryPath entry)) es.
Proof. apply hostfs_call_covered. Qed.

(** A recursive delete on the host is never allowed by the allowlist
    alone: it needs an explicit capability grant. *)
Theorem recursive_delete_needs_grant agent token agentID toolDecl params :
  dName toolDecl = "hostfs" -> boolParam params "recursive" = true ->
  pAllowed (decide_call agent token agentID toolDecl "delete" params) = true ->
  exists g, g ∈ CapabilityGrants agent /\
    (Tool g = star \/ Tool g = "host_filesystem") /\
    (Action g = star \/ Action g = "delete_recursive").
Proof.
  intros Hn Hrec Hallow.
  apply decide_call_spec in Hallow as (action & needed & _ & _ & _ & Hneed & Hall).
  assert (exists res, mkKtpCapability "host_filesystem" "delete_recursive" res ∈ needed)
    as [res Hin].
  { unfold neededCapabilities in Hneed. rewrite Hn, Hrec in Hneed.
    destruct (expandRequiredCapabilities (aRequiredCapabilities action) params) as [out|];
      [|done]. cbn -[expandRequiredCapabilities] in Hneed.
    destruct (expandRequiredCapabilities [delete_recursive_cap] params) as [extra|] eqn:Ex;
      [|done]. cbn in Hneed. injection Hneed as <-.
    destruct (expand_elem _ _ _ delete_recursive_cap Ex ltac:(by left)) as (res & _ & Hin).
    exists res. apply elem_of_app. by right. }
  destruct (Hall _ Hin) as (c' & Hc' & Hm). pose proof Hm as Hm'.
  apply Matches_spec in Hm as (Ht & Ha & _). simpl in Ht, Ha.
  apply effective_elem in Hc' as [[_ Hd]|[Hg|Hh]].
  - apply default_no_hostfs in Hd. apply matchField_spec in Ht. congruence.
  - apply list_elem_of_fmap in Hg as (g & -> & Hg). by exists g.
  - apply hostfs_cap_elem in Hh as (e & _ & _ & Hrw & _).
    destruct Ha as [Ha|Ha]; rewrite Ha in Hrw; by destruct Hrw.
Qed.

(** An allowlist entry for the root directory grants nothing below the
    root: ["/"] becomes the pattern ["//*"] and ["/*"] becomes ["./*"], and
    neither matches any other absolute path. *)
Theorem root_allowlist_entry_is_void (es : list string) :
  es <> [] -> Forall plain_elem es ->
  normalizeHostFSResource "/" = "//*" /\ normalizeHostFSResource "/*" = "./*" /\
  matchResource "//*" (abs_of es) = false /\ matchResource "./*" (abs_of es) = false.
Proof.
  intros Hne He. split; [done|]. split; [done|].
  assert (forall base, base = "/" \/ base = "." ->
    matchResource (base +:+ "/*") (abs_of es) = false) as Hm.
  { intros base Hb. destruct (matchResource _ _) eqn:E; [|done].
    apply matchResource_covers in E; [|done].
    destruct es as [|e es]; [done|]. inversion_clear He as [|? ? He1 He2].
    destruct He1 as (Hs & Hnonempty & _).
    destruct e as [|c e]; [done|]. simpl in Hs. apply orb_false_iff in Hs as [Hc _].
    apply Ascii.eqb_neq in Hc.
    assert (forall t suf, base +:+ "/*" <> abs_of (String c e :: t) +:+ suf) as Habs.
    { intros t suf Heq. unfold slash in Hc.
      destruct Hb as [-> | ->], t; injection Heq; congruence. }
    destruct E as [E|[E|[E|([|d ds] & rest & Hds & E)]]].
    - by destruct Hb as [-> | ->].
    - destruct (Habs es EmptyString). by rewrite str_app_nil_r.
    - by apply Habs in E.
    - by destruct Hb as [-> | ->].
    - simpl in Hds. injection Hds as <- _. by apply (Habs ds) in E. }
  split; [by apply (Hm "/"); left|by apply (Hm "."); right].
Qed.

(** Deny by default: an agent whose template is neither [worker] nor the
    name of a tier is refused every call. *)
Theorem unknown_template_denied agent token agentID toolDecl actionName params :
  Template agent <> "worker" -> Template agent ∉ known_tiers ->
  pAllowed (decide_call agent token agentID toolDecl actionName params) = false.
Proof.
  intros Hw Hk. destruct (pAllowed _) eqn:Hallow; [|done].
  apply decide_call_spec in Hallow as (action & needed & _ & Ht & _).
  assert (ResolveAgentTier (Template agent) = EmptyString) as Hr.
  { unfold ResolveAgentTier. rewrite bool_decide_eq_false_2 by done.
    rewrite bool_decide_eq_false_2; [|intros E; apply Hk; rewrite E; by right; left].
    destruct (Z.leb_spec 0 (TierLevel (Template agent))) as [Hle|]; [|done].
    by apply TierLevel_known in Hle. }
  rewrite Hr in Ht. apply TierAtLeast_spec in Ht as [[_ [?|?]]|(_ & Hin & _)]; try done.
  unfold known_tiers in Hin. repeat (apply elem_of_cons in Hin as [?|Hin]; [done|]).
  by apply elem_of_nil in Hin.
Qed.
(** ** More privilege never loses a permission *)

Definition with_template (agent : AgentConfig) (t : string) : AgentConfig :=
  mkAgentConfig (ID agent) (Name agent) (ModelConf agent) (ModelSlotsJSON agent)
    (RoutingConfigJSON agent) t (Channels agent) (Limits agent) (ToolGrants agent)
    (CapabilityGrants agent) (SlackMode agent) (DiscordMode agent) (SecurityJSON agent)
    (CircuitBreakerJSON agent) (HeartbeatJSON agent) (TeamID agent) (HostPaths agent)
    (HostFilesystem agent) (Desired agent) (Actual agent) (LastError agent).

Definition ladder : list string := [TierReader; TierWriter; TierOperator; TierAdmin].

Lemma ladder_cases (P : string -> Prop) (t : string) :
  t ∈ ladder -> P TierReader -> P TierWriter -> P TierOperator -> P TierAdmin -> P t.
Proof.
  unfold ladder. intros Ht ? ? ? ?.
  repeat (apply elem_of_cons in Ht as [->|Ht]; [done|]). by apply elem_of_nil in Ht.
Qed.

(** [defaultCapabilities] with the four groups as arguments. *)
Definition ladder_caps (r w o a : list KtpCapability) (tier : string) : list KtpCapability :=
  if bool_decide (tier = TierReader) then r
  else if bool_decide (tier = TierGuide) then guideCaps
  else if bool_decide (tier = TierWriter) then r ++ w
  else if bool_decide (tier = TierOperator) then (r ++ w) ++ o
  else if bool_decide (tier = TierAdmin) then ((r ++ w) ++ o) ++ a
  else [].

Lemma default_caps_mono (t1 t2 : string) :
  t1 ∈ ladder -> t2 ∈ ladder -> TierLevel t1 <= TierLevel t2 ->
  defaultCapabilities t1 ⊆ defaultCapabilities t2.
Proof.
  change (defaultCapabilities t1) with (ladder_caps readerCaps writerExtraCaps
    operatorExtraCaps adminExtraCaps t1).
  change (defaultCapabilities t2) with (ladder_caps readerCaps writerExtraCaps
    operatorExtraCaps adminExtraCaps t2).
  generalize readerCaps, writerExtraCaps, operatorExtraCaps, adminExtraCaps.
  intros r w o a H1 H2. pattern t1. apply ladder_cases; [done|..]; pattern t2;
    (apply ladder_cases; [done|..]); intros Hl; try (by compute in Hl; destruct Hl);
    unfold ladder_caps; simpl; set_solver.
Qed.

Lemma tier_at_least_mono (t1 t2 r : string) :
  t1 ∈ ladder -> t2 ∈ ladder -> TierLevel t1 <= TierLevel t2 ->
  TierAtLeast t1 r = true -> TierAtLeast t2 r = true.
Proof.
  intros H1 H2 Hl. rewrite !TierAtLeast_spec.
  assert (t2 ∈ known_tiers) as Hk
    by (pattern t2; apply ladder_cases; [done|..]; by apply (bool_decide_unpack _)).
  intros [[-> Hg]|(? & _ & ? & ?)].
  - left. split; [done|]. right. destruct Hg as [->| ->].
    + exfalso. clear -H1. unfold ladder in H1.
      repeat (apply elem_of_cons in H1 as [H1|H1]; [done|]). by apply elem_of_nil in H1.
    + revert Hl. pattern t2. apply ladder_cases; done.
  - right. repeat split; try done. lia.
Qed.

(** The tiers reader, writer, operator and admin are a ladder: whatever
    an agent may do by default at one tier it may do at every higher one. *)
Theorem tier_ladder_monotone agent t1 t2 token agentID toolDecl actionName params :
  ResolveAgentTier t1 ∈ ladder -> ResolveAgentTier t2 ∈ ladder ->
  TierLevel (ResolveAgentTier t1) <= TierLevel (ResolveAgentTier t2) ->
  pAllowed (decide_call (with_template agent t1) token agentID toolDecl actionName params) = true ->
  pAllowed (decide_call (with_template agent t2) token agentID toolDecl actionName params) = true.
Proof.
  intros H1 H2 Hl. rewrite !decide_call_spec.
  intros (action & needed & Ha & Ht & Hg & Hn & Hall). exists action, needed.
  split; [done|]. split; [by apply (tier_at_least_mono _ _ _ H1 H2 Hl)|]. split; [done|]. split; [done|].
  intros c Hc. destruct (Hall c Hc) as (c' & Hc' & Hm). exists c'. split; [|done].
  apply effective_elem in Hc'. apply effective_elem. simpl in *.
  destruct Hc' as [[? Hd]|?]; [left|by right]. split; [done|].
  by apply (default_caps_mono _ _ H1 H2 Hl).
Qed.
End gate_properties.

(** * Witnesses *)

Section gate_witnesses.
#[local] Existing Instance ascii_case.

(** The parts of the [hostfs] declaration the examples use. *)
Definition any_schema : JSONSchema :=
  mkSchema "object" [] [] None EmptyString [] ANil None None None None EmptyString.

Definition hostfs_action (name access : string) : ActionSpec :=
  mkActionSpec name EmptyString any_schema any_schema
    [mkKtpCapability "host_filesystem" access path_hole] false.

Definition hostfs_decl : ToolDeclaration :=
  mkToolDeclaration "hostfs" "1.0.0" EmptyString []
    [hostfs_action "read" "read"; hostfs_action "delete" "delete"] TierAdmin [] [].

Definition host_agent (grants : list Capability) : AgentConfig :=
  let a := plain_agent "a1" "admin" in
  mkAgentConfig (ID a) (Name a) (ModelConf a) (ModelSlotsJSON a) (RoutingConfigJSON a)
    (Template a) (Channels a) (Limits a) (ToolGrants a) grants (SlackMode a)
    (DiscordMode a) (SecurityJSON a) (CircuitBreakerJSON a) (HeartbeatJSON a) (TeamID a)
    (Some (mkHostPathConfig ["/srv/data/"] [] [])) None (Desired a) (Actual a) (LastError a).

Definition path_params (p : string) : list (string * any) := [("path", AString p)].

(** The allowlist is not vacuous: a path below the entry is allowed, a path
    that leaves it through [..] is not. *)
Example hostfs_inside :
  pAllowed (decide_call (host_agent []) "t" "a1" hostfs_decl "read"
    (path_params "/srv/data/x/../y.txt")) = true.
Proof. vm_compute. reflexivity. Qed.

Example hostfs_outside :
  pAllowed (decide_call (host_agent []) "t" "a1" hostfs_decl "read"
    (path_params "/srv/data/../../etc/passwd")) = false.
Proof. vm_compute. reflexivity. Qed.

Lemma gate_allows_iff_witness :
  exists r log, Check (fun _ => @Ok unit _ (plain_agent "a1" "reader")) true "t" "a1" hostfs_decl
    "read" [] = (Ok r, log) /\ pAllowed r = false /\ log = [r].
Proof.
  destruct (Check (fun _ => @Ok unit _ (plain_agent "a1" "reader")) true "t" "a1" hostfs_decl
    "read" []) as [[r|e] log] eqn:E; [|vm_compute in E; discriminate E].
  exists r, log. split; [reflexivity|].
  destruct (gate_allows_iff _ _ _ _ _ _ r log E) as [Hlog _].
  split; [|exact Hlog]. vm_compute in E. by injection E as <- _.
Defined.

Lemma hostfs_confinement_witness : exists p es entry,
    alookup "path" (path_params "/srv/data/x") = Some (AString p) /\ is_abs p = true /\
    clean p = abs_of es /\ Forall plain_elem es /\
    entry ∈ hostfs_entries (host_agent []) /\
    to_lower (trim_space (EntryAccess entry)) = "read" /\
    covers (normalizeHostFSResource (EntryPath entry)) es.
Proof.
  apply (hostfs_confinement (host_agent []) "t" "a1" hostfs_decl "read"
    (path_params "/srv/data/x") "read" (hostfs_action "read" "read")).
  - reflexivity.
  - reflexivity.
  - left.
  - vm_compute. reflexivity.
Defined.

Definition recursive_params : list (string * any) :=
  [("path", AString "/srv/data/x"); ("recursive", ABool true)].

Lemma recursive_delete_needs_grant_witness :
  exists g, g ∈ CapabilityGrants (host_agent [mkCapability "*" "*" "*"]) /\
    (Tool g = star \/ Tool g = "host_filesystem") /\
    (Action g = star \/ Action g = "delete_recursive").
Proof.
  apply (recursive_delete_needs_grant (host_agent [mkCapability "*" "*" "*"]) "t" "a1"
    hostfs_decl recursive_params); vm_compute; reflexivity.
Defined.

Lemma root_allowlist_entry_is_void_witness :
  matchResource "//*" (abs_of ["etc"]) = false /\ matchResource "./*" (abs_of ["etc"]) = false.
Proof.
  apply (root_allowlist_entry_is_void ["etc"]).
  - discriminate.
  - by repeat constructor.
Defined.

Lemma unknown_template_denied_witness :
  pAllowed (decide_call (plain_agent "a1" "superuser") "t" "a1" hostfs_decl "read" []) = false.
Proof.
  apply unknown_template_denied; [discriminate|].
  apply (bool_decide_unpack _). vm_compute. exact I.
Defined.

Definition ungated_decl : ToolDeclaration :=
  mkToolDeclaration "notes" "1.0.0" EmptyString []
    [mkActionSpec "list" EmptyString any_schema any_schema
      [mkKtpCapability "memory" "read" "*"] false] TierReader [] [].

Lemma tier_ladder_monotone_witness :
  pAllowed (decide_call (with_template (plain_agent "a1" "reader") "worker") "t" "a1"
    ungated_decl "list" []) = true.
Proof.
  apply (tier_ladder_monotone (plain_agent "a1" "reader") "reader" "worker").
  - left.
  - right. left.
  - vm_compute. discriminate.
  - vm_compute. reflexivity.
Defined.
End gate_witnesses.
