(* ===== verification/KtpRegistry.v ===== *)
(** Tool registry, model-facing names and audit entries of the Kyvik Tool
    Protocol ([internal/ktp/registry.go], [convert.go], [audit.go], [tool.go]). *)

From S2P Require Import Prelude GoString GoFloat Types KtpTypes KtpGate.

(** * Tools *)

(** What one call of [Tool.Execute] does: return a response (possibly nil), an
    error, or panic. *)
Inductive ToolOutcome : Type :=
| Returned (resp : option ToolResponse)
| ReturnedError (err : string)
| Panicked (value : string).

(** [Tool] and [InlineTool]: [Inline] is false for a tool without the method.
    The process environment is an argument of [Execute] because inline tools
    read their secrets from it.  One tool calls the executor it is called by, the workflow
    tool; [Workflow.nested_call] runs it in the place of its [ToolExecute]. *)
Record KtpTool := mkTool {
  Declaration : ToolDeclaration;
  Inline : bool;
  ToolExecute : gmap string string -> ToolRequest -> ToolOutcome;
}.

(** [isInlineTool] *)
Definition isInlineTool (t : KtpTool) : bool := Inline t.

(** * Registry *)

Inductive RegisterError : Type :=
| InvalidTool (e : InvalidDeclaration)
| AlreadyRegistered (name : string).

(** [Registry.Register] *)
Definition Register (tool : KtpTool) (tools : gmap string KtpTool)
    : result RegisterError (gmap string KtpTool) :=
  let decl := Declaration tool in
  match Validate decl with
  | inr e => Err (InvalidTool e)
  | inl _ =>
    match tools !! dName decl with
    | Some _ => Err (AlreadyRegistered (dName decl))
    | None => Ok (<[dName decl := tool]> tools)
    end
  end.

(** [Registry.Get] *)
Definition RegistryGet (tools : gmap string KtpTool) (name : string) : option KtpTool := tools !! name.

(** The declarations of a registry, in the order of one map iteration. *)
Definition RegistryList (tools : gmap string KtpTool) : list ToolDeclaration :=
  map (fun e => Declaration e.2) (map_to_list tools).

Definition tier_visible (tier : string) (decl : ToolDeclaration) : bool :=
  bool_decide (dMinTier decl = EmptyString) || TierAtLeast tier (dMinTier decl).

Definition granted (grants : list string) (decl : ToolDeclaration) : bool :=
  bool_decide (grants = []) || bool_decide (dName decl ∈ grants).

(** [Registry.ListForTier] *)
Definition ListForTier (tools : gmap string KtpTool) (tier : string) : list ToolDeclaration :=
  List.filter (tier_visible tier) (RegistryList tools).

(** [Registry.ListForAgent] *)
Definition ListForAgent (tools : gmap string KtpTool) (tier : string) (grants : list string)
    : list ToolDeclaration :=
  List.filter (fun decl => tier_visible tier decl && granted grants decl) (RegistryList tools).

(** [slices.Sort] on strings, by insertion. *)
Fixpoint insert_sorted (x : string) (l : list string) : list string :=
  match l with
  | [] => [x]
  | y :: l' => if String.leb x y then x :: l else y :: insert_sorted x l'
  end.

Definition sort_strings (l : list string) : list string := foldr insert_sorted [] l.

(** [Registry.DefaultToolsForTier] *)
Definition DefaultToolsForTier (tools : gmap string KtpTool) (tier : string) : list string :=
  sort_strings (map dName
    (List.filter (fun decl => tier_visible tier decl && bool_decide (tier ∈ dDefaultTiers decl))
      (RegistryList tools))).

(** * Model-facing names *)

(** [ToolNameSeparator] *)
Definition ToolNameSeparator : string := "__".

(** [JoinToolAction] *)
Definition JoinToolAction (tool action : string) : string :=
  if bool_decide (action = EmptyString) then tool else tool +:+ ToolNameSeparator +:+ action.

(** [SplitToolAction] *)
Definition SplitToolAction (name : string) : string * string :=
  let '(tool, action, _) := cut name ToolNameSeparator in (tool, action).

(** [schemaToMap]: the plain map of a schema's non-zero fields. *)
Fixpoint schemaToMap (s : JSONSchema) : list (string * any) :=
  match s with
  | mkSchema ty props required items description enum dflt minLen maxLen minimum maximum pattern =>
    (if bool_decide (ty = EmptyString) then [] else [("type", AString ty)])
    ++ (if bool_decide (description = EmptyString) then [] else [("description", AString description)])
    ++ (match required with [] => [] | _ => [("required", AStrSlice required)] end)
    ++ (match enum with [] => [] | _ => [("enum", AStrSlice enum)] end)
    ++ (match minLen with Some n => [("minLength", AInt n)] | None => [] end)
    ++ (match maxLen with Some n => [("maxLength", AInt n)] | None => [] end)
    ++ (match minimum with Some f => [("minimum", AFloat64 f)] | None => [] end)
    ++ (match maximum with Some f => [("maximum", AFloat64 f)] | None => [] end)
    ++ (if bool_decide (pattern = EmptyString) then [] else [("pattern", AString pattern)])
    ++ (match dflt with ANil => [] | _ => [("default", dflt)] end)
    ++ (match props with
        | [] => []
        | _ => [("properties", AMap
                 ((fix go ps := match ps with
                    | [] => []
                    | (k, v) :: ps' => (k, AMap (schemaToMap v)) :: go ps'
                    end) props))]
        end)
    ++ (match items with Some it => [("items", AMap (schemaToMap it))] | None => [] end)
  end.

(** [SchemaToModelFormat] *)
Definition SchemaToModelFormat (action : ActionSpec) : list (string * any) :=
  [("type", AString "function");
   ("function", AMap [("name", AString (aName action));
                      ("description", AString (aDescription action));
                      ("parameters", AMap (schemaToMap (aParameters action)))])].

(** [ModelToolDefinition] *)
Record ModelToolDefinition := mkModelToolDefinition {
  mName : string;
  mDescription : string;
  mParameters : list (string * any);
}.

(** [Registry.GetModelToolDefinitions] *)
Definition GetModelToolDefinitions (tools : gmap string KtpTool) (tier : string)
    (grants : list string) : list (list (string * any)) :=
  mjoin (map (fun decl => map SchemaToModelFormat (dActions decl))
    (ListForAgent tools tier grants)).

(** [Registry.GetToolDefinitionsForModel] *)
Definition GetToolDefinitionsForModel (tools : gmap string KtpTool) (tier : string)
    (grants : list string) : list ModelToolDefinition :=
  mjoin (map (fun decl =>
    map (fun action => mkModelToolDefinition (JoinToolAction (dName decl) (aName action))
           (aDescription action) (schemaToMap (aParameters action))) (dActions decl))
    (ListForAgent tools tier grants)).

(** [ModelToolCall] and [ModelToolResult] *)
Record ModelToolCall := mkModelToolCall {
  cID : string;
  cName : string;
  cArguments : list (string * any);
}.

Record ModelToolResult := mkModelToolResult {
  ToolCallID : string;
  Content : string;
  IsError : bool;
}.

(** [ConvertToKTPRequest]; [id] is the fresh request ULID. *)
Definition ConvertToKTPRequest (id agentID : string) (call : ModelToolCall) : ToolRequest :=
  let '(tool, action) := SplitToolAction (cName call) in
  NewToolRequest id agentID tool action (cArguments call).

Section json.
(** [json.Marshal] of a dynamic value: the text or an error. *)
Context (Marshal : any -> result string string).

(** [ConvertToModelResult] *)
Definition ConvertToModelResult (callID : string) (resp : option ToolResponse) : ModelToolResult :=
  match resp with
  | None => mkModelToolResult callID "Error: nil ToolResponse" true
  | Some r =>
    if respSuccess r then
      match Marshal (respResult r) with
      | inr e => mkModelToolResult callID ("Error: failed to marshal result: " +:+ e) true
      | inl data => mkModelToolResult callID data false
      end
    else mkModelToolResult callID ("Error: " +:+ respError r) true
  end.

(** * Audit entries *)

(** [types.AuditEntry], less its ULID and time *)
Record AuditEntry := mkAuditEntry {
  auAgentID : string;
  auEventType : string;
  auAction : string;
  auResource : string;
  auDecision : string;
  auRiskLevel : string;
  auDetails : string;
}.

(** [riskLevelForTier] *)
Definition riskLevelForTier (tier : string) : string :=
  if bool_decide (tier = TierReader) then "low"
  else if bool_decide (tier = TierWriter) then "medium"
  else if bool_decide (tier = TierOperator) then "high"
  else if bool_decide (tier = TierAdmin) then "critical"
  else "low".

(** [executionMode] *)
Definition executionMode (resp : option ToolResponse) : string :=
  match resp with
  | Some r => if bool_decide (respSandboxID r = EmptyString) then "inline" else "sandbox"
  | None => "inline"
  end.

Definition marshal_failed (e : string) : string :=
  "{" +:+ String (ascii_of_nat 34) "error" +:+ String (ascii_of_nat 34) ":"
  +:+ String (ascii_of_nat 34) "marshal failed: " +:+ e +:+ String (ascii_of_nat 34) "}".

(** [truncateJSON]; nil and empty maps both give ["{}"]. *)
Definition truncateJSON (params : list (string * any)) (maxLen : nat) : string :=
  match params with
  | [] => "{}"
  | m =>
    match Marshal (AMap m) with
    | inr e => marshal_failed e
    | inl s => if (maxLen <? String.length s)%nat then str_take maxLen s +:+ "..." else s
    end
  end.

(** The summary map [LogToolExecution] marshals. *)
Definition execution_summary (req : ToolRequest) (resp : ToolResponse) : list (string * any) :=
  [("tool", AString (rTool req)); ("action", AString (rAction req));
   ("success", ABool (respSuccess resp)); ("execution_ms", AInt (respExecutionMs resp));
   ("permission_token", AString "[REDACTED]");
   ("parameters", AString (truncateJSON (rParameters req) 500));
   ("execution_mode", AString (executionMode (Some resp)))]
  ++ (if bool_decide (rTier req = EmptyString) then []
      else [("tier", AString (rTier req)); ("risk_level", AString (riskLevelForTier (rTier req)))])
  ++ (if bool_decide (respError resp = EmptyString) then []
      else [("error", AString (respError resp))])
  ++ (if bool_decide (respSandboxID resp = EmptyString) then []
      else [("sandbox_id", AString (respSandboxID resp))]).

(** [StoreAuditLogger.LogToolPermission]: the entry it inserts; [text] is
    [json.Marshal] of the permission result. *)
Definition LogToolPermission (text : result string string) (res : PermissionResult) : AuditEntry :=
  let details := match text with inl s => s | inr e => marshal_failed e end in
  mkAuditEntry (pAgentID res) "permission_check" "tool_permission"
    (pTool res +:+ "." +:+ pAction res)
    (if pAllowed res then "allowed" else "denied") EmptyString details.

(** [StoreAuditLogger.LogToolExecution]: the entry it inserts. *)
Definition LogToolExecution (req : ToolRequest) (resp : ToolResponse) : AuditEntry :=
  let details := match Marshal (AMap (execution_summary req resp)) with
                 | inl s => s
                 | inr e => marshal_failed e
                 end in
  mkAuditEntry (rAgentID req) "tool_call" "tool_execution" (rTool req +:+ "." +:+ rAction req)
    (if respSuccess resp then "success" else "failure") (riskLevelForTier (rTier req)) details.
End json.

(** * Lemmas *)

#[local] Arguments String.append !s1 s2 : simpl nomatch.

Lemma RegistryList_elem (tools : gmap string KtpTool) (d : ToolDeclaration) :
  d ∈ RegistryList tools <-> exists name t, tools !! name = Some t /\ Declaration t = d.
Proof.
  unfold RegistryList. rewrite list_elem_of_fmap. split.
  - intros ([name t] & -> & Hin). exists name, t. by apply elem_of_map_to_list in Hin.
  - intros (name & t & Hl & <-). exists (name, t). split; [done|]. by apply elem_of_map_to_list.
Qed.

Lemma ListForAgent_elem tools tier grants d :
  d ∈ ListForAgent tools tier grants <->
  d ∈ RegistryList tools /\ (dMinTier d = EmptyString \/ TierAtLeast tier (dMinTier d) = true) /\
  (grants = [] \/ dName d ∈ grants).
Proof.
  unfold ListForAgent, tier_visible, granted.
  rewrite filter_elem, andb_true_iff, !orb_true_iff, !bool_decide_eq_true. tauto.
Qed.

(** ** Registry invariant *)

(** Every tool is stored under its own name and has a valid declaration. *)
Definition registry_wf (tools : gmap string KtpTool) : Prop :=
  forall name t, tools !! name = Some t ->
    dName (Declaration t) = name /\ Validate (Declaration t) = Ok tt.

Lemma Register_ok tool tools tools' :
  Register tool tools = Ok tools' ->
  Validate (Declaration tool) = Ok tt /\ tools !! dName (Declaration tool) = None /\
  tools' = <[dName (Declaration tool) := tool]> tools.
Proof.
  unfold Register. destruct (Validate (Declaration tool)) as [[]|]; [|done].
  destruct (tools !! dName (Declaration tool)); [done|]. by intros [= <-].
Qed.

Lemma Register_wf tool tools tools' :
  registry_wf tools -> Register tool tools = Ok tools' -> registry_wf tools'.
Proof.
  intros Hwf (Hv & Hnone & ->)%Register_ok name t.
  destruct (decide (name = dName (Declaration tool))) as [->|Hne].
  - rewrite lookup_insert_eq. by intros [= <-].
  - rewrite lookup_insert_ne by done. apply Hwf.
Qed.

(** ** Names *)

Lemma contains_false (s sub : string) : contains s sub = false <-> ~ occurs sub s.
Proof. rewrite <- contains_spec. destruct (contains s sub); naive_solver. Qed.

(** The first separator of a joined name is the one that was put there. *)
Lemma index_of_join (tool rest : string) :
  contains (tool +:+ "_") ToolNameSeparator = false ->
  str_index (tool +:+ ToolNameSeparator +:+ rest) ToolNameSeparator = Some (String.length tool).
Proof.
  rewrite contains_false. induction tool as [|c tool IH]; intros Hno.
  - destruct rest; done.
  - cbn [String.append str_index]. cbn [String.append] in Hno.
    destruct (has_prefix _ _) eqn:Hp; [|rewrite IH; [done|]].
    + exfalso. apply Hno. apply has_prefix_spec in Hp as [r Hr].
      unfold ToolNameSeparator in Hr.
      destruct tool as [|d tool]; cbn [String.append] in Hr; injection Hr as -> Hr.
      * by exists EmptyString, EmptyString.
      * subst d. by exists EmptyString, (tool +:+ "_").
    + intros Ho. by apply Hno, occurs_cons.
Qed.

Lemma split_join (tool action : string) :
  contains (tool +:+ "_") ToolNameSeparator = false ->
  SplitToolAction (JoinToolAction tool action) = (tool, action).
Proof.
  intros Hno. unfold JoinToolAction, SplitToolAction, cut. case_bool_decide as Ha.
  - subst. assert (contains tool ToolNameSeparator = false) as Hc.
    { apply contains_false in Hno. apply contains_false. intros (a & b & Hab). apply Hno.
      exists a, (b +:+ "_"). rewrite Hab, <- !str_app_assoc. done. }
    unfold contains in Hc. by destruct (str_index tool ToolNameSeparator).
  - rewrite index_of_join by done. f_equal.
    + f_equal. apply str_take_app.
    + rewrite str_app_assoc. replace (String.length tool + String.length ToolNameSeparator)%nat
        with (String.length (tool +:+ ToolNameSeparator)) by (by rewrite str_length_app).
      apply str_drop_app.
Qed.

(** * Properties *)

(** Registration keeps the registry well formed: starting from the empty
    registry, every stored tool is valid, is found under its own name, and a name
    is bound once (a second registration is refused and changes nothing). *)
Theorem registry_invariant (l : list KtpTool) (tools : gmap string KtpTool) :
  foldl (fun r t => rbind r (Register t)) (Ok ∅) l = Ok tools ->
  registry_wf tools /\ NoDup (map (fun t => dName (Declaration t)) l) /\
  forall t, t ∈ l -> RegistryGet tools (dName (Declaration t)) = Some t.
Proof.
  revert tools. induction l as [|t l IH] using rev_ind; intros tools.
  - simpl. intros [= <-]. split; [intros ? ? [=]|]. split; [constructor|].
    by intros ? ?%elem_of_nil.
  - rewrite foldl_app. simpl. destruct (foldl _ _ l) as [tools0|] eqn:E; [|done]. simpl.
    intros Hr. destruct (IH tools0 eq_refl) as (Hwf & Hnd & Hget).
    pose proof (Register_wf _ _ _ Hwf Hr) as Hwf'.
    apply Register_ok in Hr as (Hv & Hnone & ->). split; [done|]. split.
    + rewrite map_app. apply NoDup_app. split; [done|]. split; [|by apply NoDup_singleton].
      intros n Hn Hn'. apply list_elem_of_singleton in Hn'. subst n.
      apply list_elem_of_fmap in Hn as (t' & Heq & Ht'). apply Hget in Ht'.
      unfold RegistryGet in Ht'. rewrite <- Heq, Hnone in Ht'. done.
    + intros t' [Ht'|Ht']%elem_of_app; unfold RegistryGet in *.
      * rewrite lookup_insert_ne; [by apply Hget|]. intros Heq. apply Hget in Ht'.
        rewrite <- Heq, Hnone in Ht'. done.
      * apply list_elem_of_singleton in Ht' as ->. apply lookup_insert_eq.
Qed.

Section visibility.
Context `{UnicodeCase}.

(** No permitted tool is hidden from the model: when the gate would allow
    some action of a registered tool, the tool is in the agent's list. *)
Theorem permitted_is_visible tools name tool agent token agentID actionName params :
  RegistryGet tools name = Some tool ->
  pAllowed (decide_call agent token agentID (Declaration tool) actionName params) = true ->
  Declaration tool ∈ ListForAgent tools (ResolveAgentTier (Template agent)) (ToolGrants agent).
Proof.
  intros Hget Hallow. apply decide_call_spec in Hallow as (action & needed & _ & Ht & Hg & _).
  apply ListForAgent_elem. split; [|split; [by right|done]].
  apply RegistryList_elem. by exists name, tool.
Qed.

(** A tool that declares no minimum tier is listed for every agent, but
    the gate refuses every call to it. *)
Theorem untiered_tool_visible_but_denied tools name tool agent token agentID actionName params :
  RegistryGet tools name = Some tool -> dMinTier (Declaration tool) = EmptyString ->
  Declaration tool ∈ ListForTier tools (ResolveAgentTier (Template agent)) /\
  pAllowed (decide_call agent token agentID (Declaration tool) actionName params) = false.
Proof.
  intros Hget Hm. split.
  - unfold ListForTier, tier_visible. apply filter_elem. rewrite Hm. split; [|done].
    apply RegistryList_elem. by exists name, tool.
  - destruct (pAllowed _) eqn:Hallow; [|done].
    apply decide_call_spec in Hallow as (action & needed & _ & Ht & _).
    rewrite Hm in Ht. apply TierAtLeast_spec in Ht as [[? _]|(_ & _ & Hin & _)]; [done|].
    unfold known_tiers in Hin. repeat (apply elem_of_cons in Hin as [?|Hin]; [done|]).
    by apply elem_of_nil in Hin.
Qed.
End visibility.

(** The name a model is given for an action leads back to it: unless the
    separator [__] occurs in the tool's name or is completed by a final
    underscore, the request built from the model's call names that tool and
    action. *)
Theorem model_name_roundtrip id agentID callID tool action args :
  contains (tool +:+ "_") ToolNameSeparator = false ->
  let req := ConvertToKTPRequest id agentID (mkModelToolCall callID (JoinToolAction tool action) args) in
  rTool req = tool /\ rAction req = action /\ rParameters req = args /\ rAgentID req = agentID.
Proof.
  intros Hno. unfold ConvertToKTPRequest. simpl. rewrite split_join by done. done.
Qed.

(** A final underscore in the tool name does break the round trip. *)
Example trailing_underscore_misrouted :
  SplitToolAction (JoinToolAction "x_" "run") = ("x", "_run").
Proof. reflexivity. Qed.

Definition with_token (req : ToolRequest) (token : string) : ToolRequest :=
  mkToolRequest (rID req) (rAgentID req) (rTeamID req) (rTool req) (rAction req)
    (rParameters req) token (rTier req) (rSkillSandboxConfig req).

(** The audit entry of an execution does not depend on the permission token
    (it cannot leak it), and the parameters in it are cut to 503 bytes. *)
Theorem audit_entry_hides_token Marshal req resp token s :
  LogToolExecution Marshal (with_token req token) resp = LogToolExecution Marshal req resp /\
  (Marshal (AMap (rParameters req)) = Ok s ->
   (String.length (truncateJSON Marshal (rParameters req) 500) <= 503)%nat).
Proof.
  split; [done|]. intros Hs. unfold truncateJSON.
  destruct (rParameters req) as [|e m] eqn:Ep; [simpl; lia|]. rewrite Hs. unfold Ok.
  destruct (Nat.ltb_spec 500 (String.length s)) as [Hlt|]; [|lia].
  rewrite str_length_app. rewrite str_length_take by lia. simpl. lia.
Qed.

(** * Witnesses *)

Definition notes_tool : KtpTool :=
  mkTool ungated_decl true (fun _ req =>
    Returned (Some (NewToolResponse (rID req) true (AString "done") EmptyString 0))).

Definition untiered_decl : ToolDeclaration :=
  mkToolDeclaration "loose" "1.0.0" EmptyString [] (dActions ungated_decl) EmptyString [] [].

Lemma registry_invariant_witness :
  RegistryGet {["notes" := notes_tool]} "notes" = Some notes_tool.
Proof.
  destruct (registry_invariant [notes_tool] {["notes" := notes_tool]}) as (_ & _ & H).
  - vm_compute. reflexivity.
  - apply (H notes_tool). left.
Defined.

Section witnesses.
#[local] Instance case : UnicodeCase := ascii_case.

Lemma permitted_is_visible_witness :
  Declaration notes_tool ∈ ListForAgent {["notes" := notes_tool]} TierReader [].
Proof.
  apply (permitted_is_visible {["notes" := notes_tool]} "notes" notes_tool
    (plain_agent "a1" "reader") "t" "a1" "list" []); vm_compute; reflexivity.
Defined.

Lemma untiered_tool_visible_but_denied_witness :
  pAllowed (decide_call (plain_agent "a1" "admin") "t" "a1" untiered_decl "list" []) = false.
Proof.
  apply (untiered_tool_visible_but_denied {["loose" := mkTool untiered_decl true
    (fun _ _ => Returned None)]} "loose" (mkTool untiered_decl true (fun _ _ => Returned None)));
    vm_compute; reflexivity.
Defined.
End witnesses.

Lemma model_name_roundtrip_witness :
  rTool (ConvertToKTPRequest "r" "a1" (mkModelToolCall "c" "notes__list" [])) = "notes".
Proof.
  apply (model_name_roundtrip "r" "a1" "c" "notes" "list" []). vm_compute. reflexivity.
Defined.

Lemma audit_entry_hides_token_witness :
  (String.length (truncateJSON (fun _ => Ok "text") [("a", ANil)] 500) <= 503)%nat.
Proof.
  apply (audit_entry_hides_token (fun _ => Ok "text")
    (NewToolRequest "r" "a1" "notes" "list" [("a", ANil)])
    (NewToolResponse "r" true ANil EmptyString 0) "t" "text"). reflexivity.
Defined.
