(* ===== verification/KtpExecutor.v ===== *)
(** The tool executor of the Kyvik Tool Protocol ([internal/ktp/executor.go]).

    The sandbox is an interface ([SandboxExecutor]) with the laws the executor's
    theorems rely on; [Sandbox.v] gives the instance for [sandbox.KTPAdapter].
    One call of [Execute] is a function on the [World]: the sandbox's state, the
    process environment, and the trace of what was done.  The end of the file
    interleaves several calls that share the semaphore and the environment. *)

From S2P Require Import Prelude GoString GoFloat Types KtpTypes KtpSchema KtpGate KtpRegistry.

(** * Texts built by fmt *)

Class Messages := {
  quote : string -> string;                 (* strconv.Quote, for %q *)
  reason_text : DenyReason -> string;       (* the Reason field of a PermissionResult *)
  violation_text : Violation -> string;     (* the Message field of a ValidationError *)
}.

(** [errorResponse] *)
Definition errorResponse (reqID msg : string) (execMs : Z) : ToolResponse :=
  mkToolResponse reqID false ANil msg execMs EmptyString.

(** * Secrets *)

(** [secretKeyToEnvVar]: [for _, r := range key] visits runes. *)
Definition env_rune (r : Z) : string :=
  if ((97 <=? r) && (r <=? 122)) || ((65 <=? r) && (r <=? 90)) || ((48 <=? r) && (r <=? 57))
  then encode_rune r else "_".

Definition secretKeyToEnvVar `{UnicodeCase} (key : string) : string :=
  to_upper ("KYVIK_SECRET_" +:+ str_concat (map (fun x => env_rune x.1) (runes key))).

(** [os.Setenv] with its error dropped: a value with a NUL byte is refused. *)
Definition Setenv (k v : string) (env : gmap string string) : gmap string string :=
  if str_elem (ascii_of_nat 0) v then env else <[k := v]> env.

(** [SecretResolver.Resolve]: agent, team, key. *)
Definition Resolver : Type := string -> string -> string -> result string string.

(** The injection loop of the in-process path: the environment, the variables
    recorded for the clean-up, and the key whose resolution failed, if any. *)
Fixpoint injectSecrets `{UnicodeCase} (resolve : Resolver) (agentID teamID : string)
    (keys : list string) (env : gmap string string) (recorded : list string)
    : gmap string string * list string * option (string * string) :=
  match keys with
  | [] => (env, recorded, None)
  | key :: keys' =>
    match resolve agentID teamID key with
    | inr e => (env, recorded, Some (key, e))
    | inl val =>
      let envKey := secretKeyToEnvVar key in
      injectSecrets resolve agentID teamID keys' (Setenv envKey val env) (recorded ++ [envKey])
    end
  end.

(** The deferred clean-up: [os.Unsetenv] of every recorded variable. *)
Definition unsetAll (vars : list string) (env : gmap string string) : gmap string string :=
  foldl (fun e k => delete k e) env vars.

(** The resolution loop of the sandboxed path. *)
Fixpoint resolveAll (resolve : Resolver) (agentID teamID : string) (keys : list string)
    (acc : gmap string string) : result (string * string) (gmap string string) :=
  match keys with
  | [] => Ok acc
  | key :: keys' =>
    match resolve agentID teamID key with
    | inr e => Err (key, e)
    | inl val => resolveAll resolve agentID teamID keys' (<[key := val]> acc)
    end
  end.

(** ** Redaction

    Go ranges over the secrets in an unspecified order, for every string anew:
    [visit s] is the order of the secret values when the string [s] is
    processed. *)

Definition redacted_marker : string := "[REDACTED]".

Definition redactString (visit : string -> list string) (s : string) : string :=
  foldl (fun v secret => if bool_decide (secret = EmptyString) then v
                         else replace_all v secret redacted_marker) s (visit s).

(** [redactValue] *)
Fixpoint redactValue (visit : string -> list string) (val : any) : any :=
  match val with
  | AString s => AString (redactString visit s)
  | AMap m => AMap ((fix go m := match m with
      | [] => []
      | (k, v) :: m' => (k, redactValue visit v) :: go m'
      end) m)
  | AStrMap m => AStrMap (map (fun e => (e.1, redactString visit e.2)) m)
  | ASlice l => ASlice (map (redactValue visit) l)
  | AStrSlice l => AStrSlice (map (redactString visit) l)
  | _ => val
  end.

(** [redactSecretsFromResponse] *)
Definition redactSecretsFromResponse (visit : string -> list string) (resp : option ToolResponse)
    : option ToolResponse :=
  match resp with
  | None => None
  | Some r =>
    let err := if bool_decide (respError r = EmptyString) then respError r
               else redactString visit (respError r) in
    Some (mkToolResponse (respRequestID r) (respSuccess r) (redactValue visit (respResult r)) err
            (respExecutionMs r) (respSandboxID r))
  end.

(** * Sandbox limits *)

(** [hasNetworkCapability] *)
Definition hasNetworkCapability (decl : ToolDeclaration) : bool :=
  existsb (fun c => bool_decide (kType c = "network")) (dCapabilities decl).

(** [tierToSandboxOverrides] *)
Definition tierToSandboxOverrides (tier : string) (decl : ToolDeclaration) : gmap string any :=
  let net := ABool (hasNetworkCapability decl) in
  let limits (mem secs : Z) (n : any) : gmap string any :=
    <["allow_network" := n]> (<["timeout_seconds" := AInt secs]>
      (<["max_memory_mb" := AInt mem]> ∅)) in
  if bool_decide (tier = TierReader) then limits 256 10 net
  else if bool_decide (tier = TierWriter) then limits 512 30 net
  else if bool_decide (tier = TierOperator) then <["allow_network" := net]> ∅
  else if bool_decide (tier = TierAdmin) then limits 1024 120 net
  else limits 256 10 (ABool false).

Definition put_strings (k : string) (l : list string) (m : gmap string any) : gmap string any :=
  match l with [] => m | _ => <[k := AStrSlice l]> m end.

(** [applySkillConstraints] *)
Definition applySkillConstraints (overrides : gmap string any) (skill : option SkillSandboxConfig)
    : gmap string any :=
  match skill with
  | None => overrides
  | Some sk =>
    let o1 := if AllowNetwork sk then overrides
              else <["allow_network" := ABool false]> overrides in
    let o2 := put_strings "skill_allowed_hosts" (AllowedHosts sk) o1 in
    let o3 := put_strings "skill_read_paths" (ReadPaths sk) o2 in
    put_strings "skill_write_paths" (WritePaths sk) o3
  end.

(** * The sandbox interface *)

Record SandboxInfo := mkSandboxInfo { siID : string; siAgentID : string }.

(** [SandboxExecutor]; [SecretsOf] observes what [SetSandboxSecrets] wrote. *)
Class SandboxExecutor (S : Type) := {
  GetOrCreateSandbox : string -> gmap string any -> S -> result string SandboxInfo * S;
  ExecuteInSandbox : string -> ToolRequest -> S -> ToolOutcome * S;
  SetSandboxSecrets : string -> gmap string string -> S -> S;
  SecretsOf : string -> S -> gmap string string;
}.

(** What the executor relies on: [sb_wf] is an invariant of the implementation. *)
Class SandboxLaws (S : Type) `{SandboxExecutor S} := {
  sb_wf : S -> Prop;
  create_wf agent o s : sb_wf s -> sb_wf (GetOrCreateSandbox agent o s).2;
  execute_wf id req s : sb_wf s -> sb_wf (ExecuteInSandbox id req s).2;
  set_secrets_wf id m s : sb_wf s -> sb_wf (SetSandboxSecrets id m s);
  clear_secrets id s : SecretsOf id (SetSandboxSecrets id ∅ s) = ∅;
  set_secrets_other id id' m s : id' <> id -> SecretsOf id' (SetSandboxSecrets id m s) = SecretsOf id' s;
  execute_keeps_secrets id id' req s : SecretsOf id' (ExecuteInSandbox id req s).2 = SecretsOf id' s;
  create_keeps_secrets agent o id s :
    sb_wf s -> SecretsOf id s = ∅ -> SecretsOf id (GetOrCreateSandbox agent o s).2 = ∅;
}.

(** * The pipeline *)

Inductive Event : Type :=
| PermissionLogged (r : PermissionResult)
| RanInline (tool : string) (req : ToolRequest) (env : gmap string string)
| RanSandboxed (sandboxID : string) (req : ToolRequest) (secrets : gmap string string)
| ExecutionLogged (entry : AuditEntry).

Record World (S : Type) := mkWorld {
  wSandbox : S;
  wEnv : gmap string string;
  wTrace : list Event;
}.
Arguments mkWorld {S} _ _ _.
Arguments wSandbox {S} _.
Arguments wEnv {S} _.
Arguments wTrace {S} _.

(** [ExecutorConfig] and the values [NewExecutor] derives from it (durations in
    nanoseconds). *)
Definition executorTimeout (defaultTimeout : Z) : Z :=
  if defaultTimeout <=? 0 then 30 * 1000000000 else defaultTimeout.

Definition executorSlots (maxConcurrent : Z) : Z :=
  if maxConcurrent <=? 0 then 50 else maxConcurrent.

(** [Executor], less the semaphore and the timeout. *)
Record Executor := mkExecutor {
  exRegistry : gmap string KtpTool;
  exGetAgent : string -> result string AgentConfig;
  exAudit : bool;
  exSandbox : bool;
  exSecrets : option Resolver;
}.

(** What one call meets outside the executor: the fresh permission token, the
    elapsed milliseconds, whether the select takes a slot (or the context ends
    first), and the orders of the redaction loops. *)
Record CallEnv := mkCallEnv {
  ceToken : string;
  ceMillis : Z;
  ceSlot : bool;
  ceVisit : gmap string string -> string -> list string;
}.

Section executor.
Context `{UnicodeCase} `{Messages} {S : Type} `{SandboxExecutor S}
  (regexp_match : string -> string -> result string bool)
  (Marshal : any -> result string string).

Definition emit (ev : Event) (w : World S) : World S :=
  mkWorld (wSandbox w) (wEnv w) (wTrace w ++ [ev]).

Definition nil_deref : string := "runtime error: invalid memory address or nil pointer dereference".

(** The two error texts both secret loops build. *)
Definition unresolved (key e : string) : string :=
  "failed to resolve required secret " +:+ quote key +:+ ": " +:+ e.

Definition panic_response (req : ToolRequest) (v : string) : ToolResponse :=
  errorResponse (rID req) ("tool panicked: " +:+ v) 0.

(** Steps 4 to 6 of [executeSandboxed], between the two clears. *)
Definition runSandboxed (ce : CallEnv) (sid : string) (req : ToolRequest)
    (resolved : gmap string string) (w : World S) : ToolOutcome * World S :=
  let s1 := if bool_decide (resolved = ∅) then wSandbox w
            else SetSandboxSecrets sid resolved (wSandbox w) in
  let w1 := emit (RanSandboxed sid req (SecretsOf sid s1)) (mkWorld s1 (wEnv w) (wTrace w)) in
  let '(out, s2) := ExecuteInSandbox sid req s1 in
  let w2 := mkWorld s2 (wEnv w1) (wTrace w1) in
  match out with
  | Panicked v => (Panicked v, w2)
  | ReturnedError e =>
    (Returned (Some (errorResponse (rID req) ("sandbox execution failed: " +:+ e) 0)), w2)
  | Returned resp =>
    let resp1 := if bool_decide (resolved = ∅) then resp
                 else redactSecretsFromResponse (ceVisit ce resolved) resp in
    match resp1 with
    | None => (Panicked nil_deref, w2)
    | Some r => (Returned (Some (mkToolResponse (respRequestID r) (respSuccess r) (respResult r)
                   (respError r) (respExecutionMs r) sid)), w2)
    end
  end.

(** [executeSandboxed]: a panic is an outcome for the caller to recover. *)
Definition executeSandboxed (ex : Executor) (ce : CallEnv) (tool : KtpTool) (req : ToolRequest)
    (tier : string) (w : World S) : ToolOutcome * World S :=
  let decl := Declaration tool in
  let overrides := applySkillConstraints (tierToSandboxOverrides tier decl) (rSkillSandboxConfig req) in
  let fail msg := Returned (Some (errorResponse (rID req) msg 0)) in
  match GetOrCreateSandbox (rAgentID req) overrides (wSandbox w) with
  | (inr e, s0) => (fail ("sandbox creation failed: " +:+ e), mkWorld s0 (wEnv w) (wTrace w))
  | (inl info, s0) =>
    let sid := siID info in
    let w0 := mkWorld (SetSandboxSecrets sid ∅ s0) (wEnv w) (wTrace w) in
    let '(out, w1) :=
      match dRequiredSecrets decl with
      | [] => runSandboxed ce sid req ∅ w0
      | keys =>
        match exSecrets ex with
        | None => (fail ("secret resolver not configured but tool requires secrets: ["
                     +:+ join " " keys +:+ "]"), w0)
        | Some resolve =>
          match resolveAll resolve (rAgentID req) (rTeamID req) keys ∅ with
          | inr (key, e) => (fail (unresolved key e), w0)
          | inl resolved => runSandboxed ce sid req resolved w0
          end
        end
      end in
    (* deferred *)
    (out, mkWorld (SetSandboxSecrets sid ∅ (wSandbox w1)) (wEnv w1) (wTrace w1))
  end.

(** The in-process branch of [executeWithSafety]. *)
Definition executeInline (ex : Executor) (ce : CallEnv) (tool : KtpTool) (req : ToolRequest)
    (w : World S) : ToolOutcome * World S :=
  let decl := Declaration tool in
  let '(env, vars, failed) :=
    match dRequiredSecrets decl, exSecrets ex with
    | [], _ | _, None => (wEnv w, [], None)
    | keys, Some resolve => injectSecrets resolve (rAgentID req) (rTeamID req) keys (wEnv w) []
    end in
  match failed with
  | Some (key, e) =>
    (* returns before the clean-up is deferred *)
    (Returned (Some (errorResponse (rID req) (unresolved key e) 0)), mkWorld (wSandbox w) env (wTrace w))
  | None =>
    let out := ToolExecute tool env req in
    let w1 := emit (RanInline (dName decl) req env) (mkWorld (wSandbox w) (unsetAll vars env) (wTrace w)) in
    match out with
    | Panicked v => (Panicked v, w1)
    | ReturnedError e => (Returned (Some (errorResponse (rID req) e (ceMillis ce))), w1)
    | Returned None =>
      (Returned (Some (errorResponse (rID req) "tool returned nil response" (ceMillis ce))), w1)
    | Returned (Some r) =>
      (Returned (Some (mkToolResponse (respRequestID r) (respSuccess r) (respResult r) (respError r)
         (ceMillis ce) (respSandboxID r))), w1)
    end
  end.

(** [executeWithSafety]: routes the call and recovers from panics. *)
Definition executeWithSafety (ex : Executor) (ce : CallEnv) (tool : KtpTool) (req : ToolRequest)
    (tier : string) (w : World S) : result string ToolResponse * World S :=
  let '(out, w') := if exSandbox ex && negb (isInlineTool tool)
                    then executeSandboxed ex ce tool req tier w
                    else executeInline ex ce tool req w in
  match out with
  | Panicked v => (Ok (panic_response req v), w')
  | ReturnedError e => (Err e, w')
  | Returned None => (Ok (panic_response req nil_deref), w')
  | Returned (Some r) => (Ok r, w')
  end.

(** The reason text of step 3. *)
Definition validation_reason (errs : list ValidationError) : string :=
  join "; " (map (fun e => if bool_decide (Field e = EmptyString) then violation_text (Message e)
                           else Field e +:+ ": " +:+ violation_text (Message e)) errs).

(** The request a permitted call carries on with. *)
Definition stamp (req : ToolRequest) (perm : PermissionResult) : ToolRequest :=
  mkToolRequest (rID req) (rAgentID req) (rTeamID req) (rTool req) (rAction req) (rParameters req)
    (pToken perm) (pTier perm) (rSkillSandboxConfig req).

(** Steps 1 to 5 of [Executor.Execute]: an answer, or the call that may run, with the tool, the
    stamped request and the tier. *)
Definition begin_call (ex : Executor) (ce : CallEnv) (req : ToolRequest) (w : World S)
    : (result string ToolResponse + KtpTool * ToolRequest * string) * World S :=
  let answer r w := (@inl _ (KtpTool * ToolRequest * string) r, w) in
  let fail msg := answer (Ok (errorResponse (rID req) msg 0)) w in
  match RegistryGet (exRegistry ex) (rTool req) with
  | None => fail ("unknown tool: " +:+ rTool req)
  | Some tool =>
    let decl := Declaration tool in
    match GetAction decl (rAction req) with
    | None => fail ("unknown action: " +:+ rTool req +:+ "." +:+ rAction req)
    | Some action =>
      match ValidateParams regexp_match (rParameters req) (aParameters action) with
      | _ :: _ as errs => fail ("validation failed: " +:+ validation_reason errs)
      | [] =>
        let '(checked, logged) := Check (exGetAgent ex) (exAudit ex) (ceToken ce) (rAgentID req)
                                    decl (rAction req) (rParameters req) in
        let w1 := mkWorld (wSandbox w) (wEnv w) (wTrace w ++ map PermissionLogged logged) in
        match checked with
        | inr e => answer (Err e) w1
        | inl perm =>
          if negb (pAllowed perm) then
            answer (Ok (errorResponse (rID req) (reason_text (pReason perm)) 0)) w1
          else if negb (ceSlot ce) then
            answer (Ok (errorResponse (rID req) "execution queue full: context deadline exceeded" 0)) w1
          else (inr (tool, stamp req perm, pTier perm), w1)
        end
      end
    end
  end.

(** What follows the run: an answer is audited. *)
Definition end_call (ex : Executor) (req : ToolRequest) (x : result string ToolResponse * World S)
    : result string ToolResponse * World S :=
  match x with
  | (inr e, w) => (Err e, w)
  | (inl resp, w) =>
    (Ok resp, if exAudit ex then emit (ExecutionLogged (LogToolExecution Marshal req resp)) w else w)
  end.

(** [Executor.Execute]; the result's warnings-only validation has no effect. *)
Definition Execute (ex : Executor) (ce : CallEnv) (req : ToolRequest) (w : World S)
    : result string ToolResponse * World S :=
  match begin_call ex ce req w with
  | (inl r, w1) => (r, w1)
  | (inr (tool, req', tier), w1) => end_call ex req' (executeWithSafety ex ce tool req' tier w1)
  end.
End executor.

(** * Redaction lemmas *)

(** The strings of a value that the type switch of [redactValue] reaches. *)
Fixpoint leaves (v : any) : list string :=
  match v with
  | AString s => [s]
  | AMap m => (fix go m := match m with
      | [] => []
      | (_, x) :: m' => leaves x ++ go m'
      end) m
  | AStrMap m => map snd m
  | ASlice l => (fix go l := match l with
      | [] => []
      | x :: l' => leaves x ++ go l'
      end) l
  | AStrSlice l => l
  | _ => []
  end.

Definition secret_free (p : string) : Prop :=
  marker_free (ascii_of_nat 91) (ascii_of_nat 93) "REDACTED" p.

Lemma redact_step_occurs (p secret s : string) :
  secret_free p ->
  occurs p (if bool_decide (secret = EmptyString) then s else replace_all s secret redacted_marker) ->
  occurs p s.
Proof.
  intros Hp. case_bool_decide as He; [done|].
  by apply (replace_all_occurs (ascii_of_nat 91) (ascii_of_nat 93) "REDACTED").
Qed.

Lemma redact_fold_occurs (p : string) (l : list string) (s : string) :
  secret_free p ->
  occurs p (foldl (fun v secret => if bool_decide (secret = EmptyString) then v
                         else replace_all v secret redacted_marker) s l) -> occurs p s.
Proof.
  intros Hp. revert s. induction l as [|x l IH]; intros s; simpl; [done|].
  intros Ho. apply IH in Ho. by eapply redact_step_occurs.
Qed.

Lemma redact_fold_gone (p : string) (l : list string) (s : string) :
  secret_free p -> p ∈ l ->
  ~ occurs p (foldl (fun v secret => if bool_decide (secret = EmptyString) then v
                         else replace_all v secret redacted_marker) s l).
Proof.
  intros Hp. revert s. induction l as [|x l IH]; intros s Hin; [by apply elem_of_nil in Hin|].
  simpl. apply elem_of_cons in Hin as [<-|Hin]; [|by apply IH].
  intros Ho. apply redact_fold_occurs in Ho; [|done].
  destruct Hp as [Hne Hp]. rewrite bool_decide_eq_false_2 in Ho by done.
  eapply (replace_all_gone (ascii_of_nat 91) (ascii_of_nat 93) "REDACTED"); [|exact Ho].
  by split.
Qed.

Section redaction.
Context (visit : string -> list string) (p : string).
Hypothesis (Hp : secret_free p) (Hvisit : forall s, p ∈ visit s).

Lemma redactString_gone (s : string) : ~ occurs p (redactString visit s).
Proof. by apply redact_fold_gone. Qed.

Lemma redactValue_gone (v : any) : Forall (fun s => ~ occurs p s) (leaves (redactValue visit v)).
Proof.
  induction v as [| | s | | | | | m IH | m | l IH | l | l IH |] using any_strong_ind; simpl;
    try (by constructor).
  - constructor; [apply redactString_gone|constructor].
  - induction IH as [|[k x] m Hx _ IHm]; simpl; [constructor|]. by apply Forall_app.
  - induction m as [|[k x] m IHm]; simpl; constructor; [apply redactString_gone|done].
  - induction IH as [|x l Hx _ IHl]; simpl; [constructor|]. by apply Forall_app.
  - induction l as [|x l IHl]; simpl; constructor; [apply redactString_gone|done].
Qed.
End redaction.

(** * Environment lemmas *)

Lemma unsetAll_lookup (vars : list string) (env : gmap string string) (k : string) :
  unsetAll vars env !! k = if bool_decide (k ∈ vars) then None else env !! k.
Proof.
  unfold unsetAll. revert env. induction vars as [|x vars IH]; intros env; simpl; [done|].
  rewrite IH. case_bool_decide as Hin; [rewrite bool_decide_eq_true_2; [done|set_solver]|].
  destruct (decide (k = x)) as [->|Hne].
  - rewrite lookup_delete_eq, bool_decide_eq_true_2; [done|set_solver].
  - rewrite lookup_delete_ne by done. rewrite bool_decide_eq_false_2; [done|set_solver].
Qed.

Lemma Setenv_other (k v k' : string) (env : gmap string string) :
  k' <> k -> Setenv k v env !! k' = env !! k'.
Proof. intros Hne. unfold Setenv. break; [done|]. by rewrite lookup_insert_ne. Qed.

Section inject.
Context `{UnicodeCase} (resolve : Resolver) (agentID teamID : string).

Lemma injectSecrets_other (keys : list string) env rec env' vars failed (k : string) :
  injectSecrets resolve agentID teamID keys env rec = (env', vars, failed) ->
  (forall key, key ∈ keys -> k <> secretKeyToEnvVar key) ->
  env' !! k = env !! k.
Proof.
  revert env rec. induction keys as [|key keys IH]; intros env rec; simpl; [by intros [= <- _ _]|].
  destruct (resolve agentID teamID key); [|by intros [= <- _ _]].
  intros Hi Hk. rewrite (IH _ _ Hi); [|set_solver]. apply Setenv_other. apply Hk. set_solver.
Qed.

Lemma injectSecrets_vars (keys : list string) env rec env' vars :
  injectSecrets resolve agentID teamID keys env rec = (env', vars, None) ->
  vars = rec ++ map secretKeyToEnvVar keys.
Proof.
  revert env rec. induction keys as [|key keys IH]; intros env rec; simpl.
  - intros [= _ <-]. by rewrite app_nil_r.
  - destruct (resolve agentID teamID key); [|done]. intros ->%IH. by rewrite <- app_assoc.
Qed.
End inject.

(** * Pipeline lemmas *)

Definition is_run (ev : Event) : Prop :=
  match ev with
  | RanInline _ _ _ | RanSandboxed _ _ _ => True
  | _ => False
  end.

Section pipeline.
Context `{UnicodeCase} `{Messages} {S : Type} `{SandboxLaws S}
  (regexp_match : string -> string -> result string bool)
  (Marshal : any -> result string string).

Implicit Types (w : World S) (ex : Executor) (ce : CallEnv).

(** A call of [executeWithSafety] runs the tool at most once, with its request, and
    logs nothing. *)
Definition run_of (req : ToolRequest) (ev : Event) : Prop :=
  match ev with
  | RanInline _ r _ | RanSandboxed _ r _ => r = req
  | _ => False
  end.

Definition one_run (req : ToolRequest) (tr tr' : list Event) : Prop :=
  tr' = tr \/ exists ev, run_of req ev /\ tr' = tr ++ [ev].

Lemma run_of_is_run (req : ToolRequest) (ev : Event) : run_of req ev -> is_run ev.
Proof. by destruct ev. Qed.

Lemma runSandboxed_trace ce sid req resolved w out w' :
  runSandboxed ce sid req resolved w = (out, w') -> one_run req (wTrace w) (wTrace w').
Proof.
  unfold runSandboxed, emit. destruct (ExecuteInSandbox _ _ _) as [o s2].
  intros Hr. right. exists (RanSandboxed sid req
    (SecretsOf sid (if bool_decide (resolved = ∅) then wSandbox w
                    else SetSandboxSecrets sid resolved (wSandbox w)))).
  split; [done|]. revert Hr. branches; intros Hr; by simplify_eq/=.
Qed.

Lemma executeSandboxed_trace ex ce tool req tier w out w' :
  executeSandboxed ex ce tool req tier w = (out, w') -> one_run req (wTrace w) (wTrace w').
Proof.
  unfold executeSandboxed. destruct (GetOrCreateSandbox _ _ _) as [[info|e] s0].
  2: { intros [= _ <-]. by left. }
  set (w0 := mkWorld _ _ _).
  destruct (dRequiredSecrets (Declaration tool)) as [|k ks].
  - destruct (runSandboxed _ _ _ _ _) as [o w1] eqn:E. intros [= _ <-]. simpl.
    by apply runSandboxed_trace in E.
  - destruct (exSecrets ex) as [resolve|]; [|intros [= _ <-]; by left].
    destruct (resolveAll _ _ _ _ _) as [resolved|[key e]]; [|intros [= _ <-]; by left].
    destruct (runSandboxed _ _ _ _ _) as [o w1] eqn:E. intros [= _ <-]. simpl.
    by apply runSandboxed_trace in E.
Qed.

Lemma executeInline_trace ex ce tool req w out w' :
  executeInline ex ce tool req w = (out, w') -> one_run req (wTrace w) (wTrace w').
Proof.
  unfold executeInline, emit.
  destruct (match dRequiredSecrets _ with [] => _ | _ => _ end) as [[env vars] failed].
  destruct failed as [[key e]|]; [intros [= _ <-]; by left|].
  intros Hr. right. exists (RanInline (dName (Declaration tool)) req env). split; [done|].
  revert Hr. branches; intros Hr; by simplify_eq/=.
Qed.

Lemma executeWithSafety_trace ex ce tool req tier w r w' :
  executeWithSafety ex ce tool req tier w = (r, w') -> one_run req (wTrace w) (wTrace w').
Proof.
  unfold executeWithSafety.
  destruct (if exSandbox ex && negb (isInlineTool tool) then _ else _) as [out w1] eqn:E.
  intros Hr. assert (w1 = w') as <- by (revert Hr; branches; intros; by simplify_eq/=).
  destruct (exSandbox ex && negb (isInlineTool tool));
    [by eapply executeSandboxed_trace|by eapply executeInline_trace].
Qed.

Lemma runSandboxed_no_error ce sid req resolved w e w' :
  runSandboxed ce sid req resolved w <> (ReturnedError e, w').
Proof.
  unfold runSandboxed. destruct (ExecuteInSandbox _ _ _) as [[o|e'|v] s2]; [|done|done].
  by destruct (if bool_decide _ then _ else _).
Qed.

Lemma executeSandboxed_no_error ex ce tool req tier w e w' :
  executeSandboxed ex ce tool req tier w <> (ReturnedError e, w').
Proof.
  unfold executeSandboxed. destruct (GetOrCreateSandbox _ _ _) as [[info|er] s0]; [|done].
  set (w0 := mkWorld _ _ _).
  destruct (dRequiredSecrets (Declaration tool)) as [|k ks];
    [|destruct (exSecrets ex) as [resolve|];
      [destruct (resolveAll _ _ _ _ _) as [resolved|[key er]]|]]; try done.
  all: destruct (runSandboxed _ _ _ _ _) as [o w1] eqn:E; intros [= -> _];
    by apply runSandboxed_no_error in E.
Qed.

(** No error leaves [executeWithSafety]: every outcome becomes a response. *)
Lemma executeWithSafety_ok ex ce tool req tier w :
  exists resp, (executeWithSafety ex ce tool req tier w).1 = Ok resp.
Proof.
  unfold executeWithSafety.
  destruct (if exSandbox ex && negb (isInlineTool tool) then _ else _) as [out w1] eqn:E.
  destruct out as [[r|]|e|v]; try (eexists; reflexivity). exfalso.
  destruct (exSandbox ex && negb (isInlineTool tool)).
  - by apply executeSandboxed_no_error in E.
  - revert E. unfold executeInline. branches; intros; by simplify_eq/=.
Qed.

(** ** Secrets in the sandbox *)

Definition no_secrets w : Prop :=
  sb_wf (wSandbox w) /\ forall id, SecretsOf id (wSandbox w) = ∅.

Lemma clear_all (sid : string) (s : S) env tr :
  sb_wf s -> (forall id, id <> sid -> SecretsOf id s = ∅) ->
  no_secrets (mkWorld (SetSandboxSecrets sid ∅ s) env tr).
Proof.
  intros Hwf Hs. split; [by apply set_secrets_wf|]. intros id. simpl.
  destruct (decide (id = sid)) as [->|Hne]; [apply clear_secrets|].
  rewrite set_secrets_other by done. by apply Hs.
Qed.

Lemma runSandboxed_secrets ce sid req resolved w out w' :
  runSandboxed ce sid req resolved w = (out, w') -> no_secrets w ->
  sb_wf (wSandbox w') /\ forall id, id <> sid -> SecretsOf id (wSandbox w') = ∅.
Proof.
  unfold runSandboxed.
  set (s1 := if bool_decide (resolved = ∅) then wSandbox w
             else SetSandboxSecrets sid resolved (wSandbox w)).
  intros Hr [Hwf Hno].
  assert (sb_wf s1) as Hwf1 by (subst s1; case_bool_decide; [done|by apply set_secrets_wf]).
  assert (forall id, id <> sid -> SecretsOf id s1 = ∅) as Hs1.
  { intros id Hne. subst s1. case_bool_decide; [apply Hno|].
    rewrite set_secrets_other by done. apply Hno. }
  pose proof (fun id => execute_keeps_secrets sid id req s1) as Hk.
  pose proof (execute_wf sid req s1 Hwf1) as Hwf2.
  destruct (ExecuteInSandbox sid req s1) as [o s2]. simpl in Hk, Hwf2.
  assert (wSandbox w' = s2) as -> by (revert Hr; branches; intros; by simplify_eq/=).
  split; [done|]. intros id Hne. rewrite Hk. by apply Hs1.
Qed.

Lemma executeSandboxed_secrets ex ce tool req tier w out w' :
  executeSandboxed ex ce tool req tier w = (out, w') -> no_secrets w -> no_secrets w'.
Proof.
  unfold executeSandboxed. intros Hr [Hwf Hno].
  set (o := applySkillConstraints _ _) in *.
  pose proof (fun id => create_keeps_secrets (rAgentID req) o id _ Hwf (Hno id)) as Hc.
  pose proof (create_wf (rAgentID req) o _ Hwf) as Hcw.
  destruct (GetOrCreateSandbox _ o _) as [[info|e] s0]; simpl in Hc, Hcw.
  2: { by injection Hr as _ <-. }
  set (w0 := mkWorld _ _ _) in *.
  assert (no_secrets w0) as Hw0 by (apply clear_all; [done|intros; apply Hc]).
  destruct (dRequiredSecrets (Declaration tool)) as [|k ks];
    [|destruct (exSecrets ex) as [resolve|];
      [destruct (resolveAll _ _ _ _ _) as [resolved|[key e]]|]].
  1,2: destruct (runSandboxed _ _ _ _ _) as [o' w1] eqn:E; injection Hr as _ <-;
    apply runSandboxed_secrets in E as [? ?]; [|done]; by apply clear_all.
  all: injection Hr as _ <-; apply clear_all; [apply Hw0|intros; apply Hw0].
Qed.

Lemma executeInline_sandbox ex ce tool req w out w' :
  executeInline ex ce tool req w = (out, w') -> wSandbox w' = wSandbox w.
Proof.
  unfold executeInline, emit.
  destruct (match dRequiredSecrets _ with [] => _ | _ => _ end) as [[env vars] failed].
  branches; intros; by simplify_eq/=.
Qed.

Lemma executeWithSafety_secrets ex ce tool req tier w r w' :
  executeWithSafety ex ce tool req tier w = (r, w') -> no_secrets w -> no_secrets w'.
Proof.
  unfold executeWithSafety.
  destruct (if exSandbox ex && negb (isInlineTool tool) then _ else _) as [out w1] eqn:E.
  intros Hr Hno. assert (w1 = w') as <- by (revert Hr; branches; intros; by simplify_eq/=).
  destruct (exSandbox ex && negb (isInlineTool tool)).
  - by eapply executeSandboxed_secrets.
  - apply executeInline_sandbox in E. unfold no_secrets. by rewrite E.
Qed.

(** ** The decision tree of [Execute] *)

(** Everything that has been established when the tool is started. *)
Definition cleared_to_run ex ce req (tool : KtpTool) (action : ActionSpec) (agent : AgentConfig)
    : Prop :=
  RegistryGet (exRegistry ex) (rTool req) = Some tool /\
  GetAction (Declaration tool) (rAction req) = Some action /\
  ValidateParams regexp_match (rParameters req) (aParameters action) = [] /\
  exGetAgent ex (rAgentID req) = Ok agent /\
  pAllowed (decide_call agent (ceToken ce) (rAgentID req) (Declaration tool) (rAction req)
    (rParameters req)) = true /\
  ceSlot ce = true.

Definition permission_of ce req (tool : KtpTool) (agent : AgentConfig) : PermissionResult :=
  decide_call agent (ceToken ce) (rAgentID req) (Declaration tool) (rAction req) (rParameters req).

(** The world after the gate. *)
Definition after_gate ex (perm : PermissionResult) w : World S :=
  mkWorld (wSandbox w) (wEnv w)
    (wTrace w ++ (if exAudit ex then [PermissionLogged perm] else [])).

(** Before the run: an answer that leaves all but the trace alone, or a cleared call. *)
Lemma begin_call_cases ex ce req w x w1 :
  begin_call regexp_match ex ce req w = (x, w1) ->
  match x with
  | inl r => wSandbox w1 = wSandbox w /\ wEnv w1 = wEnv w /\
      (wTrace w1 = wTrace w \/ exists p, wTrace w1 = wTrace w ++ [PermissionLogged p]) /\
      ((exists resp, r = Ok resp /\ respSuccess resp = false) \/
       exists e, r = Err e /\ exGetAgent ex (rAgentID req) = Err e)
  | inr (tool, req', tier) => exists action agent,
      cleared_to_run ex ce req tool action agent /\
      req' = stamp req (permission_of ce req tool agent) /\
      tier = pTier (permission_of ce req tool agent) /\
      w1 = after_gate ex (permission_of ce req tool agent) w
  end.
Proof.
  unfold begin_call, Check, cleared_to_run.
  destruct (RegistryGet _ _) as [tool|] eqn:Etool; [|intros [= <- <-]; by eauto 10].
  destruct (GetAction _ _) as [action|] eqn:Eact; [|intros [= <- <-]; by eauto 10].
  destruct (ValidateParams _ _ _) eqn:Ev; [|intros [= <- <-]; by eauto 10].
  destruct (exGetAgent ex (rAgentID req)) as [agent|e] eqn:Ea; simpl.
  2: { intros [= <- <-]. simpl. rewrite app_nil_r. by eauto 10. }
  fold (permission_of ce req tool agent). set (perm := permission_of ce req tool agent).
  assert (forall ww : World S, wTrace ww = wTrace w ++ map PermissionLogged (if exAudit ex then [perm] else []) ->
    wTrace ww = wTrace w \/ exists p, wTrace ww = wTrace w ++ [PermissionLogged p]) as Htr.
  { intros ww ->. destruct (exAudit ex); simpl; [by eauto|]. rewrite app_nil_r. by left. }
  destruct (pAllowed perm) eqn:Eal; simpl.
  2: { intros [= <- <-]. repeat split; [by apply Htr|]. by eauto 10. }
  destruct (ceSlot ce) eqn:Es; simpl.
  2: { intros [= <- <-]. repeat split; [by apply Htr|]. by eauto 10. }
  intros [= <- <-]. exists action, agent. split_and!; try done.
  unfold after_gate. by destruct (exAudit ex).
Qed.

Lemma Execute_cases ex ce req w r w' :
  Execute regexp_match Marshal ex ce req w = (r, w') ->
  (wSandbox w' = wSandbox w /\ wEnv w' = wEnv w /\
     (wTrace w' = wTrace w \/ exists p, wTrace w' = wTrace w ++ [PermissionLogged p]) /\
     ((exists resp, r = Ok resp /\ respSuccess resp = false) \/
      exists e, r = Err e /\ exGetAgent ex (rAgentID req) = Err e)) \/
  exists tool action agent resp w2,
    cleared_to_run ex ce req tool action agent /\ r = Ok resp /\
    executeWithSafety ex ce tool (stamp req (permission_of ce req tool agent))
      (pTier (permission_of ce req tool agent))
      (after_gate ex (permission_of ce req tool agent) w) = (Ok resp, w2) /\
    w' = if exAudit ex
         then emit (ExecutionLogged (LogToolExecution Marshal
                (stamp req (permission_of ce req tool agent)) resp)) w2
         else w2.
Proof.
  unfold Execute. destruct (begin_call _ _ _ _ _) as [x w1] eqn:E. apply begin_call_cases in E.
  destruct x as [r0|[[tool req'] tier]]; [intros [= <- <-]; by left|].
  destruct E as (action & agent & Hc & -> & -> & ->). intros Hr. right. exists tool, action, agent.
  destruct (executeWithSafety_ok ex ce tool (stamp req (permission_of ce req tool agent))
    (pTier (permission_of ce req tool agent)) (after_gate ex (permission_of ce req tool agent) w)) as [resp Hok].
  destruct (executeWithSafety _ _ _ _ _ _) as [rr w2]. simpl in Hok. subst rr.
  injection Hr as <- <-. exists resp, w2. by eauto 10.
Qed.

(** Every run a call adds to the trace is of the stamped request, and cleared. *)
Lemma Execute_runs ex ce req w r w' :
  Execute regexp_match Marshal ex ce req w = (r, w') ->
  exists new, wTrace w' = wTrace w ++ new /\
    forall ev, ev ∈ new -> is_run ev -> exists tool action agent,
      run_of (stamp req (permission_of ce req tool agent)) ev /\
      cleared_to_run ex ce req tool action agent.
Proof.
  intros [(_ & _ & Ht & _)|(tool & action & agent & resp & w2 & Hc & _ & Hx & ->)]%Execute_cases.
  { destruct Ht as [Ht|[p Ht]]; [exists []|exists [PermissionLogged p]]; rewrite Ht, ?app_nil_r;
      (split; [done|]); intros ev; [by intros ?%elem_of_nil|by intros ->%list_elem_of_singleton]. }
  apply executeWithSafety_trace in Hx as [Hx|(ev & Hev & Hx)]; unfold after_gate in Hx; simpl in Hx;
    destruct (exAudit ex) eqn:Ea; simpl; rewrite Hx, <- ?app_assoc; (eexists; split; [done|]);
    intros ev' Hin Hrun; rewrite ?elem_of_app, ?list_elem_of_singleton, ?elem_of_nil in Hin;
    destruct_or? Hin; subst; try done; by exists tool, action, agent.
Qed.
End pipeline.

(** * Interleaved calls

    Calls of [Execute] run in one goroutine per agent.  They share the semaphore
    (a channel of [cap] slots) and, for in-process tools, the process
    environment.  A call that waits takes a slot and injects its secrets; a call
    that runs ends, cleans up and frees its slot. *)

Record InlineCall := mkInlineCall {
  icAgent : string;
  icTeam : string;
  icKeys : list string;
}.

Inductive Phase : Type :=
| Queued (c : InlineCall)
| Running (c : InlineCall) (vars : list string)
| Finished.

Record Shared := mkShared { shEnv : gmap string string; shCalls : list Phase }.

Definition is_running (p : Phase) : bool := match p with Running _ _ => true | _ => false end.

Definition running (l : list Phase) : nat := length (List.filter is_running l).

Inductive shared_step `{UnicodeCase} (cap : nat) (resolve : Resolver) : Shared -> Shared -> Prop :=
| step_start env calls i c env' vars :
    calls !! i = Some (Queued c) -> (running calls < cap)%nat ->
    injectSecrets resolve (icAgent c) (icTeam c) (icKeys c) env [] = (env', vars, None) ->
    shared_step cap resolve (mkShared env calls) (mkShared env' (<[i := Running c vars]> calls))
| step_unresolved env calls i c env' vars failure :
    calls !! i = Some (Queued c) -> (running calls < cap)%nat ->
    injectSecrets resolve (icAgent c) (icTeam c) (icKeys c) env [] = (env', vars, Some failure) ->
    shared_step cap resolve (mkShared env calls) (mkShared env' (<[i := Finished]> calls))
| step_give_up env calls i c :
    calls !! i = Some (Queued c) ->
    shared_step cap resolve (mkShared env calls) (mkShared env (<[i := Finished]> calls))
| step_end env calls i c vars :
    calls !! i = Some (Running c vars) ->
    shared_step cap resolve (mkShared env calls)
      (mkShared (unsetAll vars env) (<[i := Finished]> calls)).

Lemma running_insert (calls : list Phase) (i : nat) (p q : Phase) :
  calls !! i = Some p ->
  (running (<[i := q]> calls) + (if is_running p then 1 else 0)
   = running calls + (if is_running q then 1 else 0))%nat.
Proof.
  unfold running. revert i. induction calls as [|x calls IH]; intros i; [done|].
  destruct i as [|i]; simpl.
  - intros [= ->]. destruct (is_running p), (is_running q); simpl; lia.
  - intros Hp. apply IH in Hp. destruct (is_running x); simpl; lia.
Qed.

(** Side conditions on the parts of a trace. *)
Ltac no_runs :=
  split; [repeat constructor; by intros []|]; split; [repeat constructor; by intros []|];
  split; [simpl; lia|]; try done.

(** * Properties *)

Section claims.
Context `{UnicodeCase} `{Messages} {S : Type} `{SandboxLaws S}
  (regexp_match : string -> string -> result string bool)
  (Marshal : any -> result string string).

(** C4: No tool runs without permission.  A call adds at most one run of a tool
    to the trace, and if it adds one, then the tool and action are registered,
    the parameters passed schema validation, the agent was found, the gate
    allowed the call (and, with auditing on, its decision is in the trace before
    the run) and a semaphore slot was taken. *)
Theorem tool_runs_only_if_permitted ex ce req (w w' : World S) r :
  Execute regexp_match Marshal ex ce req w = (r, w') ->
  exists before runs after, wTrace w' = wTrace w ++ before ++ runs ++ after /\
    Forall (fun ev => ~ is_run ev) before /\ Forall (fun ev => ~ is_run ev) after /\
    (length runs <= 1)%nat /\
    (runs <> [] -> exists tool action agent,
       cleared_to_run regexp_match ex ce req tool action agent /\
       (exAudit ex = true -> before = [PermissionLogged (permission_of ce req tool agent)])).
Proof.
  intros Hr. apply Execute_cases in Hr as [(_ & _ & Ht & _)|
    (tool & action & agent & resp & w2 & Hc & _ & Hx & ->)]; [|apply executeWithSafety_trace in Hx].
  - destruct Ht as [->|[p ->]]; [exists [], [], []|exists [PermissionLogged p], [], []];
      (split; [by rewrite ?app_nil_r|no_runs]).
  - set (perm := permission_of ce req tool agent) in *.
    set (log := if exAudit ex
      then [ExecutionLogged (LogToolExecution Marshal (stamp req perm) resp)] else []).
    exists (if exAudit ex then [PermissionLogged perm] else []).
    destruct Hx as [Hx|(ev & Hev%run_of_is_run & Hx)]; simpl in Hx; [exists [], log|exists [ev], log];
      subst log; destruct (exAudit ex) eqn:Ea; simpl; rewrite Hx, <- ?app_assoc; simpl;
      rewrite ?app_nil_r; (split; [done|]); no_runs;
      intros _; exists tool, action, agent; split; by rewrite ?Ea.
Qed.

(** Failures are contained: [Execute] returns an error only when the agent
    store does; a tool that fails, returns nil or panics yields a response. *)
Theorem execute_error_is_store_error ex ce req (w w' : World S) r :
  Execute regexp_match Marshal ex ce req w = (r, w') ->
  (exists resp, r = Ok resp) \/ exists e, r = Err e /\ exGetAgent ex (rAgentID req) = Err e.
Proof.
  intros Hr. apply Execute_cases in Hr as [(_ & _ & _ & [(resp & -> & _)|He])|
    (tool & action & agent & resp & w2 & _ & -> & _)]; eauto.
Qed.

(** Secrets are strictly per call: whatever happens to a call (a failed
    lookup, a failing or panicking sandbox), no sandbox holds secrets after it if
    none did before. *)
Theorem sandbox_secrets_cleared ex ce req (w w' : World S) r :
  sb_wf (wSandbox w) -> (forall id, SecretsOf id (wSandbox w) = ∅) ->
  Execute regexp_match Marshal ex ce req w = (r, w') ->
  sb_wf (wSandbox w') /\ forall id, SecretsOf id (wSandbox w') = ∅.
Proof.
  intros Hwf Hno Hr. apply Execute_cases in Hr as [(Hs & _)|
    (tool & action & agent & resp & w2 & _ & _ & Hx & ->)].
  - by rewrite Hs.
  - apply (executeWithSafety_secrets ex) in Hx; [|done]. by destruct (exAudit ex).
Qed.

(** In-process secrets do not outlive a call whose secrets all resolve: the
    variables of the tool's secrets are gone and every other variable is as it
    was, on success, on an error and on a panic of the tool. *)
Theorem inline_env_restored ex ce tool req (w w' : World S) out :
  (forall key, key ∈ dRequiredSecrets (Declaration tool) -> forall resolve,
     exSecrets ex = Some resolve -> exists v, resolve (rAgentID req) (rTeamID req) key = Ok v) ->
  exSecrets ex <> None ->
  executeInline ex ce tool req w = (out, w') ->
  forall var, wEnv w' !! var =
    if bool_decide (var ∈ map secretKeyToEnvVar (dRequiredSecrets (Declaration tool)))
    then None else wEnv w !! var.
Proof.
  unfold executeInline, emit. destruct (exSecrets ex) as [resolve|]; [|done].
  intros Hok _ Hr var. destruct (dRequiredSecrets (Declaration tool)) as [|k ks].
  { revert Hr. simpl. branches; intros; by simplify_eq/=. }
  set (keys := k :: ks) in *.
  destruct (injectSecrets resolve (rAgentID req) (rTeamID req) keys (wEnv w) [])
    as [[env vars] failed] eqn:Ei.
  assert (failed = None) as ->.
  { clear Hr. revert Hok Ei. generalize (wEnv w), (@nil string). clearbody keys.
    induction keys as [|key keys IH]; intros e0 rec Hok; simpl; [by intros [= _ _ <-]|].
    destruct (Hok key ltac:(left) resolve eq_refl) as [v ->]. simpl. intros Hi.
    eapply IH; [|exact Hi]. intros key' Hin. apply Hok. by right. }
  pose proof (injectSecrets_vars _ _ _ _ _ _ _ _ Ei) as ->. simpl in Hr.
  assert (wEnv w' = unsetAll (map secretKeyToEnvVar keys) env) as ->
    by (revert Hr; branches; intros; by simplify_eq/=).
  rewrite unsetAll_lookup. case_bool_decide as Hin; [done|].
  eapply injectSecrets_other; [exact Ei|]. intros key Hkey ->. apply Hin.
  by apply list_elem_of_fmap_2.
Qed.

(** When a later secret of an in-process tool does not resolve, the call
    returns before the clean-up is deferred: the secrets injected so far stay in
    the process environment. *)
Theorem inline_env_leak ex ce tool req (w : World S) resolve k1 k2 v e :
  dRequiredSecrets (Declaration tool) = [k1; k2] -> exSecrets ex = Some resolve ->
  resolve (rAgentID req) (rTeamID req) k1 = Ok v ->
  resolve (rAgentID req) (rTeamID req) k2 = Err e ->
  str_elem (ascii_of_nat 0) v = false ->
  exists resp w', executeInline ex ce tool req w = (Returned (Some resp), w') /\
    respSuccess resp = false /\ wTrace w' = wTrace w /\
    wEnv w' !! secretKeyToEnvVar k1 = Some v.
Proof.
  intros Hk Hx H1' H2' Hv. unfold executeInline. rewrite Hk, Hx. simpl. rewrite H1'. simpl.
  rewrite H2'. eexists _, _. repeat split. simpl. unfold Setenv. rewrite Hv.
  apply lookup_insert_eq.
Qed.

(** The semaphore bounds concurrency: however the calls interleave, at most
    [cap] tools run at a time. *)
Theorem concurrency_bounded cap resolve env calls st :
  rtc (shared_step cap resolve) (mkShared env (map Queued calls)) st ->
  (running (shCalls st) <= cap)%nat.
Proof.
  intros Hst.
  assert (forall x y, rtc (shared_step cap resolve) x y ->
    (running (shCalls x) <= cap)%nat -> (running (shCalls y) <= cap)%nat) as Hinv.
  { clear. induction 1 as [|x y z Hxy _ IH]; [done|]. intros Hx. apply IH.
    destruct Hxy as [env calls i c env' vars Hi Hlt _|env calls i c env' vars f Hi _ _
                    |env calls i c Hi|env calls i c vars Hi];
      simpl in Hx |- *;
      pose proof (running_insert _ _ _ Finished Hi) as Hf; simpl in *; try lia.
    pose proof (running_insert _ _ _ (Running c vars) Hi). simpl in *. lia. }
  apply (Hinv _ _ Hst). simpl. clear. unfold running. induction calls; simpl; [lia|done].
Qed.
End claims.

(** C36: Redaction is complete on what it reaches: whatever the order in which the secrets are visited, a secret that
    is not empty, has no square bracket and is not a part of the word REDACTED occurs neither in the error text nor
    in any string of the result that the type switch of [redactValue] reaches: strings, and the values of maps and
    the elements of slices of any nesting.  Map keys ([redaction_skips_keys]), maps and slices of other types and
    numbers are not reached. *)
Theorem redaction_removes_secrets (secrets : gmap string string) visit resp resp' key p :
  (forall s, visit s ≡ₚ map snd (map_to_list secrets)) ->
  secrets !! key = Some p -> secret_free p ->
  redactSecretsFromResponse visit (Some resp) = Some resp' ->
  ~ occurs p (respError resp') /\ Forall (fun s => ~ occurs p s) (leaves (respResult resp')).
Proof.
  intros Hv Hk Hp [= <-]. simpl.
  assert (forall s, p ∈ visit s) as Hin.
  { intros s. rewrite (Hv s). apply list_elem_of_fmap. exists (key, p). split; [done|].
    by apply elem_of_map_to_list. }
  split; [|by apply redactValue_gone]. case_bool_decide as He.
  - rewrite He. intros (a & b & Hab). destruct Hp as [Hne _]. by destruct a, p.
  - by apply redactString_gone.
Qed.

(** A skill can only take the network away: after its constraints the network
    is allowed only if it was before, and the memory and time limits of the tier
    are untouched. *)
Theorem skill_constraints_only_restrict tier decl skill :
  let before := tierToSandboxOverrides tier decl in
  let after := applySkillConstraints before skill in
  (after !! "allow_network" = Some (ABool true) ->
     before !! "allow_network" = Some (ABool true) /\ hasNetworkCapability decl = true) /\
  after !! "max_memory_mb" = before !! "max_memory_mb" /\
  after !! "timeout_seconds" = before !! "timeout_seconds".
Proof.
  intros before after.
  assert (forall k l m k', k' <> k -> put_strings k l m !! k' = m !! k') as Hput.
  { intros k [|x l] m k' Hne; [done|]. unfold put_strings. by rewrite lookup_insert_ne. }
  assert (before !! "allow_network" = Some (ABool true) -> hasNetworkCapability decl = true) as Hb.
  { subst before. unfold tierToSandboxOverrides.
    repeat case_bool_decide; rewrite lookup_insert_eq; congruence. }
  subst after. destruct skill as [sk|]; [|by auto].
  unfold applySkillConstraints. rewrite !Hput by done.
  destruct (AllowNetwork sk); [by auto|].
  by rewrite lookup_insert_eq, !lookup_insert_ne by done.
Qed.

(** Map keys are not among them: a secret used as a key survives. *)
Example redaction_skips_keys :
  redactValue (fun _ => ["s3cret"]) (AMap [("s3cret", AString "s3cret")])
  = AMap [("s3cret", AString "[REDACTED]")].
Proof. reflexivity. Qed.

(** * Witnesses *)

Section witnesses.
#[local] Instance case : UnicodeCase := ascii_case.
#[local] Instance texts : Messages :=
  {| quote s := s; reason_text _ := "denied"; violation_text _ := "invalid" |}.

(** A sandbox that keeps the secrets of every agent under its name and answers
    every request with the agent's secret [k]. *)
#[local] Instance echo_sandbox : SandboxExecutor (gmap string (gmap string string)) :=
  {| GetOrCreateSandbox a _ s := (Ok (mkSandboxInfo a a), s);
     ExecuteInSandbox id req s :=
       (Returned (Some (NewToolResponse (rID req) true
          (AString (default EmptyString ((default ∅ (s !! id)) !! "k"))) EmptyString 0)), s);
     SetSandboxSecrets id m s := <[id := m]> s;
     SecretsOf id s := default ∅ (s !! id) |}.

#[local] Instance echo_laws : SandboxLaws (gmap string (gmap string string)).
Proof.
  apply (Build_SandboxLaws _ _ (fun _ => True)); simpl; try done.
  - intros id s. by rewrite lookup_insert_eq.
  - intros id id' m s Hne. by rewrite lookup_insert_ne.
Defined.

Definition secret_decl : ToolDeclaration :=
  mkToolDeclaration "notes" "1.0.0" EmptyString [] (dActions ungated_decl) TierReader ["k"] [].

Definition secret_tool (inline : bool) : KtpTool :=
  mkTool secret_decl inline (fun _ _ => Panicked "boom").

Definition per_agent : Resolver := fun agent _ _ => Ok (agent +:+ "-secret").

Definition reader_executor (inline : bool) : Executor :=
  mkExecutor {["notes" := secret_tool inline]} (fun id => Ok (plain_agent id "reader")) true true
    (Some per_agent).

Definition demo_call : CallEnv := mkCallEnv "token" 7 true (fun m _ => map snd (map_to_list m)).

Definition demo_request : ToolRequest := NewToolRequest "r1" "a1" "notes" "list" [].

Definition demo_world : World (gmap string (gmap string string)) := mkWorld ∅ ∅ [].

Definition demo_execute (inline : bool) :=
  Execute (fun _ _ => Ok true) (fun _ => Ok "json") (reader_executor inline) demo_call
    demo_request demo_world.

(** The pipeline on a sandboxed tool: the secret it echoes comes back redacted. *)
Example demo_redacted :
  exists w', demo_execute false =
    (Ok (mkToolResponse "r1" true (AString "[REDACTED]") EmptyString 0 "a1"), w').
Proof. eexists. vm_compute. reflexivity. Qed.

Lemma tool_runs_only_if_permitted_witness :
  exists before runs after, wTrace (demo_execute false).2 = [] ++ before ++ runs ++ after /\
    (length runs <= 1)%nat.
Proof.
  destruct (tool_runs_only_if_permitted (fun _ _ => Ok true) (fun _ => Ok "json")
    (reader_executor false) demo_call demo_request demo_world (demo_execute false).2
    (demo_execute false).1 (surjective_pairing _)) as (b & r & a & H1 & _ & _ & H2 & _).
  exists b, r, a. split; [exact H1|exact H2].
Defined.

Lemma execute_error_is_store_error_witness :
  (exists resp, (demo_execute true).1 = Ok resp) \/
  exists e, (demo_execute true).1 = Err e /\ exGetAgent (reader_executor true) "a1" = Err e.
Proof.
  apply (execute_error_is_store_error (fun _ _ => Ok true) (fun _ => Ok "json")
    (reader_executor true) demo_call demo_request demo_world (demo_execute true).2).
  apply surjective_pairing.
Defined.

Lemma sandbox_secrets_cleared_witness : SecretsOf "a1" (wSandbox (demo_execute false).2) = ∅.
Proof.
  apply (sandbox_secrets_cleared (fun _ _ => Ok true) (fun _ => Ok "json")
    (reader_executor false) demo_call demo_request demo_world (demo_execute false).2
    (demo_execute false).1).
  - exact I.
  - intros id. simpl. by rewrite lookup_empty.
  - apply surjective_pairing.
Defined.

Lemma inline_env_restored_witness :
  wEnv (executeInline (reader_executor true) demo_call (secret_tool true) demo_request demo_world).2
    !! "KYVIK_SECRET_K" = None.
Proof.
  rewrite (inline_env_restored (reader_executor true) demo_call (secret_tool true) demo_request
    demo_world _ (executeInline (reader_executor true) demo_call (secret_tool true) demo_request
    demo_world).1); [vm_compute; reflexivity| |discriminate|apply surjective_pairing].
  intros key _ resolve [= <-]. by eexists.
Defined.

Definition two_secrets_tool : KtpTool :=
  mkTool (mkToolDeclaration "pair" "1.0.0" EmptyString [] (dActions ungated_decl) TierReader
    ["api:key"; "missing"] []) true (fun _ _ => Panicked "boom").

Definition first_only : Resolver :=
  fun _ _ k => if bool_decide (k = "missing") then Err "not found" else Ok "hunter2".

Definition leaky_executor : Executor :=
  mkExecutor ∅ (fun id => Ok (plain_agent id "reader")) true false (Some first_only).

Lemma inline_env_leak_witness :
  exists resp w', executeInline leaky_executor demo_call two_secrets_tool demo_request demo_world
    = (Returned (Some resp), w') /\ respSuccess resp = false /\ wTrace w' = wTrace demo_world /\
    wEnv w' !! "KYVIK_SECRET_API_KEY" = Some "hunter2".
Proof.
  apply (inline_env_leak leaky_executor demo_call two_secrets_tool demo_request demo_world
    first_only "api:key" "missing" "hunter2" "not found"); vm_compute; reflexivity.
Defined.

Definition call_of (agent : string) : InlineCall := mkInlineCall agent EmptyString ["k"].

Lemma concurrency_bounded_witness :
  (running (shCalls (mkShared ∅ (map Queued [call_of "a1"; call_of "a2"]))) <= 1)%nat.
Proof.
  apply (concurrency_bounded 1 per_agent ∅ [call_of "a1"; call_of "a2"]). apply rtc_refl.
Defined.

Lemma redaction_removes_secrets_witness :
  ~ occurs "hunter2" "key [REDACTED] refused".
Proof.
  apply (redaction_removes_secrets {["k" := "hunter2"]} (fun _ => ["hunter2"])
    (errorResponse "r1" "key hunter2 refused" 0) (errorResponse "r1" "key [REDACTED] refused" 0)
    "k" "hunter2").
  - intros s. vm_compute. reflexivity.
  - reflexivity.
  - split; [discriminate|]. split; [reflexivity|]. split; [reflexivity|].
    rewrite <- contains_spec. vm_compute. discriminate.
  - vm_compute. reflexivity.
Defined.

(** In-process secrets of different agents share one environment: a state is
    reachable in which the tool of agent [a1] is running and the variable of its
    secret holds the secret of agent [a2]. *)
Theorem inline_secret_crosses_agents :
  exists st vars,
    rtc (shared_step 2 per_agent)
      (mkShared ∅ [Queued (call_of "a1"); Queued (call_of "a2")]) st /\
    shCalls st !! 0%nat = Some (Running (call_of "a1") vars) /\
    shEnv st !! secretKeyToEnvVar "k" = Some "a2-secret".
Proof.
  eexists _, _. split; [|split].
  - eapply rtc_l; [|eapply rtc_l; [|apply rtc_refl]].
    + apply (step_start _ _ _ _ 0 (call_of "a1")); [reflexivity|vm_compute; lia|reflexivity].
    + apply (step_start _ _ _ _ 1 (call_of "a2")); [reflexivity|vm_compute; lia|reflexivity].
  - reflexivity.
  - vm_compute. reflexivity.
Qed.
End witnesses.
