(* ===== verification/Sandbox.v ===== *)
(** The sandbox manager ([internal/sandbox]): the configuration per tier, the
    creation of sandboxes and their workspaces, the environment and output of the
    sandbox process, and the adapter that implements [ktp.SandboxExecutor].

    [*Sandbox] pointers are shared by the manager's [active] map and the adapter's
    [sandboxes] map, so the sandboxes live in a store indexed by their ID and both
    maps hold IDs.  The process that runs the tool is a parameter. *)

From stdpp Require Import pretty.
From S2P Require Import Prelude GoString GoPath GoFloat Types KtpTypes KtpGate KtpRegistry KtpExecutor.
#[local] Open Scope Z_scope.

(** * Configuration *)

(** [SandboxConfig] *)
Record SandboxConfig := mkSandboxConfig {
  MaxMemoryMB : Z;
  MaxCPUPercent : Z;
  TimeoutSeconds : Z;
  scAllowNetwork : bool;
  MaxOutputBytes : Z;
}.

#[global] Instance SandboxConfig_eq_dec : EqDecision SandboxConfig.
Proof. solve_decision. Defined.

(** [DefaultSandboxConfig] *)
Definition DefaultSandboxConfig : SandboxConfig := mkSandboxConfig 1024 50 60 false 1048576.

(** [SandboxConfig.Timeout], in nanoseconds: the product wraps at 64 bits. *)
Definition Timeout (c : SandboxConfig) : Z :=
  if TimeoutSeconds c <=? 0 then 60 * 1000000000 else wrap64 (TimeoutSeconds c * 1000000000).

(** [SandboxConfigForTier] *)
Definition SandboxConfigForTier (tier : string) (defaults : SandboxConfig) : SandboxConfig :=
  let out := MaxOutputBytes defaults in
  if bool_decide (tier = "reader") then mkSandboxConfig 256 10 10 true out
  else if bool_decide (tier = "writer") then mkSandboxConfig 512 25 30 true out
  else if bool_decide (tier = "operator") then
    mkSandboxConfig (MaxMemoryMB defaults) (MaxCPUPercent defaults) (TimeoutSeconds defaults) true out
  else if bool_decide (tier = "admin") then mkSandboxConfig 1024 50 120 true out
  else mkSandboxConfig 256 10 10 false out.

(** [toInt] *)
Definition toInt (v : any) : option Z :=
  match v with
  | AInt n => Some n
  | AFloat64 f => Some (f64_to_int f)
  | _ => None
  end.

(** The configuration [Create] builds from the defaults and the overrides. *)
Definition with_overrides (cfg : SandboxConfig) (o : gmap string any) : SandboxConfig :=
  let net := match o !! "allow_network" with Some (ABool b) => b | _ => scAllowNetwork cfg end in
  let mem := match o !! "max_memory_mb" with
             | Some v => default (MaxMemoryMB cfg) (toInt v) | None => MaxMemoryMB cfg end in
  let secs := match o !! "timeout_seconds" with
              | Some v => default (TimeoutSeconds cfg) (toInt v) | None => TimeoutSeconds cfg end in
  mkSandboxConfig mem (MaxCPUPercent cfg) secs net (MaxOutputBytes cfg).

(** * Sandboxes *)

(** [Sandbox] *)
Record Sandbox := mkSandbox {
  sbID : string;
  sbAgentID : string;
  sbConfig : SandboxConfig;
  Workspace : string;
  HTTPAllowedHosts : list string;
  ShellAllowedCommands : list string;
  Secrets : gmap string string;
}.

(** [NewSandbox] *)
Definition NewSandbox (id agentID : string) (cfg : SandboxConfig) (workspace : string) : Sandbox :=
  mkSandbox id agentID cfg workspace [] [] ∅.

(** [Manager] and [KTPAdapter]. *)
Record Manager := mkManager {
  mDefaults : SandboxConfig;
  mWorkspaceRoot : string;
  mProxyAddr : string;
  mStore : gmap string Sandbox;      (* the Sandbox objects *)
  mActive : gmap string string;      (* agent ID to sandbox ID *)
  mCached : gset string;             (* the adapter's map: sandbox IDs *)
  mNext : nat;                       (* IDs drawn so far *)
}.

(** [NewManager] and [NewKTPAdapter], once the runner is found. *)
Definition zero_config : SandboxConfig := mkSandboxConfig 0 0 0 false 0.

Definition NewManager (defaults : SandboxConfig) (root : string) : Manager :=
  mkManager (if bool_decide (defaults = zero_config) then DefaultSandboxConfig else defaults)
    root EmptyString ∅ ∅ ∅ 0.

(** [SetProxyAddr] *)
Definition SetProxyAddr (addr : string) (m : Manager) : Manager :=
  mkManager (mDefaults m) (mWorkspaceRoot m) addr (mStore m) (mActive m) (mCached m) (mNext m).

(** The bytes [strings.ContainsAny] looks for: slash, backslash, NUL. *)
Definition bad_id_byte (s : string) : bool :=
  str_elem slash s || str_elem (ascii_of_nat 92) s || str_elem (ascii_of_nat 0) s.

Definition valid_agent_id (agentID : string) : bool :=
  negb (bool_decide (agentID = EmptyString) || bool_decide (agentID = ".")
        || bool_decide (agentID = "..") || bad_id_byte agentID).

(** ** Environment of the sandbox process *)

(** [intersectHosts] *)
Definition intersectHosts (agentHosts skillHosts : list string) : list string :=
  match agentHosts, skillHosts with
  | [], _ => skillHosts
  | _, [] => agentHosts
  | _, _ =>
    let agentSet := map trim_space agentHosts in
    List.filter (fun h => bool_decide (h ∈ agentSet)) (map trim_space skillHosts)
  end.

Definition env_list (name : string) (l : list string) : list string :=
  match l with [] => [] | _ => [name +:+ "=" +:+ join "," l] end.

(** The hosts of [buildEnvironment] *)
Definition effectiveHosts (sb : Sandbox) (skill : option SkillSandboxConfig) : list string :=
  match skill with
  | Some sk => match AllowedHosts sk with
               | [] => HTTPAllowedHosts sb
               | l => intersectHosts (HTTPAllowedHosts sb) l
               end
  | None => HTTPAllowedHosts sb
  end.

Section environment.
Context `{UnicodeCase} (Getenv : string -> string).

(** [buildEnvironment] *)
Definition buildEnvironment (sb : Sandbox) (skill : option SkillSandboxConfig) (socketPath : string)
    : list string :=
  ["PATH=" +:+ Getenv "PATH"; "HOME=" +:+ Workspace sb;
   "TMPDIR=" +:+ path_join (Workspace sb) "tmp"; "KYVIK_SANDBOX_ID=" +:+ sbID sb;
   "KYVIK_AGENT_ID=" +:+ sbAgentID sb; "KYVIK_WORKSPACE=" +:+ Workspace sb;
   "KYVIK_SANDBOX_MAX_MEMORY_MB=" +:+ pretty (MaxMemoryMB (sbConfig sb));
   "GOMEMLIMIT=" +:+ pretty (MaxMemoryMB (sbConfig sb)) +:+ "MiB"; "GODEBUG=netdns=go"]
  ++ env_list "KYVIK_HTTP_ALLOWED_HOSTS" (effectiveHosts sb skill)
  ++ env_list "KYVIK_SHELL_ALLOWED_COMMANDS" (ShellAllowedCommands sb)
  ++ match skill with
     | Some sk => env_list "KYVIK_SKILL_READ_PATHS" (ReadPaths sk)
                  ++ env_list "KYVIK_SKILL_WRITE_PATHS" (WritePaths sk)
     | None => []
     end
  ++ if bool_decide (socketPath = EmptyString)
     then map (fun e => "KYVIK_SECRET_" +:+ to_upper e.1 +:+ "=" +:+ e.2) (map_to_list (Secrets sb))
     else ["KYVIK_SECRETS_SOCKET=" +:+ socketPath].
End environment.

(** [os.Getenv] in the sandbox process: the value of the first entry of the name. *)
Fixpoint env_get (name : string) (env : list string) : string :=
  match env with
  | [] => EmptyString
  | kv :: env' => match strip_prefix (name +:+ "=") kv with
                  | Some v => v
                  | None => env_get name env'
                  end
  end.

(** [AllowedHostsFunc] of [cmd/kyvik-sandbox]: nil for an absent variable. *)
Definition sandboxAllowedHosts (env : list string) : list string :=
  let v := env_get "KYVIK_HTTP_ALLOWED_HOSTS" env in
  if bool_decide (v = EmptyString) then [] else split_byte ","%char v.

(** The allowlist test of [httptool.validateURL]: [EqualFold] is
    [strings.EqualFold]. *)
Definition host_permitted (EqualFold : string -> string -> bool) (allowed : list string)
    (host : string) : bool :=
  match allowed with [] => true | _ => existsb (EqualFold host) allowed end.

(** ** Output *)

(** [limitedWriter.Write]: the buffer after the call and the count it returns. *)
Definition limitedWrite (limit : Z) (buf p : string) : string * Z :=
  let len := Z.of_nat (String.length p) in
  let remaining := limit - Z.of_nat (String.length buf) in
  if remaining <=? 0 then (buf, len)
  else if remaining <? len then (buf +:+ str_take (Z.to_nat remaining) p, remaining)
  else (buf +:+ p, len).

(** The copying loop of [exec.Cmd]: it stops at a write that returns less than it
    was given, with [io.ErrShortWrite]. *)
Fixpoint copy_output (limit : Z) (buf : string) (chunks : list string) : string * bool :=
  match chunks with
  | [] => (buf, false)
  | p :: chunks' =>
    let '(buf', n) := limitedWrite limit buf p in
    if n =? Z.of_nat (String.length p) then copy_output limit buf' chunks' else (buf', true)
  end.

(** [isLikelyOOM] *)
Definition isLikelyOOM (err : option string) : bool :=
  match err with None => false | Some e => contains e "signal: killed" end.

(** [makeErrorResponse] *)
Definition makeErrorResponse (reqID msg : string) (execMs : Z) : ToolResponse :=
  mkToolResponse reqID false ANil msg execMs EmptyString.

(** * Operations *)

(** What the sandbox process and the operating system did for one execution. *)
Record ProcessRun := mkProcessRun {
  prMarshalError : option string;      (* json.Marshal of the request *)
  prServerError : option string;       (* SecretsServer.Start *)
  prStartError : option string;        (* cmd.Start *)
  prExitError : option string;         (* exit status *)
  prTimedOut : bool;
  prStdout : list string;              (* the chunks written *)
  prStderr : list string;
  prMillis : Z;
}.

Section manager.
Context `{UnicodeCase} (Getenv : string -> string)
  (ulid : nat -> string)
  (MkdirAll : string -> option string)
  (runner : Sandbox -> list string -> ToolRequest -> ProcessRun)
  (Unmarshal : string -> option ToolResponse).

(** [Manager.Create] *)
Definition Create (agentID : string) (tierOverrides : gmap string any) (m : Manager)
    : result string Sandbox * Manager :=
  match (id ← mActive m !! agentID; mStore m !! id) with
  | Some sb => (Ok sb, m)
  | None =>
    let cfg := with_overrides (mDefaults m) tierOverrides in
    if negb (valid_agent_id agentID) then (Err ("invalid agent ID: " +:+ agentID), m)
    else
      let workspace := path_join (mWorkspaceRoot m) agentID in
      let outside := match path_rel (mWorkspaceRoot m) workspace with
                     | None => true
                     | Some rel => has_prefix rel ".."
                     end in
      if outside then (Err ("agent ID resolves outside workspace root: " +:+ agentID), m)
      else match (fix mk (subs : list string) := match subs with
             | [] => None
             | sub :: subs' => match MkdirAll (path_join workspace sub) with
                               | Some e => Some ("create workspace dir: " +:+ e)
                               | None => mk subs'
                               end
             end) ["data"; "tmp"; "output"] with
           | Some e => (Err e, m)
           | None =>
             let id := ulid (mNext m) in
             let sb := NewSandbox id agentID cfg workspace in
             (Ok sb, mkManager (mDefaults m) (mWorkspaceRoot m) (mProxyAddr m)
                (<[id := sb]> (mStore m)) (<[agentID := id]> (mActive m)) (mCached m)
                (S (mNext m)))
           end
  end.

(** [Manager.Get], [GetBySandboxID] (of the objects still active) and [Cleanup]
    (the workspace removal is the operating system's). *)
Definition GetSandbox (agentID : string) (m : Manager) : option Sandbox :=
  id ← mActive m !! agentID; mStore m !! id.

Definition GetBySandboxID (sandboxID : string) (m : Manager) : option Sandbox :=
  List.find (fun sb => bool_decide (sbID sb = sandboxID))
    (omap (fun e => mStore m !! e.2) (map_to_list (mActive m))).

Definition Cleanup (sb : Sandbox) (m : Manager) : Manager :=
  mkManager (mDefaults m) (mWorkspaceRoot m) (mProxyAddr m) (mStore m)
    (delete (sbAgentID sb) (mActive m)) (mCached m) (mNext m).

(** The environment of the process [Manager.Execute] starts. *)
Definition process_env (m : Manager) (sb : Sandbox) (req : ToolRequest) : list string :=
  let socket := if bool_decide (Secrets sb = ∅) then EmptyString
                else path_join (path_join (Workspace sb) "tmp") ".kyvik-secrets.sock" in
  buildEnvironment Getenv sb (rSkillSandboxConfig req) socket
  ++ if negb (bool_decide (mProxyAddr m = EmptyString)) && scAllowNetwork (sbConfig sb)
     then ["HTTP_PROXY=http://" +:+ mProxyAddr m; "HTTPS_PROXY=http://" +:+ mProxyAddr m;
           "KYVIK_PROXY_SANDBOX_ID=" +:+ sbID sb]
     else [].

(** The failure text of [Manager.Execute]. *)
Definition failure_text (sb : Sandbox) (waitErr : option string) (stderrOut : string) : string :=
  let mem := MaxMemoryMB (sbConfig sb) in
  "sandbox process failed"
  +:+ match waitErr with Some e => ": " +:+ e | None => EmptyString end
  +:+ (if isLikelyOOM waitErr
       then " [likely OOM: memory limit " +:+ pretty mem +:+ "MB, RLIMIT_AS "
            +:+ pretty (wrap64 (mem * 4)) +:+ "MB]"
       else EmptyString)
  +:+ (if bool_decide (stderrOut = EmptyString) then EmptyString else ": " +:+ stderrOut).

(** [Manager.Execute] *)
Definition ManagerExecute (m : Manager) (sb : Sandbox) (req : ToolRequest) : ToolOutcome :=
  let pr := runner sb (process_env m sb req) req in
  let limit := MaxOutputBytes (sbConfig sb) in
  match prMarshalError pr with
  | Some e => ReturnedError ("marshal tool request: " +:+ e)
  | None =>
    match (if bool_decide (Secrets sb = ∅) then None else prServerError pr) with
    | Some e => ReturnedError ("start secrets server: " +:+ e)
    | None =>
      match prStartError pr with
      | Some e => Returned (Some (makeErrorResponse (rID req)
                    ("failed to start sandbox: " +:+ e) (prMillis pr)))
      | None =>
        let '(out, short1) := copy_output limit EmptyString (prStdout pr) in
        let '(err, short2) := copy_output limit EmptyString (prStderr pr) in
        let waitErr := match prExitError pr with
                       | Some e => Some e
                       | None => if short1 || short2 then Some "short write" else None
                       end in
        if prTimedOut pr then
          Returned (Some (makeErrorResponse (rID req) "sandbox execution timed out" (prMillis pr)))
        else
          match (if bool_decide (out = EmptyString) then None else Unmarshal out) with
          | Some r => Returned (Some (mkToolResponse (respRequestID r) (respSuccess r)
                        (respResult r) (respError r) (prMillis pr) (sbID sb)))
          | None => Returned (Some (makeErrorResponse (rID req) (failure_text sb waitErr err)
                                      (prMillis pr)))
          end
      end
    end
  end.

Definition set_secrets (sb : Sandbox) (secrets : gmap string string) : Sandbox :=
  mkSandbox (sbID sb) (sbAgentID sb) (sbConfig sb) (Workspace sb) (HTTPAllowedHosts sb)
    (ShellAllowedCommands sb) secrets.

(** [KTPAdapter.GetOrCreateSandbox] *)
Definition AdapterGetOrCreate (agentID : string) (tierOverrides : gmap string any) (m : Manager)
    : result string SandboxInfo * Manager :=
  match Create agentID tierOverrides m with
  | (inr e, m') => (Err ("create sandbox for agent " +:+ agentID +:+ ": " +:+ e), m')
  | (inl sb, m') =>
    (Ok (mkSandboxInfo (sbID sb) (sbAgentID sb)),
     mkManager (mDefaults m') (mWorkspaceRoot m') (mProxyAddr m') (mStore m') (mActive m')
       ({[sbID sb]} ∪ mCached m') (mNext m'))
  end.

(** The object the adapter's map holds for an ID. *)
Definition cached (sandboxID : string) (m : Manager) : option Sandbox :=
  if bool_decide (sandboxID ∈ mCached m) then mStore m !! sandboxID else None.

(** [KTPAdapter.ExecuteInSandbox] *)
Definition AdapterExecute (sandboxID : string) (req : ToolRequest) (m : Manager)
    : ToolOutcome * Manager :=
  match cached sandboxID m with
  | None => (ReturnedError ("sandbox " +:+ sandboxID +:+ " not found"), m)
  | Some sb => (ManagerExecute m sb req, m)
  end.

(** [KTPAdapter.SetSandboxSecrets] *)
Definition AdapterSetSecrets (sandboxID : string) (secrets : gmap string string) (m : Manager)
    : Manager :=
  match cached sandboxID m with
  | None => m
  | Some sb => mkManager (mDefaults m) (mWorkspaceRoot m) (mProxyAddr m)
                 (<[sandboxID := set_secrets sb secrets]> (mStore m)) (mActive m) (mCached m) (mNext m)
  end.

(** * The adapter implements the executor's interface *)

#[global] Instance KTPAdapter : SandboxExecutor Manager :=
  {| GetOrCreateSandbox := AdapterGetOrCreate;
     ExecuteInSandbox := AdapterExecute;
     SetSandboxSecrets := AdapterSetSecrets;
     SecretsOf id m := match cached id m with Some sb => Secrets sb | None => ∅ end |}.
End manager.

(** * Invariant *)

Section invariant.
Context (ulid : nat -> string).

Record manager_wf (m : Manager) : Prop := {
  wf_id id sb : mStore m !! id = Some sb -> sbID sb = id;
  wf_drawn id sb : mStore m !! id = Some sb -> exists k, (k < mNext m)%nat /\ id = ulid k;
  wf_clean id sb : mStore m !! id = Some sb -> id ∉ mCached m -> Secrets sb = ∅;
  wf_active agent id : mActive m !! agent = Some id ->
    exists sb, mStore m !! id = Some sb /\ sbAgentID sb = agent;
  wf_place id sb : mStore m !! id = Some sb ->
    Workspace sb = path_join (mWorkspaceRoot m) (sbAgentID sb) /\
    valid_agent_id (sbAgentID sb) = true;
}.

Lemma NewManager_wf defaults root : manager_wf (NewManager defaults root).
Proof. constructor; simpl; intros; by simplify_map_eq. Qed.

Lemma cache_wf m (ids : gset string) :
  manager_wf m -> mCached m ⊆ ids ->
  manager_wf (mkManager (mDefaults m) (mWorkspaceRoot m) (mProxyAddr m) (mStore m) (mActive m) ids
    (mNext m)).
Proof.
  intros [H1 H2 H3 H4 H5] Hsub. constructor; simpl; try done.
  intros id sb Hl Hn. eapply H3; [done|]. set_solver.
Qed.

Lemma AdapterSetSecrets_wf id secrets m :
  manager_wf m -> manager_wf (AdapterSetSecrets id secrets m).
Proof.
  intros Hwf. unfold AdapterSetSecrets, cached. case_bool_decide as Hc; [|done].
  destruct (mStore m !! id) as [sb|] eqn:E; [|done]. constructor; simpl.
  - intros id' sb'. rewrite lookup_insert_Some. intros [[<- <-]|[_ Hl]]; simpl; by eapply wf_id.
  - intros id' sb'. rewrite lookup_insert_Some. intros [[<- <-]|[_ Hl]]; by eapply wf_drawn.
  - intros id' sb'. rewrite lookup_insert_Some. intros [[<- <-]|[_ Hl]] Hn; [done|].
    by eapply wf_clean.
  - intros agent id' Hl. eapply wf_active in Hl as (sb' & Hs & Ha); [|done].
    destruct (decide (id' = id)) as [->|Hne]; [|exists sb'; by rewrite lookup_insert_ne].
    eexists. rewrite lookup_insert_eq. split; [done|]. simpl. congruence.
  - intros id' sb'. rewrite lookup_insert_Some. intros [[<- <-]|[_ Hl]]; simpl;
      by eapply wf_place.
Qed.

Context (MkdirAll : string -> option string).

(** The two ways [Create] succeeds. *)
Lemma Create_ok agentID o m sb m' :
  Create ulid MkdirAll agentID o m = (Ok sb, m') ->
  (m' = m /\ exists id, mActive m !! agentID = Some id /\ mStore m !! id = Some sb) \/
  (sb = NewSandbox (ulid (mNext m)) agentID (with_overrides (mDefaults m) o)
          (path_join (mWorkspaceRoot m) agentID) /\
   valid_agent_id agentID = true /\
   m' = mkManager (mDefaults m) (mWorkspaceRoot m) (mProxyAddr m)
          (<[ulid (mNext m) := sb]> (mStore m)) (<[agentID := ulid (mNext m)]> (mActive m))
          (mCached m) (S (mNext m))).
Proof.
  unfold Create. destruct (mActive m !! agentID) as [id|] eqn:Ea; simpl.
  - destruct (mStore m !! id) as [sb0|] eqn:Es; simpl.
    { intros [= <- <-]. left. by eauto. }
    destruct (valid_agent_id agentID) eqn:Ev; simpl; [|done].
    destruct (match path_rel _ _ with None => _ | _ => _ end); [done|].
    repeat (destruct (MkdirAll _); [done|]). intros [= <- <-]. by right.
  - destruct (valid_agent_id agentID) eqn:Ev; simpl; [|done].
    destruct (match path_rel _ _ with None => _ | _ => _ end); [done|].
    repeat (destruct (MkdirAll _); [done|]). intros [= <- <-]. by right.
Qed.

Lemma Create_err agentID o m e m' :
  Create ulid MkdirAll agentID o m = (Err e, m') -> m' = m.
Proof.
  unfold Create. destruct (mActive m !! agentID ≫= _); [done|].
  destruct (negb (valid_agent_id agentID)); [by intros [= _ <-]|].
  destruct (match path_rel _ _ with None => _ | _ => _ end); [by intros [= _ <-]|].
  repeat (destruct (MkdirAll _); [by intros [= _ <-]|]). done.
Qed.

(** ULIDs are unique. *)
Hypothesis ulid_inj : forall i j, ulid i = ulid j -> i = j.

Lemma fresh_not_stored m : manager_wf m -> mStore m !! ulid (mNext m) = None.
Proof.
  intros Hwf. destruct (mStore m !! ulid (mNext m)) as [sb|] eqn:E; [|done].
  apply (wf_drawn _ Hwf) in E as (k & Hk & Heq). apply ulid_inj in Heq. lia.
Qed.

Lemma Create_wf agentID o m : manager_wf m -> manager_wf (Create ulid MkdirAll agentID o m).2.
Proof.
  intros Hwf. destruct (Create ulid MkdirAll agentID o m) as [[sb|e] m'] eqn:E; simpl.
  2: { apply Create_err in E as ->. done. }
  apply Create_ok in E as [[-> _]|(Hsb & Hv & ->)]; [done|].
  pose proof (fresh_not_stored m Hwf) as Hfresh.
  constructor; simpl.
  - intros id sb'. rewrite lookup_insert_Some. intros [[<- <-]|[_ Hl]]; [by subst|].
    by eapply wf_id.
  - intros id sb'. rewrite lookup_insert_Some. intros [[<- _]|[_ Hl]].
    + exists (mNext m). split; [lia|done].
    + eapply wf_drawn in Hl as (k & Hk & ->); [|done]. exists k. split; [lia|done].
  - intros id sb'. rewrite lookup_insert_Some. intros [[<- <-]|[_ Hl]] Hc; [by subst|].
    by eapply wf_clean.
  - intros agent id. rewrite lookup_insert_Some. intros [[<- <-]|[_ Hl]].
    + exists sb. rewrite lookup_insert_eq. by subst.
    + eapply wf_active in Hl as (sb' & Hs & Ha); [|done]. exists sb'.
      rewrite lookup_insert_ne; [done|]. intros Heq. by rewrite Heq, Hs in Hfresh.
  - intros id sb'. rewrite lookup_insert_Some. intros [[<- <-]|[_ Hl]]; [by subst|].
    by eapply wf_place.
Qed.

Context `{UnicodeCase} (Getenv : string -> string)
  (runner : Sandbox -> list string -> ToolRequest -> ProcessRun)
  (Unmarshal : string -> option ToolResponse).

(** The adapter satisfies the laws of the executor's interface. *)
#[global] Instance KTPAdapter_laws :
  @SandboxLaws Manager (KTPAdapter Getenv ulid MkdirAll runner Unmarshal).
Proof.
  apply (Build_SandboxLaws _ _ manager_wf); simpl.
  - intros agent o m Hwf. unfold AdapterGetOrCreate. pose proof (Create_wf agent o m Hwf) as Hc.
    destruct (Create _ _ _ _ _) as [[sb|e] m']; simpl in *; [|done].
    apply cache_wf; [done|set_solver].
  - intros id req m Hwf. unfold AdapterExecute. by destruct (cached id m).
  - intros id secrets m. apply AdapterSetSecrets_wf.
  - intros id m. unfold AdapterSetSecrets. destruct (cached id m) as [sb|] eqn:E; [|by rewrite E].
    unfold cached in *. simpl. case_bool_decide; [|done]. by rewrite lookup_insert_eq.
  - intros id id' secrets m Hne. unfold AdapterSetSecrets. destruct (cached id m); [|done].
    unfold cached. simpl. by rewrite lookup_insert_ne.
  - intros id id' req m. unfold AdapterExecute. by destruct (cached id m).
  - intros agent o id m Hwf. unfold AdapterGetOrCreate, cached.
    destruct (Create _ _ _ _ _) as [[sb|e] m'] eqn:E; simpl.
    2: { apply Create_err in E as ->. done. }
    apply Create_ok in E as [[-> (id' & Ha & Hs)]|(Hsb & Hv & ->)]; simpl; intros Hno.
    + destruct (bool_decide (id ∈ {[sbID sb]} ∪ mCached m)); [|done].
      destruct (mStore m !! id) as [sb'|] eqn:El; [|done].
      case_bool_decide as Hc; [done|]. by eapply wf_clean.
    + destruct (decide (id ∈ {[sbID sb]} ∪ mCached m)) as [Hin|Hin];
        [rewrite bool_decide_eq_true_2 by done|by rewrite bool_decide_eq_false_2].
      destruct (decide (id = ulid (mNext m))) as [->|Hne]; [rewrite lookup_insert_eq; by subst|].
      rewrite lookup_insert_ne by done. subst sb. simpl in Hin.
      rewrite bool_decide_eq_true_2 in Hno by set_solver. done.
Qed.
End invariant.

(** * Lemmas *)

#[local] Arguments String.append !s1 s2 : simpl nomatch.

Lemma valid_agent_plain (agentID : string) : valid_agent_id agentID = true -> plain_elem agentID.
Proof. unfold valid_agent_id, bad_id_byte, plain_elem. intros Hv. to_prop. tauto. Qed.

Lemma str_take_app_ge (n : nat) (a b : string) :
  (String.length a <= n)%nat -> str_take n (a +:+ b) = a +:+ str_take (n - String.length a) b.
Proof.
  revert n. induction a as [|c a IH]; intros n Hn; simpl in *.
  - by rewrite Nat.sub_0_r.
  - destruct n as [|n]; [lia|]. cbn. by rewrite IH by lia.
Qed.

Lemma str_take_app_le (n : nat) (a b : string) :
  (n <= String.length a)%nat -> str_take n (a +:+ b) = str_take n a.
Proof.
  revert n. induction a as [|c a IH]; intros n Hn; simpl in *.
  - replace n with 0%nat by lia. by destruct b.
  - destruct n as [|n]; [done|]. cbn. by rewrite IH by lia.
Qed.

Lemma str_take_0 (s : string) : str_take 0 s = EmptyString.
Proof. by destruct s. Qed.

(** What the copying loop keeps, from any buffer within the limit. *)
Lemma copy_output_take (limit : Z) (chunks : list string) (buf : string) :
  Z.of_nat (String.length buf) <= limit ->
  copy_output limit buf chunks =
    (buf +:+ str_take (Z.to_nat limit - String.length buf) (str_concat chunks),
     (copy_output limit buf chunks).2) /\
  ((copy_output limit buf chunks).2 = true ->
   limit < Z.of_nat (String.length buf) + Z.of_nat (String.length (str_concat chunks))).
Proof.
  revert buf. induction chunks as [|p chunks IH]; intros buf Hb; simpl.
  { rewrite str_app_nil_r || idtac. split; [|done]. f_equal.
    destruct (Z.to_nat limit - String.length buf)%nat; simpl; by rewrite str_app_nil_r. }
  unfold limitedWrite. rewrite str_length_app.
  destruct (Z.leb_spec (limit - Z.of_nat (String.length buf)) 0) as [Hr|Hr].
  - rewrite Z.eqb_refl. destruct (IH buf Hb) as [-> IH2]. simpl.
    replace (Z.to_nat limit - String.length buf)%nat with 0%nat by lia.
    rewrite !str_take_0. split; [done|]. intros Ht. apply IH2 in Ht. lia.
  - destruct (Z.ltb_spec (limit - Z.of_nat (String.length buf)) (Z.of_nat (String.length p))) as [Hl|Hl].
    + destruct (Z.eqb_spec (limit - Z.of_nat (String.length buf)) (Z.of_nat (String.length p)));
        [lia|]. simpl. split; [|lia]. f_equal. f_equal. rewrite str_take_app_le by lia.
      f_equal. lia.
    + rewrite Z.eqb_refl.
      destruct (IH (buf +:+ p)) as [-> IH2]; [rewrite str_length_app; lia|].
      simpl. rewrite str_length_app in *. split.
      * rewrite str_take_app_ge by lia. rewrite str_app_assoc, Nat.sub_add_distr. done.
      * intros Ht. apply IH2 in Ht. lia.
Qed.

Lemma env_get_absent (name : string) (env : list string) :
  Forall (fun kv => strip_prefix (name +:+ "=") kv = None) env -> env_get name env = EmptyString.
Proof. induction 1 as [|kv env Hkv _ IH]; simpl; [done|]. by rewrite Hkv. Qed.

(** Without effective hosts, no entry of the environment names the host list. *)
Lemma no_hosts_entry `{UnicodeCase} Getenv sb skill socket :
  effectiveHosts sb skill = [] ->
  Forall (fun kv => strip_prefix ("KYVIK_HTTP_ALLOWED_HOSTS" +:+ "=") kv = None)
    (buildEnvironment Getenv sb skill socket).
Proof.
  intros Hh. unfold buildEnvironment. rewrite Hh.
  apply Forall_app; split; [by repeat constructor|].
  apply Forall_app; split; [by constructor|].
  apply Forall_app; split; [|apply Forall_app; split].
  - unfold env_list. destruct (ShellAllowedCommands sb); by repeat constructor.
  - destruct skill as [sk|]; [|constructor]. apply Forall_app. unfold env_list.
    split; [destruct (ReadPaths sk)|destruct (WritePaths sk)]; by repeat constructor.
  - case_bool_decide; [|by repeat constructor]. apply Forall_forall.
    intros kv (e & -> & _)%list_elem_of_fmap. done.
Qed.

Lemma intersectHosts_elem agentHosts skillHosts h :
  agentHosts <> [] -> skillHosts <> [] ->
  h ∈ intersectHosts agentHosts skillHosts <->
  h ∈ map trim_space agentHosts /\ h ∈ map trim_space skillHosts.
Proof.
  intros Ha Hs. unfold intersectHosts.
  destruct agentHosts as [|a al]; [done|]. destruct skillHosts as [|b bl]; [done|].
  rewrite filter_elem, bool_decide_eq_true. tauto.
Qed.

Section adapter_lemmas.
Context (ulid : nat -> string) (MkdirAll : string -> option string).
Hypothesis ulid_inj : forall i j, ulid i = ulid j -> i = j.

Lemma cached_place m id sb :
  manager_wf ulid m -> cached id m = Some sb ->
  Workspace sb = path_join (mWorkspaceRoot m) (sbAgentID sb) /\ plain_elem (sbAgentID sb).
Proof.
  intros Hwf. unfold cached. case_bool_decide; [|done]. intros Hl.
  apply (wf_place _ _ Hwf) in Hl as [Hw Hv]. split; [done|]. by apply valid_agent_plain.
Qed.

(** A successful [GetOrCreateSandbox]: invariant, root, result and frame. *)
Lemma get_or_create_ok agent o m m' info :
  manager_wf ulid m -> AdapterGetOrCreate ulid MkdirAll agent o m = (Ok info, m') ->
  manager_wf ulid m' /\ mWorkspaceRoot m' = mWorkspaceRoot m /\
  exists sb, cached (siID info) m' = Some sb /\ sbAgentID sb = agent /\
    forall id sb', cached id m = Some sb' -> cached id m' = Some sb'.
Proof.
  intros Hwf. unfold AdapterGetOrCreate.
  pose proof (Create_wf ulid MkdirAll ulid_inj agent o m Hwf) as Hc.
  destruct (Create ulid MkdirAll agent o m) as [[sb|e] m1] eqn:E; [|done]. simpl in Hc.
  intros [= <- <-]. split; [apply (cache_wf ulid m1); [done|set_solver]|]. simpl.
  assert (mStore m1 !! sbID sb = Some sb /\ mCached m1 = mCached m /\ sbAgentID sb = agent /\
    mWorkspaceRoot m1 = mWorkspaceRoot m /\
    forall id sb', mStore m !! id = Some sb' -> mStore m1 !! id = Some sb') as (Hs & Hca & Ha & Hr & Hk).
  { pose proof (fresh_not_stored ulid ulid_inj m Hwf) as Hfresh.
    apply Create_ok in E as [[-> (id & Ha & Hs)]|(-> & _ & ->)]; simpl.
    - pose proof (wf_id _ _ Hwf _ _ Hs) as ->. destruct (wf_active _ _ Hwf _ _ Ha) as (sb' & Hs' & Ha').
      repeat split; try done. congruence.
    - rewrite lookup_insert_eq. repeat split. intros id sb' Hl.
      rewrite lookup_insert_ne; [done|]. intros Heq. by rewrite Heq, Hl in Hfresh. }
  split; [done|]. exists sb. unfold cached. simpl. rewrite bool_decide_eq_true_2 by set_solver.
  split; [done|]. split; [done|]. intros id sb'. case_bool_decide as Hin; [|done].
  rewrite bool_decide_eq_true_2 by (rewrite Hca; set_solver). apply Hk.
Qed.
End adapter_lemmas.

(** * Properties *)

Section claims.
Context (ulid : nat -> string) (MkdirAll : string -> option string).

(** Every agent gets a sandbox of its own, in a directory of its own: from a
    well-formed manager, the sandbox returned for an agent belongs to that agent,
    its workspace is the directory named after the agent directly below the
    workspace root, the manager stays well formed, and different agents get
    different workspaces. *)
Theorem sandbox_workspace_confined es agent agent' o o' m m' m'' info info' :
  (forall i j, ulid i = ulid j -> i = j) ->
  manager_wf ulid m -> mWorkspaceRoot m = abs_of es -> Forall plain_elem es ->
  AdapterGetOrCreate ulid MkdirAll agent o m = (Ok info, m') ->
  AdapterGetOrCreate ulid MkdirAll agent' o' m' = (Ok info', m'') ->
  agent <> agent' ->
  manager_wf ulid m'' /\
  exists sb sb', cached (siID info) m'' = Some sb /\ cached (siID info') m'' = Some sb' /\
    sbAgentID sb = agent /\ sbAgentID sb' = agent' /\
    Workspace sb = abs_of (es ++ [agent]) /\ Workspace sb' = abs_of (es ++ [agent']) /\
    siID info <> siID info' /\ Workspace sb <> Workspace sb'.
Proof.
  intros Hinj Hwf Hroot Hes H1 H2 Hne.
  destruct (get_or_create_ok ulid MkdirAll Hinj agent o m m' info Hwf H1)
    as (Hwf1 & Hr1 & sb & Hc1 & Ha1 & Hkeep1).
  destruct (get_or_create_ok ulid MkdirAll Hinj agent' o' m' m'' info' Hwf1 H2)
    as (Hwf2 & Hr2 & sb' & Hc2 & Ha2 & Hkeep2).
  apply Hkeep2 in Hc1 as Hc1'.
  pose proof (cached_place _ _ _ _ Hwf2 Hc1') as (Hw & Hp).
  pose proof (cached_place _ _ _ _ Hwf2 Hc2) as (Hw' & Hp').
  rewrite Hr2, Hr1, Hroot, ?Ha1, ?Ha2 in *.
  rewrite (path_join_below es) in Hw, Hw' by done.
  split; [done|]. exists sb, sb'. repeat split; try done.
  - intros Heq. rewrite Heq in Hc1'. congruence.
  - rewrite Hw, Hw'. intros Heq. apply abs_of_inj in Heq.
    + by apply app_inj_tail in Heq as [_ ?].
    + apply Forall_app_2; [done|]. by apply Forall_singleton.
    + apply Forall_app_2; [done|]. by apply Forall_singleton.
Qed.

(** An existing sandbox keeps the limits it was created with: whatever
    overrides a later call asks for, the configuration of the agent's sandbox does
    not change. *)
Theorem later_overrides_ignored agent o o' m m' info :
  AdapterGetOrCreate ulid MkdirAll agent o m = (Ok info, m') ->
  exists sb, GetSandbox agent m' = Some sb /\
    AdapterGetOrCreate ulid MkdirAll agent o' m' = (Ok info, m') /\
    cached (siID info) m' = mStore m' !! siID info.
Proof.
  unfold AdapterGetOrCreate, GetSandbox, cached.
  destruct (Create ulid MkdirAll agent o m) as [[sb|e] m1] eqn:E; [|done].
  intros [= <- <-]. simpl. exists sb.
  assert (mActive m1 !! agent ≫= (fun id => mStore m1 !! id) = Some sb) as Hget.
  { apply Create_ok in E as [[-> (id & Ha & Hs)]|(_ & _ & ->)]; simpl.
    - by rewrite Ha.
    - rewrite lookup_insert_eq. simpl. by rewrite lookup_insert_eq. }
  split; [done|]. unfold Create. simpl. rewrite Hget. split.
  - do 2 f_equal. set_solver.
  - rewrite bool_decide_eq_true_2; [done|set_solver].
Qed.

End claims.

(** When the hosts of a skill and of the agent have nothing in common, the
    list handed to the sandbox process is absent, which its HTTP tool reads as no
    restriction: every host is permitted. *)
Theorem disjoint_hosts_unrestricted `{UnicodeCase} Getenv sb sk socket EqualFold host :
  HTTPAllowedHosts sb <> [] -> AllowedHosts sk <> [] ->
  (forall h, h ∈ map trim_space (HTTPAllowedHosts sb) -> h ∉ map trim_space (AllowedHosts sk)) ->
  host_permitted EqualFold
    (sandboxAllowedHosts (buildEnvironment Getenv sb (Some sk) socket)) host = true.
Proof.
  intros Ha Hs Hd. assert (effectiveHosts sb (Some sk) = []) as Hnone.
  { unfold effectiveHosts. destruct (AllowedHosts sk) as [|x l] eqn:El; [done|].
    destruct (intersectHosts _ _) as [|h hs] eqn:Ei; [done|].
    assert (h ∈ h :: hs) as Hin by left. rewrite <- Ei in Hin.
    apply intersectHosts_elem in Hin as [H1 H2]; [|done|done]. by apply Hd in H1. }
  unfold sandboxAllowedHosts. rewrite env_get_absent; [done|]. by apply no_hosts_entry.
Qed.

(** The output buffer is exact: the loop that copies the process output into
    a limited writer keeps the first [limit] bytes of it, all of it when it fits,
    and stops with a short write only when the output exceeds the limit. *)
Theorem limited_output_is_prefix (limit : Z) (chunks : list string) :
  0 <= limit ->
  (copy_output limit EmptyString chunks).1 = str_take (Z.to_nat limit) (str_concat chunks) /\
  (Z.of_nat (String.length (str_concat chunks)) <= limit ->
   copy_output limit EmptyString chunks = (str_concat chunks, false)).
Proof.
  intros Hl. destruct (copy_output_take limit chunks EmptyString Hl) as [Hc Hs].
  simpl in Hc, Hs. rewrite Nat.sub_0_r in Hc. rewrite Hc. simpl. split; [done|].
  intros Hlen. f_equal.
  - rewrite <- (str_app_nil_r (str_concat chunks)) at 1.
    rewrite str_take_app_ge by lia.
    destruct (_ - _)%nat; cbn [str_take]; by rewrite str_app_nil_r.
  - destruct (copy_output limit EmptyString chunks).2; [|done]. specialize (Hs eq_refl). lia.
Qed.

(** A write that crosses the limit is not absorbed silently: it is reported short. *)
Example crossing_write_is_short : limitedWrite 4 "ab" "cdef" = ("abcd", 2).
Proof. reflexivity. Qed.

(** * Witnesses *)

Section witnesses.
#[local] Instance case : UnicodeCase := ascii_case.

Definition ulid_of (n : nat) : string := "01J" +:+ pretty n.

Lemma ulid_of_inj (i j : nat) : ulid_of i = ulid_of j -> i = j.
Proof. unfold ulid_of. intros Heq. apply str_app_inv_l in Heq. by apply (inj pretty) in Heq. Qed.

Definition mkdir_ok (dir : string) : option string := None.

Definition demo_manager : Manager := NewManager DefaultSandboxConfig "/var/kyvik".

Definition m_a1 : Manager := (AdapterGetOrCreate ulid_of mkdir_ok "a1" ∅ demo_manager).2.
Definition m_a2 : Manager := (AdapterGetOrCreate ulid_of mkdir_ok "a2" ∅ m_a1).2.

Lemma sandbox_workspace_confined_witness :
  exists sb sb', cached "01J0" m_a2 = Some sb /\ cached "01J1" m_a2 = Some sb' /\
    Workspace sb = "/var/kyvik/a1" /\ Workspace sb' = "/var/kyvik/a2".
Proof.
  destruct (sandbox_workspace_confined ulid_of mkdir_ok ["var"; "kyvik"] "a1" "a2" ∅ ∅
    demo_manager m_a1 m_a2 (mkSandboxInfo "01J0" "a1") (mkSandboxInfo "01J1" "a2"))
    as (_ & sb & sb' & H1 & H2 & _ & _ & H3 & H4 & _).
  - exact ulid_of_inj.
  - apply NewManager_wf.
  - reflexivity.
  - by repeat constructor.
  - vm_compute. reflexivity.
  - vm_compute. reflexivity.
  - discriminate.
  - exists sb, sb'. split; [exact H1|]. split; [exact H2|]. split; [exact H3|exact H4].
Defined.

Definition network_tool : ToolDeclaration :=
  mkToolDeclaration "fetch" "1.0.0" EmptyString [mkKtpCapability "network" "outbound" "*"]
    (dActions ungated_decl) TierWriter [] [].

Definition offline_skill : SkillSandboxConfig := mkSkillSandbox false [] [] [].

(** A skill that forbids the network, on an agent whose sandbox already exists. *)
Definition open_overrides := tierToSandboxOverrides TierWriter network_tool.
Definition offline_overrides := applySkillConstraints open_overrides (Some offline_skill).
Definition m_open : Manager := (AdapterGetOrCreate ulid_of mkdir_ok "a1" open_overrides demo_manager).2.

Lemma later_overrides_ignored_witness :
  offline_overrides !! "allow_network" = Some (ABool false) /\
  exists sb, GetSandbox "a1" m_open = Some sb /\ scAllowNetwork (sbConfig sb) = true /\
    AdapterGetOrCreate ulid_of mkdir_ok "a1" offline_overrides m_open
      = (Ok (mkSandboxInfo "01J0" "a1"), m_open).
Proof.
  split; [vm_compute; reflexivity|].
  destruct (later_overrides_ignored ulid_of mkdir_ok "a1" open_overrides offline_overrides
    demo_manager m_open (mkSandboxInfo "01J0" "a1")) as (sb & H1 & H2 & _).
  - vm_compute. reflexivity.
  - exists sb. split; [exact H1|]. split; [|exact H2].
    vm_compute in H1. injection H1 as <-. reflexivity.
Defined.

Definition picky_sandbox : Sandbox :=
  mkSandbox "01J0" "a1" DefaultSandboxConfig "/var/kyvik/a1" ["api.example.com"] [] ∅.

Lemma disjoint_hosts_unrestricted_witness :
  host_permitted String.eqb (sandboxAllowedHosts (buildEnvironment (fun _ => "/bin") picky_sandbox
    (Some (mkSkillSandbox true ["other.example.org"] [] [])) EmptyString)) "evil.test" = true.
Proof.
  apply (disjoint_hosts_unrestricted (fun _ => "/bin") picky_sandbox); [discriminate..|].
  intros h Hh Hs. vm_compute in Hh, Hs.
  apply list_elem_of_singleton in Hh, Hs. subst. discriminate.
Defined.

Lemma limited_output_is_prefix_witness :
  (copy_output 4 EmptyString ["ab"; "cdef"; "g"]).1 = "abcd".
Proof.
  apply (limited_output_is_prefix 4 ["ab"; "cdef"; "g"]). lia.
Defined.
End witnesses.
