(* ===== verification/Permissions.v ===== *)
(** The permission gate over stored overrides ([internal/permissions]), with the
    override table of [internal/store/postgres/postgres.go] and the audit entries of
    [internal/audit/helpers.go].

    [matchField] and [matchResource] have the same text in this package and in
    [internal/ktp/types.go]; the definitions of [KtpTypes.v] are used for both. *)

From Stdlib Require Import Sorted.
From S2P Require Import Prelude GoString GoFloat Types KtpTypes KtpGate KtpRegistry.

(** * Data *)

(** [Decision], [Template], [Override], [types.ToolCall] *)
Record Decision := mkDecision { Allowed : bool; Reason : string; Rule : string }.

Record PermTemplate := mkTemplate {
  tName : string;
  tDescription : string;
  tCapabilities : list Capability;
}.

Record Override := mkOverride { oAgentID : string; oCapability : Capability; Grant : bool }.

Record ToolCall := mkToolCall {
  ToolName : string;
  tcAction : string;
  tcParameters : list (string * any);
}.

#[global] Instance Override_eq_dec : EqDecision Override.
Proof. solve_decision. Defined.

(** ** Built-in templates *)

Definition cap_all (tool action : string) : Capability := mkCapability tool action star.

Definition ReaderTemplate : PermTemplate :=
  mkTemplate "reader" "Read-only access. Can query data but cannot modify anything."
    [cap_all "filesystem" "read"; cap_all "http" "get"; cap_all "database" "select"].

Definition WorkerTemplate : PermTemplate :=
  mkTemplate "worker"
    "Read and write within defined boundaries. Can create and modify resources."
    [cap_all "filesystem" "read"; cap_all "filesystem" "write"; cap_all "http" "get";
     cap_all "http" "post"; cap_all "database" "select"; cap_all "database" "insert";
     cap_all "database" "update"].

Definition OperatorTemplate : PermTemplate :=
  mkTemplate "operator"
    "Automate and manage. Full read-write plus delete and execute — all within the sandbox."
    [cap_all "filesystem" "read"; cap_all "filesystem" "write"; cap_all "filesystem" "delete";
     cap_all "http" "get"; cap_all "http" "post"; cap_all "http" "delete";
     cap_all "database" "select"; cap_all "database" "insert"; cap_all "database" "update";
     cap_all "database" "delete"; cap_all "shell" "execute"; cap_all "code_exec" "execute"].

Definition AdminTemplate : PermTemplate :=
  mkTemplate "admin" "Full access. All capabilities granted. Still audited and sandboxed."
    [cap_all star star].

Definition GuideBasicTemplate : PermTemplate :=
  mkTemplate "guide" "Internal guide agent. Read-only access to Kyvik system docs and logs."
    [mkCapability "kyvik" "read" "docs"; mkCapability "kyvik" "read" "logs"].

Definition GuideFullTemplate : PermTemplate :=
  mkTemplate "guide"
    "Internal guide agent. Read-only access to Kyvik system docs, logs, agent configs, and status."
    [mkCapability "kyvik" "read" "docs"; mkCapability "kyvik" "read" "logs";
     mkCapability "kyvik" "read" "agents"; mkCapability "kyvik" "read" "status"].

(** ** Templates from files *)

(** A directory entry as [loadTemplatesFromDir] sees it: its name, whether it is a
    directory, and the outcome of reading and of [yaml.Unmarshal]. *)
Record TemplateFile := mkTemplateFile {
  fName : string;
  fIsDir : bool;
  fParsed : result string PermTemplate;
}.

(** [loadTemplatesFromDir]; [inr] is an unreadable directory. *)
Definition loadTemplatesFromDir (dir : result string (list TemplateFile))
    : gmap string PermTemplate :=
  match dir with
  | inr _ => ∅
  | inl entries =>
    foldl (fun acc f =>
      if fIsDir f || negb (has_suffix (fName f) ".yaml") then acc
      else match fParsed f with
           | inr _ => acc
           | inl raw => if bool_decide (tName raw = EmptyString) then acc
                        else <[tName raw := raw]> acc
           end) ∅ entries
  end.

(** [NewStoreGate]: the templates; [None] is an empty [templateDir]. *)
Definition NewStoreGate (dir : option (result string (list TemplateFile)))
    : gmap string PermTemplate :=
  let builtin := list_to_map (map (fun t => (tName t, t))
    [ReaderTemplate; WorkerTemplate; OperatorTemplate; AdminTemplate; GuideBasicTemplate]) in
  match dir with
  | None => builtin
  | Some d => loadTemplatesFromDir d ∪ builtin
  end.

(** [SetGuideMode] *)
Definition SetGuideMode (mode : string) (templates : gmap string PermTemplate)
    : gmap string PermTemplate :=
  <["guide" := if bool_decide (mode = "full") then GuideFullTemplate else GuideBasicTemplate]>
    templates.

(** * Checking *)

(** [extractResource] *)
Definition extractResource (call : ToolCall) : string :=
  (fix go (keys : list string) := match keys with
     | [] => star
     | key :: keys' =>
       match alookup key (tcParameters call) with
       | Some (AString s) => if bool_decide (s = EmptyString) then go keys' else s
       | _ => go keys'
       end
     end) ["resource"; "path"; "url"; "target"].

(** [matchCapability] *)
Definition matchCapability (c : Capability) (tool action resource : string) : bool :=
  matchField (Tool c) tool && matchField (Action c) action && matchResource (Resource c) resource.

(** [defaultRiskLevel] *)
Definition defaultRiskLevel (eventType decision : string) : string :=
  if bool_decide (decision = "denied") then "high"
  else if bool_decide (eventType = "permission_check") then "medium"
  else if bool_decide (eventType = "tool_call") then "medium"
  else if bool_decide (eventType = "agent_lifecycle") then "low"
  else if bool_decide (eventType = "spending") then "low"
  else if bool_decide (eventType = "secret") then "medium"
  else "low".

(** [logDecision] with [audit.LogPermissionCheck] *)
Definition logDecision (agentID action resource : string) (d : Decision) : AuditEntry :=
  let decision := if Allowed d then "allowed" else "denied" in
  mkAuditEntry agentID "permission_check" action resource decision
    (defaultRiskLevel "permission_check" decision)
    ("rule=" +:+ Rule d +:+ " reason=" +:+ Reason d).

Definition override_matches (grant : bool) (call : ToolCall) (o : Override) : bool :=
  Bool.eqb (Grant o) grant &&
  matchCapability (oCapability o) (ToolName call) (tcAction call) (extractResource call).

(** The decision of [Check] for the agent and overrides it fetched. *)
Definition decide_override (templates : gmap string PermTemplate) (agent : AgentConfig)
    (overrides : list Override) (call : ToolCall) : Decision :=
  if existsb (override_matches false call) overrides
  then mkDecision false "denied by override" "deny_override"
  else if existsb (override_matches true call) overrides
  then mkDecision true "granted by override" "grant_override"
  else match templates !! Template agent with
       | Some tmpl =>
         if existsb (fun c => matchCapability c (ToolName call) (tcAction call)
                                (extractResource call)) (tCapabilities tmpl)
         then mkDecision true "granted by template" ("template:" +:+ tName tmpl)
         else mkDecision false "no matching permission" "default_deny"
       | None => mkDecision false "no matching permission" "default_deny"
       end.

(** * The override table *)

(** The [agents] and [permission_overrides] tables. *)
Record PermDB := mkPermDB { dbAgents : gmap string AgentConfig; dbOverrides : list Override }.

Definition same_key (a b : Override) : bool :=
  bool_decide (oAgentID a = oAgentID b) && bool_decide (oCapability a = oCapability b).

(** [listOverridesQ], [GetAgentWithOverrides] *)
Definition ListOverrides (db : PermDB) (agentID : string) : list Override :=
  List.filter (fun o => bool_decide (oAgentID o = agentID)) (dbOverrides db).

Definition GetAgentWithOverrides (db : PermDB) (agentID : string)
    : result string (AgentConfig * list Override) :=
  match dbAgents db !! agentID with
  | None => Err "not found"
  | Some agent => Ok (agent, ListOverrides db agentID)
  end.

(** [PostgresStore.AddOverride]: an update of the rows of the same key, or an
    insert, which the foreign key refuses for an unknown agent. *)
Definition StoreAddOverride (db : PermDB) (o : Override) : result string PermDB :=
  if existsb (same_key o) (dbOverrides db) then
    Ok (mkPermDB (dbAgents db)
      (map (fun x => if same_key o x then mkOverride (oAgentID x) (oCapability x) (Grant o) else x)
         (dbOverrides db)))
  else match dbAgents db !! oAgentID o with
       | None => Err "insert override: foreign key"
       | Some _ => Ok (mkPermDB (dbAgents db) (dbOverrides db ++ [o]))
       end.

(** [PostgresStore.RemoveOverride] and [RemoveAllOverrides] *)
Definition RemoveOverride (db : PermDB) (agentID : string) (c : Capability) : result string PermDB :=
  let key := mkOverride agentID c false in
  if existsb (same_key key) (dbOverrides db) then
    Ok (mkPermDB (dbAgents db) (List.filter (fun x => negb (same_key key x)) (dbOverrides db)))
  else Err "override: not found".

Definition RemoveAllOverrides (db : PermDB) (agentID : string) : PermDB :=
  mkPermDB (dbAgents db)
    (List.filter (fun x => negb (bool_decide (oAgentID x = agentID))) (dbOverrides db)).

(** * Operations of the gate *)

(** [StoreGate.Check]: the decision and the audit entries. *)
Definition GateCheck (templates : gmap string PermTemplate) (db : PermDB) (agentID : string)
    (call : ToolCall) : result string Decision * list AuditEntry :=
  match GetAgentWithOverrides db agentID with
  | inr e => (Err ("get agent with overrides: " +:+ e), [])
  | inl (agent, overrides) =>
    let d := decide_override templates agent overrides call in
    (Ok d, [logDecision agentID (ToolName call +:+ "." +:+ tcAction call) (extractResource call) d])
  end.

(** [GetAgentCapabilities] *)
Definition effective_caps (templates : gmap string PermTemplate) (agent : AgentConfig)
    (overrides : list Override) : list Capability :=
  let caps := match templates !! Template agent with Some t => tCapabilities t | None => [] end
              ++ map oCapability (List.filter Grant overrides) in
  List.filter (fun c => negb (existsb (fun o => negb (Grant o) &&
    matchCapability (oCapability o) (Tool c) (Action c) (Resource c)) overrides)) caps.

Definition GetAgentCapabilities (templates : gmap string PermTemplate) (db : PermDB)
    (agentID : string) : result string (list Capability) :=
  match GetAgentWithOverrides db agentID with
  | inr e => Err ("get agent with overrides: " +:+ e)
  | inl (agent, overrides) => Ok (effective_caps templates agent overrides)
  end.

(** [LoadTemplate] *)
Definition LoadTemplate (templates : gmap string PermTemplate) (name : string)
    : result string PermTemplate :=
  match templates !! name with Some t => Ok t | None => Err ("template " +:+ name +:+ ": not found") end.

(** [tierLevel] (0 for a missing key) and [maxGrantLevel] *)
Definition tierLevel (name : string) : Z :=
  if bool_decide (name = "guide") then 0
  else if bool_decide (name = "reader") then 1
  else if bool_decide (name = "worker") then 2
  else if bool_decide (name = "operator") then 3
  else if bool_decide (name = "admin") then 4
  else 0.

Definition maxGrantLevel (name : string) : option Z :=
  if bool_decide (name = "guide") then Some 0
  else if bool_decide (name = "reader") then Some 2
  else if bool_decide (name = "worker") then Some 3
  else if bool_decide (name = "operator") then Some 4
  else if bool_decide (name = "admin") then Some 4
  else None.

(** [ListTemplates]: the templates not named guide, sorted by level. *)
Fixpoint insert_by_level (t : PermTemplate) (l : list PermTemplate) : list PermTemplate :=
  match l with
  | [] => [t]
  | x :: l' => if tierLevel (tName t) <=? tierLevel (tName x) then t :: l
               else x :: insert_by_level t l'
  end.

Definition ListTemplates (templates : gmap string PermTemplate) : list PermTemplate :=
  foldr insert_by_level []
    (List.filter (fun t => negb (bool_decide (tName t = "guide")))
       (map snd (map_to_list templates))).

(** [capabilityTierLevel] *)
Definition capabilityTierLevel (c : Capability) : Z :=
  if bool_decide (Tool c = star) || bool_decide (Action c = star) then 4
  else if bool_decide (Action c = "execute") || bool_decide (Action c = "delete") then 3
  else if bool_decide (Action c ∈ ["write"; "post"; "insert"; "update"]) then 2
  else 1.

(** [StoreGate.AddOverride] *)
Definition AddOverride (db : PermDB) (o : Override) : result string PermDB :=
  if negb (Grant o) then StoreAddOverride db o
  else
    match GetAgentWithOverrides db (oAgentID o) with
    | inr e => Err ("get agent for escalation check: " +:+ e)
    | inl (agent, _) =>
      let maxLevel := default 1 (maxGrantLevel (Template agent)) in
      if maxLevel <? capabilityTierLevel (oCapability o)
      then Err ("escalation denied: " +:+ Template agent)
      else StoreAddOverride db o
    end.

(** * Lemmas *)

#[local] Arguments String.append !s1 s2 : simpl nomatch.

Definition call_matches (call : ToolCall) (c : Capability) : Prop :=
  matchCapability c (ToolName call) (tcAction call) (extractResource call) = true.

Definition template_caps (templates : gmap string PermTemplate) (agent : AgentConfig)
    : list Capability :=
  match templates !! Template agent with Some t => tCapabilities t | None => [] end.

Lemma override_match_exists (grant : bool) (call : ToolCall) (l : list Override) :
  existsb (override_matches grant call) l = true <->
  exists o, o ∈ l /\ Grant o = grant /\ call_matches call (oCapability o).
Proof.
  rewrite existsb_elem. unfold override_matches, call_matches.
  split; intros (o & Ho & H); exists o; (split; [done|]); revert H;
    rewrite andb_true_iff, Bool.eqb_true_iff; tauto.
Qed.

(** The decision without its texts. *)
Lemma decide_override_spec templates agent overrides call :
  Allowed (decide_override templates agent overrides call) = true <->
  (forall o, o ∈ overrides -> Grant o = false -> ~ call_matches call (oCapability o)) /\
  ((exists o, o ∈ overrides /\ Grant o = true /\ call_matches call (oCapability o)) \/
   exists c, c ∈ template_caps templates agent /\ call_matches call c).
Proof.
  unfold decide_override, template_caps.
  destruct (existsb (override_matches false call) overrides) eqn:Ed.
  { apply override_match_exists in Ed as (o & Ho & Hg & Hm). simpl. split; [done|].
    intros [Hd _]. by destruct (Hd o Ho Hg). }
  assert (forall o, o ∈ overrides -> Grant o = false -> ~ call_matches call (oCapability o)) as Hd.
  { intros o Ho Hg Hm. assert (existsb (override_matches false call) overrides = true); [|congruence].
    apply override_match_exists. eauto. }
  destruct (existsb (override_matches true call) overrides) eqn:Eg; simpl.
  { apply override_match_exists in Eg. split; [by auto|done]. }
  assert (~ exists o, o ∈ overrides /\ Grant o = true /\ call_matches call (oCapability o)) as Hg.
  { intros Hex%override_match_exists. congruence. }
  destruct (templates !! Template agent) as [t|]; simpl.
  - destruct (existsb _ (tCapabilities t)) eqn:Et; simpl.
    + apply existsb_elem in Et. split; [by eauto|done].
    + split; [done|]. intros [_ [Hx|(c & Hc & Hm)]]; [done|].
      rewrite existsb_elem_false in Et. apply Et in Hc. unfold call_matches in Hm. congruence.
  - split; [done|]. intros [_ [Hx|(c & Hc & _)]]; [done|]. by apply elem_of_nil in Hc.
Qed.

(** ** Patterns compose *)

Lemma matchField_trans (p q v : string) :
  matchField p q = true -> matchField q v = true -> matchField p v = true.
Proof. rewrite !matchField_spec. intros [->| ->]; naive_solver. Qed.

Definition single_star (pattern : string) : Prop := forall base, pattern <> base +:+ "/*" +:+ "/*".

Lemma matchResource_trans (p q r : string) :
  single_star p -> matchResource p q = true -> matchResource q r = true -> matchResource p r = true.
Proof.
  intros Hss. rewrite !matchResource_spec.
  intros [->|(Hq & Hpq)]; [by left|]. intros [->|(Hr & Hqr)]; [done|]. right. split; [done|].
  destruct Hpq as [(base & -> & Hb)|[Hnp <-]]; [|naive_solver].
  left. exists base. split; [done|]. destruct Hqr as [(base' & -> & Hb')|[_ <-]]; [|done].
  destruct Hb as [Hb|Hb].
  { exfalso. apply (Hss base'). subst base. by rewrite <- str_app_assoc. }
  apply has_prefix_spec in Hb as [t Ht]. apply str_app_split in Ht as [(z & -> & _)|(z & Hz & Ht)].
  - right. destruct Hb' as [->|[v ->]%has_prefix_spec]; rewrite <- ?str_app_assoc;
      rewrite ?(str_app_assoc base "/"); apply has_prefix_app.
  - destruct z as [|c [|d z]].
    + rewrite str_app_nil_r in Hz. subst base'. right.
      destruct Hb' as [->|[v ->]%has_prefix_spec]; [|rewrite <- (str_app_assoc (base +:+ "/"))];
        [rewrite <- (str_app_nil_r (base +:+ "/")) at 1|]; apply has_prefix_app.
    + injection Ht as <- _. apply str_app_inv_r in Hz as ->. exact Hb'.
    + injection Ht as <- <- Ht. destruct z; [|done]. exfalso. clear -Hz.
      apply str_app_split in Hz as [(y & _ & Hy)|(y & _ & Hy)];
        destruct y as [|? [|? [|? y]]]; simplify_eq/=.
Qed.

Lemma matchCapability_trans (c d : Capability) (tool action resource : string) :
  single_star (Resource c) ->
  matchCapability c (Tool d) (Action d) (Resource d) = true ->
  matchCapability d tool action resource = true ->
  matchCapability c tool action resource = true.
Proof.
  unfold matchCapability. rewrite !andb_true_iff. intros Hs [[H1 H2] H3] [[H4 H5] H6].
  split; [split|]; [by eapply matchField_trans..|by eapply matchResource_trans].
Qed.

(** ** The table *)

Lemma same_key_spec (a b : Override) :
  same_key a b = true <-> oAgentID a = oAgentID b /\ oCapability a = oCapability b.
Proof. unfold same_key. by rewrite andb_true_iff, !bool_decide_eq_true. Qed.

Lemma ListOverrides_elem db agentID o :
  o ∈ ListOverrides db agentID <-> o ∈ dbOverrides db /\ oAgentID o = agentID.
Proof. unfold ListOverrides. by rewrite filter_elem, bool_decide_eq_true. Qed.

(** A stored override is in the table, every other key is as before. *)
Lemma StoreAddOverride_ok db o db' :
  StoreAddOverride db o = Ok db' ->
  dbAgents db' = dbAgents db /\ o ∈ dbOverrides db' /\
  forall x, x ∈ dbOverrides db' -> x = o \/ (x ∈ dbOverrides db /\ same_key o x = false).
Proof.
  unfold StoreAddOverride. destruct (existsb (same_key o) (dbOverrides db)) eqn:E.
  - intros [= <-]. simpl. split; [done|].
    assert (forall x, same_key o x = true -> mkOverride (oAgentID x) (oCapability x) (Grant o) = o)
      as Hupd by (intros x [H1 H2]%same_key_spec; destruct o, x; simpl in *; congruence).
    split.
    + apply existsb_elem in E as (x & Hx & Hk). apply list_elem_of_fmap. exists x.
      by rewrite Hk, Hupd.
    + intros y (x & -> & Hx)%list_elem_of_fmap. destruct (same_key o x) eqn:Ek; [left; by apply Hupd|].
      by right.
  - destruct (dbAgents db !! oAgentID o); [|done]. intros [= <-]. simpl. split; [done|].
    split; [set_solver|]. intros x [Hx|Hx]%elem_of_app; [right|left; set_solver].
    split; [done|]. by apply (proj1 (existsb_elem_false _ _) E).
Qed.

Lemma AddOverride_ok db o db' :
  AddOverride db o = Ok db' -> StoreAddOverride db o = Ok db' /\
  (Grant o = true -> exists agent, dbAgents db !! oAgentID o = Some agent /\
     capabilityTierLevel (oCapability o) <= default 1 (maxGrantLevel (Template agent))).
Proof.
  unfold AddOverride, GetAgentWithOverrides. destruct (Grant o) eqn:Eg; simpl; [|by intros ->].
  destruct (dbAgents db !! oAgentID o) as [agent|]; [|done].
  simpl. destruct (_ <? _) eqn:El; [done|]. to_prop. intros ->. by eauto.
Qed.

Lemma maxGrantLevel_bound (t : string) : default 1 (maxGrantLevel t) <= tierLevel t + 1.
Proof. unfold maxGrantLevel, tierLevel. repeat case_bool_decide; simpl; lia. Qed.

(** Histories of the gate's mutating operations. *)
Inductive gate_step : PermDB -> PermDB -> Prop :=
| step_add db o db' : AddOverride db o = Ok db' -> gate_step db db'
| step_remove db agentID c db' : RemoveOverride db agentID c = Ok db' -> gate_step db db'
| step_remove_all db agentID : gate_step db (RemoveAllOverrides db agentID).

Definition grants_bounded (db : PermDB) : Prop :=
  forall o, o ∈ dbOverrides db -> Grant o = true -> exists agent,
    dbAgents db !! oAgentID o = Some agent /\
    capabilityTierLevel (oCapability o) <= default 1 (maxGrantLevel (Template agent)).

Lemma gate_step_bounded db db' :
  gate_step db db' -> grants_bounded db -> grants_bounded db' /\ dbAgents db' = dbAgents db.
Proof.
  intros [? o ? Ha|? agentID c ? Hr|? agentID] Hb.
  - apply AddOverride_ok in Ha as [Hs Hg]. apply StoreAddOverride_ok in Hs as (He & _ & Hx).
    split; [|done]. intros x Hin Hgr. rewrite He. apply Hx in Hin as [->|[Hin _]]; [by apply Hg|].
    by apply Hb.
  - revert Hr. unfold RemoveOverride. destruct (existsb _ _); [|done]. intros [= <-].
    split; [|done]. intros x [Hin _]%filter_elem. by apply Hb.
  - split; [|done]. intros x [Hin _]%filter_elem. by apply Hb.
Qed.

(** ** Sorting *)

Definition level_le (a b : PermTemplate) : Prop := tierLevel (tName a) <= tierLevel (tName b).

Lemma insert_by_level_perm t l : insert_by_level t l ≡ₚ t :: l.
Proof.
  induction l as [|x l IH]; simpl; [done|]. destruct (_ <=? _); [done|].
  rewrite IH. by rewrite Permutation_swap.
Qed.

Lemma insert_by_level_sorted t l :
  Sorted level_le l -> Sorted level_le (insert_by_level t l).
Proof.
  induction 1 as [|x l Hs IH Hhd]; simpl; [by repeat constructor|].
  destruct (Z.leb_spec (tierLevel (tName t)) (tierLevel (tName x))) as [Hle|Hlt].
  - by repeat constructor.
  - constructor; [done|]. destruct Hhd as [|y l' Hxy]; simpl; [constructor; unfold level_le; lia|].
    destruct (_ <=? _); constructor; unfold level_le in *; lia.
Qed.

(** * Properties *)

(** C16: The priority of the gate: a check that reaches a decision allows the call
    exactly when no deny override of the agent matches it and either a grant
    override or a capability of the agent's template does; and it writes exactly
    one audit entry, which records that decision. *)
Theorem gate_priority templates db agentID call d log :
  GateCheck templates db agentID call = (Ok d, log) ->
  exists agent, dbAgents db !! agentID = Some agent /\
    (Allowed d = true <->
      (forall o, o ∈ dbOverrides db -> oAgentID o = agentID -> Grant o = false ->
         ~ call_matches call (oCapability o)) /\
      ((exists o, o ∈ dbOverrides db /\ oAgentID o = agentID /\ Grant o = true /\
          call_matches call (oCapability o)) \/
       exists c, c ∈ template_caps templates agent /\ call_matches call c)) /\
    exists e, log = [e] /\ auAgentID e = agentID /\
      auDecision e = (if Allowed d then "allowed" else "denied").
Proof.
  unfold GateCheck, GetAgentWithOverrides.
  destruct (dbAgents db !! agentID) as [agent|]; [|done]. intros [= <- <-].
  exists agent. split; [done|]. split; [|by eexists].
  rewrite decide_override_spec.
  split; (intros [Hd Hg]; split;
    [intros o; pose proof (Hd o); rewrite ListOverrides_elem in *; naive_solver|]);
    (destruct Hg as [(o & Ho)|Hc]; [left; exists o; rewrite ListOverrides_elem in *; tauto|by right]).
Qed.

(** A deny takes effect at once and wins: after a deny override is added, every
    call of that agent it matches is refused, whatever was granted before. *)
Theorem deny_override_takes_effect templates db agentID c db' call :
  AddOverride db (mkOverride agentID c false) = Ok db' -> call_matches call c ->
  forall d log, GateCheck templates db' agentID call = (Ok d, log) -> Allowed d = false.
Proof.
  intros Ha Hm d log. apply AddOverride_ok in Ha as [Hs _].
  apply StoreAddOverride_ok in Hs as (_ & Hin & _). unfold GateCheck, GetAgentWithOverrides.
  destruct (dbAgents db' !! agentID) as [agent|]; [|done]. intros [= <- _].
  destruct (Allowed _) eqn:E; [|done]. apply decide_override_spec in E as [Hd _].
  exfalso. apply (Hd (mkOverride agentID c false)); [|done|exact Hm]. by apply ListOverrides_elem.
Qed.

(** The capabilities shown for an agent explain its permissions: a call the
    gate allows matches one of them, unless a deny pattern ends in two wildcard
    segments. *)
Theorem effective_caps_cover_check templates db agentID call d log caps :
  (forall o, o ∈ dbOverrides db -> Grant o = false -> single_star (Resource (oCapability o))) ->
  GateCheck templates db agentID call = (Ok d, log) -> Allowed d = true ->
  GetAgentCapabilities templates db agentID = Ok caps ->
  exists c, c ∈ caps /\ call_matches call c.
Proof.
  intros Hss. unfold GateCheck, GetAgentCapabilities, GetAgentWithOverrides.
  destruct (dbAgents db !! agentID) as [agent|]; [|done]. intros [= <- _] Hal [= <-].
  apply decide_override_spec in Hal as [Hd Hg].
  assert (exists c, c ∈ template_caps templates agent ++
            map oCapability (List.filter Grant (ListOverrides db agentID)) /\ call_matches call c)
    as (c & Hc & Hm).
  { destruct Hg as [(o & Ho & Hgr & Hm)|(c & Hc & Hm)].
    - exists (oCapability o). split; [|done]. apply elem_of_app. right.
      apply list_elem_of_fmap. exists o. split; [done|]. by apply filter_elem.
    - exists c. split; [|done]. apply elem_of_app. by left. }
  exists c. split; [|done]. unfold effective_caps. apply filter_elem. split; [exact Hc|].
  apply negb_true_iff, existsb_elem_false. intros o Ho.
  destruct (Grant o) eqn:Egr; [done|]. simpl.
  destruct (matchCapability (oCapability o) (Tool c) (Action c) (Resource c)) eqn:Em; [|done].
  exfalso. eapply Hd; [exact Ho|done|]. unfold call_matches in *.
  eapply matchCapability_trans; [|exact Em|exact Hm].
  apply ListOverrides_elem in Ho as [Ho _]. by apply Hss.
Qed.

(** Escalation is bounded: whatever sequence of overrides is added and removed
    through the gate, every grant in the table is at most one tier above the
    template of its agent. *)
Theorem escalation_bounded agents db :
  rtc gate_step (mkPermDB agents []) db ->
  forall o, o ∈ dbOverrides db -> Grant o = true -> exists agent,
    agents !! oAgentID o = Some agent /\
    capabilityTierLevel (oCapability o) <= tierLevel (Template agent) + 1.
Proof.
  intros Hr.
  assert (forall x y, rtc gate_step x y -> grants_bounded x ->
    grants_bounded y /\ dbAgents y = dbAgents x) as Hinv.
  { induction 1 as [|x y z Hxy _ IH]; [done|]. intros Hx.
    apply gate_step_bounded in Hxy as [Hy He]; [|done]. rewrite <- He. by apply IH. }
  destruct (Hinv _ _ Hr) as [Hb He]; [by intros o ?%elem_of_nil|]. simpl in He.
  intros o Ho Hg. destruct (Hb o Ho Hg) as (agent & Ha & Hl). exists agent.
  rewrite He in Ha. split; [done|]. pose proof (maxGrantLevel_bound (Template agent)). lia.
Qed.

(** An operator agent can be granted the full wildcard, after which the gate
    allows it every call no deny override matches. *)
Theorem operator_wildcard_grant templates db agentID agent :
  dbAgents db !! agentID = Some agent -> Template agent = "operator" ->
  exists db', AddOverride db (mkOverride agentID (cap_all star star) true) = Ok db' /\
    forall call, (forall o, o ∈ dbOverrides db' -> Grant o = false ->
        ~ call_matches call (oCapability o)) ->
      exists d log, GateCheck templates db' agentID call = (Ok d, log) /\ Allowed d = true.
Proof.
  intros Ha Ht. set (o := mkOverride agentID (cap_all star star) true).
  assert (exists db', AddOverride db o = Ok db') as [db' Hadd].
  { unfold AddOverride, GetAgentWithOverrides, StoreAddOverride. simpl. rewrite Ha. simpl. rewrite Ht.
    destruct (_ <? _) eqn:El; [vm_compute in El; discriminate|]. destruct (existsb (same_key o) (dbOverrides db)); by eexists. }
  exists db'. split; [done|]. intros call Hd.
  apply AddOverride_ok in Hadd as [Hs _]. apply StoreAddOverride_ok in Hs as (He & Hin & _).
  unfold GateCheck, GetAgentWithOverrides. rewrite He, Ha. eexists _, _. split; [done|].
  apply decide_override_spec. split.
  - intros x [Hx _]%ListOverrides_elem. by apply Hd.
  - left. exists o. split; [by apply ListOverrides_elem|]. split; [done|].
    unfold call_matches. done.
Qed.

(** The template list offers exactly the assignable templates, in the order of
    their tiers. *)
Theorem list_templates_sorted templates :
  Sorted level_le (ListTemplates templates) /\
  forall t, t ∈ ListTemplates templates <->
    (exists name, templates !! name = Some t) /\ tName t <> "guide".
Proof.
  unfold ListTemplates. set (l := List.filter _ _).
  assert (foldr insert_by_level [] l ≡ₚ l) as Hp.
  { induction l as [|x l' IH]; simpl; [done|]. by rewrite insert_by_level_perm, IH. }
  split.
  - induction l as [|x l' IH]; simpl; [constructor|]. apply insert_by_level_sorted, IH.
    apply (Permutation_cons_inv (a := x)). by rewrite <- insert_by_level_perm.
  - intros t. rewrite Hp. subst l. rewrite filter_elem, negb_true_iff, bool_decide_eq_false.
    rewrite list_elem_of_fmap. split.
    + intros [([name t'] & -> & Hin) Hne]. split; [|done]. exists name.
      by apply elem_of_map_to_list in Hin.
    + intros [[name Hl] Hne]. split; [|done]. exists (name, t). split; [done|].
      by apply elem_of_map_to_list.
Qed.

(** * Witnesses *)

Definition demo_db : PermDB :=
  mkPermDB {["a1" := plain_agent "a1" "reader"; "op" := plain_agent "op" "operator"]} [].

Definition read_etc : ToolCall := mkToolCall "filesystem" "read" [("path", AString "/etc/passwd")].

Definition no_etc : Override := mkOverride "a1" (mkCapability "filesystem" "read" "/etc/*") false.

Definition denied_db : PermDB := mkPermDB (dbAgents demo_db) [no_etc].

Example reader_reads_etc :
  exists log, GateCheck (NewStoreGate None) demo_db "a1" read_etc
    = (Ok (mkDecision true "granted by template" "template:reader"), log).
Proof. eexists. vm_compute. reflexivity. Qed.

Lemma gate_priority_witness :
  exists agent, dbAgents demo_db !! "a1" = Some agent /\
    exists e, [logDecision "a1" "filesystem.read" "/etc/passwd"
      (mkDecision true "granted by template" "template:reader")] = [e] /\ auDecision e = "allowed".
Proof.
  destruct (gate_priority (NewStoreGate None) demo_db "a1" read_etc
    (mkDecision true "granted by template" "template:reader")
    [logDecision "a1" "filesystem.read" "/etc/passwd"
      (mkDecision true "granted by template" "template:reader")]) as (agent & H1 & _ & e & H2 & _ & H3).
  - vm_compute. reflexivity.
  - exists agent. split; [exact H1|]. exists e. split; [exact H2|exact H3].
Defined.

Lemma deny_override_takes_effect_witness :
  Allowed (mkDecision false "denied by override" "deny_override") = false.
Proof.
  apply (deny_override_takes_effect (NewStoreGate None) demo_db "a1"
    (mkCapability "filesystem" "read" "/etc/*") denied_db read_etc) with
    (log := [logDecision "a1" "filesystem.read" "/etc/passwd"
      (mkDecision false "denied by override" "deny_override")]); vm_compute; reflexivity.
Defined.

Lemma effective_caps_cover_check_witness :
  exists c, c ∈ tCapabilities ReaderTemplate /\ call_matches read_etc c.
Proof.
  apply (effective_caps_cover_check (NewStoreGate None) demo_db "a1" read_etc
    (mkDecision true "granted by template" "template:reader")
    [logDecision "a1" "filesystem.read" "/etc/passwd"
      (mkDecision true "granted by template" "template:reader")]).
  - intros o Ho. by apply elem_of_nil in Ho.
  - vm_compute. reflexivity.
  - reflexivity.
  - vm_compute. reflexivity.
Defined.

Definition write_grant : Override := mkOverride "a1" (cap_all "http" "post") true.
Definition granted_db : PermDB := mkPermDB (dbAgents demo_db) [write_grant].

(** A reader can be granted a worker capability but not an operator one. *)
Example reader_execute_refused :
  AddOverride demo_db (mkOverride "a1" (cap_all "shell" "execute") true)
  = Err "escalation denied: reader".
Proof. vm_compute. reflexivity. Qed.

Lemma escalation_bounded_witness : exists agent, dbAgents demo_db !! "a1" = Some agent /\
  capabilityTierLevel (oCapability write_grant) <= tierLevel (Template agent) + 1.
Proof.
  apply (escalation_bounded (dbAgents demo_db) granted_db) with (o := write_grant).
  - apply rtc_once. apply (step_add _ write_grant). vm_compute. reflexivity.
  - left.
  - reflexivity.
Defined.

Lemma operator_wildcard_grant_witness :
  exists db', AddOverride demo_db (mkOverride "op" (cap_all star star) true) = Ok db'.
Proof.
  destruct (operator_wildcard_grant (NewStoreGate None) demo_db "op" (plain_agent "op" "operator"))
    as (db' & H & _).
  - vm_compute. reflexivity.
  - reflexivity.
  - exists db'. exact H.
Defined.
