(* ===== verification/Breaker.v ===== *)
(** The circuit breaker ([internal/circuitbreaker]): per-agent counters over sliding
    windows, the configuration they are checked against, and the manager that owns
    the breakers.

    Times are nanoseconds read from the monotonic clock; [sha256] (in hexadecimal)
    and [json.Unmarshal] are parameters. *)

From S2P Require Import Prelude GoString GoFloat Types.

(** * Data *)

(** [TripResult], less its description *)
Record TripResult := mkTrip { Trigger : string; trAgentID : string; trTime : Z }.

(** [Breaker] *)
Record Breaker := mkBreaker {
  bAgentID : string;
  bConfig : CircuitBreakerConfig;
  dailyBudget : float64;
  bConfigHash : string;
  tripped : option TripResult;       (* tripped and tripResult *)
  errorTimes : list Z;
  toolCallTimes : list Z;
  destructiveCount : Z;
  spendingRecords : list (float64 * Z);
  messageHashes : list string;
}.

(** [NewBreaker] *)
Definition NewBreaker (agentID : string) (cfg : CircuitBreakerConfig) (budget : float64)
    (hash : string) : Breaker :=
  mkBreaker agentID cfg budget hash None [] [] 0 [] [].

Definition minute : Z := 60 * 1000000000.

(** [now.Add(-time.Duration(n) * time.Minute)]: the product is a 64-bit
    [Duration]. *)
Definition window_start (now n : Z) : Z := now + wrap64 (wrap64 (- n) * minute).

(** [expireBefore] *)
Definition expireBefore (times : list Z) (cutoff : Z) : list Z :=
  List.filter (fun t => cutoff <=? t) times.

Section with_fields.
Context (b : Breaker).

Definition with_calls (l : list Z) : Breaker :=
  mkBreaker (bAgentID b) (bConfig b) (dailyBudget b) (bConfigHash b) (tripped b) (errorTimes b) l
    (destructiveCount b) (spendingRecords b) (messageHashes b).
Definition with_errors (l : list Z) : Breaker :=
  mkBreaker (bAgentID b) (bConfig b) (dailyBudget b) (bConfigHash b) (tripped b) l (toolCallTimes b)
    (destructiveCount b) (spendingRecords b) (messageHashes b).
Definition with_destructive (n : Z) : Breaker :=
  mkBreaker (bAgentID b) (bConfig b) (dailyBudget b) (bConfigHash b) (tripped b) (errorTimes b)
    (toolCallTimes b) n (spendingRecords b) (messageHashes b).
Definition with_spending (l : list (float64 * Z)) : Breaker :=
  mkBreaker (bAgentID b) (bConfig b) (dailyBudget b) (bConfigHash b) (tripped b) (errorTimes b)
    (toolCallTimes b) (destructiveCount b) l (messageHashes b).
Definition with_hashes (l : list string) : Breaker :=
  mkBreaker (bAgentID b) (bConfig b) (dailyBudget b) (bConfigHash b) (tripped b) (errorTimes b)
    (toolCallTimes b) (destructiveCount b) (spendingRecords b) l.
Definition with_trip (t : TripResult) : Breaker :=
  mkBreaker (bAgentID b) (bConfig b) (dailyBudget b) (bConfigHash b) (Some t) (errorTimes b)
    (toolCallTimes b) (destructiveCount b) (spendingRecords b) (messageHashes b).
End with_fields.

(** [trip] *)
Definition trip (b : Breaker) (trigger : string) (now : Z) : Breaker * option TripResult :=
  let r := mkTrip trigger (bAgentID b) now in (with_trip b r, Some r).

Definition count {A} (l : list A) : Z := Z.of_nat (length l).

(** [!b.config.Enabled || b.tripped] *)
Definition inactive (b : Breaker) : bool :=
  negb (Enabled (bConfig b)) || match tripped b with Some _ => true | None => false end.

(** [RecordToolCall] *)
Definition RecordToolCall (b : Breaker) (now : Z) (success destructive : bool)
    : Breaker * option TripResult :=
  if inactive b then (b, None)
  else
    let cfg := bConfig b in
    let b1 := with_calls b (expireBefore (toolCallTimes b ++ [now]) (now - minute)) in
    if ActionRatePerMinute cfg <? count (toolCallTimes b1) then trip b1 "action_rate" now
    else
      let b2 := if success then b1
                else with_errors b1 (expireBefore (errorTimes b1 ++ [now])
                                       (window_start now (ErrorWindowMinutes cfg))) in
      if negb success && (ErrorThreshold cfg <=? count (errorTimes b2))
      then trip b2 "error_rate" now
      else if destructive then
        let b3 := with_destructive b2 (destructiveCount b2 + 1) in
        if DestructiveLimit cfg <? destructiveCount b3 then trip b3 "destructive_limit" now
        else (b3, None)
      else (b2, None).

Definition total_cost (l : list (float64 * Z)) : float64 :=
  foldl (fun t r => f64_add t r.1) f64_zero l.

(** The threshold of [RecordSpending] *)
Definition spending_threshold (budget : float64) (pct : Z) : float64 :=
  f64_div (f64_mul budget (f64_of_Z pct)) (f64_of_Z 100).

(** [RecordSpending] *)
Definition RecordSpending (b : Breaker) (now : Z) (cost : float64) : Breaker * option TripResult :=
  if inactive b || f64_le (dailyBudget b) f64_zero then (b, None)
  else
    let cfg := bConfig b in
    let cutoff := window_start now (SpendingWindowMinutes cfg) in
    let b1 := with_spending b
      (List.filter (fun r => cutoff <=? r.2) (spendingRecords b ++ [(cost, now)])) in
    let total := total_cost (spendingRecords b1) in
    let threshold := spending_threshold (dailyBudget b) (SpendingVelocityPct cfg) in
    if f64_lt threshold total then trip b1 "spending_velocity" now else (b1, None).

Section hashed.
Context `{UnicodeCase} (sha256 : string -> string).

(** The digest [RecordMessage] keeps of a response. *)
Definition message_hash (content : string) : string :=
  sha256 (join " " (fields (to_lower content))).

(** The slice of the last [n] elements, [None] when the index is out of range. *)
Definition keep_last (n : Z) (l : list string) : option (list string) :=
  if count l >? n then
    if count l - n <=? count l then Some (drop (Z.to_nat (count l - n)) l) else None
  else Some l.

(** [RecordMessage]; [None] is a panic of the slice or of the index expression. *)
Definition RecordMessage (b : Breaker) (now : Z) (content : string)
    : option (Breaker * option TripResult) :=
  if inactive b then Some (b, None)
  else
    let maxKeep := LoopIdenticalCount (bConfig b) in
    match keep_last maxKeep (messageHashes b ++ [message_hash content]) with
    | None => None
    | Some hashes =>
      let b1 := with_hashes b hashes in
      if maxKeep <=? count hashes then
        match hashes with
        | [] => None
        | first :: rest =>
          if forallb (fun h => bool_decide (h = first)) rest
          then Some (trip b1 "loop_detection" now) else Some (b1, None)
        end
      else Some (b1, None)
    end.
End hashed.

(** [BreakerStatus] and [Status] *)
Record BreakerStatus := mkBreakerStatus {
  stErrorCount : Z; stToolCallCount : Z; stDestructiveCount : Z; stSpendingInWindow : float64;
  stTrip : option TripResult;
}.

Definition Status (b : Breaker) : BreakerStatus :=
  mkBreakerStatus (count (errorTimes b)) (count (toolCallTimes b)) (destructiveCount b)
    (total_cost (spendingRecords b)) (tripped b).

(** * Configuration *)

(** [pickNonZero] *)
Definition pickNonZero (a b : Z) : Z := if 0 <? a then a else b.

Definition zero_breaker_config : CircuitBreakerConfig := mkBreakerConfig false 0 0 0 0 0 0 0.

Definition has_json (json : string) : bool :=
  negb (bool_decide (json = EmptyString)) && negb (bool_decide (json = "{}")).

(** [ResolveConfig]: [Unmarshal json] is the zero configuration after
    [json.Unmarshal] wrote to it, its error dropped. *)
Definition ResolveConfig (Unmarshal : string -> CircuitBreakerConfig) (config : AgentConfig)
    (sys : CircuitBreakerConfig) : CircuitBreakerConfig :=
  let json := CircuitBreakerJSON config in
  let cfg := if has_json json then Unmarshal json else zero_breaker_config in
  let hard := DefaultCircuitBreakerConfig in
  let enabled := if has_json json then Enabled cfg
                 else if Enabled sys then true else Enabled hard in
  let field (f : CircuitBreakerConfig -> Z) : Z :=
    if f cfg <=? 0 then pickNonZero (f sys) (f hard) else f cfg in
  mkBreakerConfig enabled (field ErrorThreshold) (field ErrorWindowMinutes)
    (field SpendingVelocityPct) (field SpendingWindowMinutes) (field ActionRatePerMinute)
    (field DestructiveLimit) (field LoopIdenticalCount).

(** * The manager *)

(** [Manager]: [mgTrips] records the callbacks made. *)
Record BreakerManager := mkBreakerManager {
  mgBreakers : gmap string Breaker;
  mgDefaults : CircuitBreakerConfig;
  mgTrips : list TripResult;
}.

Definition NewBreakerManager : BreakerManager := mkBreakerManager ∅ zero_breaker_config [].

Section manager.
Context `{UnicodeCase} (sha256 : string -> string) (Unmarshal : string -> CircuitBreakerConfig).

(** [SetSystemDefaults] *)
Definition SetSystemDefaults (m : BreakerManager) (cfg : CircuitBreakerConfig) : BreakerManager :=
  mkBreakerManager (mgBreakers m) cfg (mgTrips m).

(** [GetOrCreate] *)
Definition GetOrCreate (m : BreakerManager) (config : AgentConfig) : Breaker * BreakerManager :=
  let hash := sha256 (CircuitBreakerJSON config) in
  let fresh := NewBreaker (ID config) (ResolveConfig Unmarshal config (mgDefaults m))
                 (MaxSpendPerDay (Limits config)) hash in
  let created := (fresh, mkBreakerManager (<[ID config := fresh]> (mgBreakers m))
                           (mgDefaults m) (mgTrips m)) in
  match mgBreakers m !! ID config with
  | Some b => if bool_decide (bConfigHash b = hash) then (b, m) else created
  | None => created
  end.

(** The breaker is updated in place; a trip is handed to the callback. *)
Definition commit (m : BreakerManager) (id : string) (r : Breaker * option TripResult)
    : BreakerManager * option TripResult :=
  (mkBreakerManager (<[id := r.1]> (mgBreakers m)) (mgDefaults m)
     (mgTrips m ++ option_list r.2), r.2).

(** [Manager.RecordToolCall], [RecordSpending], [RecordMessage] *)
Definition ManagerRecordToolCall (m : BreakerManager) (config : AgentConfig) (now : Z)
    (success destructive : bool) : BreakerManager * option TripResult :=
  let '(b, m1) := GetOrCreate m config in
  commit m1 (ID config) (RecordToolCall b now success destructive).

Definition ManagerRecordSpending (m : BreakerManager) (config : AgentConfig) (now : Z)
    (cost : float64) : BreakerManager * option TripResult :=
  let '(b, m1) := GetOrCreate m config in
  commit m1 (ID config) (RecordSpending b now cost).

Definition ManagerRecordMessage (m : BreakerManager) (config : AgentConfig) (now : Z)
    (content : string) : option (BreakerManager * option TripResult) :=
  let '(b, m1) := GetOrCreate m config in
  r ← RecordMessage sha256 b now content; Some (commit m1 (ID config) r).

(** [Manager.Status] and [Remove] *)
Definition ManagerStatus (m : BreakerManager) (agentID : string) : BreakerStatus :=
  match mgBreakers m !! agentID with
  | Some b => Status b
  | None => mkBreakerStatus 0 0 0 f64_zero None
  end.

Definition BreakerRemove (m : BreakerManager) (agentID : string) : BreakerManager :=
  mkBreakerManager (delete agentID (mgBreakers m)) (mgDefaults m) (mgTrips m).
End manager.

(** * Specification over the history

    What the breaker promises, stated on the whole list of recorded events rather
    than on counters that are expired on the way. *)

Inductive BreakerEvent : Type :=
| ToolEvent (at_ : Z) (success destructive : bool)
| SpendEvent (at_ : Z) (cost : float64)
| MessageEvent (at_ : Z) (content : string).

Definition event_time (e : BreakerEvent) : Z :=
  match e with ToolEvent t _ _ | SpendEvent t _ | MessageEvent t _ => t end.

Definition tool_times (h : list BreakerEvent) : list Z :=
  omap (fun e => match e with ToolEvent t _ _ => Some t | _ => None end) h.
Definition fail_times (h : list BreakerEvent) : list Z :=
  omap (fun e => match e with ToolEvent t false _ => Some t | _ => None end) h.
Definition destructive_calls (h : list BreakerEvent) : list Z :=
  omap (fun e => match e with ToolEvent t _ true => Some t | _ => None end) h.
Definition spends (h : list BreakerEvent) : list (float64 * Z) :=
  omap (fun e => match e with SpendEvent t c => Some (c, t) | _ => None end) h.

(** The elements since a cutoff. *)
Definition since {A} (time : A -> Z) (cutoff : Z) (l : list A) : list A :=
  List.filter (fun x => cutoff <=? time x) l.


Section spec.
Context `{UnicodeCase} (sha256 : string -> string) (cfg : CircuitBreakerConfig) (budget : float64).

Definition hashes_of (h : list BreakerEvent) : list string :=
  omap (fun e => match e with MessageEvent _ c => Some (message_hash sha256 c) | _ => None end) h.

(** Which limit the last event of a history breaches, the earlier events having
    breached none. *)
Definition verdict (h : list BreakerEvent) (e : BreakerEvent) : option string :=
  let h' := h ++ [e] in
  let now := event_time e in
  match e with
  | ToolEvent _ success destructive =>
    if ActionRatePerMinute cfg <? count (since id (now - minute) (tool_times h'))
    then Some "action_rate"
    else if negb success && (ErrorThreshold cfg <=?
              count (since id (window_start now (ErrorWindowMinutes cfg)) (fail_times h')))
    then Some "error_rate"
    else if destructive && (DestructiveLimit cfg <? count (destructive_calls h'))
    then Some "destructive_limit"
    else None
  | SpendEvent _ _ =>
    if negb (f64_le budget f64_zero) &&
       f64_lt (spending_threshold budget (SpendingVelocityPct cfg))
         (total_cost (since snd (window_start now (SpendingWindowMinutes cfg)) (spends h')))
    then Some "spending_velocity" else None
  | MessageEvent _ content =>
    let n := Z.to_nat (LoopIdenticalCount cfg) in
    if (n <=? length (hashes_of h'))%nat &&
       forallb (fun x => bool_decide (x = message_hash sha256 content)) (last_n n (hashes_of h'))
    then Some "loop_detection" else None
  end.

(** One event through the breaker; [None] is a panic. *)
Definition record (b : Breaker) (e : BreakerEvent) : option (Breaker * option TripResult) :=
  match e with
  | ToolEvent now success destructive => Some (RecordToolCall b now success destructive)
  | SpendEvent now cost => Some (RecordSpending b now cost)
  | MessageEvent now content => RecordMessage sha256 b now content
  end.

(** Histories without a trip, recorded in the order of the clock. *)
Inductive ran (agentID hash : string) : list BreakerEvent -> Breaker -> Prop :=
| ran_nil : ran agentID hash [] (NewBreaker agentID cfg budget hash)
| ran_snoc h b e b' :
    ran agentID hash h b -> Forall (fun x => event_time x <= event_time e) h ->
    record b e = Some (b', None) -> ran agentID hash (h ++ [e]) b'.

(** ** Windows *)

(** For every window that can still be asked for, [kept] is as good as [l]. *)
Definition windowed {A} (time : A -> Z) (off : Z) (h : list BreakerEvent) (l kept : list A) : Prop :=
  forall now, Forall (fun x => event_time x <= now) h ->
    since time (now + off) kept = since time (now + off) l.

Lemma since_since {A} (time : A -> Z) (c c' : Z) (l : list A) :
  c <= c' -> since time c' (since time c l) = since time c' l.
Proof.
  intros Hc. unfold since. induction l as [|x l IH]; simpl; [done|].
  destruct (Z.leb_spec c (time x)); simpl; rewrite IH; [done|].
  destruct (Z.leb_spec c' (time x)); [lia|done].
Qed.

(** Expiring at [now] gives the window of the whole history. *)
Lemma windowed_expire {A} (time : A -> Z) (off now : Z) (h : list BreakerEvent) (l kept : list A) (x : A) :
  windowed time off h l kept -> Forall (fun e => event_time e <= now) h ->
  since time (now + off) (kept ++ [x]) = since time (now + off) (l ++ [x]).
Proof.
  intros Hw Hall. unfold since. rewrite !List.filter_app. f_equal. by apply Hw.
Qed.

Lemma windowed_now {A} (time : A -> Z) (off : Z) (h : list BreakerEvent) (e : BreakerEvent) (l : list A) :
  windowed time off (h ++ [e]) l (since time (event_time e + off) l).
Proof.
  intros now [_ Hall]%Forall_app. apply since_since. inversion Hall. lia.
Qed.

Lemma windowed_weaken {A} (time : A -> Z) (off : Z) (h : list BreakerEvent) (e : BreakerEvent)
    (l kept : list A) :
  windowed time off h l kept -> windowed time off (h ++ [e]) l kept.
Proof. intros Hw now [Hall _]%Forall_app. by apply Hw. Qed.

Lemma last_n_snoc {A} (n : nat) (l : list A) (x : A) :
  (0 < n)%nat -> last_n n (last_n n l ++ [x]) = last_n n (l ++ [x]).
Proof.
  intros Hn. unfold last_n. rewrite !length_app, length_drop. simpl.
  destruct (decide (length l <= n)%nat) as [Hle|Hgt].
  - replace (length l - n)%nat with 0%nat by lia. rewrite drop_0. f_equal. lia.
  - rewrite !drop_app_le by (rewrite ?length_drop; lia). rewrite drop_drop. do 2 f_equal. lia.
Qed.

(** ** Invariant *)

Record breaker_inv (agentID : string) (h : list BreakerEvent) (b : Breaker) : Prop := {
  inv_config : bConfig b = cfg;
  inv_budget : dailyBudget b = budget;
  inv_agent : bAgentID b = agentID;
  inv_quiet : tripped b = None;
  inv_calls : windowed id (- minute) h (tool_times h) (toolCallTimes b);
  inv_errors : windowed id (wrap64 (wrap64 (- ErrorWindowMinutes cfg) * minute)) h (fail_times h)
                 (errorTimes b);
  inv_destructive : destructiveCount b = count (destructive_calls h);
  inv_spending : f64_le budget f64_zero = false ->
    windowed snd (wrap64 (wrap64 (- SpendingWindowMinutes cfg) * minute)) h (spends h)
      (spendingRecords b);
  inv_hashes : messageHashes b = last_n (Z.to_nat (LoopIdenticalCount cfg)) (hashes_of h);
}.

Context (Henabled : Enabled cfg = true) (Hloop : 0 < LoopIdenticalCount cfg).

Lemma inv_active agentID h b : breaker_inv agentID h b -> inactive b = false.
Proof. intros Hi. unfold inactive. by rewrite (inv_config _ _ _ Hi), (inv_quiet _ _ _ Hi), Henabled. Qed.

(** One event: the breaker answers as the specification does, and keeps the
    invariant when there is no trip. *)
Definition refines agentID h b e : Prop :=
  exists b' t, record b e = Some (b', t) /\ Trigger <$> t = verdict h e /\
    (t = None -> breaker_inv agentID (h ++ [e]) b').

(** Events of one kind leave the projections of the others alone. *)
Lemma omap_skip {A} (f : BreakerEvent -> option A) (h : list BreakerEvent) (e : BreakerEvent) :
  f e = None -> omap f (h ++ [e]) = omap f h.
Proof. intros He. rewrite omap_app. simpl. rewrite He. apply app_nil_r. Qed.

Lemma fail_window agentID h b now success destructive :
  breaker_inv agentID h b -> Forall (fun x => event_time x <= now) h ->
  let e := ToolEvent now success destructive in
  let errs := if success then errorTimes b
              else expireBefore (errorTimes b ++ [now]) (window_start now (ErrorWindowMinutes cfg)) in
  windowed id (wrap64 (wrap64 (- ErrorWindowMinutes cfg) * minute)) (h ++ [e])
    (fail_times (h ++ [e])) errs /\
  (success = false ->
   errs = since id (window_start now (ErrorWindowMinutes cfg)) (fail_times (h ++ [e]))).
Proof.
  intros Hi Hall e errs. pose proof (inv_errors _ _ _ Hi) as Herr.
  unfold fail_times. rewrite omap_app. subst e errs. destruct success; simpl.
  - rewrite app_nil_r. split; [by apply windowed_weaken|done].
  - change (expireBefore ?l ?c) with (since id c l). unfold window_start.
    rewrite (windowed_expire id _ now h _ _ now Herr Hall).
    split; [apply (windowed_now id _ h (ToolEvent now false destructive))|done].
Qed.

(** The parts of the invariant a tool call does not touch. *)
Lemma tool_frame agentID h b now success destructive calls errs des :
  breaker_inv agentID h b ->
  let e := ToolEvent now success destructive in
  windowed id (- minute) (h ++ [e]) (tool_times (h ++ [e])) calls ->
  windowed id (wrap64 (wrap64 (- ErrorWindowMinutes cfg) * minute)) (h ++ [e])
    (fail_times (h ++ [e])) errs ->
  des = count (destructive_calls (h ++ [e])) ->
  breaker_inv agentID (h ++ [e]) (with_destructive (with_errors (with_calls b calls) errs) des).
Proof.
  intros [Hc Hb Ha Hq Hcalls Herr Hdes Hsp Hh] e Hw1 Hw2 ->. constructor; simpl; try done.
  - intros Hbud. unfold spends. rewrite omap_skip by done. by apply windowed_weaken, Hsp.
  - unfold hashes_of. by rewrite omap_skip.
Qed.

Lemma tool_refines agentID h b now success destructive :
  breaker_inv agentID h b -> Forall (fun x => event_time x <= now) h ->
  refines agentID h b (ToolEvent now success destructive).
Proof.
  intros Hi Hall. pose proof (inv_active _ _ _ Hi) as Hact.
  set (e := ToolEvent now success destructive).
  assert (tool_times (h ++ [e]) = tool_times h ++ [now]) as Et
    by (unfold tool_times; by rewrite omap_app).
  pose proof (windowed_expire id (- minute) now h _ _ now (inv_calls _ _ _ Hi) Hall) as Ec.
  destruct (fail_window _ _ _ now success destructive Hi Hall) as [Hw2 Hf]. fold e in Hw2, Hf.
  set (errs := if success then _ else _) in *.
  set (calls := expireBefore (toolCallTimes b ++ [now]) (now - minute)).
  assert (calls = since id (now - minute) (tool_times (h ++ [e]))) as Ecalls by (by rewrite Et).
  assert (windowed id (- minute) (h ++ [e]) (tool_times (h ++ [e])) calls) as Hw1
    by (rewrite Ecalls; apply (windowed_now id (- minute) h e)).
  assert (count (destructive_calls (h ++ [e])) = destructiveCount b + (if destructive then 1 else 0))
    as Ecount.
  { rewrite (inv_destructive _ _ _ Hi). unfold destructive_calls, count. rewrite omap_app, length_app.
    subst e. destruct destructive; simpl; lia. }
  pose proof (tool_frame _ _ _ now success destructive _ _ _ Hi Hw1 Hw2 eq_refl) as Hnext.
  fold e in Hnext. rewrite Ecount in Hnext.
  unfold refines, record, RecordToolCall, verdict, e.
  rewrite Hact, (inv_config _ _ _ Hi). cbn [toolCallTimes with_calls event_time].
  fold e. fold calls. rewrite <- Ecalls, Ecount. destruct (ActionRatePerMinute cfg <? _); [by eexists _, _|].
  replace (if success then with_calls b calls else _) with (with_errors (with_calls b calls) errs)
    by (subst errs; destruct success; [by destruct b|done]).
  assert (negb success && (ErrorThreshold cfg <=? count errs)
    = negb success && (ErrorThreshold cfg <=?
        count (since id (window_start now (ErrorWindowMinutes cfg)) (fail_times (h ++ [e]))))) as <-
    by (destruct success; [done|by rewrite Hf]).
  cbn [errorTimes with_errors]. destruct (negb success && _); [by eexists _, _|].
  destruct destructive; simpl.
  - destruct (DestructiveLimit cfg <? _); [by eexists _, _|]. by eexists _, _.
  - eexists _, _. split; [done|]. split; [done|]. intros _.
    rewrite Z.add_0_r in Hnext. by destruct b.
Qed.

Lemma spend_refines agentID h b now cost :
  breaker_inv agentID h b -> Forall (fun x => event_time x <= now) h ->
  refines agentID h b (SpendEvent now cost).
Proof.
  intros Hi Hall. pose proof (inv_active _ _ _ Hi) as Hact.
  pose proof Hi as [Hc Hb Ha Hq Hcalls Herr Hdes Hsp Hh].
  set (e := SpendEvent now cost).
  assert (forall sp, (f64_le budget f64_zero = false -> windowed snd
      (wrap64 (wrap64 (- SpendingWindowMinutes cfg) * minute)) (h ++ [e]) (spends (h ++ [e])) sp) ->
    breaker_inv agentID (h ++ [e]) (with_spending b sp)) as Hinv.
  { intros sp Hsp'. constructor; simpl; try done.
    - unfold tool_times. rewrite omap_skip by done. by apply windowed_weaken.
    - unfold fail_times. rewrite omap_skip by done. by apply windowed_weaken.
    - unfold destructive_calls. by rewrite omap_skip.
    - unfold hashes_of. by rewrite omap_skip. }
  unfold refines, record, RecordSpending, verdict, e. rewrite Hact, Hb, Hc. cbn [orb event_time]. fold e.
  destruct (f64_le budget f64_zero) eqn:Ebud; simpl.
  { eexists _, _. split; [done|]. split; [done|]. intros _.
    replace b with (with_spending b (spendingRecords b)) by (by destruct b). by apply Hinv. }
  assert (spends (h ++ [e]) = spends h ++ [(cost, now)]) as Es
    by (unfold spends; by rewrite omap_app).
  pose proof (windowed_expire snd _ now h _ _ (cost, now) (Hsp eq_refl) Hall) as Hx.
  rewrite <- Es in Hx. unfold window_start.
  change (List.filter (fun r => ?c <=? r.2) ?l) with (since snd c l). rewrite Hx.
  destruct (f64_lt _ _); [by eexists _, _|].
  eexists _, _. split; [done|]. split; [done|]. intros _. apply Hinv. intros _.
  apply (windowed_now snd _ h e).
Qed.

Lemma keep_last_spec (n : Z) (l : list string) :
  0 < n -> keep_last n l = Some (last_n (Z.to_nat n) l).
Proof.
  intros Hn. unfold keep_last, last_n, count.
  destruct (Z.gtb_spec (Z.of_nat (length l)) n).
  - destruct (Z.leb_spec (Z.of_nat (length l) - n) (Z.of_nat (length l))); [|lia].
    do 2 f_equal. lia.
  - replace (length l - Z.to_nat n)%nat with 0%nat by lia. by rewrite drop_0.
Qed.

Lemma last_n_last {A} (n : nat) (l : list A) (x : A) :
  (0 < n)%nat -> exists k, last_n n (l ++ [x]) = k ++ [x].
Proof.
  intros Hn. unfold last_n. rewrite length_app. simpl.
  rewrite drop_app_le by lia. by eexists.
Qed.


(** All equal to the first, or all equal to the last. *)
Lemma all_same (f : string) (rest k : list string) (x : string) :
  f :: rest = k ++ [x] ->
  forallb (fun h => bool_decide (h = f)) rest
  = forallb (fun h => bool_decide (h = x)) (f :: rest).
Proof.
  intros Heq. apply eq_true_iff_eq. rewrite !forallb_elem.
  setoid_rewrite bool_decide_eq_true. split.
  - intros Hall. assert (forall y, y ∈ f :: rest -> y = f) as Hf
      by (intros y [->|Hy]%elem_of_cons; [done|by apply Hall]).
    assert (x = f) as -> by (apply Hf; rewrite Heq; set_solver). exact Hf.
  - intros Hall y Hy. assert (f = x) as -> by (apply Hall; left). apply Hall. by right.
Qed.

Lemma message_refines agentID h b now content :
  breaker_inv agentID h b -> Forall (fun x => event_time x <= now) h ->
  refines agentID h b (MessageEvent now content).
Proof.
  intros Hi Hall. pose proof (inv_active _ _ _ Hi) as Hact.
  pose proof Hi as [Hc Hb Ha Hq Hcalls Herr Hdes Hsp Hh].
  set (e := MessageEvent now content). set (n := Z.to_nat (LoopIdenticalCount cfg)) in *.
  assert (0 < n)%nat as Hn by lia.
  assert (hashes_of (h ++ [e]) = hashes_of h ++ [message_hash sha256 content]) as Eh
    by (unfold hashes_of; by rewrite omap_app).
  assert (breaker_inv agentID (h ++ [e]) (with_hashes b (last_n n (hashes_of (h ++ [e]))))) as Hinv.
  { constructor; simpl; try done.
    - unfold tool_times. rewrite omap_skip by done. by apply windowed_weaken.
    - unfold fail_times. rewrite omap_skip by done. by apply windowed_weaken.
    - unfold destructive_calls. by rewrite omap_skip.
    - intros Hbud. unfold spends. rewrite omap_skip by done. by apply windowed_weaken, Hsp. }
  unfold refines, record, RecordMessage, verdict, e. rewrite Hact, Hc. cbn [event_time]. fold e. fold n.
  rewrite keep_last_spec, Hh by done. fold n.
  rewrite last_n_snoc, <- Eh by done.
  destruct (last_n_last n (hashes_of h) (message_hash sha256 content) Hn) as [k Hk].
  rewrite <- Eh in Hk. pose proof (last_n_length n (hashes_of (h ++ [e]))) as Hlen.
  destruct (last_n n (hashes_of (h ++ [e]))) as [|f rest] eqn:El; [by destruct k|].
  rewrite (all_same f rest k _ Hk).
  replace (LoopIdenticalCount cfg <=? count (f :: rest)) with (n <=? length (hashes_of (h ++ [e])))%nat.
  2: { unfold count. rewrite Hlen. apply eq_true_iff_eq. rewrite Z.leb_le, Nat.leb_le. lia. }
  destruct (n <=? _)%nat; cbn [andb]; [|by eexists _, _].
  destruct (forallb _ _); by eexists _, _.
Qed.

Lemma record_refines agentID h b e :
  breaker_inv agentID h b -> Forall (fun x => event_time x <= event_time e) h ->
  refines agentID h b e.
Proof.
  destruct e; simpl; intros; [by apply tool_refines|by apply spend_refines|by apply message_refines].
Qed.

Lemma ran_inv agentID hash h b : ran agentID hash h b -> breaker_inv agentID h b.
Proof.
  induction 1 as [|h b e b' _ IH Hall Hrec]; [by constructor|].
  destruct (record_refines _ _ _ e IH Hall) as (b1 & t & Hr & _ & Hinv).
  rewrite Hrec in Hr. injection Hr as <- <-. by apply Hinv.
Qed.
End spec.

(** * Properties *)

Section claims.
Context `{UnicodeCase} (sha256 : string -> string).

(** C17: The breaker implements its limits exactly: after any history of tool calls,
    costs and messages without a trip, in clock order, the next event trips the
    breaker if and only if it breaches a limit computed over the whole history (the
    calls of the last minute, the failures and the costs of their windows, the
    destructive calls so far, the last identical responses), with that limit's
    trigger, and it never panics. *)
Theorem breaker_refines_history cfg budget agentID hash h b e :
  Enabled cfg = true -> 0 < LoopIdenticalCount cfg ->
  ran sha256 cfg budget agentID hash h b ->
  Forall (fun x => event_time x <= event_time e) h ->
  exists b' t, record sha256 b e = Some (b', t) /\
    Trigger <$> t = verdict sha256 cfg budget h e.
Proof.
  intros He Hl Hr Hall. apply ran_inv in Hr; [|done|done].
  destruct (record_refines sha256 cfg budget He Hl _ _ _ e Hr Hall) as (b' & t & H1 & H2 & _).
  by eauto.
Qed.

Lemma inactive_record b e : inactive b = true -> record sha256 b e = Some (b, None).
Proof.
  intros Hi. destruct e; simpl; [unfold RecordToolCall|unfold RecordSpending|unfold RecordMessage];
    by rewrite Hi.
Qed.

(** A step of the manager, whatever is recorded. *)
Definition manager_record Unmarshal m config e : option (BreakerManager * option TripResult) :=
  match e with
  | ToolEvent now success destructive =>
    Some (ManagerRecordToolCall sha256 Unmarshal m config now success destructive)
  | SpendEvent now cost => Some (ManagerRecordSpending sha256 Unmarshal m config now cost)
  | MessageEvent now content => ManagerRecordMessage sha256 Unmarshal m config now content
  end.

Lemma manager_record_eq Unmarshal m config e :
  manager_record Unmarshal m config e =
  let '(b, m1) := GetOrCreate sha256 Unmarshal m config in
  r ← record sha256 b e; Some (commit m1 (ID config) r).
Proof.
  unfold manager_record, ManagerRecordToolCall, ManagerRecordSpending, ManagerRecordMessage.
  by destruct e, (GetOrCreate sha256 Unmarshal m config).
Qed.

(** What recording leaves of a breaker: the settings, and the trip if there is one. *)
Definition settled (b : Breaker) (r : Breaker * option TripResult) : Prop :=
  bConfig r.1 = bConfig b /\ bConfigHash r.1 = bConfigHash b /\
  forall t, r.2 = Some t -> tripped r.1 = Some t.

Lemma settled_trip b b' trigger now :
  bConfig b' = bConfig b -> bConfigHash b' = bConfigHash b -> settled b (trip b' trigger now).
Proof. intros Hc Hh. unfold trip, settled. simpl. naive_solver. Qed.

Lemma settled_none b b' :
  bConfig b' = bConfig b -> bConfigHash b' = bConfigHash b -> settled b (b', None).
Proof. done. Qed.

Lemma record_settled b e r : record sha256 b e = Some r -> settled b r.
Proof.
  destruct e as [now success destructive|now cost|now content]; simpl.
  - intros [= <-]. unfold RecordToolCall. destruct (inactive b); [done|].
    destruct (_ <? _); [by apply settled_trip|]. destruct success; simpl.
    + destruct destructive; [|by apply settled_none].
      destruct (_ <? _); [by apply settled_trip|by apply settled_none].
    + destruct (_ <=? _); [by apply settled_trip|].
      destruct destructive; [|by apply settled_none].
      destruct (_ <? _); [by apply settled_trip|by apply settled_none].
  - intros [= <-]. unfold RecordSpending. destruct (inactive b || _); [done|].
    destruct (f64_lt _ _); [by apply settled_trip|by apply settled_none].
  - unfold RecordMessage. destruct (inactive b); [by intros [= <-]|].
    destruct (keep_last _ _) as [hashes|]; [|done].
    destruct (_ <=? _); [|by intros [= <-]]. destruct hashes as [|f rest]; [done|].
    destruct (forallb _ _); intros [= <-]; [by apply settled_trip|by apply settled_none].
Qed.

(** A trip is reported once: when recording an event trips the breaker of an
    agent, the callback gets that trip, and no further event of the agent is
    reported until its breaker is removed or its breaker settings change. *)
Theorem trip_reported_once Unmarshal m config e m' t config' e' :
  manager_record Unmarshal m config e = Some (m', Some t) ->
  ID config' = ID config -> CircuitBreakerJSON config' = CircuitBreakerJSON config ->
  mgTrips m' = mgTrips m ++ [t] /\
  exists m'', manager_record Unmarshal m' config' e' = Some (m'', None) /\
    mgTrips m'' = mgTrips m'.
Proof.
  intros Hr Hid Hjson. rewrite manager_record_eq in Hr.
  destruct (GetOrCreate sha256 Unmarshal m config) as [b m1] eqn:Eg.
  assert (bConfigHash b = sha256 (CircuitBreakerJSON config) /\ mgTrips m1 = mgTrips m) as [Hh Ht].
  { unfold GetOrCreate in Eg. destruct (mgBreakers m !! ID config); simpl in Eg;
      [case_bool_decide|]; by simplify_eq/=. }
  destruct (record sha256 b e) as [[b' t']|] eqn:Er; simpl in Hr; [|done].
  unfold commit in Hr. simpl in Hr. injection Hr as <- ->.
  apply record_settled in Er as (_ & Hhash & Htr). simpl in Hhash. specialize (Htr t eq_refl).
  simpl in Htr. simpl. split; [by rewrite Ht|].
  rewrite manager_record_eq. unfold GetOrCreate. simpl.
  rewrite Hid, Hjson, lookup_insert_eq, bool_decide_eq_true_2 by congruence.
  rewrite inactive_record; [|unfold inactive; rewrite Htr; apply orb_true_r].
  simpl. eexists. split; [done|]. simpl. apply app_nil_r.
Qed.

(** Every breaker of the manager can be used without a panic. *)
Definition manager_ok (m : BreakerManager) : Prop :=
  forall id b, mgBreakers m !! id = Some b -> 0 < LoopIdenticalCount (bConfig b).

Lemma pickNonZero_pos a b : 0 < b -> 0 < pickNonZero a b.
Proof. unfold pickNonZero. destruct (Z.ltb_spec 0 a); lia. Qed.

Lemma ResolveConfig_pos Unmarshal config sys :
  let cfg := ResolveConfig Unmarshal config sys in
  0 < ErrorThreshold cfg /\ 0 < ErrorWindowMinutes cfg /\ 0 < SpendingVelocityPct cfg /\
  0 < SpendingWindowMinutes cfg /\ 0 < ActionRatePerMinute cfg /\ 0 < DestructiveLimit cfg /\
  0 < LoopIdenticalCount cfg.
Proof.
  simpl. repeat split;
    (match goal with |- context [?x <=? 0] => destruct (Z.leb_spec x 0) end;
     [by apply pickNonZero_pos|lia]).
Qed.

Lemma RecordMessage_some b now content :
  0 < LoopIdenticalCount (bConfig b) -> RecordMessage sha256 b now content <> None.
Proof.
  intros Hl. unfold RecordMessage. destruct (inactive b); [done|]. rewrite keep_last_spec by done.
  destruct (last_n_last (Z.to_nat (LoopIdenticalCount (bConfig b))) (messageHashes b)
    (message_hash sha256 content) ltac:(lia)) as [k ->].
  destruct (_ <=? _); [|done]. destruct k; simpl; [done|]. by destruct (forallb _ _).
Qed.

(** No stored or malformed settings can make the breaker panic: whatever the
    JSON decodes to, every limit in force is positive, and recording an event in a
    manager whose breakers are usable succeeds and keeps them usable. *)
Theorem breaker_settings_safe Unmarshal m config e :
  manager_ok m ->
  0 < ErrorThreshold (ResolveConfig Unmarshal config (mgDefaults m)) /\
  0 < ErrorWindowMinutes (ResolveConfig Unmarshal config (mgDefaults m)) /\
  0 < ActionRatePerMinute (ResolveConfig Unmarshal config (mgDefaults m)) /\
  exists m' t, manager_record Unmarshal m config e = Some (m', t) /\ manager_ok m'.
Proof.
  intros Hok. pose proof (ResolveConfig_pos Unmarshal config (mgDefaults m))
    as (H1 & H2 & _ & _ & H5 & _ & H7).
  split; [done|]. split; [done|]. split; [done|]. rewrite manager_record_eq.
  destruct (GetOrCreate sha256 Unmarshal m config) as [b m1] eqn:Eg.
  assert (0 < LoopIdenticalCount (bConfig b) /\ manager_ok m1) as [Hb Hm1].
  { unfold GetOrCreate in Eg. destruct (mgBreakers m !! ID config) as [b0|] eqn:El; simpl in Eg;
      [case_bool_decide|]; simplify_eq; (split; [try done|]); try done; try (by eapply Hok);
      intros id b' Hl; simpl in Hl; apply lookup_insert_Some in Hl as [[<- <-]|[_ Hl]]; try done;
      by eapply Hok. }
  assert (exists r, record sha256 b e = Some r) as [[b' t] Hr].
  { destruct e; simpl; [by eexists..|]. pose proof (RecordMessage_some b at_ content Hb) as Hs.
    destruct (RecordMessage sha256 b at_ content); [by eexists|done]. }
  rewrite Hr. simpl. eexists _, _. split; [done|].
  intros id b0 Hl. simpl in Hl. apply lookup_insert_Some in Hl as [[<- <-]|[_ Hl]].
  - apply record_settled in Hr as [Hc _]. simpl in Hc. by rewrite Hc.
  - by eapply Hm1.
Qed.
End claims.

(** When the breaker is on: without settings of its own an agent's breaker is on
    whatever the system defaults say; with settings, only what they decode to counts,
    so settings that do not mention it, or that do not parse, switch it off. *)
Theorem breaker_enablement Unmarshal config sys :
  Enabled (ResolveConfig Unmarshal config sys) =
  (if has_json (CircuitBreakerJSON config) then Enabled (Unmarshal (CircuitBreakerJSON config))
   else true).
Proof. unfold ResolveConfig. simpl. destruct (has_json _); [done|]. by destruct (Enabled sys). Qed.

(** Window arithmetic: up to 153722867 minutes a window reaches back exactly that
    far; above, the product of the 64-bit duration wraps, and one minute more makes
    the window start in the future. *)
Theorem window_bounds now n :
  0 < n <= 153722867 ->
  window_start now n = now - n * minute /\ now < window_start now (153722867 + 1).
Proof.
  intros Hn. unfold window_start, minute. split.
  - rewrite (wrap64_id (- n)) by (unfold in_int64, min_int64, max_int64; lia).
    rewrite wrap64_id by (unfold in_int64, min_int64, max_int64; lia). lia.
  - replace (wrap64 (wrap64 (- (153722867 + 1)) * (60 * 1000000000))) with 9223371993709551616;
      [lia|vm_compute; reflexivity].
Qed.

(** * Witnesses *)

Section witnesses.
#[local] Instance case : UnicodeCase := ascii_case.

Definition one_cent : float64 := f64_div (f64_of_Z 1) (f64_of_Z 100).

Definition demo_breaker : Breaker := NewBreaker "a1" DefaultCircuitBreakerConfig f64_zero "h".

(** Three identical responses, up to case and blanks, trip the default breaker. *)
Definition said (t : Z) (s : string) : BreakerEvent := MessageEvent t s.

Definition said_twice : Breaker :=
  with_hashes demo_breaker ["i am stuck"; "i am stuck"].

Lemma breaker_refines_history_witness :
  exists b' t, record (fun s => s) said_twice (said 3 "I am stuck ") = Some (b', t) /\
    Trigger <$> t = Some "loop_detection".
Proof.
  apply (breaker_refines_history (fun s => s) DefaultCircuitBreakerConfig f64_zero "a1" "h"
    [said 1 "I am stuck"; said 2 "i  am STUCK"] said_twice).
  - reflexivity.
  - reflexivity.
  - apply (ran_snoc _ _ _ _ _ [said 1 "I am stuck"] (with_hashes demo_breaker ["i am stuck"])).
    + apply (ran_snoc _ _ _ _ _ [] demo_breaker); [constructor|constructor|vm_compute; reflexivity].
    + repeat constructor. vm_compute. discriminate.
    + vm_compute. reflexivity.
  - repeat constructor; vm_compute; discriminate.
Defined.

Definition tripped_manager : BreakerManager :=
  mkBreakerManager {["a1" := NewBreaker "a1" (mkBreakerConfig true 1 10 50 5 30 5 3) f64_zero
    EmptyString]} zero_breaker_config [].

Definition failing : BreakerEvent := ToolEvent 7 false false.

Lemma trip_reported_once_witness :
  exists m' t, manager_record (fun s => s) (fun _ => zero_breaker_config) tripped_manager
      (plain_agent "a1" "reader") failing = Some (m', Some t) /\ mgTrips m' = [t].
Proof.
  destruct (manager_record (fun s => s) (fun _ => zero_breaker_config) tripped_manager
    (plain_agent "a1" "reader") failing) as [[m' [t|]]|] eqn:E;
    [|vm_compute in E; discriminate E|vm_compute in E; discriminate E].
  exists m', t. split; [reflexivity|].
  destruct (trip_reported_once (fun s => s) (fun _ => zero_breaker_config) tripped_manager
    (plain_agent "a1" "reader") failing m' t (plain_agent "a1" "reader") failing E
    eq_refl eq_refl) as [H _]. exact H.
Defined.

Lemma breaker_settings_safe_witness :
  exists m' t, manager_record (fun s => s) (fun _ => zero_breaker_config) NewBreakerManager
    (plain_agent "a1" "reader") (said 1 "hello") = Some (m', t) /\ manager_ok m'.
Proof.
  apply (breaker_settings_safe (fun s => s) (fun _ => zero_breaker_config) NewBreakerManager).
  intros id b H. vm_compute in H. discriminate H.
Defined.

Lemma window_bounds_witness : window_start 0 10 = - 600000000000.
Proof. destruct (window_bounds 0 10) as [H _]; [lia|]. exact H. Defined.
End witnesses.
