(* ===== verification/Lifecycle.v ===== *)
(** Agent lifecycle ([internal/core/agent.go], [lifecycle.go], [vacation.go], with
    [internal/router/slots.go] and the agent tables of the PostgreSQL store).

    A handler is a function on the state [Kyvik]: the tables, the map of running
    agents, the two global flags, the goroutines that were cancelled but have not
    ended yet, and the trace of calls made to other components.  A goroutine that is
    waited for ends within the handler that waits; one that is not (a kill, a stop
    that ran out of time) ends in a later [goroutine_exit].  A new goroutine marks
    itself running before its handler returns.  The database fails where the SQL does
    (a duplicate key, a missing row) and when the caller's context has ended. *)

From S2P Require Import Prelude GoString GoFloat Types KtpTypes KtpGate.

(** * Model slots *)

Record ModelSlot := mkModelSlot { slName : string; slProvider : string; slModel : string }.

Record RoutingConfig := mkRoutingConfig {
  rcSlots : list ModelSlot;
  rcDefaultSlot : string;
  rcClassifierSlot : string;
  rcAutoRoute : bool;
  rcTriggerPrefix : bool;
  rcFallbackSlot : string;
}.

Record ResolvedRouting := mkResolved { rrConfig : RoutingConfig; rrDefaultSlot : ModelSlot }.

(** [types.VacationState], less its time *)
Record VacationState := mkVacationState {
  vActive : bool;
  vActivatedBy : string;
  vMessage : string;
  vPreviousAgents : list string;
}.

(** [encoding/json] on the documents the lifecycle reads and writes. *)
Class Codecs := {
  UnmarshalSlots : string -> result string (list ModelSlot);
  UnmarshalRouting : string -> result string RoutingConfig;
  HeartbeatEnabled : string -> bool;       (* decodes and has Enabled set *)
  MarshalVacation : VacationState -> string;
  UnmarshalVacation : string -> result string VacationState;
}.

(** The errors of [router.ResolveSlots] *)
Inductive SlotError : Type :=
| InvalidRoutingJSON (e : string)
| InvalidSlotsJSON (e : string)
| NoSlots
| SlotNoName (i : nat)
| SlotNoProvider (name : string)
| SlotNoModel (name : string)
| DefaultSlotMissing (name : string).

Definition zero_routing : RoutingConfig := mkRoutingConfig [] EmptyString EmptyString false false EmptyString.

(** The lookup map of the slots: a later slot of the same name wins. *)
Definition slot_map (slots : list ModelSlot) : gmap string ModelSlot :=
  foldl (fun m s => <[slName s := s]> m) ∅ slots.

(** The validation loop, from slot [i] on: its first error. *)
Fixpoint slot_error (i : nat) (slots : list ModelSlot) : option SlotError :=
  match slots with
  | [] => None
  | s :: rest =>
    if bool_decide (slName s = EmptyString) then Some (SlotNoName i)
    else if bool_decide (slProvider s = EmptyString) then Some (SlotNoProvider (slName s))
    else if bool_decide (slModel s = EmptyString) then Some (SlotNoModel (slName s))
    else slot_error (S i) rest
  end.

(** [router.ResolveSlots] *)
Definition ResolveSlots `{Codecs} (config : AgentConfig) : result SlotError ResolvedRouting :=
  if bool_decide (ModelSlotsJSON config = EmptyString) then
    let slot := mkModelSlot "default" (Provider (ModelConf config)) (Model (ModelConf config)) in
    Ok (mkResolved (mkRoutingConfig [slot] "default" EmptyString false false EmptyString) slot)
  else
    let? rc := (if bool_decide (RoutingConfigJSON config = EmptyString) then Ok zero_routing
                else match UnmarshalRouting (RoutingConfigJSON config) with
                     | inl rc => Ok rc
                     | inr e => Err (InvalidRoutingJSON e)
                     end) in
    let? slots := (match UnmarshalSlots (ModelSlotsJSON config) with
                   | inl slots => Ok slots
                   | inr e => Err (InvalidSlotsJSON e)
                   end) in
    if bool_decide (slots = []) then Err NoSlots
    else match slot_error 0 slots with
    | Some e => Err e
    | None =>
      let name := if bool_decide (rcDefaultSlot rc = EmptyString) then "default"
                  else rcDefaultSlot rc in
      match slot_map slots !! name with
      | None => Err (DefaultSlotMissing name)
      | Some d =>
        Ok (mkResolved (mkRoutingConfig slots name (rcClassifierSlot rc) (rcAutoRoute rc)
                          (rcTriggerPrefix rc) (rcFallbackSlot rc)) d)
      end
    end.

(** * State *)

(** [AgentRunner], less its channels *)
Record AgentRunner := mkRunner { rnConfig : AgentConfig; rnStatus : AgentStatus }.

(** Calls that leave the lifecycle code, in the order they are made. *)
Inductive Effect : Type :=
| ProvisionKey (agentID : string)
| RevokeKey (agentID : string)
| QueueDequeue (agentID : string)
| QueueReplay (agentID : string)
| BusReplay (agentID : string)
| OutboxConsumer (agentID : string)
| QueueReset (agentID : string)
| QueueEnqueue (agentID : string) (content : string)
| InboxSend (agentID : string) (content : string)
| ProvisionChannel (channel agentID : string)
| DeprovisionChannel (channel agentID : string)
| RegisterHeartbeat (agentID : string)
| EnableHeartbeat (agentID : string)
| UnregisterHeartbeat (agentID : string)
| BreakerRemoved (agentID : string)
| AgentDataRemoved (store agentID : string)
| SubsystemStopped (name : string)
| Notified (kind agentID : string)
| Audited (agentID action : string).

Record Kyvik := mkKyvik {
  kStore : gmap string AgentConfig;
  kSystem : gmap string string;
  kRunning : gmap string AgentRunner;
  kExiting : list string;
  kEmergency : bool;
  kVacation : bool;
  kTrace : list Effect;
}.

(** The part of [cluster.Manager] a start consults. *)
Record Cluster := mkCluster {
  clIsLocal : string -> bool;
  clAssignment : string -> result string string;
  clRequest : string -> result string string;
  clNodeID : string;
}.

Inductive LifecycleError : Type :=
| ErrIDRequired
| ErrEmergencyStop
| ErrVacationModeActive
| ErrCluster (e : string)
| ErrHostAccess
| ErrSlots (e : SlotError)
| ErrProviderRequired
| ErrProviderUnavailable (p : string)
| ErrAgentAlreadyRunning (id : string)
| ErrAgentNotRunning (id : string)
| ErrNotFound (id : string)
| ErrDuplicate (id : string)
| ErrDeadline
| ErrVacationState (e : string)
| ErrAttempts (e : LifecycleError).

(** What the handlers find around them: the optional subsystems that are set, the
    registered model providers and channel adapters. *)
Record Deps := mkDeps {
  dHostAccess : string;
  dCluster : option Cluster;
  dModels : gset string;
  dQueue : bool;
  dChannels : list string;
  dProvisionOk : string -> bool;
  dScheduler : bool;
  dBreaker : bool;
  dNotifier : bool;
  dKeyProvisioner : bool;
  dBusAdapter : bool;                      (* the internal channel is the bus adapter *)
  dDataStores : list string;               (* skills, history, conversations, memory: those set *)
  dSubsystems : list string;               (* what [Shutdown] stops and closes, in order *)
  dErrorText : LifecycleError -> string;   (* [Error()] *)
}.

(** A handler's return: [None] is a nil error. *)
Definition Return : Type := (option LifecycleError * Kyvik)%type.

(** ** Updates *)

Section config_update.
Context (c : AgentConfig).

Definition with_states (d : DesiredState) (a : AgentStatus) (err : string) : AgentConfig :=
  mkAgentConfig (ID c) (Name c) (ModelConf c) (ModelSlotsJSON c) (RoutingConfigJSON c) (Template c)
    (Channels c) (Limits c) (ToolGrants c) (CapabilityGrants c) (SlackMode c) (DiscordMode c)
    (SecurityJSON c) (CircuitBreakerJSON c) (HeartbeatJSON c) (TeamID c) (HostPaths c)
    (HostFilesystem c) d a err.

Definition with_model (m : ModelConfig) : AgentConfig :=
  mkAgentConfig (ID c) (Name c) m (ModelSlotsJSON c) (RoutingConfigJSON c) (Template c)
    (Channels c) (Limits c) (ToolGrants c) (CapabilityGrants c) (SlackMode c) (DiscordMode c)
    (SecurityJSON c) (CircuitBreakerJSON c) (HeartbeatJSON c) (TeamID c) (HostPaths c)
    (HostFilesystem c) (Desired c) (Actual c) (LastError c).

(** The row [CreateAgent] and [UpdateAgent] write: empty fields get their defaults. *)
Definition stored_row : AgentConfig :=
  mkAgentConfig (ID c) (Name c) (ModelConf c) (ModelSlotsJSON c) (RoutingConfigJSON c) (Template c)
    (Channels c) (Limits c) (ToolGrants c) (CapabilityGrants c) (or_default (SlackMode c) "none")
    (or_default (DiscordMode c) "none") (or_default (SecurityJSON c) "{}")
    (or_default (CircuitBreakerJSON c) "{}") (HeartbeatJSON c) (TeamID c) (HostPaths c)
    (HostFilesystem c)
    (if bool_decide (Desired c = DesiredStateOther EmptyString) then DesiredStateStopped else Desired c)
    (if bool_decide (Actual c = AgentStatusOther EmptyString) then AgentStatusStopped else Actual c)
    (LastError c).
End config_update.

Section state_update.
Context (k : Kyvik).

Definition set_store (s : gmap string AgentConfig) : Kyvik :=
  mkKyvik s (kSystem k) (kRunning k) (kExiting k) (kEmergency k) (kVacation k) (kTrace k).
Definition set_system (s : gmap string string) : Kyvik :=
  mkKyvik (kStore k) s (kRunning k) (kExiting k) (kEmergency k) (kVacation k) (kTrace k).
Definition set_running (r : gmap string AgentRunner) : Kyvik :=
  mkKyvik (kStore k) (kSystem k) r (kExiting k) (kEmergency k) (kVacation k) (kTrace k).
Definition set_exiting (l : list string) : Kyvik :=
  mkKyvik (kStore k) (kSystem k) (kRunning k) l (kEmergency k) (kVacation k) (kTrace k).
Definition set_emergency (b : bool) : Kyvik :=
  mkKyvik (kStore k) (kSystem k) (kRunning k) (kExiting k) b (kVacation k) (kTrace k).
Definition set_vacation (b : bool) : Kyvik :=
  mkKyvik (kStore k) (kSystem k) (kRunning k) (kExiting k) (kEmergency k) b (kTrace k).
Definition calls (l : list Effect) : Kyvik :=
  mkKyvik (kStore k) (kSystem k) (kRunning k) (kExiting k) (kEmergency k) (kVacation k) (kTrace k ++ l).
End state_update.

(** * Store *)

(** [SetDesiredState] and [SetActualState] with their errors dropped, as every
    caller here does: an update of a missing row changes nothing. *)
Definition SetDesiredState (k : Kyvik) (id : string) (d : DesiredState) : Kyvik :=
  set_store k (alter (fun c => with_states c d (Actual c) (LastError c)) id (kStore k)).

Definition SetActualState (k : Kyvik) (id : string) (a : AgentStatus) (err : string) : Kyvik :=
  set_store k (alter (fun c => with_states c (Desired c) a err) id (kStore k)).

(** [PostgresStore.CreateAgent], [UpdateAgent] and [DeleteAgent] *)
Definition StoreCreateAgent (k : Kyvik) (c : AgentConfig) : Return :=
  match kStore k !! ID c with
  | Some _ => (Some (ErrDuplicate (ID c)), k)
  | None => (None, set_store k (<[ID c := stored_row c]> (kStore k)))
  end.

Definition StoreUpdateAgent (k : Kyvik) (c : AgentConfig) : Return :=
  match kStore k !! ID c with
  | None => (Some (ErrNotFound (ID c)), k)
  | Some _ => (None, set_store k (<[ID c := stored_row c]> (kStore k)))
  end.

Definition StoreDeleteAgent (k : Kyvik) (id : string) : Return :=
  match kStore k !! id with
  | None => (Some (ErrNotFound id), k)
  | Some _ => (None, set_store k (delete id (kStore k)))
  end.

(** [GetSystemState] and [SetSystemState] *)
Definition GetSystemState (k : Kyvik) (key : string) : string := default EmptyString (kSystem k !! key).

Definition SetSystemState (k : Kyvik) (key value : string) : Kyvik :=
  set_system k (<[key := value]> (kSystem k)).

Definition vacationStateKey : string := "vacation_mode".

(** * Handlers *)

Section handlers.
Context `{Codecs} (deps : Deps).

(** [hasHostAccessConfig] *)
Definition hasHostAccessConfig (c : AgentConfig) : bool :=
  match HostPaths c with
  | Some h => negb (bool_decide (HostRead h = [])) || negb (bool_decide (HostWrite h = []))
  | None => false
  end
  || match HostFilesystem c with
     | Some h => match Allowlist h with [] => false | _ => true end
     | None => false
     end.

(** The cluster test of [StartAgent]: [None] to go on, [Some] for its return. *)
Definition cluster_gate (id : string) : option (option LifecycleError) :=
  match dCluster deps with
  | None => None
  | Some cl =>
    if clIsLocal cl id then None
    else
      let assigned := match clAssignment cl id with
                      | inl n => if bool_decide (n = EmptyString) then clRequest cl id else Ok n
                      | inr _ => clRequest cl id
                      end in
      match assigned with
      | inr e => Some (Some (ErrCluster e))
      | inl n => if bool_decide (n = clNodeID cl) then None else Some None
      end
  end.

(** The provider of the default slot, or the error of the lookup. *)
Definition pick_provider (config : AgentConfig) : result LifecycleError ModelSlot :=
  match ResolveSlots config with
  | inr e => Err (ErrSlots e)
  | inl resolved =>
    let slot := rrDefaultSlot resolved in
    if bool_decide (slProvider slot = EmptyString) then Err ErrProviderRequired
    else if bool_decide (slProvider slot ∈ dModels deps) then Ok slot
    else Err (ErrProviderUnavailable (slProvider slot))
  end.

(** The backfill of [ModelConfig] from the default slot. *)
Definition backfill (config : AgentConfig) (slot : ModelSlot) : AgentConfig :=
  if bool_decide (ModelSlotsJSON config = EmptyString) then config
  else with_model config (mkModelConfig (slProvider slot) (slModel slot)).

(** [provisionChannels]: the adapters whose [ProvisionAgent] is called. *)
Definition provisioned (config : AgentConfig) : list string :=
  let registered ch := bool_decide (ch ∈ dChannels deps) in
  let legacy := List.filter registered (map ChannelType (Channels config)) in
  let done_ ch := bool_decide (ch ∈ legacy) && dProvisionOk deps ch in
  let mode m := bool_decide (m = "primary") || bool_decide (m = "dedicated") in
  legacy
  ++ (if negb (done_ "slack") && mode (SlackMode config) && registered "slack" then ["slack"] else [])
  ++ (if negb (done_ "discord") && mode (DiscordMode config) && registered "discord"
      then ["discord"] else [])
  ++ (if registered "internal" then ["internal"] else []).

Definition provisionChannels (k : Kyvik) (config : AgentConfig) : Kyvik :=
  calls k (map (fun ch => ProvisionChannel ch (ID config)) (provisioned config)).

(** [deprovisionChannels] *)
Definition deprovisionChannels (k : Kyvik) (id : string) : Kyvik :=
  calls k (map (fun ch => DeprovisionChannel ch id) (dChannels deps)).

Definition when (b : bool) (e : Effect) : list Effect := if b then [e] else [].

(** [runAgent] until it waits for messages: the goroutine marks itself running. *)
Definition goroutine_begin (k : Kyvik) (id : string) : Kyvik :=
  let k1 := set_running k (alter (fun r => mkRunner (rnConfig r) AgentStatusRunning) id (kRunning k)) in
  SetActualState k1 id AgentStatusRunning EmptyString.

(** The [ctx.Done] branch of [runAgentQueued] and [runAgentInbox]: the goroutine
    reads the desired state and leaves. *)
Definition goroutine_end (k : Kyvik) (id : string) : Kyvik :=
  let st := match kStore k !! id with
            | Some c => if bool_decide (Desired c = DesiredStateKilled) then AgentStatusKilled
                        else AgentStatusStopped
            | None => AgentStatusStopped
            end in
  SetActualState k id st EmptyString.

(** A cancelled goroutine that nobody waited for ends. *)
Definition goroutine_exit (k : Kyvik) (id : string) : Kyvik :=
  if bool_decide (id ∈ kExiting k)
  then goroutine_end (set_exiting k (remove_first id (kExiting k))) id else k.

(** The common end of [StartAgent] and [ResumeAgent], from the registration of the
    runner on; [hb] is the scheduler call for the heartbeat. *)
Definition launch (k : Kyvik) (id : string) (config : AgentConfig) (hb : string -> Effect)
    (action : string) : Kyvik :=
  let k1 := set_running k (<[id := mkRunner config AgentStatusStarting]> (kRunning k)) in
  let k2 := calls k1 (when (dQueue deps) (QueueDequeue id) ++ when (dQueue deps) (QueueReplay id)
    ++ when (dQueue deps && bool_decide ("internal" ∈ dChannels deps) && dBusAdapter deps)
         (BusReplay id)) in
  let k3 := goroutine_begin k2 id in
  let k4 := provisionChannels k3 config in
  calls k4 (when (negb (bool_decide (dChannels deps = []))) (OutboxConsumer id)
            ++ when (dScheduler deps && negb (bool_decide (HeartbeatJSON config = EmptyString))
                  && HeartbeatEnabled (HeartbeatJSON config)) (hb id)
            ++ [Audited id action]).

(** [StartAgent] *)
Definition StartAgent (k : Kyvik) (config : AgentConfig) : Return :=
  let id := ID config in
  if bool_decide (id = EmptyString) then (Some ErrIDRequired, k)
  else if kEmergency k then (Some ErrEmergencyStop, k)
  else if kVacation k then (Some ErrVacationModeActive, k)
  else match cluster_gate id with
  | Some r => (r, k)
  | None =>
    if bool_decide (ResolveAgentTier (Template config) = TierAdmin)
       && bool_decide (dHostAccess deps = "sandbox") && hasHostAccessConfig config
    then (Some ErrHostAccess, k)
    else match pick_provider config with
    | inr e => (Some e, k)
    | inl slot =>
      match kRunning k !! id with
      | Some _ => (Some (ErrAgentAlreadyRunning id), k)
      | None =>
        let c := with_states (backfill config slot) DesiredStateRunning AgentStatusStarting
                   (LastError config) in
        match (match StoreCreateAgent k c with
               | (None, k') => (None, k')
               | (Some e, k') => match StoreUpdateAgent k' c with
                                 | (None, k'') => (None, k'')
                                 | (Some _, k'') => (Some e, k'')
                                 end
               end) with
        | (Some e, k1) => (Some e, k1)
        | (None, k1) =>
          let k2 := calls k1 (when (dKeyProvisioner deps
                      && bool_decide (Provider (ModelConf c) = "openrouter")) (ProvisionKey id)) in
          (None, launch k2 id c RegisterHeartbeat "start")
        end
      end
    end
  end.

(** [StartLocalAgent], which the cluster calls on the node an agent is assigned to *)
Definition StartLocalAgent (k : Kyvik) (id : string) : Return :=
  match kStore k !! id with
  | None => (Some (ErrNotFound id), k)
  | Some config => StartAgent k config
  end.

(** [ResumeAgent] *)
Definition ResumeAgent (k : Kyvik) (id : string) : Return :=
  if kEmergency k then (Some ErrEmergencyStop, k)
  else if kVacation k then (Some ErrVacationModeActive, k)
  else match kStore k !! id with
  | None => (Some (ErrNotFound id), k)
  | Some config =>
    match pick_provider config with
    | inr e => (Some e, k)
    | inl slot =>
      let c := backfill config slot in
      let k1 := SetActualState (SetDesiredState k id DesiredStateRunning) id AgentStatusStarting
                  EmptyString in
      match kRunning k1 !! id with
      | Some _ => (Some (ErrAgentAlreadyRunning id), k1)
      | None => (None, launch k1 id c EnableHeartbeat "resume")
      end
    end
  end.

(** [stopAgentInternal]; [waited] is false when the caller's context ends before
    the goroutine does. *)
Definition stopAgentInternal (k : Kyvik) (id : string) (preserve waited : bool) : Return :=
  match kRunning k !! id with
  | None => (Some (ErrAgentNotRunning id), k)
  | Some _ =>
    let k1 := set_running k (delete id (kRunning k)) in
    if negb waited then (Some ErrDeadline, set_exiting k1 (kExiting k1 ++ [id]))
    else
      let k2 := goroutine_end k1 id in
      let k3 := calls k2 (when (dBreaker deps) (BreakerRemoved id)
                          ++ when (dScheduler deps) (UnregisterHeartbeat id)) in
      let k4 := deprovisionChannels k3 id in
      let k5 := if preserve then k4 else SetDesiredState k4 id DesiredStateStopped in
      (None, calls (SetActualState k5 id AgentStatusStopped EmptyString) [Audited id "stop"])
  end.

(** [StopAgent] *)
Definition StopAgent (k : Kyvik) (id : string) (waited : bool) : Return :=
  stopAgentInternal k id false waited.

(** [KillAgent] *)
Definition KillAgent (k : Kyvik) (id : string) : Return :=
  match kRunning k !! id with
  | None =>
    match kStore k !! id with
    | None => (Some (ErrNotFound id), k)
    | Some _ =>
      let k1 := SetActualState (SetDesiredState k id DesiredStateKilled) id AgentStatusKilled
                  EmptyString in
      (None, calls k1 [Audited id "agent_killed"])
    end
  | Some _ =>
    let k1 := set_running k (delete id (kRunning k)) in
    let k2 := set_exiting k1 (kExiting k1 ++ [id]) in
    let k3 := deprovisionChannels (calls k2 (when (dBreaker deps) (BreakerRemoved id))) id in
    let k4 := SetActualState (SetDesiredState k3 id DesiredStateKilled) id AgentStatusKilled
                EmptyString in
    (None, calls k4 (when (dQueue deps) (QueueReset id) ++ [Audited id "agent_killed"]
                     ++ when (dNotifier deps) (Notified "agent_killed" id)))
  end.

(** The loop of [KillAll], [ActivateVacationMode] and [Shutdown] over a snapshot:
    every element is handled, the first error is returned. *)
Definition first_error (a b : option LifecycleError) : option LifecycleError :=
  match a with Some e => Some e | None => b end.

Fixpoint for_each (f : Kyvik -> string -> Return) (k : Kyvik) (ids : list string) : Return :=
  match ids with
  | [] => (None, k)
  | id :: ids' =>
    let '(e, k1) := f k id in
    let '(e', k2) := for_each f k1 ids' in
    (first_error e e', k2)
  end.

Definition running_ids (k : Kyvik) : list string := map fst (map_to_list (kRunning k)).

(** [KillAll] and [ClearEmergencyStop] *)
Definition KillAll (k : Kyvik) : Return :=
  let k1 := set_emergency k true in
  let '(e, k2) := for_each KillAgent k1 (running_ids k1) in
  (e, calls k2 ([Audited EmptyString "kill_all"] ++ when (dNotifier deps) (Notified "kill_all" EmptyString))).

Definition ClearEmergencyStop (k : Kyvik) : Return :=
  (None, calls (set_emergency k false) [Audited EmptyString "emergency_stop_cleared"]).

(** [QuarantineAgent]: when the context ends during the stop, the write after it fails. *)
Definition QuarantineAgent (k : Kyvik) (id : string) (waited : bool) : Return :=
  let k1 := SetDesiredState k id DesiredStateQuarantined in
  let k2 := match kRunning k1 !! id with
            | Some _ => (stopAgentInternal k1 id true waited).2
            | None => k1
            end in
  let live := match kRunning k1 !! id with Some _ => waited | None => true end in
  let k3 := if live then SetActualState k2 id AgentStatusQuarantined EmptyString else k2 in
  (None, calls k3 [Audited id "quarantine"]).

(** [UpdateAgent] *)
Definition UpdateAgent (k : Kyvik) (config : AgentConfig) (waited : bool) : Return :=
  let '(stopped, k1) := match kRunning k !! ID config with
                        | Some _ => StopAgent k (ID config) waited
                        | None => (None, k)
                        end in
  match stopped with
  | Some e => (Some e, k1)
  | None => match StoreUpdateAgent k1 config with
            | (Some e, k2) => (Some e, k2)
            | (None, k2) => (None, calls k2 [Audited (ID config) "update"])
            end
  end.

(** [DeleteAgent] *)
Definition DeleteAgent (k : Kyvik) (id : string) (waited : bool) : Return :=
  let '(stopped, k1) := match kRunning k !! id with
                        | Some _ => StopAgent k id waited
                        | None => (None, k)
                        end in
  match stopped with
  | Some e => (Some e, k1)
  | None =>
    let k2 := calls k1 (when (dKeyProvisioner deps) (RevokeKey id)) in
    match StoreDeleteAgent k2 id with
    | (Some e, k3) => (Some e, k3)
    | (None, k3) => (None, calls k3 (when (dScheduler deps) (AgentDataRemoved "schedules" id)
                                    ++ map (fun st => AgentDataRemoved st id) (dDataStores deps)
                                    ++ [Audited id "delete"]))
    end
  end.

(** The stops of a loop under one context: the goroutines of the first [n] agents end
    in time, then the context has ended. *)
Definition stop_each (preserve : bool) (n : nat) (k : Kyvik) (ids : list string) : Return :=
  let '(e, k1) := for_each (fun k id => stopAgentInternal k id preserve true) k (take n ids) in
  let '(e', k2) := for_each (fun k id => stopAgentInternal k id preserve false) k1 (drop n ids) in
  (first_error e e', k2).

(** [Shutdown], and the process that starts next on the same database *)
Definition Shutdown (k : Kyvik) (n : nat) : Return :=
  let '(e, k1) := stop_each true n k (running_ids k) in
  (e, calls k1 (map SubsystemStopped (dSubsystems deps))).

Definition Restart (k : Kyvik) : Kyvik := mkKyvik (kStore k) (kSystem k) ∅ [] false false [].

(** ** Vacation mode *)

(** [GetVacationState] *)
Definition GetVacationState (k : Kyvik) : result LifecycleError VacationState :=
  let raw := GetSystemState k vacationStateKey in
  if bool_decide (raw = EmptyString) then Ok (mkVacationState false EmptyString EmptyString [])
  else match UnmarshalVacation raw with inl s => Ok s | inr e => Err (ErrVacationState e) end.

(** [LoadVacationState] *)
Definition LoadVacationState (k : Kyvik) : Return :=
  match GetVacationState k with
  | inr e => (Some e, k)
  | inl s => (None, set_vacation k (vActive s))
  end.

(** [ActivateVacationMode] *)
Definition ActivateVacationMode (k : Kyvik) (by_ message : string) (n : nat) : Return :=
  let ids := running_ids k in
  let k1 := SetSystemState k vacationStateKey (MarshalVacation (mkVacationState true by_ message ids)) in
  let k2 := set_vacation k1 true in
  let '(e, k3) := stop_each false n k2 ids in
  (e, calls k3 ([Audited EmptyString "vacation_mode_activated"]
                ++ when (dNotifier deps) (Notified "vacation_mode" EmptyString))).

(** [DeactivateVacationMode] *)
Definition DeactivateVacationMode (k : Kyvik) : Return :=
  match GetVacationState k with
  | inr e => (Some e, k)
  | inl s =>
    let k1 := SetSystemState (set_vacation k false) vacationStateKey EmptyString in
    let '(e, k2) := for_each ResumeAgent k1 (vPreviousAgents s) in
    (e, calls k2 ([Audited EmptyString "vacation_mode_deactivated"]
                  ++ when (dNotifier deps) (Notified "vacation_mode" EmptyString)))
  end.

(** ** Reconciliation at startup *)

(** [reconcileStart]: attempts with back-off; [fuel] counts the attempts left. *)
Fixpoint resume_attempts (fuel : nat) (k : Kyvik) (id : string) : Return :=
  match ResumeAgent k id with
  | (None, k1) => (None, k1)
  | (Some e, k1) => match fuel with
                    | S (S _ as f) => resume_attempts f k1 id
                    | _ => (Some e, k1)
                    end
  end.

Definition maxAttempts : nat := 5.

Definition reconcileStart (k : Kyvik) (id : string) : Return :=
  match resume_attempts maxAttempts k id with
  | (None, k1) => (None, k1)
  | (Some e, k1) =>
    let k2 := SetActualState k1 id AgentStatusError (dErrorText deps e) in
    (Some (ErrAttempts e), calls k2 (when (dNotifier deps) (Notified "agent_error" id)))
  end.

(** The first loop of [Reconcile], for the row [a] read at the start. *)
Definition reset_stale (k : Kyvik) (a : AgentConfig) : Kyvik :=
  if bool_decide (Actual a = AgentStatusRunning) || bool_decide (Actual a = AgentStatusStarting)
  then SetActualState k (ID a) (if bool_decide (Desired a = DesiredStateKilled)
                                then AgentStatusKilled else AgentStatusStopped) EmptyString
  else k.

(** The second loop. *)
Definition reconcile_one (k : Kyvik) (a : AgentConfig) : Kyvik :=
  match Desired a with
  | DesiredStateRunning =>
    if kVacation k then k
    else match kRunning k !! ID a with
         | Some _ => k
         | None => (reconcileStart k (ID a)).2
         end
  | DesiredStateQuarantined => SetActualState k (ID a) AgentStatusQuarantined EmptyString
  | DesiredStateKilled => SetActualState k (ID a) AgentStatusKilled EmptyString
  | _ => k
  end.

(** [Reconcile]: a failure to load the vacation state is only logged. *)
Definition Reconcile (k : Kyvik) : Kyvik :=
  let k1 := (LoadVacationState k).2 in
  let rows := map snd (map_to_list (kStore k1)) in
  foldl reconcile_one (foldl reset_stale k1 rows) rows.

(** ** Status and messages *)

(** [GetAgentStatus] *)
Definition GetAgentStatus (k : Kyvik) (id : string) : AgentStatus :=
  match kRunning k !! id with
  | Some r => rnStatus r
  | None => match kStore k !! id with Some c => Actual c | None => AgentStatusStopped end
  end.

(** [SendMessage]; [room] is false when the inbox is full until the context ends. *)
Definition SendMessage (k : Kyvik) (id content : string) (room : bool) : Return :=
  match kRunning k !! id with
  | Some _ => if dQueue deps then (None, calls k [QueueEnqueue id content])
              else if room then (None, calls k [InboxSend id content])
              else (Some ErrDeadline, k)
  | None =>
    if dQueue deps then
      match kStore k !! id with
      | Some c => if bool_decide (Desired c = DesiredStateQuarantined)
                  then (None, calls k [QueueEnqueue id content])
                  else (Some (ErrAgentNotRunning id), k)
      | None => (Some (ErrAgentNotRunning id), k)
      end
    else (Some (ErrAgentNotRunning id), k)
  end.
End handlers.

(** * Histories *)

Inductive Op : Type :=
| OpStart (c : AgentConfig)
| OpStartLocal (id : string)
| OpCreate (c : AgentConfig)
| OpResume (id : string)
| OpStop (id : string) (waited : bool)
| OpKill (id : string)
| OpKillAll
| OpClearEmergency
| OpQuarantine (id : string) (waited : bool)
| OpUpdate (c : AgentConfig) (waited : bool)
| OpDelete (id : string) (waited : bool)
| OpActivateVacation (by_ message : string) (n : nat)
| OpDeactivateVacation
| OpReconcile
| OpSend (id content : string) (room : bool)
| OpShutdown (n : nat)
| OpRestart
| OpGoroutineExit (id : string).

Section histories.
Context `{Codecs} (deps : Deps).

Definition run_op (k : Kyvik) (op : Op) : Kyvik :=
  match op with
  | OpStart c => (StartAgent deps k c).2
  | OpStartLocal id => (StartLocalAgent deps k id).2
  | OpCreate c => (StoreCreateAgent k c).2
  | OpResume id => (ResumeAgent deps k id).2
  | OpStop id w => (StopAgent deps k id w).2
  | OpKill id => (KillAgent deps k id).2
  | OpKillAll => (KillAll deps k).2
  | OpClearEmergency => (ClearEmergencyStop k).2
  | OpQuarantine id w => (QuarantineAgent deps k id w).2
  | OpUpdate c w => (UpdateAgent deps k c w).2
  | OpDelete id w => (DeleteAgent deps k id w).2
  | OpActivateVacation b m w => (ActivateVacationMode deps k b m w).2
  | OpDeactivateVacation => (DeactivateVacationMode deps k).2
  | OpReconcile => Reconcile deps k
  | OpSend id c b => (SendMessage deps k id c b).2
  | OpShutdown n => (Shutdown deps k n).2
  | OpRestart => Restart k
  | OpGoroutineExit id => goroutine_exit k id
  end.

Definition run_ops (k : Kyvik) (ops : list Op) : Kyvik := foldl run_op k ops.

(** ** Invariant *)

(** Rows are stored under their IDs, and every running agent has a row that says
    it is meant to run. *)
Record lifecycle_wf (k : Kyvik) : Prop := {
  wf_keys id c : kStore k !! id = Some c -> ID c = id;
  wf_running id r : kRunning k !! id = Some r ->
    exists c, kStore k !! id = Some c /\ Desired c = DesiredStateRunning;
}.

(** Changes of state columns other than the desired state of a running agent. *)
Lemma alter_wf k id f running :
  lifecycle_wf k -> (forall c, ID (f c) = ID c) ->
  (forall i r, running !! i = Some r ->
     exists c, kStore k !! i = Some c /\
       Desired (if bool_decide (i = id) then f c else c) = DesiredStateRunning) ->
  lifecycle_wf (mkKyvik (alter f id (kStore k)) (kSystem k) running (kExiting k) (kEmergency k)
    (kVacation k) (kTrace k)).
Proof.
  intros [Hk Hr] Hid Hrun. constructor; simpl.
  - intros i c. rewrite lookup_alter_Some. intros [(-> & c' & Hl & ->)|(_ & Hl)]; [|by eapply Hk].
    rewrite Hid. by eapply Hk.
  - intros i r Hi. destruct (Hrun i r Hi) as (c & Hl & Hd). case_bool_decide as E.
    + subst i. exists (f c). by rewrite lookup_alter_eq, Hl.
    + exists c. by rewrite lookup_alter_ne.
Qed.

Lemma wf_ext k k' :
  kStore k' = kStore k -> kRunning k' = kRunning k -> lifecycle_wf k -> lifecycle_wf k'.
Proof. intros Hs Hr [H1 H2]. constructor; [rewrite Hs|rewrite Hs, Hr]; done. Qed.

Lemma wf_sub k k' :
  kStore k' = kStore k -> kRunning k' ⊆ kRunning k -> lifecycle_wf k -> lifecycle_wf k'.
Proof.
  intros Hs Hr [H1 H2]. constructor; rewrite Hs; [done|]. intros id r Hl.
  eapply H2, lookup_weaken; done.
Qed.

Lemma actual_wf k id a e : lifecycle_wf k -> lifecycle_wf (SetActualState k id a e).
Proof.
  intros Hwf. apply alter_wf; [done|done|]. intros i r Hi.
  destruct (wf_running _ Hwf _ _ Hi) as (c & Hl & Hd). exists c. split; [done|].
  by case_bool_decide.
Qed.

Lemma desired_wf k id d :
  lifecycle_wf k -> (d = DesiredStateRunning \/ kRunning k !! id = None) ->
  lifecycle_wf (SetDesiredState k id d).
Proof.
  intros Hwf Hd. apply alter_wf; [done|done|]. intros i r Hi.
  destruct (wf_running _ Hwf _ _ Hi) as (c & Hl & Hdes). exists c. split; [done|].
  case_bool_decide as E; [|done]. simpl. destruct Hd as [->|Hn]; [done|]. congruence.
Qed.

Lemma end_wf k id : lifecycle_wf k -> lifecycle_wf (goroutine_end k id).
Proof. apply actual_wf. Qed.

Lemma exit_wf k id : lifecycle_wf k -> lifecycle_wf (goroutine_exit k id).
Proof.
  intros Hwf. unfold goroutine_exit. case_bool_decide; [|done]. apply end_wf.
  by apply (wf_ext k).
Qed.

Lemma launch_wf k id config hb action :
  lifecycle_wf k -> (exists c, kStore k !! id = Some c /\ Desired c = DesiredStateRunning) ->
  lifecycle_wf (launch deps k id config hb action).
Proof.
  intros Hwf (c & Hc & Hd). unfold launch, provisionChannels, goroutine_begin.
  match goal with |- lifecycle_wf (calls (calls ?x _) _) => apply (wf_ext x); [done|done|] end.
  apply actual_wf. destruct Hwf as [H1 H2]. constructor; simpl; [done|].
  intros i r Hi. apply lookup_alter_Some in Hi as [(-> & r' & _ & _)|(Hne & Hi)]; [by eauto|].
  rewrite lookup_insert_ne in Hi by done. by eapply H2.
Qed.

Lemma delete_running_wf k id : lifecycle_wf k -> lifecycle_wf (set_running k (delete id (kRunning k))).
Proof. apply wf_sub; [done|]. apply delete_subseteq. Qed.

Lemma stop_wf k id preserve waited :
  lifecycle_wf k -> lifecycle_wf (stopAgentInternal deps k id preserve waited).2.
Proof.
  intros Hwf. unfold stopAgentInternal. destruct (kRunning k !! id) as [r|]; [|done].
  pose proof (delete_running_wf k id Hwf) as Hd. set (k1 := set_running _ _) in *.
  assert (kRunning k1 !! id = None) as Hn by (apply lookup_delete_eq).
  destruct waited; simpl; [|by apply (wf_ext k1)].
  match goal with |- lifecycle_wf (calls ?x _) => apply (wf_ext x); [done|done|] end.
  apply actual_wf.
  assert (lifecycle_wf (deprovisionChannels deps
    (calls (goroutine_end k1 id) (when (dBreaker deps) (BreakerRemoved id)
      ++ when (dScheduler deps) (UnregisterHeartbeat id))) id)) as H4.
  { apply (wf_ext (goroutine_end k1 id)); [done|done|by apply end_wf]. }
  destruct preserve; [done|]. apply desired_wf; [done|]. right. exact Hn.
Qed.

Lemma stop_not_running k id preserve waited e k' :
  stopAgentInternal deps k id preserve waited = (e, k') -> kRunning k' !! id = None.
Proof.
  unfold stopAgentInternal. destruct (kRunning k !! id) eqn:E; [|by intros [= _ <-]].
  destruct waited; simpl; [destruct preserve|]; intros [= _ <-]; apply lookup_delete_eq.
Qed.

(** Writing the row of an agent that is not running, or one that says running. *)
Lemma insert_row_wf k c :
  lifecycle_wf k -> (kRunning k !! ID c = None \/ Desired c = DesiredStateRunning) ->
  lifecycle_wf (set_store k (<[ID c := stored_row c]> (kStore k))).
Proof.
  intros [H1 H2] Hc. constructor; simpl.
  - intros i x. rewrite lookup_insert_Some. intros [[<- <-]|[_ Hl]]; [done|by eapply H1].
  - intros i r Hi. destruct (decide (i = ID c)) as [->|Hne].
    + exists (stored_row c). rewrite lookup_insert_eq. split; [done|].
      destruct Hc as [Hn|Hd]; [congruence|]. simpl. rewrite Hd. by rewrite bool_decide_eq_false_2.
    + rewrite lookup_insert_ne by done. by eapply H2.
Qed.

Lemma create_wf k c : lifecycle_wf k -> lifecycle_wf (StoreCreateAgent k c).2.
Proof.
  intros Hwf. unfold StoreCreateAgent. destruct (kStore k !! ID c) eqn:E; [done|].
  apply insert_row_wf; [done|]. left. destruct (kRunning k !! ID c) eqn:Er; [|done].
  apply (wf_running _ Hwf) in Er as (x & Hx & _). congruence.
Qed.

Lemma start_wf k c : lifecycle_wf k -> lifecycle_wf (StartAgent deps k c).2.
Proof.
  intros Hwf. unfold StartAgent.
  case_bool_decide; [done|]. destruct (kEmergency k); [done|]. destruct (kVacation k); [done|].
  destruct (cluster_gate deps (ID c)); [done|]. destruct (_ && _ && _); [done|].
  destruct (pick_provider deps c) as [slot|]; [|done].
  destruct (kRunning k !! ID c) eqn:Er; [done|].
  set (c' := with_states _ _ _ _). assert (ID c' = ID c) as Hid.
  { unfold c', backfill. by case_bool_decide. }
  unfold StoreCreateAgent, StoreUpdateAgent. rewrite Hid.
  assert (lifecycle_wf (set_store k (<[ID c := stored_row c']> (kStore k)))) as Hins.
  { rewrite <- Hid. apply insert_row_wf; [done|]. by right. }
  destruct (kStore k !! ID c) eqn:Es; [rewrite Es|]; simpl; apply launch_wf;
    try (eapply wf_ext; [..|exact Hins]; done);
    exists (stored_row c'); (split; [simpl; by rewrite lookup_insert_eq|]); reflexivity.
Qed.

Lemma resume_wf k id : lifecycle_wf k -> lifecycle_wf (ResumeAgent deps k id).2.
Proof.
  intros Hwf. unfold ResumeAgent. destruct (kEmergency k); [done|]. destruct (kVacation k); [done|].
  destruct (kStore k !! id) as [c|] eqn:Es; [|done].
  destruct (pick_provider deps c) as [slot|]; [|done].
  set (k1 := SetActualState _ _ _ _).
  assert (lifecycle_wf k1) as H1 by (apply actual_wf, desired_wf; [done|by left]).
  destruct (kRunning k1 !! id); [done|]. apply launch_wf; [done|].
  eexists. subst k1. simpl. rewrite !lookup_alter_eq, Es. by split.
Qed.

Lemma kill_wf k id : lifecycle_wf k -> lifecycle_wf (KillAgent deps k id).2.
Proof.
  intros Hwf. unfold KillAgent. destruct (kRunning k !! id) as [r|] eqn:Er.
  - pose proof (delete_running_wf k id Hwf) as Hd.
    set (k1 := set_running k (delete id (kRunning k))) in *.
    set (k3 := deprovisionChannels _ _ _). set (k4 := SetActualState _ _ _ _).
    apply (wf_ext k4); [done|done|]. apply actual_wf, desired_wf.
    + by apply (wf_ext k1).
    + right. apply lookup_delete_eq.
  - destruct (kStore k !! id); [|done]. set (k1 := SetActualState _ _ _ _).
    apply (wf_ext k1); [done|done|]. apply actual_wf, desired_wf; [done|by right].
Qed.

Lemma for_each_wf f k ids :
  (forall k id, lifecycle_wf k -> lifecycle_wf (f k id).2) ->
  lifecycle_wf k -> lifecycle_wf (for_each f k ids).2.
Proof.
  intros Hf. revert k. induction ids as [|id ids IH]; intros k Hwf; simpl; [done|].
  pose proof (Hf k id Hwf) as H1. destruct (f k id) as [e k1]. simpl in H1.
  pose proof (IH k1 H1) as H2. by destruct (for_each f k1 ids).
Qed.

Lemma quarantine_wf k id w : lifecycle_wf k -> lifecycle_wf (QuarantineAgent deps k id w).2.
Proof.
  intros Hwf. unfold QuarantineAgent.
  match goal with |- lifecycle_wf (_, calls ?x _).2 => apply (wf_ext x); [done|done|] end.
  match goal with |- lifecycle_wf (if ?b then SetActualState ?x _ _ _ else _) =>
    cut (lifecycle_wf x); [destruct b; [apply actual_wf|done]|] end.
  simpl. destruct (kRunning k !! id) as [r|] eqn:Er.
  2: { apply desired_wf; [done|by right]. }
  (* the runner leaves the map before the row could contradict it *)
  unfold stopAgentInternal. simpl. rewrite Er.
  assert (lifecycle_wf (set_running (SetDesiredState k id DesiredStateQuarantined)
    (delete id (kRunning k)))) as Hd.
  { apply (alter_wf k); [done|done|]. intros i x Hi. apply lookup_delete_Some in Hi as [Hne Hi].
    apply (wf_running _ Hwf) in Hi as (c & Hl & Hdes). exists c. split; [done|].
    rewrite bool_decide_eq_false_2 by done. done. }
  destruct w; simpl; [|eapply wf_ext; [..|exact Hd]; done].
  match goal with |- lifecycle_wf (calls ?x _) => apply (wf_ext x); [done|done|] end.
  apply actual_wf. eapply wf_ext; [..|apply (end_wf _ id Hd)]; done.
Qed.

Lemma update_wf k c w : lifecycle_wf k -> lifecycle_wf (UpdateAgent deps k c w).2.
Proof.
  intros Hwf. unfold UpdateAgent.
  assert (forall k1, lifecycle_wf k1 -> kRunning k1 !! ID c = None ->
    lifecycle_wf (match StoreUpdateAgent k1 c with
                  | (Some e, k2) => (Some e, k2)
                  | (None, k2) => (None, calls k2 [Audited (ID c) "update"])
                  end).2) as Hupd.
  { intros k1 H1 Hn. unfold StoreUpdateAgent. destruct (kStore k1 !! ID c); [|done]. simpl.
    eapply wf_ext; [..|apply (insert_row_wf k1 c H1); by left]; done. }
  destruct (kRunning k !! ID c) as [r|] eqn:Er; [|by apply Hupd].
  pose proof (stop_wf k (ID c) false w Hwf) as Hs. unfold StopAgent.
  destruct (stopAgentInternal deps k (ID c) false w) as [e k1] eqn:Est. simpl in Hs.
  destruct e; [done|]. apply Hupd; [done|]. by apply stop_not_running in Est.
Qed.

Lemma delete_wf k id w : lifecycle_wf k -> lifecycle_wf (DeleteAgent deps k id w).2.
Proof.
  intros Hwf. unfold DeleteAgent.
  assert (forall k1, lifecycle_wf k1 -> kRunning k1 !! id = None ->
    lifecycle_wf (match StoreDeleteAgent (calls k1 (when (dKeyProvisioner deps) (RevokeKey id))) id with
                  | (Some e, k3) => (Some e, k3)
                  | (None, k3) => (None, calls k3 (when (dScheduler deps) (AgentDataRemoved "schedules" id)
                                    ++ map (fun st => AgentDataRemoved st id) (dDataStores deps)
                                    ++ [Audited id "delete"]))
                  end).2) as Hdel.
  { intros k1 [H1 H2] Hn. unfold StoreDeleteAgent. simpl.
    destruct (kStore k1 !! id); simpl; [|by apply (wf_ext k1)]. constructor; simpl.
    - intros i c. rewrite lookup_delete_Some. intros [_ Hl]. by eapply H1.
    - intros i r Hi. destruct (H2 i r Hi) as (c & Hl & Hd). exists c. split; [|done].
      rewrite lookup_delete_ne; [done|]. intros ->. congruence. }
  destruct (kRunning k !! id) as [r|] eqn:Er; [|by apply Hdel].
  pose proof (stop_wf k id false w Hwf) as Hs. unfold StopAgent.
  destruct (stopAgentInternal deps k id false w) as [e k1] eqn:Est. simpl in Hs.
  destruct e; [done|]. apply Hdel; [done|]. by apply stop_not_running in Est.
Qed.

Lemma stop_each_wf preserve n k ids :
  lifecycle_wf k -> lifecycle_wf (stop_each deps preserve n k ids).2.
Proof.
  intros Hwf. unfold stop_each.
  pose proof (for_each_wf _ k (take n ids) (fun k id => stop_wf k id preserve true) Hwf) as H1.
  destruct (for_each _ _ _) as [e k1]. simpl in H1.
  pose proof (for_each_wf _ k1 (drop n ids) (fun k id => stop_wf k id preserve false) H1) as H2.
  by destruct (for_each _ _ _).
Qed.

Lemma shutdown_wf k n : lifecycle_wf k -> lifecycle_wf (Shutdown deps k n).2.
Proof.
  intros Hwf. unfold Shutdown. pose proof (stop_each_wf true n k (running_ids k) Hwf) as H1.
  destruct (stop_each _ _ _ _) as [e k1]. by apply (wf_ext k1).
Qed.

Lemma restart_wf k : lifecycle_wf k -> lifecycle_wf (Restart k).
Proof. apply wf_sub; [done|]. apply map_empty_subseteq. Qed.

Lemma activate_wf k b m n : lifecycle_wf k -> lifecycle_wf (ActivateVacationMode deps k b m n).2.
Proof.
  intros Hwf. unfold ActivateVacationMode. set (k2 := set_vacation _ _).
  assert (lifecycle_wf k2) as H2 by (by apply (wf_ext k)).
  pose proof (stop_each_wf false n k2 (running_ids k) H2) as H3.
  destruct (stop_each _ _ _ _) as [e k3]. simpl in *. by apply (wf_ext k3).
Qed.

Lemma deactivate_wf k : lifecycle_wf k -> lifecycle_wf (DeactivateVacationMode deps k).2.
Proof.
  intros Hwf. unfold DeactivateVacationMode. destruct (GetVacationState k) as [st|]; [|done].
  set (k1 := SetSystemState _ _ _). assert (lifecycle_wf k1) as H1 by (by apply (wf_ext k)).
  pose proof (for_each_wf (ResumeAgent deps) k1 (vPreviousAgents st) resume_wf H1) as H2.
  destruct (for_each _ _ _) as [e k2]. simpl in *. by apply (wf_ext k2).
Qed.

Lemma attempts_wf fuel k id : lifecycle_wf k -> lifecycle_wf (resume_attempts deps fuel k id).2.
Proof.
  revert k. induction fuel as [|fuel IH]; intros k Hwf; simpl; pose proof (resume_wf k id Hwf) as H1;
    destruct (ResumeAgent deps k id) as [[e|] k1]; try done.
  destruct fuel; [done|]. by apply IH.
Qed.

Lemma reconcile_one_wf k a : lifecycle_wf k -> lifecycle_wf (reconcile_one deps k a).
Proof.
  intros Hwf. unfold reconcile_one. destruct (Desired a); try done; try (by apply actual_wf).
  destruct (kVacation k); [done|]. destruct (kRunning k !! ID a); [done|].
  unfold reconcileStart. pose proof (attempts_wf maxAttempts k (ID a) Hwf) as H1.
  destruct (resume_attempts deps maxAttempts k (ID a)) as [[e|] k1]; [|done]. simpl in *.
  match goal with |- lifecycle_wf (calls ?x _) => apply (wf_ext x); [done|done|] end.
  by apply actual_wf.
Qed.

Lemma foldl_wf {A} (f : Kyvik -> A -> Kyvik) (l : list A) k :
  (forall k a, lifecycle_wf k -> lifecycle_wf (f k a)) -> lifecycle_wf k ->
  lifecycle_wf (foldl f k l).
Proof. intros Hf. revert k. induction l as [|a l IH]; intros k Hwf; simpl; [done|]. by apply IH, Hf. Qed.

Lemma reconcile_wf k : lifecycle_wf k -> lifecycle_wf (Reconcile deps k).
Proof.
  intros Hwf. unfold Reconcile. apply foldl_wf; [apply reconcile_one_wf|]. apply foldl_wf.
  - intros k' a H'. unfold reset_stale. destruct (_ || _); [|done]. by apply actual_wf.
  - unfold LoadVacationState. destruct (GetVacationState k); [|done]. by apply (wf_ext k).
Qed.

Lemma run_op_wf k op : lifecycle_wf k -> lifecycle_wf (run_op k op).
Proof.
  intros Hwf. destruct op; simpl.
  - by apply start_wf.
  - unfold StartLocalAgent. destruct (kStore k !! id); [by apply start_wf|done].
  - by apply create_wf.
  - by apply resume_wf.
  - by apply stop_wf.
  - by apply kill_wf.
  - unfold KillAll. pose proof (for_each_wf (KillAgent deps) (set_emergency k true)
      (running_ids (set_emergency k true)) kill_wf) as H1.
    destruct (for_each _ _ _) as [e k2]. simpl in *. apply (wf_ext k2); [done|done|].
    apply H1. by apply (wf_ext k).
  - by apply (wf_ext k).
  - by apply quarantine_wf.
  - by apply update_wf.
  - by apply delete_wf.
  - by apply activate_wf.
  - by apply deactivate_wf.
  - by apply reconcile_wf.
  - unfold SendMessage. branches; by apply (wf_ext k).
  - by apply shutdown_wf.
  - by apply restart_wf.
  - by apply exit_wf.
Qed.

(** ** Views *)

(** Two rows that differ in their state columns only. *)
Definition row_eq (c c' : AgentConfig) : Prop := exists d a e, c' = with_states c d a e.

Lemma row_eq_refl c : row_eq c c.
Proof. exists (Desired c), (Actual c), (LastError c). by destruct c. Qed.

Lemma row_eq_trans a b c : row_eq a b -> row_eq b c -> row_eq a c.
Proof. intros (d & x & e & ->) (d' & x' & e' & ->). by exists d', x', e'. Qed.

Lemma pick_provider_row c c' : row_eq c c' -> pick_provider deps c' = pick_provider deps c.
Proof. by intros (d & a & e & ->). Qed.

(** The two maps at one agent, and the flags. *)
Definition same_at (i : string) (k k' : Kyvik) : Prop :=
  kStore k' !! i = kStore k !! i /\ kRunning k' !! i = kRunning k !! i.

Definition same_flags (k k' : Kyvik) : Prop :=
  kEmergency k' = kEmergency k /\ kVacation k' = kVacation k /\ kSystem k' = kSystem k.

Lemma alter_same_at (k : Kyvik) f id i running :
  i <> id -> running !! i = kRunning k !! i ->
  same_at i k (set_running (set_store k (alter f id (kStore k))) running).
Proof. intros Hne Hr. split; [simpl; by rewrite lookup_alter_ne|done]. Qed.

(** [ResumeAgent] when nothing stands in the way. *)
Lemma resume_ok k id c slot :
  kEmergency k = false -> kVacation k = false -> kStore k !! id = Some c ->
  pick_provider deps c = Ok slot -> kRunning k !! id = None ->
  exists k', ResumeAgent deps k id = (None, k') /\ same_flags k k' /\
    kRunning k' = <[id := mkRunner (backfill c slot) AgentStatusRunning]> (kRunning k) /\
    kStore k' !! id = Some (with_states c DesiredStateRunning AgentStatusRunning EmptyString) /\
    (forall i, i <> id -> kStore k' !! i = kStore k !! i).
Proof.
  intros He Hv Hs Hp Hr. unfold ResumeAgent. rewrite He, Hv, Hs, Hp. simpl. rewrite Hr.
  eexists. split; [reflexivity|]. split; [done|]. split; [|split]; simpl.
  - by rewrite alter_insert_eq.
  - by rewrite !lookup_alter_eq, Hs.
  - intros i Hne. by rewrite !lookup_alter_ne.
Qed.

(** What a refused [ResumeAgent] leaves. *)
Lemma resume_provider_err k id c e :
  kEmergency k = false -> kVacation k = false -> kStore k !! id = Some c ->
  pick_provider deps c = Err e -> ResumeAgent deps k id = (Some e, k).
Proof. intros He Hv Hs Hp. unfold ResumeAgent. by rewrite He, Hv, Hs, Hp. Qed.

Lemma resume_blocked k id :
  kEmergency k = true -> ResumeAgent deps k id = (Some ErrEmergencyStop, k).
Proof. intros He. unfold ResumeAgent. by rewrite He. Qed.

Lemma attempts_blocked fuel k id :
  kEmergency k = true -> resume_attempts deps fuel k id = (Some ErrEmergencyStop, k).
Proof.
  intros He. induction fuel as [|fuel IH]; simpl; rewrite (resume_blocked k id He); [done|].
  by destruct fuel.
Qed.

Lemma attempts_provider_err fuel k id c e :
  kEmergency k = false -> kVacation k = false -> kStore k !! id = Some c ->
  pick_provider deps c = Err e -> resume_attempts deps fuel k id = (Some e, k).
Proof.
  intros He Hv Hs Hp. induction fuel as [|fuel IH]; simpl;
    rewrite (resume_provider_err k id c e He Hv Hs Hp); [done|]. by destruct fuel.
Qed.

(** ** Emergency stop *)

Definition halted (k : Kyvik) : Prop := kEmergency k = true /\ kRunning k = ∅.

Lemma for_each_inv (P : Kyvik -> Prop) f k ids :
  (forall k id, P k -> P (f k id).2) -> P k -> P (for_each f k ids).2.
Proof.
  intros Hf. revert k. induction ids as [|id ids IH]; intros k Hk; simpl; [done|].
  pose proof (Hf k id Hk) as H1. destruct (f k id) as [e k1]. simpl in H1.
  pose proof (IH k1 H1). by destruct (for_each f k1 ids).
Qed.

Lemma stop_halted k id preserve w :
  halted k -> stopAgentInternal deps k id preserve w = (Some (ErrAgentNotRunning id), k).
Proof. intros [_ Hr]. unfold stopAgentInternal. by rewrite Hr. Qed.

Lemma kill_halted k id : halted k -> halted (KillAgent deps k id).2.
Proof.
  intros [He Hr]. unfold KillAgent. rewrite Hr. simpl. by destruct (kStore k !! id).
Qed.

Lemma reconcile_halted k : halted k -> halted (Reconcile deps k).
Proof.
  intros Hh. unfold Reconcile.
  assert (forall l k, halted k -> halted (foldl reset_stale k l)) as H1.
  { induction l as [|a l IH]; intros k' Hk'; simpl; [done|]. apply IH.
    unfold reset_stale. by destruct (_ || _). }
  assert (forall l k, halted k -> halted (foldl (reconcile_one deps) k l)) as H2.
  { induction l as [|a l IH]; intros k' Hk'; simpl; [done|]. apply IH. destruct Hk' as [He Hr].
    unfold reconcile_one. destruct (Desired a); try done. destruct (kVacation k'); [done|].
    rewrite Hr. simpl. unfold reconcileStart. by rewrite attempts_blocked. }
  apply H2, H1. unfold LoadVacationState. by destruct (GetVacationState k).
Qed.

Lemma start_blocked k c : kEmergency k = true -> (StartAgent deps k c).2 = k.
Proof. intros He. unfold StartAgent. case_bool_decide; [done|]. by rewrite He. Qed.

Lemma stop_each_halted preserve n k ids : halted k -> halted (stop_each deps preserve n k ids).2.
Proof.
  intros Hh. unfold stop_each.
  assert (forall w k ids, halted k ->
    halted (for_each (fun k id => stopAgentInternal deps k id preserve w) k ids).2) as H1.
  { intros w k' l Hk'. apply for_each_inv; [|done]. intros k'' i H''. by rewrite stop_halted. }
  pose proof (H1 true k (take n ids) Hh) as H2. destruct (for_each _ k _) as [e k1]. simpl in H2.
  pose proof (H1 false k1 (drop n ids) H2) as H3. by destruct (for_each _ k1 _).
Qed.

(** The operations that lift an emergency stop: the one meant to, and a new process. *)
Definition lifts (op : Op) : bool :=
  match op with OpClearEmergency | OpRestart => true | _ => false end.

Lemma run_op_halted k op : lifts op = false -> halted k -> halted (run_op k op).
Proof.
  intros Hop Hh. pose proof Hh as [He Hr]. destruct op; simpl; try done.
  - by rewrite start_blocked.
  - unfold StartLocalAgent. destruct (kStore k !! id); [by rewrite start_blocked|done].
  - unfold StoreCreateAgent. by destruct (kStore k !! ID c).
  - by rewrite resume_blocked.
  - unfold StopAgent. by rewrite stop_halted.
  - by apply kill_halted.
  - unfold KillAll. pose proof (for_each_inv halted (KillAgent deps) (set_emergency k true)
      (running_ids (set_emergency k true)) kill_halted) as H1.
    destruct (for_each _ _ _) as [e k2]. simpl in *. by apply H1.
  - unfold QuarantineAgent. simpl. by rewrite Hr.
  - unfold UpdateAgent. rewrite Hr, lookup_empty. unfold StoreUpdateAgent. by destruct (kStore k !! ID c).
  - unfold DeleteAgent. rewrite Hr, lookup_empty. unfold StoreDeleteAgent. simpl. by destruct (kStore k !! id).
  - unfold ActivateVacationMode. set (k2 := set_vacation _ _).
    pose proof (stop_each_halted false n k2 (running_ids k) Hh) as H1.
    by destruct (stop_each _ _ _ _).
  - unfold DeactivateVacationMode. destruct (GetVacationState k) as [st|]; [|done].
    pose proof (for_each_inv halted (ResumeAgent deps)
      (SetSystemState (set_vacation k false) vacationStateKey EmptyString) (vPreviousAgents st)) as H1.
    destruct (for_each _ _ _) as [e k2]. simpl in *. apply H1; [|done].
    intros k' i Hk'. by rewrite resume_blocked by apply Hk'.
  - by apply reconcile_halted.
  - unfold SendMessage. rewrite Hr. simpl. branches.
  - unfold Shutdown. pose proof (stop_each_halted true n k (running_ids k) Hh) as H1.
    by destruct (stop_each _ _ _ _).
  - unfold goroutine_exit. by case_bool_decide.
Qed.

Lemma running_ids_elem k id : id ∈ running_ids k <-> is_Some (kRunning k !! id).
Proof.
  unfold running_ids. rewrite list_elem_of_fmap. split.
  - intros ([i r] & -> & Hin). apply elem_of_map_to_list in Hin. by eexists.
  - intros [r Hr]. exists (id, r). split; [done|]. by apply elem_of_map_to_list.
Qed.

Lemma running_ids_nodup k : NoDup (running_ids k).
Proof. unfold running_ids. apply NoDup_fst_map_to_list. Qed.

(** The row of a killed agent. *)
Definition killed_row (c : AgentConfig) : Prop :=
  Desired c = DesiredStateKilled /\ Actual c = AgentStatusKilled.

(** Killing a list of running agents. *)
Lemma kill_each k ids :
  lifecycle_wf k -> NoDup ids -> (forall id, id ∈ ids -> is_Some (kRunning k !! id)) ->
  exists k', for_each (KillAgent deps) k ids = (None, k') /\ kEmergency k' = kEmergency k /\
    (forall id, kRunning k' !! id = if bool_decide (id ∈ ids) then None else kRunning k !! id) /\
    (forall id, id ∉ ids -> kStore k' !! id = kStore k !! id) /\
    (forall id, id ∈ ids -> exists c, kStore k' !! id = Some c /\ killed_row c).
Proof.
  revert k. induction ids as [|id ids IH]; intros k Hwf Hnd Hrun.
  { exists k. simpl. repeat split; try done. by intros i ?%elem_of_nil. }
  apply NoDup_cons in Hnd as [Hnin Hnd].
  destruct (Hrun id ltac:(left)) as [r Hr].
  destruct (wf_running _ Hwf _ _ Hr) as (c & Hc & _).
  pose proof (kill_wf k id Hwf) as Hwf1.
  destruct (KillAgent deps k id) as [e k1] eqn:Ek. simpl in Hwf1.
  assert (e = None /\ kEmergency k1 = kEmergency k /\ kRunning k1 = delete id (kRunning k) /\
    (forall i, i <> id -> kStore k1 !! i = kStore k !! i) /\
    exists c, kStore k1 !! id = Some c /\ killed_row c) as (-> & He1 & Hr1 & Hs1 & Hk1).
  { revert Ek. unfold KillAgent. rewrite Hr. intros [= <- <-]. simpl. split; [done|].
    split; [done|]. split; [done|]. split.
    - intros i Hne. by rewrite !lookup_alter_ne.
    - rewrite !lookup_alter_eq, Hc. by eexists. }
  destruct (IH k1 Hwf1 Hnd) as (k2 & H2 & He2 & Hr2 & Hs2 & Hk2).
  { intros i Hi. rewrite Hr1, lookup_delete_ne by (intros ->; done). apply Hrun. by right. }
  exists k2. simpl. rewrite Ek, H2. split; [done|]. split; [congruence|]. split; [|split].
  - intros i. rewrite Hr2, Hr1. destruct (decide (i = id)) as [->|Hne].
    + rewrite lookup_delete_eq, (bool_decide_eq_true_2 (id ∈ id :: ids)) by left.
      by case_bool_decide.
    + rewrite lookup_delete_ne by done. by rewrite (bool_decide_ext (i ∈ ids) (i ∈ id :: ids)) by set_solver.
  - intros i Hi. rewrite Hs2 by set_solver. apply Hs1. set_solver.
  - intros i [->|Hi]%elem_of_cons; [|by apply Hk2].
    destruct Hk1 as (c1 & Hc1 & Hkr). exists c1. by rewrite Hs2.
Qed.

(** ** Loops over agents *)

(** What the two maps hold for an agent. *)
Definition view (k : Kyvik) (i : string) : option AgentConfig * option AgentRunner :=
  (kStore k !! i, kRunning k !! i).

(** A loop whose body, at an agent in view [pre], succeeds and leaves view [post] there
    and the other agents alone, does so for the whole list. *)
Lemma for_each_views (P : Kyvik -> Prop) f pre post k ids :
  (forall k id, id ∈ ids -> P k -> view k id = pre id -> exists k', f k id = (None, k') /\ P k' /\
     view k' id = post id /\ forall i, i <> id -> view k' i = view k i) ->
  P k -> NoDup ids -> (forall id, id ∈ ids -> view k id = pre id) ->
  exists k', for_each f k ids = (None, k') /\ P k' /\
    (forall id, id ∈ ids -> view k' id = post id) /\
    (forall id, id ∉ ids -> view k' id = view k id).
Proof.
  revert k. induction ids as [|id ids IH]; intros k Hf HP Hnd Hpre.
  { exists k. simpl. repeat split; try done. by intros i ?%elem_of_nil. }
  apply NoDup_cons in Hnd as [Hnin Hnd].
  destruct (Hf k id ltac:(left) HP) as (k1 & E1 & HP1 & Hid & Hne); [apply Hpre; by left|].
  destruct (IH k1 (fun k i Hi => Hf k i ltac:(by right)) HP1 Hnd) as (k2 & E2 & HP2 & Hin & Hout).
  { intros i Hi. rewrite Hne by (intros ->; done). apply Hpre. by right. }
  exists k2. simpl. rewrite E1, E2. split; [done|]. split; [done|]. split.
  - intros i [->|Hi]%elem_of_cons; [by rewrite Hout|by apply Hin].
  - intros i [Hi1 Hi2]%not_elem_of_cons. by rewrite Hout, Hne.
Qed.

Lemma foldl_views (P : Kyvik -> Prop) (f : Kyvik -> AgentConfig -> Kyvik) pre post k rows :
  (forall k a, P k -> view k (ID a) = pre a -> P (f k a) /\
     view (f k a) (ID a) = post a /\ forall i, i <> ID a -> view (f k a) i = view k i) ->
  P k -> NoDup (map ID rows) -> (forall a, a ∈ rows -> view k (ID a) = pre a) ->
  P (foldl f k rows) /\
    (forall a, a ∈ rows -> view (foldl f k rows) (ID a) = post a) /\
    (forall i, i ∉ map ID rows -> view (foldl f k rows) i = view k i).
Proof.
  intros Hf. revert k. induction rows as [|a rows IH]; intros k HP Hnd Hpre; simpl in *.
  { repeat split; try done. by intros i ?%elem_of_nil. }
  apply NoDup_cons in Hnd as [Hnin Hnd].
  destruct (Hf k a HP) as (HP1 & Hid & Hne); [apply Hpre; by left|].
  destruct (IH (f k a) HP1 Hnd) as (HP2 & Hin & Hout).
  { intros b Hb. rewrite Hne; [apply Hpre; by right|]. intros E. apply Hnin. rewrite <- E.
    by apply list_elem_of_fmap_2. }
  split; [done|]. split.
  - intros b [->|Hb]%elem_of_cons; [by rewrite Hout|by apply Hin].
  - intros i [Hi1 Hi2]%not_elem_of_cons. by rewrite Hout, Hne.
Qed.

Lemma alter_views k f id : view (set_store k (alter f id (kStore k))) id = (f <$> kStore k !! id, kRunning k !! id).
Proof. unfold view. simpl. by rewrite lookup_alter_eq. Qed.

Lemma alter_views_ne k f id i : i <> id -> view (set_store k (alter f id (kStore k))) i = view k i.
Proof. intros Hne. unfold view. simpl. by rewrite lookup_alter_ne. Qed.

(** ** Reconciliation *)

(** What the first loop makes of a row, and what the second one does. *)
Definition reset_row (c : AgentConfig) : AgentConfig :=
  if bool_decide (Actual c = AgentStatusRunning) || bool_decide (Actual c = AgentStatusStarting)
  then with_states c (Desired c) (if bool_decide (Desired c = DesiredStateKilled)
                                  then AgentStatusKilled else AgentStatusStopped) EmptyString
  else c.

(** The specification of a restart for one agent: its row and its runner. *)
Definition reconciled (c : AgentConfig) : AgentConfig * option AgentRunner :=
  match Desired c with
  | DesiredStateRunning =>
    match pick_provider deps c with
    | inl slot => (with_states c DesiredStateRunning AgentStatusRunning EmptyString,
                   Some (mkRunner (backfill (reset_row c) slot) AgentStatusRunning))
    | inr e => (with_states c DesiredStateRunning AgentStatusError (dErrorText deps e), None)
    end
  | DesiredStateQuarantined =>
    (with_states c DesiredStateQuarantined AgentStatusQuarantined EmptyString, None)
  | DesiredStateKilled => (with_states c DesiredStateKilled AgentStatusKilled EmptyString, None)
  | _ => (reset_row c, None)
  end.

Lemma reset_row_eq c : row_eq c (reset_row c) /\ Desired (reset_row c) = Desired c.
Proof.
  unfold reset_row. destruct (_ || _); [|split; [apply row_eq_refl|done]].
  split; [|done]. by eexists _, _, _.
Qed.

(** The state in which a process that starts reconciles. *)
Definition fresh (k : Kyvik) : Prop := kEmergency k = false /\ kVacation k = false.

Lemma reset_stale_view k a :
  fresh k -> view k (ID a) = (Some a, None) -> fresh (reset_stale k a) /\
    view (reset_stale k a) (ID a) = (Some (reset_row a), None) /\
    forall i, i <> ID a -> view (reset_stale k a) i = view k i.
Proof.
  intros Hf Hv. unfold reset_stale, reset_row. destruct (_ || _); [|done]. split; [done|].
  split; [|intros i Hne; by apply alter_views_ne]. unfold SetActualState. rewrite alter_views.
  injection Hv as -> ->. done.
Qed.

Lemma with_states_twice c d a e d' a' e' : with_states (with_states c d a e) d' a' e' = with_states c d' a' e'.
Proof. done. Qed.

Lemma reset_row_states c d a e : with_states (reset_row c) d a e = with_states c d a e.
Proof. unfold reset_row. by destruct (_ || _). Qed.

Lemma reconcile_one_view k a :
  fresh k -> view k (ID a) = (Some (reset_row a), None) -> fresh (reconcile_one deps k a) /\
    view (reconcile_one deps k a) (ID a) = (Some (reconciled a).1, (reconciled a).2) /\
    forall i, i <> ID a -> view (reconcile_one deps k a) i = view k i.
Proof.
  intros [He Hv] Hview. injection Hview as Hs Hr. destruct (reset_row_eq a) as [Hrow Hdes].
  unfold reconcile_one, reconciled. destruct (Desired a) eqn:Ed;
    try (split; [done|]; split; [unfold view; by rewrite Hs, Hr|done]); try (split; [done|]; split;
      [unfold SetActualState; rewrite alter_views, Hs, Hr; simpl; by rewrite Hdes, reset_row_states
      |intros i Hne; by apply alter_views_ne]).
  rewrite Hv, Hr. unfold reconcileStart. pose proof (pick_provider_row _ _ Hrow) as Hp.
  destruct (pick_provider deps a) as [slot|e] eqn:Epp.
  - destruct (resume_ok k (ID a) (reset_row a) slot He Hv Hs Hp Hr) as (k' & E & Hfl & Hrun & Hst & Hne).
    simpl resume_attempts. rewrite E. simpl. destruct Hfl as (H1 & H2 & _).
    split; [split; congruence|]. unfold view. split.
    + by rewrite Hst, Hrun, lookup_insert_eq, reset_row_states.
    + intros i Hi. by rewrite Hne, Hrun, lookup_insert_ne.
  - rewrite (attempts_provider_err maxAttempts k (ID a) (reset_row a) e He Hv Hs Hp). simpl.
    split; [done|]. unfold view. simpl. split.
    + rewrite lookup_alter_eq, Hs. simpl. by rewrite Hdes, reset_row_states, Hr.
    + intros i Hi. by rewrite lookup_alter_ne.
Qed.

(** The rows a listing returns. *)
Definition list_agents (k : Kyvik) : list AgentConfig := map snd (map_to_list (kStore k)).

Lemma list_agents_ids k :
  lifecycle_wf k -> map ID (list_agents k) = map fst (map_to_list (kStore k)).
Proof.
  intros Hwf. unfold list_agents. rewrite map_map. apply map_ext_in. intros [i c] Hin.
  apply (wf_keys _ Hwf). by apply elem_of_map_to_list, list_elem_of_In.
Qed.

Lemma list_agents_elem k c :
  lifecycle_wf k -> c ∈ list_agents k -> kStore k !! ID c = Some c.
Proof.
  intros Hwf. unfold list_agents. intros ([i x] & -> & Hin)%list_elem_of_fmap. simpl.
  apply elem_of_map_to_list in Hin. by rewrite (wf_keys _ Hwf _ _ Hin).
Qed.

(** [Reconcile] computes [reconciled] row by row. *)
Lemma reconcile_views k v i :
  lifecycle_wf k -> kRunning k = ∅ -> kEmergency k = false ->
  GetVacationState k = Ok v -> vActive v = false ->
  view (Reconcile deps k) i = ((fun c => (reconciled c).1) <$> kStore k !! i,
                               kStore k !! i ≫= fun c => (reconciled c).2).
Proof.
  intros Hwf Hr He Hv Ha. unfold Reconcile, LoadVacationState. rewrite Hv. simpl.
  fold (list_agents k). set (k1 := set_vacation k (vActive v)).
  assert (fresh k1) as Hf1 by done.
  assert (NoDup (map ID (list_agents k))) as Hnd.
  { rewrite list_agents_ids by done. apply NoDup_fst_map_to_list. }
  destruct (foldl_views fresh reset_stale (fun a => (Some a, None))
    (fun a => (Some (reset_row a), None)) k1 (list_agents k) reset_stale_view Hf1 Hnd)
    as (Hf2 & Hin2 & Hout2).
  { intros a Ha'. unfold view. simpl. by rewrite (list_agents_elem k a Hwf Ha'), Hr. }
  destruct (foldl_views fresh (reconcile_one deps) (fun a => (Some (reset_row a), None))
    (fun a => (Some (reconciled a).1, (reconciled a).2)) _ (list_agents k) reconcile_one_view Hf2 Hnd)
    as (_ & Hin3 & Hout3); [done|].
  destruct (kStore k !! i) as [c|] eqn:Ei; simpl.
  - pose proof (wf_keys _ Hwf _ _ Ei) as <-. apply Hin3. unfold list_agents.
    apply list_elem_of_fmap. exists (ID c, c). split; [done|]. by apply elem_of_map_to_list.
  - assert (i ∉ map ID (list_agents k)) as Hni.
    { rewrite list_agents_ids by done. intros ([j c] & -> & Hin)%list_elem_of_fmap.
      apply elem_of_map_to_list in Hin. simpl in Ei. congruence. }
    rewrite Hout3, Hout2 by done. unfold view. simpl. by rewrite Ei, Hr.
Qed.

(** ** Stops *)

(** A stop that is waited for. *)
Definition stopped_row (preserve : bool) (c : AgentConfig) : AgentConfig :=
  with_states c (if preserve then Desired c else DesiredStateStopped) AgentStatusStopped EmptyString.

Lemma stop_view preserve k id c r :
  view k id = (Some c, Some r) ->
  exists k', stopAgentInternal deps k id preserve true = (None, k') /\ same_flags k k' /\
    view k' id = (Some (stopped_row preserve c), None) /\
    forall i, i <> id -> view k' i = view k i.
Proof.
  intros [= Hs Hr]. unfold stopAgentInternal. rewrite Hr. simpl. eexists. split; [reflexivity|].
  split; [by destruct preserve|]. unfold view, goroutine_end. simpl. rewrite Hs. split.
  - destruct preserve; simpl; rewrite !lookup_alter_eq, Hs, lookup_delete_eq; done.
  - intros i Hne. destruct preserve; simpl; rewrite !lookup_alter_ne, lookup_delete_ne; done.
Qed.

(** Without a wait the row stays as it was. *)
Lemma stop_deadline preserve k id :
  let k' := (stopAgentInternal deps k id preserve false).2 in
  same_flags k k' /\ kStore k' = kStore k /\ kRunning k' = delete id (kRunning k).
Proof.
  unfold stopAgentInternal. destruct (kRunning k !! id) eqn:E; [done|]. simpl.
  by rewrite delete_id.
Qed.

Lemma running_ids_empty k : (forall i, kRunning k !! i = None) <-> kRunning k = ∅.
Proof. split; [apply map_empty|by intros -> i]. Qed.

(** Stopping everything, in time. *)
Lemma stop_all preserve n k :
  lifecycle_wf k -> (length (running_ids k) <= n)%nat ->
  exists k', stop_each deps preserve n k (running_ids k) = (None, k') /\ same_flags k k' /\
    kRunning k' = ∅ /\
    (forall i, kStore k' !! i = match kRunning k !! i with
                               | Some _ => stopped_row preserve <$> kStore k !! i
                               | None => kStore k !! i
                               end).
Proof.
  intros Hwf Hn. unfold stop_each. rewrite take_ge, drop_ge by done. simpl.
  destruct (for_each_views (fun k' => same_flags k k')
    (fun k id => stopAgentInternal deps k id preserve true)
    (view k) (fun i => (stopped_row preserve <$> kStore k !! i, None)) k (running_ids k))
    as (k' & E & Hfl & Hin & Hout); [|done|apply running_ids_nodup|done|].
  - intros k0 id [r Hr]%running_ids_elem Hf0 Hv0.
    destruct (wf_running _ Hwf _ _ Hr) as (c & Hc & _).
    destruct (stop_view preserve k0 id c r) as (k' & E & Hfl & Hid & Hne).
    { rewrite Hv0. unfold view. by rewrite Hc, Hr. }
    exists k'. split; [done|]. split; [|by rewrite Hc].
    destruct Hf0 as (? & ? & ?), Hfl as (? & ? & ?). repeat split; congruence.
  - exists k'. rewrite E. split; [done|]. split; [done|].
    assert (forall i, view k' i = match kRunning k !! i with
      | Some _ => (stopped_row preserve <$> kStore k !! i, None)
      | None => (kStore k !! i, None) end) as Hall.
    { intros i. destruct (kRunning k !! i) eqn:Ei.
      - apply Hin, running_ids_elem. by eexists.
      - rewrite Hout; [unfold view; by rewrite Ei|]. rewrite running_ids_elem, Ei. by intros [? ?]. }
    split.
    + apply map_empty. intros i. pose proof (Hall i) as H1. unfold view in H1.
      by destruct (kRunning k !! i); injection H1.
    + intros i. pose proof (Hall i) as H1. unfold view in H1.
      by destruct (kRunning k !! i); injection H1.
Qed.

(** Two states whose rows differ in the reported state only. *)
Definition same_intent (k k' : Kyvik) : Prop :=
  forall i, option_Forall2 (fun c c' => row_eq c c' /\ Desired c' = Desired c) (kStore k !! i) (kStore k' !! i).

Lemma same_intent_refl k : same_intent k k.
Proof. intros i. destruct (kStore k !! i); constructor. split; [apply row_eq_refl|done]. Qed.

Lemma same_intent_trans k1 k2 k3 : same_intent k1 k2 -> same_intent k2 k3 -> same_intent k1 k3.
Proof.
  intros H1 H2 i. specialize (H1 i). specialize (H2 i).
  destruct H1 as [c1 c2 [Hr1 Hd1]|]; inversion H2 as [? c3 [Hr2 Hd2]|]; subst; constructor.
  split; [by eapply row_eq_trans|congruence].
Qed.

Lemma actual_intent k id a e : same_intent k (SetActualState k id a e).
Proof.
  intros i. simpl. destruct (decide (i = id)) as [->|Hne].
  - rewrite lookup_alter_eq. destruct (kStore k !! id) as [c|]; constructor. split; [|done].
    by eexists _, _, _.
  - rewrite lookup_alter_ne by done. apply same_intent_refl.
Qed.

(** The parts a stop that preserves the desired state leaves alone. *)
Definition preserved (k k' : Kyvik) : Prop := same_intent k k' /\ kSystem k' = kSystem k.

Lemma stop_preserved k id w : preserved k (stopAgentInternal deps k id true w).2.
Proof.
  unfold stopAgentInternal. destruct (kRunning k !! id); [|split; [apply same_intent_refl|done]].
  destruct w; simpl; [|split; [exact (same_intent_refl k)|done]]. split; [|done].
  eapply same_intent_trans; [|apply actual_intent].
  exact (actual_intent (set_running k (delete id (kRunning k))) id _ EmptyString).
Qed.

Lemma shutdown_preserved k n : preserved k (Shutdown deps k n).2.
Proof.
  unfold Shutdown, stop_each.
  assert (forall w k0 ids, preserved k k0 ->
    preserved k (for_each (fun k id => stopAgentInternal deps k id true w) k0 ids).2) as H1.
  { intros w k0 ids H0. apply (for_each_inv (preserved k)); [|done]. intros k1 id [Hi Hs].
    destruct (stop_preserved k1 id w) as [Hi' Hs']. split; [by eapply same_intent_trans|congruence]. }
  pose proof (H1 true k (take n (running_ids k)) ltac:(split; [apply same_intent_refl|done])) as H2.
  destruct (for_each _ k _) as [e k1]. simpl in H2.
  pose proof (H1 false k1 (drop n (running_ids k)) H2) as H3.
  by destruct (for_each _ k1 _).
Qed.

Lemma vacation_of_system k k' : kSystem k' = kSystem k -> GetVacationState k' = GetVacationState k.
Proof. intros Hs. unfold GetVacationState, GetSystemState. by rewrite Hs. Qed.

(** Starting again from the rows of [k] as another process left them. *)
Lemma recovery k k0 v id :
  lifecycle_wf k0 -> preserved k k0 -> GetVacationState k = Ok v -> vActive v = false ->
  let k' := Reconcile deps (Restart k0) in
  (is_Some (kRunning k' !! id) <->
   exists c slot, kStore k !! id = Some c /\ Desired c = DesiredStateRunning /\
     pick_provider deps c = Ok slot) /\
  Desired <$> kStore k' !! id = Desired <$> kStore k !! id.
Proof.
  intros Hwf [Hi Hs] Hv Ha k'.
  pose proof (reconcile_views (Restart k0) v id (restart_wf k0 Hwf)) as H1.
  rewrite (vacation_of_system k) in H1 by done. specialize (H1 eq_refl eq_refl Hv Ha).
  unfold view in H1. injection H1 as Hst Hrun. subst k'. rewrite Hst, Hrun. simpl. specialize (Hi id).
  destruct Hi as [c c' [Hrow Hd]|]; simpl.
  2: { split; [|done]. split; [by intros [? ?]|]. by intros (? & ? & ? & _). }
  unfold reconciled. rewrite Hd, (pick_provider_row c c' Hrow). split.
  - split.
    + destruct (Desired c) eqn:Ed; simpl; intros Hi; try (by apply is_Some_None in Hi).
      destruct (pick_provider deps c) as [slot|] eqn:E; [|by apply is_Some_None in Hi].
      by exists c, slot.
    + intros (c0 & slot & [= <-] & -> & ->). by eexists.
  - f_equal. destruct (reset_row_eq c') as [_ Hr]. 
    destruct (Desired c); try done; [destruct (pick_provider deps c); done|..]; simpl; congruence.
Qed.

(** ** Vacation mode *)

(** An agent that was resumed after a stop. *)
Definition resumed (c : AgentConfig) : option AgentConfig * option AgentRunner :=
  match pick_provider deps c with
  | inl slot => (Some (with_states c DesiredStateRunning AgentStatusRunning EmptyString),
                 Some (mkRunner (backfill (stopped_row false c) slot) AgentStatusRunning))
  | inr _ => (None, None)
  end.

(** The agents [ids], stopped as rows of [k], are resumed. *)
Lemma resume_each k k1 ids :
  fresh k1 -> NoDup ids ->
  (forall id, id ∈ ids -> exists c slot, kStore k !! id = Some c /\ pick_provider deps c = Ok slot /\
     view k1 id = (Some (stopped_row false c), None)) ->
  exists k2, for_each (ResumeAgent deps) k1 ids = (None, k2) /\ fresh k2 /\
    (forall id, id ∈ ids -> is_Some (kRunning k2 !! id)) /\
    (forall id, id ∉ ids -> view k2 id = view k1 id).
Proof.
  intros Hf Hnd Hids.
  destruct (for_each_views fresh (ResumeAgent deps) (view k1)
    (fun i => default (None, None) (resumed <$> kStore k !! i)) k1 ids)
    as (k2 & E & Hf2 & Hin & Hout); [|done|done|done|].
  - intros k0 id Hi [He0 Hv0] Hview. destruct (Hids id Hi) as (c & slot & Hc & Hp & Hv1).
    rewrite Hv1 in Hview. injection Hview as Hs0 Hr0.
    assert (pick_provider deps (stopped_row false c) = Ok slot) as Hp'.
    { rewrite (pick_provider_row c); [done|]. by eexists _, _, _. }
    destruct (resume_ok k0 id _ slot He0 Hv0 Hs0 Hp' Hr0) as (k' & E & (He & Hv & _) & Hrun & Hst & Hne).
    exists k'. split; [done|]. split; [split; congruence|]. unfold view. split.
    + rewrite Hst, Hrun, lookup_insert_eq, Hc. simpl. unfold resumed. by rewrite Hp.
    + intros i Hi'. by rewrite Hne, Hrun, lookup_insert_ne.
  - exists k2. split; [done|]. split; [done|]. split; [|done]. intros id Hi.
    destruct (Hids id Hi) as (c & slot & Hc & Hp & _). specialize (Hin id Hi).
    rewrite Hc in Hin. simpl in Hin. unfold resumed in Hin. rewrite Hp in Hin.
    unfold view in Hin. injection Hin as _ ->. by eexists.
Qed.

Lemma vacation_of_key k s : kSystem k !! vacationStateKey = Some s -> s <> EmptyString ->
  GetVacationState k = match UnmarshalVacation s with inl v => Ok v | inr e => Err (ErrVacationState e) end.
Proof.
  intros Hk Hs. unfold GetVacationState, GetSystemState. rewrite Hk. simpl.
  by rewrite bool_decide_eq_false_2.
Qed.

(** Activation with time for every stop. *)
Lemma activate_all k by_ message n :
  lifecycle_wf k -> (length (running_ids k) <= n)%nat ->
  exists k1, ActivateVacationMode deps k by_ message n = (None, k1) /\
    kEmergency k1 = kEmergency k /\ kVacation k1 = true /\ kRunning k1 = ∅ /\
    kSystem k1 = <[vacationStateKey :=
      MarshalVacation (mkVacationState true by_ message (running_ids k))]> (kSystem k) /\
    (forall i, kStore k1 !! i = match kRunning k !! i with
                               | Some _ => stopped_row false <$> kStore k !! i
                               | None => kStore k !! i
                               end).
Proof.
  intros Hwf Hn. unfold ActivateVacationMode. set (k2 := set_vacation _ _).
  destruct (stop_all false n k2) as (k3 & E & (He & Hv & Hsys) & Hr & Hst);
    [by apply (wf_ext k)|done|].
  change (running_ids k2) with (running_ids k) in E. rewrite E. simpl. eexists.
  split; [reflexivity|]. done.
Qed.
End histories.

(** ** Codec laws *)

(** What vacation mode relies on: [encoding/json] reads back what it wrote. *)
Class CodecLaws `{Codecs} : Prop := {
  unmarshal_marshal s : UnmarshalVacation (MarshalVacation s) = Ok s;
  marshal_nonempty s : MarshalVacation s <> EmptyString;
}.

(** * Theorems *)

Section claims.
Context `{Codecs} (deps : Deps).

(** C27: Whatever sequence of starts, stops, kills, updates, deletions, vacations, shutdowns,
    restarts and late goroutine exits runs, every agent in the running map has a row in the
    store, under its own ID, whose desired state is running. *)
Theorem lifecycle_invariant k ops : lifecycle_wf k -> lifecycle_wf (run_ops deps k ops).
Proof. intros Hwf. apply foldl_wf; [|done]. intros k' op. apply run_op_wf. Qed.

(** The persisting branch of [StartAgent]. *)
Lemma persist_row k (c : AgentConfig) :
  match StoreCreateAgent k c with
  | (None, k') => (None, k')
  | (Some e, k') => match StoreUpdateAgent k' c with
                    | (None, k'') => (None, k'')
                    | (Some _, k'') => (Some e, k'')
                    end
  end = (None, set_store k (<[ID c := stored_row c]> (kStore k))).
Proof.
  unfold StoreCreateAgent, StoreUpdateAgent. destruct (kStore k !! ID c) eqn:E; [|done].
  by rewrite E.
Qed.

Lemma backfill_id c slot : ID (backfill c slot) = ID c.
Proof. unfold backfill. by case_bool_decide. Qed.

(** [StartAgent] on an agent that is not running starts it exactly when its ID is set,
    neither emergency stop nor vacation mode is on, the cluster leaves it to this node, an
    admin agent does not ask for host access in sandbox mode, and its default slot has a
    registered provider; then there is no error and the row says running. *)
Theorem start_agent_iff k c :
  kRunning k !! ID c = None ->
  let '(e, k') := StartAgent deps k c in
  (is_Some (kRunning k' !! ID c) <->
   ID c <> EmptyString /\ kEmergency k = false /\ kVacation k = false /\
   cluster_gate deps (ID c) = None /\
   ~ (ResolveAgentTier (Template c) = TierAdmin /\ dHostAccess deps = "sandbox" /\
      hasHostAccessConfig c = true) /\
   exists slot, pick_provider deps c = Ok slot) /\
  (is_Some (kRunning k' !! ID c) ->
   e = None /\ exists row, kStore k' !! ID c = Some row /\
     Desired row = DesiredStateRunning /\ Actual row = AgentStatusRunning) /\
  (kRunning k' !! ID c = None -> kRunning k' = kRunning k /\ kStore k' = kStore k).
Proof.
  intros Hr. unfold StartAgent.
  assert (forall e, (is_Some (kRunning k !! ID c) <-> False) /\ (is_Some (kRunning k !! ID c) ->
    e = @None LifecycleError /\ exists row, kStore k !! ID c = Some row /\
     Desired row = DesiredStateRunning /\ Actual row = AgentStatusRunning)) as Hno.
  { rewrite Hr. intros e. split; [split; [apply is_Some_None|done]|by intros ?%is_Some_None]. }
  case_bool_decide as Hid; [destruct (Hno (Some ErrIDRequired)) as [-> ?]; naive_solver|].
  destruct (kEmergency k); [destruct (Hno (Some ErrEmergencyStop)) as [-> ?]; naive_solver|].
  destruct (kVacation k); [destruct (Hno (Some ErrVacationModeActive)) as [-> ?]; naive_solver|].
  destruct (cluster_gate deps (ID c)) as [r|]; [destruct (Hno r) as [-> ?]; naive_solver|].
  destruct (_ && _ && _) eqn:Eh.
  { destruct (Hno (Some ErrHostAccess)) as [-> ?]. apply andb_prop in Eh as [[H1 H2]%andb_prop H3].
    apply bool_decide_eq_true in H1, H2. naive_solver. }
  assert (~ (ResolveAgentTier (Template c) = TierAdmin /\ dHostAccess deps = "sandbox" /\
      hasHostAccessConfig c = true)) as Hh.
  { intros (H1 & H2 & H3). rewrite H3, !bool_decide_eq_true_2 in Eh by done. done. }
  destruct (pick_provider deps c) as [slot|e]; [|destruct (Hno (Some e)) as [-> ?]; naive_solver].
  rewrite Hr, persist_row. simpl. rewrite backfill_id, alter_insert_eq, lookup_insert_eq.
  split; [split; [intros _; naive_solver|by eexists]|]. split; [|done]. intros _.
  split; [done|]. eexists. rewrite lookup_alter_eq, lookup_insert_eq. done.
Qed.

(** C13: [KillAll] kills every running agent without an error, writes its row as killed and
    leaves the other rows alone; and from then on, until the emergency stop is cleared or
    the process restarts, no sequence of operations gets an agent running. *)
Theorem emergency_stop_holds k ops :
  lifecycle_wf k -> forallb (fun op => negb (lifts op)) ops = true ->
  exists k', KillAll deps k = (None, k') /\ kEmergency k' = true /\
    (forall id, match kRunning k !! id with
                | Some _ => exists c, kStore k' !! id = Some c /\ killed_row c
                | None => kStore k' !! id = kStore k !! id
                end) /\
    kRunning (run_ops deps k' ops) = ∅.
Proof.
  intros Hwf Hops. unfold KillAll. set (k1 := set_emergency k true).
  destruct (kill_each deps k1 (running_ids k1)) as (k2 & E & He & Hr & Hout & Hin).
  { by apply (wf_ext k). } { apply running_ids_nodup. } { intros id. apply running_ids_elem. }
  rewrite E. eexists. split; [reflexivity|]. split; [done|]. split.
  - intros id. simpl. pose proof (running_ids_elem k1 id) as Hel. simpl in Hel.
    destruct (kRunning k !! id) eqn:Ei; [apply Hin, Hel; by eexists|].
    apply Hout. rewrite Hel. apply is_Some_None.
  - set (k3 := calls k2 _).
    assert (halted k3) as Hh.
    { split; [done|]. apply map_empty. intros id. simpl. rewrite Hr. case_bool_decide as Hi; [done|].
      destruct (kRunning k1 !! id) eqn:Ei; [|done]. exfalso. apply Hi, running_ids_elem. by eexists. }
    clearbody k3. revert k3 Hh. induction ops as [|op ops IH]; intros k3 Hh; [apply Hh|].
    simpl in Hops. apply andb_prop in Hops as [Hop Hops]. apply IH; [done|].
    apply run_op_halted; [|done]. by apply negb_true_iff.
Qed.

(** C19: At the start of a process that is neither halted nor on vacation, [Reconcile] refines
    the specification [reconciled] row by row: an agent meant to run runs when its provider
    resolves and is marked with the error otherwise, killed and quarantined agents are
    reported as such, and a stopped agent whose row still says running is corrected. *)
Theorem reconcile_refines k v :
  lifecycle_wf k -> kRunning k = ∅ -> kEmergency k = false ->
  GetVacationState k = Ok v -> vActive v = false ->
  kStore (Reconcile deps k) = (fun c => (reconciled deps c).1) <$> kStore k /\
  kRunning (Reconcile deps k) = omap (fun c => (reconciled deps c).2) (kStore k).
Proof.
  intros Hwf Hr He Hv Ha.
  split; apply map_eq; intros i; pose proof (reconcile_views deps k v i Hwf Hr He Hv Ha) as H1;
    unfold view in H1; injection H1 as Hs Hrun.
  - by rewrite lookup_fmap, Hs.
  - by rewrite lookup_omap, Hrun.
Qed.

(** C18: After a crash, or a shutdown however its stops time out, a restart that is not on
    vacation runs exactly the agents whose desired state was running and whose provider
    resolves, and changes no desired state. *)
Theorem restart_recovers k k0 n v id :
  lifecycle_wf k -> (k0 = k \/ k0 = (Shutdown deps k n).2) ->
  GetVacationState k = Ok v -> vActive v = false ->
  let k' := Reconcile deps (Restart k0) in
  (is_Some (kRunning k' !! id) <->
   exists c slot, kStore k !! id = Some c /\ Desired c = DesiredStateRunning /\
     pick_provider deps c = Ok slot) /\
  Desired <$> kStore k' !! id = Desired <$> kStore k !! id.
Proof.
  intros Hwf [->| ->] Hv Ha.
  - apply (recovery deps k k v); try done. split; [apply same_intent_refl|done].
  - apply (recovery deps k _ v); try done; [by apply shutdown_wf|apply shutdown_preserved].
Qed.

(** Vacation mode comes back to where it started: when every agent stops in time and its
    provider still resolves, activation stops all agents and blocks starts, and deactivation
    runs exactly the agents that ran before, with no error on either side. *)
Theorem vacation_roundtrip `{!CodecLaws} k by_ message n :
  lifecycle_wf k -> kEmergency k = false -> (size (kRunning k) <= n)%nat ->
  (forall id c, is_Some (kRunning k !! id) -> kStore k !! id = Some c ->
     exists slot, pick_provider deps c = Ok slot) ->
  exists k1 k2, ActivateVacationMode deps k by_ message n = (None, k1) /\
    kVacation k1 = true /\ kRunning k1 = ∅ /\
    DeactivateVacationMode deps k1 = (None, k2) /\
    kVacation k2 = false /\ dom (kRunning k2) = dom (kRunning k) /\
    (forall id, kRunning k !! id = None -> kStore k2 !! id = kStore k !! id).
Proof.
  intros Hwf He Hn Hp.
  destruct (activate_all deps k by_ message n Hwf) as (k1 & E1 & He1 & Hv1 & Hr1 & Hs1 & Hst1).
  { unfold running_ids. rewrite length_map, length_map_to_list. done. }
  exists k1. unfold DeactivateVacationMode.
  rewrite (vacation_of_key k1 (MarshalVacation (mkVacationState true by_ message (running_ids k))))
    by (apply marshal_nonempty || (rewrite Hs1; apply lookup_insert_eq)).
  rewrite unmarshal_marshal. simpl.
  set (k1' := SetSystemState (set_vacation k1 false) _ _).
  destruct (resume_each deps k k1' (running_ids k)) as (k2 & E2 & Hf2 & Hin & Hout).
  { split; [simpl; congruence|done]. } { apply running_ids_nodup. }
  { intros id [r Hr]%running_ids_elem. destruct (wf_running _ Hwf _ _ Hr) as (c & Hc & _).
    destruct (Hp id c) as [slot Hslot]; [by eexists|done|]. exists c, slot. split; [done|].
    split; [done|]. unfold view. simpl. by rewrite Hst1, Hr, Hc, Hr1. }
  rewrite E2. eexists. split; [done|]. split; [done|]. split; [done|].
  split; [reflexivity|]. simpl. destruct Hf2 as [_ Hv2]. split; [done|]. split.
  - apply set_eq. intros i. rewrite !elem_of_dom. destruct (decide (i ∈ running_ids k)) as [Hi|Hi].
    + apply running_ids_elem in Hi as Hk. split; intros _; [done|by apply Hin].
    + pose proof (Hout i Hi) as H1. unfold view in H1. injection H1 as _ H1. rewrite H1. simpl.
      rewrite running_ids_elem in Hi. rewrite Hr1, lookup_empty.
      by split; [intros ?%is_Some_None|].
  - intros i Hi. assert (i ∉ running_ids k) as Hni.
    { rewrite running_ids_elem, Hi. apply is_Some_None. }
    pose proof (Hout i Hni) as H1. unfold view in H1. injection H1 as H1 _. rewrite H1. simpl.
    by rewrite Hst1, Hi.
Qed.

(** Activating vacation mode twice forgets the agents: the second activation finds
    nothing running and overwrites the list, so that deactivation resumes no agent. *)
Theorem double_activation_forgets_agents `{!CodecLaws} k by1 m1 by2 m2 n1 n2 :
  lifecycle_wf k -> (size (kRunning k) <= n1)%nat ->
  exists k1 k2 k3, ActivateVacationMode deps k by1 m1 n1 = (None, k1) /\
    ActivateVacationMode deps k1 by2 m2 n2 = (None, k2) /\
    DeactivateVacationMode deps k2 = (None, k3) /\ kRunning k3 = ∅.
Proof.
  intros Hwf Hn.
  destruct (activate_all deps k by1 m1 n1 Hwf) as (k1 & E1 & _ & _ & Hr1 & _ & _).
  { unfold running_ids. by rewrite length_map, length_map_to_list. }
  pose proof (activate_wf deps k by1 m1 n1 Hwf) as Hwf1. rewrite E1 in Hwf1. simpl in Hwf1.
  assert (running_ids k1 = []) as Hids by (unfold running_ids; by rewrite Hr1, map_to_list_empty).
  destruct (activate_all deps k1 by2 m2 n2 Hwf1) as (k2 & E2 & _ & _ & Hr2 & Hs2 & _).
  { rewrite Hids. simpl. lia. }
  exists k1, k2. unfold DeactivateVacationMode.
  rewrite (vacation_of_key k2 (MarshalVacation (mkVacationState true by2 m2 (running_ids k1))))
    by (apply marshal_nonempty || (rewrite Hs2; apply lookup_insert_eq)).
  rewrite unmarshal_marshal, Hids. simpl. eexists. done.
Qed.

(** Resuming an agent that already runs is refused, but only after its row was written:
    the store then reports the running agent as starting. *)
Theorem failed_resume_overwrites_state k id r c slot :
  kEmergency k = false -> kVacation k = false -> kRunning k !! id = Some r ->
  kStore k !! id = Some c -> pick_provider deps c = Ok slot ->
  exists k', ResumeAgent deps k id = (Some (ErrAgentAlreadyRunning id), k') /\
    kRunning k' = kRunning k /\
    kStore k' !! id = Some (with_states c DesiredStateRunning AgentStatusStarting EmptyString).
Proof.
  intros He Hv Hr Hs Hp. unfold ResumeAgent. rewrite He, Hv, Hs, Hp. simpl. rewrite Hr.
  eexists. split; [reflexivity|]. split; [done|]. simpl. by rewrite !lookup_alter_eq, Hs.
Qed.

(** The row of an agent whose killed goroutine is still on its way out. *)
Lemma killed_then_resumed k id r c slot :
  kEmergency k = false -> kVacation k = false -> kRunning k !! id = Some r ->
  kStore k !! id = Some c -> pick_provider deps c = Ok slot ->
  exists k2, ResumeAgent deps (KillAgent deps k id).2 id = (None, k2) /\
    id ∈ kExiting k2 /\ is_Some (kRunning k2 !! id) /\
    kStore k2 !! id = Some (with_states c DesiredStateRunning AgentStatusRunning EmptyString).
Proof.
  intros He Hv Hr Hs Hp. unfold KillAgent. rewrite Hr. simpl.
  unfold ResumeAgent. simpl. rewrite He, Hv, !lookup_alter_eq, Hs. simpl.
  rewrite (pick_provider_row deps c) by (by eexists _, _, _). rewrite Hp. simpl.
  rewrite lookup_delete_eq. eexists. split; [reflexivity|]. simpl. split; [set_solver|].
  rewrite alter_insert_eq, lookup_insert_eq, !lookup_alter_eq, Hs. done.
Qed.

(** The goroutine of a killed agent writes its state when it leaves, whoever owns the
    row by then: after a kill and a resume the agent runs and its row says stopped. *)
Theorem stale_goroutine_overwrites_state k id r c slot :
  kEmergency k = false -> kVacation k = false -> kRunning k !! id = Some r ->
  kStore k !! id = Some c -> pick_provider deps c = Ok slot ->
  exists k3, run_ops deps k [OpKill id; OpResume id; OpGoroutineExit id] = k3 /\
    is_Some (kRunning k3 !! id) /\
    kStore k3 !! id = Some (with_states c DesiredStateRunning AgentStatusStopped EmptyString).
Proof.
  intros He Hv Hr Hs Hp.
  destruct (killed_then_resumed k id r c slot He Hv Hr Hs Hp) as (k2 & E & Hex & Hrun & Hst).
  simpl. rewrite E. simpl. unfold goroutine_exit. rewrite bool_decide_eq_true_2 by done.
  eexists. split; [reflexivity|]. split; [done|]. unfold goroutine_end. simpl.
  rewrite Hst, lookup_alter_eq, Hst. done.
Qed.
End claims.

(** ** Witnesses *)

Section witnesses.

(** A codec for vacation states: their [encode] in binary. *)
Fixpoint pos_text (p : positive) : string :=
  match p with xH => "e" | xO p => String "0" (pos_text p) | xI p => String "1" (pos_text p) end.

Fixpoint text_pos (s : string) : option positive :=
  match s with
  | EmptyString => None
  | String c s' => if bool_decide (c = "e"%char) then Some xH
                   else p ← text_pos s'; Some (if bool_decide (c = "0"%char) then xO p else xI p)
  end.

Lemma text_pos_text p : text_pos (pos_text p) = Some p.
Proof. induction p as [p IH|p IH|]; simpl; [rewrite IH..|]; done. Qed.

Definition vacation_tuple (v : VacationState) : bool * string * string * list string :=
  (vActive v, vActivatedBy v, vMessage v, vPreviousAgents v).

Definition tuple_vacation (t : bool * string * string * list string) : VacationState :=
  let '(a, b, m, l) := t in mkVacationState a b m l.

#[local] Instance sample_codecs : Codecs := {
  UnmarshalSlots _ := Err "no JSON";
  UnmarshalRouting _ := Err "no JSON";
  HeartbeatEnabled _ := false;
  MarshalVacation v := pos_text (encode (vacation_tuple v));
  UnmarshalVacation s := match text_pos s ≫= decode with
                         | Some t => Ok (tuple_vacation t)
                         | None => Err "no JSON"
                         end;
}.

#[local] Instance sample_codec_laws : CodecLaws.
Proof.
  constructor.
  - intros v. simpl. rewrite text_pos_text. simpl. rewrite decode_encode. by destruct v.
  - intros v. simpl. by destruct (encode _).
Qed.

Definition sample_deps : Deps :=
  mkDeps "sandbox" None {["ollama"]} true ["internal"] (fun _ => true) true true true false true
    ["memory"] ["queue"] (fun _ => "no model").

Definition empty_kyvik : Kyvik := mkKyvik ∅ ∅ ∅ [] false false [].

(** One running agent and one that is only stored. *)
Definition sample_kyvik : Kyvik :=
  run_ops sample_deps empty_kyvik [OpStart (plain_agent "a1" "reader"); OpCreate (plain_agent "a2" "reader")].

Lemma empty_wf : lifecycle_wf empty_kyvik.
Proof. by constructor. Qed.

Lemma sample_wf : lifecycle_wf sample_kyvik.
Proof. apply (foldl_wf (run_op sample_deps)); [apply run_op_wf|apply empty_wf]. Qed.

Lemma lifecycle_invariant_witness : lifecycle_wf (run_ops sample_deps empty_kyvik
  [OpStart (plain_agent "a1" "reader"); OpShutdown 0; OpRestart; OpReconcile]).
Proof. apply lifecycle_invariant. apply empty_wf. Defined.

Lemma start_agent_iff_witness :
  is_Some (kRunning (StartAgent sample_deps empty_kyvik (plain_agent "a1" "reader")).2 !! "a1").
Proof.
  pose proof (start_agent_iff sample_deps empty_kyvik (plain_agent "a1" "reader") eq_refl) as H1.
  destruct (StartAgent sample_deps empty_kyvik (plain_agent "a1" "reader")) as [e k'].
  destruct H1 as [[_ H1] _]. apply H1. repeat split; try done.
  - by intros (_ & _ & ?).
  - by eexists.
Defined.

Lemma emergency_stop_holds_witness :
  exists k', KillAll sample_deps sample_kyvik = (None, k') /\
    kRunning (run_ops sample_deps k' [OpStart (plain_agent "a3" "reader"); OpResume "a1"]) = ∅.
Proof.
  destruct (emergency_stop_holds sample_deps sample_kyvik
    [OpStart (plain_agent "a3" "reader"); OpResume "a1"] sample_wf eq_refl) as (k' & E & _ & _ & Hr).
  by exists k'.
Defined.

Lemma reconcile_refines_witness :
  kRunning (Reconcile sample_deps (Restart sample_kyvik)) =
  omap (fun c => (reconciled sample_deps c).2) (kStore sample_kyvik).
Proof.
  by apply (reconcile_refines sample_deps (Restart sample_kyvik)
    (mkVacationState false EmptyString EmptyString []) (restart_wf _ sample_wf)).
Defined.

Lemma restart_recovers_witness :
  is_Some (kRunning (Reconcile sample_deps (Restart (Shutdown sample_deps sample_kyvik 0).2)) !! "a1").
Proof.
  apply (restart_recovers sample_deps sample_kyvik _ 0 (mkVacationState false EmptyString EmptyString [])
    "a1" sample_wf); [by right|done|done|].
  eexists _, _. split; [vm_compute; reflexivity|]. by split.
Defined.

Lemma sample_provider id c : kStore sample_kyvik !! id = Some c -> is_Some (kRunning sample_kyvik !! id) ->
  pick_provider sample_deps c = Ok (mkModelSlot "default" "ollama" "llama3").
Proof.
  intros Hs Hr. assert (id = "a1") as ->.
  { destruct (decide (id = "a1")) as [->|Hne]; [done|]. exfalso. destruct Hr as [r Hr].
    revert Hr. change (kRunning sample_kyvik) with
      (alter (fun r => mkRunner (rnConfig r) AgentStatusRunning) "a1"
        ({["a1" := mkRunner (with_states (plain_agent "a1" "reader") DesiredStateRunning
           AgentStatusStarting EmptyString) AgentStatusStarting]} : gmap string AgentRunner)).
    rewrite lookup_alter_ne, lookup_singleton_ne by done. done. }
  vm_compute in Hs. injection Hs as <-. vm_compute. reflexivity.
Qed.

Lemma vacation_roundtrip_witness :
  exists k1 k2, ActivateVacationMode sample_deps sample_kyvik "ops" "away" 1 = (None, k1) /\
    kRunning k1 = ∅ /\ DeactivateVacationMode sample_deps k1 = (None, k2) /\
    dom (kRunning k2) = dom (kRunning sample_kyvik).
Proof.
  destruct (vacation_roundtrip sample_deps sample_kyvik "ops" "away" 1 sample_wf eq_refl)
    as (k1 & k2 & E1 & _ & Hr & E2 & _ & Hd & _).
  - vm_compute. lia.
  - intros id c Hr Hs. eexists. by eapply sample_provider.
  - by exists k1, k2.
Defined.

Lemma double_activation_forgets_agents_witness :
  exists k1 k2 k3, ActivateVacationMode sample_deps sample_kyvik "ops" "away" 1 = (None, k1) /\
    ActivateVacationMode sample_deps k1 "ops" "away" 1 = (None, k2) /\
    DeactivateVacationMode sample_deps k2 = (None, k3) /\ kRunning k3 = ∅.
Proof.
  apply (double_activation_forgets_agents sample_deps sample_kyvik "ops" "away" "ops" "away" 1 1
    sample_wf). vm_compute. lia.
Defined.

Lemma failed_resume_overwrites_state_witness :
  exists k', ResumeAgent sample_deps sample_kyvik "a1" = (Some (ErrAgentAlreadyRunning "a1"), k') /\
    kRunning k' = kRunning sample_kyvik.
Proof.
  edestruct (failed_resume_overwrites_state sample_deps sample_kyvik "a1") as (k' & E & Hr & _);
    [done|done|vm_compute; reflexivity|vm_compute; reflexivity|vm_compute; reflexivity|].
  by exists k'.
Defined.

Lemma stale_goroutine_overwrites_state_witness :
  exists k3, run_ops sample_deps sample_kyvik [OpKill "a1"; OpResume "a1"; OpGoroutineExit "a1"] = k3 /\
    is_Some (kRunning k3 !! "a1") /\ Actual <$> kStore k3 !! "a1" = Some AgentStatusStopped.
Proof.
  edestruct (stale_goroutine_overwrites_state sample_deps sample_kyvik "a1") as (k' & E & Hr & Hs);
    [done|done|vm_compute; reflexivity|vm_compute; reflexivity|vm_compute; reflexivity|].
  exists k'. split; [done|]. split; [done|]. by rewrite Hs.
Defined.

(** An admin agent that asks for host access. *)
Definition host_admin : AgentConfig := host_agent [].

(** [StartAgent] refuses an admin agent with host paths in sandbox mode; stored first and
    then resumed, the same agent runs. *)
Example host_access_check_skipped_by_resume :
  (StartAgent sample_deps empty_kyvik host_admin).1 = Some ErrHostAccess /\
  is_Some (kRunning (run_ops sample_deps empty_kyvik [OpCreate host_admin; OpResume (ID host_admin)])
             !! ID host_admin).
Proof. split; [reflexivity|]. vm_compute. by eexists. Qed.
End witnesses.
