(* ===== verification/Queue.v ===== *)
(** The persistent message queue ([internal/queue]) and the loop that consumes it
    ([runAgentQueued] of [internal/core/agent.go]).

    [PostgresQueue] is the table, the delivery channels (16 messages each), the set of
    messages in flight, the counters and the notifications sent.  The clock is an
    argument, in nanoseconds; the table keeps whole seconds, as the timestamp format does.
    Each operation is one atomic step; a step relation lets operations, agents that
    take and finish messages, kills and restarts happen in any order. *)

From Stdlib Require Import Sorted.
From S2P Require Import Prelude GoString.
#[local] Open Scope Z_scope.

(** * Data *)

Definition StatusPending : string := "pending".
Definition StatusProcessing : string := "processing".
Definition StatusCompleted : string := "completed".
Definition StatusFailed : string := "failed".

(** [QueueMessage]; a zero [CreatedAt] is [None]. *)
Record QueueMessage := mkQueueMessage {
  mID : Z;
  mAgentID : string;
  mChannel : string;
  mConversationID : string;
  mSender : string;
  mContent : string;
  mAttachments : string;
  mMessageType : string;
  mPriority : Z;
  mStatus : string;
  mAttempts : Z;
  mMaxAttempts : Z;
  mTargetNodeID : string;
  mCreatedAt : option Z;
  mStartedAt : option Z;
  mCompletedAt : option Z;
}.

Record QueueConfig := mkQueueConfig {
  qcDepth : Z;
  qcFullBehavior : string;
  qcPriorityUsers : list string;
  qcStaleTimeoutSeconds : Z;
  qcRetentionHours : Z;
}.

(** [DefaultConfig], and the defaults [NewPostgresQueue] gives to a configuration *)
Definition DefaultQueueConfig : QueueConfig := mkQueueConfig 50 "acknowledge" [] 300 24.

Definition with_queue_defaults (c : QueueConfig) : QueueConfig :=
  mkQueueConfig (if qcDepth c <=? 0 then 50 else qcDepth c)
    (if bool_decide (qcFullBehavior c = EmptyString) then "acknowledge" else qcFullBehavior c)
    (qcPriorityUsers c)
    (if qcStaleTimeoutSeconds c <=? 0 then 300 else qcStaleTimeoutSeconds c)
    (if qcRetentionHours c <=? 0 then 24 else qcRetentionHours c).

(** [agentQueueMetrics] *)
Record QueueMetrics := mkQueueMetrics {
  EnqueueDepthBlocked : Z;
  ChannelFull : Z;
  ReplayPushed : Z;
  ReplaySkipped : Z;
  ReplayInFlightSkip : Z;
  ReplayNoChannelSkip : Z;
}.

Definition zero_metrics : QueueMetrics := mkQueueMetrics 0 0 0 0 0 0.

Definition add_metrics (a b : QueueMetrics) : QueueMetrics :=
  mkQueueMetrics (EnqueueDepthBlocked a + EnqueueDepthBlocked b) (ChannelFull a + ChannelFull b)
    (ReplayPushed a + ReplayPushed b) (ReplaySkipped a + ReplaySkipped b)
    (ReplayInFlightSkip a + ReplayInFlightSkip b) (ReplayNoChannelSkip a + ReplayNoChannelSkip b).

(** [PostgresQueue]: [qNext] is the sequence of the [id] column. *)
Record PostgresQueue := mkQueue {
  qNodeID : string;
  qConfig : QueueConfig;
  qRows : gmap Z QueueMessage;
  qNext : Z;
  qChannels : gmap string (list QueueMessage);
  qInFlight : gset Z;
  qMetrics : gmap string QueueMetrics;
  qNotified : list (string * Z);
}.

Section queue_update.
Context (q : PostgresQueue).
Definition set_rows (r : gmap Z QueueMessage) : PostgresQueue :=
  mkQueue (qNodeID q) (qConfig q) r (qNext q) (qChannels q) (qInFlight q) (qMetrics q) (qNotified q).
Definition set_next (n : Z) : PostgresQueue :=
  mkQueue (qNodeID q) (qConfig q) (qRows q) n (qChannels q) (qInFlight q) (qMetrics q) (qNotified q).
Definition set_channels (c : gmap string (list QueueMessage)) : PostgresQueue :=
  mkQueue (qNodeID q) (qConfig q) (qRows q) (qNext q) c (qInFlight q) (qMetrics q) (qNotified q).
Definition set_inflight (s : gset Z) : PostgresQueue :=
  mkQueue (qNodeID q) (qConfig q) (qRows q) (qNext q) (qChannels q) s (qMetrics q) (qNotified q).
Definition set_metrics (m : gmap string QueueMetrics) : PostgresQueue :=
  mkQueue (qNodeID q) (qConfig q) (qRows q) (qNext q) (qChannels q) (qInFlight q) m (qNotified q).
Definition notify (l : list (string * Z)) : PostgresQueue :=
  mkQueue (qNodeID q) (qConfig q) (qRows q) (qNext q) (qChannels q) (qInFlight q) (qMetrics q)
    (qNotified q ++ l).
End queue_update.

(** [NewPostgresQueue] over an existing table *)
Definition NewPostgresQueue (rows : gmap Z QueueMessage) (next : Z) (nodeID : string)
    (cfg : option QueueConfig) : PostgresQueue :=
  mkQueue nodeID (match cfg with Some c => with_queue_defaults c | None => DefaultQueueConfig end)
    rows next ∅ ∅ ∅ [].

(** Rows with a changed status. *)
Definition with_status (m : QueueMessage) (status : string) (attempts : Z)
    (started completed : option Z) : QueueMessage :=
  mkQueueMessage (mID m) (mAgentID m) (mChannel m) (mConversationID m) (mSender m) (mContent m)
    (mAttachments m) (mMessageType m) (mPriority m) status attempts (mMaxAttempts m)
    (mTargetNodeID m) (mCreatedAt m) started completed.

(** The columns the delivery queries select: the two optional times are left out. *)
Definition selected (m : QueueMessage) : QueueMessage :=
  with_status m (mStatus m) (mAttempts m) None None.

(** A clock reading as the table stores it, and the threshold [d] units before it. *)
Definition second : Z := 1000000000.
Definition db_time (now : Z) : Z := now / second * second.
Definition threshold (now d unit : Z) : Z := db_time (now - wrap64 (d * unit)).

(** * Helpers *)

Definition addMetric (q : PostgresQueue) (agentID : string) (d : QueueMetrics) : PostgresQueue :=
  if bool_decide (agentID = EmptyString) then q
  else set_metrics q (<[agentID := add_metrics (default zero_metrics (qMetrics q !! agentID)) d]>
                        (qMetrics q)).

Definition markInFlight (q : PostgresQueue) (id : Z) : PostgresQueue :=
  set_inflight q ({[id]} ∪ qInFlight q).
Definition clearInFlight (q : PostgresQueue) (id : Z) : PostgresQueue :=
  set_inflight q (qInFlight q ∖ {[id]}).
Definition isInFlight (q : PostgresQueue) (id : Z) : bool := bool_decide (id ∈ qInFlight q).

Definition in_range (lo hi c : ascii) : bool := (byte_of lo <=? byte_of c) && (byte_of c <=? byte_of hi).

(** [sanitizeChannel]: rune by rune. *)
Definition channel_rune (r : Z * string) : string :=
  match r.2 with
  | String c EmptyString =>
    if in_range "a" "z" c || in_range "A" "Z" c || in_range "0" "9" c || bool_decide (c = "_"%char)
    then r.2 else "_"
  | _ => "_"
  end.
Definition sanitizeChannel (s : string) : string := str_concat (map channel_rune (runes s)).

(** The capacity of a delivery channel. *)
Definition chanCap : nat := 16.

(** The non-blocking send of a message to the channel of its agent. *)
Inductive Sent : Type := NoChannel | Delivered | Full.

Definition send (q : PostgresQueue) (msg : QueueMessage) : Sent * PostgresQueue :=
  match qChannels q !! mAgentID msg with
  | None => (NoChannel, q)
  | Some ch =>
    if (length ch <? chanCap)%nat
    then (Delivered, markInFlight (set_channels q (<[mAgentID msg := ch ++ [msg]]> (qChannels q))) (mID msg))
    else (Full, q)
  end.

(** ** Queries *)

Definition has_status (st : string) (m : QueueMessage) : bool := bool_decide (mStatus m = st).

Definition for_node (q : PostgresQueue) (m : QueueMessage) : bool :=
  bool_decide (mTargetNodeID m = EmptyString) || bool_decide (mTargetNodeID m = qNodeID q).

(** [ORDER BY priority DESC, id ASC] *)
Definition before (a b : QueueMessage) : bool :=
  (mPriority b <? mPriority a) || ((mPriority a =? mPriority b) && (mID a <=? mID b)).

Fixpoint insert_row (m : QueueMessage) (l : list QueueMessage) : list QueueMessage :=
  match l with
  | [] => [m]
  | x :: l' => if before m x then m :: l else x :: insert_row m l'
  end.

Definition order_rows (l : list QueueMessage) : list QueueMessage := foldr insert_row [] l.

Definition select (q : PostgresQueue) (p : QueueMessage -> bool) : list QueueMessage :=
  map selected (order_rows (List.filter p (map snd (map_to_list (qRows q))))).

(** [UPDATE ... WHERE p] with the number of rows it changed *)
Definition update_where (q : PostgresQueue) (p : QueueMessage -> bool) (f : QueueMessage -> QueueMessage)
    : nat * PostgresQueue :=
  (length (List.filter p (map snd (map_to_list (qRows q)))),
   set_rows q ((fun m => if p m then f m else m) <$> qRows q)).

Definition delete_where (q : PostgresQueue) (p : QueueMessage -> bool) : nat * PostgresQueue :=
  (length (List.filter p (map snd (map_to_list (qRows q)))),
   set_rows q (filter (fun kv => p kv.2 = false) (qRows q))).

(** [Depth] *)
Definition Depth (q : PostgresQueue) (agentID : string) : Z :=
  Z.of_nat (length (List.filter (fun m => bool_decide (mAgentID m = agentID)
    && (has_status StatusPending m || has_status StatusProcessing m)) (map snd (map_to_list (qRows q))))).

(** * Operations *)

(** The defaults of [Enqueue] *)
Definition enqueue_defaults (now : Z) (msg : QueueMessage) : QueueMessage :=
  mkQueueMessage (mID msg) (mAgentID msg) (mChannel msg) (mConversationID msg) (mSender msg)
    (mContent msg) (mAttachments msg)
    (if bool_decide (mMessageType msg = EmptyString) then "message" else mMessageType msg)
    (mPriority msg)
    (if bool_decide (mStatus msg = EmptyString) then StatusPending else mStatus msg)
    (mAttempts msg) (if mMaxAttempts msg <=? 0 then 3 else mMaxAttempts msg) (mTargetNodeID msg)
    (match mCreatedAt msg with Some t => Some t | None => Some now end)
    (mStartedAt msg) (mCompletedAt msg).

Definition with_id (m : QueueMessage) (id : Z) : QueueMessage :=
  mkQueueMessage id (mAgentID m) (mChannel m) (mConversationID m) (mSender m) (mContent m)
    (mAttachments m) (mMessageType m) (mPriority m) (mStatus m) (mAttempts m) (mMaxAttempts m)
    (mTargetNodeID m) (mCreatedAt m) (mStartedAt m) (mCompletedAt m).

(** The row an insert writes: seconds for the creation time, no other times. *)
Definition inserted (m : QueueMessage) : QueueMessage :=
  mkQueueMessage (mID m) (mAgentID m) (mChannel m) (mConversationID m) (mSender m) (mContent m)
    (mAttachments m) (mMessageType m) (mPriority m) (mStatus m) (mAttempts m) (mMaxAttempts m)
    (mTargetNodeID m) (db_time <$> mCreatedAt m) None None.

(** [Enqueue] *)
Definition Enqueue (q : PostgresQueue) (now : Z) (msg0 : QueueMessage) : Z * PostgresQueue :=
  let id := qNext q in
  let msg := with_id (enqueue_defaults now msg0) id in
  let q1 := set_next (set_rows q (<[id := inserted msg]> (qRows q))) (id + 1) in
  let q2 := if bool_decide (mTargetNodeID msg = EmptyString) then q1
            else notify q1 [("kyvik_queue_" +:+ sanitizeChannel (mTargetNodeID msg), id)] in
  if (mPriority msg <? 2) && (qcDepth (qConfig q2) <? Depth q2 (mAgentID msg))
  then (id, addMetric q2 (mAgentID msg) (mkQueueMetrics 1 0 0 0 0 0))
  else if negb (for_node q2 msg) then (id, q2)
  else match send q2 msg with
       | (Full, q3) => (id, addMetric q3 (mAgentID msg) (mkQueueMetrics 0 1 0 0 0 0))
       | (_, q3) => (id, q3)
       end.

(** [Dequeue] *)
Definition Dequeue (q : PostgresQueue) (agentID : string) : PostgresQueue :=
  match qChannels q !! agentID with
  | Some _ => q
  | None => set_channels q (<[agentID := []]> (qChannels q))
  end.

Definition is_row (id : Z) (m : QueueMessage) : bool := mID m =? id.

(** [MarkProcessing] *)
Definition MarkProcessing (q : PostgresQueue) (now id : Z) : PostgresQueue :=
  (update_where q (is_row id) (fun m =>
     with_status m StatusProcessing (mAttempts m) (Some (db_time now)) (mCompletedAt m))).2.

(** [Complete] *)
Definition Complete (q : PostgresQueue) (now id : Z) : PostgresQueue :=
  clearInFlight (update_where q (is_row id) (fun m =>
     with_status m StatusCompleted (mAttempts m) (mStartedAt m) (Some (db_time now)))).2 id.

(** [repushMessage] *)
Definition repushMessage (q : PostgresQueue) (id : Z) : PostgresQueue :=
  match qRows q !! id with
  | None => q
  | Some m => match send q (selected m) with
              | (Full, q1) => addMetric q1 (mAgentID m) (mkQueueMetrics 0 1 0 0 0 0)
              | (_, q1) => q1
              end
  end.

(** [PostgresQueue.Fail]: [None] when the row cannot be read. *)
Definition QueueFail (q : PostgresQueue) (now id : Z) : option PostgresQueue :=
  match qRows q !! id with
  | None => None
  | Some m =>
    let attempts := mAttempts m + 1 in
    if mMaxAttempts m <=? attempts then
      Some (clearInFlight (update_where q (is_row id) (fun m =>
              with_status m StatusFailed attempts (mStartedAt m) (Some (db_time now)))).2 id)
    else
      let q1 := (update_where q (is_row id) (fun m =>
                   with_status m StatusPending attempts None (mCompletedAt m))).2 in
      Some (repushMessage (clearInFlight q1 id) id)
  end.

(** [ResetAgentProcessing] *)
Definition requeued (m : QueueMessage) : QueueMessage :=
  with_status m StatusPending (mAttempts m + 1) None (mCompletedAt m).

Definition ResetAgentProcessing (q : PostgresQueue) (agentID : string) : nat * PostgresQueue :=
  update_where q (fun m => bool_decide (mAgentID m = agentID) && has_status StatusProcessing m) requeued.

(** The loop of [Replay], with its counters *)
Definition replay_one (q : PostgresQueue) (msg : QueueMessage) : PostgresQueue :=
  if isInFlight q (mID msg) then q
  else match send q msg with
       | (NoChannel, q1) => addMetric q1 (mAgentID msg) (mkQueueMetrics 0 0 0 1 0 1)
       | (Delivered, q1) => addMetric q1 (mAgentID msg) (mkQueueMetrics 0 0 1 0 0 0)
       | (Full, q1) => addMetric q1 (mAgentID msg) (mkQueueMetrics 0 1 0 1 0 0)
       end.

Definition stale (q : PostgresQueue) (now : Z) (m : QueueMessage) : bool :=
  has_status StatusProcessing m
  && match mStartedAt m with
     | Some t => t <? threshold now (qcStaleTimeoutSeconds (qConfig q)) second
     | None => false
     end
  && for_node q m.

Definition Replay (q : PostgresQueue) (now : Z) : PostgresQueue :=
  let q1 := (update_where q (stale q now) requeued).2 in
  foldl replay_one q1 (select q1 (fun m => has_status StatusPending m && for_node q1 m)).

(** [ReplayAgent]: the loop returns the counts of what it skipped. *)
Fixpoint replay_loop (q : PostgresQueue) (agentID : string) (l : list QueueMessage)
    : Z * Z * Z * PostgresQueue :=
  match l with
  | [] => (0, 0, 0, q)
  | msg :: l' =>
    if isInFlight q (mID msg) then
      let '(p, i, f, q') := replay_loop q agentID l' in (p, i + 1, f, q')
    else match send q msg with
         | (Delivered, q1) =>
           let '(p, i, f, q') := replay_loop (addMetric q1 agentID (mkQueueMetrics 0 0 1 0 0 0)) agentID l' in
           (p + 1, i, f, q')
         | (_, q1) =>
           let '(p, i, f, q') := replay_loop (addMetric q1 agentID (mkQueueMetrics 0 1 0 0 0 0)) agentID l' in
           (p, i, f + 1, q')
         end
  end.

Definition agent_pending (q : PostgresQueue) (agentID : string) : list QueueMessage :=
  select q (fun m => has_status StatusPending m && bool_decide (mAgentID m = agentID) && for_node q m).

Definition ReplayAgent (q : PostgresQueue) (agentID : string) : PostgresQueue :=
  match qChannels q !! agentID with
  | None => q
  | Some _ =>
    let '(p, i, f, q1) := replay_loop q agentID (agent_pending q agentID) in
    if (0 <? p) || (0 <? i) || (0 <? f) then addMetric q1 agentID (mkQueueMetrics 0 0 0 (i + f) i 0)
    else q1
  end.

(** [Cleanup] *)
Definition QueueCleanup (q : PostgresQueue) (now retentionHours : Z) : nat * PostgresQueue :=
  delete_where q (fun m => has_status StatusCompleted m
    && match mCompletedAt m with
       | Some t => t <? threshold now retentionHours (3600 * second)
       | None => false
       end).

(** [RetryMessage]: false is the error of a message that is not in failed status. *)
Definition RetryMessage (q : PostgresQueue) (id : Z) : bool * PostgresQueue :=
  let '(n, q1) := update_where q (fun m => is_row id m && has_status StatusFailed m)
                    (fun m => with_status m StatusPending 0 None None) in
  let q2 := clearInFlight q1 id in
  if (n =? 0)%nat then (false, q2) else (true, repushMessage q2 id).

(** [DeleteMessage] and [DeleteMessages] *)
Definition DeleteMessage (q : PostgresQueue) (id : Z) : bool * PostgresQueue :=
  let '(n, q1) := delete_where q (is_row id) in
  (negb (n =? 0)%nat, clearInFlight q1 id).

Definition of_agent (agentID statusFilter : string) (m : QueueMessage) : bool :=
  bool_decide (mAgentID m = agentID)
  && (bool_decide (statusFilter = EmptyString) || has_status statusFilter m).

Definition DeleteMessages (q : PostgresQueue) (agentID statusFilter : string) : option nat * PostgresQueue :=
  if bool_decide (trim_space agentID = EmptyString) then (None, q)
  else
    let ids := map mID (List.filter (of_agent agentID statusFilter) (map snd (map_to_list (qRows q)))) in
    let '(n, q1) := delete_where q (of_agent agentID statusFilter) in
    (Some n, foldl clearInFlight q1 ids).

(** [Stats]: the count of one status of an agent *)
Definition Stats (q : PostgresQueue) (agentID status : string) : nat :=
  length (List.filter (fun m => bool_decide (mAgentID m = agentID) && has_status status m)
            (map snd (map_to_list (qRows q)))).

(** [Stop]: channels are closed and forgotten. *)
Definition Stop (q : PostgresQueue) : PostgresQueue := set_inflight (set_channels q ∅) ∅.

(** * Consumers *)

(** The queue with the message each agent goroutine is working on. *)
Record QueueSystem := mkQueueSystem { sQueue : PostgresQueue; sHeld : gmap string QueueMessage }.

(** [runAgentQueued] receives a message: it is held and marked as processing. *)
Definition take_message (s : QueueSystem) (now : Z) (agentID : string) : option QueueSystem :=
  match sHeld s !! agentID, qChannels (sQueue s) !! agentID with
  | None, Some (msg :: rest) =>
    let q1 := set_channels (sQueue s) (<[agentID := rest]> (qChannels (sQueue s))) in
    Some (mkQueueSystem (MarkProcessing q1 now (mID msg)) (<[agentID := msg]> (sHeld s)))
  | _, _ => None
  end.

(** An internal message received while the team is paused is dropped. *)
Definition drop_message (s : QueueSystem) (agentID : string) : option QueueSystem :=
  match sHeld s !! agentID, qChannels (sQueue s) !! agentID with
  | None, Some (msg :: rest) =>
    if bool_decide (mChannel msg = "internal")
    then Some (mkQueueSystem (set_channels (sQueue s) (<[agentID := rest]> (qChannels (sQueue s)))) (sHeld s))
    else None
  | _, _ => None
  end.

(** The message was handled, or failed: both replay the agent's pending messages. *)
Definition finish_message (s : QueueSystem) (now : Z) (agentID : string) : option QueueSystem :=
  match sHeld s !! agentID with
  | Some msg => Some (mkQueueSystem (ReplayAgent (Complete (sQueue s) now (mID msg)) agentID)
                        (delete agentID (sHeld s)))
  | None => None
  end.

Definition fail_message (s : QueueSystem) (now : Z) (agentID : string) : option QueueSystem :=
  match sHeld s !! agentID with
  | Some msg => Some (mkQueueSystem
      (ReplayAgent (default (sQueue s) (QueueFail (sQueue s) now (mID msg))) agentID)
      (delete agentID (sHeld s)))
  | None => None
  end.

(** The goroutine leaves while it holds a message: the breaker tripped, or its context was
    cancelled, and with it every queue call it could still make. *)
Definition abandon_message (s : QueueSystem) (agentID : string) : QueueSystem :=
  mkQueueSystem (sQueue s) (delete agentID (sHeld s)).

(** [KillAgent] *)
Definition kill_consumer (s : QueueSystem) (agentID : string) : QueueSystem :=
  mkQueueSystem (ResetAgentProcessing (sQueue s) agentID).2 (delete agentID (sHeld s)).

(** A new process on the same table. *)
Definition restart_queue (s : QueueSystem) : QueueSystem :=
  mkQueueSystem (mkQueue (qNodeID (sQueue s)) (qConfig (sQueue s)) (qRows (sQueue s)) (qNext (sQueue s))
                   ∅ ∅ ∅ []) ∅.

(** Where a message is on its way to be processed: held by its agent, or in the channel. *)
Definition place (s : QueueSystem) (agentID : string) : list QueueMessage :=
  match sHeld s !! agentID with Some m => [m] | None => [] end
  ++ default [] (qChannels (sQueue s) !! agentID).

Definition placed (s : QueueSystem) (agentID : string) (id : Z) : Prop :=
  id ∈ map mID (place s agentID).

(** The steps of the system.  By a [Leaves] step a consumer gives a message up without
    the queue's set of messages in flight being told.  A [Refuses] step is a retry that is refused because the
    message has not failed: it takes the message out of the set all the same, so it is a step only where the
    message neither waits nor is held (for the others see [refused_retry_duplicates]). *)
Inductive StepKind : Type := Serves | Leaves | Refuses | Restarts.

Inductive queue_step : StepKind -> QueueSystem -> QueueSystem -> Prop :=
| step_enqueue s now msg :
    mStatus msg = EmptyString \/ mStatus msg = StatusPending ->
    queue_step Serves s (mkQueueSystem (Enqueue (sQueue s) now msg).2 (sHeld s))
| step_dequeue s agentID : queue_step Serves s (mkQueueSystem (Dequeue (sQueue s) agentID) (sHeld s))
| step_take s s' now agentID : take_message s now agentID = Some s' -> queue_step Serves s s'
| step_finish s s' now agentID : finish_message s now agentID = Some s' -> queue_step Serves s s'
| step_fail s s' now agentID : fail_message s now agentID = Some s' -> queue_step Serves s s'
| step_drop s s' agentID : drop_message s agentID = Some s' -> queue_step Leaves s s'
| step_abandon s agentID : queue_step Leaves s (abandon_message s agentID)
| step_kill s agentID : queue_step Leaves s (kill_consumer s agentID)
| step_replay s now : queue_step Serves s (mkQueueSystem (Replay (sQueue s) now) (sHeld s))
| step_replay_agent s agentID :
    queue_step Serves s (mkQueueSystem (ReplayAgent (sQueue s) agentID) (sHeld s))
| step_retry s id m :
    qRows (sQueue s) !! id = Some m -> mStatus m = StatusFailed ->
    queue_step Serves s (mkQueueSystem (RetryMessage (sQueue s) id).2 (sHeld s))
| step_retry_refused s id :
    (forall m, qRows (sQueue s) !! id = Some m -> mStatus m <> StatusFailed) ->
    (forall a, ~ placed s a id) ->
    queue_step Refuses s (mkQueueSystem (RetryMessage (sQueue s) id).2 (sHeld s))
| step_delete s id : queue_step Serves s (mkQueueSystem (DeleteMessage (sQueue s) id).2 (sHeld s))
| step_delete_all s agentID st :
    queue_step Serves s (mkQueueSystem (DeleteMessages (sQueue s) agentID st).2 (sHeld s))
| step_cleanup s now hours :
    queue_step Serves s (mkQueueSystem (QueueCleanup (sQueue s) now hours).2 (sHeld s))
| step_restart s : queue_step Restarts s (restart_queue s).

(** * Invariant *)

Definition live (m : QueueMessage) : Prop := mStatus m = StatusPending \/ mStatus m = StatusProcessing.

Record queue_wf (s : QueueSystem) : Prop := {
  qwf_rows i m : qRows (sQueue s) !! i = Some m -> mID m = i /\ i < qNext (sQueue s);
  qwf_nodup a : NoDup (map mID (place s a));
  qwf_disjoint a b id : placed s a id -> placed s b id -> a = b;
  qwf_placed a m : m ∈ place s a -> mAgentID m = a /\ mID m < qNext (sQueue s) /\
    (qRows (sQueue s) !! mID m = None \/ mID m ∈ qInFlight (sQueue s));
  qwf_inflight i : i ∈ qInFlight (sQueue s) -> exists m, qRows (sQueue s) !! i = Some m /\ live m;
  qwf_room a ch : qChannels (sQueue s) !! a = Some ch -> (length ch <= chanCap)%nat;
}.

(** Nothing is in flight without being somewhere. *)
Definition no_orphan (s : QueueSystem) : Prop :=
  forall i, i ∈ qInFlight (sQueue s) -> exists a, placed s a i.

(** Metrics and notifications are not part of it. *)
Definition same_core (q q' : PostgresQueue) : Prop :=
  qRows q' = qRows q /\ qNext q' = qNext q /\ qChannels q' = qChannels q /\ qInFlight q' = qInFlight q.

Lemma wf_core q q' h : same_core q q' -> queue_wf (mkQueueSystem q h) -> queue_wf (mkQueueSystem q' h).
Proof.
  intros (H1 & H2 & H3 & H4) [W1 W2 W3 W4 W5 W6].
  assert (forall a, place (mkQueueSystem q' h) a = place (mkQueueSystem q h) a) as Hp.
  { intros a. unfold place. simpl. by rewrite H3. }
  constructor; unfold placed in *; simpl in *; rewrite ?H1, ?H2, ?H3, ?H4; try done.
  - intros a. by rewrite Hp.
  - intros a b id. rewrite !Hp. apply W3.
  - intros a m. rewrite Hp. apply W4.
Qed.

Lemma orphan_core q q' h : same_core q q' -> no_orphan (mkQueueSystem q h) -> no_orphan (mkQueueSystem q' h).
Proof.
  intros (_ & _ & H3 & H4) Ho i. simpl. rewrite H4. intros Hi. destruct (Ho i Hi) as [a Ha].
  exists a. unfold placed, place in *. simpl in *. by rewrite H3.
Qed.

Lemma addMetric_core q a d : same_core q (addMetric q a d).
Proof. unfold addMetric. by case_bool_decide. Qed.

Lemma core_refl q : same_core q q.
Proof. done. Qed.

Lemma core_trans q1 q2 q3 : same_core q1 q2 -> same_core q2 q3 -> same_core q1 q3.
Proof. intros (? & ? & ? & ?) (? & ? & ? & ?). repeat split; congruence. Qed.

(** Changes of rows, with messages leaving the set in flight. *)
Lemma wf_change q h rows fl :
  queue_wf (mkQueueSystem q h) ->
  (forall i m, rows !! i = Some m -> exists m0, qRows q !! i = Some m0 /\ mID m = mID m0) ->
  fl ⊆ qInFlight q ->
  (forall i, i ∈ fl -> exists m, rows !! i = Some m /\ live m) ->
  (forall i a, i ∈ qInFlight q -> i ∉ fl -> placed (mkQueueSystem q h) a i -> rows !! i = None) ->
  queue_wf (mkQueueSystem (set_inflight (set_rows q rows) fl) h).
Proof.
  intros [W1 W2 W3 W4 W5 W6] Hrows Hfl Hlive Hout. constructor; simpl; try done.
  - intros i m Hi. destruct (Hrows i m Hi) as (m0 & H0 & ->). by apply W1.
  - intros a m Hm. destruct (W4 a m Hm) as (Ha & Hn & Hw). split; [done|]. split; [done|].
    destruct (decide (mID m ∈ fl)) as [Hi|Hi]; [by right|]. left.
    destruct Hw as [Hnone|Hin].
    + destruct (rows !! mID m) eqn:E; [|done]. destruct (Hrows _ _ E) as (m0 & H0 & _).
      simpl in Hnone. congruence.
    + apply (Hout _ a Hin Hi). unfold placed. by apply list_elem_of_fmap_2.
Qed.

Lemma orphan_sub q h rows fl :
  no_orphan (mkQueueSystem q h) -> fl ⊆ qInFlight q ->
  no_orphan (mkQueueSystem (set_inflight (set_rows q rows) fl) h).
Proof. intros Ho Hfl i Hi. destruct (Ho i (Hfl i Hi)) as [a Ha]. by exists a. Qed.

Lemma set_inflight_id q : set_inflight q (qInFlight q) = q.
Proof. by destruct q. Qed.

(** Row updates that keep what is in flight alive. *)
Lemma wf_update q h p f :
  queue_wf (mkQueueSystem q h) -> (forall m, mID (f m) = mID m) ->
  (forall i m, i ∈ qInFlight q -> qRows q !! i = Some m -> live m -> p m = true -> live (f m)) ->
  queue_wf (mkQueueSystem (update_where q p f).2 h).
Proof.
  intros Hwf Hid Hlive.
  assert ((update_where q p f).2 = set_inflight (set_rows q ((fun m => if p m then f m else m) <$> qRows q))
            (qInFlight q)) as -> by (by destruct q).
  apply wf_change; try done.
  - intros i m. rewrite lookup_fmap_Some. intros (m0 & <- & H0). exists m0. split; [done|].
    by destruct (p m0).
  - intros i Hi. destruct (qwf_inflight _ Hwf i Hi) as (m & Hm & Hl). simpl in Hm.
    exists (if p m then f m else m). rewrite lookup_fmap, Hm. split; [done|].
    destruct (p m) eqn:E; [|done]. by eapply Hlive.
Qed.

Lemma orphan_update q h p f :
  no_orphan (mkQueueSystem q h) -> no_orphan (mkQueueSystem (update_where q p f).2 h).
Proof. intros Ho i Hi. destruct (Ho i Hi) as [a Ha]. by exists a. Qed.

(** ** Sending *)

Lemma send_cases q msg r q' :
  send q msg = (r, q') ->
  (r = NoChannel /\ q' = q /\ qChannels q !! mAgentID msg = None) \/
  (exists ch, qChannels q !! mAgentID msg = Some ch /\
    ((r = Delivered /\ (length ch < chanCap)%nat /\
      q' = markInFlight (set_channels q (<[mAgentID msg := ch ++ [msg]]> (qChannels q))) (mID msg)) \/
     (r = Full /\ (chanCap <= length ch)%nat /\ q' = q))).
Proof.
  unfold send. destruct (qChannels q !! mAgentID msg) as [ch|]; [|intros [= <- <-]; by left].
  intros E. right. exists ch. split; [done|]. revert E.
  destruct (Nat.ltb_spec (length ch) chanCap); intros [= <- <-]; [left|right]; done.
Qed.

Lemma place_send q h msg ch a :
  qChannels q !! mAgentID msg = Some ch ->
  place (mkQueueSystem (markInFlight (set_channels q (<[mAgentID msg := ch ++ [msg]]> (qChannels q)))
           (mID msg)) h) a
  = place (mkQueueSystem q h) a ++ (if bool_decide (a = mAgentID msg) then [msg] else []).
Proof.
  intros Hc. unfold place. simpl. case_bool_decide as E.
  - subst a. rewrite lookup_insert_eq, Hc. simpl. by rewrite app_assoc.
  - rewrite lookup_insert_ne by done. by rewrite app_nil_r.
Qed.

Lemma wf_send q h msg m :
  queue_wf (mkQueueSystem q h) -> qRows q !! mID msg = Some m -> live m ->
  (forall a, ~ placed (mkQueueSystem q h) a (mID msg)) ->
  queue_wf (mkQueueSystem (send q msg).2 h).
Proof.
  intros Hwf Hrow Hl Hnp. destruct (send q msg) as [r q'] eqn:E.
  apply send_cases in E as [(_ & -> & _)|(ch & Hc & [(_ & Hlen & ->)|(_ & _ & ->)])]; [done| |done].
  destruct Hwf as [W1 W2 W3 W4 W5 W6]. cbn [snd].
  assert (forall a id, placed (mkQueueSystem (markInFlight (set_channels q
    (<[mAgentID msg := ch ++ [msg]]> (qChannels q))) (mID msg)) h) a id <->
    placed (mkQueueSystem q h) a id \/ (a = mAgentID msg /\ id = mID msg)) as Hpl.
  { intros a id. unfold placed. rewrite (place_send q h msg ch a Hc), map_app, elem_of_app.
    case_bool_decide as Ea; simpl; [rewrite list_elem_of_singleton|rewrite elem_of_nil]; naive_solver. }
  constructor.
  - apply W1.
  - intros a. rewrite (place_send q h msg ch a Hc), map_app. apply NoDup_app. split; [apply W2|].
    split; [|case_bool_decide; simpl; [apply NoDup_singleton|apply NoDup_nil_2]].
    intros id Hin. case_bool_decide; simpl; [|apply not_elem_of_nil].
    rewrite list_elem_of_singleton. intros ->. by apply (Hnp a).
  - intros a b id. rewrite !Hpl. intros [H1|[-> ->]] [H2|[-> H2]]; try done.
    + by eapply W3.
    + subst. by apply Hnp in H1.
    + by apply Hnp in H2.
  - intros a x. rewrite (place_send q h msg ch a Hc), elem_of_app. simpl. intros [Hx|Hx].
    + destruct (W4 a x Hx) as (? & ? & [?|?]); split; try done; split; try done; [by left|right].
      set_solver.
    + case_bool_decide as Ea; [|by apply elem_of_nil in Hx]. apply list_elem_of_singleton in Hx as ->.
      split; [done|]. split; [by apply (W1 _ _ Hrow)|]. right. set_solver.
  - intros i. simpl. rewrite elem_of_union, elem_of_singleton. intros [->|Hi]; [by exists m|by apply W5].
  - intros a ch'. simpl. rewrite lookup_insert_Some. intros [[<- <-]|[_ Hch]]; [|by eapply W6].
    rewrite length_app. simpl. unfold chanCap in *. lia.
Qed.

Lemma orphan_send q h msg : no_orphan (mkQueueSystem q h) -> no_orphan (mkQueueSystem (send q msg).2 h).
Proof.
  intros Ho. destruct (send q msg) as [r q'] eqn:E.
  apply send_cases in E as [(_ & -> & _)|(ch & Hc & [(_ & Hlen & ->)|(_ & _ & ->)])]; [done| |done].
  cbn [snd]. intros i. simpl. rewrite elem_of_union, elem_of_singleton. unfold placed. intros [->|Hi].
  - exists (mAgentID msg). rewrite (place_send q h msg ch _ Hc), bool_decide_eq_true_2, map_app by done.
    simpl. set_solver.
  - destruct (Ho i Hi) as [a Ha]. exists a. rewrite (place_send q h msg ch _ Hc), map_app, elem_of_app.
    by left.
Qed.

Lemma send_rows q msg : qRows (send q msg).2 = qRows q /\ qNodeID (send q msg).2 = qNodeID q.
Proof. unfold send. destruct (qChannels q !! _); [|done]. by destruct (_ <? _)%nat. Qed.

(** ** Queries *)

Lemma insert_row_perm m l : insert_row m l ≡ₚ m :: l.
Proof.
  induction l as [|x l IH]; simpl; [done|]. destruct (before m x); [done|].
  rewrite IH. by constructor.
Qed.

Lemma order_rows_perm l : order_rows l ≡ₚ l.
Proof. induction l as [|x l IH]; simpl; [done|]. by rewrite insert_row_perm, IH. Qed.

Lemma select_elem q p msg :
  (forall i m, qRows q !! i = Some m -> mID m = i) -> msg ∈ select q p ->
  exists m, qRows q !! mID msg = Some m /\ p m = true /\ msg = selected m.
Proof.
  intros Hk. unfold select. intros (m & -> & Hm)%list_elem_of_fmap.
  rewrite order_rows_perm in Hm. apply filter_elem in Hm as [Hm Hp].
  apply list_elem_of_fmap in Hm as ([i x] & -> & Hin). apply elem_of_map_to_list in Hin. simpl in *.
  exists x. by rewrite (Hk _ _ Hin).
Qed.

Lemma pending_live m : has_status StatusPending m = true -> live m.
Proof. intros H%bool_decide_eq_true. by left. Qed.

(** A row that is not in flight is in no place. *)
Lemma not_placed q h i m a :
  queue_wf (mkQueueSystem q h) -> qRows q !! i = Some m -> i ∉ qInFlight q ->
  ~ placed (mkQueueSystem q h) a i.
Proof.
  intros Hwf Hr Hi (x & -> & Hx)%list_elem_of_fmap.
  destruct (qwf_placed _ Hwf a x Hx) as (_ & _ & [H|H]); simpl in H; [congruence|done].
Qed.

(** ** Replays *)

(** Both invariants, for one queue beside the consumers [h]. *)
Definition keeps (h : gmap string QueueMessage) (q q' : PostgresQueue) : Prop :=
  (queue_wf (mkQueueSystem q h) -> queue_wf (mkQueueSystem q' h)) /\
  (queue_wf (mkQueueSystem q h) -> no_orphan (mkQueueSystem q h) -> no_orphan (mkQueueSystem q' h)).

Lemma keeps_core h q q' : same_core q q' -> keeps h q q'.
Proof. intros Hc. split; [by apply wf_core|intros _; by apply orphan_core]. Qed.

Lemma keeps_trans h q1 q2 q3 : keeps h q1 q2 -> keeps h q2 q3 -> keeps h q1 q3.
Proof. intros [H1 H1'] [H2 H2']. split; eauto. Qed.

Lemma keeps_send h q msg m :
  queue_wf (mkQueueSystem q h) -> qRows q !! mID msg = Some m -> live m -> mID msg ∉ qInFlight q ->
  keeps h q (send q msg).2.
Proof.
  intros Hwf Hr Hl Hi. split.
  - intros _. apply (wf_send q h msg m); try done. intros a. by eapply not_placed.
  - intros _. apply orphan_send.
Qed.

Lemma keeps_metric h q q' a d : keeps h q q' -> keeps h q (addMetric q' a d).
Proof. intros H. eapply keeps_trans; [exact H|]. apply keeps_core, addMetric_core. Qed.

Lemma addMetric_rows q a d : qRows (addMetric q a d) = qRows q.
Proof. by destruct (addMetric_core q a d) as (-> & _). Qed.

Lemma replay_one_keeps h q msg m :
  queue_wf (mkQueueSystem q h) -> qRows q !! mID msg = Some m -> live m ->
  keeps h q (replay_one q msg) /\ qRows (replay_one q msg) = qRows q.
Proof.
  intros Hwf Hr Hl. unfold replay_one, isInFlight. case_bool_decide as Hi.
  { split; [apply keeps_core, core_refl|done]. }
  pose proof (keeps_send h q msg m Hwf Hr Hl Hi) as Hk. pose proof (send_rows q msg) as [Hs _].
  destruct (send q msg) as [[] q1]; simpl in *;
    (split; [by apply keeps_metric|by rewrite addMetric_rows]).
Qed.

Lemma foldl_replay_keeps h l q :
  queue_wf (mkQueueSystem q h) ->
  (forall msg, msg ∈ l -> exists m, qRows q !! mID msg = Some m /\ live m) ->
  keeps h q (foldl replay_one q l).
Proof.
  revert q. induction l as [|msg l IH]; intros q Hwf Hl; simpl; [apply keeps_core, core_refl|].
  destruct (Hl msg) as (m & Hm & Hlive); [by left|].
  destruct (replay_one_keeps h q msg m Hwf Hm Hlive) as [Hk Hr].
  eapply keeps_trans; [exact Hk|]. apply IH; [by apply Hk|].
  intros x Hx. rewrite Hr. apply Hl. by right.
Qed.

Lemma replay_loop_keeps h agentID l q :
  queue_wf (mkQueueSystem q h) ->
  (forall msg, msg ∈ l -> exists m, qRows q !! mID msg = Some m /\ live m) ->
  keeps h q (replay_loop q agentID l).2.
Proof.
  revert q. induction l as [|msg l IH]; intros q Hwf Hl; simpl; [apply keeps_core, core_refl|].
  assert (forall q', qRows q' = qRows q -> queue_wf (mkQueueSystem q' h) ->
    keeps h q' (replay_loop q' agentID l).2) as Hrec.
  { intros q' Hr Hq'. apply IH; [done|]. intros x Hx. rewrite Hr. apply Hl. by right. }
  unfold isInFlight. case_bool_decide as Hi.
  { pose proof (Hrec q eq_refl Hwf) as Hq. by destruct (replay_loop q agentID l) as [[[? ?] ?] ?]. }
  destruct (Hl msg) as (m & Hm & Hlive); [by left|].
  pose proof (keeps_send h q msg m Hwf Hm Hlive Hi) as Hk. pose proof (send_rows q msg) as [Hs _].
  assert (forall d, keeps h q (replay_loop (addMetric (send q msg).2 agentID d) agentID l).2) as Hall.
  { intros d. pose proof (keeps_metric h q _ agentID d Hk) as Hm'.
    eapply keeps_trans; [exact Hm'|]. apply Hrec; [by rewrite addMetric_rows|by apply Hm']. }
  destruct (send q msg) as [r q1]. simpl in Hall.
  destruct r; (match goal with |- context [addMetric q1 agentID ?d] => specialize (Hall d) end);
    by destruct (replay_loop _ agentID l) as [[[? ?] ?] ?].
Qed.

Lemma rows_keyed q h i m : queue_wf (mkQueueSystem q h) -> qRows q !! i = Some m -> mID m = i.
Proof. intros Hwf H. by apply (qwf_rows _ Hwf). Qed.

Lemma ReplayAgent_keeps h q agentID :
  queue_wf (mkQueueSystem q h) -> keeps h q (ReplayAgent q agentID).
Proof.
  intros Hwf. unfold ReplayAgent. destruct (qChannels q !! agentID); [|apply keeps_core, core_refl].
  pose proof (replay_loop_keeps h agentID (agent_pending q agentID) q Hwf) as Hk.
  destruct (replay_loop q agentID _) as [[[p i] f] q1]. simpl in Hk.
  assert (keeps h q q1) as H1.
  { apply Hk. intros msg Hm. apply select_elem in Hm as (m & Hm & Hp & _);
      [|intros ? ?; by eapply rows_keyed].
    exists m. split; [done|]. apply andb_prop in Hp as [[Hp _]%andb_prop _]. by apply pending_live. }
  destruct (_ || _ || _); [by apply keeps_metric|done].
Qed.

Lemma update_where_keeps h q p f :
  queue_wf (mkQueueSystem q h) -> (forall m, mID (f m) = mID m) ->
  (forall i m, i ∈ qInFlight q -> qRows q !! i = Some m -> live m -> p m = true -> live (f m)) ->
  keeps h q (update_where q p f).2.
Proof. intros. split; [intros; by apply wf_update|intros _; apply orphan_update]. Qed.

Lemma Replay_keeps h q now : queue_wf (mkQueueSystem q h) -> keeps h q (Replay q now).
Proof.
  intros Hwf. unfold Replay. set (q1 := (update_where q (stale q now) requeued).2).
  assert (keeps h q q1) as H1 by (apply update_where_keeps; [done|done|by left]).
  assert (queue_wf (mkQueueSystem q1 h)) as Hwf1 by (by apply H1).
  eapply keeps_trans; [exact H1|]. apply foldl_replay_keeps; [done|].
  intros msg Hm. apply select_elem in Hm as (m & Hm & Hp & _); [|intros ? ?; by eapply rows_keyed].
  exists m. split; [done|]. apply andb_prop in Hp as [Hp _]. by apply pending_live.
Qed.

#[export] Hint Resolve core_refl addMetric_core keeps_core keeps_metric ReplayAgent_keeps Replay_keeps : kyvik.

(** ** Single operations *)

Lemma is_row_lookup q h id f i m :
  queue_wf (mkQueueSystem q h) -> qRows (update_where q (is_row id) f).2 !! i = Some m ->
  exists m0, qRows q !! i = Some m0 /\ m = if bool_decide (i = id) then f m0 else m0.
Proof.
  intros Hwf. simpl. rewrite lookup_fmap_Some. intros (m0 & <- & H0). exists m0. split; [done|].
  unfold is_row. rewrite (rows_keyed q h i m0 Hwf H0).
  destruct (Z.eqb_spec i id); [by rewrite bool_decide_eq_true_2|by rewrite bool_decide_eq_false_2].
Qed.

(** A row changes and its message leaves the set in flight, while it is nowhere. *)
Lemma settle_keeps h q id f :
  (forall m, mID (f m) = mID m) -> (forall a, ~ placed (mkQueueSystem q h) a id) ->
  keeps h q (clearInFlight (update_where q (is_row id) f).2 id).
Proof.
  intros Hid Hnp. split; [|intros _ Ho; apply orphan_sub; [done|simpl; set_solver]].
  intros Hwf. apply wf_change; try done.
  - intros i m Hm. apply (is_row_lookup q h id f i m Hwf) in Hm as (m0 & H0 & ->).
    exists m0. split; [done|]. by case_bool_decide.
  - simpl. set_solver.
  - intros i [Hi Hne]%elem_of_difference. simpl in Hi.
    destruct (qwf_inflight _ Hwf i Hi) as (m & Hm & Hl). exists m. split; [|done]. simpl in *.
    rewrite lookup_fmap, Hm. simpl. unfold is_row. rewrite (rows_keyed q h i m Hwf Hm).
    destruct (Z.eqb_spec i id); [set_solver|done].
  - intros i a Hi Hni Hp. exfalso. assert (i = id) as -> by (simpl in *; set_solver). by apply (Hnp a).
Qed.

Lemma Complete_keeps h q now id :
  (forall a, ~ placed (mkQueueSystem q h) a id) -> keeps h q (Complete q now id).
Proof. intros Hnp. by apply settle_keeps. Qed.

Lemma repush_keeps h q id m :
  queue_wf (mkQueueSystem q h) -> qRows q !! id = Some m -> live m -> id ∉ qInFlight q ->
  keeps h q (repushMessage q id).
Proof.
  intros Hwf Hm Hl Hi. unfold repushMessage. rewrite Hm.
  assert (mID (selected m) = id) as Hid by exact (rows_keyed q h id m Hwf Hm).
  assert (keeps h q (send q (selected m)).2) as Hk by (apply (keeps_send h q _ m); by rewrite ?Hid).
  destruct (send q (selected m)) as [[] q1]; simpl in *; [done|done|by apply keeps_metric].
Qed.

Lemma settle_row q id f m :
  qRows q !! id = Some m -> mID m = id ->
  qRows (clearInFlight (update_where q (is_row id) f).2 id) !! id = Some (f m) /\
  id ∉ qInFlight (clearInFlight (update_where q (is_row id) f).2 id).
Proof.
  intros Hm Hid. simpl. rewrite lookup_fmap, Hm. simpl. unfold is_row. rewrite Hid, Z.eqb_refl.
  split; [done|set_solver].
Qed.

Lemma QueueFail_clear q now id : QueueFail (clearInFlight q id) now id = QueueFail q now id.
Proof.
  unfold QueueFail. simpl. destruct (qRows q !! id); [|done].
  assert (qInFlight q ∖ {[id]} ∖ {[id]} = qInFlight q ∖ {[id]}) as E by set_solver.
  unfold update_where, clearInFlight, set_rows, set_inflight. simpl. by rewrite E.
Qed.

Lemma QueueFail_keeps h q now id q' :
  queue_wf (mkQueueSystem q h) -> (forall a, ~ placed (mkQueueSystem q h) a id) ->
  QueueFail q now id = Some q' -> keeps h q q'.
Proof.
  intros Hwf Hnp. unfold QueueFail. destruct (qRows q !! id) as [m|] eqn:Hm; [|done].
  pose proof (rows_keyed q h id m Hwf Hm) as Hid.
  destruct (_ <=? _); intros [= <-]; [by apply settle_keeps|].
  set (f := fun m0 => with_status m0 StatusPending (mAttempts m + 1) None (mCompletedAt m0)).
  assert (keeps h q (clearInFlight (update_where q (is_row id) f).2 id)) as H1 by (by apply settle_keeps).
  destruct (settle_row q id f m Hm Hid) as [Hrow Hfl].
  eapply keeps_trans; [exact H1|]. eapply repush_keeps; [by apply H1|exact Hrow|by left|exact Hfl].
Qed.

Lemma clear_absent q id : id ∉ qInFlight q -> clearInFlight q id = q.
Proof.
  intros Hi. destruct q as [n c r x ch fl mt nt]. unfold clearInFlight, set_inflight. simpl in *.
  f_equal. apply difference_disjoint_L. apply disjoint_singleton_r. exact Hi.
Qed.

Lemma Retry_keeps h q id m :
  queue_wf (mkQueueSystem q h) -> qRows q !! id = Some m -> mStatus m = StatusFailed ->
  keeps h q (RetryMessage q id).2.
Proof.
  intros Hwf Hm Hst. pose proof (rows_keyed q h id m Hwf Hm) as Hid.
  assert (id ∉ qInFlight q) as Hfl.
  { intros Hi. destruct (qwf_inflight _ Hwf id Hi) as (m' & Hm' & Hl). simpl in Hm'.
    rewrite Hm in Hm'. injection Hm' as <-. by destruct Hl as [Hl|Hl]; rewrite Hst in Hl. }
  unfold RetryMessage. destruct (update_where q _ _) as [n q1] eqn:Eu.
  set (g := fun m0 => with_status m0 StatusPending 0 None None) in *.
  assert (q1 = (update_where q (fun m => is_row id m && has_status StatusFailed m) g).2) as Hq1
    by (by rewrite Eu).
  assert (keeps h q q1) as H1.
  { rewrite Hq1. apply update_where_keeps; [done|done|]. intros i x Hi Hx _ [Hr _]%andb_prop.
    apply Z.eqb_eq in Hr. rewrite (rows_keyed q h i x Hwf Hx) in Hr. by subst i. }
  assert (clearInFlight q1 id = q1) as Hc.
  { apply clear_absent. by rewrite Hq1. }
  rewrite Hc. destruct (n =? 0)%nat; [done|]. eapply keeps_trans; [exact H1|].
  eapply (repush_keeps h q1 id (g m)); [by apply H1| |by left|by rewrite Hq1].
  rewrite Hq1. simpl. rewrite lookup_fmap, Hm. simpl. unfold is_row, has_status.
  by rewrite Hid, Z.eqb_refl, bool_decide_eq_true_2.
Qed.

Lemma filter_nothing {A} (f : A -> bool) (l : list A) : (forall x, x ∈ l -> f x = false) -> List.filter f l = [].
Proof.
  induction l as [|x l IH]; intros Hf; [done|]. simpl. rewrite (Hf x) by left. apply IH. intros y Hy. apply Hf. by right.
Qed.

Lemma update_nothing q p f : (forall i m, qRows q !! i = Some m -> p m = false) -> update_where q p f = (0%nat, q).
Proof.
  intros Hp. unfold update_where. f_equal.
  - apply length_zero_iff_nil. apply filter_nothing. intros m Hm. apply list_elem_of_fmap in Hm as ([i x] & -> & Hi%elem_of_map_to_list).
    exact (Hp i x Hi).
  - destruct q as [n c r x ch fl mt nt]. unfold set_rows. simpl in *. f_equal. apply map_eq. intros i. rewrite lookup_fmap.
    destruct (r !! i) as [m|] eqn:E; [|done]. simpl. by rewrite (Hp i m E).
Qed.

Lemma Retry_refused q id :
  (forall i m, qRows q !! i = Some m -> mID m = i) -> (forall m, qRows q !! id = Some m -> mStatus m <> StatusFailed) ->
  RetryMessage q id = (false, clearInFlight q id).
Proof.
  intros Hkey Hst. unfold RetryMessage. rewrite update_nothing; [done|]. intros i m Hm. unfold is_row, has_status.
  destruct (Z.eqb_spec (mID m) id) as [E|]; [|done]. simpl. rewrite (Hkey i m Hm) in E. subst i.
  apply bool_decide_eq_false. by apply Hst.
Qed.

Lemma Retry_refused_keeps h q id :
  queue_wf (mkQueueSystem q h) -> (forall m, qRows q !! id = Some m -> mStatus m <> StatusFailed) ->
  (forall a, ~ placed (mkQueueSystem q h) a id) -> keeps h q (RetryMessage q id).2.
Proof.
  intros Hwf Hst Hnp. rewrite (Retry_refused q id); [|intros i m; apply (rows_keyed q h i m Hwf)|done]. simpl.
  assert (clearInFlight q id = set_inflight (set_rows q (qRows q)) (qInFlight q ∖ {[id]})) as -> by (by destruct q).
  split; [intros _|intros _ Ho; apply orphan_sub; [done|set_solver]].
  apply wf_change; try done; [by eauto|set_solver| |].
  - intros i [Hi _]%elem_of_difference. by apply (qwf_inflight _ Hwf).
  - intros i b Hi Hni Hp. destruct (decide (i = id)) as [->|Hne]; [by destruct (Hnp b)|set_solver].
Qed.

(** Deletions clear what they delete. *)
Lemma delete_keeps h q p fl :
  fl ⊆ qInFlight q ->
  (forall i m, i ∈ fl -> qRows q !! i = Some m -> live m -> p m = false) ->
  (forall i m, i ∈ qInFlight q -> i ∉ fl -> qRows q !! i = Some m -> p m = true) ->
  keeps h q (set_inflight (delete_where q p).2 fl).
Proof.
  intros Hsub Hkeep Hout. split; [|intros _ Ho; by apply orphan_sub].
  intros Hwf. apply wf_change; try done.
  - intros i m. rewrite map_lookup_filter_Some. intros [H _]. by exists m.
  - intros i Hi. destruct (qwf_inflight _ Hwf i (Hsub _ Hi)) as (m & Hm & Hl). exists m. simpl in Hm.
    split; [|done]. apply map_lookup_filter_Some. split; [done|]. by eapply Hkeep.
  - intros i a Hi Hni _. apply map_lookup_filter_None. right. intros m Hm. simpl.
    rewrite (Hout i m Hi Hni Hm). done.
Qed.

Lemma cleared_is (i id : Z) (fl : gset Z) : i ∈ fl -> i ∉ fl ∖ {[id]} -> i = id.
Proof. intros Hi Hn. destruct (decide (i = id)); [done|set_solver]. Qed.

Lemma Delete_keeps h q id : queue_wf (mkQueueSystem q h) -> keeps h q (DeleteMessage q id).2.
Proof.
  intros Hwf. apply (delete_keeps h q (is_row id) (qInFlight q ∖ {[id]})); [set_solver| |].
  - intros i m Hi Hm _. unfold is_row. rewrite (rows_keyed q h i m Hwf Hm). apply Z.eqb_neq.
    by apply elem_of_difference in Hi as [_ ?%not_elem_of_singleton].
  - intros i m Hi Hni Hm. unfold is_row. rewrite (rows_keyed q h i m Hwf Hm). apply Z.eqb_eq.
    by eapply cleared_is.
Qed.

Lemma clear_each ids q : foldl clearInFlight q ids = set_inflight q (qInFlight q ∖ list_to_set ids).
Proof.
  revert q. induction ids as [|id ids IH]; intros q; simpl.
  - destruct q. unfold set_inflight. simpl. f_equal. set_solver.
  - rewrite IH. unfold clearInFlight, set_inflight. simpl. f_equal. set_solver.
Qed.

Lemma DeleteMessages_keeps h q a st : queue_wf (mkQueueSystem q h) -> keeps h q (DeleteMessages q a st).2.
Proof.
  intros Hwf. unfold DeleteMessages. case_bool_decide; [by auto with kyvik|]. simpl.
  rewrite clear_each. set (ids := map mID _).
  assert (forall i m, qRows q !! i = Some m -> i ∈ ids <-> of_agent a st m = true) as Hids.
  { intros i m Hm. subst ids. rewrite list_elem_of_fmap. split.
    - intros (x & -> & [Hx Hp]%filter_elem).
      apply list_elem_of_fmap in Hx as ([j y] & -> & Hj%elem_of_map_to_list). simpl in *.
      rewrite (rows_keyed q h j y Hwf Hj) in Hm. congruence.
    - intros Hp. exists m. split; [by rewrite (rows_keyed q h i m Hwf Hm)|]. apply filter_elem.
      split; [|done]. apply list_elem_of_fmap. exists (i, m). split; [done|]. by apply elem_of_map_to_list. }
  apply (delete_keeps h q (of_agent a st) (qInFlight q ∖ list_to_set ids)); [set_solver| |].
  - intros i m Hi Hm _. destruct (of_agent a st m) eqn:E; [|done]. apply (Hids i m Hm) in E. set_solver.
  - intros i m Hi Hni Hm. apply (Hids i m Hm). destruct (decide (i ∈ ids)); [done|set_solver].
Qed.

Lemma QueueCleanup_keeps h q now hours : queue_wf (mkQueueSystem q h) -> keeps h q (QueueCleanup q now hours).2.
Proof.
  intros Hwf. unfold QueueCleanup. set (p := fun m => _).
  assert ((delete_where q p).2 = set_inflight (delete_where q p).2 (qInFlight q)) as -> by (by destruct q).
  apply delete_keeps; [done| |done]. intros i m _ _ [Hl|Hl]; unfold p, has_status; by rewrite Hl.
Qed.

(** ** Enqueue *)

Lemma insert_keeps h q (m : QueueMessage) :
  queue_wf (mkQueueSystem q h) -> mID m = qNext q -> 
  keeps h q (set_next (set_rows q (<[qNext q := m]> (qRows q))) (qNext q + 1)).
Proof.
  intros Hwf Hid. split; [|intros _ Ho i Hi; destruct (Ho i Hi) as [a Ha]; by exists a].
  intros _. destruct Hwf as [W1 W2 W3 W4 W5 W6]. constructor; simpl in *; try done.
  - intros i x. rewrite lookup_insert_Some. intros [[<- <-]|[_ Hx]]; [split; [done|lia]|].
    destruct (W1 i x Hx). split; [done|lia].
  - intros a x Hx. destruct (W4 a x Hx) as (Ha & Hn & Hw). split; [done|]. split; [lia|].
    rewrite lookup_insert_ne by lia. done.
  - intros i Hi. destruct (W5 i Hi) as (x & Hx & Hl). exists x. split; [|done].
    rewrite lookup_insert_ne; [done|]. intros <-. apply W1 in Hx as [_ Hx]. lia.
Qed.

Lemma fresh_not_inflight q h : queue_wf (mkQueueSystem q h) -> qNext q ∉ qInFlight q.
Proof.
  intros Hwf Hi. destruct (qwf_inflight _ Hwf _ Hi) as (m & Hm & _). apply (qwf_rows _ Hwf) in Hm. simpl in Hm. lia.
Qed.

Lemma Enqueue_keeps h q now msg :
  queue_wf (mkQueueSystem q h) -> (mStatus msg = EmptyString \/ mStatus msg = StatusPending) ->
  keeps h q (Enqueue q now msg).2.
Proof.
  intros Hwf Hst. unfold Enqueue. set (m := with_id (enqueue_defaults now msg) (qNext q)).
  set (q1 := set_next _ _). set (q2 := if bool_decide (mTargetNodeID m = EmptyString) then q1 else _).
  assert (keeps h q q1) as H1 by (by apply (insert_keeps h q (inserted m))).
  assert (same_core q1 q2) as Hc by (unfold q2; by case_bool_decide).
  assert (keeps h q q2) as H2 by (eapply keeps_trans; [exact H1|by apply keeps_core]).
  destruct (_ && _); [by apply keeps_metric|]. destruct (negb _); [done|].
  assert (mStatus m = StatusPending) as Hp.
  { simpl. destruct Hst as [->| ->]; [done|]. by rewrite bool_decide_eq_false_2. }
  assert (keeps h q2 (send q2 m).2) as H3.
  { destruct Hc as (Hr & _ & _ & Hf). apply (keeps_send h q2 m (inserted m)).
    - by apply H2.
    - rewrite Hr. simpl. by rewrite lookup_insert_eq.
    - left. exact Hp.
    - rewrite Hf. exact (fresh_not_inflight q h Hwf). }
  destruct (send q2 m) as [[] q3]; simpl in *; [| |apply keeps_metric]; by eapply keeps_trans.
Qed.

Lemma Dequeue_keeps h q a : keeps h q (Dequeue q a).
Proof.
  unfold Dequeue. destruct (qChannels q !! a) eqn:E; [by auto with kyvik|].
  assert (forall b, place (mkQueueSystem (set_channels q (<[a := []]> (qChannels q))) h) b
                    = place (mkQueueSystem q h) b) as Hp.
  { intros b. unfold place. simpl. destruct (decide (b = a)) as [->|Hne];
      [by rewrite lookup_insert_eq, E|by rewrite lookup_insert_ne]. }
  split.
  - intros [W1 W2 W3 W4 W5 W6]. constructor; unfold placed in *; try done.
    + intros b. by rewrite Hp.
    + intros b c id. rewrite !Hp. apply W3.
    + intros b m. rewrite Hp. apply W4.
    + intros b ch. simpl. rewrite lookup_insert_Some. intros [[_ <-]|[_ H]]; [simpl; lia|by eapply W6].
  - intros _ Ho i Hi. destruct (Ho i Hi) as [b Hb]. exists b. unfold placed in *. by rewrite Hp.
Qed.

(** ** Consumers *)

(** Places may lose messages. *)
Lemma wf_shrink s s' :
  queue_wf s -> qRows (sQueue s') = qRows (sQueue s) -> qNext (sQueue s') = qNext (sQueue s) ->
  qInFlight (sQueue s') = qInFlight (sQueue s) ->
  (forall a, place s' a `sublist_of` place s a) ->
  (forall a ch, qChannels (sQueue s') !! a = Some ch -> (length ch <= chanCap)%nat) ->
  queue_wf s'.
Proof.
  intros [W1 W2 W3 W4 W5 W6] Hr Hn Hf Hsub Hroom.
  assert (forall a id, placed s' a id -> placed s a id) as Hpl.
  { intros a id. unfold placed. rewrite !list_elem_of_fmap. intros (m & -> & Hm). exists m.
    split; [done|]. by eapply elem_of_sublist. }
  constructor; rewrite ?Hr, ?Hn, ?Hf; try done.
  - intros a. eapply sublist_NoDup; [apply W2|]. by apply (fmap_sublist mID).
  - intros a b id H1 H2. by eapply W3; apply Hpl.
  - intros a m Hm. apply W4. by eapply elem_of_sublist.
Qed.

Lemma leave_wf q h a : queue_wf (mkQueueSystem q h) -> queue_wf (mkQueueSystem q (delete a h)).
Proof.
  intros Hwf. apply (wf_shrink _ _ Hwf); try done; [|apply (qwf_room _ Hwf)].
  intros b. unfold place. simpl. apply sublist_app; [|done]. destruct (decide (b = a)) as [->|Hne].
  - rewrite lookup_delete_eq. apply sublist_nil_l.
  - by rewrite lookup_delete_ne.
Qed.

Lemma place_delete q h a b : a <> b -> place (mkQueueSystem q (delete a h)) b = place (mkQueueSystem q h) b.
Proof. intros Hne. unfold place. simpl. by rewrite lookup_delete_ne. Qed.

(** A message that leaves its consumer is nowhere. *)
Lemma released q h a m b :
  queue_wf (mkQueueSystem q h) -> h !! a = Some m -> ~ placed (mkQueueSystem q (delete a h)) b (mID m).
Proof.
  intros Hwf Hm Hp. assert (placed (mkQueueSystem q h) a (mID m)) as Ha.
  { unfold placed, place. simpl. rewrite Hm. simpl. set_solver. }
  destruct (decide (a = b)) as [<-|Hne].
  - pose proof (qwf_nodup _ Hwf a) as Hnd. revert Hp Hnd. unfold placed, place. simpl.
    rewrite lookup_delete_eq, Hm. simpl. intros Hp [Hn _]%NoDup_cons. done.
  - apply Hne, (qwf_disjoint _ Hwf a b (mID m)); [done|]. unfold placed in *.
    by rewrite place_delete in Hp.
Qed.

Lemma orphan_release q h a m q' :
  queue_wf (mkQueueSystem q h) -> h !! a = Some m -> no_orphan (mkQueueSystem q h) ->
  qInFlight q' = qInFlight q ∖ {[mID m]} -> qChannels q' = qChannels q ->
  no_orphan (mkQueueSystem q' (delete a h)).
Proof.
  intros Hwf Hm Ho Hf Hc i. simpl. rewrite Hf. intros [Hi Hne%not_elem_of_singleton]%elem_of_difference.
  destruct (Ho i Hi) as [b Hb]. exists b. revert Hb. unfold placed, place. simpl. rewrite Hc.
  destruct (decide (a = b)) as [<-|Hab]; [|by rewrite lookup_delete_ne].
  rewrite lookup_delete_eq, Hm. simpl. rewrite elem_of_cons. naive_solver.
Qed.

Lemma take_wf s now a s' :
  queue_wf s -> take_message s now a = Some s' -> queue_wf s' /\ (no_orphan s -> no_orphan s').
Proof.
  destruct s as [q h]. intros Hwf. unfold take_message. simpl.
  destruct (h !! a) eqn:Eh; [done|]. destruct (qChannels q !! a) as [[|msg rest]|] eqn:Ec; [done| |done].
  intros [= <-]. set (q1 := set_channels q _).
  assert (forall b, place (mkQueueSystem q1 (<[a := msg]> h)) b = place (mkQueueSystem q h) b) as Hp.
  { intros b. unfold place. simpl. destruct (decide (b = a)) as [->|Hne].
    - by rewrite !lookup_insert_eq, Eh, Ec.
    - by rewrite !lookup_insert_ne. }
  assert (queue_wf (mkQueueSystem q1 (<[a := msg]> h))) as H1.
  { apply (wf_shrink _ _ Hwf); try done; [intros b; by rewrite Hp|]. intros b ch. simpl.
    rewrite lookup_insert_Some. intros [[_ <-]|[_ H]]; [|by eapply (qwf_room _ Hwf)].
    pose proof (qwf_room _ Hwf a _ Ec). simpl in *. lia. }
  assert (keeps (<[a := msg]> h) q1 (MarkProcessing q1 now (mID msg))) as Hk.
  { apply update_where_keeps; [done|done|by right]. }
  split; [by apply Hk|]. intros Ho. apply Hk; [done|]. intros i Hi. destruct (Ho i Hi) as [b Hb].
  exists b. unfold placed in *. by rewrite Hp.
Qed.

Lemma drop_wf s a s' : queue_wf s -> drop_message s a = Some s' -> queue_wf s'.
Proof.
  destruct s as [q h]. intros Hwf. unfold drop_message. simpl.
  destruct (h !! a) eqn:Eh; [done|]. destruct (qChannels q !! a) as [[|msg rest]|] eqn:Ec; [done| |done].
  case_bool_decide; [|done]. intros [= <-]. apply (wf_shrink _ _ Hwf); try done.
  - intros b. unfold place. simpl. destruct (decide (b = a)) as [->|Hne].
    + rewrite lookup_insert_eq, Eh, Ec. simpl. by apply sublist_cons.
    + by rewrite lookup_insert_ne.
  - intros b ch. simpl. rewrite lookup_insert_Some. intros [[_ <-]|[_ H']]; [|by eapply (qwf_room _ Hwf)].
    pose proof (qwf_room _ Hwf a _ Ec). simpl in *. lia.
Qed.

Lemma finish_wf s now a s' :
  queue_wf s -> finish_message s now a = Some s' -> queue_wf s' /\ (no_orphan s -> no_orphan s').
Proof.
  destruct s as [q h]. intros Hwf. unfold finish_message. simpl.
  destruct (h !! a) as [m|] eqn:Eh; [|done]. intros [= <-].
  pose proof (leave_wf q h a Hwf) as Hl.
  pose proof (Complete_keeps (delete a h) q now (mID m) (fun b => released q h a m b Hwf Eh)) as Hc.
  assert (queue_wf (mkQueueSystem (Complete q now (mID m)) (delete a h))) as H1 by (by apply Hc).
  pose proof (ReplayAgent_keeps (delete a h) _ a H1) as Hr. split; [by apply Hr|].
  intros Ho. apply Hr; [done|]. by eapply orphan_release.
Qed.

Lemma fail_wf s now a s' :
  queue_wf s -> fail_message s now a = Some s' -> queue_wf s' /\ (no_orphan s -> no_orphan s').
Proof.
  destruct s as [q h]. intros Hwf. unfold fail_message. simpl.
  destruct (h !! a) as [m|] eqn:Eh; [|done]. intros [= <-].
  pose proof (leave_wf q h a Hwf) as Hl.
  (* with the failed message out of the set in flight *)
  assert (queue_wf (mkQueueSystem (clearInFlight q (mID m)) (delete a h)) /\
    (no_orphan (mkQueueSystem q h) -> no_orphan (mkQueueSystem (clearInFlight q (mID m)) (delete a h))))
    as [Hcl Hco].
  { split; [|intros; by eapply orphan_release].
    assert (clearInFlight q (mID m) = set_inflight (set_rows q (qRows q)) (qInFlight q ∖ {[mID m]})) as ->
      by (by destruct q).
    apply wf_change; try done; [by eauto|set_solver| |].
    - intros i [Hi _]%elem_of_difference. by apply (qwf_inflight _ Hwf).
    - intros i b Hi Hni Hp. apply (cleared_is i (mID m)) in Hi; [|done]. subst i.
      exfalso. by apply (released q h a m b Hwf Eh). }
  set (q0 := default q (QueueFail q now (mID m))).
  assert (queue_wf (mkQueueSystem q0 (delete a h)) /\
    (no_orphan (mkQueueSystem q h) -> no_orphan (mkQueueSystem q0 (delete a h)))) as [H1 H2].
  { unfold q0. destruct (QueueFail q now (mID m)) as [q'|] eqn:Ef; simpl.
    - rewrite <- QueueFail_clear in Ef.
      destruct (QueueFail_keeps (delete a h) _ now (mID m) q' Hcl
        (fun b => released q h a m b Hwf Eh) Ef) as [K1 K2].
      split; [by apply K1|]. intros Ho. apply K2; [done|]. by apply Hco.
    - split; [done|]. intros Ho. assert (clearInFlight q (mID m) = q) as <-; [|by apply Hco].
      apply clear_absent. intros Hi. destruct (qwf_inflight _ Hwf _ Hi) as (x & Hx & _). simpl in Hx.
      unfold QueueFail in Ef. rewrite Hx in Ef. by destruct (_ <=? _). }
  pose proof (ReplayAgent_keeps (delete a h) _ a H1) as Hr. split; [by apply Hr|].
  intros Ho. apply Hr; [done|]. by apply H2.
Qed.

(** ** Steps *)

Lemma restart_queue_wf s : queue_wf s -> queue_wf (restart_queue s).
Proof.
  intros Hwf. constructor; try done.
  - apply (qwf_rows _ Hwf).
  - intros a. unfold place. simpl. apply NoDup_nil_2.
  - intros a b id H. by apply elem_of_nil in H.
  - intros a m H. by apply elem_of_nil in H.
Qed.

Lemma step_keeps kind s s' :
  queue_step kind s s' -> queue_wf s ->
  queue_wf s' /\ (kind <> Leaves -> no_orphan s -> no_orphan s').
Proof.
  intros Hs Hwf.
  assert (forall h q q', queue_wf (mkQueueSystem q h) -> keeps h q q' -> queue_wf (mkQueueSystem q' h) /\
    (kind <> Leaves -> no_orphan (mkQueueSystem q h) -> no_orphan (mkQueueSystem q' h))) as Hk.
  { intros h q q' Hq [H1 H2]. split; [by apply H1|]. intros _. by apply H2. }
  destruct Hs as [[q h]|[q h]| | | | |[q h]|[q h]|[q h]|[q h]|[q h] id m|[q h] id|[q h]|[q h]|[q h]|[q h]]; simpl in *.
  - by apply Hk, Enqueue_keeps.
  - by apply Hk, Dequeue_keeps.
  - eapply take_wf in H as [? ?]; [|done]. split; auto.
  - eapply finish_wf in H as [? ?]; [|done]. split; auto.
  - eapply fail_wf in H as [? ?]; [|done]. split; auto.
  - split; [by eapply drop_wf|done].
  - split; [by apply leave_wf|done].
  - split; [|done]. apply leave_wf. by apply update_where_keeps; [done|done|left|].
  - by apply Hk, Replay_keeps.
  - by apply Hk, ReplayAgent_keeps.
  - apply Hk; [done|]. by eapply Retry_keeps.
  - by apply Hk, Retry_refused_keeps.
  - by apply Hk, Delete_keeps.
  - by apply Hk, DeleteMessages_keeps.
  - by apply Hk, QueueCleanup_keeps.
  - split; [by apply restart_queue_wf|]. intros _ _ i Hi. by apply elem_of_empty in Hi.
Qed.

(** A queue over an empty table. *)
Definition queue_init (node : string) (cfg : option QueueConfig) : QueueSystem :=
  mkQueueSystem (NewPostgresQueue ∅ 1 node cfg) ∅.

Lemma init_wf node cfg : queue_wf (queue_init node cfg) /\ no_orphan (queue_init node cfg).
Proof.
  split; [|intros i H; by apply elem_of_empty in H]. constructor; try done.
  - intros a. unfold place. simpl. apply NoDup_nil_2.
  - intros a b id H. by apply elem_of_nil in H.
  - intros a m H. by apply elem_of_nil in H.
Qed.

Definition any_step (s s' : QueueSystem) : Prop := exists kind, queue_step kind s s'.
Definition serving_step (s s' : QueueSystem) : Prop := exists kind, kind <> Leaves /\ queue_step kind s s'.
Definition running_step (s s' : QueueSystem) : Prop := exists kind, kind <> Restarts /\ kind <> Refuses /\ queue_step kind s s'.

Lemma steps_wf s s' : rtc any_step s s' -> queue_wf s -> queue_wf s'.
Proof.
  induction 1 as [|s1 s2 s3 [kind Hk] _ IH]; [done|]. intros Hwf. apply IH. by eapply step_keeps.
Qed.

Lemma serving_steps_wf s s' :
  rtc serving_step s s' -> queue_wf s -> no_orphan s -> queue_wf s' /\ no_orphan s'.
Proof.
  induction 1 as [|s1 s2 s3 (kind & Hne & Hk) _ IH]; [done|]. intros Hwf Ho.
  destruct (step_keeps kind s1 s2 Hk Hwf) as [H1 H2]. apply IH; auto.
Qed.

(** * Exactness of a replay *)

(** What a replay of an agent still has to push. *)
Definition not_in_flight (q : PostgresQueue) (m : QueueMessage) : bool := negb (isInFlight q (mID m)).

Lemma replay_loop_exact a l q ch :
  qChannels q !! a = Some ch -> Forall (fun m => mAgentID m = a) l -> NoDup (map mID l) ->
  let pushed := take (chanCap - length ch) (List.filter (not_in_flight q) l) in
  let q' := (replay_loop q a l).2 in
  qRows q' = qRows q /\ qChannels q' = <[a := ch ++ pushed]> (qChannels q) /\
  qInFlight q' = list_to_set (map mID pushed) ∪ qInFlight q.
Proof.
  revert q ch. induction l as [|msg l IH]; intros q ch Hc Ha Hnd; simpl.
  { rewrite take_nil, app_nil_r. simpl. rewrite insert_id by done. split; [done|]. split; [done|set_solver]. }
  apply Forall_cons in Ha as [Hmsg Ha]. simpl in Hnd. apply NoDup_cons in Hnd as [Hnin Hnd].
  assert (not_in_flight q msg = negb (isInFlight q (mID msg))) as -> by done.
  destruct (isInFlight q (mID msg)) eqn:Hi; simpl.
  { specialize (IH q ch Hc Ha Hnd). simpl in IH. by destruct (replay_loop q a l) as [[[? ?] ?] ?]. }
  unfold send. rewrite Hmsg, Hc. destruct (Nat.ltb_spec (length ch) chanCap) as [Hlt|Hge].
  - set (q1 := addMetric _ a _).
    assert (same_core (markInFlight (set_channels q (<[a := ch ++ [msg]]> (qChannels q))) (mID msg)) q1)
      as (Hr & _ & Hch & Hfl) by apply addMetric_core.
    assert (List.filter (not_in_flight q1) l = List.filter (not_in_flight q) l) as Hf.
    { apply filter_ext_in. intros m Hm. unfold not_in_flight, isInFlight. f_equal.
      apply bool_decide_ext. rewrite Hfl. simpl. assert (mID m <> mID msg); [|set_solver].
      intros E. apply Hnin. rewrite <- E. by apply list_elem_of_fmap_2, list_elem_of_In. }
    destruct (IH q1 (ch ++ [msg])) as (H1 & H2 & H3); try done.
    { rewrite Hch. simpl. by rewrite lookup_insert_eq. }
    destruct (replay_loop q1 a l) as [[[? ?] ?] q2]. simpl in *. rewrite Hf, length_app in *. simpl in *.
    replace (chanCap - length ch)%nat with (S (chanCap - (length ch + 1)))%nat by lia. simpl.
    split; [congruence|]. split.
    + rewrite H2, Hch. simpl. by rewrite insert_insert_eq, <- app_assoc.
    + rewrite H3, Hfl. simpl. set_solver.
  - set (q1 := addMetric q a _).
    assert (same_core q q1) as (Hr & _ & Hch & Hfl) by apply addMetric_core.
    destruct (IH q1 ch) as (H1 & H2 & H3); try done; [by rewrite Hch|].
    destruct (replay_loop q1 a l) as [[[? ?] ?] q2]. simpl in *.
    replace (chanCap - length ch)%nat with 0%nat in * by lia. simpl in *.
    rewrite H1, H2, H3, Hr, Hch, Hfl. done.
Qed.

Lemma insert_row_sorted m l :
  Sorted (fun a b => before a b = true) l -> Sorted (fun a b => before a b = true) (insert_row m l).
Proof.
  intros Hs. induction Hs as [|x l Hs IH Hx]; simpl; [by repeat constructor|].
  destruct (before m x) eqn:E; [by repeat constructor|]. constructor; [done|].
  assert (before x m = true) as Hxm.
  { revert E. unfold before. rewrite orb_false_iff, andb_false_iff, orb_true_iff, andb_true_iff.
    rewrite !Z.ltb_lt, !Z.ltb_ge, !Z.eqb_eq, !Z.eqb_neq, !Z.leb_le, !Z.leb_gt. lia. }
  destruct l as [|y l]; simpl; [by constructor|]. destruct (before m y); [by constructor|].
  inversion Hx; subst. by constructor.
Qed.

Lemma order_rows_sorted l : Sorted (fun a b => before a b = true) (order_rows l).
Proof. induction l as [|x l IH]; simpl; [constructor|by apply insert_row_sorted]. Qed.

Lemma select_sorted q p : Sorted (fun a b => before a b = true) (select q p).
Proof.
  unfold select. generalize (order_rows_sorted (List.filter p (map snd (map_to_list (qRows q))))).
  intros Hs. induction Hs as [|x l Hs IH Hx]; simpl; [constructor|]. constructor; [done|].
  by destruct Hx; constructor.
Qed.

Lemma select_nodup q h p :
  queue_wf (mkQueueSystem q h) -> NoDup (map mID (select q p)).
Proof.
  intros Hwf. unfold select. rewrite map_map. simpl. rewrite order_rows_perm.
  apply (sublist_NoDup _ (map mID (map snd (map_to_list (qRows q))))).
  - rewrite map_map. erewrite map_ext_in; [apply NoDup_fst_map_to_list|].
    intros [i m] Hin%list_elem_of_In%elem_of_map_to_list. simpl. by eapply rows_keyed.
  - apply (fmap_sublist mID). clear. induction (map snd _) as [|x l IH]; simpl; [constructor|].
    destruct (p x); by constructor.
Qed.

Lemma select_all q p i m :
  qRows q !! i = Some m -> p m = true -> selected m ∈ select q p.
Proof.
  intros Hm Hp. unfold select. apply list_elem_of_fmap_2. rewrite order_rows_perm. apply filter_elem.
  split; [|done]. apply list_elem_of_fmap. exists (i, m). split; [done|]. by apply elem_of_map_to_list.
Qed.

Lemma ReplayAgent_exact s a ch :
  queue_wf s -> qChannels (sQueue s) !! a = Some ch ->
  let todo := List.filter (not_in_flight (sQueue s)) (agent_pending (sQueue s) a) in
  let q' := ReplayAgent (sQueue s) a in
  qChannels q' !! a = Some (ch ++ take (chanCap - length ch) todo) /\
  qRows q' = qRows (sQueue s) /\
  Sorted (fun x y => before x y = true) (agent_pending (sQueue s) a).
Proof.
  destruct s as [q h]. intros Hwf Hc. simpl in *. unfold ReplayAgent. rewrite Hc.
  destruct (replay_loop_exact a (agent_pending q a) q ch Hc) as (H1 & H2 & _).
  { apply Forall_forall. intros m (r & Hr & Hp & ->)%select_elem;
      [|intros ? ?; by eapply rows_keyed].
    apply andb_prop in Hp as [[_ Hp]%andb_prop _]. by apply bool_decide_eq_true in Hp. }
  { by eapply select_nodup. }
  destruct (replay_loop q a (agent_pending q a)) as [[[p i] f] q1]. simpl in H1, H2.
  split; [|split; [|apply select_sorted]].
  - destruct (_ || _ || _); [destruct (addMetric_core q1 a (mkQueueMetrics 0 0 0 (i + f) i 0))
      as (_ & _ & -> & _)|]; by rewrite H2, lookup_insert_eq.
  - destruct (_ || _ || _); [by rewrite addMetric_rows|done].
Qed.

(** * Messages nobody delivers *)

(** In flight for the queue, and nowhere. *)
Definition stranded (s : QueueSystem) (id : Z) : Prop :=
  id ∈ qInFlight (sQueue s) /\ forall a, ~ placed s a id.

(** An operation that leaves a message in flight where it is. *)
Definition untouched (h : gmap string QueueMessage) (id : Z) (q q' : PostgresQueue) : Prop :=
  id ∈ qInFlight q -> id ∈ qInFlight q' /\
    forall a, placed (mkQueueSystem q' h) a id -> placed (mkQueueSystem q h) a id.

Lemma untouched_refl h id q : untouched h id q q.
Proof. by intros Hi. Qed.

Lemma untouched_trans h id q1 q2 q3 : untouched h id q1 q2 -> untouched h id q2 q3 -> untouched h id q1 q3.
Proof. intros H1 H2 Hi. destruct (H1 Hi) as [Hi2 Hp1]. destruct (H2 Hi2) as [Hi3 Hp2]. eauto. Qed.

Lemma untouched_same h id q q' :
  qChannels q' = qChannels q -> qInFlight q' = qInFlight q -> untouched h id q q'.
Proof. intros Hc Hf Hi. rewrite Hf. split; [done|]. intros a. unfold placed, place. simpl. by rewrite Hc. Qed.

Lemma untouched_metric h id q a d : untouched h id q (addMetric q a d).
Proof. destruct (addMetric_core q a d) as (_ & _ & Hc & Hf). by apply untouched_same. Qed.

Lemma untouched_clear h id q i : i <> id -> untouched h id q (clearInFlight q i).
Proof. intros Hne Hi. split; [simpl; set_solver|done]. Qed.

Lemma untouched_send h id q msg : mID msg <> id -> untouched h id q (send q msg).2.
Proof.
  intros Hne Hi. destruct (send q msg) as [r q'] eqn:E.
  apply send_cases in E as [(_ & -> & _)|(ch & Hc & [(_ & _ & ->)|(_ & _ & ->)])]; [done| |done].
  simpl. split; [set_solver|]. intros a. unfold placed. rewrite (place_send q h msg ch a Hc), map_app, elem_of_app.
  case_bool_decide; simpl; [rewrite list_elem_of_singleton|rewrite elem_of_nil]; naive_solver.
Qed.

Lemma untouched_send_new h id q msg : mID msg ∉ qInFlight q -> untouched h id q (send q msg).2.
Proof. intros Hn Hi. apply untouched_send; [|done]. intros <-. done. Qed.

Lemma untouched_replay_one h id q msg : untouched h id q (replay_one q msg).
Proof.
  unfold replay_one, isInFlight. case_bool_decide as Hi; [apply untouched_refl|].
  pose proof (untouched_send_new h id q msg Hi) as Hs.
  destruct (send q msg) as [[] q1]; (eapply untouched_trans; [exact Hs|apply untouched_metric]).
Qed.

Lemma untouched_replay h id q now : untouched h id q (Replay q now).
Proof.
  unfold Replay. set (q1 := (update_where q _ _).2).
  apply (untouched_trans _ _ _ q1); [by apply untouched_same|]. generalize (select q1 (fun m =>
    has_status StatusPending m && for_node q1 m)). intros l. clearbody q1. revert q1.
  induction l as [|msg l IH]; intros q1; simpl; [apply untouched_refl|].
  eapply untouched_trans; [apply untouched_replay_one|apply IH].
Qed.

Lemma untouched_replay_agent h id q a : untouched h id q (ReplayAgent q a).
Proof.
  unfold ReplayAgent. destruct (qChannels q !! a) as [ch|]; [|apply untouched_refl].
  generalize (agent_pending q a). intros l'.
  assert (forall l q0, untouched h id q0 (replay_loop q0 a l).2) as Hloop.
  { induction l as [|msg l IH]; intros q0; simpl; [apply untouched_refl|].
    unfold isInFlight. case_bool_decide as Hi.
    { pose proof (IH q0). by destruct (replay_loop q0 a l) as [[[? ?] ?] ?]. }
    pose proof (untouched_send_new h id q0 msg Hi) as Hs.
    assert (forall d, untouched h id q0 (replay_loop (addMetric (send q0 msg).2 a d) a l).2) as Hall.
    { intros d. eapply untouched_trans; [exact Hs|]. eapply untouched_trans; [apply untouched_metric|apply IH]. }
    destruct (send q0 msg) as [r q1]. simpl in Hall.
    destruct r; (match goal with |- context [addMetric q1 a ?d] => specialize (Hall d) end);
      by destruct (replay_loop _ a l) as [[[? ?] ?] ?]. }
  pose proof (Hloop l' q) as Hq. destruct (replay_loop q a l') as [[[p i] f] q1]. simpl in Hq.
  destruct (_ || _ || _); [|done]. eapply untouched_trans; [exact Hq|apply untouched_metric].
Qed.

Lemma untouched_repush h id q i :
  (forall m, qRows q !! i = Some m -> mID m = i) -> i <> id -> untouched h id q (repushMessage q i).
Proof.
  intros Hk Hne. unfold repushMessage. destruct (qRows q !! i) as [m|] eqn:Em; [|apply untouched_refl].
  pose proof (untouched_send h id q (selected m)) as Hs.
  rewrite (Hk m eq_refl : mID (selected m) = i) in Hs. specialize (Hs Hne).
  destruct (send q (selected m)) as [[] q1]; [done|done|].
  eapply untouched_trans; [exact Hs|apply untouched_metric].
Qed.

Lemma untouched_fail h id q now i q' :
  (forall m, qRows q !! i = Some m -> mID m = i) -> i <> id ->
  QueueFail q now i = Some q' -> untouched h id q q'.
Proof.
  intros Hk Hne. unfold QueueFail. destruct (qRows q !! i) as [m|] eqn:Em; [|done].
  destruct (_ <=? _); intros [= <-].
  - eapply untouched_trans; [|by apply untouched_clear]. by apply untouched_same.
  - set (q1 := clearInFlight _ i). apply (untouched_trans _ _ _ q1).
    { eapply untouched_trans; [|by apply untouched_clear]. by apply untouched_same. }
    apply untouched_repush; [|done]. intros x. unfold q1. simpl. rewrite lookup_fmap, Em. simpl.
    intros [= <-]. unfold is_row. pose proof (Hk m eq_refl). by destruct (_ =? _).
Qed.

Lemma untouched_enqueue h id q now msg : qNext q <> id -> untouched h id q (Enqueue q now msg).2.
Proof.
  intros Hne. unfold Enqueue. set (m := with_id _ _). set (q1 := set_next _ _).
  set (q2 := if bool_decide (mTargetNodeID m = EmptyString) then q1 else _).
  assert (untouched h id q q2) as H2 by (apply untouched_same; unfold q2; by case_bool_decide).
  destruct (_ && _); [eapply untouched_trans; [exact H2|apply untouched_metric]|].
  destruct (negb _); [done|]. pose proof (untouched_send h id q2 m Hne) as Hs.
  pose proof (untouched_trans _ _ _ _ _ H2 Hs) as H3.
  destruct (send q2 m) as [[] q3]; [done|done|]. eapply untouched_trans; [exact H3|apply untouched_metric].
Qed.

Lemma stranded_untouched h q q' id :
  untouched h id q q' -> stranded (mkQueueSystem q h) id -> stranded (mkQueueSystem q' h) id.
Proof. intros Hu [Hi Hn]. destruct (Hu Hi) as [Hi' Hp]. split; [done|]. intros a Ha. by eapply Hn, Hp. Qed.

Lemma stranded_leave h q a id :
  stranded (mkQueueSystem q h) id -> stranded (mkQueueSystem q (delete a h)) id.
Proof.
  intros [Hi Hn]. split; [done|]. intros b Hb. apply (Hn b). revert Hb. unfold placed, place. simpl.
  rewrite !map_app, !elem_of_app. intros [Hb|Hb]; [left|by right].
  destruct (decide (a = b)) as [<-|Hab]; [rewrite lookup_delete_eq in Hb; by apply elem_of_nil in Hb|].
  by rewrite lookup_delete_ne in Hb.
Qed.

Lemma held_placed q h a m : h !! a = Some m -> placed (mkQueueSystem q h) a (mID m).
Proof. intros Hm. unfold placed, place. simpl. rewrite Hm. simpl. by left. Qed.

Lemma stranded_release q h a m q' id :
  stranded (mkQueueSystem q h) id -> h !! a = Some m ->
  (mID m <> id -> untouched (delete a h) id q q') -> stranded (mkQueueSystem q' (delete a h)) id.
Proof.
  intros Hs Hm Hu. eapply stranded_untouched; [|by apply stranded_leave]. apply Hu.
  intros <-. eapply (proj2 Hs), held_placed, Hm.
Qed.

Lemma stranded_take s s' now a id :
  stranded s id -> take_message s now a = Some s' -> stranded s' id.
Proof.
  destruct s as [q h]. intros [Hfl Hnp]. unfold take_message. simpl. destruct (h !! a) eqn:Eh; [done|].
  destruct (qChannels q !! a) as [[|msg rest]|] eqn:Ec; [done| |done]. intros [= <-].
  split; [done|]. intros b Hb. apply (Hnp b). revert Hb. unfold placed, place. simpl.
  destruct (decide (b = a)) as [->|Hne];
    [by rewrite !lookup_insert_eq, Eh, Ec|by rewrite !lookup_insert_ne].
Qed.

Lemma stranded_drop s s' a id : stranded s id -> drop_message s a = Some s' -> stranded s' id.
Proof.
  destruct s as [q h]. intros [Hfl Hnp]. unfold drop_message. simpl. destruct (h !! a) eqn:Eh; [done|].
  destruct (qChannels q !! a) as [[|msg rest]|] eqn:Ec; [done| |done]. case_bool_decide; [|done].
  intros [= <-]. split; [done|]. intros b Hb. apply (Hnp b). revert Hb. unfold placed, place. simpl.
  destruct (decide (b = a)) as [->|Hne]; [|by rewrite lookup_insert_ne].
  rewrite lookup_insert_eq, Eh, Ec. simpl. by right.
Qed.

Lemma untouched_retry h id q i m :
  i <> id -> qRows q !! i = Some m -> mID m = i -> untouched h id q (RetryMessage q i).2.
Proof.
  intros Hne Hm Hid.
  unfold RetryMessage. destruct (update_where q _ _) as [n q1] eqn:Eu.
  assert (untouched h id q q1) as H1 by (apply untouched_same; by injection Eu as _ <-).
  pose proof (untouched_trans _ _ _ _ _ H1 (untouched_clear h id q1 i Hne)) as H2.
  destruct (n =? 0)%nat; [done|]. eapply untouched_trans; [exact H2|]. apply untouched_repush; [|done].
  intros x. injection Eu as _ <-. simpl. rewrite lookup_fmap, Hm. simpl. intros [= <-].
  by destruct (_ && _).
Qed.

Lemma stranded_delete_all q h a st id r :
  queue_wf (mkQueueSystem q h) -> stranded (mkQueueSystem q h) id -> qRows q !! id = Some r ->
  stranded (mkQueueSystem (DeleteMessages q a st).2 h) id \/ qRows (DeleteMessages q a st).2 !! id = None.
Proof.
  intros Hwf Hst Hr.
  unfold DeleteMessages. case_bool_decide; [by left|]. simpl.
  destruct (of_agent a st r) eqn:Eo.
  - right. rewrite clear_each. simpl. apply map_lookup_filter_None. right. intros x Hx.
    rewrite Hr in Hx. injection Hx as <-. simpl. by rewrite Eo.
  - left. eapply stranded_untouched; [|done]. rewrite clear_each. intros Hi. split; [|done]. simpl.
    apply elem_of_difference. split; [done|]. rewrite elem_of_list_to_set, list_elem_of_fmap.
    intros (x & -> & [Hx Hox]%filter_elem).
    apply list_elem_of_fmap in Hx as ([j y] & -> & Hj%elem_of_map_to_list). simpl in *.
    rewrite (rows_keyed q h j y Hwf Hj) in Hr. congruence.
Qed.

(** Once stranded, a message stays stranded until its row is deleted or the process restarts. *)
Lemma stranded_step kind s s' id :
  queue_step kind s s' -> kind <> Restarts -> kind <> Refuses -> queue_wf s -> stranded s id ->
  stranded s' id \/ qRows (sQueue s') !! id = None.
Proof.
  intros Hs Hk Hk' Hwf Hst. pose proof Hst as [Hfl Hnp].
  destruct (qwf_inflight _ Hwf id Hfl) as (r & Hr & Hl).
  destruct Hs as [[q h] now msg Hmsg|[q h] a|[q h] s' now a Ht|[q h] s' now a Hf|[q h] s' now a Hf|[q h] s' a Hd
    |[q h] a|[q h] a|[q h] now|[q h] a|[q h] i m Hm Hst'|[q h] i|[q h] i|[q h] a st|[q h] now hours|s]; simpl in *; try done.
  - left. eapply stranded_untouched; [apply untouched_enqueue|done].
    apply (qwf_rows _ Hwf) in Hr. simpl in Hr. lia.
  - left. unfold Dequeue. destruct (qChannels q !! a) eqn:E; [done|]. split; [done|]. intros b Hb.
    apply (Hnp b). revert Hb. unfold placed, place. simpl. destruct (decide (b = a)) as [->|Hne];
      [by rewrite lookup_insert_eq, E|by rewrite lookup_insert_ne].
  - left. by eapply stranded_take.
  - left. revert Hf. unfold finish_message. simpl. destruct (h !! a) as [m|] eqn:Eh; [|done].
    intros [= <-]. eapply stranded_release; [done|exact Eh|]. intros Hne.
    eapply untouched_trans; [|apply untouched_replay_agent].
    eapply untouched_trans; [|by apply untouched_clear]. by apply untouched_same.
  - left. revert Hf. unfold fail_message. simpl. destruct (h !! a) as [m|] eqn:Eh; [|done].
    intros [= <-]. eapply stranded_release; [done|exact Eh|]. intros Hne.
    eapply untouched_trans; [|apply untouched_replay_agent].
    destruct (QueueFail q now (mID m)) as [q'|] eqn:Ef; simpl; [|apply untouched_refl].
    eapply untouched_fail; [|exact Hne|exact Ef]. intros x. by apply (rows_keyed q h).
  - left. by eapply stranded_drop.
  - left. by apply stranded_leave.
  - left. apply (stranded_leave h q a id) in Hst. eapply stranded_untouched; [|exact Hst].
    by apply untouched_same.
  - left. eapply stranded_untouched; [apply untouched_replay|done].
  - left. eapply stranded_untouched; [apply untouched_replay_agent|done].
  - left. eapply stranded_untouched; [|done].
    assert (i <> id) as Hne.
    { intros ->. rewrite Hm in Hr. injection Hr as ->. by destruct Hl as [Hl|Hl]; rewrite Hst' in Hl. }
    by apply (untouched_retry h id q i m), (rows_keyed q h).
  - unfold DeleteMessage. simpl. destruct (decide (i = id)) as [->|Hne].
    + right. apply map_lookup_filter_None. right. intros x Hx. simpl. unfold is_row.
      by rewrite (rows_keyed q h id x Hwf Hx), Z.eqb_refl.
    + left. eapply stranded_untouched; [|done]. eapply untouched_trans; [|by apply untouched_clear].
      by apply untouched_same.
  - by apply (stranded_delete_all q h a st id r).
  - left. eapply stranded_untouched; [|done]. by apply untouched_same.
Qed.

(** Steps of one process as long as the row of [id] exists. *)
Definition row_kept (id : Z) (s s' : QueueSystem) : Prop :=
  running_step s s' /\ qRows (sQueue s') !! id <> None.

Lemma stranded_forever s s' id :
  rtc (row_kept id) s s' -> queue_wf s -> stranded s id -> queue_wf s' /\ stranded s' id.
Proof.
  induction 1 as [|s1 s2 s3 [(kind & Hk & Hk' & Hs) Hrow] _ IH]; [done|]. intros Hwf Hst.
  apply IH; [by eapply step_keeps|].
  by destruct (stranded_step kind s1 s2 id Hs Hk Hk' Hwf Hst).
Qed.

(** How messages get stranded. *)
Lemma placed_inflight q h a m r :
  queue_wf (mkQueueSystem q h) -> m ∈ place (mkQueueSystem q h) a -> qRows q !! mID m = Some r ->
  mID m ∈ qInFlight q /\ live r.
Proof.
  intros Hwf Hin Hr. destruct (qwf_placed _ Hwf a m Hin) as (_ & _ & [H|H]); simpl in H; [congruence|].
  destruct (qwf_inflight _ Hwf _ H) as (r' & Hr' & Hl). simpl in Hr'. rewrite Hr in Hr'.
  by injection Hr' as <-.
Qed.

Lemma kill_strands q h a m r :
  queue_wf (mkQueueSystem q h) -> h !! a = Some m -> qRows q !! mID m = Some r -> mAgentID r = a ->
  stranded (kill_consumer (mkQueueSystem q h) a) (mID m) /\
  exists r', qRows (sQueue (kill_consumer (mkQueueSystem q h) a)) !! mID m = Some r' /\
    mStatus r' = StatusPending.
Proof.
  intros Hwf Hh Hr Ha. destruct (placed_inflight q h a m r Hwf) as [Hi Hl]; [|done|].
  { unfold place. simpl. rewrite Hh. by left. }
  split; [split; [exact Hi|intros b Hb; by apply (released q h a m b Hwf Hh)]|].
  simpl. rewrite lookup_fmap, Hr. eexists. split; [done|]. unfold has_status.
  rewrite (bool_decide_eq_true_2 _ Ha). simpl. case_bool_decide as E; [done|].
  by destruct Hl.
Qed.

Lemma drop_strands q h a m r s1 :
  queue_wf (mkQueueSystem q h) -> hd_error (place (mkQueueSystem q h) a) = Some m ->
  qRows q !! mID m = Some r -> drop_message (mkQueueSystem q h) a = Some s1 ->
  stranded s1 (mID m) /\ qRows (sQueue s1) = qRows q.
Proof.
  intros Hwf Hhd Hr. unfold drop_message. simpl. destruct (h !! a) eqn:Eh; [done|].
  destruct (qChannels q !! a) as [[|x rest]|] eqn:Ec; [done| |done]. case_bool_decide; [|done].
  intros [= <-]. unfold place in Hhd. simpl in Hhd. rewrite Eh, Ec in Hhd. injection Hhd as ->.
  assert (m ∈ place (mkQueueSystem q h) a) as Hin by (unfold place; simpl; rewrite Eh, Ec; by left).
  split; [|done]. split; [by apply (placed_inflight q h a m r Hwf)|]. intros b Hb.
  assert (placed (mkQueueSystem q h) b (mID m)) as Hb'.
  { revert Hb. unfold placed, place. simpl. destruct (decide (b = a)) as [->|Hne];
      [|by rewrite lookup_insert_ne]. rewrite lookup_insert_eq, Eh, Ec. simpl. by right. }
  pose proof (qwf_disjoint _ Hwf a b (mID m) (list_elem_of_fmap_2 mID _ _ Hin) Hb') as <-.
  pose proof (qwf_nodup _ Hwf a) as Hnd. revert Hnd Hb. unfold placed, place. simpl.
  rewrite Eh, Ec, lookup_insert_eq. simpl. by intros [? _]%NoDup_cons.
Qed.

(** * Theorems *)

(** C22: No message is delivered twice at a time: whatever sequence of enqueues, deliveries, failures, kills,
    replays, deletions and restarts ran, with retries of messages that have failed or that neither wait nor are
    held, a message is held by one agent or waits once in one channel, that of its own agent, and no channel
    exceeds its capacity.  A retry of a message that waits breaks this ([refused_retry_duplicates]). *)
Theorem no_double_delivery node cfg s a :
  rtc any_step (queue_init node cfg) s ->
  NoDup (map mID (place s a)) /\
  (forall b id, placed s a id -> placed s b id -> a = b) /\
  (forall m, m ∈ place s a -> mAgentID m = a) /\
  (forall ch, qChannels (sQueue s) !! a = Some ch -> (length ch <= chanCap)%nat).
Proof.
  intros Hr. destruct (init_wf node cfg) as [Hi _]. pose proof (steps_wf _ _ Hr Hi) as Hwf.
  split; [apply (qwf_nodup _ Hwf)|]. split; [apply (qwf_disjoint _ Hwf)|].
  split; [intros m Hm; by apply (qwf_placed _ Hwf a m)|apply (qwf_room _ Hwf)].
Qed.

(** [ReplayAgent] fills the channel exactly: it appends, in order of priority and then of
    age, the agent's pending messages that are not in flight, until the channel is full,
    and changes no row. *)
Theorem replay_agent_exact s a ch :
  queue_wf s -> qChannels (sQueue s) !! a = Some ch ->
  let todo := List.filter (not_in_flight (sQueue s)) (agent_pending (sQueue s) a) in
  let q' := ReplayAgent (sQueue s) a in
  qChannels q' !! a = Some (ch ++ take (chanCap - length ch) todo) /\
  qRows q' = qRows (sQueue s) /\
  Sorted (fun x y => before x y = true) (agent_pending (sQueue s) a).
Proof. apply ReplayAgent_exact. Qed.

(** C34: The queue loses no message as long as consumers report back: every pending message that is routed to no
    node or to this one, of an agent whose channel is open, is after the replay that follows each message on its
    way to the agent, or the channel is full.  A message routed to a node is taken by no queue that has no node
    name ([unnamed_node_takes_no_routed_message]). *)
Theorem serving_queue_loses_nothing node cfg s id m ch :
  rtc serving_step (queue_init node cfg) s ->
  qRows (sQueue s) !! id = Some m -> mStatus m = StatusPending -> for_node (sQueue s) m = true ->
  qChannels (sQueue s) !! mAgentID m = Some ch ->
  let s' := mkQueueSystem (ReplayAgent (sQueue s) (mAgentID m)) (sHeld s) in
  (exists a, placed s' a id) \/
  exists ch', qChannels (sQueue s') !! mAgentID m = Some ch' /\ length ch' = chanCap.
Proof.
  intros Hr Hm Hst Hnode Hc s'. destruct (init_wf node cfg) as [Hi Ho].
  destruct (serving_steps_wf _ _ Hr Hi Ho) as [Hwf Hno]. destruct s as [q h]. simpl in *.
  pose proof (ReplayAgent_keeps h q (mAgentID m) Hwf) as [_ Hk].
  specialize (Hk Hwf Hno). destruct (decide (id ∈ qInFlight q)) as [Hfl|Hfl].
  { left. apply Hk. by apply (untouched_replay_agent h id q (mAgentID m)). }
  destruct (ReplayAgent_exact (mkQueueSystem q h) (mAgentID m) ch Hwf Hc) as (H1 & _ & _).
  simpl in H1. set (todo := List.filter _ _) in H1.
  assert (selected m ∈ todo) as Hin.
  { apply filter_elem. split.
    - apply (select_all q _ id); [done|]. unfold has_status.
      by rewrite Hst, Hnode, !bool_decide_eq_true_2.
    - unfold not_in_flight, isInFlight. simpl. rewrite (rows_keyed q h id m Hwf Hm).
      by rewrite bool_decide_eq_false_2. }
  pose proof (qwf_room _ Hwf _ _ Hc) as Hroom. simpl in Hroom.
  destruct (decide (length todo <= chanCap - length ch)%nat) as [Hle|Hgt].
  - left. exists (mAgentID m). unfold placed, place. simpl. rewrite H1. simpl.
    rewrite take_ge by done. rewrite !map_app, !elem_of_app. right. right.
    replace id with (mID (selected m)) by (apply (rows_keyed q h id m Hwf Hm)).
    by apply list_elem_of_fmap_2.
  - right. eexists. split; [exact H1|]. rewrite length_app, length_take. lia.
Qed.

(** A message its consumer gives up is stranded: after a kill of the agent that holds it,
    or when it is dropped because the team is paused, no replay delivers it again for as
    long as the process runs, although its row says pending.  (Only a retry, which is refused, helps.) *)
Theorem given_up_message_stranded s s1 s2 a m r :
  queue_wf s -> qRows (sQueue s) !! mID m = Some r ->
  (sHeld s !! a = Some m /\ mAgentID r = a /\ s1 = kill_consumer s a) \/
  (mStatus r = StatusPending /\ hd_error (place s a) = Some m /\ drop_message s a = Some s1) ->
  rtc (row_kept (mID m)) s1 s2 ->
  (exists r', qRows (sQueue s1) !! mID m = Some r' /\ mStatus r' = StatusPending) /\
  mID m ∈ qInFlight (sQueue s2) /\ forall b, ~ placed s2 b (mID m).
Proof.
  intros Hwf Hr Hgive Hsteps. destruct s as [q h]. simpl in *.
  assert (queue_wf s1 /\ stranded s1 (mID m) /\
    exists r', qRows (sQueue s1) !! mID m = Some r' /\ mStatus r' = StatusPending) as (Hwf1 & Hst & Hp).
  { destruct Hgive as [(Hh & Ha & ->)|(Hs & Hhd & Hd)].
    - split; [by eapply step_keeps; [apply step_kill|]|]. by apply (kill_strands q h a m r).
    - split; [by eapply drop_wf|]. destruct (drop_strands q h a m r s1 Hwf Hhd Hr Hd) as [? Hrows].
      split; [done|]. exists r. by rewrite Hrows. }
  split; [done|]. by destruct (stranded_forever s1 s2 (mID m) Hsteps Hwf1 Hst) as [_ [? ?]].
Qed.

Lemma repush_rows q id : qRows (repushMessage q id) = qRows q.
Proof.
  unfold repushMessage. destruct (qRows q !! id) as [m|]; [|done].
  pose proof (send_rows q (selected m)) as [Hs _].
  destruct (send q (selected m)) as [[] q1]; simpl in *; [done|done|by rewrite addMetric_rows].
Qed.

(** One failure of a message. *)
Lemma fail_row q now id m :
  qRows q !! id = Some m -> mID m = id ->
  exists q' r, QueueFail q now id = Some q' /\ qRows q' !! id = Some r /\ mID r = id /\
    mAttempts r = mAttempts m + 1 /\ mMaxAttempts r = mMaxAttempts m /\
    (if mMaxAttempts m <=? mAttempts m + 1 then mStatus r = StatusFailed /\ id ∉ qInFlight q'
     else mStatus r = StatusPending).
Proof.
  intros Hm Hid. unfold QueueFail. rewrite Hm. destruct (_ <=? _).
  - set (f := fun m0 => with_status m0 StatusFailed (mAttempts m + 1) (mStartedAt m0) (Some (db_time now))).
    destruct (settle_row q id f m Hm Hid) as [Hr Hfl]. eexists _, (f m). done.
  - set (f := fun m0 => with_status m0 StatusPending (mAttempts m + 1) None (mCompletedAt m0)).
    destruct (settle_row q id f m Hm Hid) as [Hr _]. eexists _, (f m). split; [reflexivity|].
    rewrite repush_rows. done.
Qed.

(** [n] failures in a row. *)
Fixpoint fail_times (n : nat) (q : PostgresQueue) (now id : Z) : option PostgresQueue :=
  match n with
  | O => Some q
  | S n' => q1 ← QueueFail q now id; fail_times n' q1 now id
  end.

(** A message is tried its maximum number of times and not more: the failures before that
    put it back as pending, and the one that reaches the maximum marks it failed and takes
    it out of flight. *)
Theorem message_tried_max_attempts q now id m n :
  qRows q !! id = Some m -> mID m = id ->
  (0 < n)%nat -> mAttempts m + Z.of_nat n <= mMaxAttempts m ->
  exists q' r, fail_times n q now id = Some q' /\ qRows q' !! id = Some r /\
    mAttempts r = mAttempts m + Z.of_nat n /\
    (mAttempts m + Z.of_nat n < mMaxAttempts m -> mStatus r = StatusPending) /\
    (mAttempts m + Z.of_nat n = mMaxAttempts m -> mStatus r = StatusFailed /\ id ∉ qInFlight q').
Proof.
  intros Hm Hid Hn Hle. revert q m Hm Hid Hle. induction n as [|n IH]; [lia|].
  intros q m Hm Hid Hle. destruct (fail_row q now id m Hm Hid) as (q1 & r & E & Hr & Hrid & Hra & Hrm & Hst).
  simpl. rewrite E. simpl. destruct n as [|n].
  - exists q1, r. split; [done|]. split; [done|]. split; [lia|]. revert Hst.
    destruct (Z.leb_spec (mMaxAttempts m) (mAttempts m + 1)); split; intros; try done; lia.
  - destruct (IH ltac:(lia) q1 r Hr Hrid) as (q' & r' & E' & Hr' & Ha' & Hp & Hf); [lia|].
    exists q', r'. split; [done|]. split; [done|]. split; [lia|].
    split; intros; [apply Hp|apply Hf]; lia.
Qed.

(** ** Witnesses *)

Section witnesses.

Definition plain_message (a content : string) : QueueMessage :=
  mkQueueMessage 0 a "internal" EmptyString EmptyString content EmptyString EmptyString 0
    EmptyString 0 0 EmptyString None None None.

(** One agent with an open channel and three messages. *)
Definition demo_queue : QueueSystem :=
  let q0 := Dequeue (sQueue (queue_init "n1" None)) "a" in
  let q1 := (Enqueue q0 0 (plain_message "a" "one")).2 in
  let q2 := (Enqueue q1 0 (plain_message "a" "two")).2 in
  mkQueueSystem (Enqueue q2 0 (plain_message "a" "three")).2 ∅.

Lemma demo_serving : rtc serving_step (queue_init "n1" None) demo_queue.
Proof.
  eapply rtc_l; [exists Serves; split; [done|apply (step_dequeue _ "a")]|].
  eapply rtc_l; [exists Serves; split; [done|apply (step_enqueue _ 0 (plain_message "a" "one")); by left]|].
  eapply rtc_l; [exists Serves; split; [done|apply (step_enqueue _ 0 (plain_message "a" "two")); by left]|].
  eapply rtc_l; [exists Serves; split; [done|apply (step_enqueue _ 0 (plain_message "a" "three")); by left]|].
  apply rtc_refl.
Qed.

Lemma demo_steps : rtc any_step (queue_init "n1" None) demo_queue.
Proof. eapply rtc_subrel; [|apply demo_serving]. intros s s' (kind & _ & Hs). by exists kind. Qed.

Lemma demo_wf : queue_wf demo_queue.
Proof. eapply steps_wf; [apply demo_steps|apply init_wf]. Qed.

Lemma no_double_delivery_witness :
  map mID (place demo_queue "a") = [1; 2; 3] /\ NoDup (map mID (place demo_queue "a")).
Proof. split; [vm_compute; reflexivity|]. apply (no_double_delivery "n1" None demo_queue "a" demo_steps). Defined.

Lemma replay_agent_exact_witness :
  exists ch, qChannels (sQueue demo_queue) !! "a" = Some ch /\
    qChannels (ReplayAgent (sQueue demo_queue) "a") !! "a" =
      Some (ch ++ take (chanCap - length ch)
        (List.filter (not_in_flight (sQueue demo_queue)) (agent_pending (sQueue demo_queue) "a"))).
Proof.
  eexists. split; [vm_compute; reflexivity|].
  apply (replay_agent_exact demo_queue "a" _ demo_wf). vm_compute. reflexivity.
Defined.

Lemma serving_queue_loses_nothing_witness :
  let s' := mkQueueSystem (ReplayAgent (sQueue demo_queue) "a") ∅ in
  (exists a, placed s' a 2) \/
  exists ch', qChannels (sQueue s') !! "a" = Some ch' /\ length ch' = chanCap.
Proof.
  destruct (qRows (sQueue demo_queue) !! 2) as [m|] eqn:Em; [|vm_compute in Em; discriminate Em].
  assert (mAgentID m = "a") as Ha by (vm_compute in Em; by injection Em as <-).
  pose proof (serving_queue_loses_nothing "n1" None demo_queue 2 m) as H.
  rewrite Ha in H. eapply H; [apply demo_serving|exact Em|..].
  - vm_compute in Em. by injection Em as <-.
  - vm_compute in Em. by injection Em as <-.
  - vm_compute. reflexivity.
Defined.

(** The first message is taken and its agent killed. *)
Lemma given_up_message_stranded_witness :
  exists s, take_message demo_queue 0 "a" = Some s /\
    forall s2, rtc (row_kept 1) (kill_consumer s "a") s2 -> forall b, ~ placed s2 b 1.
Proof.
  destruct (take_message demo_queue 0 "a") as [s|] eqn:Et; [|vm_compute in Et; discriminate Et].
  exists s. split; [reflexivity|]. intros s2 Hs2.
  assert (exists m r, sHeld s !! "a" = Some m /\ mID m = 1 /\ qRows (sQueue s) !! 1 = Some r /\
    mAgentID r = "a") as (m & r & Eh & Hid & Er & Ha).
  { vm_compute in Et. injection Et as <-. eexists _, _. split; [vm_compute; reflexivity|].
    split; [vm_compute; reflexivity|]. split; vm_compute; reflexivity. }
  rewrite <- Hid in *. apply (given_up_message_stranded s (kill_consumer s "a") s2 "a" m r).
  - by apply (take_wf demo_queue 0 "a" s demo_wf).
  - exact Er.
  - left. done.
  - exact Hs2.
Defined.

Lemma message_tried_max_attempts_witness :
  exists q' r, fail_times 3 (sQueue demo_queue) 0 1 = Some q' /\ qRows q' !! 1 = Some r /\
    mStatus r = StatusFailed.
Proof.
  destruct (qRows (sQueue demo_queue) !! 1) as [m|] eqn:Em; [|vm_compute in Em; discriminate Em].
  assert (mID m = 1 /\ mAttempts m = 0 /\ mMaxAttempts m = 3) as (Hid & Ha & Hmax)
    by (vm_compute in Em; by injection Em as <-).
  destruct (message_tried_max_attempts (sQueue demo_queue) 0 1 m 3 Em Hid) as (q' & r & E & Hr & _ & _ & Hf);
    [lia|lia|]. exists q', r. split; [done|]. split; [done|]. apply Hf. lia.
Defined.
End witnesses.

(** A refused retry does harm: [RetryMessage] on a message that waits in its channel returns
    an error, but takes it out of the set in flight, and the next replay delivers it twice. *)
Theorem refused_retry_duplicates :
  exists q, RetryMessage (sQueue demo_queue) 1 = (false, q) /\
    map mID (place (mkQueueSystem (ReplayAgent q "a") ∅) "a") = [1; 2; 3; 1].
Proof. eexists. split; [vm_compute; reflexivity|vm_compute; reflexivity]. Qed.

(** A message sent to another node is never delivered by a queue without a node ID, which is
    how the server creates it: [for_node] holds of no such message. *)
Example unnamed_node_takes_no_routed_message :
  for_node (sQueue (queue_init EmptyString None))
    (mkQueueMessage 1 "a" EmptyString EmptyString EmptyString EmptyString EmptyString "message" 0
       StatusPending 0 3 "n2" None None None) = false.
Proof. reflexivity. Qed.
