(* ===== verification/GoRegexp.v ===== *)
(** Regular expressions ([regexp]), for the fragment the modelled code uses:
    byte classes, case-folded literals, [\s+], groups, options, alternatives, [^] in
    multi-line mode and [\b].

    [rmatch] lists the ways to match at a position in Go's order of preference, so
    that its head is the leftmost-first match of RE2; a position is the byte before it
    and the text after it. *)

From S2P Require Import Prelude GoString.

Inductive regex : Type :=
| RByte (f : ascii -> bool)       (* one byte of a class *)
| RPlus (f : ascii -> bool)       (* one or more bytes of a class, greedy *)
| REps
| RSeq (a b : regex)
| RAlt (a b : regex)
| ROpt (a : regex)                (* greedy option *)
| RBol                            (* [^] with flag m *)
| RWordB.                         (* [\b] *)

Definition newline : ascii := "010"%char.

(** [\s]: tab, newline, form feed, carriage return, space. *)
Definition re_space (c : ascii) : bool :=
  existsb (Z.eqb (byte_of c)) [9; 10; 12; 13; 32].

(** The word bytes of [\b]. *)
Definition re_word (c : ascii) : bool :=
  let b := byte_of c in
  ((48 <=? b) && (b <=? 57)) || ((65 <=? b) && (b <=? 90)) || ((97 <=? b) && (b <=? 122))
  || (b =? 95).

Definition at_bol (prev : option ascii) : bool :=
  match prev with
  | None => true
  | Some c => Ascii.eqb c newline
  end.

Definition word_at (c : option ascii) : bool :=
  match c with
  | None => false
  | Some c => re_word c
  end.

Definition str_head (s : string) : option ascii :=
  match s with
  | EmptyString => None
  | String c _ => Some c
  end.

Definition position : Type := option ascii * string.

Fixpoint match_plus (f : ascii -> bool) (s : string) : list position :=
  match s with
  | EmptyString => []
  | String c s' => if f c then match_plus f s' ++ [(Some c, s')] else []
  end.

Fixpoint rmatch (r : regex) (prev : option ascii) (s : string) : list position :=
  match r with
  | RByte f =>
    match s with
    | EmptyString => []
    | String c s' => if f c then [(Some c, s')] else []
    end
  | RPlus f => match_plus f s
  | REps => [(prev, s)]
  | RSeq a b => rmatch a prev s ≫= fun q => rmatch b q.1 q.2
  | RAlt a b => rmatch a prev s ++ rmatch b prev s
  | ROpt a => rmatch a prev s ++ [(prev, s)]
  | RBol => if at_bol prev then [(prev, s)] else []
  | RWordB => if Bool.eqb (word_at prev) (word_at (str_head s)) then [] else [(prev, s)]
  end.

(** [Regexp.MatchString], from a position. *)
Fixpoint match_from (r : regex) (prev : option ascii) (s : string) : bool :=
  match rmatch r prev s with
  | [] =>
    match s with
    | EmptyString => false
    | String c s' => match_from r (Some c) s'
    end
  | _ => true
  end.

Definition MatchString (r : regex) (s : string) : bool := match_from r None s.

(** [Regexp.ReplaceAllString] with a replacement free of [$], for an expression that
    matches no empty text: [skip] bytes of the last match are still to be passed. *)
Fixpoint rreplace (r : regex) (repl : string) (prev : option ascii) (skip : nat) (s : string)
    : string :=
  match s with
  | EmptyString => EmptyString
  | String c s' =>
    match skip with
    | S k => rreplace r repl (Some c) k s'
    | O =>
      match rmatch r prev s with
      | [] => String c (rreplace r repl (Some c) 0 s')
      | (_, rest) :: _ =>
        repl +:+ rreplace r repl (Some c) (String.length s - String.length rest - 1) s'
      end
    end
  end.

Definition ReplaceAllString (r : regex) (s repl : string) : string := rreplace r repl None 0 s.

(** ** Literals under [(?i)]

    A letter matches both cases; [k] and [s] also fold with the Kelvin sign and with
    the long s, encoded in UTF-8. *)

Definition byte_is (z : Z) (c : ascii) : bool := byte_of c =? z.

Definition fold_byte (c d : ascii) : bool :=
  let b := byte_of c in
  if (97 <=? b) && (b <=? 122) then byte_is b d || byte_is (b - 32) d
  else if (65 <=? b) && (b <=? 90) then byte_is b d || byte_is (b + 32) d
  else byte_is b d.

Definition fold_char (c : ascii) : regex :=
  if fold_byte c "k" then
    RAlt (RByte (fold_byte c))
      (RSeq (RByte (byte_is 226)) (RSeq (RByte (byte_is 132)) (RByte (byte_is 170))))
  else if fold_byte c "s" then
    RAlt (RByte (fold_byte c)) (RSeq (RByte (byte_is 197)) (RByte (byte_is 191)))
  else RByte (fold_byte c).

Fixpoint folded (s : string) : regex :=
  match s with
  | EmptyString => REps
  | String c s' => RSeq (fold_char c) (folded s')
  end.

Definition spaces : regex := RPlus re_space.

(** A sequence of expressions. *)
Definition rseq (l : list regex) : regex := foldr RSeq REps l.

(** * Lemmas *)

#[local] Arguments String.append !s1 s2 : simpl nomatch.

(** No [\b]: what follows a match does not matter. *)
Fixpoint no_lookahead (r : regex) : bool :=
  match r with
  | RWordB => false
  | RSeq a b | RAlt a b => no_lookahead a && no_lookahead b
  | ROpt a => no_lookahead a
  | _ => true
  end.

(** No match consumes the byte [c]. *)
Fixpoint avoids (c : ascii) (r : regex) : bool :=
  match r with
  | RByte f | RPlus f => negb (f c)
  | RSeq a b | RAlt a b => avoids c a && avoids c b
  | ROpt a => avoids c a
  | _ => true
  end.

Definition bol_le (p q : option ascii) : Prop := at_bol p = true -> at_bol q = true.

Lemma bol_le_refl (p : option ascii) : bol_le p p.
Proof. by intros ?. Qed.
#[local] Hint Resolve bol_le_refl : core.

Lemma match_plus_local (f : ascii -> bool) (s rest : string) (p : option ascii) :
  (p, rest) ∈ match_plus f s ->
  exists x, s = x +:+ rest /\
    (forall rest', (p, rest') ∈ match_plus f (x +:+ rest')) /\
    (forall c, f c = false -> str_elem c x = false).
Proof.
  induction s as [|c s IH]; simpl; [by intros ?%elem_of_nil|].
  destruct (f c) eqn:Ef; [|by intros ?%elem_of_nil].
  rewrite elem_of_app, list_elem_of_singleton. intros [H|[= -> ->]].
  - destruct (IH H) as (x & -> & Hx & Hc). exists (String c x). split_and!; [done| |].
    + intros rest'. simpl. rewrite Ef, elem_of_app. left. apply Hx.
    + intros d Hd. simpl. rewrite (Hc d Hd).
      destruct (Ascii.eqb_spec c d); [congruence|]. by destruct (Ascii.eqb_spec d c).
  - exists (String c EmptyString). split_and!; [done| |].
    + intros rest'. simpl. rewrite Ef, elem_of_app. right. by left.
    + intros d Hd. simpl. destruct (Ascii.eqb_spec d c); [congruence|].
      by destruct (Ascii.eqb_spec c d).
Qed.

(** A matcher is local, with the bytes of [av] never consumed, when each match consumes a
    text [x] and is there for every continuation of [x], and for every byte before it
    that begins a line if need be. *)
Definition matcher : Type := option ascii -> string -> list position.

Definition is_local (av : ascii -> bool) (M : matcher) : Prop :=
  forall po po' s rest, (po', rest) ∈ M po s ->
  exists x, s = x +:+ rest /\ (forall c, av c = true -> str_elem c x = false) /\
    forall pr rest', bol_le po pr ->
      exists pr', (pr', rest') ∈ M pr (x +:+ rest') /\ bol_le po' pr'.

Lemma is_local_byte (f : ascii -> bool) : is_local (fun c => negb (f c)) (rmatch (RByte f)).
Proof.
  intros po po' [|c s] rest; simpl; [by intros ?%elem_of_nil|].
  destruct (f c) eqn:E; [|by intros ?%elem_of_nil].
  intros [= -> ->]%list_elem_of_singleton. exists (String c EmptyString). split_and!; [done| |].
  - intros d Hd. simpl. destruct (Ascii.eqb_spec c d) as [->|]; [|done]. by rewrite E in Hd.
  - intros pr rest' _. simpl. rewrite E. exists (Some c). split; [by left|by intros ?].
Qed.

Lemma is_local_plus (f : ascii -> bool) : is_local (fun c => negb (f c)) (rmatch (RPlus f)).
Proof.
  intros po po' s rest (x & -> & Hx & Hc)%match_plus_local. exists x. split_and!; [done| |].
  - intros c Hd%negb_true_iff. by apply Hc.
  - intros pr rest' _. exists po'. split; [apply Hx|by intros ?].
Qed.

Lemma is_local_eps : is_local (fun _ => true) (rmatch REps).
Proof.
  intros po po' s rest [= -> ->]%list_elem_of_singleton. exists EmptyString.
  split_and!; [done..|]. intros pr rest' Hle. exists pr. split; [by left|done].
Qed.

Lemma is_local_bol : is_local (fun _ => true) (rmatch RBol).
Proof.
  intros po po' s rest. simpl. destruct (at_bol po) eqn:E; [|by intros ?%elem_of_nil].
  intros [= -> ->]%list_elem_of_singleton. exists EmptyString. split_and!; [done..|].
  intros pr rest' Hle. exists pr. simpl. rewrite (Hle E). split; [by left|done].
Qed.

Lemma is_local_seq (av1 av2 : ascii -> bool) (M1 M2 : matcher) :
  is_local av1 M1 -> is_local av2 M2 ->
  is_local (fun c => av1 c && av2 c) (fun p s => M1 p s ≫= fun q => M2 q.1 q.2).
Proof.
  intros H1 H2 po po' s rest ([p1 s1] & Hb & Ha)%list_elem_of_bind. simpl in Hb.
  destruct (H1 _ _ _ _ Ha) as (x & -> & Hx & Lx).
  destruct (H2 _ _ _ _ Hb) as (y & -> & Hy & Ly).
  exists (x +:+ y). split_and!; [by rewrite str_app_assoc| |].
  - intros c [Hca Hcb]%andb_true_iff. rewrite str_elem_app, Hx, Hy; done.
  - intros pr rest' Hle. destruct (Lx pr (y +:+ rest') Hle) as (p2 & Hin & Hle2).
    destruct (Ly p2 rest' Hle2) as (p3 & Hin' & Hle3). exists p3. split; [|done].
    apply list_elem_of_bind. exists (p2, y +:+ rest'). by rewrite <- str_app_assoc.
Qed.

Lemma is_local_alt (av1 av2 : ascii -> bool) (M1 M2 : matcher) :
  is_local av1 M1 -> is_local av2 M2 ->
  is_local (fun c => av1 c && av2 c) (fun p s => M1 p s ++ M2 p s).
Proof.
  intros H1 H2 po po' s rest [H|H]%elem_of_app;
    [destruct (H1 _ _ _ _ H) as (x & -> & Hx & Lx)|destruct (H2 _ _ _ _ H) as (x & -> & Hx & Lx)];
    exists x; (split_and!; [done|intros c [? ?]%andb_true_iff; by apply Hx|]);
    intros pr rest' Hle; destruct (Lx pr rest' Hle) as (p & ? & ?); exists p;
    rewrite elem_of_app; auto.
Qed.

Lemma is_local_weaken (av1 av2 : ascii -> bool) (M : matcher) :
  (forall c, av2 c = true -> av1 c = true) -> is_local av1 M -> is_local av2 M.
Proof.
  intros Hav H po po' s rest Hin. destruct (H _ _ _ _ Hin) as (x & Hs & Hx & HL).
  exists x. split_and!; auto.
Qed.

Lemma rmatch_local (r : regex) :
  no_lookahead r = true -> is_local (fun c => avoids c r) (rmatch r).
Proof.
  induction r as [f|f| |a IHa b IHb|a IHa b IHb|a IHa| |]; simpl; intros Hn;
    try (apply andb_true_iff in Hn as [Ha Hb]).
  - apply is_local_byte.
  - apply is_local_plus.
  - apply is_local_eps.
  - apply is_local_seq; auto.
  - apply is_local_alt; auto.
  - apply (is_local_weaken (fun c => avoids c a && true)); [by intros c ->|].
    apply (is_local_alt _ (fun _ => true) _ (rmatch REps)); [auto|apply is_local_eps].
  - apply is_local_bol.
  - done.
Qed.

(** ** What replacement leaves behind

    [repl] begins with a byte [l] that a pattern avoids, and a scan for the pattern
    passes through it. *)
Section replacement.
Context (l r : ascii) (body : string).

Definition rmarker : string := String l (body +:+ String r EmptyString).

Definition passes (p : regex) : Prop :=
  no_lookahead p = true /\ avoids l p = true /\
  (forall po t, rmatch p po (rmarker +:+ t) = []) /\
  (forall po t, match_from p po (rmarker +:+ t) = match_from p (Some r) t).

Context (Hr : at_bol (Some r) = false) (q : regex).

(** A text without [l] at the start of the output is at the start of the input. *)
Lemma rreplace_prefix (x y s : string) (prev : option ascii) :
  str_elem l x = false -> rreplace q rmarker prev 0 s = x +:+ y -> exists y', s = x +:+ y'.
Proof.
  revert x prev. induction s as [|c s IH]; intros x prev Hx; cbn [rreplace].
  { destruct x; [by eexists|done]. }
  destruct x as [|d x]; [by eexists|]. simpl in Hx. apply orb_false_iff in Hx as [Hd Hx].
  destruct (rmatch q prev (String c s)) as [|[p rest] ?]; simpl; intros [= -> H].
  - destruct (IH _ _ Hx H) as [y' ->]. by exists y'.
  - by rewrite Ascii.eqb_refl in Hd.
Qed.

(** A match at a copied position of the output is one of the input. *)
Lemma rreplace_match (p : regex) (po prev : option ascii) (s : string) :
  passes p -> bol_le po prev -> rmatch p po (rreplace q rmarker prev 0 s) <> [] ->
  rmatch p prev s <> [] /\ (s <> EmptyString -> rmatch q prev s = []).
Proof.
  intros (Hn & Hav & Hm & _) Hle H. split.
  - destruct (rmatch p po _) as [|[p' rest] ms] eqn:E; [done|].
    assert ((p', rest) ∈ rmatch p po (rreplace q rmarker prev 0 s)) as Hin
      by (rewrite E; by left).
    destruct (rmatch_local p Hn _ _ _ _ Hin) as (x & Hs & Hx & HL).
    destruct (rreplace_prefix _ _ _ _ (Hx l Hav) Hs) as [y ->].
    destruct (HL prev y Hle) as (p2 & Hin2 & _). intros E2. rewrite E2 in Hin2.
    by apply elem_of_nil in Hin2.
  - destruct s as [|c s]; [done|]. intros _. cbn [rreplace] in H.
    destruct (rmatch q prev (String c s)) as [|[p' rest] ms]; [done|]. by rewrite Hm in H.
Qed.

(** Replacement creates no match of a pattern that passes through the marker. *)
Lemma rreplace_no_new (p : regex) (po prev : option ascii) (skip : nat) (s : string) :
  passes p -> bol_le po prev -> (skip <> 0%nat -> at_bol po = false) ->
  match_from p po (rreplace q rmarker prev skip s) = true -> match_from p prev s = true.
Proof.
  intros Hp. revert po prev skip. induction s as [|c s IH]; intros po prev skip Hle Hskip H.
  { cbn [rreplace match_from] in *. destruct (rmatch p po "") eqn:E; [done|].
    assert (rmatch p prev "" <> []) as Hne
      by (apply (rreplace_match p po prev ""); [done..|simpl; by rewrite E]).
    by destruct (rmatch p prev ""). }
  cbn [match_from]. destruct (rmatch p prev (String c s)) eqn:E; [|done].
  destruct skip as [|k].
  2:{ cbn [rreplace] in H. eapply (IH po (Some c) k); [|by auto|done].
      intros ?. by rewrite Hskip in *. }
  cbn [rreplace] in H. destruct (rmatch q prev (String c s)) as [|[p' rest] ms] eqn:Eq.
  - cbn [match_from] in H. destruct (rmatch p po _) eqn:Eo; [by apply (IH (Some c) (Some c) 0%nat)|].
    destruct (rreplace_match p po prev (String c s) Hp Hle) as [? _]; [|done].
    cbn [rreplace]. rewrite Eq, Eo. done.
  - destruct Hp as (_ & _ & _ & Hpass). rewrite Hpass in H. eapply IH; [| |done]; intros ?; congruence.
Qed.

(** After replacement the pattern itself matches nowhere. *)
Lemma rreplace_gone (po prev : option ascii) (skip : nat) (s : string) :
  passes q -> rmatch q None "" = [] ->
  bol_le po prev -> (skip <> 0%nat -> at_bol po = false) ->
  match_from q po (rreplace q rmarker prev skip s) = false.
Proof.
  intros Hq Hne. revert po prev skip. induction s as [|c s IH]; intros po prev skip Hle Hskip.
  { cbn [rreplace match_from]. destruct (rmatch q po "") eqn:E; [done|].
    destruct (rreplace_match q po None "" Hq); [by intros ?| |done].
    simpl. by rewrite E. }
  cbn [rreplace]. destruct skip as [|k].
  2:{ apply IH; [|by auto]. intros ?. by rewrite Hskip in *. }
  destruct (rmatch q prev (String c s)) as [|[p' rest] ms] eqn:Eq.
  - cbn [match_from]. destruct (rmatch q po _) eqn:Eo; [by apply IH|].
    destruct (rreplace_match q po prev (String c s) Hq Hle) as [? _]; [|done].
    cbn [rreplace]. rewrite Eq, Eo. done.
  - destruct Hq as (? & ? & ? & Hpass). rewrite Hpass. apply IH; intros ?; congruence.
Qed.
End replacement.

(** ** Matches inside a larger text *)

(** Neither [^] nor [\b]: what surrounds a match does not matter. *)
Fixpoint no_context (r : regex) : bool :=
  match r with
  | RWordB | RBol => false
  | RSeq a b | RAlt a b => no_context a && no_context b
  | ROpt a => no_context a
  | _ => true
  end.

Lemma no_context_lookahead (r : regex) : no_context r = true -> no_lookahead r = true.
Proof.
  induction r; simpl; try done; intros [? ?]%andb_true_iff; by apply andb_true_iff; auto.
Qed.

Lemma rmatch_prev (r : regex) (po pr po' : option ascii) (s rest : string) :
  no_context r = true -> (po', rest) ∈ rmatch r po s -> exists pr', (pr', rest) ∈ rmatch r pr s.
Proof.
  revert po pr po' s rest. induction r as [f|f| |a IHa b IHb|a IHa b IHb|a IHa| |];
    intros po pr po' s rest Hn; simpl in Hn |- *; try done; try by eauto.
  - intros [= -> ->]%list_elem_of_singleton. exists pr. by left.
  - apply andb_true_iff in Hn as [Ha Hb]. intros ([p1 s1] & H2 & H1)%list_elem_of_bind.
    destruct (IHa _ pr _ _ _ Ha H1) as [p1' H1']. destruct (IHb _ p1' _ _ _ Hb H2) as [p2 H2'].
    exists p2. apply list_elem_of_bind. by exists (p1', s1).
  - apply andb_true_iff in Hn as [Ha Hb]. setoid_rewrite elem_of_app. intros [H|H].
    + destruct (IHa _ pr _ _ _ Ha H). eauto.
    + destruct (IHb _ pr _ _ _ Hb H). eauto.
  - setoid_rewrite elem_of_app. intros [H|[= -> ->]%list_elem_of_singleton].
    + destruct (IHa _ pr _ _ _ Hn H). eauto.
    + exists pr. right. by left.
Qed.

Lemma match_from_prefix (r : regex) (po pr : option ascii) (x y : string) :
  no_context r = true -> match_from r po x = true -> match_from r pr (x +:+ y) = true.
Proof.
  intros Hn. revert po pr. induction x as [|c x IH]; intros po pr; simpl.
  - destruct (rmatch r po "") as [|[p rest] ms] eqn:E; [done|]. intros _.
    assert ((p, rest) ∈ rmatch r po "") as Hin by (rewrite E; by left).
    destruct (rmatch_local r (no_context_lookahead r Hn) _ _ _ _ Hin) as (z & Hz & _ & HL).
    destruct z; [|done]. destruct (HL po y (bol_le_refl po)) as (p' & Hin' & _).
    destruct (rmatch_prev r po pr p' y y Hn Hin') as [p2 Hin2]. destruct y; simpl;
      (destruct (rmatch r pr _); [by apply elem_of_nil in Hin2|done]).
  - destruct (rmatch r po (String c x)) as [|[p rest] ms] eqn:E.
    + intros H. destruct (rmatch r pr _); [|done]. by eapply IH.
    + intros _. assert ((p, rest) ∈ rmatch r po (String c x)) as Hin by (rewrite E; by left).
      destruct (rmatch_local r (no_context_lookahead r Hn) _ _ _ _ Hin) as (z & Hz & _ & HL).
      destruct (HL po (rest +:+ y) (bol_le_refl po)) as (p' & Hin' & _).
      rewrite str_app_assoc, <- Hz in Hin'.
      destruct (rmatch_prev r po pr p' _ _ Hn Hin') as [p2 Hin2].
      simpl in Hin2. destruct (rmatch r pr _); [by apply elem_of_nil in Hin2|done].
Qed.

Lemma match_from_suffix (r : regex) (pr : option ascii) (x y : string) :
  (forall po, match_from r po y = true) -> match_from r pr (x +:+ y) = true.
Proof.
  intros H. revert pr. induction x as [|c x IH]; intros pr; simpl; [apply H|].
  destruct (rmatch r pr _); [apply IH|done].
Qed.

(** A text that matches is found in every text it occurs in. *)
Lemma MatchString_occurs (r : regex) (v s : string) :
  no_context r = true -> MatchString r v = true -> occurs v s -> MatchString r s = true.
Proof.
  intros Hn Hm (a & b & ->). unfold MatchString. apply match_from_suffix.
  intros po. by apply (match_from_prefix r None).
Qed.
