(* ===== verification/GoJson.v ===== *)
(** [json.Marshal] of dynamic values ([encoding/json] with its HTML escaping), the
    text that prompt security searches and that tool results reach the model in.

    The decimal text of a float is an argument. *)

From stdpp Require Import pretty.
From S2P Require Import Prelude GoString GoFloat Types.
#[local] Open Scope Z_scope.

Definition dquote : ascii := "034"%char.
Definition backslash : ascii := "092"%char.

Definition quoted (s : string) : string := String dquote (s +:+ String dquote EmptyString).

Definition hex_digit (z : Z) : ascii := of_byte (if z <? 10 then 48 + z else 87 + z).

(** [\u00XX] *)
Definition u_escape (b : Z) : string :=
  String backslash ("u00" +:+ String (hex_digit (b / 16)) (String (hex_digit (b mod 16)) EmptyString)).

(** The text of one rune inside a JSON string; [bytes] are the bytes it was read from. *)
Definition json_rune (r : Z) (bytes : string) : string :=
  if (r =? 34) || (r =? 92) then String backslash bytes
  else if r =? 8 then String backslash "b"
  else if r =? 12 then String backslash "f"
  else if r =? 10 then String backslash "n"
  else if r =? 13 then String backslash "r"
  else if r =? 9 then String backslash "t"
  else if (r <? 32) || (r =? 60) || (r =? 62) || (r =? 38) then u_escape r
  else if (r =? rune_error) && (String.length bytes =? 1)%nat then String backslash "ufffd"
  else if r =? 8232 then String backslash "u2028"
  else if r =? 8233 then String backslash "u2029"
  else bytes.

Definition json_text (s : string) : string :=
  str_concat (map (fun x => json_rune x.1 x.2) (runes s)).

Definition json_string (s : string) : string := quoted (json_text s).

(** The verb [%q] of [fmt]; every valid rune above ASCII is taken as printable. *)
Definition q_rune (r : Z) (bytes : string) : string :=
  if (r =? 34) || (r =? 92) then String backslash bytes
  else if r =? 7 then String backslash "a"
  else if r =? 8 then String backslash "b"
  else if r =? 12 then String backslash "f"
  else if r =? 10 then String backslash "n"
  else if r =? 13 then String backslash "r"
  else if r =? 9 then String backslash "t"
  else if r =? 11 then String backslash "v"
  else if (r <? 32) || (r =? 127) || ((r =? rune_error) && (String.length bytes =? 1)%nat)
  then
    let b := match bytes with String c _ => byte_of c | EmptyString => 0 end in
    String backslash ("x" +:+ String (hex_digit (b / 16)) (String (hex_digit (b mod 16)) EmptyString))
  else bytes.

Definition go_quote (s : string) : string :=
  quoted (str_concat (map (fun x => q_rune x.1 x.2) (runes s))).

(** Keys are written in byte order. *)
Fixpoint insert_key {A} (k : string) (v : A) (l : list (string * A)) : list (string * A) :=
  match l with
  | [] => [(k, v)]
  | (k', v') :: l' => if (k <=? k')%string then (k, v) :: l else (k', v') :: insert_key k v l'
  end.

Definition sort_keys {A} (l : list (string * A)) : list (string * A) :=
  foldr (fun e => insert_key e.1 e.2) [] l.

Definition json_object (l : list (string * string)) : string :=
  "{" +:+ join "," (map (fun e => json_string e.1 +:+ ":" +:+ e.2) (sort_keys l)) +:+ "}".

Definition json_array (l : list string) : string := "[" +:+ join "," l +:+ "]".

(** All elements, or the first error. *)
Fixpoint all_ok {A} (l : list (result string A)) : result string (list A) :=
  match l with
  | [] => Ok []
  | r :: l' => let? x := r in let? xs := all_ok l' in Ok (x :: xs)
  end.

Section marshal.
Context (fmt_float : float64 -> result string string).

Fixpoint Marshal (v : any) : result string string :=
  match v with
  | ANil => Ok "null"
  | ABool b => Ok (if b then "true" else "false")
  | AString s => Ok (json_string s)
  | AFloat64 f | AFloat32 f => fmt_float f
  | AInt z => Ok (pretty z)
  | ANumber s => Ok (if bool_decide (s = EmptyString) then "0" else s)
  | AMap m =>
    let? l := all_ok (map (fun e => let? x := Marshal e.2 in Ok (e.1, x)) m) in
    Ok (json_object l)
  | AStrMap m => Ok (json_object (map (fun e => (e.1, json_string e.2)) m))
  | ASlice l => let? xs := all_ok (map Marshal l) in Ok (json_array xs)
  | AStrSlice l => Ok (json_array (map json_string l))
  | ATypedSlice l => let? xs := all_ok (map Marshal l) in Ok (json_array xs)
  | AOther t => Err ("json: unsupported type: " +:+ t)
  end.
End marshal.

(** * Lemmas *)

#[local] Arguments String.append !s1 s2 : simpl nomatch.

(** A byte that a JSON string carries as it is: printable ASCII without quotes,
    backslashes and HTML characters. *)
Definition json_plain (c : ascii) : bool :=
  let b := byte_of c in
  (32 <=? b) && (b <? 128) && negb (existsb (Z.eqb b) [34; 92; 60; 62; 38]).

Fixpoint str_forallb (f : ascii -> bool) (s : string) : bool :=
  match s with
  | EmptyString => true
  | String c s' => f c && str_forallb f s'
  end.

Lemma json_text_cons (c : ascii) (s : string) :
  json_plain c = true -> json_text (String c s) = String c (json_text s).
Proof.
  unfold json_plain, json_text, runes. intros Hc. cbn [runes_from].
  unfold decode_rune. set (b := byte_of c) in *. to_prop.
  rewrite (proj2 (Z.ltb_lt b 128)) by done.
  assert (str_take 1 (String c s) = String c EmptyString) as -> by by destruct s.
  cbn [map fst snd Nat.sub]. unfold str_concat. cbn [foldr].
  assert (json_rune b (String c EmptyString) = String c EmptyString) as ->; [|done].
  cbn [existsb] in *. to_prop. unfold json_rune.
  repeat match goal with
  | H : (?x =? ?y) = false |- _ => revert H
  | H : _ <> _ |- _ => revert H
  end.
  intros. repeat match goal with
  | |- context [?x =? ?y] => rewrite (proj2 (Z.eqb_neq x y)) by (unfold rune_error; lia)
  | |- context [?x <? ?y] => rewrite (proj2 (Z.ltb_ge x y)) by lia
  end. done.
Qed.

Lemma json_text_plain (s : string) : str_forallb json_plain s = true -> json_text s = s.
Proof.
  induction s as [|c s IH]; cbn [str_forallb]; [done|]. intros [Hc Hs]%andb_true_iff.
  by rewrite json_text_cons, IH.
Qed.

Lemma occurs_app (sub a b : string) :
  occurs sub a \/ occurs sub b -> occurs sub (a +:+ b).
Proof.
  intros [(x & y & ->)|H]; [|by apply occurs_app_r].
  exists x, (y +:+ b). by rewrite <- !str_app_assoc.
Qed.

Lemma occurs_refl (s : string) : occurs s s.
Proof. exists EmptyString, EmptyString. by rewrite str_app_nil_r. Qed.

Lemma occurs_trans (a b c : string) : occurs a b -> occurs b c -> occurs a c.
Proof.
  intros (x & y & ->) (u & v & ->). exists (u +:+ x), (y +:+ v).
  by rewrite <- !str_app_assoc.
Qed.

Lemma occurs_join (sep x : string) (l : list string) : x ∈ l -> occurs x (join sep l).
Proof.
  induction l as [|y t IH]; [by intros ?%elem_of_nil|]. rewrite elem_of_cons. intros [->|Hin].
  - destruct t; [apply occurs_refl|]. rewrite join_cons. apply occurs_app. left. apply occurs_refl.
  - destruct t; [by apply elem_of_nil in Hin|]. rewrite join_cons.
    by apply occurs_app_r, occurs_app_r, IH.
Qed.

Lemma insert_key_elem {A} (k : string) (v : A) (l : list (string * A)) (e : string * A) :
  e ∈ insert_key k v l <-> e = (k, v) \/ e ∈ l.
Proof.
  induction l as [|[k' v'] l IH]; simpl; [by rewrite list_elem_of_singleton, elem_of_nil; tauto|].
  destruct (k <=? k')%string; rewrite !elem_of_cons; [done|]. rewrite IH. tauto.
Qed.

Lemma sort_keys_elem {A} (l : list (string * A)) (e : string * A) : e ∈ sort_keys l <-> e ∈ l.
Proof.
  induction l as [|[k v] l IH]; simpl; [done|]. by rewrite insert_key_elem, elem_of_cons, IH.
Qed.

Lemma all_ok_elem {A} (l : list (result string A)) (xs : list A) (x : A) :
  all_ok l = inl xs -> Ok x ∈ l -> x ∈ xs.
Proof.
  revert xs. induction l as [|r l IH]; intros xs; simpl; [by intros _ ?%elem_of_nil|].
  destruct r as [y|]; [|done]. simpl. destruct (all_ok l) as [ys|]; [|done].
  intros [= <-]. rewrite !elem_of_cons. intros [[= ->]|H]; [by left|right]. by apply IH.
Qed.

(** The text of a string entry is in the text of its map. *)
Lemma marshal_string_entry fmt_float (m : list (string * any)) (k v text : string) :
  Marshal fmt_float (AMap m) = inl text -> (k, AString v) ∈ m -> occurs (json_text v) text.
Proof.
  cbn [Marshal]. destruct (all_ok _) as [l|] eqn:E; [|done]. intros [= <-] Hin.
  assert ((k, json_string v) ∈ l) as Hl.
  { eapply all_ok_elem; [done|]. apply list_elem_of_fmap. by exists (k, AString v). }
  unfold json_object. apply (occurs_trans _ (json_string k +:+ ":" +:+ json_string v)).
  - do 2 apply occurs_app_r. apply occurs_cons, occurs_app. left. apply occurs_refl.
  - apply occurs_cons, occurs_app. left. apply occurs_join. apply list_elem_of_fmap.
    exists (k, json_string v). by rewrite sort_keys_elem.
Qed.
