(* ===== verification/Spending.v ===== *)
(** Spending ([internal/spending/store_tracker.go]) and its tables
    ([internal/store/postgres/postgres.go]).

    State [SpendingDB]: the usage records in the order of their insertion, the limits, the
    pricing catalog, and what was audited and notified.  Which query fails is an
    argument ([faults]), as are the clock and the calendar: [day_start now] and
    [month_start now] are the beginnings of the current day and month. *)

From S2P Require Import Prelude GoString GoFloat Types.
#[local] Open Scope Z_scope.

(** * Tables *)

(** A row of [usage_records]; [urCreatedAt] is the database's clock at the insertion. *)
Record UsageRecord := mkUsageRecord {
  urAgentID : string;
  urTokensIn : Z;
  urTokensOut : Z;
  urCost : float64;
  urModel : string;
  urModelSlot : string;
  urRoutedBy : string;
  urProvider : string;
  urParentAgentID : string;
  urCostSource : string;
  urUsageSource : string;
  urUsageComplete : bool;
  urPricingVersion : string;
  urCategory : string;
  urCreatedAt : Z;
}.

(** A row of [pricing_catalog] *)
Record PriceRow := mkPriceRow {
  prProvider : string;
  prPattern : string;
  prInputPerM : float64;
  prOutputPerM : float64;
  prVersion : string;
  prFrom : Z;
  prTo : option Z;
}.

(** What [audit.LogSpending] logged and what the notifier was sent. *)
Record SpendingAudit := mkSpendingAudit { saAgentID : string; saAction : string; saDecision : string }.
Record SpendingAlert := mkSpendingAlert { spAgentID : string; spCrossed : list string }.

Record SpendingDB := mkSpendingDB {
  sdUsage : list UsageRecord;
  sdLimits : gmap string SpendingLimits;
  sdCatalog : list PriceRow;
  sdAudit : list SpendingAudit;
  sdAlerts : list SpendingAlert;
}.

Definition add_audit (e : SpendingAudit) (db : SpendingDB) : SpendingDB :=
  mkSpendingDB (sdUsage db) (sdLimits db) (sdCatalog db) (sdAudit db ++ [e]) (sdAlerts db).
Definition add_alert (e : SpendingAlert) (db : SpendingDB) : SpendingDB :=
  mkSpendingDB (sdUsage db) (sdLimits db) (sdCatalog db) (sdAudit db) (sdAlerts db ++ [e]).
Definition add_usage (r : UsageRecord) (db : SpendingDB) : SpendingDB :=
  mkSpendingDB (sdUsage db ++ [r]) (sdLimits db) (sdCatalog db) (sdAudit db) (sdAlerts db).

(** The queries that can fail. *)
Inductive SpendingQuery : Type :=
| QInsertUsage
| QExactPrice
| QPrefixPrice
| QAggregate (period : string)
| QBreakdown
| QGetLimit (agentID : string)
| QSetLimit.

Inductive SpendingError : Type :=
| QueryFailed (q : SpendingQuery)
| UnknownPeriod (period : string).

(** * Limits *)

(** [resolveLimit] and [resolveLimitInt] *)
Definition resolveLimit (global agent : float64) : float64 :=
  if f64_eq global f64_zero then agent
  else if f64_eq agent f64_zero then global
  else if f64_lt global agent then global
  else agent.

Definition resolveLimitInt (global agent : Z) : Z :=
  if global =? 0 then agent
  else if agent =? 0 then global
  else if global <? agent then global
  else agent.

Definition global_key : string := "__global__".

(** * Prices *)

(** SQL's [text LIKE pattern]: [%] any text, [_] one character, [\] quotes the next. *)
Fixpoint sql_like (pattern : string) (text : string) : bool :=
  match pattern with
  | EmptyString => bool_decide (text = EmptyString)
  | String p pattern' =>
    if Ascii.eqb p "%" then
      (fix any (t : string) : bool :=
         sql_like pattern' t ||
         match t with EmptyString => false | String _ t' => any t' end) text
    else if Ascii.eqb p "_" then
      match text with EmptyString => false | String _ t' => sql_like pattern' t' end
    else if Ascii.eqb p "\" then
      match pattern', text with
      | String q pattern'', String c t' => Ascii.eqb q c && sql_like pattern'' t'
      | _, _ => false
      end
    else
      match text with EmptyString => false | String c t' => Ascii.eqb p c && sql_like pattern' t' end
  end.

Definition price_active (now : Z) (r : PriceRow) : bool :=
  (prFrom r <=? now) && match prTo r with None => true | Some t => now <? t end.

(** [ORDER BY effective_from DESC LIMIT 1] *)
Definition later_price (best : option PriceRow) (r : PriceRow) : option PriceRow :=
  match best with
  | None => Some r
  | Some b => if prFrom b <? prFrom r then Some r else Some b
  end.

(** [ORDER BY LENGTH(model_pattern) DESC, effective_from DESC LIMIT 1] *)
Definition longer_price (best : option PriceRow) (r : PriceRow) : option PriceRow :=
  match best with
  | None => Some r
  | Some b =>
    let lb := String.length (prPattern b) in
    let lr := String.length (prPattern r) in
    if (lb <? lr)%nat || ((lb =? lr)%nat && (prFrom b <? prFrom r)) then Some r else Some b
  end.

Definition exact_price (provider model : string) (now : Z) (r : PriceRow) : bool :=
  bool_decide (prProvider r = provider) && bool_decide (prPattern r = model) && price_active now r.

Definition prefix_price (provider model : string) (now : Z) (r : PriceRow) : bool :=
  bool_decide (prProvider r = provider) && sql_like (prPattern r +:+ "%") model && price_active now r.

Section spending.
Context (faults : SpendingQuery -> bool).
Context (day_start month_start : Z -> Z).

Definition query {A} (q : SpendingQuery) (a : A) : result SpendingError A :=
  if faults q then Err (QueryFailed q) else Ok a.

(** [PostgresStore.LookupModelPrice] *)
Definition LookupModelPrice (provider model : string) (now : Z) (db : SpendingDB)
    : result SpendingError (option PriceRow) :=
  let? exact := query QExactPrice
    (foldl later_price None (List.filter (exact_price provider model now) (sdCatalog db))) in
  match exact with
  | Some r => Ok (Some r)
  | None =>
    query QPrefixPrice
      (foldl longer_price None (List.filter (prefix_price provider model now) (sdCatalog db)))
  end.

(** * Recording usage *)

(** [RecordOptions] *)
Record RecordOptions := mkRecordOptions {
  optModel : string;
  optModelSlot : string;
  optRoutedBy : string;
  optProvider : string;
  optParentAgentID : string;
  optCostSource : string;
  optUsageSource : string;
  optUsageComplete : bool;
  optPricingVersion : string;
  optCategory : string;
}.

Definition or_else (s default : string) : string :=
  if bool_decide (s = EmptyString) then default else s.

(** The cost, its source and the pricing version to store: reported by the provider or
    computed from the catalog. *)
Definition usage_cost (model : string) (tokensIn tokensOut : Z) (cost : float64) (opts : RecordOptions)
    (now : Z) (db : SpendingDB) : result SpendingError (float64 * string * string) :=
  let costSource := if bool_decide (optCostSource opts = EmptyString) && f64_lt f64_zero cost
                    then "provider_reported" else optCostSource opts in
  if f64_le cost f64_zero && negb (bool_decide (optProvider opts = EmptyString))
     && negb (bool_decide (model = EmptyString)) && ((0 <? tokensIn) || (0 <? tokensOut))
  then
    let? found := LookupModelPrice (optProvider opts) model now db in
    match found with
    | Some p =>
      Ok (f64_div (f64_add (f64_mul (f64_of_Z tokensIn) (prInputPerM p))
                     (f64_mul (f64_of_Z tokensOut) (prOutputPerM p))) (f64_of_Z 1000000),
          "catalog_computed", or_else (optPricingVersion opts) (prVersion p))
    | None => Ok (cost, or_else costSource "unknown", optPricingVersion opts)
    end
  else Ok (cost, or_else costSource "unknown", optPricingVersion opts).

(** [StoreTracker.Record] on a store with detailed records; [model] is the tracker's
    default model. *)
Definition RecordUsage (model agentID : string) (tokensIn tokensOut : Z) (cost : float64)
    (opts : RecordOptions) (now : Z) (db : SpendingDB) : result SpendingError unit * SpendingDB :=
  let model := or_else (optModel opts) model in
  let tokens := (0 <? tokensIn) || (0 <? tokensOut) in
  match usage_cost model tokensIn tokensOut cost opts now db with
  | inr e => (Err e, db)
  | inl (cost, costSource, pricingVersion) =>
    if faults QInsertUsage then (Err (QueryFailed QInsertUsage), db)
    else
      let r := mkUsageRecord agentID tokensIn tokensOut cost model
        (or_else (optModelSlot opts) "default") (or_else (optRoutedBy opts) "default")
        (optProvider opts) (optParentAgentID opts) costSource
        (or_else (optUsageSource opts) (if tokens then "provider_usage" else "unknown"))
        (optUsageComplete opts || tokens) pricingVersion (optCategory opts) now in
      (Ok tt, add_audit (mkSpendingAudit agentID "record" "allowed") (add_usage r db))
  end.

(** * Aggregation *)

(** [appendPeriodFilter]: the first instant of the period *)
Definition period_start (period : string) (now : Z) : result SpendingError (option Z) :=
  if bool_decide (period = "day") then Ok (Some (day_start now))
  else if bool_decide (period = "month") then Ok (Some (month_start now))
  else if bool_decide (period = "all") then Ok None
  else Err (UnknownPeriod period).

Definition in_period (start : option Z) (r : UsageRecord) : bool :=
  match start with
  | None => true
  | Some t => t <=? urCreatedAt r
  end.

Definition agent_usage (agentID : string) (start : option Z) (db : SpendingDB) : list UsageRecord :=
  List.filter (fun r => bool_decide (urAgentID r = agentID) && in_period start r) (sdUsage db).

Definition urTokens (r : UsageRecord) : Z := urTokensIn r + urTokensOut r.

Definition total_tokens (l : list UsageRecord) : Z := foldl (fun n r => n + urTokens r) 0 l.
Definition summed_cost (l : list UsageRecord) : float64 := foldl (fun c r => f64_add c (urCost r)) f64_zero l.

(** [spending.Summary] *)
Record Summary := mkSummary {
  smAgentID : string;
  smPeriod : string;
  smTotalTokens : Z;
  smTotalCost : float64;
  smRequestCount : Z;
}.

Definition summarize (agentID period : string) (l : list UsageRecord) : Summary :=
  mkSummary agentID period (total_tokens l) (summed_cost l) (Z.of_nat (length l)).

(** [PostgresStore.AggregateUsage] *)
Definition AggregateUsage (agentID period : string) (now : Z) (db : SpendingDB)
    : result SpendingError Summary :=
  let? start := period_start period now in
  query (QAggregate period) (summarize agentID period (agent_usage agentID start db)).

(** [StoreTracker.GetSummary] *)
Definition GetSummary (agentID period : string) (now : Z) (db : SpendingDB)
    : result SpendingError Summary :=
  AggregateUsage agentID (or_else period "all") now db.

(** [GROUP BY key]: the groups in the order of their first rows. *)
Fixpoint group_by {K} `{EqDecision K} (key : UsageRecord -> K) (l : list UsageRecord)
    (groups : list (K * list UsageRecord)) : list (K * list UsageRecord) :=
  match l with
  | [] => groups
  | r :: l' =>
    let fix add gs :=
      match gs with
      | [] => [(key r, [r])]
      | (k, rs) :: gs' => if decide (k = key r) then (k, rs ++ [r]) :: gs' else (k, rs) :: add gs'
      end in
    group_by key l' (add groups)
  end.

(** [ORDER BY SUM(cost_usd) DESC] *)
Fixpoint insert_by_cost {K} (g : K * list UsageRecord) (l : list (K * list UsageRecord))
    : list (K * list UsageRecord) :=
  match l with
  | [] => [g]
  | h :: l' => if f64_lt (summed_cost g.2) (summed_cost h.2) then h :: insert_by_cost g l' else g :: l
  end.

Definition by_cost {K} (l : list (K * list UsageRecord)) : list (K * list UsageRecord) :=
  foldr insert_by_cost [] l.

(** [spending.SlotUsageSummary] and [ProviderUsageSummary] *)
Record SlotUsageSummary := mkSlotUsage {
  suSlotName : string; suProvider : string; suModel : string;
  suTotalTokens : Z; suTotalCost : float64; suRequestCount : Z;
}.
Record ProviderUsageSummary := mkProviderUsage {
  puProvider : string; puTotalTokens : Z; puTotalCost : float64; puRequestCount : Z;
}.

(** [PostgresStore.AggregateSlotUsage], [StoreTracker.GetSlotBreakdown] *)
Definition AggregateSlotUsage (agentID period : string) (now : Z) (db : SpendingDB)
    : result SpendingError (list SlotUsageSummary) :=
  let? start := period_start period now in
  query QBreakdown
    (map (fun g : (string * string * string) * list UsageRecord =>
            mkSlotUsage g.1.1.1 g.1.2 g.1.1.2 (total_tokens g.2) (summed_cost g.2)
              (Z.of_nat (length g.2)))
       (by_cost (group_by (fun r => (urModelSlot r, urModel r, urProvider r))
          (agent_usage agentID start db) []))).

(** [PostgresStore.AggregateProviderUsage], [StoreTracker.GetProviderBreakdown] *)
Definition AggregateProviderUsage (agentID period : string) (now : Z) (db : SpendingDB)
    : result SpendingError (list ProviderUsageSummary) :=
  let? start := period_start period now in
  query QBreakdown
    (map (fun g : string * list UsageRecord =>
            mkProviderUsage g.1 (total_tokens g.2) (summed_cost g.2) (Z.of_nat (length g.2)))
       (by_cost (group_by urProvider (agent_usage agentID start db) []))).

(** * Limits in force *)

(** [PostgresStore.GetSpendingLimit], with [types.ErrNotFound] answered by zero limits as
    [CheckBudget] does *)
Definition GetSpendingLimit (agentID : string) (db : SpendingDB) : result SpendingError SpendingLimits :=
  query (QGetLimit agentID) (default zero_limits (sdLimits db !! agentID)).

(** [PostgresStore.SetSpendingLimit], [StoreTracker.SetAgentLimit] *)
Definition SetAgentLimit (agentID : string) (limit : SpendingLimits) (db : SpendingDB)
    : result SpendingError unit * SpendingDB :=
  if faults QSetLimit then (Err (QueryFailed QSetLimit), db)
  else (Ok tt, mkSpendingDB (sdUsage db) (<[agentID := limit]> (sdLimits db)) (sdCatalog db)
                 (sdAudit db) (sdAlerts db)).

(** [StoreTracker.SetGlobalLimit] *)
Definition SetGlobalLimit : SpendingLimits -> SpendingDB -> result SpendingError unit * SpendingDB :=
  SetAgentLimit global_key.

(** [BudgetStatus] *)
Record BudgetStatus := mkBudgetStatus {
  bsAgentID : string;
  bsWithinBudget : bool;
  bsDailyUsed : float64;
  bsDailyLimit : float64;
  bsMonthlyUsed : float64;
  bsMonthlyLimit : float64;
  bsTokensToday : Z;
  bsTokensThisMonth : Z;
}.

Definition cost_reached (used limit : float64) : bool := f64_lt f64_zero limit && f64_le limit used.
Definition tokens_reached (used limit : Z) : bool := (0 <? limit) && (limit <=? used).

(** [ratio >= thresholdRatio] *)
Definition crosses (threshold : Z) (used limit : float64) : bool :=
  f64_le (f64_div (f64_of_Z threshold) (f64_of_Z 100)) (f64_div used limit).

(** The labels of the limits whose threshold is crossed; [None] without a notifier. *)
Definition crossed_limits (notifier : option Z) (day month : Summary) (l : SpendingLimits) : list string :=
  match notifier with
  | Some threshold =>
    if 0 <? threshold then
      (if f64_lt f64_zero (MaxSpendPerDay l) && crosses threshold (smTotalCost day) (MaxSpendPerDay l)
       then ["daily spend"] else []) ++
      (if f64_lt f64_zero (MaxSpendPerMonth l) && crosses threshold (smTotalCost month) (MaxSpendPerMonth l)
       then ["monthly spend"] else []) ++
      (if (0 <? MaxTokensPerDay l)
          && crosses threshold (f64_of_Z (smTotalTokens day)) (f64_of_Z (MaxTokensPerDay l))
       then ["daily tokens"] else []) ++
      (if (0 <? MaxTokensPerMonth l)
          && crosses threshold (f64_of_Z (smTotalTokens month)) (f64_of_Z (MaxTokensPerMonth l))
       then ["monthly tokens"] else [])
    else []
  | None => []
  end.

Definition effective_limits (g a : SpendingLimits) : SpendingLimits :=
  mkSpendingLimits
    (resolveLimitInt (MaxTokensPerDay g) (MaxTokensPerDay a))
    (resolveLimitInt (MaxTokensPerMonth g) (MaxTokensPerMonth a))
    (resolveLimit (MaxSpendPerDay g) (MaxSpendPerDay a))
    (resolveLimit (MaxSpendPerMonth g) (MaxSpendPerMonth a)).

Definition within (day month : Summary) (l : SpendingLimits) : bool :=
  negb (cost_reached (smTotalCost day) (MaxSpendPerDay l)) &&
  negb (cost_reached (smTotalCost month) (MaxSpendPerMonth l)) &&
  negb (tokens_reached (smTotalTokens day) (MaxTokensPerDay l)) &&
  negb (tokens_reached (smTotalTokens month) (MaxTokensPerMonth l)).

(** [StoreTracker.CheckBudget]; [notifier] is the alert threshold of a configured notifier. *)
Definition CheckBudget (notifier : option Z) (agentID : string) (now : Z) (db : SpendingDB)
    : result SpendingError BudgetStatus * SpendingDB :=
  match (let? day := AggregateUsage agentID "day" now db in
         let? month := AggregateUsage agentID "month" now db in
         let? g := GetSpendingLimit global_key db in
         let? a := GetSpendingLimit agentID db in
         Ok (day, month, effective_limits g a)) with
  | inr e => (Err e, db)
  | inl (day, month, l) =>
    let ok := within day month l in
    let crossed := crossed_limits notifier day month l in
    let db := if bool_decide (crossed = []) then db else add_alert (mkSpendingAlert agentID crossed) db in
    let db := if ok then db else add_audit (mkSpendingAudit agentID "check_budget" "denied") db in
    (Ok (mkBudgetStatus agentID ok (smTotalCost day) (MaxSpendPerDay l) (smTotalCost month)
           (MaxSpendPerMonth l) (smTotalTokens day) (smTotalTokens month)), db)
  end.
End spending.

(** * Limits *)

Definition f64_nonneg (f : float64) : Prop := f64_le f64_zero f = true.

Lemma f64_le_zero_pos (a b : float64) :
  f64_lt f64_zero a = true -> f64_le a b = true -> f64_lt f64_zero b = true.
Proof.
  unfold f64_lt, f64_le, SpecFloat.SFltb, SpecFloat.SFleb.
  destruct a as [[]|[]| |[] m e], b as [[]|[]| |[] m' e']; done.
Qed.

Lemma f64_eq_zero_pos (a : float64) : f64_eq a f64_zero = true -> f64_lt f64_zero a = false.
Proof. by destruct a as [[]|[]| |[] m e]. Qed.

(** The limit in force is reached exactly when one of the two positive limits is. *)
Lemma cost_reached_resolve (used g a : float64) :
  f64_nonneg g -> f64_nonneg a ->
  cost_reached used (resolveLimit g a) = cost_reached used g || cost_reached used a.
Proof.
  unfold f64_nonneg, resolveLimit, cost_reached. intros Hg Ha.
  destruct (f64_eq g f64_zero) eqn:Eg; [by rewrite (f64_eq_zero_pos g Eg)|].
  destruct (f64_eq a f64_zero) eqn:Ea; [by rewrite (f64_eq_zero_pos a Ea), orb_false_r|].
  assert (forall x, f64_nonneg x -> f64_eq x f64_zero = false -> f64_lt f64_zero x = true) as Hpos.
  { intros x. unfold f64_nonneg. by destruct x as [[]|[]| |[] m e]. }
  rewrite (Hpos g Hg Eg), (Hpos a Ha Ea). cbn [andb].
  assert (f64_is_nan g = false /\ f64_is_nan a = false) as [Ng Na].
  { split; [by destruct g|by destruct a]. }
  destruct (f64_lt g a) eqn:Elt.
  - rewrite (Hpos g Hg Eg). cbn [andb]. destruct (f64_le a used) eqn:Eu; [|by rewrite orb_false_r].
    rewrite orb_true_r. apply (f64_le_trans g a); [by apply f64_lt_le|done].
  - rewrite (Hpos a Ha Ea). cbn [andb]. destruct (f64_le g used) eqn:Eu; [|done].
    apply (f64_le_trans a g); [by apply f64_not_lt_le|done].
Qed.

Lemma tokens_reached_resolve (used g a : Z) :
  0 <= g -> 0 <= a ->
  tokens_reached used (resolveLimitInt g a) = tokens_reached used g || tokens_reached used a.
Proof.
  unfold tokens_reached, resolveLimitInt. intros Hg Ha.
  destruct (Z.eqb_spec g 0), (Z.eqb_spec a 0), (Z.ltb_spec g a), (Z.ltb_spec 0 g),
    (Z.ltb_spec 0 a), (Z.leb_spec g used), (Z.leb_spec a used); simpl; try done; lia.
Qed.

Definition limits_nonneg (l : SpendingLimits) : Prop :=
  0 <= MaxTokensPerDay l /\ 0 <= MaxTokensPerMonth l /\
  f64_nonneg (MaxSpendPerDay l) /\ f64_nonneg (MaxSpendPerMonth l).

(** Usage is within one set of limits. *)
Lemma within_effective (day month : Summary) (g a : SpendingLimits) :
  limits_nonneg g -> limits_nonneg a ->
  within day month (effective_limits g a) = within day month g && within day month a.
Proof.
  intros (? & ? & ? & ?) (? & ? & ? & ?). unfold within, effective_limits. simpl.
  rewrite !cost_reached_resolve, !tokens_reached_resolve by done.
  repeat match goal with
  | |- context [cost_reached ?u ?l] => destruct (cost_reached u l)
  | |- context [tokens_reached ?u ?l] => destruct (tokens_reached u l)
  end; done.
Qed.

Lemma zero_limits_within (day month : Summary) : within day month zero_limits = true.
Proof. done. Qed.

Section budget.
Context (faults : SpendingQuery -> bool) (day_start month_start : Z -> Z).

Definition limits_of (agentID : string) (db : SpendingDB) : SpendingLimits :=
  default zero_limits (sdLimits db !! agentID).

Definition day_summary (agentID : string) (now : Z) (db : SpendingDB) : Summary :=
  summarize agentID "day" (agent_usage agentID (Some (day_start now)) db).
Definition month_summary (agentID : string) (now : Z) (db : SpendingDB) : Summary :=
  summarize agentID "month" (agent_usage agentID (Some (month_start now)) db).

(** The queries of a budget check. *)
Definition budget_queries (agentID : string) : list SpendingQuery :=
  [QAggregate "day"; QAggregate "month"; QGetLimit global_key; QGetLimit agentID].

Lemma CheckBudget_eq (notifier : option Z) (agentID : string) (now : Z) (db : SpendingDB) :
  if existsb faults (budget_queries agentID) then
    exists q, CheckBudget faults day_start month_start notifier agentID now db =
      (Err (QueryFailed q), db) /\ faults q = true
  else exists st db',
    CheckBudget faults day_start month_start notifier agentID now db = (Ok st, db') /\
    bsWithinBudget st = within (day_summary agentID now db) (month_summary agentID now db)
      (effective_limits (limits_of global_key db) (limits_of agentID db)) /\
    sdUsage db' = sdUsage db /\ sdLimits db' = sdLimits db /\
    sdAudit db' = sdAudit db ++
      (if bsWithinBudget st then [] else [mkSpendingAudit agentID "check_budget" "denied"]).
Proof.
  unfold CheckBudget, AggregateUsage, GetSpendingLimit, query, budget_queries. simpl.
  destruct (faults (QAggregate "day")) eqn:E1; [by eexists|].
  destruct (faults (QAggregate "month")) eqn:E2; [by eexists|].
  destruct (faults (QGetLimit global_key)) eqn:E3; [by eexists|].
  destruct (faults (QGetLimit agentID)) eqn:E4; [by eexists|]. simpl.
  eexists _, _. split; [reflexivity|]. cbn [bsWithinBudget].
  unfold limits_of, day_summary, month_summary.
  destruct (within _ _ _); case_bool_decide; split_and!; simpl; try done; by rewrite app_nil_r.
Qed.

(** a budget check that is not disturbed by the database answers, and it finds the
    agent within budget exactly when its own usage reaches neither the agent's limits nor
    the global ones (each of the four that is positive; zero means unlimited). *)
Theorem budget_within_iff (notifier : option Z) (agentID : string) (now : Z) (db : SpendingDB) :
  (forall q, q ∈ budget_queries agentID -> faults q = false) ->
  limits_nonneg (limits_of global_key db) -> limits_nonneg (limits_of agentID db) ->
  exists st db',
    CheckBudget faults day_start month_start notifier agentID now db = (Ok st, db') /\
    (bsWithinBudget st = true <->
     forall l, l ∈ [limits_of global_key db; limits_of agentID db] ->
       within (day_summary agentID now db) (month_summary agentID now db) l = true).
Proof.
  intros Hf Hg Ha. pose proof (CheckBudget_eq notifier agentID now db) as H.
  rewrite (proj2 (existsb_elem_false faults _) Hf) in H.
  destruct H as (st & db' & E & Hw & _). exists st, db'. split; [done|].
  rewrite Hw, within_effective, andb_true_iff by done. set_solver.
Qed.
End budget.

(** ** Recording *)

Section recording.
Context (faults : SpendingQuery -> bool) (day_start month_start : Z -> Z).

Lemma total_tokens_app (l1 l2 : list UsageRecord) :
  total_tokens (l1 ++ l2) = total_tokens l1 + total_tokens l2.
Proof.
  unfold total_tokens. rewrite foldl_app.
  assert (forall l n, foldl (fun n r => n + urTokens r) n l =
    n + foldl (fun n r => n + urTokens r) 0 l) as H.
  { induction l as [|r l IH]; intros n; simpl; [lia|]. rewrite IH, (IH (0 + urTokens r)%Z). lia. }
  apply H.
Qed.

Lemma total_tokens_nil : total_tokens [] = 0.
Proof. done. Qed.

Lemma total_tokens_single (r : UsageRecord) : total_tokens [r] = urTokensIn r + urTokensOut r.
Proof. done. Qed.

Lemma agent_usage_add (agentID : string) (start : option Z) (r : UsageRecord) (db : SpendingDB) :
  agent_usage agentID start (add_usage r db) =
  agent_usage agentID start db ++
    (if bool_decide (urAgentID r = agentID) && in_period start r then [r] else []).
Proof. unfold agent_usage. cbn [add_usage sdUsage]. rewrite List.filter_app. done. Qed.

Lemma RecordUsage_eq model agentID tokensIn tokensOut cost opts now db res db' :
  RecordUsage faults model agentID tokensIn tokensOut cost opts now db = (res, db') ->
  (exists e, res = Err e /\ db' = db) \/
  (exists r, res = Ok tt /\ db' = add_audit (mkSpendingAudit agentID "record" "allowed") (add_usage r db) /\
    urAgentID r = agentID /\ urTokensIn r = tokensIn /\ urTokensOut r = tokensOut /\
    urCreatedAt r = now).
Proof.
  unfold RecordUsage. destruct (usage_cost _ _ _ _ _ _ _ _) as [[[c cs] pv]|e].
  - destruct (faults QInsertUsage); intros [= <- <-]; [left; by eexists|right].
    eexists. by split_and!.
  - intros [= <- <-]. left. by eexists.
Qed.

(** A successful recording for [agentID] at [now] counts for [id] since [start]. *)
Definition counts (res : result SpendingError unit) (agentID : string) (now : Z)
    (id : string) (start : option Z) : bool :=
  match res with inl _ => true | inr _ => false end && bool_decide (id = agentID) &&
  match start with None => true | Some t => t <=? now end.

(** a recorded call is in every later account of its agent for a period that has
    begun by then, and in no other agent's; a failed recording changes nothing. *)
Theorem recorded_usage_counts model agentID tokensIn tokensOut cost opts now db res db' :
  RecordUsage faults model agentID tokensIn tokensOut cost opts now db = (res, db') ->
  forall id start,
    total_tokens (agent_usage id start db') =
      total_tokens (agent_usage id start db) +
      (if counts res agentID now id start then tokensIn + tokensOut else 0) /\
    Z.of_nat (length (agent_usage id start db')) =
      Z.of_nat (length (agent_usage id start db)) +
      (if counts res agentID now id start then 1 else 0).
Proof.
  intros [(e & -> & ->)|(r & -> & -> & <- & <- & <- & <-)]%RecordUsage_eq id start.
  { unfold counts. cbn [andb]. by rewrite !Z.add_0_r. }
  change (agent_usage id start (add_audit _ ?x)) with (agent_usage id start x).
  rewrite agent_usage_add, total_tokens_app, length_app. unfold counts. cbn [andb].
  rewrite (bool_decide_ext (id = urAgentID r) (urAgentID r = id)) by done.
  change (match start with Some t => t <=? urCreatedAt r | None => true end) with (in_period start r).
  destruct (_ && _); cbn [length]; rewrite ?total_tokens_single, ?total_tokens_nil; lia.
Qed.

Lemma total_tokens_nonneg (l : list UsageRecord) :
  Forall (fun r => 0 <= urTokens r) l -> 0 <= total_tokens l.
Proof.
  induction 1 as [|r l Hr Hl IH]; [done|]. change (r :: l) with ([r] ++ l).
  rewrite total_tokens_app. unfold total_tokens at 1. simpl. lia.
Qed.
End recording.

(** ** A reached limit stays reached *)

Section overrun.
Context (faults : SpendingQuery -> bool) (day_start month_start : Z -> Z).

(** One call of [Record]: default model, agent, tokens, cost, options and time. *)
Record Recording := mkRecording {
  rcModel : string; rcAgentID : string; rcIn : Z; rcOut : Z; rcCost : float64;
  rcOpts : RecordOptions; rcNow : Z;
}.

Definition record_all (l : list Recording) (db : SpendingDB) : SpendingDB :=
  foldl (fun db c => (RecordUsage faults (rcModel c) (rcAgentID c) (rcIn c) (rcOut c) (rcCost c)
                        (rcOpts c) (rcNow c) db).2) db l.

Lemma record_all_tokens (l : list Recording) (db : SpendingDB) (id : string) (start : option Z) :
  Forall (fun c => 0 <= rcIn c /\ 0 <= rcOut c) l ->
  total_tokens (agent_usage id start db) <= total_tokens (agent_usage id start (record_all l db)) /\
  sdLimits (record_all l db) = sdLimits db.
Proof.
  intros Hl. revert db. induction Hl as [|c l [Hi Ho] _ IH]; intros db; [done|].
  change (record_all (c :: l) db) with (record_all l (RecordUsage faults (rcModel c) (rcAgentID c)
    (rcIn c) (rcOut c) (rcCost c) (rcOpts c) (rcNow c) db).2).
  destruct (RecordUsage _ _ _ _ _ _ _ _ db) as [res db'] eqn:E. cbn [snd].
  destruct (IH db') as [IH1 IH2]. apply RecordUsage_eq in E as
    [(e & -> & ->)|(r & -> & -> & _ & Hti & Hto & _)]; [done|].
  cbn [add_audit add_usage sdLimits] in IH2.
  change (agent_usage id start (add_audit _ ?x)) with (agent_usage id start x) in IH1.
  rewrite agent_usage_add, total_tokens_app in IH1. split; [|done].
  destruct (_ && _) in IH1; rewrite ?total_tokens_single, ?total_tokens_nil in IH1; lia.
Qed.

(** once an agent's tokens of the day reach its daily limit, every check that
    answers on the same day refuses it, whatever is recorded in between for whomever. *)
Theorem token_overrun_persists (notifier : option Z) (l : list Recording) (id : string)
    (now now' : Z) (db : SpendingDB) (st : BudgetStatus) (db' : SpendingDB) :
  limits_nonneg (limits_of global_key db) -> limits_nonneg (limits_of id db) ->
  0 < MaxTokensPerDay (limits_of id db) ->
  MaxTokensPerDay (limits_of id db) <= total_tokens (agent_usage id (Some (day_start now)) db) ->
  Forall (fun c => 0 <= rcIn c /\ 0 <= rcOut c) l -> day_start now' = day_start now ->
  CheckBudget faults day_start month_start notifier id now' (record_all l db) = (Ok st, db') ->
  bsWithinBudget st = false.
Proof.
  intros Hg Ha Hpos Hover Hl Hday HC.
  destruct (record_all_tokens l db id (Some (day_start now)) Hl) as [Htok Hlim].
  pose proof (CheckBudget_eq faults day_start month_start notifier id now' (record_all l db)) as H.
  destruct (existsb _ _); [by destruct H as (q & E & _); rewrite E in HC|].
  destruct H as (st' & db'' & E & Hw & _). rewrite E in HC. injection HC as <- <-.
  rewrite Hw. unfold limits_of in *. rewrite Hlim.
  rewrite within_effective by done. apply andb_false_iff. right.
  unfold within, day_summary. rewrite Hday. cbn [summarize smTotalTokens].
  assert (forall x, tokens_reached (total_tokens x) (MaxTokensPerDay (default zero_limits (sdLimits db !! id))) = true ->
    forall c1 c2 c3, c1 && c2 && negb (tokens_reached (total_tokens x)
      (MaxTokensPerDay (default zero_limits (sdLimits db !! id)))) && c3 = false) as Hf.
  { intros x -> c1 c2 c3. by destruct c1, c2, c3. }
  apply Hf. unfold tokens_reached. apply andb_true_iff. split; [by apply Z.ltb_lt|].
  apply Z.leb_le. lia.
Qed.
End overrun.

(** ** Breakdowns *)

Definition group_total {K} (f : list UsageRecord -> Z) (gs : list (K * list UsageRecord)) : Z :=
  foldr (fun g n => f g.2 + n) 0 gs.

(** Sums over groups, for a measure that adds up. *)
Section breakdown.
Context {K : Type} `{EqDecision K} (key : UsageRecord -> K) (f : list UsageRecord -> Z).
Context (Hnil : f [] = 0) (Hf : forall l1 l2, f (l1 ++ l2) = f l1 + f l2).

Lemma group_by_total (l : list UsageRecord) (gs : list (K * list UsageRecord)) :
  group_total f (group_by key l gs) = group_total f gs + f l.
Proof.
  revert gs. induction l as [|r l IH]; intros gs; cbn [group_by]; [rewrite Hnil; lia|].
  rewrite IH. change (r :: l) with ([r] ++ l). rewrite Hf.
  assert (forall gs, group_total f ((fix add gs := match gs with
      | [] => [(key r, [r])]
      | (k, rs) :: gs' => if decide (k = key r) then (k, rs ++ [r]) :: gs' else (k, rs) :: add gs'
      end) gs) = group_total f gs + f [r]) as ->; [|lia].
  clear IH gs. induction gs as [|[k rs] gs IH]; cbn [group_total foldr snd]; [lia|].
  destruct (decide (k = key r)); cbn [group_total foldr snd]; [rewrite Hf; lia|].
  unfold group_total in IH. rewrite IH. lia.
Qed.

Lemma by_cost_total (gs : list (K * list UsageRecord)) :
  group_total f (by_cost gs) = group_total f gs.
Proof.
  induction gs as [|g gs IH]; [done|]. cbn [by_cost foldr group_total]. fold (group_total f gs).
  rewrite <- IH. fold (by_cost gs). generalize (by_cost gs). clear IH.
  induction l as [|h l IHl]; [done|]. cbn [insert_by_cost]. destruct (f64_lt _ _); [|done].
  cbn [group_total foldr] in *. unfold group_total in IHl. rewrite IHl. lia.
Qed.

Lemma sorted_groups_total {S} (mk : K * list UsageRecord -> S) (sel : S -> Z) (l : list UsageRecord) :
  (forall g, sel (mk g) = f g.2) ->
  foldr (fun s n => sel s + n) 0 (map mk (by_cost (group_by key l []))) = f l.
Proof.
  intros Hsel. rewrite <- (Z.add_0_l (f l)).
  change 0 with (group_total (K := K) f []) at 2.
  rewrite <- (group_by_total l []), <- by_cost_total.
  induction (by_cost (group_by key l [])) as [|g gs IH]; [done|].
  simpl. rewrite IH. f_equal. apply Hsel.
Qed.
End breakdown.

(** the breakdown of an agent's usage by model slot adds up to its total for the
    period, in tokens and in calls. *)
Theorem slot_breakdown_adds_up faults day_start month_start agentID period now db slots total :
  AggregateSlotUsage faults day_start month_start agentID period now db = inl slots ->
  AggregateUsage faults day_start month_start agentID period now db = inl total ->
  foldr (fun s n => suTotalTokens s + n) 0 slots = smTotalTokens total /\
  foldr (fun s n => suRequestCount s + n) 0 slots = smRequestCount total.
Proof.
  unfold AggregateSlotUsage, AggregateUsage, query.
  destruct (period_start _ _ period now) as [start|]; [|done]. simpl.
  destruct (faults QBreakdown), (faults (QAggregate period)); try done.
  intros [= <-] [= <-]. cbn [summarize smTotalTokens smRequestCount].
  split; [apply (sorted_groups_total _ total_tokens)|
    apply (sorted_groups_total _ (fun l => Z.of_nat (length l)))]; try done.
  - apply total_tokens_app.
  - intros. rewrite length_app. lia.
Qed.

(** ** Prices *)

Lemma longer_price_best (l : list PriceRow) (b0 : option PriceRow) :
  match foldl longer_price b0 l with
  | Some b => (b ∈ l \/ b0 = Some b) /\
      (forall r, r ∈ l \/ b0 = Some r -> (String.length (prPattern r) <= String.length (prPattern b))%nat)
  | None => l = [] /\ b0 = None
  end.
Proof.
  revert b0. induction l as [|x l IH]; intros b0; cbn [foldl].
  { destruct b0; [|done]. split; [by right|]. intros r [?%elem_of_nil|[= ->]]; [done|lia]. }
  specialize (IH (longer_price b0 x)). destruct (foldl _ _ _) as [b|].
  - destruct IH as [Hin Hmax]. assert (longer_price b0 x = Some x \/ longer_price b0 x = b0) as Hc.
    { unfold longer_price. destruct b0; [|by left]. destruct (_ || _); auto. }
    assert (forall r, r = x \/ b0 = Some r -> exists r', longer_price b0 x = Some r' /\
      (String.length (prPattern r) <= String.length (prPattern r'))%nat) as Hstep.
    { intros r Hr. unfold longer_price. destruct b0 as [b0|].
      - destruct (Nat.ltb_spec (String.length (prPattern b0)) (String.length (prPattern x)));
          cbn [orb]; [|destruct (Nat.eqb_spec (String.length (prPattern b0)) (String.length (prPattern x)));
            cbn [andb]; [destruct (_ <? _)|]];
          eexists; (split; [done|]); destruct Hr as [->|[= ->]]; lia.
      - eexists. split; [done|]. destruct Hr as [->|?]; [lia|done]. }
    split.
    + destruct Hin as [?|Hb]; [left; by right|]. destruct Hc as [Hc|Hc]; rewrite Hc in Hb.
      * injection Hb as <-. left. by left.
      * by right.
    + intros r [[->|Hr]%elem_of_cons|Hr]; [|by apply Hmax; left|].
      * destruct (Hstep x) as (r' & Hr' & Hle); [by left|].
        specialize (Hmax r' (or_intror Hr')). lia.
      * destruct (Hstep r) as (r' & Hr' & Hle); [by right|].
        specialize (Hmax r' (or_intror Hr')). lia.
  - destruct IH as [_ IH]. exfalso. unfold longer_price in IH. destruct b0; [|done].
    by destruct (_ || _).
Qed.

Lemma later_price_elem (l : list PriceRow) (b0 : option PriceRow) (b : PriceRow) :
  foldl later_price b0 l = Some b -> b ∈ l \/ b0 = Some b.
Proof.
  revert b0. induction l as [|x l IH]; intros b0; cbn [foldl]; [by right|].
  intros [?|Hb]%IH; [left; by right|]. unfold later_price in Hb.
  destruct b0; [destruct (_ <? _)|]; simplify_eq; auto; left; by left.
Qed.

(** A pattern without wildcards. *)
Definition like_plain (p : string) : bool :=
  negb (str_elem "%" p) && negb (str_elem "_" p) && negb (str_elem "\" p).

Lemma sql_like_prefix (p s : string) :
  like_plain p = true -> sql_like (p +:+ "%") s = has_prefix s p.
Proof.
  revert s. induction p as [|c p IH]; intros s Hp.
  - change (sql_like "%" s = true). cbn [sql_like Ascii.eqb].
    assert (forall t, (fix any (t : string) : bool := bool_decide (t = EmptyString) ||
      match t with EmptyString => false | String _ t' => any t' end) t = true) as H.
    { induction t as [|d t IHt]; [done|]. by rewrite IHt, orb_true_r. }
    apply H.
  - unfold like_plain in Hp. cbn [str_elem] in Hp. rewrite !negb_orb in Hp.
    repeat match goal with H : _ && _ = true |- _ => apply andb_true_iff in H as [? ?] end.
    rewrite !negb_true_iff in *. change (String c p +:+ "%") with (String c (p +:+ "%")).
    cbn [sql_like]. repeat match goal with H : Ascii.eqb c _ = false |- _ => rewrite H; clear H end.
    destruct s as [|d s]; [done|]. unfold has_prefix in *. cbn [strip_prefix].
    destruct (Ascii.eqb_spec c d) as [->|Hne]; cbn [andb].
    + rewrite IH; [|unfold like_plain; by rewrite !andb_true_iff, !negb_true_iff].
      destruct (decide (d = d)); done.
    + by destruct (decide (c = d)).
Qed.

(** the price of a model.  A lookup that finds something finds an active row of the
    provider whose pattern is the model itself or, when there is no such row, a longest
    one among the active patterns the model begins with; without wildcards in the
    catalog it finds nothing only if no active row applies. *)
Theorem price_lookup_longest faults provider model now db res :
  LookupModelPrice faults provider model now db = inl res ->
  Forall (fun r => like_plain (prPattern r) = true) (sdCatalog db) ->
  let applies r := r ∈ sdCatalog db /\ prProvider r = provider /\ price_active now r = true /\
                   has_prefix model (prPattern r) = true in
  match res with
  | Some b => applies b /\ (prPattern b = model \/ forall r, applies r ->
                (String.length (prPattern r) <= String.length (prPattern b))%nat)
  | None => forall r, ~ applies r
  end.
Proof.
  intros H Hcat applies. rewrite Forall_forall in Hcat.
  assert (forall r, r ∈ List.filter (prefix_price provider model now) (sdCatalog db) <-> applies r) as Hpre.
  { intros r. rewrite filter_elem. unfold prefix_price, applies.
    rewrite !andb_true_iff, bool_decide_eq_true. split.
    - intros (Hin & ([? Hlike] & ?)). rewrite sql_like_prefix in Hlike by auto. done.
    - intros (Hin & ? & ? & ?). rewrite sql_like_prefix by auto. done. }
  unfold LookupModelPrice, query in H. destruct (faults QExactPrice); [done|]. simpl in H.
  destruct (foldl later_price None _) as [b|] eqn:Ex.
  - injection H as <-. apply later_price_elem in Ex as [Hin|?]; [|done].
    apply filter_elem in Hin as [Hin Hx]. unfold exact_price in Hx. to_prop. subst.
    split; [|by left]. split_and!; try done. apply has_prefix_spec. exists EmptyString.
    by rewrite str_app_nil_r.
  - destruct (faults QPrefixPrice); [done|]. injection H as <-.
    pose proof (longer_price_best
      (List.filter (prefix_price provider model now) (sdCatalog db)) None) as Hb.
    destruct (foldl longer_price None _) as [b|].
    + destruct Hb as [[Hin|?] Hmax]; [|done]. split; [by apply Hpre|]. right.
      intros r Hr. apply Hmax. left. by apply Hpre.
    + destruct Hb as [Hb _]. intros r Hr%Hpre. rewrite Hb in Hr. by apply elem_of_nil in Hr.
Qed.

(** * Examples and consequences *)

Definition no_faults (q : SpendingQuery) : bool := false.
Definition no_opts : RecordOptions :=
  mkRecordOptions EmptyString EmptyString EmptyString EmptyString EmptyString EmptyString EmptyString
    false EmptyString EmptyString.
Definition token_limit (n : Z) : SpendingLimits := mkSpendingLimits n 0 f64_zero f64_zero.
Definition spent (id : string) (n : Z) : Recording :=
  mkRecording "llama3" id n 0 f64_zero no_opts 5.
Definition demo_db (limits : list (string * SpendingLimits)) (l : list Recording) : SpendingDB :=
  record_all no_faults l (mkSpendingDB [] (list_to_map limits) [] [] []).

(** Days of ten ticks, months of a hundred. *)
Definition demo_day (now : Z) : Z := now / 10 * 10.
Definition demo_month (now : Z) : Z := now / 100 * 100.

Definition demo_check (id : string) (db : SpendingDB) : option bool :=
  match (CheckBudget no_faults demo_day demo_month None id 7 db).1 with
  | inl st => Some (bsWithinBudget st)
  | inr _ => None
  end.

Lemma budget_within_iff_witness :
  let db := demo_db [("a", token_limit 100)] [spent "a" 99] in
  exists st db',
    CheckBudget no_faults demo_day demo_month None "a" 7 db = (Ok st, db') /\
    (bsWithinBudget st = true <->
     forall l, l ∈ [limits_of global_key db; limits_of "a" db] ->
       within (day_summary demo_day "a" 7 db) (month_summary demo_month "a" 7 db) l = true).
Proof.
  apply (budget_within_iff no_faults demo_day demo_month None "a" 7); [done|by vm_compute|by vm_compute].
Defined.

Lemma recorded_usage_counts_witness :
  total_tokens (agent_usage "a" None (demo_db [] [spent "a" 7])) = 7.
Proof.
  apply (recorded_usage_counts no_faults "llama3" "a" 7 0 f64_zero no_opts 5
    (demo_db [] []) (Ok tt) (demo_db [] [spent "a" 7]) eq_refl "a" None).
Defined.

Lemma token_overrun_persists_witness :
  demo_check "a" (record_all no_faults [spent "b" 3]
    (demo_db [("a", token_limit 100)] [spent "a" 100])) = Some false.
Proof.
  unfold demo_check.
  destruct (CheckBudget no_faults demo_day demo_month None "a" 7 _) as [[st|e] db'] eqn:E;
    [|by vm_compute in E]. cbn [fst]. f_equal.
  apply (token_overrun_persists no_faults demo_day demo_month None [spent "b" 3] "a" 5 7
    (demo_db [("a", token_limit 100)] [spent "a" 100]) st db');
    [by vm_compute|by vm_compute|by vm_compute|by vm_compute|by repeat constructor|done|exact E].
Defined.

Lemma slot_breakdown_adds_up_witness :
  exists slots total,
    AggregateSlotUsage no_faults demo_day demo_month "a" "day" 7 (demo_db [] [spent "a" 7]) = inl slots /\
    foldr (fun s n => suTotalTokens s + n) 0 slots = smTotalTokens total.
Proof.
  eexists _, _. split; [reflexivity|].
  eapply (slot_breakdown_adds_up no_faults demo_day demo_month "a" "day" 7
    (demo_db [] [spent "a" 7])); reflexivity.
Defined.

Definition demo_price (pattern : string) : PriceRow :=
  mkPriceRow "openai" pattern (f64_of_Z 3) (f64_of_Z 15) "v1" 0 None.

Lemma price_lookup_longest_witness :
  let db := mkSpendingDB [] ∅ [demo_price "gpt-4o"; demo_price "gpt-4o-mini"] [] [] in
  LookupModelPrice no_faults "openai" "gpt-4o-mini-2024" 5 db = inl (Some (demo_price "gpt-4o-mini")) /\
  prPattern (demo_price "gpt-4o-mini") <> "gpt-4o-mini-2024" /\
  has_prefix "gpt-4o-mini-2024" (prPattern (demo_price "gpt-4o-mini")) = true.
Proof.
  split; [reflexivity|]. split; [done|].
  apply (price_lookup_longest no_faults "openai" "gpt-4o-mini-2024" 5
    (mkSpendingDB [] ∅ [demo_price "gpt-4o"; demo_price "gpt-4o-mini"] [] [])
    (Some (demo_price "gpt-4o-mini"))); [reflexivity|by repeat constructor].
Defined.

(** the limit set for all of Kyvik is compared with the usage of one agent at a
    time: two agents within it can together exceed it. *)
Theorem global_limit_is_per_agent :
  let db := demo_db [(global_key, token_limit 100)] [spent "a" 60; spent "b" 60] in
  total_tokens (sdUsage db) = 120 /\ demo_check "a" db = Some true /\ demo_check "b" db = Some true.
Proof. by vm_compute. Qed.

(** a negative limit of an agent (the form accepts one) is no limit and disables the
    global one as well, since the lower of the two is taken. *)
Theorem negative_limit_lifts_global :
  let limits a := [(global_key, token_limit 100); ("a", token_limit a)] in
  demo_check "a" (demo_db (limits 0) [spent "a" 1000]) = Some false /\
  demo_check "a" (demo_db (limits (-1)) [spent "a" 1000]) = Some true.
Proof. by vm_compute. Qed.

(** only the table [spending_limits] is consulted.  Without a row for the agent or
    for all, every check that answers finds it within budget, whatever it used and
    whatever limits its configuration has. *)
Theorem config_limits_not_enforced faults day_start month_start notifier (config : AgentConfig)
    (now : Z) (db : SpendingDB) (st : BudgetStatus) (db' : SpendingDB) :
  sdLimits db !! global_key = None -> sdLimits db !! ID config = None ->
  CheckBudget faults day_start month_start notifier (ID config) now db = (Ok st, db') ->
  bsWithinBudget st = true.
Proof.
  intros Hg Ha HC.
  pose proof (CheckBudget_eq faults day_start month_start notifier (ID config) now db) as H.
  destruct (existsb _ _); [by destruct H as (q & E & _); rewrite E in HC|].
  destruct H as (st' & db'' & E & Hw & _). rewrite E in HC. injection HC as <- <-.
  rewrite Hw. unfold limits_of. by rewrite Hg, Ha.
Qed.
