(* ===== verification/Chat.v ===== *)
(** The data of model calls: messages, attachments, requests and answers
    ([internal/models/provider.go], [pkg/types], [internal/history/history.go]). *)

From S2P Require Import Prelude GoString GoFloat Types KtpRegistry.
#[local] Open Scope Z_scope.

(** [types.Attachment]; [atData] are the raw bytes. *)
Record Attachment := mkAttachment {
  atFilename : string;
  atContentType : string;
  atSize : Z;
  atData : string;
  atExtractedText : string;
}.

(** [types.IsImageMIME] *)
Definition IsImageMIME (contentType : string) : bool :=
  bool_decide (contentType ∈ ["image/jpeg"; "image/png"; "image/gif"; "image/webp"]).

(** [models.ToolUse] *)
Record ToolUse := mkToolUse {
  tuID : string;
  tuName : string;
  tuParameters : any;
}.

(** [models.ChatMessage] *)
Record ChatMessage := mkChatMessage {
  cmRole : string;
  cmContent : string;
  cmAttachments : list Attachment;
  cmToolCalls : list ToolUse;
  cmToolCallID : string;
}.

Definition plain_message (role content : string) : ChatMessage :=
  mkChatMessage role content [] [] EmptyString.

(** [models.CompletionRequest], less the temperature and the excluded upstream providers *)
Record CompletionRequest := mkCompletionRequest {
  crModel : string;
  crMessages : list ChatMessage;
  crMaxTokens : Z;
  crTools : list ModelToolDefinition;
}.

(** [models.CompletionResponse] *)
Record CompletionResponse := mkCompletionResponse {
  rsContent : string;
  rsToolCalls : list ToolUse;
  rsStopReason : string;
  rsTokensIn : Z;
  rsTokensOut : Z;
  rsCost : float64;
  rsModel : string;
  rsUnprocessed : bool;
}.

(** [history.HistoryEntry]: what was said; the key of the conversation, the token count
    and the attachments of the row are left out *)
Record HistoryEntry := mkHistoryEntry {
  heRole : string;
  heContent : string;
  heSender : string;
  heToolCallID : string;
  heToolCallsJSON : string;
}.
