(* ===== verification/Router.v ===== *)
(** The model router ([internal/router]): which model slot answers a message.

    State [RouterState]: the classifier's cache, the per-agent statistics and the trace of
    classifier calls.  A provider is known by the name it is registered under, and
    [Complete provider request] is its answer; [time.Now] and the decoding of the
    classifier's JSON are arguments. *)

From S2P Require Import Prelude GoString GoRegexp GoFloat Types GoJson Chat Lifecycle.
#[local] Open Scope Z_scope.

(** * Prefixes *)

Record PrefixResult := mkPrefixResult {
  pxMatched : bool;
  pxSlotName : string;
  pxMessage : string;
}.

(** [ParsePrefix] *)
Definition ParsePrefix `{UnicodeCase} (message : string) (slots : list ModelSlot) : PrefixResult :=
  let none := mkPrefixResult false EmptyString message in
  match str_index message ":" with
  | None | Some O => none
  | Some idx =>
    match str_drop (idx + 1) message with
    | String c rest =>
      if Ascii.eqb c " " then
        let candidate := to_lower (str_take idx message) in
        match List.find (fun s => bool_decide (to_lower (slName s) = candidate)) slots with
        | Some s => mkPrefixResult true (slName s) rest
        | None => none
        end
      else none
    | EmptyString => none
    end
  end.

(** * Vision *)

Record VisionResult := mkVisionResult {
  vsShouldRoute : bool;
  vsSlotName : string;
  vsReason : string;
}.

(** [strings.EqualFold(s, word)] for a word of ASCII letters: [s] is matched whole by
    the word under case folding. *)
Definition equal_fold (s word : string) : bool :=
  existsb (fun q : position => bool_decide (q.2 = EmptyString)) (rmatch (folded word) None s).

(** [CheckVisionRoute] *)
Definition CheckVisionRoute (attachments : list Attachment) (slots : list ModelSlot) : VisionResult :=
  if negb (existsb (fun a => IsImageMIME (atContentType a)) attachments) then
    mkVisionResult false EmptyString "no image attachments"
  else match List.find (fun s => equal_fold (slName s) "vision") slots with
       | Some s => mkVisionResult true (slName s) "image attachment detected"
       | None => mkVisionResult false EmptyString "image attachment present, no vision slot configured"
       end.

(** [IsLikelyVisionCapable] *)
Definition visionKeywords : list string :=
  ["vision"; "gpt-4o"; "claude-3"; "gemini"; "llava"; "pixtral"].

Definition IsLikelyVisionCapable `{UnicodeCase} (modelName : string) : bool :=
  existsb (contains (to_lower modelName)) visionKeywords.

(** * Statistics *)

Record RoutingStats := mkRoutingStats {
  rsTotalRouted : Z;
  rsByMethod : gmap string Z;
  rsBySlot : gmap string Z;
  rsClassifierCost : float64;
}.

Definition NewRoutingStats : RoutingStats := mkRoutingStats 0 ∅ ∅ f64_zero.

(** [m[k]++] *)
Definition incr (k : string) (m : gmap string Z) : gmap string Z :=
  <[k := default 0 (m !! k) + 1]> m.

Record ClassifierCostInfo := mkClassifierCost {
  ciTokensIn : Z;
  ciTokensOut : Z;
  ciCost : float64;
  ciModel : string;
  ciSlotName : string;
  ciProvider : string;
}.

Definition no_cost : ClassifierCostInfo :=
  mkClassifierCost 0 0 f64_zero EmptyString EmptyString EmptyString.

Record RouteDecision := mkRouteDecision {
  rdSlot : ModelSlot;
  rdProvider : string;
  rdRoutedBy : string;
  rdMessage : string;
  rdDetails : string;
  rdClassifierCost : ClassifierCostInfo;
}.

(** [RoutingStats.Record] *)
Definition RecordRoute (d : RouteDecision) (s : RoutingStats) : RoutingStats :=
  mkRoutingStats (rsTotalRouted s + 1) (incr (rdRoutedBy d) (rsByMethod s))
    (incr (slName (rdSlot d)) (rsBySlot s))
    (f64_add (rsClassifierCost s) (ciCost (rdClassifierCost d))).

(** * Classifier *)

Record ClassifyResult := mkClassifyResult {
  clSlotName : string;
  clConfidence : string;
  clReason : string;
  clTokensIn : Z;
  clTokensOut : Z;
  clCost : float64;
}.

Record RouterState := mkRouterState {
  rtCache : gmap string (string * Z);       (* agent, to slot name and time *)
  rtStats : gmap string RoutingStats;
  rtCalls : list (string * CompletionRequest);
}.

Definition nl1 : string := String newline EmptyString.

(** [buildClassificationPrompt] *)
Definition buildClassificationPrompt (slots : list ModelSlot) (recentHistory : list HistoryEntry) : string :=
  "You are a message router. Decide which model slot should handle the user's message." +:+ nl1 +:+ nl1 +:+
  "Available slots:" +:+ nl1 +:+
  str_concat (map (fun s => "- " +:+ slName s +:+ " (" +:+ slProvider s +:+ "/" +:+ slModel s +:+ ")" +:+ nl1) slots) +:+
  (if bool_decide (recentHistory = []) then EmptyString
   else nl1 +:+ "Recent conversation:" +:+ nl1 +:+
     str_concat (map (fun e => "[" +:+ heRole e +:+ "]: " +:+ heContent e +:+ nl1)
       (drop (length recentHistory - 3) recentHistory))) +:+
  nl1 +:+ "Respond with JSON only: {" +:+ String "034" "slot" +:+ String "034" ": " +:+
  String "034" "name" +:+ String "034" ", " +:+ String "034" "confidence" +:+ String "034" ": " +:+
  String "034" "high|medium|low" +:+ String "034" ", " +:+ String "034" "reason" +:+ String "034" ": " +:+
  String "034" "brief explanation" +:+ String "034" "}".

(** [strings.LastIndexByte] *)
Fixpoint last_index (c : ascii) (s : string) : option nat :=
  match s with
  | EmptyString => None
  | String d s' =>
    match last_index c s' with
    | Some i => Some (S i)
    | None => if Ascii.eqb d c then Some O else None
    end
  end.

Definition fence : string := "```".

(** The text between the first [opener] and the next fence. *)
Definition fenced (opener s : string) : option string :=
  match str_index s opener with
  | None => None
  | Some idx =>
    let rest := str_drop (idx + String.length opener) s in
    (fun e => trim_space (str_take e rest)) <$> str_index rest fence
  end.

(** First opening to last closing brace. *)
Definition braced (s : string) : string :=
  match str_index s "{", last_index "}" s with
  | Some first, Some last =>
    if (first <? last)%nat then str_take (last + 1 - first) (str_drop first s) else EmptyString
  | _, _ => EmptyString
  end.

(** [extractJSON] *)
Definition extractJSON (content : string) : string :=
  let trimmed := trim_space content in
  if has_prefix trimmed "{" && has_suffix trimmed "}" then trimmed
  else match fenced (fence +:+ "json") trimmed with
       | Some s => s
       | None =>
         match fenced fence trimmed with
         | Some s => if has_prefix s "{" then s else braced trimmed
         | None => braced trimmed
         end
       end.

Inductive ClassifyError : Type :=
| ModelCallFailed (e : string)
| NoJSONFound
| BadJSON (e : string)
| UnknownSlot (name : string).

(** Slot, confidence and reason of a decoded answer. *)
Record Verdict := mkVerdict { vdSlot : string; vdConfidence : string; vdReason : string }.

Section router.
Context `{UnicodeCase} `{Codecs}.
(** [json.Unmarshal] of the classifier's answer. *)
Context (UnmarshalVerdict : string -> result string Verdict).
(** The registered providers and their answers. *)
Context (providers : gset string).
Context (Complete : string -> CompletionRequest -> result string CompletionResponse).

Definition cacheTTL : Z := 60 * 1000000000.

(** [parseClassificationResponse] *)
Definition parseClassificationResponse (content : string) (slots : list ModelSlot)
    : result ClassifyError Verdict :=
  let jsonStr := extractJSON content in
  if bool_decide (jsonStr = EmptyString) then Err NoJSONFound
  else match UnmarshalVerdict jsonStr with
       | inr e => Err (BadJSON e)
       | inl v => if existsb (fun s => bool_decide (slName s = vdSlot v)) slots then Ok v
                  else Err (UnknownSlot (vdSlot v))
       end.

(** [Classifier.Classify]; [now] is the time of the call and [answered] that of the answer. *)
Definition Classify (agentID message : string) (recentHistory : list HistoryEntry)
    (slots : list ModelSlot) (provider model : string) (now answered : Z) (st : RouterState)
    : result ClassifyError ClassifyResult * RouterState :=
  let miss :=
    let req := mkCompletionRequest model
      [plain_message "system" (buildClassificationPrompt slots recentHistory);
       plain_message "user" message] 0 [] in
    let st := mkRouterState (rtCache st) (rtStats st) (rtCalls st ++ [(provider, req)]) in
    match Complete provider req with
    | inr e => (Err (ModelCallFailed e), st)
    | inl resp =>
      match parseClassificationResponse (rsContent resp) slots with
      | inr e => (Err e, st)
      | inl v =>
        (Ok (mkClassifyResult (vdSlot v) (vdConfidence v) (vdReason v) (rsTokensIn resp)
               (rsTokensOut resp) (rsCost resp)),
         mkRouterState (<[agentID := (vdSlot v, answered)]> (rtCache st)) (rtStats st) (rtCalls st))
      end
    end in
  match rtCache st !! agentID with
  | Some (slotName, timestamp) =>
    if now - timestamp <? cacheTTL
    then (Ok (mkClassifyResult slotName "high" "cached" 0 0 f64_zero), st)
    else miss
  | None => miss
  end.

(** * Routing *)

Definition GetProviderForSlot (slot : ModelSlot) : option string :=
  if bool_decide (slProvider slot ∈ providers) then Some (slProvider slot) else None.

(** [slotMap[name]] with Go's zero value for a missing key *)
Definition slot_at (slots : list ModelSlot) (name : string) : ModelSlot :=
  default (mkModelSlot EmptyString EmptyString EmptyString) (slot_map slots !! name).

(** What the switch of [Route] decides. *)
Record Target := mkTarget {
  tgSlot : ModelSlot;
  tgRoutedBy : string;
  tgMessage : string;
  tgDetails : string;
  tgCost : ClassifierCostInfo;
}.

(** The slot a classification leads to. *)
Definition classified_slot (resolved : ResolvedRouting) (res : ClassifyResult) : ModelSlot :=
  let cfg := rrConfig resolved in
  let targetName :=
    if bool_decide (clConfidence res = "low") then
      if bool_decide (rcFallbackSlot cfg = EmptyString) then rcDefaultSlot cfg else rcFallbackSlot cfg
    else clSlotName res in
  default (rrDefaultSlot resolved) (slot_map (rcSlots cfg) !! targetName).

Definition classifier_error_text (e : ClassifyError) : string :=
  match e with
  | ModelCallFailed e => "classifier model call failed: " +:+ e
  | NoJSONFound => "no JSON found in classifier response"
  | BadJSON e => "failed to parse classifier JSON: " +:+ e
  | UnknownSlot name => "classifier returned unknown slot " +:+ name
  end.

(** The priority switch: prefix, vision, classifier, default. *)
Definition pick_target (agentID content : string) (attachments : list Attachment)
    (resolved : ResolvedRouting) (recentHistory : list HistoryEntry) (now answered : Z)
    (st : RouterState) : Target * RouterState :=
  let cfg := rrConfig resolved in
  let slots := rcSlots cfg in
  let prefixResult := if rcTriggerPrefix cfg then ParsePrefix content slots
                      else mkPrefixResult false EmptyString EmptyString in
  let visionResult := CheckVisionRoute attachments slots in
  let fallback details := mkTarget (rrDefaultSlot resolved) "default" content details no_cost in
  if pxMatched prefixResult then
    (mkTarget (slot_at slots (pxSlotName prefixResult)) "prefix" (pxMessage prefixResult)
       ("prefix trigger: " +:+ pxSlotName prefixResult) no_cost, st)
  else if vsShouldRoute visionResult then
    (mkTarget (slot_at slots (vsSlotName visionResult)) "vision" content
       ("vision auto-route: " +:+ vsReason visionResult) no_cost, st)
  else if rcAutoRoute cfg && negb (bool_decide (rcClassifierSlot cfg = EmptyString)) then
    match slot_map slots !! rcClassifierSlot cfg with
    | None => (fallback "classifier slot not found, using default", st)
    | Some classifierSlot =>
      match GetProviderForSlot classifierSlot with
      | None => (fallback "classifier provider unavailable, using default", st)
      | Some provider =>
        let '(r, st) := Classify agentID content recentHistory slots provider
                          (slModel classifierSlot) now answered st in
        match r with
        | inr e => (fallback ("classifier error, fallback to default: " +:+ classifier_error_text e), st)
        | inl res =>
          (mkTarget (classified_slot resolved res) "classifier" content
             ("auto-classified: " +:+ clSlotName res +:+ " (confidence: " +:+ clConfidence res
              +:+ ", reason: " +:+ clReason res +:+ ")")
             (mkClassifierCost (clTokensIn res) (clTokensOut res) (clCost res)
                (slModel classifierSlot) (rcClassifierSlot cfg) provider), st)
        end
      end
    end
  else (fallback "no routing method matched", st).

Inductive RouteError : Type :=
| SlotsUnresolved (e : SlotError)
| NoDefaultProvider (provider : string).

(** [Router.getOrCreateStats] and [RoutingStats.Record] *)
Definition record_decision (agentID : string) (d : RouteDecision) (st : RouterState) : RouterState :=
  mkRouterState (rtCache st)
    (<[agentID := RecordRoute d (default NewRoutingStats (rtStats st !! agentID))]> (rtStats st))
    (rtCalls st).

(** [Router.Route] *)
Definition Route (agentID content : string) (attachments : list Attachment) (config : AgentConfig)
    (recentHistory : list HistoryEntry) (now answered : Z) (st : RouterState)
    : result RouteError RouteDecision * RouterState :=
  match ResolveSlots config with
  | inr e => (Err (SlotsUnresolved e), st)
  | inl resolved =>
    let d := rrDefaultSlot resolved in
    if (length (rcSlots (rrConfig resolved)) <=? 1)%nat then
      match GetProviderForSlot d with
      | None => (Err (NoDefaultProvider (slProvider d)), st)
      | Some provider =>
        let dec := mkRouteDecision d provider "default" content "single-slot agent" no_cost in
        (Ok dec, record_decision agentID dec st)
      end
    else
      let '(t, st) := pick_target agentID content attachments resolved recentHistory now answered st in
      match GetProviderForSlot (tgSlot t) with
      | Some provider =>
        let dec := mkRouteDecision (tgSlot t) provider (tgRoutedBy t) (tgMessage t) (tgDetails t) (tgCost t) in
        (Ok dec, record_decision agentID dec st)
      | None =>
        match GetProviderForSlot d with
        | None => (Err (NoDefaultProvider (slProvider d)), st)
        | Some provider =>
          let details := "provider " +:+ go_quote (slProvider d) +:+ " unavailable for slot "
                         +:+ go_quote (slName d) +:+ ", fallback to default" in
          let dec := mkRouteDecision d provider (tgRoutedBy t) (tgMessage t) details (tgCost t) in
          (Ok dec, record_decision agentID dec st)
        end
      end
  end.

(** [Router.Stats]: creates the agent's counters if need be. *)
Definition RouterStats (agentID : string) (st : RouterState) : RoutingStats * RouterState :=
  let s := default NewRoutingStats (rtStats st !! agentID) in
  (s, mkRouterState (rtCache st) (<[agentID := s]> (rtStats st)) (rtCalls st)).

(** [Router.ResetStats] *)
Definition ResetStats (st : RouterState) : RouterState :=
  mkRouterState (rtCache st) ((fun _ => NewRoutingStats) <$> rtStats st) (rtCalls st).
End router.

(** * Which slot answers *)

Lemma slot_map_elem (slots : list ModelSlot) (name : string) (s : ModelSlot) :
  slot_map slots !! name = Some s -> s ∈ slots /\ slName s = name.
Proof.
  unfold slot_map. assert (forall m : gmap string ModelSlot, (forall n x, m !! n = Some x -> x ∈ slots /\ slName x = n) ->
    forall l, (forall x, x ∈ l -> x ∈ slots) ->
    foldl (fun m s => <[slName s := s]> m) m l !! name = Some s -> s ∈ slots /\ slName s = name) as H.
  { intros m Hm l. revert m Hm. induction l as [|x l IH]; intros m Hm Hl; simpl; [apply Hm|].
    apply IH; [|set_solver]. intros n y. destruct (decide (slName x = n)) as [<-|Hne].
    - rewrite lookup_insert_eq. intros [= <-]. split; [set_solver|done].
    - rewrite lookup_insert_ne by done. apply Hm. }
  apply H; [|done]. intros n x Hx. by rewrite lookup_empty in Hx.
Qed.

Lemma slot_map_has (slots : list ModelSlot) (s : ModelSlot) :
  s ∈ slots -> is_Some (slot_map slots !! slName s).
Proof.
  unfold slot_map. generalize (∅ : gmap string ModelSlot).
  assert (forall l (m : gmap string ModelSlot) n, is_Some (m !! n) ->
    is_Some (foldl (fun m s => <[slName s := s]> m) m l !! n)) as Hk.
  { induction l as [|x l IH]; intros m n Hm; simpl; [done|]. apply IH.
    destruct (decide (slName x = n)) as [<-|Hne]; [by rewrite lookup_insert_eq|].
    by rewrite lookup_insert_ne. }
  induction slots as [|x l IH]; intros m Hin; [by apply elem_of_nil in Hin|]. simpl.
  apply elem_of_cons in Hin as [->|Hin]; [|by apply IH].
  apply Hk. by rewrite lookup_insert_eq.
Qed.

Lemma slot_at_elem (slots : list ModelSlot) (s : ModelSlot) :
  s ∈ slots -> slot_at slots (slName s) ∈ slots /\ slName (slot_at slots (slName s)) = slName s.
Proof.
  intros H. unfold slot_at. destruct (slot_map_has slots s H) as [x Hx]. rewrite Hx.
  by apply slot_map_elem.
Qed.

Section routing.
Context `{UnicodeCase} `{Codecs} (UnmarshalVerdict : string -> result string Verdict).
Context (providers : gset string).
Context (Complete : string -> CompletionRequest -> result string CompletionResponse).

Lemma resolved_default (config : AgentConfig) (r : ResolvedRouting) :
  ResolveSlots config = inl r -> rrDefaultSlot r ∈ rcSlots (rrConfig r).
Proof.
  unfold ResolveSlots. case_bool_decide; [intros [= <-]; by left|].
  destruct (if bool_decide _ then _ else _) as [rc|]; [|done]. simpl.
  destruct (match UnmarshalSlots _ with inl _ => _ | inr _ => _ end) as [slots|]; [|done]. simpl.
  case_bool_decide; [done|]. destruct (slot_error 0 slots); [done|].
  destruct (slot_map slots !! _) as [d|] eqn:E; [|done]. intros [= <-]. simpl.
  by eapply slot_map_elem.
Qed.

Lemma ParsePrefix_slot (content : string) (slots : list ModelSlot) :
  pxMatched (ParsePrefix content slots) = true ->
  exists s, s ∈ slots /\ pxSlotName (ParsePrefix content slots) = slName s.
Proof.
  unfold ParsePrefix. destruct (str_index content ":") as [[|i]|]; try done.
  destruct (str_drop _ _) as [|c rest]; [done|]. destruct (Ascii.eqb _ _); [|done].
  destruct (List.find _ slots) as [s|] eqn:E; [|done]. intros _.
  apply find_elem_Some in E as [Hin _]. by exists s.
Qed.

Lemma CheckVisionRoute_slot (atts : list Attachment) (slots : list ModelSlot) :
  vsShouldRoute (CheckVisionRoute atts slots) = true ->
  exists s, s ∈ slots /\ vsSlotName (CheckVisionRoute atts slots) = slName s.
Proof.
  unfold CheckVisionRoute. destruct (negb _); [done|].
  destruct (List.find _ slots) as [s|] eqn:E; [|done]. intros _.
  apply find_elem_Some in E as [Hin _]. by exists s.
Qed.

Lemma classified_slot_elem (r : ResolvedRouting) (res : ClassifyResult) :
  rrDefaultSlot r ∈ rcSlots (rrConfig r) -> classified_slot r res ∈ rcSlots (rrConfig r).
Proof.
  intros Hd. unfold classified_slot.
  set (name := if bool_decide (clConfidence res = "low") then _ else _).
  destruct (slot_map (rcSlots (rrConfig r)) !! name) as [s|] eqn:E; simpl; [|done].
  by eapply slot_map_elem.
Qed.

Lemma pick_target_slot agentID content atts r hist now answered st :
  rrDefaultSlot r ∈ rcSlots (rrConfig r) ->
  tgSlot (pick_target UnmarshalVerdict providers Complete agentID content atts r hist now answered st).1
    ∈ rcSlots (rrConfig r).
Proof.
  intros Hd. unfold pick_target. cbv zeta.
  destruct (pxMatched _) eqn:Ep.
  { simpl. destruct (rcTriggerPrefix (rrConfig r)); [|done].
    destruct (ParsePrefix_slot _ _ Ep) as (s & Hin & ->). by apply slot_at_elem. }
  destruct (vsShouldRoute _) eqn:Ev.
  { simpl. destruct (CheckVisionRoute_slot _ _ Ev) as (s & Hin & ->). by apply slot_at_elem. }
  destruct (_ && _); [|done]. destruct (slot_map _ !! _) as [cs|]; [|done].
  destruct (GetProviderForSlot _ _); [|done].
  destruct (Classify _ _ _ _ _ _ _ _ _ _ _) as [[res|] st']; simpl; [|done].
  by apply classified_slot_elem.
Qed.

(** The tokens charged for a classification are those of a model's answer. *)
Definition charged (cost : ClassifierCostInfo) : Prop :=
  (ciTokensIn cost = 0 /\ ciTokensOut cost = 0) \/
  exists provider req resp, Complete provider req = Ok resp /\
    ciTokensIn cost = rsTokensIn resp /\ ciTokensOut cost = rsTokensOut resp.

Lemma pick_target_charged agentID content atts r hist now answered st :
  charged (tgCost (pick_target UnmarshalVerdict providers Complete agentID content atts r hist now answered st).1).
Proof.
  unfold pick_target, Classify.
  repeat (case_match; simplify_eq/=; try (by left)); right; eauto 6.
Qed.

Lemma Route_charged agentID content atts config hist now answered st dec st' :
  Route UnmarshalVerdict providers Complete agentID content atts config hist now answered st = (Ok dec, st') ->
  charged (rdClassifierCost dec).
Proof.
  unfold Route. destruct (ResolveSlots config) as [r|]; [|done]. destruct (_ <=? _)%nat.
  { destruct (GetProviderForSlot _ _); [|done]. intros [= <- <-]. by left. }
  pose proof (pick_target_charged agentID content atts r hist now answered st) as Hc.
  destruct (pick_target _ _ _ _ _ _ _ _ _ _ _) as [t st1]. cbn [fst] in Hc.
  destruct (GetProviderForSlot _ (tgSlot t)); [by intros [= <- <-]|].
  destruct (GetProviderForSlot _ _); [by intros [= <- <-]|done].
Qed.

(** a message is only ever routed to one of the agent's configured slots, and to a
    provider that is registered under that slot's provider name. *)
Theorem route_configured agentID content atts config hist now answered st dec st' :
  Route UnmarshalVerdict providers Complete agentID content atts config hist now answered st = (Ok dec, st') ->
  exists r, ResolveSlots config = inl r /\ rdSlot dec ∈ rcSlots (rrConfig r) /\
    rdProvider dec = slProvider (rdSlot dec) /\ slProvider (rdSlot dec) ∈ providers.
Proof.
  unfold Route. destruct (ResolveSlots config) as [r|] eqn:Er; [|done].
  pose proof (resolved_default config r Er) as Hd. intros HR. exists r. split; [done|].
  assert (forall s p, GetProviderForSlot providers s = Some p -> p = slProvider s /\ slProvider s ∈ providers) as Hp.
  { intros s p. unfold GetProviderForSlot. case_bool_decide; [|done]. by intros [= <-]. }
  destruct (_ <=? _)%nat.
  { destruct (GetProviderForSlot _ _) eqn:E; [|done]. injection HR as <- <-.
    apply Hp in E as [-> ?]. done. }
  pose proof (pick_target_slot agentID content atts r hist now answered st Hd) as Ht.
  destruct (pick_target _ _ _ _ _ _ _ _ _ _ _) as [t st1]. simpl in Ht.
  destruct (GetProviderForSlot providers (tgSlot t)) eqn:E.
  { injection HR as <- <-. apply Hp in E as [-> ?]. done. }
  destruct (GetProviderForSlot providers (rrDefaultSlot r)) eqn:E2; [|done].
  injection HR as <- <-. apply Hp in E2 as [-> ?]. done.
Qed.

(** routing cannot fail on account of the classifier, an attachment or a prefix: if
    the slots resolve and the default slot's provider is registered, every message is
    routed, and the statistics of the agent count it. *)
Theorem route_always_answers agentID content atts config hist now answered st r :
  ResolveSlots config = inl r -> slProvider (rrDefaultSlot r) ∈ providers ->
  exists dec st', Route UnmarshalVerdict providers Complete agentID content atts config hist now answered st = (Ok dec, st') /\
    rsTotalRouted (default NewRoutingStats (rtStats st' !! agentID)) =
    rsTotalRouted (default NewRoutingStats (rtStats st !! agentID)) + 1.
Proof.
  intros Er Hp. unfold Route. rewrite Er.
  assert (GetProviderForSlot providers (rrDefaultSlot r) = Some (slProvider (rrDefaultSlot r))) as Ed
    by (unfold GetProviderForSlot; by rewrite bool_decide_eq_true_2).
  assert (forall dec st0, rtStats st0 = rtStats st ->
    rsTotalRouted (default NewRoutingStats (rtStats (record_decision agentID dec st0) !! agentID)) =
    rsTotalRouted (default NewRoutingStats (rtStats st !! agentID)) + 1) as Hrec.
  { intros dec st0 Hst. unfold record_decision. cbn [rtStats]. rewrite lookup_insert_eq, Hst. done. }
  destruct (_ <=? _)%nat; [rewrite Ed; eexists _, _; by split; [|apply Hrec]|].
  assert (rtStats (pick_target UnmarshalVerdict providers Complete agentID content atts r hist now
    answered st).2 = rtStats st) as Hst.
  { unfold pick_target, Classify, parseClassificationResponse.
    repeat (case_match; simplify_eq/=; try done). }
  destruct (pick_target _ _ _ _ _ _ _ _ _ _ _) as [t st1]. simpl in Hst.
  destruct (GetProviderForSlot providers (tgSlot t)).
  - eexists _, _. by split; [|apply Hrec].
  - rewrite Ed. eexists _, _. by split; [|apply Hrec].
Qed.

(** The message addresses one of the slots: ["name: rest"], in any case. *)
Definition addressed (content : string) (slots : list ModelSlot) (s : ModelSlot) (rest : string) : Prop :=
  exists name, content = name +:+ ": " +:+ rest /\ name <> EmptyString /\
    str_elem ":" name = false /\ s ∈ slots /\ to_lower (slName s) = to_lower name.

Lemma str_index_byte (c : ascii) (s : string) (i : nat) :
  str_index s (String c EmptyString) = Some i <->
  exists a b, s = a +:+ String c b /\ str_elem c a = false /\ String.length a = i.
Proof.
  revert i. induction s as [|x s IH]; intros i.
  { split; [done|]. by intros ([|??] & b & H1 & _). }
  cbn [str_index]. assert (has_prefix (String x s) (String c EmptyString) = Ascii.eqb c x) as ->
    by (unfold has_prefix; cbn [strip_prefix]; by destruct (Ascii.eqb c x)).
  destruct (Ascii.eqb_spec c x) as [->|Hne].
  - split; [intros [= <-]; by exists EmptyString, s|]. intros ([|y a] & b & Hs & Ha & <-); [done|].
    injection Hs as <- _. cbn [str_elem] in Ha. by rewrite Ascii.eqb_refl in Ha.
  - split.
    + destruct (str_index s _) as [j|]; [|done]. intros [= <-].
      destruct (proj1 (IH j) eq_refl) as (a & b & -> & Ha & <-). exists (String x a), b.
      split_and!; [done| |done]. cbn [str_elem]. rewrite Ha, orb_false_r.
      apply Ascii.eqb_neq. congruence.
    + intros ([|y a] & b & Hs & Ha & <-); [by injection Hs|]. injection Hs as <- Hs.
      cbn [str_elem] in Ha. apply orb_false_iff in Ha as [_ Ha].
      assert (str_index s (String c EmptyString) = Some (String.length a)) as ->; [|done].
      apply IH. by exists a, b.
Qed.

(** The prefix parser decides whether a message addresses a slot. *)
Lemma ParsePrefix_addressed (content : string) (slots : list ModelSlot) :
  pxMatched (ParsePrefix content slots) = true ->
  exists s, addressed content slots s (pxMessage (ParsePrefix content slots)) /\
    pxSlotName (ParsePrefix content slots) = slName s.
Proof.
  unfold ParsePrefix, addressed. destruct (str_index content ":") as [[|i]|] eqn:Ei; try done.
  apply str_index_byte in Ei as (a & b & -> & Ha & Hi).
  rewrite <- Hi. assert (String.length a + 1 = String.length (a +:+ ":"))%nat as E
    by (by rewrite str_length_app).
  assert (a +:+ String ":" b = (a +:+ ":") +:+ b) as Eb by by rewrite <- str_app_assoc.
  rewrite E, Eb, str_drop_app, <- Eb, str_take_app.
  destruct b as [|c rest]; [done|]. destruct (Ascii.eqb_spec c " ") as [->|]; [|done].
  destruct (List.find _ slots) as [s|] eqn:Ef; [|done]. intros _.
  apply find_elem_Some in Ef as [Hin Hl%bool_decide_eq_true_1]. exists s. split; [|done].
  exists a. split_and!; try done. by destruct a.
Qed.

Lemma ParsePrefix_iff (content : string) (slots : list ModelSlot) :
  pxMatched (ParsePrefix content slots) = true <-> exists s rest, addressed content slots s rest.
Proof.
  split.
  - intros (s & Hs & _)%ParsePrefix_addressed. eauto.
  - intros (s & rest & name & -> & Hne & Hc & Hin & Hl). unfold ParsePrefix.
    rewrite (proj2 (str_index_byte ":" (name +:+ ": " +:+ rest) (String.length name)));
      [|by exists name, (String " " rest)].
    assert (str_drop (String.length name + 1) (name +:+ ": " +:+ rest) = String " " rest) as Ed.
    { assert (String.length name + 1 = String.length (name +:+ ":"))%nat as ->
        by (by rewrite str_length_app).
      change (": " +:+ rest) with (":" +:+ String " " rest). by rewrite str_app_assoc, str_drop_app. }
    assert (str_take (String.length name) (name +:+ ": " +:+ rest) = name) as Et
      by apply str_take_app.
    destruct (String.length name) eqn:El; [by destruct name|]. rewrite Ed, Et. cbn [Ascii.eqb Bool.eqb].
    destruct (List.find _ slots) eqn:Ef; [done|].
    apply (find_elem_None _ _ s) in Ef; [|done]. by apply bool_decide_eq_false_1 in Ef.
Qed.

Definition has_image (atts : list Attachment) : Prop :=
  exists a, a ∈ atts /\ IsImageMIME (atContentType a) = true.

Lemma CheckVisionRoute_iff (atts : list Attachment) (slots : list ModelSlot) :
  vsShouldRoute (CheckVisionRoute atts slots) = true <->
  has_image atts /\ exists s, s ∈ slots /\ equal_fold (slName s) "vision" = true.
Proof.
  unfold CheckVisionRoute, has_image.
  destruct (existsb _ atts) eqn:Ea; cbn [negb].
  - apply existsb_elem in Ea. destruct (List.find _ slots) as [s|] eqn:Ef; simpl.
    + apply find_elem_Some in Ef. split; [|done]. intros _. split; [done|]. by exists s.
    + split; [done|]. intros (_ & s & Hin & Hv). apply (find_elem_None _ _ s) in Ef; [|done]. congruence.
  - split; [done|]. intros [(a & Hin & Ha) _].
    rewrite (proj1 (existsb_elem_false _ _) Ea a Hin) in Ha. done.
Qed.

Lemma CheckVisionRoute_name (atts : list Attachment) (slots : list ModelSlot) :
  vsShouldRoute (CheckVisionRoute atts slots) = true ->
  equal_fold (vsSlotName (CheckVisionRoute atts slots)) "vision" = true.
Proof.
  unfold CheckVisionRoute. destruct (negb _); [done|].
  destruct (List.find _ slots) as [s|] eqn:Ef; [|done]. intros _.
  by apply find_elem_Some in Ef as [_ ?].
Qed.

(** With all providers registered, the decision is the target. *)
Lemma Route_target agentID content atts config hist now answered st r :
  ResolveSlots config = inl r -> (2 <= length (rcSlots (rrConfig r)))%nat ->
  (forall s, s ∈ rcSlots (rrConfig r) -> slProvider s ∈ providers) ->
  let '(t, st1) := pick_target UnmarshalVerdict providers Complete agentID content atts r hist now answered st in
  exists p dec, Route UnmarshalVerdict providers Complete agentID content atts config hist now answered st =
    (Ok dec, record_decision agentID dec st1) /\
    dec = mkRouteDecision (tgSlot t) p (tgRoutedBy t) (tgMessage t) (tgDetails t) (tgCost t).
Proof.
  intros Er Hlen Hprov. unfold Route. rewrite Er.
  rewrite (proj2 (Nat.leb_gt _ 1)) by lia.
  pose proof (pick_target_slot agentID content atts r hist now answered st (resolved_default config r Er)) as Ht.
  destruct (pick_target _ _ _ _ _ _ _ _ _ _ _) as [t st1]. simpl in Ht.
  unfold GetProviderForSlot at 1. rewrite bool_decide_eq_true_2 by by apply Hprov.
  by eexists _, _.
Qed.

(** the priority of routing methods, for an agent with several slots whose providers
    are all registered.  A message that addresses a slot goes there, without its prefix;
    otherwise a message with an image goes to the vision slot if there is one;
    otherwise, unless automatic routing is on, it goes to the default slot.  The
    classifier's model is called in none of these cases. *)
Theorem route_priority agentID content atts config hist now answered st r :
  ResolveSlots config = inl r -> (2 <= length (rcSlots (rrConfig r)))%nat ->
  (forall s, s ∈ rcSlots (rrConfig r) -> slProvider s ∈ providers) ->
  let cfg := rrConfig r in
  let by_prefix := rcTriggerPrefix cfg = true /\ exists s rest, addressed content (rcSlots cfg) s rest in
  let by_vision := has_image atts /\ exists s, s ∈ rcSlots cfg /\ equal_fold (slName s) "vision" = true in
  exists dec st', Route UnmarshalVerdict providers Complete agentID content atts config hist now answered st = (Ok dec, st') /\
    (by_prefix -> rdRoutedBy dec = "prefix" /\ rtCalls st' = rtCalls st /\
       exists s, addressed content (rcSlots cfg) s (rdMessage dec) /\ slName (rdSlot dec) = slName s) /\
    (~ by_prefix -> rdMessage dec = content) /\
    (~ by_prefix -> by_vision -> rdRoutedBy dec = "vision" /\ rtCalls st' = rtCalls st /\
       equal_fold (slName (rdSlot dec)) "vision" = true) /\
    (~ by_prefix -> ~ by_vision -> rcAutoRoute cfg = false ->
       rdSlot dec = rrDefaultSlot r /\ rdRoutedBy dec = "default" /\ rtCalls st' = rtCalls st).
Proof.
  intros Er Hlen Hprov cfg by_prefix by_vision.
  pose proof (Route_target agentID content atts config hist now answered st r Er Hlen Hprov) as HR.
  destruct (pick_target _ _ _ _ _ _ _ _ _ _ _) as [t st1] eqn:Et.
  destruct HR as (p & dec & HR & ->). eexists _, _. split; [exact HR|]. clear HR. simpl.
  unfold pick_target in Et. fold cfg in Et. cbv zeta in Et.
  assert (pxMatched (if rcTriggerPrefix cfg then ParsePrefix content (rcSlots cfg)
    else mkPrefixResult false EmptyString EmptyString) = true <-> by_prefix) as Hp.
  { unfold by_prefix. destruct (rcTriggerPrefix cfg); [|by split; [|intros [? _]]].
    rewrite ParsePrefix_iff. tauto. }
  pose proof (CheckVisionRoute_iff atts (rcSlots cfg)) as Hv. fold by_vision in Hv.
  destruct (pxMatched _) eqn:Ep.
  { destruct Hp as [Hp _]. specialize (Hp eq_refl). destruct (Hp) as [Htp _]. rewrite Htp in *.
    injection Et as <- <-. simpl. split_and!; try tauto. intros _. split; [done|]. split; [done|].
    destruct (ParsePrefix_addressed _ _ Ep) as (s & Hs & ->). exists s. split; [done|].
    apply slot_at_elem. by destruct Hs as (? & ? & ? & ? & ? & ?). }
  assert (~ by_prefix) as Hnp by (intros Hb%Hp; done). clear Hp Ep.
  destruct (vsShouldRoute _) eqn:Ev.
  { destruct Hv as [Hv _]. specialize (Hv eq_refl). injection Et as <- <-. simpl.
    split_and!; try tauto. intros _ _. split; [done|]. split; [done|].
    pose proof (CheckVisionRoute_name _ _ Ev) as Hn.
    destruct (CheckVisionRoute_slot _ _ Ev) as (s & Hs & Hsn). rewrite Hsn in *.
    destruct (slot_at_elem _ _ Hs) as [_ ->]. done. }
  assert (~ by_vision) as Hnv by (intros Hb%Hv; done).
  assert (tgMessage t = content) as Hm.
  { clear -Et. repeat (case_match; simplify_eq/=; try done). }
  split_and!; [tauto|done|tauto|]. intros _ _ Ha. rewrite Ha in Et. injection Et as <- <-. done.
Qed.
End routing.

(** * Statistics *)

Definition sum_counts (m : gmap string Z) : Z := map_fold (fun _ v n => v + n) 0 m.

Lemma sum_counts_insert (m : gmap string Z) (k : string) (v : Z) :
  m !! k = None -> sum_counts (<[k := v]> m) = v + sum_counts m.
Proof. intros Hk. unfold sum_counts. rewrite map_fold_insert_L; [done| |done]. intros. lia. Qed.

Lemma sum_counts_incr (m : gmap string Z) (k : string) : sum_counts (incr k m) = sum_counts m + 1.
Proof.
  unfold incr. destruct (m !! k) as [v|] eqn:E; simpl.
  - rewrite <- (insert_delete_id m k v E) at 2.
    rewrite <- (insert_delete_eq m k (v + 1)).
    rewrite !sum_counts_insert by apply lookup_delete_eq. lia.
  - rewrite sum_counts_insert by done. lia.
Qed.

Definition methods : gset string := {["prefix"; "vision"; "classifier"; "default"]}.

(** The counters of one agent agree. *)
Definition stats_ok (s : RoutingStats) : Prop :=
  sum_counts (rsByMethod s) = rsTotalRouted s /\ sum_counts (rsBySlot s) = rsTotalRouted s /\
  0 <= rsTotalRouted s /\ dom (rsByMethod s) ⊆ methods.

Lemma stats_ok_new : stats_ok NewRoutingStats.
Proof. split_and!; done. Qed.

Lemma stats_ok_record (d : RouteDecision) (s : RoutingStats) :
  rdRoutedBy d ∈ methods -> stats_ok s -> stats_ok (RecordRoute d s).
Proof.
  intros Hd (H1 & H2 & H3 & H4). unfold RecordRoute. split_and!; simpl.
  - by rewrite sum_counts_incr, H1.
  - by rewrite sum_counts_incr, H2.
  - lia.
  - unfold incr. rewrite dom_insert. set_solver.
Qed.

Section histories.
Context `{UnicodeCase} `{Codecs} (UnmarshalVerdict : string -> result string Verdict).

(** What can happen to a router; registered providers and their answers may differ from
    one message to the next. *)
Inductive router_op : Type :=
| OpRoute (providers : gset string)
    (Complete : string -> CompletionRequest -> result string CompletionResponse)
    (agentID content : string) (atts : list Attachment) (config : AgentConfig)
    (hist : list HistoryEntry) (now answered : Z)
| OpStats (agentID : string)
| OpReset.

Definition router_step (st : RouterState) (op : router_op) : RouterState :=
  match op with
  | OpRoute providers Complete agentID content atts config hist now answered =>
    (Route UnmarshalVerdict providers Complete agentID content atts config hist now answered st).2
  | OpStats agentID => (RouterStats agentID st).2
  | OpReset => ResetStats st
  end.

Definition all_stats_ok (st : RouterState) : Prop :=
  forall agentID s, rtStats st !! agentID = Some s -> stats_ok s.

Lemma all_stats_default (st : RouterState) (agentID : string) :
  all_stats_ok st -> stats_ok (default NewRoutingStats (rtStats st !! agentID)).
Proof.
  intros Hok. destruct (rtStats st !! agentID) eqn:E; simpl; [by eapply Hok|apply stats_ok_new].
Qed.

Lemma record_decision_ok (agentID : string) (d : RouteDecision) (st : RouterState) :
  rdRoutedBy d ∈ methods -> all_stats_ok st -> all_stats_ok (record_decision agentID d st).
Proof.
  intros Hd Hok id s. unfold record_decision. cbn [rtStats].
  destruct (decide (agentID = id)) as [<-|Hne].
  - rewrite lookup_insert_eq. intros [= <-]. by apply stats_ok_record, all_stats_default.
  - rewrite lookup_insert_ne by done. apply Hok.
Qed.

Lemma pick_target_stats providers Complete agentID content atts r hist now answered st :
  let '(t, st') := pick_target UnmarshalVerdict providers Complete agentID content atts r hist now answered st in
  tgRoutedBy t ∈ methods /\ rtStats st' = rtStats st.
Proof.
  unfold pick_target, Classify, methods.
  repeat (case_match; simplify_eq/=; try (split; [set_solver|done])).
Qed.

Lemma Route_stats providers Complete agentID content atts config hist now answered st :
  all_stats_ok st ->
  all_stats_ok (Route UnmarshalVerdict providers Complete agentID content atts config hist now answered st).2.
Proof.
  intros Hok. unfold Route. destruct (ResolveSlots config) as [r|]; [|done].
  destruct (_ <=? _)%nat.
  { destruct (GetProviderForSlot _ _); [|done]. apply record_decision_ok; [|done].
    unfold methods. set_solver. }
  pose proof (pick_target_stats providers Complete agentID content atts r hist now answered st) as Ht.
  destruct (pick_target _ _ _ _ _ _ _ _ _ _ _) as [t st1]. destruct Ht as [Hm Hst].
  assert (all_stats_ok st1) as Hok1 by (intros id s Hs; rewrite Hst in Hs; by eapply Hok).
  destruct (GetProviderForSlot _ (tgSlot t)); [by apply record_decision_ok|].
  destruct (GetProviderForSlot _ _); [by apply record_decision_ok|done].
Qed.

(** whatever is routed and reset, for every agent the counts by method and the
    counts by slot each add up to the number of messages routed, and only the four
    methods are counted. *)
Theorem routing_stats_consistent (ops : list router_op) :
  all_stats_ok (foldl router_step (mkRouterState ∅ ∅ []) ops).
Proof.
  assert (all_stats_ok (mkRouterState ∅ ∅ [])) as Hinit.
  { intros id s Hs. cbn [rtStats] in Hs. by rewrite lookup_empty in Hs. }
  revert Hinit. generalize (mkRouterState ∅ ∅ []).
  induction ops as [|op ops IH]; intros st Hst; simpl; [done|]. apply IH.
  destruct op as [| |]; simpl.
  - by apply Route_stats.
  - intros id s. cbn [rtStats]. destruct (decide (agentID = id)) as [<-|Hne].
    + rewrite lookup_insert_eq. intros [= <-]. by apply all_stats_default.
    + rewrite lookup_insert_ne by done. apply Hst.
  - intros id s. cbn [ResetStats rtStats]. rewrite lookup_fmap.
    destruct (rtStats st !! id); simpl; [|done]. intros [= <-]. apply stats_ok_new.
Qed.

(** * The classifier's cache *)

Context (providers : gset string).
Context (Complete : string -> CompletionRequest -> result string CompletionResponse).

(** a classification is reused for the agent's messages of the next minute,
    whatever they say: no model is called, and the confidence is high whatever it was,
    so that a guess of low confidence, first diverted to the fallback slot, then decides. *)
Theorem cached_classification_is_trusted agentID message hist slots provider model now answered st res st' :
  Classify UnmarshalVerdict Complete agentID message hist slots provider model now answered st = (Ok res, st') ->
  rtCache st !! agentID = None ->
  forall message' hist' slots' provider' model' now' answered',
    now' - answered < cacheTTL ->
    Classify UnmarshalVerdict Complete agentID message' hist' slots' provider' model' now' answered' st' =
      (Ok (mkClassifyResult (clSlotName res) "high" "cached" 0 0 f64_zero), st').
Proof.
  unfold Classify. intros HC Hnone message' hist' slots' provider' model' now' answered' Ht.
  rewrite Hnone in HC. destruct (Complete _ _) as [resp|]; [|done].
  destruct (parseClassificationResponse _ _ _) as [v|]; [|done]. injection HC as <- <-.
  cbn [rtCache]. rewrite lookup_insert_eq. by rewrite (proj2 (Z.ltb_lt _ _)).
Qed.

(** when the classifier's answer cannot be used (no JSON, an unknown slot), the
    message goes to the default slot and the call is not accounted for: the decision's
    classifier cost is zero although the model was paid. *)
Theorem failed_classification_is_free agentID content atts config hist now answered st r cs resp :
  ResolveSlots config = inl r -> (2 <= length (rcSlots (rrConfig r)))%nat ->
  (forall s, s ∈ rcSlots (rrConfig r) -> slProvider s ∈ providers) ->
  rcTriggerPrefix (rrConfig r) = false -> atts = [] -> rcAutoRoute (rrConfig r) = true ->
  rcClassifierSlot (rrConfig r) <> EmptyString ->
  slot_map (rcSlots (rrConfig r)) !! rcClassifierSlot (rrConfig r) = Some cs ->
  rtCache st !! agentID = None ->
  (forall req, Complete (slProvider cs) req = Ok resp) ->
  (forall v, parseClassificationResponse UnmarshalVerdict (rsContent resp) (rcSlots (rrConfig r)) <> Ok v) ->
  exists dec st', Route UnmarshalVerdict providers Complete agentID content atts config hist now answered st = (Ok dec, st') /\
    rdSlot dec = rrDefaultSlot r /\ rdRoutedBy dec = "default" /\ rdClassifierCost dec = no_cost /\
    length (rtCalls st') = S (length (rtCalls st)).
Proof.
  intros Er Hlen Hprov Hpx -> Hauto Hcls Hcs Hnone Hc Hparse.
  pose proof (Route_target UnmarshalVerdict providers Complete agentID content [] config hist now
    answered st r Er Hlen Hprov) as HR.
  destruct (pick_target _ _ _ _ _ _ _ _ _ _ _) as [t st1] eqn:Et.
  destruct HR as (p & dec & HR & ->). eexists _, _. split; [exact HR|]. clear HR. simpl.
  unfold pick_target in Et. cbv zeta in Et. rewrite Hpx, Hauto, Hcs in Et. simpl in Et.
  rewrite bool_decide_eq_false_2 in Et by done. simpl in Et.
  unfold GetProviderForSlot in Et. rewrite bool_decide_eq_true_2 in Et
    by (apply Hprov; by eapply slot_map_elem).
  unfold Classify in Et. rewrite Hnone, Hc in Et. cbv [Ok Err] in Et.
  destruct (parseClassificationResponse _ _ _) as [v|e] eqn:Ep; [by destruct (Hparse v)|].
  injection Et as <- <-. simpl. rewrite length_app. simpl. split_and!; try done. lia.
Qed.
End histories.

(** * Examples *)

#[local] Instance demo_codecs : Codecs := {|
  UnmarshalSlots := fun _ => Ok [mkModelSlot "default" "ollama" "llama3"; mkModelSlot "Heavy" "openrouter" "opus";
                                 mkModelSlot "Vision" "openrouter" "gpt-4o"];
  UnmarshalRouting := fun s =>
    Ok (mkRoutingConfig [] EmptyString "default" true (bool_decide (s = "auto")) EmptyString);
  HeartbeatEnabled := fun _ => false;
  MarshalVacation := fun _ => EmptyString;
  UnmarshalVacation := fun _ => Err "unused";
|}.

#[local] Instance demo_case : UnicodeCase := ascii_case.

Definition demo_agent (routing : string) : AgentConfig :=
  mkAgentConfig "a1" "a1" (mkModelConfig "ollama" "llama3") "slots" routing "reader" []
    zero_limits [] [] "none" "none" EmptyString EmptyString EmptyString EmptyString
    None None DesiredStateStopped AgentStatusStopped EmptyString.

Definition demo_providers : gset string := {["ollama"; "openrouter"]}.
Definition demo_answer (_ : string) (_ : CompletionRequest) : result string CompletionResponse :=
  Ok (mkCompletionResponse "{heavy?}" [] "end" 90 10 (f64_of_Z 1) "llama3" false).
Definition demo_verdict (confidence : string) (_ : string) : result string Verdict :=
  Ok (mkVerdict "Heavy" confidence "guess").
Definition demo_state : RouterState := mkRouterState ∅ ∅ [].

Definition demo_route (verdict providers : _) (content routing : string) (now : Z) (st : RouterState)
    : option (string * string * string * string) * RouterState :=
  let '(r, st) := Route verdict providers demo_answer "a1" content [] (demo_agent routing) [] now now st in
  (match r with
   | inl d => Some (slName (rdSlot d), rdRoutedBy d, rdMessage d, rdDetails d)
   | inr _ => None
   end, st).

Lemma route_configured_witness :
  exists dec st' r,
    Route (demo_verdict "high") demo_providers demo_answer "a1" "heavy: go" [] (demo_agent "auto") []
      0 0 demo_state = (Ok dec, st') /\ ResolveSlots (demo_agent "auto") = inl r /\
    rdSlot dec ∈ rcSlots (rrConfig r) /\ rdProvider dec = slProvider (rdSlot dec) /\
    slProvider (rdSlot dec) ∈ demo_providers.
Proof.
  eexists _, _.
  edestruct (route_configured (demo_verdict "high") demo_providers demo_answer "a1" "heavy: go" []
    (demo_agent "auto") [] 0 0 demo_state) as (r & H); [reflexivity|]. exists r. split; [reflexivity|exact H].
Defined.

Lemma demo_registered (slots : list ModelSlot) :
  slots = [mkModelSlot "default" "ollama" "llama3"; mkModelSlot "Heavy" "openrouter" "opus";
           mkModelSlot "Vision" "openrouter" "gpt-4o"] ->
  forall s, s ∈ slots -> slProvider s ∈ demo_providers.
Proof.
  intros -> s Hs.
  repeat (apply elem_of_cons in Hs as [->|Hs]; [unfold demo_providers; simpl; set_solver|]).
  by apply elem_of_nil in Hs.
Qed.

Lemma route_always_answers_witness :
  exists dec st', Route (demo_verdict "low") demo_providers (fun _ _ => Err "down") "a1" "hello" []
    (demo_agent "auto") [] 0 0 demo_state = (Ok dec, st') /\
    rsTotalRouted (default NewRoutingStats (rtStats st' !! "a1")) = 0 + 1.
Proof.
  eapply (route_always_answers (demo_verdict "low") demo_providers (fun _ _ => Err "down") "a1" "hello" []
    (demo_agent "auto") [] 0 0 demo_state); [reflexivity|unfold demo_providers; simpl; set_solver].
Defined.

Lemma route_priority_witness :
  exists dec st', Route (demo_verdict "low") demo_providers demo_answer "a1" "heavy: go" []
    (demo_agent "auto") [] 0 0 demo_state = (Ok dec, st') /\ rdRoutedBy dec = "prefix" /\
    rtCalls st' = [].
Proof.
  edestruct (route_priority (demo_verdict "low") demo_providers demo_answer "a1" "heavy: go" []
    (demo_agent "auto") [] 0 0 demo_state) as (dec & st' & HR & Hp & _);
    [reflexivity|simpl; lia|by apply demo_registered|].
  - exists dec, st'. split; [exact HR|]. destruct Hp as (Hr & Hc & _); [|by rewrite Hc].
    split; [reflexivity|]. exists (mkModelSlot "Heavy" "openrouter" "opus"), "go", "heavy".
    split_and!; try done. right. by left.
Defined.

Lemma cached_classification_is_trusted_witness :
  exists res st', Classify (demo_verdict "low") demo_answer "a1" "hello" [] [mkModelSlot "Heavy" "openrouter" "opus"]
      "ollama" "llama3" 0 0 demo_state = (Ok res, st') /\ clConfidence res = "low" /\
    Classify (demo_verdict "low") demo_answer "a1" "bye" [] [] "ollama" "llama3" 7 7 st' =
      (Ok (mkClassifyResult (clSlotName res) "high" "cached" 0 0 f64_zero), st').
Proof.
  eexists _, _. split; [reflexivity|]. split; [reflexivity|].
  eapply (cached_classification_is_trusted (demo_verdict "low") demo_answer "a1" "hello" []
    [mkModelSlot "Heavy" "openrouter" "opus"] "ollama" "llama3" 0 0 demo_state);
    [reflexivity|reflexivity|by vm_compute].
Defined.

Lemma failed_classification_is_free_witness :
  exists dec st', Route (fun _ => Ok (mkVerdict "nowhere" "high" "?")) demo_providers demo_answer "a1" "hello" []
    (demo_agent "plain") [] 0 0 demo_state = (Ok dec, st') /\ rdClassifierCost dec = no_cost.
Proof.
  edestruct (failed_classification_is_free (fun _ => Ok (mkVerdict "nowhere" "high" "?")) demo_providers
    demo_answer "a1" "hello" [] (demo_agent "plain") [] 0 0 demo_state) as (dec & st' & HR & _ & _ & Hc & _);
    [reflexivity|simpl; lia|by apply demo_registered|reflexivity|reflexivity|reflexivity|done|
     reflexivity|reflexivity|intros; reflexivity|intros v; by vm_compute|by exists dec, st'].
Defined.

(** two consequences, in an agent with automatic routing.  A second message sent
    within the minute after a low-confidence classification goes to the slot the first
    one was kept from.  When a routed slot's provider is gone, the explanation names the
    default slot and its provider as the ones unavailable. *)
Theorem routing_surprises :
  let '(first, st) := demo_route (demo_verdict "low") demo_providers "hello" "auto" 0 demo_state in
  let '(second, _) := demo_route (demo_verdict "low") demo_providers "bye" "auto" 1 st in
  (fst <$> (fst <$> (fst <$> first))) = Some "default" /\
  (fst <$> (fst <$> (fst <$> second))) = Some "Heavy" /\
  (demo_route (demo_verdict "low") {["ollama"]} "heavy: go" "auto" 0 demo_state).1 =
    Some ("default", "prefix", "go",
      "provider " +:+ quoted "ollama" +:+ " unavailable for slot " +:+ quoted "default" +:+ ", fallback to default").
Proof. by vm_compute. Qed.
