(* ===== verification/AgentText.v ===== *)
(** The pure helpers of the message loop ([internal/core/agent.go],
    [internal/ctxbudget/tokens.go], [internal/history/history.go]): delivery in chunks,
    repair of conversations for models without tools, trimming to the context budget,
    the iteration limit. *)

From S2P Require Import Prelude GoString GoFloat Types GoJson KtpTypes KtpRegistry Chat.
#[local] Open Scope Z_scope.

(** * Estimates and limits *)

(** [ctxbudget.EstimateTokens] and [history.EstimateTokens] *)
Definition estimate_by (n : Z) (text : string) : Z :=
  let len := Z.of_nat (String.length text) in
  if (len / n =? 0) && (0 <? len) then 1 else len / n.

Definition EstimateTokens (text : string) : Z := estimate_by 3 text.
Definition HistoryEstimateTokens (content : string) : Z := estimate_by 4 content.

Definition defaultMaxToolIterations : Z := 64.
Definition minMaxToolIterations : Z := 4.
Definition hardMaxToolIterations : Z := 256.

(** [configuredMaxToolIterations], given the environment variable *)
Definition configuredMaxToolIterations (env : string) : Z :=
  let v := trim_space env in
  if bool_decide (v = EmptyString) then defaultMaxToolIterations
  else match Atoi v with
       | None => defaultMaxToolIterations
       | Some n =>
         if n <? minMaxToolIterations then minMaxToolIterations
         else if hardMaxToolIterations <? n then hardMaxToolIterations
         else n
       end.

Lemma configuredMaxToolIterations_bounds (env : string) :
  4 <= configuredMaxToolIterations env <= 256.
Proof.
  unfold configuredMaxToolIterations, defaultMaxToolIterations, minMaxToolIterations,
    hardMaxToolIterations.
  case_bool_decide; [lia|]. destruct (Atoi _) as [n|]; [|lia].
  destruct (Z.ltb_spec n 4), (Z.ltb_spec 256 n); lia.
Qed.

(** * Chunks *)

Definition is_break (c : option ascii) : bool :=
  match c with
  | Some c => (byte_of c =? 32) || (byte_of c =? 10)
  | None => false
  end.

(** The backward search [for i := end; i > end/2; i--]. *)
Fixpoint find_break (text : string) (lo i : nat) : option nat :=
  match i with
  | O => None
  | S i' => if (lo <? i)%nat then
              if is_break (String.get i text) then Some (S i) else find_break text lo i'
            else None
  end.

Fixpoint chunk_loop (fuel : nat) (targetSize : nat) (text : string) : list string :=
  match fuel with
  | O => []
  | S fuel' =>
    if (String.length text =? 0)%nat then []
    else if (String.length text <=? targetSize)%nat then [text]
    else
      let breakAt := default targetSize (find_break text (targetSize / 2) targetSize) in
      str_take breakAt text :: chunk_loop fuel' targetSize (str_drop breakAt text)
  end.

(** [splitIntoChunks]; every round of its loop shortens the text, so that its length is
    enough fuel ([chunk_loop_fuel]). *)
Definition splitIntoChunks (text : string) (targetSize : Z) : list string :=
  let size := Z.to_nat (if targetSize <=? 0 then 40 else targetSize) in
  if (String.length text <=? size)%nat then [text]
  else chunk_loop (String.length text) size text.

Lemma find_break_bounds (text : string) (lo i b : nat) :
  find_break text lo i = Some b -> (lo < b <= S i)%nat.
Proof.
  induction i as [|i IH]; cbn [find_break]; [done|].
  destruct (Nat.ltb_spec lo (S i)) as [Hlo|]; [|done].
  destruct (is_break _); [intros [= <-]; lia|]. intros ?%IH. lia.
Qed.

Lemma str_length_drop (n : nat) (s : string) :
  String.length (str_drop n s) = (String.length s - n)%nat.
Proof.
  revert n. induction s as [|c s IH]; intros [|n]; cbn [str_drop String.length]; try lia; [done..|].
  apply IH.
Qed.

Lemma chunk_break (text : string) (size : nat) :
  (0 < size)%nat -> (size < String.length text)%nat ->
  (0 < default size (find_break text (size / 2) size) <= S size)%nat.
Proof.
  intros Hs Hl. destruct (find_break text (size / 2) size) as [b|] eqn:E; simpl; [|lia].
  apply find_break_bounds in E. lia.
Qed.

(** Enough fuel: the loop ends with the whole text delivered. *)
Lemma chunk_loop_fuel (fuel size : nat) (text : string) :
  (0 < size)%nat -> (String.length text <= fuel)%nat ->
  str_concat (chunk_loop fuel size text) = text /\
  Forall (fun c => 0 < String.length c <= S size)%nat (chunk_loop fuel size text).
Proof.
  intros Hs. revert text. induction fuel as [|fuel IH]; intros text Hl; cbn [chunk_loop].
  { destruct text; [done|]. cbn [String.length] in Hl. lia. }
  destruct (Nat.eqb_spec (String.length text) 0) as [E|E]; [by destruct text|].
  destruct (Nat.leb_spec (String.length text) size) as [Hle|Hgt].
  { unfold str_concat. cbn [foldr]. rewrite str_app_nil_r. split; [done|].
    constructor; [lia|constructor]. }
  pose proof (chunk_break text size Hs Hgt) as Hb.
  set (b := default size _) in *.
  destruct (IH (str_drop b text)) as [IH1 IH2]; [rewrite str_length_drop; lia|].
  split.
  - unfold str_concat in *. cbn [foldr]. rewrite IH1. apply str_take_drop.
  - constructor; [|done]. rewrite str_length_take; lia.
Qed.

(** delivery in chunks loses nothing: the loop ends, the chunks concatenate to the
    text, and none is longer than the target by more than the space it ends in (the
    empty text is one empty chunk). *)
Theorem chunks_deliver_text (text : string) (targetSize : Z) :
  str_concat (splitIntoChunks text targetSize) = text /\
  (text <> EmptyString ->
   Forall (fun c => 0 < Z.of_nat (String.length c) <= (if targetSize <=? 0 then 40 else targetSize) + 1)
     (splitIntoChunks text targetSize)).
Proof.
  unfold splitIntoChunks. set (t := if targetSize <=? 0 then 40 else targetSize).
  assert (0 < t) as Ht by (unfold t; destruct (Z.leb_spec targetSize 0); lia).
  destruct (Nat.leb_spec (String.length text) (Z.to_nat t)) as [Hle|Hgt].
  - unfold str_concat. cbn [foldr]. rewrite str_app_nil_r. split; [done|]. intros Hne.
    constructor; [|constructor]. destruct text; [done|]. cbn [String.length] in *. lia.
  - destruct (chunk_loop_fuel (String.length text) (Z.to_nat t) text) as [H1 H2]; [lia..|].
    split; [done|]. intros _. eapply Forall_impl; [exact H2|]. simpl. lia.
Qed.

(** chunks are cut by bytes: a text without spaces whose runes take several bytes is
    cut inside a rune. *)
Theorem chunk_cuts_rune :
  let e_acute := String "195" (String "169" EmptyString) in
  splitIntoChunks ("a" +:+ e_acute +:+ e_acute) 2 =
    ["a" +:+ String "195" EmptyString; String "169" (String "195" EmptyString); String "169" EmptyString].
Proof. by vm_compute. Qed.

(** * Conversations without tools *)

(** [isToolRelated400] *)
Definition isToolRelated400 (msg : string) : bool :=
  contains msg "status 400" &&
  (contains msg "tool_call_id" || contains msg "tool_call" || contains msg "upstream provider").

(** [stripToolMessages] *)
Fixpoint stripToolMessages (messages : list ChatMessage) : list ChatMessage :=
  match messages with
  | [] => []
  | m :: rest =>
    if bool_decide (cmRole m = "tool") then stripToolMessages rest
    else if bool_decide (cmRole m = "assistant") && negb (bool_decide (length (cmToolCalls m) = 0%nat)) then
      if bool_decide (cmContent m = EmptyString) then stripToolMessages rest
      else plain_message "assistant" (cmContent m) :: stripToolMessages rest
    else m :: stripToolMessages rest
  end.

(** A message that belongs to the tool loop. *)
Definition is_tool_message (m : ChatMessage) : bool :=
  bool_decide (cmRole m = "tool") ||
  (bool_decide (cmRole m = "assistant") && negb (bool_decide (length (cmToolCalls m) = 0%nat))).

(** a request retried without tools mentions none: no tool message and no assistant
    message with calls is left, all other messages are kept in order, and what the assistant
    said along with its calls is kept as text. *)
Theorem strip_leaves_no_tools (messages : list ChatMessage) :
  Forall (fun m => is_tool_message m = false) (stripToolMessages messages) /\
  sublist (List.filter (fun m => negb (is_tool_message m)) messages) (stripToolMessages messages) /\
  forall m, m ∈ messages -> cmRole m = "assistant" -> cmContent m <> EmptyString ->
    exists m', m' ∈ stripToolMessages messages /\ cmRole m' = "assistant" /\ cmContent m' = cmContent m.
Proof.
  assert (forall m, cmRole m <> "tool" -> is_tool_message m =
    bool_decide (cmRole m = "assistant") && negb (bool_decide (length (cmToolCalls m) = 0%nat))) as Ht.
  { intros m Hm. unfold is_tool_message. by rewrite bool_decide_eq_false_2. }
  induction messages as [|x l (IH1 & IH2 & IH3)]; cbn [stripToolMessages List.filter].
  { split_and!; [done|done|]. by intros m ?%elem_of_nil. }
  case_bool_decide as Hx.
  { unfold is_tool_message at 2. rewrite bool_decide_eq_true_2 by done. cbn [orb negb].
    split_and!; [done|done|]. intros m [->|Hm]%elem_of_cons Hr Hc; [congruence|by apply IH3]. }
  destruct (bool_decide (cmRole x = "assistant") && negb (bool_decide (length (cmToolCalls x) = 0%nat))) eqn:E.
  - rewrite (Ht x Hx), E. cbn [negb]. apply andb_true_iff in E as [Ea _]. to_prop.
    case_bool_decide as Hc; split_and!; try done.
    + intros m [->|Hm]%elem_of_cons Hr Hmc; [done|by apply IH3].
    + by constructor.
    + by constructor.
    + intros m [->|Hm]%elem_of_cons Hr Hmc.
      * eexists. split; [by left|done].
      * destruct (IH3 m Hm Hr Hmc) as (m' & ? & ?). exists m'. split; [by right|done].
  - rewrite (Ht x Hx), E. cbn [negb]. split_and!.
    + constructor; [by rewrite (Ht x Hx)|done].
    + by constructor.
    + intros m [->|Hm]%elem_of_cons Hr Hmc; [exists x; split; [by left|done]|].
      destruct (IH3 m Hm Hr Hmc) as (m' & ? & ?). exists m'. split; [by right|done].
Qed.

(** * Trimming *)

Definition total_estimate (messages : list ChatMessage) : Z :=
  foldr (fun m n => EstimateTokens (cmContent m) + n) 0 messages.

(** The loop over the messages after the first: [freed] tokens so far. *)
Fixpoint trim_from (freed targetTokens : Z) (messages : list ChatMessage) : list ChatMessage :=
  match messages with
  | [] => []
  | m :: rest =>
    if (freed <? targetTokens) && is_tool_message m
    then trim_from (freed + EstimateTokens (cmContent m)) targetTokens rest
    else m :: trim_from freed targetTokens rest
  end.

(** [trimOldestToolMessages] *)
Definition trimOldestToolMessages (messages : list ChatMessage) (targetTokens : Z) : list ChatMessage :=
  if (length messages <? 3)%nat || (targetTokens <=? 0) then messages
  else match messages with
       | [] => []
       | m :: rest => m :: trim_from 0 targetTokens rest
       end.

Lemma EstimateTokens_nonneg (text : string) : 0 <= EstimateTokens text.
Proof. unfold EstimateTokens, estimate_by. case_match; [lia|]. apply Z.div_pos; lia. Qed.

Lemma total_estimate_sublist (l1 l2 : list ChatMessage) :
  sublist l1 l2 -> total_estimate l1 <= total_estimate l2.
Proof.
  induction 1 as [|x l1 l2 _ IH|x l1 l2 _ IH]; unfold total_estimate in *; cbn [foldr] in *;
    [done|lia|]. pose proof (EstimateTokens_nonneg (cmContent x)). lia.
Qed.

Lemma trim_from_spec (freed target : Z) (l : list ChatMessage) :
  let l' := trim_from freed target l in
  sublist (List.filter (fun m => negb (is_tool_message m)) l) l' /\ sublist l' l /\
  (target <= freed + (total_estimate l - total_estimate l') \/
   Forall (fun m => is_tool_message m = false) l').
Proof.
  revert freed. induction l as [|m l IH]; intros freed; cbn [trim_from List.filter].
  { split_and!; [done|done|]. by right. }
  destruct (is_tool_message m) eqn:Em; cbn [negb].
  - rewrite andb_true_r. destruct (Z.ltb_spec freed target).
    + destruct (IH (freed + EstimateTokens (cmContent m))) as (H1 & H2 & H3).
      split_and!; [done|by constructor|]. destruct H3; [left|by right]. cbn [total_estimate foldr].
      fold (total_estimate l). lia.
    + destruct (IH freed) as (H1 & H2 & _). split_and!; [by constructor|by constructor|].
      left. cbn [total_estimate foldr]. fold (total_estimate l) (total_estimate (trim_from freed target l)).
      apply total_estimate_sublist in H2. lia.
  - rewrite andb_false_r. destruct (IH freed) as (H1 & H2 & H3).
    split_and!; [by constructor|by constructor|]. destruct H3; [left|right; by constructor].
    cbn [total_estimate foldr].
    fold (total_estimate l) (total_estimate (trim_from freed target l)). lia.
Qed.

(** trimming before a model call frees the tokens asked for or leaves no message of
    the tool loop after the first; it removes nothing else, and keeps the order. *)
Theorem trim_frees_target (messages : list ChatMessage) (target : Z) :
  (3 <= length messages)%nat -> 0 < target ->
  let trimmed := trimOldestToolMessages messages target in
  head trimmed = head messages /\ sublist trimmed messages /\
  sublist (List.filter (fun m => negb (is_tool_message m)) messages) trimmed /\
  (target <= total_estimate messages - total_estimate trimmed \/
   Forall (fun m => is_tool_message m = false) (tail trimmed)).
Proof.
  intros Hlen Ht. unfold trimOldestToolMessages.
  rewrite (proj2 (Nat.ltb_ge _ 3)), (proj2 (Z.leb_gt _ 0)) by lia. cbn [orb].
  destruct messages as [|m l]; [by simpl in Hlen; lia|]. destruct (trim_from_spec 0 target l) as (H1 & H2 & H3).
  cbv zeta in *. split_and!; [done|by constructor| |].
  - cbn [List.filter]. destruct (negb (is_tool_message m)); by constructor.
  - cbn [tail total_estimate foldr].
    fold (total_estimate l) (total_estimate (trim_from 0 target l)). destruct H3; [left; lia|by right].
Qed.

Definition demo_call : ToolUse := mkToolUse "c1" "web__get" (AMap []).
Definition demo_talk : list ChatMessage :=
  [plain_message "system" "s"; plain_message "user" "u";
   mkChatMessage "assistant" "calling" [] [demo_call] EmptyString;
   mkChatMessage "tool" "a long result" [] [] "c1"].

Lemma trim_frees_target_witness :
  sublist (trimOldestToolMessages demo_talk 2) demo_talk.
Proof. apply (trim_frees_target demo_talk 2); [simpl; lia|lia]. Defined.

(** A tool message whose call is not in the conversation before it. *)
Fixpoint orphans_from (seen : list string) (messages : list ChatMessage) : list string :=
  match messages with
  | [] => []
  | m :: rest =>
    (if bool_decide (cmRole m = "tool") && negb (bool_decide (cmToolCallID m ∈ seen))
     then [cmToolCallID m] else []) ++
    orphans_from (seen ++ map tuID (cmToolCalls m)) rest
  end.

(** the trimming is described as removing pairs of a call and its results, but it
    stops in the middle of a pair as soon as enough is freed: the result of a removed
    call stays, without its call. *)
Theorem trim_orphans_results :
  orphans_from [] demo_talk = [] /\
  orphans_from [] (trimOldestToolMessages demo_talk 2) = ["c1"].
Proof. by vm_compute. Qed.

(** * Markup, parameters, visibility *)

Definition dsml_open : string := "<｜DSML｜".

(** Past the first closing marker, or the end of the text. *)
Fixpoint dsml_close (s : string) : string :=
  match strip_prefix "</content>" s with
  | Some rest => rest
  | None =>
    match strip_prefix "<｜/DSML｜>" s with
    | Some rest => rest
    | None => match s with EmptyString => EmptyString | String _ s' => dsml_close s' end
    end
  end.

(** What a match of [dsmlPattern] at the head of the text leaves. *)
Definition dsml_match (s : string) : option string :=
  rest ← strip_prefix dsml_open s; i ← str_index rest ">"; Some (dsml_close (str_drop (i + 1) rest)).

Fixpoint dsml_remove (skip : nat) (s : string) : string :=
  match s with
  | EmptyString => EmptyString
  | String c s' =>
    match skip with
    | S k => dsml_remove k s'
    | O =>
      match dsml_match s with
      | Some rest => dsml_remove (String.length s - String.length rest - 1) s'
      | None => String c (dsml_remove 0 s')
      end
    end
  end.

(** [stripDSMLMarkup] *)
Definition stripDSMLMarkup (content : string) : string :=
  if negb (contains content dsml_open) then content
  else let cleaned := trim_space (dsml_remove 0 content) in
       if bool_decide (cleaned = EmptyString)
       then "[Tool calling not supported by current provider routing]" else cleaned.

Example stripDSMLMarkup_block :
  stripDSMLMarkup ("ok " +:+ dsml_open +:+ "calls>x</content> end") = "ok  end".
Proof. reflexivity. Qed.

(** An empty answer is never made of a non-empty one. *)
Lemma stripDSMLMarkup_nonempty (content : string) :
  content <> EmptyString -> stripDSMLMarkup content <> EmptyString.
Proof. intros H. unfold stripDSMLMarkup. destruct (negb _); [done|]. by case_bool_decide. Qed.

(** [toMapStringAny]: anything but a map with text keys decodes to no map. *)
Definition toMapStringAny (v : any) : list (string * any) :=
  match v with
  | AMap m => m
  | AStrMap m => map (fun e => (e.1, AString e.2)) m
  | _ => []
  end.

(** [isTeamToolVisible]: [team] is the outcome of [GetTeamForAgent], [None] without a team
    manager; a team is known by its leader. *)
Definition isTeamToolVisible (team : option (result string (option string))) (agentID toolName : string)
    : result string bool :=
  if negb (bool_decide (toolName ∈ ["team.delegate"; "team.broadcast"; "team.status"; "team.recall"]))
  then Ok true
  else match team with
       | None => Ok false
       | Some (inr e) => Err e
       | Some (inl None) => Ok false
       | Some (inl (Some leader)) =>
         if bool_decide (toolName ∈ ["team.delegate"; "team.recall"])
         then Ok (bool_decide (leader = agentID)) else Ok true
       end.
