(* ===== verification/AgentLoop.v ===== *)
(** The message loop of an agent ([handleMessage] of [internal/core/agent.go]).

    The loop is a program over the services of [Services]: the budget, the model, the
    circuit breaker, the tool executor and the rest of Kyvik, each a function on an
    abstract world.  Its own state [LoopState] adds the security log, the counter of the
    runner and a trace of what it did, in order.  Prompt security is called
    directly, as [Security] models it.  A Go panic is the error [LoopPanic]. *)

From stdpp Require Import pretty.
From S2P Require Import Prelude GoString GoFloat Types GoJson KtpTypes KtpGate KtpRegistry.
From S2P Require Import Chat AgentText Security Spending Lifecycle Router.
#[local] Open Scope Z_scope.

(** * Data *)

(** [types.Message], the fields the loop reads or writes *)
Record ChatIn := mkChatIn {
  inChannel : string;
  inConversationID : string;
  inSender : string;
  inRole : string;
  inContent : string;
  inAttachments : list Attachment;
}.

(** [ctxbudget.AssembledContext] *)
Record Assembled := mkAssembled {
  asSystemPrompt : string;
  asMessages : list ChatMessage;
  asTokenEstimate : Z;
}.

(** One receive of the loop of [streamModelCall]. *)
Inductive StreamItem : Type :=
| StreamCtxDone (e : string)
| StreamTimeout
| StreamClosed
| StreamChunk (content : string) (done : bool) (error : string).

(** [channels.StreamEvent] *)
Inductive StreamEvent : Type :=
| SEChunk (content : string)
| SEDone (tokensIn tokensOut : Z)
| SEError (e : string).

(** What the loop does, in order. *)
Inductive LoopEvent : Type :=
| EvBudget (r : result string bool)
| EvModel (provider : string) (req : CompletionRequest)
| EvHelper (provider : string) (req : CompletionRequest)      (* of the classifier or the compressor *)
| EvStream (e : StreamEvent)
| EvRecord (tokensIn tokensOut : Z) (cost : float64) (opts : RecordOptions)
| EvValidate (req : ToolRequest) (blocked : option string)
| EvExecute (req : ToolRequest)
| EvHistory (e : HistoryEntry)
| EvTrim (limit : Z)
| EvExtraction
| EvCompression
| EvAudit (action details : string)
| EvOut (m : ChatIn).

Inductive LoopError : Type :=
| BudgetCheckFailed (e : string)
| BudgetExceeded
| AssembleFailed (e : string)
| RouteFailed (e : string)
| ModelFailed (e : string)
| BreakerTripped (description : string)
| NoModelResponse
| LoopPanic (what : string).

(** The parts of the configuration only the loop reads. *)
Record LoopSettings := mkLoopSettings {
  lpTimestampMessages : bool;
  lpMaxTotalTokens : Z;                 (* of the normalized context budget *)
  lpCompression : bool;                 (* CompressionJSON decodes to enabled *)
  lpHistoryLimit : Z;
  lpAutoExtract : bool;                 (* AutoExtractMemories with both stores *)
  lpExtractInterval : Z;
  lpFeedback : bool;                    (* FeedbackHooksJSON decodes to enabled *)
}.

(** Which optional parts of Kyvik are wired. *)
Record Wiring := mkWiring {
  wrHistory : bool;
  wrBreaker : bool;
  wrDefense : bool;
  wrRegistry : option (gmap string KtpTool);
  wrExecutor : bool;
  wrRouter : bool;
  wrStreamer : bool;                    (* some adapter streams *)
  wrCompressor : bool;
  wrFeedback : bool;
  wrTeam : option (result string (option string));
  wrMaxIterations : string;             (* KYVIK_MAX_TOOL_ITERATIONS *)
}.

(** The requests a service makes to models on its own. *)
Definition ModelCalls : Type := list (string * CompletionRequest).

(** The services, on a world [W].  Assembly, compression and routing ask models themselves:
    they answer with the requests they made. *)
Class Services (W : Type) := {
  sv_check_budget : W -> result string bool * W;
  sv_assemble : string -> W -> (result string Assembled * ModelCalls) * W;
  sv_compress : W -> (result string unit * ModelCalls) * W;
  sv_route : ChatIn -> W -> (result string RouteDecision * ModelCalls) * W;
  sv_complete : string -> CompletionRequest -> W -> result string CompletionResponse * W;
  sv_stream : string -> CompletionRequest -> W -> result string (list StreamItem) * W;
  sv_record : Z -> Z -> float64 -> RecordOptions -> W -> W;
  sv_breaker_spending : float64 -> W -> option string * W;
  sv_breaker_message : string -> W -> option string * W;
  sv_breaker_tool : string -> string -> bool -> bool -> W -> option string * W;
  sv_execute : ToolRequest -> W -> result string ToolResponse * W;
  sv_feedback : ToolRequest -> W -> string * W;
  sv_history_count : W -> option Z * W;
  sv_fresh_id : W -> string * W;
  sv_random : W -> result string (list ascii) * W;
}.

Record LoopState (W : Type) := mkLoopState {
  lsWorld : W;
  lsSecurity : SecurityLog;
  lsCount : Z;                          (* runner.messageCount *)
  lsTrace : list LoopEvent;
}.
Arguments mkLoopState {W}. Arguments lsWorld {W}. Arguments lsSecurity {W}.
Arguments lsCount {W}. Arguments lsTrace {W}.

(** * The monad of the loop *)

Section monad.
Context {W : Type}.

Definition M (A : Type) : Type := LoopState W -> result LoopError A * LoopState W.

Definition ret {A} (a : A) : M A := fun st => (Ok a, st).
Definition fail {A} (e : LoopError) : M A := fun st => (Err e, st).
Definition bind {A B} (m : M A) (k : A -> M B) : M B := fun st =>
  match m st with
  | (inl a, st') => k a st'
  | (inr e, st') => (inr e, st')
  end.

Definition say (e : LoopEvent) : M unit := fun st =>
  (Ok tt, mkLoopState (lsWorld st) (lsSecurity st) (lsCount st) (lsTrace st ++ [e])).

Definition service {A} (f : W -> A * W) : M A := fun st =>
  let '(a, w) := f (lsWorld st) in
  (Ok a, mkLoopState w (lsSecurity st) (lsCount st) (lsTrace st)).

Definition defence {A} (f : SecurityLog -> A * SecurityLog) : M A := fun st =>
  let '(a, s) := f (lsSecurity st) in
  (Ok a, mkLoopState (lsWorld st) s (lsCount st) (lsTrace st)).

Definition count_message : M Z := fun st =>
  let n := lsCount st + 1 in
  (Ok n, mkLoopState (lsWorld st) (lsSecurity st) n (lsTrace st)).

Definition when (b : bool) (m : M unit) : M unit := if b then m else ret tt.

Fixpoint say_all (l : list LoopEvent) : M unit :=
  match l with
  | [] => ret tt
  | e :: l' => bind (say e) (fun _ => say_all l')
  end.

(** A service that asks models. *)
Definition consult {A} (f : W -> (A * ModelCalls) * W) : M A :=
  bind (service f) (fun x => bind (say_all (map (fun c => EvHelper c.1 c.2) x.2)) (fun _ => ret x.1)).
End monad.

Notation "'do!' x := m 'in' k" := (bind m (fun x => k))
  (at level 10, x pattern, m at level 100, k at level 200) : kyvik_scope.
Notation "'run!' m 'in' k" := (bind m (fun _ => k))
  (at level 10, m at level 100, k at level 200) : kyvik_scope.

(** * The loop *)

Section loop.
Context {W : Type} `{Services W}.
Context (fmt_float : float64 -> result string string).
Context (UnmarshalSecurity : string -> SecurityConfig -> SecurityConfig).
Context (MarshalCalls : list ToolUse -> string).
(** The time stamp of a message, in its sender's zone. *)
Context (timestamp : ChatIn -> string).
Context (wr : Wiring) (config : AgentConfig) (settings : LoopSettings) (runnerProvider : string).

Definition secCfg : SecurityConfig := ResolveSecurityConfig UnmarshalSecurity config.

Definition check_budget : M (W := W) (result string bool) :=
  do! r := service sv_check_budget in run! say (EvBudget r) in ret r.

Definition append_history (e : HistoryEntry) : M (W := W) unit :=
  when (wrHistory wr) (say (EvHistory e)).

(** ** Calling the model *)

(** The receive loop of [streamModelCall]: content so far. *)
Fixpoint consume_stream (items : list StreamItem) (content : string)
    : M (W := W) (result string CompletionResponse) :=
  let finish content :=
    let estimatedOut := Z.of_nat (String.length content) / 4 in
    run! say (EvStream (SEDone 0 estimatedOut)) in
    ret (Ok (mkCompletionResponse content [] EmptyString 0 estimatedOut f64_zero EmptyString false)) in
  match items with
  | [] | StreamClosed :: _ => finish content
  | StreamCtxDone e :: _ => ret (Err e)
  | StreamTimeout :: _ =>
    run! say (EvStream (SEError "response timed out")) in ret (Err "stream timeout after 5 minutes")
  | StreamChunk c last error :: items' =>
    if negb (bool_decide (error = EmptyString)) then
      run! say (EvStream (SEError error)) in ret (Err ("stream error: " +:+ error))
    else
      run! when (negb (bool_decide (c = EmptyString))) (say (EvStream (SEChunk c))) in
      if last then finish (content +:+ c) else consume_stream items' (content +:+ c)
  end.

(** [streamModelCall] *)
Definition streamModelCall (provider : string) (req : CompletionRequest)
    : M (W := W) (result string CompletionResponse) :=
  run! say (EvModel provider req) in
  do! r := service (sv_stream provider req) in
  match r with
  | inr e => ret (Err ("stream request: " +:+ e))
  | inl items => consume_stream items EmptyString
  end.

Definition complete (provider : string) (req : CompletionRequest)
    : M (W := W) (result string CompletionResponse) :=
  run! say (EvModel provider req) in service (sv_complete provider req).

(** The request retried after a tool-related error. *)
Definition without_tools (req : CompletionRequest) : CompletionRequest :=
  mkCompletionRequest (crModel req) (stripToolMessages (crMessages req)) (crMaxTokens req) [].

(** The full answer, with a second try without tools. *)
Definition complete_or_retry (provider : string) (req : CompletionRequest) : M (W := W) CompletionResponse :=
  do! r := complete provider req in
  match r with
  | inl resp => ret resp
  | inr e =>
    if isToolRelated400 e && negb (bool_decide (length (crTools req) = 0%nat)) then
      do! r := complete provider (without_tools req) in
      match r with
      | inl resp => ret resp
      | inr e => fail (ModelFailed e)
      end
    else fail (ModelFailed e)
  end.

(** One round's answer, and whether it was streamed. *)
Definition call_model (provider : string) (req : CompletionRequest) (canStream : bool)
    : M (W := W) (CompletionResponse * bool) :=
  do! streamed := (if canStream then streamModelCall provider req else ret (Err EmptyString)) in
  match streamed with
  | inl resp => ret (resp, true)
  | inr _ => do! resp := complete_or_retry provider req in ret (resp, false)
  end.

Definition with_content (resp : CompletionResponse) (content : string) : CompletionResponse :=
  mkCompletionResponse content (rsToolCalls resp) (rsStopReason resp) (rsTokensIn resp)
    (rsTokensOut resp) (rsCost resp) (rsModel resp) (rsUnprocessed resp).

Definition no_calls (resp : CompletionResponse) : bool := bool_decide (length (rsToolCalls resp) = 0%nat).

Definition trip_check (wired : bool) (check : W -> option string * W) : M (W := W) unit :=
  if wired then
    do! trip := service check in
    match trip with
    | Some d => fail (BreakerTripped d)
    | None => ret tt
    end
  else ret tt.

(** Spending record and circuit breaker for one answer. *)
Definition account (provider modelName slotName routedBy : string) (resp : CompletionResponse)
    : M (W := W) unit :=
  let paid := f64_lt f64_zero (rsCost resp) in
  let opts := mkRecordOptions modelName slotName routedBy provider EmptyString
    (if paid then "provider_reported" else EmptyString) "provider_usage" false EmptyString EmptyString in
  run! say (EvRecord (rsTokensIn resp) (rsTokensOut resp) (rsCost resp) opts) in
  run! service (fun w => (tt, sv_record (rsTokensIn resp) (rsTokensOut resp) (rsCost resp) opts w)) in
  run! trip_check (wrBreaker wr && paid) (sv_breaker_spending (rsCost resp)) in
  trip_check (wrBreaker wr && negb (bool_decide (rsContent resp = EmptyString)))
    (sv_breaker_message (rsContent resp)).

(** ** Executing tool calls *)

Definition tool_message (callID content : string) : ChatMessage :=
  mkChatMessage "tool" content [] [] callID.

(** The model's text for a refused call. *)
Definition refusal (callID requestID msg : string) : ChatMessage :=
  tool_message callID
    (Content (ConvertToModelResult (Marshal fmt_float) callID
       (Some (mkToolResponse requestID false ANil msg 0 EmptyString)))).

Definition with_action (req : ToolRequest) (action : string) : ToolRequest :=
  mkToolRequest (rID req) (rAgentID req) (rTeamID req) (rTool req) action (rParameters req)
    (rPermissionToken req) (rTier req) (rSkillSandboxConfig req).

(** The KTP request of a call; [None] if a default action is needed and there is no
    registry. *)
Definition request_of (id : string) (tc : ToolUse) : ToolRequest * bool :=
  let req := ConvertToKTPRequest id (ID config)
    (mkModelToolCall (tuID tc) (tuName tc) (toMapStringAny (tuParameters tc))) in
  let req := mkToolRequest (rID req) (rAgentID req) (TeamID config) (rTool req) (rAction req)
    (rParameters req) (rPermissionToken req) (rTier req) (rSkillSandboxConfig req) in
  if bool_decide (rAction req = EmptyString) then
    match wrRegistry wr with
    | None => (req, false)
    | Some tools =>
      match RegistryGet tools (rTool req) with
      | Some tool => match dActions (Declaration tool) with
                     | a :: _ => (with_action req (aName a), true)
                     | [] => (req, true)
                     end
      | None => (req, true)
      end
    end
  else (req, true).

Definition is_destructive (req : ToolRequest) : bool :=
  match wrRegistry wr with
  | Some tools =>
    match RegistryGet tools (rTool req) with
    | Some tool => match GetAction (Declaration tool) (rAction req) with
                   | Some a => aDestructive a
                   | None => false
                   end
    | None => false
    end
  | None => false
  end.

(** Security's verdict on a call: the reason of a block. *)
Definition validate_call (req : ToolRequest) : M (W := W) (option string) :=
  if wrDefense wr then
    do! vr := defence (ValidateToolCall fmt_float secCfg (ID config) req) in
    let blocked := match vr with Some v => if Blocked v then Some (BlockReason v) else None | None => None end in
    run! say (EvValidate req blocked) in ret blocked
  else ret None.

(** One call: the message appended to the conversation. *)
Definition run_tool (tc : ToolUse) : M (W := W) ChatMessage :=
  do! id := service sv_fresh_id in
  let '(req, resolvable) := request_of id tc in
  if negb resolvable then
    ret (refusal (tuID tc) (rID req)
           ("tool registry unavailable, cannot resolve action for " +:+ go_quote (rTool req)))
  else
    do! blocked := validate_call req in
    match blocked with
    | Some reason => ret (refusal (tuID tc) (rID req) ("blocked by security policy: " +:+ reason))
    | None =>
      run! say (EvExecute req) in
      do! r := service (sv_execute req) in
      let resp := match r with
                  | inl resp => resp
                  | inr e => mkToolResponse (rID req) false ANil e 0 EmptyString
                  end in
      run! trip_check (wrBreaker wr)
        (sv_breaker_tool (rTool req) (rAction req) (respSuccess resp) (is_destructive req)) in
      let result := ConvertToModelResult (Marshal fmt_float) (tuID tc) (Some resp) in
      do! result := (if wrDefense wr
                     then defence (ProcessToolResult secCfg (ID config) (Name config) (tuName tc) result)
                     else ret result) in
      do! fb := (if wrFeedback wr && respSuccess resp && lpFeedback settings
                 then service (sv_feedback req) else ret EmptyString) in
      let content := Content result +:+ fb in
      run! append_history (mkHistoryEntry "tool" content EmptyString (tuID tc) EmptyString) in
      ret (tool_message (tuID tc) content)
    end.

Fixpoint run_tools (calls : list ToolUse) : M (W := W) (list ChatMessage) :=
  match calls with
  | [] => ret []
  | tc :: calls' =>
    do! m := run_tool tc in
    do! ms := run_tools calls' in
    ret (m :: ms)
  end.

(** ** Rounds *)

Definition nl2 : string := nl +:+ nl.

Definition over_budget (resp : CompletionResponse) : CompletionResponse :=
  mkCompletionResponse
    (rsContent resp +:+ nl2 +:+ "[Budget exceeded: tool results from [" +:+
     join " " (map tuName (rsToolCalls resp)) +:+
     "] were obtained but not incorporated into the response.]")
    (rsToolCalls resp) (rsStopReason resp) (rsTokensIn resp) (rsTokensOut resp) (rsCost resp)
    (rsModel resp) true.

(** What is fixed for all rounds of one message. *)
Record Round := mkRound {
  rdnProvider : string;
  rdnModel : string;
  rdnSlot : string;
  rdnRoutedBy : string;
  rdnTools : list ModelToolDefinition;
  rdnToolTokens : Z;
  rdnWebui : bool;
}.

Definition message_ceiling : Z :=
  if lpMaxTotalTokens settings <=? 0 then 32000 else lpMaxTotalTokens settings.

Definition fit_messages (rd : Round) (messages : list ChatMessage) : list ChatMessage :=
  let total := total_estimate messages + rdnToolTokens rd in
  if message_ceiling <? total then trimOldestToolMessages messages (total - message_ceiling) else messages.

(** The outcome of the rounds: a final answer, or the last one when they ran out. *)
Record LoopResult := mkLoopResult {
  lrFinal : option CompletionResponse;
  lrLast : option CompletionResponse;
  lrStreamed : bool;
}.

Fixpoint rounds (rd : Round) (n : nat) (first : bool) (messages : list ChatMessage)
    (last : option CompletionResponse) (streamed : bool) : M (W := W) LoopResult :=
  match n with
  | O => ret (mkLoopResult None last streamed)
  | S n' =>
    let messages := if first then messages else fit_messages rd messages in
    let req := mkCompletionRequest (rdnModel rd) messages 0 (rdnTools rd) in
    let canStream := wrStreamer wr && rdnWebui rd && bool_decide (length (rdnTools rd) = 0%nat)
                     && negb (wrDefense wr) in
    do! answer := call_model (rdnProvider rd) req canStream in
    let '(resp, s) := answer in
    let streamed := streamed || s in
    let resp := if no_calls resp then with_content resp (stripDSMLMarkup (rsContent resp)) else resp in
    run! account (rdnProvider rd) (rdnModel rd) (rdnSlot rd) (rdnRoutedBy rd) resp in
    if no_calls resp || negb (wrExecutor wr) then ret (mkLoopResult (Some resp) (Some resp) streamed)
    else
      let assistant := mkChatMessage "assistant" (rsContent resp) [] (rsToolCalls resp) EmptyString in
      run! append_history (mkHistoryEntry "assistant" (rsContent resp) (Name config) EmptyString
                            (MarshalCalls (rsToolCalls resp))) in
      do! results := run_tools (rsToolCalls resp) in
      do! budget := check_budget in
      match budget with
      | inr _ => fail (LoopPanic "invalid memory address or nil pointer dereference")
      | inl false => ret (mkLoopResult (Some (over_budget resp)) (Some resp) streamed)
      | inl true => rounds rd n' false (messages ++ assistant :: results) (Some resp) streamed
      end
  end.

(** ** Before the rounds *)

(** Assembly, with synchronous compression and one more assembly if it is too large. *)
Definition assemble_context (content : string) : M (W := W) Assembled :=
  do! r := consult (sv_assemble content) in
  match r with
  | inr e => fail (AssembleFailed e)
  | inl a =>
    if wrCompressor wr && (0 <? lpMaxTotalTokens settings)
       && (lpMaxTotalTokens settings <? asTokenEstimate a) && lpCompression settings then
      do! c := consult sv_compress in
      match c with
      | inr _ => ret a
      | inl _ =>
        do! r := consult (sv_assemble content) in
        match r with
        | inr e => fail (AssembleFailed e)
        | inl a => ret a
        end
      end
    else ret a
  end.

(** The tools the agent may use, and those the model is shown. *)
Definition agent_tools : list ModelToolDefinition :=
  match wrRegistry wr with
  | None => []
  | Some tools => GetToolDefinitionsForModel tools (ResolveAgentTier (Template config)) (ToolGrants config)
  end.

Definition shown_tools : list ModelToolDefinition :=
  List.filter (fun d => match isTeamToolVisible (wrTeam wr) (ID config) (SplitToolAction (mName d)).1 with
                        | inl visible => visible
                        | inr _ => false
                        end) agent_tools.

Definition tool_token_estimate : Z :=
  foldr (fun d n => 50 + EstimateTokens (mDescription d) +
    (match Marshal fmt_float (AMap (mParameters d)) with inl t => EstimateTokens t | inr _ => 0 end) + n)
    0 agent_tools.

(** The user's message as the model sees it. *)
Definition stamped (msg : ChatIn) : string :=
  if lpTimestampMessages settings && bool_decide (inRole msg = "user")
  then "<msg-timestamp time=" +:+ quoted (timestamp msg) +:+ " />" +:+ nl +:+ inContent msg
  else inContent msg.

(** The canary in the system prompt. *)
Definition prepare_prompt (prompt : string) : M (W := W) (string * option CanaryToken) :=
  if wrDefense wr then
    do! bytes := service sv_random in ret (PrepareSystemPrompt bytes secCfg (ID config) prompt)
  else ret (prompt, None).

(** The slot of this message, and its content without a routing prefix. *)
Definition route_message (msg : ChatIn) (content : string) : M (W := W) (Round * string) :=
  let round provider model slot by_ :=
    mkRound provider model slot by_ shown_tools tool_token_estimate (bool_decide (inChannel msg = "webui")) in
  if wrRouter wr then
    do! r := consult (sv_route msg) in
    match r with
    | inr e => fail (RouteFailed e)
    | inl d =>
      let cost := rdClassifierCost d in
      let opts := mkRecordOptions (ciModel cost) (ciSlotName cost) "system:classifier" (ciProvider cost)
        EmptyString "provider_reported" "provider_usage" false EmptyString EmptyString in
      run! when (f64_lt f64_zero (ciCost cost))
        (run! say (EvRecord (ciTokensIn cost) (ciTokensOut cost) (ciCost cost) opts) in
         service (fun w => (tt, sv_record (ciTokensIn cost) (ciTokensOut cost) (ciCost cost) opts w))) in
      run! when (negb (bool_decide (rdRoutedBy d = "default"))) (say (EvAudit "model_routed" (rdDetails d))) in
      ret (round (rdProvider d) (slModel (rdSlot d)) (slName (rdSlot d)) (rdRoutedBy d),
           if bool_decide (rdRoutedBy d = "prefix") && negb (bool_decide (rdMessage d = inContent msg))
           then rdMessage d else content)
    end
  else ret (round runnerProvider (Model (ModelConf config)) "default" "default", content).

(** ** After the rounds *)

(** The final answer; the last one, with a note, when the rounds ran out. *)
Definition final_response (maxIterations : Z) (r : LoopResult) : result LoopError CompletionResponse :=
  match lrFinal r with
  | Some resp => Ok resp
  | None =>
    match lrLast r with
    | None => Err NoModelResponse
    | Some resp =>
      if no_calls resp then Ok resp
      else
        let limitNote := nl2 +:+ "[Tool loop paused after " +:+ pretty maxIterations +:+
          " iterations to prevent runaway execution. Re-send your last message or ask to continue to finish remaining steps.]" in
        Ok (with_content resp
          (if bool_decide (trim_space (rsContent resp) = EmptyString)
           then "I reached the tool-iteration safety limit before producing a final response." +:+ limitNote
           else rsContent resp +:+ limitNote))
    end
  end.

Definition DefaultHistoryLimit : Z := 50.
Definition DefaultExtractionInterval : Z := 15.

Definition save_answer (content : string) : M (W := W) unit :=
  if wrHistory wr then
    run! say (EvHistory (mkHistoryEntry "assistant" content (Name config) EmptyString EmptyString)) in
    if lpCompression settings then ret tt
    else
      let limit := if lpHistoryLimit settings <=? 0 then DefaultHistoryLimit else lpHistoryLimit settings in
      do! count := service sv_history_count in
      match count with
      | Some n => when (limit * 2 <? n) (say (EvTrim limit))
      | None => ret tt
      end
  else ret tt.

Definition extract_memories : M (W := W) unit :=
  if lpAutoExtract settings then
    let interval := if lpExtractInterval settings =? 0 then DefaultExtractionInterval
                    else lpExtractInterval settings in
    do! n := count_message in
    when (Z.rem n interval =? 0) (say EvExtraction)
  else ret tt.

(** [deliverProgressiveChunks] *)
Definition deliverProgressiveChunks (content : string) (resp : CompletionResponse) : M (W := W) unit :=
  say_all (map (fun c => EvStream (SEChunk c)) (splitIntoChunks content 40) ++
           [EvStream (SEDone (rsTokensIn resp) (rsTokensOut resp))]).

Definition deliver (msg : ChatIn) (canary : option CanaryToken) (resp : CompletionResponse)
    (streamed : bool) : M (W := W) unit :=
  do! content := (if wrDefense wr
                  then defence (ValidateResponse secCfg (ID config) canary (rsContent resp))
                  else ret (rsContent resp)) in
  run! when (wrStreamer wr && bool_decide (inChannel msg = "webui")
             && negb (bool_decide (inConversationID msg = EmptyString))
             && negb (streamed && bool_decide (content = rsContent resp)))
    (deliverProgressiveChunks content resp) in
  say (EvOut (mkChatIn (inChannel msg) (inConversationID msg) (inSender msg) "assistant" content [])).

(** [handleMessage] *)
Definition handleMessage (msg : ChatIn) : M (W := W) unit :=
  do! budget := check_budget in
  match budget with
  | inr e => fail (BudgetCheckFailed e)
  | inl false => fail BudgetExceeded
  | inl true =>
    do! assembled := assemble_context (inContent msg) in
    do! prepared := prepare_prompt (asSystemPrompt assembled) in
    let '(systemPrompt, canary) := prepared in
    do! routed := route_message msg (stamped msg) in
    let '(round, content) := routed in
    let messages := plain_message "system" systemPrompt :: asMessages assembled ++
      [mkChatMessage (inRole msg) content (inAttachments msg) [] EmptyString] in
    run! append_history (mkHistoryEntry (inRole msg) (inContent msg) EmptyString EmptyString EmptyString) in
    let maxIterations := configuredMaxToolIterations (wrMaxIterations wr) in
    do! result := rounds round (Z.to_nat maxIterations) true messages None false in
    match final_response maxIterations result with
    | inr e => fail e
    | inl resp =>
      run! save_answer (rsContent resp) in
      run! extract_memories in
      run! when (wrCompressor wr && lpCompression settings) (say EvCompression) in
      deliver msg canary resp (lrStreamed result)
    end
  end.
End loop.

(** * Monitors

    A monitor reads the events a program appends to the trace and can reject one.
    [watched s m Q]: from monitor state [s], the events of [m] are accepted and lead
    to a state that is as [Q] says. *)

Section monitors.
Context {W S : Type} (step : S -> LoopEvent -> option S).

Definition watch (s : S) (evs : list LoopEvent) : option S :=
  foldl (fun acc e => acc ≫= fun s => step s e) (Some s) evs.

Lemma watch_rejected (l : list LoopEvent) :
  foldl (fun acc e => acc ≫= fun s : S => step s e) None l = None.
Proof. induction l as [|e l IH]; [done|exact IH]. Qed.

Lemma watch_cons (s : S) (e : LoopEvent) (l : list LoopEvent) :
  watch s (e :: l) = step s e ≫= fun s' => watch s' l.
Proof.
  unfold watch. cbn [foldl]. change (Some s ≫= fun s => step s e) with (step s e).
  destruct (step s e); [done|apply watch_rejected].
Qed.

Lemma watch_app (s : S) (l1 l2 : list LoopEvent) :
  watch s (l1 ++ l2) = watch s l1 ≫= fun s' => watch s' l2.
Proof.
  unfold watch. rewrite foldl_app. destruct (foldl _ (Some s) l1) as [s'|]; [done|].
  apply watch_rejected.
Qed.

Definition watched {A} (s : S) (m : M (W := W) A) (Q : result LoopError A -> S -> Prop) : Prop :=
  forall st r st', m st = (r, st') ->
    exists evs s', lsTrace st' = lsTrace st ++ evs /\ watch s evs = Some s' /\ Q r s'.

Lemma watched_ret {A} (s : S) (a : A) (Q : result LoopError A -> S -> Prop) :
  Q (inl a) s -> watched s (ret a) Q.
Proof. intros HQ st r st' [= <- <-]. exists [], s. by rewrite app_nil_r. Qed.

Lemma watched_fail {A} (s : S) (e : LoopError) (Q : result LoopError A -> S -> Prop) :
  Q (inr e) s -> watched s (fail e) Q.
Proof. intros HQ st r st' [= <- <-]. exists [], s. by rewrite app_nil_r. Qed.

Lemma watched_bind {A B} (s : S) (m : M A) (k : A -> M B) (Q : result LoopError B -> S -> Prop) :
  watched s m (fun r s' => match r with inl a => watched s' (k a) Q | inr e => Q (inr e) s' end) ->
  watched s (bind m k) Q.
Proof.
  intros Hm st r st'. unfold bind. destruct (m st) as [[a|e] st1] eqn:E.
  - destruct (Hm _ _ _ E) as (evs & s' & Ht & Hw & Hk). intros Hr.
    destruct (Hk _ _ _ Hr) as (evs' & s'' & Ht' & Hw' & HQ). exists (evs ++ evs'), s''.
    rewrite Ht', Ht, app_assoc, watch_app, Hw. done.
  - intros [= <- <-]. by destruct (Hm _ _ _ E) as (evs & s' & Ht & Hw & HQ); exists evs, s'.
Qed.

Lemma watched_say (s s' : S) (e : LoopEvent) (Q : result LoopError unit -> S -> Prop) :
  step s e = Some s' -> Q (inl tt) s' -> watched s (say e) Q.
Proof. intros Hs HQ st r st' [= <- <-]. exists [e], s'. by simpl. Qed.

Lemma watched_service {A} (s : S) (f : W -> A * W) (Q : result LoopError A -> S -> Prop) :
  (forall a, Q (inl a) s) -> watched s (service f) Q.
Proof.
  intros HQ st r st'. unfold service. destruct (f (lsWorld st)) as [a w]. intros [= <- <-].
  exists [], s. rewrite app_nil_r. split_and!; [done|done|apply HQ].
Qed.

Lemma watched_defence {A} (s : S) (f : SecurityLog -> A * SecurityLog) (Q : result LoopError A -> S -> Prop) :
  (forall a, Q (inl a) s) -> watched s (defence f) Q.
Proof.
  intros HQ st r st'. unfold defence. destruct (f (lsSecurity st)) as [a w]. intros [= <- <-].
  exists [], s. rewrite app_nil_r. split_and!; [done|done|apply HQ].
Qed.

Lemma watched_count (s : S) (Q : result LoopError Z -> S -> Prop) :
  (forall n, Q (inl n) s) -> watched s count_message Q.
Proof. intros HQ st r st' [= <- <-]. exists [], s. rewrite app_nil_r. split_and!; [done|done|apply HQ]. Qed.

Lemma watched_mono {A} (s : S) (m : M A) (Q Q' : result LoopError A -> S -> Prop) :
  watched s m Q -> (forall r s', Q r s' -> Q' r s') -> watched s m Q'.
Proof. intros Hm HQ st r st' E. destruct (Hm _ _ _ E) as (evs & s' & ? & ? & ?). exists evs, s'. auto. Qed.

Lemma watched_when (s : S) (b : bool) (m : M unit) (Q : result LoopError unit -> S -> Prop) :
  (b = true -> watched s m Q) -> (b = false -> Q (inl tt) s) -> watched s (when b m) Q.
Proof. destruct b; intros H1 H2; [by apply H1|by apply watched_ret, H2]. Qed.
End monitors.

(** The steps of a program one by one. *)
Ltac watch_step :=
  first
  [ apply watched_bind
  | apply watched_ret
  | apply watched_fail
  | apply watched_service; intros ?
  | apply watched_defence; intros ?
  | apply watched_count; intros ?
  | apply watched_when; intros ?
  | eapply watched_say; [reflexivity|] ].

Ltac watch_all := repeat (watch_step; simpl; try done).

(** Events that the monitors below ignore. *)
Definition side_event (e : LoopEvent) : bool :=
  match e with
  | EvStream _ | EvRecord _ _ _ _ | EvHistory _ | EvTrim _ | EvExtraction | EvCompression | EvAudit _ _ => true
  | _ => false
  end.

Definition tool_event (e : LoopEvent) : bool :=
  match e with
  | EvValidate _ _ | EvExecute _ => true
  | _ => side_event e
  end.

(** ** Programs that only emit ignored events *)

Section frames.
Context {W : Type} `{Services W}.
Context (fmt_float : float64 -> result string string).
Context (UnmarshalSecurity : string -> SecurityConfig -> SecurityConfig).
Context (MarshalCalls : list ToolUse -> string) (timestamp : ChatIn -> string).
Context (wr : Wiring) (config : AgentConfig) (settings : LoopSettings) (runnerProvider : string).
Context {S : Type} (step : S -> LoopEvent -> option S).
Context (Hside : forall s e, side_event e = true -> step s e = Some s).

Definition idle {A} (m : M (W := W) A) : Prop := forall s, watched step s m (fun _ s' => s' = s).

Lemma idle_say (e : LoopEvent) : side_event e = true -> idle (say e).
Proof. intros He s. by eapply watched_say; [apply Hside|]. Qed.

Lemma idle_bind {A B} (m : M A) (k : A -> M B) : idle m -> (forall a, idle (k a)) -> idle (bind m k).
Proof.
  intros Hm Hk s. apply watched_bind. eapply watched_mono; [apply Hm|]. intros [a|e] s' ->; [apply Hk|done].
Qed.

(** An ignored program in front of another. *)
Lemma watched_after_idle {A B} (s : S) (m : M A) (k : A -> M B) (Q : result LoopError B -> S -> Prop) :
  idle m -> (forall e, Q (inr e) s) -> (forall a, watched step s (k a) Q) -> watched step s (bind m k) Q.
Proof.
  intros Hm He Hk. apply watched_bind. eapply watched_mono; [apply Hm|]. intros [a|e] s' ->; auto.
Qed.

Lemma idle_ret {A} (a : A) : idle (ret a).
Proof. intros s. by apply watched_ret. Qed.

Lemma idle_fail {A} (e : LoopError) : idle (A := A) (fail e).
Proof. intros s. by apply watched_fail. Qed.

Lemma idle_service {A} (f : W -> A * W) : idle (service f).
Proof. intros s. by apply watched_service. Qed.

Lemma idle_defence {A} (f : SecurityLog -> A * SecurityLog) : idle (defence f).
Proof. intros s. by apply watched_defence. Qed.

Lemma idle_count : idle count_message.
Proof. intros s. by apply watched_count. Qed.

Lemma idle_when (b : bool) (m : M unit) : idle m -> idle (when b m).
Proof. destruct b; [done|]. intros _. apply idle_ret. Qed.

Create HintDb idle discriminated.
#[local] Hint Resolve idle_say idle_bind idle_ret idle_fail idle_service idle_defence idle_count
  idle_when : idle.
#[local] Hint Extern 1 (side_event _ = true) => reflexivity : idle.
#[local] Hint Extern 5 (idle (if ?b then _ else _)) => destruct b : idle.
#[local] Hint Extern 5 (idle (match ?x with _ => _ end)) => destruct x : idle.

Ltac idles := repeat (first [apply idle_bind; [|intros ?]|apply idle_when|break|progress eauto 3 with idle]).

Lemma idle_trip_check (wired : bool) (check : W -> option string * W) : idle (trip_check wired check).
Proof. unfold trip_check. idles. Qed.

Lemma idle_append_history (e : HistoryEntry) : idle (append_history wr e).
Proof. unfold append_history. idles. Qed.

Lemma idle_account provider modelName slotName routedBy resp :
  idle (account wr provider modelName slotName routedBy resp).
Proof. unfold account. idles; apply idle_trip_check. Qed.

Lemma idle_prepare (prompt : string) : idle (prepare_prompt UnmarshalSecurity wr config prompt).
Proof. unfold prepare_prompt. idles. Qed.

Lemma idle_save (content : string) : idle (save_answer wr config settings content).
Proof. unfold save_answer. idles. Qed.

Lemma idle_extract : idle (extract_memories settings).
Proof. unfold extract_memories. idles. Qed.

Lemma idle_chunks (content : string) (resp : CompletionResponse) :
  idle (deliverProgressiveChunks content resp).
Proof.
  unfold deliverProgressiveChunks.
  assert (forall l, Forall (fun e => side_event e = true) l -> idle (say_all l)) as Hs.
  { induction 1 as [|e l He Hl IH]; cbn [say_all]; idles. }
  apply Hs, Forall_app. split; [|by repeat constructor].
  apply Forall_forall. by intros e (c & -> & _)%list_elem_of_fmap.
Qed.

Lemma idle_consume (items : list StreamItem) (content : string) : idle (consume_stream items content).
Proof.
  revert content. induction items as [|i items IH]; intros content; cbn [consume_stream]; [idles|].
  destruct i; idles; apply IH.
Qed.

(** Tool calls, for a monitor that ignores them as well. *)
Lemma idle_run_tools (calls : list ToolUse) :
  (forall s e, tool_event e = true -> step s e = Some s) ->
  idle (run_tools fmt_float UnmarshalSecurity wr config settings calls).
Proof.
  intros Htool. assert (forall e, tool_event e = true -> idle (say e)) as Hsay.
  { intros e He s. by eapply watched_say; [apply Htool|]. }
  assert (forall tc, idle (run_tool fmt_float UnmarshalSecurity wr config settings tc)) as Hrun.
  { intros tc. unfold run_tool, validate_call. idles; try (by apply Hsay);
      auto using idle_trip_check, idle_append_history. }
  induction calls as [|tc calls IH]; cbn [run_tools]; [apply idle_ret|].
  apply idle_bind; [apply Hrun|]. intros m. apply idle_bind; [apply IH|]. intros ms. apply idle_ret.
Qed.

(** The requests of services, for a monitor that ignores them. *)
Section helpers.
Context (Hhelper : forall s provider req, step s (EvHelper provider req) = Some s).

Lemma idle_consult {A} (f : W -> (A * ModelCalls) * W) : idle (consult f).
Proof.
  unfold consult. apply idle_bind; [apply idle_service|intros x]. apply idle_bind; [|intros; apply idle_ret].
  induction x.2 as [|c l IH]; cbn [map say_all]; [apply idle_ret|].
  apply idle_bind; [|intros; exact IH]. intros s. by eapply watched_say; [apply Hhelper|].
Qed.

#[local] Hint Resolve idle_consult : idle.
#[local] Opaque consult.

Lemma idle_assemble (content : string) : idle (assemble_context wr settings content).
Proof. unfold assemble_context. idles. Qed.

Lemma idle_route (msg : ChatIn) (content : string) :
  idle (route_message fmt_float wr config runnerProvider msg content).
Proof. unfold route_message. idles. Qed.
End helpers.

(** Model calls, for a monitor that ignores them. *)
Section calls.
Context (Hcall : forall s provider req, step s (EvModel provider req) = Some s).

Lemma idle_complete provider req : idle (complete provider req).
Proof. unfold complete. apply idle_bind; [intros s; by eapply watched_say; [apply Hcall|]|intros; apply idle_service]. Qed.

Lemma idle_call_model provider req canStream : idle (call_model provider req canStream).
Proof.
  assert (idle (complete_or_retry provider req)) as Hr.
  { unfold complete_or_retry. apply idle_bind; [apply idle_complete|]. intros [resp|e]; [apply idle_ret|].
    destruct (_ && _); [|apply idle_fail]. apply idle_bind; [apply idle_complete|].
    intros [resp|e']; [apply idle_ret|apply idle_fail]. }
  unfold call_model. apply idle_bind.
  - destruct canStream; [|apply idle_ret]. unfold streamModelCall.
    apply idle_bind; [intros s; by eapply watched_say; [apply Hcall|]|intros _]. apply idle_bind; [apply idle_service|].
    intros [items|e]; [apply idle_consume|apply idle_ret].
  - intros [resp|e]; [apply idle_ret|]. apply idle_bind; [apply Hr|intros; apply idle_ret].
Qed.

(** A round up to its tool calls, and the rounds, given what tool calls do. *)
Lemma watched_rounds (P : S -> Prop) rd n first messages last streamed (s : S) :
  (forall s, P s -> watched step s check_budget (fun _ s' => P s')) ->
  (forall calls s, P s -> watched step s
    (run_tools fmt_float UnmarshalSecurity wr config settings calls) (fun _ s' => P s')) ->
  P s ->
  watched step s
    (rounds fmt_float UnmarshalSecurity MarshalCalls wr config settings rd n first messages last streamed)
    (fun _ s' => P s').
Proof.
  intros Hcheck Htools. revert first messages last streamed s.
  induction n as [|n IH]; intros first messages last streamed s HP; cbn [rounds]; [by apply watched_ret|].
  apply watched_after_idle; [apply idle_call_model|done|intros [resp str]].
  apply watched_after_idle; [apply idle_account|done|intros []].
  destruct (_ || _); [by apply watched_ret|].
  apply watched_after_idle; [apply idle_append_history|done|intros []].
  apply watched_bind. eapply watched_mono; [by apply Htools|]. intros [results|e] s' HP'; [|done].
  apply watched_bind. eapply watched_mono; [by apply Hcheck|].
  intros [[[]|e]|e] s'' HP''; [by apply IH|by apply watched_ret|by apply watched_fail|done].
Qed.

(** The whole handling, up to the delivery. *)
Lemma watched_handle (P : S -> Prop) (Q : result LoopError unit -> S -> Prop) msg (s : S) :
  (forall s provider req, step s (EvHelper provider req) = Some s) ->
  (forall s, P s -> watched step s check_budget (fun _ s' => P s')) ->
  (forall calls s, P s -> watched step s
    (run_tools fmt_float UnmarshalSecurity wr config settings calls) (fun _ s' => P s')) ->
  P s -> (forall e s', P s' -> Q (inr e) s') ->
  (forall canary resp streamed s', P s' ->
    watched (W := W) step s' (deliver UnmarshalSecurity wr config msg canary resp streamed) Q) ->
  watched step s
    (handleMessage fmt_float UnmarshalSecurity MarshalCalls timestamp wr config settings runnerProvider msg) Q.
Proof.
  intros Hhelper Hcheck Htools HP He Hd. unfold handleMessage.
  apply watched_bind. eapply watched_mono; [by apply Hcheck|]. clear s HP.
  intros [[[]|e]|e] s HP; [|by apply watched_fail, He|by apply watched_fail, He|by apply He].
  apply watched_after_idle; [by apply idle_assemble|by auto|intros assembled].
  apply watched_after_idle; [apply idle_prepare|by auto|intros [prompt canary]].
  apply watched_after_idle; [by apply idle_route|by auto|intros [round content]].
  apply watched_after_idle; [apply idle_append_history|by auto|intros _].
  apply watched_bind. eapply watched_mono; [by apply (watched_rounds P)|].
  intros [outcome|e] s' HP'; [|by apply He].
  destruct (final_response _ outcome) as [resp|]; [|by apply watched_fail, He].
  apply watched_after_idle; [apply idle_save|by auto|intros _].
  apply watched_after_idle; [apply idle_extract|by auto|intros _].
  apply watched_after_idle; [by apply idle_when, idle_say|by auto|intros _]. by apply Hd.
Qed.
End calls.
End frames.

(** * Model calls *)

(** Model calls on credit: a passed budget check gives two, a failed one none; [total]
    counts the calls. *)
Record Credit := mkCredit { crLeft : nat; crTotal : nat; crChecks : nat }.

Definition credit_step (c : Credit) (e : LoopEvent) : option Credit :=
  match e with
  | EvBudget (inl true) => Some (mkCredit 2 (crTotal c) (S (crChecks c)))
  | EvBudget _ => Some (mkCredit 0 (crTotal c) (crChecks c))
  | EvModel _ _ =>
    match crLeft c with
    | O => None
    | S n => Some (mkCredit n (S (crTotal c)) (crChecks c))
    end
  | _ => Some c
  end.

Lemma credit_tool (c : Credit) (e : LoopEvent) : tool_event e = true -> credit_step c e = Some c.
Proof. by destruct e as [[[]|]| | | | | | | | | | | |]. Qed.

(** The last budget check of a trace. *)
Definition last_check (evs : list LoopEvent) : option (result string bool) :=
  foldl (fun acc e => match e with EvBudget r => Some r | _ => acc end) None evs.

Definition is_model_call (e : LoopEvent) : bool :=
  match e with EvModel _ _ => true | _ => false end.

Lemma last_check_snoc (evs : list LoopEvent) (e : LoopEvent) :
  last_check (evs ++ [e]) = match e with EvBudget r => Some r | _ => last_check evs end.
Proof. unfold last_check. rewrite foldl_app. by destruct e. Qed.

Lemma credit_watch (evs : list LoopEvent) (c : Credit) :
  watch credit_step (mkCredit 0 0 0) evs = Some c ->
  crTotal c = length (List.filter is_model_call evs) /\
  (crLeft c <> 0%nat -> last_check evs = Some (inl true)).
Proof.
  revert c. induction evs as [|e evs IH] using rev_ind; intros c; [by intros [= <-]|].
  rewrite watch_app. destruct (watch credit_step _ evs) as [c1|]; [|done].
  destruct (IH c1 eq_refl) as [IH1 IH2].
  rewrite last_check_snoc, List.filter_app, length_app.
  change (Some c1 ≫= fun s' => watch credit_step s' [e]) with (credit_step c1 e).
  destruct e as [[[]|]| | | | | | | | | | | |]; simpl; try (intros [= <-]; simpl; rewrite Nat.add_0_r; by auto).
  destruct (crLeft c1); [done|]. intros [= <-]. simpl. split; [lia|]. intros _. by apply IH2.
Qed.

Lemma credit_side (c : Credit) (e : LoopEvent) : side_event e = true -> credit_step c e = Some c.
Proof. by destruct e as [[[]|]| | | | | | | | | | | |]. Qed.

Section credit.
Context {W : Type} `{Services W}.
Context (fmt_float : float64 -> result string string).
Context (UnmarshalSecurity : string -> SecurityConfig -> SecurityConfig).
Context (MarshalCalls : list ToolUse -> string) (timestamp : ChatIn -> string).
Context (wr : Wiring) (config : AgentConfig) (settings : LoopSettings) (runnerProvider : string).

(** The calls made so far are at most two for each check passed but the current one. *)
Definition spent_before (c : Credit) : Prop := (crTotal c + 2 <= 2 * crChecks c)%nat.
Definition spent (c : Credit) : Prop := (crTotal c <= 2 * crChecks c)%nat.

Lemma complete_credit provider req left total checks :
  watched (W := W) credit_step (mkCredit (S left) total checks) (complete provider req)
    (fun _ c' => c' = mkCredit left (S total) checks).
Proof. unfold complete. watch_all. Qed.

Lemma complete_or_retry_credit provider req left total checks :
  (left = 0%nat -> crTools req = []) ->
  watched (W := W) credit_step (mkCredit (S left) total checks) (complete_or_retry provider req)
    (fun _ c' => (crTotal c' + crLeft c' = S left + total)%nat /\ crChecks c' = checks).
Proof.
  intros Htools. unfold complete_or_retry. apply watched_bind.
  eapply watched_mono; [apply complete_credit|]. intros [[resp|e]|e] s' ->;
    [apply watched_ret; simpl; lia| |simpl; lia].
  destruct left as [|left].
  { rewrite (Htools eq_refl), andb_false_r. apply watched_fail. simpl. lia. }
  destruct (_ && _); [|apply watched_fail; simpl; lia].
  apply watched_bind. eapply watched_mono; [apply complete_credit|]. intros [[resp|e']|e'] s' ->;
    [apply watched_ret|apply watched_fail|]; simpl; lia.
Qed.

Lemma call_model_credit provider req canStream (c : Credit) :
  (canStream = true -> crTools req = []) -> crLeft c = 2%nat -> spent_before c ->
  watched credit_step c (call_model provider req canStream)
    (fun _ c' => spent c' /\ crChecks c' = crChecks c).
Proof.
  intros Htools Hl Hs. destruct c as [left total checks]. unfold spent, spent_before in *. simpl in *. subst left.
  assert (forall left total, (left = 0%nat -> crTools req = []) -> (S left + total <= 2 * checks)%nat ->
    watched (W := W) credit_step (mkCredit (S left) total checks)
      (bind (complete_or_retry provider req) (fun resp => ret (resp, false)))
      (fun _ c' => (crTotal c' <= 2 * crChecks c')%nat /\ crChecks c' = checks)) as Hc.
  { intros left t Ht Hle. apply watched_bind.
    eapply watched_mono; [by apply complete_or_retry_credit|].
    intros [resp|e] c'; [intros; apply watched_ret|]; lia. }
  unfold call_model. apply watched_bind. destruct canStream; [|apply watched_ret, Hc; [done|lia]].
  apply (watched_mono _ _ _ (fun _ c' => c' = mkCredit 1 (S total) checks)).
  - unfold streamModelCall. watch_step. eapply watched_say; [reflexivity|]. watch_step. watch_step.
    destruct a; [apply idle_consume, credit_side|by apply watched_ret].
  - intros [[resp|e]|e] c' ->; [apply watched_ret; simpl; lia|apply Hc; [auto|lia]|simpl; lia].
Qed.

Lemma check_budget_credit (c : Credit) :
  watched (W := W) credit_step c check_budget
    (fun r c' => exists b, r = inl b /\ crTotal c' = crTotal c /\
       match b with
       | inl true => crLeft c' = 2%nat /\ crChecks c' = S (crChecks c)
       | _ => crLeft c' = 0%nat /\ crChecks c' = crChecks c
       end).
Proof.
  unfold check_budget. watch_step. watch_step. watch_step.
  destruct a as [[]|]; (eapply watched_say; [reflexivity|]); apply watched_ret; by eexists.
Qed.

(** [n] rounds that begin on fresh credit pass at most [n - 1] more checks in need of
    calls. *)
Lemma rounds_credit rd n first messages last streamed (c : Credit) :
  (0 < n)%nat -> crLeft c = 2%nat -> spent_before c ->
  watched credit_step c
    (rounds fmt_float UnmarshalSecurity MarshalCalls wr config settings rd n first messages last streamed)
    (fun _ c' => (crTotal c' + 2 <= 2 * (crChecks c + n))%nat).
Proof.
  revert first messages last streamed c.
  induction n as [|n IH]; intros first messages last streamed c Hn Hl Hs; [lia|].
  cbn [rounds]. apply watched_bind. eapply watched_mono; [apply call_model_credit; [|done..]|].
  { intros Hc. to_prop. cbn [crTools]. by destruct (rdnTools rd). }
  unfold spent, spent_before in *. intros [[resp s]|e] c' [Hs' Hc']; [|lia].
  apply watched_bind. eapply watched_mono; [apply idle_account, credit_side|].
  intros [[]|e] c'' ->; [|lia]. destruct (_ || _); [apply watched_ret; lia|].
  apply watched_bind. eapply watched_mono; [apply idle_append_history, credit_side|].
  intros [[]|e] c'' ->; [|lia].
  apply watched_bind. eapply watched_mono; [apply idle_run_tools, credit_tool|].
  intros [results|e] c'' ->; [|lia].
  apply watched_bind. eapply watched_mono; [apply check_budget_credit|].
  intros r c2 (b & -> & Ht & Hb). destruct b as [[]|]; [|apply watched_ret; lia|apply watched_fail; lia].
  destruct Hb as [Hb1 Hb2]. destruct n as [|n].
  { cbn [rounds]. apply watched_ret. lia. }
  eapply watched_mono; [apply IH; [lia|done|unfold spent_before; lia]|]. simpl. lia.
Qed.

(** A program that emits ignored events and answers, for any monitor. *)
Lemma deliver_credit msg canary resp streamed (c : Credit) :
  watched (W := W) credit_step c (deliver UnmarshalSecurity wr config msg canary resp streamed) (fun _ c' => c' = c).
Proof.
  unfold deliver. apply watched_bind. destruct (wrDefense wr);
    [apply watched_defence; intros content|apply watched_ret];
    (apply watched_bind; eapply watched_mono; [apply idle_when, idle_chunks, credit_side|];
     intros [[]|e] c' ->; [by eapply watched_say|done]).
Qed.

Lemma handleMessage_credit (msg : ChatIn) :
  watched credit_step (mkCredit 0 0 0)
    (handleMessage fmt_float UnmarshalSecurity MarshalCalls timestamp wr config settings runnerProvider msg)
    (fun _ c => Z.of_nat (crTotal c) <= 2 * configuredMaxToolIterations (wrMaxIterations wr)).
Proof.
  pose proof (configuredMaxToolIterations_bounds (wrMaxIterations wr)) as Hmax.
  set (max := configuredMaxToolIterations (wrMaxIterations wr)) in *.
  unfold handleMessage. fold max. apply watched_bind. eapply watched_mono; [apply check_budget_credit|].
  intros r c (b & -> & Ht & Hb). simpl in Ht.
  destruct b as [[]|]; [|apply watched_fail; rewrite Ht; lia..].
  apply watched_after_idle; [by apply idle_assemble|intros; rewrite Ht; lia|intros assembled].
  apply watched_after_idle; [apply idle_prepare|intros; rewrite Ht; lia|intros [prompt canary]].
  apply watched_after_idle; [by apply idle_route; [apply credit_side|]|intros; rewrite Ht; lia|intros [round content]].
  apply watched_after_idle; [apply idle_append_history, credit_side|intros; rewrite Ht; lia|intros _].
  destruct Hb as [Hb1 Hb2]. simpl in Hb2.
  apply watched_bind. eapply watched_mono; [apply rounds_credit; [lia|done|unfold spent_before; lia]|].
  simpl. intros [outcome|e] c' Hc'; [|lia].
  assert (Z.of_nat (crTotal c') <= 2 * max) as Hok by lia.
  destruct (final_response max outcome) as [resp|]; [|by apply watched_fail].
  apply watched_after_idle; [apply idle_save, credit_side|done|intros _].
  apply watched_after_idle; [apply idle_extract, credit_side|done|intros _].
  apply watched_after_idle; [by apply idle_when, idle_say; [apply credit_side|]|done|intros _].
  eapply watched_mono; [apply deliver_credit|]. by intros _ ? ->.
Qed.

(** ** The requests of services *)

Definition is_helper_call (e : LoopEvent) : bool :=
  match e with EvHelper _ _ => true | _ => false end.

(** The last budget check, which has to have passed when a service asks a model, and the
    number of these requests. *)
Definition helper_step (s : option (result string bool) * nat) (e : LoopEvent)
    : option (option (result string bool) * nat) :=
  match e with
  | EvBudget r => Some (Some r, s.2)
  | EvHelper _ _ => match s.1 with Some (inl true) => Some (s.1, S s.2) | _ => None end
  | _ => Some s
  end.

Lemma helper_watch (evs : list LoopEvent) s :
  watch helper_step (None, 0%nat) evs = Some s ->
  s.1 = last_check evs /\ s.2 = length (List.filter is_helper_call evs) /\
  forall before provider req after, evs = before ++ EvHelper provider req :: after ->
    last_check before = Some (inl true).
Proof.
  revert s. induction evs as [|e evs IH] using rev_ind; intros s.
  { intros [= <-]. split_and!; [done|done|]. by intros []. }
  rewrite watch_app. destruct (watch helper_step _ evs) as [s1|]; [|done].
  destruct (IH s1 eq_refl) as (IH1 & IH2 & IH3).
  change (Some s1 ≫= fun s' => watch helper_step s' [e]) with (helper_step s1 e).
  intros Hs. rewrite last_check_snoc, List.filter_app, length_app.
  assert (match e with EvHelper _ _ => last_check evs = Some (inl true) | _ => True end) as Hpassed.
  { destruct e; try done. simpl in Hs. rewrite IH1 in Hs. by destruct (last_check evs) as [[[]|]|]. }
  split_and!.
  - destruct e; simplify_eq/=; try done. by destruct (s1.1) as [[[]|]|]; simplify_eq/=.
  - destruct e; simplify_eq/=; try lia. destruct (s1.1) as [[[]|]|]; simplify_eq/=; lia.
  - intros before provider req after Heq. destruct after as [|x after _] using rev_ind.
    + apply app_inj_tail in Heq as [-> ->]. exact Hpassed.
    + rewrite app_comm_cons, app_assoc in Heq. apply app_inj_tail in Heq as [-> ->]. by eapply IH3.
Qed.

(** Every service makes at most [k] requests at a time. *)
Definition helpers_at_most (k : nat) : Prop :=
  (forall content w, (length (sv_assemble content w).1.2 <= k)%nat) /\
  (forall w, (length (sv_compress w).1.2 <= k)%nat) /\
  forall msg w, (length (sv_route msg w).1.2 <= k)%nat.

Section helped.
Context (k : nat).

(** Within a passed check, at most [n] requests so far. *)
Definition helped (n : nat) (s : option (result string bool) * nat) : Prop :=
  s.1 = Some (inl true) /\ (helpers_at_most k -> s.2 <= n)%nat.

Lemma consult_helped {A} (f : W -> (A * ModelCalls) * W) n s :
  (helpers_at_most k -> forall w, (length (f w).1.2 <= k)%nat) -> helped n s ->
  watched (W := W) helper_step s (consult f) (fun _ s' => helped (n + k) s').
Proof.
  intros Hf [Hp Hn]. unfold consult.
  assert (forall calls s m, s.1 = Some (inl true) -> (helpers_at_most k -> s.2 + length calls <= m)%nat ->
    watched (W := W) helper_step s (say_all (map (fun c => EvHelper c.1 c.2) calls)) (fun _ s' => helped m s')) as Hsay.
  { clear. induction calls as [|c calls IH]; intros [b n] m Hp Hm; simpl in Hp, Hm; subst b; simpl.
    - apply watched_ret. split; [done|]. intros H'. specialize (Hm H'). simpl. lia.
    - apply watched_bind. eapply watched_say; [done|]. apply IH; [done|]. intros H'. specialize (Hm H'). simpl. lia. }
  intros st r st'. unfold bind at 1, service.
  specialize (fun H => Hf H (lsWorld st)). destruct (f (lsWorld st)) as [[a calls] w]. simpl in Hf. intros E.
  assert (watched (W := W) helper_step s (bind (say_all (map (fun c => EvHelper c.1 c.2) calls)) (fun _ => ret a))
    (fun _ s' => helped (n + k) s')) as Hw.
  { apply watched_bind. eapply watched_mono; [apply (Hsay calls s (n + k)%nat); [done|]|].
    - intros H'. specialize (Hn H'). specialize (Hf H'). unfold result in *. lia.
    - intros [[]|e] s' Hs'; [by apply watched_ret|done]. }
  by destruct (Hw _ _ _ E) as (evs & s' & ? & ? & ?); exists evs, s'.
Qed.
End helped.

Lemma helper_side s e : side_event e = true -> helper_step s e = Some s.
Proof. by destruct e. Qed.

Lemma helper_tool s e : tool_event e = true -> helper_step s e = Some s.
Proof. by destruct e. Qed.

Lemma check_budget_helped s :
  watched (W := W) helper_step s check_budget (fun r s' => exists b, r = inl b /\ s' = (Some b, s.2)).
Proof. unfold check_budget. watch_step. watch_step. watch_step. eapply watched_say; [done|]. apply watched_ret. by eexists. Qed.

Lemma assemble_helped k content s :
  helped k 0 s -> watched (W := W) helper_step s (assemble_context wr settings content) (fun _ s' => helped k (3 * k) s').
Proof.
  intros Hs. assert (forall n m s, (n <= m)%nat -> helped k n s -> helped k m s) as Hle.
  { intros n m s' Hnm [Hp Hn]. split; [done|]. intros H'. specialize (Hn H'). unfold result in *. lia. }
  unfold assemble_context. apply watched_bind.
  eapply watched_mono; [apply (consult_helped k _ 0); [by intros (? & _)|done]|].
  intros [[a|e]|e] s1 Hs1; [|apply watched_fail; by eapply Hle, Hs1; lia|by eapply Hle, Hs1; lia].
  destruct (_ && _); [|apply watched_ret; by eapply Hle, Hs1; lia]. apply watched_bind.
  eapply watched_mono; [apply (consult_helped k _ (0 + k)); [by intros (_ & ? & _)|done]|].
  intros [[[]|e]|e] s2 Hs2; [|apply watched_ret; by eapply Hle, Hs2; lia|by eapply Hle, Hs2; lia].
  apply watched_bind. eapply watched_mono; [apply (consult_helped k _ (0 + k + k)); [by intros (? & _)|done]|].
  intros [[a'|e]|e] s3 Hs3; [apply watched_ret|apply watched_fail|]; (eapply Hle, Hs3; lia).
Qed.

Lemma route_helped k msg content s :
  helped k (3 * k) s ->
  watched (W := W) helper_step s (route_message fmt_float wr config runnerProvider msg content) (fun _ s' => helped k (4 * k) s').
Proof.
  intros [Hp Hn]. assert (helped k (4 * k) s) as Hs by (split; [done|]; intros H'; specialize (Hn H'); unfold result in *; lia).
  unfold route_message. destruct (wrRouter wr); [|by apply watched_ret]. apply watched_bind.
  eapply watched_mono; [apply (consult_helped k _ (3 * k)); [by intros (_ & _ & ?)|done]|].
  replace (3 * k + k)%nat with (4 * k)%nat by lia.
  intros [[d|e]|e] s1 Hs1; [|by apply watched_fail|done].
  apply watched_after_idle; [by apply idle_when, idle_bind; [apply idle_say; [apply helper_side|]|intros; apply idle_service]|done|intros _].
  apply watched_after_idle; [by apply idle_when, idle_say; [apply helper_side|]|done|intros _]. by apply watched_ret.
Qed.

Lemma handleMessage_helpers k (msg : ChatIn) :
  watched helper_step (None, 0%nat)
    (handleMessage fmt_float UnmarshalSecurity MarshalCalls timestamp wr config settings runnerProvider msg)
    (fun _ s => helpers_at_most k -> (s.2 <= 4 * k)%nat).
Proof.
  unfold handleMessage. apply watched_bind. eapply watched_mono; [apply check_budget_helped|].
  intros r s (b & -> & ->). destruct b as [[]|]; [|apply watched_fail; simpl; lia..].
  apply watched_bind. eapply watched_mono; [apply (assemble_helped k); by split; simpl; [|lia]|].
  intros [assembled|e] s [Hp Hs]; [|intros H'; specialize (Hs H'); unfold result in *; lia].
  apply watched_after_idle; [apply idle_prepare|intros _ H'; specialize (Hs H'); unfold result in *; lia|intros [prompt canary]].
  apply watched_bind. eapply watched_mono; [by apply (route_helped k)|]. clear s Hp Hs.
  intros [[round content]|e] s [_ Hs]; [|done].
  apply watched_after_idle; [apply idle_append_history, helper_side|done|intros _].
  apply watched_bind. eapply watched_mono.
  { apply (watched_rounds _ _ _ _ _ _ _ helper_side (fun _ _ _ => eq_refl) (fun s => helpers_at_most k -> (s.2 <= 4 * k)%nat)); [|..|exact Hs].
    - intros s1 Hs1. eapply watched_mono; [apply check_budget_helped|]. by intros _ s2 (b & _ & ->).
    - intros calls s1 Hs1. eapply watched_mono; [apply idle_run_tools, helper_tool|]. by intros _ ? ->. }
  clear s Hs. intros [outcome|e] s Hs; [|done].
  destruct (final_response _ outcome) as [resp|]; [|by apply watched_fail].
  apply watched_after_idle; [apply idle_save, helper_side|done|intros _].
  apply watched_after_idle; [apply idle_extract, helper_side|done|intros _].
  apply watched_after_idle; [by apply idle_when, idle_say; [apply helper_side|]|done|intros _].
  unfold deliver. apply watched_bind. destruct (wrDefense wr);
    [apply watched_defence; intros text|apply watched_ret];
    (apply watched_after_idle; [apply idle_when, idle_chunks, helper_side|done|intros []; by eapply watched_say]).
Qed.

(** C3: handling a message asks models a bounded number of times: its rounds at most twice
    the configured limit of iterations (which is at most 256), whatever the model, the tools
    and the other services answer; and the classifier and the compressor, when each assembly,
    compression and routing asks at most [k] times, at most [4 * k] times.  No model is asked,
    by the rounds or by a service, unless the last budget check before found the agent
    within its budget. *)
Theorem model_calls_bounded_and_budgeted (msg : ChatIn) (st : LoopState W) :
  exists evs,
    lsTrace (handleMessage fmt_float UnmarshalSecurity MarshalCalls timestamp wr config settings
               runnerProvider msg st).2 = lsTrace st ++ evs /\
    Z.of_nat (length (List.filter is_model_call evs)) <=
      2 * configuredMaxToolIterations (wrMaxIterations wr) <= 512 /\
    (forall k, helpers_at_most k -> (length (List.filter is_helper_call evs) <= 4 * k)%nat) /\
    forall before e after, evs = before ++ e :: after -> is_model_call e || is_helper_call e = true ->
      last_check before = Some (inl true).
Proof.
  destruct (handleMessage _ _ _ _ _ _ _ _ msg st) as [r st'] eqn:E.
  destruct (handleMessage_credit msg st r st' E) as (evs & c & Ht & Hw & Hc).
  exists evs. split; [done|]. pose proof (configuredMaxToolIterations_bounds (wrMaxIterations wr)).
  destruct (credit_watch evs c Hw) as [Hlen _]. split; [lia|].
  assert (forall k, watch helper_step (None, 0%nat) evs <> None /\
    forall s, watch helper_step (None, 0%nat) evs = Some s -> helpers_at_most k -> (s.2 <= 4 * k)%nat) as Hh.
  { intros k. destruct (handleMessage_helpers k msg st r st' E) as (evs' & s & Ht' & Hs & Hk).
    rewrite Ht in Ht'. apply app_inv_head in Ht' as <-. rewrite Hs. split; [done|]. by intros s' [= <-]. }
  destruct (watch helper_step _ evs) as [s|] eqn:Es; [|by destruct (Hh 0%nat)].
  destruct (helper_watch evs s Es) as (_ & Hn & Hpassed). split.
  { intros k Hk. rewrite <- Hn. by apply (Hh k). }
  intros before e after -> He. destruct e as [|provider req|provider req| | | | | | | | | |]; try done;
    [|by eapply Hpassed].
  rewrite watch_app in Hw.
  destruct (watch credit_step _ before) as [c1|] eqn:Eb; [|done].
  apply (credit_watch before c1 Eb). intros Hz.
  change (watch credit_step c1 (EvModel provider req :: after) = Some c) in Hw.
  rewrite watch_cons in Hw. cbn [credit_step] in Hw. by rewrite Hz in Hw.
Qed.
End credit.

(** * Tool calls and answers *)

(** The request that was validated and not blocked since the last execution. *)
Definition last_validated (evs : list LoopEvent) : option ToolRequest :=
  foldl (fun acc e => match e with
                      | EvValidate req None => Some req
                      | EvValidate _ (Some _) | EvExecute _ => None
                      | _ => acc
                      end) None evs.

Lemma last_validated_snoc (evs : list LoopEvent) (e : LoopEvent) :
  last_validated (evs ++ [e]) = match e with
                                | EvValidate req None => Some req
                                | EvValidate _ (Some _) | EvExecute _ => None
                                | _ => last_validated evs
                                end.
Proof. unfold last_validated. rewrite foldl_app. by destruct e. Qed.

(** Reads the events: the validated request, and each executed one with what was
    validated before it. *)
Definition guard_step (s : option ToolRequest * list (ToolRequest * option ToolRequest)) (e : LoopEvent)
    : option (option ToolRequest * list (ToolRequest * option ToolRequest)) :=
  match e with
  | EvValidate req None => Some (Some req, s.2)
  | EvValidate _ (Some _) => Some (None, s.2)
  | EvExecute req => Some (None, s.2 ++ [(req, s.1)])
  | _ => Some s
  end.

Lemma guard_side s e : side_event e = true -> guard_step s e = Some s.
Proof. by destruct e. Qed.

Lemma guard_watch (evs : list LoopEvent) s :
  watch guard_step (None, []) evs = Some s ->
  s.1 = last_validated evs /\
  forall before req after, evs = before ++ EvExecute req :: after -> (req, last_validated before) ∈ s.2.
Proof.
  revert s. induction evs as [|e evs IH] using rev_ind; intros s.
  { intros [= <-]. split; [done|]. by intros []. }
  rewrite watch_app. destruct (watch guard_step _ evs) as [s1|]; [|done].
  destruct (IH s1 eq_refl) as [IH1 IH2].
  change (Some s1 ≫= fun s' => watch guard_step s' [e]) with (guard_step s1 e).
  intros Hs. rewrite last_validated_snoc.
  assert (s1.2 ⊆ s.2) as Hsub.
  { destruct e as [| | | | |? []| | | | | | |]; simplify_eq/=; set_solver. }
  split; [by destruct e as [| | | | |? []| | | | | | |]; simplify_eq/=|].
  intros before req after Heq. destruct after as [|x after _] using rev_ind.
  - apply app_inj_tail in Heq as [-> ->]. simplify_eq/=. rewrite <- IH1. set_solver.
  - rewrite app_comm_cons, app_assoc in Heq. apply app_inj_tail in Heq as [-> ->].
    apply Hsub. by eapply IH2.
Qed.

(** Collects the requests to models and the messages sent out. *)
Definition is_talk (e : LoopEvent) : bool :=
  match e with EvModel _ _ | EvOut _ => true | _ => false end.

Definition talk_step (l : list LoopEvent) (e : LoopEvent) : option (list LoopEvent) :=
  Some (if is_talk e then l ++ [e] else l).

Lemma talk_tool l e : tool_event e = true -> talk_step l e = Some l.
Proof. by destruct e. Qed.

Lemma talk_side l e : side_event e = true -> talk_step l e = Some l.
Proof. by destruct e. Qed.

Lemma talk_watch (evs l l' : list LoopEvent) :
  watch talk_step l evs = Some l' -> l' = l ++ List.filter is_talk evs.
Proof.
  revert l. induction evs as [|e evs IH]; intros l; [intros [= <-]; by rewrite app_nil_r|].
  rewrite watch_cons. unfold talk_step at 1. intros ->%IH. simpl.
  destruct (is_talk e); [by rewrite <- app_assoc|done].
Qed.

Section tools.
Context {W : Type} `{Services W}.
Context (fmt_float : float64 -> result string string).
Context (UnmarshalSecurity : string -> SecurityConfig -> SecurityConfig).
Context (MarshalCalls : list ToolUse -> string) (timestamp : ChatIn -> string).
Context (wr : Wiring) (config : AgentConfig) (settings : LoopSettings) (runnerProvider : string).

Definition handle : ChatIn -> M (W := W) unit :=
  handleMessage fmt_float UnmarshalSecurity MarshalCalls timestamp wr config settings runnerProvider.

Definition all_guarded (s : option ToolRequest * list (ToolRequest * option ToolRequest)) : Prop :=
  Forall (fun p => p.2 = Some p.1) s.2.

Lemma run_tools_guarded (calls : list ToolUse) s :
  wrDefense wr = true -> all_guarded s ->
  watched (W := W) guard_step s (run_tools fmt_float UnmarshalSecurity wr config settings calls)
    (fun _ s' => all_guarded s').
Proof.
  intros Hd. revert s. induction calls as [|tc calls IH]; intros s Hs; cbn [run_tools]; [by apply watched_ret|].
  apply watched_bind.
  assert (watched (W := W) guard_step s (run_tool fmt_float UnmarshalSecurity wr config settings tc)
    (fun _ s' => all_guarded s')) as Hrun; [|eapply watched_mono; [exact Hrun|]].
  2:{ intros [m|e] s' Hs'; [|done]. apply watched_bind. eapply watched_mono; [by apply IH|].
      intros [ms|e] s'' Hs''; [by apply watched_ret|done]. }
  unfold run_tool. watch_step. watch_step. destruct (request_of _ _ _ _) as [req b].
  destruct (negb b); [by apply watched_ret|]. unfold validate_call. rewrite Hd.
  watch_step. watch_step. watch_step. watch_step.
  set (blocked := match a0 with Some v => _ | None => None end).
  destruct blocked as [reason|]; (eapply watched_say; [reflexivity|]).
  { by apply watched_ret, watched_ret. }
  apply watched_ret. watch_step. eapply watched_say; [reflexivity|].
  assert (all_guarded (None, s.2 ++ [(req, Some req)])) as Hs'.
  { unfold all_guarded. simpl. apply Forall_app. by split; [|repeat constructor]. }
  watch_step. watch_step.
  apply watched_after_idle; [by apply idle_trip_check|done|intros []].
  watch_step. watch_step. apply watched_bind.
  destruct (_ && _); [apply watched_service; intros fb|apply watched_ret].
  all: apply watched_after_idle; [apply idle_append_history, guard_side|done|intros []; by apply watched_ret].
Qed.

(** with prompt security wired, no tool call of the model is executed unless
    this very request was validated right before and not blocked; nothing else was executed
    in between. *)
Theorem executed_calls_validated (msg : ChatIn) (st : LoopState W) :
  wrDefense wr = true ->
  exists evs, lsTrace (handle msg st).2 = lsTrace st ++ evs /\
    forall before req after, evs = before ++ EvExecute req :: after -> last_validated before = Some req.
Proof.
  intros Hd. destruct (handle msg st) as [r st'] eqn:E.
  assert (watched guard_step (None, []) (handle msg) (fun _ s' => all_guarded s')) as Hw.
  { unfold handle. apply (watched_handle _ _ _ _ _ _ _ _ _ guard_side (fun _ _ _ => eq_refl) all_guarded);
      [done| | |by constructor|done|].
    - intros s Hs. unfold check_budget. watch_step. watch_step. watch_step. eapply watched_say; [reflexivity|].
      by apply watched_ret.
    - intros calls s Hs. by apply run_tools_guarded.
    - intros canary resp streamed s' Hs'. unfold deliver. apply watched_bind.
      destruct (wrDefense wr); [apply watched_defence; intros content|apply watched_ret];
        (apply watched_after_idle; [apply idle_when, idle_chunks, guard_side|done|intros []; by eapply watched_say]). }
  destruct (Hw st r st' E) as (evs & s & Ht & Hs & Hg). exists evs. split; [done|].
  destruct (guard_watch evs s Hs) as [_ Hex]. intros before req after Heq.
  apply Hex in Heq. unfold all_guarded in Hg. rewrite Forall_forall in Hg. by apply Hg in Heq.
Qed.

(** ** What the model and the user get to see *)

(** A request whose first message is [sys]. *)
Definition headed (sys : ChatMessage) (e : LoopEvent) : Prop :=
  match e with EvModel _ req => head (crMessages req) = Some sys | _ => False end.

(** New requests only, all headed by [sys]. *)
Definition headed_only {A} (sys : ChatMessage) (l : list LoopEvent) (_ : result LoopError A)
    (l' : list LoopEvent) : Prop :=
  exists new, l' = l ++ new /\ Forall (headed sys) new.

Lemma headed_refl {A} sys l (r : result LoopError A) : headed_only sys l r l.
Proof. exists []. by rewrite app_nil_r. Qed.

Lemma headed_trans {A B} sys l l1 l2 (r : result LoopError A) (r' : result LoopError B) :
  headed_only sys l r l1 -> headed_only sys l1 r' l2 -> headed_only sys l r' l2.
Proof.
  intros (x & -> & Hx) (y & -> & Hy). exists (x ++ y). rewrite app_assoc. split; [done|].
  by apply Forall_app.
Qed.

(** A headed program in front of another. *)
Lemma watched_headed {A B} sys l (m : M (W := W) A) (k : A -> M B) :
  watched talk_step l m (headed_only sys l) ->
  (forall a l', watched talk_step l' (k a) (headed_only sys l')) ->
  watched talk_step l (bind m k) (headed_only sys l).
Proof.
  intros Hm Hk. apply watched_bind. eapply watched_mono; [exact Hm|]. intros [a|e] l' Hl'.
  - eapply watched_mono; [apply Hk|]. intros r l'' Hl''. by eapply headed_trans.
  - by destruct Hl' as (x & -> & Hx); exists x.
Qed.

Lemma idle_headed {A} sys l (m : M (W := W) A) :
  idle talk_step m -> watched talk_step l m (headed_only sys l).
Proof. intros Hm. eapply watched_mono; [apply Hm|]. intros r l' ->. apply headed_refl. Qed.

Lemma strip_head (sys : ChatMessage) (l : list ChatMessage) :
  cmRole sys = "system" -> head l = Some sys -> head (stripToolMessages l) = Some sys.
Proof.
  intros Hr. destruct l as [|m l]; [done|]. intros [= ->]. cbn [stripToolMessages].
  by rewrite !Hr.
Qed.

Lemma fit_head rd (sys : ChatMessage) (l : list ChatMessage) :
  head l = Some sys -> head (fit_messages settings rd l) = Some sys.
Proof.
  intros Hh. unfold fit_messages. destruct (_ <? _); [|done]. unfold trimOldestToolMessages.
  destruct (_ || _); [done|]. by destruct l.
Qed.

Lemma complete_headed sys l provider req :
  head (crMessages req) = Some sys ->
  watched (W := W) talk_step l (complete provider req) (headed_only sys l).
Proof.
  intros Hh. unfold complete. watch_step. eapply watched_say; [reflexivity|]. simpl.
  watch_step. exists [EvModel provider req]. split; [done|]. by constructor.
Qed.

Lemma call_model_headed sys l provider req canStream :
  cmRole sys = "system" -> head (crMessages req) = Some sys ->
  watched (W := W) talk_step l (call_model provider req canStream) (headed_only sys l).
Proof.
  intros Hr Hh.
  assert (forall l, watched (W := W) talk_step l (complete_or_retry provider req) (headed_only sys l)) as Hc.
  { intros l0. unfold complete_or_retry. apply watched_headed; [by apply complete_headed|].
    intros [resp|e] l1; [apply watched_ret, headed_refl|].
    destruct (_ && _); [|apply watched_fail, headed_refl].
    apply watched_headed; [by apply complete_headed, strip_head|].
    intros [resp|e'] l2; [apply watched_ret, headed_refl|apply watched_fail, headed_refl]. }
  unfold call_model. apply watched_headed.
  - destruct canStream; [|apply watched_ret, headed_refl]. unfold streamModelCall.
    apply watched_headed.
    { eapply watched_say; [reflexivity|]. exists [EvModel provider req]. split; [done|]. by constructor. }
    intros _ l1. apply idle_headed. apply idle_bind; [apply idle_service|].
    intros [items|e]; [apply idle_consume, talk_side|apply idle_ret].
  - intros [resp|e] l1; [apply watched_ret, headed_refl|].
    apply watched_headed; [apply Hc|intros; apply watched_ret, headed_refl].
Qed.

Lemma rounds_headed sys rd n first messages last streamed l :
  cmRole sys = "system" -> head messages = Some sys ->
  watched (W := W) talk_step l
    (rounds fmt_float UnmarshalSecurity MarshalCalls wr config settings rd n first messages last streamed)
    (headed_only sys l).
Proof.
  intros Hr. revert first messages last streamed l.
  induction n as [|n IH]; intros first messages last streamed l Hh; cbn [rounds];
    [apply watched_ret, headed_refl|].
  set (messages' := if first then messages else _).
  assert (head messages' = Some sys) as Hh' by (unfold messages'; destruct first; [done|by apply fit_head]).
  apply watched_headed; [by apply call_model_headed|intros [resp str] l1].
  apply watched_headed; [apply idle_headed, idle_account, talk_side|intros [] l2].
  destruct (_ || _); [apply watched_ret, headed_refl|].
  apply watched_headed; [apply idle_headed, idle_append_history, talk_side|intros [] l3].
  apply watched_headed; [apply idle_headed, idle_run_tools, talk_tool|intros results l4].
  apply watched_headed.
  { apply idle_headed. unfold check_budget. apply idle_bind; [apply idle_service|]. intros b.
    apply idle_bind; [intros s; by eapply watched_say|intros; apply idle_ret]. }
  intros [[]|e] l5; [|apply watched_ret, headed_refl|apply watched_fail, headed_refl].
  apply IH. by destruct messages'.
Qed.

Definition answer_to (msg : ChatIn) (content : string) : LoopEvent :=
  EvOut (mkChatIn (inChannel msg) (inConversationID msg) (inSender msg) "assistant" content []).

(** A canary is put into the prompt. *)
Definition canary_expected : Prop :=
  wrDefense wr = true /\ CanaryTokens (secCfg UnmarshalSecurity config) = true /\
  forall w, exists bytes, (sv_random w).1 = inl bytes /\ length bytes = 8%nat.

(** The conversation of one handling: requests that begin with the system prompt, then the
    answer, without the prompt's canary; or requests and an error. *)
Definition talk_ok (msg : ChatIn) (r : result LoopError unit) (l : list LoopEvent) : Prop :=
  exists prompt canary requests,
    canary_in (ID config) prompt canary /\
    (canary_expected -> l = [] \/ is_Some canary) /\
    Forall (headed (plain_message "system" prompt)) requests /\
    match r with
    | inr _ => l = requests
    | inl _ => exists content, l = requests ++ [answer_to msg content] /\
        (wrDefense wr = true -> OutputValidation (secCfg UnmarshalSecurity config) = true ->
         forall token, canary = Some token -> ~ occurs (canaryValue token) content)
    end.

Lemma prepare_canary l prompt :
  watched (W := W) talk_step l (prepare_prompt UnmarshalSecurity wr config prompt)
    (fun r l' => l' = l /\
       match r with
       | inl p => canary_in (ID config) p.1 p.2 /\ (canary_expected -> is_Some p.2)
       | inr _ => True
       end).
Proof.
  unfold prepare_prompt. destruct (wrDefense wr) eqn:Ed.
  2:{ apply watched_ret. split_and!; [done|by intros ? ?|]. intros [? _]. congruence. }
  intros st r st'. unfold bind, service. destruct (sv_random (lsWorld st)) as [bytes w] eqn:Eb.
  intros [= <- <-]. exists [], l. rewrite app_nil_r. split_and!; [done..|]. simpl.
  pose proof (PrepareSystemPrompt_canary bytes (secCfg UnmarshalSecurity config) (ID config) prompt) as Hp.
  destruct (PrepareSystemPrompt _ _ _ _) as [prompt' canary]. destruct Hp as [H1 H2]. split; [done|].
  intros (_ & Hc & Hr). apply H2; [done|]. specialize (Hr (lsWorld st)). by rewrite Eb in Hr.
Qed.

Lemma deliver_talk msg prompt canary resp streamed requests :
  canary_in (ID config) prompt canary -> (canary_expected -> is_Some canary) ->
  Forall (headed (plain_message "system" prompt)) requests ->
  watched (W := W) talk_step requests (deliver UnmarshalSecurity wr config msg canary resp streamed)
    (talk_ok msg).
Proof.
  intros Hc Hsome Hr.
  assert (forall content, (wrDefense wr = true -> OutputValidation (secCfg UnmarshalSecurity config) = true ->
      forall token, canary = Some token -> ~ occurs (canaryValue token) content) ->
    watched (W := W) talk_step requests
      (bind (when (wrStreamer wr && bool_decide (inChannel msg = "webui")
             && negb (bool_decide (inConversationID msg = EmptyString))
             && negb (streamed && bool_decide (content = rsContent resp)))
        (deliverProgressiveChunks content resp)) (fun _ => say (answer_to msg content))) (talk_ok msg)) as Hsend.
  { intros content Hcontent. apply watched_after_idle; [apply idle_when, idle_chunks, talk_side| |].
    - intros e. exists prompt, canary, requests. split_and!; auto.
    - intros []. eapply watched_say; [reflexivity|]. exists prompt, canary, requests.
      split_and!; [done|by auto|done|]. by exists content. }
  unfold deliver. apply watched_bind. destruct (wrDefense wr) eqn:Ed.
  - intros st r st'. unfold defence.
    pose proof (fun Ho token => ValidateResponse_clean (secCfg UnmarshalSecurity config) (ID config) prompt
      canary (rsContent resp) (lsSecurity st) token Ho Hc) as Hclean.
    destruct (ValidateResponse _ _ _ _ _) as [content sl]. intros [= <- <-].
    exists [], requests. rewrite app_nil_r. split_and!; [done|done|]. apply Hsend. auto.
  - apply watched_ret, Hsend. done.
Qed.

Lemma handle_talk (msg : ChatIn) : watched talk_step [] (handle msg) (talk_ok msg).
Proof.
  assert (forall e, talk_ok msg (inr e) []) as Hnone.
  { intros e. exists EmptyString, None, []. split_and!; [by intros ? ?|by left|constructor|done]. }
  unfold handle, handleMessage.
  apply watched_after_idle; [|by auto|].
  { unfold check_budget. apply idle_bind; [apply idle_service|]. intros b.
    apply idle_bind; [intros s; by eapply watched_say|intros; apply idle_ret]. }
  intros [[]|e]; [|by apply watched_fail, Hnone..].
  apply watched_after_idle; [by apply idle_assemble|by auto|intros assembled].
  apply watched_bind. eapply watched_mono; [apply prepare_canary|].
  intros [[prompt canary]|e] l [-> Hc]; [|apply Hnone]. simpl in Hc. destruct Hc as [Hc Hsome].
  apply watched_after_idle; [by apply idle_route; [apply talk_side|]|by auto|intros [round content]].
  apply watched_after_idle; [apply idle_append_history, talk_side|by auto|intros _].
  apply watched_bind. eapply watched_mono;
    [by apply (rounds_headed (plain_message "system" prompt))|].
  intros [outcome|e] l (requests & -> & Hreq); [|exists prompt, canary, requests; by split_and!; auto]. simpl.
  assert (forall e, talk_ok msg (inr e) requests) as Herr
    by (intros e; exists prompt, canary, requests; by split_and!; auto).
  destruct (final_response _ outcome) as [resp|]; [|by apply watched_fail, Herr].
  apply watched_after_idle; [apply idle_save, talk_side|done|intros _].
  apply watched_after_idle; [apply idle_extract, talk_side|done|intros _].
  apply watched_after_idle; [by apply idle_when, idle_say; [apply talk_side|]|done|intros _].
  by apply (deliver_talk msg prompt).
Qed.

(** a message is answered exactly once: handling it calls models a number of times and
    then, if it succeeds, sends one message, to the channel, the conversation and the
    sender it came from; if it fails it sends none. *)
Theorem answered_exactly_once (msg : ChatIn) (st : LoopState W) :
  exists evs requests, lsTrace (handle msg st).2 = lsTrace st ++ evs /\
    Forall (fun e => is_model_call e = true) requests /\
    match (handle msg st).1 with
    | inl _ => exists content, List.filter is_talk evs = requests ++ [answer_to msg content]
    | inr _ => List.filter is_talk evs = requests
    end.
Proof.
  destruct (handle msg st) as [r st'] eqn:E.
  destruct (handle_talk msg st r st' E) as (evs & l & Ht & Hw & prompt & canary & requests & _ & _ & Hreq & Hr).
  apply talk_watch in Hw. simpl in Hw. subst l. exists evs, requests. split; [done|]. split.
  - eapply Forall_impl; [exact Hreq|]. by intros [].
  - simpl. destruct r; [|done]. destruct Hr as (content & Hl & _). by exists content.
Qed.

(** with defence, canaries and output validation on, one system prompt that carries a
    fresh canary heads every request of a message to a model, retries and trimmed
    conversations included, and the answer sent to the user does not contain the
    canary (unless handling ends before any model is asked). *)
Theorem canary_stays_inside (msg : ChatIn) (st : LoopState W) :
  canary_expected -> OutputValidation (secCfg UnmarshalSecurity config) = true ->
  exists evs, lsTrace (handle msg st).2 = lsTrace st ++ evs /\
    ((forall e, e ∈ evs -> is_talk e = false) \/
     exists base token rand, GenerateCanary rand (ID config) = inl token /\
       (forall provider req, EvModel provider req ∈ evs ->
          head (crMessages req) = Some (plain_message "system" (InjectCanary base token))) /\
       (forall m, EvOut m ∈ evs -> ~ occurs (canaryValue token) (inContent m))).
Proof.
  intros Hexp Ho. destruct (handle msg st) as [r st'] eqn:E.
  destruct (handle_talk msg st r st' E)
    as (evs & l & Ht & Hw & prompt & canary & requests & Hc & Hsome & Hreq & Hr).
  apply talk_watch in Hw. simpl in Hw. subst l. exists evs. split; [done|].
  assert (forall e, is_talk e = true -> e ∈ evs -> e ∈ List.filter is_talk evs) as Hin
    by (intros e ? ?; by apply filter_elem).
  destruct (Hsome Hexp) as [Hnil|[token ->]].
  { left. intros e He. destruct (is_talk e) eqn:Et; [|done]. apply Hin in He; [|done].
    rewrite Hnil in He. by apply elem_of_nil in He. }
  right. destruct (Hc token eq_refl) as ([base ->] & [rand Hg] & _). exists base, token, rand.
  rewrite Forall_forall in Hreq. destruct Hexp as [Hd _]. split_and!; [done| |].
  - intros provider req Hev%Hin; [|done]. destruct r.
    + destruct Hr as (content & Hl & _). rewrite Hl in Hev.
      apply elem_of_app in Hev as [Hev|[=]%list_elem_of_singleton]. by apply Hreq in Hev.
    + rewrite Hr in Hev. by apply Hreq in Hev.
  - intros m Hev%Hin; [|done]. destruct r.
    + destruct Hr as (content & Hl & Hcl). rewrite Hl in Hev.
      apply elem_of_app in Hev as [Hev|Hev]; [by apply Hreq in Hev|].
      apply list_elem_of_singleton in Hev as [= ->]. by apply Hcl.
    + rewrite Hr in Hev. by apply Hreq in Hev.
Qed.

(** ** The conversation with tools *)

(** A program returns only values as [P] says. *)
Definition returns {A} (m : M (W := W) A) (P : A -> Prop) : Prop :=
  forall st a st', m st = (inl a, st') -> P a.

Lemma returns_bind {A B} (m : M A) (k : A -> M B) (P : B -> Prop) :
  (forall a, returns (k a) P) -> returns (bind m k) P.
Proof. intros Hk st b st'. unfold bind. destruct (m st) as [[a|e] st1]; [|done]. apply Hk. Qed.

Lemma returns_after {A B} (m : M A) (k : A -> M B) (Q : A -> Prop) (P : B -> Prop) :
  returns m Q -> (forall a, Q a -> returns (k a) P) -> returns (bind m k) P.
Proof.
  intros Hm Hk st b st'. unfold bind. destruct (m st) as [[a|e] st1] eqn:E; [|done].
  by eapply Hk, Hm.
Qed.

Lemma returns_ret {A} (a : A) (P : A -> Prop) : P a -> returns (ret a) P.
Proof. by intros HP st a' st' [= <- <-]. Qed.

(** Fenced tool output: nothing closes the fence before its end. *)
Definition fenced_content (content : string) : Prop :=
  exists body tail, content = body +:+ ">" +:+ tail /\
    has_suffix (body +:+ ">") closing_tag = true /\ ~ occurs closing_tag body.

(** What a call puts into the conversation: a refusal of Kyvik's own, or a fenced result. *)
Definition tool_answer (tc : ToolUse) (m : ChatMessage) : Prop :=
  cmRole m = "tool" /\ cmToolCallID m = tuID tc /\ cmToolCalls m = [] /\
  (wrDefense wr = true -> ContentBoundaries (secCfg UnmarshalSecurity config) = true ->
   (exists id reason, m = refusal fmt_float (tuID tc) id reason) \/ fenced_content (cmContent m)).

Lemma run_tool_answer (tc : ToolUse) :
  returns (run_tool fmt_float UnmarshalSecurity wr config settings tc) (tool_answer tc).
Proof.
  assert (forall id reason, tool_answer tc (refusal fmt_float (tuID tc) id reason)) as Href.
  { intros id reason. split_and!; [done..|]. left. by eexists _, _. }
  unfold run_tool. apply returns_bind. intros id. destruct (request_of _ _ _ _) as [req b].
  destruct (negb b); [by apply returns_ret|].
  apply returns_bind. intros [reason|]; [by apply returns_ret|].
  apply returns_bind. intros []. apply returns_bind. intros r. apply returns_bind. intros [].
  set (resp := match r with inl x => x | inr e => _ end).
  set (res := ConvertToModelResult _ _ _).
  apply (returns_after _ _ (fun m => wrDefense wr = true ->
    ContentBoundaries (secCfg UnmarshalSecurity config) = true -> fenced_content (Content m))).
  { destruct (wrDefense wr); [|by apply returns_ret]. intros st m st'. unfold defence.
    pose proof (process_boundary (secCfg UnmarshalSecurity config) (ID config) (Name config) (tuName tc) res
      (lsSecurity st)) as Hp.
    destruct (ProcessToolResult _ _ _ _ _ _) as [m' sl]. intros [= -> <-] _ Hcb.
    destruct (Hp Hcb) as (body & Hb & Hs & Ho). by exists body, (reinforcement_tail
      (secCfg UnmarshalSecurity config) (Name config)). }
  intros m Hm. apply returns_bind. intros fb. apply returns_bind. intros []. apply returns_ret.
  split_and!; [done..|]. intros Hd Hcb. right. destruct (Hm Hd Hcb) as (body & tail & Hc & Hs & Ho).
  exists body, (tail +:+ fb). split_and!; [|done|done]. simpl. rewrite Hc. by rewrite !str_app_assoc.
Qed.

Lemma run_tools_answers (calls : list ToolUse) :
  returns (run_tools fmt_float UnmarshalSecurity wr config settings calls) (Forall2 tool_answer calls).
Proof.
  induction calls as [|tc calls IH]; cbn [run_tools]; [by apply returns_ret|].
  eapply returns_after; [apply run_tool_answer|]. intros m Hm.
  eapply returns_after; [exact IH|]. intros ms Hms. apply returns_ret. by constructor.
Qed.

Lemma orphans_answers (seen : list string) (calls : list ToolUse) (ms : list ChatMessage) :
  Forall2 tool_answer calls ms -> (forall tc, tc ∈ calls -> tuID tc ∈ seen) -> orphans_from seen ms = [].
Proof.
  intros HF. revert seen. induction HF as [|tc m calls ms (Hr & Hid & Hc & _) _ IH]; intros seen Hseen; [done|].
  cbn [orphans_from]. rewrite Hid, Hc, (bool_decide_eq_true_2 (tuID tc ∈ seen)) by (apply Hseen; by left).
  rewrite andb_false_r. cbn [app map]. apply IH. rewrite app_nil_r. intros tc' Htc. apply Hseen. by right.
Qed.

Lemma orphans_app (seen : list string) (l1 l2 : list ChatMessage) :
  orphans_from seen (l1 ++ l2) =
  orphans_from seen l1 ++ orphans_from (seen ++ mjoin (map (fun m => map tuID (cmToolCalls m)) l1)) l2.
Proof.
  revert seen. induction l1 as [|m l1 IH]; intros seen; simpl; [by rewrite app_nil_r|].
  by rewrite IH, !app_assoc.
Qed.

(** the conversation stays well-formed while tools are used.  A round that completes
    appends the assistant's message and one tool message for each of its calls, in their
    order and under their identifiers, so that no result is left without its call; and
    with defence and content boundaries on, each is a refusal of Kyvik's own or a
    result that cannot leave its fence. *)
Theorem tool_round_well_formed (messages : list ChatMessage) (content : string) (calls : list ToolUse)
    (st st' : LoopState W) (results : list ChatMessage) :
  run_tools fmt_float UnmarshalSecurity wr config settings calls st = (Ok results, st') ->
  orphans_from [] messages = [] ->
  orphans_from [] (messages ++ mkChatMessage "assistant" content [] calls EmptyString :: results) = [] /\
  map cmToolCallID results = map tuID calls /\
  (wrDefense wr = true -> ContentBoundaries (secCfg UnmarshalSecurity config) = true ->
   forall m, m ∈ results -> (exists id reason, m = refusal fmt_float (cmToolCallID m) id reason) \/
                            fenced_content (cmContent m)).
Proof.
  intros Hrun%run_tools_answers Hm. split_and!.
  - rewrite orphans_app, Hm. cbn [app orphans_from cmRole cmToolCalls]. simpl.
    eapply orphans_answers; [exact Hrun|]. intros tc Htc. apply elem_of_app. right.
    by apply list_elem_of_fmap_2.
  - clear -Hrun. induction Hrun as [|tc m calls ms (_ & Hid & _) _ IH]; [done|]. simpl. by rewrite Hid, IH.
  - intros Hd Hcb m Hin. apply list_elem_of_lookup in Hin as [i Hi].
    destruct (Forall2_lookup_r _ _ _ _ _ Hrun Hi) as (tc & _ & (_ & Hid & _ & Hans)).
    destruct (Hans Hd Hcb) as [(id & reason & ->)|?]; [left|by right]. by eexists _, _.
Qed.
End tools.

(** * Examples *)

(** A world of scripted answers: of budget checks (then within budget) and of the model
    (then "done"). *)
Record Demo := mkDemo {
  dmBudget : list (result string bool);
  dmAnswers : list (result string CompletionResponse);
}.

Definition demo_response (content : string) (calls : list ToolUse) : CompletionResponse :=
  mkCompletionResponse content calls "end" 10 5 f64_zero "llama3" false.

#[local] Instance demo_services : Services Demo := {|
  sv_check_budget w := match dmBudget w with
                       | b :: rest => (b, mkDemo rest (dmAnswers w))
                       | [] => (Ok true, w)
                       end;
  sv_assemble _ w := ((Ok (mkAssembled "Be kind." [] 10), []), w);
  sv_compress w := ((Ok tt, []), w);
  sv_route msg w := ((Ok (mkRouteDecision (mkModelSlot "heavy" "ollama" "llama3") "ollama" "prefix" "go"
                           "prefix trigger: heavy" no_cost), []), w);
  sv_complete _ _ w := match dmAnswers w with
                       | a :: rest => (a, mkDemo (dmBudget w) rest)
                       | [] => (Ok (demo_response "done" []), w)
                       end;
  sv_stream _ _ w := (Ok [StreamChunk "hi" true EmptyString], w);
  sv_record _ _ _ _ w := w;
  sv_breaker_spending _ w := (None, w);
  sv_breaker_message _ w := (None, w);
  sv_breaker_tool _ _ _ _ w := (None, w);
  sv_execute req w := (Ok (mkToolResponse (rID req) true (AString "data") EmptyString 1 EmptyString), w);
  sv_feedback _ w := (EmptyString, w);
  sv_history_count w := (Some 3, w);
  sv_fresh_id w := ("r1", w);
  sv_random w := (Ok demo_bytes, w);
|}.

Definition demo_settings : LoopSettings := mkLoopSettings true 32000 false 0 false 0 false.
Definition demo_wiring (router : bool) : Wiring :=
  mkWiring true false true None true router false false false None EmptyString.
Definition demo_start (budget : list (result string bool)) (answers : list (result string CompletionResponse))
    : LoopState Demo :=
  mkLoopState (mkDemo budget answers) (mkSecurityLog true [] None) 0 [].
Definition demo_in : ChatIn := mkChatIn "slack" "C1" "U1" "user" "heavy: go" [].
Definition shell_use (command : string) : ToolUse :=
  mkToolUse "c1" "shell__run" (AMap [("command", AString command)]).

Definition demo_handle (router : bool) : LoopState Demo -> result LoopError unit * LoopState Demo :=
  handle no_float (fun _ cfg => cfg) (fun _ => "calls") (fun _ => "2026-01-01 00:00 UTC") (demo_wiring router)
    (plain_agent "a1" "reader") demo_settings "ollama" demo_in.

Lemma executed_calls_validated_witness :
  exists evs, lsTrace (demo_handle false (demo_start [] [Ok (demo_response "look" [shell_use "ls"])])).2
      = [] ++ evs /\
    forall before req after, evs = before ++ EvExecute req :: after -> last_validated before = Some req.
Proof.
  apply (executed_calls_validated no_float (fun _ cfg => cfg) (fun _ => "calls")
    (fun _ => "2026-01-01 00:00 UTC") (demo_wiring false) (plain_agent "a1" "reader") demo_settings "ollama"
    demo_in (demo_start [] [Ok (demo_response "look" [shell_use "ls"])])). reflexivity.
Defined.

Lemma canary_stays_inside_witness :
  exists evs, lsTrace (demo_handle false (demo_start [] [])).2 = [] ++ evs /\
    ((forall e, e ∈ evs -> is_talk e = false) \/
     exists base token rand, GenerateCanary rand "a1" = inl token /\
       (forall provider req, EvModel provider req ∈ evs ->
          head (crMessages req) = Some (plain_message "system" (InjectCanary base token))) /\
       (forall m, EvOut m ∈ evs -> ~ occurs (canaryValue token) (inContent m))).
Proof.
  apply (canary_stays_inside no_float (fun _ cfg => cfg) (fun _ => "calls")
    (fun _ => "2026-01-01 00:00 UTC") (demo_wiring false) (plain_agent "a1" "reader") demo_settings "ollama"
    demo_in (demo_start [] [])); [|reflexivity].
  split; [reflexivity|]. split; [reflexivity|]. intros w. exists demo_bytes. split; reflexivity.
Defined.

Lemma tool_round_well_formed_witness :
  exists results st',
    run_tools no_float (fun _ cfg => cfg) (demo_wiring false) (plain_agent "a1" "reader") demo_settings
      [shell_use "ls"; shell_use "rm -rf /"] (demo_start [] []) = (Ok results, st') /\
    map cmToolCallID results = ["c1"; "c1"].
Proof.
  destruct (run_tools no_float (fun _ cfg => cfg) (demo_wiring false) (plain_agent "a1" "reader") demo_settings
      [shell_use "ls"; shell_use "rm -rf /"] (demo_start [] [])) as [[results|e] st'] eqn:E;
    [|vm_compute in E; discriminate].
  exists results, st'. split; [reflexivity|].
  apply (tool_round_well_formed no_float (fun _ cfg => cfg) (demo_wiring false) (plain_agent "a1" "reader")
    demo_settings [] "look" [shell_use "ls"; shell_use "rm -rf /"] (demo_start [] []) st' results E).
  reflexivity.
Defined.

(** when the budget check after a round of tool calls fails, the code logs a field of
    the status it did not get: the agent's goroutine, and with it the server, panics
    instead of returning the error. *)
Theorem budget_error_after_tools_panics :
  (demo_handle false (demo_start [Ok true; Err "database is gone"]
     [Ok (demo_response "look" [shell_use "ls"])])).1 =
    Err (LoopPanic "invalid memory address or nil pointer dereference").
Proof. by vm_compute. Qed.

(** The roles and texts a handling writes to the history. *)
Definition history_of (st : LoopState Demo) : list (string * string) :=
  omap (fun e => match e with EvHistory h => Some (heRole h, heContent h) | _ => None end) (lsTrace st).

(** The texts sent out. *)
Definition sent_by (st : LoopState Demo) : list string :=
  omap (fun e => match e with EvOut m => Some (inContent m) | _ => None end) (lsTrace st).

(** the history loses what refused calls were answered: the assistant's message with the
    call is saved and the refusal the model saw is not, so that the next conversation
    has a call without a result. *)
Theorem refusal_not_in_history :
  history_of (demo_handle false (demo_start [] [Ok (demo_response "cleaning" [shell_use "rm -rf /"])])).2 =
    [("user", "heavy: go"); ("assistant", "cleaning"); ("assistant", "done")].
Proof. by vm_compute. Qed.

(** the answer is saved before it is checked: a leaked canary is removed from what the
    user gets and stays in the history. *)
Theorem canary_kept_in_history :
  let leak := "KYVIK_CANARY_6161616161616161" in
  let st := (demo_handle false (demo_start [] [Ok (demo_response leak [])])).2 in
  sent_by st = ["[REDACTED]"] /\ history_of st = [("user", "heavy: go"); ("assistant", leak)].
Proof. by vm_compute. Qed.

(** The last message of each request. *)
Definition asked_by (st : LoopState Demo) : list string :=
  omap (fun e => match e with EvModel _ req => cmContent <$> last (crMessages req) | _ => None end) (lsTrace st).

(** a routing prefix drops the time stamp of a message along with itself. *)
Theorem prefix_drops_timestamp :
  asked_by (demo_handle false (demo_start [] [])).2 =
    ["<msg-timestamp time=" +:+ quoted "2026-01-01 00:00 UTC" +:+ " />" +:+ nl +:+ "heavy: go"] /\
  asked_by (demo_handle true (demo_start [] [])).2 = ["go"].
Proof. by vm_compute. Qed.
