(* ===== verification/History.v ===== *)
(** Conversation history ([internal/history/store.go]) and its compression
    ([internal/compression]).

    State [HistoryDB]: the rows of [conversation_history] in order of insertion.  The
    compressor's state is the set of conversations that are being compressed; the model
    that writes the summaries is an argument, as is which statement fails. *)

From Stdlib Require Import Sorting.Sorted.
From S2P Require Import Prelude GoString GoFloat GoJson Types Chat AgentText.
#[local] Open Scope Z_scope.

(** * Data *)

(** A row: [history.HistoryEntry] with the columns [Chat.HistoryEntry] leaves out. *)
Record HistoryRow := mkHistoryRow {
  hrID : Z;
  hrAgentID : string;
  hrChannel : string;
  hrChannelID : string;
  hrEntry : HistoryEntry;
  hrTokens : Z;
  hrAttachments : string;
  hrCompressedBy : Z;
  hrCreatedAt : Z;
}.

(** The rows are inserted at the front; [hdNext] is the next identifier. *)
Record HistoryDB := mkHistoryDB { hdRows : list HistoryRow; hdNext : Z }.

(** A conversation: agent, channel, channel identifier. *)
Definition Conv : Type := string * string * string.

Definition of_conv (k : Conv) (r : HistoryRow) : bool :=
  bool_decide ((hrAgentID r, hrChannel r, hrChannelID r) = k).

Definition uncompressed (r : HistoryRow) : bool := hrCompressedBy r =? 0.

(** The order of the queries: by time, then by identifier. *)
Definition row_before (a b : HistoryRow) : bool :=
  (hrCreatedAt a <? hrCreatedAt b) || ((hrCreatedAt a =? hrCreatedAt b) && (hrID a <? hrID b)).

Fixpoint insert_row (r : HistoryRow) (l : list HistoryRow) : list HistoryRow :=
  match l with
  | [] => [r]
  | x :: l' => if row_before r x then r :: l else x :: insert_row r l'
  end.

Definition by_time (l : list HistoryRow) : list HistoryRow := foldr insert_row [] l.

Definition DefaultLimit : Z := 50.

(** * The store *)

(** [Store.Append] *)
Definition AppendHistory (now : Z) (k : Conv) (e : HistoryEntry) (tokens : Z) (attachments : string)
    (db : HistoryDB) : HistoryDB :=
  mkHistoryDB (mkHistoryRow (hdNext db) k.1.1 k.1.2 k.2 e tokens attachments 0 now :: hdRows db) (hdNext db + 1).

Definition conversation_rows (k : Conv) (db : HistoryDB) : list HistoryRow :=
  by_time (List.filter (fun r => of_conv k r && uncompressed r) (hdRows db)).

(** [Store.Recent]: the last rows, oldest first *)
Definition Recent (k : Conv) (limit : Z) (db : HistoryDB) : list HistoryRow :=
  last_n (Z.to_nat (if limit <=? 0 then DefaultLimit else limit)) (conversation_rows k db).

(** [Store.Count] *)
Definition CountHistory (k : Conv) (db : HistoryDB) : Z := Z.of_nat (length (conversation_rows k db)).

(** [Store.Trim]: compressed rows count among the most recent ones; a negative limit is an
    error of the database *)
Definition Trim (k : Conv) (keepLast : Z) (db : HistoryDB) : option (Z * HistoryDB) :=
  if keepLast <? 0 then None
  else
    let kept := map hrID (last_n (Z.to_nat keepLast) (by_time (List.filter (of_conv k) (hdRows db)))) in
    let gone r := of_conv k r && negb (bool_decide (hrID r ∈ kept)) in
    Some (Z.of_nat (length (List.filter gone (hdRows db))),
          mkHistoryDB (List.filter (fun r => negb (gone r)) (hdRows db)) (hdNext db)).

(** [Store.Clear] *)
Definition ClearHistory (agentID : string) (db : HistoryDB) : HistoryDB :=
  mkHistoryDB (List.filter (fun r => negb (bool_decide (hrAgentID r = agentID))) (hdRows db)) (hdNext db).

Definition is_summary (r : HistoryRow) : bool := bool_decide (heRole (hrEntry r) = "summary").

(** [Store.ActiveSummary] *)
Definition ActiveSummary (k : Conv) (db : HistoryDB) : option HistoryRow :=
  last (by_time (List.filter (fun r => of_conv k r && is_summary r && uncompressed r) (hdRows db))).

Definition compressed_by (summaryID : Z) (ids : list Z) (r : HistoryRow) : HistoryRow :=
  if bool_decide (hrID r ∈ ids)
  then mkHistoryRow (hrID r) (hrAgentID r) (hrChannel r) (hrChannelID r) (hrEntry r) (hrTokens r)
         (hrAttachments r) summaryID (hrCreatedAt r)
  else r.

(** [Store.MarkCompressed] *)
Definition MarkCompressed (ids : list Z) (summaryID : Z) (db : HistoryDB) : HistoryDB :=
  mkHistoryDB (map (compressed_by summaryID ids) (hdRows db)) (hdNext db).

(** [Store.AppendAndCompress], one transaction *)
Definition AppendAndCompress (now : Z) (k : Conv) (summary : HistoryEntry) (tokens : Z) (ids : list Z)
    (db : HistoryDB) : HistoryDB :=
  MarkCompressed ids (hdNext db) (AppendHistory now k summary tokens EmptyString db).

(** * Compression *)

(** [types.CompressionConfig] and [NormalizeCompressionConfig] *)
Record CompressionConfig := mkCompressionConfig {
  ccEnabled : bool;
  ccModel : string;
  ccMessageThreshold : Z;
  ccTokenThresholdPct : Z;
  ccKeepRecentMessages : Z;
}.

Definition NormalizeCompressionConfig (c : CompressionConfig) : CompressionConfig :=
  let dflt z d := if z =? 0 then d else z in
  mkCompressionConfig (ccEnabled c) (ccModel c) (dflt (ccMessageThreshold c) 20)
    (dflt (ccTokenThresholdPct c) 70) (dflt (ccKeepRecentMessages c) 10).

(** [types.ContextBudget] and [NormalizeContextBudget] *)
Record ContextBudget := mkContextBudget {
  cbMaxTotalTokens : Z;
  cbSoulIdentityPct : Z;
  cbSkillsPct : Z;
  cbMemoriesPct : Z;
  cbHistoryPct : Z;
}.

Definition NormalizeContextBudget (b : ContextBudget) : ContextBudget :=
  let dflt z d := if z <=? 0 then d else z in
  mkContextBudget (dflt (cbMaxTotalTokens b) 32000) (dflt (cbSoulIdentityPct b) 15) (dflt (cbSkillsPct b) 10)
    (dflt (cbMemoriesPct b) 25) (dflt (cbHistoryPct b) 50).

(** A share of the budget, in machine arithmetic. *)
Definition share (b : ContextBudget) (pct : Z) : Z := Z.quot (wrap64 (cbMaxTotalTokens b * pct)) 100.

(** [Compressor.ShouldCompress] *)
Definition ShouldCompress (messageCount historyTokens historyBudget : Z) (cfg : CompressionConfig) : bool :=
  ccEnabled cfg &&
  ((ccMessageThreshold cfg <=? messageCount) ||
   ((0 <? historyBudget) &&
    (ccTokenThresholdPct cfg <=? Z.quot (wrap64 (historyTokens * 100)) historyBudget))).

(** [conversationKey] *)
Definition conversationKey (k : Conv) : string := k.1.1 +:+ ":" +:+ k.1.2 +:+ ":" +:+ k.2.

Definition newline : string := String "010" EmptyString.

Definition compression_system_prompt : string :=
"You are a conversation compressor for an AI agent. Your job is to produce a concise summary that lets the agent continue the conversation without losing important context.

Rules:
- Clearly distinguish RESOLVED items from OPEN/PENDING items
- Capture decisions made and why, not the deliberation process
- Record the current state of things, not the full history of how we got here
- Preserve specific details needed to continue work (names, IDs, file paths, numbers, dates)
- Drop: pleasantries, repeated attempts, verbose tool output, debugging back-and-forth that led to a resolution
- Do NOT include facts that appear in the EXISTING MEMORIES section — the agent already has access to those

Format the summary with these sections:
## Resolved
Items that were discussed and completed/closed.

## Open
Items still in progress or pending action.

## Decisions
Key decisions made during the conversation and their reasoning.

## Context
Important background details needed to continue the conversation.".

(** [BuildPrompt]; the memories are given by their contents *)
Definition BuildPrompt (messages : list HistoryRow) (memories : list string) (previousSummary : option HistoryRow)
    : string * string :=
  (compression_system_prompt,
   "EXISTING MEMORIES:" +:+ newline +:+
   (match memories with
    | [] => "(none)" +:+ newline
    | _ => str_concat (map (fun m => "- " +:+ m +:+ newline) memories)
    end) +:+ newline +:+
   (match previousSummary with
    | Some s => "PREVIOUS SUMMARY:" +:+ newline +:+ heContent (hrEntry s) +:+ newline +:+ newline
    | None => EmptyString
    end) +:+
   "CONVERSATION TO COMPRESS:" +:+ newline +:+
   str_concat (map (fun r => heRole (hrEntry r) +:+ ": " +:+ heContent (hrEntry r) +:+ newline) messages) +:+
   newline +:+ "Produce a compressed summary that captures everything the agent needs to continue this conversation effectively.").

(** What the compressor uses of the agent and of the other components; [ceComplete] is the
    provider, [None] without one, and its answer [None] on failure. *)
Record CompressEnv := mkCompressEnv {
  ceNow : Z;
  ceLoads : bool;                              (* the query of the entries succeeds *)
  ceSummaryLoads : bool;
  ceStores : bool;                             (* the transaction commits *)
  ceMemories : option (list string);           (* the 20 most recent, if there is a store *)
  ceBudget : ContextBudget;
  ceAgentModel : string;
  ceComplete : option (CompletionRequest -> option CompletionResponse);
}.

(** What a compression had recorded as spending: tokens, cost and model. *)
Record CompressSpending := mkCompressSpending { csIn : Z; csOut : Z; csCost : float64; csModel : string }.

Inductive CompressError : Type :=
| CompressLoadFailed | CompressSummaryFailed | NoCompressProvider | CompressCallFailed | CompressStoreFailed
| CompressPanics.                               (* an index past the end of the entries *)

(** The adjustment of the split: back over tool messages. *)
Fixpoint adjust_split (entries : list HistoryRow) (i : nat) : nat :=
  match i with
  | O => O
  | S i' => match entries !! i with
            | Some r => if bool_decide (heRole (hrEntry r) = "tool") then adjust_split entries i' else i
            | None => i
            end
  end.

Definition entries_tokens (l : list HistoryRow) : Z :=
  foldl (fun n r => n + HistoryEstimateTokens (heContent (hrEntry r))) 0 l.

(** The split of the entries: where the kept part begins, if there is something to compress. *)
Definition compress_split (cfg : CompressionConfig) (budget : ContextBudget) (entries : list HistoryRow)
    : result CompressError (option nat) :=
  if negb (ShouldCompress (Z.of_nat (length entries)) (entries_tokens entries) (share budget (cbHistoryPct budget)) cfg)
  then Ok None
  else if Z.of_nat (length entries) <=? ccKeepRecentMessages cfg then Ok None
  else if ccKeepRecentMessages cfg <=? 0 then Err CompressPanics
  else match adjust_split entries (Z.to_nat (Z.of_nat (length entries) - ccKeepRecentMessages cfg)) with
       | O => Ok None
       | n => Ok (Some n)
       end.

(** The body of [TryCompress] once the conversation is marked as being compressed; the
    answer tells what was recorded as spending. *)
Definition compress (env : CompressEnv) (k : Conv) (cfg : CompressionConfig) (db : HistoryDB)
    : result CompressError (option CompressSpending) * HistoryDB :=
  if negb (ceLoads env) then (Err CompressLoadFailed, db)
  else
    let entries := Recent k 1000 db in
    match compress_split cfg (NormalizeContextBudget (ceBudget env)) entries with
    | inr e => (Err e, db)
    | inl None => (Ok None, db)
    | inl (Some n) =>
      let toCompress := take n entries in
      if negb (ceSummaryLoads env) then (Err CompressSummaryFailed, db)
      else
        let prev := ActiveSummary k db in
        let '(sysProm, userProm) := BuildPrompt toCompress (default [] (ceMemories env)) prev in
        match ceComplete env with
        | None => (Err NoCompressProvider, db)
        | Some complete =>
          let maxTokens := Z.quot (HistoryEstimateTokens sysProm + HistoryEstimateTokens userProm) 4 in
          let req := mkCompletionRequest (if bool_decide (ccModel cfg = EmptyString) then ceAgentModel env else ccModel cfg)
                       [plain_message "system" sysProm; plain_message "user" userProm]
                       (if maxTokens <? 500 then 500 else maxTokens) [] in
          match complete req with
          | None => (Err CompressCallFailed, db)
          | Some resp =>
            let summary := mkHistoryEntry "summary" (rsContent resp) EmptyString EmptyString EmptyString in
            let ids := map hrID toCompress ++ (match prev with Some s => [hrID s] | None => [] end) in
            if negb (ceStores env) then (Err CompressStoreFailed, db)
            else (Ok (Some (mkCompressSpending (rsTokensIn resp) (rsTokensOut resp) (rsCost resp) (rsModel resp))),
                  AppendAndCompress (ceNow env) k summary (HistoryEstimateTokens (rsContent resp)) ids db)
          end
        end
    end.

(** [TryCompress]: [active] are the conversations being compressed, among them those of
    concurrent calls. *)
Definition TryCompress (env : CompressEnv) (active : list string) (k : Conv) (cfg : CompressionConfig) (db : HistoryDB)
    : result CompressError (option CompressSpending) * HistoryDB :=
  if negb (ccEnabled cfg) then (Ok None, db)
  else if bool_decide (conversationKey k ∈ active) then (Ok None, db)
  else compress env k cfg db.

(** * The order of a conversation *)

Definition in_order (l : list HistoryRow) : Prop := StronglySorted (fun a b => row_before b a = false) l.

Lemma insert_row_elem r l x : x ∈ insert_row r l <-> x = r \/ x ∈ l.
Proof. induction l as [|y l IH]; simpl; [set_solver|]. destruct (row_before r y); set_solver. Qed.

Lemma by_time_elem l x : x ∈ by_time l <-> x ∈ l.
Proof.
  unfold by_time. induction l as [|y l IH]; simpl; [done|]. rewrite insert_row_elem, IH. set_solver.
Qed.

Lemma row_before_total a b c : row_before b a = false -> row_before c b = false -> row_before c a = false.
Proof.
  unfold row_before. rewrite !orb_false_iff, !andb_false_iff, !Z.ltb_ge, !Z.eqb_neq. lia.
Qed.

Lemma row_before_asym a b : row_before a b = true -> row_before b a = false.
Proof.
  unfold row_before. rewrite orb_true_iff, orb_false_iff, andb_true_iff, andb_false_iff, !Z.ltb_ge, !Z.ltb_lt, Z.eqb_eq, Z.eqb_neq.
  lia.
Qed.

Lemma insert_row_order r l : in_order l -> in_order (insert_row r l).
Proof.
  unfold in_order. induction 1 as [|x l Hs IH Hx]; simpl; [by repeat constructor|].
  destruct (row_before r x) eqn:E.
  - constructor; [by constructor|]. constructor; [by apply row_before_asym|].
    eapply Forall_impl; [exact Hx|]. intros y Hy. by eapply row_before_total; [apply row_before_asym|].
  - constructor; [done|]. rewrite Forall_forall in *. intros y [->|Hy]%insert_row_elem; [done|by apply Hx].
Qed.

Lemma by_time_order l : in_order (by_time l).
Proof. unfold by_time. induction l as [|x l IH]; simpl; [constructor|by apply insert_row_order]. Qed.

Lemma in_order_suffix l l' : l' `suffix_of` l -> in_order l -> in_order l'.
Proof.
  intros [pre ->]. induction pre as [|x pre IH]; simpl; [done|]. intros H. inversion H. by apply IH.
Qed.

(** What [Recent] answers: rows of the conversation that are not compressed, in order, at most
    [limit], and any row of the conversation it leaves out is not after one it returns. *)
Lemma Recent_spec k limit db :
  let l := Recent k limit db in
  in_order l /\ Z.of_nat (length l) <= (if limit <=? 0 then DefaultLimit else limit) /\
  (forall r, r ∈ l -> r ∈ hdRows db /\ of_conv k r = true /\ uncompressed r = true) /\
  (forall r r', r ∈ hdRows db -> of_conv k r = true -> uncompressed r = true -> r ∉ l -> r' ∈ l -> row_before r' r = false).
Proof.
  intros l. pose proof (by_time_order (List.filter (fun r => of_conv k r && uncompressed r) (hdRows db))) as Hord.
  fold (conversation_rows k db) in Hord.
  set (n := if limit <=? 0 then DefaultLimit else limit) in *.
  assert (forall r, r ∈ conversation_rows k db <-> r ∈ hdRows db /\ of_conv k r = true /\ uncompressed r = true) as Hel.
  { intros r. unfold conversation_rows. by rewrite by_time_elem, filter_elem, andb_true_iff. }
  pose proof (last_n_suffix (Z.to_nat n) (conversation_rows k db)) as Hsuf. fold l in Hsuf.
  split; [by eapply in_order_suffix|]. split.
  { pose proof (last_n_length (Z.to_nat n) (conversation_rows k db)) as Hlen. unfold l, Recent. fold n.
    assert (0 <= n) by (unfold n, DefaultLimit; destruct (Z.leb_spec limit 0); lia). lia. }
  destruct Hsuf as [pre Hpre]. split.
  - intros r Hr. apply Hel. rewrite Hpre. set_solver.
  - intros r r' Hr Hk Hu Hn Hr'. assert (r ∈ pre) as Hp.
    { assert (r ∈ conversation_rows k db) as H by by apply Hel. rewrite Hpre in H. set_solver. }
    rewrite Hpre in Hord. clear -Hord Hp Hr'. unfold in_order in Hord.
    induction pre as [|x pre IH]; [by apply elem_of_nil in Hp|]. inversion Hord as [|? ? H1 H2]; subst.
    apply elem_of_cons in Hp as [->|Hp]; [|by apply IH]. rewrite Forall_forall in H2. apply H2. set_solver.
Qed.

(** * Compression *)

Record history_wf (db : HistoryDB) : Prop := {
  hw_fresh : forall r, r ∈ hdRows db -> 0 < hrID r < hdNext db;
  hw_nodup : NoDup (map hrID (hdRows db));
  hw_positive : 0 < hdNext db;
}.

Lemma adjust_split_spec entries i :
  (adjust_split entries i <= i)%nat /\
  (0 < adjust_split entries i -> forall r, entries !! adjust_split entries i = Some r -> heRole (hrEntry r) <> "tool")%nat.
Proof.
  induction i as [|i [IH1 IH2]]; simpl; [lia|]. destruct (entries !! S i) as [r|] eqn:E.
  - case_bool_decide as Hr; [split; [lia|exact IH2]|]. split; [lia|]. rewrite E. by intros _ r' [= <-].
  - split; [lia|]. rewrite E. done.
Qed.

Lemma compress_split_spec cfg b entries n :
  compress_split cfg b entries = Ok (Some n) ->
  (0 < n)%nat /\ 0 < ccKeepRecentMessages cfg <= Z.of_nat (length entries - n) /\ (n < length entries)%nat /\
  (forall r, entries !! n = Some r -> heRole (hrEntry r) <> "tool").
Proof.
  unfold compress_split. destruct (negb _); [done|]. destruct (Z.leb_spec (Z.of_nat (length entries)) (ccKeepRecentMessages cfg)); [done|].
  destruct (Z.leb_spec (ccKeepRecentMessages cfg) 0); [done|].
  set (i := Z.to_nat _). destruct (adjust_split_spec entries i) as [H1 H2].
  destruct (adjust_split entries i) as [|n']; [done|]. intros [= <-]. split; [lia|].
  split; [subst i; lia|]. split; [subst i; lia|]. apply H2. lia.
Qed.

(** Nothing is stored unless a compression succeeds, and then the rest is known. *)
Lemma compress_cases env k cfg db r db' :
  compress env k cfg db = (r, db') ->
  (db' = db /\ forall s, r <> Ok (Some s)) \/
  (exists n text sp, compress_split cfg (NormalizeContextBudget (ceBudget env)) (Recent k 1000 db) = Ok (Some n) /\
     r = Ok (Some sp) /\
     db' = AppendAndCompress (ceNow env) k (mkHistoryEntry "summary" text EmptyString EmptyString EmptyString)
             (HistoryEstimateTokens text)
             (map hrID (take n (Recent k 1000 db)) ++ match ActiveSummary k db with Some s => [hrID s] | None => [] end) db).
Proof.
  unfold compress. destruct (negb (ceLoads env)); [intros [= <- <-]; by left|].
  destruct (compress_split _ _ _) as [[n|]|]; [|intros [= <- <-]; by left..].
  destruct (negb (ceSummaryLoads env)); [intros [= <- <-]; by left|].
  destruct (BuildPrompt _ _ _) as [sysProm userProm]. destruct (ceComplete env) as [complete|]; [|intros [= <- <-]; by left].
  destruct (complete _) as [resp|]; [|intros [= <- <-]; by left].
  destruct (negb (ceStores env)); [intros [= <- <-]; by left|].
  intros [= <- <-]. right. by eexists n, _, _.
Qed.

Lemma compressed_by_same id ids r :
  hrEntry (compressed_by id ids r) = hrEntry r /\ hrID (compressed_by id ids r) = hrID r /\
  hrCreatedAt (compressed_by id ids r) = hrCreatedAt r /\ (forall k, of_conv k (compressed_by id ids r) = of_conv k r).
Proof. unfold compressed_by. by case_bool_decide. Qed.

Lemma append_compress_wf now k e tokens ids db :
  history_wf db -> history_wf (AppendAndCompress now k e tokens ids db).
Proof.
  intros [H1 H2 H3]. assert (map hrID (map (compressed_by (hdNext db) ids)
    (hdRows (AppendHistory now k e tokens EmptyString db))) = map hrID (hdRows (AppendHistory now k e tokens EmptyString db))) as E.
  { rewrite map_map. apply map_ext. intros r. apply compressed_by_same. }
  split; simpl; [| |lia].
  - intros r Hr. assert (hrID r ∈ hdNext db :: map hrID (hdRows db)) as Hin.
    { change (hrID r ∈ map hrID (hdRows (AppendHistory now k e tokens EmptyString db))). rewrite <- E.
      by apply list_elem_of_fmap_2. }
    apply elem_of_cons in Hin as [->|Hin]; [lia|]. apply list_elem_of_fmap in Hin as (r0 & -> & Hr0).
    apply H1 in Hr0. lia.
  - simpl in E. rewrite E. constructor; [|done]. intros Hin. apply list_elem_of_fmap in Hin as (r0 & E0 & Hr0).
    apply H1 in Hr0. lia.
Qed.

Lemma by_time_last l r :
  r ∈ l -> (forall x, x ∈ l -> x = r \/ row_before x r = true) -> last (by_time l) = Some r.
Proof.
  intros Hr Hmax. pose proof (by_time_order l) as Hord.
  assert (r ∈ by_time l) as Hin by by apply by_time_elem.
  destruct (by_time l) as [|y l'] eqn:E using rev_ind; [by apply elem_of_nil in Hin|].
  clear IHl'. rewrite last_snoc. f_equal.
  assert (y ∈ l) as Hy by (apply by_time_elem; rewrite E; set_solver).
  destruct (Hmax y Hy) as [->|Hb]; [done|].
  apply elem_of_app in Hin as [Hin|Hin]; [|by apply list_elem_of_singleton in Hin].
  exfalso. clear -Hord Hin Hb. unfold in_order in Hord. induction l' as [|x l' IH]; [by apply elem_of_nil in Hin|].
  inversion Hord as [|? ? H1 H2]; subst. apply elem_of_cons in Hin as [->|Hin]; [|by apply IH].
  rewrite Forall_forall in H2. rewrite (H2 y) in Hb; [done|set_solver].
Qed.

Definition new_summary (now : Z) (k : Conv) (text : string) (db : HistoryDB) : HistoryRow :=
  mkHistoryRow (hdNext db) k.1.1 k.1.2 k.2 (mkHistoryEntry "summary" text EmptyString EmptyString EmptyString)
    (HistoryEstimateTokens text) EmptyString 0 now.

Lemma history_row_perm r l : insert_row r l ≡ₚ r :: l.
Proof.
  induction l as [|x l IH]; simpl; [done|]. destruct (row_before r x); [done|]. rewrite IH. constructor.
Qed.

Lemma by_time_perm l : by_time l ≡ₚ l.
Proof. unfold by_time. induction l as [|x l IH]; simpl; [done|]. by rewrite history_row_perm, IH. Qed.

Lemma Recent_nodup k limit db : history_wf db -> NoDup (Recent k limit db).
Proof.
  intros Hwf. unfold Recent. destruct (last_n_suffix (Z.to_nat (if limit <=? 0 then DefaultLimit else limit)) (conversation_rows k db)) as [pre E].
  assert (NoDup (conversation_rows k db)) as Hnd.
  { unfold conversation_rows. rewrite by_time_perm. apply NoDup_ListNoDup, List.NoDup_filter, NoDup_ListNoDup.
    eapply NoDup_fmap_1. apply Hwf. }
  rewrite E in Hnd. by apply NoDup_app in Hnd as (_ & _ & ?).
Qed.

Lemma same_id db r r' : history_wf db -> r ∈ hdRows db -> r' ∈ hdRows db -> hrID r = hrID r' -> r = r'.
Proof.
  intros [_ Hnd _]. induction (hdRows db) as [|x l IH]; [by intros ?%elem_of_nil|]. inversion Hnd as [|? ? Hx Hl]; subst.
  intros [->|Hr]%elem_of_cons [->|Hr']%elem_of_cons E; [done| | |by apply IH].
  - destruct Hx. rewrite E. by apply list_elem_of_fmap_2.
  - destruct Hx. rewrite <- E. by apply list_elem_of_fmap_2.
Qed.

Lemma last_elem {A} (l : list A) (x : A) : last l = Some x -> x ∈ l.
Proof. intros [l' ->]%last_Some. set_solver. Qed.

Lemma take_elem {A} (n : nat) (l : list A) (x : A) : x ∈ take n l -> x ∈ l.
Proof. intros H. rewrite <- (take_drop n l). set_solver. Qed.

Lemma drop_elem {A} (n : nat) (l : list A) (x : A) : x ∈ drop n l -> x ∈ l.
Proof. intros H. rewrite <- (take_drop n l). set_solver. Qed.

(** The rows after a compression that marks the rows with the identifiers [ids]. *)
Lemma compressed_rows now k text ids db :
  (forall i, i ∈ ids -> i < hdNext db) ->
  hdRows (AppendAndCompress now k (mkHistoryEntry "summary" text EmptyString EmptyString EmptyString)
            (HistoryEstimateTokens text) ids db) =
  new_summary now k text db :: map (compressed_by (hdNext db) ids) (hdRows db).
Proof.
  intros Hids. simpl. f_equal. unfold compressed_by. rewrite bool_decide_eq_false_2; [done|]. simpl. intros Hi%Hids. lia.
Qed.

Lemma new_summary_active now k text db :
  of_conv k (new_summary now k text db) && is_summary (new_summary now k text db) && uncompressed (new_summary now k text db) = true.
Proof.
  unfold of_conv, is_summary, uncompressed. simpl. destruct k as [[a c] i]. by rewrite !bool_decide_eq_true_2.
Qed.

(** Nothing is compressed in a conversation that is not longer than what is kept. *)
Lemma compress_split_short cfg budget entries :
  Z.of_nat (length entries) <= ccKeepRecentMessages cfg -> compress_split cfg budget entries = Ok None.
Proof.
  intros Hlen. unfold compress_split. destruct (negb _); [reflexivity|].
  by rewrite (proj2 (Z.leb_le _ _) Hlen).
Qed.

Lemma compress_short env k cfg db :
  ceLoads env = true -> Z.of_nat (length (Recent k 1000 db)) <= ccKeepRecentMessages cfg ->
  compress env k cfg db = (Ok None, db).
Proof. intros Hl Hlen. unfold compress. rewrite Hl, compress_split_short by exact Hlen. reflexivity. Qed.

(** The identifiers that a compression marks belong to rows that were there. *)
Lemma compressed_ids_old k n db i :
  history_wf db ->
  i ∈ map hrID (take n (Recent k 1000 db)) ++ match ActiveSummary k db with Some s => [hrID s] | None => [] end ->
  i < hdNext db.
Proof.
  intros Hwf. destruct (Recent_spec k 1000 db) as (_ & _ & Hin & _). rewrite elem_of_app. intros [Hi|Hi].
  - apply list_elem_of_fmap in Hi as (r & -> & Hr). apply (hw_fresh db Hwf), Hin. eapply take_elem, Hr.
  - destruct (ActiveSummary k db) as [s|] eqn:Es; [|by apply elem_of_nil in Hi]. apply list_elem_of_singleton in Hi as ->.
    apply (hw_fresh db Hwf). unfold ActiveSummary in Es. apply last_elem in Es.
    by apply by_time_elem, filter_elem in Es as [Es _].
Qed.

(** The table after such a compression. *)
Lemma compressed_table now k text ids db :
  history_wf db -> (forall r, r ∈ hdRows db -> hrCreatedAt r <= now) -> (forall i, i ∈ ids -> i < hdNext db) ->
  let summary := new_summary now k text db in
  let db' := AppendAndCompress now k (mkHistoryEntry "summary" text EmptyString EmptyString EmptyString)
               (HistoryEstimateTokens text) ids db in
  hdRows db' = summary :: map (compressed_by (hdNext db) ids) (hdRows db) /\ ActiveSummary k db' = Some summary.
Proof.
  intros Hwf Hnow Hids summary db'.
  assert (hdRows db' = summary :: map (compressed_by (hdNext db) ids) (hdRows db)) as Hrows.
  { by apply compressed_rows. }
  split; [done|]. unfold ActiveSummary. rewrite Hrows. apply by_time_last.
  - apply filter_elem. split; [by left|apply new_summary_active].
  - intros x [[->|Hx]%elem_of_cons _]%filter_elem; [by left|right].
    apply list_elem_of_fmap in Hx as (r & -> & Hr). destruct (compressed_by_same (hdNext db) ids r) as (_ & E1 & E2 & _).
    unfold row_before. rewrite E1, E2. simpl. pose proof (Hnow r Hr). pose proof (hw_fresh db Hwf r Hr).
    destruct (Z.ltb_spec (hrCreatedAt r) now); [done|]. simpl. apply andb_true_iff. split; [apply Z.eqb_eq|apply Z.ltb_lt]; lia.
Qed.

(** Compression keeps what is recent and loses nothing.  When a conversation was compressed,
    the rows are those from before and one summary, which is the active one; the
    messages up to the split are marked with it and keep their text, at least the configured
    number of recent messages is left as it was (but for an earlier summary), and the kept
    part does not begin in the middle of a round of tool calls. *)
Theorem compression_keeps_recent env k cfg db sp db' :
  history_wf db -> (forall r, r ∈ hdRows db -> hrCreatedAt r <= ceNow env) ->
  compress env k cfg db = (Ok (Some sp), db') ->
  let entries := Recent k 1000 db in
  exists n text, let summary := new_summary (ceNow env) k text db in
    ccKeepRecentMessages cfg <= Z.of_nat (length (drop n entries)) /\
    (forall r, entries !! n = Some r -> heRole (hrEntry r) <> "tool") /\
    map hrEntry (hdRows db') = hrEntry summary :: map hrEntry (hdRows db) /\
    ActiveSummary k db' = Some summary /\
    (forall r, r ∈ take n entries -> exists r', r' ∈ hdRows db' /\ hrID r' = hrID r /\ hrEntry r' = hrEntry r /\
       hrCompressedBy r' = hrID summary) /\
    (forall r, r ∈ drop n entries -> ActiveSummary k db <> Some r -> r ∈ hdRows db').
Proof.
  intros Hwf Hnow Hc entries. apply compress_cases in Hc as [[_ Hno]|(n & text & sp' & Hsplit & _ & ->)]; [by destruct (Hno sp)|].
  fold entries in Hsplit |- *. exists n, text. cbv zeta. set (summary := new_summary _ _ _ _).
  set (ids := map hrID (take n entries) ++ _). set (db' := AppendAndCompress _ _ _ _ _ _).
  destruct (compress_split_spec _ _ _ _ Hsplit) as (Hn & Hkeep & Hlt & Htool).
  destruct (Recent_spec k 1000 db) as (_ & _ & Hin & _). fold entries in Hin.
  assert (forall i, i ∈ ids -> i < hdNext db) as Hids by (intros i; by apply compressed_ids_old).
  destruct (compressed_table (ceNow env) k text ids db Hwf Hnow Hids) as [Hrows Hact]. fold db' in Hrows, Hact.
  split; [rewrite length_drop; lia|]. split; [done|]. split.
  { rewrite Hrows. simpl. f_equal. rewrite map_map. apply map_ext. intros r. apply compressed_by_same. }
  split; [done|]. split.
  - intros r Hr. exists (compressed_by (hdNext db) ids r). assert (hrID r ∈ ids) as Hi.
    { unfold ids. apply elem_of_app. left. by apply list_elem_of_fmap_2. }
    split; [rewrite Hrows; right; apply list_elem_of_fmap_2, Hin; by eapply take_elem|].
    split; [apply compressed_by_same|]. split; [apply compressed_by_same|]. unfold compressed_by. by rewrite bool_decide_eq_true_2.
  - intros r Hr Hnot. assert (r ∈ hdRows db) as Hrd by (apply Hin; by eapply drop_elem).
    rewrite Hrows. right. replace r with (compressed_by (hdNext db) ids r) at 1; [by apply list_elem_of_fmap_2|].
    unfold compressed_by. rewrite bool_decide_eq_false_2; [done|]. unfold ids. rewrite elem_of_app. intros [Hi|Hi].
    + apply list_elem_of_fmap in Hi as (r' & E & Hr'). assert (r = r') as <-.
      { eapply same_id; [done|done| |done]. apply Hin. by eapply take_elem. }
      pose proof (Recent_nodup k 1000 db Hwf) as Hnd. fold entries in Hnd. rewrite <- (take_drop n entries) in Hnd.
      apply NoDup_app in Hnd as (_ & Hd & _). by apply (Hd r).
    + destruct (ActiveSummary k db) as [s|] eqn:Es; [|by apply elem_of_nil in Hi]. apply list_elem_of_singleton in Hi.
      apply Hnot. f_equal. symmetry. eapply same_id; [done|done| |done]. unfold ActiveSummary in Es. apply last_elem in Es.
      by apply by_time_elem, filter_elem in Es as [Es _].
Qed.

(** * Examples *)

Definition said (role content : string) : HistoryEntry :=
  mkHistoryEntry role content EmptyString EmptyString EmptyString.

Definition demo_conv : Conv := ("a1", "webui", "w1").

(** A conversation of the given entries, one second apart. *)
Definition history_of (l : list HistoryEntry) : HistoryDB :=
  foldl (fun db e => AppendHistory (hdNext db) demo_conv e 0 EmptyString db) (mkHistoryDB [] 1) l.

Definition demo_history : HistoryDB :=
  history_of [said "user" "one"; said "assistant" "two"; said "user" "three"; said "assistant" "four"].

Definition summary_answer (text : string) : CompletionResponse :=
  mkCompletionResponse text [] "stop" 100 20 f64_zero "m" false.

Definition demo_compress_env (complete : CompletionRequest -> option CompletionResponse) : CompressEnv :=
  mkCompressEnv 100 true true true None (mkContextBudget 0 0 0 0 0) "m" (Some complete).

(** Compression at three messages, keeping two. *)
Definition demo_compression : CompressionConfig := mkCompressionConfig true EmptyString 3 70 2.

Definition demo_compressed : result CompressError (option CompressSpending) * HistoryDB :=
  compress (demo_compress_env (fun _ => Some (summary_answer "so far"))) demo_conv demo_compression demo_history.

Lemma compression_keeps_recent_witness : exists text,
  ActiveSummary demo_conv demo_compressed.2 = Some (new_summary 100 demo_conv text demo_history).
Proof.
  destruct (compression_keeps_recent (demo_compress_env (fun _ => Some (summary_answer "so far"))) demo_conv demo_compression
    demo_history (mkCompressSpending 100 20 f64_zero "m") demo_compressed.2) as (n & text & _ & _ & _ & H & _).
  - split; [|by apply (bool_decide_unpack _); vm_compute|done].
    apply Forall_forall. by apply (bool_decide_unpack _); vm_compute.
  - apply Forall_forall. by apply (bool_decide_unpack _); vm_compute.
  - by vm_compute.
  - exists text. exact H.
Defined.
