(* ===== verification/ContextBudget.v ===== *)
(** The assembly of an agent's prompt within its token budget ([internal/ctxbudget] and
    [internal/identity/prompt.go]), over the history and the compressor of [History].

    [Assemble] cuts the sections to their shares, drops memories and the oldest messages,
    and may compress the conversation on the way, so it takes and returns the history.  The
    memories, the team context, the skills and the integrations come from services
    ([AssemblerEnv]); decoding of the stored JSON is [JsonDecoder]. *)

From stdpp Require Import pretty.
From Stdlib Require Import SpecFloat.
From S2P Require Import Prelude GoString GoFloat GoJson Types Chat AgentText History.
#[local] Open Scope Z_scope.
#[local] Open Scope list_scope.

(** * Text *)

Fixpoint last_space (i : Z) (s : string) : Z :=
  match s with
  | EmptyString => -1
  | String c s' =>
    let later := last_space (i + 1) s' in
    if later =? -1 then (if Ascii.eqb c " " then i else -1) else later
  end.

(** [truncateText]; [None] when the slice panics *)
Definition truncateText (text : string) (tokenBudget : Z) : option string :=
  let charBudget := wrap64 (tokenBudget * 3) in
  if Z.of_nat (String.length text) <=? charBudget then Some text
  else if charBudget <? 0 then None
  else
    let truncated := str_take (Z.to_nat charBudget) text in
    let lastSpace := last_space 0 truncated in
    Some (if Z.quot charBudget 2 <? lastSpace then str_take (Z.to_nat lastSpace) truncated else truncated).

(** The fields of the agent's configuration the assembler reads; the compression settings
    are decoded. *)
Record PromptConfig := mkPromptConfig {
  pcID : string;
  pcSoul : string;
  pcIdentity : string;
  pcSystemPrompt : string;
  pcBudget : ContextBudget;
  pcMemoryLimit : Z;
  pcHistoryLimit : Z;
  pcCompression : CompressionConfig;
  pcModel : string;
}.

Definition DefaultSystemPrompt : string := "You are a helpful AI assistant managed by Kyvik.".

Definition two_lines : string := newline +:+ newline.

(** [identity.BuildSystemPrompt] *)
Definition BuildSystemPrompt (c : PromptConfig) : string :=
  let part s := if bool_decide (s = EmptyString) then [] else [trim_space s] in
  match (part (pcSoul c) ++ part (pcIdentity c))%list with
  | [] => if bool_decide (pcSystemPrompt c = EmptyString) then DefaultSystemPrompt else pcSystemPrompt c
  | parts => join two_lines parts
  end.

(** [truncateToTokenBudget] *)
Definition truncateToTokenBudget (text : string) (c : PromptConfig) (budget : Z) : option string :=
  if negb (bool_decide (pcSoul c = EmptyString)) && negb (bool_decide (pcIdentity c = EmptyString)) then
    let soulText := trim_space (pcSoul c) in
    let soulTokens := EstimateTokens soulText in
    if soulTokens <=? budget then
      let remaining := budget - soulTokens in
      if 0 <? remaining then
        truncateText (trim_space (pcIdentity c)) remaining ≫= fun truncatedIdentity =>
          Some (if bool_decide (truncatedIdentity = EmptyString) then soulText
                else soulText +:+ two_lines +:+ truncatedIdentity)
      else Some soulText
    else truncateText soulText budget
  else truncateText text budget.

(** * Memories *)

(** A row of the memory store: identifier, category, content. *)
Record Memory := mkMemory { mmID : Z; mmCategory : string; mmContent : string }.

(** [memEntry]; the score is a float32 *)
Record memEntry := mkMemEntry { meCategory : string; meContent : string; mePinned : bool; meScore : float64 }.

Definition f32 (f : Z -> Z -> float64 -> float64 -> float64) : float64 -> float64 -> float64 := f 24 128.
Definition f32_of_Z (n : Z) : float64 := binary_normalize 24 128 n 0 false.

(** The score of the [i]-th of [n] recent memories. *)
Definition recency_score (n i : Z) : float64 :=
  f32 SFsub (f32_of_Z 1) (f32 SFdiv (f32 SFmul (f32_of_Z i) (f32_of_Z 1)) (f32_of_Z (n + 1))).

(** What the memory store answers: the number of candidates, the pinned and the recent
    memories, and, with an embedding provider, the result of the semantic retrieval. *)
Record MemoryService := mkMemoryService {
  msCandidates : Z;
  msPinned : option (list Memory);
  msRecent : Z -> option (list Memory);
  msSemantic : option (Z -> option (list (Memory * float64)));
}.

Definition scored_memories (ms : MemoryService) (limit : Z) : list (Memory * float64) :=
  match msSemantic ms with
  | Some retrieve => default [] (retrieve limit)
  | None =>
    match msRecent ms limit with
    | Some recent => imap (fun i m => (m, recency_score (Z.of_nat (length recent)) (Z.of_nat i))) recent
    | None => []
    end
  end.

Definition candidateNudge (candidates messageCount : Z) : string :=
  if 0 <? candidates then
    if (0 <? messageCount) && (Z.rem messageCount 15 =? 0) && (5 <? candidates)
    then "You have " +:+ pretty candidates +:+ " unreviewed memory candidates piling up. Please review them soon."
    else "You have " +:+ pretty candidates +:+ " pending memory candidates. Use the memory tool's 'review' action to accept or reject them when convenient."
  else EmptyString.

Definition memory_header : string := two_lines +:+ "## Memories" +:+ newline.

(** [formatMemoryBlock] *)
Definition formatMemoryBlock (entries : list memEntry) : string :=
  memory_header +:+ str_concat (map (fun e => "- [" +:+ meCategory e +:+ "] " +:+ meContent e +:+ newline) entries).

Definition prependNudge (nudge : string) (block : string) : string :=
  if bool_decide (nudge = EmptyString) then block
  else match strip_prefix memory_header block with
       | Some rest => memory_header +:+ nudge +:+ newline +:+ rest
       | None => block
       end.

(** Pinned memories, then the scored ones that are not among them. *)
Definition memory_entries (ms : MemoryService) (limit : Z) : list memEntry :=
  let pinned := default [] (msPinned ms) in
  (map (fun m => mkMemEntry (mmCategory m) (mmContent m) true (S754_zero false)) pinned ++
  map (fun x => mkMemEntry (mmCategory x.1) (mmContent x.1) false x.2)
    (List.filter (fun x => negb (bool_decide (mmID x.1 ∈ map mmID pinned))) (scored_memories ms limit)))%list.

(** The entry to drop: the search goes from the end, so of equal scores the last one. *)
Fixpoint lowest_from (i : nat) (l : list memEntry) : option (nat * float64) :=
  match l with
  | [] => None
  | e :: l' =>
    let best := lowest_from (S i) l' in
    if negb (mePinned e) && f64_lt (meScore e) (match best with Some (_, s) => s | None => f32_of_Z 2 end)
    then Some (i, meScore e) else best
  end.

(** The loop that drops entries until the block fits; one round per entry at most. *)
Fixpoint fit_memories (fuel : nat) (nudge : string) (budget : Z) (entries : list memEntry)
    : option (list memEntry * (string * Z)) :=
  let block := prependNudge nudge (formatMemoryBlock entries) in
  let tokens := EstimateTokens block in
  if tokens <=? budget then Some (entries, (block, tokens))
  else match lowest_from 0 entries with
       | None => Some (entries, (block, tokens))
       | Some (i, _) =>
         match fuel with
         | O => None
         | S fuel => fit_memories fuel nudge budget (take i entries ++ drop (S i) entries)
         end
       end.

(** [buildMemoryBlock] *)
Definition buildMemoryBlock (ms : MemoryService) (memoryLimit messageCount budget : Z) : option (string * Z) :=
  let nudge := candidateNudge (msCandidates ms) messageCount in
  match memory_entries ms (if memoryLimit <=? 0 then 10 else memoryLimit) with
  | [] =>
    if bool_decide (nudge = EmptyString) then Some (EmptyString, 0)
    else let block := memory_header +:+ nudge +:+ newline in Some (block, EstimateTokens block)
  | entries => snd <$> fit_memories (length entries) nudge budget entries
  end.

(** * History *)

(** [json.Unmarshal] of the two columns that hold JSON; [None] is an error. *)
Class JsonDecoder := {
  decode_calls : string -> option (list ToolUse);
  decode_attachments : string -> option (list Attachment);
}.

Definition decoded_attachments `{JsonDecoder} (json : string) : list Attachment :=
  if bool_decide (json = EmptyString) then [] else default [] (decode_attachments json).

(** Appending a message, merged with the one before it when [same] says so. *)
Definition append_merged (same : ChatMessage -> bool) (messages : list ChatMessage) (m : ChatMessage) : list ChatMessage :=
  match last messages with
  | Some prev =>
    if same prev
    then take (length messages - 1) messages ++
         [mkChatMessage (cmRole prev) (cmContent prev +:+ newline +:+ cmContent m)
            (cmAttachments prev ++ cmAttachments m) (cmToolCalls prev) (cmToolCallID prev)]
    else messages ++ [m]
  | None => messages ++ [m]
  end.

(** One entry of the conversion to chat messages. *)
Definition convert_entry `{JsonDecoder} (messages : list ChatMessage) (r : HistoryRow) : list ChatMessage :=
  let e := hrEntry r in
  let plain role := mkChatMessage role (heContent e) (decoded_attachments (hrAttachments r)) [] EmptyString in
  if bool_decide (heRole e = "tool") then
    if bool_decide (heToolCallID e = EmptyString) then messages
    else messages ++ [mkChatMessage "tool" (heContent e) [] [] (heToolCallID e)]
  else if bool_decide (heRole e = "assistant") then
    match (if bool_decide (heToolCallsJSON e = EmptyString) then None else decode_calls (heToolCallsJSON e)) with
    | Some (c :: cs) => messages ++ [mkChatMessage "assistant" (heContent e) [] (c :: cs) EmptyString]
    | _ =>
      if has_prefix (heContent e) "[tool_calls]" || bool_decide (heContent e = EmptyString) then messages
      else append_merged (fun prev => bool_decide (cmRole prev = "assistant") && bool_decide (length (cmToolCalls prev) = 0%nat))
             messages (plain "assistant")
    end
  else
    let role := if bool_decide (heRole e = "summary") then "system" else heRole e in
    append_merged (fun prev => bool_decide (cmRole prev = role)) messages (plain role).

Definition is_tool (m : ChatMessage) : bool := bool_decide (cmRole m = "tool").

(** The tool messages at the head of a list. *)
Fixpoint tool_run (l : list ChatMessage) : list ChatMessage :=
  match l with
  | m :: l' => if is_tool m then m :: tool_run l' else []
  | [] => []
  end.

Definition answered (run : list ChatMessage) (id : string) : bool := existsb (fun m => bool_decide (cmToolCallID m = id)) run.

(** Whether every call of the message has a result in the run: the sets of identifiers have
    the same size. *)
Definition complete_pair (m : ChatMessage) (run : list ChatMessage) : bool :=
  forallb (fun tc => answered run (tuID tc)) (cmToolCalls m).

(** The search for a parent, backwards through the result. *)
Fixpoint has_parent (id : string) (rev_result : list ChatMessage) : bool :=
  match rev_result with
  | [] => false
  | m :: before =>
    if bool_decide (cmRole m = "assistant") && negb (bool_decide (length (cmToolCalls m) = 0%nat))
    then existsb (fun tc => bool_decide (tuID tc = id)) (cmToolCalls m)
    else if is_tool m then has_parent id before else false
  end.

(** The loop of [sanitizeToolMessages]; [skip] counts the messages of the run that was
    already dealt with. *)
Fixpoint sanitize_from (skip : nat) (result messages : list ChatMessage) : list ChatMessage :=
  match messages with
  | [] => result
  | m :: rest =>
    match skip with
    | S skip => sanitize_from skip result rest
    | O =>
      if bool_decide (cmRole m = "assistant") then
        match cmToolCalls m with
        | [] => sanitize_from 0 (result ++ [m]) rest
        | _ =>
          let run := tool_run rest in
          sanitize_from (length run)
            (if complete_pair m run then result ++ m :: run
             else if bool_decide (cmContent m = EmptyString) then result
             else result ++ [plain_message "assistant" (cmContent m)]) rest
        end
      else if is_tool m then
        sanitize_from 0 (if has_parent (cmToolCallID m) (rev result) then result ++ [m] else result) rest
      else sanitize_from 0 (result ++ [m]) rest
    end
  end.

(** [sanitizeToolMessages] *)
Definition sanitizeToolMessages (messages : list ChatMessage) : list ChatMessage := sanitize_from 0 [] messages.

(** Dropping the oldest messages while the total is over the budget. *)
Fixpoint drop_oldest (budget total : Z) (messages : list ChatMessage) : Z * list ChatMessage :=
  match messages with
  | [] => (total, [])
  | m :: rest =>
    if budget <? total then drop_oldest budget (total - EstimateTokens (cmContent m)) rest else (total, messages)
  end.

(** Dropping tool messages at the head. *)
Fixpoint drop_orphans (total : Z) (messages : list ChatMessage) : Z * list ChatMessage :=
  match messages with
  | [] => (total, [])
  | m :: rest => if is_tool m then drop_orphans (total - EstimateTokens (cmContent m)) rest else (total, messages)
  end.

(** The services of the assembler; [None] is one that is not set, and an inner [None] an
    error of it. *)
Record AssemblerEnv := mkAssemblerEnv {
  asMemory : option MemoryService;
  asHistory : bool;                                    (* there is a history store *)
  asRecentLoads : bool;
  asSummaryLoads : bool;
  asTeam : option (option string);
  asIntegrations : option (option string);
  asSkills : option (option string);
  asCompressor : option (CompressEnv * list string);   (* with what is being compressed *)
}.

Record AssembleOptions := mkAssembleOptions {
  aoChannel : string;
  aoChannelID : string;
  aoUserRole : string;
  aoMessageCount : Z;
  aoToolTokens : Z;
  aoCurrentTokens : Z;
}.

Definition summary_message (text : string) : ChatMessage :=
  plain_message "system" ("Conversation summary (older messages have been compressed):" +:+ two_lines +:+ text).

Definition history_conv (c : PromptConfig) (o : AssembleOptions) : Conv :=
  (pcID c, or_default (aoChannel o) "internal", aoChannelID o).

(** The recent entries as messages, repaired. *)
Definition loaded_messages `{JsonDecoder} (c : PromptConfig) (o : AssembleOptions) (db : HistoryDB) : list ChatMessage :=
  sanitizeToolMessages (foldl convert_entry []
    (Recent (history_conv c o) (if pcHistoryLimit c <=? 0 then DefaultLimit else pcHistoryLimit c) db)).

(** The part of [buildHistory] that compresses: whether it succeeded, so that the history is
    built again; [None] when the compression panics. *)
Definition compress_history `{JsonDecoder} (env : AssemblerEnv) (c : PromptConfig) (o : AssembleOptions) (budget : Z)
    (db : HistoryDB) : option (bool * HistoryDB) :=
  let messages := loaded_messages c o db in
  match (if asSummaryLoads env then ActiveSummary (history_conv c o) db else None), asCompressor env with
  | None, Some (cenv, active) =>
    let cfg := NormalizeCompressionConfig (pcCompression c) in
    if ccEnabled cfg && ShouldCompress (Z.of_nat (length messages)) (total_estimate messages) budget cfg then
      match TryCompress cenv active (history_conv c o) cfg db with
      | (inl _, db) => Some (true, db)
      | (inr CompressPanics, _) => None
      | (inr _, db) => Some (false, db)
      end
    else Some (false, db)
  | _, _ => Some (false, db)
  end.

(** The part that cuts the messages to the budget and puts the summary before them. *)
Definition trim_history (budget : Z) (summary : option HistoryRow) (messages : list ChatMessage) : list ChatMessage * Z :=
  let '(total, messages) := drop_oldest budget (total_estimate messages) messages in
  let '(total, messages) := drop_orphans total messages in
  match summary with
  | Some s =>
    let m := summary_message (heContent (hrEntry s)) in
    (m :: messages, total + EstimateTokens (cmContent m))
  | None => (messages, total)
  end.

Inductive HistoryFailure : Type :=
| HistoryPanics
| HistoryRunning.            (* the recursion after a compression has not ended *)

(** [buildHistory]; the recursion after a compression takes one unit of fuel *)
Fixpoint buildHistory `{JsonDecoder} (fuel : nat) (env : AssemblerEnv) (c : PromptConfig) (o : AssembleOptions)
    (budget : Z) (db : HistoryDB) : result HistoryFailure (list ChatMessage * Z * HistoryDB) :=
  if negb (asRecentLoads env) then Ok ([], 0, db)
  else
    let summary := if asSummaryLoads env then ActiveSummary (history_conv c o) db else None in
    let messages := loaded_messages c o db in
    match compress_history env c o budget db with
    | None => Err HistoryPanics
    | Some (true, db) => match fuel with O => Err HistoryRunning | S fuel => buildHistory fuel env c o budget db end
    | Some (false, db) => Ok (trim_history budget summary messages, db)
    end.

(** * Assembly *)

(** [AssembledContext] *)
Record AssembledContext := mkAssembled {
  acSystemPrompt : string;
  acMessages : list ChatMessage;
  acTokenEstimate : Z;
}.

(** A section under the shared budget of skills: its text, its tokens, what remains. *)
Definition section_block (title : string) (content : option (option string)) (trim : bool) (remaining : Z)
    : option (string * Z * Z) :=
  match content with
  | Some (Some text) =>
    if bool_decide ((if trim then trim_space text else text) = EmptyString) then Some (EmptyString, 0, remaining)
    else
      let block := two_lines +:+ title +:+ newline +:+ (if trim then trim_space text else text) in
      (if remaining <? EstimateTokens block then truncateText block remaining else Some block) ≫= fun block =>
        Some (block, EstimateTokens block, Z.max 0 (remaining - EstimateTokens block))
  | _ => Some (EmptyString, 0, remaining)
  end.

Definition role_context (role : string) : string :=
  if bool_decide (role = EmptyString) then EmptyString
  else two_lines +:+ "## Current User Context" +:+ newline +:+
       "The user you are speaking with has the dashboard role: " +:+ role +:+
       ". Only offer to show or do things their role permits.".

Definition outputReserve : Z := 4096.

Definition reserve (tokens : Z) : Z := if 0 <? tokens then tokens else 0.

(** [Assemble]; [None] when a slice panics or the history does not end *)
Definition Assemble `{JsonDecoder} (fuel : nat) (env : AssemblerEnv) (c : PromptConfig) (o : AssembleOptions) (db : HistoryDB)
    : option (AssembledContext * HistoryDB) :=
  let budget := NormalizeContextBudget (pcBudget c) in
  let soulBudget := share budget (cbSoulIdentityPct budget) in
  let memoryBudget := share budget (cbMemoriesPct budget) in
  let skillsBudget := share budget (cbSkillsPct budget) in
  let fullSoul := BuildSystemPrompt c in
  let cut := soulBudget <? EstimateTokens fullSoul in
  (if cut then truncateToTokenBudget fullSoul c soulBudget else Some fullSoul) ≫= fun soul =>
  let soulTokens := EstimateTokens soul in
  section_block "## Team Context" (asTeam env) true skillsBudget ≫= fun '(teamBlock, teamTokens, rest1) =>
  section_block "## Active Integrations" (asIntegrations env) true rest1 ≫= fun '(integrationsBlock, integrationsTokens, rest2) =>
  section_block "## Active Skills" (asSkills env) false rest2 ≫= fun '(skillsBlock, skillsTokens, _) =>
  match asMemory env with
  | Some ms => buildMemoryBlock ms (pcMemoryLimit c) (aoMessageCount o) memoryBudget
  | None => Some (EmptyString, 0)
  end ≫= fun '(memoryBlock, memoryTokens) =>
  let surplus := (if cut then 0 else soulBudget - soulTokens) +
                 (skillsBudget - (teamTokens + integrationsTokens + skillsTokens)) + (memoryBudget - memoryTokens) in
  let historyBudget := Z.max 0 (share budget (cbHistoryPct budget) + surplus - reserve (aoToolTokens o)
                                - reserve (aoCurrentTokens o) - outputReserve) in
  let systemPrompt := soul +:+ teamBlock +:+ integrationsBlock +:+ skillsBlock +:+ memoryBlock +:+ role_context (aoUserRole o) in
  let estimate := soulTokens + teamTokens + integrationsTokens + skillsTokens + memoryTokens in
  if asHistory env then
    match buildHistory fuel env c o historyBudget db with
    | inl (messages, histTokens, db) => Some (mkAssembled systemPrompt messages (estimate + histTokens), db)
    | inr _ => None
    end
  else Some (mkAssembled systemPrompt [] estimate, db).

(** * Sections fit *)

Lemma EstimateTokens_le (s : string) (b : Z) :
  0 <= b -> Z.of_nat (String.length s) <= 3 * b -> EstimateTokens s <= b.
Proof.
  intros Hb Hl. unfold EstimateTokens, estimate_by. set (n := Z.of_nat (String.length s)) in *.
  pose proof (Z.div_le_upper_bound n 3 b). destruct (Z.eqb_spec (n / 3) 0), (Z.ltb_spec 0 n); simpl; lia.
Qed.

Lemma EstimateTokens_le_up (s : string) (b : Z) :
  1 <= b -> Z.of_nat (String.length s) <= 3 * b + 2 -> EstimateTokens s <= b.
Proof.
  intros Hb Hl. unfold EstimateTokens, estimate_by. set (n := Z.of_nat (String.length s)) in *.
  pose proof (Z_div_mod_eq_full n 3). pose proof (Z.mod_pos_bound n 3).
  destruct (Z.eqb_spec (n / 3) 0), (Z.ltb_spec 0 n); simpl; lia.
Qed.

Lemma EstimateTokens_ge (s : string) : Z.of_nat (String.length s) <= 3 * EstimateTokens s + 2.
Proof.
  unfold EstimateTokens, estimate_by. set (n := Z.of_nat (String.length s)).
  pose proof (Z_div_mod_eq_full n 3). pose proof (Z.mod_pos_bound n 3).
  destruct (Z.eqb_spec (n / 3) 0), (Z.ltb_spec 0 n); simpl; lia.
Qed.

Lemma str_take_length (n : nat) (s : string) : (String.length (str_take n s) <= n)%nat.
Proof. revert s. induction n as [|n IH]; intros [|c s]; simpl; [lia..|]. specialize (IH s). lia. Qed.

Lemma str_take_le (n : nat) (s : string) : (String.length (str_take n s) <= String.length s)%nat.
Proof. revert s. induction n as [|n IH]; intros [|c s]; simpl; [lia..|]. specialize (IH s). lia. Qed.

Definition small (budget : Z) : Prop := 0 <= budget <= 2 ^ 60.

Lemma truncateText_fits (text : string) (b : Z) :
  small b -> exists t, truncateText text b = Some t /\ Z.of_nat (String.length t) <= 3 * b.
Proof.
  intros [H0 H1]. unfold truncateText.
  rewrite wrap64_id by (unfold in_int64, min_int64, max_int64; lia).
  destruct (Z.leb_spec (Z.of_nat (String.length text)) (b * 3)); [exists text; split; [done|lia]|].
  destruct (Z.ltb_spec (b * 3) 0); [lia|]. eexists. split; [done|].
  pose proof (str_take_length (Z.to_nat (b * 3)) text). destruct (_ <? _); [|lia].
  pose proof (str_take_le (Z.to_nat (last_space 0 (str_take (Z.to_nat (b * 3)) text))) (str_take (Z.to_nat (b * 3)) text)). lia.
Qed.

Lemma truncateText_tokens text b t : small b -> truncateText text b = Some t -> EstimateTokens t <= b.
Proof.
  intros Hb Ht. destruct (truncateText_fits text b Hb) as (t' & E & Hl). rewrite E in Ht. injection Ht as <-.
  apply EstimateTokens_le; [apply Hb|done].
Qed.

(** The cut soul and identity exceed their share by at most one token: the blank line
    between them is not counted. *)
Lemma truncated_soul_fits text c b :
  small b -> exists t, truncateToTokenBudget text c b = Some t /\ EstimateTokens t <= b + 1.
Proof.
  intros Hb. unfold truncateToTokenBudget. destruct (negb _ && negb _).
  2:{ destruct (truncateText_fits text b Hb) as (t & E & _). exists t. split; [done|].
      pose proof (truncateText_tokens text b t Hb E). lia. }
  set (soul := trim_space (pcSoul c)). destruct (Z.leb_spec (EstimateTokens soul) b) as [Hs|Hs].
  2:{ destruct (truncateText_fits soul b Hb) as (t & E & _). exists t. split; [done|].
      pose proof (truncateText_tokens soul b t Hb E). lia. }
  destruct (Z.ltb_spec 0 (b - EstimateTokens soul)); [|exists soul; split; [done|lia]].
  pose proof (EstimateTokens_nonneg soul).
  destruct (truncateText_fits (trim_space (pcIdentity c)) (b - EstimateTokens soul)) as (t & -> & Hl).
  { destruct Hb. split; lia. }
  eexists. split; [reflexivity|]. case_bool_decide; [lia|].
  apply EstimateTokens_le_up; [lia|]. rewrite !str_length_app. pose proof (EstimateTokens_ge soul).
  change (String.length two_lines) with 2%nat. lia.
Qed.

Lemma section_fits title content trim remaining :
  small remaining -> exists block tokens rest, section_block title content trim remaining = Some (block, tokens, rest) /\
    0 <= tokens /\ tokens <= remaining /\ rest = remaining - tokens.
Proof.
  intros Hr. pose proof Hr as [Hr0 _]. unfold section_block. destruct content as [[text|]|].
  2,3: eexists _, 0, _; split_and!; [done|lia..].
  case_bool_decide; [eexists _, 0, _; split_and!; [done|lia..]|]. set (block := _ +:+ _).
  assert (exists b, (if remaining <? EstimateTokens block then truncateText block remaining else Some block) = Some b /\
    EstimateTokens b <= remaining) as (b & -> & Hb).
  { destruct (Z.ltb_spec remaining (EstimateTokens block)); [|by exists block].
    destruct (truncateText_fits block remaining Hr) as (t & E & _). exists t. split; [done|].
    by apply (truncateText_tokens block). }
  simpl. pose proof (EstimateTokens_nonneg b). eexists _, _, _. split_and!; [done|lia..].
Qed.

(** * Memories *)

Lemma lowest_from_spec i l j s :
  lowest_from i l = Some (j, s) -> (i <= j)%nat /\ exists e, l !! (j - i)%nat = Some e /\ mePinned e = false.
Proof.
  revert i. induction l as [|e l IH]; intros i; simpl; [done|].
  destruct (negb (mePinned e) && _) eqn:E.
  - intros [= <- <-]. split; [lia|]. rewrite Nat.sub_diag. exists e. split; [done|]. to_prop. done.
  - intros Hl. destruct (IH (S i) Hl) as (H1 & e' & H2 & H3). split; [lia|]. exists e'. split; [|done].
    by replace (j - i)%nat with (S (j - S i)) by lia.
Qed.

Lemma drop_nth_length {A} (l : list A) i x : l !! i = Some x -> length l = S (length (take i l ++ drop (S i) l)).
Proof.
  intros H. pose proof (lookup_lt_Some _ _ _ H). rewrite length_app, length_take, length_drop. lia.
Qed.

Definition pinned_of (l : list memEntry) : list memEntry := List.filter mePinned l.

(** The loop ends with the fuel it is given, keeps every pinned memory and the order, and
    exceeds the budget only when nothing is left that it may drop. *)
Lemma fit_memories_spec fuel nudge budget entries :
  (length entries <= fuel)%nat ->
  exists kept block tokens, fit_memories fuel nudge budget entries = Some (kept, (block, tokens)) /\
    sublist kept entries /\ pinned_of kept = pinned_of entries /\
    block = prependNudge nudge (formatMemoryBlock kept) /\ tokens = EstimateTokens block /\
    (tokens <= budget \/ lowest_from 0 kept = None).
Proof.
  revert entries. induction fuel as [|fuel IH]; intros entries Hlen; simpl.
  - destruct entries; [|simpl in Hlen; lia]. simpl.
    destruct (Z.leb_spec (EstimateTokens (prependNudge nudge (formatMemoryBlock []))) budget);
      eexists [], _, _; split_and!; auto.
  - destruct (Z.leb_spec (EstimateTokens (prependNudge nudge (formatMemoryBlock entries))) budget).
    { eexists entries, _, _. split_and!; auto. }
    destruct (lowest_from 0 entries) as [[i s]|] eqn:El; [|eexists entries, _, _; split_and!; auto].
    destruct (lowest_from_spec 0 entries i s El) as (_ & e & He & Hp). rewrite Nat.sub_0_r in He.
    destruct (IH (take i entries ++ drop (S i) entries)) as (kept & block & tokens & E & Hsub & Hpin & Hrest).
    { rewrite (drop_nth_length entries i e He) in Hlen. lia. }
    exists kept, block, tokens. split; [done|].
    pose proof (take_drop_middle entries i e He) as Hmid. split_and!; try apply Hrest.
    + etransitivity; [exact Hsub|]. rewrite <- Hmid at 3. apply sublist_app; [done|]. by constructor.
    + rewrite Hpin. unfold pinned_of. rewrite <- Hmid at 3. rewrite !List.filter_app. simpl. by rewrite Hp.
Qed.

(** * Tool rounds *)

#[local] Arguments is_tool : simpl never.
#[local] Arguments complete_pair : simpl never.


Definition calls_tools (m : ChatMessage) : bool :=
  bool_decide (cmRole m = "assistant") && negb (bool_decide (length (cmToolCalls m) = 0%nat)).

(** Every message with tool calls is followed by results of all of them, and tool messages
    stand nowhere else; [skip] counts the results of the open round. *)
Fixpoint paired_from (skip : nat) (l : list ChatMessage) : bool :=
  match l with
  | [] => true
  | m :: rest =>
    match skip with
    | S skip => paired_from skip rest
    | O =>
      negb (is_tool m) &&
      if calls_tools m then complete_pair m (tool_run rest) && paired_from (length (tool_run rest)) rest
      else paired_from 0 rest
    end
  end.

Definition tools_paired : list ChatMessage -> bool := paired_from 0.

Lemma tool_run_app l1 l2 : tool_run l2 = [] -> tool_run (l1 ++ l2) = tool_run l1.
Proof.
  intros H. induction l1 as [|m l1 IH]; simpl; [done|]. destruct (is_tool m); [by rewrite IH|done].
Qed.

Lemma tool_run_all run : Forall (fun m => is_tool m = true) run -> tool_run run = run.
Proof. induction 1 as [|m run Hm _ IH]; simpl; [done|]. by rewrite Hm, IH. Qed.

Lemma tool_run_tools l : Forall (fun m => is_tool m = true) (tool_run l).
Proof. induction l as [|m l IH]; simpl; [constructor|]. destruct (is_tool m) eqn:E; by constructor. Qed.

Lemma tool_run_drop l : tool_run (drop (length (tool_run l)) l) = [].
Proof. induction l as [|m l IH]; simpl; [done|]. destruct (is_tool m) eqn:E; simpl; [done|by rewrite E]. Qed.

Lemma tool_run_take l : take (length (tool_run l)) l = tool_run l.
Proof. induction l as [|m l IH]; simpl; [done|]. destruct (is_tool m); simpl; [by rewrite IH|done]. Qed.

Lemma tool_run_length l : (length (tool_run l) <= length l)%nat.
Proof. induction l as [|m l IH]; simpl; [lia|]. destruct (is_tool m); simpl; lia. Qed.

Lemma paired_app k l1 l2 :
  tool_run l2 = [] -> (k <= length l1)%nat -> paired_from k l1 = true -> paired_from 0 l2 = true ->
  paired_from k (l1 ++ l2) = true.
Proof.
  intros Hl2. revert k. induction l1 as [|m l1 IH]; intros k Hk H1 H2; simpl in *; [by destruct k; [|lia]|].
  destruct k as [|k]; [|apply IH; [lia|done..]].
  apply andb_true_iff in H1 as [-> H1]. simpl. destruct (calls_tools m); [|apply IH; [lia|done..]].
  rewrite tool_run_app by done. apply andb_true_iff in H1 as [-> H1]. simpl.
  apply IH; [apply tool_run_length|done..].
Qed.

Lemma paired_skip l : paired_from (length l) l = true.
Proof. induction l as [|m l IH]; simpl; done. Qed.

Lemma calls_not_tool m : calls_tools m = true -> is_tool m = false.
Proof.
  unfold calls_tools, is_tool. intros [Hr _]%andb_true_iff. apply bool_decide_eq_true in Hr. rewrite Hr. done.
Qed.

Lemma paired_round m run :
  calls_tools m = true -> Forall (fun m => is_tool m = true) run -> complete_pair m run = true ->
  paired_from 0 (m :: run) = true.
Proof.
  intros Hm Hrun Hc. simpl. rewrite (calls_not_tool m Hm), Hm, tool_run_all, Hc by done. apply paired_skip.
Qed.

Lemma has_parent_head id m r : is_tool m = false -> calls_tools m = false -> has_parent id (m :: r) = false.
Proof. simpl. unfold calls_tools. intros -> ->. done. Qed.

(** What holds between two rounds of the loop: no orphan has a parent. *)
Definition no_parent (skip : nat) (result messages : list ChatMessage) : Prop :=
  tool_run (drop skip messages) <> [] -> skip = O /\ forall id, has_parent id (rev result) = false.

Lemma sanitize_from_paired skip result messages :
  paired_from 0 result = true -> no_parent skip result messages ->
  paired_from 0 (sanitize_from skip result messages) = true.
Proof.
  revert skip result. induction messages as [|m rest IH]; intros skip result Hp Hn; simpl; [done|].
  destruct skip as [|skip].
  2:{ apply IH; [done|]. intros Hr. destruct (Hn Hr). done. }
  assert (forall m', is_tool m' = false -> calls_tools m' = false -> paired_from 0 (result ++ [m']) = true /\
    no_parent 0 (result ++ [m']) rest) as Hsnoc.
  { intros m' Ht Hc. split.
    - apply paired_app; [simpl; by rewrite Ht|lia|done|]. simpl. by rewrite Ht, Hc.
    - intros _. split; [done|]. intros id. rewrite rev_app_distr. by apply has_parent_head. }
  case_bool_decide as Hrole.
  - assert (is_tool m = false) as Ht by (unfold is_tool; by rewrite Hrole).
    destruct (cmToolCalls m) as [|c cs] eqn:Ec.
    { destruct (Hsnoc m) as [? ?]; [done|unfold calls_tools; by rewrite Ec, andb_false_r|]. by apply IH. }
    assert (calls_tools m = true) as Hm by (unfold calls_tools; by rewrite Ec, Hrole).
    assert (forall result', no_parent (length (tool_run rest)) result' rest) as Hskip.
    { intros result' Hr. by rewrite tool_run_drop in Hr. }
    apply IH; [|apply Hskip]. destruct (complete_pair m (tool_run rest)) eqn:Hcp.
    + apply paired_app; [simpl; by rewrite Ht|lia|done|]. apply paired_round; [done|apply tool_run_tools|done].
    + case_bool_decide; [done|]. by apply Hsnoc.
  - destruct (is_tool m) eqn:Ht.
    + destruct (Hn ltac:(simpl; by rewrite Ht)) as [_ Hpar]. rewrite Hpar. apply IH; [done|]. by intros _.
    + destruct (Hsnoc m) as [? ?]; [done|unfold calls_tools; by rewrite bool_decide_eq_false_2|]. by apply IH.
Qed.

Lemma sanitize_paired messages : tools_paired (sanitizeToolMessages messages) = true.
Proof. apply sanitize_from_paired; [done|]. by intros _. Qed.

Lemma sanitize_from_id skip result messages :
  (skip <= length messages)%nat -> paired_from skip messages = true ->
  sanitize_from skip result messages = result ++ drop skip messages.
Proof.
  revert skip result. induction messages as [|m rest IH]; intros skip result Hl Hp; simpl in *.
  { by rewrite drop_nil, app_nil_r. }
  destruct skip as [|skip]; [|by rewrite IH by (done || lia)]. apply andb_true_iff in Hp as [Ht%negb_true_iff Hp].
  rewrite Ht. simpl. destruct (calls_tools m) eqn:Hm.
  - apply andb_true_iff in Hp as [Hc Hp]. unfold calls_tools in Hm. apply andb_true_iff in Hm as [-> Hcalls].
    destruct (cmToolCalls m) as [|c cs] eqn:Ec; [by simpl in Hcalls|]. rewrite Hc, IH by (done || apply tool_run_length).
    rewrite <- app_assoc. simpl. do 2 f_equal. rewrite <- (tool_run_take rest) at 1. apply take_drop.
  - assert (sanitize_from 0 (result ++ [m]) rest = result ++ m :: rest) as E.
    { rewrite IH by (done || lia). by rewrite <- app_assoc. }
    case_bool_decide as Hrole; [|done]. destruct (cmToolCalls m) as [|c cs] eqn:Ec; [done|].
    unfold calls_tools in Hm. by rewrite Hrole, Ec in Hm.
Qed.

(** The repair of a conversation is exact: in what it answers every message with tool calls
    is followed by results of all of them and a result stands nowhere but after such a
    message, and a conversation that is already like that is left alone. *)
Theorem sanitize_repairs (messages : list ChatMessage) :
  tools_paired (sanitizeToolMessages messages) = true /\
  (tools_paired messages = true <-> sanitizeToolMessages messages = messages).
Proof.
  split; [apply sanitize_paired|]. split.
  - intros H. unfold sanitizeToolMessages. rewrite sanitize_from_id by (done || lia). done.
  - intros <-. apply sanitize_paired.
Qed.

(** * The history *)

Lemma paired_end k l : (k <= length (tool_run l))%nat -> paired_from k l = true -> paired_from (length (tool_run l)) l = true.
Proof.
  revert k. induction l as [|m l IH]; intros k Hk Hp; simpl in *; [done|].
  destruct (is_tool m) eqn:Ht; simpl in *.
  - destruct k as [|k]; simpl in *; [done|]. apply (IH k); [lia|done].
  - destruct k as [|k]; [done|lia].
Qed.

Lemma paired_tail m l :
  paired_from (length (tool_run (m :: l))) (m :: l) = true -> paired_from (length (tool_run l)) l = true.
Proof.
  simpl. destruct (is_tool m); simpl; [done|].
  destruct (calls_tools m); [by intros [_ H]%andb_true_iff|]. apply paired_end. lia.
Qed.

(** Any tail of a paired conversation is paired once its leading results are dropped. *)
Lemma paired_suffix l' l : l' `suffix_of` l -> tools_paired l = true -> paired_from (length (tool_run l')) l' = true.
Proof.
  intros [pre ->] H. apply paired_end in H; [|lia]. induction pre as [|m pre IH]; [done|].
  apply IH. by apply (paired_tail m).
Qed.

Lemma paired_drop k l : paired_from k l = true -> tools_paired (drop k l) = true.
Proof. revert k. induction l as [|m l IH]; intros [|k]; simpl; try done. apply IH. Qed.

Lemma total_estimate_cons m l : total_estimate (m :: l) = EstimateTokens (cmContent m) + total_estimate l.
Proof. done. Qed.

Lemma drop_oldest_spec budget l total rest :
  0 <= budget -> drop_oldest budget (total_estimate l) l = (total, rest) ->
  rest `suffix_of` l /\ total = total_estimate rest /\ total <= budget.
Proof.
  intros Hb. induction l as [|m l IH].
  { intros [= <- <-]. done. }
  cbn [drop_oldest]. rewrite total_estimate_cons. replace (_ + _ - _) with (total_estimate l) by lia.
  destruct (Z.ltb_spec budget (EstimateTokens (cmContent m) + total_estimate l)) as [Ho|Ho].
  - intros H. destruct (IH H) as (? & ? & ?). split_and!; [by apply suffix_cons_r|done..].
  - intros [= <- <-]. done.
Qed.

Lemma drop_orphans_spec l :
  drop_orphans (total_estimate l) l = (total_estimate (drop (length (tool_run l)) l), drop (length (tool_run l)) l).
Proof.
  induction l as [|m l IH]; [done|]. cbn [drop_orphans tool_run]. destruct (is_tool m); [|done].
  rewrite total_estimate_cons. replace (_ + _ - _) with (total_estimate l) by lia. done.
Qed.


Definition history_summary (env : AssemblerEnv) (c : PromptConfig) (o : AssembleOptions) (db : HistoryDB) : list ChatMessage :=
  match (if asSummaryLoads env then ActiveSummary (history_conv c o) db else None) with
  | Some s => [summary_message (heContent (hrEntry s))]
  | None => []
  end.

Lemma trim_history_spec budget summary messages :
  0 <= budget -> tools_paired messages = true ->
  exists kept, kept `suffix_of` messages /\ tools_paired kept = true /\ total_estimate kept <= budget /\ trim_history budget summary messages =
    (match summary with Some s => [summary_message (heContent (hrEntry s))] | None => [] end ++ kept,
     total_estimate (match summary with Some s => [summary_message (heContent (hrEntry s))] | None => [] end) + total_estimate kept).
Proof.
  intros Hb Hp. unfold trim_history. destruct (drop_oldest budget (total_estimate messages) messages) as [total rest] eqn:E.
  apply drop_oldest_spec in E as (Hs & -> & Hle); [|done]. rewrite drop_orphans_spec.
  assert (drop (length (tool_run rest)) rest `suffix_of` rest) as Hd by (exists (take (length (tool_run rest)) rest); by rewrite take_drop).
  exists (drop (length (tool_run rest)) rest). split; [by etransitivity|].
  split; [by eapply paired_drop, paired_suffix|]. split.
  - etransitivity; [|exact Hle]. apply total_estimate_sublist. destruct Hd as [pre Hd].
    set (d := drop _ rest) in *. clearbody d. subst rest. by apply sublist_inserts_l.
  - destruct summary as [s|]; [|done]. f_equal. rewrite total_estimate_cons. change (total_estimate []) with 0. lia.
Qed.

(** Only a compression that stored a summary changes the history. *)
Lemma compress_history_false `{JsonDecoder} env c o budget db db' :
  compress_history env c o budget db = Some (false, db') -> db' = db.
Proof.
  unfold compress_history. destruct (if asSummaryLoads env then _ else _); [by intros [= <-]|].
  destruct (asCompressor env) as [[cenv active]|]; [|by intros [= <-]]. destruct (_ && _); [|by intros [= <-]].
  unfold TryCompress. destruct (negb _); [by intros [=]|]. case_bool_decide; [by intros [=]|].
  destruct (compress cenv _ _ db) as [r db1] eqn:E. apply compress_cases in E as [[-> _]|(n & text & sp & _ & -> & _)]; [|done].
  destruct r as [r|[]]; by intros [= <-].
Qed.

Lemma history_fits `{JsonDecoder} fuel env c o budget db messages total db' :
  0 <= budget -> buildHistory fuel env c o budget db = Ok (messages, total, db') -> asRecentLoads env = true ->
  exists kept, messages = history_summary env c o db' ++ kept /\
    kept `suffix_of` loaded_messages c o db' /\ tools_paired kept = true /\
    total_estimate kept <= budget /\
    total = total_estimate (history_summary env c o db') + total_estimate kept.
Proof.
  intros Hb Hh Hl. revert db Hh. induction fuel as [|fuel IH]; intros db; cbn [buildHistory];
    rewrite Hl; cbn [negb]; destruct (compress_history env c o budget db) as [[[|] db1]|] eqn:E;
    try done; try by eauto.
  all: apply compress_history_false in E as ->; intros [= Ht <-]; revert Ht; unfold history_summary;
    destruct (trim_history_spec budget (if asSummaryLoads env then ActiveSummary (history_conv c o) db else None)
      (loaded_messages c o db)) as (kept & ? & ? & ? & ->); [done|apply sanitize_paired|];
    intros [= <- <-]; by exists kept.
Qed.

Lemma history_unloaded `{JsonDecoder} fuel env c o budget db :
  asRecentLoads env = false -> buildHistory fuel env c o budget db = Ok ([], 0, db).
Proof. intros Hl. by destruct fuel; cbn [buildHistory]; rewrite Hl. Qed.

(** The history that is assembled is a tail of the repaired conversation that the store
    holds when the call returns, cut to the budget, with every tool call in it answered and no
    result without its call; a summary of the compressed part comes before it.  The reported
    total is the estimate of these messages, so it exceeds the budget by the summary at most. *)
Theorem history_fits_budget `{JsonDecoder} fuel env c o budget db messages total db' :
  0 <= budget -> buildHistory fuel env c o budget db = Ok (messages, total, db') -> asRecentLoads env = true ->
  exists kept, messages = history_summary env c o db' ++ kept /\
    kept `suffix_of` loaded_messages c o db' /\ tools_paired kept = true /\
    total_estimate kept <= budget /\
    total = total_estimate (history_summary env c o db') + total_estimate kept.
Proof. apply history_fits. Qed.

(** A compression that stores a summary leaves an active one. *)
Lemma compress_activates cenv k cfg db s db' :
  history_wf db -> compress cenv k cfg db = (Ok (Some s), db') -> ActiveSummary k db' <> None.
Proof.
  intros Hwf Hc. apply compress_cases in Hc as [[_ Hno]|(n & text & sp & _ & _ & ->)]; [by destruct (Hno s)|].
  unfold ActiveSummary. rewrite compressed_rows by (intros i; by apply compressed_ids_old). intros Hlast%last_None.
  eapply (not_elem_of_nil (new_summary (ceNow cenv) k text db)). rewrite <- Hlast. apply by_time_elem, filter_elem.
  split; [by left|apply new_summary_active].
Qed.

(** Building the history ends.  When the compressor answers without an error and without
    having stored a summary, the same history is built again without end; in every other case
    the call ends, after at most one compression. *)
Theorem history_ends_iff `{JsonDecoder} env c o budget db :
  history_wf db -> asSummaryLoads env = true -> asRecentLoads env = true ->
  (forall fuel, buildHistory fuel env c o budget db = Err HistoryRunning) /\ compress_history env c o budget db = Some (true, db) \/
  (forall fuel, (1 <= fuel)%nat -> buildHistory fuel env c o budget db <> Err HistoryRunning).
Proof.
  intros Hwf Hs Hr. destruct (compress_history env c o budget db) as [[[|] db1]|] eqn:E.
  - assert (db1 = db \/ compress_history env c o budget db1 = Some (false, db1)) as [->|E1].
    { unfold compress_history in E |- *. rewrite Hs in E |- *. destruct (ActiveSummary _ db); [done|].
      destruct (asCompressor env) as [[cenv active]|]; [|done]. destruct (_ && _); [|done]. unfold TryCompress in E at 1.
      destruct (negb _); [injection E as <-; by left|]. case_bool_decide; [injection E as <-; by left|].
      destruct (compress cenv _ _ db) as [[[s|]|e] db2] eqn:Ec; [|injection E as <-..|destruct e; done].
      - injection E as <-. right. apply compress_activates in Ec; [|done]. by destruct (ActiveSummary _ db2).
      - apply compress_cases in Ec as [[-> _]|(? & ? & ? & _ & [=] & _)]. by left. }
    + left. split; [|done]. induction fuel as [|fuel IH]; cbn [buildHistory]; rewrite Hr, E; [done|exact IH].
    + right. intros [|fuel] Hf; [lia|]. cbn [buildHistory]. rewrite Hr, E. destruct fuel; cbn [buildHistory negb];
        rewrite Hr, E1; done.
  - right. intros [|fuel] Hf; [lia|]. cbn [buildHistory]. by rewrite Hr, E.
  - right. intros [|fuel] Hf; [lia|]. cbn [buildHistory]. by rewrite Hr, E.
Qed.

(** One long message in a new conversation: the compressor has nothing to compress, says so
    without an error, and the assembler builds the same history again. *)
Theorem short_conversation_recurs `{JsonDecoder} env c o budget db cenv active fuel :
  asRecentLoads env = true /\ asSummaryLoads env = true -> asCompressor env = Some (cenv, active) -> ceLoads cenv = true ->
  ActiveSummary (history_conv c o) db = None ->
  let cfg := NormalizeCompressionConfig (pcCompression c) in
  let messages := loaded_messages c o db in
  ccEnabled cfg = true -> ShouldCompress (Z.of_nat (length messages)) (total_estimate messages) budget cfg = true ->
  Z.of_nat (length (Recent (history_conv c o) 1000 db)) <= ccKeepRecentMessages cfg ->
  buildHistory fuel env c o budget db = Err HistoryRunning.
Proof.
  intros [Hr Hs] Hc Hl Hn cfg messages He Hsh Hlen.
  assert (compress_history env c o budget db = Some (true, db)) as E.
  { unfold compress_history. rewrite Hs, Hn, Hc. fold cfg messages. rewrite He, Hsh. simpl. unfold TryCompress.
    rewrite He. cbn [negb]. case_bool_decide; [reflexivity|]. by rewrite compress_short. }
  induction fuel as [|fuel IH]; cbn [buildHistory]; rewrite Hr, E; [done|exact IH].
Qed.

(** * The whole prompt *)

(** The memory block of a prompt. *)
Definition assembled_memory (env : AssemblerEnv) (c : PromptConfig) (o : AssembleOptions) : option (string * Z) :=
  match asMemory env with
  | Some ms => buildMemoryBlock ms (pcMemoryLimit c) (aoMessageCount o)
                 (share (NormalizeContextBudget (pcBudget c)) (cbMemoriesPct (NormalizeContextBudget (pcBudget c))))
  | None => Some (EmptyString, 0)
  end.

(** The memory block is always built; it is over its share only by pinned memories and the
    note about candidates. *)
Lemma memory_built env c o : exists block tokens, assembled_memory env c o = Some (block, tokens) /\ 0 <= tokens.
Proof.
  unfold assembled_memory. destruct (asMemory env) as [ms|]; [|by eexists _, _].
  unfold buildMemoryBlock. destruct (memory_entries _ _) as [|e l] eqn:El.
  - case_bool_decide; eexists _, _; (split; [done|]); [done|apply EstimateTokens_nonneg].
  - destruct (fit_memories_spec (length (e :: l)) (candidateNudge (msCandidates ms) (aoMessageCount o))
      (share (NormalizeContextBudget (pcBudget c)) (cbMemoriesPct (NormalizeContextBudget (pcBudget c)))) (e :: l))
      as (kept & block & tokens & E & _ & _ & -> & -> & _); [done|].
    rewrite E. eexists _, _. split; [done|]. apply EstimateTokens_nonneg.
Qed.

(** A normalized budget whose shares add up to at most the whole. *)
Definition sound_budget (b : ContextBudget) : Prop :=
  cbMaxTotalTokens b <= 2 ^ 40 /\
  cbSoulIdentityPct b + cbSkillsPct b + cbMemoriesPct b + cbHistoryPct b <= 100.

Lemma share_exact b pct :
  0 < cbMaxTotalTokens b <= 2 ^ 40 -> 0 < pct <= 100 -> share b pct = cbMaxTotalTokens b * pct / 100 /\ small (share b pct).
Proof.
  intros Hm Hp. unfold share. rewrite wrap64_id by (unfold in_int64, min_int64, max_int64; nia).
  rewrite Z.quot_div_nonneg by nia. split; [done|]. split; [apply Z.div_pos; nia|]. apply Z.div_le_upper_bound; nia.
Qed.

Lemma normalized_positive b :
  let n := NormalizeContextBudget b in
  0 < cbMaxTotalTokens n /\ 0 < cbSoulIdentityPct n /\ 0 < cbSkillsPct n /\ 0 < cbMemoriesPct n /\ 0 < cbHistoryPct n.
Proof.
  simpl. destruct (Z.leb_spec (cbMaxTotalTokens b) 0), (Z.leb_spec (cbSoulIdentityPct b) 0), (Z.leb_spec (cbSkillsPct b) 0),
    (Z.leb_spec (cbMemoriesPct b) 0), (Z.leb_spec (cbHistoryPct b) 0); lia.
Qed.

Lemma shares_fit b :
  sound_budget (NormalizeContextBudget b) ->
  let n := NormalizeContextBudget b in
  small (share n (cbSoulIdentityPct n)) /\ small (share n (cbSkillsPct n)) /\ small (share n (cbMemoriesPct n)) /\
  small (share n (cbHistoryPct n)) /\
  share n (cbSoulIdentityPct n) + share n (cbSkillsPct n) + share n (cbMemoriesPct n) + share n (cbHistoryPct n) <= cbMaxTotalTokens n.
Proof.
  intros [Hmax Hsum] n. destruct (normalized_positive b) as (Hm & H1 & H2 & H3 & H4). fold n in Hmax, Hsum, Hm, H1, H2, H3, H4.
  destruct (share_exact n (cbSoulIdentityPct n)) as [E1 S1]; [lia..|].
  destruct (share_exact n (cbSkillsPct n)) as [E2 S2]; [lia..|].
  destruct (share_exact n (cbMemoriesPct n)) as [E3 S3]; [lia..|].
  destruct (share_exact n (cbHistoryPct n)) as [E4 S4]; [lia..|]. split_and!; [done..|].
  rewrite E1, E2, E3, E4.
  pose proof (Z.mul_div_le (cbMaxTotalTokens n * cbSoulIdentityPct n) 100).
  pose proof (Z.mul_div_le (cbMaxTotalTokens n * cbSkillsPct n) 100).
  pose proof (Z.mul_div_le (cbMaxTotalTokens n * cbMemoriesPct n) 100).
  pose proof (Z.mul_div_le (cbMaxTotalTokens n * cbHistoryPct n) 100). nia.
Qed.

Lemma sections_fit team integrations skills budget :
  small budget -> exists b1 t1 r1 b2 t2 r2 b3 t3 r3,
    section_block "## Team Context" team true budget = Some (b1, t1, r1) /\
    section_block "## Active Integrations" integrations true r1 = Some (b2, t2, r2) /\
    section_block "## Active Skills" skills false r2 = Some (b3, t3, r3) /\
    0 <= t1 + t2 + t3 <= budget.
Proof.
  intros Hb. pose proof Hb as [H0 H1].
  destruct (section_fits "## Team Context" team true budget Hb) as (b1 & t1 & r1 & E1 & ? & ? & ?).
  assert (small r1) as Hr1 by (split; lia).
  destruct (section_fits "## Active Integrations" integrations true r1 Hr1) as (b2 & t2 & r2 & E2 & ? & ? & ?).
  assert (small r2) as Hr2 by (split; lia).
  destruct (section_fits "## Active Skills" skills false r2 Hr2) as (b3 & t3 & r3 & E3 & ? & ? & ?).
  exists b1, t1, r1, b2, t2, r2, b3, t3, r3. split_and!; [done..|lia|lia].
Qed.

(** C33: With shares that add up to at most 100 in the normalized budget ([sound_budget], which nothing enforces),
    when the assembly of a prompt ends ([Assemble] answers; it may not: [short_conversation_recurs]), the tokens it
    reports are within the agent's budget, but for one token, the memories that are over their share, and the
    conversation summary. *)
Theorem assembled_within_budget `{JsonDecoder} fuel env c o db ac db' :
  sound_budget (NormalizeContextBudget (pcBudget c)) -> Assemble fuel env c o db = Some (ac, db') ->
  let budget := NormalizeContextBudget (pcBudget c) in
  exists block memory, assembled_memory env c o = Some (block, memory) /\
    acTokenEstimate ac <= cbMaxTotalTokens budget + 1 + Z.max 0 (memory - share budget (cbMemoriesPct budget))
      + (if asHistory env && asRecentLoads env then total_estimate (history_summary env c o db') else 0).
Proof.
  intros Hb Ha budget. destruct (shares_fit (pcBudget c) Hb) as (S1 & S2 & S3 & S4 & Hsum). fold budget in S1, S2, S3, S4, Hsum.
  destruct (memory_built env c o) as (block & memory & Em & Hm). exists block, memory. split; [done|].
  unfold assembled_memory in Em. fold budget in Em. unfold Assemble in Ha. fold budget in Ha.
  assert (exists soul, (if share budget (cbSoulIdentityPct budget) <? EstimateTokens (BuildSystemPrompt c)
    then truncateToTokenBudget (BuildSystemPrompt c) c (share budget (cbSoulIdentityPct budget))
    else Some (BuildSystemPrompt c)) = Some soul /\
    if share budget (cbSoulIdentityPct budget) <? EstimateTokens (BuildSystemPrompt c)
    then EstimateTokens soul <= share budget (cbSoulIdentityPct budget) + 1
    else EstimateTokens soul <= share budget (cbSoulIdentityPct budget)) as (soul & Esoul & Hsoul).
  { destruct (Z.ltb_spec (share budget (cbSoulIdentityPct budget)) (EstimateTokens (BuildSystemPrompt c))).
    - by apply truncated_soul_fits.
    - by eexists. }
  rewrite Esoul in Ha. cbn [mbind option_bind] in Ha.
  destruct (sections_fit (asTeam env) (asIntegrations env) (asSkills env) (share budget (cbSkillsPct budget)) S2)
    as (b1 & t1 & r1 & b2 & t2 & r2 & b3 & t3 & r3 & E1 & E2 & E3 & Ht).
  rewrite E1 in Ha. cbn [mbind option_bind] in Ha. rewrite E2 in Ha. cbn [mbind option_bind] in Ha.
  rewrite E3 in Ha. cbn [mbind option_bind] in Ha. rewrite Em in Ha. cbn [mbind option_bind] in Ha.
  set (hb := Z.max 0 _) in Ha. assert (Hhb : 0 <= hb) by lia.
  assert (forall total, total <= hb -> EstimateTokens soul + t1 + t2 + t3 + memory + total <=
    cbMaxTotalTokens budget + 1 + Z.max 0 (memory - share budget (cbMemoriesPct budget))) as Hfit.
  { intros total Htotal. unfold hb, reserve, outputReserve, small in *. clear Hhb hb Ha Esoul E1 E2 E3 Em.
    destruct (_ <? EstimateTokens _), (0 <? aoToolTokens o) eqn:?, (0 <? aoCurrentTokens o) eqn:?; to_prop; lia. }
  destruct (asHistory env); cbn [andb]; [|injection Ha as <- <-; specialize (Hfit 0 Hhb); cbn [acTokenEstimate]; lia].
  destruct (buildHistory fuel env c o hb db) as [[[messages total] db1]|] eqn:Eh; [|done]. injection Ha as <- <-.
  cbn [acTokenEstimate]. destruct (asRecentLoads env) eqn:Hl.
  - destruct (history_fits fuel env c o hb db messages total db1) as (kept & _ & _ & _ & Hk & ->); [done..|].
    specialize (Hfit _ Hk). lia.
  - rewrite (history_unloaded fuel env c o hb db Hl) in Eh. injection Eh as <- <- <-. specialize (Hfit 0 Hhb). lia.
Qed.

(** * Examples *)

#[local] Instance no_json : JsonDecoder := {| decode_calls := fun _ => None; decode_attachments := fun _ => None |}.

Definition demo_prompt : PromptConfig :=
  mkPromptConfig "a1" "Be brief." EmptyString EmptyString (mkContextBudget 20000 15 10 25 50) 0 0 demo_compression "m".

Definition demo_options : AssembleOptions := mkAssembleOptions "webui" "w1" "admin" 3 0 0.

Definition demo_memories : MemoryService :=
  mkMemoryService 0 (Some [mkMemory 1 "fact" "the user is called Ada"]) (fun _ => Some [mkMemory 2 "task" "write tests"]) None.

Definition demo_env (compressor : option (CompressEnv * list string)) : AssemblerEnv :=
  mkAssemblerEnv (Some demo_memories) true true true (Some (Some "team")) None None compressor.

(** After a compression the summary stands before the history and once more in it. *)
Example summary_repeated : exists ac db,
  Assemble 0 (demo_env None) demo_prompt demo_options demo_compressed.2 = Some (ac, db) /\
  length (List.filter (fun m => bool_decide (cmRole m = "system")) (acMessages ac)) = 2%nat.
Proof. eexists _, _. by vm_compute. Qed.

Definition demo_built : result HistoryFailure (list ChatMessage * Z * HistoryDB) :=
  buildHistory 0 (demo_env None) demo_prompt demo_options 10 demo_compressed.2.

Definition demo_messages : list ChatMessage := match demo_built with inl (m, _, _) => m | inr _ => [] end.
Definition demo_total : Z := match demo_built with inl (_, t, _) => t | inr _ => 0 end.

Lemma history_fits_budget_witness : exists kept,
  demo_messages = history_summary (demo_env None) demo_prompt demo_options demo_compressed.2 ++ kept /\
  total_estimate kept <= 10.
Proof.
  destruct (history_fits_budget 0 (demo_env None) demo_prompt demo_options 10 demo_compressed.2 demo_messages demo_total
    demo_compressed.2) as (kept & H1 & _ & _ & H2 & _).
  - done.
  - by vm_compute.
  - done.
  - by exists kept.
Defined.

Lemma demo_history_wf : history_wf demo_history.
Proof.
  split; [|by apply (bool_decide_unpack _); vm_compute|done].
  apply Forall_forall. by apply (bool_decide_unpack _); vm_compute.
Qed.

(** A conversation of four messages under a compressor that keeps ten. *)
Definition short_prompt : PromptConfig :=
  mkPromptConfig "a1" "Be brief." EmptyString EmptyString (mkContextBudget 20000 15 10 25 50) 0 0
    (mkCompressionConfig true EmptyString 20 70 10) "m".

Definition short_env : AssemblerEnv := demo_env (Some (demo_compress_env (fun _ => Some (summary_answer "so far")), [])).

Lemma history_ends_iff_witness :
  (forall fuel, buildHistory fuel short_env short_prompt demo_options 5 demo_history = Err HistoryRunning) /\
  compress_history short_env short_prompt demo_options 5 demo_history = Some (true, demo_history).
Proof.
  destruct (history_ends_iff short_env short_prompt demo_options 5 demo_history demo_history_wf eq_refl eq_refl)
    as [H|H]; [exact H|]. destruct (H 1%nat); [lia|by vm_compute].
Defined.

Lemma short_conversation_recurs_witness :
  buildHistory 5 short_env short_prompt demo_options 5 demo_history = Err HistoryRunning.
Proof.
  apply (short_conversation_recurs short_env short_prompt demo_options 5 demo_history
    (demo_compress_env (fun _ => Some (summary_answer "so far"))) [] 5).
  1: by split.
  1, 2: done.
  all: try by vm_compute.
Defined.

Definition demo_assembled : AssembledContext * HistoryDB :=
  default (mkAssembled EmptyString [] 0, demo_history) (Assemble 0 (demo_env None) demo_prompt demo_options demo_compressed.2).

Lemma assembled_within_budget_witness : exists block memory,
  assembled_memory (demo_env None) demo_prompt demo_options = Some (block, memory) /\
  acTokenEstimate demo_assembled.1 <= 20001 + Z.max 0 (memory - 5000) +
    total_estimate (history_summary (demo_env None) demo_prompt demo_options demo_assembled.2).
Proof.
  apply (assembled_within_budget 0 (demo_env None) demo_prompt demo_options demo_compressed.2).
  - split; simpl; lia.
  - by vm_compute.
Defined.
