(* ===== verification/Workflow.v ===== *)
(** Workflows ([internal/workflow], the tool [internal/tools/workflow], and the tables of
    [store/postgres]): template expansion, the engine that runs the steps of a workflow
    one after the other through a tool executor, and the operations by which an agent
    manages its workflows.

    The executor is the class [ToolExecutor], of which the pipeline of [KtpExecutor] is an
    instance, [nested_call]: there the workflow tool, called by a step, runs the engine again
    over the same executor.  State: the executor's own and [WorkflowDB].  Times, identifiers and failures
    of the database are arguments, as is the JSON text of parameters and results. *)

From stdpp Require Import pretty.
From S2P Require Import Prelude GoString GoFloat GoRegexp GoJson Types KtpTypes KtpGate KtpRegistry KtpExecutor.
#[local] Open Scope Z_scope.

(** * Data *)

Record WorkflowStep := mkWorkflowStep {
  wsName : string;
  wsTool : string;
  wsAction : string;
  wsParams : list (string * any);
  wsSaveAs : string;
  wsOnError : string;
}.

Record WorkflowDef := mkWorkflow {
  wfID : string;
  wfAgentID : string;
  wfName : string;
  wfDescription : string;
  wfSteps : list WorkflowStep;
  wfEnabled : bool;
  wfCreatedAt : Z;
  wfUpdatedAt : Z;
}.

Record WorkflowRun := mkWorkflowRun {
  wrID : string;
  wrWorkflowID : string;
  wrAgentID : string;
  wrStatus : string;
  wrStepsJSON : string;
  wrInputVarsJSON : string;
  wrError : string;
  wrDurationMs : Z;
  wrStartedAt : Z;
  wrCompletedAt : option Z;
}.

Record WorkflowStepResult := mkStepResult {
  srName : string;
  srTool : string;
  srAction : string;
  srSuccess : bool;
  srResult : any;
  srError : string;
  srDurationMs : Z;
  srSkipped : bool;
}.

Definition MaxStepsPerWorkflow : nat := 30.
Definition MaxWorkflowsPerAgent : nat := 20.
Definition DefaultExecutionTimeout : Z := 5 * 60 * 1000000000.

(** * Templates *)

(** The text of a value under the verb [%v] of [fmt]; floats and values of other types are
    arguments. *)
Class GoFormat := { format_float : float64 -> string; format_other : string -> string }.

Definition bracketed (open : string) (l : list string) : string := open +:+ join " " l +:+ "]".

Fixpoint format_value `{GoFormat} (v : any) : string :=
  match v with
  | ANil => "<nil>"
  | ABool b => if b then "true" else "false"
  | AString s | ANumber s => s
  | AFloat64 f | AFloat32 f => format_float f
  | AInt z => pretty z
  | AMap m => bracketed "map[" (map (fun e => e.1 +:+ ":" +:+ e.2) (sort_keys (map (fun e => (e.1, format_value e.2)) m)))
  | AStrMap m => bracketed "map[" (map (fun e => e.1 +:+ ":" +:+ e.2) (sort_keys m))
  | ASlice l | ATypedSlice l => bracketed "[" (map format_value l)
  | AStrSlice l => bracketed "[" l
  | AOther t => format_other t
  end.

(** [\w+(?:\.\w+)*] at the start of a text: the longest name, and what follows it. *)
Fixpoint dotted (s : string) : option (string * string) :=
  match s with
  | EmptyString => None
  | String c s' =>
    if re_word c then
      match s' with
      | String d s'' =>
        if re_word d then match dotted s' with Some (n, r) => Some (String c n, r) | None => None end
        else if Ascii.eqb d "." then
          match dotted s'' with
          | Some (n, r) => Some (String c (String d n), r)
          | None => Some (String c EmptyString, s')
          end
        else Some (String c EmptyString, s')
      | EmptyString => Some (String c EmptyString, EmptyString)
      end
    else None
  end.

(** [templatePattern] at the start of a text: the name, and the text after the template. *)
Definition template_at (s : string) : option (string * string) :=
  match strip_prefix "{{" s with
  | None => None
  | Some s =>
    match dotted s with
    | None => None
    | Some (name, rest) =>
      match strip_prefix "}}" rest with Some rest => Some (name, rest) | None => None end
    end
  end.

(** [resolveVar] *)
Definition not_found (name : string) : string := "variable '" +:+ name +:+ "' not found".

Definition resolveVar (name : string) (vars : gmap string any) : result string any :=
  let '(first, second, dot) := cut name "." in
  match vars !! first with
  | None => Err (not_found name)
  | Some val =>
    if negb dot then Ok val
    else match val with
         | AMap m => match alookup second m with Some nested => Ok nested | None => Err (not_found name) end
         | _ => Err (not_found name)
         end
  end.

(** [ReplaceAllStringFunc] with the closure of [expandString]: the first name that does not
    resolve is the error; [skip] bytes of the last template are still to be passed. *)
Fixpoint expand_text `{GoFormat} (vars : gmap string any) (skip : nat) (s : string) : result string string :=
  match s with
  | EmptyString => Ok EmptyString
  | String c s' =>
    match skip with
    | S skip => expand_text vars skip s'
    | O =>
      match template_at s with
      | None => let? out := expand_text vars 0 s' in Ok (String c out)
      | Some (name, rest) =>
        let? val := resolveVar name vars in
        let? out := expand_text vars (String.length s - String.length rest - 1) s' in
        Ok (format_value val +:+ out)
      end
    end
  end.

(** [expandString] *)
Definition expandString `{GoFormat} (s : string) (vars : gmap string any) : result string any :=
  match template_at (trim_space s) with
  | Some (name, EmptyString) => resolveVar name vars
  | _ => let? out := expand_text vars 0 s in Ok (AString out)
  end.

(** [expandValue] and [expandParams]; a map is visited in the order of its entries *)
Fixpoint expandValue `{GoFormat} (vars : gmap string any) (v : any) : result string any :=
  match v with
  | AString s => expandString s vars
  | AMap m =>
    let? m := (fix go m := match m with
      | [] => Ok []
      | (k, v) :: m' => let? v := expandValue vars v in let? m' := go m' in Ok ((k, v) :: m')
      end) m in
    Ok (AMap m)
  | _ => Ok v
  end.

Fixpoint expandParams `{GoFormat} (params : list (string * any)) (vars : gmap string any) : result string (list (string * any)) :=
  match params with
  | [] => Ok []
  | (k, v) :: params' => let? v := expandValue vars v in let? rest := expandParams params' vars in Ok ((k, v) :: rest)
  end.

(** * The engine *)

(** [ToolExecutor] *)
Class ToolExecutor (W : Type) := tool_call : nat -> ToolRequest -> W -> result string ToolResponse * W.

(** What a run meets: the request identifiers, durations and clock, whether the two
    statements succeed, and the JSON text of its records (empty when it cannot be made). *)
Record RunEnv := mkRunEnv {
  reRunID : string;
  reRequestID : nat -> string;
  reStepMs : nat -> Z;
  reStart : Z;
  reEnd : Z;
  reInserts : bool;
  reUpdates : bool;
  reStepsJSON : list WorkflowStepResult -> string;
  reVarsJSON : option (gmap string any) -> string;
}.

Definition skipped (s : WorkflowStep) : WorkflowStepResult :=
  mkStepResult (wsName s) (wsTool s) (wsAction s) false ANil EmptyString 0 true.

Definition failed_step (s : WorkflowStep) (e : string) (ms : Z) : WorkflowStepResult :=
  mkStepResult (wsName s) (wsTool s) (wsAction s) false ANil e ms false.

Definition step_result (s : WorkflowStep) (resp : ToolResponse) (ms : Z) : WorkflowStepResult :=
  mkStepResult (wsName s) (wsTool s) (wsAction s) (respSuccess resp) (respResult resp) (respError resp) ms false.

Definition continues (s : WorkflowStep) : bool := bool_decide (wsOnError s = "continue").

(** The request of a step. *)
Definition step_request (env : RunEnv) (agentID teamID : string) (i : nat) (s : WorkflowStep) (params : list (string * any))
    : ToolRequest :=
  mkToolRequest (reRequestID env i) agentID teamID (wsTool s) (wsAction s) params EmptyString EmptyString None.

(** One step: its result, the variables after it, and the executor's state. *)
Definition run_step `{GoFormat} {W} `{ToolExecutor W} (env : RunEnv) (agentID teamID : string) (i : nat) (s : WorkflowStep)
    (vars : gmap string any) (w : W) : WorkflowStepResult * gmap string any * W :=
  match expandParams (wsParams s) vars with
  | inr e => (failed_step s e (reStepMs env i), vars, w)
  | inl params =>
    match tool_call i (step_request env agentID teamID i s params) w with
    | (inr e, w) => (failed_step s e (reStepMs env i), vars, w)
    | (inl resp, w) =>
      (step_result s resp (reStepMs env i),
       if respSuccess resp && negb (bool_decide (wsSaveAs s = EmptyString)) then <[wsSaveAs s := respResult resp]> vars else vars, w)
    end
  end.

(** The loop of [Engine.Execute]: the results, whether it failed, the executor's state. *)
Fixpoint run_steps `{GoFormat} {W} `{ToolExecutor W} (env : RunEnv) (agentID teamID : string) (i : nat)
    (steps : list WorkflowStep) (vars : gmap string any) (w : W) : list WorkflowStepResult * bool * W :=
  match steps with
  | [] => ([], false, w)
  | s :: rest =>
    let '(r, vars, w) := run_step env agentID teamID i s vars w in
    if srSuccess r || continues s then
      let '(results, failed, w) := run_steps env agentID teamID (S i) rest vars w in (r :: results, failed, w)
    else (r :: map skipped rest, true, w)
  end.

(** The tables, in order of insertion. *)
Record WorkflowDB := mkWorkflowDB { wdWorkflows : list WorkflowDef; wdRuns : list WorkflowRun }.

Definition with_runs (runs : list WorkflowRun) (db : WorkflowDB) : WorkflowDB := mkWorkflowDB (wdWorkflows db) runs.
Definition with_workflows (l : list WorkflowDef) (db : WorkflowDB) : WorkflowDB := mkWorkflowDB l (wdRuns db).

(** The insert fails on a key that is taken. *)
Definition CreateWorkflowRun (r : WorkflowRun) (db : WorkflowDB) : option WorkflowDB :=
  if bool_decide (wrID r ∈ map wrID (wdRuns db)) then None else Some (with_runs (wdRuns db ++ [r]) db).

Definition UpdateWorkflowRun (r : WorkflowRun) (db : WorkflowDB) : option WorkflowDB :=
  if bool_decide (wrID r ∈ map wrID (wdRuns db))
  then Some (with_runs (map (fun x => if bool_decide (wrID x = wrID r)
         then mkWorkflowRun (wrID x) (wrWorkflowID x) (wrAgentID x) (wrStatus r) (wrStepsJSON r) (wrInputVarsJSON x)
                (wrError r) (wrDurationMs r) (wrStartedAt x) (wrCompletedAt r)
         else x) (wdRuns db)) db)
  else None.

Inductive EngineError : Type :=
| TooManySteps (n : nat)
| CreateRunFailed
| UpdateRunFailed.

(** [Engine.Execute].  The statement that ends the run is made under the deadline of the
    run, so it fails once that has passed. *)
Definition EngineExecute `{GoFormat} {W} `{ToolExecutor W} (env : RunEnv) (wf : WorkflowDef) (inputVars : option (gmap string any))
    (teamID : string) (w : W) (db : WorkflowDB) : result EngineError WorkflowRun * W * WorkflowDB :=
  if (MaxStepsPerWorkflow <? length (wfSteps wf))%nat then (Err (TooManySteps (length (wfSteps wf))), w, db)
  else
    let run := mkWorkflowRun (reRunID env) (wfID wf) (wfAgentID wf) "running" EmptyString (reVarsJSON env inputVars)
                 EmptyString 0 (reStart env) None in
    match (if reInserts env then CreateWorkflowRun run db else None) with
    | None => (Err CreateRunFailed, w, db)
    | Some db =>
      let '(results, failed, w) := run_steps env (wfAgentID wf) teamID 0 (wfSteps wf) (default ∅ inputVars) w in
      let run := mkWorkflowRun (wrID run) (wrWorkflowID run) (wrAgentID run) (if failed then "failed" else "completed")
                   (reStepsJSON env results) (wrInputVarsJSON run) EmptyString
                   (Z.quot (reEnd env - reStart env) 1000000) (wrStartedAt run) (Some (reEnd env)) in
      match (if reUpdates env && (reEnd env - reStart env <? DefaultExecutionTimeout) then UpdateWorkflowRun run db else None) with
      | None => (Err UpdateRunFailed, w, db)
      | Some db => (Ok run, w, db)
      end
    end.

(** * The tool *)

(** [PostgresStore.CreateWorkflow]: the insert fails on an identifier, or a name of the
    agent, that is taken. *)
Definition same_name (agentID name : string) (x : WorkflowDef) : bool := bool_decide ((wfAgentID x, wfName x) = (agentID, name)).

Definition CreateWorkflow (w : WorkflowDef) (db : WorkflowDB) : option WorkflowDB :=
  if bool_decide (wfID w ∈ map wfID (wdWorkflows db)) || existsb (same_name (wfAgentID w) (wfName w)) (wdWorkflows db)
  then None
  else Some (with_workflows (wdWorkflows db ++ [w]) db).

Definition GetWorkflow (id : string) (db : WorkflowDB) : option WorkflowDef :=
  List.find (fun x => bool_decide (wfID x = id)) (wdWorkflows db).

Definition GetWorkflowByName (agentID name : string) (db : WorkflowDB) : option WorkflowDef :=
  List.find (same_name agentID name) (wdWorkflows db).

Definition updated_workflow (w x : WorkflowDef) : WorkflowDef :=
  if bool_decide (wfID x = wfID w)
  then mkWorkflow (wfID x) (wfAgentID x) (wfName w) (wfDescription w) (wfSteps w) (wfEnabled w) (wfCreatedAt x) (wfUpdatedAt w)
  else x.

(** The update fails when the row is gone or another workflow of its agent has the name. *)
Definition UpdateWorkflow (w : WorkflowDef) (db : WorkflowDB) : option WorkflowDB :=
  match GetWorkflow (wfID w) db with
  | None => None
  | Some old =>
    if existsb (fun x => negb (bool_decide (wfID x = wfID w)) && same_name (wfAgentID old) (wfName w) x) (wdWorkflows db)
    then None
    else Some (with_workflows (map (updated_workflow w) (wdWorkflows db)) db)
  end.

Definition DeleteWorkflow (id : string) (db : WorkflowDB) : option WorkflowDB :=
  match GetWorkflow id db with
  | None => None
  | Some _ => Some (with_workflows (List.filter (fun x => negb (bool_decide (wfID x = id))) (wdWorkflows db)) db)
  end.

Fixpoint insert_by {A} (before : A -> A -> bool) (x : A) (l : list A) : list A :=
  match l with
  | [] => [x]
  | y :: l' => if before y x then y :: insert_by before x l' else x :: l
  end.

(** Rows in the order of a key; equal keys in the order of the table. *)
Definition order_by {A} (before : A -> A -> bool) (l : list A) : list A := foldr (insert_by before) [] l.

Definition ListWorkflows (agentID : string) (db : WorkflowDB) : list WorkflowDef :=
  order_by (fun x y => wfCreatedAt x <? wfCreatedAt y) (List.filter (fun x => bool_decide (wfAgentID x = agentID)) (wdWorkflows db)).

Definition ListWorkflowRuns (workflowID : string) (limit : nat) (db : WorkflowDB) : list WorkflowRun :=
  take limit (order_by (fun x y => wrStartedAt y <? wrStartedAt x)
    (List.filter (fun r => bool_decide (wrWorkflowID r = workflowID)) (wdRuns db))).

Inductive WorkflowToolError : Type :=
| MissingParameter (key : string)
| NotAString (key : string)
| InvalidSteps (e : string)
| NoSteps
| StepsOverMaximum (n : nat)
| ListFailed
| TooManyWorkflows
| CreateFailed
| WorkflowNotFound
| NotOwner
| WorkflowDisabled
| NameOrIDRequired
| WorkflowFailed (e : EngineError)
| ListRunsFailed
| UpdateFailed
| DeleteFailed
| UnknownAction (action : string).

(** The results of the actions; [list] shows what the items of the answer are made of. *)
Inductive WorkflowReply : Type :=
| WorkflowCreated (id name : string)
| WorkflowRan (run : WorkflowRun)
| WorkflowListed (items : list (string * string * string * nat * bool * Z * Z))
| WorkflowShown (wf : WorkflowDef) (recent : list (string * string * Z * Z * option Z * option string))
| WorkflowUpdated
| WorkflowDeleted.

Definition strParam (params : list (string * any)) (key : string) : result WorkflowToolError string :=
  match alookup key params with
  | None => Err (MissingParameter key)
  | Some (AString s) => Ok s
  | Some _ => Err (NotAString key)
  end.

Definition strDefault (params : list (string * any)) (key def : string) : string :=
  match alookup key params with Some (AString s) => s | _ => def end.

(** What a call of the tool meets: the new identifier, the time, which statements succeed,
    and the decoding of steps ([parseSteps]). *)
Record WorkflowEnv := mkWorkflowEnv {
  weID : string;
  weNow : Z;
  weReads : bool;
  weWrites : bool;
  weReadsRuns : bool;
  weParseSteps : any -> result string (list WorkflowStep);
  weRun : RunEnv;
}.

Section tool.
Context `{GoFormat} {W : Type} `{ToolExecutor W} (env : WorkflowEnv).

(** The checks on a [steps] parameter, which [create] and [update] share. *)
Definition checked_steps (raw : any) : result WorkflowToolError (list WorkflowStep) :=
  match weParseSteps env raw with
  | inr e => Err (InvalidSteps e)
  | inl steps =>
    if bool_decide (steps = []) then Err NoSteps
    else if (MaxStepsPerWorkflow <? length steps)%nat then Err (StepsOverMaximum (length steps))
    else Ok steps
  end.

(** [Tool.create] *)
Definition workflow_create (req : ToolRequest) (db : WorkflowDB) : result WorkflowToolError WorkflowReply * WorkflowDB :=
  match strParam (rParameters req) "name" with
  | inr e => (Err e, db)
  | inl name =>
    match alookup "steps" (rParameters req) with
    | None => (Err (MissingParameter "steps"), db)
    | Some raw =>
      match checked_steps raw with
      | inr e => (Err e, db)
      | inl steps =>
        if negb (weReads env) then (Err ListFailed, db)
        else if (MaxWorkflowsPerAgent <=? length (ListWorkflows (rAgentID req) db))%nat then (Err TooManyWorkflows, db)
        else
          let wf := mkWorkflow (weID env) (rAgentID req) name (strDefault (rParameters req) "description" EmptyString) steps true
                      (weNow env) (weNow env) in
          match (if weWrites env then CreateWorkflow wf db else None) with
          | None => (Err CreateFailed, db)
          | Some db => (Ok (WorkflowCreated (wfID wf) (wfName wf)), db)
          end
      end
    end
  end.

(** The workflow with an identifier, if it is the agent's. *)
Definition owned_workflow (agentID id : string) (db : WorkflowDB) : result WorkflowToolError WorkflowDef :=
  match (if weReads env then GetWorkflow id db else None) with
  | None => Err WorkflowNotFound
  | Some wf => if bool_decide (wfAgentID wf = agentID) then Ok wf else Err NotOwner
  end.

(** [Tool.lookupWorkflow] *)
Definition lookupWorkflow (req : ToolRequest) (db : WorkflowDB) : result WorkflowToolError WorkflowDef :=
  let id := strDefault (rParameters req) "id" EmptyString in
  let name := strDefault (rParameters req) "name" EmptyString in
  if negb (bool_decide (id = EmptyString)) then owned_workflow (rAgentID req) id db
  else if negb (bool_decide (name = EmptyString)) then
    match (if weReads env then GetWorkflowByName (rAgentID req) name db else None) with
    | None => Err WorkflowNotFound
    | Some wf => Ok wf
    end
  else Err NameOrIDRequired.

(** [Tool.execute] *)
Definition workflow_execute (req : ToolRequest) (w : W) (db : WorkflowDB)
    : result WorkflowToolError WorkflowReply * W * WorkflowDB :=
  match lookupWorkflow req db with
  | inr e => (Err e, w, db)
  | inl wf =>
    if negb (wfEnabled wf) then (Err WorkflowDisabled, w, db)
    else
      let vars := match alookup "vars" (rParameters req) with Some (AMap m) => Some (list_to_map m) | _ => None end in
      match EngineExecute (weRun env) wf vars (rTeamID req) w db with
      | (inr e, w, db) => (Err (WorkflowFailed e), w, db)
      | (inl run, w, db) => (Ok (WorkflowRan run), w, db)
      end
  end.

(** [Tool.list] *)
Definition workflow_list (req : ToolRequest) (db : WorkflowDB) : result WorkflowToolError WorkflowReply :=
  if negb (weReads env) then Err ListFailed
  else Ok (WorkflowListed (map (fun wf => (wfID wf, wfName wf, wfDescription wf, length (wfSteps wf), wfEnabled wf,
             wfCreatedAt wf, wfUpdatedAt wf)) (ListWorkflows (rAgentID req) db))).

(** [Tool.get] *)
Definition workflow_get (req : ToolRequest) (db : WorkflowDB) : result WorkflowToolError WorkflowReply :=
  let? wf := lookupWorkflow req db in
  if negb (weReadsRuns env) then Err ListRunsFailed
  else Ok (WorkflowShown wf (map (fun r => (wrID r, wrStatus r, wrDurationMs r, wrStartedAt r, wrCompletedAt r,
             if bool_decide (wrError r = EmptyString) then None else Some (wrError r))) (ListWorkflowRuns (wfID wf) 5 db))).

(** [Tool.update] *)
Definition workflow_update (req : ToolRequest) (db : WorkflowDB) : result WorkflowToolError WorkflowReply * WorkflowDB :=
  match (let? id := strParam (rParameters req) "id" in owned_workflow (rAgentID req) id db) with
  | inr e => (Err e, db)
  | inl wf =>
    match (match alookup "steps" (rParameters req) with None => Ok (wfSteps wf) | Some raw => checked_steps raw end) with
    | inr e => (Err e, db)
    | inl steps =>
      let name := strDefault (rParameters req) "name" EmptyString in
      let wf := mkWorkflow (wfID wf) (wfAgentID wf) (if bool_decide (name = EmptyString) then wfName wf else name)
                  (strDefault (rParameters req) "description" (wfDescription wf)) steps
                  (match alookup "enabled" (rParameters req) with Some (ABool b) => b | _ => wfEnabled wf end)
                  (wfCreatedAt wf) (weNow env) in
      match (if weWrites env then UpdateWorkflow wf db else None) with
      | None => (Err UpdateFailed, db)
      | Some db => (Ok WorkflowUpdated, db)
      end
    end
  end.

(** [Tool.deleteWorkflow] *)
Definition deleteWorkflow (req : ToolRequest) (db : WorkflowDB) : result WorkflowToolError WorkflowReply * WorkflowDB :=
  match (let? id := strParam (rParameters req) "id" in owned_workflow (rAgentID req) id db) with
  | inr e => (Err e, db)
  | inl wf =>
    match (if weWrites env then DeleteWorkflow (wfID wf) db else None) with
    | None => (Err DeleteFailed, db)
    | Some db => (Ok WorkflowDeleted, db)
    end
  end.

(** [Tool.Execute] *)
Definition WorkflowToolExecute (req : ToolRequest) (w : W) (db : WorkflowDB)
    : result WorkflowToolError WorkflowReply * W * WorkflowDB :=
  let stay (x : result WorkflowToolError WorkflowReply * WorkflowDB) := (x.1, w, x.2) in
  if bool_decide (rAction req = "create") then stay (workflow_create req db)
  else if bool_decide (rAction req = "execute") then workflow_execute req w db
  else if bool_decide (rAction req = "list") then (workflow_list req db, w, db)
  else if bool_decide (rAction req = "get") then (workflow_get req db, w, db)
  else if bool_decide (rAction req = "update") then stay (workflow_update req db)
  else if bool_decide (rAction req = "delete") then stay (deleteWorkflow req db)
  else (Err (UnknownAction (rAction req)), w, db).
End tool.

(** * The executor of the tool protocol

    The engine calls the executor its own tool is called by: a step may run the workflow
    tool again.  The calls below a call form a tree; a call is named by its path, the steps
    that lead to it.  [NestEnv] is what each meets: the surroundings of the executor and of
    the tool, the tables as it finds them, and the response made of the tool's answer. *)
Record NestEnv := mkNestEnv {
  neCall : list nat -> CallEnv;
  neFlow : list nat -> WorkflowEnv;
  neTables : list nat -> WorkflowDB;
  neReply : list nat -> result WorkflowToolError WorkflowReply -> ToolResponse;
}.

Definition without_slot (ce : CallEnv) : CallEnv := mkCallEnv (ceToken ce) (ceMillis ce) false (ceVisit ce).

Section nested.
Context `{GoFormat} `{UnicodeCase} `{Messages} {S : Type} `{SandboxExecutor S}
  (regexp_match : string -> string -> result string bool) (Marshal : any -> result string string)
  (ex : Executor) (ne : NestEnv).

(** The run of the workflow tool, which is inline and needs no secrets, with [call] as its
    executor. *)
Definition run_workflow_tool (call : nat -> ToolRequest -> World S -> result string ToolResponse * World S)
    (path : list nat) (tool : KtpTool) (req : ToolRequest) (w : World S) : result string ToolResponse * World S :=
  let w1 := emit (RanInline (dName (Declaration tool)) req (wEnv w)) w in
  let '(r, w2, _) := @WorkflowToolExecute _ (World S) call (neFlow ne path) req w1 (neTables ne path) in
  let resp := neReply ne path r in
  (Ok (mkToolResponse (respRequestID resp) (respSuccess resp) (respResult resp) (respError resp)
         (ceMillis (neCall ne path)) (respSandboxID resp)), w2).

(** [Executor.Execute] with the workflow tool registered.  A call holds its slot while the
    calls below it run, so with [slots] free ones the chain is no longer: the call after
    the last waits until its context ends. *)
Fixpoint nested_call (slots : nat) (path : list nat) (req : ToolRequest) (w : World S)
    : result string ToolResponse * World S :=
  match slots with
  | O =>
    match begin_call regexp_match ex (without_slot (neCall ne path)) req w with
    | (inl r, w1) => (r, w1)
    | (inr _, w1) => (Err EmptyString, w1)        (* not reached: there is no slot *)
    end
  | Datatypes.S slots =>
    match begin_call regexp_match ex (neCall ne path) req w with
    | (inl r, w1) => (r, w1)
    | (inr (tool, req', tier), w1) =>
      end_call Marshal ex req'
        (if bool_decide (rTool req = "workflow")
         then run_workflow_tool (fun i => nested_call slots (path ++ [i])) path tool req' w1
         else executeWithSafety ex (neCall ne path) tool req' tier w1)
    end
  end.

(** The executor of a workflow run that was started by the call at [path]. *)
Definition ktp_executor (slots : nat) (path : list nat) : ToolExecutor (World S) :=
  fun i => nested_call slots (path ++ [i]).
End nested.

(** * Templates: lemmas *)

Lemma dotted_cons c d s : dotted (String c (String d s)) =
  if re_word c then
    if re_word d then match dotted (String d s) with Some (n, r) => Some (String c n, r) | None => None end
    else if Ascii.eqb d "." then
      match dotted s with
      | Some (n, r) => Some (String c (String d n), r)
      | None => Some (String c EmptyString, String d s)
      end
    else Some (String c EmptyString, String d s)
  else None.
Proof. done. Qed.

Lemma dotted_split s n r : dotted s = Some (n, r) -> s = n +:+ r /\ n <> EmptyString.
Proof.
  revert n r. assert (forall k s n r, (String.length s <= k)%nat -> dotted s = Some (n, r) -> s = n +:+ r /\ n <> EmptyString) as H.
  { clear. induction k as [|k IH]; intros [|c [|d s]] n r Hk; try done; try (simpl in Hk; lia).
    - simpl. destruct (re_word c); [|done]. by intros [= <- <-].
    - rewrite dotted_cons. destruct (re_word c); [|done]. simpl in Hk. destruct (re_word d).
      + destruct (dotted (String d s)) as [[n' r']|] eqn:E; [|done]. intros [= <- <-].
        destruct (IH (String d s) n' r') as [-> _]; [simpl; lia|done|done].
      + destruct (Ascii.eqb d "."); [|by intros [= <- <-]].
        destruct (dotted s) as [[n' r']|] eqn:E; [|by intros [= <- <-]]. intros [= <- <-].
        destruct (IH s n' r') as [-> _]; [lia|done|done]. }
  intros n r. by apply (H (String.length s)).
Qed.

Lemma template_at_split s name rest : template_at s = Some (name, rest) -> s = "{{" +:+ name +:+ "}}" +:+ rest /\ name <> EmptyString.
Proof.
  unfold template_at. destruct (strip_prefix "{{" s) as [s1|] eqn:E1; [|done]. apply strip_prefix_spec in E1 as ->.
  destruct (dotted s1) as [[n r]|] eqn:E2; [|done]. apply dotted_split in E2 as [-> Hn].
  destruct (strip_prefix "}}" r) as [s2|] eqn:E3; [|done]. apply strip_prefix_spec in E3 as ->. by intros [= <- <-].
Qed.

(** What a text consists of: bytes that stand for themselves, and templates. *)
Inductive segment : Type := Lit (c : ascii) | Var (name : string).

Definition segment_text (g : segment) : string :=
  match g with Lit c => String c EmptyString | Var name => "{{" +:+ name +:+ "}}" end.

Definition segments_text (l : list segment) : string := str_concat (map segment_text l).

(** The leftmost reading of a text. *)
Inductive reading : list segment -> string -> Prop :=
| reading_nil : reading [] EmptyString
| reading_lit c s l : template_at (String c s) = None -> reading l s -> reading (Lit c :: l) (String c s)
| reading_var s name rest l : template_at s = Some (name, rest) -> reading l rest -> reading (Var name :: l) s.

Section expansion.
Context `{GoFormat} (vars : gmap string any).

(** The value of a segment; the value of a variable is taken as it is. *)
Definition segment_value (g : segment) : result string string :=
  match g with Lit c => Ok (String c EmptyString) | Var name => let? v := resolveVar name vars in Ok (format_value v) end.

Definition segments_value (l : list segment) : result string string :=
  let? xs := all_ok (map segment_value l) in Ok (str_concat xs).

Lemma expand_text_skip x y : expand_text vars (String.length x) (x +:+ y) = expand_text vars 0 y.
Proof. induction x as [|c x IH]; [done|]. simpl. exact IH. Qed.

Lemma segments_value_cons g l :
  segments_value (g :: l) = let? x := segment_value g in let? out := segments_value l in Ok (x +:+ out).
Proof.
  unfold segments_value. simpl. destruct (segment_value g) as [x|e]; [|done]. simpl. by destruct (all_ok _).
Qed.

Lemma expand_text_var s name rest :
  template_at s = Some (name, rest) ->
  expand_text vars 0 s = let? val := resolveVar name vars in let? out := expand_text vars 0 rest in Ok (format_value val +:+ out).
Proof.
  intros E. destruct (template_at_split _ _ _ E) as [Hs _]. destruct s as [|c s']; [done|]. cbn [expand_text]. rewrite E.
  destruct (resolveVar name vars) as [v|e]; [|done]. cbn [rbind].
  assert (exists x, s' = x +:+ rest) as [x ->].
  { simpl in Hs. injection Hs as -> ->. exists ("{" +:+ (name +:+ "}}")). by rewrite <- !str_app_assoc. }
  match goal with |- context [expand_text vars ?n (x +:+ rest)] => replace n with (String.length x) end.
  - by rewrite expand_text_skip.
  - simpl. rewrite str_length_app. lia.
Qed.

Lemma expand_text_reading l s : reading l s -> expand_text vars 0 s = segments_value l.
Proof.
  induction 1 as [|c s l Ht _ IH|s name rest l Ht _ IH]; [done| |]; rewrite segments_value_cons.
  - cbn [expand_text]. rewrite Ht, IH. simpl. by destruct (segments_value l).
  - rewrite (expand_text_var s name rest Ht), IH. simpl. by destruct (resolveVar name vars).
Qed.
End expansion.

Lemma reading_exists s : exists l, reading l s.
Proof.
  assert (forall k s, (String.length s <= k)%nat -> exists l, reading l s) as H; [|by apply (H (String.length s))].
  clear s. induction k as [|k IH]; intros [|c s] Hk; simpl in Hk; try lia; try (exists []; constructor).
  destruct (template_at (String c s)) as [[name rest]|] eqn:E.
  - destruct (template_at_split _ _ _ E) as [Hs _]. destruct (IH rest) as [l Hl].
    { apply (f_equal String.length) in Hs. simpl in Hs. rewrite !str_length_app in Hs. simpl in Hs. lia. }
    exists (Var name :: l). by apply (reading_var _ name rest).
  - destruct (IH s) as [l Hl]; [lia|]. exists (Lit c :: l). by constructor.
Qed.

Lemma reading_text l s : reading l s -> segments_text l = s.
Proof.
  induction 1 as [|c s l Ht _ IH|s name rest l Ht _ IH]; [done| |]; unfold segments_text in *; cbn [map str_concat foldr segment_text] in *.
  - unfold str_concat in IH. simpl. by rewrite IH.
  - unfold str_concat in IH. rewrite IH. destruct (template_at_split _ _ _ Ht) as [-> _]. by rewrite <- !str_app_assoc.
Qed.

Lemma all_ok_spec {A} (l : list (result string A)) :
  (exists xs, all_ok l = Ok xs) <-> Forall (fun r => exists x, r = Ok x) l.
Proof.
  induction l as [|[x|e] l IH]; simpl.
  - split; [done|by eexists].
  - rewrite Forall_cons. destruct (all_ok l) as [xs|e]; simpl.
    + split; [|by eexists]. intros _. split; [by eexists|]. apply IH. by eexists.
    + split; [by intros [? [=]]|]. intros [_ Hl]. apply IH in Hl as [xs [=]].
  - split; [by intros [? [=]]|]. intros Hl. by inversion Hl as [|? ? [x [=]]].
Qed.

(** Expansion is one pass over the text.  A text has a leftmost reading as literal bytes and
    templates; its expansion puts the values of the variables in the place of the templates
    and changes nothing else, so that templates inside values are not expanded, and it fails
    exactly when a variable of the reading does not resolve.  A text that is one template
    is the variable's value itself. *)
Theorem template_expansion `{GoFormat} (vars : gmap string any) (s : string) :
  exists l, reading l s /\ segments_text l = s /\
    expand_text vars 0 s = segments_value vars l /\
    ((exists out, expand_text vars 0 s = Ok out) <-> (forall name, Var name ∈ l -> exists v, resolveVar name vars = Ok v)) /\
    (forall name, template_at (trim_space s) = Some (name, EmptyString) -> expandString s vars = resolveVar name vars).
Proof.
  destruct (reading_exists s) as [l Hl]. exists l. pose proof (expand_text_reading vars l s Hl) as E.
  split_and!; [done|by apply reading_text|done| |].
  - rewrite E. unfold segments_value. transitivity (exists xs, all_ok (map (segment_value vars) l) = Ok xs).
    { destruct (all_ok _) as [xs|e]; simpl; split; intros [? ?]; by eauto. }
    rewrite all_ok_spec, Forall_map, Forall_forall. split.
    + intros Hx name Hn. destruct (Hx _ Hn) as [out Hout]. simpl in Hout. destruct (resolveVar name vars); [by eexists|done].
    + intros Hx [c|name] Hg; simpl; [by eexists|]. destruct (Hx name Hg) as [v ->]. by eexists.
  - intros name Hn. unfold expandString. by rewrite Hn.
Qed.

(** * The engine: lemmas *)

Definition step_label (s : WorkflowStep) : string * string * string := (wsName s, wsTool s, wsAction s).
Definition result_label (r : WorkflowStepResult) : string * string * string := (srName r, srTool r, srAction r).

(** Whether the run goes on after a step. *)
Definition goes_on (s : WorkflowStep) (r : WorkflowStepResult) : bool := srSuccess r || continues s.

Section engine.
Context `{GoFormat} {W : Type} `{ToolExecutor W} (env : RunEnv) (agentID teamID : string).

Lemma run_step_label i s vars w :
  let r := (run_step env agentID teamID i s vars w).1.1 in result_label r = step_label s /\ srSkipped r = false.
Proof.
  unfold run_step. destruct (expandParams _ _) as [params|e]; [|done]. by destruct (tool_call _ _ _) as [[resp|e] w'].
Qed.

Lemma skipped_label l : map result_label (map skipped l) = map step_label l.
Proof. rewrite map_map. by apply map_ext. Qed.

(** The steps that ran are a prefix; the run stops at the first step that fails and does not
    say to continue. *)
Lemma run_steps_spec i steps vars w results failed w' :
  run_steps env agentID teamID i steps vars w = (results, failed, w') ->
  exists ran, results = ran ++ map skipped (drop (length ran) steps) /\ (length ran <= length steps)%nat /\
    map result_label results = map step_label steps /\ Forall (fun r => srSkipped r = false) ran /\
    (forall j s r, steps !! j = Some s -> ran !! j = Some r -> (S j < length ran)%nat \/ failed = false -> goes_on s r = true) /\
    (failed = false -> length ran = length steps) /\
    (failed = true -> exists s r, steps !! (length ran - 1)%nat = Some s /\ last ran = Some r /\ goes_on s r = false).
Proof.
  revert i vars w results failed w'. induction steps as [|s steps IH]; intros i vars w results failed w'; simpl.
  { intros [= <- <- <-]. exists []. split_and!; try done. }
  pose proof (run_step_label i s vars w) as [Hlab Hskip].
  destruct (run_step env agentID teamID i s vars w) as [[r vars'] w1]. simpl in Hlab, Hskip.
  fold (goes_on s r). destruct (goes_on s r) eqn:Hgo.
  - destruct (run_steps env agentID teamID (S i) steps vars' w1) as [[results' failed'] w2] eqn:E. intros [= <- <- <-].
    destruct (IH _ _ _ _ _ _ E) as (ran & -> & Hlen & Hmap & Hran & Hgoes & Hend & Hstop).
    exists (r :: ran). split_and!; [done|simpl; lia|simpl; by f_equal|by constructor| | |].
    + intros [|j] s' r'; simpl; [by intros [= <-] [= <-]|]. intros Hs Hr Hj. eapply Hgoes; [done|done|]. destruct Hj; [left; lia|by right].
    + intros Hf. simpl. f_equal. by apply Hend.
    + intros Hf. destruct (Hstop Hf) as (s' & r' & Hs & Hr & Hg). exists s', r'. simpl. destruct ran as [|r1 ran]; [done|].
      split_and!; [|done|done]. simpl in *. by rewrite Nat.sub_0_r in *.
  - intros [= <- <- <-]. exists [r]. split_and!; simpl; try done.
    + lia.
    + f_equal; [done|apply skipped_label].
    + by constructor.
    + intros [|j] s' r'; simpl; [|done]. intros _ _ [?|?]; [lia|done].
    + intros _. by exists s, r.
Qed.
End engine.

(** The record of a run accounts for every step.  The results name the steps of the workflow,
    in order; the steps that ran are a prefix, in which every step but the last succeeded or
    was to be continued; the run is failed exactly when the last one was not, and then the
    others are reported as skipped. *)
Theorem workflow_results_account `{GoFormat} {W} `{ToolExecutor W} (env : RunEnv) (agentID teamID : string)
    (steps : list WorkflowStep) (vars : gmap string any) (w : W) :
  let '(results, failed, _) := run_steps env agentID teamID 0 steps vars w in
  map result_label results = map step_label steps /\
  exists n, (n <= length steps)%nat /\
    Forall (fun r => srSkipped r = false) (take n results) /\ drop n results = map skipped (drop n steps) /\
    (forall j s r, steps !! j = Some s -> results !! j = Some r -> (S j < n)%nat -> goes_on s r = true) /\
    if failed
    then exists s r, steps !! (n - 1)%nat = Some s /\ results !! (n - 1)%nat = Some r /\ srSkipped r = false /\ goes_on s r = false
    else n = length steps /\ forall j s r, steps !! j = Some s -> results !! j = Some r -> goes_on s r = true.
Proof.
  destruct (run_steps env agentID teamID 0 steps vars w) as [[results failed] w'] eqn:E.
  destruct (run_steps_spec _ _ _ _ _ _ _ _ _ _ E) as (ran & -> & Hlen & Hmap & Hran & Hgoes & Hend & Hstop).
  split; [done|]. exists (length ran). rewrite take_app_length, drop_app_length. split_and!; [done|done|done| |].
  - intros j s r Hs Hr Hj. rewrite lookup_app_l in Hr by lia. eapply Hgoes; [done|done|by left].
  - destruct failed.
    + destruct (Hstop eq_refl) as (s & r & Hs & Hr & Hg). exists s, r. rewrite last_lookup in Hr.
      destruct ran as [|r1 ran]; [done|]. simpl in *. rewrite !Nat.sub_0_r in *. rewrite app_comm_cons.
      rewrite lookup_app_l by (simpl; lia). split_and!; [done|done| |done].
      rewrite Forall_forall in Hran. apply Hran. by eapply list_elem_of_lookup_2.
    + specialize (Hend eq_refl). split; [done|]. intros j s r Hs Hr. pose proof (lookup_lt_Some _ _ _ Hs).
      rewrite lookup_app_l in Hr by lia. eapply Hgoes; [done|done|by right].
Qed.

(** * The engine over the tool protocol *)

(** The events a call adds to the trace, each with a property. *)
Definition adds {S} (F : Event -> Prop) (w w' : World S) : Prop :=
  exists new, wTrace w' = wTrace w ++ new /\ Forall F new.

Lemma adds_refl {S} F (w : World S) : adds F w w.
Proof. exists []. by rewrite app_nil_r. Qed.

Lemma adds_both {S} F (w1 w2 w3 : World S) : adds F w1 w2 -> adds F w2 w3 -> adds F w1 w3.
Proof.
  intros (l1 & E1 & H1) (l2 & E2 & H2). exists (l1 ++ l2). rewrite E2, E1, app_assoc. split; [done|].
  by apply Forall_app.
Qed.

Lemma adds_weaken {S} (F G : Event -> Prop) (w w' : World S) : (forall ev, F ev -> G ev) -> adds F w w' -> adds G w w'.
Proof. intros HFG (l & E & Hl). exists l. split; [done|]. by eapply Forall_impl. Qed.

Lemma adds_trace {S} F (w w' : World S) l : wTrace w' = wTrace w ++ l -> Forall F l -> adds F w w'.
Proof. intros E Hl. by exists l. Qed.

(** ** A run over any executor that keeps to a property *)

Section segments.
Context `{GoFormat} {S : Type} (call : nat -> ToolRequest -> World S -> result string ToolResponse * World S).
Context (F : nat -> ToolRequest -> Event -> Prop).
Context (Hcall : forall i req w, adds (F i req) w (call i req w).2).
Context (env : RunEnv) (agentID teamID : string).

#[local] Instance call_executor : ToolExecutor (World S) := call.

Definition step_event (i : nat) (s : WorkflowStep) (ev : Event) : Prop :=
  exists params, F i (step_request env agentID teamID i s params) ev.

Lemma run_step_adds i s vars w : adds (step_event i s) w (run_step env agentID teamID i s vars w).2.
Proof.
  unfold run_step. destruct (expandParams _ _) as [params|e]; [|apply adds_refl].
  pose proof (Hcall i (step_request env agentID teamID i s params) w) as Hc.
  unfold tool_call, call_executor. destruct (call _ _ _) as [[resp|e] w']; simpl in *;
    (eapply adds_weaken; [|exact Hc]); intros ev Hev; by exists params.
Qed.

Lemma run_steps_segments i steps vars w results failed w' :
  run_steps env agentID teamID i steps vars w = (results, failed, w') ->
  exists evs, wTrace w' = wTrace w ++ concat evs /\ (length evs <= length steps)%nat /\
    (forall j es s, evs !! j = Some es -> steps !! j = Some s -> Forall (step_event (i + j) s) es) /\
    (forall j r, results !! j = Some r -> srSkipped r = true -> evs !! j = None).
Proof.
  revert i vars w results failed w'. induction steps as [|s steps IH]; intros i vars w results failed w'; simpl.
  { intros [= <- <- <-]. exists []. simpl. rewrite app_nil_r. by split_and!. }
  pose proof (run_step_label env agentID teamID i s vars w) as [_ Hsk].
  pose proof (run_step_adds i s vars w) as (new & Hw & Hnew).
  destruct (run_step env agentID teamID i s vars w) as [[r vars'] w1]. simpl in Hsk, Hw.
  destruct (srSuccess r || continues s).
  - destruct (run_steps env agentID teamID (Datatypes.S i) steps vars' w1) as [[results' failed'] w2] eqn:E. intros [= <- <- <-].
    destruct (IH _ _ _ _ _ _ E) as (evs & Ht & Hlen & Hev & Hskip). exists (new :: evs). simpl.
    split_and!; [by rewrite Ht, Hw, app_assoc|lia| |].
    + intros [|j] es s' Hes Hs'; simpl in *; [injection Hes as <-; injection Hs' as <-; by rewrite Nat.add_0_r|].
      rewrite Nat.add_succ_r. by eapply (Hev j).
    + intros [|j] r' Hr' Ht'; simpl in *; [injection Hr' as <-; congruence|]. by eapply Hskip.
  - intros [= <- <- <-]. exists [new]. simpl. rewrite app_nil_r. split_and!; [done|lia| |].
    + intros [|j] es s' Hes Hs'; simpl in *; [injection Hes as <-; injection Hs' as <-; by rewrite Nat.add_0_r|done].
    + intros [|j] r' Hr' Ht'; simpl in *; [injection Hr' as <-; congruence|done].
Qed.

(** The segments of a whole run. *)
Definition segmented (wf : WorkflowDef) (w w' : World S) : Prop :=
  exists evs, wTrace w' = wTrace w ++ concat evs /\ (length evs <= length (wfSteps wf))%nat /\
    forall j es s, evs !! j = Some es -> wfSteps wf !! j = Some s -> Forall (step_event j s) es.

Lemma engine_segments wf inputVars w db :
  wfAgentID wf = agentID -> segmented wf w (EngineExecute env wf inputVars teamID w db).1.2.
Proof.
  intros Ha. assert (segmented wf w w) as Hnone.
  { exists []. simpl. rewrite app_nil_r. split_and!; [done|lia|done]. }
  unfold EngineExecute. destruct (_ <? _)%nat; [exact Hnone|].
  destruct (if reInserts env then _ else None) as [db1|]; [|exact Hnone].
  rewrite Ha. destruct (run_steps _ _ _ _ _ _ _) as [[results failed] w'] eqn:E.
  destruct (run_steps_segments _ _ _ _ _ _ _ E) as (evs & Ht & Hlen & Hev & _).
  destruct (if reUpdates env && _ then _ else None); by exists evs.
Qed.

Lemma segmented_adds wf w w' :
  segmented wf w w' -> adds (fun ev => exists j s, wfSteps wf !! j = Some s /\ step_event j s ev) w w'.
Proof.
  intros (evs & Ht & Hlen & Hev). exists (concat evs). split; [done|]. apply Forall_concat, Forall_forall.
  intros es Hes. apply list_elem_of_lookup in Hes as [j Hj].
  destruct (lookup_lt_is_Some_2 (wfSteps wf) j) as [s Hs]; [apply lookup_lt_Some in Hj; lia|].
  eapply Forall_impl; [by eapply Hev|]. intros ev Hx. by exists j, s.
Qed.
End segments.

(** ** Calls below a call *)

(** [asks path req path' req']: the call [req] at [path] is [req'] at [path'], or runs an
    enabled workflow of its agent, of the tables it finds, with a step that asks for it. *)
Inductive asks (ne : NestEnv) (path : list nat) (req : ToolRequest) : list nat -> ToolRequest -> Prop :=
| asks_self : asks ne path req path req
| asks_step wf i s params path' req' :
    rTool req = "workflow" -> rAction req = "execute" ->
    wf ∈ wdWorkflows (neTables ne path) -> wfAgentID wf = rAgentID req -> wfEnabled wf = true ->
    wfSteps wf !! i = Some s ->
    asks ne (path ++ [i]) (step_request (weRun (neFlow ne path)) (rAgentID req) (rTeamID req) i s params) path' req' ->
    asks ne path req path' req'.

Lemma asks_agent ne path req path' req' :
  asks ne path req path' req' -> rAgentID req' = rAgentID req /\ rTeamID req' = rTeamID req.
Proof. by induction 1. Qed.

(** A request below is the call's own, or a step of a workflow of its agent. *)
Lemma asks_cases ne path req path' req' :
  asks ne path req path' req' ->
  req' = req \/ exists p wf i s params, wf ∈ wdWorkflows (neTables ne p) /\ wfAgentID wf = rAgentID req /\
    wfSteps wf !! i = Some s /\
    req' = step_request (weRun (neFlow ne p)) (rAgentID req) (rTeamID req) i s params.
Proof.
  induction 1 as [|path req wf i s params path' req' Ht Ha Hwf Hag He Hs _ IH]; [by left|]. right.
  destruct IH as [->|(p & wf' & i' & s' & params' & ? & ? & ? & ->)]; [by exists path, wf, i, s, params|].
  by exists p, wf', i', s', params'.
Qed.

Section over_ktp.
Context `{GoFormat} `{UnicodeCase} `{Messages} {S : Type} `{SandboxLaws S}
  (regexp_match : string -> string -> result string bool) (Marshal : any -> result string string)
  (ex : Executor) (ne : NestEnv).

(** A tool run below the call [req] at [path]: of a request the call asks for, cleared by the
    whole pipeline at its own path, at most [slots] calls deep. *)
Definition nested_cleared (slots : nat) (path : list nat) (req : ToolRequest) (ev : Event) : Prop :=
  is_run ev -> exists path' req' tool action agent,
    asks ne path req path' req' /\ (length path' < length path + slots)%nat /\
    run_of (stamp req' (permission_of (neCall ne path') req' tool agent)) ev /\
    cleared_to_run regexp_match ex (neCall ne path') req' tool action agent.

Lemma end_call_adds F req x (w : World S) :
  (forall entry, F (ExecutionLogged entry)) -> adds F w x.2 -> adds F w (end_call Marshal ex req x).2.
Proof.
  intros HF Hx. unfold end_call. destruct x as [[resp|e] w1]; [|done]. simpl in *. destruct (exAudit ex); [|done].
  eapply adds_both; [exact Hx|]. eapply adds_trace; [done|]. by apply Forall_singleton.
Qed.

(** The workflow tool runs steps of an enabled workflow of the request's agent. *)
Lemma workflow_tool_adds (call : nat -> ToolRequest -> World S -> result string ToolResponse * World S) F env req w db :
  (forall i r w, adds (F i r) w (call i r w).2) ->
  adds (fun ev => exists wf i s params, wf ∈ wdWorkflows db /\ wfAgentID wf = rAgentID req /\ wfEnabled wf = true /\
          rAction req = "execute" /\ wfSteps wf !! i = Some s /\
          F i (step_request (weRun env) (rAgentID req) (rTeamID req) i s params) ev)
    w (@WorkflowToolExecute _ (World S) call env req w db).1.2.
Proof.
  intros Hcall. unfold WorkflowToolExecute. case_bool_decide; [apply adds_refl|].
  case_bool_decide as He; [|repeat (case_bool_decide; [apply adds_refl|]); apply adds_refl].
  unfold workflow_execute. destruct (lookupWorkflow env req db) as [wf|] eqn:El; [|apply adds_refl].
  destruct (wfEnabled wf) eqn:Ee; [|apply adds_refl]. cbn [negb].
  assert (wf ∈ wdWorkflows db /\ wfAgentID wf = rAgentID req) as [Hin Ha].
  { unfold lookupWorkflow, owned_workflow in El. destruct (negb _).
    - destruct (weReads env); [|done]. destruct (GetWorkflow _ db) as [x|] eqn:Eg; [|done]. case_bool_decide; [|done].
      injection El as <-. split; [|done]. apply List.find_some in Eg as [Hin _]. by apply list_elem_of_In.
    - destruct (negb _); [|done]. destruct (weReads env); [|done]. destruct (GetWorkflowByName _ _ db) as [x|] eqn:Eg; [|done].
      injection El as <-. apply List.find_some in Eg as [Hin E]. split; [by apply list_elem_of_In|].
      unfold same_name in E. apply bool_decide_eq_true in E. congruence. }
  set (vars := match alookup "vars" _ with Some (AMap m) => _ | _ => _ end).
  pose proof (segmented_adds F (weRun env) (rAgentID req) (rTeamID req) wf w _
    (engine_segments call F Hcall (weRun env) (rAgentID req) (rTeamID req) wf vars w db Ha)) as Hs.
  unfold call_executor in Hs. destruct (EngineExecute (weRun env) wf vars (rTeamID req) w db) as [[[run|e] w'] db']; simpl in *;
    (eapply adds_weaken; [|exact Hs]); intros ev (j & st & Hst & params & Hev); by exists wf, j, st, params.
Qed.

(** Every tool run below a call is cleared. *)
Lemma nested_call_cleared slots path req (w : World S) :
  adds (nested_cleared slots path req) w (nested_call regexp_match Marshal ex ne slots path req w).2.
Proof.
  revert path req w. induction slots as [|slots IH]; intros path req w; cbn [nested_call].
  all: destruct (begin_call _ _ _ _ _) as [x w1] eqn:E; apply begin_call_cases in E.
  all: assert (forall F, (forall p, F (PermissionLogged p)) ->
    (wTrace w1 = wTrace w \/ exists p, wTrace w1 = wTrace w ++ [PermissionLogged p]) -> adds F w w1) as Hlog
    by (intros F HF [Ht|[p Ht]]; [apply (adds_trace F _ _ []); [by rewrite app_nil_r|constructor]|
        apply (adds_trace F _ _ [PermissionLogged p]); [exact Ht|apply Forall_singleton, HF]]).
  all: destruct x as [r|[[tool req'] tier]]; [destruct E as (_ & _ & Ht & _); apply Hlog; [by intros p []|done]|].
  { destruct E as (action & agent & Hc & _). unfold cleared_to_run in Hc. simpl in Hc. destruct_and? Hc; done. }
  destruct E as (action & agent & Hc & -> & -> & ->). set (perm := permission_of _ req tool agent) in *.
  eapply adds_both.
  { apply Hlog; [by intros p []|]. unfold after_gate. simpl. destruct (exAudit ex); [right; by eexists|left; by rewrite app_nil_r]. }
  apply end_call_adds; [by intros entry []|].
  assert (forall ev, run_of (stamp req perm) ev -> nested_cleared (Datatypes.S slots) path req ev) as Hrun.
  { intros ev Hev _. exists path, req, tool, action, agent. split_and!; [constructor|lia|done|done]. }
  case_bool_decide as Hw.
  - unfold run_workflow_tool. set (w2 := emit _ _).
    eapply adds_both; [eapply (adds_trace _ _ w2); [done|]; apply Forall_singleton, Hrun; done|].
    pose proof (workflow_tool_adds (fun i => nested_call regexp_match Marshal ex ne slots (path ++ [i]))
      (fun i => nested_cleared slots (path ++ [i])) (neFlow ne path) (stamp req perm) w2 (neTables ne path)
      (fun i r w => IH (path ++ [i]) r w)) as Ha.
    destruct (WorkflowToolExecute _ _ _ _) as [[r w3] db]. simpl in *.
    eapply adds_weaken; [|exact Ha].
    intros ev (wf & i & s & params & Hin & Hag & He & Hact & Hs & Hev) Hr. destruct (Hev Hr) as (path' & req' & t & a & g & Hask & Hlen & Hof & Hcl).
    exists path', req', t, a, g. split_and!; [by eapply asks_step|rewrite length_app in Hlen; simpl in Hlen; lia|done|done].
  - destruct (executeWithSafety _ _ _ _ _ _) as [rr w2] eqn:Ex.
    apply executeWithSafety_trace in Ex as [Hx|(ev & Hev & Hx)].
    + apply (adds_trace _ _ _ []); [by rewrite app_nil_r|constructor].
    + apply (adds_trace _ _ _ [ev]); [exact Hx|]. by apply Forall_singleton, Hrun.
Qed.

(** Without workflows below it a call is one of the plain executor. *)
Lemma nested_call_plain slots path req (w : World S) :
  rTool req <> "workflow" ->
  nested_call regexp_match Marshal ex ne (Datatypes.S slots) path req w = Execute regexp_match Marshal ex (neCall ne path) req w.
Proof.
  intros Hn. cbn [nested_call]. unfold Execute. destruct (begin_call _ _ _ _ _) as [[r|[[tool req'] tier]] w1]; [done|].
  by rewrite bool_decide_eq_false_2.
Qed.
End over_ktp.

(** C39: A workflow gains its agent nothing.  Executed over the tool protocol, where a step may run
    the workflow tool again, the events a run adds to the trace fall into one segment per
    step, in the order of the steps, and every tool that ran in the segment of a step did so
    for the request of that step or for a step of an enabled workflow of the same agent that
    it ran, at most as many calls deep as there are slots; on behalf of the workflow's agent
    and team; and after the parameters were validated and the permission gate allowed that
    very call. *)
Theorem workflow_runs_only_cleared_steps `{GoFormat} `{UnicodeCase} `{Messages} {S} `{SandboxLaws S} regexp_match Marshal ex
    ne slots path env wf inputVars teamID (w : World S) db :
  let '(_, w', _) := @EngineExecute _ _ (ktp_executor regexp_match Marshal ex ne slots path) env wf inputVars teamID w db in
  exists evs, wTrace w' = wTrace w ++ concat evs /\ (length evs <= length (wfSteps wf))%nat /\
    forall j es s, evs !! j = Some es -> wfSteps wf !! j = Some s -> forall ev, ev ∈ es -> is_run ev ->
      exists params path' req tool action agent,
        asks ne (path ++ [j]) (step_request env (wfAgentID wf) teamID j s params) path' req /\
        (length path' <= length path + slots)%nat /\ rAgentID req = wfAgentID wf /\ rTeamID req = teamID /\
        run_of (stamp req (permission_of (neCall ne path') req tool agent)) ev /\
        cleared_to_run regexp_match ex (neCall ne path') req tool action agent.
Proof.
  pose proof (engine_segments (fun i => nested_call regexp_match Marshal ex ne slots (path ++ [i]))
    (fun i => nested_cleared regexp_match ex ne slots (path ++ [i]))
    (fun i r w => nested_call_cleared regexp_match Marshal ex ne slots (path ++ [i]) r w)
    env (wfAgentID wf) teamID wf inputVars w db eq_refl) as Hs.
  unfold ktp_executor, call_executor in *. destruct (EngineExecute env wf inputVars teamID w db) as [[r w'] db'].
  destruct Hs as (evs & Ht & Hlen & Hev). exists evs. split_and!; [done|done|].
  intros j es s Hes Hst ev Hin Hrun. specialize (Hev j es s Hes Hst). rewrite Forall_forall in Hev.
  destruct (Hev ev Hin) as (params & Hp). destruct (Hp Hrun) as (path' & req & tool & action & agent & Ha & Hl & Hof & Hc).
  destruct (asks_agent _ _ _ _ _ Ha) as [Hag Hte]. rewrite length_app in Hl. simpl in Hl.
  exists params, path', req, tool, action, agent. split_and!; [done|lia|done..].
Qed.

(** * The tables *)

Definition run_ids (db : WorkflowDB) : list string := map wrID (wdRuns db).

Lemma fresh_run_updated run r db db1 :
  CreateWorkflowRun run db = Some db1 -> wrID r = wrID run ->
  UpdateWorkflowRun r db1 = Some (with_runs (wdRuns db ++
    [mkWorkflowRun (wrID run) (wrWorkflowID run) (wrAgentID run) (wrStatus r) (wrStepsJSON r) (wrInputVarsJSON run)
       (wrError r) (wrDurationMs r) (wrStartedAt run) (wrCompletedAt r)]) db).
Proof.
  unfold CreateWorkflowRun, UpdateWorkflowRun. case_bool_decide as Hf; [done|]. intros [= <-] Hid. simpl.
  rewrite bool_decide_eq_true_2 by (rewrite map_app, elem_of_app, Hid; right; by left).
  unfold with_runs. simpl. rewrite map_app. simpl. rewrite Hid, bool_decide_eq_true_2 by done. do 2 f_equal. f_equal.
  rewrite <- (map_id (wdRuns db)) at 2. apply map_ext_in. intros x Hx. rewrite bool_decide_eq_false_2; [done|].
  intros E. apply Hf. rewrite <- E. apply list_elem_of_fmap_2. by apply list_elem_of_In.
Qed.

(** What a run leaves behind.  The definitions and the other runs are as they were.  A run that
    could not be recorded leaves no row and runs no step; every other one leaves its row,
    which says completed or failed when the answer is the run, and says running when the
    last statement failed, as it does when the run took longer than the limit. *)
Theorem engine_records_run `{GoFormat} {W} `{ToolExecutor W} env wf inputVars teamID (w : W) db :
  let '(r, w', db') := EngineExecute env wf inputVars teamID w db in
  wdWorkflows db' = wdWorkflows db /\
  match r with
  | inl run => wdRuns db' = wdRuns db ++ [run] /\ wrID run = reRunID env /\ (wrStatus run = "completed" \/ wrStatus run = "failed")
      /\ wrAgentID run = wfAgentID wf /\ reEnd env - reStart env < DefaultExecutionTimeout
  | inr UpdateRunFailed =>
      exists row, wdRuns db' = wdRuns db ++ [row] /\ wrID row = reRunID env /\ wrStatus row = "running" /\ wrCompletedAt row = None
  | inr _ => db' = db /\ w' = w
  end /\
  (DefaultExecutionTimeout <= reEnd env - reStart env -> forall run, r <> Ok run).
Proof.
  unfold EngineExecute. destruct (_ <? _)%nat; [by split_and!|].
  destruct (if reInserts env then _ else None) as [db1|] eqn:Ec; [|by split_and!].
  destruct (reInserts env); [|done].
  destruct (run_steps _ _ _ _ _ _ _) as [[results failed] w'].
  assert (wdWorkflows db1 = wdWorkflows db /\ exists row, wdRuns db1 = wdRuns db ++ [row] /\ wrID row = reRunID env /\
    wrStatus row = "running" /\ wrCompletedAt row = None) as [Hd Hrow].
  { unfold CreateWorkflowRun in Ec. case_bool_decide; [done|]. injection Ec as <-. split; [done|]. by eexists. }
  destruct (reUpdates env); simpl; [|by split_and!].
  destruct (Z.ltb_spec (reEnd env - reStart env) DefaultExecutionTimeout); [|by split_and!].
  erewrite fresh_run_updated by done. split_and!; simpl; try done; [by destruct failed; auto|lia].
Qed.

(** * The tool: what an agent can do to the table *)

Definition of_agent (agentID : string) (x : WorkflowDef) : bool := bool_decide (wfAgentID x = agentID).

Definition row_key (x : WorkflowDef) : string * string := (wfAgentID x, wfName x).

Record workflows_ok (l : list WorkflowDef) : Prop := {
  wo_ids : NoDup (map wfID l);
  wo_names : NoDup (map row_key l);
  wo_steps : Forall (fun x => (1 <= length (wfSteps x) <= MaxStepsPerWorkflow)%nat) l;
  wo_count : forall agentID, (length (List.filter (of_agent agentID) l) <= MaxWorkflowsPerAgent)%nat;
}.

(** What an operation of an agent may do to the table: keep it well-formed, and leave the
    rows of the others alone. *)
Definition agent_effect (agentID : string) (l l' : list WorkflowDef) : Prop :=
  workflows_ok l -> workflows_ok l' /\
  forall other, other <> agentID -> List.filter (of_agent other) l' = List.filter (of_agent other) l.

Lemma agent_effect_refl agentID l : agent_effect agentID l l.
Proof. by split. Qed.

Lemma insert_by_perm {A} (before : A -> A -> bool) x l : insert_by before x l ≡ₚ x :: l.
Proof. induction l as [|y l IH]; simpl; [done|]. destruct (before y x); [|done]. rewrite IH. apply Permutation_swap. Qed.

Lemma order_by_perm {A} (before : A -> A -> bool) l : order_by before l ≡ₚ l.
Proof. induction l as [|x l IH]; [done|]. simpl. rewrite insert_by_perm. by f_equiv. Qed.

Lemma checked_steps_ok env raw steps : checked_steps env raw = Ok steps -> (1 <= length steps <= MaxStepsPerWorkflow)%nat.
Proof.
  unfold checked_steps. destruct (weParseSteps env raw) as [l|]; [|done]. case_bool_decide as Hn; [done|].
  destruct (Nat.ltb_spec MaxStepsPerWorkflow (length l)); [done|]. intros [= <-]. destruct l; [done|simpl in *; lia].
Qed.

Lemma count_snoc agentID l w :
  length (List.filter (of_agent agentID) (l ++ [w])) =
  (length (List.filter (of_agent agentID) l) + if of_agent agentID w then 1 else 0)%nat.
Proof. rewrite List.filter_app, length_app. simpl. by destruct (of_agent agentID w). Qed.

Lemma create_effect w db db' :
  CreateWorkflow w db = Some db' -> (1 <= length (wfSteps w) <= MaxStepsPerWorkflow)%nat ->
  (length (ListWorkflows (wfAgentID w) db) < MaxWorkflowsPerAgent)%nat ->
  agent_effect (wfAgentID w) (wdWorkflows db) (wdWorkflows db') /\ wdRuns db' = wdRuns db.
Proof.
  unfold CreateWorkflow. destruct (_ || _) eqn:E; [done|]. intros [= <-] Hs Hc. apply orb_false_iff in E as [Hid Hname].
  apply bool_decide_eq_false in Hid. unfold ListWorkflows in Hc. rewrite order_by_perm in Hc. split; [|done]. simpl. intros [H1 H2 H3 H4]. split.
  - split.
    + rewrite map_app. simpl. apply NoDup_app. split_and!; [done| |apply NoDup_singleton]. intros x Hx Hy.
      by apply list_elem_of_singleton in Hy as ->.
    + rewrite map_app. simpl. apply NoDup_app. split_and!; [done| |apply NoDup_singleton]. intros x Hx Hy.
      apply list_elem_of_singleton in Hy as ->. apply list_elem_of_fmap in Hx as (y & Hy & Hin).
      rewrite existsb_elem_false in Hname. specialize (Hname y Hin). unfold same_name in Hname.
      apply bool_decide_eq_false in Hname. by apply Hname.
    + apply Forall_app. split; [done|by apply Forall_singleton].
    + intros agentID. rewrite count_snoc. unfold of_agent at 2. case_bool_decide as Ha; [|specialize (H4 agentID); lia].
      subst agentID. unfold of_agent. unfold MaxWorkflowsPerAgent in *. lia.
  - intros other Hne. rewrite List.filter_app. simpl. unfold of_agent at 2. rewrite bool_decide_eq_false_2 by congruence.
    apply app_nil_r.
Qed.

Lemma GetWorkflow_spec id db wf : GetWorkflow id db = Some wf -> wf ∈ wdWorkflows db /\ wfID wf = id.
Proof. unfold GetWorkflow. intros [Hin Hid]%List.find_some. apply bool_decide_eq_true in Hid. split; [by apply list_elem_of_In|done]. Qed.

Lemma same_id_row l x y : NoDup (map wfID l) -> x ∈ l -> y ∈ l -> wfID x = wfID y -> x = y.
Proof.
  intros Hnd Hx Hy E. apply list_elem_of_lookup in Hx as [i Hi], Hy as [j Hj].
  assert (i = j) as <-; [|by simplify_eq].
  eapply (NoDup_lookup (map wfID l)); [done| |].
  - by rewrite list_lookup_fmap, Hi.
  - rewrite list_lookup_fmap, Hj. simpl. by rewrite E.
Qed.

Lemma updated_row w x : wfID (updated_workflow w x) = wfID x /\ wfAgentID (updated_workflow w x) = wfAgentID x.
Proof. unfold updated_workflow. by case_bool_decide. Qed.

Lemma updated_names w l old :
  NoDup (map wfID l) -> NoDup (map row_key l) -> old ∈ l -> wfID old = wfID w ->
  existsb (fun x => negb (bool_decide (wfID x = wfID w)) && same_name (wfAgentID old) (wfName w) x) l = false ->
  NoDup (map row_key (map (updated_workflow w) l)).
Proof.
  intros Hids Hn Hold Hid Hfree. rewrite existsb_elem_false in Hfree.
  assert (forall x, x ∈ l -> wfID x = wfID w -> x = old) as Hone by (intros x Hx E; eapply same_id_row; [done..|congruence]).
  rewrite map_map. apply NoDup_fmap_2_strong; [|by eapply NoDup_fmap_1]. intros x y Hx Hy. unfold updated_workflow, row_key.
  pose proof (Hfree x Hx) as Fx. pose proof (Hfree y Hy) as Fy. unfold same_name in Fx, Fy.
  destruct (decide (wfID x = wfID w)) as [Ex|Ex], (decide (wfID y = wfID w)) as [Ey|Ey];
    rewrite ?(bool_decide_eq_true_2 _ Ex), ?(bool_decide_eq_true_2 _ Ey), ?(bool_decide_eq_false_2 _ Ex),
      ?(bool_decide_eq_false_2 _ Ey) in *; simpl in *.
  - intros _. by rewrite (Hone x Hx Ex), (Hone y Hy Ey).
  - rewrite (Hone x Hx Ex). apply bool_decide_eq_false in Fy. congruence.
  - rewrite (Hone y Hy Ey). apply bool_decide_eq_false in Fx. congruence.
  - intros E. apply list_elem_of_lookup in Hx as [i Hi], Hy as [j Hj].
    assert (i = j) as <-; [|by simplify_eq].
    eapply (NoDup_lookup (map row_key l)); [done| |]; rewrite list_lookup_fmap, ?Hi, ?Hj; simpl; [done|].
    unfold row_key. by rewrite E.
Qed.

Lemma filter_map_same {A} (p : A -> bool) (f : A -> A) (l : list A) :
  (forall x, p (f x) = p x) -> List.filter p (map f l) = map f (List.filter p l).
Proof. intros Hp. induction l as [|x l IH]; [done|]. simpl. rewrite Hp, IH. by destruct (p x). Qed.

Lemma map_same {A} (f : A -> A) (l : list A) : (forall x, x ∈ l -> f x = x) -> map f l = l.
Proof. intros Hf. rewrite <- (map_id l) at 2. apply map_ext_in. intros x Hx. by apply Hf, list_elem_of_In. Qed.

Lemma updated_agent w a x : of_agent a (updated_workflow w x) = of_agent a x.
Proof. unfold of_agent. by rewrite (proj2 (updated_row w x)). Qed.

Lemma update_effect w db db' old :
  UpdateWorkflow w db = Some db' -> GetWorkflow (wfID w) db = Some old -> (1 <= length (wfSteps w) <= MaxStepsPerWorkflow)%nat \/ wfSteps w = wfSteps old ->
  agent_effect (wfAgentID old) (wdWorkflows db) (wdWorkflows db') /\ wdRuns db' = wdRuns db.
Proof.
  unfold UpdateWorkflow. intros Hu Hg Hs. rewrite Hg in Hu. destruct (existsb _ _) eqn:Hfree; [done|]. injection Hu as <-.
  destruct (GetWorkflow_spec _ _ _ Hg) as [Hold Hid]. split; [|done]. simpl.
  assert (forall x, x ∈ wdWorkflows db -> wfID x = wfID w -> NoDup (map wfID (wdWorkflows db)) -> x = old) as Hone.
  { intros x Hx E Hnd. eapply same_id_row; [done..|congruence]. }
  assert (forall a, length (List.filter (of_agent a) (map (updated_workflow w) (wdWorkflows db))) =
    length (List.filter (of_agent a) (wdWorkflows db))) as Hlen.
  { intros a. rewrite filter_map_same, length_map by apply updated_agent. done. }
  intros [H1 H2 H3 H4]. split.
  - split.
    + rewrite map_map. erewrite map_ext; [exact H1|]. intros x. apply updated_row.
    + by eapply updated_names.
    + rewrite Forall_map, Forall_forall in *. intros x Hx. unfold updated_workflow. case_bool_decide as E; [|by apply H3].
      simpl. destruct Hs as [Hs| ->]; [done|by apply H3].
    + intros a. rewrite Hlen. apply H4.
  - intros other Hne. assert (forall x, x ∈ wdWorkflows db -> wfAgentID x = other -> updated_workflow w x = x) as Hsame.
    { intros x Hx Ha. unfold updated_workflow. case_bool_decide as E; [|done]. rewrite (Hone x Hx E H1) in Ha. done. }
    rewrite filter_map_same by apply updated_agent. apply map_same. intros x [Hx Ha]%filter_elem.
    apply Hsame; [done|]. by apply bool_decide_eq_true in Ha.
Qed.

Lemma delete_effect id db db' old :
  DeleteWorkflow id db = Some db' -> GetWorkflow id db = Some old ->
  agent_effect (wfAgentID old) (wdWorkflows db) (wdWorkflows db') /\ wdRuns db' = wdRuns db.
Proof.
  unfold DeleteWorkflow. intros Hd Hg. rewrite Hg in Hd. injection Hd as <-. destruct (GetWorkflow_spec _ _ _ Hg) as [Hold Hid].
  split; [|done]. simpl. set (keep := fun x : WorkflowDef => negb (bool_decide (wfID x = id))).
  assert (forall l, sublist (List.filter keep l) l) as Hsub.
  { induction l as [|x l IH]; simpl; [constructor|]. destruct (keep x); by constructor. }
  assert (forall a l, List.filter (of_agent a) (List.filter keep l) = List.filter keep (List.filter (of_agent a) l)) as Hcomm.
  { intros a l. induction l as [|x l IH]; [done|]. simpl. destruct (keep x) eqn:Ek, (of_agent a x) eqn:Ea; simpl; by rewrite ?Ek, ?Ea, IH. }
  intros [H1 H2 H3 H4]. split.
  - split.
    + eapply sublist_NoDup; [exact H1|by apply fmap_sublist].
    + eapply sublist_NoDup; [exact H2|by apply fmap_sublist].
    + rewrite Forall_forall in *. intros x [Hx _]%filter_elem. by apply H3.
    + intros a. etransitivity; [|apply (H4 a)]. rewrite Hcomm. apply sublist_length, Hsub.
  - intros other Hne. rewrite Hcomm. assert (forall x, x ∈ List.filter (of_agent other) (wdWorkflows db) -> keep x = true) as Hall.
    { intros x [Hx Ha]%filter_elem. apply bool_decide_eq_true in Ha. unfold keep. rewrite bool_decide_eq_false_2; [done|].
      intros E. apply Hne. rewrite <- Ha. f_equal. eapply same_id_row; [done..|congruence]. }
    clear -Hall. induction (List.filter (of_agent other) (wdWorkflows db)) as [|x l IH]; [done|]. simpl.
    rewrite (Hall x) by by left. f_equal. apply IH. intros y Hy. apply Hall. by right.
Qed.

Section tool_effects.
Context `{GoFormat} {W : Type} `{ToolExecutor W} (env : WorkflowEnv).

Lemma owned_spec agentID id db wf :
  owned_workflow env agentID id db = Ok wf -> GetWorkflow id db = Some wf /\ wfID wf = id /\ wfAgentID wf = agentID.
Proof.
  unfold owned_workflow. destruct (weReads env); [|done]. destruct (GetWorkflow id db) as [x|] eqn:E; [|done].
  case_bool_decide; [|done]. intros [= <-]. split_and!; [done|by apply GetWorkflow_spec in E as [_ ?]|done].
Qed.

Lemma create_agent_effect req db :
  let '(_, db') := workflow_create env req db in
  agent_effect (rAgentID req) (wdWorkflows db) (wdWorkflows db') /\ wdRuns db' = wdRuns db.
Proof.
  unfold workflow_create. destruct (strParam _ _) as [name|]; [|by split; [apply agent_effect_refl|]].
  destruct (alookup _ _) as [raw|]; [|by split; [apply agent_effect_refl|]].
  destruct (checked_steps env raw) as [steps|] eqn:Es; [|by split; [apply agent_effect_refl|]].
  destruct (negb _); [by split; [apply agent_effect_refl|]|].
  destruct (Nat.leb_spec MaxWorkflowsPerAgent (length (ListWorkflows (rAgentID req) db))); [by split; [apply agent_effect_refl|]|].
  destruct (if weWrites env then _ else None) as [db'|] eqn:E; [|by split; [apply agent_effect_refl|]].
  destruct (weWrites env); [|done]. by apply create_effect in E; [|by eapply checked_steps_ok|].
Qed.

Lemma update_agent_effect req db :
  let '(_, db') := workflow_update env req db in
  agent_effect (rAgentID req) (wdWorkflows db) (wdWorkflows db') /\ wdRuns db' = wdRuns db.
Proof.
  unfold workflow_update. destruct (strParam _ _) as [id|]; cbn [rbind]; [|by split; [apply agent_effect_refl|]].
  destruct (owned_workflow env _ id db) as [wf|] eqn:Eo; [|by split; [apply agent_effect_refl|]].
  apply owned_spec in Eo as (Eg & <- & Ha).
  destruct (match alookup "steps" _ with None => _ | Some _ => _ end) as [steps|] eqn:Es; [|by split; [apply agent_effect_refl|]].
  destruct (if weWrites env then _ else None) as [db'|] eqn:E; [|by split; [apply agent_effect_refl|]].
  destruct (weWrites env); [|done]. rewrite <- Ha. eapply update_effect; [exact E|exact Eg|]. simpl.
  destruct (alookup "steps" _) as [raw|]; [left; by eapply checked_steps_ok|right; by injection Es as <-].
Qed.

Lemma delete_agent_effect req db :
  let '(_, db') := deleteWorkflow env req db in
  agent_effect (rAgentID req) (wdWorkflows db) (wdWorkflows db') /\ wdRuns db' = wdRuns db.
Proof.
  unfold deleteWorkflow. destruct (strParam _ _) as [id|]; cbn [rbind]; [|by split; [apply agent_effect_refl|]].
  destruct (owned_workflow env _ id db) as [wf|] eqn:Eo; [|by split; [apply agent_effect_refl|]].
  apply owned_spec in Eo as (Eg & <- & Ha).
  destruct (if weWrites env then _ else None) as [db'|] eqn:E; [|by split; [apply agent_effect_refl|]].
  destruct (weWrites env); [|done]. rewrite <- Ha. by eapply delete_effect.
Qed.

Lemma lookup_owned req db wf : lookupWorkflow env req db = Ok wf -> wfAgentID wf = rAgentID req.
Proof.
  unfold lookupWorkflow. destruct (negb _); [by intros (_ & _ & ?)%owned_spec|]. destruct (negb _); [|done].
  destruct (weReads env); [|done]. destruct (GetWorkflowByName _ _ _) as [x|] eqn:E; [|done]. intros [= <-].
  apply List.find_some in E as [_ E]. unfold same_name in E. apply bool_decide_eq_true in E. congruence.
Qed.

Lemma engine_tables renv wf vars teamID (w : W) db :
  let '(_, _, db') := EngineExecute renv wf vars teamID w db in
  wdWorkflows db' = wdWorkflows db /\
  (wdRuns db' = wdRuns db \/ exists run, wdRuns db' = wdRuns db ++ [run] /\ wrAgentID run = wfAgentID wf).
Proof.
  unfold EngineExecute. destruct (_ <? _)%nat; [by auto|].
  destruct (if reInserts renv then _ else None) as [db1|] eqn:Ec; [|by auto]. destruct (reInserts renv); [|done].
  destruct (run_steps _ _ _ _ _ _ _) as [[results failed] w'].
  assert (wdWorkflows db1 = wdWorkflows db /\ exists run, wdRuns db1 = wdRuns db ++ [run] /\ wrAgentID run = wfAgentID wf) as [Hd Hrun].
  { unfold CreateWorkflowRun in Ec. case_bool_decide; [done|]. injection Ec as <-. split; [done|]. by eexists. }
  destruct (reUpdates renv && _); [|by auto]. erewrite fresh_run_updated by done. simpl. split; [done|]. right. by eexists.
Qed.
End tool_effects.

(** An agent reaches only its own workflows.  Whatever an agent calls the tool with, the table
    stays well-formed (keys and the names of an agent are unique, every workflow has between
    one and thirty steps, an agent has at most twenty), the workflows of the other agents are
    left alone, and at most one run is recorded, which is this agent's. *)
Theorem workflow_tool_confined `{GoFormat} {W} `{ToolExecutor W} env req (w : W) db :
  let '(_, _, db') := WorkflowToolExecute env req w db in
  workflows_ok (wdWorkflows db) ->
  workflows_ok (wdWorkflows db') /\
  (forall other, other <> rAgentID req ->
     List.filter (of_agent other) (wdWorkflows db') = List.filter (of_agent other) (wdWorkflows db)) /\
  (wdRuns db' = wdRuns db \/ exists run, wdRuns db' = wdRuns db ++ [run] /\ wrAgentID run = rAgentID req).
Proof.
  unfold WorkflowToolExecute.
  pose proof (create_agent_effect env req db) as Hc. pose proof (update_agent_effect env req db) as Hu.
  pose proof (delete_agent_effect env req db) as Hd.
  destruct (workflow_create env req db) as [rc dc], (workflow_update env req db) as [ru du], (deleteWorkflow env req db) as [rd dd].
  case_bool_decide; [simpl; intros Hok; destruct Hc as [He ->]; destruct (He Hok); auto|].
  case_bool_decide; [|case_bool_decide; [by auto|]; case_bool_decide; [by auto|];
    case_bool_decide; [simpl; intros Hok; destruct Hu as [He ->]; destruct (He Hok); auto|];
    case_bool_decide; [simpl; intros Hok; destruct Hd as [He ->]; destruct (He Hok); auto|by auto]].
  unfold workflow_execute. destruct (lookupWorkflow env req db) as [wf|] eqn:El; [|by auto].
  destruct (negb (wfEnabled wf)); [by auto|]. rewrite <- (lookup_owned env req db wf El).
  set (vars := match alookup "vars" _ with Some (AMap m) => _ | _ => _ end).
  pose proof (engine_tables (weRun env) wf vars (rTeamID req) w db) as Ht.
  destruct (EngineExecute (weRun env) wf vars (rTeamID req) w db) as [[[run|e] w'] db'];
    destruct Ht as [-> Hr]; auto.
Qed.

(** * Examples *)

Section workflow_examples.
#[local] Instance plain_format : GoFormat := {| format_float := fun _ => "0"; format_other := fun t => t |}.
#[local] Instance example_case : UnicodeCase := ascii_case.
#[local] Instance example_texts : Messages := {| quote s := s; reason_text _ := "denied"; violation_text _ := "invalid" |}.

Definition example_vars : gmap string any :=
  {["task" := AMap [("id", AInt 7); ("a.b", AString "deep")]; "who" := AString "{{task.id}}"]}.

Example expand_whole : expandString " {{task.id}} " example_vars = Ok (AInt 7).
Proof. by vm_compute. Qed.
Example expand_mixed : expandString "task {{task.id}} for {{who}}" example_vars = Ok (AString "task 7 for {{task.id}}").
Proof. by vm_compute. Qed.
Example expand_dotted_key : expandString "{{task.a.b}}" example_vars = Ok (AString "deep").
Proof. by vm_compute. Qed.
Example expand_missing : expandString "x {{nobody}}" example_vars = Err "variable 'nobody' not found".
Proof. by vm_compute. Qed.

(** An executor that echoes the parameters, and fails for the tool [bad]. *)
#[local] Instance echo_executor : ToolExecutor (list string) :=
  fun _ req w => (Ok (NewToolResponse (rID req) (negb (bool_decide (rTool req = "bad"))) (AMap (rParameters req)) EmptyString 0),
                  w ++ [rTool req]).

Definition example_run (took : Z) : RunEnv :=
  mkRunEnv "run1" (fun i => "r" +:+ pretty (Z.of_nat i)) (fun _ => 3) 0 took true true
    (fun l => str_concat (map srName l)) (fun _ => "null").

Definition example_step (name tool save onError : string) (params : list (string * any)) : WorkflowStep :=
  mkWorkflowStep name tool "run" params save onError.

Definition example_workflow : WorkflowDef :=
  mkWorkflow "w1" "a1" "pipeline" EmptyString
    [example_step "fetch" "http" "page" EmptyString [("url", AString "u")];
     example_step "save" "file" EmptyString EmptyString [("text", AString "got {{page.url}}")];
     example_step "boom" "bad" EmptyString "stop" [];
     example_step "never" "file" EmptyString EmptyString []] true 0 0.

Definition empty_workflows : WorkflowDB := mkWorkflowDB [] [].

Example failing_run : exists run db,
  EngineExecute (example_run 1000) example_workflow None EmptyString [] empty_workflows = (Ok run, ["http"; "file"; "bad"], db) /\
  wrStatus run = "failed".
Proof. eexists _, _. by vm_compute. Qed.

(** A run that took six minutes did all its work, and its row stays at running. *)
Example late_run : exists db,
  EngineExecute (example_run (6 * 60 * 1000000000)) example_workflow None EmptyString [] empty_workflows =
    (Err UpdateRunFailed, ["http"; "file"; "bad"], db) /\ map wrStatus (wdRuns db) = ["running"].
Proof. eexists _. by vm_compute. Qed.

Definition example_env : WorkflowEnv :=
  mkWorkflowEnv "w2" 10 true true true (fun _ => Ok (wfSteps example_workflow)) (example_run 1000).

(** A workflow whose only step executes it again takes one slot after the other: with three
    slots it runs three times, and then, the executor's slots all taken, waits for the end of
    its context. *)
#[local] Instance no_box : SandboxExecutor unit :=
  {| GetOrCreateSandbox _ _ s := (Err "no sandbox", s); ExecuteInSandbox _ _ s := (ReturnedError "no sandbox", s);
     SetSandboxSecrets _ _ s := s; SecretsOf _ _ := ∅ |}.

Definition open_decl (name : string) : ToolDeclaration :=
  mkToolDeclaration name "1.0.0" EmptyString [] [mkActionSpec "execute" EmptyString any_schema any_schema [] false] TierReader [] [].

Definition open_executor : Executor :=
  mkExecutor {["workflow" := mkTool (open_decl "workflow") true (fun _ _ => Panicked "nil")]}
    (fun id => Ok (plain_agent id "reader")) true false None.

Definition self_call : WorkflowDef :=
  mkWorkflow "w1" "a1" "again" EmptyString
    [mkWorkflowStep "again" "workflow" "execute" [("id", AString "w1")] EmptyString EmptyString] true 0 0.

Definition self_env : NestEnv :=
  mkNestEnv (fun _ => mkCallEnv "t" 1 true (fun _ _ => [])) (fun _ => example_env) (fun _ => mkWorkflowDB [self_call] [])
    (fun path r => NewToolResponse (pretty (Z.of_nat (length path))) true ANil
       (match r with inl (WorkflowRan run) => wrStatus run | _ => "refused" end) 0).

Example workflow_calls_itself :
  let req := NewToolRequest "q1" "a1" "workflow" "execute" [("id", AString "w1")] in
  let '(r, w) := nested_call (fun _ _ => Ok true) (fun _ => Ok "json") open_executor self_env 3 [] req (mkWorld tt ∅ []) in
  match r with inl resp => Some (respError resp) | inr _ => None end = Some "completed" /\
  length (List.filter (fun ev => match ev with RanInline _ _ _ => true | _ => false end) (wTrace w)) = 3%nat /\
  length (List.filter (fun ev => match ev with PermissionLogged p => pAllowed p | _ => false end) (wTrace w)) = 4%nat.
Proof. by vm_compute. Qed.

Definition example_create : ToolRequest :=
  NewToolRequest "q1" "a2" "workflow" "create" [("name", AString "pipeline"); ("steps", ASlice [])].

Definition one_workflow : WorkflowDB := mkWorkflowDB [example_workflow] [].

Lemma one_workflow_ok : workflows_ok [example_workflow].
Proof.
  split; [by apply (bool_decide_unpack _); vm_compute..| |].
  - apply Forall_singleton. vm_compute. lia.
  - intros a. simpl. destruct (of_agent a example_workflow); unfold MaxWorkflowsPerAgent; simpl; lia.
Qed.

Lemma workflow_tool_confined_witness :
  workflows_ok (wdWorkflows (WorkflowToolExecute example_env example_create ([] : list string) one_workflow).2).
Proof.
  pose proof (workflow_tool_confined example_env example_create ([] : list string) one_workflow) as H.
  destruct (WorkflowToolExecute example_env example_create [] one_workflow) as [[r w] db].
  exact (proj1 (H one_workflow_ok)).
Defined.
End workflow_examples.
