(* ===== verification/MessageSystem.v ===== *)
(** End to end: the message loop over the components it calls.

    First rules for the loop against the interface [Services]: [steps] is a Hoare triple
    on the world, and [handle_steps] the rule of a whole message, with one assertion per
    phase.  Then [System], the services as Kyvik wires them: the tool executor, the
    spending tables, the circuit breakers and the model router, with the model, the
    assembler, the clock and the rest of the outside as an oracle.  The two theorems are
    about this system: what runs on behalf of a message, and what a message can spend. *)

From S2P Require Import Prelude GoString GoFloat Types GoJson KtpTypes KtpSchema KtpGate.
From S2P Require Import KtpRegistry KtpExecutor Breaker Chat AgentText Security Spending.
From S2P Require Import Workflow Lifecycle Router AgentLoop.
#[local] Open Scope Z_scope.

(** * Triples *)

Section triples.
Context {W : Type}.

Definition steps {A} (P : W -> Prop) (m : M (W := W) A) (Q : result LoopError A -> W -> Prop) : Prop :=
  forall st, P (lsWorld st) -> let '(r, st') := m st in Q r (lsWorld st').

(** The assertion holds after [m], and its result, if any, has a property. *)
Definition yields {A} (F : A -> Prop) (I : W -> Prop) (r : result LoopError A) (w : W) : Prop :=
  I w /\ match r with inl a => F a | inr _ => True end.

Lemma steps_ret {A} (P : W -> Prop) (a : A) (Q : result LoopError A -> W -> Prop) :
  (forall w, P w -> Q (Ok a) w) -> steps P (ret a) Q.
Proof. intros HQ st HP. by apply HQ. Qed.

Lemma steps_fail {A} (P : W -> Prop) (e : LoopError) (Q : result LoopError A -> W -> Prop) :
  (forall w, P w -> Q (Err e) w) -> steps P (fail e) Q.
Proof. intros HQ st HP. by apply HQ. Qed.

Lemma steps_say (P : W -> Prop) (e : LoopEvent) (Q : result LoopError unit -> W -> Prop) :
  (forall w, P w -> Q (Ok tt) w) -> steps P (say e) Q.
Proof. intros HQ st HP. by apply HQ. Qed.

Lemma steps_service {A} (P : W -> Prop) (f : W -> A * W) (Q : result LoopError A -> W -> Prop) :
  (forall w, P w -> Q (Ok (f w).1) (f w).2) -> steps P (service f) Q.
Proof.
  intros HQ st HP. unfold service. specialize (HQ _ HP). by destruct (f (lsWorld st)).
Qed.

Lemma steps_defence {A} (P : W -> Prop) (f : SecurityLog -> A * SecurityLog)
    (Q : result LoopError A -> W -> Prop) :
  (forall w log, P w -> Q (Ok (f log).1) w) -> steps P (defence f) Q.
Proof.
  intros HQ st HP. unfold defence. specialize (HQ _ (lsSecurity st) HP).
  by destruct (f (lsSecurity st)).
Qed.

Lemma steps_count (P : W -> Prop) (Q : result LoopError Z -> W -> Prop) :
  (forall w n, P w -> Q (Ok n) w) -> steps P count_message Q.
Proof. intros HQ st HP. by apply HQ. Qed.

Lemma steps_bind {A B} (P : W -> Prop) (m : M A) (k : A -> M B) (R : A -> W -> Prop)
    (Q : result LoopError B -> W -> Prop) :
  steps P m (fun r w => match r with inl a => R a w | inr e => Q (Err e) w end) ->
  (forall a, steps (R a) (k a) Q) -> steps P (bind m k) Q.
Proof.
  intros Hm Hk st HP. unfold bind. specialize (Hm _ HP). destruct (m st) as [[a|e] st1]; [|done].
  by apply Hk.
Qed.

Lemma steps_mono {A} (P P' : W -> Prop) (m : M A) (Q Q' : result LoopError A -> W -> Prop) :
  steps P' m Q' -> (forall w, P w -> P' w) -> (forall r w, Q' r w -> Q r w) -> steps P m Q.
Proof.
  intros Hm HP HQ st H. specialize (Hm _ (HP _ H)). destruct (m st). by apply HQ.
Qed.

(** [m] keeps the assertion. *)
Definition stable {A} (I : W -> Prop) (m : M (W := W) A) : Prop := steps I m (fun _ => I).

Lemma stable_bind {A B} (I : W -> Prop) (m : M A) (k : A -> M B) :
  stable I m -> (forall a, stable I (k a)) -> stable I (bind m k).
Proof.
  intros Hm Hk. eapply steps_bind with (R := fun _ => I); [|done].
  eapply steps_mono; [exact Hm|done|]. by intros [].
Qed.

Lemma stable_ret {A} (I : W -> Prop) (a : A) : stable I (ret a).
Proof. by apply steps_ret. Qed.
Lemma stable_fail {A} (I : W -> Prop) (e : LoopError) : stable (A := A) I (fail e).
Proof. by apply steps_fail. Qed.
Lemma stable_say (I : W -> Prop) (e : LoopEvent) : stable I (say e).
Proof. by apply steps_say. Qed.
Lemma stable_defence {A} (I : W -> Prop) (f : SecurityLog -> A * SecurityLog) : stable I (defence f).
Proof. by apply steps_defence. Qed.
Lemma stable_count (I : W -> Prop) : stable I count_message.
Proof. by apply steps_count. Qed.
Lemma stable_when (I : W -> Prop) (b : bool) (m : M unit) : stable I m -> stable I (when b m).
Proof. destruct b; [done|]. intros _. apply stable_ret. Qed.

(** A service whose answer is not used. *)
Definition quiet {A} (I : W -> Prop) (f : W -> A * W) : Prop := forall w, I w -> I (f w).2.

Lemma stable_service {A} (I : W -> Prop) (f : W -> A * W) : quiet I f -> stable I (service f).
Proof. intros Hf. by apply steps_service. Qed.

Lemma stable_say_all (I : W -> Prop) (l : list LoopEvent) : stable I (say_all l).
Proof. induction l; [apply stable_ret|]. by apply stable_bind; [apply stable_say|]. Qed.

Lemma steps_say_all (P : W -> Prop) (l : list LoopEvent) (Q : result LoopError unit -> W -> Prop) :
  (forall w, P w -> Q (Ok tt) w) -> steps P (say_all l) Q.
Proof.
  intros HQ. induction l as [|e l IH]; [by apply steps_ret|]. simpl.
  eapply steps_bind with (R := fun _ => P); [by apply steps_say|done].
Qed.

Lemma stable_consult {A} (I : W -> Prop) (f : W -> (A * ModelCalls) * W) : quiet I f -> stable I (consult f).
Proof.
  intros Hf. unfold consult. apply stable_bind; [by apply stable_service|intros x].
  apply stable_bind; [apply stable_say_all|intros; apply stable_ret].
Qed.

(** A service that asks models: its answer is what counts. *)
Lemma steps_consult {A} (P : W -> Prop) (f : W -> (A * ModelCalls) * W) (Q : result LoopError A -> W -> Prop) :
  (forall w, P w -> Q (Ok (f w).1.1) (f w).2) -> steps P (consult f) Q.
Proof.
  intros HQ. unfold consult. eapply steps_bind with (R := fun x => Q (Ok x.1)).
  { apply steps_service. intros w Hw. by apply HQ. }
  intros x. eapply steps_bind with (R := fun _ => Q (Ok x.1)); [|intros; by apply steps_ret].
  by apply steps_say_all.
Qed.

(** The first part keeps the assertion, the second takes it on. *)
Lemma steps_after {A B} (I : W -> Prop) (m : M A) (k : A -> M B) (Q : result LoopError B -> W -> Prop) :
  stable I m -> (forall e w, I w -> Q (Err e) w) -> (forall a, steps I (k a) Q) -> steps I (bind m k) Q.
Proof.
  intros Hm He Hk. eapply steps_bind with (R := fun _ => I); [|done].
  eapply steps_mono; [exact Hm|done|]. intros [a|e] w Hw; [done|by apply He].
Qed.

Lemma steps_after_yields {A B} (P I : W -> Prop) (F : A -> Prop) (m : M A) (k : A -> M B)
    (Q : result LoopError B -> W -> Prop) :
  steps P m (yields F I) -> (forall e w, I w -> Q (Err e) w) ->
  (forall a, F a -> steps I (k a) Q) -> steps P (bind m k) Q.
Proof.
  intros Hm He Hk. eapply steps_bind with (R := fun a w => F a /\ I w).
  { eapply steps_mono; [exact Hm|done|]. intros [a|e] w [Hw HF]; [done|by apply He]. }
  intros a st [HF Hw]. by apply Hk.
Qed.
End triples.

Create HintDb stable.
#[local] Hint Resolve stable_bind stable_ret stable_fail stable_say stable_defence stable_count
  stable_when stable_service stable_consult stable_say_all : stable.
#[local] Hint Extern 5 (stable _ (if ?b then _ else _)) => destruct b : stable.
#[local] Hint Extern 5 (stable _ (match ?x with _ => _ end)) => destruct x : stable.

(** * The rule of a message *)

(** The bytes a stream delivers. *)
Fixpoint stream_bytes (items : list StreamItem) : Z :=
  match items with
  | StreamChunk c _ _ :: items' => Z.of_nat (String.length c) + stream_bytes items'
  | _ :: items' => stream_bytes items'
  | [] => 0
  end.

Section rule.
Context {W : Type} `{Services W}.
Context (fmt_float : float64 -> result string string).
Context (UnmarshalSecurity : string -> SecurityConfig -> SecurityConfig).
Context (MarshalCalls : list ToolUse -> string) (timestamp : ChatIn -> string).
Context (wr : Wiring) (config : AgentConfig) (settings : LoopSettings) (runnerProvider : string).

(** What the loop guarantees of a request it hands to the executor. *)
Definition authorized (req : ToolRequest) : Prop :=
  rAgentID req = ID config /\ rTeamID req = TeamID config /\
  (wrDefense wr = true ->
   forall log, (ValidateToolCall fmt_float (secCfg UnmarshalSecurity config) (ID config) req log).1 = None).

(** ** Tools *)

Section tools.
Context (J : W -> Prop).
Context (Hfresh : quiet J sv_fresh_id).
Context (Hexecute : forall req, authorized req -> quiet J (sv_execute req)).
Context (Htool : forall tool action success destructive, quiet J (sv_breaker_tool tool action success destructive)).
Context (Hfeedback : forall req, quiet J (sv_feedback req)).

Lemma request_of_agent (id : string) (tc : ToolUse) :
  rAgentID (request_of wr config id tc).1 = ID config /\ rTeamID (request_of wr config id tc).1 = TeamID config.
Proof.
  unfold request_of, ConvertToKTPRequest. destruct (SplitToolAction _) as [tool action].
  case_bool_decide; [|done]. destruct (wrRegistry wr); [|done].
  destruct (RegistryGet _ _) as [t|]; [|done]. by destruct (dActions (Declaration t)).
Qed.

Lemma ValidateToolCall_log cfg agentID req log log' :
  (ValidateToolCall fmt_float cfg agentID req log).1 = (ValidateToolCall fmt_float cfg agentID req log').1.
Proof. unfold ValidateToolCall. by destruct (OutputValidation cfg). Qed.

Lemma ValidateToolCall_blocked cfg agentID req log v :
  (ValidateToolCall fmt_float cfg agentID req log).1 = Some v -> Blocked v = true.
Proof.
  unfold ValidateToolCall. destruct (OutputValidation cfg); [|done]. simpl.
  destruct (Blocked (CheckToolCall _ _ _)) eqn:E; [|done]. by intros [= <-].
Qed.

(** A call that passes validation is authorized. *)
Lemma validate_call_steps (req : ToolRequest) :
  rAgentID req = ID config -> rTeamID req = TeamID config ->
  steps J (validate_call fmt_float UnmarshalSecurity wr config req)
    (yields (fun blocked => blocked = None -> authorized req) J).
Proof.
  intros Ha Ht. unfold validate_call. destruct (wrDefense wr) eqn:Ed.
  2:{ apply steps_ret. intros w Hw. split; [done|]. intros _. split_and!; [done..|]. congruence. }
  eapply steps_after_yields with (I := J) (F := fun vr =>
    (forall log, (ValidateToolCall fmt_float (secCfg UnmarshalSecurity config) (ID config) req log).1 = vr)).
  - apply steps_defence. intros w log Hw. split; [done|]. intros log'. apply ValidateToolCall_log.
  - intros e w Hw. by split.
  - intros vr Hvr. apply steps_after; [by auto with stable|intros; by split|]. intros _.
    apply steps_ret. intros w Hw. split; [done|]. destruct vr as [v|].
    + rewrite (ValidateToolCall_blocked _ _ _ _ _ (Hvr (mkSecurityLog true [] None))). done.
    + intros _. by split_and!.
Qed.

Lemma trip_check_stable (I : W -> Prop) wired check :
  quiet I check -> stable I (trip_check wired check).
Proof. unfold trip_check. auto 6 with stable. Qed.

#[local] Hint Resolve trip_check_stable : stable.

Lemma run_tool_stable (tc : ToolUse) :
  stable J (run_tool fmt_float UnmarshalSecurity wr config settings tc).
Proof.
  unfold run_tool. apply stable_bind; [by auto with stable|]. intros id.
  pose proof (request_of_agent id tc) as [Ha Ht].
  destruct (request_of wr config id tc) as [req resolvable]. simpl in Ha, Ht.
  destruct resolvable; simpl; [|by auto with stable].
  eapply steps_after_yields; [by apply validate_call_steps|done|].
  intros [reason|] Hauth; [apply stable_ret|]. specialize (Hauth eq_refl).
  apply stable_bind; [by auto with stable|]. intros _.
  apply stable_bind; [by auto with stable|]. intros r.
  apply stable_bind; [by auto with stable|]. intros _.
  apply stable_bind; [by auto with stable|]. intros result.
  apply stable_bind; [by auto with stable|]. intros fb.
  unfold append_history. by auto with stable.
Qed.

Lemma run_tools_stable (calls : list ToolUse) :
  stable J (run_tools fmt_float UnmarshalSecurity wr config settings calls).
Proof. induction calls; simpl; [|pose proof (run_tool_stable a)]; auto 8 with stable. Qed.
End tools.

(** ** Model calls *)

Section model.
Context (I : W -> Prop) (fair : Z -> Z -> Prop).
Context (Hcomplete : forall p req w, I w -> yields (fun r => match r with
  | inl resp => fair (rsTokensIn resp) (rsTokensOut resp) | inr _ => True end) I
  (Ok (sv_complete p req w).1) (sv_complete p req w).2).
Context (Hstream : forall p req w, I w -> yields (fun r => match r with
  | inl items => forall n, 0 <= n <= stream_bytes items / 4 -> fair 0 n | inr _ => True end) I
  (Ok (sv_stream p req w).1) (sv_stream p req w).2).

Definition fair_answer (r : result string CompletionResponse) : Prop :=
  match r with inl resp => fair (rsTokensIn resp) (rsTokensOut resp) | inr _ => True end.

Lemma stream_bytes_nonneg (items : list StreamItem) : 0 <= stream_bytes items.
Proof. induction items as [|[| | |] items IH]; simpl; lia. Qed.

Lemma consume_fair (items : list StreamItem) (content : string) :
  (forall n, 0 <= n <= (Z.of_nat (String.length content) + stream_bytes items) / 4 -> fair 0 n) ->
  steps I (consume_stream items content) (yields fair_answer I).
Proof.
  assert (forall content bytes, 0 <= bytes ->
    (forall n, 0 <= n <= (Z.of_nat (String.length content) + bytes) / 4 -> fair 0 n) ->
    steps I (run! say (EvStream (SEDone 0 (Z.of_nat (String.length content) / 4))) in
      ret (Ok (mkCompletionResponse content [] EmptyString 0 (Z.of_nat (String.length content) / 4)
        f64_zero EmptyString false))) (yields fair_answer I)) as Hfin.
  { intros c bytes Hb Hf. apply steps_after; [by auto with stable|intros; by split|]. intros _.
    apply steps_ret. intros w Hw. split; [done|]. simpl. apply Hf.
    split; [apply Z.div_pos; lia|]. apply Z.div_le_mono; lia. }
  revert content. induction items as [|i items IH]; intros content Hf; cbn [consume_stream].
  { eapply (Hfin content 0); [lia|]. intros n Hn. apply Hf. simpl. lia. }
  pose proof (stream_bytes_nonneg items) as Hnn.
  destruct i as [e| | |c last error]; cbn [stream_bytes] in Hf.
  - apply steps_ret. intros w Hw. by split.
  - apply steps_after; [by auto with stable|intros; by split|]. intros _.
    apply steps_ret. intros w Hw. by split.
  - by eapply Hfin.
  - case_bool_decide; simpl.
    2:{ apply steps_after; [by auto with stable|intros; by split|]. intros _.
        apply steps_ret. intros w Hw. by split. }
    assert (forall n, 0 <= n <= (Z.of_nat (String.length (content +:+ c)) + stream_bytes items) / 4 ->
      fair 0 n) as Hf'.
    { intros n Hn. apply Hf. rewrite str_length_app in Hn. rewrite Z.add_assoc, <- Nat2Z.inj_add. done. }
    apply steps_after; [by auto with stable|intros; by split|]. intros _.
    destruct last; [by eapply Hfin|by apply IH].
Qed.

Lemma complete_fair provider req : steps I (complete provider req) (yields fair_answer I).
Proof.
  unfold complete. apply steps_after; [by auto with stable|intros; by split|]. intros _.
  apply steps_service. intros w Hw. by apply Hcomplete.
Qed.

Lemma call_model_fair provider req canStream :
  steps I (call_model provider req canStream)
    (yields (fun x => fair (rsTokensIn x.1) (rsTokensOut x.1)) I).
Proof.
  assert (steps I (complete_or_retry provider req)
    (yields (fun x => fair (rsTokensIn x) (rsTokensOut x)) I)) as Hretry.
  { unfold complete_or_retry. eapply steps_after_yields; [apply complete_fair|intros; by split|].
    intros [resp|e] Hr; [apply steps_ret; intros w Hw; by split|].
    destruct (isToolRelated400 e && _); [|apply steps_fail; intros w Hw; by split].
    eapply steps_after_yields; [apply complete_fair|intros; by split|].
    intros [resp|e'] Hr'; [apply steps_ret|apply steps_fail]; intros w Hw; by split. }
  unfold call_model. eapply steps_after_yields with (F := fair_answer).
  - destruct canStream; [|apply steps_ret; intros w Hw; by split].
    unfold streamModelCall. apply steps_after; [by auto with stable|intros; by split|]. intros _.
    eapply steps_after_yields; [apply steps_service; intros w Hw; by apply Hstream|intros; by split|].
    intros [items|e] Hi; [by apply consume_fair|apply steps_ret; intros w Hw; by split].
  - intros e w Hw. by split.
  - intros [resp|e] Hr; [apply steps_ret; intros w Hw; by split|].
    eapply steps_after_yields; [apply Hretry|intros; by split|].
    intros resp Hresp. apply steps_ret. intros w Hw. by split.
Qed.
End model.

(** ** The whole message

    [P] holds before, [A n] after a passed budget check and [n] services that may have asked
    models, [R] before a model call, [J] once the call has been accounted for. *)
Record message_outline (P : W -> Prop) (A : nat -> W -> Prop) (R J : W -> Prop) (fair : Z -> Z -> Prop) : Prop := {
  mo_check : forall w, P w ->
    match sv_check_budget w with (inl true, w') => A 0%nat w' | (_, w') => P w' end;
  mo_recheck : forall w, J w ->
    match sv_check_budget w with (inl true, w') => A 0%nat w' | (_, w') => J w' end;
  mo_later : forall n w, A n w -> A (S n) w;
  mo_checked : forall w, A 3%nat w -> R w;
  mo_weaken : forall w, R w -> J w;
  mo_assemble : forall n content w, A n w -> A (S n) (sv_assemble content w).2;
  mo_compress : forall n w, A n w -> A (S n) (sv_compress w).2;
  mo_random : quiet (A 3%nat) sv_random;
  mo_route : forall msg w, A 3%nat w ->
    match sv_route msg w with
    | (inl d, _, w') => let cost := rdClassifierCost d in
        R w' /\ forall opts, R (sv_record (ciTokensIn cost) (ciTokensOut cost) (ciCost cost) opts w')
    | (inr _, _, w') => R w'
    end;
  mo_complete : forall p req w, R w -> yields (fair_answer fair) R
    (Ok (sv_complete p req w).1) (sv_complete p req w).2;
  mo_stream : forall p req w, R w -> yields (fun r => match r with
    | inl items => forall n, 0 <= n <= stream_bytes items / 4 -> fair 0 n | inr _ => True end) R
    (Ok (sv_stream p req w).1) (sv_stream p req w).2;
  mo_record : forall tokensIn tokensOut cost opts w,
    fair tokensIn tokensOut -> R w -> J (sv_record tokensIn tokensOut cost opts w);
  mo_spending : forall cost, quiet J (sv_breaker_spending cost);
  mo_message : forall content, quiet J (sv_breaker_message content);
  mo_tool : forall tool action success destructive, quiet J (sv_breaker_tool tool action success destructive);
  mo_fresh : quiet J sv_fresh_id;
  mo_execute : forall req, authorized req -> quiet J (sv_execute req);
  mo_feedback : forall req, quiet J (sv_feedback req);
  mo_count : quiet J sv_history_count;
}.

Section message.
Context (P : W -> Prop) (A : nat -> W -> Prop) (R J : W -> Prop) (fair : Z -> Z -> Prop) (Ho : message_outline P A R J fair).

Let C : W -> Prop := A 0%nat.

#[local] Hint Resolve mo_random mo_spending mo_message mo_tool mo_fresh
  mo_execute mo_feedback mo_count : stable.

Lemma later (n m : nat) w : (n <= m)%nat -> A n w -> A m w.
Proof. induction 1 as [|m _ IH]; [done|]. intros Hn. by apply (mo_later _ _ _ _ _ Ho), IH. Qed.

Lemma checked_ready w : C w -> R w.
Proof. intros Hw. apply (mo_checked _ _ _ _ _ Ho), (later 0 3); [lia|done]. Qed.

Lemma ready_accounted w : R w -> J w.
Proof. apply (mo_weaken _ _ _ _ _ Ho). Qed.

#[local] Hint Resolve checked_ready ready_accounted : stable.
#[local] Hint Resolve trip_check_stable : stable.

Lemma check_budget_steps (Q : W -> Prop) :
  (forall w, Q w -> match sv_check_budget w with (inl true, w') => C w' | (_, w') => Q w' end) ->
  steps Q check_budget (fun r w => match r with inl (inl true) => C w | _ => Q w end).
Proof.
  intros HQ. unfold check_budget. eapply steps_bind with
    (R := fun r w => match r with inl true => C w | _ => Q w end).
  { apply steps_service. intros w Hw. specialize (HQ _ Hw). by destruct (sv_check_budget w) as [[[]|] w']. }
  intros r. eapply steps_bind with (R := fun _ w => match r with inl true => C w | _ => Q w end).
  { apply steps_say. done. }
  intros _. apply steps_ret. done.
Qed.

Lemma account_steps provider modelName slotName routedBy resp :
  fair (rsTokensIn resp) (rsTokensOut resp) ->
  steps R (account wr provider modelName slotName routedBy resp) (fun _ => J).
Proof.
  intros Hf. unfold account. apply steps_after; [by auto with stable|eauto with stable|]. intros _.
  eapply steps_bind with (R := fun _ => J).
  { apply steps_service. intros w Hw. simpl. by eapply mo_record. }
  intros _. apply stable_bind; eauto with stable.
Qed.

Lemma rounds_steps rd n first messages last streamed :
  steps R (rounds fmt_float UnmarshalSecurity MarshalCalls wr config settings rd n first messages last streamed)
    (fun _ => J).
Proof.
  revert first messages last streamed. induction n as [|n IH]; intros; cbn [rounds].
  { apply steps_ret. eauto with stable. }
  eapply steps_after_yields.
  { apply call_model_fair; [by eapply mo_complete|by eapply mo_stream]. }
  { eauto with stable. }
  intros [resp s] Hf. cbn [fst] in Hf.
  set (resp' := if no_calls resp then _ else _).
  assert (fair (rsTokensIn resp') (rsTokensOut resp')) as Hf' by (subst resp'; by destruct (no_calls resp)).
  eapply steps_bind with (R := fun _ => J).
  { eapply steps_mono; [by apply account_steps|done|]. by intros [] w. }
  intros _. destruct (no_calls resp' || negb (wrExecutor wr)); [apply stable_ret|].
  unfold append_history. apply steps_after; [by auto with stable|done|]. intros _.
  apply steps_after; [apply run_tools_stable; eauto with stable|done|]. intros results.
  eapply steps_bind; [|intros budget; destruct budget as [[|]|e]].
  - eapply steps_mono; [apply check_budget_steps; by eapply mo_recheck|done|].
    intros [b|e] w Hw; [|done]. instantiate (1 := fun b w => match b with inl true => C w | _ => J w end).
    by destruct b as [[|]|].
  - eapply steps_mono; [apply IH|eauto with stable|done].
  - apply stable_ret.
  - apply stable_fail.
Qed.

Lemma route_message_steps msg content :
  steps (A 3%nat) (route_message fmt_float wr config runnerProvider msg content) (fun _ => R).
Proof.
  pose proof (mo_checked _ _ _ _ _ Ho) as HAR.
  unfold route_message. destruct (wrRouter wr); [|apply steps_ret; by auto].
  eapply steps_bind with (R := fun r w => match r with
    | inl d => let cost := rdClassifierCost d in
        R w /\ forall opts, R (sv_record (ciTokensIn cost) (ciTokensOut cost) (ciCost cost) opts w)
    | inr _ => R w end).
  { apply steps_consult. intros w Hw. pose proof (mo_route _ _ _ _ _ Ho msg w Hw) as Hr.
    by destruct (sv_route msg w) as [[[d|e] calls] w']. }
  intros [d|e]; [|apply stable_fail]. cbv zeta.
  eapply steps_bind with (R := fun _ => R).
  { destruct (f64_lt _ _); [|by apply steps_ret; intros w []].
    match goal with |- steps ?X _ _ => eapply (steps_bind X _ _ (fun _ => X)) end; [by apply steps_say|].
    intros _. apply steps_service. intros w [_ Hw]. apply Hw. }
  intros _. apply stable_bind; auto with stable.
Qed.

Lemma assemble_context_steps content :
  steps C (assemble_context wr settings content) (fun _ => A 3%nat).
Proof.
  unfold assemble_context. eapply steps_bind with (R := fun _ => A 1%nat).
  { apply steps_consult. intros w Hw. simpl. by apply (mo_assemble _ _ _ _ _ Ho). }
  intros [a|e]; [|apply steps_fail; intros w; by apply later; lia].
  destruct (_ && _); [|apply steps_ret; intros w; by apply later; lia].
  eapply steps_bind with (R := fun _ => A 2%nat).
  { apply steps_consult. intros w Hw. simpl. by apply (mo_compress _ _ _ _ _ Ho). }
  intros [[]|e]; [|apply steps_ret; intros w; by apply later; lia].
  eapply steps_bind with (R := fun _ => A 3%nat); [|intros [a'|e]; [by apply steps_ret|by apply steps_fail]].
  apply steps_consult. intros w Hw. simpl. by apply (mo_assemble _ _ _ _ _ Ho).
Qed.

(** What the accounts of a message can reach. *)
Lemma handle_steps msg :
  steps P (handleMessage fmt_float UnmarshalSecurity MarshalCalls timestamp wr config settings runnerProvider msg)
    (fun _ w => P w \/ J w).
Proof.
  assert (forall w, A 3%nat w -> J w) as HCJ.
  { intros w Hw. by apply (mo_weaken _ _ _ _ _ Ho), (mo_checked _ _ _ _ _ Ho). }
  unfold handleMessage. eapply steps_bind with (R := fun b w => match b with inl true => C w | _ => P w end).
  { eapply steps_mono; [apply check_budget_steps; by eapply mo_check|done|].
    intros [[[|]|]|] w Hw; by auto. }
  intros [[|]|e]; [|apply steps_fail; by auto..].
  eapply steps_bind with (R := fun _ => A 3%nat).
  { eapply steps_mono; [apply assemble_context_steps|done|]. intros [x|e] w Hw; by auto. }
  intros assembled.
  apply steps_after; [unfold prepare_prompt; pose proof (mo_random _ _ _ _ _ Ho); by auto 6 with stable|by auto|].
  intros [systemPrompt canary].
  eapply steps_bind with (R := fun _ => R).
  { eapply steps_mono; [apply route_message_steps|done|]. intros [x|e] w Hw; [done|]. right. eauto with stable. }
  intros [round content]. unfold append_history.
  apply steps_after; [by auto with stable|eauto with stable|]. intros _.
  eapply steps_bind with (R := fun _ => J).
  { eapply steps_mono; [apply rounds_steps|done|]. intros [x|e] w Hw; by auto. }
  intros result. eapply steps_mono with (P' := J) (Q' := fun _ => J); [|done|by auto].
  pose proof (mo_count _ _ _ _ _ Ho).
  destruct (final_response _ _); [|apply stable_fail].
  apply stable_bind; [unfold save_answer; by auto 10 with stable|]. intros _.
  apply stable_bind; [unfold extract_memories; by auto 8 with stable|]. intros _.
  apply stable_bind; [by auto with stable|]. intros _.
  unfold deliver, deliverProgressiveChunks. auto 10 with stable.
Qed.
End message.
End rule.

(** * The system *)

(** A summary the compressor asked a model for, and the answer if it was stored: then it is
    recorded ([TryCompress] of [internal/compression/compressor.go]). *)
Record Compressed := mkCompressed {
  cpProvider : string;
  cpRequest : CompletionRequest;
  cpStored : option CompletionResponse;
}.

Definition call_of (c : Compressed) : string * CompletionRequest := (cpProvider c, cpRequest c).

(** The tokens of the summaries that are recorded. *)
Definition summary_tokens (l : list Compressed) : Z :=
  foldr (fun c n => match cpStored c with Some r => rsTokensIn r + rsTokensOut r | None => 0 end + n) 0 l.

(** What the parts outside answer at one point of time: the clock, the failing queries,
    the assembler and the compressor with the summaries they made, the history, the models,
    the surroundings of a tool call and the calls below it, hooks, identifiers and random
    bytes. *)
Record Outside := mkOutside {
  oNow : Z;
  oFaults : SpendingQuery -> bool;
  oAssemble : string -> result string Assembled * list Compressed;
  oCompress : result string unit * list Compressed;
  oHistory : list HistoryEntry;
  oComplete : string -> CompletionRequest -> result string CompletionResponse;
  oAnswered : Z;
  oStream : string -> CompletionRequest -> result string (list StreamItem);
  oNest : NestEnv;
  oFeedback : string;
  oCount : option Z;
  oID : string;
  oRandom : result string (list ascii);
}.

Record System (S : Type) := mkSystem {
  syTick : nat;
  syExec : World S;
  sySpending : SpendingDB;
  syBreakers : BreakerManager;
  syRouter : RouterState;
}.
Arguments mkSystem {S}. Arguments syTick {S}. Arguments syExec {S}. Arguments sySpending {S}.
Arguments syBreakers {S}. Arguments syRouter {S}.

Section updates.
Context {S : Type} (w : System S).
Definition tick : System S :=
  mkSystem (Datatypes.S (syTick w)) (syExec w) (sySpending w) (syBreakers w) (syRouter w).
Definition set_exec (x : World S) : System S :=
  mkSystem (Datatypes.S (syTick w)) x (sySpending w) (syBreakers w) (syRouter w).
Definition set_spending (x : SpendingDB) : System S :=
  mkSystem (Datatypes.S (syTick w)) (syExec w) x (syBreakers w) (syRouter w).
Definition set_breakers (x : BreakerManager) : System S :=
  mkSystem (Datatypes.S (syTick w)) (syExec w) (sySpending w) x (syRouter w).
Definition set_router (x : RouterState) : System S :=
  mkSystem (Datatypes.S (syTick w)) (syExec w) (sySpending w) (syBreakers w) x.
End updates.

Definition spending_error_text (e : SpendingError) : string :=
  match e with
  | QueryFailed _ => "query failed"
  | UnknownPeriod period => "unknown period: " +:+ period
  end.

Definition route_error_text (e : RouteError) : string :=
  match e with
  | SlotsUnresolved _ => "resolve slots"
  | NoDefaultProvider provider => "provider " +:+ go_quote provider +:+ " not found for default slot"
  end.

Section system.
Context `{GoFormat} `{UnicodeCase} `{Messages} `{Codecs} {S : Type} `{SandboxLaws S}.
Context (regexp_match : string -> string -> result string bool).
Context (fmt_float : float64 -> result string string).
Context (UnmarshalSecurity : string -> SecurityConfig -> SecurityConfig).
Context (UnmarshalVerdict : string -> result string Verdict).
Context (UnmarshalBreaker : string -> CircuitBreakerConfig).
Context (sha256 : string -> string) (day_start month_start : Z -> Z).
Context (MarshalCalls : list ToolUse -> string) (timestamp : ChatIn -> string).
Context (notifier : option Z) (defaultModel : string) (providers : gset string) (ex : Executor) (slots : nat).
Context (wr : Wiring) (config : AgentConfig) (settings : LoopSettings) (runnerProvider : string).
Context (outside : nat -> Outside).

Definition here (w : System S) : Outside := outside (syTick w).

(** [Compressor.TryCompress] records what a stored summary has cost. *)
Definition summary_options (resp : CompletionResponse) : RecordOptions :=
  mkRecordOptions (rsModel resp) EmptyString EmptyString EmptyString EmptyString EmptyString EmptyString false
    EmptyString "compression".

Definition record_summaries (l : list Compressed) (w : System S) : System S :=
  set_spending w (foldl (fun db c =>
    match cpStored c with
    | Some resp => (RecordUsage (oFaults (here w)) defaultModel (ID config) (rsTokensIn resp) (rsTokensOut resp)
                      (rsCost resp) (summary_options resp) (oNow (here w)) db).2
    | None => db
    end) (sySpending w) l).

(** The services as [core.New] and the setters wire them.  A breaker that panics is
    taken as not tripped: [breaker_settings_safe] excludes it. *)
#[export] Instance system_services : Services (System S) := {|
  sv_check_budget w :=
    let '(r, db) := CheckBudget (oFaults (here w)) day_start month_start notifier (ID config)
                      (oNow (here w)) (sySpending w) in
    (match r with inl st => Ok (bsWithinBudget st) | inr e => Err (spending_error_text e) end,
     set_spending w db);
  sv_assemble content w :=
    let '(r, l) := oAssemble (here w) content in ((r, map call_of l), record_summaries l w);
  sv_compress w := let '(r, l) := oCompress (here w) in ((r, map call_of l), record_summaries l w);
  sv_route msg w :=
    let '(r, rt) := Route UnmarshalVerdict providers (oComplete (here w)) (ID config) (inContent msg)
                      (inAttachments msg) config (oHistory (here w)) (oNow (here w))
                      (oAnswered (here w)) (syRouter w) in
    ((match r with inl d => Ok d | inr e => Err (route_error_text e) end,
      drop (length (rtCalls (syRouter w))) (rtCalls rt)), set_router w rt);
  sv_complete p req w := (oComplete (here w) p req, tick w);
  sv_stream p req w := (oStream (here w) p req, tick w);
  sv_record tokensIn tokensOut cost opts w :=
    set_spending w (RecordUsage (oFaults (here w)) defaultModel (ID config) tokensIn tokensOut cost opts
                      (oNow (here w)) (sySpending w)).2;
  sv_breaker_spending cost w :=
    let '(m, t) := ManagerRecordSpending sha256 UnmarshalBreaker (syBreakers w) config (oNow (here w)) cost in
    (Trigger <$> t, set_breakers w m);
  sv_breaker_message content w :=
    match ManagerRecordMessage sha256 UnmarshalBreaker (syBreakers w) config (oNow (here w)) content with
    | Some (m, t) => (Trigger <$> t, set_breakers w m)
    | None => (None, tick w)
    end;
  sv_breaker_tool _ _ success destructive w :=
    let '(m, t) := ManagerRecordToolCall sha256 UnmarshalBreaker (syBreakers w) config (oNow (here w))
                     success destructive in
    (Trigger <$> t, set_breakers w m);
  sv_execute req w :=
    let '(r, x) := nested_call regexp_match (Marshal fmt_float) ex (oNest (here w)) slots [] req (syExec w) in
    (r, set_exec w x);
  sv_feedback _ w := (oFeedback (here w), tick w);
  sv_history_count w := (oCount (here w), tick w);
  sv_fresh_id w := (oID (here w), tick w);
  sv_random w := (oRandom (here w), tick w);
|}.

Definition handle_system : ChatIn -> M (W := System S) unit :=
  handleMessage fmt_float UnmarshalSecurity MarshalCalls timestamp wr config settings runnerProvider.

(** ** What runs *)




(** Services that leave the executor alone. *)
Ltac untouched :=
  unfold quiet, yields, fair_answer; intros; simpl; repeat case_match; simplify_eq/=; by split_and?.




(** ** What is spent *)

(** The summaries of one assembly or compression cost at most [T] tokens. *)
Definition sums_within (T : Z) (l : list Compressed) : Prop :=
  Forall (fun c => match cpStored c with Some r => 0 <= rsTokensIn r + rsTokensOut r | None => True end) l /\
  summary_tokens l <= T.

Section spent.
Context (start T limit : Z) (limits : gmap string SpendingLimits).
Context (Hday : forall i, day_start (oNow (outside i)) = start).
Context (HT : 0 <= T).
Context (Hanswers : forall i p req resp, oComplete (outside i) p req = Ok resp ->
  0 <= rsTokensIn resp + rsTokensOut resp <= T).
Context (Hstreams : forall i p req items, oStream (outside i) p req = Ok items -> stream_bytes items / 4 <= T).
Context (Hassemble : forall i content, sums_within T (oAssemble (outside i) content).2).
Context (Hcompress : forall i, sums_within T (oCompress (outside i)).2).
Context (Hlimit : 0 < limit).
Context (Heffective : limit = MaxTokensPerDay (effective_limits
  (default zero_limits (limits !! global_key)) (default zero_limits (limits !! ID config)))).

(** The tokens of the agent since the start of the day. *)
Definition used (w : System S) : Z := total_tokens (agent_usage (ID config) (Some start) (sySpending w)).

Definition spending_at (F : Z -> Prop) (w : System S) : Prop :=
  sdLimits (sySpending w) = limits /\ F (used w).

Lemma check_spending (F : Z -> Prop) (w : System S) :
  spending_at F w ->
  match sv_check_budget w with
  | (inl true, w') => spending_at (fun n => n < limit) w'
  | (_, w') => spending_at F w'
  end.
Proof.
  intros [Hl Hu]. cbn [sv_check_budget system_services].
  pose proof (CheckBudget_eq (oFaults (here w)) day_start month_start notifier (ID config)
    (oNow (here w)) (sySpending w)) as Hc.
  destruct (existsb _ _); [destruct Hc as (q & -> & _); by split|].
  destruct Hc as (st & db & -> & Hw & Husage & Hlim & _).
  assert (used (set_spending w db) = used w) as Hsame by (unfold used, agent_usage; simpl; by rewrite Husage).
  unfold spending_at. rewrite Hsame. simpl. rewrite Hlim.
  destruct (bsWithinBudget st); [|done]. split; [done|]. symmetry in Hw.
  unfold within in Hw. apply andb_true_iff in Hw as [[[_ _]%andb_true_iff Hw]%andb_true_iff _].
  unfold limits_of in Hw. rewrite Hl, <- Heffective in Hw. unfold day_summary in Hw.
  unfold tokens_reached in Hw. rewrite (proj2 (Z.ltb_lt 0 limit) Hlimit) in Hw. simpl in Hw.
  apply negb_true_iff, Z.leb_gt in Hw. unfold used. rewrite <- (Hday (syTick w)). exact Hw.
Qed.

Definition used_in (db : SpendingDB) : Z := total_tokens (agent_usage (ID config) (Some start) db).

(** A record counts in full or, when it fails or is not of this day, not at all. *)
Lemma record_used faults now tokensIn tokensOut cost opts db :
  let db' := (RecordUsage faults defaultModel (ID config) tokensIn tokensOut cost opts now db).2 in
  sdLimits db' = sdLimits db /\ exists d, (d = 0 \/ d = tokensIn + tokensOut) /\ used_in db' = used_in db + d.
Proof.
  destruct (RecordUsage _ _ _ _ _ _ _ _ _) as [res db'] eqn:E. simpl. unfold used_in.
  apply RecordUsage_eq in E as [(e & -> & ->)|(r & -> & -> & Hid & <- & <- & Hat)].
  { split; [done|]. exists 0. split; [by left|lia]. }
  split; [done|]. change (agent_usage ?a ?b (add_audit _ ?x)) with (agent_usage a b x).
  rewrite agent_usage_add, total_tokens_app. eexists. split; [|reflexivity].
  destruct (_ && _); [right; apply total_tokens_single|by left].
Qed.

Lemma record_spending (F G : Z -> Prop) tokensIn tokensOut cost opts (w : System S) :
  (forall n d, F n -> d = 0 \/ d = tokensIn + tokensOut -> G (n + d)) ->
  spending_at F w -> spending_at G (sv_record tokensIn tokensOut cost opts w).
Proof.
  intros HG [Hl Hu]. cbn [sv_record system_services]. unfold spending_at, used. simpl.
  destruct (record_used (oFaults (here w)) (oNow (here w)) tokensIn tokensOut cost opts (sySpending w)) as (El & d & Hd & Eu).
  unfold used_in in Eu. rewrite El, Eu. split; [done|]. by apply HG.
Qed.

Lemma summaries_spending (n : nat) l (w : System S) :
  sums_within T l -> spending_at (fun x => x < limit + Z.of_nat n * T) w ->
  spending_at (fun x => x < limit + Z.of_nat (Datatypes.S n) * T) (record_summaries l w).
Proof.
  intros [Hnn Hsum] [Hl Hu]. unfold spending_at, used, record_summaries. cbn [sySpending set_spending].
  assert (forall db, sdLimits (foldl (fun db c => match cpStored c with
      | Some resp => (RecordUsage (oFaults (here w)) defaultModel (ID config) (rsTokensIn resp) (rsTokensOut resp)
                        (rsCost resp) (summary_options resp) (oNow (here w)) db).2
      | None => db end) db l) = sdLimits db /\
    used_in (foldl (fun db c => match cpStored c with
      | Some resp => (RecordUsage (oFaults (here w)) defaultModel (ID config) (rsTokensIn resp) (rsTokensOut resp)
                        (rsCost resp) (summary_options resp) (oNow (here w)) db).2
      | None => db end) db l) <= used_in db + summary_tokens l) as Hfold.
  { clear -Hnn. induction Hnn as [|c l Hc _ IH]; intros db; simpl; [split; [done|lia]|].
    destruct (cpStored c) as [resp|]; [|destruct (IH db); split; [done|lia]].
    destruct (record_used (oFaults (here w)) (oNow (here w)) (rsTokensIn resp) (rsTokensOut resp) (rsCost resp)
      (summary_options resp) db) as (El & d & Hd & Eu).
    destruct (IH (RecordUsage (oFaults (here w)) defaultModel (ID config) (rsTokensIn resp) (rsTokensOut resp)
      (rsCost resp) (summary_options resp) (oNow (here w)) db).2) as [IH1 IH2].
    split; [congruence|]. lia. }
  destruct (Hfold (sySpending w)) as [-> Hle]. split; [done|]. unfold used_in, used in *. lia.
Qed.

Lemma spending_mono (F G : Z -> Prop) (w : System S) :
  (forall n, F n -> G n) -> spending_at F w -> spending_at G w.
Proof. intros HFG [Hl Hu]. split; auto. Qed.

Lemma spending_outline (x : Z) :
  message_outline fmt_float UnmarshalSecurity wr config (spending_at (fun n => n = x))
    (fun k => spending_at (fun n => n < limit + Z.of_nat k * T)) (spending_at (fun n => n < limit + 4 * T))
    (spending_at (fun n => n < limit + 5 * T)) (fun i o => 0 <= i + o <= T).
Proof.
  assert (forall F w, spending_at F w ->
    match sv_check_budget w with
    | (inl true, w') => spending_at (fun n => n < limit + Z.of_nat 0 * T) w'
    | (_, w') => spending_at F w'
    end) as Hcheck.
  { intros F w Hw. pose proof (check_spending F w Hw) as Hc. destruct (sv_check_budget w) as [[[]|] w']; try done.
    revert Hc. apply spending_mono. lia. }
  split; try untouched; try apply Hcheck; try (intros w; apply spending_mono; lia).
  - intros n w. apply spending_mono. lia.
  - intros n content w Hw. cbn [sv_assemble system_services]. pose proof (Hassemble (syTick w) content) as Ha. fold (here w) in Ha.
    destruct (oAssemble (here w) content) as [r l]. by apply summaries_spending.
  - intros n w Hw. cbn [sv_compress system_services]. pose proof (Hcompress (syTick w)) as Ha. fold (here w) in Ha.
    destruct (oCompress (here w)) as [r l]. by apply summaries_spending.
  - intros msg w Hw. cbn [sv_route system_services].
    destruct (Route _ _ _ _ _ _ _ _ _ _ _) as [[d|e] rt] eqn:E.
    2:{ revert Hw. apply (spending_mono _ _ (set_router w rt)). lia. }
    apply Route_charged in E. split; [revert Hw; apply (spending_mono _ _ (set_router w rt)); lia|].
    intros opts. eapply record_spending; [|exact Hw]. cbv beta.
    assert (0 <= ciTokensIn (rdClassifierCost d) + ciTokensOut (rdClassifierCost d) <= T); [|lia].
    destruct E as [[-> ->]|(p & req & resp & Hr & -> & ->)]; [lia|by eapply Hanswers].
  - intros p req w Hw. split; [exact Hw|]. simpl.
    destruct (oComplete (here w) p req) as [resp|e] eqn:E; [by eapply Hanswers|done].
  - intros p req w Hw. split; [exact Hw|]. simpl.
    destruct (oStream (here w) p req) as [items|e] eqn:E; [|done].
    apply Hstreams in E. lia.
  - intros tokensIn tokensOut cost opts w Hf. apply record_spending. cbv beta. lia.
Qed.
End spent.

(** C2: A message overspends a token limit by less than five model calls.  With a daily
    token limit in force for the agent, at most [T] tokens reported for a model call, and at
    most [T] for the summaries one assembly or compression stores, the tokens of the day
    when the handling of a message ends are as before it, or below the limit plus [5 * T]:
    the check before each round sees everything that was recorded, so only two assemblies
    with a compression between them, a classification and one answer can go past it.  What
    the handling leaves running, a compression after the answer, is not counted. *)
Theorem message_overspend_bounded (start T limit : Z) (msg : ChatIn) (st : LoopState (System S)) :
  (forall i, day_start (oNow (outside i)) = start) -> 0 <= T ->
  (forall i p req resp, oComplete (outside i) p req = Ok resp ->
     0 <= rsTokensIn resp + rsTokensOut resp <= T) ->
  (forall i p req items, oStream (outside i) p req = Ok items -> stream_bytes items / 4 <= T) ->
  (forall i content, sums_within T (oAssemble (outside i) content).2) ->
  (forall i, sums_within T (oCompress (outside i)).2) ->
  0 < limit ->
  limit = MaxTokensPerDay (effective_limits (limits_of global_key (sySpending (lsWorld st)))
            (limits_of (ID config) (sySpending (lsWorld st)))) ->
  let st' := (handle_system msg st).2 in
  used start (lsWorld st') = used start (lsWorld st) \/ used start (lsWorld st') < limit + 5 * T.
Proof.
  intros Hday HT Ha Hs Has Hco Hpos Hl.
  pose proof (handle_steps fmt_float UnmarshalSecurity MarshalCalls timestamp wr config settings
    runnerProvider _ _ _ _ _
    (spending_outline start T limit (sdLimits (sySpending (lsWorld st))) Hday HT Ha Hs Has Hco Hpos Hl
       (used start (lsWorld st))) msg st (conj eq_refl eq_refl)) as H'.
  fold (handle_system msg) in H'. cbv zeta. destruct (handle_system msg st) as [r st'].
  destruct H' as [[_ Hu]|[_ Hu]]; [by left|by right].
Qed.
End system.

(** * A concrete system

    The model answers every request with a hundred tokens, for a cost, and classifies
    messages; an assembly compresses the conversation.  A message on a budget of one token a
    day is assembled, classified and answered: three hundred tokens, where the bound of
    [message_overspend_bounded] is five hundred and one. *)

Section witness.
#[local] Existing Instance demo_codecs.
#[local] Existing Instance demo_case.
#[local] Instance no_texts : Messages :=
  {| quote s := s; reason_text _ := "denied"; violation_text _ := "invalid" |}.

#[local] Instance no_sandbox : SandboxExecutor unit :=
  {| GetOrCreateSandbox _ _ s := (Err "no sandbox", s);
     ExecuteInSandbox _ _ s := (ReturnedError "no sandbox", s);
     SetSandboxSecrets _ _ s := s;
     SecretsOf _ _ := ∅ |}.

#[local] Instance no_sandbox_laws : SandboxLaws unit.
Proof. by apply (Build_SandboxLaws _ _ (fun _ => True)). Defined.

#[local] Instance demo_format : GoFormat := {| format_float _ := "0"; format_other t := t |}.

Definition demo_summary : Compressed :=
  mkCompressed "ollama" (mkCompletionRequest "llama3" [] 500 [])
    (match demo_answer "ollama" (mkCompletionRequest "llama3" [] 500 []) with inl r => Some r | inr _ => None end).

Definition demo_nest : NestEnv :=
  mkNestEnv (fun _ => mkCallEnv "token" 7 true (fun _ _ => []))
    (fun _ => mkWorkflowEnv "w" 0 true true true (fun _ => Err "no steps")
       (mkRunEnv "run" (fun _ => "q") (fun _ => 0) 0 0 true true (fun _ => EmptyString) (fun _ => EmptyString)))
    (fun _ => mkWorkflowDB [] []) (fun _ _ => NewToolResponse "q" true ANil EmptyString 0).

Definition demo_outside (_ : nat) : Outside :=
  mkOutside 5 no_faults (fun _ => (Ok (mkAssembled "Be kind." [] 10), [demo_summary])) (Ok tt, []) [] demo_answer 5
    (fun _ _ => Err "no stream") demo_nest EmptyString (Some 3) "r1" (Ok demo_bytes).

Definition demo_executor : Executor :=
  mkExecutor ∅ (fun id => Ok (plain_agent id "reader")) true true None.

Definition demo_system : LoopState (System unit) :=
  mkLoopState (mkSystem 0 (mkWorld tt ∅ []) (demo_db [("a1", token_limit 1)] []) NewBreakerManager demo_state)
    (mkSecurityLog true [] None) 0 [].

Definition demo_message : ChatIn := mkChatIn "slack" "C1" "U1" "user" "hello" [].

Definition demo_run : result LoopError unit * LoopState (System unit) :=
  handle_system (fun _ _ => Ok true) no_float (fun _ cfg => cfg) (demo_verdict "high") (fun _ => zero_breaker_config)
    (fun s => s) demo_day demo_month (fun _ => "calls") (fun _ => "now") None "llama3" demo_providers
    demo_executor 50 (demo_wiring true) (demo_agent "auto") demo_settings "ollama" demo_outside
    demo_message demo_system.

Lemma message_overspend_bounded_witness :
  used (demo_agent "auto") 0 (lsWorld demo_run.2) = 300 /\
  (used (demo_agent "auto") 0 (lsWorld demo_run.2) = used (demo_agent "auto") 0 (lsWorld demo_system) \/
   used (demo_agent "auto") 0 (lsWorld demo_run.2) < 1 + 5 * 100).
Proof.
  split; [vm_compute; reflexivity|].
  apply (message_overspend_bounded (fun _ _ => Ok true) no_float (fun _ cfg => cfg) (demo_verdict "high")
    (fun _ => zero_breaker_config) (fun s => s) demo_day demo_month (fun _ => "calls") (fun _ => "now") None
    "llama3" demo_providers demo_executor 50 (demo_wiring true) (demo_agent "auto") demo_settings "ollama"
    demo_outside 0 100 1 demo_message demo_system).
  - reflexivity.
  - lia.
  - intros i p req resp [= <-]. simpl. lia.
  - intros i p req items [=].
  - intros i content. split; [|vm_compute; discriminate]. apply Forall_singleton. vm_compute. discriminate.
  - intros i. split; [constructor|vm_compute; discriminate].
  - lia.
  - vm_compute. reflexivity.
Defined.
End witness.
