(* ===== verification/Teams.v ===== *)
(** Teams of agents and the bus between them ([internal/teams/manager.go], [bus.go],
    [permissions.go], the team rows of the store, [internal/channels/busadapter] and
    the routing of incoming messages in [internal/core/router.go]).

    [TeamDB] holds the agent rows (the fields teams read and write) and the team rows;
    [Bus] the persisted messages, the acknowledgements and the subscriptions with their
    buffered channels.  Messages reach the queue of [Queue].  Times are in nanoseconds. *)

From S2P Require Import Prelude GoString Queue.
#[local] Open Scope Z_scope.

(** * Data *)

(** The fields of an agent row that the team code uses. *)
Record TeamAgent := mkTeamAgent {
  taID : string;
  taName : string;
  taTeamID : string;
  taCanMessage : list string;
  taActual : string;
}.

(** [types.Team] without its description; a zero time is 0. *)
Record Team := mkTeam {
  tmID : string;
  tmName : string;
  tmLeaderID : string;
  tmMemberIDs : list string;
  tmCommunication : string;
  tmActive : bool;
  tmSharedContext : string;
  tmCreatedAt : Z;
  tmUpdatedAt : Z;
}.

Definition TeamCommLeaderMediated : string := "leader-mediated".

Record TeamAudit := mkTeamAudit { tuAgent : string; tuAction : string; tuTeam : string }.

Record TeamDB := mkTeamDB {
  tdAgents : gmap string TeamAgent;
  tdTeams : list Team;                    (* in order of insertion *)
  tdAudit : list TeamAudit;
}.

(** The statements that can fail. *)
Inductive TeamQuery : Type :=
| QAgent (id : string)
| QTeam (id : string)
| QTeamOf (id : string)
| QInsertTeam
| QUpdateTeam
| QDeleteTeam
| QWriteAgent (id : string).

Inductive TeamError : Type :=
| TeamStoreFailed (q : TeamQuery)
| AgentMissing (id : string)
| AlreadyInTeam (id team : string)
| LeaderNotMember
| TeamExists
| ErrTeamNotFound
| ErrTeamPaused.

(** * Message permissions *)

(** One entry of [CanMessage]: an agent's ID or [team:] and the ID of its team. *)
Definition entry_allows (to : TeamAgent) (entry : string) : bool :=
  bool_decide (entry = taID to) ||
  match strip_prefix "team:" entry with
  | Some teamID => negb (bool_decide (teamID = EmptyString)) && bool_decide (teamID = taTeamID to)
  | None => false
  end.

(** [CheckMessagePermission]: no error *)
Definition CheckMessagePermission (from to : TeamAgent) : bool :=
  if bool_decide (taID from = taID to) then true
  else if existsb (entry_allows to) (taCanMessage from) then true
  else negb (bool_decide (taTeamID from = EmptyString)) && bool_decide (taTeamID from = taTeamID to).

(** * Membership lists *)

Fixpoint unique_from (seen : list string) (input : list string) : list string :=
  match input with
  | [] => []
  | item :: rest =>
    if bool_decide (item = EmptyString) || bool_decide (item ∈ seen) then unique_from seen rest
    else item :: unique_from (item :: seen) rest
  end.

Definition uniqueStrings (input : list string) : list string := unique_from [] input.

Definition diffStrings (left right : list string) : list string :=
  List.filter (fun item => negb (bool_decide (item ∈ right))) left.

Definition with_leader (leader : string) (ids : list string) : list string :=
  let members := uniqueStrings ids in
  if bool_decide (leader ∈ members) then members else members ++ [leader].

Definition team_members (t : Team) : list string := with_leader (tmLeaderID t) (tmMemberIDs t).

(** * The store *)

Definition set_team_id (a : TeamAgent) (teamID : string) : TeamAgent :=
  mkTeamAgent (taID a) (taName a) teamID (taCanMessage a) (taActual a).

Definition put_agent (id : string) (a : TeamAgent) (db : TeamDB) : TeamDB :=
  mkTeamDB (<[id := a]> (tdAgents db)) (tdTeams db) (tdAudit db).
Definition put_teams (l : list Team) (db : TeamDB) : TeamDB :=
  mkTeamDB (tdAgents db) l (tdAudit db).
Definition team_audit (e : TeamAudit) (db : TeamDB) : TeamDB :=
  mkTeamDB (tdAgents db) (tdTeams db) (tdAudit db ++ [e]).

Section store.
Context (faults : TeamQuery -> bool).

Definition team_query {A} (q : TeamQuery) (a : A) : result TeamError A :=
  if faults q then Err (TeamStoreFailed q) else Ok a.

Definition get_agent (id : string) (db : TeamDB) : result TeamError TeamAgent :=
  let? row := team_query (QAgent id) (tdAgents db !! id) in
  match row with
  | Some a => Ok a
  | None => Err (AgentMissing id)
  end.

(** [GetTeam] *)
Definition GetTeam (id : string) (db : TeamDB) : result TeamError Team :=
  let? row := team_query (QTeam id) (List.find (fun t => bool_decide (tmID t = id)) (tdTeams db)) in
  match row with
  | Some t => Ok t
  | None => Err ErrTeamNotFound
  end.

Definition in_team (agentID : string) (t : Team) : bool :=
  bool_decide (tmLeaderID t = agentID) || bool_decide (agentID ∈ tmMemberIDs t).

Definition earlier (best : option Team) (t : Team) : option Team :=
  match best with
  | None => Some t
  | Some b => if tmCreatedAt t <? tmCreatedAt b then Some t else best
  end.

(** [GetTeamByAgent]; [None] is [ErrTeamNotFound] *)
Definition GetTeamByAgent (agentID : string) (db : TeamDB) : result TeamError (option Team) :=
  team_query (QTeamOf agentID) (foldl earlier None (List.filter (in_team agentID) (tdTeams db))).

(** The checks of the rows that [CreateTeam] and [UpdateTeam] of the store make. *)
Fixpoint ensure_agents (ids : list string) (db : TeamDB) : result TeamError unit :=
  match ids with
  | [] => Ok tt
  | id :: rest => let? _ := get_agent id db in ensure_agents rest db
  end.

(** [PostgresStore.CreateTeam] *)
Definition StoreCreateTeam (team : Team) (db : TeamDB) : result TeamError unit * TeamDB :=
  match ensure_agents (tmLeaderID team :: tmMemberIDs team) db with
  | inr e => (Err e, db)
  | inl _ =>
    if faults QInsertTeam then (Err (TeamStoreFailed QInsertTeam), db)
    else if existsb (fun t => bool_decide (tmID t = tmID team)) (tdTeams db) then (Err TeamExists, db)
    else (Ok tt, put_teams (tdTeams db ++ [team]) db)
  end.

(** [PostgresStore.UpdateTeam]: every column but the creation time *)
Definition updated_row (team t : Team) : Team :=
  if bool_decide (tmID t = tmID team)
  then mkTeam (tmID t) (tmName team) (tmLeaderID team) (tmMemberIDs team) (tmCommunication team)
         (tmActive team) (tmSharedContext team) (tmCreatedAt t) (tmUpdatedAt team)
  else t.

Definition StoreUpdateTeam (team : Team) (db : TeamDB) : result TeamError unit * TeamDB :=
  match ensure_agents (tmLeaderID team :: tmMemberIDs team) db with
  | inr e => (Err e, db)
  | inl _ =>
    if faults QUpdateTeam then (Err (TeamStoreFailed QUpdateTeam), db)
    else if existsb (fun t => bool_decide (tmID t = tmID team)) (tdTeams db)
    then (Ok tt, put_teams (map (updated_row team) (tdTeams db)) db)
    else (Err ErrTeamNotFound, db)
  end.

(** [PostgresStore.DeleteTeam], one transaction *)
Definition StoreDeleteTeam (id : string) (db : TeamDB) : result TeamError unit * TeamDB :=
  if faults QDeleteTeam then (Err (TeamStoreFailed QDeleteTeam), db)
  else match List.find (fun t => bool_decide (tmID t = id)) (tdTeams db) with
       | None => (Err ErrTeamNotFound, db)
       | Some t =>
         let gone a := bool_decide (taID a ∈ tmMemberIDs t ++ [tmLeaderID t]) || bool_decide (taTeamID a = id) in
         (Ok tt, mkTeamDB ((fun a => if gone a then set_team_id a EmptyString else a) <$> tdAgents db)
                   (List.filter (fun t => negb (bool_decide (tmID t = id))) (tdTeams db)) (tdAudit db))
       end.

(** * The manager *)

(** [setAgentTeamID] *)
Definition setAgentTeamID (agentID teamID : string) (db : TeamDB) : result TeamError unit * TeamDB :=
  match get_agent agentID db with
  | inr e => (Err e, db)
  | inl a =>
    if faults (QWriteAgent agentID) then (Err (TeamStoreFailed (QWriteAgent agentID)), db)
    else (Ok tt, put_agent agentID (set_team_id a teamID) db)
  end.

(** The loops that assign and clear: the first error ends them. *)
Fixpoint assign_all (ids : list string) (teamID : string) (db : TeamDB)
    : result TeamError unit * TeamDB :=
  match ids with
  | [] => (Ok tt, db)
  | id :: rest =>
    match setAgentTeamID id teamID db with
    | (inr e, db) => (Err e, db)
    | (inl _, db) => assign_all rest teamID db
    end
  end.

(** The validation loop: every member exists and is in no other team than [own]. *)
Fixpoint validate_members (own : option string) (ids : list string) (db : TeamDB)
    : result TeamError unit :=
  match ids with
  | [] => Ok tt
  | id :: rest =>
    let? _ := get_agent id db in
    let? existing := GetTeamByAgent id db in
    match existing with
    | Some t => if bool_decide (Some (tmID t) = own) then validate_members own rest db
                else Err (AlreadyInTeam id (tmID t))
    | None => validate_members own rest db
    end
  end.

(** [Manager.CreateTeam] *)
Definition CreateTeam (now : Z) (team : Team) (db : TeamDB) : result TeamError unit * TeamDB :=
  let members := team_members team in
  match validate_members None members db with
  | inr e => (Err e, db)
  | inl _ =>
    let team := mkTeam (tmID team) (tmName team) (tmLeaderID team) members (tmCommunication team) true
      (tmSharedContext team) (if tmCreatedAt team =? 0 then now else tmCreatedAt team) now in
    match StoreCreateTeam team db with
    | (inr e, db) => (Err e, db)
    | (inl _, db) =>
      match assign_all members (tmID team) db with
      | (inr e, db) => (Err e, db)
      | (inl _, db) => (Ok tt, team_audit (mkTeamAudit (tmLeaderID team) "team_create" (tmID team)) db)
      end
    end
  end.

(** [Manager.UpdateTeam] *)
Definition UpdateTeam (now : Z) (team : Team) (db : TeamDB) : result TeamError unit * TeamDB :=
  match GetTeam (tmID team) db with
  | inr e => (Err e, db)
  | inl current =>
    let newMembers := uniqueStrings (tmMemberIDs team) in
    if negb (bool_decide (tmLeaderID team ∈ newMembers)) then (Err LeaderNotMember, db)
    else match validate_members (Some (tmID team)) newMembers db with
    | inr e => (Err e, db)
    | inl _ =>
      let oldMembers := team_members current in
      let team := mkTeam (tmID team) (tmName team) (tmLeaderID team) newMembers (tmCommunication team)
        (tmActive team) (tmSharedContext team) (tmCreatedAt current) now in
      match StoreUpdateTeam team db with
      | (inr e, db) => (Err e, db)
      | (inl _, db) =>
        match assign_all (diffStrings newMembers oldMembers) (tmID team) db with
        | (inr e, db) => (Err e, db)
        | (inl _, db) =>
          match assign_all (diffStrings oldMembers newMembers) EmptyString db with
          | (inr e, db) => (Err e, db)
          | (inl _, db) => (Ok tt, team_audit (mkTeamAudit (tmLeaderID team) "team_update" (tmID team)) db)
          end
        end
      end
    end
  end.

(** [Manager.DeleteTeam] *)
Definition DeleteTeam (id : string) (db : TeamDB) : result TeamError unit * TeamDB :=
  match GetTeam id db with
  | inr e => (Err e, db)
  | inl team =>
    match assign_all (team_members team) EmptyString db with
    | (inr e, db) => (Err e, db)
    | (inl _, db) =>
      match StoreDeleteTeam id db with
      | (inr e, db) => (Err e, db)
      | (inl _, db) => (Ok tt, team_audit (mkTeamAudit (tmLeaderID team) "team_delete" id) db)
      end
    end
  end.

Definition with_active (t : Team) (active : bool) (now : Z) : Team :=
  mkTeam (tmID t) (tmName t) (tmLeaderID t) (tmMemberIDs t) (tmCommunication t) active
    (tmSharedContext t) (tmCreatedAt t) now.
Definition with_context (t : Team) (content : string) (now : Z) : Team :=
  mkTeam (tmID t) (tmName t) (tmLeaderID t) (tmMemberIDs t) (tmCommunication t) (tmActive t)
    content (tmCreatedAt t) now.

(** [SetTeamActive] *)
Definition SetTeamActive (now : Z) (teamID : string) (active : bool) (db : TeamDB)
    : result TeamError unit * TeamDB :=
  match GetTeam teamID db with
  | inr e => (Err e, db)
  | inl team =>
    if Bool.eqb (tmActive team) active then (Ok tt, db)
    else match StoreUpdateTeam (with_active team active now) db with
         | (inr e, db) => (Err e, db)
         | (inl _, db) =>
           (Ok tt, team_audit (mkTeamAudit (tmLeaderID team)
                                 (if active then "team_resume" else "team_pause") teamID) db)
         end
  end.

(** [UpdateSharedContext] *)
Definition UpdateSharedContext (now : Z) (teamID content : string) (db : TeamDB)
    : result TeamError unit * TeamDB :=
  match GetTeam teamID db with
  | inr e => (Err e, db)
  | inl team =>
    match StoreUpdateTeam (with_context team content now) db with
    | (inr e, db) => (Err e, db)
    | (inl _, db) => (Ok tt, team_audit (mkTeamAudit (tmLeaderID team) "team_shared_context_update" teamID) db)
    end
  end.

(** [SharedContextForAgent] *)
Definition SharedContextForAgent (agentID : string) (db : TeamDB) : result TeamError string :=
  let? team := GetTeamByAgent agentID db in
  Ok (match team with Some t => tmSharedContext t | None => EmptyString end).
End store.

(** * Membership

    The team rows and the [TeamID] column of the agents say the same. *)

Lemma unique_from_elem (seen input : list string) (x : string) :
  x ∈ unique_from seen input <-> x ∈ input /\ x <> EmptyString /\ x ∉ seen.
Proof.
  revert seen. induction input as [|y l IH]; intros seen; simpl; [set_solver|].
  destruct (bool_decide (y = EmptyString)) eqn:E1; simpl; [apply bool_decide_eq_true in E1|].
  { rewrite IH. set_solver. }
  apply bool_decide_eq_false in E1.
  case_bool_decide; [rewrite IH; set_solver|]. rewrite elem_of_cons, IH.
  destruct (decide (x = y)); set_solver.
Qed.

Lemma unique_from_nodup (seen input : list string) : NoDup (unique_from seen input).
Proof.
  revert seen. induction input as [|y l IH]; intros seen; simpl; [constructor|].
  destruct (_ || _); [done|]. constructor; [|done]. rewrite unique_from_elem. set_solver.
Qed.

Lemma unique_from_id (seen l : list string) :
  NoDup l -> EmptyString ∉ l -> (forall x, x ∈ l -> x ∉ seen) -> unique_from seen l = l.
Proof.
  revert seen. induction l as [|y l IH]; intros seen Hn He Hs; simpl; [done|].
  apply NoDup_cons in Hn as [Hy Hn].
  rewrite !bool_decide_eq_false_2 by set_solver. simpl. f_equal. apply IH; [done|set_solver|set_solver].
Qed.

Lemma uniqueStrings_elem (l : list string) (x : string) : x ∈ uniqueStrings l <-> x ∈ l /\ x <> EmptyString.
Proof. unfold uniqueStrings. rewrite unique_from_elem. set_solver. Qed.

Lemma uniqueStrings_idem (l : list string) : uniqueStrings (uniqueStrings l) = uniqueStrings l.
Proof.
  apply unique_from_id; [apply unique_from_nodup| |set_solver]. rewrite uniqueStrings_elem. set_solver.
Qed.

Lemma unique_snoc (l : list string) (x : string) :
  NoDup l -> EmptyString ∉ l -> x ∉ l ->
  uniqueStrings (l ++ [x]) = if bool_decide (x = EmptyString) then l else l ++ [x].
Proof.
  intros Hn He Hx. unfold uniqueStrings. case_bool_decide as Hxe.
  - subst x. assert (forall seen, (forall y, y ∈ l -> y ∉ seen) -> unique_from seen (l ++ [EmptyString]) = l) as H.
    { clear Hx. induction l as [|y l IH]; intros seen Hs; simpl; [done|].
      apply NoDup_cons in Hn as [Hy Hn]. rewrite !bool_decide_eq_false_2 by set_solver. simpl.
      f_equal. apply IH; set_solver. }
    apply H. set_solver.
  - apply unique_from_id; [|set_solver|set_solver].
    apply NoDup_app. split_and!; [done|set_solver|apply NoDup_singleton].
Qed.

Lemma with_leader_idem (leader : string) (ids : list string) :
  with_leader leader (with_leader leader ids) = with_leader leader ids.
Proof.
  unfold with_leader at 2 3. case_bool_decide as Hl.
  { unfold with_leader. rewrite uniqueStrings_idem. by rewrite bool_decide_eq_true_2. }
  unfold with_leader. rewrite unique_snoc; [|apply unique_from_nodup|rewrite uniqueStrings_elem; set_solver|done].
  destruct (decide (leader = EmptyString)) as [He|He].
  - rewrite (bool_decide_eq_true_2 _ He). by rewrite bool_decide_eq_false_2.
  - rewrite (bool_decide_eq_false_2 _ He). by rewrite bool_decide_eq_true_2 by set_solver.
Qed.

Lemma with_leader_has (leader : string) (ids : list string) : leader ∈ with_leader leader ids.
Proof. unfold with_leader. case_bool_decide; set_solver. Qed.

Record team_wf (db : TeamDB) : Prop := {
  tw_keys : forall id a, tdAgents db !! id = Some a -> taID a = id;
  tw_ids : NoDup (map tmID (tdTeams db));
  tw_named : forall t, t ∈ tdTeams db -> tmID t <> EmptyString;
  tw_lists : forall t, t ∈ tdTeams db -> team_members t = tmMemberIDs t;
  tw_member : forall t id, t ∈ tdTeams db -> id ∈ tmMemberIDs t ->
    exists a, tdAgents db !! id = Some a /\ taTeamID a = tmID t;
  tw_assigned : forall id a, tdAgents db !! id = Some a -> taTeamID a <> EmptyString ->
    exists t, t ∈ tdTeams db /\ tmID t = taTeamID a /\ id ∈ tmMemberIDs t;
}.

Lemma team_id_inj (l : list Team) (t t' : Team) :
  NoDup (map tmID l) -> t ∈ l -> t' ∈ l -> tmID t = tmID t' -> t = t'.
Proof.
  induction l as [|x l IH]; [set_solver|]. simpl. intros [Hx Hn]%NoDup_cons.
  intros [->|H1]%elem_of_cons [->|H2]%elem_of_cons E; [done|..|by apply IH].
  - destruct Hx. rewrite E. by apply list_elem_of_fmap_2.
  - destruct Hx. rewrite <- E. by apply list_elem_of_fmap_2.
Qed.

Lemma earlier_elem (l : list Team) (best : option Team) :
  match foldl earlier best l with
  | Some t => t ∈ l \/ best = Some t
  | None => l = [] /\ best = None
  end.
Proof.
  revert best. induction l as [|x l IH]; intros best; simpl; [by destruct best; auto|].
  specialize (IH (earlier best x)). destruct (foldl earlier _ l) as [t|].
  - destruct IH as [IH|IH]; [left; set_solver|]. unfold earlier in IH.
    destruct best as [b|]; [destruct (_ <? _)|]; set_solver.
  - destruct IH as [_ IH]. unfold earlier in IH. destruct best; [destruct (_ <? _)|]; done.
Qed.

Section membership.
Context (faults : TeamQuery -> bool) (Hok : forall q, faults q = false).

Lemma get_agent_eq id db :
  get_agent faults id db = match tdAgents db !! id with Some a => Ok a | None => Err (AgentMissing id) end.
Proof. unfold get_agent, team_query. by rewrite Hok. Qed.

Lemma in_team_wf db t id : team_wf db -> t ∈ tdTeams db -> in_team id t = true <-> id ∈ tmMemberIDs t.
Proof.
  intros Hwf Ht. unfold in_team. rewrite orb_true_iff, !bool_decide_eq_true.
  split; [|by right]. intros [<-|H]; [|done].
  rewrite <- (tw_lists db Hwf t Ht). apply with_leader_has.
Qed.

(** Under the invariant the team of an agent is the one that lists it. *)
Lemma GetTeamByAgent_wf db id :
  team_wf db ->
  match GetTeamByAgent faults id db with
  | inl (Some t) => t ∈ tdTeams db /\ id ∈ tmMemberIDs t
  | inl None => forall t, t ∈ tdTeams db -> id ∉ tmMemberIDs t
  | inr _ => False
  end.
Proof.
  intros Hwf. unfold GetTeamByAgent, team_query. rewrite Hok. simpl.
  pose proof (earlier_elem (List.filter (in_team id) (tdTeams db)) None) as He.
  destruct (foldl earlier None _) as [t|].
  - destruct He as [He|]; [|done]. apply filter_elem in He as [Ht Hi].
    split; [done|]. by apply (in_team_wf db).
  - destruct He as [He _]. intros t Ht Hid. apply (in_team_wf db) in Hid; [|done..].
    assert (t ∈ List.filter (in_team id) (tdTeams db)) as Hin by by apply filter_elem.
    rewrite He in Hin. by apply elem_of_nil in Hin.
Qed.

Lemma validate_members_ok own ids db :
  team_wf db -> validate_members faults own ids db = Ok tt ->
  forall id, id ∈ ids -> is_Some (tdAgents db !! id) /\
    forall t, t ∈ tdTeams db -> id ∈ tmMemberIDs t -> Some (tmID t) = own.
Proof.
  intros Hwf. induction ids as [|x ids IH]; [set_solver|]. cbn [validate_members].
  rewrite get_agent_eq. destruct (tdAgents db !! x) as [a|] eqn:Ea; [|done]. cbn [rbind Ok].
  pose proof (GetTeamByAgent_wf db x Hwf) as Hg.
  destruct (GetTeamByAgent faults x db) as [[t|]|]; cbn [rbind]; [| |done].
  - case_bool_decide as Ho; [|done]. intros Hv id [->|Hid]%elem_of_cons; [|by apply IH].
    split; [by rewrite Ea|]. intros t' Ht' Hx. destruct Hg as [Ht Hxt].
    destruct (tw_member db Hwf t x Ht Hxt) as (b & Hb & Hbt).
    destruct (tw_member db Hwf t' x Ht' Hx) as (b' & Hb' & Hbt'). simplify_eq. congruence.
  - intros Hv id [->|Hid]%elem_of_cons; [|by apply IH]. split; [by rewrite Ea|].
    intros t Ht Hx. by destruct (Hg t Ht).
Qed.

Lemma assign_all_eq ids teamID db :
  (forall id, id ∈ ids -> is_Some (tdAgents db !! id)) ->
  exists db', assign_all faults ids teamID db = (Ok tt, db') /\ tdTeams db' = tdTeams db /\
    forall id, tdAgents db' !! id =
      if bool_decide (id ∈ ids) then (fun a => set_team_id a teamID) <$> tdAgents db !! id
      else tdAgents db !! id.
Proof.
  revert db. induction ids as [|x ids IH]; intros db Hex.
  { exists db. split; [done|]. split; [done|]. intros id. by rewrite bool_decide_eq_false_2 by set_solver. }
  destruct (Hex x) as [a Ha]; [by left|]. simpl. unfold setAgentTeamID. rewrite get_agent_eq, Ha. simpl.
  rewrite Hok. destruct (IH (put_agent x (set_team_id a teamID) db)) as (db' & E & Ht & Hl).
  { intros id Hid. unfold put_agent. simpl. destruct (decide (id = x)) as [->|Hne];
      [by rewrite lookup_insert_eq|rewrite lookup_insert_ne by done]. apply Hex. by right. }
  exists db'. split; [done|]. split; [done|]. intros id. rewrite Hl. unfold put_agent. simpl.
  destruct (decide (id = x)) as [->|Hne].
  - rewrite lookup_insert_eq, (bool_decide_eq_true_2 (x ∈ x :: ids)), Ha by set_solver.
    by case_bool_decide.
  - rewrite lookup_insert_ne by done.
    by rewrite (bool_decide_ext (id ∈ x :: ids) (id ∈ ids)) by set_solver.
Qed.

(** ** Operations keep it *)

Lemma updated_row_id team t : tmID (updated_row team t) = tmID t.
Proof. unfold updated_row. by case_bool_decide. Qed.

Lemma set_team_id_same a : set_team_id a (taTeamID a) = a.
Proof. by destruct a. Qed.

(** The row of [t] now has the members of [t'], and the agents follow. *)
Lemma retarget_wf db db' t t' :
  team_wf db -> t ∈ tdTeams db -> tmID t' = tmID t -> team_members t' = tmMemberIDs t' ->
  (forall id, id ∈ tmMemberIDs t' -> is_Some (tdAgents db !! id) /\
     forall t0, t0 ∈ tdTeams db -> id ∈ tmMemberIDs t0 -> tmID t0 = tmID t) ->
  tdTeams db' = map (updated_row t') (tdTeams db) ->
  (forall id, tdAgents db' !! id =
     if bool_decide (id ∈ tmMemberIDs t') then (fun a => set_team_id a (tmID t)) <$> tdAgents db !! id
     else if bool_decide (id ∈ tmMemberIDs t) then (fun a => set_team_id a EmptyString) <$> tdAgents db !! id
     else tdAgents db !! id) ->
  team_wf db'.
Proof.
  intros Hwf Ht Hid Hnorm Hnew Hteams Hagents.
  assert (forall x, x ∈ tdTeams db' -> exists y, y ∈ tdTeams db /\ tmID x = tmID y /\
    (y = t /\ tmMemberIDs x = tmMemberIDs t' /\ tmLeaderID x = tmLeaderID t' \/ y <> t /\ x = y)) as Hrow.
  { intros x Hx. rewrite Hteams in Hx. apply list_elem_of_fmap in Hx as (y & -> & Hy).
    exists y. rewrite updated_row_id. split_and!; [done..|]. unfold updated_row. case_bool_decide as E.
    - left. split; [|done]. eapply team_id_inj; [apply Hwf|done..|congruence].
    - right. split; [|done]. intros ->. by rewrite Hid in E. }
  split.
  - intros id a Ha. rewrite Hagents in Ha.
    repeat case_bool_decide; try (apply fmap_Some in Ha as (b & Hb & ->); simpl); by eapply tw_keys.
  - rewrite Hteams, map_map. erewrite map_ext; [apply Hwf|]. intros x. apply updated_row_id.
  - intros x Hx. destruct (Hrow x Hx) as (y & Hy & -> & _). by eapply tw_named.
  - intros x Hx. destruct (Hrow x Hx) as (y & Hy & _ & [(_ & Hm & Hl)|[_ ->]]); [|by eapply tw_lists].
    unfold team_members. by rewrite Hm, Hl.
  - intros x id Hx Hin. destruct (Hrow x Hx) as (y & Hy & Ex & [(-> & Hm & _)|[Hne ->]]).
    + rewrite Hm in Hin. destruct (Hnew id Hin) as [[a Ha] _]. exists (set_team_id a (tmID t)).
      by rewrite Hagents, bool_decide_eq_true_2, Ha, Ex.
    + destruct (tw_member db Hwf y id Hy Hin) as (a & Ha & Hat). exists a. split; [|done].
      rewrite Hagents, !bool_decide_eq_false_2; [done|..].
      * intros Hold. destruct (tw_member db Hwf t id Ht Hold) as (b & Hb & Hbt). simplify_eq.
        apply Hne. eapply team_id_inj; [apply Hwf|done..|congruence].
      * intros HN. destruct (Hnew id HN) as [_ Hown]. apply Hne.
        eapply team_id_inj; [apply Hwf|done..|]. by apply Hown.
  - intros id a Ha Hne. rewrite Hagents in Ha. case_bool_decide as HN.
    + apply fmap_Some in Ha as (b & Hb & ->). exists (updated_row t' t). rewrite Hteams, updated_row_id.
      split; [by apply list_elem_of_fmap_2|]. split; [done|]. unfold updated_row. by rewrite bool_decide_eq_true_2.
    + case_bool_decide as Hold; [apply fmap_Some in Ha as (b & Hb & ->); done|].
      destruct (tw_assigned db Hwf id a Ha Hne) as (y & Hy & Ey & Hin). exists y. split; [|done].
      rewrite Hteams. apply list_elem_of_fmap. exists y. split; [|done]. unfold updated_row.
      rewrite bool_decide_eq_false_2; [done|]. intros E. apply Hold.
      replace t with y; [done|]. eapply team_id_inj; [apply Hwf|done..|congruence].
Qed.

Lemma find_team db id t : GetTeam faults id db = Ok t -> t ∈ tdTeams db /\ tmID t = id.
Proof.
  unfold GetTeam, team_query. rewrite Hok. simpl.
  destruct (List.find _ _) as [x|] eqn:E; [|done]. intros [= <-].
  apply find_elem_Some in E as [Hx Hb]. by apply bool_decide_eq_true in Hb.
Qed.

(** A row rewritten with the same members. *)
Lemma rewrite_row_wf db t t' :
  team_wf db -> t ∈ tdTeams db -> tmID t' = tmID t -> tmMemberIDs t' = tmMemberIDs t ->
  tmLeaderID t' = tmLeaderID t -> team_wf (StoreUpdateTeam faults t' db).2.
Proof.
  intros Hwf Ht Hid Hm Hl. unfold StoreUpdateTeam. destruct (ensure_agents _ _ _); [|done].
  rewrite Hok. destruct (existsb _ _); [|done]. simpl.
  eapply retarget_wf with (t := t) (t' := t'); try done; simpl.
  - unfold team_members. rewrite Hm, Hl. by apply (tw_lists db Hwf).
  - intros id Hin. rewrite Hm in Hin. destruct (tw_member db Hwf t id Ht Hin) as (a & Ha & Hat).
    split; [by rewrite Ha|]. intros t0 Ht0 Hin0.
    destruct (tw_member db Hwf t0 id Ht0 Hin0) as (b & Hb & Hbt). simplify_eq. congruence.
  - intros id. rewrite Hm. case_bool_decide as Hin; [|done].
    destruct (tw_member db Hwf t id Ht Hin) as (a & Ha & <-). rewrite Ha. simpl. by rewrite set_team_id_same.
Qed.

Lemma audit_wf e db : team_wf db -> team_wf (team_audit e db).
Proof. by intros []. Qed.

Lemma active_wf now id active db : team_wf db -> team_wf (SetTeamActive faults now id active db).2.
Proof.
  intros Hwf. unfold SetTeamActive. destruct (GetTeam faults id db) as [t|] eqn:E; [|done].
  apply find_team in E as [Ht _]. destruct (Bool.eqb _ _); [done|].
  pose proof (rewrite_row_wf db t (with_active t active now) Hwf Ht eq_refl eq_refl eq_refl) as H.
  destruct (StoreUpdateTeam _ _ _) as [[] db1]; [by apply audit_wf|done].
Qed.

Lemma context_wf now id content db : team_wf db -> team_wf (UpdateSharedContext faults now id content db).2.
Proof.
  intros Hwf. unfold UpdateSharedContext. destruct (GetTeam faults id db) as [t|] eqn:E; [|done].
  apply find_team in E as [Ht _].
  pose proof (rewrite_row_wf db t (with_context t content now) Hwf Ht eq_refl eq_refl eq_refl) as H.
  destruct (StoreUpdateTeam _ _ _) as [[] db1]; [by apply audit_wf|done].
Qed.

Lemma create_team_wf now team db :
  tmID team <> EmptyString -> team_wf db -> team_wf (CreateTeam faults now team db).2.
Proof.
  intros Hne Hwf. unfold CreateTeam. destruct (validate_members _ _ _ _) as [[]|] eqn:Ev; [|done].
  pose proof (validate_members_ok _ _ _ Hwf Ev) as Hv.
  unfold StoreCreateTeam. destruct (ensure_agents _ _ _); [|done]. rewrite Hok.
  set (row := mkTeam _ _ _ _ _ _ _ _ _).
  destruct (existsb _ (tdTeams db)) eqn:Ex; [done|].
  assert (forall t, t ∈ tdTeams db -> tmID t <> tmID team) as Hfresh.
  { intros t Ht E. rewrite existsb_elem_false in Ex. specialize (Ex t Ht). by apply bool_decide_eq_false in Ex. }
  destruct (assign_all_eq (team_members team) (tmID team) (put_teams (tdTeams db ++ [row]) db))
    as (db' & Ea & Ht' & Hl); [intros id Hid; by apply Hv|].
  change (tmID row) with (tmID team). rewrite Ea. cbn [snd]. apply audit_wf. simpl in Ht', Hl.
  assert (forall t id, t ∈ tdTeams db -> id ∈ tmMemberIDs t -> id ∉ team_members team) as Hdis.
  { intros t id Ht Hin Hm. destruct (Hv id Hm) as [_ Hno]. by specialize (Hno t Ht Hin). }
  split; rewrite ?Ht'.
  - intros id a Ha. rewrite Hl in Ha.
    case_bool_decide; [apply fmap_Some in Ha as (b & Hb & ->); simpl|]; by eapply tw_keys.
  - rewrite map_app. apply NoDup_app. split_and!; [apply Hwf| |apply NoDup_singleton].
    intros x (t & Hx & Ht)%list_elem_of_fmap Hx'%list_elem_of_singleton. apply (Hfresh t); [done|].
    by rewrite <- Hx, Hx'.
  - intros t [Ht|Ht%list_elem_of_singleton]%elem_of_app; [by eapply tw_named|by subst t].
  - intros t [Ht|Ht%list_elem_of_singleton]%elem_of_app; [by eapply tw_lists|]. subst t.
    unfold team_members at 1. simpl. apply with_leader_idem.
  - intros t id [Ht|Ht%list_elem_of_singleton]%elem_of_app Hin.
    + rewrite Hl, bool_decide_eq_false_2 by by eapply Hdis. by apply (tw_member db Hwf).
    + subst t. simpl in Hin. destruct (Hv id Hin) as [[a Ha] _]. exists (set_team_id a (tmID team)).
      by rewrite Hl, bool_decide_eq_true_2, Ha.
  - intros id a Ha Han. rewrite Hl in Ha. case_bool_decide as Hm.
    + apply fmap_Some in Ha as (b & Hb & ->). exists row. split; [set_solver|done].
    + destruct (tw_assigned db Hwf id a Ha Han) as (t & Ht & He). exists t. split; [set_solver|done].
Qed.

Lemma diffStrings_elem (l r : list string) x : x ∈ diffStrings l r <-> x ∈ l /\ x ∉ r.
Proof. unfold diffStrings. rewrite filter_elem, negb_true_iff, bool_decide_eq_false. done. Qed.

Lemma update_team_wf now team db : team_wf db -> team_wf (UpdateTeam faults now team db).2.
Proof.
  intros Hwf. unfold UpdateTeam. destruct (GetTeam faults (tmID team) db) as [t|] eqn:Eg; [|done].
  apply find_team in Eg as [Ht Hid]. case_bool_decide as Hlead; simpl; [|done].
  destruct (validate_members _ _ _ _) as [[]|] eqn:Ev; [|done].
  pose proof (validate_members_ok _ _ _ Hwf Ev) as Hv.
  set (row := mkTeam (tmID team) _ _ _ _ _ _ _ _). rewrite (tw_lists db Hwf t Ht).
  set (new := uniqueStrings (tmMemberIDs team)) in *.
  unfold StoreUpdateTeam. destruct (ensure_agents _ _ _); [|done]. rewrite Hok.
  destruct (existsb _ _); [|done]. simpl.
  destruct (assign_all_eq (diffStrings new (tmMemberIDs t)) (tmID row) (put_teams (map (updated_row row) (tdTeams db)) db))
    as (db1 & E1 & T1 & L1); [intros id [Hin _]%diffStrings_elem; by apply Hv|].
  simpl in E1. rewrite E1. simpl in T1, L1 |- *.
  destruct (assign_all_eq (diffStrings (tmMemberIDs t) new) EmptyString db1) as (db2 & E2 & T2 & L2).
  { intros id [Hin _]%diffStrings_elem. rewrite L1. destruct (tw_member db Hwf t id Ht Hin) as (a & Ha & _).
    rewrite Ha. by case_bool_decide. }
  rewrite E2. cbn [snd]. apply audit_wf.
  apply (retarget_wf db db2 t row Hwf Ht).
  - done.
  - unfold team_members, with_leader. simpl. unfold new. rewrite uniqueStrings_idem. by rewrite bool_decide_eq_true_2.
  - intros id Hin. destruct (Hv id Hin) as [Hs Hown]. split; [done|]. intros t0 Ht0 Hin0.
    specialize (Hown t0 Ht0 Hin0). congruence.
  - by rewrite T2, T1.
  - intros id. simpl. rewrite L2, L1, <- Hid. destruct (decide (id ∈ new)) as [Hn|Hn], (decide (id ∈ tmMemberIDs t)) as [Ho|Ho];
      rewrite (bool_decide_ext (id ∈ diffStrings new (tmMemberIDs t)) (id ∈ new /\ id ∉ tmMemberIDs t)) by apply diffStrings_elem;
      rewrite (bool_decide_ext (id ∈ diffStrings (tmMemberIDs t) new) (id ∈ tmMemberIDs t /\ id ∉ new)) by apply diffStrings_elem;
      repeat case_bool_decide; try tauto; try congruence.
    destruct (tw_member db Hwf t id Ht Ho) as (a & Ha & <-). rewrite Ha. simpl. by rewrite set_team_id_same.
Qed.

(** An agent outside a team matches neither condition of the statement that clears it. *)
Lemma outsider_unmatched db t : team_wf db -> t ∈ tdTeams db ->
  forall x a, tdAgents db !! x = Some a -> x ∉ tmMemberIDs t ->
    bool_decide (taID a ∈ tmMemberIDs t ++ [tmLeaderID t]) || bool_decide (taTeamID a = tmID t) = false.
Proof.
  intros Hwf Ht x a Ha Hx. rewrite (tw_keys db Hwf x a Ha), !bool_decide_eq_false_2; [done|..].
  - intros E. destruct (tw_assigned db Hwf x a Ha) as (t1 & Ht1 & Et1 & Hin).
    { rewrite E. by eapply tw_named. }
    apply Hx. replace t with t1; [done|]. eapply team_id_inj; [apply Hwf|done..|congruence].
  - intros [Hin|Hin%list_elem_of_singleton]%elem_of_app; [done|]. apply Hx.
    rewrite <- (tw_lists db Hwf t Ht), Hin. apply with_leader_has.
Qed.

Lemma teams_disjoint db t : team_wf db -> t ∈ tdTeams db ->
  forall t1 x, t1 ∈ tdTeams db -> tmID t1 <> tmID t -> x ∈ tmMemberIDs t1 -> x ∉ tmMemberIDs t.
Proof.
  intros Hwf Ht t1 x Ht1 Hne H1 H2. destruct (tw_member db Hwf t1 x Ht1 H1) as (a & Ha & E1').
  destruct (tw_member db Hwf t x Ht H2) as (b & Hb' & E2'). simplify_eq. congruence.
Qed.

Lemma delete_team_wf id db : team_wf db -> team_wf (DeleteTeam faults id db).2.
Proof.
  intros Hwf. unfold DeleteTeam. destruct (GetTeam faults id db) as [t|] eqn:Eg; [|done].
  apply find_team in Eg as [Ht Hid]. rewrite (tw_lists db Hwf t Ht).
  destruct (assign_all_eq (tmMemberIDs t) EmptyString db) as (db1 & E1 & T1 & L1).
  { intros x Hx. destruct (tw_member db Hwf t x Ht Hx) as (a & -> & _). by eexists. }
  rewrite E1. cbn iota beta. unfold StoreDeleteTeam. rewrite Hok, T1.
  destruct (List.find _ _) as [t0|] eqn:Ef.
  2:{ apply (find_elem_None _ _ t) in Ef; [|done]. by apply bool_decide_eq_false in Ef. }
  apply find_elem_Some in Ef as [Ht0 Hb]. apply bool_decide_eq_true in Hb.
  assert (t0 = t) as -> by (eapply team_id_inj; [apply Hwf|done..|congruence]).
  cbn [snd]. apply audit_wf.
  assert (forall x, tdAgents db1 !! x = (fun a => if bool_decide (x ∈ tmMemberIDs t)
    then set_team_id a EmptyString else a) <$> tdAgents db !! x) as L1'.
  { intros x. rewrite L1. case_bool_decide; destruct (tdAgents db !! x); done. }
  pose proof (outsider_unmatched db t Hwf Ht) as Hother. rewrite Hid in Hother.
  assert (forall x, x ∈ List.filter (fun t => negb (bool_decide (tmID t = id))) (tdTeams db) <->
    x ∈ tdTeams db /\ tmID x <> id) as Hteams.
  { intros x. by rewrite filter_elem, negb_true_iff, bool_decide_eq_false. }
  pose proof (teams_disjoint db t Hwf Ht) as Hdis. rewrite Hid in Hdis.
  split; simpl.
  - intros x a. rewrite lookup_fmap, L1'. destruct (tdAgents db !! x) as [b|] eqn:Eb; [|done]. simpl.
    intros [= <-]. pose proof (tw_keys db Hwf x b Eb). repeat case_bool_decide; done.
  - eapply sublist_NoDup; [apply Hwf|]. apply fmap_sublist. clear.
    induction (tdTeams db) as [|x l IH]; simpl; [done|]. case_bool_decide; simpl; by constructor.
  - intros x [Hx _]%Hteams. by eapply tw_named.
  - intros x [Hx _]%Hteams. by eapply tw_lists.
  - intros t1 x [Ht1 Hne]%Hteams Hin. destruct (tw_member db Hwf t1 x Ht1 Hin) as (a & Ha & Hat).
    exists a. split; [|done]. rewrite lookup_fmap, L1', Ha. simpl.
    rewrite (bool_decide_eq_false_2 (x ∈ _)) by by eapply Hdis. by rewrite (Hother x a Ha (Hdis _ _ Ht1 Hne Hin)).
  - intros x a. rewrite lookup_fmap, L1'. destruct (tdAgents db !! x) as [b|] eqn:Eb; [|done]. simpl.
    intros [= <-]. destruct (decide (x ∈ tmMemberIDs t)) as [Hx|Hx].
    { rewrite (bool_decide_eq_true_2 (x ∈ _)) by done. by case_match. }
    rewrite (bool_decide_eq_false_2 (x ∈ _)) by done. rewrite (Hother x b Eb Hx). intros Hne. destruct (tw_assigned db Hwf x b Eb Hne) as (t1 & Ht1 & Et & Hin).
    exists t1. split; [|done]. apply Hteams. split; [done|]. intros E.
    apply Hx. replace t with t1; [done|]. eapply team_id_inj; [apply Hwf|done..|congruence].
Qed.
End membership.

Inductive team_op : Type :=
| OpCreateTeam (now : Z) (team : Team)
| OpUpdateTeam (now : Z) (team : Team)
| OpDeleteTeam (id : string)
| OpSetActive (now : Z) (id : string) (active : bool)
| OpSharedContext (now : Z) (id content : string).

Definition run_team_op (faults : TeamQuery -> bool) (db : TeamDB) (op : team_op) : TeamDB :=
  (match op with
   | OpCreateTeam now team => CreateTeam faults now team db
   | OpUpdateTeam now team => UpdateTeam faults now team db
   | OpDeleteTeam id => DeleteTeam faults id db
   | OpSetActive now id active => SetTeamActive faults now id active db
   | OpSharedContext now id content => UpdateSharedContext faults now id content db
   end).2.

(** Teams are created under a name of their own. *)
Definition named_op (op : team_op) : Prop :=
  match op with OpCreateTeam _ team => tmID team <> EmptyString | _ => True end.

Definition no_team_faults (q : TeamQuery) : bool := false.

Lemma run_team_op_wf db op : named_op op -> team_wf db -> team_wf (run_team_op no_team_faults db op).
Proof.
  destruct op; intros Hn Hwf; simpl.
  - by apply create_team_wf.
  - by apply update_team_wf.
  - by apply delete_team_wf.
  - by apply active_wf.
  - by apply context_wf.
Qed.

(** C32: Membership is consistent.  As long as no statement fails (creating and deleting a team are several, outside
    a transaction: [deleted_member_blocks_team]), and teams are created under an identifier, whatever teams are
    created, changed, paused and deleted, an agent's row names a team exactly when that team lists the agent, no
    agent is in two teams, a team lists its leader and nobody twice, and the lookup of
    an agent's team agrees with its row. *)
Theorem team_membership_invariant (db : TeamDB) (ops : list team_op) :
  team_wf db -> Forall named_op ops ->
  let db' := foldl (run_team_op no_team_faults) db ops in
  (forall t, t ∈ tdTeams db' -> NoDup (tmMemberIDs t) /\ tmLeaderID t ∈ tmMemberIDs t) /\
  (forall t id, t ∈ tdTeams db' -> id ∈ tmMemberIDs t ->
     exists a, tdAgents db' !! id = Some a /\ taTeamID a = tmID t) /\
  (forall t t' id, t ∈ tdTeams db' -> t' ∈ tdTeams db' -> id ∈ tmMemberIDs t -> id ∈ tmMemberIDs t' -> t = t') /\
  (forall id a, tdAgents db' !! id = Some a ->
     GetTeamByAgent no_team_faults id db' =
       Ok (if bool_decide (taTeamID a = EmptyString) then None
           else List.find (fun t => bool_decide (tmID t = taTeamID a)) (tdTeams db'))).
Proof.
  intros Hwf Hops. cbv zeta.
  assert (team_wf (foldl (run_team_op no_team_faults) db ops)) as Hwf'.
  { revert db Hwf. induction Hops as [|op ops Hop _ IH]; intros db Hwf; simpl; [done|].
    by apply IH, run_team_op_wf. }
  revert Hwf'. generalize (foldl (run_team_op no_team_faults) db ops). clear. intros db Hwf.
  assert (forall t t' id, t ∈ tdTeams db -> t' ∈ tdTeams db -> id ∈ tmMemberIDs t -> id ∈ tmMemberIDs t' -> t = t') as Hone.
  { intros t t' id Ht Ht' Hin Hin'. destruct (tw_member db Hwf t id Ht Hin) as (a & Ha & E).
    destruct (tw_member db Hwf t' id Ht' Hin') as (b & Hb & E'). simplify_eq.
    eapply team_id_inj; [apply Hwf|done..|congruence]. }
  split_and!; [|apply Hwf|done|].
  - intros t Ht. rewrite <- (tw_lists db Hwf t Ht). split; [|apply with_leader_has].
    unfold team_members, with_leader. case_bool_decide as Hl; [apply unique_from_nodup|].
    apply NoDup_app. split_and!; [apply unique_from_nodup|set_solver|apply NoDup_singleton].
  - intros id a Ha. pose proof (GetTeamByAgent_wf no_team_faults (fun _ => eq_refl) db id Hwf) as Hg.
    destruct (GetTeamByAgent no_team_faults id db) as [[t|]|]; [| |done].
    + destruct Hg as [Ht Hin]. destruct (tw_member db Hwf t id Ht Hin) as (b & Hb & E). simplify_eq.
      rewrite bool_decide_eq_false_2 by (rewrite E; by eapply tw_named).
      destruct (List.find _ _) as [t'|] eqn:Ef.
      * apply find_elem_Some in Ef as [Ht' Hb']. apply bool_decide_eq_true in Hb'. unfold Ok. do 2 f_equal.
        eapply team_id_inj; [apply Hwf|done..|congruence].
      * apply (find_elem_None _ _ t) in Ef; [|done]. apply bool_decide_eq_false in Ef. congruence.
    + case_bool_decide as He; [done|]. destruct (tw_assigned db Hwf id a Ha He) as (t & Ht & _ & Hin).
      by destruct (Hg t Ht).
Qed.

(** * Examples *)

Definition loose (id : string) : TeamAgent := mkTeamAgent id id EmptyString [] "stopped".

(** Three agents without a team. *)
Definition three_agents : TeamDB :=
  mkTeamDB (<["a" := loose "a"]> (<["b" := loose "b"]> (<["c" := loose "c"]> ∅))) [] [].

Definition crew (members : list string) : Team :=
  mkTeam "t1" "crew" "a" members "mesh" true EmptyString 0 0.

Lemma three_agents_wf : team_wf three_agents.
Proof.
  assert (forall id x, tdAgents three_agents !! id = Some x -> x = loose id) as Hrow.
  { intros id x. simpl. rewrite !lookup_insert_Some, lookup_empty. naive_solver. }
  split; [|apply NoDup_nil_2|by intros ? ?%elem_of_nil|by intros ? ?%elem_of_nil|by intros ? ? ?%elem_of_nil|].
  - intros id x Hx. by rewrite (Hrow id x Hx).
  - intros id x Hx. by rewrite (Hrow id x Hx).
Qed.

Lemma team_membership_invariant_witness :
  let db := foldl (run_team_op no_team_faults) three_agents
    [OpCreateTeam 1 (crew ["b"; "b"]); OpUpdateTeam 2 (crew ["a"; "c"]); OpSetActive 3 "t1" false] in
  GetTeamByAgent no_team_faults "b" db = Ok None /\
  exists t, GetTeamByAgent no_team_faults "c" db = Ok (Some t) /\ tmMemberIDs t = ["a"; "c"].
Proof.
  destruct (team_membership_invariant three_agents
    [OpCreateTeam 1 (crew ["b"; "b"]); OpUpdateTeam 2 (crew ["a"; "c"]); OpSetActive 3 "t1" false])
    as (_ & _ & _ & H); [apply three_agents_wf|by repeat constructor|].
  split.
  - apply (H "b" (loose "b")). by vm_compute.
  - eexists. split; [rewrite (H "c" (set_team_id (loose "c") "t1")); by vm_compute|by vm_compute].
Defined.

(** Deleting an agent ([Kyvik.DeleteAgent]) removes its row and leaves the teams alone. *)
Definition drop_agent (id : string) (db : TeamDB) : TeamDB :=
  mkTeamDB (delete id (tdAgents db)) (tdTeams db) (tdAudit db).

(** A team with a deleted member can no longer be deleted: [DeleteTeam] fails at the
    missing agent, and has by then taken the members before it out of the team, so that
    the rows and the list disagree. *)
Theorem deleted_member_blocks_team :
  let db := drop_agent "c" (run_team_op no_team_faults three_agents (OpCreateTeam 1 (crew ["a"; "b"; "c"]))) in
  let '(r, db') := DeleteTeam no_team_faults "t1" db in
  r = Err (AgentMissing "c") /\ map tmMemberIDs (tdTeams db') = [["a"; "b"; "c"]] /\
  (taTeamID <$> tdAgents db' !! "a") = Some EmptyString.
Proof. vm_compute. done. Qed.
