(* ===== verification/TeamBus.v ===== *)
(** The message bus of the teams ([internal/teams/bus.go]), its channel adapter
    ([internal/channels/busadapter]) and the routing of incoming messages
    ([routeIncoming] of [internal/core/router.go]), over the queue of [Queue].

    A message is persisted by [Send] and pushed to the subscriptions of its recipient; the
    adapter checks it and hands it to the router, which puts it into the queue.  When an
    agent starts, [ReplayUndelivered] enqueues what it finds undelivered.  Times are in
    nanoseconds; the message table keeps microseconds and the queue table whole seconds. *)

From S2P Require Import Prelude GoString Queue Teams.
#[local] Open Scope Z_scope.

(** * Data *)

Definition MessageTypeMessage : string := "message".
Definition MessageTypeResult : string := "result".
Definition MessagePriorityNormal : string := "normal".

(** [types.InternalMessage]; a zero time is 0. *)
Record InternalMessage := mkInternalMessage {
  imID : string;
  imFrom : string;
  imTo : string;
  imContent : string;
  imType : string;
  imPriority : string;
  imMetadata : list (string * string);
  imTimestamp : Z;
}.

(** [Bus]: the table, the acknowledgements, and the channels, named by number. *)
Record Bus := mkBus {
  buRows : list InternalMessage;
  buAcks : list (string * string);
  buSubs : gmap string (list nat);
  buChannels : gmap nat (list InternalMessage);
  buNext : nat;
  buAudit : list (string * string);
}.

Definition NewBus (rows : list InternalMessage) (acks : list (string * string)) : Bus :=
  mkBus rows acks ∅ ∅ 0 [].

Definition sent_message (now : Z) (id : string) (msg : InternalMessage) : InternalMessage :=
  mkInternalMessage (or_default (imID msg) id) (imFrom msg) (imTo msg) (imContent msg)
    (or_default (imType msg) MessageTypeMessage) (or_default (imPriority msg) MessagePriorityNormal)
    (imMetadata msg) (if imTimestamp msg =? 0 then now else imTimestamp msg).

(** The row of a message: the table keeps microseconds. *)
Definition microsecond : Z := 1000.

Definition stored_message (m : InternalMessage) : InternalMessage :=
  mkInternalMessage (imID m) (imFrom m) (imTo m) (imContent m) (imType m) (imPriority m) (imMetadata m)
    ((imTimestamp m + 500) / microsecond * microsecond).

Definition busCap : nat := 32.

(** The non-blocking push to one subscriber. *)
Definition push (msg : InternalMessage) (chans : gmap nat (list InternalMessage)) (ch : nat)
    : gmap nat (list InternalMessage) :=
  match chans !! ch with
  | Some buf => if (length buf <? busCap)%nat then <[ch := buf ++ [msg]]> chans else chans
  | None => chans
  end.

(** [Bus.Send]; [persist] is whether the insert succeeds, [id] the fresh identifier. *)
Definition Send (persist : bool) (now : Z) (id : string) (msg0 : InternalMessage) (b : Bus)
    : bool * Bus :=
  let msg := sent_message now id msg0 in
  if persist then
    (true, mkBus (buRows b ++ [stored_message msg]) (buAcks b) (buSubs b)
             (foldl (push msg) (buChannels b) (default [] (buSubs b !! imTo msg)))
             (buNext b) (buAudit b ++ [(imFrom msg, imTo msg)]))
  else (false, b).

(** [Bus.Subscribe] *)
Definition Subscribe (agentID : string) (b : Bus) : nat * Bus :=
  (buNext b, mkBus (buRows b) (buAcks b)
     (<[agentID := default [] (buSubs b !! agentID) ++ [buNext b]]> (buSubs b))
     (<[buNext b := []]> (buChannels b)) (S (buNext b)) (buAudit b)).

(** [Bus.Unsubscribe] *)
Definition Unsubscribe (agentID : string) (ch : nat) (b : Bus) : Bus :=
  mkBus (buRows b) (buAcks b)
    (<[agentID := remove_first ch (default [] (buSubs b !! agentID))]> (buSubs b))
    (buChannels b) (buNext b) (buAudit b).

(** [Bus.Broadcast]; [env i] is the outcome of the insert and the identifier of the
    message for member [i]. *)
Fixpoint broadcast_to (env : nat -> bool * string) (now : Z) (from content : string) (i : nat)
    (members : list string) (b : Bus) : bool * Bus :=
  match members with
  | [] => (true, b)
  | m :: rest =>
    if bool_decide (m = from) then broadcast_to env now from content (S i) rest b
    else
      match Send (env i).1 now (env i).2
              (mkInternalMessage EmptyString from m content MessageTypeMessage EmptyString [] 0) b with
      | (true, b) => broadcast_to env now from content (S i) rest b
      | (false, b) => (false, b)
      end
  end.

Definition Broadcast (faults : TeamQuery -> bool) (env : nat -> bool * string) (now : Z)
    (from teamID content : string) (db : TeamDB) (b : Bus) : result TeamError bool * Bus :=
  match GetTeam faults teamID db with
  | inr e => (Err e, b)
  | inl team =>
    if negb (tmActive team) then (Err ErrTeamPaused, b)
    else let '(ok, b) := broadcast_to env now from content 0 (tmMemberIDs team) b in (Ok ok, b)
  end.

(** [Bus.QueueDepth] *)
Definition BusQueueDepth (agentID : string) (b : Bus) : nat :=
  length (List.filter (fun m => bool_decide (imTo m = agentID)) (buRows b)).

(** * Undelivered messages *)

Definition acked (b : Bus) (m : InternalMessage) : bool := bool_decide ((imID m, imTo m) ∈ buAcks b).

(** The queue row that counts as the delivery of a message. *)
Definition queued_as (m : InternalMessage) (r : QueueMessage) : bool :=
  bool_decide (mAgentID r = imTo m) && bool_decide (mChannel r = "internal")
  && bool_decide (mSender r = imFrom m) && bool_decide (mContent r = imContent m)
  && match mCreatedAt r with Some t => imTimestamp m <=? t | None => false end.

Definition is_pending (agentID : string) (b : Bus) (q : PostgresQueue) (m : InternalMessage) : bool :=
  bool_decide (imTo m = agentID) && negb (bool_decide (imType m = MessageTypeResult))
  && negb (acked b m) && negb (existsb (queued_as m) (map snd (map_to_list (qRows q)))).

Fixpoint insert_message (m : InternalMessage) (l : list InternalMessage) : list InternalMessage :=
  match l with
  | [] => [m]
  | x :: l' => if imTimestamp m <? imTimestamp x then m :: l else x :: insert_message m l'
  end.

(** [Bus.PendingMessagesFor], oldest first *)
Definition PendingMessagesFor (agentID : string) (b : Bus) (q : PostgresQueue) : list InternalMessage :=
  foldl (fun l m => insert_message m l) [] (List.filter (is_pending agentID b q) (buRows b)).

(** [Bus.AckPendingMessagesFor] *)
Definition AckPendingMessagesFor (agentID : string) (b : Bus) : Bus :=
  mkBus (buRows b)
    (buAcks b ++ map (fun m => (imID m, imTo m))
       (List.filter (fun m => bool_decide (imTo m = agentID)
          && negb (bool_decide (imType m = MessageTypeResult)) && negb (acked b m)) (buRows b)))
    (buSubs b) (buChannels b) (buNext b) (buAudit b).

(** * The adapter *)

(** [channels.IncomingMessage] *)
Record IncomingMessage := mkIncoming {
  icChannelType : string;
  icChannelID : string;
  icSenderID : string;
  icAgentID : string;
  icContent : string;
  icAttachments : string;               (* JSON, empty without attachments *)
  icMessageType : string;
}.

(** The lookups of the adapter; a function that is not set is [None]. *)
Inductive TeamLookup : Type := TeamFound (t : Team) | NoTeam | TeamLookupFailed.

Record AdapterEnv := mkAdapterEnv {
  aeConfig : option (string -> option TeamAgent);
  aeTeam : option (string -> TeamLookup);
}.

Inductive Forward : Type :=
| Forwarded (m : IncomingMessage)
| DeniedByPermission
| DeniedByMode (teamID : string)
| DeniedPaused (teamID : string)
| LookupSkipped.

Definition incoming_of (msg : InternalMessage) : IncomingMessage :=
  mkIncoming "internal" (imFrom msg) (imFrom msg) (imTo msg) (imContent msg) EmptyString (imType msg).

(** The team rules for a message of a sender in [team]. *)
Definition team_rules (agentID : string) (team : Team) (msg : InternalMessage) : Forward :=
  if bool_decide (tmCommunication team = TeamCommLeaderMediated)
     && negb (bool_decide (imFrom msg = tmLeaderID team)) && negb (bool_decide (agentID = tmLeaderID team))
  then DeniedByMode (tmID team)
  else if negb (tmActive team) then DeniedPaused (tmID team)
  else Forwarded (incoming_of msg).

(** One message of [forwardMessages] *)
Definition forward (env : AdapterEnv) (agentID : string) (msg : InternalMessage) : Forward :=
  match aeConfig env with
  | None => Forwarded (incoming_of msg)
  | Some config =>
    match config (imFrom msg), config agentID with
    | Some fromCfg, Some toCfg =>
      if negb (CheckMessagePermission fromCfg toCfg) then DeniedByPermission
      else match aeTeam env with
           | None => Forwarded (incoming_of msg)
           | Some teamOf =>
             match teamOf (imFrom msg) with
             | TeamLookupFailed => LookupSkipped
             | NoTeam => Forwarded (incoming_of msg)
             | TeamFound team => team_rules agentID team msg
             end
           end
    | _, _ => LookupSkipped
    end
  end.

(** [interAgentConversationID] *)
Definition interAgentConversationID (agentA agentB : string) : string :=
  if (agentA <? agentB)%string then "interagent:" +:+ agentA +:+ ":" +:+ agentB
  else "interagent:" +:+ agentB +:+ ":" +:+ agentA.

Definition new_queue_message (agentID channel conversationID sender content attachments messageType
    targetNode : string) (priority : Z) : QueueMessage :=
  mkQueueMessage 0 agentID channel conversationID sender content attachments messageType priority
    EmptyString 0 0 targetNode None None None.

(** Whether [ReplayUndelivered] leaves the message alone. *)
Definition replay_skips (env : AdapterEnv) (msg : InternalMessage) : bool :=
  match aeTeam env with
  | None => false
  | Some teamOf =>
    match teamOf (imFrom msg) with
    | TeamLookupFailed => true
    | NoTeam => false
    | TeamFound team => negb (tmActive team)
    end
  end.

Definition replay_message (agentID : string) (msg : InternalMessage) : QueueMessage :=
  new_queue_message agentID "internal" (interAgentConversationID agentID (imFrom msg)) (imFrom msg)
    (imContent msg) EmptyString (or_default (imType msg) "message") EmptyString 0.

(** [Adapter.ReplayUndelivered] *)
Definition ReplayUndelivered (env : AdapterEnv) (now : Z) (agentID : string) (b : Bus) (q : PostgresQueue)
    : PostgresQueue :=
  foldl (fun q msg => if replay_skips env msg then q else (Enqueue q now (replay_message agentID msg)).2)
    q (PendingMessagesFor agentID b q).

(** [Adapter.Send]: the answer to an internal message; [None] is [ErrNotProvisioned]. *)
Definition AdapterSend (persist : bool) (now : Z) (id agentID channel sender content : string) (b : Bus)
    : option (bool * Bus) :=
  if negb (bool_decide (channel = "internal")) || bool_decide (sender = EmptyString) then None
  else Some (Send persist now id
               (mkInternalMessage EmptyString agentID sender content MessageTypeResult EmptyString [] 0) b).

(** * The router *)

Record RouterEnv := mkRouterEnv {
  reHistory : bool;
  reCluster : option (string -> bool * string);   (* IsLocalAgent, GetAssignment *)
}.

(** What a routed message becomes. *)
Inductive Routed : Type :=
| Dropped
| SavedToHistory (agentID conversationID sender content : string)
| Queued (q : PostgresQueue)
| ToInbox (agentID channel content : string).

(** One message of [routeIncoming]; [q] is [None] without a queue. *)
Definition routeIncoming (env : RouterEnv) (now : Z) (msg : IncomingMessage) (q : option PostgresQueue)
    : Routed :=
  if bool_decide (icAgentID msg = EmptyString) then Dropped
  else if bool_decide (icMessageType msg = "result") then
    if reHistory env
    then SavedToHistory (icAgentID msg) (interAgentConversationID (icAgentID msg) (icSenderID msg))
           (icSenderID msg) (icContent msg)
    else Dropped
  else
    let remote := match reCluster env with
                  | Some cluster => if (cluster (icAgentID msg)).1 then EmptyString else (cluster (icAgentID msg)).2
                  | None => EmptyString
                  end in
    match q with
    | None => ToInbox (icAgentID msg) (icChannelType msg) (icContent msg)
    | Some q =>
      if negb (bool_decide (remote = EmptyString)) then
        Queued (Enqueue q now (new_queue_message (icAgentID msg) (icChannelType msg) EmptyString EmptyString
                                 (icContent msg) EmptyString EmptyString remote 0)).2
      else
        let priority := if bool_decide (icSenderID msg ∈ qcPriorityUsers (qConfig q)) then 1 else 0 in
        let conversationID := if bool_decide (icChannelType msg = "internal")
                              then interAgentConversationID (icAgentID msg) (icSenderID msg) else EmptyString in
        Queued (Enqueue q now (new_queue_message (icAgentID msg) (icChannelType msg) conversationID
                  (icSenderID msg) (icContent msg) (icAttachments msg)
                  (or_default (icMessageType msg) "message") EmptyString priority)).2
    end.

(** * Who may message whom *)

(** The rules as the documentation of [CheckMessagePermission] lists them. *)
Definition may_message (from to : TeamAgent) : Prop :=
  taID from = taID to \/ taID to ∈ taCanMessage from \/
  (taTeamID to <> EmptyString /\ "team:" +:+ taTeamID to ∈ taCanMessage from) \/
  (taTeamID from <> EmptyString /\ taTeamID from = taTeamID to).

Lemma entry_allows_spec (to : TeamAgent) (entry : string) :
  entry_allows to entry = true <->
  entry = taID to \/ (taTeamID to <> EmptyString /\ entry = "team:" +:+ taTeamID to).
Proof.
  unfold entry_allows. rewrite orb_true_iff, bool_decide_eq_true.
  destruct (strip_prefix "team:" entry) as [t|] eqn:E.
  - apply strip_prefix_spec in E as ->. rewrite andb_true_iff, negb_true_iff, bool_decide_eq_false, bool_decide_eq_true.
    split; [intros [?|[? ->]]; auto|]. intros [?|[? Ht]]; [by left|right].
    apply str_app_inv_l in Ht as ->. done.
  - split; [intros [?|?]; [by left|done]|]. intros [?|[_ ->]]; [by left|].
    by rewrite (proj2 (strip_prefix_spec "team:" _ _) eq_refl) in E.
Qed.

Lemma permission_spec (from to : TeamAgent) : CheckMessagePermission from to = true <-> may_message from to.
Proof.
  unfold CheckMessagePermission, may_message. case_bool_decide as Hid; [by split; auto|].
  destruct (existsb (entry_allows to) (taCanMessage from)) eqn:E.
  - split; [intros _|done]. apply existsb_elem in E as (entry & Hin & He).
    apply entry_allows_spec in He as [->|[Hne ->]]; auto.
  - rewrite existsb_elem_false in E.
    assert (forall entry, entry ∈ taCanMessage from ->
      ~ (entry = taID to \/ (taTeamID to <> EmptyString /\ entry = "team:" +:+ taTeamID to))) as Hno.
    { intros entry Hin He%entry_allows_spec. by rewrite (E entry Hin) in He. }
    rewrite andb_true_iff, negb_true_iff, bool_decide_eq_false, bool_decide_eq_true.
    split; [tauto|]. intros [?|[Hin|[[Hne Hin]|?]]]; [done| | |done]; exfalso; eapply Hno; eauto.
Qed.

(** C31: The adapter lets a live message through exactly when its sender may message the
    recipient and, if the sender is in a team, the team is active and, in a
    leader-mediated team, one of the two is its leader. *)
Theorem live_message_allowed_iff env config teamOf agentID msg from to :
  aeConfig env = Some config -> aeTeam env = Some teamOf ->
  config (imFrom msg) = Some from -> config agentID = Some to ->
  forward env agentID msg = Forwarded (incoming_of msg) <->
  may_message from to /\
  (teamOf (imFrom msg) = NoTeam \/
   exists t, teamOf (imFrom msg) = TeamFound t /\ tmActive t = true /\
     (tmCommunication t = TeamCommLeaderMediated -> imFrom msg = tmLeaderID t \/ agentID = tmLeaderID t)).
Proof.
  intros Hc Ht Hf Hto. unfold forward. rewrite Hc, Ht, Hf, Hto, <- permission_spec.
  destruct (CheckMessagePermission from to); simpl; [|split; [done|by intros []]].
  destruct (teamOf (imFrom msg)) as [t| |]; [|by split; auto|].
  2:{ split; [done|]. intros [_ [?|(t & ? & _)]]; done. }
  unfold team_rules. split.
  - destruct (_ && _) eqn:Em; [done|]. destruct (tmActive t) eqn:Ea; [|done]. intros _.
    split; [done|]. right. exists t. split; [done|]. split; [done|]. intros Hmode.
    rewrite (bool_decide_eq_true_2 _ Hmode) in Em. simpl in Em.
    destruct (decide (imFrom msg = tmLeaderID t)); [by left|]. rewrite bool_decide_eq_false_2 in Em by done.
    simpl in Em. right. apply negb_false_iff in Em. by apply bool_decide_eq_true in Em.
  - intros [_ [?|(t' & [= <-] & -> & Hl)]]; [done|].
    destruct (bool_decide (tmCommunication t = _)) eqn:Em; [|done]. apply bool_decide_eq_true in Em.
    destruct (Hl Em) as [E|E]; rewrite (bool_decide_eq_true_2 _ E); simpl; [done|]. by rewrite andb_false_r.
Qed.

(** * Broadcasts *)

(** A broadcast whose inserts succeed persists one message for every member but the
    sender, in the order of the list, and nothing else. *)
Theorem broadcast_reaches_members env now from content members b :
  (forall i, (env i).1 = true) ->
  exists sent b', broadcast_to env now from content 0 members b = (true, b') /\
    buRows b' = buRows b ++ sent /\
    map imTo sent = List.filter (fun m => negb (bool_decide (m = from))) members /\
    Forall (fun m => imFrom m = from /\ imContent m = content /\ imType m = MessageTypeMessage) sent /\
    forall id, BusQueueDepth id b' = (BusQueueDepth id b +
      length (List.filter (fun m => bool_decide (m = id)) (List.filter (fun m => negb (bool_decide (m = from))) members)))%nat.
Proof.
  intros Henv. generalize 0%nat. revert b. induction members as [|m rest IH]; intros b i; simpl.
  { exists [], b. rewrite app_nil_r. split_and!; first [done|intros id; lia]. }
  case_bool_decide as Hm; simpl; [apply IH|]. unfold Send. rewrite Henv. simpl.
  match goal with |- context [broadcast_to _ _ _ _ _ rest ?b1] =>
    destruct (IH b1 (S i)) as (sent & b' & -> & Hr & Hto & Hall & Hd) end.
  eexists (_ :: sent), b'. split; [done|]. rewrite Hr. simpl. rewrite <- app_assoc.
  split; [done|]. split; [by f_equal|]. split; [by constructor|].
  intros id. rewrite Hd. unfold BusQueueDepth. simpl. rewrite List.filter_app, length_app. simpl.
  case_bool_decide; simpl; lia.
Qed.

(** * Replay *)

Lemma Enqueue_rows q now msg :
  qRows (Enqueue q now msg).2 = <[qNext q := inserted (with_id (enqueue_defaults now msg) (qNext q))]> (qRows q) /\
  qNext (Enqueue q now msg).2 = qNext q + 1.
Proof.
  unfold Enqueue. set (m := with_id _ _).
  set (q1 := set_next _ _). set (q2 := if bool_decide _ then q1 else _).
  assert (qRows q2 = qRows q1 /\ qNext q2 = qNext q1) as [Hr Hn] by (subst q2; by case_bool_decide).
  assert (forall q', qRows q' = qRows q2 -> qNext q' = qNext q2 ->
    qRows q' = <[qNext q := inserted m]> (qRows q) /\ qNext q' = qNext q + 1) as Hdone.
  { intros q' -> ->. by rewrite Hr, Hn. }
  assert (forall q' a d, qRows (addMetric q' a d) = qRows q' /\ qNext (addMetric q' a d) = qNext q') as Hmetric.
  { intros. unfold addMetric. by case_bool_decide. }
  destruct (_ && _); [by apply Hdone; apply Hmetric|].
  destruct (negb _); [by apply Hdone|].
  destruct (send q2 m) as [r q3] eqn:Es.
  assert (qRows q3 = qRows q2 /\ qNext q3 = qNext q2) as [Hr3 Hn3].
  { apply send_cases in Es as [(_ & -> & _)|(ch & _ & [(_ & _ & ->)|(_ & _ & ->)])]; done. }
  destruct r; simpl; apply Hdone; try done.
  - by rewrite (proj1 (Hmetric _ _ _)).
  - by rewrite (proj2 (Hmetric _ _ _)).
Qed.

Definition rows_fresh (q : PostgresQueue) : Prop := forall i r, qRows q !! i = Some r -> i < qNext q.

Definition has_delivery (q : PostgresQueue) (m : InternalMessage) : Prop :=
  exists i r, qRows q !! i = Some r /\ queued_as m r = true.

Lemma queued_spec q m : existsb (queued_as m) (map snd (map_to_list (qRows q))) = true <-> has_delivery q m.
Proof.
  rewrite existsb_elem. split.
  - intros (r & Hin & Hq). apply list_elem_of_fmap in Hin as ([i r'] & -> & Hin).
    exists i, r'. by apply elem_of_map_to_list in Hin.
  - intros (i & r & Hi & Hq). exists r. split; [|done]. apply list_elem_of_fmap. exists (i, r).
    split; [done|]. by apply elem_of_map_to_list.
Qed.

Lemma replayed_delivery agentID now m i :
  imTo m = agentID -> imTimestamp m <= db_time now ->
  queued_as m (inserted (with_id (enqueue_defaults now (replay_message agentID m)) i)) = true.
Proof.
  intros <- Ht. unfold queued_as. simpl. rewrite !bool_decide_eq_true_2 by done. simpl. by apply Z.leb_le.
Qed.

Lemma replay_fold agentID now (l : list InternalMessage) q :
  rows_fresh q -> (forall m, m ∈ l -> imTo m = agentID /\ imTimestamp m <= db_time now) ->
  let q' := foldl (fun q msg => (Enqueue q now (replay_message agentID msg)).2) q l in
  rows_fresh q' /\ (forall i r, qRows q !! i = Some r -> qRows q' !! i = Some r) /\
  (forall m, m ∈ l -> has_delivery q' m) /\ (size (qRows q') = size (qRows q) + length l)%nat.
Proof.
  revert q. induction l as [|m l IH]; intros q Hfr Hl; simpl; [split_and!; [done..|set_solver|lia]|].
  destruct (Enqueue_rows q now (replay_message agentID m)) as [Hr Hn].
  set (q1 := (Enqueue q now (replay_message agentID m)).2) in *.
  assert (qRows q !! qNext q = None) as Hnone.
  { destruct (qRows q !! qNext q) eqn:E; [|done]. apply Hfr in E. lia. }
  assert (rows_fresh q1) as Hfr1.
  { intros i r. rewrite Hr, Hn, lookup_insert_Some. intros [[<- _]|[_ Hi]]; [lia|]. apply Hfr in Hi. lia. }
  destruct (IH q1 Hfr1) as (H1 & H2 & H3 & H4); [set_solver|].
  split_and!; [done| | |].
  - intros i r Hi. apply H2. rewrite Hr. rewrite lookup_insert_ne; [done|]. intros <-. congruence.
  - intros x [->|Hx]%elem_of_cons; [|by apply H3].
    eexists (qNext q), _. split; [apply H2; rewrite Hr; apply lookup_insert_eq|].
    apply replayed_delivery; by apply Hl; left.
  - rewrite H4, Hr, map_size_insert_None by done. lia.
Qed.

Lemma insert_message_elem m l x : x ∈ insert_message m l <-> x = m \/ x ∈ l.
Proof. induction l as [|y l IH]; simpl; [set_solver|]. destruct (_ <? _); set_solver. Qed.

Lemma insert_message_length m l : length (insert_message m l) = S (length l).
Proof. induction l as [|y l IH]; simpl; [done|]. destruct (_ <? _); simpl; lia. Qed.

Lemma pending_elem agentID b q m :
  m ∈ PendingMessagesFor agentID b q <-> m ∈ buRows b /\ is_pending agentID b q m = true.
Proof.
  unfold PendingMessagesFor. rewrite <- filter_elem.
  assert (forall l acc, m ∈ foldl (fun l m => insert_message m l) acc l <-> m ∈ acc \/ m ∈ l) as H.
  { induction l as [|x l IH]; intros acc; simpl; [set_solver|]. rewrite IH, insert_message_elem. set_solver. }
  rewrite H. set_solver.
Qed.

(** Replay delivers what is undelivered once.  If the senders' teams are active and
    every pending message was sent before the current second began, the replay at an
    agent's start enqueues one message for each pending one, keeps every row of the
    queue, and leaves nothing pending: a second replay does nothing. *)
Theorem replay_delivers_once env now agentID b q :
  rows_fresh q ->
  (forall m, m ∈ PendingMessagesFor agentID b q -> replay_skips env m = false /\ imTimestamp m <= db_time now) ->
  let q' := ReplayUndelivered env now agentID b q in
  (forall i r, qRows q !! i = Some r -> qRows q' !! i = Some r) /\
  size (qRows q') = (size (qRows q) + length (PendingMessagesFor agentID b q))%nat /\
  PendingMessagesFor agentID b q' = [] /\ ReplayUndelivered env now agentID b q' = q'.
Proof.
  intros Hfr Hp. cbv zeta.
  assert (ReplayUndelivered env now agentID b q =
    foldl (fun q msg => (Enqueue q now (replay_message agentID msg)).2) q (PendingMessagesFor agentID b q)) as Eq.
  { unfold ReplayUndelivered. revert Hp. generalize (PendingMessagesFor agentID b q). clear. intros l.
    revert q. induction l as [|m l IH]; intros q Hl; simpl; [done|].
    rewrite (proj1 (Hl m ltac:(by left))). apply IH. intros x Hx. apply Hl. by right. }
  destruct (replay_fold agentID now (PendingMessagesFor agentID b q) q Hfr) as (_ & H2 & H3 & H4).
  { intros m Hm. split; [|by apply Hp]. apply pending_elem in Hm as [_ Hm]. unfold is_pending in Hm.
    apply andb_true_iff in Hm as [[[Hm _]%andb_true_iff _]%andb_true_iff _]. by apply bool_decide_eq_true in Hm. }
  rewrite <- Eq in H2, H3, H4.
  assert (PendingMessagesFor agentID b (ReplayUndelivered env now agentID b q) = []) as Hnil.
  { apply elem_of_nil_inv. intros m Hm. apply pending_elem in Hm as [Hrow Hm].
    unfold is_pending in Hm. apply andb_true_iff in Hm as [Hrest Hq]. apply negb_true_iff in Hq.
    apply not_true_iff_false in Hq. apply Hq, queued_spec.
    destruct (existsb (queued_as m) (map snd (map_to_list (qRows q)))) eqn:E.
    - apply queued_spec in E as (i & r & Hi & Hr). exists i, r. auto.
    - apply H3, pending_elem. split; [done|]. unfold is_pending. by rewrite Hrest, E. }
  split_and!; [done..|]. unfold ReplayUndelivered at 1. by rewrite Hnil.
Qed.

(** * Examples *)

(** Two agents without a team; [writer] may message [reader] and not the reverse. *)
Definition writer : TeamAgent := mkTeamAgent "writer" "writer" EmptyString ["reader"] EmptyString.
Definition reader : TeamAgent := mkTeamAgent "reader" "reader" EmptyString [] EmptyString.

Definition pair_config (id : string) : option TeamAgent :=
  if bool_decide (id = "writer") then Some writer
  else if bool_decide (id = "reader") then Some reader else None.

Definition pair_env : AdapterEnv := mkAdapterEnv (Some pair_config) (Some (fun _ => NoTeam)).

Definition plain (from to content : string) : InternalMessage :=
  mkInternalMessage EmptyString from to content EmptyString EmptyString [] 0.

(** A bus and a queue on which [reader] wrote to [writer], 0.4 seconds past the minute. *)
Definition denied_at : Z := 60 * second + 400000000.
Definition denied_bus : Bus := (Send true denied_at "M1" (plain "reader" "writer" "hi") (NewBus [] [])).2.
Definition empty_queue : PostgresQueue := NewPostgresQueue ∅ 1 EmptyString None.

Definition allowed_bus : Bus := (Send true denied_at "M1" (plain "writer" "reader" "hi") (NewBus [] [])).2.
Definition sent_in (b : Bus) : InternalMessage := default (plain EmptyString EmptyString EmptyString) (head (buRows b)).

(** The queue when the router has put the allowed message into it, 0.1 seconds later. *)
Definition routed_queue (now : Z) (b : Bus) : PostgresQueue :=
  match forward pair_env "reader" (sent_in b) with
  | Forwarded m =>
    match routeIncoming (mkRouterEnv true None) now m (Some empty_queue) with
    | Queued q => q
    | _ => empty_queue
    end
  | _ => empty_queue
  end.

Lemma live_message_allowed_iff_witness :
  forward pair_env "reader" (sent_in allowed_bus) = Forwarded (incoming_of (sent_in allowed_bus)).
Proof.
  apply (proj2 (live_message_allowed_iff pair_env pair_config (fun _ => NoTeam) "reader" (sent_in allowed_bus)
    writer reader eq_refl eq_refl eq_refl eq_refl)).
  split; [|by left]. right. left. by left.
Defined.

Lemma broadcast_reaches_members_witness : exists sent b',
  broadcast_to (fun _ => (true, "id")) 0 "lead" "go" 0 ["lead"; "a"; "b"] (NewBus [] []) = (true, b') /\
  map imTo sent = ["a"; "b"] /\ buRows b' = sent.
Proof.
  destruct (broadcast_reaches_members (fun _ => (true, "id")) 0 "lead" "go" ["lead"; "a"; "b"] (NewBus [] []))
    as (sent & b' & H1 & H2 & H3 & _); [done|].
  exists sent, b'. split; [exact H1|]. split; [exact H3|exact H2].
Defined.

Lemma replay_delivers_once_witness :
  let q := ReplayUndelivered pair_env (62 * second) "reader" allowed_bus empty_queue in
  size (qRows q) = 1%nat /\ PendingMessagesFor "reader" allowed_bus q = [].
Proof.
  destruct (replay_delivers_once pair_env (62 * second) "reader" allowed_bus empty_queue)
    as (_ & H1 & H2 & _); [done| |split; [exact H1|exact H2]].
  assert (PendingMessagesFor "reader" allowed_bus empty_queue = [sent_in allowed_bus]) as -> by by vm_compute.
  intros m ->%list_elem_of_singleton. split; [done|]. by vm_compute.
Defined.

(** A message the permission check denied is delivered when the recipient next starts:
    [forwardMessages] drops it without an acknowledgement, and [ReplayUndelivered] asks
    neither [CheckMessagePermission] nor the communication mode. *)
Theorem denied_message_replayed :
  forward pair_env "writer" (sent_in denied_bus) = DeniedByPermission /\
  map (fun r => (mAgentID r, mSender r, mContent r))
    (map snd (map_to_list (qRows (ReplayUndelivered pair_env (62 * second) "writer" denied_bus empty_queue))))
  = [("writer", "reader", "hi")].
Proof. split; by vm_compute. Qed.

(** A message that was delivered live in the second it was sent in is delivered again at
    the next start: the queue row's time is cut to the second, so it is earlier than the
    message's and does not count as its delivery. *)
Theorem delivered_message_replayed :
  let q := routed_queue (denied_at + 100000000) allowed_bus in
  map (fun r => (mSender r, mContent r)) (map snd (map_to_list (qRows q))) = [("writer", "hi")] /\
  map (fun r => (mSender r, mContent r))
    (map snd (map_to_list (qRows (ReplayUndelivered pair_env (62 * second) "reader" allowed_bus q))))
  = [("writer", "hi"); ("writer", "hi")].
Proof. split; by vm_compute. Qed.

(** The answer of an agent is a bus message too, and a one-way grant denies it: what the
    recipient of an allowed message answers never reaches the sender's history. *)
Theorem answer_needs_grant : exists b,
  AdapterSend true (61 * second) "M2" "reader" "internal" "writer" "done" allowed_bus = Some (true, b) /\
  match last (buRows b) with
  | Some answer => imTo answer = "writer" /\ forward pair_env "writer" answer = DeniedByPermission
  | None => False
  end.
Proof. eexists. split; [reflexivity|]. vm_compute. done. Qed.

(** A message for an agent on another node is queued without its sender, conversation,
    attachments, type and priority. *)
Theorem remote_message_loses_sender agent node channel sender content attachments now q :
  agent <> EmptyString -> node <> EmptyString ->
  exists q' r, routeIncoming (mkRouterEnv true (Some (fun _ => (false, node)))) now
    (mkIncoming channel sender sender agent content attachments "message") (Some q) = Queued q' /\
    qRows q' !! qNext q = Some r /\ mAgentID r = agent /\ mContent r = content /\
    mSender r = EmptyString /\ mConversationID r = EmptyString /\ mAttachments r = EmptyString.
Proof.
  intros Ha Hn. unfold routeIncoming. simpl. rewrite (bool_decide_eq_false_2 _ Ha), (bool_decide_eq_false_2 _ Hn). simpl.
  set (m := new_queue_message _ _ _ _ _ _ _ _ _). eexists _, _. split; [reflexivity|].
  rewrite (proj1 (Enqueue_rows q now m)). split; [apply lookup_insert_eq|]. done.
Qed.

Lemma remote_message_loses_sender_witness : exists q' r,
  routeIncoming (mkRouterEnv true (Some (fun _ => (false, "node-b")))) 0
    (mkIncoming "telegram" "alice" "alice" "a1" "hi" EmptyString "message") (Some empty_queue) = Queued q' /\
  qRows q' !! 1 = Some r /\ mSender r = EmptyString.
Proof.
  destruct (remote_message_loses_sender "a1" "node-b" "telegram" "alice" "hi" EmptyString 0 empty_queue)
    as (q' & r & H1 & H2 & _ & _ & H3 & _); [done..|]. exists q', r. split; [exact H1|]. split; [exact H2|exact H3].
Defined.
