(* ===== verification/Paired.v ===== *)
(** Paired conversations ([internal/teams/paired.go]): two agents talk in turns over the
    message bus of [TeamBus], driven by one goroutine per conversation.

    State [Orchestrator]: the two tables, the map of the active conversations, the bus, the
    dashboard's watchers, and one [Session] per goroutine, which is also the
    [activeConversation] it points to.  A session keeps its number for ever, so that a
    conversation that is continued while its old goroutine still runs has two.

    The code is cut where it can block: [EvHead], [EvResumeWake], [EvWake], [EvDelayDone],
    [EvCancelWake] and [EvLeave] are what a goroutine does between two such points, the other
    events are the calls of the dashboard and messages of the agents.  Which statements fail
    is an argument ([peFails]); a statement on a cancelled context always fails. *)

From Stdlib Require Import SpecFloat.
From S2P Require Import Prelude GoString GoFloat Types Spending Teams TeamBus.
#[local] Open Scope Z_scope.

(** * Data *)

Inductive PairedStatus : Type := PairedActive | PairedPaused | PairedCompleted | PairedStopped.

#[global] Instance PairedStatus_eq_dec : EqDecision PairedStatus.
Proof. solve_decision. Defined.

(** [types.PairedConversation] *)
Record Conversation := mkConversation {
  cvID : string;
  cvAgentA : string;
  cvAgentB : string;
  cvTopic : string;
  cvMaxTurns : Z;
  cvTurnDelayMs : Z;
  cvAllowInjection : bool;
  cvStopPhrases : list string;
  cvStatus : PairedStatus;
  cvCurrentTurn : Z;
  cvTotalTokens : Z;
  cvCost : float64;
  cvCreatedAt : Z;
  cvCompletedAt : option Z;
}.

(** [PairedMessage]; the agent's name is looked up when it is shown. *)
Record PairedMessage := mkPairedMessage {
  pmAgentID : string;
  pmContent : string;
  pmTokens : Z;
  pmCost : float64;
  pmTurn : Z;
  pmInjectedBy : string;
  pmAt : Z;
}.

(** [PairedUpdate] *)
Record PairedUpdate := mkPairedUpdate {
  puType : string;
  puMessage : option PairedMessage;
  puConv : Conversation;
}.

(** A subscriber of a conversation's updates. *)
Record Watcher := mkWatcher { waConv : string; waUpdates : list PairedUpdate }.

(** Where a goroutine is. *)
Inductive SessionPhase : Type :=
| Spawned
| AtHead
| PauseWait
| AwaitAnswer (injectedBy : string)
| Delayed (answer : string)
| Ending
| Ended.

(** [activeConversation] with the variables of its goroutine. *)
Record Session := mkSession {
  ssID : string;
  ssConv : Conversation;
  ssCancelled : bool;
  ssPause : bool;                     (* the token in pauseCh *)
  ssResume : bool;                    (* the token in resumeCh *)
  ssInject : list string;
  ssPhase : SessionPhase;
  ssSpeaker : string;
  ssRecipient : string;
  ssOutbound : string;
  ssPending : string;
  ssSeen : gmap string (Z * float64);
  ssSubA : nat;
  ssSubB : nat;
}.

Section session_update.
Context (s : Session).
Definition with_conv (c : Conversation) : Session :=
  mkSession (ssID s) c (ssCancelled s) (ssPause s) (ssResume s) (ssInject s) (ssPhase s) (ssSpeaker s)
    (ssRecipient s) (ssOutbound s) (ssPending s) (ssSeen s) (ssSubA s) (ssSubB s).
Definition with_phase (p : SessionPhase) : Session :=
  mkSession (ssID s) (ssConv s) (ssCancelled s) (ssPause s) (ssResume s) (ssInject s) p (ssSpeaker s)
    (ssRecipient s) (ssOutbound s) (ssPending s) (ssSeen s) (ssSubA s) (ssSubB s).
Definition with_tokens (pause resume : bool) : Session :=
  mkSession (ssID s) (ssConv s) (ssCancelled s) pause resume (ssInject s) (ssPhase s) (ssSpeaker s)
    (ssRecipient s) (ssOutbound s) (ssPending s) (ssSeen s) (ssSubA s) (ssSubB s).
Definition with_inject (inject : list string) (pending : string) : Session :=
  mkSession (ssID s) (ssConv s) (ssCancelled s) (ssPause s) (ssResume s) inject (ssPhase s) (ssSpeaker s)
    (ssRecipient s) (ssOutbound s) pending (ssSeen s) (ssSubA s) (ssSubB s).
Definition cancelled : Session :=
  mkSession (ssID s) (ssConv s) true (ssPause s) (ssResume s) (ssInject s) (ssPhase s) (ssSpeaker s)
    (ssRecipient s) (ssOutbound s) (ssPending s) (ssSeen s) (ssSubA s) (ssSubB s).
Definition with_seen (seen : gmap string (Z * float64)) : Session :=
  mkSession (ssID s) (ssConv s) (ssCancelled s) (ssPause s) (ssResume s) (ssInject s) (ssPhase s)
    (ssSpeaker s) (ssRecipient s) (ssOutbound s) (ssPending s) seen (ssSubA s) (ssSubB s).
Definition with_subs (a b : nat) : Session :=
  mkSession (ssID s) (ssConv s) (ssCancelled s) (ssPause s) (ssResume s) (ssInject s) AtHead
    (ssSpeaker s) (ssRecipient s) (ssOutbound s) (ssPending s) (ssSeen s) a b.
(** The end of a turn: the speakers change places. *)
Definition next_turn (answer : string) : Session :=
  mkSession (ssID s) (ssConv s) (ssCancelled s) (ssPause s) (ssResume s) (ssInject s) AtHead
    (ssRecipient s) (ssSpeaker s) answer (ssPending s) (ssSeen s) (ssSubA s) (ssSubB s).
End session_update.

Record Orchestrator := mkOrchestrator {
  orRows : gmap string Conversation;
  orMessages : list (string * PairedMessage);
  orActive : gmap string nat;
  orSessions : gmap nat Session;
  orNext : nat;
  orBus : Bus;
  orWatchers : list Watcher;
  orAudit : list (string * PairedStatus * string);
}.

Section orchestrator_update.
Context (o : Orchestrator).
Definition set_conversations (r : gmap string Conversation) : Orchestrator :=
  mkOrchestrator r (orMessages o) (orActive o) (orSessions o) (orNext o) (orBus o) (orWatchers o) (orAudit o).
Definition set_messages (m : list (string * PairedMessage)) : Orchestrator :=
  mkOrchestrator (orRows o) m (orActive o) (orSessions o) (orNext o) (orBus o) (orWatchers o) (orAudit o).
Definition set_active (a : gmap string nat) : Orchestrator :=
  mkOrchestrator (orRows o) (orMessages o) a (orSessions o) (orNext o) (orBus o) (orWatchers o) (orAudit o).
Definition put_session (h : nat) (s : Session) : Orchestrator :=
  mkOrchestrator (orRows o) (orMessages o) (orActive o) (<[h := s]> (orSessions o)) (orNext o) (orBus o)
    (orWatchers o) (orAudit o).
Definition set_bus (b : Bus) : Orchestrator :=
  mkOrchestrator (orRows o) (orMessages o) (orActive o) (orSessions o) (orNext o) b (orWatchers o) (orAudit o).
Definition set_watchers (w : list Watcher) : Orchestrator :=
  mkOrchestrator (orRows o) (orMessages o) (orActive o) (orSessions o) (orNext o) (orBus o) w (orAudit o).
Definition log_paired (e : string * PairedStatus * string) : Orchestrator :=
  mkOrchestrator (orRows o) (orMessages o) (orActive o) (orSessions o) (orNext o) (orBus o) (orWatchers o)
    (orAudit o ++ [e]).
(** A new goroutine, under the next number. *)
Definition spawn (s : Session) : Orchestrator :=
  mkOrchestrator (orRows o) (orMessages o) (<[ssID s := orNext o]> (orActive o))
    (<[orNext o := s]> (orSessions o)) (S (orNext o)) (orBus o) (orWatchers o) (orAudit o).
End orchestrator_update.

(** [NewPairedOrchestrator] over empty tables *)
Definition NewPairedOrchestrator (b : Bus) : Orchestrator := mkOrchestrator ∅ [] ∅ ∅ 0 b [] [].

(** The statements that can fail. *)
Inductive PairedQuery : Type :=
| QInsertConversation | QInsertPaired | QProgress | QSetStatus | QGetConversation | QDeleteConversation
| QContinueRow | QAgentsRow | QPairedMessages | QUsageSum | QPersistSend.

Inductive PairedError : Type :=
| PairedQueryFailed (q : PairedQuery)
| AgentsRequired
| SameAgent
| PairedAgentMissing (id : string)
| StillActive
| ErrPairedConvNotFound
| ErrPairedConvNotActive
| InjectEmpty
| InjectDisabled
| InjectFull
| TurnsOutOfRange
| WrongStatus (st : PairedStatus).

(** What the orchestrator asks of the other components: the agents' rows (their limits), the
    breaker, the usage records; [peNow] is the clock. *)
Record PairedEnv := mkPairedEnv {
  peFails : PairedQuery -> bool;
  peLimits : string -> option SpendingLimits;
  peBreaker : option (string -> bool);
  peUsage : SpendingDB;
  peUsageFaults : SpendingQuery -> bool;
  peDayStart : Z -> Z;
  peMonthStart : Z -> Z;
  peNow : Z;
  peMessageID : string;
}.

(** * Helpers *)

(** [deriveConversationTimeout], in nanoseconds *)
Definition deriveConversationTimeout (c : Conversation) : Z :=
  let maxTurns := if cvMaxTurns c <=? 0 then 10 else cvMaxTurns c in
  let delay := if cvTurnDelayMs c <? 0 then 0 else cvTurnDelayMs c in
  let totalTurns := wrap64 (maxTurns * 2) in
  let totalMs := wrap64 (wrap64 (wrap64 (totalTurns * wrap64 (delay + 3000)) * 3) + 30000) in
  wrap64 ((if totalMs <? 60000 then 60000 else totalMs) * 1000000).

(** [containsStopPhrase] *)
Definition containsStopPhrase `{UnicodeCase} (content : string) (phrases : list string) : bool :=
  existsb (fun phrase =>
    let p := trim_space (to_lower phrase) in
    negb (bool_decide (p = EmptyString)) && contains (to_lower content) p) phrases.

(** [estimateTokens] *)
Definition estimateTokens (content : string) : Z :=
  let trimmed := trim_space content in
  if bool_decide (trimmed = EmptyString) then 0
  else let n := Z.of_nat (String.length trimmed) / 4 in if n <? 1 then 1 else n.

(** [drainInject] *)
Definition drainInject (inject : list string) : string := default EmptyString (last inject).

(** A 32-bit column refuses what does not fit. *)
Definition fits_int4 (z : Z) : bool := (- 2 ^ 31 <=? z) && (z <? 2 ^ 31).

Section orchestrator.
Context `{UnicodeCase} (env : PairedEnv).

(** Whether a statement on a context succeeds. *)
Definition succeeds (ctx_done : bool) (q : PairedQuery) : bool := negb ctx_done && negb (peFails env q).

(** [PostgresStore.GetAgent] *)
Definition agent_exists (ctx_done : bool) (id : string) : bool :=
  negb ctx_done && bool_decide (is_Some (peLimits env id)).

Definition updateCap : nat := 32.

(** [publishUpdate] *)
Definition publishUpdate (convID : string) (u : PairedUpdate) (o : Orchestrator) : Orchestrator :=
  set_watchers o (map (fun w =>
    if bool_decide (waConv w = convID) && (length (waUpdates w) <? updateCap)%nat
    then mkWatcher (waConv w) (waUpdates w ++ [u]) else w) (orWatchers o)).

(** [getConversation] *)
Definition getConversation (ctx_done : bool) (id : string) (o : Orchestrator)
    : result PairedError Conversation :=
  if negb (succeeds ctx_done QGetConversation) then Err (PairedQueryFailed QGetConversation)
  else match orRows o !! id with
       | Some c => Ok c
       | None => Err ErrPairedConvNotFound
       end.

Definition with_paired_status (st : PairedStatus) (completed : option Z) (c : Conversation) : Conversation :=
  mkConversation (cvID c) (cvAgentA c) (cvAgentB c) (cvTopic c) (cvMaxTurns c) (cvTurnDelayMs c)
    (cvAllowInjection c) (cvStopPhrases c) st (cvCurrentTurn c) (cvTotalTokens c) (cvCost c)
    (cvCreatedAt c) (match completed with Some t => Some t | None => cvCompletedAt c end).

(** [setConversationStatus] *)
Definition setConversationStatus (ctx_done : bool) (id : string) (st : PairedStatus) (completed : option Z)
    (o : Orchestrator) : result PairedError Conversation * Orchestrator :=
  if negb (succeeds ctx_done QSetStatus) then (Err (PairedQueryFailed QSetStatus), o)
  else let o := set_conversations o (alter (with_paired_status st completed) id (orRows o)) in
       (getConversation ctx_done id o, o).

(** [completeWithStatus] *)
Definition completeWithStatus (ctx_done : bool) (id : string) (st : PairedStatus) (reason : string)
    (o : Orchestrator) : Orchestrator :=
  let '(r, o) := setConversationStatus ctx_done id st (Some (peNow env)) o in
  let o := match r with
           | inl c => publishUpdate id (mkPairedUpdate
                        (if bool_decide (st = PairedStopped) then "stopped" else "completed") None c) o
           | inr _ => o
           end in
  log_paired o (id, st, reason).

(** [insertConversation] *)
Definition insertConversation (ctx_done : bool) (c : Conversation) (o : Orchestrator) : bool * Orchestrator :=
  if succeeds ctx_done QInsertConversation && fits_int4 (cvMaxTurns c) && fits_int4 (cvTurnDelayMs c)
     && negb (bool_decide (is_Some (orRows o !! cvID c)))
  then (true, set_conversations o (<[cvID c := c]> (orRows o)))
  else (false, o).

(** [insertMessage]; the row needs its conversation *)
Definition insertMessage (ctx_done : bool) (id : string) (m : PairedMessage) (o : Orchestrator)
    : bool * Orchestrator :=
  if succeeds ctx_done QInsertPaired && fits_int4 (pmTokens m) && fits_int4 (pmTurn m)
     && bool_decide (is_Some (orRows o !! id))
  then (true, set_messages o (orMessages o ++ [(id, m)]))
  else (false, o).

(** The columns [updateConversationProgress] writes. *)
Definition with_progress (p c : Conversation) : Conversation :=
  mkConversation (cvID c) (cvAgentA c) (cvAgentB c) (cvTopic c) (cvMaxTurns c) (cvTurnDelayMs c)
    (cvAllowInjection c) (cvStopPhrases c) (cvStatus p) (cvCurrentTurn p) (cvTotalTokens p) (cvCost p)
    (cvCreatedAt c) (cvCompletedAt c).

(** [updateConversationProgress] *)
Definition updateConversationProgress (ctx_done : bool) (c : Conversation) (o : Orchestrator)
    : result PairedError Conversation * Orchestrator :=
  if negb (succeeds ctx_done QProgress && fits_int4 (cvCurrentTurn c) && fits_int4 (cvTotalTokens c))
  then (Err (PairedQueryFailed QProgress), o)
  else let o := set_conversations o (alter (with_progress c) (cvID c) (orRows o)) in
       (getConversation ctx_done (cvID c) o, o).

(** [isAgentBudgetExceeded]: the limit that is reached, or that the check failed *)
Inductive BudgetCheck : Type := BudgetError | BudgetExceeded (what : string) | BudgetFine.

Definition isAgentBudgetExceeded (ctx_done : bool) (agentID : string) : BudgetCheck :=
  match (if ctx_done then None else peLimits env agentID) with
  | None => BudgetError
  | Some l =>
    let sum period := AggregateUsage (peUsageFaults env) (peDayStart env) (peMonthStart env) agentID period
                        (peNow env) (peUsage env) in
    match sum "day" with
    | inr _ => BudgetError
    | inl day =>
      match sum "month" with
      | inr _ => BudgetError
      | inl month =>
        if cost_reached (smTotalCost day) (MaxSpendPerDay l) then BudgetExceeded "daily spend"
        else if cost_reached (smTotalCost month) (MaxSpendPerMonth l) then BudgetExceeded "monthly spend"
        else if tokens_reached (smTotalTokens day) (MaxTokensPerDay l) then BudgetExceeded "daily token"
        else if tokens_reached (smTotalTokens month) (MaxTokensPerMonth l) then BudgetExceeded "monthly token"
        else BudgetFine
      end
    end
  end.

Fixpoint budget_stop (ctx_done : bool) (agents : list string) : option string :=
  match agents with
  | [] => None
  | a :: rest =>
    match isAgentBudgetExceeded ctx_done a with
    | BudgetError => Some ("spending check failed for " +:+ a)
    | BudgetExceeded what => Some (a +:+ " exceeded " +:+ what +:+ " limit")
    | BudgetFine => budget_stop ctx_done rest
    end
  end.

(** [shouldStopForSafety]: the reason to stop *)
Definition shouldStopForSafety (ctx_done : bool) (c : Conversation) : option string :=
  let tripped a := match peBreaker env with Some f => f a | None => false end in
  if tripped (cvAgentA c) then Some ("circuit breaker tripped for " +:+ cvAgentA c)
  else if tripped (cvAgentB c) then Some ("circuit breaker tripped for " +:+ cvAgentB c)
  else budget_stop ctx_done [cvAgentA c; cvAgentB c].

(** [resolveUsageDelta] *)
Definition resolveUsageDelta (ctx_done : bool) (agentID : string) (seen : gmap string (Z * float64))
    : Z * float64 * gmap string (Z * float64) :=
  if negb (succeeds ctx_done QUsageSum) then (0, f64_zero, seen)
  else
    let l := agent_usage agentID None (peUsage env) in
    let tokens := total_tokens l in
    let cost := summed_cost l in
    let '(prevTokens, prevCost) := default (0, f64_zero) (seen !! agentID) in
    let deltaTokens := wrap64 (tokens - prevTokens) in
    let deltaCost := f64_sub cost prevCost in
    (if deltaTokens <? 0 then 0 else deltaTokens, if f64_lt deltaCost f64_zero then f64_zero else deltaCost,
     <[agentID := (tokens, cost)]> seen).

(** * The goroutine *)

(** The return of the goroutine's body: the end is recorded, the deferred calls are due. *)
Definition finish (ctx_done : bool) (st : PairedStatus) (reason : string) (h : nat) (s : Session)
    (o : Orchestrator) : Orchestrator :=
  put_session (completeWithStatus ctx_done (cvID (ssConv s)) st reason o) h (with_phase s Ending).

(** The subscriptions at the start of [runConversation] *)
Definition begin (h : nat) (s : Session) (o : Orchestrator) : Orchestrator :=
  let '(a, b) := Subscribe (cvAgentA (ssConv s)) (orBus o) in
  let '(b', b) := Subscribe (cvAgentB (ssConv s)) b in
  put_session (set_bus o b) h (with_subs s a b').

Definition injection_prefix : string := "User-injected message:" +:+ String "010" EmptyString.
Definition blank_line : string := String "010" (String "010" EmptyString).

Definition paired_outbound (s : Session) : string * string :=
  if bool_decide (ssPending s = EmptyString) then (ssOutbound s, EmptyString)
  else (injection_prefix +:+ ssPending s +:+ blank_line +:+ ssOutbound s, "user").

Definition paired_message (s : Session) (content : string) : InternalMessage :=
  mkInternalMessage EmptyString (ssRecipient s) (ssSpeaker s) content MessageTypeMessage
    MessagePriorityNormal [("paired_conversation_id", cvID (ssConv s))] 0.

(** The head of the loop after the pause: injections, the safety check, the send. *)
Definition send_turn (h : nat) (s : Session) (o : Orchestrator) : Orchestrator :=
  let inj := drainInject (ssInject s) in
  let s := with_inject s [] (if bool_decide (inj = EmptyString) then ssPending s else inj) in
  match shouldStopForSafety (ssCancelled s) (ssConv s) with
  | Some reason => finish false PairedStopped reason h s o
  | None =>
    let '(toSend, injectedBy) := paired_outbound s in
    let s := with_inject s (ssInject s) EmptyString in
    match Send (succeeds (ssCancelled s) QPersistSend) (peNow env) (peMessageID env) (paired_message s toSend)
            (orBus o) with
    | (true, b) => put_session (set_bus o b) h (with_phase s (AwaitAnswer injectedBy))
    | (false, _) => finish false PairedStopped "send failed" h s o
    end
  end.

(** [applyPauseIfRequested], then the rest of the head *)
Definition head_turn (h : nat) (s : Session) (o : Orchestrator) : Orchestrator :=
  if ssPause s then
    let s := with_phase (with_tokens s false (ssResume s)) PauseWait in
    match setConversationStatus (ssCancelled s) (cvID (ssConv s)) PairedPaused None o with
    | (inl c, o) => put_session (publishUpdate (cvID c) (mkPairedUpdate "paused" None c) o) h (with_conv s c)
    | (inr _, o) => put_session o h s
    end
  else send_turn h s o.

Definition resume_turn (h : nat) (s : Session) (o : Orchestrator) : Orchestrator :=
  let s := with_tokens s (ssPause s) false in
  match setConversationStatus false (cvID (ssConv s)) PairedActive None o with
  | (inl c, o) => send_turn h (with_conv s c) (publishUpdate (cvID c) (mkPairedUpdate "resumed" None c) o)
  | (inr _, o) => send_turn h s o
  end.

(** [waitForResult] on what the channel holds: the answer, and the messages after it *)
Fixpoint waitForResult (fromAgent toAgent : string) (ch : list InternalMessage)
    : option InternalMessage * list InternalMessage :=
  match ch with
  | [] => (None, [])
  | m :: rest =>
    if bool_decide (imType m = MessageTypeResult) && bool_decide (imFrom m = fromAgent)
       && bool_decide (imTo m = toAgent)
    then (Some m, rest) else waitForResult fromAgent toAgent rest
  end.

Definition progress (c : Conversation) (tokens : Z) (cost : float64) : Conversation :=
  mkConversation (cvID c) (cvAgentA c) (cvAgentB c) (cvTopic c) (cvMaxTurns c) (cvTurnDelayMs c)
    (cvAllowInjection c) (cvStopPhrases c) (cvStatus c) (cvCurrentTurn c + 1)
    (wrap64 (cvTotalTokens c + tokens)) (f64_add (cvCost c) cost) (cvCreatedAt c) (cvCompletedAt c).

(** The rest of the turn once the answer is there. *)
Definition record_turn (injectedBy answer : string) (h : nat) (s : Session) (o : Orchestrator) : Orchestrator :=
  let done := ssCancelled s in
  let '(delta, cost, seen) := resolveUsageDelta done (ssSpeaker s) (ssSeen s) in
  let s := with_seen s seen in
  let tokens := if delta <=? 0 then estimateTokens answer else delta in
  let m := mkPairedMessage (ssSpeaker s) answer tokens cost (cvCurrentTurn (ssConv s) + 1) injectedBy (peNow env) in
  match insertMessage done (cvID (ssConv s)) m o with
  | (false, o) => finish false PairedStopped "persist message failed" h s o
  | (true, o) =>
    let s := with_conv s (progress (ssConv s) tokens cost) in
    match updateConversationProgress done (ssConv s) o with
    | (inr _, o) => finish false PairedStopped "update conversation failed" h s o
    | (inl c, o) =>
      let s := with_conv s c in
      let o := publishUpdate (cvID c) (mkPairedUpdate "message" (Some m) c) o in
      if containsStopPhrase answer (cvStopPhrases c)
      then finish done PairedCompleted "auto-stop phrase detected" h s o
      else if wrap64 (cvMaxTurns c * 2) <=? cvCurrentTurn c
      then finish done PairedCompleted "max turns reached" h s o
      else if 0 <? cvTurnDelayMs c then put_session o h (with_phase s (Delayed answer))
      else put_session o h (next_turn s answer)
    end
  end.

Definition awaited_channel (s : Session) : nat :=
  if bool_decide (ssRecipient s = cvAgentB (ssConv s)) then ssSubB s else ssSubA s.

Definition set_channel (ch : nat) (buf : list InternalMessage) (b : Bus) : Bus :=
  mkBus (buRows b) (buAcks b) (buSubs b) (<[ch := buf]> (buChannels b)) (buNext b) (buAudit b).

Definition wake (injectedBy : string) (h : nat) (s : Session) (o : Orchestrator) : Orchestrator :=
  let ch := awaited_channel s in
  let '(answer, rest) := waitForResult (ssSpeaker s) (ssRecipient s) (default [] (buChannels (orBus o) !! ch)) in
  let o := set_bus o (set_channel ch rest (orBus o)) in
  match answer with
  | Some m => record_turn injectedBy (imContent m) h s o
  | None => o
  end.

(** The deferred calls. *)
Definition leave (h : nat) (s : Session) (o : Orchestrator) : Orchestrator :=
  let b := Unsubscribe (cvAgentA (ssConv s)) (ssSubA s)
             (Unsubscribe (cvAgentB (ssConv s)) (ssSubB s) (orBus o)) in
  put_session (set_active (set_bus o b) (delete (ssID s) (orActive o))) h (with_phase (cancelled s) Ended).

(** * The dashboard's calls *)

Definition new_session (c : Conversation) (speaker recipient outbound : string) : Session :=
  mkSession (cvID c) c false false false [] Spawned speaker recipient outbound EmptyString ∅ 0 0.

(** The conversation [Start] creates; [id] is a fresh identifier. *)
Definition started (id : string) (c : Conversation) : Conversation :=
  mkConversation (or_default (cvID c) id) (cvAgentA c) (cvAgentB c)
    (or_default (cvTopic c) "Start a productive conversation.")
    (if cvMaxTurns c <=? 0 then 10 else cvMaxTurns c) (if cvTurnDelayMs c <? 0 then 0 else cvTurnDelayMs c)
    (cvAllowInjection c) (cvStopPhrases c) PairedActive 0 0 f64_zero (peNow env) None.

(** [Start] *)
Definition Start (id : string) (c0 : Conversation) (o : Orchestrator) : result PairedError unit * Orchestrator :=
  if bool_decide (cvAgentA c0 = EmptyString) || bool_decide (cvAgentB c0 = EmptyString) then (Err AgentsRequired, o)
  else if bool_decide (cvAgentA c0 = cvAgentB c0) then (Err SameAgent, o)
  else
    let c := started id c0 in
    if negb (agent_exists false (cvAgentA c)) then (Err (PairedAgentMissing (cvAgentA c)), o)
    else if negb (agent_exists false (cvAgentB c)) then (Err (PairedAgentMissing (cvAgentB c)), o)
    else if bool_decide (is_Some (orActive o !! cvID c)) then (Err StillActive, o)
    else match insertConversation false c o with
         | (false, o) => (Err (PairedQueryFailed QInsertConversation), o)
         | (true, o) => (Ok tt, spawn o (new_session c (cvAgentA c) (cvAgentB c) (cvTopic c)))
         end.

(** A call that acts on the active session of a conversation. *)
Definition on_active (id : string) (f : Session -> result PairedError Session) (o : Orchestrator)
    : result PairedError unit * Orchestrator :=
  match orActive o !! id with
  | None => (Err ErrPairedConvNotActive, o)
  | Some h =>
    match orSessions o !! h with
    | None => (Err ErrPairedConvNotActive, o)
    | Some s => match f s with
                | inl s => (Ok tt, put_session o h s)
                | inr e => (Err e, o)
                end
    end
  end.

(** [Pause] and [Resume] *)
Definition Pause (id : string) : Orchestrator -> result PairedError unit * Orchestrator :=
  on_active id (fun s => Ok (with_tokens s true (ssResume s))).
Definition Resume (id : string) : Orchestrator -> result PairedError unit * Orchestrator :=
  on_active id (fun s => Ok (with_tokens s (ssPause s) true)).

Definition injectCap : nat := 8.

(** [Inject] *)
Definition Inject (id message : string) (o : Orchestrator) : result PairedError unit * Orchestrator :=
  let msg := trim_space message in
  if bool_decide (msg = EmptyString) then (Err InjectEmpty, o)
  else on_active id (fun s =>
    if negb (cvAllowInjection (ssConv s)) then Err InjectDisabled
    else if (length (ssInject s) <? injectCap)%nat then Ok (with_inject s (ssInject s ++ [msg]) (ssPending s))
    else Err InjectFull) o.

(** Taking a conversation out of the map and cancelling its context. *)
Definition cancel_active (id : string) (o : Orchestrator) : Orchestrator :=
  match orActive o !! id with
  | None => o
  | Some h =>
    let o := set_active o (delete id (orActive o)) in
    match orSessions o !! h with Some s => put_session o h (cancelled s) | None => o end
  end.

(** [Stop] *)
Definition Stop (id : string) (o : Orchestrator) : result PairedError unit * Orchestrator :=
  match orActive o !! id with
  | None => (Err ErrPairedConvNotActive, o)
  | Some _ =>
    match setConversationStatus false id PairedStopped (Some (peNow env)) (cancel_active id o) with
    | (inl c, o) => (Ok tt, publishUpdate id (mkPairedUpdate "stopped" None c) o)
    | (inr e, o) => (Err e, o)
    end
  end.

(** [Delete]; the messages go with the conversation *)
Definition Delete (id : string) (o : Orchestrator) : result PairedError unit * Orchestrator :=
  let o := cancel_active id o in
  if peFails env QDeleteConversation then (Err (PairedQueryFailed QDeleteConversation), o)
  else match orRows o !! id with
       | None => (Err ErrPairedConvNotFound, o)
       | Some _ =>
         let o := set_messages (set_conversations o (delete id (orRows o)))
                    (List.filter (fun m => negb (bool_decide (m.1 = id))) (orMessages o)) in
         (Ok tt, set_watchers o (List.filter (fun w => negb (bool_decide (waConv w = id))) (orWatchers o)))
       end.

(** The last message of [Messages]: they are ordered by turn, then by insertion. *)
Definition latest_turn (best : option PairedMessage) (m : PairedMessage) : option PairedMessage :=
  match best with
  | Some b => if pmTurn b <=? pmTurn m then Some m else best
  | None => Some m
  end.

Definition messages_of (id : string) (o : Orchestrator) : list PairedMessage :=
  map snd (List.filter (fun m => bool_decide (m.1 = id)) (orMessages o)).

Definition last_content (c : Conversation) (o : Orchestrator) : string :=
  match foldl latest_turn None (messages_of (cvID c) o) with
  | Some m => pmContent m
  | None => cvTopic c
  end.

(** The first half of [Continue]: what it checks, and the conversation it read *)
Definition continue_check (id : string) (additionalTurns : Z) (o : Orchestrator)
    : result PairedError (Conversation * string) :=
  if additionalTurns <? 1 then Err TurnsOutOfRange
  else if 100 <? additionalTurns then Err TurnsOutOfRange
  else
    let? c := getConversation false id o in
    if negb (bool_decide (cvStatus c = PairedCompleted)) && negb (bool_decide (cvStatus c = PairedStopped))
    then Err (WrongStatus (cvStatus c))
    else if bool_decide (is_Some (orActive o !! id)) then Err StillActive
    else if negb (agent_exists false (cvAgentA c)) then Err (PairedAgentMissing (cvAgentA c))
    else if negb (agent_exists false (cvAgentB c)) then Err (PairedAgentMissing (cvAgentB c))
    else if peFails env QPairedMessages then Err (PairedQueryFailed QPairedMessages)
    else Ok (c, last_content c o).

Definition continued (additionalTurns : Z) (c : Conversation) : Conversation :=
  mkConversation (cvID c) (cvAgentA c) (cvAgentB c) (cvTopic c) (wrap64 (cvMaxTurns c + additionalTurns))
    (cvTurnDelayMs c) (cvAllowInjection c) (cvStopPhrases c) PairedActive (cvCurrentTurn c) (cvTotalTokens c)
    (cvCost c) (cvCreatedAt c) None.

(** The columns [Continue] writes. *)
Definition with_max_turns (p c : Conversation) : Conversation :=
  mkConversation (cvID c) (cvAgentA c) (cvAgentB c) (cvTopic c) (cvMaxTurns p) (cvTurnDelayMs c)
    (cvAllowInjection c) (cvStopPhrases c) (cvStatus p) (cvCurrentTurn c) (cvTotalTokens c) (cvCost c)
    (cvCreatedAt c) None.

(** The second half: the row, and a goroutine that [runConversationContinued] *)
Definition continue_commit (id : string) (additionalTurns : Z) (c0 : Conversation) (lastContent : string)
    (o : Orchestrator) : result PairedError unit * Orchestrator :=
  let c := continued additionalTurns c0 in
  if peFails env QContinueRow || negb (fits_int4 (cvMaxTurns c)) then (Err (PairedQueryFailed QContinueRow), o)
  else
    let o := set_conversations o (alter (with_max_turns c) (cvID c) (orRows o)) in
    let s := if Z.even (cvCurrentTurn c) then new_session c (cvAgentA c) (cvAgentB c) lastContent
             else new_session c (cvAgentB c) (cvAgentA c) lastContent in
    (Ok tt, spawn o s).

(** [Continue] *)
Definition Continue (id : string) (additionalTurns : Z) (o : Orchestrator)
    : result PairedError unit * Orchestrator :=
  match continue_check id additionalTurns o with
  | inr e => (Err e, o)
  | inl (c, lastContent) => continue_commit id additionalTurns c lastContent o
  end.

Definition with_agents (a b : string) (c : Conversation) : Conversation :=
  mkConversation (cvID c) a b (cvTopic c) (cvMaxTurns c) (cvTurnDelayMs c) (cvAllowInjection c)
    (cvStopPhrases c) (cvStatus c) (cvCurrentTurn c) (cvTotalTokens c) (cvCost c) (cvCreatedAt c) (cvCompletedAt c).

(** [UpdateAgents] *)
Definition UpdateAgents (id a b : string) (o : Orchestrator) : result PairedError unit * Orchestrator :=
  if bool_decide (a = EmptyString) || bool_decide (b = EmptyString) then (Err AgentsRequired, o)
  else if bool_decide (a = b) then (Err SameAgent, o)
  else match getConversation false id o with
  | inr e => (Err e, o)
  | inl c =>
    if bool_decide (cvStatus c = PairedActive) || bool_decide (cvStatus c = PairedPaused)
    then (Err (WrongStatus (cvStatus c)), o)
    else if bool_decide (is_Some (orActive o !! id)) then (Err StillActive, o)
    else if negb (agent_exists false a) then (Err (PairedAgentMissing a), o)
    else if negb (agent_exists false b) then (Err (PairedAgentMissing b), o)
    else if peFails env QAgentsRow then (Err (PairedQueryFailed QAgentsRow), o)
    else (Ok tt, set_conversations o (alter (with_agents a b) id (orRows o)))
  end.

(** [ListActive] *)
Definition ListActive (o : Orchestrator) : list Conversation :=
  omap (fun h => ssConv <$> orSessions o !! h) (map snd (map_to_list (orActive o))).

(** * Events *)

Inductive PairedEvent : Type :=
| EvStart (id : string) (c : Conversation)
| EvPause (id : string)
| EvResume (id : string)
| EvStop (id : string)
| EvDelete (id : string)
| EvInject (id message : string)
| EvContinue (id : string) (additionalTurns : Z)
| EvUpdateAgents (id a b : string)
| EvWatch (id : string)
| EvBus (m : InternalMessage)                 (* another sender of the bus *)
| EvCancel (h : nat)                          (* the timeout, or the end of the caller's context *)
| EvBegin (h : nat)
| EvHead (h : nat)
| EvResumeWake (h : nat)
| EvWake (h : nat)
| EvDelayDone (h : nat)
| EvCancelWake (h : nat)
| EvLeave (h : nat).

(** What a goroutine does when it is scheduled for an event; nothing if it is elsewhere. *)
Definition session_event (ev : PairedEvent) (h : nat) (s : Session) (o : Orchestrator) : Orchestrator :=
  match ev, ssPhase s with
  | EvCancel _, _ => put_session o h (cancelled s)
  | EvBegin _, Spawned => begin h s o
  | EvHead _, AtHead => head_turn h s o
  | EvResumeWake _, PauseWait => if ssResume s then resume_turn h s o else o
  | EvWake _, AwaitAnswer injectedBy => wake injectedBy h s o
  | EvDelayDone _, Delayed answer => put_session o h (next_turn s answer)
  | EvCancelWake _, PauseWait =>
    if ssCancelled s then finish false PairedStopped "paused and cancelled" h s o else o
  | EvCancelWake _, AwaitAnswer _ =>
    if ssCancelled s then finish false PairedStopped "wait response failed" h s o else o
  | EvCancelWake _, Delayed _ =>
    if ssCancelled s then finish false PairedStopped "conversation cancelled" h s o else o
  | EvLeave _, Ending => leave h s o
  | _, _ => o
  end.

Definition event_session (ev : PairedEvent) : option nat :=
  match ev with
  | EvCancel h | EvBegin h | EvHead h | EvResumeWake h | EvWake h | EvDelayDone h | EvCancelWake h
  | EvLeave h => Some h
  | _ => None
  end.

Definition paired_step (ev : PairedEvent) (o : Orchestrator) : Orchestrator :=
  match ev with
  | EvStart id c => (Start id c o).2
  | EvPause id => (Pause id o).2
  | EvResume id => (Resume id o).2
  | EvStop id => (Stop id o).2
  | EvDelete id => (Delete id o).2
  | EvInject id message => (Inject id message o).2
  | EvContinue id n => (Continue id n o).2
  | EvUpdateAgents id a b => (UpdateAgents id a b o).2
  | EvWatch id => set_watchers o (orWatchers o ++ [mkWatcher id []])
  | EvBus m => set_bus o (Send (succeeds false QPersistSend) (peNow env) (peMessageID env) m (orBus o)).2
  | _ => match event_session ev with
         | Some h => match orSessions o !! h with Some s => session_event ev h s o | None => o end
         | None => o
         end
  end.
End orchestrator.

(** A run: every event with what the rest of the system answers during it. *)
Definition paired_run `{UnicodeCase} (l : list (PairedEnv * PairedEvent)) (o : Orchestrator) : Orchestrator :=
  foldl (fun o x => paired_step x.1 x.2 o) o l.

(** * Examples *)

Definition plain_env (now : Z) (id : string) : PairedEnv :=
  mkPairedEnv (fun _ => false) (fun _ => Some zero_limits) None (mkSpendingDB [] ∅ [] [] []) (fun _ => false)
    (fun t => t) (fun t => t) now id.

Definition talk (turns : Z) : Conversation :=
  mkConversation "c1" "ann" "bob" "hello" turns 0 true ["goodbye"] PairedActive 0 0 f64_zero 0 None.

Definition answer (from to content : string) : InternalMessage :=
  mkInternalMessage EmptyString from to content MessageTypeResult MessagePriorityNormal [] 0.

Definition now_run (l : list PairedEvent) : Orchestrator :=
  @paired_run ascii_case (map (fun ev => (plain_env 1000 "m", ev)) l) (NewPairedOrchestrator (NewBus [] [])).

(** Two rounds of two turns each. *)
Example two_rounds :
  let o := now_run
    [EvStart "x" (talk 1); EvBegin 0; EvHead 0; EvBus (answer "ann" "bob" "hi bob"); EvWake 0; EvHead 0;
     EvBus (answer "bob" "ann" "hi ann"); EvWake 0; EvLeave 0] in
  map (fun m => (pmTurn m, pmAgentID m, pmContent m, pmTokens m)) (messages_of "c1" o) =
    [(1, "ann", "hi bob", 1); (2, "bob", "hi ann", 1)] /\
  (fun c => (cvStatus c, cvCurrentTurn c, cvTotalTokens c)) <$> orRows o !! "c1" = Some (PairedCompleted, 2, 2) /\
  orActive o = ∅.
Proof. vm_compute. done. Qed.
