(* ===== verification/PairedTurns.v ===== *)
(** What holds of the paired conversations of [Paired]: turns are bounded, and a
    transcript is the numbered alternation of its two agents with the totals of its row. *)

From Stdlib Require Import SpecFloat.
From S2P Require Import Prelude GoString GoFloat Types Spending Teams TeamBus Paired.
#[local] Open Scope Z_scope.

(** * What an event does *)

(** The columns a turn depends on, without the status. *)
Definition core (c : Conversation) : string * Z * Z * Z * float64 :=
  (cvID c, cvMaxTurns c, cvCurrentTurn c, cvTotalTokens c, cvCost c).

Definition agents (c : Conversation) : string * string := (cvAgentA c, cvAgentB c).

Definition full (c : Conversation) : string * Z * Z * Z * float64 * (string * string) := (core c, agents c).

Definition running (p : SessionPhase) : bool :=
  match p with Ending | Ended => false | _ => true end.

(** Who speaks next, and to whom: during the delay the names have not changed places yet. *)
Definition upcoming (s : Session) : string * string :=
  match ssPhase s with Delayed _ => (ssRecipient s, ssSpeaker s) | _ => (ssSpeaker s, ssRecipient s) end.

(** The row after a turn. *)
Definition recorded_row (c : Conversation) (m : PairedMessage) : string * Z * Z * Z * float64 * (string * string) :=
  (cvID c, cvMaxTurns c, pmTurn m, wrap64 (cvTotalTokens c + pmTokens m), f64_add (cvCost c) (pmCost m), agents c).

(** A goroutine's event either leaves the transcript and the progress alone, or records
    the next turn. *)
Inductive session_effect (h : nat) (s : Session) (o o' : Orchestrator) : Prop :=
| effect_quiet s' :
    orMessages o' = orMessages o ->
    (forall id, full <$> orRows o' !! id = full <$> orRows o !! id) ->
    orSessions o' = <[h := s']> (orSessions o) -> orNext o' = orNext o -> orActive o' ⊆ orActive o ->
    ssID s' = ssID s -> cvID (ssConv s') = cvID (ssConv s) -> (ssCancelled s = true -> ssCancelled s' = true) ->
    (ssPhase s = Ended -> ssPhase s' = Ended) ->
    (ssPhase s' = Ended -> ssPhase s = Ended \/ orActive o' !! ssID s = None) ->
    (running (ssPhase s') = true -> running (ssPhase s) = true /\ upcoming s' = upcoming s /\
       (full (ssConv s') = full (ssConv s) \/ full <$> orRows o !! cvID (ssConv s) = Some (full (ssConv s')))) ->
    session_effect h s o o'
| effect_record s' m :
    ssCancelled s = false -> running (ssPhase s) = true ->
    is_Some (orRows o !! cvID (ssConv s)) ->
    pmTurn m = cvCurrentTurn (ssConv s) + 1 -> pmAgentID m = (upcoming s).1 -> fits_int4 (pmTokens m) = true ->
    orMessages o' = orMessages o ++ [(cvID (ssConv s), m)] ->
    orSessions o' = <[h := s']> (orSessions o) -> orNext o' = orNext o -> orActive o' ⊆ orActive o ->
    ssID s' = ssID s -> cvID (ssConv s') = cvID (ssConv s) -> ssCancelled s' = false -> ssPhase s' <> Ended ->
    ((running (ssPhase s') = false /\ forall id, full <$> orRows o' !! id = full <$> orRows o !! id) \/
     ((forall id, id <> cvID (ssConv s) -> full <$> orRows o' !! id = full <$> orRows o !! id) /\
      fits_int4 (wrap64 (cvTotalTokens (ssConv s) + pmTokens m)) = true /\
      forall c, orRows o !! cvID (ssConv s) = Some c ->
        full <$> orRows o' !! cvID (ssConv s) =
          Some (cvID c, cvMaxTurns c, pmTurn m, wrap64 (cvTotalTokens (ssConv s) + pmTokens m),
                f64_add (cvCost (ssConv s)) (pmCost m), agents c) /\
        (running (ssPhase s') = true ->
           Some (full (ssConv s')) = full <$> orRows o' !! cvID (ssConv s) /\
           pmTurn m < wrap64 (cvMaxTurns c * 2) /\ upcoming s' = ((upcoming s).2, (upcoming s).1)))) ->
    session_effect h s o o'.

Section effects.
Context `{UnicodeCase} (env : PairedEnv).

(** Rows are kept under their identifiers. *)
Definition keyed (o : Orchestrator) : Prop := forall id c, orRows o !! id = Some c -> cvID c = id.

(** What the helpers keep. *)
Record same_tables (o o' : Orchestrator) : Prop := {
  st_messages : orMessages o' = orMessages o;
  st_sessions : orSessions o' = orSessions o;
  st_next : orNext o' = orNext o;
  st_active : orActive o' ⊆ orActive o;
  st_rows : forall id, full <$> orRows o' !! id = full <$> orRows o !! id;
}.

Lemma set_status_tables done id st t o :
  same_tables o (setConversationStatus env done id st t o).2.
Proof.
  unfold setConversationStatus. destruct (negb _); [done|]. split; simpl; [done..|].
  intros i. destruct (decide (i = id)) as [->|Hne]; [rewrite lookup_alter_eq|by rewrite lookup_alter_ne by congruence].
  by destruct (orRows o !! id).
Qed.

Lemma set_status_row done id st t o c o' :
  setConversationStatus env done id st t o = (Ok c, o') ->
  orRows o' !! id = Some c /\ full <$> orRows o !! id = Some (full c) /\ (keyed o -> cvID c = id).
Proof.
  unfold setConversationStatus. destruct (negb _); [by intros [=]|]. unfold getConversation. simpl.
  destruct (negb _); [by intros [=]|]. rewrite lookup_alter_eq.
  destruct (orRows o !! id) as [c0|] eqn:E; simpl; intros [= <- <-]. simpl.
  rewrite lookup_alter_eq, E. split_and!; [done..|]. intros Hk. by apply (Hk id c0).
Qed.

Lemma complete_tables done id st reason o : same_tables o (completeWithStatus env done id st reason o).
Proof.
  unfold completeWithStatus. pose proof (set_status_tables done id st (Some (peNow env)) o) as Ht.
  destruct (setConversationStatus _ _ _ _ _ _) as [[c|e] o1]; destruct Ht; by split.
Qed.

(** A session and a state on the way from [s] and [o], before anything was recorded. *)
Record on_the_way (s : Session) (o : Orchestrator) (s1 : Session) (o1 : Orchestrator) : Prop := {
  ow_tables : same_tables o o1;
  ow_id : ssID s1 = ssID s;
  ow_conv_id : cvID (ssConv s1) = cvID (ssConv s);
  ow_cancelled : ssCancelled s1 = ssCancelled s;
  ow_running : running (ssPhase s) = true;
  ow_upcoming : (ssSpeaker s1, ssRecipient s1) = upcoming s;
  ow_conv : full (ssConv s1) = full (ssConv s) \/ full <$> orRows o !! cvID (ssConv s) = Some (full (ssConv s1));
}.

Lemma way_start s o :
  running (ssPhase s) = true -> (forall a, ssPhase s <> Delayed a) -> on_the_way s o s o.
Proof.
  intros Hr Hd. split; try done; [|by left]. unfold upcoming. destruct (ssPhase s) as [| | | |a| |] eqn:E; try done. by destruct (Hd a).
Qed.

Lemma way_effect s o s1 o1 h o2 s2 :
  on_the_way s o s1 o1 -> same_tables o1 o2 -> ssID s2 = ssID s1 -> ssConv s2 = ssConv s1 ->
  ssCancelled s2 = ssCancelled s1 -> ssPhase s2 <> Ended ->
  (running (ssPhase s2) = true -> upcoming s2 = (ssSpeaker s1, ssRecipient s1)) ->
  session_effect h s o (put_session o2 h s2).
Proof.
  intros [[Hm Hs Hn Ha Hr] Hid Hcid Hc Hrun Hup Hconv] [Hm2 Hs2 Hn2 Ha2 Hr2] Hi2 Hc2 Hca2 Hne2 Hu2.
  apply (effect_quiet _ _ _ _ s2); simpl.
  - congruence.
  - intros id. by rewrite Hr2.
  - congruence.
  - congruence.
  - by etransitivity.
  - congruence.
  - congruence.
  - congruence.
  - intros E. by rewrite E in Hrun.
  - done.
  - intros Hrun2. split; [done|]. split; [rewrite Hu2 by done; congruence|]. by rewrite Hc2.
Qed.

Lemma finish_effect done st reason s o s1 o1 h :
  on_the_way s o s1 o1 -> session_effect h s o (finish env done st reason h s1 o1).
Proof.
  intros Hw. unfold finish. eapply way_effect; [done|apply complete_tables|done..|]. by intros [=].
Qed.

Lemma with_inject_way s o s1 o1 l p : on_the_way s o s1 o1 -> on_the_way s o (with_inject s1 l p) o1.
Proof. by intros []. Qed.

Lemma send_turn_effect s o s1 o1 h : on_the_way s o s1 o1 -> session_effect h s o (send_turn env h s1 o1).
Proof.
  intros Hw. unfold send_turn. simpl. destruct (shouldStopForSafety _ _ _) as [reason|].
  { by apply finish_effect, with_inject_way. }
  destruct (paired_outbound _) as [toSend injectedBy]. unfold Send.
  destruct (succeeds _ _ _).
  - eapply way_effect; [exact Hw|by split|done..].
  - apply finish_effect, with_inject_way, with_inject_way, Hw.
Qed.

Lemma head_effect s o h : keyed o -> ssPhase s = AtHead -> session_effect h s o (head_turn env h s o).
Proof.
  intros Hk Hp. assert (on_the_way s o s o) as Hw by (apply way_start; rewrite Hp; done).
  unfold head_turn. destruct (ssPause s); [|by apply send_turn_effect]. simpl.
  pose proof (set_status_tables (ssCancelled s) (cvID (ssConv s)) PairedPaused None o) as Ht.
  destruct (setConversationStatus _ _ _ _ _ _) as [[c|e] o1] eqn:E.
  - apply set_status_row in E as (Hc & Hf & Hi).
    apply (effect_quiet _ _ _ _ (with_conv (with_phase (with_tokens s false (ssResume s)) PauseWait) c)); simpl;
      try done; try apply Ht.
    + f_equal. apply Ht.
    + by apply Hi.
    + by rewrite Hp.
    + intros _. rewrite Hp. split; [done|]. split; [|by right]. unfold upcoming. by rewrite Hp.
  - eapply way_effect; [exact Hw|exact Ht|done..].
Qed.

Lemma resume_effect s o h : keyed o -> ssPhase s = PauseWait -> session_effect h s o (resume_turn env h s o).
Proof.
  intros Hk Hp. assert (on_the_way s o s o) as Hw by (apply way_start; rewrite Hp; done).
  unfold resume_turn. simpl.
  pose proof (set_status_tables false (cvID (ssConv s)) PairedActive None o) as Ht.
  destruct (setConversationStatus _ _ _ _ _ _) as [[c|e] o1] eqn:E; apply send_turn_effect; destruct Hw, Ht.
  - apply set_status_row in E as (Hc & Hf & Hi). split; simpl; auto; by split.
  - split; simpl; auto; by split.
Qed.

Lemma insert_message_cases done id m o :
  (exists c, done = false /\ orRows o !! id = Some c /\ fits_int4 (pmTokens m) = true /\
     insertMessage env done id m o = (true, set_messages o (orMessages o ++ [(id, m)]))) \/
  insertMessage env done id m o = (false, o).
Proof.
  unfold insertMessage, succeeds. destruct (_ && _) eqn:E; [left|by right].
  destruct done; [done|]. simpl in E. to_prop.
  match goal with H : is_Some _ |- _ => destruct H as [c Hc] end. by exists c.
Qed.

Lemma progress_cases done c o :
  (exists e, updateConversationProgress env done c o = (Err e, o)) \/
  (fits_int4 (cvTotalTokens c) = true /\
   let o' := set_conversations o (alter (with_progress c) (cvID c) (orRows o)) in
   updateConversationProgress env done c o = (getConversation env done (cvID c) o', o')).
Proof.
  unfold updateConversationProgress. destruct (negb _) eqn:E; [left; by eexists|right]. to_prop. done.
Qed.

(** A turn that is stopped after its message was inserted. *)
Lemma finish_recorded h s o s1 o1 m done st reason :
  ssCancelled s = false -> running (ssPhase s) = true -> is_Some (orRows o !! cvID (ssConv s)) ->
  pmTurn m = cvCurrentTurn (ssConv s) + 1 -> pmAgentID m = (upcoming s).1 -> fits_int4 (pmTokens m) = true ->
  orMessages o1 = orMessages o ++ [(cvID (ssConv s), m)] -> orSessions o1 = orSessions o -> orNext o1 = orNext o -> orActive o1 ⊆ orActive o ->
  ssID s1 = ssID s -> cvID (ssConv s1) = cvID (ssConv s) -> ssCancelled s1 = false ->
  ((forall id, full <$> orRows o1 !! id = full <$> orRows o !! id) \/
   ((forall id, id <> cvID (ssConv s) -> full <$> orRows o1 !! id = full <$> orRows o !! id) /\
    fits_int4 (wrap64 (cvTotalTokens (ssConv s) + pmTokens m)) = true /\
    forall c, orRows o !! cvID (ssConv s) = Some c ->
      full <$> orRows o1 !! cvID (ssConv s) =
        Some (cvID c, cvMaxTurns c, pmTurn m, wrap64 (cvTotalTokens (ssConv s) + pmTokens m),
              f64_add (cvCost (ssConv s)) (pmCost m), agents c))) ->
  session_effect h s o (finish env done st reason h s1 o1).
Proof.
  intros Hc Hrun Hrow Ht Ha Hf Hm Hs Hn Hact Hi Hci Hc1 Hrows. unfold finish.
  destruct (complete_tables done (cvID (ssConv s1)) st reason o1) as [Hm2 Hs2 Hn2 Ha2 Hr2].
  apply (effect_record _ _ _ _ (with_phase s1 Ending) m); simpl; try done; try congruence; [by etransitivity|].
  destruct Hrows as [Hrows|(Hother & Hfit & Hrows)]; [left|right].
  - split; [done|]. intros id. by rewrite Hr2.
  - split; [intros id Hne; rewrite Hr2; auto|]. split; [done|]. intros c Hcc. rewrite Hr2. split; [by apply Hrows|done].
Qed.

Lemma record_effect injectedBy h s o :
  keyed o -> ssPhase s = AwaitAnswer injectedBy -> forall content,
  session_effect h s o (record_turn env injectedBy content h s o).
Proof.
  intros Hk Hp content. assert (on_the_way s o s o) as Hw by (apply way_start; rewrite Hp; done).
  unfold record_turn. destruct (resolveUsageDelta _ _ _ _) as [[delta cost] seen]. simpl.
  set (tokens := if delta <=? 0 then _ else delta). set (m := mkPairedMessage _ _ _ _ _ _ _).
  destruct (insert_message_cases (ssCancelled s) (cvID (ssConv s)) m o) as [(c & Hc & Hrow & Hfit & ->)| ->].
  2:{ apply finish_effect. by destruct Hw. }
  assert ((upcoming s) = (ssSpeaker s, ssRecipient s)) as Hup by by unfold upcoming; rewrite Hp.
  assert (running (ssPhase s) = true) as Hrun by by rewrite Hp.
  set (c1 := progress (ssConv s) tokens cost). rewrite Hc.
  destruct (progress_cases false c1 (set_messages o (orMessages o ++ [(cvID (ssConv s), m)]))) as [[e ->]|[Hfit2 ->]].
  { apply (finish_recorded _ _ _ _ _ m); simpl; try done; [by rewrite Hup|by left]. }
  set (o1 := set_conversations _ _).
  assert (forall id, id <> cvID (ssConv s) -> full <$> orRows o1 !! id = full <$> orRows o !! id) as Hother.
  { intros id Hne. simpl. by rewrite lookup_alter_ne by congruence. }
  assert (orRows o1 !! cvID (ssConv s) = Some (with_progress c1 c)) as Hrow1.
  { simpl. by rewrite lookup_alter_eq, Hrow. }
  assert (forall c0, orRows o !! cvID (ssConv s) = Some c0 -> full <$> orRows o1 !! cvID (ssConv s) =
    Some (cvID c0, cvMaxTurns c0, pmTurn m, wrap64 (cvTotalTokens (ssConv s) + pmTokens m),
          f64_add (cvCost (ssConv s)) (pmCost m), agents c0)) as Hrows.
  { intros c0. rewrite Hrow. intros [= <-]. rewrite Hrow1. done. }
  unfold getConversation. destruct (negb _).
  { apply (finish_recorded _ _ _ _ _ m); try done; [by rewrite Hup|by right]. }
  change (cvID c1) with (cvID (ssConv s)). rewrite Hrow1. unfold Ok. cbv beta iota zeta.
  assert (cvID (with_progress c1 c) = cvID (ssConv s)) as Hcid by by apply (Hk _ _ Hrow).
  destruct (containsStopPhrase _ _); [|destruct (Z.leb_spec (wrap64 (cvMaxTurns (with_progress c1 c) * 2))
    (cvCurrentTurn (with_progress c1 c))) as [Hle|Hlt]].
  1,2: apply (finish_recorded _ _ _ _ _ m); try done; [by rewrite Hup|by right].
  destruct (0 <? _).
  - eapply (effect_record _ _ _ _ _ m); try done; [by rewrite Hup|]. right. split; [done|]. split; [done|].
    intros c0 Hc0. split; [by apply Hrows|]. intros _. split; [transitivity (full <$> orRows o1 !! cvID (ssConv s)); [by rewrite Hrow1|done]|].
    rewrite Hrow in Hc0. injection Hc0 as <-. split; [done|]. by rewrite Hup.
  - eapply (effect_record _ _ _ _ _ m); try done; [by rewrite Hup|]. right. split; [done|]. split; [done|].
    intros c0 Hc0. split; [by apply Hrows|]. intros _. split; [transitivity (full <$> orRows o1 !! cvID (ssConv s)); [by rewrite Hrow1|done]|].
    rewrite Hrow in Hc0. injection Hc0 as <-. split; [done|]. by rewrite Hup.
Qed.

Lemma effect_bus h s o b o' : session_effect h s (set_bus o b) o' -> session_effect h s o o'.
Proof. intros []; [eapply effect_quiet|eapply effect_record]; eauto. Qed.

Lemma effect_none h s o : orSessions o !! h = Some s -> session_effect h s o o.
Proof. intros Hs. apply (effect_quiet _ _ _ _ s); try done; [by rewrite insert_id|intros; auto..]. Qed.

Lemma wake_effect injectedBy h s o :
  keyed o -> orSessions o !! h = Some s -> ssPhase s = AwaitAnswer injectedBy ->
  session_effect h s o (wake env injectedBy h s o).
Proof.
  intros Hk Hs Hp. unfold wake. destruct (waitForResult _ _ _) as [[m|] rest].
  - eapply effect_bus. by apply record_effect.
  - eapply effect_bus. by apply effect_none.
Qed.

Lemma session_event_effect ev h s o :
  keyed o -> orSessions o !! h = Some s -> session_effect h s o (session_event env ev h s o).
Proof.
  intros Hk Hs. pose proof (effect_none h s o Hs) as Hnone. unfold session_event.
  assert (forall o1 s1, same_tables o o1 -> ssID s1 = ssID s -> ssConv s1 = ssConv s ->
    (ssCancelled s = true -> ssCancelled s1 = true) -> (ssPhase s = Ended -> ssPhase s1 = Ended) ->
    (ssPhase s1 = Ended -> ssPhase s = Ended \/ orActive o1 !! ssID s = None) ->
    (running (ssPhase s1) = true -> running (ssPhase s) = true /\ upcoming s1 = upcoming s) ->
    session_effect h s o (put_session o1 h s1)) as Hput.
  { intros o1 s1 [] Hi Hc Hca He He' Hu. apply (effect_quiet _ _ _ _ s1); simpl; try congruence; try done.
    intros Hr. destruct (Hu Hr). rewrite Hc. auto. }
  assert (forall reason, running (ssPhase s) = true ->
    session_effect h s o (finish env false PairedStopped reason h s o)) as Hfin.
  { intros reason Hr. apply Hput; try done; [apply complete_tables|]. intros E. by rewrite E in Hr. }
  destruct ev; try done.
  - apply Hput; try done; intros; auto.
  - destruct (ssPhase s) eqn:Hp; try done. unfold begin.
    apply Hput; try done. intros _. unfold upcoming. by rewrite ?Hp.
  - destruct (ssPhase s) eqn:Hp; try done. by apply head_effect.
  - destruct (ssPhase s) eqn:Hp; try done. destruct (ssResume s); [by apply resume_effect|done].
  - destruct (ssPhase s) eqn:Hp; try done. by apply wake_effect.
  - destruct (ssPhase s) eqn:Hp; try done. apply Hput; try done. intros _. unfold upcoming. by rewrite ?Hp.
  - destruct (ssPhase s) eqn:Hp; try done; (destruct (ssCancelled s); [apply Hfin; by rewrite ?Hp|done]).
  - destruct (ssPhase s) eqn:Hp; try done. unfold leave.
    apply Hput; try done.
    + split; try done. apply delete_subseteq.
    + right. apply lookup_delete_eq.
Qed.
End effects.

(** * Turns are bounded *)

Record paired_wf (o : Orchestrator) : Prop := {
  pw_keyed : keyed o;
  pw_rows : forall id c, orRows o !! id = Some c ->
    1 <= cvMaxTurns c < 2 ^ 31 /\ 0 <= cvCurrentTurn c <= 2 * cvMaxTurns c;
  pw_sessions : forall h s, orSessions o !! h = Some s -> (h < orNext o)%nat /\ cvID (ssConv s) = ssID s;
  pw_running : forall h s, orSessions o !! h = Some s -> running (ssPhase s) = true ->
    0 <= cvCurrentTurn (ssConv s) < 2 * cvMaxTurns (ssConv s) /\
    forall c, orRows o !! ssID s = Some c -> core (ssConv s) = core c;
  pw_single : forall h h' s s', orSessions o !! h = Some s -> orSessions o !! h' = Some s' ->
    ssID s = ssID s' -> ssPhase s <> Ended -> ssPhase s' <> Ended -> h = h';
  pw_active : forall id h, orActive o !! id = Some h -> exists s, orSessions o !! h = Some s /\ ssID s = id;
  pw_messages : forall id m, (id, m) ∈ orMessages o ->
    exists c, orRows o !! id = Some c /\ 1 <= pmTurn m <= 2 * cvMaxTurns c;
}.

Lemma full_core c c' : full c = full c' -> core c = core c'.
Proof. intros E. exact (f_equal fst E). Qed.

Lemma full_row (r r' : option Conversation) : full <$> r' = full <$> r ->
  match r', r with Some c', Some c => full c' = full c | None, None => True | _, _ => False end.
Proof. destruct r, r'; simpl; try done. by intros E%(inj Some). Qed.

Ltac row_of H id :=
  let Hr := fresh "Hr" in pose proof (full_row _ _ (H id)) as Hr.

Lemma tables_wf o o' : same_tables o o' -> paired_wf o -> paired_wf o'.
Proof.
  intros [Hm Hs Hn Ha Hr] [H1 H2 H3 H4 H5 HA H6].
  assert (forall id c', orRows o' !! id = Some c' -> exists c, orRows o !! id = Some c /\ full c' = full c) as Hback.
  { intros id c' Hc. row_of Hr id. rewrite Hc in Hr0. destruct (orRows o !! id) as [c|]; [|done]. eauto. }
  split; rewrite ?Hs, ?Hn, ?Hm.
  - intros id c' (c & Hc & Hf)%Hback. injection Hf as E. rewrite E. by apply H1.
  - intros id c' (c & Hc & Hf)%Hback. apply H2 in Hc. injection Hf as _ E1 E2. by rewrite E1, E2.
  - done.
  - intros h s Hh Hrun. destruct (H4 h s Hh Hrun) as [Hb Hc]. split; [done|].
    intros c' (c & Hcc & Hf)%Hback. rewrite (Hc c Hcc). by apply full_core.
  - done.
  - intros id h Hh. apply HA. by eapply lookup_weaken.
  - intros id m Hin. destruct (H6 id m Hin) as (c & Hc & Hb). row_of Hr id. rewrite Hc in Hr0.
    destruct (orRows o' !! id) as [c'|]; [|done]. exists c'. split; [done|]. injection Hr0 as _ E. by rewrite E.
Qed.

Lemma put_wf o h s s' :
  paired_wf o -> orSessions o !! h = Some s -> ssID s' = ssID s -> cvID (ssConv s') = cvID (ssConv s) ->
  (ssPhase s = Ended -> ssPhase s' = Ended) ->
  (running (ssPhase s') = true -> running (ssPhase s) = true /\
     (core (ssConv s') = core (ssConv s) \/ core <$> orRows o !! ssID s = Some (core (ssConv s')))) ->
  paired_wf (put_session o h s').
Proof.
  intros [H1 H2 H3 H4 H5 HA H6] Hs Hi Hc He Hrun. split; simpl; [done|done| | | | |done].
  - intros h1 s1. rewrite lookup_insert_Some. intros [[<- <-]|[_ Hs1]]; [|by apply H3].
    rewrite Hi, Hc. by apply H3.
  - intros h1 s1. rewrite lookup_insert_Some. intros [[<- <-]|[_ Hs1]]; [|by apply (H4 h1)]. intros Hr.
    destruct (Hrun Hr) as [Hr0 Hcore]. destruct (H4 h s Hs Hr0) as [Hb Hrow]. rewrite Hi.
    destruct Hcore as [E|E].
    + injection E as _ E1 E2 E3 E4. rewrite E1, E2. split; [done|]. intros c Hcc. rewrite <- (Hrow c Hcc).
      unfold core. congruence.
    + destruct (orRows o !! ssID s) as [c0|] eqn:E0; [|done]. apply (inj Some) in E.
      split; [|by intros c [= <-]]. specialize (Hrow c0 eq_refl). unfold core in *. simplify_eq. lia.
  - intros h1 h2 s1 s2. rewrite !lookup_insert_Some.
    intros [[<- <-]|[Hn1 Hs1]] [[<- <-]|[Hn2 Hs2]] Eid P1 P2; [done| | |by eapply H5].
    + apply (H5 h h2 s s2); try done; [congruence|]. intros E. by apply P1, He.
    + apply (H5 h1 h s1 s); try done; [congruence|]. intros E. by apply P2, He.
  - intros id h1 Hh. destruct (HA id h1 Hh) as (s1 & Hs1 & E1). destruct (decide (h1 = h)) as [->|Hne].
    + exists s'. rewrite lookup_insert_eq. split; [done|congruence].
    + exists s1. by rewrite lookup_insert_ne.
Qed.

(** The states in between, so that one argument serves the tables and the session. *)
Lemma quiet_wf o o' h s s' :
  paired_wf o -> orSessions o !! h = Some s -> orMessages o' = orMessages o ->
  (forall id, full <$> orRows o' !! id = full <$> orRows o !! id) ->
  orSessions o' = <[h := s']> (orSessions o) -> orNext o' = orNext o -> orActive o' ⊆ orActive o ->
  ssID s' = ssID s -> cvID (ssConv s') = cvID (ssConv s) -> (ssPhase s = Ended -> ssPhase s' = Ended) ->
  (running (ssPhase s') = true -> running (ssPhase s) = true /\
     (full (ssConv s') = full (ssConv s) \/ full <$> orRows o !! cvID (ssConv s) = Some (full (ssConv s')))) ->
  paired_wf o'.
Proof.
  intros Hwf Hs Hm Hr Hs' Hn Hact Hi Hc He Hrun. apply (tables_wf (put_session o h s')); [by split|].
  eapply put_wf; [done..|]. intros Hr'. destruct (Hrun Hr') as [Hr0 Hcore]. split; [done|].
  rewrite <- (proj2 (pw_sessions o Hwf h s Hs)). destruct Hcore as [E|E]; [left; by apply full_core|right].
  destruct (orRows o !! cvID (ssConv s)) as [c|]; [|done]. simpl in *. f_equal. apply (inj Some) in E. by apply full_core.
Qed.

Lemma record_wf o o' h s s' m :
  paired_wf o -> orSessions o !! h = Some s -> running (ssPhase s) = true ->
  is_Some (orRows o !! ssID s) -> pmTurn m = cvCurrentTurn (ssConv s) + 1 ->
  orMessages o' = orMessages o ++ [(ssID s, m)] ->
  orSessions o' = <[h := s']> (orSessions o) -> orNext o' = orNext o -> orActive o' ⊆ orActive o ->
  ssID s' = ssID s -> cvID (ssConv s') = cvID (ssConv s) ->
  (forall id, id <> ssID s -> full <$> orRows o' !! id = full <$> orRows o !! id) ->
  (forall c, orRows o !! ssID s = Some c -> exists c', orRows o' !! ssID s = Some c' /\ cvID c' = cvID c /\
     cvMaxTurns c' = cvMaxTurns c /\ (cvCurrentTurn c' = cvCurrentTurn c \/ cvCurrentTurn c' = pmTurn m) /\
     (running (ssPhase s') = true -> core (ssConv s') = core c' /\ pmTurn m < wrap64 (cvMaxTurns c * 2) /\
        cvCurrentTurn c' = pmTurn m)) ->
  paired_wf o'.
Proof.
  intros [H1 H2 H3 H4 H5 HA H6] Hs Hrun [c Hc] Ht Hm Hs' Hn Hact Hi Hci Hother Hrow.
  destruct (Hrow c Hc) as (c' & Hc' & Eid & Emax & Eturn & Hgo).
  destruct (H4 h s Hs Hrun) as [Hb Hcore]. specialize (Hcore c Hc). destruct (H2 _ _ Hc) as [Hmax Hturn].
  assert (cvMaxTurns (ssConv s) = cvMaxTurns c /\ cvCurrentTurn (ssConv s) = cvCurrentTurn c) as [Es1 Es2]
    by (unfold core in Hcore; by simplify_eq).
  assert (forall id c1, orRows o' !! id = Some c1 -> exists c0, orRows o !! id = Some c0 /\ cvID c1 = cvID c0 /\
    cvMaxTurns c1 = cvMaxTurns c0 /\ (id <> ssID s -> full c1 = full c0)) as Hback.
  { intros id c1 Hc1. destruct (decide (id = ssID s)) as [->|Hne]; [exists c; rewrite Hc1 in Hc'; injection Hc' as ->; by split_and!|].
    pose proof (full_row _ _ (Hother id Hne)) as Hr. rewrite Hc1 in Hr. destruct (orRows o !! id) as [c0|]; [|done].
    exists c0. pose proof (f_equal fst Hr) as Hr'. injection Hr' as E1 E2 _ _ _. auto. }
  split.
  - intros id c1 Hc1. destruct (Hback id c1 Hc1) as (c0 & Hc0 & -> & _). by apply H1.
  - intros id c1 Hc1. destruct (Hback id c1 Hc1) as (c0 & Hc0 & _ & E & Hf). destruct (H2 _ _ Hc0) as [Hm0 Ht0].
    rewrite E. split; [done|]. destruct (decide (id = ssID s)) as [->|Hne].
    + simplify_eq. destruct Eturn as [-> | ->]; lia.
    + injection (full_core _ _ (Hf Hne)) as _ _ -> _ _. lia.
  - intros h1 s1. rewrite Hs', Hn, lookup_insert_Some. intros [[<- <-]|[_ Hs1]]; [|by apply H3].
    rewrite Hi, Hci. by apply H3.
  - intros h1 s1. rewrite Hs', lookup_insert_Some. intros [[<- <-]|[Hne Hs1]] Hr1.
    + destruct (Hgo Hr1) as (Ecore & Hlt & Et). rewrite Hi. split; [|intros c1 Hc1; rewrite Hc' in Hc1; by injection Hc1 as <-].
      rewrite wrap64_id in Hlt by (unfold in_int64, min_int64, max_int64; lia). unfold core in Ecore. simplify_eq. lia.
    + destruct (H4 h1 s1 Hs1 Hr1) as [Hb1 Hc1]. split; [done|]. intros c1 Hcc1.
      assert (ssID s1 <> ssID s) as Hnid.
      { intros E. apply Hne. eapply H5; [done..|by symmetry| |]; intros Ep; [by rewrite Ep in Hrun|by rewrite Ep in Hr1]. }
      destruct (Hback _ _ Hcc1) as (c0 & Hc0 & _ & _ & Hf). rewrite (Hc1 _ Hc0). symmetry. by apply full_core, Hf.
  - intros h1 h2 s1 s2. rewrite Hs', !lookup_insert_Some.
    intros [[<- <-]|[Hn1 Hs1]] [[<- <-]|[Hn2 Hs2]] Ei P1 P2; [done| | |by eapply H5].
    + apply (H5 h h2 s s2); try done; [congruence|]. intros E. by rewrite E in Hrun.
    + apply (H5 h1 h s1 s); try done; [congruence|]. intros E. by rewrite E in Hrun.
  - intros id h1 Hh. destruct (HA id h1) as (s1 & Hs1 & E1); [by eapply lookup_weaken|]. rewrite Hs'.
    destruct (decide (h1 = h)) as [->|Hne]; [exists s'; rewrite lookup_insert_eq; split; [done|congruence]|].
    exists s1. by rewrite lookup_insert_ne.
  - intros id m1. rewrite Hm, elem_of_app, list_elem_of_singleton. intros [Hin|[= -> ->]].
    + destruct (H6 id m1 Hin) as (c0 & Hc0 & Hb0). destruct (decide (id = ssID s)) as [->|Hne].
      * exists c'. split; [done|]. simplify_eq. lia.
      * pose proof (full_row _ _ (Hother id Hne)) as Hr. rewrite Hc0 in Hr. destruct (orRows o' !! id) as [c1|]; [|done].
        exists c1. split; [done|]. by injection (full_core _ _ Hr) as _ -> _ _ _.
    + exists c'. split; [done|]. lia.
Qed.

Lemma effect_wf o o' h s :
  paired_wf o -> orSessions o !! h = Some s -> session_effect h s o o' -> paired_wf o'.
Proof.
  intros Hwf Hs [s' Hm Hr Hss Hn Hact Hi Hci _ He _ Hrun|s' m _ Hrun Hrow Ht _ _ Hm Hss Hn Hact Hi Hci _ _ Hcase].
  { eapply quiet_wf; [done..|]. intros Hr'. destruct (Hrun Hr') as (? & _ & ?). auto. }
  destruct (pw_sessions o Hwf h s Hs) as [_ Eid]. rewrite Eid in *.
  apply (record_wf o o' h s s' m); try done; [congruence| |].
  - intros id Hne. by destruct Hcase as [[_ Hrows]|[Hrows _]]; apply Hrows.
  - intros c Hc. destruct Hcase as [[Hnr Hrows]|(_ & _ & Hrows)].
    + pose proof (full_row _ _ (Hrows (ssID s))) as Hf. rewrite Hc in Hf. destruct (orRows o' !! ssID s) as [c'|]; [|done].
      exists c'. injection (full_core _ _ Hf) as -> -> -> _ _. split_and!; try done; [by left|]. by rewrite Hnr.
    + destruct (Hrows c Hc) as [Hf Hgo]. destruct (orRows o' !! ssID s) as [c'|]; [|done].
      exists c'. injection Hf as E1 E2 E3 E4 E5 E6 E7. split_and!; try done; [by right|]. intros Hr'.
      destruct (Hgo Hr') as (Ef & Hlt & _). split_and!; [|done..]. apply (inj Some) in Ef. by apply full_core.
Qed.

(** ** The calls *)

Lemma on_active_effect id f o :
  (forall s s', f s = Ok s' -> ssID s' = ssID s /\ ssConv s' = ssConv s /\ ssCancelled s' = ssCancelled s /\
     ssPhase s' = ssPhase s /\ upcoming s' = upcoming s) ->
  (on_active id f o).2 = o \/
  exists h s, orSessions o !! h = Some s /\ session_effect h s o (on_active id f o).2.
Proof.
  intros Hf. unfold on_active. destruct (orActive o !! id) as [h|]; [|by left].
  destruct (orSessions o !! h) as [s|] eqn:Hs; [|by left]. destruct (f s) as [s'|] eqn:E; [right|by left].
  destruct (Hf s s' E) as (E1 & E2 & E3 & E4 & E5). exists h, s. split; [done|].
  apply (effect_quiet _ _ _ _ s'); simpl; try done; try congruence; [intros; left; congruence|].
  rewrite E2, E4. intros Hr. auto.
Qed.

Lemma cancel_effect id o :
  same_tables o (cancel_active id o) \/
  exists h s, orSessions o !! h = Some s /\ session_effect h s o (cancel_active id o).
Proof.
  unfold cancel_active. destruct (orActive o !! id) as [h|]; [|by left]. simpl.
  destruct (orSessions o !! h) as [s|] eqn:Hs; [right|left; split; try done; apply delete_subseteq].
  exists h, s. split; [done|].
  apply (effect_quiet _ _ _ _ (cancelled s)); simpl; try done; [apply delete_subseteq|intros; auto..].
Qed.

Lemma cancel_wf id o : paired_wf o -> paired_wf (cancel_active id o).
Proof.
  intros Hwf. destruct (cancel_effect id o) as [Ht|(h & s & Hs & He)]; [by eapply tables_wf|by eapply effect_wf].
Qed.

Lemma on_active_wf id f o :
  (forall s s', f s = Ok s' -> ssID s' = ssID s /\ ssConv s' = ssConv s /\ ssCancelled s' = ssCancelled s /\
     ssPhase s' = ssPhase s /\ upcoming s' = upcoming s) ->
  paired_wf o -> paired_wf (on_active id f o).2.
Proof.
  intros Hf Hwf. destruct (on_active_effect id f o Hf) as [->|(h & s & Hs & He)]; [done|by eapply effect_wf].
Qed.

Lemma spawn_wf o s c :
  paired_wf o -> orRows o !! cvID c = Some c -> ssConv s = c -> ssID s = cvID c ->
  0 <= cvCurrentTurn c < 2 * cvMaxTurns c ->
  (forall h s', orSessions o !! h = Some s' -> ssID s' = cvID c -> ssPhase s' = Ended) ->
  paired_wf (spawn o s).
Proof.
  intros [H1 H2 H3 H4 H5 HA H6] Hrow Hc Hi Hb Hold.
  assert (forall h s', orSessions o !! h = Some s' -> h <> orNext o) as Hfresh.
  { intros h s' Hs' ->. apply H3 in Hs'. lia. }
  split; simpl; [done|done| | | | |done].
  - intros h s1. rewrite lookup_insert_Some. intros [[<- <-]|[_ Hs1]]; [split; [lia|congruence]|].
    apply H3 in Hs1 as [? ?]. split; [lia|done].
  - intros h s1. rewrite lookup_insert_Some. intros [[<- <-]|[_ Hs1]]; [|by apply (H4 h)].
    intros _. rewrite Hc. split; [done|]. rewrite Hi, Hrow. by intros c' [= <-].
  - intros h1 h2 s1 s2. rewrite !lookup_insert_Some.
    intros [[<- <-]|[Hn1 Hs1]] [[<- <-]|[Hn2 Hs2]] Ei P1 P2; [done| | |by eapply H5].
    + destruct P2. eapply Hold; [done|congruence].
    + destruct P1. eapply Hold; [done|congruence].
  - intros id h. rewrite lookup_insert_Some. intros [[<- <-]|[_ Hh]].
    + exists s. by rewrite lookup_insert_eq.
    + destruct (HA id h Hh) as (s1 & Hs1 & E1). exists s1. by rewrite lookup_insert_ne by (symmetry; by eapply Hfresh).
Qed.

Lemma rows_wf o r :
  paired_wf o -> 
  (forall id c, r !! id = Some c -> cvID c = id /\ 1 <= cvMaxTurns c < 2 ^ 31 /\ 0 <= cvCurrentTurn c <= 2 * cvMaxTurns c) ->
  (forall h s c, orSessions o !! h = Some s -> running (ssPhase s) = true -> r !! ssID s = Some c ->
     orRows o !! ssID s = Some c \/ exists c0, orRows o !! ssID s = Some c0 /\ core c = core c0) ->
  (forall id c, orRows o !! id = Some c -> exists c', r !! id = Some c' /\ cvMaxTurns c <= cvMaxTurns c') ->
  paired_wf (set_conversations o r).
Proof.
  intros [H1 H2 H3 H4 H5 HA H6] Hr Hs Hkeep. split; simpl; [| |done| |done|done|].
  - intros id c Hc. by apply Hr.
  - intros id c Hc. by apply (Hr id).
  - intros h s Hh Hrun. destruct (H4 h s Hh Hrun) as [Hb Hc]. split; [done|]. intros c Hcc.
    destruct (Hs h s c Hh Hrun Hcc) as [E|(c0 & E & ->)]; by apply Hc.
  - intros id m Hin. destruct (H6 id m Hin) as (c & Hc & Hb). destruct (Hkeep id c Hc) as (c' & Hc' & Hle).
    exists c'. split; [done|]. lia.
Qed.

(** A new conversation has an identifier of its own, and a conversation is continued when
    its goroutine has ended. *)
Definition no_session (id : string) (o : Orchestrator) : bool :=
  bool_decide (map_Forall (fun _ s => ssID s <> id) (orSessions o)).

Definition ended_phase (p : SessionPhase) : bool := match p with Ended => true | _ => false end.

Definition settled (id : string) (o : Orchestrator) : bool :=
  bool_decide (map_Forall (fun _ s => ssID s = id -> ended_phase (ssPhase s) = true) (orSessions o)).

Definition orderly (ev : PairedEvent) (o : Orchestrator) : bool :=
  match ev with
  | EvStart id c => no_session (or_default (cvID c) id) o
  | EvContinue id _ => settled id o
  | _ => true
  end.

Lemma fits_int4_spec z : fits_int4 z = true <-> - 2 ^ 31 <= z < 2 ^ 31.
Proof. unfold fits_int4. rewrite andb_true_iff, Z.leb_le, Z.ltb_lt. done. Qed.

(** Past a guard whose failure changes nothing. *)
Ltac pass_guard :=
  match goal with |- context [if ?b then _ else _] => destruct b eqn:?; [done|] end.
Ltac pass_in H :=
  match type of H with context [if ?b then _ else _] => destruct b eqn:?; [done|] end.

Section wf.
Context `{UnicodeCase}.

Fixpoint orderly_run (l : list (PairedEnv * PairedEvent)) (o : Orchestrator) : bool :=
  match l with
  | [] => true
  | (env, ev) :: l => orderly ev o && orderly_run l (paired_step env ev o)
  end.

Context (env : PairedEnv).

Lemma paired_start_wf id c o : paired_wf o -> no_session (or_default (cvID c) id) o = true -> paired_wf (Start env id c o).2.
Proof.
  intros Hwf Hno. unfold Start. do 5 pass_guard.
  unfold insertConversation. destruct (_ && _) eqn:E; [|done]. to_prop. cbn [snd].
  set (c1 := started env id c) in *.
  match goal with H : fits_int4 (cvMaxTurns c1) = true |- _ => rename H into Hfit end.
  assert (1 <= cvMaxTurns c1 < 2 ^ 31) as Hmax.
  { apply fits_int4_spec in Hfit. split; [|apply Hfit]. subst c1. simpl. destruct (Z.leb_spec (cvMaxTurns c) 0); lia. }
  apply bool_decide_eq_true in Hno.
  assert (orRows o !! cvID c1 = None) as Hnone by (by apply eq_None_not_Some).
  apply (spawn_wf _ _ c1); [|apply lookup_insert_eq|done|done|change (cvCurrentTurn c1) with 0; lia|].
  - apply rows_wf; [done|..].
    + intros i c'. rewrite lookup_insert_Some. intros [[<- <-]|[_ Hc']]; [change (cvCurrentTurn c1) with 0; split_and!; [done|lia..]|].
      split; [by apply (pw_keyed o Hwf)|by apply (pw_rows o Hwf i)].
    + intros h s c' Hs _. rewrite lookup_insert_ne; [by left|]. intros E. by apply (Hno h s Hs).
    + intros i c' Hc'. rewrite lookup_insert_ne by congruence. eauto with lia.
  - intros h s Hs E. by destruct (Hno h s Hs).
Qed.

Lemma continue_wf id n o : paired_wf o -> settled id o = true -> paired_wf (Continue env id n o).2.
Proof.
  intros Hwf Hset. apply bool_decide_eq_true in Hset. unfold Continue.
  destruct (continue_check env id n o) as [[c last]|] eqn:E; [|done]. unfold continue_check in E.
  destruct (Z.ltb_spec n 1) as [|Hn1]; [done|]. destruct (Z.ltb_spec 100 n) as [|Hn2]; [done|].
  unfold getConversation in E. destruct (negb _); [done|]. destruct (orRows o !! id) as [c0|] eqn:Hc; [|done]. simpl in E.
  do 5 pass_in E. injection E as <- <-.
  pose proof (pw_keyed o Hwf id c0 Hc) as Hid. destruct (pw_rows o Hwf id c0 Hc) as [Hmax Hturn].
  unfold continue_commit. destruct (_ || _) eqn:E; [done|]. to_prop. simpl.
  assert (wrap64 (cvMaxTurns c0 + n) = cvMaxTurns c0 + n) as Hwrap
    by (apply wrap64_id; unfold in_int64, min_int64, max_int64; lia).
  match goal with H : fits_int4 _ = true |- _ => rename H into Hfit end.
  simpl in Hfit. rewrite Hwrap in Hfit. apply fits_int4_spec in Hfit.
  rewrite Hid. apply (spawn_wf _ _ (continued n c0)); simpl.
  - apply rows_wf; [done|..].
    + intros i c'. rewrite lookup_alter_Some. intros [(<- & c1 & Hc1 & ->)|[_ Hc']].
      { simplify_eq. simpl. rewrite Hwrap. split_and!; lia || done. }
      split; [by apply (pw_keyed o Hwf)|by apply (pw_rows o Hwf i)].
    + intros h s c' Hs Hrun. rewrite lookup_alter_ne; [by left|]. intros ->.
      specialize (Hset h s Hs eq_refl). by destruct (ssPhase s).
    + intros i c' Hc'. destruct (decide (i = id)) as [->|Hne]; [|rewrite lookup_alter_ne by congruence; eauto with lia].
      rewrite lookup_alter_eq, Hc. eexists. split; [done|]. simplify_eq. simpl. lia.
  - rewrite Hid, lookup_alter_eq, Hc. done.
  - by destruct (Z.even _).
  - by destruct (Z.even _).
  - rewrite Hwrap. lia.
  - intros h s Hs E. rewrite Hid in E. specialize (Hset h s Hs E). by destruct (ssPhase s).
Qed.

Lemma agents_wf id a b o : paired_wf o -> paired_wf (UpdateAgents env id a b o).2.
Proof.
  intros Hwf. unfold UpdateAgents. do 2 pass_guard. destruct (getConversation _ _ _ _) as [cv|]; [|done].
  do 5 pass_guard. simpl. apply rows_wf; [done|..].
  - intros i c. rewrite lookup_alter_Some. intros [(<- & c0 & Hc0 & ->)|[_ Hc]].
    + simpl. split; [by apply (pw_keyed o Hwf)|by apply (pw_rows o Hwf id)].
    + split; [by apply (pw_keyed o Hwf)|by apply (pw_rows o Hwf i)].
  - intros h s c Hs Hrun. rewrite lookup_alter_Some. intros [(-> & c0 & Hc0 & ->)|[_ Hc]]; [right|by left].
    by exists c0.
  - intros i c Hc. destruct (decide (i = id)) as [->|Hne]; [rewrite lookup_alter_eq, Hc|rewrite lookup_alter_ne by congruence];
      eexists; split; try done; simpl; lia.
Qed.

Lemma paired_delete_wf id o : paired_wf o -> paired_wf (Delete env id o).2.
Proof.
  intros Hwf%(cancel_wf id). unfold Delete. destruct (peFails _ _); [done|].
  destruct (orRows _ !! id) as [cv|]; [|done]. simpl. revert Hwf. generalize (cancel_active id o). clear o. intros o [H1 H2 H3 H4 H5 HA H6].
  split; simpl; [| |done| |done|done|].
  - intros i c'. simpl. rewrite lookup_delete_Some. intros [_ Hc]. by apply H1.
  - intros i c'. rewrite lookup_delete_Some. intros [_ Hc]. by apply (H2 i).
  - intros h s Hs Hrun. destruct (H4 h s Hs Hrun) as [Hb Hc]. split; [done|]. intros c'.
    rewrite lookup_delete_Some. intros [_ ?]. auto.
  - intros i m. rewrite filter_elem. intros [Hin Hne]. to_prop. destruct (H6 i m Hin) as (c' & Hc & Hb).
    exists c'. rewrite lookup_delete_ne by (simpl in *; congruence). done.
Qed.

Lemma step_wf ev o : paired_wf o -> orderly ev o = true -> paired_wf (paired_step env ev o).
Proof.
  intros Hwf Ho.
  assert (forall e h s, orSessions o !! h = Some s -> paired_wf (session_event env e h s o)) as Hsess.
  { intros e h s Hs. eapply effect_wf; [done..|]. apply session_event_effect; [apply Hwf|done]. }
  destruct ev; cbn [paired_step event_session];
    try (match goal with |- paired_wf (match orSessions o !! ?h with _ => _ end) =>
      destruct (orSessions o !! h) eqn:Hs; [by apply Hsess|done] end).
  - by apply paired_start_wf.
  - apply on_active_wf; [|done]. by intros s s' [= <-].
  - apply on_active_wf; [|done]. by intros s s' [= <-].
  - unfold Stop. destruct (orActive o !! id); [|done].
    pose proof (set_status_tables env false id PairedStopped (Some (peNow env)) (cancel_active id o)) as Ht.
    pose proof (tables_wf _ _ Ht (cancel_wf id o Hwf)) as Hs.
    destruct (setConversationStatus _ _ _ _ _ _) as [[c|e] o1]; [|done]. apply (tables_wf o1); [by split|exact Hs].
  - by apply paired_delete_wf.
  - unfold Inject. destruct (bool_decide _); [done|]. apply on_active_wf; [|done]. intros s s'.
    destruct (negb _); [done|]. destruct (_ <? _)%nat; [|done]. by intros [= <-].
  - by apply continue_wf.
  - by apply agents_wf.
  - apply (tables_wf o); [by split|done].
  - apply (tables_wf o); [by split|done].
Qed.
End wf.

Lemma new_orchestrator_wf b : paired_wf (NewPairedOrchestrator b).
Proof. split; simpl; try done; intros; by rewrite ?lookup_empty in *; set_solver. Qed.

Section bounds.
Context `{UnicodeCase}.

Lemma orderly_run_wf l o : paired_wf o -> orderly_run l o = true -> paired_wf (paired_run l o).
Proof.
  revert o. induction l as [|[env ev] l IH]; intros o Hwf; simpl; [done|].
  intros [Ho Hl]%andb_true_iff. apply IH; [by apply step_wf|done].
Qed.

(** Turns are bounded.  Whatever is started, paused, injected, stopped, deleted and
    continued, and whatever fails, no message of a conversation has a turn number beyond
    twice its maximum, its counter stays within that bound, and a goroutine that is still
    running has turns left, if conversations are continued when their goroutine has ended. *)
Theorem paired_turns_bounded (l : list (PairedEnv * PairedEvent)) (b : Bus) :
  orderly_run l (NewPairedOrchestrator b) = true ->
  let o := paired_run l (NewPairedOrchestrator b) in
  (forall id c, orRows o !! id = Some c -> 0 <= cvCurrentTurn c <= 2 * cvMaxTurns c) /\
  (forall id m, (id, m) ∈ orMessages o -> exists c, orRows o !! id = Some c /\ 1 <= pmTurn m <= 2 * cvMaxTurns c) /\
  (forall h s, orSessions o !! h = Some s -> running (ssPhase s) = true ->
     cvCurrentTurn (ssConv s) < 2 * cvMaxTurns (ssConv s)).
Proof.
  intros Hl. pose proof (orderly_run_wf l _ (new_orchestrator_wf b) Hl) as [H1 H2 H3 H4 H5 HA H6].
  split_and!.
  - intros id c Hc. by apply (H2 id).
  - done.
  - intros h s Hs Hr. by apply (H4 h s Hs Hr).
Qed.
End bounds.

(** * The transcript *)

Definition sum_tokens (l : list PairedMessage) : Z := foldl (fun n m => n + pmTokens m) 0 l.
Definition sum_cost (l : list PairedMessage) : float64 := foldl (fun x m => f64_add x (pmCost m)) f64_zero l.

(** The agent whose turn it is. *)
Definition speaker_of (c : Conversation) (turn : Z) : string := if Z.odd turn then cvAgentA c else cvAgentB c.

(** The messages [ms] are the turns of [c]: numbered from 1 without a gap, spoken in turn, and
    counted in the row, all but possibly the last, whose row could not be written. *)
Record transcript (c : Conversation) (ms : list PairedMessage) : Prop := {
  tr_numbered : map pmTurn ms = seqZ 1 (Z.of_nat (length ms));
  tr_spoken : Forall (fun m => pmAgentID m = speaker_of c (pmTurn m)) ms;
  tr_length : cvCurrentTurn c <= Z.of_nat (length ms) <= cvCurrentTurn c + 1;
  tr_tokens : cvTotalTokens c = sum_tokens (take (Z.to_nat (cvCurrentTurn c)) ms);
  tr_cost : cvCost c = sum_cost (take (Z.to_nat (cvCurrentTurn c)) ms);
  tr_small : fits_int4 (cvTotalTokens c) = true;
}.

Definition next_pair (c : Conversation) : string * string :=
  (speaker_of c (cvCurrentTurn c + 1), speaker_of c (cvCurrentTurn c)).

Record transcript_wf (o : Orchestrator) : Prop := {
  tw_wf : paired_wf o;
  tw_unique : forall h h' s s', orSessions o !! h = Some s -> orSessions o !! h' = Some s' -> ssID s = ssID s' -> h = h';
  tw_rows : forall id c, orRows o !! id = Some c -> transcript c (messages_of id o);
  tw_running : forall h s c, orSessions o !! h = Some s -> running (ssPhase s) = true -> orRows o !! ssID s = Some c ->
    full (ssConv s) = full c /\ Z.of_nat (length (messages_of (ssID s) o)) = cvCurrentTurn c /\ upcoming s = next_pair c;
}.

Lemma transcript_full c c' ms : full c' = full c -> transcript c ms -> transcript c' ms.
Proof.
  intros E []. unfold full, core, agents in E. injection E as E1 E2 E3 E4 E5 E6 E7.
  split; rewrite ?E3, ?E4, ?E5; try done. unfold speaker_of in *. by rewrite E6, E7.
Qed.

Lemma next_pair_full c c' : full c' = full c -> next_pair c' = next_pair c.
Proof. unfold full, core, agents, next_pair, speaker_of. intros [= E1 E2 E3 E4 E5 E6 E7]. by rewrite E3, E6, E7. Qed.

Lemma messages_app id o o' i m :
  orMessages o' = orMessages o ++ [(i, m)] ->
  messages_of id o' = messages_of id o ++ (if bool_decide (i = id) then [m] else []).
Proof.
  intros E. unfold messages_of. rewrite E, List.filter_app, map_app. simpl. by case_bool_decide.
Qed.

Lemma turns_snoc (n : nat) : seqZ 1 (Z.of_nat (n + 1)) = seqZ 1 (Z.of_nat n) ++ [Z.of_nat n + 1].
Proof.
  rewrite Nat2Z.inj_add, seqZ_app by lia. f_equal. unfold seqZ. simpl. f_equal. lia.
Qed.

(** A turn whose row could not be written. *)
Lemma transcript_insert c ms m :
  transcript c ms -> Z.of_nat (length ms) = cvCurrentTurn c -> pmTurn m = cvCurrentTurn c + 1 ->
  pmAgentID m = speaker_of c (pmTurn m) -> transcript c (ms ++ [m]).
Proof.
  intros [] Hlen Ht Ha. split; rewrite ?length_app; cbn [length]; [|apply Forall_app_2; [done|by constructor]|lia| | |done].
  - rewrite map_app, tr_numbered0, turns_snoc. simpl. by rewrite Ht, <- Hlen.
  - rewrite take_app_le by lia. done.
  - rewrite take_app_le by lia. done.
Qed.

Lemma transcript_record c c' ms m :
  transcript c ms -> Z.of_nat (length ms) = cvCurrentTurn c -> pmTurn m = cvCurrentTurn c + 1 ->
  pmAgentID m = speaker_of c (pmTurn m) -> fits_int4 (pmTokens m) = true ->
  full c' = (cvID c, cvMaxTurns c, pmTurn m, wrap64 (cvTotalTokens c + pmTokens m), f64_add (cvCost c) (pmCost m), agents c) ->
  fits_int4 (wrap64 (cvTotalTokens c + pmTokens m)) = true ->
  transcript c' (ms ++ [m]).
Proof.
  intros Htr Hlen Ht Ha Hf E Hfit. destruct (transcript_insert c ms m Htr Hlen Ht Ha) as [T1 T2 _ _ _ _].
  destruct Htr. unfold full, core, agents in E. injection E as E1 E2 E3 E4 E5 E6 E7.
  assert (take (Z.to_nat (cvCurrentTurn c')) (ms ++ [m]) = ms ++ [m]) as Hall.
  { apply take_ge. rewrite length_app. simpl. lia. }
  assert (take (Z.to_nat (cvCurrentTurn c)) ms = ms) as Hold by (apply take_ge; lia).
  split; [done| |rewrite length_app; simpl; lia| | |by rewrite E4].
  - unfold speaker_of in *. by rewrite E6, E7.
  - rewrite Hall, E4, tr_tokens0, Hold. unfold sum_tokens. rewrite foldl_app. simpl. apply wrap64_id.
    apply fits_int4_spec in tr_small0, Hf. rewrite tr_tokens0, Hold in tr_small0. unfold sum_tokens in tr_small0.
    unfold in_int64, min_int64, max_int64. lia.
  - rewrite Hall, E5, tr_cost0, Hold. unfold sum_cost. by rewrite foldl_app.
Qed.

Lemma tables_transcript o o' : same_tables o o' -> transcript_wf o -> transcript_wf o'.
Proof.
  intros Ht [H1 H2 H3 H4]. pose proof (tables_wf _ _ Ht H1) as H1'. destruct Ht as [Hm Hs Hn Ha Hr].
  assert (forall id, messages_of id o' = messages_of id o) as Hms by (intros; unfold messages_of; by rewrite Hm).
  split; [done|by rewrite Hs|..].
  - intros id c' Hc'. pose proof (full_row _ _ (Hr id)) as Hf. rewrite Hc' in Hf.
    destruct (orRows o !! id) as [c|] eqn:Hc; [|done]. rewrite Hms. eapply transcript_full; [done|by apply H3].
  - intros h s c' Hh Hrun Hc'. rewrite Hs in Hh. pose proof (full_row _ _ (Hr (ssID s))) as Hf. rewrite Hc' in Hf.
    destruct (orRows o !! ssID s) as [c|] eqn:Hc; [|done]. destruct (H4 h s c Hh Hrun Hc) as (E1 & E2 & E3).
    rewrite Hms, E1, E2, E3, (next_pair_full c c' Hf). injection (full_core _ _ Hf) as _ _ E _ _. by rewrite E.
Qed.

Lemma put_unique o h s s' : transcript_wf o -> orSessions o !! h = Some s -> ssID s' = ssID s ->
  forall h1 h2 s1 s2, <[h := s']> (orSessions o) !! h1 = Some s1 -> <[h := s']> (orSessions o) !! h2 = Some s2 ->
    ssID s1 = ssID s2 -> h1 = h2.
Proof.
  intros [_ H2 _ _] Hs Hi h1 h2 s1 s2. rewrite !lookup_insert_Some.
  intros [[<- <-]|[_ Hs1]] [[<- <-]|[_ Hs2]] E; [done| | |by eapply H2].
  - eapply (H2 h h2 s s2); [done..|congruence].
  - eapply (H2 h1 h s1 s); [done..|congruence].
Qed.

Lemma quiet_transcript o h s s' :
  transcript_wf o -> orSessions o !! h = Some s -> paired_wf (put_session o h s') -> ssID s' = ssID s ->
  (running (ssPhase s') = true -> running (ssPhase s) = true /\ upcoming s' = upcoming s /\
     (full (ssConv s') = full (ssConv s) \/ full <$> orRows o !! ssID s = Some (full (ssConv s')))) ->
  transcript_wf (put_session o h s').
Proof.
  intros Hwf Hs Hwf' Hi Hrun. pose proof (put_unique o h s s' Hwf Hs Hi) as Hu. destruct Hwf as [H1 H2 H3 H4].
  split; simpl; [done|done|done|].
  intros h1 s1 c1. rewrite lookup_insert_Some. intros [[<- <-]|[_ Hs1]]; [|by apply (H4 h1 s1 c1)].
  intros Hr1. rewrite Hi. intros Hc1. destruct (Hrun Hr1) as (Hr0 & Hup & Hconv).
  destruct (H4 h s c1 Hs Hr0 Hc1) as (E1 & E2 & E3). rewrite Hup. split_and!; [|done..].
  destruct Hconv as [->|E]; [done|]. rewrite Hc1 in E. by apply (inj Some) in E.
Qed.

(** The row of a conversation after the message of its next turn. *)
Definition row_after (c : Conversation) (m : PairedMessage) : string * Z * Z * Z * float64 * (string * string) :=
  (cvID c, cvMaxTurns c, pmTurn m, wrap64 (cvTotalTokens c + pmTokens m), f64_add (cvCost c) (pmCost m), agents c).

Lemma record_transcript o o' h s s' m c :
  transcript_wf o -> paired_wf o' -> orSessions o !! h = Some s -> running (ssPhase s) = true ->
  orRows o !! ssID s = Some c ->
  pmTurn m = cvCurrentTurn (ssConv s) + 1 -> pmAgentID m = (upcoming s).1 -> fits_int4 (pmTokens m) = true ->
  orMessages o' = orMessages o ++ [(ssID s, m)] ->
  orSessions o' = <[h := s']> (orSessions o) -> ssID s' = ssID s ->
  (forall id, id <> ssID s -> full <$> orRows o' !! id = full <$> orRows o !! id) ->
  ((running (ssPhase s') = false /\ full <$> orRows o' !! ssID s = Some (full c)) \/
   (fits_int4 (wrap64 (cvTotalTokens c + pmTokens m)) = true /\ full <$> orRows o' !! ssID s = Some (row_after c m) /\
    (running (ssPhase s') = true -> full (ssConv s') = row_after c m /\ upcoming s' = ((upcoming s).2, (upcoming s).1)))) ->
  transcript_wf o'.
Proof.
  intros Hwf Hwf' Hs Hrun Hc Ht Ha Hfit Hm Hss Hi Hother Hcase.
  pose proof (put_unique o h s s' Hwf Hs Hi) as Hu. destruct Hwf as [H1 H2 H3 H4].
  destruct (H4 h s c Hs Hrun Hc) as (E1 & E2 & E3). injection (full_core _ _ E1) as Ec1 Ec2 Ec3 Ec4 Ec5.
  rewrite Ec3 in Ht. assert (pmAgentID m = speaker_of c (pmTurn m)) as Hsp by by rewrite Ha, E3, Ht.
  pose proof (fun id => messages_app id o o' (ssID s) m Hm) as Hms.
  split; [done|by rewrite Hss|..].
  - intros id c' Hc'. rewrite Hms. case_bool_decide as Hid.
    + subst id. rewrite Hc' in Hcase. destruct Hcase as [[_ E]|(Hf & E & _)]; apply (inj Some) in E.
      * eapply transcript_full; [done|]. apply transcript_insert; auto.
      * by apply (transcript_record c); auto.
    + rewrite app_nil_r. pose proof (full_row _ _ (Hother id (not_eq_sym Hid))) as Hf. rewrite Hc' in Hf.
      destruct (orRows o !! id) as [c0|] eqn:Hc0; [|done]. eapply transcript_full; [done|by apply H3].
  - intros h1 s1 c1. rewrite Hss, lookup_insert_Some. intros [[<- <-]|[Hne Hs1]] Hr1.
    + rewrite Hi, Hms, bool_decide_eq_true_2, length_app by done. intros Hc1. rewrite Hc1 in Hcase.
      destruct Hcase as [[Hnr _]|(_ & E & Hgo)]; [congruence|]. destruct (Hgo Hr1) as [-> ->]. apply (inj Some) in E.
      rewrite E. unfold full, core, row_after in E. injection E as F1 F2 F3 F4 F5 F6 F7. split; [done|].
      simpl. split; [lia|]. rewrite E3. unfold next_pair, speaker_of. rewrite F3, F6, F7, Ht. simpl.
      f_equal. rewrite !Z.odd_add. simpl. by rewrite !xorb_true_r, negb_involutive.
    + intros Hc1. assert (ssID s1 <> ssID s) as Hnid by (intros E; apply Hne; by eapply H2).
      rewrite Hms, bool_decide_eq_false_2, app_nil_r by congruence.
      pose proof (full_row _ _ (Hother _ Hnid)) as Hf. rewrite Hc1 in Hf.
      destruct (orRows o !! ssID s1) as [c0|] eqn:Hc0; [|done]. destruct (H4 h1 s1 c0 Hs1 Hr1 Hc0) as (G1 & G2 & G3).
      rewrite G1, G2, G3, (next_pair_full c0 c1 Hf). by injection (full_core _ _ Hf) as _ _ -> _ _.
Qed.

Lemma effect_transcript o o' h s :
  transcript_wf o -> orSessions o !! h = Some s -> session_effect h s o o' -> transcript_wf o'.
Proof.
  intros Hwf Hs He. pose proof (effect_wf o o' h s (tw_wf o Hwf) Hs He) as Hwf'.
  destruct (pw_sessions o (tw_wf o Hwf) h s Hs) as [_ Eid].
  destruct He as [s' Hm Hr Hss Hn Hact Hi Hci _ He _ Hrun|s' m Hcan Hrun [c Hc] Ht Ha Hfit Hm Hss Hn Hact Hi Hci _ _ Hcase];
    rewrite Eid in *.
  - assert (same_tables (put_session o h s') o') as Htab by by split.
    apply (tables_transcript _ _ Htab), (quiet_transcript _ _ s); try done.
    apply (quiet_wf o _ h s s'); try done; [apply Hwf|congruence|]. rewrite Eid.
    intros Hr'. destruct (Hrun Hr') as (? & _ & ?). auto.
  - destruct (tw_running o Hwf h s c Hs Hrun Hc) as (E1 & _). injection (full_core _ _ E1) as _ _ _ Ec4 Ec5.
    apply (record_transcript o o' h s s' m c); try done.
    + intros id Hne. by destruct Hcase as [[_ Hrows]|[Hrows _]]; apply Hrows.
    + destruct Hcase as [[Hnr Hrows]|(_ & Hf & Hrows)]; [left|right].
      { split; [done|]. by rewrite Hrows, Hc. }
      destruct (Hrows c Hc) as [Hrow Hgo]. unfold row_after. rewrite <- Ec4, <- Ec5.
      split_and!; [done..|]. intros Hr'. destruct (Hgo Hr') as (Ef & _ & Hup). split; [|done].
      rewrite Hrow in Ef. by apply (inj Some) in Ef.
Qed.

(** ** Runs without a continuation *)

Definition first_run_event (ev : PairedEvent) (o : Orchestrator) : bool :=
  match ev with
  | EvStart id c => no_session (or_default (cvID c) id) o
  | EvContinue _ _ | EvUpdateAgents _ _ _ => false
  | _ => true
  end.

Lemma messages_none id o : (forall m, (id, m) ∉ orMessages o) -> messages_of id o = [].
Proof.
  intros Hno. unfold messages_of. destruct (List.filter _ _) as [|[i m] l] eqn:E; [done|].
  assert ((i, m) ∈ List.filter (fun m => bool_decide (m.1 = id)) (orMessages o)) as Hin by (rewrite E; by left).
  apply filter_elem in Hin as [Hin Hi]. apply bool_decide_eq_true in Hi. simpl in Hi. subst i. by destruct (Hno m).
Qed.

Lemma filter_other (i id : string) (l : list (string * PairedMessage)) : i <> id ->
  List.filter (fun m => bool_decide (m.1 = i)) (List.filter (fun m => negb (bool_decide (m.1 = id))) l) =
  List.filter (fun m => bool_decide (m.1 = i)) l.
Proof.
  intros Hne. induction l as [|[j m] l IH]; simpl; [done|]. destruct (decide (j = id)) as [->|Hj].
  - rewrite (bool_decide_eq_true_2 (id = id)), (bool_decide_eq_false_2 (id = i)) by congruence. exact IH.
  - rewrite (bool_decide_eq_false_2 (j = id)) by done. simpl. by rewrite IH.
Qed.

Section transcripts.
Context `{UnicodeCase} (env : PairedEnv).

Lemma start_transcript id c o :
  transcript_wf o -> no_session (or_default (cvID c) id) o = true -> transcript_wf (Start env id c o).2.
Proof.
  intros Hwf Hno. pose proof (paired_start_wf env id c o (tw_wf o Hwf) Hno) as Hwf'. revert Hwf'. unfold Start.
  do 5 pass_guard. unfold insertConversation. destruct (_ && _) eqn:E; [|done]. to_prop. cbn [snd]. intros Hwf'.
  set (c1 := started env id c) in *. apply bool_decide_eq_true in Hno.
  assert (orRows o !! cvID c1 = None) as Hnone by (by apply eq_None_not_Some).
  destruct Hwf as [W1 W2 W3 W4].
  assert (messages_of (cvID c1) o = []) as Hempty.
  { apply messages_none. intros m Hin. destruct (pw_messages o W1 _ _ Hin) as (c2 & Hc2 & _). by rewrite Hnone in Hc2. }
  set (o' := spawn _ _) in *. assert (forall i, messages_of i o' = messages_of i o) as Hms by done.
  split; [done|..].
  - intros h1 h2 s1 s2. simpl. rewrite !lookup_insert_Some.
    intros [[<- <-]|[Hn1 Hs1]] [[<- <-]|[Hn2 Hs2]] Ei; [done| | |by eapply W2].
    + by destruct (Hno _ _ Hs2).
    + by destruct (Hno _ _ Hs1).
  - intros i c2. unfold o' at 1. cbn [spawn orRows set_conversations]. rewrite lookup_insert_Some.
    intros [[<- <-]|[_ Hc2]]; [|by apply W3].
    rewrite Hms, Hempty. by split.
  - intros h s c2. unfold o' at 1 2. cbn [spawn orRows orSessions set_conversations].
    rewrite lookup_insert_Some. intros [[<- <-]|[_ Hs]] Hr.
    + change (ssID _) with (cvID c1). rewrite lookup_insert_eq, Hms, Hempty. by intros [= <-].
    + rewrite lookup_insert_ne, Hms by (intros Ei; by apply (Hno h s Hs)). by apply (W4 h s c2).
Qed.

Lemma delete_transcript id o : transcript_wf o -> transcript_wf (Delete env id o).2.
Proof.
  intros Hwf. pose proof (paired_delete_wf env id o (tw_wf o Hwf)) as Hwf'.
  assert (transcript_wf (cancel_active id o)) as Hcan.
  { destruct (cancel_effect id o) as [Ht|(h & s & Hs & He)]; [by eapply tables_transcript|by eapply effect_transcript]. }
  revert Hwf'. unfold Delete. destruct (peFails _ _); [done|].
  destruct (orRows _ !! id) as [cv|]; [|done]. simpl. revert Hcan. generalize (cancel_active id o). clear o Hwf.
  intros o [H1 H2 H3 H4] Hwf'.
  assert (forall i, i <> id -> messages_of i (set_messages o (List.filter (fun m => negb (bool_decide (m.1 = id))) (orMessages o)))
    = messages_of i o) as Hms.
  { intros i Hne. unfold messages_of. simpl. by rewrite filter_other. }
  split; [done|done|..]; simpl.
  - intros i c'. rewrite lookup_delete_Some. intros [Hne Hc]. apply H3 in Hc. by rewrite <- (Hms i) in Hc by done.
  - intros h s c' Hs Hr. rewrite lookup_delete_Some. intros [Hne Hc]. destruct (H4 h s c' Hs Hr Hc) as (? & E & ?).
    rewrite <- (Hms (ssID s)) in E by done. done.
Qed.

Lemma step_transcript ev o : transcript_wf o -> first_run_event ev o = true -> transcript_wf (paired_step env ev o).
Proof.
  intros Hwf Ho.
  assert (forall e h s, orSessions o !! h = Some s -> transcript_wf (session_event env e h s o)) as Hsess.
  { intros e h s Hs. eapply effect_transcript; [done..|]. apply session_event_effect; [apply Hwf|done]. }
  assert (forall id f, (forall s s', f s = Ok s' -> ssID s' = ssID s /\ ssConv s' = ssConv s /\
    ssCancelled s' = ssCancelled s /\ ssPhase s' = ssPhase s /\ upcoming s' = upcoming s) ->
    transcript_wf (on_active id f o).2) as Hact.
  { intros id f Hf. destruct (on_active_effect id f o Hf) as [->|(h & s & Hs & He)]; [done|by eapply effect_transcript]. }
  destruct ev; cbn [paired_step event_session]; try done;
    try (match goal with |- transcript_wf (match orSessions o !! ?h with _ => _ end) =>
      destruct (orSessions o !! h) eqn:Hs; [by apply Hsess|done] end).
  - by apply start_transcript.
  - apply Hact. by intros s s' [= <-].
  - apply Hact. by intros s s' [= <-].
  - unfold Stop. destruct (orActive o !! id); [|done].
    pose proof (set_status_tables env false id PairedStopped (Some (peNow env)) (cancel_active id o)) as Ht.
    assert (transcript_wf (cancel_active id o)) as Hcan.
    { destruct (cancel_effect id o) as [?|(h & s & Hs & He)]; [by eapply tables_transcript|by eapply effect_transcript]. }
    pose proof (tables_transcript _ _ Ht Hcan) as Hs.
    destruct (setConversationStatus _ _ _ _ _ _) as [[c|e] o1]; [|done]. apply (tables_transcript o1); [by split|exact Hs].
  - by apply delete_transcript.
  - unfold Inject. destruct (bool_decide _); [done|]. apply Hact. intros s s'.
    destruct (negb _); [done|]. destruct (_ <? _)%nat; [|done]. by intros [= <-].
  - apply (tables_transcript o); [by split|done].
  - apply (tables_transcript o); [by split|done].
Qed.
End transcripts.

Lemma new_orchestrator_transcript b : transcript_wf (NewPairedOrchestrator b).
Proof. by split; [apply new_orchestrator_wf|..]. Qed.

Section runs.
Context `{UnicodeCase}.

Fixpoint first_run (l : list (PairedEnv * PairedEvent)) (o : Orchestrator) : bool :=
  match l with
  | [] => true
  | (env, ev) :: l => first_run_event ev o && first_run l (paired_step env ev o)
  end.

Lemma first_run_transcript l o : transcript_wf o -> first_run l o = true -> transcript_wf (paired_run l o).
Proof.
  revert o. induction l as [|[env ev] l IH]; intros o Hwf; simpl; [done|].
  intros [Ho Hl]%andb_true_iff. apply IH; [by apply step_transcript|done].
Qed.

(** The transcript of a conversation is what its agents said in turn.  At every moment of
    its first run (before it is continued or its agents are changed), whatever the
    dashboard does and whatever fails, its messages are numbered from 1 without a gap, the
    odd ones are the first agent's and the even ones the second's, there are at most twice
    the maximum of turns, and the row's counter, tokens and cost are those of the
    messages, all but possibly a last one whose row could not be written. *)
Theorem transcript_alternates (l : list (PairedEnv * PairedEvent)) (b : Bus) (id : string) (c : Conversation) :
  first_run l (NewPairedOrchestrator b) = true ->
  let o := paired_run l (NewPairedOrchestrator b) in
  orRows o !! id = Some c ->
  let ms := messages_of id o in
  map pmTurn ms = seqZ 1 (Z.of_nat (length ms)) /\
  Forall (fun m => pmAgentID m = if Z.odd (pmTurn m) then cvAgentA c else cvAgentB c) ms /\
  Z.of_nat (length ms) <= 2 * cvMaxTurns c /\
  cvCurrentTurn c <= Z.of_nat (length ms) <= cvCurrentTurn c + 1 /\
  cvTotalTokens c = sum_tokens (take (Z.to_nat (cvCurrentTurn c)) ms) /\
  cvCost c = sum_cost (take (Z.to_nat (cvCurrentTurn c)) ms).
Proof.
  intros Hl o Hc ms. pose proof (first_run_transcript l _ (new_orchestrator_transcript b) Hl) as Hwf.
  destruct (tw_rows _ Hwf id c Hc) as [T1 T2 [T3 T3'] T4 T5 T6]. split_and!; try done.
  destruct (last ms) as [m|] eqn:Em.
  - change (pmTurn <$> ms = seqZ 1 (Z.of_nat (length ms))) in T1.
    pose proof (f_equal last T1) as El. rewrite fmap_last, Em in El. simpl in El.
    apply last_Some in Em as [ms' Em]. rewrite Em in El.
    rewrite length_app, turns_snoc in El. rewrite last_snoc in El. injection El as El. rewrite Em, length_app. simpl.
    assert ((id, m) ∈ orMessages o) as Hin.
    { assert (m ∈ messages_of id o) as Hm by (fold ms; rewrite Em; set_solver).
      unfold messages_of in Hm. apply list_elem_of_fmap in Hm as ([i m'] & -> & Hm). apply filter_elem in Hm as [Hm Hi].
      apply bool_decide_eq_true in Hi. simpl in *. by subst i. }
    destruct (pw_messages o (tw_wf o Hwf) id m Hin) as (c' & Hc' & Hb). rewrite Hc in Hc'. injection Hc' as <-. lia.
  - apply last_None in Em. rewrite Em. simpl. pose proof (pw_rows _ (tw_wf _ Hwf) id c Hc). lia.
Qed.
End runs.

(** * Stopping *)

(** A conversation none of whose goroutines can record a turn any more. *)
Definition halted (id : string) (o : Orchestrator) : Prop :=
  (exists h s, orSessions o !! h = Some s /\ ssID s = id) /\
  forall h s, orSessions o !! h = Some s -> ssID s = id -> ssCancelled s = true \/ ssPhase s = Ended.

Definition grows (id : string) (o o' : Orchestrator) : Prop :=
  forall m, (id, m) ∈ orMessages o' -> (id, m) ∈ orMessages o.

Lemma halted_here id o : halted id o -> halted id o /\ grows id o o.
Proof. intros Hh. split; [exact Hh|]. by intros m Hm. Qed.

Lemma tables_halted id o o' : same_tables o o' -> halted id o -> halted id o' /\ grows id o o'.
Proof. intros [Hm Hs _ _ _]. unfold halted, grows. by rewrite Hs, Hm. Qed.

Lemma effect_halted id o o' h s :
  paired_wf o -> orSessions o !! h = Some s -> session_effect h s o o' -> halted id o ->
  halted id o' /\ grows id o o'.
Proof.
  intros Hwf Hs He [(h0 & s0 & Hs0 & Hi0) Hall]. destruct (pw_sessions o Hwf h s Hs) as [_ Eid].
  assert (forall s', ssID s' = ssID s -> exists h1 s1, <[h := s']> (orSessions o) !! h1 = Some s1 /\ ssID s1 = id) as Hex.
  { intros s' Hi. destruct (decide (h0 = h)) as [->|Hne].
    - exists h, s'. rewrite lookup_insert_eq. split; [done|congruence].
    - exists h0, s0. by rewrite lookup_insert_ne. }
  destruct He as [s' Hm _ Hss _ _ Hi _ Hc He _ _|s' m Hcan Hrun _ _ _ _ Hm Hss _ _ Hi _ _ _ _].
  - split; [|intros m; by rewrite Hm]. split; rewrite Hss; [by apply Hex|].
    intros h1 s1. rewrite lookup_insert_Some. intros [[<- <-]|[_ Hs1]]; [|by apply (Hall h1)]. rewrite Hi.
    intros E. destruct (Hall h s Hs E); auto.
  - assert (ssID s <> id) as Hne.
    { intros E. destruct (Hall h s Hs E) as [Ht|Ht]; [congruence|]. by rewrite Ht in Hrun. }
    split; [|intros m1; rewrite Hm, elem_of_app, list_elem_of_singleton, Eid; intros [?|Hx]; [done|congruence]].
    split; rewrite Hss; [by apply Hex|]. intros h1 s1. rewrite lookup_insert_Some.
    intros [[<- <-]|[_ Hs1]]; [congruence|by apply (Hall h1)].
Qed.

Lemma spawn_halted id o s :
  (forall h s, orSessions o !! h = Some s -> (h < orNext o)%nat) -> ssID s <> id -> halted id o -> halted id (spawn o s).
Proof.
  intros Hlt Hne [(h0 & s0 & Hs0 & Hi0) Hall]. split; simpl.
  - exists h0, s0. rewrite lookup_insert_ne; [done|]. apply Hlt in Hs0. lia.
  - intros h1 s1. rewrite lookup_insert_Some. intros [[<- <-]|[_ Hs1]]; [done|by apply (Hall h1)].
Qed.

Definition continues (id : string) (ev : PairedEvent) : bool :=
  match ev with EvContinue i _ => bool_decide (i = id) | _ => false end.

Ltac pass_halted :=
  match goal with |- context [if ?b then _ else _] => destruct b eqn:?; [by apply halted_here|] end.

Section stopping.
Context `{UnicodeCase} (env : PairedEnv).

Lemma cancel_halted id i o : paired_wf o -> halted id o -> halted id (cancel_active i o) /\ grows id o (cancel_active i o).
Proof.
  intros Hwf Hh. destruct (cancel_effect i o) as [?|(h & s & Hs & He)]; [by apply tables_halted|by eapply effect_halted].
Qed.

Lemma start_halted id i c o :
  paired_wf o -> no_session (or_default (cvID c) i) o = true -> halted id o ->
  halted id (Start env i c o).2 /\ grows id o (Start env i c o).2.
Proof.
  intros Hwf Ho Hh. apply bool_decide_eq_true in Ho. unfold Start. do 5 pass_halted.
  unfold insertConversation. destruct (_ && _); [|by apply halted_here]. split; [|by intros m].
  apply spawn_halted; [|simpl|done].
  - intros h s Hs. by apply (pw_sessions o Hwf) in Hs as [? _].
  - destruct Hh as [(h & s & Hs & E) _]. intros E'. apply (Ho h s Hs). congruence.
Qed.

Lemma continue_halted id i n o :
  paired_wf o -> i <> id -> halted id o -> halted id (Continue env i n o).2 /\ grows id o (Continue env i n o).2.
Proof.
  intros Hwf Hne Hh. unfold Continue. destruct (continue_check env i n o) as [[c last]|] eqn:E; [|by apply halted_here].
  assert (cvID c = i) as Hid.
  { unfold continue_check in E. do 2 pass_in E. unfold getConversation in E. destruct (negb _); [done|].
    destruct (orRows o !! i) as [c0|] eqn:Hc; [|done]. simpl in E. do 5 pass_in E. injection E as <- _.
    by apply (pw_keyed o Hwf). }
  unfold continue_commit. pass_halted. split; [|by intros m]. apply spawn_halted; [|by destruct (Z.even _); simpl; rewrite Hid|done].
  intros h s Hs. by apply (pw_sessions o Hwf) in Hs as [? _].
Qed.

Lemma step_halted id ev o :
  paired_wf o -> orderly ev o = true -> continues id ev = false -> halted id o ->
  halted id (paired_step env ev o) /\ grows id o (paired_step env ev o).
Proof.
  intros Hwf Ho Hc Hh. 
  assert (forall i f, (forall s s', f s = Ok s' -> ssID s' = ssID s /\ ssConv s' = ssConv s /\
    ssCancelled s' = ssCancelled s /\ ssPhase s' = ssPhase s /\ upcoming s' = upcoming s) ->
    halted id (on_active i f o).2 /\ grows id o (on_active i f o).2) as Hact.
  { intros i f Hf. destruct (on_active_effect i f o Hf) as [->|(h & s & Hs & He)]; [by apply halted_here|by eapply effect_halted]. }
  destruct ev; cbn [paired_step event_session];
    try (destruct (orSessions o !! h) eqn:Hs; [|by apply halted_here]; eapply effect_halted; [done..| |done];
         apply session_event_effect; [apply Hwf|done]).
  - by apply start_halted.
  - apply Hact. by intros s s' [= <-].
  - apply Hact. by intros s s' [= <-].
  - unfold Stop. destruct (orActive o !! id0); [|by apply halted_here]. destruct (cancel_halted id id0 o Hwf Hh) as [Hh1 Hg1].
    pose proof (set_status_tables env false id0 PairedStopped (Some (peNow env)) (cancel_active id0 o)) as Ht.
    destruct (tables_halted id _ _ Ht Hh1) as [Hh2 Hg2].
    assert (grows id o (setConversationStatus env false id0 PairedStopped (Some (peNow env)) (cancel_active id0 o)).2)
      as Hg3 by (intros m Hm; by apply Hg1, Hg2).
    by destruct (setConversationStatus _ _ _ _ _ _) as [[c|e] o1].
  - unfold Delete. destruct (cancel_halted id id0 o Hwf Hh) as [Hh1 Hg1]. destruct (peFails _ _); [done|].
    destruct (orRows _ !! id0); [|done]. split; [done|]. intros m. simpl. rewrite filter_elem. intros [Hm _]. by apply Hg1.
  - unfold Inject. destruct (bool_decide _); [by apply halted_here|]. apply Hact. intros s s'.
    destruct (negb _); [done|]. destruct (_ <? _)%nat; [|done]. by intros [= <-].
  - apply continue_halted; [done| |done]. simpl in Hc. by apply bool_decide_eq_false in Hc.
  - unfold UpdateAgents. do 2 pass_halted. destruct (getConversation _ _ _ _) as [cv|]; [|by apply halted_here]. do 5 pass_halted. split; [exact Hh|by intros m].
  - split; [exact Hh|by intros ?].
  - split; [exact Hh|by intros ?].
Qed.

Lemma stop_messages id o : orMessages (Stop env id o).2 = orMessages o.
Proof.
  unfold Stop, cancel_active. destruct (orActive o !! id) as [h|]; [|done]. simpl. 
  match goal with |- context [setConversationStatus env false id PairedStopped ?t ?o1] =>
    pose proof (set_status_tables env false id PairedStopped t o1) as [Hm _ _ _ _];
    destruct (setConversationStatus env false id PairedStopped t o1) as [[c|e] o2] end;
    simpl in *; rewrite Hm; by destruct (orSessions o !! h).
Qed.

(** The map holds goroutines that have not ended. *)
Definition active_live (o : Orchestrator) : Prop :=
  forall id h s, orActive o !! id = Some h -> orSessions o !! h = Some s -> ssPhase s <> Ended.

Lemma tables_live o o' : same_tables o o' -> active_live o -> active_live o'.
Proof. intros [_ Hs _ Ha _] Hl id h s Hh. rewrite Hs. eapply Hl. by eapply lookup_weaken. Qed.

Lemma effect_live o o' h s :
  paired_wf o -> orSessions o !! h = Some s -> session_effect h s o o' -> active_live o -> active_live o'.
Proof.
  intros Hwf Hs He Hl.
  assert (forall s', orSessions o' = <[h := s']> (orSessions o) -> orActive o' ⊆ orActive o ->
    (ssPhase s' = Ended -> ssPhase s = Ended \/ orActive o' !! ssID s = None) -> active_live o') as Hput.
  { intros s' Hss Ha Hend id h1 s1 Hh1. pose proof (lookup_weaken _ _ _ _ Hh1 Ha) as Hh1'.
    rewrite Hss, lookup_insert_Some. intros [[<- <-]|[_ Hs1]]; [|by eapply Hl].
    destruct (pw_active o Hwf id h Hh1') as (s2 & Hs2 & <-). simplify_eq. intros E.
    destruct (Hend E) as [?|?]; [by eapply Hl|congruence]. }
  destruct He as [s' _ _ Hss _ Ha _ _ _ _ Hend _|s' m _ _ _ _ _ _ _ Hss _ Ha _ _ _ Hne _]; by apply (Hput s').
Qed.

Lemma step_live ev o : paired_wf o -> active_live o -> active_live (paired_step env ev o).
Proof.
  intros Hwf Hl.
  assert (forall i f, (forall s s', f s = Ok s' -> ssID s' = ssID s /\ ssConv s' = ssConv s /\
    ssCancelled s' = ssCancelled s /\ ssPhase s' = ssPhase s /\ upcoming s' = upcoming s) ->
    active_live (on_active i f o).2) as Hact.
  { intros i f Hf. destruct (on_active_effect i f o Hf) as [->|(h & s & Hs & He)]; [done|by eapply effect_live]. }
  assert (forall i, active_live (cancel_active i o)) as Hcan.
  { intros i. destruct (cancel_effect i o) as [?|(h & s & Hs & He)]; [by eapply tables_live|by eapply effect_live]. }
  destruct ev; cbn [paired_step event_session];
    try (destruct (orSessions o !! h) eqn:Hs; [|done]; eapply effect_live; [done..| |done];
         apply session_event_effect; [apply Hwf|done]).
  - unfold Start. do 5 pass_guard. unfold insertConversation. destruct (_ && _); [|done].
    intros i h s. simpl. rewrite !lookup_insert_Some.
    intros [[<- <-]|[_ Hh]] [[E <-]|[Hn Hs1]]; try done. by eapply Hl.
  - apply Hact. by intros s s' [= <-].
  - apply Hact. by intros s s' [= <-].
  - unfold Stop. destruct (orActive o !! id); [|done].
    pose proof (set_status_tables env false id PairedStopped (Some (peNow env)) (cancel_active id o)) as Ht.
    pose proof (tables_live _ _ Ht (Hcan id)) as H2.
    by destruct (setConversationStatus _ _ _ _ _ _) as [[c|e] o1].
  - pose proof (Hcan id) as Hc. unfold Delete. destruct (peFails _ _); [done|]. by destruct (orRows _ !! id).
  - unfold Inject. destruct (bool_decide _); [done|]. apply Hact. intros s s'.
    destruct (negb _); [done|]. destruct (_ <? _)%nat; [|done]. by intros [= <-].
  - unfold Continue. destruct (continue_check _ _ _ _) as [[c last]|]; [|done]. unfold continue_commit. pass_guard.
    intros i h s. simpl. rewrite !lookup_insert_Some.
    intros [[<- <-]|[_ Hh]] [[E <-]|[Hn Hs1]]; try done; first [by destruct (Z.even _)|by eapply Hl].
  - unfold UpdateAgents. do 2 pass_guard. destruct (getConversation _ _ _ _) as [cv|]; [|done]. by do 5 pass_guard.
  - done.
  - done.
Qed.

Lemma stop_halts id o : paired_wf o -> active_live o -> is_Some (orActive o !! id) -> halted id (Stop env id o).2.
Proof.
  intros Hwf Hl [h Hh]. unfold Stop. rewrite Hh.
  pose proof (set_status_tables env false id PairedStopped (Some (peNow env)) (cancel_active id o)) as Ht.
  assert (halted id (cancel_active id o)) as Hcan.
  { unfold cancel_active. rewrite Hh. simpl. destruct (pw_active o Hwf id h Hh) as (s & Hs & Hi). rewrite Hs. split; simpl.
    - exists h, (cancelled s). by rewrite lookup_insert_eq.
    - intros h1 s1. rewrite lookup_insert_Some. intros [[<- <-]|[Hne Hs1]] Ei; [by left|].
      destruct (ended_phase (ssPhase s1)) eqn:E; [right; by destruct (ssPhase s1)|]. destruct Hne.
      eapply (pw_single o Hwf); [done..|congruence|by eapply Hl|]. intros E1. by rewrite E1 in E. }
  destruct (tables_halted id _ _ Ht Hcan) as [Hh2 _]. by destruct (setConversationStatus _ _ _ _ _ _) as [[c|e] o1].
Qed.
End stopping.

Section stop.
Context `{UnicodeCase}.

Lemma run_live l o : paired_wf o -> active_live o -> orderly_run l o = true -> active_live (paired_run l o).
Proof.
  revert o. induction l as [|[env ev] l IH]; intros o Hwf Hl; simpl; [done|].
  intros [Ho Hr]%andb_true_iff. apply IH; [by apply step_wf|by apply step_live|done].
Qed.

Lemma run_halted id l o :
  paired_wf o -> halted id o -> orderly_run l o = true -> forallb (fun x => negb (continues id x.2)) l = true ->
  grows id o (paired_run l o).
Proof.
  revert o. induction l as [|[env ev] l IH]; intros o Hwf Hh; simpl; [intros _ _; by intros m|].
  intros [Ho Hr]%andb_true_iff [Hc Hl]%andb_true_iff. apply negb_true_iff in Hc.
  destruct (step_halted env id ev o Hwf Ho Hc Hh) as [Hh1 Hg]. intros m Hm. apply Hg. revert m Hm.
  apply IH; [by apply step_wf|done..].
Qed.

(** C29: Stop is final.  In a run in which no conversation is continued while the goroutine of its last session is
    still leaving and new conversations have new identifiers ([orderly_run]), from the moment an active
    conversation is stopped no turn of it is recorded, whatever answers still arrive and however its goroutine is
    scheduled, until it is continued.  Without the condition an old goroutine takes the new session away
    ([continued_conversation_lost]). *)
Theorem stop_is_final (l l' : list (PairedEnv * PairedEvent)) (b : Bus) (env : PairedEnv) (id : string) :
  let o := paired_run l (NewPairedOrchestrator b) in
  let stopped := (Stop env id o).2 in
  orderly_run l (NewPairedOrchestrator b) = true -> is_Some (orActive o !! id) ->
  orderly_run l' stopped = true -> forallb (fun x => negb (continues id x.2)) l' = true ->
  forall m, (id, m) ∈ orMessages (paired_run l' stopped) -> (id, m) ∈ orMessages o.
Proof.
  intros o stopped Hl Ha Hl' Hc m Hm.
  pose proof (orderly_run_wf l _ (new_orchestrator_wf b) Hl) as Hwf.
  assert (active_live o) as Hlive by (apply run_live; [apply new_orchestrator_wf|done|done]).
  rewrite <- (stop_messages env id o). revert m Hm. apply run_halted; [by apply (step_wf env (EvStop id))|by apply stop_halts|done|done].
Qed.
End stop.

(** * Examples *)

Definition with_plain (l : list PairedEvent) : list (PairedEnv * PairedEvent) :=
  map (fun ev => (plain_env 1000 "m", ev)) l.

(** The first turn of a conversation of at most two. *)
Definition one_turn : list PairedEvent :=
  [EvStart "x" (talk 1); EvBegin 0; EvHead 0; EvBus (answer "ann" "bob" "hi bob"); EvWake 0].

Lemma paired_turns_bounded_witness :
  let o := @paired_run ascii_case (with_plain one_turn) (NewPairedOrchestrator (NewBus [] [])) in
  exists c, orRows o !! "c1" = Some c /\ 0 <= cvCurrentTurn c <= 2 * cvMaxTurns c.
Proof.
  destruct (@paired_turns_bounded ascii_case (with_plain one_turn) (NewBus [] [])) as (H1 & _); [by vm_compute|].
  eexists. split; [|apply (H1 "c1")]; by vm_compute.
Defined.

Lemma transcript_alternates_witness :
  let o := @paired_run ascii_case (with_plain one_turn) (NewPairedOrchestrator (NewBus [] [])) in
  map pmTurn (messages_of "c1" o) = [1].
Proof.
  pose proof (@transcript_alternates ascii_case (with_plain one_turn) (NewBus [] []) "c1") as Hx.
  destruct (Hx _ ltac:(by vm_compute) eq_refl) as [H1 _]. etransitivity; [exact H1|by vm_compute].
Defined.

Definition after_stop : list PairedEvent :=
  [EvHead 0; EvBus (answer "bob" "ann" "late"); EvWake 0; EvCancelWake 0; EvLeave 0].

Lemma stop_is_final_witness :
  let o := @paired_run ascii_case (with_plain one_turn) (NewPairedOrchestrator (NewBus [] [])) in
  let o' := @paired_run ascii_case (with_plain after_stop) (@Stop (plain_env 2000 "m") "c1" o).2 in
  exists m, orMessages o' = [("c1", m)] /\ ("c1", m) ∈ orMessages o.
Proof.
  eexists. split; [by vm_compute|].
  apply (@stop_is_final ascii_case (with_plain one_turn) (with_plain after_stop) (NewBus [] []) (plain_env 2000 "m") "c1");
    [by vm_compute|by eexists|by vm_compute|by vm_compute|]. vm_compute. left.
Defined.

(** Two injections that were both accepted before a turn: only the last is sent. *)
Theorem earlier_injection_lost :
  let o := now_run [EvStart "x" (talk 1); EvBegin 0; EvInject "c1" "first"; EvInject "c1" "second"] in
  (forall e, (Inject "c1" "first" (now_run [EvStart "x" (talk 1); EvBegin 0])).1 <> Err e) /\
  (forall e, (Inject "c1" "second" (now_run [EvStart "x" (talk 1); EvBegin 0; EvInject "c1" "first"])).1 <> Err e) /\
  map (fun m => contains (imContent m) "first") (buRows (orBus (@paired_step ascii_case (plain_env 1000 "m") (EvHead 0) o))) = [false] /\
  map (fun m => contains (imContent m) "second") (buRows (orBus (@paired_step ascii_case (plain_env 1000 "m") (EvHead 0) o))) = [true].
Proof. vm_compute. done. Qed.

(** A resume that comes while the conversation is not paused undoes the next pause: its
    token is still there when the goroutine waits. *)
Theorem stale_resume_undoes_pause :
  let o := now_run [EvStart "x" (talk 1); EvBegin 0; EvResume "c1"; EvPause "c1"; EvHead 0; EvResumeWake 0] in
  (ssPhase <$> orSessions o !! 0%nat) = Some (AwaitAnswer EmptyString) /\
  (cvStatus <$> orRows o !! "c1") = Some PairedActive.
Proof. vm_compute. done. Qed.

(** A conversation that is continued while its stopped goroutine is still there is lost:
    when the old goroutine leaves it removes the new one from the map, so that the running
    conversation can be neither paused nor stopped, and its row says it is stopped. *)
Theorem continued_conversation_lost :
  let o := now_run [EvStart "x" (talk 1); EvBegin 0; EvHead 0; EvStop "c1"; EvContinue "c1" 1; EvBegin 1;
                    EvCancelWake 0; EvLeave 0] in
  (running <$> (ssPhase <$> orSessions o !! 1%nat)) = Some true /\
  (ssCancelled <$> orSessions o !! 1%nat) = Some false /\
  (cvStatus <$> orRows o !! "c1") = Some PairedStopped /\
  (Pause "c1" o).1 = Err ErrPairedConvNotActive /\
  (Stop (plain_env 1000 "m") "c1" o).1 = Err ErrPairedConvNotActive.
Proof. vm_compute. done. Qed.

(** The first turn is charged with the agent's whole history: no snapshot is taken when a
    conversation starts. *)
Theorem first_turn_charges_history (env : PairedEnv) (agentID : string) :
  peFails env QUsageSum = false ->
  let l := agent_usage agentID None (peUsage env) in
  0 <= total_tokens l <= max_int64 ->
  (resolveUsageDelta env false agentID ∅).1.1 = total_tokens l.
Proof.
  intros Hq l Hb. unfold resolveUsageDelta, succeeds. rewrite Hq. simpl. rewrite lookup_empty. simpl.
  fold l. rewrite Z.sub_0_r, wrap64_id by (unfold in_int64, min_int64, max_int64 in *; lia).
  destruct (Z.ltb_spec (total_tokens l) 0); [lia|done].
Qed.

Definition used (n : Z) : UsageRecord :=
  mkUsageRecord "ann" n 0 f64_zero EmptyString EmptyString EmptyString EmptyString EmptyString EmptyString EmptyString true EmptyString EmptyString 0.

Definition used_env (n : Z) : PairedEnv :=
  mkPairedEnv (fun _ => false) (fun _ => Some zero_limits) None (mkSpendingDB [used n] ∅ [] [] []) (fun _ => false)
    (fun t => t) (fun t => t) 1000 "m".

Lemma first_turn_charges_history_witness : (resolveUsageDelta (used_env 700) false "ann" ∅).1.1 = 700.
Proof. apply (first_turn_charges_history (used_env 700) "ann"); [done|]. by vm_compute. Defined.

(** An agent that has used 2^31 tokens in its life cannot hold a conversation: the first
    turn's tokens do not fit the column, and the conversation is stopped. *)
Theorem long_history_stops_conversation :
  let o := @paired_run ascii_case (map (fun ev => (used_env (2 ^ 31), ev)) one_turn) (NewPairedOrchestrator (NewBus [] [])) in
  messages_of "c1" o = [] /\ (cvStatus <$> orRows o !! "c1") = Some PairedStopped /\
  map snd (orAudit o) = ["persist message failed"].
Proof. vm_compute. done. Qed.

(** Any result between the two agents is taken for the answer of the turn: one that was sent
    for another request, before the speaker had seen the turn's message, is recorded. *)
Theorem unrelated_result_recorded :
  let o := now_run [EvStart "x" (talk 1); EvBegin 0; EvBus (answer "ann" "bob" "about another matter"); EvHead 0; EvWake 0] in
  map (fun m => (pmTurn m, pmContent m)) (messages_of "c1" o) = [(1, "about another matter")].
Proof. vm_compute. done. Qed.

(** ** Helpers *)

(** The time limit covers the delays of all turns three times over and is at least a
    minute, without overflow, for any conversation the table holds with delays of up to an
    hour. *)
Theorem timeout_covers_delays (c : Conversation) :
  1 <= cvMaxTurns c <= 100000 -> 0 <= cvTurnDelayMs c <= 3600000 ->
  deriveConversationTimeout c = Z.max 60000 (2 * cvMaxTurns c * (cvTurnDelayMs c + 3000) * 3 + 30000) * 1000000 /\
  2 * cvMaxTurns c * cvTurnDelayMs c * 1000000 < deriveConversationTimeout c.
Proof.
  intros Hm Hd. unfold deriveConversationTimeout.
  destruct (Z.leb_spec (cvMaxTurns c) 0); [lia|]. destruct (Z.ltb_spec (cvTurnDelayMs c) 0); [lia|].
  assert (0 <= cvMaxTurns c * 2 * (cvTurnDelayMs c + 3000) <= 200000 * 3603000) as Hp by nia.
  unfold in_int64, min_int64, max_int64 in *.
  rewrite (wrap64_id (cvMaxTurns c * 2)), (wrap64_id (cvTurnDelayMs c + 3000)) by (unfold in_int64, min_int64, max_int64; lia).
  rewrite (wrap64_id (cvMaxTurns c * 2 * _)) by (unfold in_int64, min_int64, max_int64; lia).
  rewrite (wrap64_id (_ * 3)) by (unfold in_int64, min_int64, max_int64; lia).
  rewrite (wrap64_id (_ + 30000)) by (unfold in_int64, min_int64, max_int64; lia).
  destruct (Z.ltb_spec (cvMaxTurns c * 2 * (cvTurnDelayMs c + 3000) * 3 + 30000) 60000);
    rewrite wrap64_id by (unfold in_int64, min_int64, max_int64; lia); split; nia.
Qed.

Lemma timeout_covers_delays_witness : deriveConversationTimeout (talk 10) = 210000 * 1000000.
Proof. by destruct (timeout_covers_delays (talk 10)) as [-> _]. Defined.
