(* ===== verification/GoFS.v ===== *)
(** The file system of the operating system, as Go's [os] and [path/filepath] show it.

    A file system maps locations (the names on the way from the root, which is always a
    directory) to files, directories and symbolic links.  [walk] resolves a path the way
    the kernel and [EvalSymlinks] do: one name at a time, [..] goes up from where the links
    have led, and the number of links is bounded.  What the system permits, and the
    metadata it reports, is the class [OS].  A write that starts is complete.

    Paths are absolute here; the working directory of the process is not modelled, and a
    relative path is an error ([RelativePath]). *)

From S2P Require Import Prelude GoString GoPath GoJson.
#[local] Open Scope Z_scope.

(** * Nodes and resolution *)

Inductive fs_node : Type :=
| FFile (content : string)
| FDir
| FLink (target : string).

Notation location := (list string).
Notation FS := (gmap (list string) fs_node).

Inductive FsError : Type :=
| NotExist
| NotDirectory
| IsDirectory
| Exists
| NotEmpty
| TooManyLinks
| PermissionDenied
| RelativePath.

Inductive FsOp : Type := OpLookup | OpRead | OpWrite | OpCreate | OpRemove.

#[export] Instance FsError_eq_dec : EqDecision FsError.
Proof. solve_decision. Defined.

#[export] Instance fs_node_eq_dec : EqDecision fs_node.
Proof. solve_decision. Defined.

(** What the system permits (and manages), and the metadata it keeps. *)
Class OS := {
  os_permits : FsOp -> location -> bool;
  os_dir_size : location -> Z;
  os_modified : location -> string;
  os_mode : location -> string;
}.

Definition node_at (fs : FS) (loc : location) : option fs_node :=
  if bool_decide (loc = []) then Some FDir else fs !! loc.

Definition is_nil {A} (l : list A) : bool := match l with [] => true | _ => false end.

(** Resolution of the names [todo] from the directory [loc].  [follow]: a link in the last
    place is followed; [create]: the last name need not exist. *)
Fixpoint walk `{OS} (links : nat) (follow create : bool) (fs : FS) : location -> list string -> result FsError location :=
  fix go (loc : location) (todo : list string) {struct todo} : result FsError location :=
    match todo with
    | [] => Ok loc
    | c :: rest =>
      if bool_decide (c = EmptyString \/ c = ".") then go loc rest
      else if bool_decide (c = "..") then go (removelast loc) rest
      else if negb (os_permits OpLookup (loc ++ [c])) then Err PermissionDenied
      else match fs !! (loc ++ [c]) with
           | None => if create && is_nil rest then Ok (loc ++ [c]) else Err NotExist
           | Some FDir => go (loc ++ [c]) rest
           | Some (FFile _) => if is_nil rest then Ok (loc ++ [c]) else Err NotDirectory
           | Some (FLink target) =>
             if negb follow && is_nil rest then Ok (loc ++ [c])
             else match links with
                  | O => Err TooManyLinks
                  | S links => walk links follow create fs (if is_abs target then [] else loc) (split_byte slash target ++ rest)
                  end
           end
    end.

(** The bounds on links of [filepath.EvalSymlinks] and of Linux. *)
Definition eval_links : nat := 255.
Definition kernel_links : nat := 40.

Definition locate `{OS} (links : nat) (follow create : bool) (fs : FS) (path : string) : result FsError location :=
  if is_abs path then walk links follow create fs [] (split_byte slash path) else Err RelativePath.

(** [filepath.EvalSymlinks] *)
Definition EvalSymlinks `{OS} (fs : FS) (path : string) : result FsError string :=
  let? loc := locate eval_links true false fs path in Ok (abs_of loc).

(** * Reading *)

(** [fs.FileInfo] *)
Record FileInfo := mkFileInfo { fiSize : Z; fiModified : string; fiIsDir : bool; fiMode : string }.

Definition node_size `{OS} (loc : location) (n : fs_node) : Z :=
  match n with
  | FFile s | FLink s => Z.of_nat (String.length s)
  | FDir => os_dir_size loc
  end.

Definition is_dir (n : fs_node) : bool := match n with FDir => true | _ => false end.

Definition info_of `{OS} (loc : location) (n : fs_node) : FileInfo :=
  mkFileInfo (node_size loc n) (os_modified loc) (is_dir n) (os_mode loc).

Definition info_at `{OS} (fs : FS) (loc : location) : result FsError FileInfo :=
  match node_at fs loc with Some n => Ok (info_of loc n) | None => Err NotExist end.

(** [os.Stat] and [os.Lstat] *)
Definition Stat `{OS} (fs : FS) (path : string) : result FsError FileInfo :=
  let? loc := locate kernel_links true false fs path in info_at fs loc.

Definition Lstat `{OS} (fs : FS) (path : string) : result FsError FileInfo :=
  let? loc := locate kernel_links false false fs path in info_at fs loc.

(** [os.ReadFile]: also what reading an opened file to its end gives. *)
Definition ReadFile `{OS} (fs : FS) (path : string) : result FsError string :=
  let? loc := locate kernel_links true false fs path in
  match node_at fs loc with
  | Some (FFile content) => if os_permits OpRead loc then Ok content else Err PermissionDenied
  | Some FDir => Err IsDirectory
  | _ => Err NotExist
  end.

(** The entries of a directory, in the order of their names. *)
Definition child_of (loc : location) (e : location * fs_node) : option (string * fs_node) :=
  match last e.1 with
  | Some c => if bool_decide (removelast e.1 = loc) then Some (c, e.2) else None
  | None => None
  end.

Definition children (fs : FS) (loc : location) : list (string * fs_node) := sort_keys (omap (child_of loc) (map_to_list fs)).

(** [os.ReadDir] *)
Definition ReadDir `{OS} (fs : FS) (path : string) : result FsError (location * list (string * fs_node)) :=
  let? loc := locate kernel_links true false fs path in
  match node_at fs loc with
  | Some FDir => if os_permits OpRead loc then Ok (loc, children fs loc) else Err PermissionDenied
  | Some _ => Err NotDirectory
  | None => Err NotExist
  end.

(** ** [filepath.WalkDir]: the answers of the function it calls *)
Inductive WalkAnswer : Type := WalkOn | WalkSkip | WalkFail (e : FsError).

Section walk_dir.
Context `{OS} {St : Type} (fs : FS) (fn : location -> fs_node -> option FsError -> St -> WalkAnswer * St).

Fixpoint walk_dir (fuel : nat) (loc : location) (n : fs_node) (st : St) : WalkAnswer * St :=
  match fuel with
  | O => (WalkOn, st)
  | S fuel =>
    match fn loc n None st with
    | (WalkOn, st) =>
      if negb (is_dir n) then (WalkOn, st)
      else
        match (if os_permits OpRead loc then (WalkOn, st) else fn loc n (Some PermissionDenied) st) with
        | (WalkOn, st) =>
          (fix each (l : list (string * fs_node)) (st : St) : WalkAnswer * St :=
             match l with
             | [] => (WalkOn, st)
             | (c, n) :: l =>
               match walk_dir fuel (loc ++ [c]) n st with
               | (WalkOn, st) => each l st
               | (WalkSkip, st) => (WalkOn, st)
               | (WalkFail e, st) => (WalkFail e, st)
               end
             end) (if os_permits OpRead loc then children fs loc else []) st
        | (WalkSkip, st) => (WalkOn, st)
        | (WalkFail e, st) => (WalkFail e, st)
        end
    | (WalkSkip, st) => (if is_dir n then WalkOn else WalkSkip, st)
    | (WalkFail e, st) => (WalkFail e, st)
    end
  end.

(** Directories nest no deeper than the longest location. *)
Definition tree_depth : nat := S (foldr (fun e k => Nat.max (length e.1) k) 0%nat (map_to_list fs)).

Definition WalkDir (root : string) (st : St) : option FsError * St :=
  let finish (r : WalkAnswer * St) := match r with (WalkFail e, st) => (Some e, st) | (_, st) => (None, st) end in
  match locate kernel_links false false fs root with
  | inr e => finish (fn (path_elems root) FDir (Some e) st)
  | inl loc =>
    match node_at fs loc with
    | None => finish (fn loc FDir (Some NotExist) st)
    | Some n => finish (walk_dir tree_depth loc n st)
    end
  end.
End walk_dir.

(** * Writing *)

(** [os.WriteFile] ([trunc]), and writing to a file opened with [O_APPEND|O_CREATE]. *)
Definition write_file `{OS} (trunc : bool) (fs : FS) (path data : string) : result FsError FS :=
  let? loc := locate kernel_links true true fs path in
  match node_at fs loc with
  | Some (FFile old) =>
    if os_permits OpWrite loc then Ok (<[loc := FFile (if trunc then data else old +:+ data)]> fs) else Err PermissionDenied
  | None => if os_permits OpCreate loc then Ok (<[loc := FFile data]> fs) else Err PermissionDenied
  | Some FDir => Err IsDirectory
  | Some (FLink _) => Err TooManyLinks
  end.

(** [os.Mkdir] *)
Definition Mkdir `{OS} (fs : FS) (path : string) : result FsError FS :=
  let? loc := locate kernel_links false true fs path in
  match node_at fs loc with
  | Some _ => Err Exists
  | None => if os_permits OpCreate loc then Ok (<[loc := FDir]> fs) else Err PermissionDenied
  end.

(** [os.MkdirAll], the names from the last to the first *)
Fixpoint mkdir_all `{OS} (names : list string) (fs : FS) : option FsError * FS :=
  let path := abs_of (rev names) in
  match Stat fs path with
  | inl dir => (if fiIsDir dir then None else Some NotDirectory, fs)
  | inr _ =>
    match names with
    | [] => (Some NotExist, fs)
    | _ :: parents =>
      match mkdir_all parents fs with
      | (Some e, fs) => (Some e, fs)
      | (None, fs) =>
        match Mkdir fs path with
        | inl fs => (None, fs)
        | inr e =>
          match Lstat fs path with
          | inl dir => (if fiIsDir dir then None else Some e, fs)
          | inr _ => (Some e, fs)
          end
        end
      end
    end
  end.

Definition MkdirAll `{OS} (fs : FS) (path : string) : option FsError * FS :=
  if is_abs path then mkdir_all (rev (path_elems path)) fs else (Some RelativePath, fs).

(** [os.CreateTemp] with the name it settles on: the path of the new file. *)
Definition CreateTemp `{OS} (fs : FS) (dir name : string) : result FsError (string * FS) :=
  let path := path_join dir name in
  let? loc := locate kernel_links false true fs path in
  match node_at fs loc with
  | Some _ => Err Exists
  | None => if os_permits OpCreate loc then Ok (path, <[loc := FFile EmptyString]> fs) else Err PermissionDenied
  end.

(** [os.Rename] of a file *)
Definition RenameFile `{OS} (fs : FS) (old new : string) : result FsError FS :=
  let? from := locate kernel_links false false fs old in
  let? to := locate kernel_links false true fs new in
  match node_at fs from, node_at fs to with
  | Some (FFile _), Some FDir => Err Exists
  | Some (FFile content), _ =>
    if os_permits OpRemove from && os_permits OpCreate to then Ok (<[to := FFile content]> (delete from fs)) else Err PermissionDenied
  | _, _ => Err NotExist
  end.

(** [os.Remove] *)
Definition Remove `{OS} (fs : FS) (path : string) : result FsError FS :=
  let? loc := locate kernel_links false false fs path in
  match node_at fs loc with
  | None => Err NotExist
  | Some n =>
    if is_dir n && negb (is_nil (children fs loc)) then Err NotEmpty
    else if bool_decide (loc = []) || negb (os_permits OpRemove loc) then Err PermissionDenied
    else Ok (delete loc fs)
  end.

(** [os.RemoveAll]: everything at or below the location goes that the system lets go; a
    directory goes when all of it does. *)
Definition below (loc p : location) : bool := bool_decide (take (length loc) p = loc).

Definition removable `{OS} (fs : FS) (p : location) : bool :=
  forallb (fun e => negb (below p e.1) || os_permits OpRemove e.1) (map_to_list fs).

Definition RemoveAll `{OS} (fs : FS) (path : string) : option FsError * FS :=
  match locate kernel_links false false fs path with
  | inr NotExist => (None, fs)
  | inr e => (Some e, fs)
  | inl loc =>
    let fs' := filter (fun e => ~ (below loc e.1 && removable fs e.1)) fs in
    (if bool_decide (loc = []) || existsb (fun e => below loc e.1) (map_to_list fs') then Some PermissionDenied else None, fs')
  end.

(** * Lemmas

    A location is real when the way to it leads through directories only, so that the text
    of the location resolves to the location itself. *)

Section locations.
Context `{OS} (fs : FS).

Inductive real_dir : location -> Prop :=
| real_root : real_dir []
| real_sub d c :
    real_dir d -> plain_elem c -> os_permits OpLookup (d ++ [c]) = true -> fs !! (d ++ [c]) = Some FDir -> real_dir (d ++ [c]).

(** What may stand in the last place. *)
Definition leaf_ok (follow create : bool) (n : option fs_node) : bool :=
  match n with
  | Some (FFile _) => true
  | Some FDir => false
  | Some (FLink _) => negb follow
  | None => create
  end.

Inductive located (follow create : bool) : location -> Prop :=
| located_dir p : real_dir p -> located follow create p
| located_leaf d c :
    real_dir d -> plain_elem c -> os_permits OpLookup (d ++ [c]) = true ->
    leaf_ok follow create (fs !! (d ++ [c])) = true -> located follow create (d ++ [c]).

Lemma real_dir_plain p : real_dir p -> Forall plain_elem p.
Proof. induction 1; [done|]. apply Forall_app. by rewrite Forall_singleton. Qed.

Lemma real_dir_up p : real_dir p -> real_dir (removelast p).
Proof. destruct 1; [constructor|]. by rewrite removelast_last. Qed.

Lemma real_dir_node p : real_dir p -> node_at fs p = Some FDir.
Proof. unfold node_at. case_bool_decide; [done|]. by destruct 1. Qed.

Lemma located_plain follow create p : located follow create p -> Forall plain_elem p.
Proof.
  destruct 1 as [p Hp|d c Hd Hc _ _]; [by apply real_dir_plain|].
  apply Forall_app. rewrite Forall_singleton. by split; [apply real_dir_plain|].
Qed.

Lemma located_any follow create p : located true false p -> located follow create p.
Proof.
  destruct 1 as [p Hp|d c Hd Hc Hper Hleaf]; [by constructor|]. apply located_leaf; [done..|].
  by destruct (fs !! (d ++ [c])) as [[]|].
Qed.

Lemma walk_cons links follow create loc c rest :
  walk links follow create fs loc (c :: rest) =
    if bool_decide (c = EmptyString \/ c = ".") then walk links follow create fs loc rest
    else if bool_decide (c = "..") then walk links follow create fs (removelast loc) rest
    else if negb (os_permits OpLookup (loc ++ [c])) then Err PermissionDenied
    else match fs !! (loc ++ [c]) with
         | None => if create && is_nil rest then Ok (loc ++ [c]) else Err NotExist
         | Some FDir => walk links follow create fs (loc ++ [c]) rest
         | Some (FFile _) => if is_nil rest then Ok (loc ++ [c]) else Err NotDirectory
         | Some (FLink target) =>
           if negb follow && is_nil rest then Ok (loc ++ [c])
           else match links with
                | O => Err TooManyLinks
                | S links => walk links follow create fs (if is_abs target then [] else loc) (split_byte slash target ++ rest)
                end
         end.
Proof. by destruct links. Qed.

Lemma walk_nil links follow create loc : walk links follow create fs loc [] = Ok loc.
Proof. by destruct links. Qed.

Lemma walk_located links follow create loc todo p :
  real_dir loc -> Forall (fun e => str_elem slash e = false) todo ->
  walk links follow create fs loc todo = Ok p -> located follow create p.
Proof.
  revert loc todo. induction links as [|links IHl]; intros loc todo; revert loc;
    (induction todo as [|c rest IH]; intros loc Hloc Htodo; [rewrite walk_nil; intros [= <-]; by constructor|]);
    inversion Htodo as [|? ? Hc Hrest]; subst; rewrite walk_cons;
    (case_bool_decide as H1; [by apply IH|]); (case_bool_decide as H2; [by apply IH; [apply real_dir_up|]|]);
    destruct (os_permits OpLookup (loc ++ [c])) eqn:Hper; try done; simpl;
    (assert (plain_elem c) as Hplain by (unfold plain_elem; tauto));
    destruct (fs !! (loc ++ [c])) as [[s| |t]|] eqn:Hn.
  1, 5: destruct rest; [|done]; intros [= <-]; apply located_leaf; [done..|by rewrite Hn].
  1, 4: apply IH; [by apply real_sub|done].
  1, 3: destruct (negb follow && is_nil rest) eqn:Ef; [intros [= <-]; apply located_leaf; [done..|];
    rewrite Hn; simpl; by apply andb_prop in Ef as [-> _]|].
  - done.
  - apply IHl; [by destruct (is_abs t); [constructor|]|]. apply Forall_app. by split; [apply split_slash_ok|].
  - destruct (create && is_nil rest) eqn:Ef; [intros [= <-]; apply located_leaf; [done..|]; rewrite Hn; simpl; by apply andb_prop in Ef as [-> _]|done].
  - destruct (create && is_nil rest) eqn:Ef; [intros [= <-]; apply located_leaf; [done..|]; rewrite Hn; simpl; by apply andb_prop in Ef as [-> _]|done].
Qed.

Lemma locate_located links follow create path p : locate links follow create fs path = Ok p -> located follow create p.
Proof.
  unfold locate. destruct (is_abs path); [|done]. apply walk_located; [constructor|apply split_slash_ok].
Qed.

(** The way through directories is walked as it is written. *)
Lemma plain_not_special c : plain_elem c -> ~ (c = EmptyString \/ c = ".") /\ c <> "..".
Proof. unfold plain_elem. tauto. Qed.

Lemma walk_real_dir links follow create p rest :
  real_dir p -> walk links follow create fs [] (p ++ rest) = walk links follow create fs p rest.
Proof.
  intros Hp. revert rest. induction Hp as [|d c Hd IH Hc Hper Hn]; intros rest; [done|].
  destruct (plain_not_special c Hc). rewrite <- app_assoc, IH. simpl. rewrite walk_cons.
  rewrite !bool_decide_eq_false_2 by done. by rewrite Hper, Hn.
Qed.

Lemma locate_abs_of links follow create p :
  Forall plain_elem p -> locate links follow create fs (abs_of p) = walk links follow create fs [] p.
Proof.
  intros Hp. unfold locate. replace (is_abs (abs_of p)) with true by (symmetry; apply (has_prefix_app slash_s)).
  destruct (decide (p = [])) as [->|Hne].
  - change (split_byte slash (abs_of [])) with [EmptyString; EmptyString]. rewrite !walk_cons. simpl. by rewrite walk_nil.
  - rewrite split_abs by done. rewrite walk_cons. by rewrite bool_decide_eq_true_2 by by left.
Qed.

Lemma locate_real_dir links follow create p : real_dir p -> locate links follow create fs (abs_of p) = Ok p.
Proof.
  intros Hp. rewrite locate_abs_of by by apply real_dir_plain. rewrite <- (app_nil_r p) at 1.
  rewrite walk_real_dir by done. apply walk_nil.
Qed.

(** One name below a real directory. *)
Lemma locate_last links follow create d c :
  real_dir d -> plain_elem c ->
  locate links follow create fs (abs_of (d ++ [c])) = walk links follow create fs d [c].
Proof.
  intros Hd Hc. rewrite locate_abs_of by (apply Forall_app; rewrite Forall_singleton; by split; [apply real_dir_plain|]).
  by apply walk_real_dir.
Qed.

Lemma locate_leaf links follow create d c :
  real_dir d -> plain_elem c -> os_permits OpLookup (d ++ [c]) = true -> leaf_ok follow create (fs !! (d ++ [c])) = true ->
  locate links follow create fs (abs_of (d ++ [c])) = Ok (d ++ [c]).
Proof.
  intros Hd Hc Hper Hleaf. destruct (plain_not_special c Hc). rewrite locate_last, walk_cons by done.
  rewrite !bool_decide_eq_false_2, Hper by done. simpl. rewrite !andb_true_r.
  by destruct (fs !! (d ++ [c])) as [[]|]; simpl in *; rewrite ?Hleaf.
Qed.

(** Resolving a location that was found gives the location. *)
Lemma locate_again links follow create p :
  located follow create p -> locate links follow create fs (abs_of p) = Ok p.
Proof. destruct 1 as [p Hp|d c Hd Hc Hper Hleaf]; [by apply locate_real_dir|by apply locate_leaf]. Qed.

Lemma located_node follow create p : located follow create p -> p <> [] -> node_at fs p = fs !! p.
Proof. intros _ Hne. unfold node_at. by rewrite bool_decide_eq_false_2. Qed.

Lemma located_cases follow create p :
  located follow create p ->
  real_dir p \/ node_at fs p = fs !! p /\ leaf_ok follow create (fs !! p) = true /\ p <> [].
Proof.
  destruct 1 as [p Hp|d c Hd Hc Hper Hleaf]; [by left|right]. unfold node_at.
  rewrite bool_decide_eq_false_2 by (by destruct d). split_and!; [done..|by destruct d].
Qed.

Lemma real_located p : located true false p -> node_at fs p <> None.
Proof.
  intros [Hp|(-> & Hleaf & _)]%located_cases; [by rewrite real_dir_node|].
  by destruct (fs !! p) as [[]|].
Qed.

(** A larger bound on links changes nothing but the refusal of too many. *)
Lemma walk_more k links follow create loc todo :
  walk links follow create fs loc todo <> Err TooManyLinks ->
  walk (k + links) follow create fs loc todo = walk links follow create fs loc todo.
Proof.
  revert loc todo. induction links as [|links IHl]; intros loc todo; revert loc;
    (induction todo as [|c rest IH]; intros loc; [by rewrite !walk_nil|]); rewrite !walk_cons;
    (case_bool_decide; [by apply IH|]); (case_bool_decide; [by apply IH|]);
    (destruct (negb _); [done|]); (destruct (fs !! _) as [[s| |t]|]; [done|by apply IH| |done]);
    (destruct (negb follow && _); [done|]); [done|].
  rewrite Nat.add_succ_r. apply IHl.
Qed.

Lemma walk_agree l1 l2 follow create loc todo p :
  walk l1 follow create fs loc todo = Ok p ->
  walk l2 follow create fs loc todo = Ok p \/ walk l2 follow create fs loc todo = Err TooManyLinks.
Proof.
  intros Hp. destruct (decide (walk l2 follow create fs loc todo = Err TooManyLinks)) as [|Hne]; [by right|left].
  destruct (Nat.le_ge_cases l1 l2) as [Hle|Hle].
  - replace l2 with (l2 - l1 + l1)%nat by lia. rewrite walk_more; by rewrite Hp.
  - rewrite <- (walk_more (l1 - l2) l2) by done. by replace (l1 - l2 + l2)%nat with l1 by lia.
Qed.

(** A walk that leads to a directory can be continued from there. *)
Lemma walk_app l1 l2 loc todo d rest p :
  real_dir d -> walk l1 true false fs loc todo = Ok d -> walk l2 true false fs d rest = Ok p ->
  walk (l1 + l2) true false fs loc (todo ++ rest) = Ok p.
Proof.
  intros Hd H1 H2. assert (node_at fs d = Some FDir) as Hnode by by apply real_dir_node.
  revert loc todo H1. induction l1 as [|l1 IHl]; intros loc todo; revert loc;
    (induction todo as [|c todo IH]; intros loc;
      [rewrite walk_nil; intros [= ->]; simpl app;
       rewrite <- H2; apply walk_more; by rewrite H2|]);
    simpl app; rewrite !walk_cons;
    (case_bool_decide; [by apply IH|]); (case_bool_decide; [by apply IH|]); (destruct (negb _); [done|]);
    destruct (fs !! (loc ++ [c])) as [[s| |t]|] eqn:E; simpl; try done; try by apply IH.
  - destruct todo; [|done]. intros [= <-]. revert Hnode. unfold node_at. rewrite bool_decide_eq_false_2 by (by destruct loc).
    congruence.
  - destruct todo; [|done]. intros [= <-]. revert Hnode. unfold node_at. rewrite bool_decide_eq_false_2 by (by destruct loc).
    congruence.
  - rewrite app_assoc. apply IHl.
Qed.

(** And by one name that is looked up in another way, such as a link that is not followed. *)
Lemma walk_last l1 follow create loc todo d c p :
  real_dir d -> walk l1 true false fs loc todo = Ok d -> walk 0 follow create fs d [c] = Ok p ->
  walk l1 follow create fs loc (todo ++ [c]) = Ok p.
Proof.
  intros Hd H1 H2. assert (node_at fs d = Some FDir) as Hnode by by apply real_dir_node.
  revert loc todo H1. induction l1 as [|l1 IHl]; intros loc todo; revert loc;
    (induction todo as [|e todo IH]; intros loc;
      [rewrite walk_nil; intros [= ->]; simpl app; rewrite <- H2;
       match goal with |- walk ?k _ _ _ _ _ = _ => rewrite <- (walk_more k 0) by (by rewrite H2) end; by rewrite Nat.add_0_r|]);
    simpl app; rewrite !walk_cons;
    (case_bool_decide; [by apply IH|]); (case_bool_decide; [by apply IH|]); (destruct (negb (os_permits _ _)); [done|]);
    replace (is_nil (todo ++ [c])) with false by (by destruct todo); rewrite !andb_false_r;
    destruct (fs !! (loc ++ [e])) as [[s| |t]|] eqn:E; simpl; try done; try by apply IH.
  - destruct todo; [|done]. intros [= <-]. revert Hnode. unfold node_at. rewrite bool_decide_eq_false_2 by (by destruct loc).
    congruence.
  - destruct todo; [|done]. intros [= <-]. revert Hnode. unfold node_at. rewrite bool_decide_eq_false_2 by (by destruct loc).
    congruence.
  - rewrite app_assoc. apply IHl.
Qed.

(** A walk over several names gets to a real directory before the last one. *)
Lemma walk_split l follow create loc todo c p :
  real_dir loc -> Forall (fun e => str_elem slash e = false) todo -> plain_elem c ->
  walk l follow create fs loc (todo ++ [c]) = Ok p ->
  exists l' d, (l' <= l)%nat /\ real_dir d /\ walk l true false fs loc todo = Ok d /\ walk l' follow create fs d [c] = Ok p.
Proof.
  intros Hloc Htodo Hc. revert loc todo Hloc Htodo. induction l as [|l IHl]; intros loc todo; revert loc;
    (induction todo as [|e todo IH]; intros loc Hloc Htodo;
      [simpl app; intros Hp; eexists _, loc; rewrite walk_nil; split_and!; [|done|done|exact Hp]; lia|]);
    inversion Htodo as [|? ? He Htodo']; subst; simpl app; rewrite walk_cons;
    (case_bool_decide as H1;
      [intros Hp; destruct (IH _ Hloc Htodo' Hp) as (l' & d & Hd); exists l', d; by rewrite walk_cons, bool_decide_eq_true_2|]);
    (case_bool_decide as H2;
      [intros Hp; destruct (IH _ (real_dir_up _ Hloc) Htodo' Hp) as (l' & d & Hd); exists l', d;
       by rewrite walk_cons, bool_decide_eq_false_2, bool_decide_eq_true_2|]);
    destruct (os_permits OpLookup (loc ++ [e])) eqn:Hper; try done; simpl negb; cbn iota;
    destruct (fs !! (loc ++ [e])) as [[s| |t]|] eqn:Hn.
  1, 5: by destruct todo.
  1, 4: intros Hp; assert (real_dir (loc ++ [e])) as Hr by (apply real_sub; [done|unfold plain_elem; tauto|done..]);
    destruct (IH _ Hr Htodo' Hp) as (l' & d & Hd); exists l', d;
    by rewrite walk_cons, !bool_decide_eq_false_2, Hper, Hn.
  1, 3: replace (negb follow && is_nil (todo ++ [c])) with false by (by destruct todo, follow).
  - done.
  - rewrite app_assoc. intros Hp. apply IHl in Hp as (l' & d & Hle & Hd);
      [|by destruct (is_abs t); [constructor|]|apply Forall_app; by split; [apply split_slash_ok|]].
    exists l', d. rewrite walk_cons, !bool_decide_eq_false_2, Hper, Hn by done. simpl. split; [lia|done].
  - by destruct todo, create.
  - by destruct todo, create.
Qed.

(** A file or nothing is in the way: nothing below resolves. *)
Lemma locate_below_leaf links follow create p c :
  located true false p -> ~ real_dir p -> plain_elem c ->
  locate links follow create fs (abs_of (p ++ [c])) = Err NotDirectory.
Proof.
  destruct 1 as [p Hp|d b Hd Hb Hper Hleaf]; [done|]. intros Hno Hc. destruct (plain_not_special b Hb).
  rewrite locate_abs_of, <- app_assoc, walk_real_dir; [|done|].
  - simpl. rewrite walk_cons, !bool_decide_eq_false_2, Hper by done. simpl.
    destruct (fs !! (d ++ [b])) as [[]|] eqn:E; done.
  - rewrite !Forall_app, !Forall_singleton. by split_and!; [apply real_dir_plain| |].
Qed.
End locations.

(** Directories that stay keep what is real. *)
Lemma real_dir_mono `{OS} fs fs' d :
  (forall q, fs !! q = Some FDir -> fs' !! q = Some FDir) -> real_dir fs d -> real_dir fs' d.
Proof. intros Hq. induction 1; [constructor|]. apply real_sub; auto. Qed.

Lemma real_dir_insert `{OS} fs q n d : fs !! q = None -> real_dir fs d -> real_dir (<[q := n]> fs) d.
Proof. intros Hq. apply real_dir_mono. intros q' Hn. rewrite lookup_insert_ne; [done|]. intros ->. congruence. Qed.

(** * Effects on a settled path

    A location is settled when its parent is real: what the operations do with the text of
    such a location happens there, unless they follow a link in the last place. *)

Definition settled `{OS} (fs : FS) (p : location) : Prop :=
  p = [] \/ exists d c, p = d ++ [c] /\ plain_elem c /\ located fs true false d.

(** The locations where two file systems differ. *)
Definition differs (fs fs' : FS) (p : location) : Prop := fs' !! p <> fs !! p.

Lemma differs_insert fs q n p : differs fs (<[q := n]> fs) p -> p = q.
Proof. unfold differs. destruct (decide (p = q)) as [|Hne]; [done|]. by rewrite lookup_insert_ne. Qed.

Lemma differs_delete fs q p : differs fs (delete q fs) p -> p = q.
Proof. unfold differs. destruct (decide (p = q)) as [|Hne]; [done|]. by rewrite lookup_delete_ne. Qed.

Lemma differs_refl fs p : ~ differs fs fs p.
Proof. unfold differs. tauto. Qed.

Section effects.
Context `{OS} (fs : FS).

Lemma located_settled p : located fs true false p -> settled fs p.
Proof.
  destruct 1 as [p Hp|d c Hd Hc Hper Hleaf].
  - destruct Hp as [|d c Hd Hc _ _]; [by left|right]. exists d, c. split_and!; [done..|by constructor].
  - right. exists d, c. split_and!; [done..|by constructor].
Qed.

Lemma settled_plain p : settled fs p -> Forall plain_elem p.
Proof.
  intros [->|(d & c & -> & Hc & Hd)]; [done|]. apply Forall_app. rewrite Forall_singleton.
  split; [by eapply located_plain|done].
Qed.

Lemma real_dir_dec d : located fs true false d -> real_dir fs d \/ ~ real_dir fs d /\ node_at fs d <> Some FDir.
Proof.
  intros Hd. destruct (located_cases _ _ _ _ Hd) as [|(Hn & Hleaf & Hne)]; [by left|right].
  rewrite Hn. destruct (fs !! d) as [[]|] eqn:E; try done; (split; [|done]);
    intros Hr%real_dir_node; congruence.
Qed.

(** What a path does not name is not named by its resolved parent and its last name. *)
Definition dangling (p : location) : Prop := forall links q, locate links true false fs (abs_of p) <> Ok q.

Lemma locate_missing l1 l2 es c d :
  Forall plain_elem es -> plain_elem c -> locate l1 true false fs (abs_of es) = Ok d ->
  locate l2 true false fs (abs_of (es ++ [c])) = Err NotExist -> dangling (d ++ [c]).
Proof.
  intros Hes Hc Hd Hm links q. pose proof (locate_located _ _ _ _ _ _ Hd) as Hloc.
  destruct (real_dir_dec d Hloc) as [Hr|[Hno _]]; [|by rewrite locate_below_leaf].
  rewrite locate_last by done. intros Hq. rewrite locate_abs_of in Hd by done.
  rewrite locate_abs_of in Hm by (apply Forall_app; by rewrite Forall_singleton).
  destruct (walk_agree fs (l1 + links) l2 true false [] (es ++ [c]) q) as [E|E]; [by eapply walk_app|by rewrite E in Hm..].
Qed.

Lemma locate_settled links follow create p q :
  settled fs p -> locate links follow create fs (abs_of p) = Ok q ->
  (q = p /\ located fs follow create p) \/ (follow = true /\ exists t, fs !! p = Some (FLink t)).
Proof.
  intros [->|(d & c & -> & Hc & Hd)] Hq.
  - pose proof (locate_real_dir fs links follow create [] (real_root fs)) as E. rewrite E in Hq. injection Hq as <-.
    left. split; [done|by constructor; constructor].
  - destruct (real_dir_dec d Hd) as [Hr|[Hno _]]; [|by rewrite locate_below_leaf in Hq].
    destruct (plain_not_special c Hc). rewrite locate_last, walk_cons, !bool_decide_eq_false_2 in Hq by done.
    destruct (os_permits OpLookup (d ++ [c])) eqn:Hper; [|done]. simpl in Hq. rewrite !andb_true_r in Hq.
    destruct (fs !! (d ++ [c])) as [[s| |t]|] eqn:E.
    + injection Hq as <-. left. split; [done|]. apply located_leaf; by rewrite ?E.
    + rewrite walk_nil in Hq. injection Hq as <-. left. split; [done|]. constructor. by apply real_sub.
    + destruct follow; [right; eauto|]. injection Hq as <-. left. split; [done|]. apply located_leaf; by rewrite ?E.
    + destruct create; [|done]. injection Hq as <-. left. split; [done|]. apply located_leaf; by rewrite ?E.
Qed.

Lemma locate_settled_nofollow links create p q :
  settled fs p -> locate links false create fs (abs_of p) = Ok q -> q = p /\ located fs false create p.
Proof. intros Hp Hq. destruct (locate_settled _ _ _ _ _ Hp Hq) as [|[? _]]; [done|done]. Qed.

Lemma real_parent links follow create p q :
  settled fs p -> p <> [] -> locate links follow create fs (abs_of p) = Ok q -> real_dir fs (removelast p) /\ os_permits OpLookup p = true.
Proof.
  intros [->|(d & c & -> & Hc & Hd)] Hne Hq; [done|]. rewrite removelast_last.
  destruct (real_dir_dec d Hd) as [Hr|[Hno _]]; [|by rewrite locate_below_leaf in Hq].
  split; [done|]. destruct (plain_not_special c Hc). rewrite locate_last, walk_cons, !bool_decide_eq_false_2 in Hq by done.
  by destruct (os_permits OpLookup (d ++ [c])).
Qed.

Lemma write_file_effect trunc p data fs' :
  settled fs p -> write_file trunc fs (abs_of p) data = Ok fs' ->
  (p <> [] /\ fs' = <[p := FFile match fs !! p with Some (FFile old) => if trunc then data else old +:+ data | _ => data end]> fs)
  \/ exists t q s, p <> [] /\ fs !! p = Some (FLink t) /\ locate kernel_links true true fs (abs_of p) = Ok q /\ fs' = <[q := FFile s]> fs.
Proof.
  unfold write_file. intros Hp. destruct (locate _ _ _ _ _) as [q|] eqn:Hq; [|done]. simpl. intros Hw.
  destruct (locate_settled _ _ _ _ _ Hp Hq) as [[-> _]|[_ [t Hlink]]].
  2:{ right. exists t, q. assert (p <> []) as Hne.
      { intros ->. rewrite (locate_real_dir fs _ _ _ [] (real_root fs)) in Hq. by injection Hq as <-. }
      destruct (node_at fs q) as [[]|]; try done; destruct (os_permits _ _); try done; injection Hw as <-; by eexists. }
  left. unfold node_at in *.
  case_bool_decide; [done|]. split; [done|].
  destruct (fs !! p) as [[old| |t]|] eqn:E; [|done|done|]; destruct (os_permits _ _); try done; by injection Hw as <-.
Qed.

Lemma Mkdir_effect p fs' : settled fs p -> Mkdir fs (abs_of p) = Ok fs' -> fs !! p = None /\ fs' = <[p := FDir]> fs.
Proof.
  unfold Mkdir. intros Hp. destruct (locate _ _ _ _ _) as [q|] eqn:Hq; [|done]. simpl.
  destruct (locate_settled_nofollow _ _ _ _ Hp Hq) as [-> _]. destruct (node_at fs p) as [n|] eqn:E; [done|].
  destruct (os_permits _ _); [|done]. intros [= <-]. unfold node_at in E. by case_bool_decide.
Qed.

Lemma Stat_located p : located fs true false p -> exists n, node_at fs p = Some n /\ Stat fs (abs_of p) = Ok (info_of p n).
Proof.
  intros Hp. unfold Stat. rewrite locate_again by done. simpl. unfold info_at.
  destruct (node_at fs p) as [n|] eqn:E; [by eauto|]. by apply real_located in Hp.
Qed.

(** The parent of a settled location is there, so nothing but the location is made. *)
Lemma mkdir_all_there names p : located fs true false p -> names = rev p -> (mkdir_all names fs).2 = fs.
Proof.
  intros Hp ->. destruct (Stat_located p Hp) as (n & _ & E). rewrite <- (rev_involutive p) in E.
  destruct (rev p) as [|c l]; cbn [mkdir_all]; by rewrite E.
Qed.

Lemma MkdirAll_located p : located fs true false p -> (MkdirAll fs (abs_of p)).2 = fs.
Proof.
  intros Hp. unfold MkdirAll. replace (is_abs (abs_of p)) with true by (symmetry; apply (has_prefix_app slash_s)).
  rewrite path_elems_abs by by eapply located_plain. by apply (mkdir_all_there _ p).
Qed.

Lemma mkdir_all_cons c l :
  mkdir_all (c :: l) fs =
    match Stat fs (abs_of (rev (c :: l))) with
    | inl dir => (if fiIsDir dir then None else Some NotDirectory, fs)
    | inr _ =>
      match mkdir_all l fs with
      | (Some e, fs) => (Some e, fs)
      | (None, fs) =>
        match Mkdir fs (abs_of (rev (c :: l))) with
        | inl fs => (None, fs)
        | inr e =>
          match Lstat fs (abs_of (rev (c :: l))) with
          | inl dir => (if fiIsDir dir then None else Some e, fs)
          | inr _ => (Some e, fs)
          end
        end
      end
    end.
Proof. done. Qed.

Lemma MkdirAll_effect p e fs' :
  settled fs p -> MkdirAll fs (abs_of p) = (e, fs') -> fs' = fs \/ (e = None /\ fs !! p = None /\ fs' = <[p := FDir]> fs).
Proof.
  intros Hp. unfold MkdirAll. replace (is_abs (abs_of p)) with true by (symmetry; apply (has_prefix_app slash_s)).
  rewrite path_elems_abs by by apply settled_plain. pose proof Hp as [->|(d & c & -> & Hc & Hd)].
  - pose proof (mkdir_all_there (rev []) [] (located_dir _ _ _ [] (real_root fs)) eq_refl) as E.
    destruct (mkdir_all (rev []) fs) as [e' fs'']. simpl in E. subst. intros [= <- <-]. by left.
  - rewrite rev_unit, mkdir_all_cons. change (rev (c :: rev d)) with (rev (rev d) ++ [c]). rewrite rev_involutive.
    destruct (Stat fs _); [intros [= <- <-]; by left|].
    pose proof (mkdir_all_there (rev d) d Hd eq_refl) as E. destruct (mkdir_all (rev d) fs) as [[e'|] fs1]; simpl in E; subst fs1;
      [intros [= <- <-]; by left|].
    destruct (Mkdir fs _) as [fs2|e2] eqn:Em; [|destruct (Lstat fs _); intros [= <- <-]; by left].
    intros [= <- <-]. right. split; [done|]. by apply Mkdir_effect.
Qed.

Lemma Remove_effect p fs' :
  settled fs p -> Remove fs (abs_of p) = Ok fs' -> p <> [] /\ fs' = delete p fs /\ fs !! p <> None.
Proof.
  unfold Remove. intros Hp. destruct (locate _ _ _ _ _) as [q|] eqn:Hq; [|done]. simpl.
  destruct (locate_settled_nofollow _ _ _ _ Hp Hq) as [-> _]. unfold node_at. case_bool_decide as Hne; [by destruct (is_dir _ && _)|].
  destruct (fs !! p); [|done]. destruct (_ && _); [done|]. simpl. destruct (negb _); [done|]. intros [= <-]. done.
Qed.

(** Removal of a file in a real directory. *)
Lemma Remove_leaf d c s :
  real_dir fs d -> plain_elem c -> os_permits OpLookup (d ++ [c]) = true -> fs !! (d ++ [c]) = Some (FFile s) ->
  Remove fs (abs_of (d ++ [c])) = if os_permits OpRemove (d ++ [c]) then Ok (delete (d ++ [c]) fs) else Err PermissionDenied.
Proof.
  intros Hd Hc Hper Hn. unfold Remove. rewrite locate_leaf by (by rewrite ?Hn). simpl.
  unfold node_at. rewrite !bool_decide_eq_false_2 by (by destruct d). rewrite Hn. simpl. by destruct (os_permits OpRemove (d ++ [c])).
Qed.

Lemma Remove_missing d c :
  real_dir fs d -> plain_elem c -> os_permits OpLookup (d ++ [c]) = true -> fs !! (d ++ [c]) = None ->
  Remove fs (abs_of (d ++ [c])) = Err NotExist.
Proof.
  intros Hd Hc Hper Hn. destruct (plain_not_special c Hc). unfold Remove.
  rewrite locate_last, walk_cons, !bool_decide_eq_false_2 by done. by rewrite Hper, Hn.
Qed.

Lemma RemoveAll_effect p e fs' q :
  settled fs p -> RemoveAll fs (abs_of p) = (e, fs') -> differs fs fs' q -> below p q = true /\ fs' !! q = None.
Proof.
  unfold RemoveAll. intros Hp. destruct (locate _ _ _ _ _) as [loc|[]] eqn:Hq;
    try (intros [= <- <-]; by intros ?%differs_refl).
  destruct (locate_settled_nofollow _ _ _ _ Hp Hq) as [-> _]. intros [= <- <-]. unfold differs.
  rewrite map_lookup_filter. destruct (fs !! q) as [n|] eqn:E; rewrite ?E; simpl; [|done].
  case_guard as Hk; simpl; [done|]. intros _. split; [|done].
  destruct (below p q); [done|]. by destruct Hk; intros ?.
Qed.
(** When all goes, all that is at or below the location is gone, and nothing else. *)
Lemma RemoveAll_all p fs' :
  located fs true false p -> RemoveAll fs (abs_of p) = (None, fs') ->
  p <> [] /\ forall q, fs' !! q = if below p q then None else fs !! q.
Proof.
  intros Hl. unfold RemoveAll. rewrite locate_again by by apply located_any. unfold Ok. cbn zeta iota beta.
  match goal with |- context [filter ?P fs] => set (kept := filter P fs) end.
  case_bool_decide as Hne; simpl; [done|]. destruct (existsb _ _) eqn:Hall; [done|]. intros [= <-]. split; [done|]. intros q.
  destruct (below p q) eqn:Hb.
  - destruct (kept !! q) as [n|] eqn:Hq; [|done]. exfalso.
    pose proof (proj1 (existsb_elem_false _ _) Hall (q, n)) as Hno. simpl in Hno. rewrite Hno in Hb; [done|].
    by apply elem_of_map_to_list.
  - unfold kept. rewrite map_lookup_filter. destruct (fs !! q) as [n|] eqn:Hq; rewrite ?Hq; simpl; [|done].
    case_guard as Hk; simpl; [done|]. exfalso. by rewrite Hb in Hk.
Qed.
End effects.

(** * Paths that lead through links

    A path of names [es] resolves to [d]; below it, names [t] that are not there yet. *)

Lemma walk_ext `{OS} fs fs' links loc todo p :
  (forall q n, fs !! q = Some n -> fs' !! q = Some n) ->
  walk links true false fs loc todo = Ok p -> walk links true false fs' loc todo = Ok p.
Proof.
  intros Hsub. revert loc todo. induction links as [|links IHl]; intros loc todo; revert loc;
    (induction todo as [|c rest IH]; intros loc; [by rewrite !walk_nil|]); rewrite !walk_cons;
    (case_bool_decide; [by apply IH|]); (case_bool_decide; [by apply IH|]);
    (destruct (negb _); [done|]); destruct (fs !! (loc ++ [c])) as [[s| |t]|] eqn:E; simpl; try done;
    rewrite (Hsub _ _ E); try done; try by apply IH.
  by apply IHl.
Qed.

Lemma locate_ext `{OS} fs fs' links path p :
  (forall q n, fs !! q = Some n -> fs' !! q = Some n) ->
  locate links true false fs path = Ok p -> locate links true false fs' path = Ok p.
Proof. unfold locate. destruct (is_abs path); [|done]. apply walk_ext. Qed.

Section chains.
Context `{OS} (fs : FS).

Lemma locate_agree l1 l2 path p q :
  locate l1 true false fs path = Ok p -> locate l2 true false fs path = Ok q -> q = p.
Proof.
  unfold locate. destruct (is_abs path); [|done]. intros H1 H2.
  destruct (walk_agree fs l1 l2 true false [] (split_byte slash path) p H1) as [E|E]; rewrite E in H2; [by injection H2|done].
Qed.

Lemma kernel_eval path p : locate kernel_links true false fs path = Ok p -> locate eval_links true false fs path = Ok p.
Proof.
  unfold locate. destruct (is_abs path); [|done]. intros Hk. change eval_links with (215 + kernel_links)%nat.
  rewrite walk_more; by rewrite Hk.
Qed.

Lemma plain_app (es t : list string) : Forall plain_elem es -> Forall plain_elem t -> Forall plain_elem (es ++ t).
Proof. intros. by apply Forall_app. Qed.

Lemma plain_snoc (es : list string) c : Forall plain_elem es -> plain_elem c -> Forall plain_elem (es ++ [c]).
Proof. intros. apply plain_app; [done|by apply Forall_singleton]. Qed.

Lemma plain_noslash (es : list string) : Forall plain_elem es -> Forall (fun e => str_elem slash e = false) es.
Proof. intros He. eapply Forall_impl; [exact He|]. by intros e [? _]. Qed.

(** The last name of a path, from the resolution of the others. *)
Lemma locate_split l follow create es c p :
  Forall plain_elem es -> plain_elem c -> locate l follow create fs (abs_of (es ++ [c])) = Ok p ->
  exists l' d, real_dir fs d /\ locate l true false fs (abs_of es) = Ok d /\ (l' <= l)%nat /\ walk l' follow create fs d [c] = Ok p.
Proof.
  intros Hes Hc. rewrite !locate_abs_of by (try done; by apply plain_snoc). intros Hp.
  apply walk_split in Hp as (l' & d & Hle & Hd & Hw & Hlast); [|constructor|by apply plain_noslash|done]. by exists l', d.
Qed.

(** The resolution of all names but the last, and the last, make the resolution. *)
Lemma locate_snoc l es c d p :
  Forall plain_elem es -> plain_elem c -> real_dir fs d -> locate l true false fs (abs_of es) = Ok d ->
  walk 0 true false fs d [c] = Ok p -> locate l true false fs (abs_of (es ++ [c])) = Ok p.
Proof.
  intros Hes Hc Hd. rewrite !locate_abs_of by (try done; by apply plain_snoc). intros H1 H2.
  replace l with (l + 0)%nat by lia. by eapply walk_app.
Qed.

(** What one name names in a real directory. *)
Lemma walk_one l follow create d c p :
  plain_elem c -> walk l follow create fs d [c] = Ok p ->
  os_permits OpLookup (d ++ [c]) = true /\
  match fs !! (d ++ [c]) with
  | Some (FLink _) => follow = true \/ p = d ++ [c]
  | None => p = d ++ [c] /\ create = true
  | Some _ => p = d ++ [c]
  end.
Proof.
  intros Hc. destruct (plain_not_special c Hc). rewrite walk_cons, !bool_decide_eq_false_2 by done.
  destruct (os_permits OpLookup (d ++ [c])); [|done]. simpl. rewrite !andb_true_r.
  destruct (fs !! (d ++ [c])) as [[s| |t]|]; simpl; rewrite ?walk_nil.
  - by intros [= <-].
  - by intros [= <-].
  - destruct follow; simpl; [by auto|]. intros [= <-]. auto.
  - destruct create; [|done]. by intros [= <-].
Qed.

Lemma walk_one_here l follow create d c n :
  plain_elem c -> os_permits OpLookup (d ++ [c]) = true -> fs !! (d ++ [c]) = Some n -> (forall t, n <> FLink t) ->
  walk l follow create fs d [c] = Ok (d ++ [c]).
Proof.
  intros Hc Hper Hn Hno. destruct (plain_not_special c Hc). rewrite walk_cons, !bool_decide_eq_false_2, Hper, Hn by done.
  simpl. destruct n as [s| |t]; [done|apply walk_nil|by destruct (Hno t)].
Qed.

(** [Mkdir] makes the last name in the directory the others lead to. *)
Lemma Mkdir_path es c fs' :
  Forall plain_elem es -> plain_elem c -> Mkdir fs (abs_of (es ++ [c])) = Ok fs' ->
  exists d, real_dir fs d /\ locate kernel_links true false fs (abs_of es) = Ok d /\
    os_permits OpLookup (d ++ [c]) = true /\ fs !! (d ++ [c]) = None /\ fs' = <[d ++ [c] := FDir]> fs.
Proof.
  intros Hes Hc. unfold Mkdir. destruct (locate _ _ _ _ _) as [q|] eqn:Hq; [|done]. simpl.
  apply locate_split in Hq as (l' & d & Hd & Hl & _ & Hw); [|done..]. apply walk_one in Hw as [Hper Hw]; [|done].
  intros Hm. exists d. assert (q = d ++ [c]) as ->.
  { destruct (fs !! (d ++ [c])) as [[]|]; try done; [by destruct Hw as [[=]|]|by destruct Hw]. }
  unfold node_at in Hm. rewrite bool_decide_eq_false_2 in Hm by (by destruct d).
  destruct (fs !! (d ++ [c])); [done|]. destruct (os_permits OpCreate _); [|done]. by injection Hm as <-.
Qed.

(** [Lstat] of a directory sees what [Stat] sees. *)
Lemma Lstat_dir es c info :
  Forall plain_elem es -> plain_elem c -> Lstat fs (abs_of (es ++ [c])) = Ok info -> fiIsDir info = true ->
  exists d, real_dir fs d /\ locate kernel_links true false fs (abs_of es) = Ok d /\ fs !! (d ++ [c]) = Some FDir /\
    locate kernel_links true false fs (abs_of (es ++ [c])) = Ok (d ++ [c]).
Proof.
  intros Hes Hc. unfold Lstat, info_at. intros Hi Hdir.
  destruct (locate kernel_links false false fs (abs_of (es ++ [c]))) as [q|] eqn:Hq; simpl in Hi; [|discriminate Hi].
  apply locate_split in Hq as (l' & d & Hd & Hl & _ & Hw); [|assumption..]. apply walk_one in Hw as [Hper Hw]; [|done].
  exists d.
  assert (q = d ++ [c]) as ->.
  { destruct (fs !! (d ++ [c])) as [[]|]; try done; [by destruct Hw as [[=]|]|by destruct Hw]. }
  unfold node_at in Hi. rewrite bool_decide_eq_false_2 in Hi by (by destruct d).
  destruct (fs !! (d ++ [c])) as [n|] eqn:Hn; [|done]. injection Hi as <-.
  assert (n = FDir) as -> by (by destruct n). split_and!; [done..|].
  eapply locate_snoc; [done..|]. by eapply walk_one_here.
Qed.

(** What exists is found as well when it need not exist. *)
Lemma walk_create links loc todo p :
  walk links true false fs loc todo = Ok p -> walk links true true fs loc todo = Ok p.
Proof.
  revert loc todo. induction links as [|links IHl]; intros loc todo; revert loc;
    (induction todo as [|c rest IH]; intros loc; [by rewrite !walk_nil|]); rewrite !walk_cons;
    (case_bool_decide; [by apply IH|]); (case_bool_decide; [by apply IH|]);
    (destruct (negb _); [done|]); destruct (fs !! (loc ++ [c])) as [[s| |t]|]; simpl; try done; try by apply IH.
  by apply IHl.
Qed.

(** And what is found when it need not exist either exists or is missing there. *)
Lemma walk_created links loc todo p :
  walk links true true fs loc todo = Ok p -> walk links true false fs loc todo = Ok p \/ fs !! p = None.
Proof.
  revert loc todo. induction links as [|links IHl]; intros loc todo; revert loc;
    (induction todo as [|c rest IH]; intros loc; [rewrite !walk_nil; by left|]); rewrite !walk_cons;
    (case_bool_decide; [by apply IH|]); (case_bool_decide; [by apply IH|]);
    (destruct (negb _); [done|]); destruct (fs !! (loc ++ [c])) as [[s| |t]|] eqn:E; simpl; try done; try (by apply IH); try by left.
  - destruct (is_nil rest); [|done]. intros [= <-]. by right.
  - by apply IHl.
  - destruct (is_nil rest); [|done]. intros [= <-]. by right.
Qed.

Lemma locate_created links path q :
  locate links true true fs path = Ok q -> locate links true false fs path = Ok q \/ fs !! q = None.
Proof. unfold locate. destruct (is_abs path); [|done]. apply walk_created. Qed.

Lemma locate_create_agree l1 l2 path p q :
  locate l1 true false fs path = Ok p -> locate l2 true true fs path = Ok q -> q = p.
Proof.
  unfold locate. destruct (is_abs path); [|done]. intros H1%walk_create H2.
  destruct (walk_agree fs l1 l2 true true [] (split_byte slash path) p H1) as [E|E]; rewrite E in H2; [by injection H2|done].
Qed.

(** Making the directories of a path that resolves makes none. *)
Lemma mkdir_resolved es d :
  Forall plain_elem es -> locate eval_links true false fs (abs_of es) = Ok d ->
  let '(e, fs') := mkdir_all (rev es) fs in
  fs' = fs /\ (e = None -> real_dir fs d /\ locate kernel_links true false fs (abs_of es) = Ok d).
Proof.
  revert d. induction es as [|c es IH] using rev_ind; intros d Hes He.
  { pose proof (fun l => locate_real_dir fs l true false [] (real_root fs)) as Hroot. rewrite Hroot in He. injection He as <-.
    destruct (mkdir_all (rev []) fs) as [e fs'] eqn:Em. pose proof (mkdir_all_there fs (rev []) [] (located_dir _ _ _ [] (real_root fs)) eq_refl) as Ef.
    rewrite Em in Ef. split; [exact Ef|]. intros _. split; [constructor|apply Hroot]. }
  apply Forall_app in Hes as [Hes Hc]. rewrite Forall_singleton in Hc.
  rewrite rev_unit, mkdir_all_cons. change (rev (c :: rev es)) with (rev (rev es) ++ [c]). rewrite rev_involutive.
  destruct (Stat fs (abs_of (es ++ [c]))) as [info|e] eqn:Es.
  { split; [done|]. destruct (fiIsDir info) eqn:Hdir; [|done]. intros _. unfold Stat, info_at in Es.
    destruct (locate kernel_links true false fs (abs_of (es ++ [c]))) as [q|] eqn:Hq; simpl in Es; [|discriminate Es].
    assert (q = d) as -> by (eapply locate_agree; [exact He|exact Hq]).
    destruct (real_dir_dec fs d (locate_located _ _ _ _ _ _ Hq)) as [Hr|[_ Hno]]; [done|].
    destruct (node_at fs d) as [n|] eqn:Hn; [|discriminate Es]. injection Es as <-. by destruct n. }
  destruct (locate_split _ _ _ _ _ _ Hes Hc He) as (l' & d0 & Hd0 & He0 & _ & Hw). apply walk_one in Hw as [Hper Hw]; [|done].
  specialize (IH d0 Hes He0). destruct (mkdir_all (rev es) fs) as [[e1|] fs1]; destruct IH as [-> IH]; [done|].
  destruct (IH eq_refl) as [_ Hk0]. destruct (Mkdir fs (abs_of (es ++ [c]))) as [fs2|e2] eqn:Em.
  { exfalso. destruct (Mkdir_path _ _ _ Hes Hc Em) as (d' & _ & Hd' & _ & Hn & _).
    assert (d' = d0) as -> by (eapply locate_agree; [exact Hk0|exact Hd']). rewrite Hn in Hw. by destruct Hw. }
  destruct (Lstat fs (abs_of (es ++ [c]))) as [info|] eqn:El; [|done]. split; [done|]. destruct (fiIsDir info) eqn:Hdir; [|done].
  intros _. exfalso. destruct (Lstat_dir _ _ _ Hes Hc El Hdir) as (d' & _ & _ & Hn & Hl).
  unfold Stat, info_at in Es. rewrite Hl in Es. simpl in Es. unfold node_at in Es.
  rewrite bool_decide_eq_false_2, Hn in Es by (by destruct d'). discriminate Es.
Qed.
End chains.

(** A file system in which what exists has a directory above it. *)
Definition fs_wf (fs : FS) : Prop := forall p, fs !! p <> None -> p <> [] /\ node_at fs (removelast p) = Some FDir.

(** What [mkdir_all] adds for the names [t] below [d]. *)
Definition added (fs fs' : FS) (d t : location) : Prop :=
  forall q, differs fs fs' q -> exists t1 t2, t = t1 ++ t2 /\ t1 <> [] /\ q = d ++ t1 /\ fs !! q = None.

Lemma added_ext fs fs' d t q n : added fs fs' d t -> fs !! q = Some n -> fs' !! q = Some n.
Proof.
  intros Ha Hq. destruct (decide (fs' !! q = fs !! q)) as [->|Hd]; [done|].
  destruct (Ha q Hd) as (t1 & t2 & _ & _ & _ & Hn). congruence.
Qed.

Lemma added_snoc fs fs' d t c : added fs fs' d t -> added fs fs' d (t ++ [c]).
Proof.
  intros Ha q Hq. destruct (Ha q Hq) as (t1 & t2 & -> & Hne & -> & Hn). exists t1, (t2 ++ [c]).
  by rewrite app_assoc.
Qed.

Lemma added_nil fs fs' d : added fs fs' d [] -> fs' = fs.
Proof.
  intros Ha. apply map_eq. intros q. destruct (decide (fs' !! q = fs !! q)) as [|Hd]; [done|].
  destruct (Ha q Hd) as (t1 & t2 & E & Hne & _). by destruct t1.
Qed.

Lemma mkdir_chain `{OS} fs es d t :
  fs_wf fs -> Forall plain_elem es -> Forall plain_elem t -> locate eval_links true false fs (abs_of es) = Ok d ->
  (forall t1 t2, t = t1 ++ t2 -> t1 <> [] -> forall p, locate eval_links true false fs (abs_of (es ++ t1)) <> Ok p) ->
  let '(e, fs') := mkdir_all (rev (es ++ t)) fs in
  added fs fs' d t /\
  (e = None -> real_dir fs' (d ++ t) /\ locate kernel_links true false fs' (abs_of (es ++ t)) = Ok (d ++ t) /\ (t <> [] -> fs !! (d ++ t) = None)).
Proof.
  intros Hwf Hes Ht He. induction t as [|c t IH] using rev_ind; intros Hun.
  { rewrite !app_nil_r. pose proof (mkdir_resolved fs es d Hes He) as Hm. destruct (mkdir_all (rev es) fs) as [e fs'].
    destruct Hm as [-> Hm]. split; [by intros q ?%differs_refl|]. intros Hnone. destruct (Hm Hnone). by split_and!. }
  apply Forall_app in Ht as [Ht Hc]. rewrite Forall_singleton in Hc. pose proof (plain_app _ _ Hes Ht) as Hest.
  rewrite app_assoc, rev_unit, mkdir_all_cons. change (rev (c :: rev (es ++ t))) with (rev (rev (es ++ t)) ++ [c]). rewrite rev_involutive.
  assert (forall p, locate kernel_links true false fs (abs_of ((es ++ t) ++ [c])) <> Ok p) as Hno.
  { intros p Hp%kernel_eval. revert Hp. rewrite <- app_assoc. apply (Hun (t ++ [c]) []); [by rewrite app_nil_r|by destruct t]. }
  destruct (Stat fs _) as [info|e] eqn:Es.
  { exfalso. unfold Stat in Es. destruct (locate kernel_links true false fs (abs_of ((es ++ t) ++ [c]))) as [q|] eqn:Hq; [|discriminate Es].
    exact (Hno q eq_refl). }
  specialize (IH Ht). destruct (mkdir_all (rev (es ++ t)) fs) as [[e1|] fs1].
  all: destruct IH as [Hadd IH]; [intros t1 t2 -> Hne; apply (Hun t1 (t2 ++ [c])); [by rewrite app_assoc|done]|].
  { split; [by apply added_snoc|done]. }
  destruct (IH eq_refl) as (Hr1 & Hk1 & Hnew1).
  destruct (Mkdir fs1 (abs_of ((es ++ t) ++ [c]))) as [fs2|e2] eqn:Em.
  - destruct (Mkdir_path _ _ _ _ Hest Hc Em) as (d' & _ & Hd' & Hper & Hn & ->).
    assert (d' = d ++ t) as -> by (eapply locate_agree; [exact Hk1|exact Hd']). rewrite (app_assoc d t [c]).
    assert (fs !! ((d ++ t) ++ [c]) = None) as Hnone.
    { destruct (fs !! ((d ++ t) ++ [c])) as [n|] eqn:E; [|done]. apply (added_ext _ _ _ _ _ _ Hadd) in E. congruence. }
    split.
    + intros q Hq. destruct (decide (q = (d ++ t) ++ [c])) as [->|Hne].
      * exists (t ++ [c]), []. rewrite app_nil_r, app_assoc. split_and!; [done|by destruct t|done|done].
      * apply (added_snoc _ _ _ _ _ Hadd). unfold differs in *. by rewrite lookup_insert_ne in Hq.
    + intros _. assert (real_dir (<[(d ++ t) ++ [c] := FDir]> fs1) (d ++ t)) as Hr2 by by apply real_dir_insert.
      split_and!; [apply real_sub; [done..|apply lookup_insert_eq]| |done].
      eapply locate_snoc; [done|done|exact Hr2| |].
      * eapply locate_ext; [|exact Hk1]. intros q n Hq. rewrite lookup_insert_ne; [done|]. intros <-. congruence.
      * eapply walk_one_here; [done|done|apply lookup_insert_eq|done].
  - destruct (Lstat fs1 (abs_of ((es ++ t) ++ [c]))) as [info|] eqn:El; [|split; [by apply added_snoc|done]].
    split; [by apply added_snoc|]. destruct (fiIsDir info) eqn:Hdir; [|done]. intros _. exfalso.
    destruct (Lstat_dir _ _ _ _ Hest Hc El Hdir) as (d' & _ & Hd' & Hn & Hl).
    assert (d' = d ++ t) as -> by (eapply locate_agree; [exact Hk1|exact Hd']).
    assert (fs !! ((d ++ t) ++ [c]) = Some FDir) as Hfs.
    { destruct (decide (fs1 !! ((d ++ t) ++ [c]) = fs !! ((d ++ t) ++ [c]))) as [<-|Hd]; [done|]. exfalso.
      destruct (Hadd _ Hd) as (t1 & t2 & -> & _ & E & _). apply (f_equal length) in E. revert E. rewrite !length_app. simpl. lia. }
    destruct (decide (t = [])) as [->|Hne].
    + apply added_nil in Hadd. subst fs1. exact (Hno _ Hl).
    + destruct (Hwf ((d ++ t) ++ [c])) as [_ Hp]; [by rewrite Hfs|]. rewrite removelast_last in Hp. unfold node_at in Hp.
      rewrite bool_decide_eq_false_2 in Hp by (by destruct d, t). rewrite Hnew1 in Hp; done.
Qed.
