(* ===== verification/HostFS.v ===== *)
(** The host file system tool ([internal/tools/hostfs]) and the allowlist start-up gives it
    ([internal/bootstrap/build.go]).

    A path is checked as text, resolved through its symbolic links, and checked again; the
    operation is then done on the resolved path.  The file system is the one of [GoFS];
    detection of content types, hashing, base64 and glob patterns are the class [HostText]. *)

From S2P Require Import Prelude GoString GoPath GoFloat GoJson GoFS Types KtpTypes KtpGate.
#[local] Open Scope Z_scope.

(** * Configuration and errors *)

(** [Config]; [New] puts the defaults *)
Record HostFSConfig := mkHostFSConfig {
  MaxReadBytes : Z;
  MaxWriteBytes : Z;
  MaxListDepth : Z;
  MaxListEntries : Z;
}.

Definition positive_or (z d : Z) : Z := if z <=? 0 then d else z.

Definition NewHostFS (cfg : HostFSConfig) : HostFSConfig :=
  mkHostFSConfig (positive_or (MaxReadBytes cfg) (10 * 2 ^ 20)) (positive_or (MaxWriteBytes cfg) (10 * 2 ^ 20))
    (positive_or (MaxListDepth cfg) 1) (positive_or (MaxListEntries cfg) 5000).

Inductive PathError : Type :=
| PathEmpty
| PathDotDot
| PathNotAbsolute
| AllowlistFailed (e : string)
| NoAllowlist
| PathDangerous
| PathDenied
| PathNotAllowed
| ResolveFailed (e : FsError)
| SymlinkEscape.

Inductive HostFSError : Type :=
| HostMissing (key : string)
| HostNotString (key : string)
| HostPath (e : PathError)
| RangeNotObject
| RangeMissing (key : string)
| RangeNotNumber (key : string)
| RangeNotPositive
| StatFailed (e : FsError)
| ReadFailed (e : FsError)
| InvalidBase64
| ContentTooLarge
| ParentFailed (e : FsError)
| WriteFailed (e : option FsError)
| ListFailedWith (e : FsError)
| MkdirFailed (e : FsError)
| RefusingDirectory
| HashFailed (e : FsError)
| DeleteFailed (e : FsError)
| HostUnknownAction (action : string).

Record HostListEntry := mkHostListEntry {
  leName : string;
  leSize : Z;
  leModified : string;
  leIsDirectory : bool;
  lePermissions : string;
}.

Inductive HostReply : Type :=
| HostContent (content encoding mime : string) (size : Z) (truncated : bool)
| HostWritten (n : Z)
| HostEntries (entries : list HostListEntry) (truncated : bool)
| HostInfo (info : FileInfo) (mime : string)
| HostDeleted
| HostCreated.

(** What [auditAction] logs: agent, action, path, and the hashes of what is deleted. *)
Record HostAudit := mkHostAudit {
  haAgentID : string;
  haAction : string;
  haResource : string;
  haHashes : list (string * string * Z);
}.

(** Functions of Go's library on texts. *)
Class HostText := {
  detect_type : string -> string;
  sha256_hex : string -> string;
  base64_encode : string -> string;
  base64_decode : string -> option string;
  glob_match : string -> string -> bool;
}.

(** What a call meets: the settings, the allowlist of an agent, the name [CreateTemp]
    settles on and whether the statements before the rename succeed. *)
Record HostFSEnv := mkHostFSEnv {
  heConfig : HostFSConfig;
  heAllowlist : string -> result string (option HostPathConfig);
  heTempSuffix : string;
  heTempOk : bool;
}.

(** * Parameters *)

Definition hostStringParam (params : list (string * any)) (key : string) : result HostFSError string :=
  match alookup key params with
  | None => Err (HostMissing key)
  | Some (AString s) => Ok s
  | Some _ => Err (HostNotString key)
  end.

Definition stringParamDefault (params : list (string * any)) (key def : string) : string :=
  match alookup key params with Some (AString s) => s | _ => def end.

Definition true_text `{UnicodeCase} (s : string) : bool :=
  let s := to_lower s in bool_decide (s = "1") || bool_decide (s = "true").

Definition hostBoolParam `{UnicodeCase} (params : list (string * any)) (key : string) (def : bool) : bool :=
  match alookup key params with
  | Some (ABool b) => b
  | Some (ANumber s) => true_text s
  | Some (AString s) => true_text (trim_space s)
  | _ => def
  end.

Definition intParamDefault (params : list (string * any)) (key : string) (def : Z) : Z :=
  match alookup key params with
  | Some (AInt z) => z
  | Some (AFloat64 f) => f64_to_int f
  | Some (ANumber s) => default def (Atoi s)
  | _ => def
  end.

Definition int64Param (params : list (string * any)) (key : string) : result HostFSError Z :=
  match alookup key params with
  | None => Err (RangeMissing key)
  | Some (AInt z) => Ok z
  | Some (AFloat64 f) => Ok (f64_to_int f)
  | Some (ANumber s) => match Atoi s with Some z => Ok z | None => Err (RangeNotNumber key) end
  | Some _ => Err (RangeNotNumber key)
  end.

(** [parseRange]: offset and length *)
Definition parseRange (raw : any) : result HostFSError (Z * Z) :=
  match raw with
  | AMap m =>
    let? offset := int64Param m "offset" in
    let? length := int64Param m "length" in
    if (offset <? 0) || (length <=? 0) then Err RangeNotPositive else Ok (offset, length)
  | _ => Err RangeNotObject
  end.

(** * The path check *)

Definition dangerousPrefixPaths : list string := ["/etc/"; "/boot/"; "/sys/"; "/proc/"; "/dev/"; "/root/"].
Definition dangerousSubstrings : list string := [".ssh"; ".gnupg"; ".aws"; "id_rsa"; "id_ed25519"; ".pem"].

Definition isDangerousPath `{UnicodeCase} (path : string) : bool :=
  let cleaned := clean path in
  existsb (fun prefix => bool_decide (cleaned = trim_suffix prefix "/") || has_prefix cleaned prefix) dangerousPrefixPaths
  || existsb (fun deny => contains (to_lower cleaned) deny) dangerousSubstrings.

Definition hostMatchPattern (path pattern : string) : bool :=
  let pattern := clean pattern in
  bool_decide (path = pattern)
  || has_suffix pattern slash_s || has_prefix path (pattern +:+ slash_s)
  || (has_suffix pattern "/*" &&
      let base := trim_suffix pattern "/*" in bool_decide (path = base) || has_prefix path (base +:+ slash_s)).

Definition hostCheckPath `{UnicodeCase} (path : string) (config : HostPathConfig) (isWrite : bool) : option PathError :=
  let cleaned := clean path in
  if isDangerousPath cleaned then Some PathDangerous
  else if existsb (hostMatchPattern cleaned) (HostDeny config) then Some PathDenied
  else if existsb (hostMatchPattern cleaned) (if isWrite then HostWrite config else HostRead config) then None
  else Some PathNotAllowed.

(** [Tool.resolvePath] *)
Definition hostResolvePath `{UnicodeCase} `{OS} (env : HostFSEnv) (fs : FS) (agentID userPath : string) (isWrite : bool)
    : result PathError string :=
  if bool_decide (userPath = EmptyString) then Err PathEmpty
  else if contains userPath ".." then Err PathDotDot
  else if negb (is_abs userPath) then Err PathNotAbsolute
  else match heAllowlist env agentID with
  | inr e => Err (AllowlistFailed e)
  | inl None => Err NoAllowlist
  | inl (Some allowlist) =>
    let cleaned := clean userPath in
    match hostCheckPath cleaned allowlist isWrite with
    | Some e => Err e
    | None =>
      let? realPath :=
        match EvalSymlinks fs cleaned with
        | inl p => Ok p
        | inr NotExist =>
          match EvalSymlinks fs (path_dir cleaned) with
          | inl parent => Ok (path_join parent (path_base cleaned))
          | inr e => Err (ResolveFailed e)
          end
        | inr e => Err (ResolveFailed e)
        end in
      if bool_decide (realPath = cleaned) then Ok realPath
      else match hostCheckPath realPath allowlist isWrite with
           | Some _ => Err SymlinkEscape
           | None => Ok realPath
           end
    end
  end.

(** [audit]: nothing is logged but what succeeds. *)
Definition host_done (req : ToolRequest) (path : string) (hashes : list (string * string * Z)) (reply : HostReply)
    : result HostFSError HostReply * list HostAudit :=
  (Ok reply, [mkHostAudit (rAgentID req) (rAction req) path hashes]).

Definition host_error (e : HostFSError) : result HostFSError HostReply * list HostAudit := (Err e, []).

(** The path of a request, resolved. *)
Definition request_path `{UnicodeCase} `{OS} (env : HostFSEnv) (fs : FS) (req : ToolRequest) (isWrite : bool)
    : result HostFSError string :=
  let? path := hostStringParam (rParameters req) "path" in
  match hostResolvePath env fs (rAgentID req) path isWrite with inl p => Ok p | inr e => Err (HostPath e) end.

(** * Reading *)

(** The first [n] bytes of a text, and what follows the first [n]. *)
Definition clip (n : Z) (s : string) : nat := Z.to_nat (Z.min n (Z.of_nat (String.length s))).
Definition limited (n : Z) (s : string) : string := str_take (clip n s) s.
Definition from_offset (n : Z) (s : string) : string := str_drop (clip n s) s.

Definition readLimited `{OS} (fs : FS) (path : string) (limit : Z) : result FsError string :=
  let? content := ReadFile fs path in Ok (limited limit content).

Definition readRangeBytes `{OS} (fs : FS) (path : string) (rng : Z * Z) : result FsError string :=
  let? content := ReadFile fs path in Ok (limited rng.2 (from_offset rng.1 content)).

Definition isBinaryMime (mime : string) : bool :=
  has_prefix mime "application/" || has_prefix mime "image/" || has_prefix mime "audio/" || has_prefix mime "video/".

(** [utf8.Valid] *)
Definition utf8_valid (s : string) : bool :=
  forallb (fun x => negb ((x.1 =? rune_error) && (String.length x.2 =? 1)%nat)) (runes s).

Section tool.
Context `{UnicodeCase} `{OS} `{HostText} (env : HostFSEnv) (fs : FS).

Definition host_content (data : string) (size : Z) (truncated : bool) : HostReply :=
  let mime := detect_type data in
  if negb (utf8_valid data) || isBinaryMime mime
  then HostContent (base64_encode data) "base64" mime size truncated
  else HostContent data "text" mime size truncated.

(** [Tool.read] *)
Definition hostfs_read (req : ToolRequest) : result HostFSError HostReply * list HostAudit :=
  match request_path env fs req false with
  | inr e => host_error e
  | inl absPath =>
    match (match alookup "range" (rParameters req) with
           | Some raw => let? r := parseRange raw in Ok (Some r)
           | None => Ok None
           end) with
    | inr e => host_error e
    | inl rng =>
      match Stat fs absPath with
      | inr e => host_error (StatFailed e)
      | inl info =>
        let limit := MaxReadBytes (heConfig env) in
        match (match rng with Some r => readRangeBytes fs absPath r | None => readLimited fs absPath limit end) with
        | inr e => host_error (ReadFailed e)
        | inl data =>
          host_done req absPath []
            (host_content data (fiSize info) (match rng with Some _ => false | None => limit <? fiSize info end))
        end
      end
    end
  end.

(** [Tool.stat] *)
Definition hostfs_stat (req : ToolRequest) : result HostFSError HostReply * list HostAudit :=
  match request_path env fs req false with
  | inr e => host_error e
  | inl absPath =>
    match Stat fs absPath with
    | inr e => host_error (StatFailed e)
    | inl info =>
      let data := if fiIsDir info then EmptyString
                  else match readLimited fs absPath 512 with inl data => data | inr _ => EmptyString end in
      host_done req absPath []
        (HostInfo info (if bool_decide (data = EmptyString) then "application/octet-stream" else detect_type data))
    end
  end.

(** ** [Tool.list] *)
Definition list_entry (name : string) (loc : location) (n : fs_node) : HostListEntry :=
  mkHostListEntry name (node_size loc n) (os_modified loc) (is_dir n) (os_mode loc).

Definition shown (pattern name : string) : bool := bool_decide (pattern = EmptyString) || glob_match pattern name.

(** The loop over one directory: [got] entries so far, newest first. *)
Fixpoint list_dir (max : Z) (pattern : string) (loc : location) (l : list (string * fs_node)) (got : list HostListEntry)
    : result FsError (list HostListEntry * bool) :=
  match l with
  | [] => Ok (got, false)
  | (name, n) :: l =>
    if negb (os_permits OpLookup (loc ++ [name])) then Err PermissionDenied
    else if negb (shown pattern name) then list_dir max pattern loc l got
    else
      let got := list_entry name (loc ++ [name]) n :: got in
      if max <=? Z.of_nat (length got) then Ok (got, true) else list_dir max pattern loc l got
  end.

Definition pathDepth (rel : string) : Z :=
  if bool_decide (rel = "." \/ rel = EmptyString) then 0 else Z.of_nat (length (split_byte slash rel)).

(** The function given to [WalkDir]. *)
Definition list_visit (max depth : Z) (pattern absPath : string) (p : location) (n : fs_node) (walkErr : option FsError)
    (st : list HostListEntry * bool) : WalkAnswer * (list HostListEntry * bool) :=
  match walkErr with
  | Some e => (WalkFail e, st)
  | None =>
    if bool_decide (abs_of p = absPath) then (WalkOn, st)
    else
      let rel := default EmptyString (path_rel absPath (abs_of p)) in
      if depth <? pathDepth rel then (if is_dir n then WalkSkip else WalkOn, st)
      else if negb (shown pattern rel) then (WalkOn, st)
      else if negb (os_permits OpLookup p) then (WalkFail PermissionDenied, st)
      else
        let got := list_entry rel p n :: st.1 in
        if max <=? Z.of_nat (length got) then (WalkSkip, (got, true)) else (WalkOn, (got, st.2))
  end.

Definition hostfs_list (req : ToolRequest) : result HostFSError HostReply * list HostAudit :=
  let params := rParameters req in
  let recursive := hostBoolParam params "recursive" false in
  let depth := intParamDefault params "depth" (MaxListDepth (heConfig env)) in
  let pattern := stringParamDefault params "pattern" EmptyString in
  let max := MaxListEntries (heConfig env) in
  match request_path env fs req false with
  | inr e => host_error e
  | inl absPath =>
    match (if recursive then
             match WalkDir fs (list_visit max depth pattern absPath) absPath ([], false) with
             | (Some e, _) => Err e
             | (None, st) => Ok st
             end
           else let? dir := ReadDir fs absPath in list_dir max pattern dir.1 dir.2 []) with
    | inr e => host_error (ListFailedWith e)
    | inl (got, truncated) => host_done req absPath [] (HostEntries (rev got) truncated)
    end
  end.

End tool.

(** * Writing *)

Section writing.
Context `{UnicodeCase} `{OS} `{HostText} (env : HostFSEnv).

Definition host_fail (fs : FS) (e : HostFSError) : result HostFSError HostReply * list HostAudit * FS := (host_error e, fs).

(** [atomicWrite] *)
Definition atomicWrite (fs : FS) (path data : string) : result (option FsError) Z * FS :=
  match CreateTemp fs (path_dir path) (".kyvik-hostfs-" +:+ heTempSuffix env) with
  | inr e => (Err (Some e), fs)
  | inl (tmp, fs1) =>
    let cleanup (fs : FS) : FS := match Remove fs tmp with inl fs => fs | inr _ => fs end in
    match write_file true fs1 tmp data with
    | inr e => (Err (Some e), cleanup fs1)
    | inl fs2 =>
      if negb (heTempOk env) then (Err None, cleanup fs2)
      else match RenameFile fs2 tmp path with
           | inr e => (Err (Some e), cleanup fs2)
           | inl fs3 => (Ok (Z.of_nat (String.length data)), cleanup fs3)
           end
    end
  end.

(** The content of a write request, decoded. *)
Definition write_data (params : list (string * any)) : result HostFSError string :=
  let? content := hostStringParam params "content" in
  let? data := if bool_decide (stringParamDefault params "encoding" "text" = "base64")
               then match base64_decode content with Some d => Ok d | None => Err InvalidBase64 end
               else Ok content in
  if MaxWriteBytes (heConfig env) <? Z.of_nat (String.length data) then Err ContentTooLarge else Ok data.

(** [Tool.write] *)
Definition hostfs_write (fs : FS) (req : ToolRequest) : result HostFSError HostReply * list HostAudit * FS :=
  let params := rParameters req in
  match (let? path := hostStringParam params "path" in write_data params) with
  | inr e => host_fail fs e
  | inl data =>
    match request_path env fs req true with
    | inr e => host_fail fs e
    | inl absPath =>
      match MkdirAll fs (path_dir absPath) with
      | (Some e, fs) => host_fail fs (ParentFailed e)
      | (None, fs) =>
        if bool_decide (stringParamDefault params "mode" "overwrite" = "append") then
          match write_file false fs absPath data with
          | inr e => host_fail fs (WriteFailed (Some e))
          | inl fs => (host_done req absPath [] (HostWritten (Z.of_nat (String.length data))), fs)
          end
        else
          match atomicWrite fs absPath data with
          | (inr e, fs) => host_fail fs (WriteFailed e)
          | (inl n, fs) => (host_done req absPath [] (HostWritten n), fs)
          end
      end
    end
  end.

(** [Tool.mkdir] *)
Definition hostfs_mkdir (fs : FS) (req : ToolRequest) : result HostFSError HostReply * list HostAudit * FS :=
  match request_path env fs req true with
  | inr e => host_fail fs e
  | inl absPath =>
    match MkdirAll fs absPath with
    | (Some e, fs) => host_fail fs (MkdirFailed e)
    | (None, fs) => (host_done req absPath [] HostCreated, fs)
    end
  end.

(** [hashFile] and [hashPaths] *)
Definition hashFile (fs : FS) (path : string) : result FsError (string * string * Z) :=
  let? content := ReadFile fs path in Ok (path, sha256_hex content, Z.of_nat (String.length content)).

Definition hash_visit (fs : FS) (p : location) (n : fs_node) (walkErr : option FsError) (hashes : list (string * string * Z))
    : WalkAnswer * list (string * string * Z) :=
  match walkErr with
  | Some e => (WalkFail e, hashes)
  | None =>
    match n with
    | FFile _ =>
      match hashFile fs (abs_of p) with inl h => (WalkOn, hashes ++ [h]) | inr e => (WalkFail e, hashes) end
    | _ => (WalkOn, hashes)
    end
  end.

Definition hashPaths (fs : FS) (path : string) (recursive : bool) : result FsError (list (string * string * Z)) :=
  let? info := Stat fs path in
  if negb (fiIsDir info) then let? h := hashFile fs path in Ok [h]
  else if negb recursive then Ok []
  else match WalkDir fs (hash_visit fs) path [] with
       | (Some e, _) => Err e
       | (None, hashes) => Ok hashes
       end.

(** [Tool.remove] *)
Definition hostfs_remove (fs : FS) (req : ToolRequest) : result HostFSError HostReply * list HostAudit * FS :=
  let recursive := hostBoolParam (rParameters req) "recursive" false in
  match request_path env fs req true with
  | inr e => host_fail fs e
  | inl absPath =>
    match Stat fs absPath with
    | inr e => host_fail fs (StatFailed e)
    | inl info =>
      if fiIsDir info && negb recursive then host_fail fs RefusingDirectory
      else
        match hashPaths fs absPath recursive with
        | inr e => host_fail fs (HashFailed e)
        | inl hashes =>
          match (if recursive then RemoveAll fs absPath
                 else match Remove fs absPath with inl fs => (None, fs) | inr e => (Some e, fs) end) with
          | (Some e, fs) => host_fail fs (DeleteFailed e)
          | (None, fs) => (host_done req absPath hashes HostDeleted, fs)
          end
        end
    end
  end.

(** [Tool.Execute] *)
Definition HostFSExecute (fs : FS) (req : ToolRequest) : result HostFSError HostReply * list HostAudit * FS :=
  if bool_decide (rAction req = "read") then (hostfs_read env fs req, fs)
  else if bool_decide (rAction req = "write") then hostfs_write fs req
  else if bool_decide (rAction req = "list") then (hostfs_list env fs req, fs)
  else if bool_decide (rAction req = "stat") then (hostfs_stat env fs req, fs)
  else if bool_decide (rAction req = "delete") then hostfs_remove fs req
  else if bool_decide (rAction req = "mkdir") then hostfs_mkdir fs req
  else host_fail fs (HostUnknownAction (rAction req)).
End writing.

(** * The declaration *)














(** * The allowlist of an agent (start-up) *)




(** * Lemmas *)

Section resolution.
Context `{UnicodeCase} `{OS} (env : HostFSEnv) (fs : FS).

(** A resolved path, and the configuration that cleared it: it is the text of a location
    whose parent is real, and which is itself real or absent. *)
Definition cleared (agentID : string) (isWrite : bool) (p : location) : Prop :=
  exists config, heAllowlist env agentID = Ok (Some config) /\ hostCheckPath (abs_of p) config isWrite = None.

Lemma resolve_spec agentID path isWrite r :
  hostResolvePath env fs agentID path isWrite = Ok r ->
  exists p, r = abs_of p /\ settled fs p /\ (located fs true false p \/ dangling fs p) /\ cleared agentID isWrite p.
Proof.
  unfold hostResolvePath. case_bool_decide; [done|]. destruct (contains path ".."); [done|].
  destruct (is_abs path) eqn:Habs; [|done]. destruct (heAllowlist env agentID) as [[config|]|] eqn:Ha; [|done..]. simpl.
  destruct (hostCheckPath (clean path) config isWrite) eqn:Hc1; [done|]. intros Hr.
  assert (exists p, settled fs p /\ (located fs true false p \/ dangling fs p) /\ r = abs_of p
    /\ (abs_of p = clean path \/ hostCheckPath (abs_of p) config isWrite = None)) as (p & Hs & Hl & -> & Hc).
  { revert Hr. destruct (EvalSymlinks fs (clean path)) as [real|e] eqn:Ee; simpl.
    - unfold EvalSymlinks in Ee. destruct (locate _ _ _ _ _) as [p|] eqn:Hp; [|done]. injection Ee as <-.
      apply locate_located in Hp. intros Hr. exists p.
      case_bool_decide as Eq; [injection Hr as <-|destruct (hostCheckPath (abs_of p) config isWrite) eqn:Hc2; [done|injection Hr as <-]];
        (split_and!; [by apply located_settled|by left|done|by auto]).
    - destruct e; try done. destruct (clean_abs path Habs) as (es & Eq & Hes).
      rewrite Eq in *. destruct es as [|c es _] using rev_ind.
      { exfalso. revert Ee. unfold EvalSymlinks. rewrite (locate_real_dir fs eval_links true false [] (real_root fs)). unfold Ok. by intros [=]. }
      apply Forall_app in Hes as [Hes Hc]. rewrite Forall_singleton in Hc. rewrite path_dir_abs, path_base_abs by done.
      unfold EvalSymlinks at 1. destruct (locate _ _ _ _ (abs_of es)) as [d|] eqn:Hd; [|done]. simpl.
      pose proof (locate_located _ _ _ _ _ _ Hd) as Hloc. rewrite path_join_below by (by eauto using located_plain).
      assert (dangling fs (d ++ [c])) as Hdang.
      { unfold EvalSymlinks in Ee. destruct (locate _ _ _ _ (abs_of (es ++ [c]))) eqn:Em; [done|]. injection Ee as ->.
        by eapply locate_missing. }
      intros Hr. exists (d ++ [c]).
      case_bool_decide as Eq2; [injection Hr as <-|destruct (hostCheckPath (abs_of (d ++ [c])) config isWrite) eqn:Hc2; [done|injection Hr as <-]];
        (split_and!; [right; exists d, c; by split_and!|by right|done|by auto]). }
  exists p. split_and!; [done..|]. exists config. split; [done|]. destruct Hc as [->|Hc]; [|done].
  done.
Qed.
End resolution.

Section atomic.
Context `{UnicodeCase} `{OS} `{HostText} (env : HostFSEnv).

(** The temporary file of a write to [p]. *)
Definition temp_name : string := ".kyvik-hostfs-" +:+ heTempSuffix env.
Definition temp_of (p : location) : location := removelast p ++ [temp_name].

Hypothesis suffix_plain : str_elem slash (heTempSuffix env) = false.

Lemma temp_plain : plain_elem temp_name.
Proof. unfold plain_elem, temp_name. rewrite str_elem_app, suffix_plain. by split_and!. Qed.

Lemma path_dir_settled p : Forall plain_elem p -> path_dir (abs_of p) = abs_of (removelast p).
Proof.
  intros Hp. destruct p as [|c d _] using rev_ind; [by vm_compute|].
  apply Forall_app in Hp as [Hd Hc]. rewrite Forall_singleton in Hc. by rewrite removelast_last, path_dir_abs.
Qed.

Lemma settled_parent fs p : settled fs p -> located fs true false (removelast p).
Proof. intros [->|(d & c & -> & _ & Hd)]; [by constructor; constructor|by rewrite removelast_last]. Qed.

(** The clean-up takes the temporary file away, or finds it gone, or may not. *)
Lemma cleanup_effect fs fs1 d :
  real_dir fs d -> (forall q, fs !! q = Some FDir -> fs1 !! q = Some FDir) -> os_permits OpLookup (d ++ [temp_name]) = true ->
  (fs1 !! (d ++ [temp_name]) = None \/ exists s, fs1 !! (d ++ [temp_name]) = Some (FFile s)) ->
  match Remove fs1 (abs_of (d ++ [temp_name])) with inl fs2 => fs2 | inr _ => fs1 end =
    if os_permits OpRemove (d ++ [temp_name]) then delete (d ++ [temp_name]) fs1 else fs1.
Proof.
  intros Hd Hdirs Hper Hn. pose proof (real_dir_mono _ _ _ Hdirs Hd) as Hd1. pose proof temp_plain as Ht.
  destruct Hn as [Hn|[s Hn]].
  - rewrite Remove_missing by done. simpl. rewrite delete_id by done. by destruct (os_permits OpRemove (d ++ [temp_name])).
  - erewrite Remove_leaf by done. by destruct (os_permits OpRemove (d ++ [temp_name])).
Qed.

(** What is left of the temporary file. *)
Definition leftover (fs fs' : FS) (tp : location) : Prop :=
  fs' = fs \/ fs !! tp = None /\ os_permits OpRemove tp = false /\ exists s, fs' = <[tp := FFile s]> fs.

Lemma cleanup_leftover fs d s :
  let tp := d ++ [temp_name] in
  real_dir fs d -> os_permits OpLookup tp = true -> fs !! tp = None ->
  leftover fs (match Remove (<[tp := FFile s]> fs) (abs_of tp) with inl fs2 => fs2 | inr _ => <[tp := FFile s]> fs end) tp.
Proof.
  intros tp Hd Hper Hn. unfold tp in *. rewrite cleanup_effect with (fs := fs); [|done| |done|right; eexists; apply lookup_insert_eq].
  - unfold leftover. destruct (os_permits OpRemove (d ++ [temp_name])); [left; by apply delete_insert_id|right; by eauto].
  - intros q Hq. rewrite lookup_insert_ne; [done|]. intros <-. congruence.
Qed.

(** The rename of the temporary file over [p]. *)
Lemma rename_temp fs d p data fs3 :
  let tp := d ++ [temp_name] in
  real_dir fs d -> removelast p = d -> settled fs p -> fs !! tp = None ->
  RenameFile (<[tp := FFile data]> fs) (abs_of tp) (abs_of p) = Ok fs3 ->
  p <> [] /\ fs !! p <> Some FDir /\ os_permits OpRemove tp = true /\ fs3 = <[p := FFile data]> fs.
Proof.
  intros tp Hd Hp Hs Hn. assert (tp <> []) as Hne by (by destruct d). set (fs2 := <[tp := FFile data]> fs).
  assert (real_dir fs2 d) as Hd2 by by apply real_dir_insert.
  assert (settled fs2 tp) as Hst by (right; exists d, temp_name; split_and!; [done|apply temp_plain|by constructor]).
  assert (settled fs2 p) as Hsp.
  { destruct Hs as [->|(d' & c & -> & Hc & _)]; [by left|right]. exists d', c. rewrite removelast_last in Hp. subst d'.
    split_and!; [done..|by constructor]. }
  unfold RenameFile. destruct (locate _ _ _ fs2 (abs_of tp)) as [from|] eqn:Hf; [|done].
  destruct (locate_settled_nofollow _ _ _ _ _ Hst Hf) as [-> _]. simpl.
  destruct (locate _ _ _ fs2 (abs_of p)) as [to|] eqn:Hto; [|done].
  destruct (locate_settled_nofollow _ _ _ _ _ Hsp Hto) as [-> _]. simpl.
  assert (node_at fs2 tp = Some (FFile data)) as -> by (unfold node_at; rewrite bool_decide_eq_false_2 by done; apply lookup_insert_eq).
  destruct (node_at fs2 p) as [[| |]|] eqn:Hnp; try done;
    (destruct (os_permits OpRemove tp); [|done]); (destruct (os_permits OpCreate p); [|done]); simpl; intros [= <-];
    unfold node_at in Hnp; case_bool_decide; try done; (split_and!; [done| |done|unfold fs2; by rewrite delete_insert_id]);
    destruct (decide (p = tp)) as [->|Hpt]; try congruence; unfold fs2 in Hnp; rewrite lookup_insert_ne in Hnp by done; congruence.
Qed.

(** Either the file has the new content, or nothing changed; only a temporary file that the
    system does not let go may stay. *)
Lemma atomicWrite_effect fs p data r fs' :
  settled fs p -> atomicWrite env fs (abs_of p) data = (r, fs') ->
  match r with
  | inl n => n = Z.of_nat (String.length data) /\ p <> [] /\ fs !! temp_of p = None /\ fs' = delete (temp_of p) (<[p := FFile data]> fs)
  | inr _ => leftover fs fs' (temp_of p)
  end.
Proof.
  intros Hp. pose proof (settled_plain _ _ Hp) as Hplain. pose proof (settled_parent _ _ Hp) as Hpar.
  pose proof temp_plain as Ht. unfold atomicWrite, CreateTemp. rewrite path_dir_settled by done.
  rewrite path_join_below by (by eauto using located_plain). fold temp_name. fold (temp_of p). set (tp := temp_of p).
  assert (tp <> []) as Hne by (unfold tp, temp_of; by destruct (removelast p)).
  assert (settled fs tp) as Hst by (right; eexists _, _; by split_and!).
  destruct (locate _ _ _ fs (abs_of tp)) as [loc|e] eqn:Hl; simpl; [|intros [= <- <-]; by left].
  destruct (locate_settled_nofollow _ _ _ _ _ Hst Hl) as [-> _].
  destruct (real_parent _ _ _ _ _ _ Hst Hne Hl) as [Hr Hper]. unfold tp, temp_of in Hr. rewrite removelast_last in Hr.
  destruct (node_at fs tp) eqn:Hn; [intros [= <- <-]; by left|].
  assert (fs !! tp = None) as Hnone by (unfold node_at in Hn; by case_bool_decide).
  destruct (os_permits OpCreate tp); simpl; [|intros [= <- <-]; by left].
  destruct (write_file true _ _ _) as [fs2|e] eqn:Hw; [|intros [= <- <-]; by apply cleanup_leftover].
  assert (fs2 = <[tp := FFile data]> fs) as ->.
  { apply write_file_effect in Hw as [[_ ->]|(t & q & s & _ & Hlink & _)].
    - by rewrite lookup_insert_eq, insert_insert_eq.
    - by rewrite lookup_insert_eq in Hlink.
    - right. exists (removelast p), temp_name. split_and!; [done..|]. constructor. by apply real_dir_insert. }
  destruct (heTempOk env); simpl; [|intros [= <- <-]; by apply cleanup_leftover].
  destruct (RenameFile _ _ _) as [fs3|e] eqn:Hren; [|intros [= <- <-]; by apply cleanup_leftover].
  destruct (rename_temp _ _ _ _ _ Hr eq_refl Hp Hnone Hren) as (Hpne & Hdir & Hrem & ->). intros [= <- <-].
  split_and!; [done..|]. unfold tp, temp_of. rewrite cleanup_effect with (fs := fs); [by rewrite Hrem|done| |done|].
  - intros q Hq. rewrite lookup_insert_ne; [done|]. intros <-. congruence.
  - destruct (decide (p = tp)) as [E|E]; [right; exists data; fold (temp_of p) tp; rewrite <- E; apply lookup_insert_eq|].
    left. by rewrite lookup_insert_ne.
Qed.
End atomic.

(** * What the operations do *)

Lemma request_path_spec `{UnicodeCase} `{OS} env fs req isWrite r :
  request_path env fs req isWrite = Ok r ->
  exists p, r = abs_of p /\ settled fs p /\ (located fs true false p \/ dangling fs p) /\ cleared env (rAgentID req) isWrite p.
Proof.
  unfold request_path. destruct (hostStringParam _ _) as [path|]; [|done]. simpl.
  destruct (hostResolvePath _ _ _ _ _) as [p|] eqn:E; [|done]. intros [= <-]. by apply resolve_spec in E.
Qed.

Lemma dangling_stat `{OS} fs p i : dangling fs p -> Stat fs (abs_of p) <> Ok i.
Proof. intros Hd. unfold Stat. destruct (locate _ _ _ _ _) as [q|] eqn:E; [|done]. by apply Hd in E. Qed.

Lemma ReadFile_located `{OS} fs p content :
  located fs true false p -> ReadFile fs (abs_of p) = Ok content -> fs !! p = Some (FFile content) /\ p <> [].
Proof.
  intros Hl. unfold ReadFile. rewrite locate_again by done. simpl. unfold node_at. case_bool_decide; [done|].
  destruct (fs !! p) as [[s| |]|]; try done. destruct (os_permits _ _); [|done]. by intros [= ->].
Qed.

(** What is read is a real file that may be read.  A successful read names a location reached
    through directories only (no link is left on the way), whose path is allowed for
    reading, not denied and not dangerous; the answer is made of the content of the file
    there, cut to the limit, or to the range that was asked for, which the limit does not
    bound; and the read is in the audit log. *)
Theorem hostfs_read_real_file `{UnicodeCase} `{OS} `{HostText} env fs req reply log :
  hostfs_read env fs req = (Ok reply, log) ->
  exists p content, located fs true false p /\ cleared env (rAgentID req) false p /\ fs !! p = Some (FFile content) /\
    log = [mkHostAudit (rAgentID req) (rAction req) (abs_of p) []] /\
    exists data truncated, reply = host_content data (Z.of_nat (String.length content)) truncated /\
      match alookup "range" (rParameters req) with
      | None => data = limited (MaxReadBytes (heConfig env)) content /\
                truncated = (MaxReadBytes (heConfig env) <? Z.of_nat (String.length content))
      | Some raw => exists offset len, parseRange raw = Ok (offset, len) /\ truncated = false /\
                data = limited len (from_offset offset content)
      end.
Proof.
  unfold hostfs_read. destruct (request_path _ _ _ _) as [r|] eqn:Hr; [|done].
  apply request_path_spec in Hr as (p & -> & Hs & Hl & Hc).
  destruct (match alookup "range" _ with Some _ => _ | None => _ end) as [rng|] eqn:Hrng; [|done].
  destruct (Stat fs (abs_of p)) as [info|] eqn:Hi; [|done]. destruct Hl as [Hl|Hd]; [|by apply dangling_stat in Hi].
  destruct (match rng with Some _ => _ | None => _ end) as [data|] eqn:Hdata; [|done]. intros [= <- <-].
  assert (exists content, ReadFile fs (abs_of p) = Ok content /\
    data = match rng with Some r => limited r.2 (from_offset r.1 content) | None => limited (MaxReadBytes (heConfig env)) content end)
    as (content & Hread & ->).
  { unfold readRangeBytes, readLimited in Hdata. destruct rng, (ReadFile fs (abs_of p)) as [content|]; try done;
      injection Hdata as <-; by eexists. }
  destruct (ReadFile_located _ _ _ Hl Hread) as [Hn Hne]. exists p, content. split_and!; [done..|].
  destruct (Stat_located _ _ Hl) as (n & Hnode & Hi'). unfold node_at in Hnode. rewrite bool_decide_eq_false_2, Hn in Hnode by done.
  injection Hnode as <-. rewrite Hi' in Hi. injection Hi as <-. eexists _, _. split; [done|].
  destruct (alookup "range" _) as [raw|]; simpl in Hrng.
  - destruct (parseRange raw) as [[o l]|]; [|done]. injection Hrng as <-. by exists o, l.
  - by injection Hrng as <-.
Qed.

(** The locations a call on the resolved path [p] may change: [p] itself; below it when deleting recursively; the
    temporary file of a write, next to [p], which stays when the system does not let it go; and where an append
    through a link at [p] that leads nowhere yet creates its target. *)
Definition touched `{UnicodeCase} `{OS} (env : HostFSEnv) (fs : FS) (req : ToolRequest) (p q : location) : Prop :=
  q = p
  \/ rAction req = "delete" /\ hostBoolParam (rParameters req) "recursive" false = true /\ below p q = true
  \/ rAction req = "write" /\ q = temp_of env p /\ fs !! q = None /\ os_permits OpRemove q = false
  \/ rAction req = "write" /\ stringParamDefault (rParameters req) "mode" "overwrite" = "append"
     /\ (exists t, fs !! p = Some (FLink t)) /\ locate kernel_links true true fs (abs_of p) = Ok q /\ fs !! q = None.

Definition confined `{UnicodeCase} `{OS} (env : HostFSEnv) (fs : FS) (req : ToolRequest) (fs' : FS) : Prop :=
  forall q, differs fs fs' q -> exists p, settled fs p /\ cleared env (rAgentID req) true p /\ touched env fs req p q.

Lemma confined_refl `{UnicodeCase} `{OS} env fs req : confined env fs req fs.
Proof. by intros q ?%differs_refl. Qed.

Lemma link_not_located `{OS} fs p t : p <> [] -> fs !! p = Some (FLink t) -> ~ located fs true false p.
Proof.
  intros Hne Hp Hl. destruct (located_cases _ _ _ _ Hl) as [Hr|(_ & Hleaf & _)]; [|by rewrite Hp in Hleaf].
  apply real_dir_node in Hr. unfold node_at in Hr. rewrite bool_decide_eq_false_2 in Hr by done. congruence.
Qed.

Lemma leftover_differs `{OS} fs fs' tp q :
  leftover fs fs' tp -> differs fs fs' q -> q = tp /\ fs !! q = None /\ os_permits OpRemove q = false.
Proof. intros [->|(Hn & Hp & s & ->)]; [by intros ?%differs_refl|]. intros ->%differs_insert. done. Qed.

Lemma write_confined `{UnicodeCase} `{OS} `{HostText} env fs req :
  str_elem slash (heTempSuffix env) = false -> rAction req = "write" -> confined env fs req (hostfs_write env fs req).2.
Proof.
  intros Hsuf Hact. unfold hostfs_write. destruct (let? path := _ in _) as [data|]; [|apply confined_refl].
  destruct (request_path _ _ _ _) as [r|] eqn:Hr; [|apply confined_refl].
  apply request_path_spec in Hr as (p & -> & Hs & Hl & Hc).
  rewrite path_dir_settled by by eapply settled_plain.
  pose proof (MkdirAll_located _ _ (settled_parent _ _ Hs)) as Hm.
  destruct (MkdirAll fs _) as [e fs1]. simpl in Hm. subst fs1. destruct e; [apply confined_refl|].
  case_bool_decide as Happ.
  - destruct (write_file _ _ _ _) as [fs1|] eqn:Hw; [|apply confined_refl]. intros q Hq. exists p. split_and!; [done..|].
    apply write_file_effect in Hw as [[_ ->]|(t & loc & s & Hne & Hlink & Hloc & ->)]; [apply differs_insert in Hq; by left| |done].
    apply differs_insert in Hq. subst q. do 3 right. split_and!; [done|done|by exists t|done|].
    destruct (locate_created _ _ _ _ Hloc) as [Hf|]; [|done]. destruct Hl as [Hl|Hd]; [|by apply Hd in Hf].
    by apply (link_not_located _ _ _ Hne) in Hlink.
  - destruct (atomicWrite _ _ _ _) as [r fs1] eqn:Hw. apply atomicWrite_effect in Hw; [|done..].
    assert (confined env fs req fs1) as Hconf; [|by destruct r].
    intros q Hq. exists p. split_and!; [done..|]. destruct r as [n|e].
    + destruct Hw as (_ & _ & Hn & ->). unfold differs in Hq. left. destruct (decide (q = temp_of env p)) as [->|Hne].
      * by rewrite lookup_delete_eq in Hq.
      * rewrite lookup_delete_ne in Hq by done. by apply differs_insert in Hq.
    + destruct (leftover_differs _ _ _ _ Hw Hq) as (-> & Hn & Hp). right. right. left. by split_and!.
Qed.

Lemma mkdir_confined `{UnicodeCase} `{OS} `{HostText} env fs req : confined env fs req (hostfs_mkdir env fs req).2.
Proof.
  unfold hostfs_mkdir. destruct (request_path _ _ _ _) as [r|] eqn:Hr; [|apply confined_refl].
  apply request_path_spec in Hr as (p & -> & Hs & _ & Hc). destruct (MkdirAll fs _) as [e fs1] eqn:Hm.
  assert (confined env fs req fs1) as Hconf; [|by destruct e].
  apply MkdirAll_effect in Hm as [->|(_ & _ & ->)]; [apply confined_refl| |done].
  intros q ->%differs_insert. exists p. split_and!; [done..|by left].
Qed.

Lemma remove_confined `{UnicodeCase} `{OS} `{HostText} env fs req :
  rAction req = "delete" -> confined env fs req (hostfs_remove env fs req).2.
Proof.
  intros Hact. unfold hostfs_remove. destruct (request_path _ _ _ _) as [r|] eqn:Hr; [|apply confined_refl].
  apply request_path_spec in Hr as (p & -> & Hs & _ & Hc). destruct (Stat _ _) as [info|]; [|apply confined_refl].
  destruct (_ && _); [apply confined_refl|]. destruct (hashPaths _ _ _) as [hashes|]; [|apply confined_refl].
  destruct (if hostBoolParam _ _ _ then _ else _) as [e fs1] eqn:Hd.
  assert (confined env fs req fs1) as Hconf; [|by destruct e].
  intros q Hq. exists p. split_and!; [done..|]. destruct (hostBoolParam _ _ _) eqn:Hrec.
  - destruct (RemoveAll_effect _ _ _ _ _ Hs Hd Hq) as [Hb _]. right. left. by split_and!.
  - destruct (Remove _ _) as [fs2|] eqn:Hrm; injection Hd as <- <-; [|by apply differs_refl in Hq].
    apply Remove_effect in Hrm as (_ & -> & _); [|done]. left. by eapply differs_delete.
Qed.

Lemma HostFSExecute_confined `{UnicodeCase} `{OS} `{HostText} env fs req :
  str_elem slash (heTempSuffix env) = false -> confined env fs req (HostFSExecute env fs req).2.
Proof.
  intros Hsuf. unfold HostFSExecute.
  case_bool_decide; [apply confined_refl|]. case_bool_decide; [by apply write_confined|].
  case_bool_decide; [apply confined_refl|]. case_bool_decide; [apply confined_refl|].
  case_bool_decide; [by apply remove_confined|]. case_bool_decide; [apply mkdir_confined|apply confined_refl].
Qed.

(** Nothing changes outside what is allowed for writing.  Whatever is asked, each location
    where the file system differs after the call is the resolved path itself, which is
    allowed for writing, not denied and not dangerous, and whose parent is real; or it is
    below that path and the call deletes recursively; or it is a temporary file next to it
    that the system does not let go; or the path ends in a link that leads nowhere yet and
    the call appends to it. *)
Theorem hostfs_changes_confined `{UnicodeCase} `{OS} `{HostText} env fs req :
  str_elem slash (heTempSuffix env) = false ->
  let '(_, fs') := HostFSExecute env fs req in
  forall q, differs fs fs' q ->
    exists p, settled fs p /\ cleared env (rAgentID req) true p /\ touched env fs req p q.
Proof.
  intros Hsuf. pose proof (HostFSExecute_confined env fs req Hsuf) as Hconf.
  by destruct (HostFSExecute env fs req) as [res fs'].
Qed.

Lemma write_data_size `{HostText} env params data :
  write_data env params = Ok data -> Z.of_nat (String.length data) <= MaxWriteBytes (heConfig env).
Proof.
  unfold write_data, Ok, Err. destruct (hostStringParam _ _) as [content|]; simpl; [|done].
  match goal with |- context [rbind ?x _] => destruct x as [d|] end; simpl; [|done].
  destruct (Z.ltb_spec (MaxWriteBytes (heConfig env)) (Z.of_nat (String.length d))); [done|]. intros [= ->]. lia.
Qed.

(** An overwriting write is all or nothing.  When it answers, the resolved path, which may be
    written, holds exactly the decoded content, of a permitted size, and nothing else
    differs; when it fails, nothing does, but for a temporary file the system keeps. *)
Theorem hostfs_overwrite_atomic `{UnicodeCase} `{OS} `{HostText} env fs req :
  str_elem slash (heTempSuffix env) = false ->
  stringParamDefault (rParameters req) "mode" "overwrite" <> "append" ->
  let '((r, _), fs') := hostfs_write env fs req in
  match r with
  | inl reply =>
    exists p data, cleared env (rAgentID req) true p /\ write_data env (rParameters req) = Ok data /\
      Z.of_nat (String.length data) <= MaxWriteBytes (heConfig env) /\ reply = HostWritten (Z.of_nat (String.length data)) /\
      p <> [] /\ fs !! temp_of env p = None /\ fs' = delete (temp_of env p) (<[p := FFile data]> fs)
  | inr _ => fs' = fs \/ exists p, cleared env (rAgentID req) true p /\ leftover fs fs' (temp_of env p)
  end.
Proof.
  intros Hsuf Hmode. unfold hostfs_write. destruct (let? path := _ in _) as [data|] eqn:Hdata; [|by left].
  assert (write_data env (rParameters req) = Ok data) as Hwd by (by destruct (hostStringParam _ "path")).
  destruct (request_path _ _ _ _) as [r|] eqn:Hr; [|by left].
  apply request_path_spec in Hr as (p & -> & Hs & _ & Hc). rewrite path_dir_settled by by eapply settled_plain.
  pose proof (MkdirAll_located _ _ (settled_parent _ _ Hs)) as Hm.
  destruct (MkdirAll fs _) as [e fs1]. simpl in Hm. subst fs1. destruct e; [by left|].
  rewrite bool_decide_eq_false_2 by done.
  destruct (atomicWrite _ _ _ _) as [r fs1] eqn:Hw. apply atomicWrite_effect in Hw; [|done..].
  destruct r as [n|e]; simpl; [|by right; exists p]. destruct Hw as (-> & Hne & Hn & ->). exists p, data.
  split_and!; try done. by apply write_data_size in Hwd.
Qed.

Lemma below_refl p : below p p = true.
Proof. unfold below. rewrite take_ge by lia. by apply bool_decide_eq_true. Qed.

(** What a delete that answers has done.  The resolved path was real and may be written; without
    the recursive flag it was no directory and it alone is gone; with it everything at or
    below the path is gone and nothing else.  The hash of a deleted file is in the audit
    log. *)
Theorem hostfs_delete_effect `{UnicodeCase} `{OS} `{HostText} env fs req reply log fs' :
  hostfs_remove env fs req = (Ok reply, log, fs') ->
  exists p n, located fs true false p /\ cleared env (rAgentID req) true p /\ fs !! p = Some n /\
    (if hostBoolParam (rParameters req) "recursive" false
     then forall q, fs' !! q = if below p q then None else fs !! q
     else n <> FDir /\ fs' = delete p fs) /\
    exists hashes, log = [mkHostAudit (rAgentID req) (rAction req) (abs_of p) hashes] /\
      forall content, n = FFile content -> hashes = [(abs_of p, sha256_hex content, Z.of_nat (String.length content))].
Proof.
  unfold hostfs_remove. destruct (request_path _ _ _ _) as [r|] eqn:Hr; [|done].
  apply request_path_spec in Hr as (p & -> & Hs & Hl & Hc).
  destruct (Stat fs (abs_of p)) as [info|] eqn:Hi; [|done]. destruct Hl as [Hl|Hd]; [|by apply dangling_stat in Hi].
  destruct (Stat_located _ _ Hl) as (n & Hnode & Hi'). rewrite Hi' in Hi. injection Hi as <-. simpl.
  destruct (is_dir n && _) eqn:Hrefuse; [done|]. destruct (hashPaths _ _ _) as [hashes|] eqn:Hh; [|done].
  destruct (if hostBoolParam _ _ _ then _ else _) as [[e|] fs1] eqn:Hd; [done|]. intros [= <- <- <-].
  assert (p <> [] /\ (if hostBoolParam (rParameters req) "recursive" false
     then forall q, fs1 !! q = if below p q then None else fs !! q else n <> FDir /\ fs1 = delete p fs)) as [Hne Heff].
  { destruct (hostBoolParam _ _ _) eqn:Hrec.
    - by apply RemoveAll_all.
    - destruct (Remove _ _) as [fs2|] eqn:Hrm; [|done]. injection Hd as <-.
      apply Remove_effect in Hrm as (Hne & -> & _); [|done]. split; [done|]. split; [|done]. intros ->. done. }
  unfold node_at in Hnode. rewrite bool_decide_eq_false_2 in Hnode by done. exists p, n. split_and!; [done..|].
  exists hashes. split; [done|]. intros content ->. revert Hh. unfold hashPaths. rewrite Hi'. simpl. unfold hashFile.
  unfold ReadFile. rewrite locate_again by done. simpl. unfold node_at. rewrite bool_decide_eq_false_2, Hnode by done.
  destruct (os_permits OpRead p); [|done]. by intros [= <-].
Qed.

(** ** Listing a directory *)

Section listing.
Context `{OS} `{HostText}.

Definition shown_entries (pattern : string) (loc : location) (l : list (string * fs_node)) : list HostListEntry :=
  map (fun e => list_entry e.1 (loc ++ [e.1]) e.2) (List.filter (fun e => shown pattern e.1) l).

Lemma list_dir_spec max pattern loc l got res truncated :
  Z.of_nat (length got) < max -> list_dir max pattern loc l got = Ok (res, truncated) ->
  exists k, rev res = rev got ++ take k (shown_entries pattern loc l) /\
    if truncated then Z.of_nat (length res) = max
    else take k (shown_entries pattern loc l) = shown_entries pattern loc l /\ Z.of_nat (length res) < max.
Proof.
  revert got. induction l as [|[name n] l IH]; intros got Hlt; simpl.
  { unfold Ok. intros [= <- <-]. exists 0%nat. by rewrite app_nil_r. }
  destruct (negb (os_permits _ _)); [done|]. unfold shown_entries. simpl. destruct (shown pattern name); simpl; [|by apply IH].
  fold (shown_entries pattern loc l). destruct (max <=? _) eqn:Hge; to_prop.
  - unfold Ok. intros [= <- <-]. exists 1%nat. simpl in *. split; [done|lia].
  - intros Hr. destruct (IH (list_entry name (loc ++ [name]) n :: got) ltac:(simpl; lia) Hr) as (k & Hk & Hend). exists (S k). simpl. split; [by rewrite Hk; simpl; rewrite <- app_assoc|].
    destruct truncated; [done|]. by destruct Hend as [-> ?].
Qed.
End listing.

(** A listing of one directory shows its entries in the order of their names.  The path is a
    real directory that may be read; the answer is a prefix of the entries that match the
    pattern, at most as many as configured: all of them, or exactly that many and marked as
    truncated. *)
Theorem hostfs_list_directory `{UnicodeCase} `{OS} `{HostText} env fs req reply log :
  0 < MaxListEntries (heConfig env) ->
  hostBoolParam (rParameters req) "recursive" false = false ->
  hostfs_list env fs req = (Ok reply, log) ->
  exists p entries truncated k, real_dir fs p /\ cleared env (rAgentID req) false p /\ reply = HostEntries entries truncated /\
    let all := shown_entries (stringParamDefault (rParameters req) "pattern" EmptyString) p (children fs p) in
    entries = take k all /\
    if truncated then Z.of_nat (length entries) = MaxListEntries (heConfig env)
    else entries = all /\ Z.of_nat (length entries) < MaxListEntries (heConfig env).
Proof.
  intros Hmax Hrec. unfold hostfs_list. rewrite Hrec. destruct (request_path _ _ _ _) as [r|] eqn:Hr; [|done].
  apply request_path_spec in Hr as (p & -> & Hs & Hl & Hc).
  destruct (ReadDir fs (abs_of p)) as [[loc l]|] eqn:Hd; simpl; [|done].
  destruct (list_dir _ _ _ _ _) as [[got truncated]|] eqn:Hlist; [|done]. intros [= <- <-].
  assert (loc = p /\ real_dir fs p /\ l = children fs p) as (-> & Hreal & ->).
  { revert Hd. unfold ReadDir. destruct (locate _ _ _ _ _) as [q|] eqn:Hq; [|done]. simpl.
    destruct Hl as [Hl|Hdang]; [|by apply Hdang in Hq].
    rewrite locate_again in Hq by done. injection Hq as <-.
    destruct (real_dir_dec _ _ Hl) as [Hreal|[_ Hno]]; [rewrite real_dir_node by done|destruct (node_at fs p) as [[]|]; done].
    destruct (os_permits OpRead p); [|done]. unfold Ok. by intros [= <- <-]. }
  eapply list_dir_spec in Hlist as (k & Hk & Hend); [|done]. exists p, (rev got), truncated, k. split_and!; [done..|].
  destruct truncated; [by rewrite length_rev|]. rewrite length_rev. destruct Hend as [Ha Hlt]. split; [|done]. by rewrite Hk, Ha.
Qed.

(** * The tool behind the permission gate *)

Section gated.
Context `{UnicodeCase}.

End gated.


(** * Examples *)

Section hostfs_examples.
#[local] Existing Instance ascii_case.
#[local] Instance open_os : OS :=
  {| os_permits _ _ := true; os_dir_size _ := 4096; os_modified _ := "2025-01-01T00:00:00Z"; os_mode _ := "-rw-r--r--" |}.
#[local] Instance plain_texts : HostText :=
  {| detect_type _ := "text/plain; charset=utf-8"; sha256_hex s := s; base64_encode s := s; base64_decode s := Some s;
     glob_match p s := String.eqb p s |}.

Definition demo_fs : FS :=
  list_to_map [(["srv"], FDir); (["srv"; "data"], FDir); (["srv"; "data"; "A"], FDir);
    (["srv"; "data"; "B"], FDir); (["srv"; "data"; "a.txt"], FFile "hello");
    (["srv"; "data"; "alias"], FLink "a.txt"); (["srv"; "data"; "out"], FLink "/outside/new");
    (["srv"; "data"; "escape"], FLink "../../outside"); (["srv"; "data"; "keep"], FDir);
    (["srv"; "data"; "keep"; "k"], FFile "kept"); (["outside"], FDir); (["outside"; "secret"], FFile "s")].

Definition demo_config : HostPathConfig := mkHostPathConfig ["/srv/data"] ["/srv/data/"] ["/srv/data/keep"].

Definition demo_env (limit entries : Z) : HostFSEnv :=
  mkHostFSEnv (NewHostFS (mkHostFSConfig limit 0 0 entries)) (fun _ => Ok (Some demo_config)) "123" true.

Definition host_request (action path : string) (rest : list (string * any)) : ToolRequest :=
  NewToolRequest "q1" "a1" "hostfs" action (("path", AString path) :: rest).

Example read_through_link :
  (HostFSExecute (demo_env 3 0) demo_fs (host_request "read" "/srv/data/alias" [])).1.1 =
    Ok (HostContent "hel" "text" "text/plain; charset=utf-8" 5 true).
Proof. by vm_compute. Qed.

Example read_out_of_allowlist :
  (HostFSExecute (demo_env 0 0) demo_fs (host_request "read" "/srv/data/escape/secret" [])).1.1 = Err (HostPath SymlinkEscape).
Proof. by vm_compute. Qed.

(** A range is not bound by the read limit. *)
Example range_beyond_limit :
  (HostFSExecute (demo_env 3 0) demo_fs
     (host_request "read" "/srv/data/a.txt" [("range", AMap [("offset", AInt 0); ("length", AInt 100)])])).1.1 =
    Ok (HostContent "hello" "text" "text/plain; charset=utf-8" 5 false).
Proof. by vm_compute. Qed.

(** Appending through a link whose target does not exist creates the target, outside. *)
Example append_escapes :
  let '(res, fs') := HostFSExecute (demo_env 0 0) demo_fs
    (host_request "write" "/srv/data/out" [("content", AString "x"); ("mode", AString "append")]) in
  res.1 = Ok (HostWritten 1) /\ fs' !! ["outside"; "new"] = Some (FFile "x") /\
  hostCheckPath "/outside/new" demo_config true = Some PathNotAllowed.
Proof. by vm_compute. Qed.

(** A recursive delete does not look at what is denied below the path. *)
Example delete_removes_denied :
  let '(res, fs') := HostFSExecute (demo_env 0 0) demo_fs (host_request "delete" "/srv/data" [("recursive", ABool true)]) in
  res.1 = Ok HostDeleted /\ fs' !! ["srv"; "data"; "keep"; "k"] = None /\
  hostCheckPath "/srv/data/keep/k" demo_config true = Some PathDenied.
Proof. by vm_compute. Qed.

(** A recursive listing goes on after the limit. *)
Example recursive_list_exceeds_limit :
  match (HostFSExecute (demo_env 0 1) demo_fs
           (host_request "list" "/srv/data" [("recursive", ABool true); ("depth", AInt 5)])).1.1 with
  | inl (HostEntries entries truncated) => map leName entries = ["A"; "B"; "a.txt"] /\ truncated = true
  | _ => False
  end.
Proof. by vm_compute. Qed.

Lemma hostfs_read_real_file_witness : exists p content,
  located demo_fs true false p /\ demo_fs !! p = Some (FFile content) /\ limited 3 content = "hel".
Proof.
  destruct (hostfs_read (demo_env 3 0) demo_fs (host_request "read" "/srv/data/alias" [])) as [[reply|e] log] eqn:E;
    [|exfalso; vm_compute in E; discriminate E].
  destruct (hostfs_read_real_file (demo_env 3 0) demo_fs _ reply log E)
    as (p & content & Hl & _ & Hn & _ & data & truncated & Hreply & Hdata & _).
  exists p, content. split; [exact Hl|]. split; [exact Hn|]. vm_compute in E. injection E as <- _.
  unfold host_content in Hreply. simpl in Hreply. destruct (utf8_valid data); simpl in Hreply; [|discriminate Hreply].
  injection Hreply as Hd _ _. transitivity data; [symmetry; exact Hdata|symmetry; exact Hd].
Defined.

Definition overwrite_request : ToolRequest := host_request "write" "/srv/data/alias" [("content", AString "new")].

Lemma hostfs_changes_confined_witness : exists p,
  settled demo_fs p /\ cleared (demo_env 0 0) "a1" true p /\ touched (demo_env 0 0) demo_fs overwrite_request p ["srv"; "data"; "a.txt"].
Proof.
  pose proof (hostfs_changes_confined (demo_env 0 0) demo_fs overwrite_request eq_refl) as H.
  destruct (HostFSExecute (demo_env 0 0) demo_fs overwrite_request) as [res fs'] eqn:E. apply H.
  assert (fs' = (HostFSExecute (demo_env 0 0) demo_fs overwrite_request).2) as -> by (rewrite E; reflexivity).
  unfold differs. vm_compute. discriminate.
Defined.

Lemma hostfs_overwrite_atomic_witness : exists p,
  cleared (demo_env 0 0) "a1" true p /\
  (hostfs_write (demo_env 0 0) demo_fs overwrite_request).2 = delete (temp_of (demo_env 0 0) p) (<[p := FFile "new"]> demo_fs).
Proof.
  assert (stringParamDefault (rParameters overwrite_request) "mode" "overwrite" <> "append") as Hmode by (vm_compute; discriminate).
  pose proof (hostfs_overwrite_atomic (demo_env 0 0) demo_fs overwrite_request eq_refl Hmode) as H.
  assert ((hostfs_write (demo_env 0 0) demo_fs overwrite_request).1.1 = Ok (HostWritten 3)) as Hok by (vm_compute; reflexivity).
  destruct (hostfs_write (demo_env 0 0) demo_fs overwrite_request) as [[[reply|e] log] fs']; [|discriminate Hok].
  destruct H as (p & data & Hc & Hd & _ & _ & _ & _ & ->). exists p. split; [exact Hc|].
  vm_compute in Hd. injection Hd as <-. reflexivity.
Defined.



End hostfs_examples.
