(* ===== verification/FileTool.v ===== *)
(** The file tool of an agent's workspace ([internal/tools/file], with
    [executil.SafePath]).

    Relative paths are confined to the workspace: the path is cleaned, joined to the
    workspace and resolved, or its nearest ancestor that resolves is.  Absolute paths are
    for agents with host paths, and for administrators.  The file system is the one of
    [GoFS]. *)

From S2P Require Import Prelude GoString GoPath GoJson GoFS Types KtpTypes HostFS.
#[local] Open Scope Z_scope.

(** * [executil.SafePath] *)

Inductive SafePathError : Type :=
| SafeEmpty
| SafeAbsolute
| SafeTraversal
| SafeWorkspace (e : FsError)
| SafeEscape.

(** The climb to the nearest ancestor that resolves, up to the workspace: its resolution
    joined with the names below it, or those names. *)
Fixpoint climb `{OS} (fuel : nat) (fs : FS) (workspace remaining : string) (tail : list string) : string + list string :=
  match fuel with
  | O => inr tail
  | S fuel =>
    if bool_decide (remaining = workspace) then inr tail
    else
      let parent := path_dir remaining in
      let tail := path_base remaining :: tail in
      match EvalSymlinks fs parent with
      | inl resolved => inl (path_joins (resolved :: tail))
      | inr _ => climb fuel fs workspace parent tail
      end
  end.

Definition SafePath `{OS} (fs : FS) (workspace userPath : string) : result SafePathError string :=
  if bool_decide (userPath = EmptyString) then Err SafeEmpty
  else if is_abs userPath then Err SafeAbsolute
  else
    let cleaned := clean userPath in
    if bool_decide (cleaned = "..") || has_prefix cleaned "../" then Err SafeTraversal
    else
      let absPath := path_join workspace cleaned in
      if negb (inside absPath workspace) then Err SafeTraversal
      else match EvalSymlinks fs workspace with
      | inr e => Err (SafeWorkspace e)
      | inl realWorkspace =>
        let realPath :=
          match EvalSymlinks fs absPath with
          | inl p => p
          | inr _ =>
            match climb (S (String.length absPath)) fs workspace absPath [] with
            | inl p => p
            | inr tail => path_joins (realWorkspace :: tail)
            end
          end in
        if inside realPath realWorkspace then Ok absPath else Err SafeEscape
      end.

(** * The tool *)

Inductive FileError : Type :=
| WorkspaceFailed (e : string)
| FileMissing (key : string)
| FileNotString (key : string)
| FilePathEmpty
| FileSafe (e : SafePathError)
| TierFailed (e : string)
| FilePathDenied
| FilePathNotAllowed
| FileResolveFailed (e : FsError)
| FileSymlinkEscape
| NotForAdmin
| AbsoluteNotAllowed (tier : string)
| SkillDenied (isWrite : bool)
| FileReadFailed (e : FsError)
| FileParentFailed (e : FsError)
| FileWriteFailed (e : FsError)
| FileListFailed (e : FsError)
| FileDeleteFailed (e : FsError)
| FileMkdirFailed (e : FsError)
| FileStatFailed (e : FsError)
| EditEmpty
| EditIdentical
| EditNotFound
| EditAmbiguous (n : nat)
| FileUnknownAction (action : string).

Inductive FileReply : Type :=
| FileContent (content : string)
| FileWritten (n : Z)
| FileEdited (replacements : nat) (path : string)
| FileEntries (entries : list (string * bool * Z))
| FileDeleted
| FileCreated
| FileStat (name : string) (size : Z) (isDir : bool) (modified : string).

(** [FileTool]: the callbacks (a missing one answers with its default) and the paths of a
    skill. *)
Record FileTool := mkFileTool {
  ftWorkspace : string -> result string string;
  ftTier : string -> result string string;
  ftHostPaths : string -> result string (option HostPathConfig);
  ftSkillRead : list string;
  ftSkillWrite : list string;
}.

Definition fileStringParam (params : list (string * any)) (key : string) : result FileError string :=
  match alookup key params with
  | None => Err (FileMissing key)
  | Some (AString s) => Ok s
  | Some _ => Err (FileNotString key)
  end.

Definition fileBoolParam (params : list (string * any)) (key : string) (def : bool) : bool :=
  match alookup key params with
  | Some (ABool b) => b
  | Some (ANumber s) => if bool_decide (s = "1") || bool_decide (s = "true") then true else def
  | _ => def
  end.

Definition adminReadPaths : list string := ["/etc/kyvik"; "/var/log/kyvik"; "/var/lib/kyvik"].
Definition defaultDenyPaths : list string :=
  ["/etc/shadow"; "/etc/passwd"; "/.ssh/"; "/.gnupg/"; "/id_rsa"; "/id_ed25519"; ".pem"].

Definition fileMatchPattern (path pattern : string) : bool :=
  let pattern := clean pattern in
  bool_decide (path = pattern) || has_suffix pattern slash_s || has_prefix path (pattern +:+ slash_s).

Definition fileCheckPath (path : string) (config : HostPathConfig) (isWrite : bool) : option FileError :=
  let cleaned := clean path in
  if existsb (contains cleaned) defaultDenyPaths then Some FilePathDenied
  else if existsb (fileMatchPattern cleaned) (HostDeny config) then Some FilePathDenied
  else if existsb (fileMatchPattern cleaned) (if isWrite then HostWrite config else HostRead config) then None
  else Some FilePathNotAllowed.

(** The administrator's branch of [resolvePath] with host paths: the path is checked, and its
    resolution is; the path is what is used. *)
Definition admin_host_path `{OS} (fs : FS) (hostPaths : HostPathConfig) (userPath : string) (isWrite : bool)
    : result FileError string :=
  let cleaned := clean userPath in
  match fileCheckPath cleaned hostPaths isWrite with
  | Some e => Err e
  | None =>
    let? realPath :=
      match EvalSymlinks fs cleaned with
      | inl p => Ok p
      | inr NotExist =>
        match EvalSymlinks fs (path_dir cleaned) with
        | inl parent => Ok (path_join parent (path_base cleaned))
        | inr e => Err (FileResolveFailed e)
        end
      | inr e => Err (FileResolveFailed e)
      end in
    if bool_decide (realPath = cleaned) then Ok cleaned
    else match fileCheckPath realPath hostPaths isWrite with Some _ => Err FileSymlinkEscape | None => Ok cleaned end
  end.

(** The administrator without host paths reads the files of the program. *)
Definition admin_system_path (userPath : string) (isWrite : bool) : result FileError string :=
  let cleaned := clean userPath in
  if negb isWrite && existsb (inside cleaned) adminReadPaths then
    if existsb (contains cleaned) defaultDenyPaths then Err FilePathDenied else Ok cleaned
  else Err NotForAdmin.

(** [FileTool.resolvePath] *)
Definition fileResolvePath `{OS} (t : FileTool) (fs : FS) (agentID workspace userPath : string) (isWrite : bool)
    : result FileError string :=
  if bool_decide (userPath = EmptyString) then Err FilePathEmpty
  else if negb (is_abs userPath) then
    match SafePath fs workspace userPath with inl p => Ok p | inr e => Err (FileSafe e) end
  else match ftTier t agentID with
  | inr e => Err (TierFailed e)
  | inl tier =>
    if bool_decide (tier = "admin") then
      match ftHostPaths t agentID with
      | inl (Some hostPaths) =>
        if is_nil (HostRead hostPaths) && is_nil (HostWrite hostPaths) then admin_system_path userPath isWrite
        else admin_host_path fs hostPaths userPath isWrite
      | _ => admin_system_path userPath isWrite
      end
    else
      match ftHostPaths t agentID with
      | inl (Some hostPaths) =>
        match fileCheckPath (clean userPath) hostPaths isWrite with
        | None => Ok (clean userPath)
        | Some _ => Err (AbsoluteNotAllowed tier)
        end
      | _ => Err (AbsoluteNotAllowed tier)
      end
  end.

(** [checkSkillPaths] *)
Definition checkSkillPaths (t : FileTool) (absPath workspace : string) (isWrite : bool) : bool :=
  let allowedPaths := if isWrite then ftSkillWrite t else ftSkillRead t in
  is_nil allowedPaths
  || existsb (fun allowed =>
       inside absPath (if is_abs allowed then clean allowed else clean (path_join workspace allowed))) allowedPaths.

(** The path of a request, resolved and checked. *)
Definition file_path `{OS} (t : FileTool) (fs : FS) (req : ToolRequest) (workspace path : string) (isWrite : bool)
    : result FileError string :=
  let? absPath := fileResolvePath t fs (rAgentID req) workspace path isWrite in
  if checkSkillPaths t absPath workspace isWrite then Ok absPath else Err (SkillDenied isWrite).

Section operations.
Context `{OS} (t : FileTool) (fs : FS) (workspace : string).

(** [FileTool.read] *)
Definition file_read (req : ToolRequest) : result FileError FileReply :=
  let? path := fileStringParam (rParameters req) "path" in
  let? absPath := file_path t fs req workspace path false in
  match ReadFile fs absPath with inl data => Ok (FileContent data) | inr e => Err (FileReadFailed e) end.

(** [FileTool.stat] *)
Definition file_stat (req : ToolRequest) : result FileError FileReply :=
  let? path := fileStringParam (rParameters req) "path" in
  let? absPath := file_path t fs req workspace path false in
  match Stat fs absPath with
  | inl info => Ok (FileStat (path_base absPath) (fiSize info) (fiIsDir info) (fiModified info))
  | inr e => Err (FileStatFailed e)
  end.

(** [FileTool.list] *)
Definition file_visit (absPath : string) (p : location) (n : fs_node) (walkErr : option FsError) (entries : list (string * bool * Z))
    : WalkAnswer * list (string * bool * Z) :=
  match walkErr with
  | Some e => (WalkFail e, entries)
  | None =>
    if bool_decide (abs_of p = absPath) then (WalkOn, entries)
    else if negb (os_permits OpLookup p) then (WalkFail PermissionDenied, entries)
    else (WalkOn, entries ++ [(default EmptyString (path_rel absPath (abs_of p)), is_dir n, node_size p n)])
  end.

Definition dir_entries (loc : location) (l : list (string * fs_node)) : list (string * bool * Z) :=
  map (fun e => (e.1, is_dir e.2, node_size (loc ++ [e.1]) e.2)) (List.filter (fun e => os_permits OpLookup (loc ++ [e.1])) l).

Definition file_list (req : ToolRequest) : result FileError FileReply :=
  let path := stringParamDefault (rParameters req) "path" "." in
  let recursive := fileBoolParam (rParameters req) "recursive" false in
  let? absPath := file_path t fs req workspace path false in
  if recursive then
    match WalkDir fs (file_visit absPath) absPath [] with
    | (Some e, _) => Err (FileListFailed e)
    | (None, entries) => Ok (FileEntries entries)
    end
  else
    match ReadDir fs absPath with
    | inr e => Err (FileListFailed e)
    | inl (loc, l) => Ok (FileEntries (dir_entries loc l))
    end.

Definition file_fail (e : FileError) : result FileError FileReply * FS := (Err e, fs).

(** [FileTool.write] *)
Definition file_write (req : ToolRequest) : result FileError FileReply * FS :=
  match (let? path := fileStringParam (rParameters req) "path" in
         let? content := fileStringParam (rParameters req) "content" in
         let? absPath := file_path t fs req workspace path true in Ok (absPath, content)) with
  | inr e => file_fail e
  | inl (absPath, content) =>
    match MkdirAll fs (path_dir absPath) with
    | (Some e, fs) => (Err (FileParentFailed e), fs)
    | (None, fs) =>
      let append := bool_decide (stringParamDefault (rParameters req) "mode" "overwrite" = "append") in
      match write_file (negb append) fs absPath content with
      | inr e => (Err (FileWriteFailed e), fs)
      | inl fs => (Ok (FileWritten (Z.of_nat (String.length content))), fs)
      end
    end
  end.

(** [strings.Count] and [strings.Replace] of one occurrence, for a text that is not empty *)
Fixpoint count_from (sub : string) (skip : nat) (s : string) : nat :=
  match s with
  | EmptyString => 0
  | String _ s' =>
    match skip with
    | S skip => count_from sub skip s'
    | O => if has_prefix s sub then S (count_from sub (String.length sub - 1) s') else count_from sub 0 s'
    end
  end.

Definition str_count (s sub : string) : nat := count_from sub 0 s.

Definition replace_first (s old new : string) : string :=
  match str_index s old with
  | Some i => str_take i s +:+ new +:+ str_drop (i + String.length old) s
  | None => s
  end.

(** [FileTool.edit] *)
Definition edit_text (content oldStr newStr : string) (replaceAll : bool) : result FileError (string * nat) :=
  let count := str_count content oldStr in
  if (count =? 0)%nat then Err EditNotFound
  else if (1 <? count)%nat && negb replaceAll then Err (EditAmbiguous count)
  else Ok (if replaceAll then replace_all content oldStr newStr else replace_first content oldStr newStr, count).

Definition file_edit (req : ToolRequest) : result FileError FileReply * FS :=
  match (let? path := fileStringParam (rParameters req) "path" in
         let? oldStr := fileStringParam (rParameters req) "old_string" in
         let? newStr := fileStringParam (rParameters req) "new_string" in
         let? absPath := file_path t fs req workspace path true in
         if bool_decide (oldStr = EmptyString) then Err EditEmpty
         else if bool_decide (oldStr = newStr) then Err EditIdentical
         else match Stat fs absPath with
         | inr e => Err (FileStatFailed e)
         | inl _ =>
           match ReadFile fs absPath with
           | inr e => Err (FileReadFailed e)
           | inl content =>
             let? r := edit_text content oldStr newStr (fileBoolParam (rParameters req) "replace_all" false) in
             Ok (absPath, r.1, r.2)
           end
         end) with
  | inr e => file_fail e
  | inl (absPath, updated, count) =>
    match write_file true fs absPath updated with
    | inr e => file_fail (FileWriteFailed e)
    | inl fs => (Ok (FileEdited count absPath), fs)
    end
  end.

(** [FileTool.doDelete] *)
Definition file_delete (req : ToolRequest) : result FileError FileReply * FS :=
  match (let? path := fileStringParam (rParameters req) "path" in file_path t fs req workspace path true) with
  | inr e => file_fail e
  | inl absPath =>
    match Remove fs absPath with inl fs => (Ok FileDeleted, fs) | inr e => file_fail (FileDeleteFailed e) end
  end.

(** [FileTool.mkdir] *)
Definition file_mkdir (req : ToolRequest) : result FileError FileReply * FS :=
  match (let? path := fileStringParam (rParameters req) "path" in file_path t fs req workspace path true) with
  | inr e => file_fail e
  | inl absPath =>
    match MkdirAll fs absPath with
    | (None, fs) => (Ok FileCreated, fs)
    | (Some e, fs) => (Err (FileMkdirFailed e), fs)
    end
  end.
End operations.

(** [FileTool.Execute] *)
Definition FileExecute `{OS} (t : FileTool) (fs : FS) (req : ToolRequest) : result FileError FileReply * FS :=
  match ftWorkspace t (rAgentID req) with
  | inr e => (Err (WorkspaceFailed e), fs)
  | inl workspace =>
    if bool_decide (rAction req = "read") then (file_read t fs workspace req, fs)
    else if bool_decide (rAction req = "write") then file_write t fs workspace req
    else if bool_decide (rAction req = "list") then (file_list t fs workspace req, fs)
    else if bool_decide (rAction req = "delete") then file_delete t fs workspace req
    else if bool_decide (rAction req = "mkdir") then file_mkdir t fs workspace req
    else if bool_decide (rAction req = "stat") then (file_stat t fs workspace req, fs)
    else if bool_decide (rAction req = "edit") then file_edit t fs workspace req
    else (Err (FileUnknownAction (rAction req)), fs)
  end.

(** * SafePath: lemmas *)

Lemma prefix_app_cases (l d t : list string) :
  l `prefix_of` d ++ t -> l `prefix_of` d \/ exists t1 t2, t = t1 ++ t2 /\ t1 <> [] /\ l = d ++ t1.
Proof.
  intros [rest E]. destruct (app_eq_inv d t l rest E) as [(k & -> & ->)|(k & -> & ->)].
  - left. by eexists.
  - destruct (decide (k = [])) as [->|Hne]; [left; rewrite app_nil_r; done|right; by exists k, rest].
Qed.

Section safe_path.
Context `{OS} (fs : FS).

(** What a safe path is: names [r ++ t] below the workspace, of which [r] leads to a location
    within the real workspace and nothing more of it resolves. *)
Definition safe_at (ws rws : location) (r t : list string) (d : location) : Prop :=
  Forall plain_elem (ws ++ r) /\ Forall plain_elem t /\
  locate eval_links true false fs (abs_of ws) = Ok rws /\ locate eval_links true false fs (abs_of (ws ++ r)) = Ok d /\
  rws `prefix_of` d /\
  forall t1 t2, t = t1 ++ t2 -> t1 <> [] -> forall p, locate eval_links true false fs (abs_of ((ws ++ r) ++ t1)) <> Ok p.

Lemma EvalSymlinks_ok path real : EvalSymlinks fs path = Ok real -> exists p, real = abs_of p /\ locate eval_links true false fs path = Ok p.
Proof. unfold EvalSymlinks. destruct (locate _ _ _ _ _) as [p|]; [|done]. intros [= <-]. by exists p. Qed.

Lemma EvalSymlinks_err path e : EvalSymlinks fs path = inr e -> forall p, locate eval_links true false fs path <> Ok p.
Proof. unfold EvalSymlinks. destruct (locate _ _ _ _ _) as [p|]; done. Qed.

(** Names that exist below a directory can be added to a path that leads to it. *)
Lemma locate_down es d t :
  Forall plain_elem es -> Forall plain_elem t -> locate eval_links true false fs (abs_of es) = Ok d ->
  located fs true false (d ++ t) -> t <> [] -> locate eval_links true false fs (abs_of (es ++ t)) = Ok (d ++ t).
Proof.
  intros Hes Ht He Hl Hne. assert (real_dir fs d) as Hd.
  { clear He Hes. destruct t as [|c t _] using rev_ind; [done|]. clear Hne.
    assert (real_dir fs (d ++ t)) as Hr.
    { destruct (located_settled fs _ Hl) as [E|(d' & c' & E & _ & Hd')]; [by destruct d, t|].
      inversion Hl as [p Hp E'|d2 c2 Hd2 _ _ _ E']; subst.
      - apply real_dir_up in Hp. by rewrite app_assoc, removelast_last in Hp.
      - rewrite app_assoc in E'. apply app_inj_tail in E' as [<- _]. done. }
    clear Hl Ht. induction t as [|x t IH] using rev_ind; [by rewrite app_nil_r in Hr|]. apply IH.
    apply real_dir_up in Hr. by rewrite app_assoc, removelast_last in Hr. }
  rewrite locate_abs_of in * by (try done; by apply plain_app). change eval_links with (eval_links + 0)%nat.
  eapply walk_app; [done|exact He|]. rewrite <- walk_real_dir by done.
  rewrite <- locate_abs_of by (by eapply located_plain). by apply locate_again.
Qed.

(** The climb finds an ancestor that resolves below which nothing does. *)
Lemma climb_spec fuel ws rws rest tail :
  Forall plain_elem ws -> Forall plain_elem rest -> Forall plain_elem tail -> rest <> [] -> (length rest < fuel)%nat ->
  locate eval_links true false fs (abs_of ws) = Ok rws ->
  (forall p, locate eval_links true false fs (abs_of (ws ++ rest)) <> Ok p) ->
  exists r t d, rest = r ++ t /\ t <> [] /\ locate eval_links true false fs (abs_of (ws ++ r)) = Ok d /\
    climb fuel fs (abs_of ws) (abs_of (ws ++ rest)) tail = inl (abs_of (d ++ t ++ tail)) /\
    forall t1 t2, t = t1 ++ t2 -> t1 <> [] -> forall p, locate eval_links true false fs (abs_of ((ws ++ r) ++ t1)) <> Ok p.
Proof.
  intros Hws Hrest. revert rest tail Hrest. induction fuel as [|fuel IH]; intros rest tail Hrest Htail Hne Hfuel Hw Hun; [lia|].
  destruct rest as [|c rest _] using rev_ind; [done|]. clear Hne. apply Forall_app in Hrest as [Hrest Hc]. rewrite Forall_singleton in Hc.
  pose proof (plain_app _ _ Hws Hrest) as Hwr. cbn [climb]. rewrite bool_decide_eq_false_2.
  2: { intros E. apply abs_of_inj in E; [|by rewrite app_assoc; apply plain_snoc|done].
       apply (f_equal length) in E. rewrite !length_app in E. simpl in E. lia. }
  rewrite app_assoc, path_dir_abs, path_base_abs by done.
  destruct (EvalSymlinks fs (abs_of (ws ++ rest))) as [real|e] eqn:Ee.
  - apply EvalSymlinks_ok in Ee as (d & -> & Hd). exists rest, [c], d. split_and!; [done..| |].
    + f_equal. rewrite path_joins_below; [done|by eapply located_plain, locate_located|by constructor].
    + intros [|x [|y t1]] t2 E Hne p; [done| |done]. injection E as -> _. rewrite <- app_assoc. apply Hun.
  - pose proof (EvalSymlinks_err _ _ Ee) as Hun'.
    assert (rest <> []) as Hne by (intros ->; rewrite app_nil_r in Hun'; by eapply Hun').
    rewrite length_app in Hfuel. simpl in Hfuel.
    destruct (IH rest (c :: tail)) as (r & t & d & -> & Htne & Hd & Hcl & Hunt); [done|by constructor|done|lia|done|done|].
    exists r, (t ++ [c]), d. split_and!; [by rewrite app_assoc|by destruct t|done|by rewrite Hcl, <- app_assoc|].
    intros t1 t2 E Ht1 p. destruct t2 as [|y t2 _] using rev_ind.
    + rewrite app_nil_r in E. subst t1. rewrite <- !app_assoc in *. apply Hun.
    + rewrite app_assoc in E. apply app_inj_tail in E as [-> _]. by eapply Hunt.
Qed.

(** The join of the workspace and a cleaned path, when it is inside, is names below it. *)
Lemma joined_inside ws cleaned :
  Forall plain_elem ws -> inside (path_join (abs_of ws) cleaned) (abs_of ws) = true ->
  exists rest, path_join (abs_of ws) cleaned = abs_of (ws ++ rest) /\ Forall plain_elem rest.
Proof.
  intros Hws. unfold path_join. rewrite bool_decide_eq_false_2 by done.
  destruct (clean_abs (abs_of ws +:+ slash_s +:+ cleaned)) as (es & -> & Hes); [apply (has_prefix_app slash_s)|].
  intros (rest & ->)%inside_elems; [|done..]. exists rest. split; [done|]. by apply Forall_app in Hes as [_ ?].
Qed.

(** The prefix of a resolved name stays with what resolves. *)
Lemma prefix_of_resolved es d t rws :
  Forall plain_elem es -> Forall plain_elem t -> locate eval_links true false fs (abs_of es) = Ok d -> located fs true false rws ->
  rws `prefix_of` d ++ t -> (forall t1 t2, t = t1 ++ t2 -> t1 <> [] -> forall p, locate eval_links true false fs (abs_of (es ++ t1)) <> Ok p) ->
  rws `prefix_of` d.
Proof.
  intros Hes Ht He Hl Hpre Hun. destruct (prefix_app_cases rws d t Hpre) as [|(t1 & t2 & -> & Hne & ->)]; [done|].
  exfalso. apply Forall_app in Ht as [Ht _]. eapply (Hun t1 t2); [done..|]. by apply locate_down.
Qed.

Lemma SafePath_join ws userPath a : SafePath fs ws userPath = Ok a -> a = path_join ws (clean userPath).
Proof.
  unfold SafePath. case_bool_decide; [done|]. destruct (is_abs userPath); [done|]. destruct (_ || _); [done|].
  destruct (inside _ _); [|done]. cbn [negb]. cbn iota. destruct (EvalSymlinks fs ws) as [rw|]; [|done].
  destruct (inside _ rw); [|done]. by intros [= <-].
Qed.

Lemma SafePath_spec ws userPath a :
  Forall plain_elem ws -> SafePath fs (abs_of ws) userPath = Ok a ->
  exists rws r t d, a = abs_of ((ws ++ r) ++ t) /\ safe_at ws rws r t d.
Proof.
  intros Hws. unfold SafePath. case_bool_decide; [done|]. destruct (is_abs userPath); [done|]. destruct (_ || _); [done|].
  destruct (inside _ _) eqn:Hin; [|done]. destruct (joined_inside _ _ Hws Hin) as (rest & -> & Hrest). cbn [negb]. cbn iota.
  destruct (EvalSymlinks fs (abs_of ws)) as [rw|] eqn:Hw; [|done]. apply EvalSymlinks_ok in Hw as (rws & -> & Hw).
  pose proof (locate_located _ _ _ _ _ _ Hw) as Hrl. pose proof (located_plain _ _ _ _ Hrl) as Hrp.
  destruct (EvalSymlinks fs (abs_of (ws ++ rest))) as [real|e] eqn:Hr.
  - apply EvalSymlinks_ok in Hr as (p & -> & Hp). destruct (inside (abs_of p) (abs_of rws)) eqn:Hi; [|done]. intros [= <-].
    apply inside_elems in Hi as (down & ->); [|by eapply located_plain, locate_located|done].
    exists rws, rest, [], (rws ++ down). rewrite app_nil_r. split; [done|].
    split_and!; [by apply plain_app|done|done|done|by eexists|]. intros t1 t2 E Hne. by destruct t1.
  - pose proof (EvalSymlinks_err _ _ Hr) as Hun.
    assert (rest <> []) as Hne by (intros ->; rewrite app_nil_r in Hun; by eapply Hun).
    destruct (climb_spec (S (String.length (abs_of (ws ++ rest)))) ws rws rest []) as (r & t & d & -> & Htne & Hd & Hcl & Hunt);
      [done..| |done|done|]; [pose proof (abs_length _ (plain_app _ _ Hws Hrest)) as Hlen; rewrite length_app in Hlen; lia|].
    rewrite Hcl, app_nil_r. apply Forall_app in Hrest as [Hrp1 Htp].
    destruct (inside (abs_of (d ++ t)) (abs_of rws)) eqn:Hi; [|done]. intros [= <-].
    apply inside_elems in Hi as (down & Hdt); [|apply plain_app; [by eapply located_plain, locate_located|done]|done].
    exists rws, r, t, d. split; [by rewrite app_assoc|]. split_and!; [by apply plain_app|done|done|done| |done].
    apply (prefix_of_resolved (ws ++ r) d t rws); [by apply plain_app|exact Htp|done|done|by eexists|done].
Qed.
End safe_path.

(** * What the operations reach *)

Lemma added_within fs fs' d rws k q : rws `prefix_of` d -> added fs fs' d k -> differs fs fs' q -> rws `prefix_of` q.
Proof. intros Hpre Ha Hq. destruct (Ha q Hq) as (t1 & t2 & _ & _ & -> & _). by apply prefix_app_r. Qed.

(** The link in the last place of a path *)
Lemma locate_link `{OS} fs l es d c t :
  Forall plain_elem es -> plain_elem c -> locate l true false fs (abs_of es) = Ok d -> real_dir fs d ->
  os_permits OpLookup (d ++ [c]) = true -> fs !! (d ++ [c]) = Some (FLink t) ->
  locate l false false fs (abs_of (es ++ [c])) = Ok (d ++ [c]).
Proof.
  intros Hes Hc He Hd Hper Hn. rewrite locate_abs_of in * by (try done; by apply plain_snoc).
  eapply walk_last; [done|done|]. destruct (plain_not_special c Hc). by rewrite walk_cons, !bool_decide_eq_false_2, Hper, Hn by done.
Qed.

Section reach.
Context `{OS} (fs : FS) (ws rws : location) (r t : list string) (d : location).
Hypothesis safe : safe_at fs ws rws r t d.

(** What resolves is the location found, and nothing is missing. *)
Lemma safe_resolves p : locate kernel_links true false fs (abs_of ((ws ++ r) ++ t)) = Ok p -> t = [] /\ p = d.
Proof.
  destruct safe as (_ & _ & _ & Hd & _ & Hun). intros Hp%kernel_eval. destruct (decide (t = [])) as [->|Hne].
  - rewrite app_nil_r in Hp. split; [done|]. eapply locate_agree; [exact Hd|exact Hp].
  - exfalso. eapply (Hun t []); [by rewrite app_nil_r|done|exact Hp].
Qed.

Lemma safe_plain : Forall plain_elem ((ws ++ r) ++ t).
Proof. destruct safe as (Hr & Ht & _). by apply plain_app. Qed.

Lemma MkdirAll_abs es : Forall plain_elem es -> MkdirAll fs (abs_of es) = mkdir_all (rev es) fs.
Proof.
  intros He. unfold MkdirAll. replace (is_abs (abs_of es)) with true by (symmetry; apply (has_prefix_app slash_s)).
  by rewrite path_elems_abs.
Qed.

Lemma mkdir_within e fs' q :
  fs_wf fs -> MkdirAll fs (abs_of ((ws ++ r) ++ t)) = (e, fs') -> differs fs fs' q -> rws `prefix_of` q.
Proof.
  intros Hwf. rewrite MkdirAll_abs by apply safe_plain. destruct safe as (Hr & Ht & _ & Hd & Hpre & Hun). intros Hm.
  pose proof (mkdir_chain fs (ws ++ r) d t Hwf Hr Ht Hd Hun) as Hc. rewrite Hm in Hc. destruct Hc as [Hadd _].
  by eapply added_within.
Qed.

(** The directories above the path are made within the workspace, and then the path leads there, unless its last
    name is a link of the workspace that leads nowhere yet; then no directory is made. *)
Lemma parents_within e fs1 :
  fs_wf fs -> MkdirAll fs (path_dir (abs_of ((ws ++ r) ++ t))) = (e, fs1) ->
  (forall q, differs fs fs1 q -> rws `prefix_of` q) /\
  (e = None -> forall loc, locate kernel_links true true fs1 (abs_of ((ws ++ r) ++ t)) = Ok loc ->
    rws `prefix_of` loc \/ fs1 = fs /\ fs !! loc = None /\ exists l target, rws `prefix_of` l /\ fs !! l = Some (FLink target)
      /\ locate kernel_links false false fs (abs_of ((ws ++ r) ++ t)) = Ok l).
Proof.
  intros Hwf. pose proof safe_plain as Hpl. rewrite path_dir_settled by done.
  destruct safe as (Hr & Ht & _ & Hd & Hpre & Hun). destruct t as [|c t' _] using rev_ind.
  - rewrite app_nil_r in *. intros Hm. assert (fs1 = fs) as ->.
    { assert (exists d', locate eval_links true false fs (abs_of (removelast (ws ++ r))) = Ok d') as [d' Hd'].
      { destruct (ws ++ r) as [|c es _] using rev_ind; [by eexists|]. rewrite removelast_last.
        apply Forall_app in Hr as [Hes Hc]. rewrite Forall_singleton in Hc.
        destruct (locate_split _ _ _ _ _ _ _ Hes Hc Hd) as (_ & d' & _ & Hd' & _). by exists d'. }
      assert (Forall plain_elem (removelast (ws ++ r))) as Hrp.
      { destruct (ws ++ r) as [|c es _] using rev_ind; [done|]. rewrite removelast_last. by apply Forall_app in Hr as [? _]. }
      pose proof (mkdir_resolved fs _ _ Hrp Hd') as Hres. rewrite <- MkdirAll_abs, Hm in Hres by done. by destruct Hres. }
    split; [by intros q ?%differs_refl|]. intros _ loc Hl. left.
    by rewrite (locate_create_agree _ _ _ _ _ _ Hd Hl).
  - apply Forall_app in Ht as [Ht Hc]. rewrite Forall_singleton in Hc.
    rewrite app_assoc, removelast_last in *. rewrite MkdirAll_abs by by apply plain_app. intros Hm.
    assert (forall t1 t2, t' = t1 ++ t2 -> t1 <> [] -> forall p, locate eval_links true false fs (abs_of ((ws ++ r) ++ t1)) <> Ok p) as Hun'.
    { intros t1 t2 -> Hne. apply (Hun t1 (t2 ++ [c])); [by rewrite app_assoc|done]. }
    pose proof (mkdir_chain fs (ws ++ r) d t' Hwf Hr Ht Hd Hun') as Hchain. rewrite Hm in Hchain. destruct Hchain as [Hadd Hend].
    split; [intros q; by apply (added_within _ _ _ _ _ _ Hpre Hadd)|]. intros Hnone loc Hl. destruct (Hend Hnone) as (Hreal & Hk & Hnew).
    destruct (locate_split _ _ _ _ _ _ _ (plain_app _ _ Hr Ht) Hc Hl) as (l' & d2 & _ & Hd2 & _ & Hw).
    assert (d2 = d ++ t') as -> by (eapply locate_agree; [exact Hk|exact Hd2]). apply walk_one in Hw as [Hper Hw]; [|done].
    rewrite <- app_assoc in Hw, Hper. destruct (fs1 !! (d ++ t' ++ [c])) as [[s| |target]|] eqn:Hn.
    1, 2: left; subst loc; by apply prefix_app_r.
    + assert (fs !! (d ++ t' ++ [c]) = Some (FLink target)) as Hlink.
      { destruct (decide (fs1 !! (d ++ t' ++ [c]) = fs !! (d ++ t' ++ [c]))) as [<-|Hne]; [done|]. exfalso.
        destruct (Hadd _ Hne) as (t1 & t2 & -> & _ & E & _). apply (f_equal length) in E. revert E. rewrite !length_app. simpl. lia. }
      assert (t' = []) as ->.
      { destruct (decide (t' = [])) as [|Hne]; [done|exfalso]. destruct (Hwf (d ++ t' ++ [c])) as [_ Hp]; [by rewrite Hlink|].
        rewrite app_assoc, removelast_last in Hp. unfold node_at in Hp. rewrite bool_decide_eq_false_2 in Hp by (by destruct d, t').
        by rewrite Hnew in Hp. }
      apply added_nil in Hadd. subst fs1. right. split; [done|]. split.
      * destruct (locate_created _ _ _ _ Hl) as [Hf%kernel_eval|]; [|done]. exfalso. rewrite app_nil_r in Hf. by apply (Hun [c] [] eq_refl ltac:(done) _ Hf).
      * exists (d ++ [c]), target. split_and!; [by apply prefix_app_r|done|]. rewrite !app_nil_r in *. by eapply locate_link.
    + left. destruct Hw as [-> _]. by apply prefix_app_r.
Qed.
End reach.

(** * Confinement *)

(** An agent below administrator without host paths. *)
Definition standard_agent (t : FileTool) (agentID : string) : Prop :=
  exists tier, ftTier t agentID = Ok tier /\ tier <> "admin" /\ ftHostPaths t agentID = Ok None.

(** Requests that only the workspace can answer. *)
Definition workspace_request (t : FileTool) (req : ToolRequest) : Prop :=
  standard_agent t (rAgentID req) \/ forall path, alookup "path" (rParameters req) = Some (AString path) -> is_abs path = false.

Lemma file_path_safe `{OS} t fs req ws path isWrite a :
  Forall plain_elem ws -> standard_agent t (rAgentID req) \/ is_abs path = false ->
  file_path t fs req (abs_of ws) path isWrite = Ok a ->
  exists rws r k d, a = abs_of ((ws ++ r) ++ k) /\ safe_at fs ws rws r k d /\ a = path_join (abs_of ws) (clean path).
Proof.
  intros Hws Hreq. unfold file_path. destruct (fileResolvePath _ _ _ _ _ _) as [p|] eqn:Hp; [|done]. simpl.
  destruct (checkSkillPaths _ _ _ _); [|done]. intros [= <-]. revert Hp. unfold fileResolvePath.
  case_bool_decide; [done|]. destruct (is_abs path) eqn:Habs; simpl.
  - destruct Hreq as [(tier & -> & Hne & ->)|]; [|done]. simpl. by rewrite bool_decide_eq_false_2.
  - destruct (SafePath fs (abs_of ws) path) as [p'|] eqn:Hs; [|done]. intros [= <-]. destruct (SafePath_spec fs _ _ _ Hws Hs) as (rws & r & k & d & Ha & Hsafe).
    exists rws, r, k, d. split_and!; [done|done|]. by apply SafePath_join in Hs.
Qed.

Lemma fileStringParam_spec params key s : fileStringParam params key = Ok s -> alookup key params = Some (AString s).
Proof. unfold fileStringParam. destruct (alookup key params) as [[]|]; try done. by intros [= ->]. Qed.

Section confinement.
Context `{OS} (t : FileTool) (fs : FS) (ws : location) (req : ToolRequest).
Hypothesis ws_plain : Forall plain_elem ws.
Hypothesis own : workspace_request t req.

Lemma request_safe path isWrite a :
  fileStringParam (rParameters req) "path" = Ok path -> file_path t fs req (abs_of ws) path isWrite = Ok a ->
  exists rws r k d, a = abs_of ((ws ++ r) ++ k) /\ safe_at fs ws rws r k d /\ a = path_join (abs_of ws) (clean path).
Proof.
  intros Hp%fileStringParam_spec. apply file_path_safe; [done|]. destruct own as [Hs|Hr]; [by left|right; by apply Hr].
Qed.

(** Where a change may be, when the path asked for is [named]: within the real workspace; or, for a write to a link
    of the workspace that leads nowhere yet, where it leads; or, for a delete, a link that leads into the workspace. *)
Definition change_ok (q : location) : Prop :=
  exists rws path, locate eval_links true false fs (abs_of ws) = Ok rws /\ alookup "path" (rParameters req) = Some (AString path) /\
    let named := path_join (abs_of ws) (clean path) in
    (rws `prefix_of` q
     \/ (rAction req = "write" /\ locate kernel_links true true fs named = Ok q /\ fs !! q = None /\
         exists l target, rws `prefix_of` l /\ fs !! l = Some (FLink target) /\ locate kernel_links false false fs named = Ok l)
     \/ (rAction req = "delete" /\ locate kernel_links false false fs named = Ok q /\
         exists target d, fs !! q = Some (FLink target) /\ locate eval_links true false fs named = Ok d /\ rws `prefix_of` d)).

Lemma file_write_confined q :
  fs_wf fs -> rAction req = "write" -> differs fs (file_write t fs (abs_of ws) req).2 q -> change_ok q.
Proof.
  intros Hwf Hact. unfold file_write. destruct (let? path := _ in _) as [[a content]|] eqn:Hp; [|by intros ?%differs_refl].
  destruct (fileStringParam _ "path") as [path|] eqn:Hpath; [|done].
  destruct (fileStringParam _ "content") as [content'|]; [|done]. simpl in Hp.
  destruct (file_path _ _ _ _ _ _) as [a'|] eqn:Ha; [|done]. injection Hp as -> ->.
  destruct (request_safe _ _ _ Hpath Ha) as (rws & r & k & d & -> & Hsafe & Hjoin). apply fileStringParam_spec in Hpath. pose proof Hsafe as (_ & _ & Hws & _).
  destruct (MkdirAll fs _) as [e fs1] eqn:Hm. destruct (parents_within _ _ _ _ _ _ Hsafe e fs1 Hwf Hm) as [Hpar Hlast].
  destruct e as [e|]; [intros Hq; exists rws, path; split_and!; [done|done|left; by apply Hpar]|].
  destruct (write_file _ fs1 _ _) as [fs2|] eqn:Hw; simpl; [|intros Hq; exists rws, path; split_and!; [done|done|left; by apply Hpar]].
  assert (exists loc s, locate kernel_links true true fs1 (abs_of ((ws ++ r) ++ k)) = Ok loc /\ fs2 = <[loc := FFile s]> fs1) as (loc & s & Hl & ->).
  { revert Hw. unfold write_file. destruct (locate _ _ _ fs1 _) as [loc|]; [|done]. simpl.
    destruct (node_at fs1 loc) as [[]|]; try done; destruct (os_permits _ _); try done; intros [= <-]; by eexists _, _. }
  intros Hq. exists rws, path. split_and!; [done|done|]. cbv zeta. rewrite <- Hjoin. unfold differs in Hq. destruct (decide (q = loc)) as [->|Hne].
  - destruct (Hlast eq_refl _ Hl) as [|(-> & Hnone & l & target & Hpre & Hlk & Hlast')]; [by left|right; left].
    split_and!; [done|done|done|]. by exists l, target.
  - rewrite lookup_insert_ne in Hq by done. left. by apply Hpar.
Qed.

Lemma file_edit_confined q : differs fs (file_edit t fs (abs_of ws) req).2 q -> change_ok q.
Proof.
  unfold file_edit. destruct (let? path := _ in _) as [[[a updated] count]|] eqn:Hp; [|by intros ?%differs_refl].
  destruct (fileStringParam _ "path") as [path|] eqn:Hpath; [|done].
  destruct (fileStringParam _ "old_string") as [old|]; [|done]. destruct (fileStringParam _ "new_string") as [new|]; [|done]. simpl in Hp.
  destruct (file_path _ _ _ _ _ _) as [a'|] eqn:Ha; [|done]. simpl in Hp. case_bool_decide; [done|]. case_bool_decide; [done|].
  destruct (Stat fs a') as [info|] eqn:Hs; [|done]. destruct (ReadFile fs a') as [content|]; [|done].
  destruct (edit_text _ _ _ _) as [[u n]|]; [|done]. injection Hp as -> _ _.
  destruct (request_safe _ _ _ Hpath Ha) as (rws & r & k & d & -> & Hsafe & _). apply fileStringParam_spec in Hpath. pose proof Hsafe as (_ & _ & Hws & Hd & Hpre & _).
  assert (k = []) as ->.
  { unfold Stat in Hs. destruct (locate kernel_links true false fs _) as [p|] eqn:Hk; [|discriminate Hs].
    by destruct (safe_resolves _ _ _ _ _ _ Hsafe _ Hk). }
  rewrite app_nil_r. destruct (write_file true fs _ _) as [fs2|] eqn:Hw; [|by intros ?%differs_refl]. simpl.
  revert Hw. unfold write_file. destruct (locate kernel_links true true fs _) as [loc|] eqn:Hl; [|done].
  rewrite (locate_create_agree _ _ _ _ _ _ Hd Hl). simpl. intros Hw Hq. exists rws, path. split_and!; [done|done|]. left.
  assert (exists s, fs2 = <[d := FFile s]> fs) as [s ->].
  { destruct (node_at fs d) as [[]|]; try done; destruct (os_permits _ _); try done; injection Hw as <-; by eexists. }
  by apply differs_insert in Hq as ->.
Qed.

Lemma file_mkdir_confined q : fs_wf fs -> differs fs (file_mkdir t fs (abs_of ws) req).2 q -> change_ok q.
Proof.
  intros Hwf. unfold file_mkdir. destruct (let? path := _ in _) as [a|] eqn:Hp; [|by intros ?%differs_refl].
  destruct (fileStringParam _ "path") as [path|] eqn:Hpath; [|done]. simpl in Hp.
  destruct (request_safe _ _ _ Hpath Hp) as (rws & r & k & d & -> & Hsafe & _). apply fileStringParam_spec in Hpath. pose proof Hsafe as (_ & _ & Hws & _).
  destruct (MkdirAll fs _) as [e fs1] eqn:Hm. intros Hq. exists rws, path. split_and!; [done|done|]. left.
  eapply mkdir_within; [exact Hsafe|done|exact Hm|by destruct e].
Qed.

Lemma file_delete_confined q : rAction req = "delete" -> differs fs (file_delete t fs (abs_of ws) req).2 q -> change_ok q.
Proof.
  intros Hact. unfold file_delete. destruct (let? path := _ in _) as [a|] eqn:Hp; [|by intros ?%differs_refl].
  destruct (fileStringParam _ "path") as [path|] eqn:Hpath; [|done]. simpl in Hp.
  destruct (request_safe _ _ _ Hpath Hp) as (rws & r & k & d & -> & Hsafe & Hjoin). apply fileStringParam_spec in Hpath. pose proof Hsafe as (_ & _ & Hws & Hd & Hpre & Hun).
  pose proof (safe_plain _ _ _ _ _ _ Hsafe) as Hpl.
  destruct (Remove fs _) as [fs2|] eqn:Hr; [|by intros ?%differs_refl]. simpl. revert Hr. unfold Remove.
  destruct (locate kernel_links false false fs _) as [loc|] eqn:Hl; [|done]. simpl. intros Hr Hq.
  assert (loc <> [] /\ q = loc) as [Hne ->].
  { destruct (node_at fs loc); [|done]. destruct (_ && _); [done|]. case_bool_decide; [done|]. simpl in Hr.
    destruct (negb _); [done|]. injection Hr as <-. split; [done|by eapply differs_delete]. }
  exists rws, path. split_and!; [done|done|]. cbv zeta. rewrite <- Hjoin. pose proof Hl as Hlink.
  destruct ((ws ++ r) ++ k) as [|c es _] eqn:Ees using rev_ind.
  { rewrite (locate_real_dir fs _ _ _ [] (real_root fs)) in Hl. injection Hl as <-. done. }
  apply Forall_app in Hpl as [Hes Hc]. rewrite Forall_singleton in Hc.
  destruct (locate_split _ _ _ _ _ _ _ Hes Hc Hl) as (l' & d' & Hd' & Hk & _ & Hw). apply walk_one in Hw as [Hper Hw]; [|done].
  destruct (fs !! (d' ++ [c])) as [n|] eqn:Hn; [|by destruct Hw].
  assert (loc = d' ++ [c]) as -> by (destruct n; try done; by destruct Hw).
  assert ((exists target, n = FLink target) \/ forall target, n <> FLink target) as [[target ->]|Hno] by (destruct n; by eauto);
    [|left].
  { destruct (decide (k = [])) as [->|Hk'].
    - right. right. split_and!; [done|done|]. exists target, d. rewrite app_nil_r in Ees. rewrite <- Ees. by split_and!.
    - left. destruct (exists_last Hk') as (k' & c' & ->). rewrite app_assoc in Ees. apply app_inj_tail in Ees as [<- ->].
      apply kernel_eval in Hk. destruct (decide (k' = [])) as [->|Hk'']; [|by destruct (Hun k' [c] eq_refl Hk'' _ Hk)].
      rewrite app_nil_r in Hk. rewrite (locate_agree _ _ _ _ _ _ Hd Hk). by apply prefix_app_r. }
  assert (locate kernel_links true false fs (abs_of (es ++ [c])) = Ok (d' ++ [c])) as Hkk.
  { eapply locate_snoc; [done..|]. by eapply walk_one_here. }
  rewrite <- Ees in Hkk. by destruct (safe_resolves _ _ _ _ _ _ Hsafe _ Hkk) as [_ ->].
Qed.
End confinement.

(** C38: The file tool stays in the workspace.  For an agent below administrator without host paths, and for
    relative paths of every agent, whatever is asked: each location that differs after the call lies within the
    real workspace, links resolved; or the call writes to a path that names a link within the workspace which
    leads nowhere yet, and the location is where that link leads, which is created; or the call deletes a link
    whose path leads into the workspace. *)
Theorem workspace_changes_confined `{OS} t fs req ws :
  fs_wf fs -> Forall plain_elem ws -> ftWorkspace t (rAgentID req) = Ok (abs_of ws) -> workspace_request t req ->
  let '(_, fs') := FileExecute t fs req in
  forall q, differs fs fs' q ->
    exists rws path, locate eval_links true false fs (abs_of ws) = Ok rws /\ alookup "path" (rParameters req) = Some (AString path) /\
      let named := path_join (abs_of ws) (clean path) in
      (rws `prefix_of` q
       \/ (rAction req = "write" /\ locate kernel_links true true fs named = Ok q /\ fs !! q = None /\
           exists l target, rws `prefix_of` l /\ fs !! l = Some (FLink target) /\ locate kernel_links false false fs named = Ok l)
       \/ (rAction req = "delete" /\ locate kernel_links false false fs named = Ok q /\
           exists target d, fs !! q = Some (FLink target) /\ locate eval_links true false fs named = Ok d /\ rws `prefix_of` d)).
Proof.
  intros Hwf Hws Hw Hown. destruct (FileExecute t fs req) as [res fs'] eqn:E. intros q Hq. change fs' with (res, fs').2 in Hq.
  rewrite <- E in Hq. change (change_ok fs ws req q). revert Hq. unfold FileExecute. rewrite Hw. unfold Ok. cbn iota.
  repeat (case_bool_decide; [first [by intros ?%differs_refl|apply file_write_confined; assumption|apply file_delete_confined; assumption
    |apply file_mkdir_confined; assumption|apply file_edit_confined; assumption]|]).
  by intros ?%differs_refl.
Qed.

(** What the file tool reads is in the workspace.  Under the same conditions the content that
    is answered is that of a file at a location within the real workspace, reached through
    directories only. *)
Theorem workspace_reads_confined `{OS} t fs req ws reply :
  Forall plain_elem ws -> workspace_request t req -> file_read t fs (abs_of ws) req = Ok reply ->
  exists rws p content, locate eval_links true false fs (abs_of ws) = Ok rws /\ rws `prefix_of` p /\
    located fs true false p /\ fs !! p = Some (FFile content) /\ reply = FileContent content.
Proof.
  intros Hws Hown. unfold file_read. destruct (fileStringParam _ "path") as [path|] eqn:Hpath; [|done]. simpl.
  destruct (file_path _ _ _ _ _ _) as [a|] eqn:Ha; [|done]. simpl.
  destruct (request_safe t fs ws req Hws Hown _ _ _ Hpath Ha) as (rws & r & k & d & -> & Hsafe & _).
  pose proof Hsafe as (_ & _ & Hrws & Hd & Hpre & _). pose proof (locate_located _ _ _ _ _ _ Hd) as Hloc.
  destruct (ReadFile fs _) as [content|] eqn:Hr; [|done]. intros [= <-]. exists rws, d, content. split_and!; [done..| |done].
  revert Hr. unfold ReadFile. destruct (locate kernel_links true false fs _) as [p|] eqn:Hk; [|done].
  destruct (safe_resolves _ _ _ _ _ _ Hsafe _ Hk) as [_ ->]. simpl. unfold node_at. case_bool_decide; [done|].
  destruct (fs !! d) as [[s| |]|]; try done. destruct (os_permits _ _); [|done]. by intros [= ->].
Qed.

(** * Editing *)

Lemma count_skip sub x y : count_from sub (String.length x) (x +:+ y) = count_from sub 0 y.
Proof. induction x as [|c x IH]; [by destruct y|exact IH]. Qed.

Lemma count_zero sub s : sub <> EmptyString -> count_from sub 0 s = 0%nat -> ~ occurs sub s.
Proof.
  intros Hne. induction s as [|c s IH]; simpl.
  - intros _ (a & b & E). destruct a; [|done]. by destruct sub.
  - destruct (has_prefix (String c s) sub) eqn:Hp; [done|]. intros Hc [Hpre|Ho]%occurs_cons_inv; [|by apply IH].
    congruence.
Qed.

Lemma count_first sub s i :
  sub <> EmptyString -> str_index s sub = Some i ->
  count_from sub 0 s = S (count_from sub 0 (str_drop (i + String.length sub) s)).
Proof.
  intros Hne. revert i. induction s as [|c s IH]; intros i; simpl.
  - destruct (has_prefix EmptyString sub) eqn:Hp; [|done]. apply has_prefix_spec in Hp as [r E]. by destruct sub.
  - destruct (has_prefix (String c s) sub) eqn:Hp.
    + intros [= <-]. f_equal. apply has_prefix_spec in Hp as [r E]. destruct sub as [|c' sub]; [done|].
      injection E as -> ->. simpl. rewrite Nat.sub_0_r, count_skip. f_equal. by rewrite str_drop_app.
    + destruct (str_index s sub) as [j|]; [|done]. intros [= <-]. simpl. by apply IH.
Qed.

Lemma str_index_least s sub i a b : str_index s sub = Some i -> s = a +:+ sub +:+ b -> (i <= String.length a)%nat.
Proof.
  revert i a. induction s as [|c s IH]; intros i a; simpl.
  - destruct (has_prefix EmptyString sub); [|done]. intros [= <-]. lia.
  - destruct (has_prefix (String c s) sub) eqn:Hp; [intros [= <-]; lia|]. destruct (str_index s sub) as [j|] eqn:Hj; [|done].
    intros [= <-] E. destruct a as [|c' a]; simpl in *.
    + assert (has_prefix (String c s) sub = true) by (apply has_prefix_spec; by exists b). congruence.
    + injection E as _ E. apply le_n_S. by eapply IH.
Qed.

Lemma count_none sub s : str_index s sub = None -> count_from sub 0 s = 0%nat.
Proof.
  induction s as [|c s IH]; simpl; [done|]. destruct (has_prefix (String c s) sub); [done|].
  destruct (str_index s sub); [done|]. auto.
Qed.

(** An edit that must be unique replaces one occurrence.  Without [replace_all] an edit that
    answers has counted the text once: what is before and after it is kept, the text does
    not start earlier, and does not occur after it. *)
Theorem edit_replaces_unique content old new updated n :
  old <> EmptyString -> edit_text content old new false = Ok (updated, n) ->
  n = 1%nat /\ exists a b, content = a +:+ old +:+ b /\ updated = a +:+ new +:+ b /\ ~ occurs old b /\
    forall a' b', content = a' +:+ old +:+ b' -> (String.length a <= String.length a')%nat.
Proof.
  intros Hne. unfold edit_text. destruct (Nat.eqb_spec (str_count content old) 0) as [|Hn0]; [done|].
  destruct (Nat.ltb_spec 1 (str_count content old)) as [|Hn1]; [done|]. simpl. unfold Ok. intros [= <- <-].
  split; [lia|]. unfold replace_first, str_count in *. destruct (str_index content old) as [i|] eqn:Hi;
    [|by rewrite count_none in Hn0].
  destruct (str_index_Some _ _ _ Hi) as [E Hlen]. rewrite (count_first _ _ _ Hne Hi) in Hn1.
  exists (str_take i content), (str_drop (i + String.length old) content). split_and!; [done|done| |].
  - apply count_zero; [done|lia].
  - intros a' b' E'. rewrite str_length_take by done. pose proof (str_index_least _ _ _ _ _ Hi E'). lia.
Qed.

(** * Examples *)

Section file_examples.
#[local] Instance open_system : OS :=
  {| os_permits _ _ := true; os_dir_size _ := 4096; os_modified _ := "2025-01-01T00:00:00Z"; os_mode _ := "-rw-r--r--" |}.

Definition agent_fs : FS :=
  list_to_map [(["w"], FDir); (["w"; "a1"], FDir); (["w"; "a1"; "notes"], FFile "one two");
    (["w"; "a1"; "up"], FLink "../../etc"); (["w"; "a1"; "new"], FLink "/etc/created");
    (["w"; "a1"; "out"], FLink "/outside"); (["etc"], FDir); (["etc"; "passwd"], FFile "root");
    (["outside"], FDir); (["outside"; "back"], FLink "/w/a1/notes")].

Definition agent_tool : FileTool :=
  mkFileTool (fun _ => Ok "/w/a1") (fun _ => Ok "writer") (fun _ => Ok None) [] [].

Definition file_request (action path : string) (rest : list (string * any)) : ToolRequest :=
  NewToolRequest "q1" "a1" "file" action (("path", AString path) :: rest).

Example read_inside : (FileExecute agent_tool agent_fs (file_request "read" "./x/../notes" [])).1 = Ok (FileContent "one two").
Proof. by vm_compute. Qed.

Example read_link_escape : (FileExecute agent_tool agent_fs (file_request "read" "up/passwd" [])).1 = Err (FileSafe SafeEscape).
Proof. by vm_compute. Qed.

Example read_dots : (FileExecute agent_tool agent_fs (file_request "read" "../../etc/passwd" [])).1 = Err (FileSafe SafeTraversal).
Proof. by vm_compute. Qed.

(** Writing to a link whose target does not exist creates the target outside. *)
Example write_through_dangling_link :
  let '(res, fs') := FileExecute agent_tool agent_fs (file_request "write" "new" [("content", AString "x")]) in
  res = Ok (FileWritten 1) /\ fs' !! ["etc"; "created"] = Some (FFile "x").
Proof. by vm_compute. Qed.

(** Deleting a link outside that leads back inside deletes the link, outside. *)
Example delete_through_link_outside :
  let '(res, fs') := FileExecute agent_tool agent_fs (file_request "delete" "out/back" []) in
  res = Ok FileDeleted /\ fs' !! ["outside"; "back"] = None.
Proof. by vm_compute. Qed.

(** Host paths of agents below administrator, and the paths of the program that
    administrators read, are not resolved. *)
Example host_path_link_followed :
  let t := mkFileTool (fun _ => Ok "/w/a1") (fun _ => Ok "writer") (fun _ => Ok (Some (mkHostPathConfig ["/srv/"] [] []))) [] [] in
  (FileExecute t (<[["srv"] := FDir]> (<[["srv"; "l"] := FLink "/etc/passwd"]> agent_fs)) (file_request "read" "/srv/l" [])).1 =
    Ok (FileContent "root").
Proof. by vm_compute. Qed.

Lemma agent_fs_wf : fs_wf agent_fs.
Proof.
  assert (map_Forall (fun p _ => p <> [] /\ node_at agent_fs (removelast p) = Some FDir) agent_fs) as Hall.
  { apply (bool_decide_unpack _). vm_compute. exact I. }
  intros p Hp. destruct (agent_fs !! p) as [n|] eqn:E; [|done]. exact (Hall p n E).
Qed.

Lemma agent_standard action path rest : workspace_request agent_tool (file_request action path rest).
Proof. left. exists "writer". by split_and!. Qed.

Lemma workspace_plain : Forall plain_elem ["w"; "a1"].
Proof. by repeat constructor. Qed.

Lemma workspace_changes_confined_witness :
  change_ok agent_fs ["w"; "a1"] (file_request "write" "notes" [("content", AString "x")]) ["w"; "a1"; "notes"].
Proof.
  pose proof (workspace_changes_confined agent_tool agent_fs (file_request "write" "notes" [("content", AString "x")]) ["w"; "a1"]
    agent_fs_wf workspace_plain eq_refl (agent_standard "write" "notes" _)) as H.
  destruct (FileExecute agent_tool agent_fs (file_request "write" "notes" [("content", AString "x")])) as [res fs'] eqn:E.
  apply (H ["w"; "a1"; "notes"]).
  assert (fs' = (FileExecute agent_tool agent_fs (file_request "write" "notes" [("content", AString "x")])).2) as -> by (rewrite E; reflexivity).
  unfold differs. vm_compute. discriminate.
Defined.

Lemma workspace_reads_confined_witness : exists p,
  located agent_fs true false p /\ agent_fs !! p = Some (FFile "one two").
Proof.
  assert (file_read agent_tool agent_fs "/w/a1" (file_request "read" "notes" []) = Ok (FileContent "one two")) as Hr by (vm_compute; reflexivity).
  destruct (workspace_reads_confined agent_tool agent_fs (file_request "read" "notes" []) ["w"; "a1"] _ workspace_plain
    (agent_standard "read" "notes" []) Hr) as (rws & p & content & _ & _ & Hl & Hn & Hc).
  injection Hc as <-. exists p. split; [exact Hl|exact Hn].
Defined.

Lemma edit_replaces_unique_witness : exists a b, "one two" = a +:+ "two" +:+ b /\ "one 2" = a +:+ "2" +:+ b.
Proof.
  destruct (edit_replaces_unique "one two" "two" "2" "one 2" 1 ltac:(discriminate) ltac:(vm_compute; reflexivity))
    as (_ & a & b & H1 & H2 & _).
  exists a, b. split; [exact H1|exact H2].
Defined.
End file_examples.
