(* ===== verification/Scheduler.v ===== *)
(** Scheduled messages and heartbeats ([internal/scheduler], [internal/tools/scheduler] and
    the rows of the table [schedules]).

    The engine that runs jobs at the times of cron expressions is a library; it is the
    class [Cron] here, and [CronLaws] says what the scheduler relies on.  The state
    [Scheduler] is the table, the queue, the engine, and the two maps of the scheduler.
    An operation that holds the scheduler's lock is one step; the firing of a schedule
    is not under that lock, and its parts are steps of their own, between which operations
    and other fires come ([fire_step]).  Every statement of
    the database may fail: [Failing] says which do, and with which text.

    The jobs of the engine refine the table: they are the enabled rows whose expression
    is valid ([scheduler_refines_table]); when statements fail there are no others
    ([jobs_are_enabled_rows]).  Both hold as long as no row is switched or changed between a
    fire's reading it and writing it back ([undisturbed]); what happens otherwise is shown by
    [stale_run_undoes_toggle] and [stale_pulse_doubles_jobs].  Agents manage their own tasks only ([task_tool_confined]),
    quiet hours are an interval of the clock ([quiet_hours_interval]), and a heartbeat
    that was disabled is out of reach after a restart ([heartbeat_lost]). *)

From S2P Require Import Prelude GoString GoJson Types KtpTypes Queue.
#[local] Open Scope Z_scope.

(** * Quiet hours ([quiethours.go]) *)

(** Package [time]'s database of time zones: the hour and minute of an instant. *)
Class TimeZones := {
  Location : Type;
  LoadLocation : string -> result string Location;
  location_name : Location -> string;
  UTC : Location;
  hour_minute : Location -> Z -> Z * Z;
}.

(** [atoi]: the rune loop; the sum wraps as an [int] does. *)
Fixpoint atoi_from (n : Z) (l : list (Z * string)) : Z :=
  match l with
  | [] => n
  | (ch, _) :: l' =>
    if (ch <? 48) || (57 <? ch) then -1 else atoi_from (wrap64 (wrap64 (n * 10) + (ch - 48))) l'
  end.

Definition atoi (s : string) : Z :=
  let n := atoi_from 0 (runes s) in
  if bool_decide (s = EmptyString) then -1 else n.

Definition parseHHMM (s : string) : option (Z * Z) :=
  match cut s ":" with
  | (_, _, false) => None
  | (a, b, true) =>
    let h := atoi a in
    let m := atoi b in
    if (h <? 0) || (23 <? h) || (m <? 0) || (59 <? m) then None else Some (h, m)
  end.

Definition IsInQuietHours `{TimeZones} (quietHours timezone : string) (t : Z) : bool :=
  if bool_decide (quietHours = EmptyString) then false
  else match cut quietHours "-" with
  | (_, _, false) => false
  | (p0, p1, true) =>
    match parseHHMM (trim_space p0), parseHHMM (trim_space p1) with
    | Some (startH, startM), Some (endH, endM) =>
      let loc := match LoadLocation timezone with inl l => l | inr _ => UTC end in
      let '(hour, minute) := hour_minute loc t in
      let nowMinutes := hour * 60 + minute in
      let startMinutes := startH * 60 + startM in
      let endMinutes := endH * 60 + endM in
      if startMinutes <=? endMinutes
      then (startMinutes <=? nowMinutes) && (nowMinutes <? endMinutes)
      else (startMinutes <=? nowMinutes) || (nowMinutes <? endMinutes)
    | _, _ => false
    end
  end.

(** * Cron expressions for people ([cronpreview.go]) *)

Definition padMinute (m : string) : string :=
  if (String.length m =? 1)%nat then "0" +:+ m else m.

Definition CronPreview (expr0 : string) : string :=
  let expr := trim_space expr0 in
  match strip_prefix "@every " expr with
  | Some interval => "Every " +:+ interval
  | None =>
    if bool_decide (expr = "@daily") then "Once a day (midnight)"
    else if bool_decide (expr = "@hourly") then "Every hour"
    else if bool_decide (expr = "@weekly") then "Once a week"
    else if bool_decide (expr = "@monthly") then "Once a month"
    else if bool_decide (expr = "@yearly") || bool_decide (expr = "@annually") then "Once a year"
    else match fields expr with
    | [min; hour; dom; month; dow] =>
      let any_day := bool_decide (dom = "*") && bool_decide (month = "*") in
      let at_ (day : string) := day +:+ " at " +:+ hour +:+ ":" +:+ padMinute min in
      if any_day && bool_decide (dow = "*") && negb (contains hour "/") && negb (contains min "/")
      then if contains hour "," || contains hour "-" then expr else at_ "Daily"
      else if any_day && (bool_decide (dow = "1-5") || bool_decide (dow = "MON-FRI"))
      then at_ "Weekdays"
      else if any_day && (bool_decide (dow = "0,6") || bool_decide (dow = "SAT,SUN") || bool_decide (dow = "6,0"))
      then at_ "Weekends"
      else
        match strip_prefix "*/" hour, bool_decide (min = "0") && any_day && bool_decide (dow = "*") with
        | Some n, true => "Every " +:+ n +:+ " hours"
        | _, _ =>
          match strip_prefix "*/" min, bool_decide (hour = "*") && any_day && bool_decide (dow = "*") with
          | Some n, true => "Every " +:+ n +:+ " minutes"
          | _, _ => expr
          end
        end
    | _ => expr
    end
  end.

(** [intervalToCron] *)
Definition intervalToCron (interval : string) : string :=
  if bool_decide (interval = "15m") then "@every 15m"
  else if bool_decide (interval = "30m") then "@every 30m"
  else if bool_decide (interval = "1h") then "@every 1h"
  else if bool_decide (interval = "2h") then "@every 2h"
  else if bool_decide (interval = "4h") then "@every 4h"
  else if bool_decide (interval = "8h") then "0 0,8,16 * * *"
  else if bool_decide (interval = "daily") || bool_decide (interval = "24h") then "@daily"
  else interval.

(** * Rows ([types.Schedule] and the table [schedules]) *)

Record Schedule := mkSchedule {
  sID : string;
  sAgentID : string;
  sName : string;
  sCronExpr : string;
  sMessage : string;
  sChannel : string;
  sType : string;
  sEnabled : bool;
  sTimezone : string;
  sCreatedAt : Z;
  sUpdatedAt : Z;
  sLastRunAt : option Z;
  sNextRunAt : option Z;
}.

Definition ScheduleTypeTask : string := "task".
Definition ScheduleTypeHeartbeat : string := "heartbeat".

Record HeartbeatConfig := mkHeartbeatConfig {
  hbEnabled : bool;
  hbInterval : string;
  hbPrompt : string;
  hbQuietHours : string;
}.

(** The statements of the database an operation makes, each at most once. *)
Inductive Statement : Type :=
| SList | SGet | SCreate | SUpdate | SDelete | SGetAgent | SEnqueue.

Notation Failing := (Statement -> option string).

Definition no_failure : Failing := fun _ => None.

(** [fmt.Errorf("...: %w", err)] *)
Definition wrap (context err : string) : string := context +:+ ": " +:+ err.

Definition ErrScheduleNotFound : string := "schedule not found".

Section table.
(** The table; [dup] is the text of the database for a key that exists. *)
Context (dup : string).
Notation Table := (gmap string Schedule).

(** The row an insert writes: times in seconds. *)
Definition stored (s : Schedule) : Schedule :=
  mkSchedule (sID s) (sAgentID s) (sName s) (sCronExpr s) (sMessage s) (sChannel s) (sType s)
    (sEnabled s) (sTimezone s) (db_time (sCreatedAt s)) (db_time (sUpdatedAt s))
    (db_time <$> sLastRunAt s) (db_time <$> sNextRunAt s).

(** The row an update leaves: owner and creation time are not written. *)
Definition overwritten (old s : Schedule) : Schedule :=
  mkSchedule (sID old) (sAgentID old) (sName s) (sCronExpr s) (sMessage s) (sChannel s) (sType s)
    (sEnabled s) (sTimezone s) (sCreatedAt old) (db_time (sUpdatedAt s))
    (db_time <$> sLastRunAt s) (db_time <$> sNextRunAt s).

Definition CreateSchedule (f : Failing) (s : Schedule) (t : Table) : option string * Table :=
  match f SCreate with
  | Some e => (Some (wrap "insert schedule" e), t)
  | None => match t !! sID s with
            | Some _ => (Some (wrap "insert schedule" dup), t)
            | None => (None, <[sID s := stored s]> t)
            end
  end.

Definition GetSchedule (f : Failing) (id : string) (t : Table) : result string Schedule :=
  match f SGet with
  | Some e => Err (wrap "query schedule" e)
  | None => match t !! id with Some s => Ok s | None => Err ErrScheduleNotFound end
  end.

Definition UpdateSchedule (f : Failing) (s : Schedule) (t : Table) : option string * Table :=
  match f SUpdate with
  | Some e => (Some (wrap "update schedule" e), t)
  | None => match t !! sID s with
            | Some old => (None, <[sID s := overwritten old s]> t)
            | None => (Some ErrScheduleNotFound, t)
            end
  end.

Definition DeleteSchedule (f : Failing) (id : string) (t : Table) : option string * Table :=
  match f SDelete with
  | Some e => (Some (wrap "delete schedule" e), t)
  | None => match t !! id with
            | Some _ => (None, delete id t)
            | None => (Some ErrScheduleNotFound, t)
            end
  end.

(** [ORDER BY created_at]; rows of one second come in the order of the table. *)
Fixpoint insert_created (s : Schedule) (l : list Schedule) : list Schedule :=
  match l with
  | [] => [s]
  | x :: l' => if sCreatedAt s <=? sCreatedAt x then s :: l else x :: insert_created s l'
  end.

Definition querySchedules (f : Failing) (p : Schedule -> bool) (t : Table) : result string (list Schedule) :=
  match f SList with
  | Some e => Err (wrap "query schedules" e)
  | None => Ok (foldr insert_created [] (List.filter p (map snd (map_to_list t))))
  end.

Definition of_agent (agentID : string) (s : Schedule) : bool := bool_decide (sAgentID s = agentID).

Definition ListSchedules (f : Failing) (agentID : string) (t : Table) : result string (list Schedule) :=
  querySchedules f (of_agent agentID) t.

Definition ListSchedulesByType (f : Failing) (agentID schedType : string) (t : Table)
    : result string (list Schedule) :=
  querySchedules f (fun s => of_agent agentID s && bool_decide (sType s = schedType)) t.

Definition ListAllEnabledSchedules (f : Failing) (t : Table) : result string (list Schedule) :=
  querySchedules f sEnabled t.

Definition DeleteSchedulesByAgent (f : Failing) (agentID : string) (t : Table) : option string * Table :=
  match f SDelete with
  | Some e => (Some (wrap "delete schedules by agent" e), t)
  | None => (None, filter (fun kv => of_agent agentID kv.2 = false) t)
  end.
End table.

(** * The engine

    A job is the closure [registerCron] hands over: it keeps the identifier of a schedule.
    [Entry] also shows the expression a job was added with. *)

Class Cron := {
  Engine : Type;
  NewEngine : Engine;
  AddFunc : Engine -> string -> string -> result string (Z * Engine);
  RemoveEntry : Engine -> Z -> Engine;
  StartEngine : Engine -> Engine;
  StopEngine : Engine -> Engine;
  Entry : Engine -> Z -> option (string * string);
  EntryNext : Engine -> Z -> option Z;
}.

Class CronLaws `{Cron} (valid : string -> bool) := {
  new_empty i : Entry NewEngine i = None;
  add_valid c expr job : (exists r, AddFunc c expr job = inl r) <-> valid expr = true;
  add_entry c expr job i c' : AddFunc c expr job = inl (i, c') ->
    Entry c i = None /\ forall k, Entry c' k = if decide (k = i) then Some (expr, job) else Entry c k;
  remove_entry c i k : Entry (RemoveEntry c i) k = if decide (k = i) then None else Entry c k;
  start_entry c k : Entry (StartEngine c) k = Entry c k;
  stop_entry c k : Entry (StopEngine c) k = Entry c k;
}.

(** * The scheduler *)

Section scheduler.
Context `{TimeZones} `{Cron} (dup : string) (decode_heartbeat : string -> option HeartbeatConfig).

Record Scheduler := mkScheduler {
  scRows : gmap string Schedule;
  scQueue : PostgresQueue;
  scCron : Engine;
  scTimezone : option Location;
  scEntries : gmap string Z;
  scHeartbeats : gmap string string;
}.

Definition set_table (sc : Scheduler) (t : gmap string Schedule) : Scheduler :=
  mkScheduler t (scQueue sc) (scCron sc) (scTimezone sc) (scEntries sc) (scHeartbeats sc).
Definition set_queue (sc : Scheduler) (q : PostgresQueue) : Scheduler :=
  mkScheduler (scRows sc) q (scCron sc) (scTimezone sc) (scEntries sc) (scHeartbeats sc).
Definition set_engine (sc : Scheduler) (c : Engine) (m : gmap string Z) : Scheduler :=
  mkScheduler (scRows sc) (scQueue sc) c (scTimezone sc) m (scHeartbeats sc).
Definition set_heartbeats (sc : Scheduler) (m : gmap string string) : Scheduler :=
  mkScheduler (scRows sc) (scQueue sc) (scCron sc) (scTimezone sc) (scEntries sc) m.

(** [New] over an existing table and queue *)
Definition NewScheduler (rows : gmap string Schedule) (q : PostgresQueue) (defaultTimezone : string)
    : result string Scheduler :=
  match LoadLocation defaultTimezone with
  | inr e => Err (wrap ("load timezone " +:+ go_quote defaultTimezone) e)
  | inl tz => Ok (mkScheduler rows q NewEngine (Some tz) ∅ ∅)
  end.

Definition DefaultTimezone (sc : Scheduler) : string :=
  match scTimezone sc with Some l => location_name l | None => "UTC" end.

Definition registerCron (sched : Schedule) (sc : Scheduler) : option string * Scheduler :=
  match AddFunc (scCron sc) (sCronExpr sched) (sID sched) with
  | inr e => (Some (wrap ("parse cron expression " +:+ go_quote (sCronExpr sched)) e), sc)
  | inl (entryID, c) => (None, set_engine sc c (<[sID sched := entryID]> (scEntries sc)))
  end.

Definition unregisterCron (scheduleID : string) (sc : Scheduler) : Scheduler :=
  match scEntries sc !! scheduleID with
  | Some entryID => set_engine sc (RemoveEntry (scCron sc) entryID) (delete scheduleID (scEntries sc))
  | None => sc
  end.

(** A statement on the table, and what follows when it succeeds. *)
Definition on_table (r : option string * gmap string Schedule) (context : string) (sc : Scheduler)
    (k : Scheduler -> option string * Scheduler) : option string * Scheduler :=
  match r with
  | (Some e, t) => (Some (if bool_decide (context = EmptyString) then e else wrap context e), set_table sc t)
  | (None, t) => k (set_table sc t)
  end.

Definition register_if_enabled (sched : Schedule) (context : string) (sc : Scheduler) : option string * Scheduler :=
  if sEnabled sched
  then match registerCron sched sc with
       | (Some e, sc') => (Some (wrap context e), sc')
       | (None, sc') => (None, sc')
       end
  else (None, sc).

(** The loop of [Start] *)
Definition start_one (sc : Scheduler) (sched : Schedule) : Scheduler :=
  match registerCron sched sc with
  | (Some _, sc') => sc'
  | (None, sc') =>
    if bool_decide (sType sched = ScheduleTypeHeartbeat)
    then set_heartbeats sc' (<[sAgentID sched := sID sched]> (scHeartbeats sc')) else sc'
  end.

Definition Start (f : Failing) (sc : Scheduler) : option string * Scheduler :=
  match ListAllEnabledSchedules f (scRows sc) with
  | inr e => (Some (wrap "load enabled schedules" e), sc)
  | inl schedules =>
    let sc' := fold_left start_one schedules sc in
    (None, set_engine sc' (StartEngine (scCron sc')) (scEntries sc'))
  end.

Definition Stop (sc : Scheduler) : Scheduler := set_engine sc (StopEngine (scCron sc)) (scEntries sc).

Definition Add (f : Failing) (sched : Schedule) (sc : Scheduler) : option string * Scheduler :=
  on_table (CreateSchedule dup f sched (scRows sc)) "persist schedule" sc
    (register_if_enabled sched "register cron").

Definition Remove (f : Failing) (scheduleID : string) (sc : Scheduler) : option string * Scheduler :=
  let sc := unregisterCron scheduleID sc in
  on_table (DeleteSchedule f scheduleID (scRows sc)) "delete schedule" sc (fun sc => (None, sc)).

Definition Update (f : Failing) (sched : Schedule) (sc : Scheduler) : option string * Scheduler :=
  let sc := unregisterCron (sID sched) sc in
  on_table (UpdateSchedule f sched (scRows sc)) "update schedule" sc
    (register_if_enabled sched "register cron").

Definition with_enabled (s : Schedule) (b : bool) (now : Z) : Schedule :=
  mkSchedule (sID s) (sAgentID s) (sName s) (sCronExpr s) (sMessage s) (sChannel s) (sType s) b
    (sTimezone s) (sCreatedAt s) now (sLastRunAt s) (sNextRunAt s).

Definition Toggle (f : Failing) (scheduleID : string) (now : Z) (sc : Scheduler) : option string * Scheduler :=
  match GetSchedule f scheduleID (scRows sc) with
  | inr e => (Some e, sc)
  | inl s =>
    let sched := with_enabled s (negb (sEnabled s)) now in
    on_table (UpdateSchedule f sched (scRows sc)) EmptyString sc (fun sc =>
      if sEnabled sched then register_if_enabled sched "register cron" sc
      else (None, unregisterCron scheduleID sc))
  end.

Definition List_ (f : Failing) (agentID : string) (sc : Scheduler) : result string (list Schedule) :=
  ListSchedules f agentID (scRows sc).

Definition ListByType (f : Failing) (agentID schedType : string) (sc : Scheduler) : result string (list Schedule) :=
  ListSchedulesByType f agentID schedType (scRows sc).

(** ** Heartbeats *)

Definition heartbeat_id (agentID : string) : string := "hb-" +:+ agentID.

(** The row of an existing heartbeat with a new configuration *)
Definition reconfigured (s : Schedule) (cfg : HeartbeatConfig) (tz : string) (now : Z) : Schedule :=
  mkSchedule (sID s) (sAgentID s) (sName s) (intervalToCron (hbInterval cfg)) (hbPrompt cfg)
    (sChannel s) (sType s) (hbEnabled cfg) tz (sCreatedAt s) now (sLastRunAt s) (sNextRunAt s).

Definition new_heartbeat (agentID : string) (cfg : HeartbeatConfig) (tz : string) (now : Z) : Schedule :=
  mkSchedule (heartbeat_id agentID) agentID "Heartbeat" (intervalToCron (hbInterval cfg)) (hbPrompt cfg)
    "internal" ScheduleTypeHeartbeat (hbEnabled cfg) tz now now None None.

Definition create_heartbeat (f : Failing) (agentID : string) (cfg : HeartbeatConfig) (tz : string)
    (now : Z) (sc : Scheduler) : option string * Scheduler :=
  let sched := new_heartbeat agentID cfg tz now in
  on_table (CreateSchedule dup f sched (scRows sc)) "create heartbeat schedule" sc (fun sc =>
    register_if_enabled sched "register heartbeat cron"
      (set_heartbeats sc (<[agentID := sID sched]> (scHeartbeats sc)))).

Definition RegisterHeartbeat (f : Failing) (agentID : string) (cfg : HeartbeatConfig) (tz : string)
    (now : Z) (sc : Scheduler) : option string * Scheduler :=
  match scHeartbeats sc !! agentID with
  | Some existingID =>
    match GetSchedule f existingID (scRows sc) with
    | inr _ =>
      create_heartbeat f agentID cfg tz now
        (unregisterCron existingID (set_heartbeats sc (delete agentID (scHeartbeats sc))))
    | inl s =>
      let sc := unregisterCron existingID sc in
      let existing := reconfigured s cfg tz now in
      on_table (UpdateSchedule f existing (scRows sc)) "update heartbeat schedule" sc
        (register_if_enabled existing "register heartbeat cron")
    end
  | None => create_heartbeat f agentID cfg tz now sc
  end.

Definition UnregisterHeartbeat (f : Failing) (agentID : string) (now : Z) (sc : Scheduler)
    : option string * Scheduler :=
  match scHeartbeats sc !! agentID with
  | None => (None, sc)
  | Some schedID =>
    let sc := unregisterCron schedID sc in
    match GetSchedule f schedID (scRows sc) with
    | inr _ => (None, sc)
    | inl s => on_table (UpdateSchedule f (with_enabled s false now) (scRows sc)) EmptyString sc
                 (fun sc => (None, sc))
    end
  end.

Definition EnableHeartbeat (f : Failing) (agentID : string) (now : Z) (sc : Scheduler)
    : option string * Scheduler :=
  match scHeartbeats sc !! agentID with
  | None => (None, sc)
  | Some schedID =>
    match GetSchedule f schedID (scRows sc) with
    | inr _ => (None, sc)
    | inl s =>
      if sEnabled s then (None, sc)
      else
        let sched := with_enabled s true now in
        on_table (UpdateSchedule f sched (scRows sc)) EmptyString sc (registerCron sched)
    end
  end.

Definition RemoveAgentSchedules (f : Failing) (agentID : string) (sc : Scheduler) : option string * Scheduler :=
  match ListSchedules f agentID (scRows sc) with
  | inr e => (Some e, sc)
  | inl schedules =>
    let sc := fold_left (fun sc s => unregisterCron (sID s) sc) schedules sc in
    let sc := set_heartbeats sc (delete agentID (scHeartbeats sc)) in
    on_table (DeleteSchedulesByAgent f agentID (scRows sc)) EmptyString sc (fun sc => (None, sc))
  end.

Definition GetHeartbeatSchedule (f : Failing) (agentID : string) (sc : Scheduler)
    : result string (option Schedule) :=
  match scHeartbeats sc !! agentID with
  | None => Ok None
  | Some schedID => match GetSchedule f schedID (scRows sc) with inl s => Ok (Some s) | inr e => Err e end
  end.

(** ** Firing

    [agents] gives the heartbeat configuration of an agent's row, when there is one. *)

Definition quiet_now (f : Failing) (agents : string -> option string) (now : Z) (sched : Schedule) : bool :=
  if bool_decide (sType sched = ScheduleTypeHeartbeat)
  then match f SGetAgent, agents (sAgentID sched) with
       | None, Some heartbeatJSON =>
         if bool_decide (heartbeatJSON = EmptyString) then false
         else match decode_heartbeat heartbeatJSON with
              | Some cfg => negb (bool_decide (hbQuietHours cfg = EmptyString))
                            && IsInQuietHours (hbQuietHours cfg) (sTimezone sched) now
              | None => false
              end
       | _, _ => true
       end
  else false.

Definition fired_message (sched : Schedule) : QueueMessage :=
  mkQueueMessage 0 (sAgentID sched) "internal" EmptyString
    (if bool_decide (sType sched = ScheduleTypeHeartbeat) then "heartbeat" else "scheduler")
    (sMessage sched) EmptyString EmptyString 0 EmptyString 0 0 EmptyString None None None.

(** The first part of [fire]: quiet hours, then the message; [false] when nothing is sent. *)
Definition fire_send (f : Failing) (agents : string -> option string) (now : Z) (sched : Schedule)
    (sc : Scheduler) : bool * Scheduler :=
  if quiet_now f agents now sched then (false, sc)
  else match f SEnqueue with
       | Some _ => (false, sc)
       | None => (true, set_queue sc (Enqueue (scQueue sc) now (fired_message sched)).2)
       end.

Definition ran_at (s : Schedule) (now : Z) (next : option Z) : Schedule :=
  mkSchedule (sID s) (sAgentID s) (sName s) (sCronExpr s) (sMessage s) (sChannel s) (sType s)
    (sEnabled s) (sTimezone s) (sCreatedAt s) now (Some now) next.

(** The second part: the row as it was read, with the times of the run, is written back. *)
Definition fire_save (f : Failing) (now : Z) (sched : Schedule) (sc : Scheduler) : Scheduler :=
  let next := match scEntries sc !! sID sched with
              | Some entryID => match EntryNext (scCron sc) entryID with
                                | Some t => Some t
                                | None => sNextRunAt sched
                                end
              | None => sNextRunAt sched
              end in
  set_table sc (UpdateSchedule f (ran_at sched now next) (scRows sc)).2.

Definition fire (f : Failing) (agents : string -> option string) (now later : Z) (sched : Schedule)
    (sc : Scheduler) : Scheduler :=
  match fire_send f agents now sched sc with
  | (false, sc') => sc'
  | (true, sc') => fire_save f later sched sc'
  end.

Definition PulseNow (f : Failing) (agents : string -> option string) (agentID : string) (now later : Z)
    (sc : Scheduler) : option string * Scheduler :=
  match scHeartbeats sc !! agentID with
  | None => (Some ("no heartbeat configured for agent " +:+ agentID), sc)
  | Some schedID =>
    match GetSchedule f schedID (scRows sc) with
    | inr e => (Some e, sc)
    | inl s => (None, fire f agents now later s sc)
    end
  end.

(** The closure [registerCron] adds: the row is read again; [None] when nothing fires. *)
Definition job_row (f : Failing) (scheduleID : string) (sc : Scheduler) : option Schedule :=
  match GetSchedule f scheduleID (scRows sc) with
  | inr _ => None
  | inl current => if sEnabled current then Some current else None
  end.

Definition run_job (f : Failing) (agents : string -> option string) (now later : Z) (scheduleID : string)
    (sc : Scheduler) : Scheduler :=
  match job_row f scheduleID sc with
  | Some current => fire f agents now later current sc
  | None => sc
  end.

(** A new process over the same table: [New], then [Start], whose error only shows in the log. *)
Definition boot (f : Failing) (rows : gmap string Schedule) (q : PostgresQueue) (tz : string)
    : result string Scheduler :=
  let? sc := NewScheduler rows q tz in Ok (Start f sc).2.

(** ** Histories *)

Inductive SchedOp : Type :=
| OpAdd (sched : Schedule)
| OpRemove (id : string)
| OpUpdate (sched : Schedule)
| OpToggle (id : string) (now : Z)
| OpRegisterHeartbeat (agentID : string) (cfg : HeartbeatConfig) (tz : string) (now : Z)
| OpUnregisterHeartbeat (agentID : string) (now : Z)
| OpEnableHeartbeat (agentID : string) (now : Z)
| OpRemoveAgent (agentID : string)
| OpStop
| OpRestart (tz : string).

(** The operations hold the scheduler's lock to their end. *)
Definition apply_op (f : Failing) (op : SchedOp) (sc : Scheduler) : Scheduler :=
  match op with
  | OpAdd s => (Add f s sc).2
  | OpRemove id => (Remove f id sc).2
  | OpUpdate s => (Update f s sc).2
  | OpToggle id now => (Toggle f id now sc).2
  | OpRegisterHeartbeat a cfg tz now => (RegisterHeartbeat f a cfg tz now sc).2
  | OpUnregisterHeartbeat a now => (UnregisterHeartbeat f a now sc).2
  | OpEnableHeartbeat a now => (EnableHeartbeat f a now sc).2
  | OpRemoveAgent a => (RemoveAgentSchedules f a sc).2
  | OpStop => Stop sc
  | OpRestart tz => match boot f (scRows sc) (scQueue sc) tz with inl sc' => sc' | inr _ => sc end
  end.

(** A fire is a goroutine of its own, of the engine or of [PulseNow], and holds no lock: it knows
    its schedule, has read the row, or has sent the message and is about to write the row back.
    Only a job looks at whether the row it read is enabled. *)
Inductive FireFlight : Type :=
| Chosen (job : bool) (scheduleID : string)
| Reading (row : Schedule)
| Sent (row : Schedule).

Record FiringState := mkFiringState {
  fsSched : Scheduler;
  fsFires : list FireFlight;
}.

Inductive SchedStep : Type :=
| StepOp (op : SchedOp)
| StepJob (entry : Z)
| StepPulse (agentID : string)
| StepRead (k : nat)
| StepSend (k : nat) (now : Z)
| StepSave (k : nat) (later : Z).

Definition read_row (f : Failing) (job : bool) (scheduleID : string) (sc : Scheduler) : option Schedule :=
  if job then job_row f scheduleID sc
  else match GetSchedule f scheduleID (scRows sc) with inl s => Some s | inr _ => None end.

(** Flight [k] goes on, or is over. *)
Definition fly (k : nat) (next : option FireFlight) (l : list FireFlight) : list FireFlight :=
  match next with Some x => <[k := x]> l | None => delete k l end.

(** One step of an operation, of the engine or of a fire; a new process has no fires. *)
Definition fire_step (agents : string -> option string) (f : Failing) (step : SchedStep) (st : FiringState)
    : FiringState :=
  let sc := fsSched st in
  let fires := fsFires st in
  match step with
  | StepOp op => mkFiringState (apply_op f op sc) (match op with OpRestart _ => [] | _ => fires end)
  | StepJob i =>
    match Entry (scCron sc) i with
    | Some (_, id) => mkFiringState sc (fires ++ [Chosen true id])
    | None => st
    end
  | StepPulse a =>
    match scHeartbeats sc !! a with
    | Some id => mkFiringState sc (fires ++ [Chosen false id])
    | None => st
    end
  | StepRead k =>
    match fires !! k with
    | Some (Chosen job id) => mkFiringState sc (fly k (Reading <$> read_row f job id sc) fires)
    | _ => st
    end
  | StepSend k now =>
    match fires !! k with
    | Some (Reading row) =>
      let (sent, sc') := fire_send f agents now row sc in
      mkFiringState sc' (fly k (if sent then Some (Sent row) else None) fires)
    | _ => st
    end
  | StepSave k later =>
    match fires !! k with
    | Some (Sent row) => mkFiringState (fire_save f later row sc) (fly k None fires)
    | _ => st
    end
  end.

Definition run_schedule (agents : string -> option string) (steps : list (Failing * SchedStep)) (st : FiringState)
    : FiringState :=
  fold_left (fun st fs => fire_step agents fs.1 fs.2 st) steps st.

(** The row a fire is about to write back and the row of the table, if it still is there, agree on
    whether and when the schedule runs. *)
Definition agrees (step : SchedStep) (st : FiringState) : bool :=
  match step with
  | StepSave k _ =>
    match fsFires st !! k with
    | Some (Sent row) =>
      match scRows (fsSched st) !! sID row with
      | Some current => Bool.eqb (sEnabled row) (sEnabled current)
                        && bool_decide (sCronExpr row = sCronExpr current)
      | None => true
      end
    | _ => true
    end
  | _ => true
  end.

(** No schedule is switched or given another expression between the reading of its row by a
    fire and the writing back. *)
Fixpoint undisturbed (agents : string -> option string) (steps : list (Failing * SchedStep)) (st : FiringState)
    : bool :=
  match steps with
  | [] => true
  | (f, step) :: steps' => agrees step st && undisturbed agents steps' (fire_step agents f step st)
  end.
End scheduler.

(** * The engine's jobs and the table

    [Held strict X sc]: every job belongs to an enabled row with its expression, and is the
    entry of its schedule; the schedules of [X] have none.  With [strict], every
    enabled row with a valid expression that is not in [X] has one. *)
Section jobs.
Context `{TimeZones} `{Cron} (valid : string -> bool) `{!CronLaws valid}.
Context (dup : string) (decode_heartbeat : string -> option HeartbeatConfig).
Implicit Types (sc : Scheduler) (s : Schedule) (id e : string) (X : gset string).

Definition runnable s : Prop := sEnabled s = true /\ valid (sCronExpr s) = true.

Record Held (strict : Prop) (X : gset string) sc : Prop := {
  held_keyed : forall id s, scRows sc !! id = Some s -> sID s = id;
  held_entry : forall id i, scEntries sc !! id = Some i -> exists e, Entry (scCron sc) i = Some (e, id);
  held_job : forall i e id, Entry (scCron sc) i = Some (e, id) ->
    scEntries sc !! id = Some i /\ exists s, scRows sc !! id = Some s /\ runnable s /\ sCronExpr s = e;
  held_none : forall id, id ∈ X -> scEntries sc !! id = None;
  held_all : strict -> forall id s, id ∉ X -> scRows sc !! id = Some s -> runnable s -> is_Some (scEntries sc !! id);
}.

Notation Inv strict := (Held strict ∅).

Lemma held_row (strict : Prop) X sc id i :
  Held strict X sc -> scEntries sc !! id = Some i ->
  exists s, scRows sc !! id = Some s /\ runnable s /\ Entry (scCron sc) i = Some (sCronExpr s, id).
Proof.
  intros I Hi. destruct (held_entry _ _ _ I id i Hi) as [e He].
  destruct (held_job _ _ _ I _ _ _ He) as (_ & s & Hs & Hr & <-). eauto.
Qed.

Lemma held_disabled (strict : Prop) X sc id :
  Held strict X sc -> (forall s, scRows sc !! id = Some s -> sEnabled s = false) ->
  scEntries sc !! id = None.
Proof.
  intros I Hd. destruct (scEntries sc !! id) as [i|] eqn:E; [|done].
  destruct (held_row _ _ _ _ _ I E) as (s & Hs & [Hr _] & _). rewrite (Hd s Hs) in Hr. done.
Qed.

(** Taking a schedule without an entry into [X], and letting the schedules of [X] go. *)
Lemma held_hold (strict : Prop) X sc id :
  Held strict X sc -> scEntries sc !! id = None -> Held strict ({[id]} ∪ X) sc.
Proof.
  intros [] Hn. split; try done.
  - intros k [->%elem_of_singleton|Hk]%elem_of_union; auto.
  - intros St k s [_ Hk]%not_elem_of_union. eauto.
Qed.

Lemma held_release (strict : Prop) X sc :
  Held strict X sc -> (strict -> forall id s, id ∈ X -> scRows sc !! id = Some s -> ~ runnable s) -> Inv strict sc.
Proof.
  intros [K En J No Al] Hx. split; try done.
  intros St id s _ Hs Hr. destruct (decide (id ∈ X)) as [Hin|Hin]; [|eauto].
  by destruct (Hx St id s Hin Hs).
Qed.

Lemma held_unregister (strict : Prop) X sc id :
  Held strict X sc -> Held strict ({[id]} ∪ X) (unregisterCron id sc).
Proof.
  intros I. unfold unregisterCron.
  destruct (scEntries sc !! id) as [i|] eqn:Hi; [|by apply held_hold].
  destruct I as [K En J No Al]. split; simpl.
  - done.
  - intros k j [Hk Hj]%lookup_delete_Some. destruct (En k j Hj) as [e He]. exists e.
    rewrite remove_entry. case_decide as Ej; [|done]. subst j.
    destruct (En id i Hi) as [e' He']. rewrite He in He'. by injection He' as -> <-.
  - intros j e k. rewrite remove_entry. case_decide as Ej; [done|]. intros Hj.
    destruct (J _ _ _ Hj) as [Hk Hrow]. split; [|done].
    rewrite lookup_delete_ne; [done|]. intros <-. rewrite Hi in Hk. by injection Hk.
  - intros k [->%elem_of_singleton|Hk]%elem_of_union; [by rewrite lookup_delete_eq|].
    rewrite lookup_delete_None. eauto.
  - intros St k s [Hk HX]%not_elem_of_union Hs Hr. rewrite not_elem_of_singleton in Hk.
    rewrite lookup_delete_ne by done. eauto.
Qed.

(** Only the rows of [X] change, and they keep their keys. *)
Lemma held_table (strict : Prop) X sc t :
  Held strict X sc -> (forall id, id ∉ X -> t !! id = scRows sc !! id) ->
  (forall id s, id ∈ X -> t !! id = Some s -> sID s = id) -> Held strict X (set_table sc t).
Proof.
  intros [K En J No Al] Ht Hk. split; simpl; try done.
  - intros id s Hs. destruct (decide (id ∈ X)); [eauto|]. rewrite Ht in Hs by done. eauto.
  - intros i e id Hi. destruct (J _ _ _ Hi) as (Hid & s & Hs & Hr). split; [done|].
    exists s. split; [|done]. rewrite Ht; [done|]. intros Hin. rewrite (No _ Hin) in Hid. done.
  - intros St id s Hin. rewrite Ht by done. eauto.
Qed.

Lemma held_insert (strict : Prop) X sc id s :
  Held strict X sc -> id ∈ X -> sID s = id -> Held strict X (set_table sc (<[id := s]> (scRows sc))).
Proof.
  intros I Hid Hs. apply held_table; [done| |].
  - intros k Hk. apply lookup_insert_ne. by intros ->.
  - intros k s' Hk. destruct (decide (id = k)) as [->|Hne].
    + rewrite lookup_insert_eq. by intros [= <-].
    + rewrite lookup_insert_ne by done. apply (held_keyed _ _ _ I).
Qed.

(** A row with the same state and expression may be written at any time. *)
Lemma held_same (strict : Prop) X sc id old s :
  Held strict X sc -> scRows sc !! id = Some old -> sID s = id ->
  sEnabled s = sEnabled old -> sCronExpr s = sCronExpr old ->
  Held strict X (set_table sc (<[id := s]> (scRows sc))).
Proof.
  intros [K En J No Al] Hold Hid Hen Hex. split; simpl; try done.
  - intros k s'. destruct (decide (id = k)) as [->|Hne].
    + rewrite lookup_insert_eq. by intros [= <-].
    + rewrite lookup_insert_ne by done. apply K.
  - intros i e k Hi. destruct (J _ _ _ Hi) as (Hk & s' & Hs' & [Hr1 Hr2] & He). split; [done|].
    destruct (decide (id = k)) as [->|Hne].
    + exists s. rewrite lookup_insert_eq. simplify_eq. unfold runnable. by rewrite Hen, Hex.
    + exists s'. by rewrite lookup_insert_ne.
  - intros St k s' Hk. destruct (decide (id = k)) as [->|Hne].
    + rewrite lookup_insert_eq. intros [= <-] [Hr1 Hr2]. eapply Al; try done. split; congruence.
    + rewrite lookup_insert_ne by done. by apply Al.
Qed.

Lemma held_heartbeats (strict : Prop) X sc m : Held strict X sc -> Held strict X (set_heartbeats sc m).
Proof. by intros []. Qed.

Lemma held_queue (strict : Prop) X sc q : Held strict X sc -> Held strict X (set_queue sc q).
Proof. by intros []. Qed.

Lemma set_table_id sc : set_table sc (scRows sc) = sc.
Proof. by destruct sc. Qed.

Lemma registerCron_rows s sc : scRows (registerCron s sc).2 = scRows sc.
Proof. unfold registerCron. by destruct (AddFunc _ _ _) as [[]|]. Qed.

Lemma unregisterCron_rows id sc : scRows (unregisterCron id sc) = scRows sc.
Proof. unfold unregisterCron. by destruct (_ !! id). Qed.

Lemma unregisterCron_heartbeats id sc : scHeartbeats (unregisterCron id sc) = scHeartbeats sc.
Proof. unfold unregisterCron. by destruct (_ !! id). Qed.

Lemma unregister_table id sc t : unregisterCron id (set_table sc t) = set_table (unregisterCron id sc) t.
Proof. unfold unregisterCron. simpl. by destruct (_ !! id). Qed.

(** Registering the schedule of an enabled row that is held *)
Lemma held_register (strict : Prop) X sc sched s :
  Held strict X sc -> sID sched ∈ X -> scRows sc !! sID sched = Some s ->
  sEnabled s = true -> sCronExpr s = sCronExpr sched ->
  Held strict (X ∖ {[sID sched]}) (registerCron sched sc).2.
Proof.
  intros I Hin Hs Hen Hex. pose proof I as [K En J No Al]. unfold registerCron.
  destruct (AddFunc _ _ _) as [[i c]|err] eqn:A.
  - pose proof (proj1 (add_valid (scCron sc) (sCronExpr sched) (sID sched)) (ex_intro _ _ A)) as Hv.
    destruct (add_entry _ _ _ _ _ A) as [Hfree Hall]. split; simpl.
    + done.
    + intros k j. destruct (decide (sID sched = k)) as [<-|Hne].
      * rewrite lookup_insert_eq. intros [= <-]. exists (sCronExpr sched). by rewrite Hall, decide_True.
      * rewrite lookup_insert_ne by done. intros Hj. destruct (En k j Hj) as [e He]. exists e.
        rewrite Hall, decide_False; [done|]. intros ->. congruence.
    + intros j e k. rewrite Hall. case_decide as Ej.
      * intros [= <- <-]. subst j. rewrite lookup_insert_eq. split; [done|]. exists s.
        unfold runnable. by rewrite Hex.
      * intros Hj. destruct (J _ _ _ Hj) as [Hk Hrow]. split; [|done]. rewrite lookup_insert_ne; [done|].
        intros <-. rewrite (No _ Hin) in Hk. done.
    + intros k [HX Hk]%elem_of_difference. rewrite not_elem_of_singleton in Hk.
      rewrite lookup_insert_ne by done. auto.
    + intros St k s' Hk Hs' Hr. destruct (decide (sID sched = k)) as [<-|Hne].
      * rewrite lookup_insert_eq. eauto.
      * rewrite lookup_insert_ne by done. apply (Al St k s'); [|done|done]. set_solver.
  - split; simpl; try done.
    + intros k [HX _]%elem_of_difference. auto.
    + intros St k s' Hk Hs' [Hr1 Hr2]. destruct (decide (sID sched = k)) as [<-|Hne].
      * rewrite Hs in Hs'. injection Hs' as <-. rewrite Hex in Hr2.
        apply (add_valid (scCron sc) (sCronExpr sched) (sID sched)) in Hr2 as [r Hr2]. congruence.
      * apply (Al St k s'); [set_solver|done|done].
Qed.

Lemma held_registered (strict : Prop) sc sched s :
  Held strict {[sID sched]} sc -> scRows sc !! sID sched = Some s ->
  sEnabled s = true -> sCronExpr s = sCronExpr sched -> Inv strict (registerCron sched sc).2.
Proof.
  intros I Hs Hen Hex.
  pose proof (held_register _ _ _ sched s I (proj2 (elem_of_singleton _ _) eq_refl) Hs Hen Hex) as I'.
  by rewrite difference_diag_L in I'.
Qed.

Lemma held_register_if (strict : Prop) sc sched s context :
  Held strict {[sID sched]} sc -> scRows sc !! sID sched = Some s ->
  sEnabled s = sEnabled sched -> sCronExpr s = sCronExpr sched ->
  Inv strict (register_if_enabled sched context sc).2.
Proof.
  intros I Hs Hen Hex. unfold register_if_enabled. destruct (sEnabled sched) eqn:E.
  - pose proof (held_registered _ _ _ _ I Hs Hen Hex) as I'.
    by destruct (registerCron sched sc) as [[?|] ?].
  - apply (held_release _ _ _ I). intros _ id s' ->%elem_of_singleton Hs' [Hr _]. congruence.
Qed.

Lemma held_single (strict : Prop) sc id : Inv strict sc -> scEntries sc !! id = None -> Held strict {[id]} sc.
Proof. intros I Hn. pose proof (held_hold _ _ _ _ I Hn) as I'. by rewrite union_empty_r_L in I'. Qed.

Lemma held_unregistered (strict : Prop) sc id : Inv strict sc -> Held strict {[id]} (unregisterCron id sc).
Proof. intros I. pose proof (held_unregister _ _ _ id I) as I'. by rewrite union_empty_r_L in I'. Qed.

(** What an update of the table does *)
Lemma update_cases (f : Failing) s t :
  (exists err, UpdateSchedule f s t = (Some err, t) /\ (t !! sID s = None \/ f SUpdate <> None)) \/
  (exists old, t !! sID s = Some old /\ f SUpdate = None
               /\ UpdateSchedule f s t = (None, <[sID s := overwritten old s]> t)).
Proof.
  unfold UpdateSchedule. destruct (f SUpdate) as [err|] eqn:E; [left; eexists; split; [done|by right]|].
  destruct (t !! sID s) as [old|] eqn:Ho; [right; eauto|]. left. eexists. split; [done|by left].
Qed.

Lemma get_cases (f : Failing) id t :
  (exists err, GetSchedule f id t = Err err /\ (t !! id = None \/ f SGet <> None)) \/
  (exists s, GetSchedule f id t = Ok s /\ t !! id = Some s).
Proof.
  unfold GetSchedule. destruct (f SGet) as [err|] eqn:E; [left; eexists; split; [done|by right]|].
  destruct (t !! id) as [s|] eqn:Ho; [right; eauto|]. left. eexists. split; [done|by left].
Qed.

(** A row that is held is updated and registered again. *)
Lemma held_update (strict : Prop) (f : Failing) sc sched context k :
  (strict -> f SUpdate = None) -> Held strict {[sID sched]} sc ->
  (forall sc' s, Held strict {[sID sched]} sc' -> scRows sc' !! sID sched = Some s ->
     sEnabled s = sEnabled sched -> sCronExpr s = sCronExpr sched -> Inv strict (k sc').2) ->
  Inv strict (on_table (UpdateSchedule f sched (scRows sc)) context sc k).2.
Proof.
  intros Hf I Hk. destruct (update_cases f sched (scRows sc)) as [(err & -> & Hn)|(old & Ho & _ & ->)]; simpl.
  - rewrite set_table_id. apply (held_release _ _ _ I). intros St id s ->%elem_of_singleton Hs.
    destruct Hn as [Hn|Hn]; [congruence|]. by rewrite Hf in Hn.
  - pose proof (held_keyed _ _ _ I _ _ Ho) as Hid.
    apply (Hk _ (overwritten old sched)); [|apply lookup_insert_eq|done|done].
    apply held_insert; [done|set_solver|done].
Qed.

Lemma inv_add (strict : Prop) (f : Failing) sched sc :
  Inv strict sc -> Inv strict (Add dup f sched sc).2.
Proof.
  intros I. unfold Add, CreateSchedule. destruct (f SCreate); simpl; [by rewrite set_table_id|].
  destruct (scRows sc !! sID sched) as [old|] eqn:Ho; simpl; [by rewrite set_table_id|].
  assert (scEntries sc !! sID sched = None) as Hn by (eapply held_disabled; [done|]; congruence).
  apply held_register_if with (stored sched); [|apply lookup_insert_eq|done|done].
  apply held_insert; [by apply held_single|set_solver|done].
Qed.

Lemma inv_remove (strict : Prop) (f : Failing) id sc :
  (strict -> f SDelete = None) -> Inv strict sc -> Inv strict (Remove f id sc).2.
Proof.
  intros Hf I. pose proof (held_unregistered _ _ id I) as I'.
  unfold Remove, DeleteSchedule. destruct (f SDelete) eqn:E; simpl.
  - rewrite set_table_id. apply (held_release _ _ _ I'). intros St. by specialize (Hf St).
  - destruct (_ !! id) eqn:Ho; simpl.
    + eapply held_release.
      * apply held_table; [exact I'| |].
        -- intros k Hk. rewrite lookup_delete_ne; set_solver.
        -- intros k s0 ->%elem_of_singleton. by rewrite lookup_delete_eq.
      * intros _ k s0 ->%elem_of_singleton. simpl. by rewrite lookup_delete_eq.
    + rewrite set_table_id. apply (held_release _ _ _ I').
      intros _ k s0 ->%elem_of_singleton Hs. congruence.
Qed.

Lemma inv_update (strict : Prop) (f : Failing) sched sc :
  (strict -> f SUpdate = None) -> Inv strict sc -> Inv strict (Update f sched sc).2.
Proof.
  intros Hf I. apply held_update; [done|by apply held_unregistered|].
  intros sc' s. apply held_register_if.
Qed.

Lemma inv_toggle (strict : Prop) (f : Failing) id now sc :
  Inv strict sc -> Inv strict (Toggle f id now sc).2.
Proof.
  intros I. unfold Toggle. destruct (get_cases f id (scRows sc)) as [(err & -> & _)|(s & -> & Hs)]; [done|].
  simpl. pose proof (held_keyed _ _ _ I _ _ Hs) as Hid. subst id.
  set (sched := with_enabled s (negb (sEnabled s)) now).
  destruct (update_cases f sched (scRows sc)) as [(err & -> & _)|(old & Ho & _ & ->)]; simpl;
    [by rewrite set_table_id|].
  simplify_eq/=. destruct (sEnabled s) eqn:E; simpl.
  - rewrite unregister_table. apply (held_release _ {[sID s]}).
    + rewrite <- (unregisterCron_rows (sID s) sc). apply held_insert; [by apply held_unregistered|set_solver|done].
    + intros _ id s' ->%elem_of_singleton. simpl. rewrite lookup_insert_eq. by intros [= <-] [? _].
  - apply (held_register_if _ _ sched (overwritten s sched)); [|apply lookup_insert_eq|done|done].
    apply held_insert; [|set_solver|done]. apply held_single; [done|].
    eapply held_disabled; [done|]. intros s' Hs'. simpl in Hs'. congruence.
Qed.

Lemma inv_create_heartbeat (strict : Prop) (f : Failing) a cfg tz now sc :
  Inv strict sc -> Inv strict (create_heartbeat dup f a cfg tz now sc).2.
Proof.
  intros I. unfold create_heartbeat, CreateSchedule. destruct (f SCreate); simpl; [by rewrite set_table_id|].
  destruct (scRows sc !! heartbeat_id a) as [old|] eqn:Ho; simpl; [by rewrite set_table_id|].
  assert (scEntries sc !! heartbeat_id a = None) as Hn by (eapply held_disabled; [done|]; congruence).
  set (sched := new_heartbeat a cfg tz now).
  apply held_register_if with (stored sched); [|apply lookup_insert_eq|done|done].
  apply held_heartbeats, (held_insert _ _ _ (heartbeat_id a)); [by apply held_single|set_solver|done].
Qed.

Lemma inv_register_heartbeat (strict : Prop) (f : Failing) a cfg tz now sc :
  (strict -> f = no_failure) -> Inv strict sc -> Inv strict (RegisterHeartbeat dup f a cfg tz now sc).2.
Proof.
  intros Hf I. unfold RegisterHeartbeat.
  destruct (scHeartbeats sc !! a) as [id|]; [|by apply inv_create_heartbeat].
  destruct (get_cases f id (scRows sc)) as [(err & -> & Hn)|(s & -> & Hs)]; simpl.
  - apply inv_create_heartbeat.
    apply (held_release _ {[id]}); [by apply held_unregistered, held_heartbeats|].
    intros St k s ->%elem_of_singleton. rewrite unregisterCron_rows. simpl.
    destruct Hn as [->|Hn]; [done|]. by rewrite (Hf St) in Hn.
  - pose proof (held_keyed _ _ _ I _ _ Hs) as Hid.
    apply held_update.
    + intros St. by rewrite (Hf St).
    + simpl. rewrite Hid. by apply held_unregistered.
    + intros sc' s'. apply held_register_if.
Qed.

Lemma inv_disable (strict : Prop) (f : Failing) s now sc context :
  (strict -> f SUpdate = None) -> Held strict {[sID s]} sc ->
  Inv strict (on_table (UpdateSchedule f (with_enabled s false now) (scRows sc)) context sc
                (fun sc => (None, sc))).2.
Proof.
  intros Hf I. apply held_update; [done|done|].
  intros sc' s' I' Hs' Hen _. apply (held_release _ _ _ I').
  intros _ k s0 ->%elem_of_singleton Hs0 [Hr _]. simpl in *. congruence.
Qed.

Lemma inv_unregister_heartbeat (strict : Prop) (f : Failing) a now sc :
  (strict -> f = no_failure) -> Inv strict sc -> Inv strict (UnregisterHeartbeat f a now sc).2.
Proof.
  intros Hf I. unfold UnregisterHeartbeat. destruct (scHeartbeats sc !! a) as [id|]; [|done].
  pose proof (held_unregistered _ _ id I) as I'. rewrite unregisterCron_rows.
  destruct (get_cases f id (scRows sc)) as [(err & -> & Hn)|(s & -> & Hs)]; simpl.
  - apply (held_release _ _ _ I'). intros St k s ->%elem_of_singleton. rewrite unregisterCron_rows.
    destruct Hn as [->|Hn]; [done|]. by rewrite (Hf St) in Hn.
  - pose proof (held_keyed _ _ _ I _ _ Hs) as <-. rewrite <- (unregisterCron_rows (sID s) sc).
    apply inv_disable; [|done]. intros St. by rewrite (Hf St).
Qed.

Lemma inv_enable_heartbeat (strict : Prop) (f : Failing) a now sc :
  (strict -> f = no_failure) -> Inv strict sc -> Inv strict (EnableHeartbeat f a now sc).2.
Proof.
  intros Hf I. unfold EnableHeartbeat. destruct (scHeartbeats sc !! a) as [id|]; [|done].
  destruct (get_cases f id (scRows sc)) as [(err & -> & _)|(s & -> & Hs)]; simpl; [done|].
  destruct (sEnabled s) eqn:E; [done|].
  pose proof (held_keyed _ _ _ I _ _ Hs) as <-. apply held_update.
  - intros St. by rewrite (Hf St).
  - apply held_single; [done|]. eapply held_disabled; [done|]. simpl. congruence.
  - intros sc' s' I' Hs' Hen Hex. by apply (held_registered _ _ _ s').
Qed.

Lemma insert_created_perm s l : insert_created s l ≡ₚ s :: l.
Proof.
  induction l as [|x l IH]; simpl; [done|]. destruct (_ <=? _); [done|].
  rewrite IH. apply perm_swap.
Qed.

Lemma query_perm (f : Failing) p t l :
  querySchedules f p t = Ok l -> l ≡ₚ List.filter p (map snd (map_to_list t)).
Proof.
  unfold querySchedules. destruct (f SList); [done|]. intros [= <-].
  induction (List.filter _ _) as [|x l' IH]; simpl; [done|]. by rewrite insert_created_perm, IH.
Qed.

Lemma query_elem (f : Failing) p t l s :
  querySchedules f p t = Ok l -> s ∈ l <-> (exists id, t !! id = Some s) /\ p s = true.
Proof.
  intros Hq. rewrite (query_perm _ _ _ _ Hq), filter_elem. split; intros [Hs Hp]; (split; [|done]).
  - apply list_elem_of_fmap in Hs as ([id s'] & -> & Hs). exists id. by apply elem_of_map_to_list.
  - destruct Hs as [id Hs]. apply list_elem_of_fmap. exists (id, s). split; [done|].
    by apply elem_of_map_to_list.
Qed.

Lemma query_keys (f : Failing) p (t : gmap string Schedule) l :
  (forall id s, t !! id = Some s -> sID s = id) -> querySchedules f p t = Ok l -> NoDup (map sID l).
Proof.
  intros Hk Hq. rewrite (query_perm _ _ _ _ Hq).
  assert (map sID (map snd (map_to_list t)) = (map_to_list t).*1) as Hm.
  { rewrite map_map. apply list_fmap_ext. intros i [id s] Hi%list_elem_of_lookup_2.
    apply (Hk id s). by apply elem_of_map_to_list. }
  pose proof (NoDup_fst_map_to_list t) as Hn. rewrite <- Hm in Hn. clear Hm Hq.
  induction (map snd (map_to_list t)) as [|s l' IH]; simpl in *; [constructor|].
  apply NoDup_cons in Hn as [Hs Hn]. destruct (p s); [|by apply IH]. apply NoDup_cons. split; [|by apply IH].
  intros (s' & He & Hs')%list_elem_of_fmap. apply filter_elem in Hs' as [Hs' _].
  apply Hs. apply list_elem_of_fmap. eauto.
Qed.

Lemma held_unregister_all (strict : Prop) l X sc :
  Held strict X sc ->
  Held strict (list_to_set (map sID l) ∪ X) (fold_left (fun sc s => unregisterCron (sID s) sc) l sc)
  /\ scRows (fold_left (fun sc s => unregisterCron (sID s) sc) l sc) = scRows sc.
Proof.
  revert X sc. induction l as [|s l IH]; intros X sc I; simpl; [by rewrite union_empty_l_L|].
  destruct (IH _ _ (held_unregister _ _ _ (sID s) I)) as [I' ->]. rewrite unregisterCron_rows.
  split; [|done]. replace ({[sID s]} ∪ list_to_set (map sID l) ∪ X)
    with (list_to_set (map sID l) ∪ ({[sID s]} ∪ X)) by set_solver. done.
Qed.

Lemma inv_remove_agent (strict : Prop) (f : Failing) a sc :
  (strict -> f = no_failure) -> Inv strict sc -> Inv strict (RemoveAgentSchedules f a sc).2.
Proof.
  intros Hf I. unfold RemoveAgentSchedules, ListSchedules.
  destruct (querySchedules f (of_agent a) (scRows sc)) as [l|err] eqn:Q; [|done].
  destruct (held_unregister_all _ l _ _ I) as [I' Hrows].
  set (sc1 := fold_left _ l sc) in *. set (X := list_to_set (map sID l) ∪ ∅) in *.
  assert (forall id s, id ∉ X -> scRows sc !! id = Some s -> of_agent a s = false) as Hother.
  { intros id s Hid Hs. destruct (of_agent a s) eqn:E; [|done]. destruct Hid. subst X.
    rewrite union_empty_r_L, elem_of_list_to_set. apply list_elem_of_fmap. exists s.
    split; [by rewrite (held_keyed _ _ _ I _ _ Hs)|]. apply (query_elem _ _ _ _ _ Q). eauto. }
  unfold DeleteSchedulesByAgent. simpl. destruct (f SDelete) eqn:D; simpl.
  - rewrite <- (set_table_id sc1) in I'. apply (held_release _ X); [by destruct I'|].
    intros St. by rewrite (Hf St) in D.
  - apply (held_release _ X).
    + rewrite Hrows. apply held_table; [by apply held_heartbeats| |].
      * intros id Hid. simpl. rewrite Hrows. destruct (scRows sc !! id) as [s|] eqn:Hs.
        -- apply map_lookup_filter_Some_2; [done|]. by apply (Hother id s).
        -- by apply map_lookup_filter_None_2; left.
      * intros id s _ [Hs _]%map_lookup_filter_Some. by apply (held_keyed _ _ _ I).
    + intros St id s Hid. simpl. rewrite Hrows. intros [Hs Ha]%map_lookup_filter_Some [Hr _].
      subst X. rewrite union_empty_r_L, elem_of_list_to_set in Hid.
      apply list_elem_of_fmap in Hid as (s' & -> & Hs'). apply (query_elem _ _ _ _ _ Q) in Hs' as [[k Hk] Ha'].
      rewrite (held_keyed _ _ _ I _ _ Hk) in Hs. simplify_eq/=. congruence.
Qed.

Lemma inv_fire_send (strict : Prop) (f : Failing) agents now s sc :
  Inv strict sc -> Inv strict (fire_send decode_heartbeat f agents now s sc).2.
Proof.
  intros I. unfold fire_send. destruct (quiet_now _ _ _ _ _); [done|].
  destruct (f SEnqueue); [done|]. by apply held_queue.
Qed.

Lemma fire_send_rows (f : Failing) agents now s sc :
  scRows (fire_send decode_heartbeat f agents now s sc).2 = scRows sc.
Proof. unfold fire_send. destruct (quiet_now _ _ _ _ _); [done|]. by destruct (f SEnqueue). Qed.

(** A row that is written back while the table agrees with it, or has lost it *)
Lemma inv_fire_save (strict : Prop) (f : Failing) now s sc :
  Inv strict sc ->
  (forall current, scRows sc !! sID s = Some current ->
     sEnabled s = sEnabled current /\ sCronExpr s = sCronExpr current) ->
  Inv strict (fire_save f now s sc).
Proof.
  intros I Hs. unfold fire_save.
  match goal with |- context [ran_at s now ?n] => set (next := n) end.
  destruct (update_cases f (ran_at s now next) (scRows sc)) as [(err & -> & _)|(old & Ho & _ & ->)]; simpl;
    [by rewrite set_table_id|].
  simpl in Ho. destruct (Hs old Ho) as [He Hc].
  apply (held_same _ _ _ (sID s) old); [done|done|exact (held_keyed _ _ _ I _ _ Ho)|done|done].
Qed.

Lemma held_start_one (strict : Prop) X sc s :
  Held strict X sc -> sID s ∈ X -> scRows sc !! sID s = Some s -> sEnabled s = true ->
  Held strict (X ∖ {[sID s]}) (start_one sc s) /\ scRows (start_one sc s) = scRows sc.
Proof.
  intros I Hin Hs Hen. pose proof (held_register _ _ _ s s I Hin Hs Hen eq_refl) as I'.
  pose proof (registerCron_rows s sc) as Hr. unfold start_one.
  destruct (registerCron s sc) as [[?|] sc']; [done|]. case_bool_decide; [|done].
  split; [by apply held_heartbeats|done].
Qed.

Lemma held_start_all (strict : Prop) l X sc :
  Held strict X sc -> NoDup (map sID l) ->
  (forall s, s ∈ l -> sID s ∈ X /\ scRows sc !! sID s = Some s /\ sEnabled s = true) ->
  Held strict (X ∖ list_to_set (map sID l)) (fold_left start_one l sc)
  /\ scRows (fold_left start_one l sc) = scRows sc.
Proof.
  revert X sc. induction l as [|s l IH]; intros X sc I Hn Hl; simpl; [by rewrite difference_empty_L|].
  apply NoDup_cons in Hn as [Hs Hn]. destruct (Hl s ltac:(by left)) as (Hin & Hrow & Hen).
  destruct (held_start_one _ _ _ _ I Hin Hrow Hen) as [I' Hr].
  destruct (IH _ _ I' Hn) as [I'' Hr'].
  - intros s' Hs'. destruct (Hl s' ltac:(by right)) as (Hin' & Hrow' & Hen'). rewrite Hr.
    split; [|done]. apply elem_of_difference. split; [done|]. intros E%elem_of_singleton.
    apply Hs, list_elem_of_fmap. eauto.
  - split; [|congruence]. by rewrite difference_union_distr_l_L || rewrite <- difference_difference_l_L.
Qed.

Lemma held_engine (strict : Prop) X sc c :
  Held strict X sc -> (forall i, Entry c i = Entry (scCron sc) i) -> Held strict X (set_engine sc c (scEntries sc)).
Proof.
  intros [K En J No Al] Hc. split; simpl; try done.
  - intros id i Hi. rewrite Hc. eauto.
  - intros i e id. rewrite Hc. eauto.
Qed.

(** Every process starts with jobs for the enabled rows. *)
Lemma inv_boot (strict : Prop) (f : Failing) rows q tz sc :
  (strict -> f SList = None) -> (forall id s, rows !! id = Some s -> sID s = id) ->
  boot f rows q tz = Ok sc -> Inv strict sc.
Proof.
  intros Hf Hk. unfold boot, NewScheduler. destruct (LoadLocation tz) as [l|]; [|done]. simpl.
  intros [= <-]. set (sc0 := mkScheduler rows q NewEngine (Some l) ∅ ∅).
  assert (Held strict (dom rows) sc0) as I.
  { split; simpl; try done.
    - intros i e id. by rewrite new_empty.
    - intros St id s Hid Hs. destruct Hid. by apply elem_of_dom. }
  unfold Start, ListAllEnabledSchedules. simpl. destruct (querySchedules f sEnabled rows) as [ss|err] eqn:Q; simpl.
  - destruct (held_start_all _ ss _ _ I) as [I' Hr]; [by apply (query_keys f sEnabled rows)| |].
    + intros s [[id Hs] Hen]%(query_elem _ _ _ _ _ Q). pose proof (Hk _ _ Hs) as <-.
      repeat split; [apply elem_of_dom; eauto|done|done].
    + apply held_engine; [|intros; apply start_entry]. apply (held_release _ _ _ I').
      intros St id s [_ Hid]%elem_of_difference Hs [Hen _]. destruct Hid. rewrite Hr in Hs. simpl in Hs.
      apply elem_of_list_to_set, list_elem_of_fmap. exists s. split; [by rewrite (Hk _ _ Hs)|].
      apply (query_elem _ _ _ _ _ Q). eauto.
  - apply (held_release _ _ _ I). intros St. unfold querySchedules in Q. by rewrite (Hf St) in Q.
Qed.

Lemma inv_op (strict : Prop) (f : Failing) op sc :
  (strict -> f = no_failure) -> Inv strict sc ->
  Inv strict (apply_op dup f op sc).
Proof.
  intros Hf I. assert (strict -> forall x, f x = None) as Hf' by (intros St x; by rewrite (Hf St)).
  destruct op as [s|id|s|id now|a cfg tz now|a now|a now|a| |tz]; simpl.
  - by apply inv_add.
  - apply inv_remove; auto.
  - apply inv_update; auto.
  - by apply inv_toggle.
  - by apply inv_register_heartbeat.
  - by apply inv_unregister_heartbeat.
  - by apply inv_enable_heartbeat.
  - by apply inv_remove_agent.
  - apply held_engine; [done|]. intros i. apply stop_entry.
  - destruct (boot f (scRows sc) (scQueue sc) tz) as [sc'|] eqn:B; [|done].
    apply (inv_boot _ _ _ _ _ _ (fun St => Hf' St SList) (held_keyed _ _ _ I) B).
Qed.

Lemma inv_step (strict : Prop) agents (f : Failing) step st :
  (strict -> f = no_failure) -> agrees step st = true -> Inv strict (fsSched st) ->
  Inv strict (fsSched (fire_step dup decode_heartbeat agents f step st)).
Proof.
  intros Hf Ha I. destruct st as [sc fires]. simpl in I.
  destruct step as [op|i|a|k|k now|k later]; simpl.
  - by apply inv_op.
  - by destruct (Entry (scCron sc) i) as [[e id]|].
  - by destruct (scHeartbeats sc !! a).
  - by destruct (fires !! k) as [[]|].
  - destruct (fires !! k) as [[|row|]|]; try done.
    pose proof (inv_fire_send strict f agents now row sc I) as I'. by destruct (fire_send _ _ _ _ _ _).
  - simpl in Ha. destruct (fires !! k) as [[| |row]|]; try done. apply inv_fire_save; [done|].
    intros current Hc. rewrite Hc in Ha. apply andb_prop in Ha as [He%Bool.eqb_prop Hx%bool_decide_eq_true]. done.
Qed.

Lemma inv_run (strict : Prop) agents steps st :
  (strict -> Forall (fun fs : Failing * SchedStep => fs.1 = no_failure) steps) ->
  undisturbed dup decode_heartbeat agents steps st = true -> Inv strict (fsSched st) ->
  Inv strict (fsSched (run_schedule dup decode_heartbeat agents steps st)).
Proof.
  unfold run_schedule. revert st. induction steps as [|[f step] steps IH]; intros st Hf Hu I; simpl; [done|].
  apply andb_prop in Hu as [Ha Hu].
  apply IH; [intros St; by apply Hf, Forall_cons in St as [_ ?]|done|].
  apply inv_step; [|done|done]. intros St. by apply Hf, Forall_cons in St as [? _].
Qed.

(** A fire whose steps nothing comes between is the function [fire] of the row. *)
Lemma fire_in_steps agents (f : Failing) i now later sc e id :
  Entry (scCron sc) i = Some (e, id) ->
  run_schedule dup decode_heartbeat agents
    (map (pair f) [StepJob i; StepRead 0; StepSend 0 now; StepSave 0 later]) (mkFiringState sc [])
  = mkFiringState (run_job decode_heartbeat f agents now later id sc) [].
Proof.
  intros Hi. unfold run_schedule, run_job. simpl. rewrite Hi. simpl.
  destruct (job_row f id sc) as [row|]; simpl; [|done].
  unfold fire. by destruct (fire_send _ _ _ _ _ _) as [[] sc'].
Qed.

(** The pulse of a heartbeat does not ask whether its row is enabled. *)
Lemma pulse_in_steps agents (f : Failing) a now later sc :
  fsSched (run_schedule dup decode_heartbeat agents
    (map (pair f) [StepPulse a; StepRead 0; StepSend 0 now; StepSave 0 later]) (mkFiringState sc []))
  = (PulseNow decode_heartbeat f agents a now later sc).2.
Proof.
  unfold run_schedule, PulseNow. simpl. destruct (scHeartbeats sc !! a) as [id|]; simpl; [|done].
  destruct (GetSchedule f id (scRows sc)) as [row|]; simpl; [|done].
  unfold fire. by destruct (fire_send _ _ _ _ _ _) as [[] sc'].
Qed.

(** ** What the scheduler promises *)

(** after any operations and interleaved fires, with any statements failing, the jobs of the
    engine are of enabled rows and their expressions, and no schedule has two, as long as no fire
    writes back a row that was switched or changed after it was read. *)
Theorem jobs_are_enabled_rows agents (f0 : Failing) rows q tz sc0 steps i e id :
  (forall k s, rows !! k = Some s -> sID s = k) -> boot f0 rows q tz = Ok sc0 ->
  undisturbed dup decode_heartbeat agents steps (mkFiringState sc0 []) = true ->
  let sc := fsSched (run_schedule dup decode_heartbeat agents steps (mkFiringState sc0 [])) in
  Entry (scCron sc) i = Some (e, id) ->
  (exists s, scRows sc !! id = Some s /\ sEnabled s = true /\ sCronExpr s = e)
  /\ forall j e', Entry (scCron sc) j = Some (e', id) -> j = i.
Proof.
  intros Hk B Hu sc Hi.
  assert (Inv False sc) as I by (apply inv_run; [done|done|by apply (inv_boot False f0 rows q tz)]).
  destruct (held_job _ _ _ I _ _ _ Hi) as (Hid & s & Hs & [Hen _] & He). split; [eauto|].
  intros j e' Hj. destruct (held_job _ _ _ I _ _ _ Hj) as [Hid' _]. congruence.
Qed.

(** C40: after any operations and restarts, with the steps of fires coming in between them, the
    engine refines the table: its jobs are the enabled rows whose expression is valid. That holds
    when no statement fails and no fire writes back a row that was switched, or given another
    expression, after the fire read it. *)
Theorem scheduler_refines_table agents rows q tz sc0 steps e id :
  (forall k s, rows !! k = Some s -> sID s = k) -> boot no_failure rows q tz = Ok sc0 ->
  undisturbed dup decode_heartbeat agents (map (pair no_failure) steps) (mkFiringState sc0 []) = true ->
  let sc := fsSched (run_schedule dup decode_heartbeat agents (map (pair no_failure) steps) (mkFiringState sc0 [])) in
  (exists i, Entry (scCron sc) i = Some (e, id)) <->
  (exists s, scRows sc !! id = Some s /\ sEnabled s = true /\ sCronExpr s = e /\ valid e = true).
Proof.
  intros Hk B Hu sc. assert (Inv True sc) as I.
  { apply inv_run; [|done|by apply (inv_boot _ _ _ _ _ _ (fun _ => eq_refl) Hk B)].
    intros _. apply Forall_map, Forall_forall. done. }
  split.
  - intros [i Hi]. destruct (held_job _ _ _ I _ _ _ Hi) as (_ & s & Hs & [Hen Hv] & <-). eauto.
  - intros (s & Hs & Hen & <- & Hv). destruct (held_all _ _ _ I Logic.I id s ltac:(set_solver) Hs (conj Hen Hv)) as [i Hi].
    destruct (held_row _ _ _ _ _ I Hi) as (s' & Hs' & _ & Hj). exists i. by simplify_eq.
Qed.

(** ** Heartbeats across a restart *)

Lemma start_heartbeats l sc a id :
  scHeartbeats (fold_left start_one l sc) !! a = Some id ->
  scHeartbeats sc !! a = Some id \/
  exists s, s ∈ l /\ sAgentID s = a /\ sType s = ScheduleTypeHeartbeat.
Proof.
  revert sc. induction l as [|s l IH]; intros sc; simpl; [by left|].
  intros [Hh|(s' & ? & ?)]%IH; [|right; exists s'; split; [by right|done]].
  unfold start_one, registerCron in Hh. destruct (AddFunc _ _ _) as [[i c]|err]; simpl in Hh; [|by left].
  case_bool_decide as Ht; simpl in Hh; [|by left]. destruct (decide (sAgentID s = a)) as [Ha|Ha].
  - right. exists s. split; [by left|done].
  - rewrite lookup_insert_ne in Hh by done. by left.
Qed.

Lemma boot_heartbeats (f : Failing) rows q tz sc a id :
  boot f rows q tz = Ok sc -> scHeartbeats sc !! a = Some id ->
  exists k s, rows !! k = Some s /\ sEnabled s = true /\ sAgentID s = a /\ sType s = ScheduleTypeHeartbeat.
Proof.
  unfold boot, NewScheduler. destruct (LoadLocation tz) as [l|]; [|done]. simpl. intros [= <-].
  unfold Start, ListAllEnabledSchedules. simpl. destruct (querySchedules f sEnabled rows) as [ss|] eqn:Q; [|done].
  simpl. intros [Hh|(s & Hs & Ha & Ht)]%start_heartbeats; [done|].
  apply (query_elem _ _ _ _ _ Q) in Hs as [[k Hs] Hen]. eauto 6.
Qed.

Lemma boot_rows (f : Failing) rows q tz sc : boot f rows q tz = Ok sc -> scRows sc = rows.
Proof.
  unfold boot, NewScheduler. destruct (LoadLocation tz) as [l|]; [|done]. simpl. intros [= <-].
  unfold Start. destruct (ListAllEnabledSchedules f _) as [ss|] eqn:Q; [|done]. simpl.
  assert (forall l sc, scRows (fold_left start_one l sc) = scRows sc) as ->; [|done].
  intros l'. induction l' as [|s l' IH]; intros sc; simpl; [done|]. rewrite IH. unfold start_one.
  pose proof (registerCron_rows s sc) as Hr. destruct (registerCron s sc) as [[]]; [done|]. by case_bool_decide.
Qed.

(** an agent that is stopped disables its heartbeat; after a restart of the process the
    heartbeat can neither be enabled, configured nor pulsed: its row is still there, and
    only enabled rows are loaded. *)
Theorem heartbeat_lost a now (f : Failing) tz sc s sc1 sc2 :
  scHeartbeats sc !! a = Some (heartbeat_id a) -> scRows sc !! heartbeat_id a = Some s -> sID s = heartbeat_id a ->
  (forall k s', scRows sc !! k = Some s' -> sAgentID s' = a -> sType s' = ScheduleTypeHeartbeat -> k = heartbeat_id a) ->
  UnregisterHeartbeat no_failure a now sc = (None, sc1) -> boot f (scRows sc1) (scQueue sc1) tz = Ok sc2 ->
  forall g t agents cfg tz', EnableHeartbeat g a t sc2 = (None, sc2)
    /\ (exists err, RegisterHeartbeat dup g a cfg tz' t sc2 = (Some err, sc2))
    /\ exists err, PulseNow decode_heartbeat g agents a t t sc2 = (Some err, sc2).
Proof.
  intros Ha Hs Hid Honly Hun Hb g t agents cfg tz'.
  assert (scRows sc1 = <[heartbeat_id a := overwritten s (with_enabled s false now)]> (scRows sc)) as Hr1.
  { unfold UnregisterHeartbeat in Hun. rewrite Ha in Hun. unfold GetSchedule, UpdateSchedule in Hun.
    simpl in Hun. rewrite unregisterCron_rows, Hs in Hun. simpl in Hun. rewrite Hid, Hs in Hun.
    simpl in Hun. injection Hun as <-. done. }
  assert (scHeartbeats sc2 !! a = None) as Hnone.
  { destruct (scHeartbeats sc2 !! a) as [id|] eqn:E; [|done].
    destruct (boot_heartbeats _ _ _ _ _ _ _ Hb E) as (k & s' & Hk & Hen & Hag & Hty). rewrite Hr1 in Hk.
    apply lookup_insert_Some in Hk as [[<- <-]|[Hne Hk]]; [done|]. destruct Hne. symmetry. eauto. }
  unfold EnableHeartbeat, RegisterHeartbeat, PulseNow. rewrite Hnone. split_and!; [done| |eauto].
  unfold create_heartbeat, CreateSchedule. rewrite (boot_rows _ _ _ _ _ Hb), Hr1.
  destruct (g SCreate); simpl; [|rewrite lookup_insert_eq]; simpl; rewrite <- Hr1, <- (boot_rows _ _ _ _ _ Hb);
    rewrite set_table_id; eauto.
Qed.
End jobs.

(** * The tool ([internal/tools/scheduler])

    The tool knows the scheduler through [SchedulerManager]; [ManagerLaws] is what it relies
    on, with [mgr_rows] the rows the manager keeps and [mgr_ok] an invariant of its own. *)

Class SchedulerManager (M : Type) := {
  mgr_rows : M -> gmap string Schedule;
  mgr_Add : Failing -> Schedule -> M -> option string * M;
  mgr_Update : Failing -> Schedule -> M -> option string * M;
  mgr_Remove : Failing -> string -> M -> option string * M;
  mgr_List : Failing -> string -> M -> result string (list Schedule);
  mgr_DefaultTimezone : M -> string;
}.

Class ManagerLaws (M : Type) `{SchedulerManager M} (mgr_ok : M -> Prop) := {
  ok_keyed m id s : mgr_ok m -> mgr_rows m !! id = Some s -> sID s = id;
  add_rows f s m : mgr_rows (mgr_Add f s m).2 = mgr_rows m \/
    (mgr_rows m !! sID s = None /\ mgr_rows (mgr_Add f s m).2 = <[sID s := stored s]> (mgr_rows m));
  update_rows f s m : mgr_rows (mgr_Update f s m).2 = mgr_rows m \/
    exists old, mgr_rows m !! sID s = Some old /\
      mgr_rows (mgr_Update f s m).2 = <[sID s := overwritten old s]> (mgr_rows m);
  remove_rows f id m : mgr_rows (mgr_Remove f id m).2 = mgr_rows m \/
    mgr_rows (mgr_Remove f id m).2 = delete id (mgr_rows m);
  list_rows f a m l : mgr_List f a m = Ok l ->
    l ≡ₚ List.filter (of_agent a) (map snd (map_to_list (mgr_rows m)));
}.

Definition maxSchedulesPerAgent : nat := 10.

Definition strParam (params : list (string * any)) (key : string) : result string string :=
  match alookup key params with
  | None => Err ("missing required parameter: " +:+ key)
  | Some (AString s) => Ok s
  | Some _ => Err ("parameter " +:+ key +:+ " must be a string")
  end.

Definition strDefault (params : list (string * any)) (key def : string) : string :=
  match alookup key params with Some (AString s) => s | _ => def end.

Definition boolDefault (params : list (string * any)) (key : string) (def : bool) : bool :=
  match alookup key params with Some (ABool b) => b | _ => def end.

Definition errResp (reqID msg : string) : ToolResponse := NewToolResponse reqID false ANil msg 0.

(** A parameter of an update: a text that is not empty replaces the field. *)
Definition replaced (params : list (string * any)) (key old : string) : string :=
  match alookup key params with
  | Some (AString s) => if bool_decide (s = EmptyString) then old else s
  | _ => old
  end.

Definition is_task (s : Schedule) : bool := bool_decide (sType s = ScheduleTypeTask).

Section task_tool.
(** [rfc3339] writes a time, [uuid] is the new identifier, [ms] the duration of the call. *)
Context {M : Type} `{SchedulerManager M} (rfc3339 : Z -> string) (uuid : string) (now ms : Z) (f : Failing).

(** An error of the parameters or of the lookup is an answer. *)
Definition answer (req : ToolRequest) (m : M) {A} (r : result string A) (k : A -> ToolResponse * M) : ToolResponse * M :=
  match r with
  | inr e => (errResp (rID req) e, m)
  | inl a => k a
  end.

Definition done_or (req : ToolRequest) (context : string) (r : option string * M) (data : list (string * any))
    : ToolResponse * M :=
  match r with
  | (Some e, m) => (errResp (rID req) (wrap context e), m)
  | (None, m) => (NewToolResponse (rID req) true (AMap data) EmptyString ms, m)
  end.

Definition createTask (req : ToolRequest) (m : M) : ToolResponse * M :=
  let params := rParameters req in
  answer req m (strParam params "name") (fun name =>
  answer req m (strParam params "cron_expr") (fun cronExpr =>
  answer req m (strParam params "message") (fun message =>
    let enabled := boolDefault params "enabled" true in
    let timezone := strDefault params "timezone" (mgr_DefaultTimezone m) in
    match mgr_List f (rAgentID req) m with
    | inr e => (errResp (rID req) (wrap "failed to check existing schedules" e), m)
    | inl existing =>
      let taskCount := length (List.filter is_task existing) in
      if (maxSchedulesPerAgent <=? taskCount)%nat
      then (errResp (rID req) "maximum of 10 scheduled tasks reached", m)
      else
        let sched := mkSchedule uuid (rAgentID req) name cronExpr message "internal" ScheduleTypeTask enabled
                       timezone now now None None in
        done_or req "failed to create schedule" (mgr_Add f sched m)
          [("id", AString (sID sched)); ("name", AString (sName sched))]
    end))).

Definition task_entry (s : Schedule) : any :=
  AMap ([("id", AString (sID s)); ("name", AString (sName s)); ("cron_expr", AString (sCronExpr s));
         ("message", AString (sMessage s)); ("enabled", ABool (sEnabled s)); ("timezone", AString (sTimezone s));
         ("created_at", AString (rfc3339 (sCreatedAt s)))]
        ++ match sLastRunAt s with Some t => [("last_run_at", AString (rfc3339 t))] | None => [] end
        ++ match sNextRunAt s with Some t => [("next_run_at", AString (rfc3339 t))] | None => [] end).

Definition listTasks (req : ToolRequest) (m : M) : ToolResponse * M :=
  match mgr_List f (rAgentID req) m with
  | inr e => (errResp (rID req) (wrap "failed to list schedules" e), m)
  | inl schedules =>
    (NewToolResponse (rID req) true
       (AMap [("tasks", ATypedSlice (map task_entry (List.filter is_task schedules)))]) EmptyString ms, m)
  end.

Definition findOwnedTask (agentID scheduleID : string) (m : M) : result string Schedule :=
  match mgr_List f agentID m with
  | inr e => Err (wrap "failed to list schedules" e)
  | inl schedules =>
    match List.find (fun s => bool_decide (sID s = scheduleID)) schedules with
    | None => Err ("schedule " +:+ scheduleID +:+ " not found")
    | Some s =>
      if negb (bool_decide (sAgentID s = agentID)) then Err "schedule does not belong to this agent"
      else if negb (is_task s) then Err "cannot modify heartbeat schedules"
      else Ok s
    end
  end.

(** The task with the parameters of an update *)
Definition updated_task (params : list (string * any)) (s : Schedule) : Schedule :=
  mkSchedule (sID s) (sAgentID s) (replaced params "name" (sName s)) (replaced params "cron_expr" (sCronExpr s))
    (replaced params "message" (sMessage s)) (sChannel s) (sType s) (boolDefault params "enabled" (sEnabled s))
    (replaced params "timezone" (sTimezone s)) (sCreatedAt s) now (sLastRunAt s) (sNextRunAt s).

Definition updateTask (req : ToolRequest) (m : M) : ToolResponse * M :=
  answer req m (strParam (rParameters req) "id") (fun id =>
  answer req m (findOwnedTask (rAgentID req) id m) (fun sched =>
    done_or req "failed to update schedule" (mgr_Update f (updated_task (rParameters req) sched) m)
      [("updated", ABool true)])).

Definition deleteTask (req : ToolRequest) (m : M) : ToolResponse * M :=
  answer req m (strParam (rParameters req) "id") (fun id =>
  answer req m (findOwnedTask (rAgentID req) id m) (fun _ =>
    done_or req "failed to delete schedule" (mgr_Remove f id m) [("deleted", ABool true)])).

Definition TaskToolExecute (req : ToolRequest) (m : M) : ToolResponse * M :=
  if bool_decide (rAction req = "create_task") then createTask req m
  else if bool_decide (rAction req = "list_tasks") then listTasks req m
  else if bool_decide (rAction req = "update_task") then updateTask req m
  else if bool_decide (rAction req = "delete_task") then deleteTask req m
  else (errResp (rID req) ("unknown action: " +:+ rAction req), m).
End task_tool.

(** ** What the tool may change *)

#[local] Instance filter_permutation {A} (p : A -> bool) : Proper ((≡ₚ) ==> (≡ₚ)) (List.filter p).
Proof.
  induction 1 as [|x l l' _ IH|x y l|l l' l'' _ IH _ IH']; simpl; [done| | |by transitivity (List.filter p l')].
  - destruct (p x); [by rewrite IH|done].
  - destruct (p x), (p y); done || apply perm_swap.
Qed.

Definition own_task (a : string) (s : Schedule) : bool := of_agent a s && is_task s.

Definition count_tasks (a : string) (t : gmap string Schedule) : nat :=
  length (List.filter (own_task a) (map snd (map_to_list t))).

Lemma count_insert_new a id s t :
  t !! id = None ->
  count_tasks a (<[id := s]> t) = ((if own_task a s then 1 else 0) + count_tasks a t)%nat.
Proof.
  intros Hn. unfold count_tasks. rewrite (map_to_list_insert t id s Hn). simpl. by destruct (own_task a s).
Qed.

Lemma count_split a id s t :
  t !! id = Some s -> count_tasks a t = ((if own_task a s then 1 else 0) + count_tasks a (delete id t))%nat.
Proof.
  intros Hs. rewrite <- (insert_delete_id t id s Hs) at 1.
  apply count_insert_new. apply lookup_delete_eq.
Qed.

Lemma count_insert_same a id old s t :
  t !! id = Some old -> own_task a s = own_task a old -> count_tasks a (<[id := s]> t) = count_tasks a t.
Proof.
  intros Ho He. rewrite (count_split a id old t Ho), <- (insert_delete_eq t id s).
  rewrite count_insert_new by apply lookup_delete_eq. by rewrite He.
Qed.

Lemma count_delete a id t : (count_tasks a (delete id t) <= count_tasks a t)%nat.
Proof.
  destruct (t !! id) as [s|] eqn:Hs; [rewrite (count_split a id s t Hs); lia|].
  by rewrite delete_id.
Qed.

Section task_tool_laws.
Context {M : Type} `{SchedulerManager M} (mgr_ok : M -> Prop) `{!ManagerLaws M mgr_ok}.
Context (rfc3339 : Z -> string) (uuid : string) (now ms : Z) (f : Failing).

(** What an agent may do to the rows: change its own tasks, and add one below the limit. *)
Definition task_effect (a : string) (t t' : gmap string Schedule) : Prop :=
  (forall id, t' !! id <> t !! id ->
     (forall s, t !! id = Some s -> own_task a s = true) /\ (forall s, t' !! id = Some s -> own_task a s = true))
  /\ (count_tasks a t' <= Nat.max maxSchedulesPerAgent (count_tasks a t))%nat.

Lemma task_effect_refl a t : task_effect a t t.
Proof. split; [done|lia]. Qed.

Lemma answer_effect {A} req (m : M) (r : result string A) k a :
  (forall x, r = inl x -> task_effect a (mgr_rows m) (mgr_rows (k x).2)) ->
  task_effect a (mgr_rows m) (mgr_rows (answer req m r k).2).
Proof. intros Hk. destruct r as [x|e]; simpl; [by apply Hk|apply task_effect_refl]. Qed.

Lemma done_or_state req context r data : (done_or ms req context r data).2 = r.2 :> M.
Proof. by destruct r as [[]]. Qed.

Lemma owned_task_row a id m s :
  findOwnedTask f a id m = Ok s -> sID s = id /\ own_task a s = true
  /\ (mgr_ok m -> mgr_rows m !! id = Some s).
Proof.
  unfold findOwnedTask. destruct (mgr_List f a m) as [l|] eqn:L; [|done].
  destruct (List.find _ l) as [s'|] eqn:F; [|done]. apply find_elem_Some in F as [Hin Hid]. to_prop.
  case_bool_decide as Ha; [|done]. simpl. destruct (is_task s') eqn:Ht; [|done]. intros [= <-].
  unfold own_task, of_agent. rewrite Ht, bool_decide_eq_true_2 by done. repeat split; [done|]. intros Hok.
  rewrite (list_rows _ _ _ _ L), filter_elem in Hin. destruct Hin as [Hin _].
  apply list_elem_of_fmap in Hin as ([k s0] & -> & Hin). apply elem_of_map_to_list in Hin. simpl in *.
  by rewrite (ok_keyed _ _ _ Hok Hin) in Hid; subst.
Qed.

Lemma task_create_effect req m :
  task_effect (rAgentID req) (mgr_rows m) (mgr_rows (createTask uuid now ms f req m).2).
Proof.
  unfold createTask. do 3 (apply answer_effect; intros ? _).
  destruct (mgr_List f (rAgentID req) m) as [l|] eqn:L; [|apply task_effect_refl].
  destruct (_ <=? _)%nat eqn:Hmax; [apply task_effect_refl|]. apply Nat.leb_gt in Hmax.
  rewrite done_or_state.
  match goal with |- context [mgr_Add f ?s m] => set (sched := s) end.
  destruct (add_rows f sched m) as [->|[Hn ->]]; [apply task_effect_refl|].
  assert (own_task (rAgentID req) (stored sched) = true) as Hown.
  { unfold own_task, of_agent, is_task. simpl. by rewrite !bool_decide_eq_true_2. }
  split.
  - intros id Hd. destruct (decide (sID sched = id)) as [<-|Hne]; [|by rewrite lookup_insert_ne in Hd].
    rewrite lookup_insert_eq, Hn. split; [done|]. by intros s [= <-].
  - rewrite count_insert_new, Hown by done. rewrite (list_rows _ _ _ _ L) in Hmax.
    assert (forall l, List.filter is_task (List.filter (of_agent (rAgentID req)) l)
      = List.filter (own_task (rAgentID req)) l) as Hff.
    { intros l'. induction l' as [|s l' IH]; simpl; [done|]. unfold own_task at 1.
      destruct (of_agent _ s); simpl; [|done]. by destruct (is_task s); rewrite IH. }
    rewrite Hff in Hmax. unfold count_tasks. lia.
Qed.

Lemma task_update_effect req m :
  mgr_ok m -> task_effect (rAgentID req) (mgr_rows m) (mgr_rows (updateTask now ms f req m).2).
Proof.
  intros Hok. unfold updateTask. do 2 (apply answer_effect; intros ? ?).
  rewrite done_or_state. destruct (owned_task_row _ _ _ _ H1) as (<- & Hown & Hrow). specialize (Hrow Hok).
  match goal with |- context [mgr_Update f ?s m] => set (s' := s) end.
  destruct (update_rows f s' m) as [->|(old & Ho & ->)]; [apply task_effect_refl|].
  simpl in Ho. rewrite Hrow in Ho. injection Ho as <-.
  split.
  - intros id Hd. destruct (decide (sID s' = id)) as [<-|Hne]; [|by rewrite lookup_insert_ne in Hd].
    rewrite lookup_insert_eq. simpl. split; intros s; [rewrite Hrow|]; by intros [= <-].
  - rewrite (count_insert_same _ _ _ _ _ Hrow); [lia|done].
Qed.

Lemma task_delete_effect req m :
  mgr_ok m -> task_effect (rAgentID req) (mgr_rows m) (mgr_rows (deleteTask ms f req m).2).
Proof.
  intros Hok. unfold deleteTask. do 2 (apply answer_effect; intros ? ?).
  rewrite done_or_state. destruct (owned_task_row _ _ _ _ H1) as (<- & Hown & Hrow). specialize (Hrow Hok).
  destruct (remove_rows f (sID x0) m) as [->| ->]; [apply task_effect_refl|]. split.
  - intros id Hd. destruct (decide (sID x0 = id)) as [<-|Hne]; [|by rewrite lookup_delete_ne in Hd].
    rewrite lookup_delete_eq, Hrow. split; [|done]. by intros s [= <-].
  - pose proof (count_delete (rAgentID req) (sID x0) (mgr_rows m)). lia.
Qed.

(** whatever an agent asks of the tool, only rows that are tasks of its own change, they
    stay so, and it never has more than ten, unless it had before. *)
Theorem task_tool_confined req m :
  mgr_ok m -> task_effect (rAgentID req) (mgr_rows m) (mgr_rows (TaskToolExecute rfc3339 uuid now ms f req m).2).
Proof.
  intros Hok. unfold TaskToolExecute. repeat case_bool_decide.
  - apply task_create_effect.
  - unfold listTasks. destruct (mgr_List f _ m); apply task_effect_refl.
  - by apply task_update_effect.
  - by apply task_delete_effect.
  - apply task_effect_refl.
Qed.
End task_tool_laws.

(** The scheduler keeps what the tool relies on. *)
Section scheduler_manager.
Context `{TimeZones} `{Cron} (valid : string -> bool) `{!CronLaws valid}.
Context (dup : string) (decode_heartbeat : string -> option HeartbeatConfig).

#[export] Instance scheduler_manager : SchedulerManager Scheduler := {|
  mgr_rows := scRows;
  mgr_Add := Add dup;
  mgr_Update := Update;
  mgr_Remove := Remove;
  mgr_List := List_;
  mgr_DefaultTimezone := DefaultTimezone;
|}.

Lemma register_if_rows s context sc : scRows (register_if_enabled s context sc).2 = scRows sc.
Proof.
  unfold register_if_enabled. destruct (sEnabled s); [|done].
  pose proof (registerCron_rows s sc) as Hr. by destruct (registerCron s sc) as [[]].
Qed.

#[export] Instance scheduler_manager_laws : ManagerLaws Scheduler (Held valid False ∅).
Proof.
  split.
  - intros m id s I. apply (held_keyed _ _ _ _ I).
  - intros f s m. simpl. unfold Add, CreateSchedule. destruct (f SCreate); [by left|].
    destruct (scRows m !! sID s) eqn:E; [by left|]. right. split; [done|]. simpl. apply register_if_rows.
  - intros f s m. simpl. unfold Update. rewrite unregisterCron_rows.
    destruct (update_cases f s (scRows m)) as [(e & -> & _)|(old & Ho & _ & ->)]; [by left|].
    right. exists old. split; [done|]. simpl. apply register_if_rows.
  - intros f id m. simpl. unfold Remove, DeleteSchedule. rewrite unregisterCron_rows.
    destruct (f SDelete); [by left|]. destruct (scRows m !! id); [by right|by left].
  - intros f a m l. apply query_perm.
Qed.

(** A call of the tool is at most one operation of the scheduler. *)
Lemma task_tool_keeps (P : Scheduler -> Prop) rfc3339 uuid now ms (f : Failing) req sc :
  P sc -> (forall s, P (Add dup f s sc).2) -> (forall s, P (Update f s sc).2) -> (forall id, P (Remove f id sc).2) ->
  P (TaskToolExecute rfc3339 uuid now ms f req sc).2.
Proof.
  intros H0' Ha Hu Hr. assert (forall A (r : result string A) k, (forall x, P (k x).2) -> P (answer req sc r k).2) as Hans.
  { intros A r k Hk. by destruct r; simpl. }
  unfold TaskToolExecute. repeat case_bool_decide; [| | | |done].
  - unfold createTask. do 3 (apply Hans; intros ?). destruct (mgr_List f _ sc); [|done].
    destruct (_ <=? _)%nat; [done|]. rewrite done_or_state. apply Ha.
  - unfold listTasks. by destruct (mgr_List f _ sc).
  - unfold updateTask. do 2 (apply Hans; intros ?). rewrite done_or_state. apply Hu.
  - unfold deleteTask. do 2 (apply Hans; intros ?). rewrite done_or_state. apply Hr.
Qed.

(** a call of the tool, after any undisturbed history of the scheduler, changes tasks of its agent only,
    at most ten of them exist, and every job still is of an enabled row. *)
Theorem scheduled_tasks_confined agents (f0 : Failing) rows q tz sc0 steps rfc3339 uuid now ms (f : Failing) req :
  (forall k s, rows !! k = Some s -> sID s = k) -> boot f0 rows q tz = Ok sc0 ->
  undisturbed dup decode_heartbeat agents steps (mkFiringState sc0 []) = true ->
  let sc := fsSched (run_schedule dup decode_heartbeat agents steps (mkFiringState sc0 [])) in
  let sc' := (TaskToolExecute rfc3339 uuid now ms f req sc).2 in
  task_effect (rAgentID req) (scRows sc) (scRows sc')
  /\ forall i e id, Entry (scCron sc') i = Some (e, id) ->
       exists s, scRows sc' !! id = Some s /\ sEnabled s = true /\ sCronExpr s = e.
Proof.
  intros Hk B Hu sc sc'.
  assert (Held valid False ∅ sc) as I by (apply inv_run; [done|done|done|exact (inv_boot valid decode_heartbeat False f0 rows q tz sc0 (fun F => match F with end) Hk B)]).
  split; [exact (task_tool_confined (Held valid False ∅) rfc3339 uuid now ms f req sc I)|].
  assert (Held valid False ∅ sc') as I'.
  { apply task_tool_keeps; [done|intros s; by apply inv_add|intros s; by apply inv_update|intros s; by apply inv_remove]. }
  intros i e id Hi. destruct (held_job _ _ _ _ I' _ _ _ Hi) as (_ & s & Hs & [Hen _] & He). eauto.
Qed.
End scheduler_manager.

(** * Quiet hours *)

Definition digit (n : Z) : string := String (of_byte (48 + n)) EmptyString.

(** ["HH:MM"] *)
Definition hhmm (h m : Z) : string :=
  (digit (h / 10) +:+ digit (h mod 10)) +:+ ":" +:+ digit (m / 10) +:+ digit (m mod 10).

Definition clock_times : list (Z * Z) :=
  flat_map (fun h => map (fun m => (Z.of_nat h, Z.of_nat m)) (seq 0 60)) (seq 0 24).

Lemma clock_time_elem h m : 0 <= h < 24 -> 0 <= m < 60 -> (h, m) ∈ clock_times.
Proof.
  intros Hh Hm. apply list_elem_of_In, in_flat_map. exists (Z.to_nat h). split; [apply in_seq; lia|].
  apply in_map_iff. exists (Z.to_nat m). split; [f_equal; lia|apply in_seq; lia].
Qed.

Lemma hhmm_facts h m : 0 <= h < 24 -> 0 <= m < 60 ->
  parseHHMM (trim_space (hhmm h m)) = Some (h, m) /\ str_elem "-" (hhmm h m) = false
  /\ parseHHMM (trim_space (hhmm h m)) = parseHHMM (hhmm h m).
Proof.
  intros Hh Hm.
  assert (forallb (fun t => bool_decide (parseHHMM (trim_space (hhmm t.1 t.2)) = Some t)
    && negb (str_elem "-" (hhmm t.1 t.2)) && bool_decide (parseHHMM (hhmm t.1 t.2) = Some t)) clock_times = true) as Hall
    by (vm_compute; reflexivity).
  pose proof (proj1 (forallb_elem _ _) Hall _ (clock_time_elem h m Hh Hm)) as Hb. cbn [fst snd] in Hb. to_prop.
  split_and!; [done|done|by transitivity (Some (h, m))].
Qed.

Lemma cut_at (c : ascii) a b :
  str_elem c a = false -> cut (a +:+ String c b) (String c EmptyString) = (a, b, true).
Proof.
  intros Ha. unfold cut. assert (str_index (a +:+ String c b) (String c EmptyString) = Some (String.length a)) as ->.
  { induction a as [|x a IH]; simpl in *; unfold has_prefix; simpl; [by rewrite Ascii.eqb_refl|].
    apply orb_false_iff in Ha as [Hx Ha]. rewrite Ascii.eqb_sym, Hx. by rewrite IH. }
  rewrite str_take_app. change (String c b) with (String c EmptyString +:+ b).
  rewrite str_app_assoc, <- (str_length_app a (String c EmptyString)). by rewrite str_drop_app.
Qed.

Section quiet.
Context `{TimeZones}.

(** The minutes from [start] to [now] on a clock of 24 hours. *)
Definition since (start now : Z) : Z := (now - start) mod 1440.

(** a range of quiet hours is the interval of the clock from its start to its end, also when
    it passes midnight; a range from a time to itself is empty. *)
Theorem quiet_hours_interval h1 m1 h2 m2 tz t loc hour minute :
  0 <= h1 < 24 -> 0 <= m1 < 60 -> 0 <= h2 < 24 -> 0 <= m2 < 60 ->
  LoadLocation tz = Ok loc -> hour_minute loc t = (hour, minute) -> 0 <= hour < 24 -> 0 <= minute < 60 ->
  IsInQuietHours (hhmm h1 m1 +:+ "-" +:+ hhmm h2 m2) tz t
    = (since (h1 * 60 + m1) (hour * 60 + minute) <? since (h1 * 60 + m1) (h2 * 60 + m2)).
Proof.
  intros Hh1 Hm1 Hh2 Hm2 Hl Ht Hh Hm. destruct (hhmm_facts h1 m1 Hh1 Hm1) as (P1 & N1 & _).
  destruct (hhmm_facts h2 m2 Hh2 Hm2) as (P2 & _ & _).
  unfold IsInQuietHours. rewrite bool_decide_eq_false_2 by done.
  change ("-" +:+ hhmm h2 m2) with (String "-" (hhmm h2 m2)). rewrite cut_at by done. unfold Ok in Hl. rewrite P1, P2, Hl, Ht.
  unfold since. set (s := h1 * 60 + m1). set (e := h2 * 60 + m2). set (n := hour * 60 + minute).
  assert (0 <= s < 1440 /\ 0 <= e < 1440 /\ 0 <= n < 1440) as (? & ? & ?) by lia.
  assert (forall x, 0 <= x < 1440 -> (x - s) mod 1440 = if s <=? x then x - s else x - s + 1440) as Hmod.
  { intros x Hx. destruct (s <=? x) eqn:E; to_prop; symmetry;
      [apply (Z.mod_unique_pos _ _ 0)|apply (Z.mod_unique_pos _ _ (-1))]; lia. }
  rewrite !Hmod by done. destruct (s <=? e) eqn:E1, (s <=? n) eqn:E2; to_prop; simpl;
    destruct (n <? e) eqn:E3; to_prop; symmetry; (apply Z.ltb_lt || apply Z.ltb_ge); lia.
Qed.
End quiet.

(** * Witnesses

    An engine that keeps a list of jobs and takes every expression but ["bad"], and a world
    whose only zone is UTC. *)

Fixpoint job_at (l : list (Z * (string * string))) (i : Z) : option (string * string) :=
  match l with
  | [] => None
  | (k, j) :: l' => if decide (i = k) then Some j else job_at l' i
  end.

Definition next_id (l : list (Z * (string * string))) : Z := foldr (fun e n => Z.max (e.1 + 1) n) 1 l.

Definition taken (e : string) : bool := negb (bool_decide (e = "bad")).

#[local] Instance list_engine : Cron := {|
  Engine := list (Z * (string * string));
  NewEngine := [];
  AddFunc l expr job := if bool_decide (expr = "bad") then Err "expected exactly 5 fields"
                        else Ok (next_id l, (next_id l, (expr, job)) :: l);
  RemoveEntry l i := List.filter (fun e => negb (e.1 =? i)) l;
  StartEngine l := l;
  StopEngine l := l;
  Entry := job_at;
  EntryNext l i := (fun _ => 7200000000000) <$> job_at l i;
|}.

Lemma next_id_fresh l i : next_id l <= i -> job_at l i = None.
Proof. induction l as [|[k j] l IH]; simpl; [done|]. intros Hi. rewrite decide_False by lia. apply IH. lia. Qed.

#[local] Instance list_engine_laws : CronLaws taken.
Proof.
  split; unfold taken; simpl; try done.
  - intros c expr job. case_bool_decide; simpl; split; try done.
    + by intros [r ?].
    + intros _. eexists. reflexivity.
  - intros c expr job i c'. case_bool_decide; [done|]. intros [= <- <-].
    split; [by apply next_id_fresh|]. intros k. simpl. by case_decide.
  - intros c i k. induction c as [|[n j] c IH]; simpl; [by case_decide|].
    destruct (n =? i) eqn:E; to_prop; simpl; [subst n|].
    + rewrite IH. repeat case_decide; done.
    + rewrite IH. repeat case_decide; congruence.
Qed.

#[local] Instance utc_only : TimeZones := {|
  Location := unit;
  LoadLocation tz := if bool_decide (tz = "UTC") then Ok tt else Err ("unknown time zone " +:+ tz);
  location_name _ := "UTC";
  UTC := tt;
  hour_minute _ t := let m := (t / (60 * second)) mod 1440 in (m / 60, m mod 60);
|}.

Definition example_task (id a expr : string) (enabled : bool) : Schedule :=
  mkSchedule id a "Report" expr "Write the report" "internal" ScheduleTypeTask enabled "UTC" 0 0 None None.

Definition example_table : gmap string Schedule :=
  list_to_map [("t1", example_task "t1" "alice" "@daily" true); ("t2", example_task "t2" "bob" "@hourly" true);
               ("t3", example_task "t3" "bob" "@hourly" false)].

Definition example_queue : PostgresQueue := NewPostgresQueue ∅ 1 "node" None.
Definition pulse_config : HeartbeatConfig := mkHeartbeatConfig true "1h" "Look around" "22:00-07:00".
Definition example_decode (text : string) : option HeartbeatConfig :=
  if bool_decide (text = "on") then Some pulse_config else None.
Definition example_agents (a : string) : option string := if bool_decide (a = "alice") then Some "on" else None.

(** The table on disk at start-up; a heartbeat, an update, a task switched off while the fire of
    another is under way, and on again; a fire whose row is removed before it is written back. *)
Definition example_ops : list SchedStep :=
  [StepOp (OpRegisterHeartbeat "alice" pulse_config "UTC" 1000000000); StepJob 2;
   StepOp (OpUpdate (example_task "t2" "bob" "bad" true)); StepRead 0;
   StepOp (OpToggle "t1" 2000000000); StepSend 0 43200000000000; StepOp (OpToggle "t1" 3000000000);
   StepSave 0 43200000000000; StepPulse "alice"; StepRead 0; StepSend 0 43200000000000;
   StepOp (OpRemove "t3"); StepSave 0 43200000000000; StepOp (OpRestart "UTC"); StepOp (OpToggle "t1" 4000000000)].

Definition example_start : Scheduler := fold_left start_one
  (match ListAllEnabledSchedules no_failure example_table with inl l => l | inr _ => [] end)
  (mkScheduler example_table example_queue NewEngine (Some tt) ∅ ∅).

Lemma example_keyed k s : example_table !! k = Some s -> sID s = k.
Proof.
  intros Hs. assert (map_Forall (fun k s => sID s = k) example_table) as Ha; [|by apply Ha].
  unfold example_table. simpl. repeat (apply map_Forall_insert_2; [done|]). apply map_Forall_empty.
Qed.

Lemma scheduler_refines_table_witness :
  (exists i, Entry (scCron (fsSched (run_schedule "duplicate" example_decode example_agents
      (map (pair no_failure) example_ops) (mkFiringState example_start [])))) i = Some ("@every 1h", "hb-alice"))
  <-> (exists s, scRows (fsSched (run_schedule "duplicate" example_decode example_agents
      (map (pair no_failure) example_ops) (mkFiringState example_start []))) !! "hb-alice" = Some s /\ sEnabled s = true
      /\ sCronExpr s = "@every 1h" /\ taken "@every 1h" = true).
Proof.
  apply (scheduler_refines_table taken "duplicate" example_decode
    example_agents example_table example_queue "UTC" example_start example_ops).
  - exact example_keyed.
  - reflexivity.
  - vm_compute. reflexivity.
Defined.

Lemma jobs_are_enabled_rows_witness :
  (exists s, scRows (fsSched (run_schedule "duplicate" example_decode example_agents
      (map (pair no_failure) example_ops) (mkFiringState example_start []))) !! "hb-alice" = Some s
      /\ sEnabled s = true /\ sCronExpr s = "@every 1h")
  /\ forall j e', Entry (scCron (fsSched (run_schedule "duplicate" example_decode example_agents
      (map (pair no_failure) example_ops) (mkFiringState example_start [])))) j = Some (e', "hb-alice") -> j = 2.
Proof.
  apply (jobs_are_enabled_rows taken "duplicate" example_decode example_agents no_failure example_table
    example_queue "UTC" example_start (map (pair no_failure) example_ops) 2 "@every 1h" "hb-alice").
  - exact example_keyed.
  - reflexivity.
  - vm_compute. reflexivity.
  - vm_compute. reflexivity.
Defined.

#[local] Instance example_manager : SchedulerManager Scheduler := scheduler_manager "duplicate".

Definition create_request (a : string) : ToolRequest :=
  NewToolRequest "r" a "scheduler" "create_task"
    [("name", AString "Weekly"); ("cron_expr", AString "@weekly"); ("message", AString "Plan the week")].

Lemma scheduled_tasks_confined_witness :
  task_effect "bob" (scRows example_start)
    (scRows (TaskToolExecute (fun _ => EmptyString) "u1" 0 0 no_failure (create_request "bob") example_start).2)
  /\ forall i e id, Entry (scCron (TaskToolExecute (fun _ => EmptyString) "u1" 0 0 no_failure (create_request "bob")
       example_start).2) i = Some (e, id) ->
     exists s, scRows (TaskToolExecute (fun _ => EmptyString) "u1" 0 0 no_failure (create_request "bob")
       example_start).2 !! id = Some s /\ sEnabled s = true /\ sCronExpr s = e.
Proof.
  apply (scheduled_tasks_confined taken "duplicate" example_decode example_agents no_failure example_table
    example_queue "UTC" example_start [] (fun _ => EmptyString) "u1" 0 0 no_failure (create_request "bob")).
  - exact example_keyed.
  - reflexivity.
  - reflexivity.
Defined.

Example scheduled_task_created :
  let '(resp, sc) := TaskToolExecute (fun _ => EmptyString) "u1" 5000000000 3 no_failure (create_request "bob") example_start in
  resp = NewToolResponse "r" true (AMap [("id", AString "u1"); ("name", AString "Weekly")]) EmptyString 3
  /\ sMessage <$> scRows sc !! "u1" = Some "Plan the week" /\ Entry (scCron sc) 3 = Some ("@weekly", "u1").
Proof. vm_compute. repeat split. Qed.

Lemma quiet_hours_interval_witness :
  IsInQuietHours (hhmm 22 0 +:+ "-" +:+ hhmm 7 0) "UTC" (23 * 3600 * second)
    = (since (22 * 60 + 0) (23 * 60 + 0) <? since (22 * 60 + 0) (7 * 60 + 0))
  /\ IsInQuietHours (hhmm 22 0 +:+ "-" +:+ hhmm 7 0) "UTC" (23 * 3600 * second) = true.
Proof.
  split; [|vm_compute; reflexivity].
  apply (quiet_hours_interval (H:=utc_only) 22 0 7 0 "UTC" (23 * 3600 * second) tt 23 0); try lia; reflexivity.
Defined.

(** A process in which the heartbeat of alice was registered, and stopped *)
Definition pulsed : Scheduler := (RegisterHeartbeat "duplicate" no_failure "alice" pulse_config "UTC" 0 example_start).2.
Definition stopped : Scheduler := (UnregisterHeartbeat no_failure "alice" 0 pulsed).2.
Definition restarted : Scheduler :=
  match boot no_failure (scRows stopped) (scQueue stopped) "UTC" with inl sc => sc | inr _ => stopped end.

Lemma heartbeat_lost_witness :
  EnableHeartbeat no_failure "alice" 1 restarted = (None, restarted)
    /\ (exists err, RegisterHeartbeat "duplicate" no_failure "alice" pulse_config "UTC" 1 restarted = (Some err, restarted))
    /\ exists err, PulseNow example_decode no_failure (fun _ => None) "alice" 1 1 restarted = (Some err, restarted).
Proof.
  apply (heartbeat_lost "duplicate" example_decode "alice" 0 no_failure "UTC" pulsed
    (stored (new_heartbeat "alice" pulse_config "UTC" 0)) stopped restarted).
  - reflexivity.
  - reflexivity.
  - reflexivity.
  - assert (map_Forall (fun k s => sAgentID s = "alice" -> sType s = ScheduleTypeHeartbeat -> k = heartbeat_id "alice")
      (scRows pulsed)) as Hall; [|exact Hall].
    apply map_Forall_to_list. vm_compute. repeat constructor; intros; discriminate.
  - reflexivity.
  - reflexivity.
Defined.

(** ** What happens when a fire meets an operation *)

(** An operator switches a task off while its message is being sent: the row written back is the
    one that was read, so the task is on again, without a job. *)
Example stale_run_undoes_toggle :
  match job_row no_failure "t1" example_start with
  | Some row =>
    let '(sent, sc1) := fire_send example_decode no_failure example_agents 0 row example_start in
    let sc2 := (Toggle no_failure "t1" 0 sc1).2 in
    let sc3 := fire_save no_failure 0 row sc2 in
    sent = true /\ sEnabled <$> scRows sc2 !! "t1" = Some false /\ sEnabled <$> scRows sc3 !! "t1" = Some true
    /\ scEntries sc3 !! "t1" = None
  | None => False
  end.
Proof. vm_compute. repeat split. Qed.

(** A pulse of a disabled heartbeat that is enabled meanwhile: the row is disabled again while
    its job lives on, and when it is switched on once more there are two jobs; the first is out of
    the scheduler's reach, so that switching off and on adds up. *)
Example stale_pulse_doubles_jobs :
  let fetched := GetSchedule no_failure "hb-alice" (scRows stopped) in
  match fetched with
  | inl row =>
    let sc1 := (EnableHeartbeat no_failure "alice" 0 (fire_send example_decode no_failure example_agents 0 row stopped).2).2 in
    let sc2 := fire_save no_failure 0 row sc1 in
    let sc3 := (Toggle no_failure "hb-alice" 0 sc2).2 in
    length (List.filter (fun e => bool_decide (e.2.2 = "hb-alice")) (scCron sc3)) = 2%nat
    /\ length (List.filter (fun e => bool_decide (e.2.2 = "hb-alice")) (scCron (Toggle no_failure "hb-alice" 0 sc3).2)) = 1%nat
  | inr _ => False
  end.
Proof. vm_compute. repeat split. Qed.

(** A task whose expression is refused stays in the table, although its creation failed. *)
Example refused_task_stored :
  let r := Add "duplicate" no_failure (example_task "t9" "bob" "bad" true) example_start in
  r.1 <> None /\ is_Some (scRows r.2 !! "t9") /\ scEntries r.2 !! "t9" = None.
Proof. vm_compute. split; [discriminate|]. split; [eexists; reflexivity|reflexivity]. Qed.

(** The preview of expressions that run every minute, or every hour *)
Example previews :
  CronPreview "* * * * *" = "Daily at *:0*" /\ CronPreview "0 * * * *" = "Daily at *:00"
  /\ CronPreview "30 7 * * 1-5" = "Weekdays at 7:30" /\ CronPreview (intervalToCron "4h") = "Every 4h"
  /\ CronPreview "*/15 * * * *" = "Every 15 minutes" /\ CronPreview "0 */2 * * *" = "Every 2 hours".
Proof. vm_compute. repeat split. Qed.

(** Digits beyond 64 bits wrap around and are accepted. *)
Example atoi_wraps : atoi "18446744073709551623" = 7 /\ parseHHMM "18446744073709551623:00" = Some (7, 0).
Proof. vm_compute. repeat split. Qed.
