(* ===== verification/Access.v ===== *)
(** Who may do what on the dashboard: roles and permissions ([internal/auth]), users, groups and
    sessions ([internal/users] and their tables), and the middleware that stands before every
    handler ([web/handlers/middleware.go]).

    The state [AccessDB] is the tables.  Hashing is the class [Bcrypt]; the parts of a URL
    the code looks at are given with the request.  Every statement may fail: [f] maps the context
    the code gives the error to the text of the failure.

    [agent_request_allowed_iff] says which requests reach a handler of an agent: those of a live
    session of an active user who is an administrator, or who holds a role that grants the
    permission in a group of the agent; one that changes something passes only if its headers
    name no other host.  What becomes of sessions over histories is in [AccessRuns]. *)

From Stdlib Require Import Sorted.
From S2P Require Import Prelude GoString Queue.
#[local] Open Scope Z_scope.

(** * Roles ([permissions.go]) *)

Definition RoleViewer : string := "viewer".
Definition RoleOperator : string := "operator".
Definition RoleManager : string := "manager".
Definition RoleAdmin : string := "admin".

Definition defaultRoleOrder : list string := [RoleViewer; RoleOperator; RoleManager; RoleAdmin].

(** The map [RolePermissions]; a role it does not have gives the empty slice. *)
Definition RolePermissions (role : string) : list string :=
  if bool_decide (role = RoleViewer) then
    ["agent.view"; "memory.view"; "history.view"; "spending.view"; "agent.chat"]
  else if bool_decide (role = RoleOperator) then
    ["agent.start"; "agent.stop"; "agent.kill"; "agent.quarantine"; "audit.view"; "teams.view"; "security.view"]
  else if bool_decide (role = RoleManager) then
    ["agent.create"; "agent.edit"; "memory.edit"; "spending.adjust"; "permissions.view"; "permissions.edit";
     "teams.manage"; "webhooks.manage"; "skills.manage"; "integrations.manage"; "capabilities.manage"]
  else if bool_decide (role = RoleAdmin) then
    ["agent.create.unrestricted"; "agent.delete"; "memory.bulk_delete"; "secrets.manage"; "users.manage";
     "templates.manage"; "backup.manage"; "system.config"; "api_keys.manage"; "providers.manage"; "channels.manage"]
  else [].

(** The loop of [roleIndex] *)
Fixpoint index_from (i : Z) (l : list string) (role : string) : Z :=
  match l with
  | [] => -1
  | r :: l' => if bool_decide (r = role) then i else index_from (i + 1) l' role
  end.

Definition roleIndex (role : string) : Z := index_from 0 defaultRoleOrder role.

Definition IsDefaultRole (role : string) : bool := 0 <=? roleIndex role.

Definition effectivePermissions (role : string) : gset string :=
  let idx := roleIndex role in
  if 0 <=? idx
  then ⋃ (map (fun r => list_to_set (RolePermissions r)) (take (Z.to_nat idx + 1) defaultRoleOrder))
  else list_to_set (RolePermissions role).

Definition Can (role permission : string) : bool := bool_decide (permission ∈ effectivePermissions role).

Definition CanAny (role : string) (permissions : list string) : bool :=
  existsb (fun p => bool_decide (p ∈ effectivePermissions role)) permissions.

Definition MorePermissiveRole (a b : string) : string :=
  let ia := roleIndex a in
  let ib := roleIndex b in
  if (ia <? 0) || (ib <? 0) then a else if ia <? ib then b else a.

(** The loop of [highestDefaultRole] *)
Definition highestDefaultRole (roles : list string) : string :=
  fold_left (fun top role =>
    if negb (IsDefaultRole role) then top
    else if bool_decide (top = EmptyString) then role
    else MorePermissiveRole top role) roles EmptyString.

(** * Tables *)

Record User := mkUser {
  uID : string;
  uUsername : string;
  uPasswordHash : string;
  uDisplayName : string;
  uIsAdmin : bool;
  uIsActive : bool;
  uCreatedAt : Z;
  uLastLoginAt : option Z;
  uForcePasswordChange : bool;
}.

Record AgentGroup := mkAgentGroup {
  gID : string;
  gName : string;
  gDescription : string;
  gCreatedAt : Z;
}.

Record UserSession := mkUserSession {
  ssID : string;
  ssUserID : string;
  ssCreatedAt : Z;
  ssExpiresAt : Z;
  ssLastSeenAt : option Z;
  ssIPAddress : string;
  ssUserAgent : string;
  ssRevokedAt : option Z;
}.

(** The tables [users], [agent_groups], [agent_group_members] (agent and group),
    [user_group_roles] (user and group), [sessions]; the keys of [agents]; and the file of
    bootstrap credentials. *)
Record AccessDB := mkAccessDB {
  dbUsers : gmap string User;
  dbGroups : gmap string AgentGroup;
  dbMembers : gset (string * string);
  dbRoles : gmap (string * string) string;
  dbSessions : gmap string UserSession;
  dbAgents : gset string;
  dbCreds : option string;
}.

Section access_update.
Context (d : AccessDB).
Definition set_users (m : gmap string User) : AccessDB :=
  mkAccessDB m (dbGroups d) (dbMembers d) (dbRoles d) (dbSessions d) (dbAgents d) (dbCreds d).
Definition set_groups (m : gmap string AgentGroup) : AccessDB :=
  mkAccessDB (dbUsers d) m (dbMembers d) (dbRoles d) (dbSessions d) (dbAgents d) (dbCreds d).
Definition set_members (m : gset (string * string)) : AccessDB :=
  mkAccessDB (dbUsers d) (dbGroups d) m (dbRoles d) (dbSessions d) (dbAgents d) (dbCreds d).
Definition set_roles (m : gmap (string * string) string) : AccessDB :=
  mkAccessDB (dbUsers d) (dbGroups d) (dbMembers d) m (dbSessions d) (dbAgents d) (dbCreds d).
Definition set_sessions (m : gmap string UserSession) : AccessDB :=
  mkAccessDB (dbUsers d) (dbGroups d) (dbMembers d) (dbRoles d) m (dbAgents d) (dbCreds d).
Definition set_creds (c : option string) : AccessDB :=
  mkAccessDB (dbUsers d) (dbGroups d) (dbMembers d) (dbRoles d) (dbSessions d) (dbAgents d) c.
End access_update.

Inductive AccessError : Type :=
| ErrUserNotFound
| ErrPermissionDenied
| ErrSessionNotFound
| ErrGroupNotFound
| ErrNotFound
| ErrText (text : string)
| ErrWrap (context : string) (e : AccessError).

#[global] Instance AccessError_eq_dec : EqDecision AccessError.
Proof. solve_decision. Defined.

(** [errors.Is] for the errors that are values of their own *)
Fixpoint error_is (e target : AccessError) : bool :=
  match e with
  | ErrWrap _ e' => error_is e' target
  | _ => bool_decide (e = target)
  end.

Notation Failures := (string -> option string).
Definition all_succeed : Failures := fun _ => None.

(** A statement that fails with the text [f] gives for its context, or runs. *)
Definition stmt {A} (f : Failures) (context : string) (run : result AccessError A) : result AccessError A :=
  match f context with
  | Some text => Err (ErrWrap context (ErrText text))
  | None => run
  end.

(** PostgreSQL keeps microseconds, rounded. *)
Definition pg_time (t : Z) : Z := (t + 500) / 1000 * 1000.

Definition constraint_error (context : string) : AccessError := ErrWrap context (ErrText "pq: constraint violation").

(** ** Users *)

Definition user_row (u : User) : User :=
  mkUser (uID u) (uUsername u) (uPasswordHash u) (uDisplayName u) (uIsAdmin u) (uIsActive u)
    (db_time (uCreatedAt u)) (db_time <$> uLastLoginAt u) (uForcePasswordChange u).

Definition has_username (name : string) (u : User) : bool := bool_decide (uUsername u = name).

Definition users_list (d : AccessDB) : list User := map snd (map_to_list (dbUsers d)).

(** [CreateUser] of the store: the key and the name are unique. *)
Definition insert_user (f : Failures) (u : User) (d : AccessDB) : result AccessError AccessDB :=
  stmt f "create user"
    (if bool_decide (is_Some (dbUsers d !! uID u)) || existsb (has_username (uUsername u)) (users_list d)
     then Err (constraint_error "create user")
     else Ok (set_users d (<[uID u := user_row u]> (dbUsers d)))).

Definition GetUser (f : Failures) (id : string) (d : AccessDB) : result AccessError User :=
  stmt f "scan user" (match dbUsers d !! id with Some u => Ok u | None => Err ErrUserNotFound end).

Definition GetUserByUsername (f : Failures) (name : string) (d : AccessDB) : result AccessError User :=
  stmt f "scan user" (match List.find (has_username name) (users_list d) with
                      | Some u => Ok u | None => Err ErrUserNotFound end).

Definition ListUsers (f : Failures) (d : AccessDB) : result AccessError (list User) :=
  stmt f "list users" (Ok (users_list d)).

(** [UpdateUser]: every column but the creation time. *)
Definition updated_user (old u : User) : User :=
  mkUser (uID old) (uUsername u) (uPasswordHash u) (uDisplayName u) (uIsAdmin u) (uIsActive u)
    (uCreatedAt old) (db_time <$> uLastLoginAt u) (uForcePasswordChange u).

Definition UpdateUser (f : Failures) (u : User) (d : AccessDB) : result AccessError AccessDB :=
  stmt f "update user"
    match dbUsers d !! uID u with
    | None => Err ErrUserNotFound
    | Some old =>
      if existsb (fun x => has_username (uUsername u) x && negb (bool_decide (uID x = uID u))) (users_list d)
      then Err (constraint_error "update user")
      else Ok (set_users d (<[uID u := updated_user old u]> (dbUsers d)))
    end.

(** Deleting a user deletes the user's roles and sessions. *)
Definition delete_user (f : Failures) (id : string) (d : AccessDB) : result AccessError AccessDB :=
  stmt f "delete user"
    match dbUsers d !! id with
    | None => Err ErrUserNotFound
    | Some _ =>
      let d1 := set_users d (delete id (dbUsers d)) in
      let d2 := set_roles d1 (filter (fun kv => kv.1.1 <> id) (dbRoles d1)) in
      Ok (set_sessions d2 (filter (fun kv => ssUserID kv.2 <> id) (dbSessions d2)))
    end.

(** ** Groups *)

Definition group_list (d : AccessDB) : list AgentGroup := map snd (map_to_list (dbGroups d)).

Definition CreateAgentGroup (f : Failures) (g : AgentGroup) (d : AccessDB) : result AccessError AccessDB :=
  stmt f "create group"
    (if bool_decide (is_Some (dbGroups d !! gID g)) || existsb (fun x => bool_decide (gName x = gName g)) (group_list d)
     then Err (constraint_error "create group")
     else Ok (set_groups d (<[gID g := mkAgentGroup (gID g) (gName g) (gDescription g) (db_time (gCreatedAt g))]>
                (dbGroups d)))).

Definition GetAgentGroup (f : Failures) (id : string) (d : AccessDB) : result AccessError AgentGroup :=
  stmt f "get group" (match dbGroups d !! id with Some g => Ok g | None => Err ErrGroupNotFound end).

Definition UpdateAgentGroup (f : Failures) (g : AgentGroup) (d : AccessDB) : result AccessError AccessDB :=
  stmt f "update group"
    match dbGroups d !! gID g with
    | None => Err ErrGroupNotFound
    | Some old =>
      if existsb (fun x => bool_decide (gName x = gName g) && negb (bool_decide (gID x = gID g))) (group_list d)
      then Err (constraint_error "update group")
      else Ok (set_groups d (<[gID g := mkAgentGroup (gID old) (gName g) (gDescription g) (gCreatedAt old)]> (dbGroups d)))
    end.

(** Deleting a group deletes its members and roles. *)
Definition DeleteAgentGroup (f : Failures) (id : string) (d : AccessDB) : result AccessError AccessDB :=
  stmt f "delete group"
    match dbGroups d !! id with
    | None => Err ErrGroupNotFound
    | Some _ =>
      let d1 := set_groups d (delete id (dbGroups d)) in
      let d2 := set_members d1 (filter (fun m => m.2 <> id) (dbMembers d1)) in
      Ok (set_roles d2 (filter (fun kv => kv.1.2 <> id) (dbRoles d2)))
    end.

Definition SetAgentGroupMember (f : Failures) (agentID groupID : string) (d : AccessDB) : result AccessError AccessDB :=
  stmt f "set group member"
    (if bool_decide (agentID ∈ dbAgents d) && bool_decide (is_Some (dbGroups d !! groupID))
     then Ok (set_members d ({[(agentID, groupID)]} ∪ dbMembers d))
     else Err (constraint_error "set group member")).

Definition RemoveAgentGroupMember (f : Failures) (agentID groupID : string) (d : AccessDB) : result AccessError AccessDB :=
  stmt f "remove group member"
    (if bool_decide ((agentID, groupID) ∈ dbMembers d)
     then Ok (set_members d (dbMembers d ∖ {[(agentID, groupID)]}))
     else Err ErrNotFound).

Definition ListAgentIDsByGroup (f : Failures) (groupID : string) (d : AccessDB) : result AccessError (list string) :=
  stmt f "list group agents" (Ok (map fst (List.filter (fun m => bool_decide (m.2 = groupID)) (elements (dbMembers d))))).

Definition ListGroupIDsByAgent (f : Failures) (agentID : string) (d : AccessDB) : result AccessError (list string) :=
  stmt f "list agent groups" (Ok (map snd (List.filter (fun m => bool_decide (m.1 = agentID)) (elements (dbMembers d))))).

Definition SetUserGroupRole (f : Failures) (userID groupID role : string) (d : AccessDB) : result AccessError AccessDB :=
  stmt f "set user group role"
    (if bool_decide (is_Some (dbUsers d !! userID)) && bool_decide (is_Some (dbGroups d !! groupID))
     then Ok (set_roles d (<[(userID, groupID) := role]> (dbRoles d)))
     else Err (constraint_error "set user group role")).

Definition DeleteUserGroupRole (f : Failures) (userID groupID : string) (d : AccessDB) : result AccessError AccessDB :=
  stmt f "delete user group role"
    match dbRoles d !! (userID, groupID) with
    | None => Err ErrNotFound
    | Some _ => Ok (set_roles d (delete (userID, groupID) (dbRoles d)))
    end.

(** The groups of a user with the role in each *)
Definition ListUserGroupRoles (f : Failures) (userID : string) (d : AccessDB) : result AccessError (list (string * string)) :=
  stmt f "list user group roles"
    (Ok (map (fun kv => (kv.1.2, kv.2))
       (List.filter (fun kv => bool_decide (kv.1.1 = userID)) (map_to_list (dbRoles d))))).

(** ** Sessions *)

Definition session_row (s : UserSession) : UserSession :=
  mkUserSession (ssID s) (ssUserID s) (pg_time (ssCreatedAt s)) (pg_time (ssExpiresAt s))
    (db_time <$> ssLastSeenAt s) (ssIPAddress s) (ssUserAgent s) (db_time <$> ssRevokedAt s).

Definition CreateSession (f : Failures) (s : UserSession) (d : AccessDB) : result AccessError AccessDB :=
  stmt f "create session"
    (if bool_decide (is_Some (dbSessions d !! ssID s)) || bool_decide (dbUsers d !! ssUserID s = None)
     then Err (constraint_error "create session")
     else Ok (set_sessions d (<[ssID s := session_row s]> (dbSessions d)))).

Definition GetSession (f : Failures) (id : string) (d : AccessDB) : result AccessError UserSession :=
  stmt f "get session" (match dbSessions d !! id with Some s => Ok s | None => Err ErrSessionNotFound end).

Definition DeleteSession (f : Failures) (id : string) (d : AccessDB) : result AccessError AccessDB :=
  stmt f "delete session"
    match dbSessions d !! id with
    | None => Err ErrSessionNotFound
    | Some _ => Ok (set_sessions d (delete id (dbSessions d)))
    end.

Definition UpdateSessionLastSeen (f : Failures) (id : string) (now : Z) (d : AccessDB) : result AccessError AccessDB :=
  stmt f "update session last_seen"
    match dbSessions d !! id with
    | None => Err ErrSessionNotFound
    | Some s => Ok (set_sessions d (<[id := mkUserSession (ssID s) (ssUserID s) (ssCreatedAt s) (ssExpiresAt s)
                      (Some (db_time now)) (ssIPAddress s) (ssUserAgent s) (ssRevokedAt s)]> (dbSessions d)))
    end.

Definition expired (now : Z) (s : UserSession) : bool :=
  (ssExpiresAt s <=? db_time now) || bool_decide (is_Some (ssRevokedAt s)).

Definition DeleteExpiredSessions (f : Failures) (now : Z) (d : AccessDB) : result AccessError AccessDB :=
  stmt f "delete expired sessions" (Ok (set_sessions d (filter (fun kv => expired now kv.2 = false) (dbSessions d)))).

Definition DeleteSessionsByUserID (f : Failures) (userID : string) (d : AccessDB) : result AccessError AccessDB :=
  stmt f "delete sessions by user" (Ok (set_sessions d (filter (fun kv => ssUserID kv.2 <> userID) (dbSessions d)))).

(** [ORDER BY created_at DESC] *)
Fixpoint insert_newest (s : UserSession) (l : list UserSession) : list UserSession :=
  match l with
  | [] => [s]
  | x :: l' => if ssCreatedAt x <=? ssCreatedAt s then s :: l else x :: insert_newest s l'
  end.

Definition live_sessions (userID : string) (d : AccessDB) : list UserSession :=
  foldr insert_newest [] (List.filter (fun s => bool_decide (ssUserID s = userID) && bool_decide (ssRevokedAt s = None))
    (map snd (map_to_list (dbSessions d)))).

(** The loop of [EnforceSessionLimit]: one statement per session; an error ends it. *)
Fixpoint delete_excess (f : Failures) (l : list UserSession) (d : AccessDB) : option AccessError * AccessDB :=
  match l with
  | [] => (None, d)
  | s :: l' =>
    match f ("delete excess session " +:+ ssID s) with
    | Some text => (Some (ErrWrap ("delete excess session " +:+ ssID s) (ErrText text)), d)
    | None => delete_excess f l' (set_sessions d (delete (ssID s) (dbSessions d)))
    end
  end.

Definition EnforceSessionLimit (f : Failures) (userID : string) (maxSessions : Z) (d : AccessDB)
    : option AccessError * AccessDB :=
  if maxSessions <=? 0 then (None, d)
  else match f "list sessions for limit" with
  | Some text => (Some (ErrWrap "list sessions for limit" (ErrText text)), d)
  | None => delete_excess f (drop (Z.to_nat maxSessions) (live_sessions userID d)) d
  end.

(** * The service ([internal/users]) *)

(** bcrypt: a hash is made from a salt and fails on passwords that are too long. *)
Class Bcrypt := {
  bcrypt_hash : Z -> string -> option string;
  bcrypt_compare : string -> string -> bool;
}.

Class BcryptLaws `{Bcrypt} := {
  hash_matches salt pw h : bcrypt_hash salt pw = Some h -> bcrypt_compare h pw = true;
}.

Record AuthConfig := mkAuthConfig {
  acSessionTTL : Z;
  acMaxSessionsPerUser : Z;
  acBootstrapCredsPath : string;
}.

(** [New]: defaults of the configuration *)
Definition auth_defaults (c : AuthConfig) : AuthConfig :=
  mkAuthConfig (if acSessionTTL c <=? 0 then 24 * 3600 * second else acSessionTTL c)
    (if acMaxSessionsPerUser c <=? 0 then 3 else acMaxSessionsPerUser c) (acBootstrapCredsPath c).

Record LoginResult := mkLoginResult {
  lrSessionID : string;
  lrUserID : string;
  lrUsername : string;
  lrForcePasswordChange : bool;
  lrExpiresAt : Z;
}.

Record CreateUserParams := mkCreateUserParams {
  cuUsername : string;
  cuPassword : string;
  cuDisplayName : string;
  cuIsAdmin : bool;
}.

Definition wrap_err {A} (context : string) (r : result AccessError A) : result AccessError A :=
  match r with inl a => inl a | inr e => Err (ErrWrap context e) end.

(** An operation on the tables: what it did before an error stays done. *)
Definition try {A B} (r : result AccessError A) (d : AccessDB) (k : A -> result AccessError B * AccessDB)
    : result AccessError B * AccessDB :=
  match r with inl a => k a | inr e => (Err e, d) end.

Definition exec {B} (r : result AccessError AccessDB) (d : AccessDB) (k : AccessDB -> result AccessError B * AccessDB)
    : result AccessError B * AccessDB :=
  match r with inl d' => k d' | inr e => (Err e, d) end.

(** A statement whose error is ignored *)
Definition ignored (r : result AccessError AccessDB) (d : AccessDB) : AccessDB :=
  match r with inl d' => d' | inr _ => d end.

Section users.
Context `{Bcrypt} (cfg : AuthConfig).

(** The checks of [Authenticate], which leave the user as it was read. *)
Definition check_credentials (f : Failures) (username password : string) (d : AccessDB) : result AccessError User :=
  match GetUserByUsername f username d with
  | inr e => if error_is e ErrUserNotFound then Err ErrPermissionDenied else Err (ErrWrap "lookup user" e)
  | inl user =>
    if negb (uIsActive user) then Err ErrPermissionDenied
    else if negb (bcrypt_compare (uPasswordHash user) password) then Err ErrPermissionDenied
    else Ok user
  end.

Definition logged_in (u : User) (now : Z) : User :=
  mkUser (uID u) (uUsername u) (uPasswordHash u) (uDisplayName u) (uIsAdmin u) (uIsActive u) (uCreatedAt u)
    (Some now) (uForcePasswordChange u).

(** The rest of [Authenticate], for the user that was read; [sid] is the new identifier. *)
Definition open_session (f : Failures) (user : User) (sid ip agent : string) (now : Z) (d : AccessDB)
    : result AccessError LoginResult * AccessDB :=
  let exp := now + acSessionTTL cfg in
  let sess := mkUserSession sid (uID user) now exp (Some now) ip agent None in
  exec (wrap_err "create session" (CreateSession f sess d)) d (fun d =>
  exec (wrap_err "update last_login_at" (UpdateUser f (logged_in user now) d)) d (fun d =>
    match EnforceSessionLimit f (uID user) (acMaxSessionsPerUser cfg) d with
    | (Some e, d) => (Err (ErrWrap "enforce session limit" e), d)
    | (None, d) => (Ok (mkLoginResult sid (uID user) (uUsername user) (uForcePasswordChange user) exp), d)
    end)).

Definition Authenticate (f : Failures) (username password ip agent sid : string) (now : Z) (d : AccessDB)
    : result AccessError LoginResult * AccessDB :=
  exec (wrap_err "delete expired sessions" (DeleteExpiredSessions f now d)) d (fun d =>
  try (check_credentials f username password d) d (fun user => open_session f user sid ip agent now d)).

Definition minute : Z := 60 * second.

Definition ValidateSession (f : Failures) (sessionID : string) (now : Z) (d : AccessDB)
    : result AccessError User * AccessDB :=
  if bool_decide (sessionID = EmptyString) then (Err ErrSessionNotFound, d)
  else try (GetSession f sessionID d) d (fun sess =>
    if bool_decide (is_Some (ssRevokedAt sess)) || negb (now <? ssExpiresAt sess)
    then (Err ErrSessionNotFound, ignored (DeleteSession f sessionID d) d)
    else
      let stale := match ssLastSeenAt sess with None => true | Some t => minute <=? now - t end in
      let d := if stale then ignored (UpdateSessionLastSeen f sessionID now d) d else d in
      match GetUser f (ssUserID sess) d with
      | inr e => (Err e, ignored (DeleteSession f sessionID d) d)
      | inl user =>
        if negb (uIsActive user) then (Err ErrPermissionDenied, ignored (DeleteSession f sessionID d) d)
        else (Ok user, d)
      end).

Definition Logout (f : Failures) (sessionID : string) (d : AccessDB) : result AccessError unit * AccessDB :=
  if bool_decide (sessionID = EmptyString) then (Ok tt, d)
  else match DeleteSession f sessionID d with
  | inl d' => (Ok tt, d')
  | inr e => if error_is e ErrSessionNotFound then (Ok tt, d) else (Err (ErrWrap "delete session" e), d)
  end.

(** A role and whether there is one *)
Definition top_role (roles : list string) : option string :=
  let top := highestDefaultRole roles in
  if bool_decide (top = EmptyString) then None else Some top.

Definition ResolveGlobalRole (f : Failures) (userID : string) (d : AccessDB) : result AccessError (option string) :=
  let? roles := wrap_err "list user group roles" (ListUserGroupRoles f userID d) in
  Ok (top_role (map snd roles)).

Definition ResolveAgentRole (f : Failures) (userID agentID : string) (d : AccessDB) : result AccessError (option string) :=
  let? userRoles := wrap_err "list user group roles" (ListUserGroupRoles f userID d) in
  let? agentGroupIDs := wrap_err "list agent groups" (ListGroupIDsByAgent f agentID d) in
  if bool_decide (agentGroupIDs = []) || bool_decide (userRoles = []) then Ok None
  else
    let groupSet := list_to_set agentGroupIDs : gset string in
    Ok (top_role (map snd (List.filter (fun gr => bool_decide (gr.1 ∈ groupSet)) userRoles))).

(** The loop of [ListVisibleAgentIDs] *)
Fixpoint visible_agents (f : Failures) (roles : list (string * string)) (d : AccessDB) (seen : gset string)
    : result AccessError (gset string) :=
  match roles with
  | [] => Ok seen
  | (g, _) :: roles' =>
    let? ids := wrap_err ("list agents by group " +:+ g) (ListAgentIDsByGroup f g d) in
    visible_agents f roles' d (seen ∪ list_to_set ids)
  end.

Definition ListVisibleAgentIDs (f : Failures) (userID : string) (d : AccessDB) : result AccessError (gset string) :=
  let? roles := wrap_err "list user group roles" (ListUserGroupRoles f userID d) in
  visible_agents f roles d ∅.

Definition with_password (u : User) (h : string) (force : bool) : User :=
  mkUser (uID u) (uUsername u) h (uDisplayName u) (uIsAdmin u) (uIsActive u) (uCreatedAt u) (uLastLoginAt u) force.

Definition hash_password (salt : Z) (pw : string) : result AccessError string :=
  match bcrypt_hash salt pw with
  | Some h => Ok h
  | None => Err (ErrWrap "hash password" (ErrText "bcrypt: password length exceeds 72 bytes"))
  end.

(** What [UpdatePassword] writes back: the row as it was read, with the new password *)
Definition password_row (f : Failures) (userID newPassword : string) (salt : Z) (d : AccessDB) : result AccessError User :=
  let? user := GetUser f userID d in
  let? h := hash_password salt newPassword in
  Ok (with_password user h false).

Definition UpdatePassword (f : Failures) (userID newPassword : string) (salt : Z) (d : AccessDB)
    : result AccessError AccessDB :=
  let? row := password_row f userID newPassword salt d in
  wrap_err "update password" (UpdateUser f row d).

Definition password_too_short : AccessError := ErrText "password must be at least 10 characters".

Definition reset_password_row (f : Failures) (userID newPassword : string) (salt : Z) (d : AccessDB) : result AccessError User :=
  let? u := GetUser f userID d in
  if (String.length (trim_space newPassword) <? 10)%nat then Err password_too_short
  else
    let? h := hash_password salt newPassword in
    Ok (with_password u h true).

Definition ResetPassword (f : Failures) (userID newPassword : string) (salt : Z) (d : AccessDB)
    : result AccessError AccessDB :=
  let? row := reset_password_row f userID newPassword salt d in
  wrap_err "reset password" (UpdateUser f row d).

(** [CreateUser] of the service; [id] is the new identifier. *)
Definition CreateUser (f : Failures) (p : CreateUserParams) (id : string) (salt now : Z) (d : AccessDB)
    : result AccessError (User * AccessDB) :=
  let username := trim_space (cuUsername p) in
  if bool_decide (username = EmptyString) then Err (ErrText "username is required")
  else
    let password := trim_space (cuPassword p) in
    if (String.length password <? 10)%nat then Err password_too_short
    else
      let displayName := or_default (trim_space (cuDisplayName p)) username in
      let? h := hash_password salt password in
      let u := mkUser id username h displayName (cuIsAdmin p) true now None false in
      let? d' := wrap_err "create user" (insert_user f u d) in
      Ok (u, d').

Definition profile_row (f : Failures) (userID displayName : string) (active : bool) (d : AccessDB) : result AccessError User :=
  let? u := GetUser f userID d in
  Ok (mkUser (uID u) (uUsername u) (uPasswordHash u) (or_default (trim_space displayName) (uUsername u))
        (uIsAdmin u) active (uCreatedAt u) (uLastLoginAt u) (uForcePasswordChange u)).

Definition UpdateUserProfile (f : Failures) (userID displayName : string) (active : bool) (d : AccessDB)
    : result AccessError AccessDB :=
  let? row := profile_row f userID displayName active d in
  wrap_err "update user profile" (UpdateUser f row d).

Definition CreateGroup (f : Failures) (name description id : string) (now : Z) (d : AccessDB)
    : result AccessError AccessDB :=
  let g := mkAgentGroup id (trim_space name) (trim_space description) now in
  if bool_decide (gName g = EmptyString) then Err (ErrText "group name is required")
  else wrap_err "create group" (CreateAgentGroup f g d).

Definition UpdateGroup (f : Failures) (groupID name description : string) (d : AccessDB) : result AccessError AccessDB :=
  let? g := GetAgentGroup f groupID d in
  let g' := mkAgentGroup (gID g) (trim_space name) (trim_space description) (gCreatedAt g) in
  if bool_decide (gName g' = EmptyString) then Err (ErrText "group name is required")
  else wrap_err "update group" (UpdateAgentGroup f g' d).

Definition SetUserRoleInGroup (f : Failures) (userID groupID role : string) (d : AccessDB) : result AccessError AccessDB :=
  let role := trim_space role in
  if negb (IsDefaultRole role) then Err (ErrText "invalid role") else SetUserGroupRole f userID groupID role d.

(** [BootstrapAdminIfEmpty]; [random] is the generated password.  Whether an administrator was
    created, the password to show, and the error. *)
Definition BootstrapAdminIfEmpty (f : Failures) (legacyUsername legacyPassword random id : string) (salt now : Z)
    (d : AccessDB) : bool * string * option AccessError * AccessDB :=
  match wrap_err "list users" (ListUsers f d) with
  | inr e => (false, EmptyString, Some e, d)
  | inl (_ :: _) => (false, EmptyString, None, d)
  | inl [] =>
    let username := or_default (trim_space legacyUsername) "admin" in
    let forceChange := bool_decide (trim_space legacyPassword = EmptyString) in
    let password := if forceChange then random else legacyPassword in
    match (let? h := hash_password salt password in
           wrap_err "create bootstrap admin"
             (insert_user f (mkUser id username h "Administrator" true true now None forceChange) d)) with
    | inr e => (false, EmptyString, Some e, d)
    | inl d =>
      let nl := String "010" EmptyString in
      if forceChange && negb (bool_decide (acBootstrapCredsPath cfg = EmptyString))
      then match f "create credentials dir", f "write bootstrap credentials" with
           | Some text, _ => (true, password, Some (ErrWrap "create credentials dir" (ErrText text)), d)
           | None, Some text => (true, password, Some (ErrWrap "write bootstrap credentials" (ErrText text)), d)
           | None, None =>
             (true, password, None,
              set_creds d (Some ("username=" +:+ username +:+ nl +:+ "password=" +:+ password +:+ nl)))
           end
      else (true, if forceChange then password else EmptyString, None, d)
    end
  end.

Definition DeleteBootstrapCredsFile (f : Failures) (d : AccessDB) : result AccessError AccessDB :=
  if bool_decide (trim_space (acBootstrapCredsPath cfg) = EmptyString) then Ok d
  else match f "remove" with
  | Some text => Err (ErrText text)
  | None => Ok (set_creds d None)
  end.
End users.

(** * The middleware ([web/handlers/middleware.go])

    A request carries what the middleware reads of it: the session cookie, the headers, the
    address without its port, and the agent of the path.  [url_host] is the host of a parsed URL. *)

Record Request := mkRequest {
  rqCookie : option string;
  rqMethod : string;
  rqPath : string;
  rqHTMX : bool;
  rqHost : string;
  rqRemoteIP : string;
  rqForwardedHost : string;
  rqOrigin : string;
  rqReferer : string;
  rqPathID : string;
}.

Record DashboardUser := mkDashboardUser {
  duID : string;
  duUsername : string;
  duRole : string;
  duIsAdmin : bool;
  duForcePasswordChange : bool;
}.

(** What a middleware answers, or that the next handler runs. *)
Inductive Verdict : Type :=
| RedirectTo (path : string)
| HXRedirectTo (path : string)
| Refused (status : Z) (text : string)
| Pass (principal : DashboardUser).

Section middleware.
Context `{UnicodeCase} (url_host : string -> option string) (equal_fold : string -> string -> bool)
  (trustedProxies : gset string).

Definition requestHost (r : Request) : string :=
  let own := to_lower (trim_space (rqHost r)) in
  if bool_decide (rqRemoteIP r ∈ trustedProxies) then
    let host := trim_space (rqForwardedHost r) in
    if bool_decide (host = EmptyString) then own
    else to_lower (trim_space (match cut host "," with (a, _, true) => a | (_, _, false) => host end))
  else own.

Definition hostMatches (expected actual : string) : bool := equal_fold (trim_space expected) (trim_space actual).

Definition same_host (r : Request) (header : string) : bool :=
  bool_decide (header = EmptyString)
  || match url_host header with Some h => hostMatches (requestHost r) h | None => false end.

Definition sameOriginRequest (r : Request) : bool :=
  if negb (bool_decide (rqMethod r ∈ ["POST"; "PUT"; "PATCH"; "DELETE"])) then true
  else
    let origin := trim_space (rqOrigin r) in
    let referer := trim_space (rqReferer r) in
    if bool_decide (origin = EmptyString) && bool_decide (referer = EmptyString) then true
    else same_host r origin && same_host r referer.

Definition roleForDashboardUser (isAdmin : bool) (resolvedRole : string) : string :=
  if isAdmin then RoleAdmin else resolvedRole.

Definition handleAuthRedirect (r : Request) : Verdict := if rqHTMX r then HXRedirectTo "/login" else RedirectTo "/login".

(** The principal of a valid session *)
Definition principal_of (f : Failures) (u : User) (d : AccessDB) : DashboardUser :=
  let role := if uIsAdmin u then EmptyString
              else match ResolveGlobalRole f (uID u) d with inl (Some r) => r | _ => EmptyString end in
  mkDashboardUser (uID u) (uUsername u) (roleForDashboardUser (uIsAdmin u) role) (uIsAdmin u) (uForcePasswordChange u).

Definition RequireAuth (f : Failures) (now : Z) (r : Request) (d : AccessDB) : Verdict * AccessDB :=
  match rqCookie r with
  | None => (handleAuthRedirect r, d)
  | Some sid =>
    match ValidateSession f sid now d with
    | (inr _, d) => (handleAuthRedirect r, d)
    | (inl u, d) =>
      let principal := principal_of f u d in
      if duForcePasswordChange principal && negb (bool_decide (rqPath r = "/password/change"))
         && negb (bool_decide (rqPath r = "/logout"))
      then (RedirectTo "/password/change", d)
      else if negb (sameOriginRequest r) then (Refused 403 "forbidden", d)
      else (Pass principal, d)
    end
  end.

Definition RequirePermission (permission : string) (u : DashboardUser) : Verdict :=
  if duIsAdmin u || Can (duRole u) permission then Pass u else Refused 403 "forbidden".

Definition RequireAgentPermission (f : Failures) (permission : string) (r : Request) (u : DashboardUser) (d : AccessDB) : Verdict :=
  if duIsAdmin u then if Can RoleAdmin permission then Pass u else Refused 403 "forbidden"
  else if bool_decide (trim_space (rqPathID r) = EmptyString) then Refused 403 "forbidden"
  else match ResolveAgentRole f (duID u) (rqPathID r) d with
  | inr _ => Refused 500 "authorization error"
  | inl None => Refused 403 "forbidden"
  | inl (Some role) => if Can role permission then Pass u else Refused 403 "forbidden"
  end.

(** A route under [protected]: [RequireAuth], then the check of the route. *)
Definition agent_route (f : Failures) (permission : string) (now : Z) (r : Request) (d : AccessDB) : Verdict * AccessDB :=
  match RequireAuth f now r d with
  | (Pass u, d) => (RequireAgentPermission f permission r u d, d)
  | (v, d) => (v, d)
  end.

Definition global_route (f : Failures) (permission : string) (now : Z) (r : Request) (d : AccessDB) : Verdict * AccessDB :=
  match RequireAuth f now r d with
  | (Pass u, d) => (RequirePermission permission u, d)
  | (v, d) => (v, d)
  end.
End middleware.

(** ** What a principal sees ([authz.go]) *)

(** [visibleAgentSet]: [None] stands for every agent; so does a request without a principal. *)
Definition visibleAgentSet (f : Failures) (u : option DashboardUser) (d : AccessDB)
    : result AccessError (option (gset string)) :=
  match u with
  | None => Ok None
  | Some u => if duIsAdmin u then Ok None
              else let? visible := ListVisibleAgentIDs f (duID u) d in Ok (Some visible)
  end.

Definition GuideAgentID : string := "kyvik-guide".

Definition isAgentVisible (f : Failures) (u : option DashboardUser) (agentID : string) (d : AccessDB) : result AccessError bool :=
  if bool_decide (agentID = GuideAgentID) then Ok true
  else
    let? visible := visibleAgentSet f u d in
    Ok (match visible with None => true | Some s => bool_decide (agentID ∈ s) end).

(** * Roles form a ladder *)

Lemma index_from_ge i l r : 0 <= i -> index_from i l r = -1 \/ i <= index_from i l r.
Proof.
  revert i. induction l as [|x l IH]; intros i Hi; simpl; [by left|].
  case_bool_decide; [right; lia|]. destruct (IH (i + 1)); lia.
Qed.

Lemma roleIndex_ge r : -1 <= roleIndex r.
Proof. unfold roleIndex. destruct (index_from_ge 0 defaultRoleOrder r); lia. Qed.

Lemma take_subset (n m : nat) (l : list (gset string)) : (n <= m)%nat -> ⋃ (take n l) ⊆ ⋃ (take m l).
Proof.
  revert n m. induction l as [|x l IH]; intros [|n] [|m] Hnm; simpl; try set_solver; try lia.
  pose proof (IH n m ltac:(lia)). set_solver.
Qed.

Lemma Can_mono a b p :
  IsDefaultRole a = true -> roleIndex a <= roleIndex b -> Can a p = true -> Can b p = true.
Proof.
  unfold IsDefaultRole, Can, effectivePermissions. intros Ha Hab. to_prop.
  rewrite (proj2 (Z.leb_le 0 (roleIndex a))), (proj2 (Z.leb_le 0 (roleIndex b))) by lia.
  rewrite !bool_decide_eq_true, <- !firstn_map.
  pose proof (take_subset (Z.to_nat (roleIndex a) + 1) (Z.to_nat (roleIndex b) + 1)
    (map (fun r => list_to_set (RolePermissions r)) defaultRoleOrder) ltac:(lia)). set_solver.
Qed.

Lemma default_not_empty r : IsDefaultRole r = true -> r <> EmptyString.
Proof. intros Hd ->. vm_compute in Hd. done. Qed.

Lemma more_permissive a b :
  IsDefaultRole a = true -> IsDefaultRole b = true ->
  (MorePermissiveRole a b = a \/ MorePermissiveRole a b = b) /\ IsDefaultRole (MorePermissiveRole a b) = true
  /\ roleIndex a <= roleIndex (MorePermissiveRole a b) /\ roleIndex b <= roleIndex (MorePermissiveRole a b).
Proof.
  intros Ha Hb. unfold MorePermissiveRole. unfold IsDefaultRole in *. to_prop.
  rewrite (proj2 (Z.ltb_ge (roleIndex a) 0)), (proj2 (Z.ltb_ge (roleIndex b) 0)) by lia. simpl.
  destruct (_ <? _) eqn:E; to_prop; (split; [auto|split; [by apply Z.leb_le|lia]]).
Qed.

(** The highest role is one of the roles, and none is above it. *)
Lemma highest_from top roles :
  top = EmptyString \/ IsDefaultRole top = true ->
  let res := fold_left (fun top role =>
    if negb (IsDefaultRole role) then top
    else if bool_decide (top = EmptyString) then role
    else MorePermissiveRole top role) roles top in
  (res = EmptyString /\ top = EmptyString /\ forall r, r ∈ roles -> IsDefaultRole r = false)
  \/ (IsDefaultRole res = true /\ (res = top \/ res ∈ roles)
      /\ forall r, (r = top \/ r ∈ roles) -> IsDefaultRole r = true -> roleIndex r <= roleIndex res).
Proof.
  revert top. induction roles as [|x roles IH]; intros top Htop; simpl.
  - destruct Htop as [->|Ht]; [left; split_and!; [done..|by intros r ?%elem_of_nil]|].
    right. split_and!; [done|by left|]. intros r [->|?%elem_of_nil]; [lia|done].
  - destruct (IsDefaultRole x) eqn:Hx; simpl; [case_bool_decide as He|].
    + destruct (IH x (or_intror Hx)) as [(_ & -> & _)|(Hd & Hin & Hmax)]; [by apply default_not_empty in Hx|].
      right. split_and!; [done|set_solver|]. intros r [-> | Hr] Hdr; [by subst; apply default_not_empty in Hdr|].
      apply Hmax; set_solver.
    + destruct Htop as [|Ht]; [done|]. destruct (more_permissive top x Ht Hx) as (Hor & Hm & H1 & H2).
      destruct (IH _ (or_intror Hm)) as [(_ & E & _)|(Hd & Hin & Hmax)]; [rewrite E in Hm; by apply default_not_empty in Hm|].
      right. pose proof (Hmax _ (or_introl eq_refl) Hm). split_and!; [done| |].
      * destruct Hin as [->|Hin]; [destruct Hor as [->| ->]; set_solver|set_solver].
      * intros r [->|[->|Hr]%elem_of_cons] Hdr; [lia|lia|]. apply Hmax; [by right|done].
    + destruct (IH top Htop) as [(Hr & Ht & Hall)|(Hd & Hin & Hmax)].
      * left. split_and!; [done|done|]. intros r [->|Hr']%elem_of_cons; auto.
      * right. split_and!; [done|set_solver|]. intros r [->|[->|Hr]%elem_of_cons] Hdr; [auto|congruence|auto].
Qed.

(** The highest role has a permission exactly when one of the roles has. *)
Lemma top_role_can roles p :
  match top_role roles with Some t => Can t p | None => false end = true
  <-> exists r, r ∈ roles /\ IsDefaultRole r = true /\ Can r p = true.
Proof.
  unfold top_role, highestDefaultRole.
  destruct (highest_from EmptyString roles (or_introl eq_refl)) as [(-> & _ & Hall)|(Hd & Hin & Hmax)].
  - split; [done|]. intros (r & Hr & Hdr & _). by rewrite Hall in Hdr.
  - set (top := fold_left _ _ _) in *. rewrite bool_decide_eq_false_2 by by apply default_not_empty. split.
    + intros Hc. exists top. destruct Hin as [E|Hin]; [rewrite E in Hd; by apply default_not_empty in Hd|]. done.
    + intros (r & Hr & Hdr & Hc). apply (Can_mono r top p); auto.
Qed.

#[local] Opaque Can.

(** ** What the queries return *)

Lemma stmt_ok {A} (f : Failures) context (r : result AccessError A) a :
  stmt f context r = Ok a -> f context = None /\ r = Ok a.
Proof. unfold stmt. by destruct (f context). Qed.

Lemma wrap_ok {A} context (r : result AccessError A) a : wrap_err context r = Ok a -> r = Ok a.
Proof. by destruct r. Qed.

Lemma user_roles_elem (f : Failures) uid d l g role :
  ListUserGroupRoles f uid d = Ok l -> (g, role) ∈ l <-> dbRoles d !! (uid, g) = Some role.
Proof.
  intros [_ [= <-]]%stmt_ok. rewrite list_elem_of_fmap. split.
  - intros ([[u g'] r] & [= -> ->] & Hin). apply filter_elem in Hin as [Hin Hu]. to_prop. simpl in Hu. subst u.
    by apply elem_of_map_to_list.
  - intros Hr. exists ((uid, g), role). split; [done|]. apply filter_elem. split; [by apply elem_of_map_to_list|].
    by apply bool_decide_eq_true.
Qed.

Lemma agent_groups_elem (f : Failures) a d l g : ListGroupIDsByAgent f a d = Ok l -> g ∈ l <-> (a, g) ∈ dbMembers d.
Proof.
  intros [_ [= <-]]%stmt_ok. rewrite list_elem_of_fmap. split.
  - intros ([a' g'] & -> & Hin). apply filter_elem in Hin as [Hin Ha]. to_prop. simpl in Ha. subst a'.
    by apply elem_of_elements.
  - intros Hm. exists (a, g). split; [done|]. apply filter_elem. split; [by apply elem_of_elements|].
    by apply bool_decide_eq_true.
Qed.

(** A user is granted a permission on an agent by a role in a group of the agent. *)
Definition granted (d : AccessDB) (userID agentID permission : string) : Prop :=
  exists g role, (agentID, g) ∈ dbMembers d /\ dbRoles d !! (userID, g) = Some role
    /\ IsDefaultRole role = true /\ Can role permission = true.

Lemma resolve_agent_role (f : Failures) uid a d ro p :
  ResolveAgentRole f uid a d = Ok ro ->
  match ro with Some t => Can t p | None => false end = true <-> granted d uid a p.
Proof.
  unfold ResolveAgentRole. destruct (ListUserGroupRoles f uid d) as [roles|] eqn:R; [|done]. simpl.
  destruct (ListGroupIDsByAgent f a d) as [groups|] eqn:G; [|done]. simpl.
  assert (granted d uid a p <-> exists r,
    r ∈ map snd (List.filter (fun gr => bool_decide (gr.1 ∈ (list_to_set groups : gset string))) roles)
    /\ IsDefaultRole r = true /\ Can r p = true) as ->.
  { split.
    - intros (g & role & Hm & Hr & Hd & Hc). exists role. split; [|done]. apply list_elem_of_fmap.
      exists (g, role). split; [done|]. apply filter_elem. rewrite (user_roles_elem _ _ _ _ _ _ R). split; [done|].
      apply bool_decide_eq_true, elem_of_list_to_set. by apply (agent_groups_elem _ _ _ _ _ G).
    - intros (r & Hr & Hd & Hc). apply list_elem_of_fmap in Hr as ([g role] & -> & Hin).
      apply filter_elem in Hin as [Hin Hg]. apply bool_decide_eq_true, elem_of_list_to_set in Hg.
      exists g, role. rewrite <- (user_roles_elem _ _ _ _ _ _ R), <- (agent_groups_elem _ _ _ _ _ G). done. }
  destruct (bool_decide (groups = []) || bool_decide (roles = [])) eqn:E.
  - intros [= <-]. split; [done|]. intros (r & Hr & _). apply list_elem_of_fmap in Hr as ([g role] & -> & Hin).
    apply filter_elem in Hin as [Hin Hg]. apply bool_decide_eq_true, elem_of_list_to_set in Hg.
    apply orb_true_iff in E as [->%bool_decide_eq_true| ->%bool_decide_eq_true]; [by apply elem_of_nil in Hg|by apply elem_of_nil in Hin].
  - intros [= <-]. apply top_role_can.
Qed.

Lemma resolve_succeeds uid a d : exists ro, ResolveAgentRole all_succeed uid a d = Ok ro.
Proof.
  unfold ResolveAgentRole, ListUserGroupRoles, ListGroupIDsByAgent, stmt, all_succeed. simpl.
  destruct (_ || _); eauto.
Qed.

(** ** Sessions that are valid *)

Definition session_of (now : Z) (d : AccessDB) (sid : string) (u : User) : Prop :=
  exists s, dbSessions d !! sid = Some s /\ ssRevokedAt s = None /\ now < ssExpiresAt s
    /\ dbUsers d !! ssUserID s = Some u /\ uIsActive u = true.

(** The tables other than the sessions *)
Definition same_access (d d' : AccessDB) : Prop :=
  dbUsers d' = dbUsers d /\ dbGroups d' = dbGroups d /\ dbMembers d' = dbMembers d /\ dbRoles d' = dbRoles d
  /\ dbAgents d' = dbAgents d /\ dbCreds d' = dbCreds d.

Lemma same_access_refl d : same_access d d.
Proof. done. Qed.

Lemma same_access_trans a b c : same_access a b -> same_access b c -> same_access a c.
Proof. unfold same_access. intros (?&?&?&?&?&?) (?&?&?&?&?&?). split_and!; congruence. Qed.

#[local] Hint Resolve same_access_refl : core.

Lemma delete_session_same (f : Failures) sid d : same_access d (ignored (DeleteSession f sid d) d).
Proof.
  unfold DeleteSession, stmt. destruct (f "delete session"); [done|]. by destruct (dbSessions d !! sid).
Qed.

Lemma last_seen_same (f : Failures) sid now d : same_access d (ignored (UpdateSessionLastSeen f sid now d) d).
Proof.
  unfold UpdateSessionLastSeen, stmt. destruct (f "update session last_seen"); [done|]. by destruct (dbSessions d !! sid).
Qed.

Lemma validate_same (f : Failures) sid now d : same_access d (ValidateSession f sid now d).2.
Proof.
  unfold ValidateSession. case_bool_decide; [done|]. unfold try.
  destruct (GetSession f sid d) as [s|]; [|done]. destruct (_ || _); [apply delete_session_same|].
  match goal with |- context [GetUser f _ ?x] => set (d1 := x) end.
  assert (same_access d d1) as H1 by (subst d1; case_match; [apply last_seen_same|done]).
  destruct (GetUser f _ d1) as [u|]; [destruct (uIsActive u); [done|]|];
    (apply (same_access_trans _ _ _ H1), delete_session_same).
Qed.

(** A session is accepted when it is valid, and only then. *)
Lemma validate_spec (f : Failures) sid now d u d' :
  ValidateSession f sid now d = (Ok u, d') -> sid <> EmptyString /\ session_of now d sid u.
Proof.
  unfold ValidateSession. case_bool_decide as Hs; [done|]. unfold try.
  destruct (GetSession f sid d) as [s|] eqn:G; [|done]. apply stmt_ok in G as [_ G].
  destruct (dbSessions d !! sid) as [s'|] eqn:Hrow; [|done]. injection G as ->.
  case_bool_decide as Hr; [done|]. destruct (now <? ssExpiresAt s) eqn:E; [|done]. simpl. to_prop.
  match goal with |- context [GetUser f _ ?x] => set (d1 := x) end.
  assert (dbUsers d1 = dbUsers d) as Hu by (subst d1; case_match; [apply last_seen_same|done]).
  destruct (GetUser f (ssUserID s) d1) as [u1|] eqn:GU; [|done].
  apply stmt_ok in GU as [_ GU]. rewrite Hu in GU. destruct (uIsActive u1) eqn:Ha; simpl; [|done].
  intros [= -> <-]. split; [done|]. exists s. split_and!; try done.
  - by apply eq_None_not_Some.
  - by destruct (dbUsers d !! ssUserID s); simplify_eq.
Qed.

Lemma validate_accepts sid now d u :
  sid <> EmptyString -> session_of now d sid u -> exists d', ValidateSession all_succeed sid now d = (Ok u, d').
Proof.
  intros Hs (s & Hrow & Hrev & Hexp & Huser & Hact). unfold ValidateSession.
  rewrite bool_decide_eq_false_2 by done. unfold try, GetSession, stmt. simpl. rewrite Hrow. simpl.
  rewrite bool_decide_eq_false_2 by (rewrite Hrev; by intros [? ?]). rewrite (proj2 (Z.ltb_lt _ _) Hexp). simpl.
  match goal with |- context [GetUser _ _ ?x] => set (d1 := x) end.
  assert (dbUsers d1 = dbUsers d) as Hu by (subst d1; case_match; [apply last_seen_same|done]).
  unfold GetUser, stmt. simpl. rewrite Hu, Huser. simpl. rewrite Hact. eauto.
Qed.

(** * Requests that reach a handler *)
Section requests.
Context `{UnicodeCase} (url_host : string -> option string) (equal_fold : string -> string -> bool)
  (trustedProxies : gset string).
Notation route := (agent_route url_host equal_fold trustedProxies).
Notation global := (global_route url_host equal_fold trustedProxies).

(** The host a request is for: what a trusted proxy says it was asked for, or else the host of the request *)
Definition asked_host (r : Request) (host : string) : Prop :=
  let forwarded := trim_space (rqForwardedHost r) in
  (rqRemoteIP r ∈ trustedProxies /\ forwarded <> EmptyString
    /\ exists first, stands_before "," forwarded first /\ host = to_lower (trim_space first))
  \/ ((rqRemoteIP r ∉ trustedProxies \/ forwarded = EmptyString) /\ host = to_lower (trim_space (rqHost r))).

(** A header that names where a request comes from names the host the request is for, if it names anything. *)
Definition names_own_host (r : Request) (header : string) : Prop :=
  trim_space header <> EmptyString ->
  exists named own, url_host (trim_space header) = Some named /\ asked_host r own /\ equal_fold (trim_space own) (trim_space named) = true.

(** A request that changes something does not say that it comes from elsewhere.  Every other request may come
    from anywhere, and so may one that has neither header. *)
Definition not_from_elsewhere (r : Request) : Prop :=
  rqMethod r ∈ ["POST"; "PUT"; "PATCH"; "DELETE"] -> names_own_host r (rqOrigin r) /\ names_own_host r (rqReferer r).

Lemma asked_host_spec r host : asked_host r host <-> host = requestHost trustedProxies r.
Proof.
  unfold asked_host, requestHost. case_bool_decide as Hp.
  - case_bool_decide as Hf; [split; [intros [(_ & ? & _)|[_ ?]]; done|intros ->; right; auto]|].
    assert ((match cut (trim_space (rqForwardedHost r)) "," with (a, _, true) => a | (_, _, false) => trim_space (rqForwardedHost r) end)
            = (cut (trim_space (rqForwardedHost r)) ",").1.1) as -> by (unfold cut; by destruct (str_index _ _)).
    split.
    + intros [(_ & _ & first & ->%stands_before_spec & ->)|([?|?] & _)]; done.
    + intros ->. left. split_and!; [done|done|]. eexists. split; [by apply stands_before_spec|done].
  - split; [intros [(? & _)|[_ ?]]; done|]. intros ->. right. auto.
Qed.

Lemma names_own_host_spec r header : same_host url_host equal_fold trustedProxies r (trim_space header) = true <-> names_own_host r header.
Proof.
  unfold same_host, names_own_host, hostMatches. rewrite orb_true_iff, bool_decide_eq_true. split.
  - intros [?|Hm] Hne; [done|]. destruct (url_host _) as [named|]; [|done]. exists named, (requestHost trustedProxies r).
    split_and!; [done|by apply asked_host_spec|done].
  - intros Hn. destruct (decide (trim_space header = EmptyString)) as [|Hne]; [by left|right].
    destruct (Hn Hne) as (named & own & -> & ->%asked_host_spec & Hm). done.
Qed.

Lemma same_origin_spec r : sameOriginRequest url_host equal_fold trustedProxies r = true <-> not_from_elsewhere r.
Proof.
  unfold sameOriginRequest, not_from_elsewhere. case_bool_decide as Hm; simpl negb; cbn iota; [|done].
  rewrite <- !names_own_host_spec. destruct (bool_decide (trim_space (rqOrigin r) = EmptyString) && bool_decide (trim_space (rqReferer r) = EmptyString)) eqn:E.
  - apply andb_true_iff in E as [Eo%bool_decide_eq_true Er%bool_decide_eq_true]. unfold same_host. by rewrite Eo, Er.
  - rewrite andb_true_iff. tauto.
Qed.

(** The session and what stands between it and every handler *)
Definition admitted (now : Z) (r : Request) (d : AccessDB) (u : User) : Prop :=
  (exists sid, rqCookie r = Some sid /\ sid <> EmptyString /\ session_of now d sid u)
  /\ (uForcePasswordChange u = true -> rqPath r = "/password/change" \/ rqPath r = "/logout")
  /\ not_from_elsewhere r.

Definition permitted (d : AccessDB) (u : User) (agentID permission : string) : Prop :=
  if uIsAdmin u then Can RoleAdmin permission = true
  else trim_space agentID <> EmptyString /\ granted d (uID u) agentID permission.

Lemma force_paths (force : bool) path :
  force && negb (bool_decide (path = "/password/change")) && negb (bool_decide (path = "/logout")) = false
  <-> (force = true -> path = "/password/change" \/ path = "/logout").
Proof.
  destruct force; simpl; [|split; done]. repeat case_bool_decide; simpl; split; intros Hx; auto; [done|].
  by destruct Hx as [|]; [done|..].
Qed.

Lemma require_auth_spec (f : Failures) now r d p d' :
  RequireAuth url_host equal_fold trustedProxies f now r d = (Pass p, d') ->
  same_access d d' /\ exists u, admitted now r d u /\ p = principal_of f u d'.
Proof.
  unfold RequireAuth. destruct (rqCookie r) as [sid|] eqn:C; [|by unfold handleAuthRedirect; destruct (rqHTMX r)].
  destruct (ValidateSession f sid now d) as [[u|e] d1] eqn:V; [|by unfold handleAuthRedirect; destruct (rqHTMX r)].
  pose proof (validate_same f sid now d) as Hsame. rewrite V in Hsame. simpl in Hsame.
  apply validate_spec in V as [Hne Hsess]. destruct (_ && _ && _) eqn:F; [done|].
  destruct (sameOriginRequest _ _ _ r) eqn:O; [|done]. apply same_origin_spec in O. intros [= <- <-]. split; [done|]. exists u. split; [|done].
  split_and!; [by exists sid| |done]. exact (proj1 (force_paths _ _) F).
Qed.

Lemma require_auth_passes now r d u :
  admitted now r d u ->
  exists d', RequireAuth url_host equal_fold trustedProxies all_succeed now r d = (Pass (principal_of all_succeed u d'), d')
    /\ same_access d d'.
Proof.
  intros ((sid & C & Hne & Hsess) & F & O). destruct (validate_accepts _ _ _ _ Hne Hsess) as [d' V].
  pose proof (validate_same all_succeed sid now d) as Hsame. rewrite V in Hsame.
  exists d'. split; [|done]. unfold RequireAuth. rewrite C, V.
  apply force_paths in F. apply same_origin_spec in O. simpl. rewrite F, O. done.
Qed.

Lemma granted_same d d' uid a p : same_access d d' -> granted d' uid a p <-> granted d uid a p.
Proof. unfold granted. by intros (_ & _ & -> & -> & _). Qed.

Lemma require_agent_spec (f : Failures) perm r u d p :
  RequireAgentPermission f perm r (principal_of f u d) d = Pass p ->
  p = principal_of f u d /\ permitted d u (rqPathID r) perm.
Proof.
  unfold RequireAgentPermission, permitted. cbn [principal_of duIsAdmin duID]. destruct (uIsAdmin u).
  - destruct (Can RoleAdmin perm); [|done]. intros [= <-]. by split.
  - case_bool_decide; [done|]. destruct (ResolveAgentRole f (uID u) (rqPathID r) d) as [[role|]|] eqn:R; [|done|done].
    destruct (Can role perm) eqn:C; [|done]. intros [= <-]. split_and!; [done|done|].
    by apply (resolve_agent_role _ _ _ _ _ perm R).
Qed.

(** C12: a request passes to a handler of an agent exactly when it carries a session that is not
    expired nor revoked, of a user who is active and need not change the password, is not one that changes
    something and names another host in Origin or Referer (reading requests and those without both headers
    may come from anywhere), and the user is an administrator or holds a role with the permission in a group
    of the agent.  When statements fail, nothing else passes either. *)
Theorem agent_request_allowed_iff (f : Failures) perm now r d :
  (forall p d', route f perm now r d = (Pass p, d') ->
     exists u, duID p = uID u /\ admitted now r d u /\ permitted d u (rqPathID r) perm)
  /\ (forall u, admitted now r d u -> permitted d u (rqPathID r) perm ->
     exists p d', route all_succeed perm now r d = (Pass p, d') /\ duID p = uID u).
Proof.
  unfold agent_route. split.
  - intros p d'. destruct (RequireAuth _ _ _ f now r d) as [[| | |p0] d1] eqn:A; try done. intros [= Hp ->].
    apply require_auth_spec in A as [Hsame (u & Hadm & ->)]. apply require_agent_spec in Hp as [-> Hperm].
    exists u. split_and!; [done|done|]. unfold permitted in *. by destruct (uIsAdmin u); [|rewrite <- granted_same].
  - intros u Hadm Hperm. destruct (require_auth_passes _ _ _ _ Hadm) as (d' & -> & Hsame).
    exists (principal_of all_succeed u d'), d'. split; [|done]. f_equal. unfold RequireAgentPermission, permitted in *.
    cbn [principal_of duIsAdmin duID]. destruct (uIsAdmin u); [by rewrite Hperm|]. destruct Hperm as [Hne Hg].
    rewrite bool_decide_eq_false_2 by done. destruct (resolve_succeeds (uID u) (rqPathID r) d') as [ro R]. rewrite R.
    apply (granted_same _ _ _ _ _ Hsame), (resolve_agent_role _ _ _ _ _ _ R) in Hg.
    destruct ro as [role|]; [simpl in Hg; unfold Ok; by rewrite Hg|done].
Qed.
End requests.
