(* ===== verification/AccessRuns.v ===== *)
(** Histories of users, groups and sessions: what holds of the tables of [Access] whatever
    is done to them.

    [AccessOp] has the operations of the service ([internal/users]) and of the interface that
    manages users from outside; [run_access] runs a history, with statements that fail as they
    like.  The tables stay consistent ([access_invariant]).  [run_overlap] lets calls overlap: a login and the
    changes of a user read the row in one step and write it back in another.  A user who was deleted, or
    deactivated while no such call was under way, passes nothing any more ([deactivated_user_locked_out]); one that
    was under way brings the user back ([login_undoes_deactivation]).  A login ends within the
    limit of sessions ([login_keeps_session_limit]) and its session is the one that is
    accepted afterwards ([login_opens_session]); a changed password logs in
    ([changed_password_logs_in]). *)

From S2P Require Import Prelude GoString Queue Access.
#[local] Open Scope Z_scope.

(** * The tables are consistent *)

Record access_wf (d : AccessDB) : Prop := {
  wf_users : forall k u, dbUsers d !! k = Some u -> uID u = k;
  wf_names : forall j k u v, dbUsers d !! j = Some u -> dbUsers d !! k = Some v -> uUsername u = uUsername v -> j = k;
  wf_members : forall a g, (a, g) ∈ dbMembers d -> a ∈ dbAgents d /\ is_Some (dbGroups d !! g);
  wf_roles : forall u g r, dbRoles d !! (u, g) = Some r ->
    is_Some (dbUsers d !! u) /\ is_Some (dbGroups d !! g) /\ IsDefaultRole r = true;
  wf_sessions : forall k s, dbSessions d !! k = Some s -> ssID s = k /\ is_Some (dbUsers d !! ssUserID s);
}.

Lemma users_list_elem d u : u ∈ users_list d <-> exists k, dbUsers d !! k = Some u.
Proof.
  unfold users_list. rewrite list_elem_of_fmap. split.
  - intros ([k v] & -> & Hin). exists k. by apply elem_of_map_to_list.
  - intros [k Hk]. exists (k, u). split; [done|]. by apply elem_of_map_to_list.
Qed.

Ltac stmt_inv H := apply stmt_ok in H as [_ H].

Lemma insert_user_wf (f : Failures) u d d' : insert_user f u d = Ok d' -> access_wf d -> access_wf d'.
Proof.
  unfold insert_user. intros H. stmt_inv H. destruct (_ || _) eqn:E; [done|]. injection H as <-.
  apply orb_false_iff in E as [E1 E2]. to_prop. intros [Us Na Me Ro Se].
  assert (dbUsers d !! uID u = None) as Hnew by (by apply eq_None_not_Some).
  assert (forall k v, dbUsers d !! k = Some v -> uUsername v <> uUsername u) as Hname.
  { intros k v Hk Hn. pose proof (proj1 (existsb_elem_false _ _) E2 v) as Hf.
    unfold has_username in Hf. rewrite bool_decide_eq_true_2 in Hf by done.
    discriminate Hf. apply users_list_elem. eauto. }
  split; simpl.
  - intros k v [[<- <-]|[_ Hk]]%lookup_insert_Some; [done|eauto].
  - intros j k v w [[<- <-]|[Hj Hv]]%lookup_insert_Some [[<- <-]|[Hk Hw]]%lookup_insert_Some Hn; simpl in *; [done| | |eauto].
    + by destruct (Hname k w Hw).
    + by destruct (Hname j v Hv).
  - done.
  - intros v g r Hr. destruct (Ro v g r Hr) as (Hu & ?). split; [|done].
    by apply lookup_insert_is_Some'; right.
  - intros k s Hs. destruct (Se k s Hs) as [? Hu]. split; [done|]. by apply lookup_insert_is_Some'; right.
Qed.

(** What an update of a user does *)
Lemma update_user_cases (f : Failures) u d d' :
  UpdateUser f u d = Ok d' ->
  exists old, dbUsers d !! uID u = Some old /\ d' = set_users d (<[uID u := updated_user old u]> (dbUsers d))
    /\ forall k v, dbUsers d !! k = Some v -> uID v <> uID u -> uUsername v <> uUsername u.
Proof.
  unfold UpdateUser. intros H. stmt_inv H. destruct (dbUsers d !! uID u) as [old|] eqn:O; [|done].
  destruct (existsb _ _) eqn:E; [done|]. injection H as <-. exists old. split_and!; [done|done|].
  intros k v Hk Hne Hn. pose proof (proj1 (existsb_elem_false _ _) E v) as Hf. unfold has_username in Hf.
  rewrite bool_decide_eq_true_2, bool_decide_eq_false_2 in Hf by done.
  discriminate Hf. apply users_list_elem. eauto.
Qed.

Lemma update_user_wf (f : Failures) u d d' : UpdateUser f u d = Ok d' -> access_wf d -> access_wf d'.
Proof.
  intros (old & Ho & -> & Hname)%update_user_cases [Us Na Me Ro Se]. split; simpl.
  - intros k v [[<- <-]|[_ Hk]]%lookup_insert_Some; [by simpl; rewrite (Us _ _ Ho)|eauto].
  - intros j k v w [[<- <-]|[Hj Hv]]%lookup_insert_Some [[<- <-]|[Hk Hw]]%lookup_insert_Some Hn; simpl in *; [done| | |eauto].
    + destruct (Hname k w Hw); [|done]. by rewrite (Us _ _ Hw).
    + destruct (Hname j v Hv); [|done]. by rewrite (Us _ _ Hv).
  - done.
  - intros v g r Hr. destruct (Ro v g r Hr) as (Hu & ?). split; [|done]. by apply lookup_insert_is_Some'; right.
  - intros k s Hs. destruct (Se k s Hs) as [? Hu]. split; [done|]. by apply lookup_insert_is_Some'; right.
Qed.

Lemma delete_user_wf (f : Failures) id d d' : delete_user f id d = Ok d' -> access_wf d -> access_wf d'.
Proof.
  unfold delete_user. intros H. stmt_inv H. destruct (dbUsers d !! id); [|done]. injection H as <-.
  intros [Us Na Me Ro Se]. split; simpl.
  - intros k v [_ Hk]%lookup_delete_Some. eauto.
  - intros j k v w [_ Hv]%lookup_delete_Some [_ Hw]%lookup_delete_Some. eauto.
  - done.
  - intros v g r [Hr Hne]%map_lookup_filter_Some. simpl in Hne. destruct (Ro v g r Hr) as (Hu & ?). split; [|done].
    by rewrite lookup_delete_ne.
  - intros k s [Hs Hne]%map_lookup_filter_Some. simpl in Hne. destruct (Se k s Hs) as [? Hu]. split; [done|].
    by rewrite lookup_delete_ne.
Qed.

(** Changes of groups, members and roles *)
Lemma create_group_wf (f : Failures) g d d' : CreateAgentGroup f g d = Ok d' -> access_wf d -> access_wf d'.
Proof.
  unfold CreateAgentGroup. intros H. stmt_inv H. destruct (_ || _); [done|]. injection H as <-.
  intros [Us Na Me Ro Se]. split; simpl; try done.
  - intros ag k Hm. destruct (Me ag k Hm). split; [done|]. by apply lookup_insert_is_Some'; right.
  - intros u k r Hr. destruct (Ro u k r Hr) as (? & ? & ?). split_and!; [done| |done].
    by apply lookup_insert_is_Some'; right.
Qed.

Lemma update_group_wf (f : Failures) g d d' : UpdateAgentGroup f g d = Ok d' -> access_wf d -> access_wf d'.
Proof.
  unfold UpdateAgentGroup. intros H. stmt_inv H. destruct (_ !! _); [|done]. destruct (existsb _ _); [done|].
  injection H as <-. intros [Us Na Me Ro Se]. split; simpl; try done.
  - intros ag k Hm. destruct (Me ag k Hm). split; [done|]. by apply lookup_insert_is_Some'; right.
  - intros u k r Hr. destruct (Ro u k r Hr) as (? & ? & ?). split_and!; [done| |done].
    by apply lookup_insert_is_Some'; right.
Qed.

Lemma delete_group_wf (f : Failures) id d d' : DeleteAgentGroup f id d = Ok d' -> access_wf d -> access_wf d'.
Proof.
  unfold DeleteAgentGroup. intros H. stmt_inv H. destruct (_ !! _); [|done]. injection H as <-.
  intros [Us Na Me Ro Se]. split; simpl; try done.
  - intros ag k [Hne Hm]%elem_of_filter. simpl in Hne. destruct (Me ag k Hm). split; [done|]. by rewrite lookup_delete_ne.
  - intros u k r [Hr Hne]%map_lookup_filter_Some. simpl in Hne. destruct (Ro u k r Hr) as (? & ? & ?).
    split_and!; [done| |done]. by rewrite lookup_delete_ne.
Qed.

Lemma set_member_wf (f : Failures) a g d d' : SetAgentGroupMember f a g d = Ok d' -> access_wf d -> access_wf d'.
Proof.
  unfold SetAgentGroupMember. intros H. stmt_inv H. destruct (_ && _) eqn:E; [|done]. injection H as <-. to_prop.
  intros [Us Na Me Ro Se]. split; simpl; try done.
  intros a' g' [[= -> ->]%elem_of_singleton|Hm]%elem_of_union; [done|auto].
Qed.

Lemma remove_member_wf (f : Failures) a g d d' : RemoveAgentGroupMember f a g d = Ok d' -> access_wf d -> access_wf d'.
Proof.
  unfold RemoveAgentGroupMember. intros H. stmt_inv H. case_bool_decide; [|done]. injection H as <-.
  intros [Us Na Me Ro Se]. split; simpl; try done. intros a' g' [Hm _]%elem_of_difference. auto.
Qed.

Lemma set_role_wf (f : Failures) u g r d d' :
  IsDefaultRole r = true -> SetUserGroupRole f u g r d = Ok d' -> access_wf d -> access_wf d'.
Proof.
  unfold SetUserGroupRole. intros Hr H. stmt_inv H. destruct (_ && _) eqn:E; [|done]. injection H as <-. to_prop.
  intros [Us Na Me Ro Se]. split; simpl; try done.
  intros u' g' r' [[[= <- <-] <-]|[_ Hr']]%lookup_insert_Some; [done|eauto].
Qed.

Lemma delete_role_wf (f : Failures) u g d d' : DeleteUserGroupRole f u g d = Ok d' -> access_wf d -> access_wf d'.
Proof.
  unfold DeleteUserGroupRole. intros H. stmt_inv H. destruct (_ !! _); [|done]. injection H as <-.
  intros [Us Na Me Ro Se]. split; simpl; try done. intros u' g' r' [_ Hr']%lookup_delete_Some. eauto.
Qed.

(** Changes of sessions: every row that stays keeps its key and its user. *)
Lemma sessions_wf d m :
  (forall k s, m !! k = Some s -> ssID s = k /\ is_Some (dbUsers d !! ssUserID s)) ->
  access_wf d -> access_wf (set_sessions d m).
Proof. intros Hm [Us Na Me Ro Se]. by split. Qed.

Lemma fewer_sessions_wf d m : m ⊆ dbSessions d -> access_wf d -> access_wf (set_sessions d m).
Proof.
  intros Hm W. apply sessions_wf; [|done]. intros k s Hs. apply (wf_sessions _ W).
  by apply (lookup_weaken _ _ _ _ Hs).
Qed.

Lemma create_session_wf (f : Failures) s d d' : CreateSession f s d = Ok d' -> access_wf d -> access_wf d'.
Proof.
  unfold CreateSession. intros H. stmt_inv H. destruct (_ || _) eqn:E; [done|]. injection H as <-.
  apply orb_false_iff in E as [_ E]. to_prop. intros W. apply sessions_wf; [|done].
  intros k x [[<- <-]|[_ Hx]]%lookup_insert_Some; [|by apply (wf_sessions _ W)].
  split; [done|]. by apply not_eq_None_Some.
Qed.

Lemma delete_session_wf (f : Failures) id d d' : DeleteSession f id d = Ok d' -> access_wf d -> access_wf d'.
Proof.
  unfold DeleteSession. intros H. stmt_inv H. destruct (_ !! _); [|done]. injection H as <-.
  apply fewer_sessions_wf, delete_subseteq.
Qed.

Lemma last_seen_wf (f : Failures) id now d d' : UpdateSessionLastSeen f id now d = Ok d' -> access_wf d -> access_wf d'.
Proof.
  unfold UpdateSessionLastSeen. intros H. stmt_inv H. destruct (dbSessions d !! id) as [s|] eqn:S; [|done].
  injection H as <-. intros W. apply sessions_wf; [|done].
  intros k x [[<- <-]|[_ Hx]]%lookup_insert_Some; [|by apply (wf_sessions _ W)]. simpl. by apply (wf_sessions _ W).
Qed.

Lemma delete_expired_wf (f : Failures) now d d' : DeleteExpiredSessions f now d = Ok d' -> access_wf d -> access_wf d'.
Proof.
  unfold DeleteExpiredSessions. intros H. stmt_inv H. injection H as <-. apply fewer_sessions_wf, map_filter_subseteq.
Qed.

Lemma drop_sessions_wf (f : Failures) uid d d' : DeleteSessionsByUserID f uid d = Ok d' -> access_wf d -> access_wf d'.
Proof.
  unfold DeleteSessionsByUserID. intros H. stmt_inv H. injection H as <-. apply fewer_sessions_wf, map_filter_subseteq.
Qed.

Lemma delete_excess_wf (f : Failures) l d : access_wf d -> access_wf (delete_excess f l d).2.
Proof.
  revert d. induction l as [|s l IH]; intros d W; simpl; [done|]. destruct (f _); [done|].
  apply IH, fewer_sessions_wf; [apply delete_subseteq|done].
Qed.

Lemma enforce_wf (f : Failures) uid n d : access_wf d -> access_wf (EnforceSessionLimit f uid n d).2.
Proof.
  intros W. unfold EnforceSessionLimit. destruct (n <=? 0); [done|]. destruct (f _); [done|]. by apply delete_excess_wf.
Qed.

(** * Histories *)
Section runs.
Context `{Bcrypt} (cfg : AuthConfig).

Inductive AccessOp : Type :=
| OpAuthenticate (username password ip agent sid : string) (now : Z)
| OpValidateSession (sid : string) (now : Z)
| OpLogout (sid : string)
| OpUpdatePassword (userID password : string) (salt : Z)
| OpResetPassword (userID password : string) (salt : Z)
| OpCreateUser (p : CreateUserParams) (id : string) (salt now : Z)
| OpUpdateUserProfile (userID displayName : string) (active : bool)
| OpDeleteUser (userID : string)
| OpCreateGroup (name description id : string) (now : Z)
| OpUpdateGroup (groupID name description : string)
| OpDeleteGroup (groupID : string)
| OpAddAgentToGroup (groupID agentID : string)
| OpRemoveAgentFromGroup (groupID agentID : string)
| OpSetUserRoleInGroup (userID groupID role : string)
| OpRemoveUserRoleInGroup (userID groupID : string)
| OpBootstrap (username password random id : string) (salt now : Z)
| OpDeleteBootstrapCreds
| OpDropSessions (userID : string).

Definition apply_access (f : Failures) (op : AccessOp) (d : AccessDB) : AccessDB :=
  match op with
  | OpAuthenticate u pw ip ag sid now => (Authenticate cfg f u pw ip ag sid now d).2
  | OpValidateSession sid now => (ValidateSession f sid now d).2
  | OpLogout sid => (Logout f sid d).2
  | OpUpdatePassword u pw salt => ignored (UpdatePassword f u pw salt d) d
  | OpResetPassword u pw salt => ignored (ResetPassword f u pw salt d) d
  | OpCreateUser p id salt now => match CreateUser f p id salt now d with inl (_, d') => d' | inr _ => d end
  | OpUpdateUserProfile u name active => ignored (UpdateUserProfile f u name active d) d
  | OpDeleteUser u => ignored (delete_user f u d) d
  | OpCreateGroup name desc id now => ignored (CreateGroup f name desc id now d) d
  | OpUpdateGroup g name desc => ignored (UpdateGroup f g name desc d) d
  | OpDeleteGroup g => ignored (DeleteAgentGroup f g d) d
  | OpAddAgentToGroup g a => ignored (SetAgentGroupMember f a g d) d
  | OpRemoveAgentFromGroup g a => ignored (RemoveAgentGroupMember f a g d) d
  | OpSetUserRoleInGroup u g r => ignored (SetUserRoleInGroup f u g r d) d
  | OpRemoveUserRoleInGroup u g => ignored (DeleteUserGroupRole f u g d) d
  | OpBootstrap u pw random id salt now => (BootstrapAdminIfEmpty cfg f u pw random id salt now d).2
  | OpDeleteBootstrapCreds => ignored (DeleteBootstrapCredsFile cfg f d) d
  | OpDropSessions u => ignored (DeleteSessionsByUserID f u d) d
  end.

Definition run_access (ops : list (Failures * AccessOp)) (d : AccessDB) : AccessDB :=
  fold_left (fun d fo => apply_access fo.1 fo.2 d) ops d.

(** ** Properties of the tables that every operation keeps

    [P] is kept by an operation when the statements on users, groups and sessions keep it. *)
Section keeps.
Context (P : AccessDB -> Prop).

Lemma ignored_keeps (r : result AccessError AccessDB) d : P d -> (forall d', r = Ok d' -> P d') -> P (ignored r d).
Proof. intros Hd Hr. destruct r; simpl; auto. Qed.

Lemma exec_keeps {B} r d (k : AccessDB -> result AccessError B * AccessDB) :
  P d -> (forall d', r = Ok d' -> P d' /\ P (k d').2) -> P (exec r d k).2.
Proof. intros Hd Hr. destruct r as [d'|]; simpl; [by apply Hr|done]. Qed.
End keeps.

Lemma validate_wf (f : Failures) sid now d : access_wf d -> access_wf (ValidateSession f sid now d).2.
Proof.
  intros W. unfold ValidateSession. case_bool_decide; [done|]. unfold try.
  destruct (GetSession f sid d) as [s|]; [|done].
  assert (forall d0, access_wf d0 -> access_wf (ignored (DeleteSession f sid d0) d0)) as Hdel.
  { intros d0 W0. apply ignored_keeps; [done|]. intros d' E. by apply (delete_session_wf _ _ _ _ E). }
  destruct (_ || _); [by apply Hdel|].
  match goal with |- context [GetUser f _ ?x] => set (d1 := x) end.
  assert (access_wf d1) as W1.
  { subst d1. case_match; [|done]. apply ignored_keeps; [done|]. intros d' E. by apply (last_seen_wf _ _ _ _ _ E). }
  destruct (GetUser f _ d1) as [u|]; [destruct (uIsActive u); [done|]|]; by apply Hdel.
Qed.

Lemma open_session_wf (f : Failures) user sid ip ag now d :
  access_wf d -> access_wf (open_session cfg f user sid ip ag now d).2.
Proof.
  intros W. unfold open_session. apply exec_keeps; [done|]. intros d2 E2%wrap_ok.
  assert (access_wf d2) as W2 by by apply (create_session_wf _ _ _ _ E2). split; [done|].
  apply exec_keeps; [done|]. intros d3 E3%wrap_ok.
  assert (access_wf d3) as W3 by by apply (update_user_wf _ _ _ _ E3). split; [done|].
  pose proof (enforce_wf f (uID user) (acMaxSessionsPerUser cfg) d3 W3) as W4.
  by destruct (EnforceSessionLimit _ _ _ _) as [[?|] ?].
Qed.

Lemma authenticate_wf (f : Failures) u pw ip ag sid now d :
  access_wf d -> access_wf (Authenticate cfg f u pw ip ag sid now d).2.
Proof.
  intros W. unfold Authenticate. apply exec_keeps; [done|]. intros d1 E1%wrap_ok.
  assert (access_wf d1) as W1 by by apply (delete_expired_wf _ _ _ _ E1). split; [done|]. unfold try.
  destruct (check_credentials f u pw d1) as [user|]; [|done]. by apply open_session_wf.
Qed.

Lemma get_user_ok (f : Failures) uid d u : GetUser f uid d = Ok u -> dbUsers d !! uid = Some u.
Proof. intros [_ G]%stmt_ok. destruct (dbUsers d !! uid); [by injection G as ->|done]. Qed.

(** A row that is written back: the one that was read, but for what is changed *)
Definition changed_row (uid : string) (active : bool -> bool) (d : AccessDB) (row : User) : Prop :=
  exists u, dbUsers d !! uid = Some u /\ uID row = uID u /\ uIsActive row = active (uIsActive u).

Lemma password_row_spec (f : Failures) uid pw salt d row : password_row f uid pw salt d = Ok row -> changed_row uid id d row.
Proof.
  unfold password_row. destruct (GetUser f uid d) as [u|] eqn:G; [|done]. simpl. apply get_user_ok in G.
  destruct (hash_password salt pw) as [h|]; [|done]. intros [= <-]. by exists u.
Qed.

Lemma reset_row_spec (f : Failures) uid pw salt d row : reset_password_row f uid pw salt d = Ok row -> changed_row uid id d row.
Proof.
  unfold reset_password_row. destruct (GetUser f uid d) as [u|] eqn:G; [|done]. simpl. apply get_user_ok in G.
  destruct (_ <? _)%nat; [done|]. destruct (hash_password salt pw) as [h|]; [|done]. intros [= <-]. by exists u.
Qed.

Lemma profile_row_spec (f : Failures) uid name active d row :
  profile_row f uid name active d = Ok row -> changed_row uid (fun _ => active) d row.
Proof.
  unfold profile_row. destruct (GetUser f uid d) as [u|] eqn:G; [|done]. simpl. apply get_user_ok in G.
  intros [= <-]. by exists u.
Qed.

(** The operations on a user end in one update of the row. *)
Definition updates_user (f : Failures) (uid : string) (active : bool -> bool) (d d' : AccessDB) : Prop :=
  exists row, changed_row uid active d row /\ UpdateUser f row d = Ok d'.

Lemma row_written (f : Failures) uid active context r d d' :
  (forall row, r = Ok row -> changed_row uid active d row) ->
  (let? row := r in wrap_err context (UpdateUser f row d)) = Ok d' -> updates_user f uid active d d'.
Proof. intros Hr. destruct r as [row|]; [|done]. intros E%wrap_ok. exists row. auto. Qed.

Lemma update_password_user (f : Failures) uid pw salt d d' :
  UpdatePassword f uid pw salt d = Ok d' -> updates_user f uid id d d'.
Proof. apply row_written. intros row. apply password_row_spec. Qed.

Lemma reset_password_user (f : Failures) uid pw salt d d' :
  ResetPassword f uid pw salt d = Ok d' -> updates_user f uid id d d'.
Proof. apply row_written. intros row. apply reset_row_spec. Qed.

Lemma update_profile_user (f : Failures) uid name active d d' :
  UpdateUserProfile f uid name active d = Ok d' -> updates_user f uid (fun _ => active) d d'.
Proof. apply row_written. intros row. apply profile_row_spec. Qed.

Lemma updates_user_wf (f : Failures) uid active d d' : updates_user f uid active d d' -> access_wf d -> access_wf d'.
Proof. intros (row & _ & E). by apply (update_user_wf _ _ _ _ E). Qed.

Lemma bootstrap_cases (f : Failures) u pw random id salt now d :
  dbUsers (BootstrapAdminIfEmpty cfg f u pw random id salt now d).2 = dbUsers d
    /\ same_access d (set_creds (BootstrapAdminIfEmpty cfg f u pw random id salt now d).2 (dbCreds d))
    /\ dbSessions (BootstrapAdminIfEmpty cfg f u pw random id salt now d).2 = dbSessions d
  \/ exists user d' c, uID user = id /\ insert_user f user d = Ok d'
    /\ (BootstrapAdminIfEmpty cfg f u pw random id salt now d).2 = set_creds d' c.
Proof.
  unfold BootstrapAdminIfEmpty. destruct (wrap_err _ _) as [[|x l]|]; [|by left|by left].
  destruct (hash_password salt _) as [h|]; [|by left]. cbn [rbind].
  match goal with |- context [insert_user f ?x d] => set (user := x) end.
  destruct (wrap_err "create bootstrap admin" (insert_user f user d)) as [d'|] eqn:E; [|by left]. apply wrap_ok in E.
  right. exists user, d'.
  assert (forall d0, set_creds d0 (dbCreds d0) = d0) as Hid by by intros [].
  destruct (_ && _); [|exists (dbCreds d'); by rewrite Hid].
  destruct (f "create credentials dir"); [exists (dbCreds d'); by rewrite Hid|].
  destruct (f "write bootstrap credentials"); [exists (dbCreds d'); by rewrite Hid|]. eauto.
Qed.

Lemma access_step_wf (f : Failures) op d : access_wf d -> access_wf (apply_access f op d).
Proof.
  intros W. destruct op; simpl.
  - by apply authenticate_wf.
  - by apply validate_wf.
  - unfold Logout. case_bool_decide; [done|]. destruct (DeleteSession f sid d) eqn:E; [by apply (delete_session_wf _ _ _ _ E)|].
    by destruct (error_is _ _).
  - apply ignored_keeps; [done|]. intros d' E%update_password_user. by apply (updates_user_wf _ _ _ _ _ E).
  - apply ignored_keeps; [done|]. intros d' E%reset_password_user. by apply (updates_user_wf _ _ _ _ _ E).
  - unfold CreateUser. destruct (bool_decide _); [done|]. destruct (_ <? _)%nat; [done|].
    destruct (hash_password _ _) as [h|]; [|done]. simpl. destruct (wrap_err _ _) as [d'|] eqn:E; [|done]. simpl.
    apply wrap_ok in E. by apply (insert_user_wf _ _ _ _ E).
  - apply ignored_keeps; [done|]. intros d' E%update_profile_user. by apply (updates_user_wf _ _ _ _ _ E).
  - apply ignored_keeps; [done|]. intros d' E. by apply (delete_user_wf _ _ _ _ E).
  - apply ignored_keeps; [done|]. intros d'. unfold CreateGroup. case_bool_decide; [done|].
    intros E%wrap_ok. by apply (create_group_wf _ _ _ _ E).
  - apply ignored_keeps; [done|]. intros d'. unfold UpdateGroup. destruct (GetAgentGroup f groupID d); [|done]. simpl.
    case_bool_decide; [done|]. intros E%wrap_ok. by apply (update_group_wf _ _ _ _ E).
  - apply ignored_keeps; [done|]. intros d' E. by apply (delete_group_wf _ _ _ _ E).
  - apply ignored_keeps; [done|]. intros d' E. by apply (set_member_wf _ _ _ _ _ E).
  - apply ignored_keeps; [done|]. intros d' E. by apply (remove_member_wf _ _ _ _ _ E).
  - apply ignored_keeps; [done|]. intros d'. unfold SetUserRoleInGroup.
    destruct (IsDefaultRole (trim_space role)) eqn:R; [|done]. simpl. intros E. by apply (set_role_wf _ _ _ _ _ _ R E).
  - apply ignored_keeps; [done|]. intros d' E. by apply (delete_role_wf _ _ _ _ _ E).
  - destruct (bootstrap_cases f username password random id salt now d) as [(Hu & (_ & Hg & Hm & Hr & Ha & _) & Hs)|(user & d' & c & _ & E & ->)].
    + simpl in *. destruct W as [Us Na Me Ro Se]. split; rewrite ?Hu, ?Hg, ?Hm, ?Hr, ?Ha, ?Hs; done.
    + apply insert_user_wf in E; [|done]. by destruct E.
  - apply ignored_keeps; [done|]. intros d'. unfold DeleteBootstrapCredsFile. case_bool_decide; [by intros [= <-]|].
    destruct (f "remove"); [done|]. intros [= <-]. by destruct W.
  - apply ignored_keeps; [done|]. intros d' E. by apply (drop_sessions_wf _ _ _ _ E).
Qed.

Lemma access_run_wf ops d : access_wf d -> access_wf (run_access ops d).
Proof.
  unfold run_access. revert d. induction ops as [|fo ops IH]; intros d W; simpl; [done|].
  by apply IH, access_step_wf.
Qed.

(** whatever is done, with any statements failing: names of users stay unique, members,
    roles and sessions belong to rows that exist, and every role is one of the four. *)
Theorem access_invariant ops d : access_wf d -> access_wf (run_access ops d).
Proof. apply access_run_wf. Qed.

(** * A user who was deactivated or deleted *)

(** No row, or, unless the user is [gone], a row that is not active *)
Definition locked (gone : bool) (uid : string) (d : AccessDB) : Prop :=
  forall u, dbUsers d !! uid = Some u -> gone = false /\ uIsActive u = false.

(** The operations that do not make the user active again *)
Definition leaves_locked (uid : string) (op : AccessOp) : Prop :=
  match op with
  | OpUpdateUserProfile u _ active => u = uid -> active = false
  | OpCreateUser _ id _ _ | OpBootstrap _ _ _ id _ _ => id <> uid
  | _ => True
  end.

Lemma locked_same gone uid d d' : dbUsers d' = dbUsers d -> locked gone uid d -> locked gone uid d'.
Proof. unfold locked. by intros ->. Qed.

Lemma locked_insert (f : Failures) gone uid u d d' :
  insert_user f u d = Ok d' -> uID u <> uid -> locked gone uid d -> locked gone uid d'.
Proof.
  unfold insert_user. intros E Ene L. stmt_inv E. destruct (_ || _); [done|]. injection E as <-.
  intros v. simpl. rewrite lookup_insert_ne by done. apply L.
Qed.

(** The row of a user who is gone cannot be updated. *)
Lemma locked_update (f : Failures) gone uid u d d' :
  UpdateUser f u d = Ok d' -> (gone = false -> uID u = uid -> uIsActive u = false) -> locked gone uid d -> locked gone uid d'.
Proof.
  intros (old & Ho & -> & _)%update_user_cases Hu L v. simpl.
  intros [[Hk <-]|[_ Hk]]%lookup_insert_Some; [|by apply L]. simpl. rewrite Hk in Ho. destruct (L _ Ho). auto.
Qed.

Lemma locked_row gone uid u active d row :
  changed_row u active d row -> access_wf d -> (u = uid -> active false = false) -> locked gone uid d ->
  uID row = uid -> uIsActive row = false.
Proof.
  intros (v & Hv & Hid & Ha) W Hact L. rewrite Hid, (wf_users _ W _ _ Hv). intros <-. destruct (L _ Hv) as [_ Hf]. rewrite Ha, Hf. auto.
Qed.

Lemma locked_updates (f : Failures) gone uid u active d d' :
  updates_user f u active d d' -> access_wf d -> (u = uid -> active false = false) -> locked gone uid d -> locked gone uid d'.
Proof.
  intros (row & Hrow & E) W Hact L. apply (locked_update _ _ _ _ _ _ E); [|done]. intros _. by apply (locked_row gone uid u active d).
Qed.

Lemma locked_delete (f : Failures) gone uid u d d' : delete_user f u d = Ok d' -> locked gone uid d -> locked gone uid d'.
Proof.
  unfold delete_user. intros E L. stmt_inv E. destruct (dbUsers d !! u); [|done]. injection E as <-.
  intros v. simpl. intros [_ Hv]%lookup_delete_Some. by apply L.
Qed.

Lemma check_active (f : Failures) name pw d u :
  check_credentials f name pw d = Ok u ->
  uIsActive u = true /\ u ∈ users_list d /\ bcrypt_compare (uPasswordHash u) pw = true /\ uUsername u = name.
Proof.
  unfold check_credentials. destruct (GetUserByUsername f name d) as [v|e] eqn:G; [|by destruct (error_is _ _)].
  apply stmt_ok in G as [_ G]. destruct (List.find _ _) as [v'|] eqn:Hf; [|done]. injection G as ->.
  apply find_some in Hf as [Hin Hn]. unfold has_username in Hn. to_prop.
  destruct (uIsActive v) eqn:Ha; [|done]. simpl. destruct (bcrypt_compare _ _) eqn:C; [|done]. simpl.
  intros [= ->]. by split_and!; [|apply list_elem_of_In| |].
Qed.

Lemma enforce_same (f : Failures) uid n d : same_access d (EnforceSessionLimit f uid n d).2.
Proof.
  unfold EnforceSessionLimit. destruct (n <=? 0); [apply same_access_refl|].
  destruct (f "list sessions for limit"); [apply same_access_refl|]. generalize (drop (Z.to_nat n) (live_sessions uid d)).
  intros l. revert d. induction l as [|s l IH]; intros d; simpl; [apply same_access_refl|].
  destruct (f _); [apply same_access_refl|].
  apply (same_access_trans _ (set_sessions d (delete (ssID s) (dbSessions d)))); [done|apply IH].
Qed.

(** A statement on a table other than the users' *)
Ltac users_unchanged H := stmt_inv H; repeat case_match; simplify_eq; done.

Lemma create_session_users (f : Failures) s d d' : CreateSession f s d = Ok d' -> dbUsers d' = dbUsers d.
Proof. unfold CreateSession. intros E. users_unchanged E. Qed.

Lemma open_session_locked (f : Failures) gone uid user sid ip ag now d :
  (gone = false -> uID user = uid -> uIsActive user = false) -> locked gone uid d -> locked gone uid (open_session cfg f user sid ip ag now d).2.
Proof.
  intros Hu L. unfold open_session. apply exec_keeps; [done|]. intros d2 E2%wrap_ok.
  assert (locked gone uid d2) as L2 by (apply (locked_same _ _ d); [by apply (create_session_users _ _ _ _ E2)|done]).
  split; [done|]. apply exec_keeps; [done|]. intros d3 E3%wrap_ok.
  assert (locked gone uid d3) as L3 by by apply (locked_update _ _ _ _ _ _ E3).
  split; [done|]. pose proof (enforce_same f (uID user) (acMaxSessionsPerUser cfg) d3) as [Hs _].
  destruct (EnforceSessionLimit _ _ _ _) as [[?|] d4]; by apply (locked_same _ _ d3).
Qed.

Lemma expired_users (f : Failures) now d d' : DeleteExpiredSessions f now d = Ok d' -> dbUsers d' = dbUsers d.
Proof. unfold DeleteExpiredSessions. intros E. users_unchanged E. Qed.

(** Who logs in was not locked out when the row was read. *)
Lemma check_not_locked (f : Failures) gone uid name pw d user :
  access_wf d -> locked gone uid d -> check_credentials f name pw d = Ok user -> uID user <> uid.
Proof.
  intros W L (Ha & [k Hk]%users_list_elem & _)%check_active. pose proof (wf_users _ W _ _ Hk) as Hid.
  intros <-. subst k. destruct (L _ Hk). congruence.
Qed.

Lemma authenticate_locked (f : Failures) gone uid u pw ip ag sid now d :
  access_wf d -> locked gone uid d -> locked gone uid (Authenticate cfg f u pw ip ag sid now d).2.
Proof.
  intros W L. unfold Authenticate. apply exec_keeps; [done|]. intros d1 E1%wrap_ok.
  pose proof (delete_expired_wf _ _ _ _ E1 W) as W1.
  assert (locked gone uid d1) as L1 by (apply (locked_same _ _ d); [by apply (expired_users _ _ _ _ E1)|done]).
  split; [done|]. unfold try. destruct (check_credentials f u pw d1) as [user|] eqn:C; [|done].
  apply open_session_locked; [|done]. intros _ Hid. by destruct (check_not_locked _ _ _ _ _ _ _ W1 L1 C).
Qed.

Lemma step_locked (f : Failures) gone uid op d :
  access_wf d -> leaves_locked uid op -> locked gone uid d -> locked gone uid (apply_access f op d).
Proof.
  intros W Hop L. pose proof (locked_same gone uid d) as Same.
  destruct op; simpl in *; try (apply ignored_keeps; [done|]; intros d').
  - by apply authenticate_locked.
  - apply Same; [|done]. apply (validate_same f sid now d).
  - apply Same; [|done]. unfold Logout. case_bool_decide; [done|]. destruct (DeleteSession f sid d) as [d'|] eqn:E.
    + unfold DeleteSession in E. users_unchanged E.
    + by destruct (error_is _ _).
  - intros E%update_password_user. by apply (locked_updates _ _ _ _ _ _ _ E).
  - intros E%reset_password_user. by apply (locked_updates _ _ _ _ _ _ _ E).
  - unfold CreateUser. destruct (bool_decide _); [done|]. destruct (_ <? _)%nat; [done|].
    destruct (hash_password _ _) as [h|]; [|done]. simpl. destruct (wrap_err _ _) as [d'|] eqn:E; [|done]. simpl.
    apply wrap_ok in E. by apply (locked_insert _ _ _ _ _ _ E).
  - intros E%update_profile_user. by apply (locked_updates _ _ _ _ _ _ _ E).
  - intros E. by apply (locked_delete _ _ _ _ _ _ E).
  - unfold CreateGroup. case_bool_decide; [done|]. intros E%wrap_ok. unfold CreateAgentGroup in E. apply Same; [|done]. users_unchanged E.
  - unfold UpdateGroup. destruct (GetAgentGroup f groupID d); [|done]. simpl. case_bool_decide; [done|].
    intros E%wrap_ok. unfold UpdateAgentGroup in E. apply Same; [|done]. users_unchanged E.
  - unfold DeleteAgentGroup. intros E. apply Same; [|done]. users_unchanged E.
  - unfold SetAgentGroupMember. intros E. apply Same; [|done]. users_unchanged E.
  - unfold RemoveAgentGroupMember. intros E. apply Same; [|done]. users_unchanged E.
  - unfold SetUserRoleInGroup. destruct (IsDefaultRole _); [|done]. simpl. unfold SetUserGroupRole. intros E. apply Same; [|done]. users_unchanged E.
  - unfold DeleteUserGroupRole. intros E. apply Same; [|done]. users_unchanged E.
  - destruct (bootstrap_cases f username password random id salt now d) as [(Hu & _)|(user & d' & c & Hid & E & ->)]; [by apply Same|].
    subst id. apply (locked_same _ _ d'); [done|]. by apply (locked_insert _ _ _ _ _ _ E).
  - unfold DeleteBootstrapCredsFile. intros E. apply Same; [|done]. repeat case_match; by simplify_eq.
  - unfold DeleteSessionsByUserID. intros E. apply Same; [|done]. users_unchanged E.
Qed.

(** ** Calls that overlap

    A login and every change of a user read the row, and write the whole row back later: what others do in
    between comes between the two steps. *)

(** A call that has read the row of a user and has yet to write it *)
Inductive Flight : Type :=
| InLogin (user : User) (ip agent sid : string) (now : Z)
| InUpdate (context : string) (row : User).

Definition flight_row (fl : Flight) : User := match fl with InLogin user _ _ _ _ => user | InUpdate _ row => row end.

Inductive UserRead : Type :=
| ReadLogin (username password ip agent sid : string) (now : Z)
| ReadPassword (userID password : string) (salt : Z)
| ReadReset (userID password : string) (salt : Z)
| ReadProfile (userID displayName : string) (active : bool).

(** The first half of a call, up to where the row is about to be written; it may end there. *)
Definition read_user_row (f : Failures) (rd : UserRead) (d : AccessDB) : option Flight * AccessDB :=
  let update context (r : result AccessError User) := match r with inl row => Some (InUpdate context row) | inr _ => None end in
  match rd with
  | ReadLogin username password ip agent sid now =>
    match DeleteExpiredSessions f now d with
    | inr _ => (None, d)
    | inl d => (match check_credentials f username password d with inl user => Some (InLogin user ip agent sid now) | inr _ => None end, d)
    end
  | ReadPassword uid pw salt => (update "update password" (password_row f uid pw salt d), d)
  | ReadReset uid pw salt => (update "reset password" (reset_password_row f uid pw salt d), d)
  | ReadProfile uid name active => (update "update user profile" (profile_row f uid name active d), d)
  end.

(** The second half *)
Definition write_user_row (f : Failures) (fl : Flight) (d : AccessDB) : AccessDB :=
  match fl with
  | InLogin user ip agent sid now => (open_session cfg f user sid ip agent now d).2
  | InUpdate context row => ignored (wrap_err context (UpdateUser f row d)) d
  end.

Definition whole_call (rd : UserRead) : AccessOp :=
  match rd with
  | ReadLogin u pw ip ag sid now => OpAuthenticate u pw ip ag sid now
  | ReadPassword uid pw salt => OpUpdatePassword uid pw salt
  | ReadReset uid pw salt => OpResetPassword uid pw salt
  | ReadProfile uid name active => OpUpdateUserProfile uid name active
  end.

(** When nothing comes between them the halves are the call. *)
Lemma call_in_two_steps (f : Failures) rd d :
  apply_access f (whole_call rd) d
  = match read_user_row f rd d with (Some fl, d') => write_user_row f fl d' | (None, d') => d' end.
Proof.
  destruct rd; simpl.
  - unfold Authenticate, try. destruct (DeleteExpiredSessions f now d) as [d'|]; [|done]. simpl. by destruct (check_credentials _ _ _ _).
  - unfold UpdatePassword. by destruct (password_row _ _ _ _ _).
  - unfold ResetPassword. by destruct (reset_password_row _ _ _ _ _).
  - unfold UpdateUserProfile. by destruct (profile_row _ _ _ _ _).
Qed.

Record AccessState := mkAccessState { asDB : AccessDB; asFlights : list Flight }.

Inductive AccessStep : Type :=
| StepWhole (op : AccessOp)
| StepRead (rd : UserRead)
| StepWrite (i : nat).

Definition overlap_step (f : Failures) (st : AccessStep) (s : AccessState) : AccessState :=
  match st with
  | StepWhole op => mkAccessState (apply_access f op (asDB s)) (asFlights s)
  | StepRead rd =>
    let '(fl, d) := read_user_row f rd (asDB s) in
    mkAccessState d (asFlights s ++ match fl with Some fl => [fl] | None => [] end)
  | StepWrite i =>
    match asFlights s !! i with
    | None => s
    | Some fl => mkAccessState (write_user_row f fl (asDB s)) (delete i (asFlights s))
    end
  end.

Definition run_overlap (steps : list (Failures * AccessStep)) (s : AccessState) : AccessState :=
  fold_left (fun s fs => overlap_step fs.1 fs.2 s) steps s.

(** No call under way has read the row of the user while it was active. *)
Definition none_in_flight (uid : string) (s : AccessState) : Prop :=
  Forall (fun fl => uID (flight_row fl) = uid -> uIsActive (flight_row fl) = false) (asFlights s).

Definition step_leaves_locked (uid : string) (st : AccessStep) : Prop :=
  match st with StepWhole op => leaves_locked uid op | StepRead rd => leaves_locked uid (whole_call rd) | StepWrite _ => True end.

Definition shut (gone : bool) (uid : string) (s : AccessState) : Prop :=
  access_wf (asDB s) /\ locked gone uid (asDB s) /\ (gone = false -> none_in_flight uid s).

Lemma read_shut (f : Failures) gone uid rd d fl d' :
  access_wf d -> leaves_locked uid (whole_call rd) -> locked gone uid d -> read_user_row f rd d = (fl, d') ->
  access_wf d' /\ locked gone uid d' /\ forall x, fl = Some x -> uID (flight_row x) = uid -> uIsActive (flight_row x) = false.
Proof.
  intros W Hop L. destruct rd; simpl.
  - destruct (DeleteExpiredSessions f now d) as [d1|] eqn:E; [|by intros [= <- <-]].
    pose proof (delete_expired_wf _ _ _ _ E W) as W1. pose proof (locked_same gone uid _ _ (expired_users _ _ _ _ E) L) as L1.
    intros [= <- <-]. split_and!; [done|done|]. destruct (check_credentials f username password d1) as [user|] eqn:C; [|done].
    intros x [= <-] Hid. by destruct (check_not_locked _ _ _ _ _ _ _ W1 L1 C).
  - intros [= <- <-]. split_and!; [done|done|]. destruct (password_row _ _ _ _ _) as [row|] eqn:R; [|done]. intros x [= <-].
    by apply (locked_row gone _ _ _ _ _ (password_row_spec _ _ _ _ _ _ R)).
  - intros [= <- <-]. split_and!; [done|done|]. destruct (reset_password_row _ _ _ _ _) as [row|] eqn:R; [|done]. intros x [= <-].
    by apply (locked_row gone _ _ _ _ _ (reset_row_spec _ _ _ _ _ _ R)).
  - intros [= <- <-]. split_and!; [done|done|]. destruct (profile_row _ _ _ _ _) as [row|] eqn:R; [|done]. intros x [= <-].
    by apply (locked_row gone _ _ _ _ _ (profile_row_spec _ _ _ _ _ _ R)).
Qed.

Lemma write_shut (f : Failures) gone uid fl d :
  access_wf d -> (gone = false -> uID (flight_row fl) = uid -> uIsActive (flight_row fl) = false) -> locked gone uid d ->
  access_wf (write_user_row f fl d) /\ locked gone uid (write_user_row f fl d).
Proof.
  intros W Hfl L. destruct fl as [user ip ag sid now|context row]; simpl in *.
  - split; [by apply open_session_wf|by apply open_session_locked].
  - destruct (wrap_err context (UpdateUser f row d)) as [d'|] eqn:E; [|done]. apply wrap_ok in E.
    split; [by apply (update_user_wf _ _ _ _ E)|by apply (locked_update _ _ _ _ _ _ E)].
Qed.

Lemma overlap_step_shut (f : Failures) gone uid st s :
  step_leaves_locked uid st -> shut gone uid s -> shut gone uid (overlap_step f st s).
Proof.
  intros Hst (W & L & Hfl). destruct st as [op|rd|i]; simpl in *.
  - split_and!; [by apply access_step_wf|by apply step_locked|done].
  - destruct (read_user_row f rd (asDB s)) as [fl d'] eqn:E. destruct (read_shut _ _ _ _ _ _ _ W Hst L E) as (W' & L' & Hx).
    split_and!; [done|done|]. intros Hg. apply Forall_app. split; [by apply Hfl|]. destruct fl; repeat constructor. by apply Hx.
  - destruct (asFlights s !! i) as [fl|] eqn:E; [|done].
    destruct (write_shut f gone uid fl (asDB s) W) as [W' L']; [|done|].
    + intros Hg. exact (proj1 (Forall_lookup _ _) (Hfl Hg) _ _ E).
    + split_and!; [done|done|]. intros Hg. by apply Forall_delete, Hfl.
Qed.

Lemma overlap_run_shut gone uid steps s :
  Forall (fun fs => step_leaves_locked uid fs.2) steps -> shut gone uid s -> shut gone uid (run_overlap steps s).
Proof.
  unfold run_overlap. intros H1. revert s. induction H1 as [|fs steps Hst _ IH]; intros s Hs; simpl; [done|].
  by apply IH, overlap_step_shut.
Qed.

(** What takes a user's access away: an update of the profile, whole or the second half of one, or the deletion *)
Definition deactivates (f : Failures) (uid : string) (s s1 : AccessState) : Prop :=
  (exists name, UpdateUserProfile f uid name false (asDB s) = Ok (asDB s1) /\ asFlights s1 = asFlights s)
  \/ (exists i context row, asFlights s !! i = Some (InUpdate context row) /\ uID row = uid /\ uIsActive row = false
       /\ UpdateUser f row (asDB s) = Ok (asDB s1) /\ asFlights s1 = delete i (asFlights s)).

Definition deletes (f : Failures) (uid : string) (s s1 : AccessState) : Prop := delete_user f uid (asDB s) = Ok (asDB s1).

Lemma deactivates_locked (f : Failures) uid s s1 :
  access_wf (asDB s) -> deactivates f uid s s1 -> access_wf (asDB s1) /\ locked false uid (asDB s1).
Proof.
  intros W Hd. cut (exists row, uID row = uid /\ uIsActive row = false /\ UpdateUser f row (asDB s) = Ok (asDB s1)).
  { intros (row & <- & Ha & E). split; [by apply (update_user_wf _ _ _ _ E)|].
    destruct (update_user_cases _ _ _ _ E) as (old & _ & -> & _). intros v. simpl. rewrite lookup_insert_eq. by intros [= <-]. }
  destruct Hd as [(name & (row & (u & Hu & Hid & Ha) & E)%update_profile_user & _)|(i & context & row & _ & Hid & Ha & E & _)]; exists row; [|done].
  split_and!; [by rewrite Hid, (wf_users _ W _ _ Hu)|done|done].
Qed.

Lemma deletes_locked (f : Failures) uid s s1 :
  access_wf (asDB s) -> deletes f uid s s1 -> access_wf (asDB s1) /\ locked true uid (asDB s1).
Proof.
  unfold deletes. intros W E. split; [by apply (delete_user_wf _ _ _ _ E)|]. unfold delete_user in E. stmt_inv E.
  destruct (dbUsers (asDB s) !! uid); [|done]. injection E as <-. intros v. simpl. by rewrite lookup_delete_eq.
Qed.

(** C14: once a user is deleted, or deactivated while no login of the user nor other change of the user is between
    reading the row and writing it back, no request passes as that user, whatever happens afterwards (logins,
    password changes, calls that overlap, other users, failing statements), until the user is activated again or
    the identifier is used for a new user. *)
Theorem deactivated_user_locked_out `{UnicodeCase} url_host equal_fold trustedProxies
    (f : Failures) uid s s1 steps (g : Failures) now r p d2 :
  access_wf (asDB s) -> (deactivates f uid s s1 /\ none_in_flight uid s1) \/ deletes f uid s s1 ->
  Forall (fun fs => step_leaves_locked uid fs.2) steps ->
  RequireAuth url_host equal_fold trustedProxies g now r (asDB (run_overlap steps s1)) = (Pass p, d2) ->
  duID p <> uid.
Proof.
  intros W Hout Hsteps (_ & u & Hadm & ->)%require_auth_spec. simpl. intros <-.
  assert (exists gone, shut gone (uID u) s1) as [gone Hs].
  { destruct Hout as [[Hd Hn]|Hd]; [exists false; destruct (deactivates_locked _ _ _ _ W Hd)|exists true; destruct (deletes_locked _ _ _ _ W Hd)]; done. }
  apply (overlap_run_shut _ _ _ _ Hsteps) in Hs as (W2 & L2 & _).
  destruct Hadm as ((sid & _ & _ & ss & _ & _ & _ & Hu & Ha) & _).
  rewrite <- (wf_users _ W2 _ _ Hu) in Hu. destruct (L2 _ Hu) as [_ Hf]. by rewrite Hf in Ha.
Qed.

(** * Logins *)

#[local] Instance UserSession_eq_dec : EqDecision UserSession.
Proof. solve_decision. Defined.

Definition live (uid : string) (s : UserSession) : Prop := ssUserID s = uid /\ ssRevokedAt s = None.

#[local] Instance live_dec uid s : Decision (live uid s).
Proof. unfold live. apply _. Defined.

Definition live_map (uid : string) (d : AccessDB) : gmap string UserSession :=
  filter (fun kv => live uid kv.2) (dbSessions d).

Lemma insert_newest_perm s l : insert_newest s l ≡ₚ s :: l.
Proof.
  induction l as [|x l IH]; simpl; [done|]. destruct (_ <=? _); [done|]. rewrite IH. constructor.
Qed.

Lemma newest_perm l : foldr insert_newest [] l ≡ₚ l.
Proof. induction l as [|x l IH]; simpl; [done|]. by rewrite insert_newest_perm, IH. Qed.

Lemma live_list_perm uid (l : list UserSession) :
  List.filter (fun s => bool_decide (ssUserID s = uid) && bool_decide (ssRevokedAt s = None)) l = filter (live uid) l.
Proof.
  induction l as [|s l IH]; [done|]. simpl. rewrite filter_cons, IH.
  case_decide as E; unfold live in E; repeat case_bool_decide; simpl; tauto.
Qed.

Lemma map_to_list_live uid d :
  map_to_list (live_map uid d) ≡ₚ filter (fun kv => live uid kv.2) (map_to_list (dbSessions d)).
Proof.
  apply NoDup_Permutation; [apply NoDup_map_to_list|apply NoDup_filter, NoDup_map_to_list|].
  intros [k s]. unfold live_map. rewrite elem_of_map_to_list, map_lookup_filter_Some, list_elem_of_filter, elem_of_map_to_list.
  tauto.
Qed.

Lemma live_sessions_perm uid d : live_sessions uid d ≡ₚ map snd (map_to_list (live_map uid d)).
Proof.
  unfold live_sessions. rewrite newest_perm, live_list_perm, map_to_list_live. generalize (map_to_list (dbSessions d)).
  intros l. induction l as [|[k s] l IH]; [done|]. simpl. rewrite !filter_cons. simpl.
  destruct (decide (live uid s)); simpl; by rewrite IH.
Qed.

Lemma live_sessions_length uid d : length (live_sessions uid d) = size (live_map uid d).
Proof. rewrite (Permutation_length (live_sessions_perm uid d)), length_map. apply length_map_to_list. Qed.

(** The sessions of a user, each under its own key *)
Lemma live_sessions_elem uid d s :
  access_wf d -> s ∈ live_sessions uid d <-> dbSessions d !! ssID s = Some s /\ live uid s.
Proof.
  intros W. rewrite live_sessions_perm, list_elem_of_fmap. split.
  - intros ([k x] & -> & Hin). apply elem_of_map_to_list, map_lookup_filter_Some in Hin as [Hk Hl]. simpl in *.
    by rewrite (proj1 (wf_sessions _ W _ _ Hk)).
  - intros [Hk Hl]. exists (ssID s, s). split; [done|]. by apply elem_of_map_to_list, map_lookup_filter_Some.
Qed.

Lemma live_sessions_ids uid d : access_wf d -> NoDup (map ssID (live_sessions uid d)).
Proof.
  intros W. rewrite live_sessions_perm, map_map.
  rewrite (map_ext_in (fun kv : string * UserSession => ssID kv.2) fst); [apply NoDup_fst_map_to_list|].
  intros [k s] Hin. apply list_elem_of_In, elem_of_map_to_list, map_lookup_filter_Some in Hin as [Hk _].
  apply (wf_sessions _ W _ _ Hk).
Qed.

(** A loop that ended without an error deleted the rows it was given. *)
Lemma delete_excess_done (f : Failures) l d d' :
  delete_excess f l d = (None, d') -> dbSessions d' = foldl (fun m s => delete (ssID s) m) (dbSessions d) l.
Proof.
  revert d. induction l as [|s l IH]; intros d; simpl; [by intros [= <-]|]. destruct (f _); [done|]. apply IH.
Qed.

Lemma foldl_delete_lookup l (m : gmap string UserSession) k :
  foldl (fun m s => delete (ssID s) m) m l !! k = if bool_decide (k ∈ map ssID l) then None else m !! k.
Proof.
  revert m. induction l as [|s l IH]; intros m; simpl; [done|]. rewrite IH.
  destruct (decide (k = ssID s)) as [->|Hne].
  - rewrite lookup_delete_eq, (bool_decide_eq_true_2 (ssID s ∈ ssID s :: _)) by by left. by case_bool_decide.
  - rewrite lookup_delete_ne by done. case_bool_decide as H1; case_bool_decide as H2; try done; rewrite elem_of_cons in H2; tauto.
Qed.

Lemma enforce_live (f : Failures) uid n d d' :
  access_wf d -> 0 < n -> EnforceSessionLimit f uid n d = (None, d') ->
  live_map uid d' = list_to_map (map (fun s => (ssID s, s)) (take (Z.to_nat n) (live_sessions uid d))).
Proof.
  intros W Hn. unfold EnforceSessionLimit. rewrite (proj2 (Z.leb_gt n 0)) by done.
  destruct (f "list sessions for limit"); [done|]. intros E%delete_excess_done.
  pose proof (live_sessions_ids uid d W) as Hnd. pose proof (live_sessions_elem uid d) as Hel.
  set (l := live_sessions uid d) in *. set (k := Z.to_nat n) in *.
  rewrite <- (take_drop k l), map_app in Hnd. apply NoDup_app in Hnd as (Hnd & Hdis & _).
  apply map_eq. intros i. apply option_eq. intros s. unfold live_map.
  rewrite map_lookup_filter_Some, E, foldl_delete_lookup. simpl.
  rewrite <- elem_of_list_to_map by (rewrite <- list_fmap_compose; done).
  split.
  - intros [Hs Hl]. apply list_elem_of_fmap. case_bool_decide as Hi; [done|]. pose proof (proj1 (wf_sessions _ W _ _ Hs)) as <-.
    exists s. split; [done|]. assert (s ∈ l) as Hin by (by apply Hel). rewrite <- (take_drop k l) in Hin.
    apply elem_of_app in Hin as [|Hin]; [done|]. destruct Hi. by apply list_elem_of_fmap_2.
  - intros (x & [= -> ->] & Hin)%list_elem_of_fmap. assert (x ∈ l) as Hl by (rewrite <- (take_drop k l); apply elem_of_app; by left).
    apply Hel in Hl as [Hrow Hlive]; [|done]. rewrite bool_decide_eq_false_2; [done|].
    intros Hd. by apply (Hdis (ssID x)); [apply list_elem_of_fmap_2|].
Qed.

Lemma enforce_limit (f : Failures) uid n d d' :
  access_wf d -> 0 < n -> EnforceSessionLimit f uid n d = (None, d') -> Z.of_nat (length (live_sessions uid d')) <= n.
Proof.
  intros W Hn E. rewrite live_sessions_length, (enforce_live _ _ _ _ _ W Hn E).
  pose proof (live_sessions_ids uid d W) as Hnd. rewrite map_size_list_to_map.
  - rewrite length_map, length_take. lia.
  - rewrite <- list_fmap_compose. rewrite <- (take_drop (Z.to_nat n) (live_sessions uid d)), map_app in Hnd.
    by apply NoDup_app in Hnd as [Hnd _].
Qed.

(** What a login that succeeded did *)
Lemma authenticate_ok (f : Failures) name pw ip ag sid now d r d' :
  access_wf d -> Authenticate cfg f name pw ip ag sid now d = (Ok r, d') ->
  exists u d3, access_wf d3 /\ uIsActive u = true /\ bcrypt_compare (uPasswordHash u) pw = true /\ uUsername u = name
    /\ lrSessionID r = sid /\ lrUserID r = uID u /\ lrExpiresAt r = now + acSessionTTL cfg
    /\ dbUsers d3 !! uID u = Some (updated_user u (logged_in u now))
    /\ (exists m, m ⊆ dbSessions d
          /\ dbSessions d3 = <[sid := session_row (mkUserSession sid (uID u) now (lrExpiresAt r) (Some now) ip ag None)]> m)
    /\ EnforceSessionLimit f (uID u) (acMaxSessionsPerUser cfg) d3 = (None, d').
Proof.
  intros W. unfold Authenticate. destruct (DeleteExpiredSessions f now d) as [d1|] eqn:E1; [|done]. simpl.
  pose proof (delete_expired_wf _ _ _ _ E1 W) as W1. unfold DeleteExpiredSessions in E1. stmt_inv E1.
  injection E1 as E1. unfold try. destruct (check_credentials f name pw d1) as [u|] eqn:C; [|done].
  apply check_active in C as (Ha & [k Hk]%users_list_elem & Hc & Hn). unfold open_session.
  destruct (CreateSession f _ d1) as [d2|] eqn:E2; [|done]. simpl. pose proof (create_session_wf _ _ _ _ E2 W1) as W2.
  pose proof (create_session_users _ _ _ _ E2) as U2. destruct (UpdateUser f _ d2) as [d3|] eqn:E3; [|done]. simpl.
  pose proof (update_user_wf _ _ _ _ E3 W2) as W3. destruct (EnforceSessionLimit _ _ _ d3) as [[e|] d4] eqn:E4; [done|].
  intros [= <- <-]. exists u, d3. simpl. pose proof (wf_users _ W1 _ _ Hk) as Hid. subst k.
  destruct (update_user_cases _ _ _ _ E3) as (old & Ho & -> & _). simpl in Ho. rewrite U2, Hk in Ho. injection Ho as <-.
  split_and!; try done.
  - apply lookup_insert_eq.
  - exists (dbSessions d1). split; [subst d1; apply map_filter_subseteq|]. simpl.
    unfold CreateSession in E2. stmt_inv E2. destruct (_ || _); [done|]. by injection E2 as <-.
Qed.

(** a login that succeeded leaves the user with at most as many sessions as the limit. *)
Theorem login_keeps_session_limit (f : Failures) name pw ip ag sid now d r d' :
  access_wf d -> 0 < acMaxSessionsPerUser cfg -> Authenticate cfg f name pw ip ag sid now d = (Ok r, d') ->
  Z.of_nat (length (live_sessions (lrUserID r) d')) <= acMaxSessionsPerUser cfg.
Proof.
  intros W Hmax (u & d3 & W3 & _ & _ & _ & _ & -> & _ & _ & _ & E)%authenticate_ok; [|done].
  by apply (enforce_limit f _ _ d3).
Qed.

Lemma newest_head x l :
  x ∈ l -> (forall y, y ∈ l -> y = x \/ ssCreatedAt y < ssCreatedAt x) ->
  exists l', foldr insert_newest [] l = x :: l'.
Proof.
  induction l as [|y l IH]; intros Hx Hlt; [by apply elem_of_nil in Hx|]. simpl.
  destruct (decide (x ∈ l)) as [Hin|Hout].
  - destruct IH as [l' ->]; [done|set_solver|]. simpl.
    destruct (Hlt y (list_elem_of_here _ _)) as [->|Hy]; [by rewrite Z.leb_refl; eauto|].
    rewrite (proj2 (Z.leb_gt _ _)) by done. eauto.
  - apply elem_of_cons in Hx as [<-|]; [|done]. pose proof (newest_perm l) as Hp.
    destruct (foldr insert_newest [] l) as [|z l'] eqn:E; simpl; [eauto|].
    assert (z ∈ l) as Hz by (rewrite <- Hp; by left).
    destruct (Hlt z) as [->|Hy]; [by right|done|]. rewrite (proj2 (Z.leb_le _ _)) by lia. eauto.
Qed.

(** The newest session is not one of those the limit deletes. *)
Lemma enforce_keeps_newest (f : Failures) uid n d d' s :
  access_wf d -> 0 < n -> EnforceSessionLimit f uid n d = (None, d') ->
  dbSessions d !! ssID s = Some s -> live uid s ->
  (forall k x, dbSessions d !! k = Some x -> ssUserID x = uid -> x = s \/ ssCreatedAt x < ssCreatedAt s) ->
  dbSessions d' !! ssID s = Some s.
Proof.
  intros W Hn E Hs Hl Hnew.
  assert (exists l', live_sessions uid d = s :: l') as [l' Hhead].
  { unfold live_sessions. rewrite live_list_perm.
    assert (forall x, x ∈ filter (live uid) (map snd (map_to_list (dbSessions d))) <->
              live uid x /\ exists k, dbSessions d !! k = Some x) as Hel.
    { intros x. rewrite list_elem_of_filter, list_elem_of_fmap. split; intros [? Hx]; (split; [done|]).
      - destruct Hx as ([k y] & -> & Hin). exists k. by apply elem_of_map_to_list.
      - destruct Hx as [k Hk]. exists (k, x). split; [done|]. by apply elem_of_map_to_list. }
    apply newest_head; [apply Hel; eauto|]. intros y [[? ?] [k Hk]]%Hel. eauto. }
  assert (live_map uid d' !! ssID s = Some s) as Hm.
  { rewrite (enforce_live _ _ _ _ _ W Hn E), Hhead. destruct (Z.to_nat n) as [|k] eqn:K; [lia|]. simpl. apply lookup_insert_eq. }
  by apply map_lookup_filter_Some in Hm as [Hm _].
Qed.

(** the session of a login that succeeded is accepted, for the user who logged in, until it
    expires (the user's other sessions being older). *)
Theorem login_opens_session (f : Failures) name pw ip ag sid now d r d' now' :
  access_wf d -> 0 < acMaxSessionsPerUser cfg -> sid <> EmptyString ->
  (forall k s, dbSessions d !! k = Some s -> ssCreatedAt s < pg_time now) ->
  Authenticate cfg f name pw ip ag sid now d = (Ok r, d') -> now' < pg_time (lrExpiresAt r) ->
  exists u d2, ValidateSession all_succeed (lrSessionID r) now' d' = (Ok u, d2) /\ uID u = lrUserID r
    /\ uUsername u = name /\ uIsActive u = true /\ bcrypt_compare (uPasswordHash u) pw = true.
Proof.
  intros W Hmax Hsid Hold E Hnow.
  destruct (authenticate_ok _ _ _ _ _ _ _ _ _ _ W E) as
    (u & d3 & W3 & Ha & Hc & Hn & Hs & Hu & Hexp & Hrow & (m & Hm & Hses) & Henf).
  pose proof (enforce_same f (uID u) (acMaxSessionsPerUser cfg) d3) as [Husers _]. rewrite Henf in Husers. simpl in Husers.
  set (s := session_row _) in Hses.
  assert (dbSessions d' !! sid = Some s) as Hkept.
  { apply (enforce_keeps_newest f (uID u) (acMaxSessionsPerUser cfg) d3 d' s W3 Hmax Henf).
    - rewrite Hses. apply lookup_insert_eq.
    - done.
    - intros k x. rewrite Hses. intros [[_ <-]|[_ Hx]]%lookup_insert_Some _; [by left|right]. simpl.
      apply (Hold k). by apply (lookup_weaken _ _ _ _ Hx). }
  destruct (validate_accepts sid now' d' (updated_user u (logged_in u now))) as [d2 V]; [done| |].
  - exists s. split_and!; [done..| |done]. simpl. by rewrite Husers.
  - exists (updated_user u (logged_in u now)), d2. rewrite Hs, Hu, V. by split_and!.
Qed.
(** The one user of a name is the one a login finds. *)
Lemma find_username d k u :
  access_wf d -> dbUsers d !! k = Some u -> List.find (has_username (uUsername u)) (users_list d) = Some u.
Proof.
  intros W Hk. destruct (List.find _ _) as [v|] eqn:F.
  - apply find_some in F as [Hin Hn]. unfold has_username in Hn. to_prop.
    apply list_elem_of_In, users_list_elem in Hin as [j Hj].
    assert (j = k) as -> by by apply (wf_names _ W j k v u). congruence.
  - pose proof (find_none _ _ F u) as Hno. unfold has_username in Hno. rewrite bool_decide_eq_true_2 in Hno by done.
    discriminate Hno. apply list_elem_of_In, users_list_elem. eauto.
Qed.

(** after a change of the password the new one logs in, and the user is as before otherwise. *)
Theorem changed_password_logs_in `{!BcryptLaws} (f : Failures) uid pw salt d d' u :
  access_wf d -> UpdatePassword f uid pw salt d = Ok d' -> dbUsers d !! uid = Some u -> uIsActive u = true ->
  exists u', check_credentials all_succeed (uUsername u) pw d' = Ok u' /\ uID u' = uID u
    /\ uIsAdmin u' = uIsAdmin u /\ uForcePasswordChange u' = false.
Proof.
  intros W E Hu Ha. pose proof (update_password_user _ _ _ _ _ _ E) as Hup.
  pose proof (updates_user_wf _ _ _ _ _ Hup W) as W'. revert E. unfold UpdatePassword, password_row.
  destruct (GetUser f uid d) as [v|] eqn:G; [|done]. apply get_user_ok in G. assert (v = u) as -> by congruence.
  simpl. unfold hash_password. destruct (bcrypt_hash salt pw) as [h|] eqn:Hh; [|done]. simpl.
  intros (old & Ho & -> & _)%wrap_ok%update_user_cases. simpl in Ho. rewrite (wf_users _ W _ _ Hu) in Ho.
  assert (old = u) as -> by congruence.
  assert (dbUsers (set_users d (<[uID u := updated_user u (with_password u h false)]> (dbUsers d))) !! uID u
    = Some (updated_user u (with_password u h false))) as Hrow by apply lookup_insert_eq.
  simpl in *. pose proof (find_username _ _ _ W' Hrow) as F. simpl in F.
  exists (updated_user u (with_password u h false)). split; [|done].
  unfold check_credentials, GetUserByUsername, stmt, all_succeed. rewrite F. simpl. rewrite Ha. simpl.
  by rewrite (hash_matches _ _ _ Hh).
Qed.
End runs.

(** * An installation

    Alice administers; Bob is an operator of the group "ops", which has the agent "a1". *)
Section demo.
#[local] Instance demo_bcrypt : Bcrypt := {|
  bcrypt_hash salt pw := if (72 <? String.length pw)%nat then None else Some pw;
  bcrypt_compare h pw := bool_decide (h = pw);
|}.

#[local] Instance demo_laws : BcryptLaws.
Proof.
  split. intros salt pw h. unfold bcrypt_hash, bcrypt_compare. simpl. destruct (_ <? _)%nat; [done|].
  intros [= ->]. by apply bool_decide_eq_true.
Qed.

#[local] Instance demo_case : UnicodeCase := ascii_case.

Definition demo_cfg : AuthConfig := auth_defaults (mkAuthConfig 0 0 "/data/creds").

Definition demo_empty : AccessDB := mkAccessDB ∅ ∅ ∅ ∅ ∅ {["a1"; "a2"]} None.

Definition demo_ops : list (Failures * AccessOp) :=
  map (fun op => (all_succeed, op))
    [OpBootstrap "alice" EmptyString "0123456789" "alice-id" 1 0;
     OpCreateUser (mkCreateUserParams "bob" "bob's long password" "Bob" false) "bob-id" 2 0;
     OpCreateGroup "ops" EmptyString "g1" 0;
     OpAddAgentToGroup "g1" "a1";
     OpSetUserRoleInGroup "bob-id" "g1" "operator"].

Definition demo_db : AccessDB := run_access demo_cfg demo_ops demo_empty.

Lemma demo_db_wf : access_wf demo_db.
Proof.
  apply access_run_wf. split.
  - intros k u Hl. simpl in Hl. by rewrite lookup_empty in Hl.
  - intros j k u v Hl. simpl in Hl. by rewrite lookup_empty in Hl.
  - intros a g Hm. by apply elem_of_empty in Hm.
  - intros u g r Hl. simpl in Hl. by rewrite lookup_empty in Hl.
  - intros k s Hl. simpl in Hl. by rewrite lookup_empty in Hl.
Qed.

Definition demo_request (sid agent : string) : Request :=
  mkRequest (Some sid) "GET" "/agents/a1" false "kyvik.local" "10.0.0.7" EmptyString EmptyString EmptyString agent.

Definition demo_route (perm sid agent : string) (now : Z) (d : AccessDB) : Verdict :=
  (agent_route (fun _ => None) String.eqb ∅ all_succeed perm now (demo_request sid agent) d).1.

Definition bob_in : AccessDB :=
  (Authenticate demo_cfg all_succeed "bob" "bob's long password" "10.0.0.7" "curl" "s1" second demo_db).2.

(** Bob starts the agent of his group, does not edit it, and does not see the other one. *)
Example bob_routes :
  let two := 2 * second in
  (exists p, demo_route "agent.start" "s1" "a1" two bob_in = Pass p)
  /\ demo_route "agent.edit" "s1" "a1" two bob_in = Refused 403 "forbidden"
  /\ demo_route "agent.start" "s1" "a2" two bob_in = Refused 403 "forbidden"
  /\ demo_route "agent.start" "s2" "a1" two bob_in = RedirectTo "/login"
  /\ demo_route "agent.start" "s1" "a1" (2 * 24 * 3600 * second) bob_in = RedirectTo "/login".
Proof. split_and!; [eexists|..]; vm_compute; reflexivity. Qed.

(** The first administrator must change the generated password. *)
Example first_login_changes_password :
  let d := (Authenticate demo_cfg all_succeed "alice" "0123456789" "10.0.0.8" "curl" "s2" second demo_db).2 in
  demo_route "agent.edit" "s2" "a1" (2 * second) d = RedirectTo "/password/change"
  /\ dbCreds demo_db = Some ("username=alice" +:+ String "010" EmptyString +:+ "password=0123456789" +:+ String "010" EmptyString).
Proof. split; vm_compute; reflexivity. Qed.

(** [Authenticate] writes back the row it read before it compared the password: a user who is
    deactivated in between is active again. *)
Example login_undoes_deactivation :
  let s0 := mkAccessState demo_db [] in
  let s1 := run_overlap demo_cfg [(all_succeed, StepRead (ReadLogin "bob" "bob's long password" "10.0.0.7" "curl" "s1" second));
                                  (all_succeed, StepWhole (OpUpdateUserProfile "bob-id" "Bob" false))] s0 in
  let s2 := run_overlap demo_cfg [(all_succeed, StepWrite 0)] s1 in
  (uIsActive <$> dbUsers (asDB s1) !! "bob-id") = Some false /\ (uIsActive <$> dbUsers (asDB s2) !! "bob-id") = Some true
  /\ exists p, demo_route "agent.start" "s1" "a1" (2 * second) (asDB s2) = Pass p.
Proof. vm_compute. eauto. Qed.

(** In the same way a password that was changed in between is back. *)
Example login_undoes_password_change :
  match check_credentials all_succeed "bob" "bob's long password" demo_db with
  | inl user =>
    let d1 := ignored (UpdatePassword all_succeed "bob-id" "another password" 3 demo_db) demo_db in
    let d2 := (open_session demo_cfg all_succeed user "s1" "10.0.0.7" "curl" second d1).2 in
    (uPasswordHash <$> dbUsers d1 !! "bob-id") = Some "another password"
    /\ (uPasswordHash <$> dbUsers d2 !! "bob-id") = Some "bob's long password"
  | inr _ => False
  end.
Proof. vm_compute. eauto. Qed.

(** A change or a reset of the password leaves the sessions of the user. *)
Example password_change_keeps_sessions :
  let d1 := ignored (ResetPassword all_succeed "bob-id" "another password" 3 bob_in) bob_in in
  let d2 := ignored (UpdatePassword all_succeed "bob-id" "a third password" 4 d1) d1 in
  demo_route "agent.start" "s1" "a1" (2 * second) d1 = RedirectTo "/password/change"
  /\ exists p, demo_route "agent.start" "s1" "a1" (2 * second) d2 = Pass p.
Proof. split; [|eexists]; vm_compute; reflexivity. Qed.

(** The password of a new user is trimmed, the one of a login is not. *)
Example created_password_is_trimmed :
  match CreateUser all_succeed (mkCreateUserParams "eve" " eve's long password " "Eve" false) "eve-id" 5 0 demo_db with
  | inl (_, d) => (Authenticate demo_cfg all_succeed "eve" " eve's long password " "10.0.0.9" "curl" "s3" second d).1
                  = Err ErrPermissionDenied
  | inr _ => False
  end.
Proof. vm_compute. reflexivity. Qed.

(** ** Witnesses *)

Lemma changed_password_logs_in_witness :
  exists u', check_credentials all_succeed "bob" "another password"
      (ignored (UpdatePassword all_succeed "bob-id" "another password" 3 demo_db) demo_db) = Ok u'
    /\ uID u' = "bob-id" /\ uIsAdmin u' = false /\ uForcePasswordChange u' = false.
Proof.
  apply (changed_password_logs_in all_succeed "bob-id" "another password" 3 demo_db _
    (mkUser "bob-id" "bob" "bob's long password" "Bob" false true 0 None false)); [apply demo_db_wf|..];
    vm_compute; reflexivity.
Defined.

Lemma access_invariant_witness : access_wf (run_access demo_cfg [(all_succeed, OpLogout "s1")] demo_db).
Proof. apply access_invariant, demo_db_wf. Defined.

Lemma deactivated_user_locked_out_witness :
  let s0 := mkAccessState (Authenticate demo_cfg all_succeed "alice" "0123456789" "10.0.0.8" "curl" "s2" second bob_in).2 [] in
  let s1 := run_overlap demo_cfg [(all_succeed, StepRead (ReadProfile "bob-id" "Bob" false))] s0 in
  let s2 := overlap_step demo_cfg all_succeed (StepWrite 0) s1 in
  let steps := [(all_succeed, StepRead (ReadReset "alice-id" "a new password" 7));
                (all_succeed, StepWhole (OpAuthenticate "bob" "bob's long password" EmptyString EmptyString "s9" second));
                (all_succeed, StepRead (ReadPassword "bob-id" "a newer password" 8));
                (all_succeed, StepWrite 1); (all_succeed, StepWrite 0);
                (all_succeed, StepWhole (OpUpdatePassword "alice-id" "a newer password" 8))] in
  let answer := RequireAuth (fun _ => None) String.eqb ∅ all_succeed (2 * second) (demo_request "s2" "a1")
                  (asDB (run_overlap demo_cfg steps s2)) in
  let alice := mkDashboardUser "alice-id" "alice" RoleAdmin true false in
  answer = (Pass alice, answer.2) /\ duID alice <> "bob-id".
Proof.
  intros s0 s1 s2 steps answer alice. assert (answer = (Pass alice, answer.2)) as E by (vm_compute; reflexivity).
  split; [exact E|].
  apply (deactivated_user_locked_out demo_cfg (fun _ => None) String.eqb ∅ all_succeed "bob-id" s1 s2 steps
    all_succeed (2 * second) (demo_request "s2" "a1") alice answer.2).
  - apply authenticate_wf, authenticate_wf, demo_db_wf.
  - left. split; [|vm_compute; constructor]. right. exists 0%nat, "update user profile".
    exists (mkUser "bob-id" "bob" "bob's long password" "Bob" false false 0 (Some second) false).
    split; [vm_compute; reflexivity|]. split; [reflexivity|]. split; [reflexivity|]. split; vm_compute; reflexivity.
  - repeat constructor.
  - exact E.
Defined.

Lemma login_keeps_session_limit_witness : Z.of_nat (length (live_sessions "bob-id" bob_in)) <= 3.
Proof.
  apply (login_keeps_session_limit demo_cfg all_succeed "bob" "bob's long password" "10.0.0.7" "curl" "s1" second demo_db
    (mkLoginResult "s1" "bob-id" "bob" false (second + 24 * 3600 * second))).
  - apply demo_db_wf.
  - vm_compute. reflexivity.
  - vm_compute. reflexivity.
Defined.

Lemma login_opens_session_witness :
  exists u d2, ValidateSession all_succeed "s1" (3600 * second) bob_in = (Ok u, d2) /\ uID u = "bob-id"
    /\ uUsername u = "bob" /\ uIsActive u = true /\ bcrypt_compare (uPasswordHash u) "bob's long password" = true.
Proof.
  apply (login_opens_session demo_cfg all_succeed "bob" "bob's long password" "10.0.0.7" "curl" "s1" second demo_db
    (mkLoginResult "s1" "bob-id" "bob" false (second + 24 * 3600 * second))).
  - apply demo_db_wf.
  - vm_compute. reflexivity.
  - done.
  - intros k s. replace (dbSessions demo_db) with (∅ : gmap string UserSession) by (vm_compute; reflexivity).
    by rewrite lookup_empty.
  - vm_compute. reflexivity.
  - vm_compute. reflexivity.
Defined.
End demo.
