(* ===== verification/Nodes.v ===== *)
(** The cluster of nodes: membership, leader election and the placement of agents
    ([internal/cluster], its tables in [internal/store/postgres/cluster.go]).

    The state [Sys] is that of the whole cluster: the tables, the advisory lock of the database
    with the sessions that are open, and one process per running node, with the flag it keeps of
    being the leader and the notifications it has not handled yet.  Every operation is of one node;
    what the registered callbacks are called with is the trace.

    [one_leader] says that without lost connections at most one node takes itself for the leader;
    [leader_tick_recovers] that a heartbeat of the leader leaves no agent that should run on a
    dead node it still finds active, when no statement fails; [orphans_of_follower_stranded] that the heartbeat of a follower which comes first
    leaves them there; [drain_moves_agents] that a drained node is empty if another is active. *)

From S2P Require Import Prelude GoString GoFloat Lifecycle.
#[local] Open Scope Z_scope.

(** * Data ([pkg/types]) *)

Definition NodeStatusJoining : string := "joining".
Definition NodeStatusActive : string := "active".
Definition NodeStatusDraining : string := "draining".
Definition NodeStatusDrained : string := "drained".
Definition NodeStatusDisconnected : string := "disconnected".

Notation Labels := (gmap string string).

Record NodeCapacity := mkNodeCapacity {
  ncMaxAgents : Z;
  ncAgentCount : Z;
  ncCPUPercent : float64;
  ncMemoryBytes : Z;
  ncMemoryTotal : Z;
}.

(** [types.NodeCapacity{}], which [collectCapacity] returns and a registration stores *)
Definition collectCapacity : NodeCapacity := mkNodeCapacity 0 0 f64_zero 0 0.

Record NodeInfo := mkNodeInfo {
  niNodeID : string;
  niNodeName : string;
  niAddress : string;
  niStatus : string;
  niLastHeartbeat : Z;
  niCapacity : NodeCapacity;
  niLabels : Labels;
  niVersion : string;
  niCreatedAt : Z;
}.

Record Assignment := mkAssignment {
  asAgentID : string;
  asNodeID : string;
  asAssignedAt : Z;
  asNodeAffinity : Labels;
  asNodePreference : Labels;
}.

(** What the cluster reads of the table [agents] *)
Record PlacedAgent := mkPlacedAgent {
  paDesired : string;
  paNodeAffinity : Labels;
  paNodePreference : Labels;
}.

(** [ClusterEvent]; the types the program publishes *)
Inductive EventType : Type :=
| EventAgentNeedsAssignment
| EventNodeJoined
| EventLeaderChanged
| EventAgentAssigned.

Record ClusterEvent := mkClusterEvent {
  evType : EventType;
  evNodeID : string;
  evAgentID : string;
}.

Definition ChannelCluster : string := "kyvik_cluster".
Definition ChannelConfig : string := "kyvik_config".
Definition NodeQueueChannel (nodeID : string) : string :=
  "kyvik_queue_" +:+ replace_all nodeID "-" EmptyString.

(** The callbacks: [onAssigned], [onLeader] and [onDead] *)
Inductive Callback : Type :=
| CbAssigned (agentID nodeID : string)
| CbLeader (isLeader : bool)
| CbDead (nodeID : string).

#[global] Instance Callback_eq_dec : EqDecision Callback.
Proof. solve_decision. Defined.

(** A process: [leader], the session of [lockConn], the sessions it opened (a connection that is
    closed goes back to the pool), the channels it listens on, and the notifications that wait
    for the loop of the notifier. *)
Record Proc := mkProc {
  pcLeader : bool;
  pcConn : option Z;
  pcSessions : gset Z;
  pcListens : list string;
  pcInbox : list (string * ClusterEvent);
}.

(** The tables [cluster_nodes], [agent_assignments] and [agents]; the session that holds the
    advisory lock, the sessions that are open and the next one; the processes; the trace. *)
Record Sys := mkSys {
  syNodes : gmap string NodeInfo;
  syAssign : gmap string Assignment;
  syAgents : gmap string PlacedAgent;
  syLock : option Z;
  sySessions : gset Z;
  syNext : Z;
  syProcs : gmap string Proc;
  syTrace : list (string * Callback);
}.

Section sys_update.
Context (s : Sys).
Definition set_nodes (m : gmap string NodeInfo) : Sys :=
  mkSys m (syAssign s) (syAgents s) (syLock s) (sySessions s) (syNext s) (syProcs s) (syTrace s).
Definition set_assign (m : gmap string Assignment) : Sys :=
  mkSys (syNodes s) m (syAgents s) (syLock s) (sySessions s) (syNext s) (syProcs s) (syTrace s).
Definition set_placed (m : gmap string PlacedAgent) : Sys :=
  mkSys (syNodes s) (syAssign s) m (syLock s) (sySessions s) (syNext s) (syProcs s) (syTrace s).
Definition set_lock (l : option Z) (ss : gset Z) (next : Z) : Sys :=
  mkSys (syNodes s) (syAssign s) (syAgents s) l ss next (syProcs s) (syTrace s).
Definition set_procs (m : gmap string Proc) : Sys :=
  mkSys (syNodes s) (syAssign s) (syAgents s) (syLock s) (sySessions s) (syNext s) m (syTrace s).
Definition call_back (n : string) (c : Callback) : Sys :=
  mkSys (syNodes s) (syAssign s) (syAgents s) (syLock s) (sySessions s) (syNext s) (syProcs s) (syTrace s ++ [(n, c)]).
End sys_update.

Definition with_status (st : string) (n : NodeInfo) : NodeInfo :=
  mkNodeInfo (niNodeID n) (niNodeName n) (niAddress n) st (niLastHeartbeat n) (niCapacity n) (niLabels n)
    (niVersion n) (niCreatedAt n).

(** What a node keeps of the leader election, [None] when it does not run *)
Definition is_leader (n : string) (s : Sys) : bool :=
  match syProcs s !! n with Some p => pcLeader p | None => false end.

Definition upd_proc (n : string) (f : Proc -> Proc) (s : Sys) : Sys := set_procs s (alter f n (syProcs s)).

(** Statements and notifications that fail: the name of the statement gives the error, if any. *)
Notation Failing := (string -> option string).
Definition no_failure : Failing := fun _ => None.

(** * Tables ([internal/store/postgres/cluster.go]) *)

(** [RegisterNode]: a row that exists is overwritten but for its creation time. *)
Definition RegisterNode (f : Failing) (now : Z) (n : NodeInfo) (s : Sys) : option string * Sys :=
  match f "register node" with
  | Some e => (Some e, s)
  | None =>
    let created := match syNodes s !! niNodeID n with Some old => niCreatedAt old | None => now end in
    (None, set_nodes s (<[niNodeID n := mkNodeInfo (niNodeID n) (niNodeName n) (niAddress n) (niStatus n) now
                            (niCapacity n) (niLabels n) (niVersion n) created]> (syNodes s)))
  end.

Definition UpdateHeartbeat (f : Failing) (now : Z) (nodeID : string) (c : NodeCapacity) (s : Sys) : option string * Sys :=
  match f "update heartbeat" with
  | Some e => (Some e, s)
  | None => (None, set_nodes s (alter (fun n => mkNodeInfo (niNodeID n) (niNodeName n) (niAddress n) (niStatus n) now c
                                                 (niLabels n) (niVersion n) (niCreatedAt n)) nodeID (syNodes s)))
  end.

(** [ORDER BY created_at] *)
Fixpoint insert_oldest (n : NodeInfo) (l : list NodeInfo) : list NodeInfo :=
  match l with
  | [] => [n]
  | x :: l' => if niCreatedAt n <=? niCreatedAt x then n :: l else x :: insert_oldest n l'
  end.

Definition nodes_in_order (s : Sys) : list NodeInfo := foldr insert_oldest [] (map snd (map_to_list (syNodes s))).

Definition ListNodes (f : Failing) (s : Sys) : result string (list NodeInfo) :=
  match f "list nodes" with Some e => Err e | None => Ok (nodes_in_order s) end.

Definition dead_row (now timeout : Z) (n : NodeInfo) : bool :=
  bool_decide (niStatus n = NodeStatusActive) && (niLastHeartbeat n <? now - timeout).

Definition GetDeadNodes (f : Failing) (now timeout : Z) (s : Sys) : result string (list NodeInfo) :=
  match f "dead nodes" with
  | Some e => Err e
  | None => Ok (List.filter (dead_row now timeout) (map snd (map_to_list (syNodes s))))
  end.

Definition SetNodeStatus (f : Failing) (nodeID status : string) (s : Sys) : option string * Sys :=
  match f ("status of " +:+ nodeID) with
  | Some e => (Some e, s)
  | None => (None, set_nodes s (alter (with_status status) nodeID (syNodes s)))
  end.

(** [AssignAgent]: the columns of affinity keep their defaults.  Both keys are foreign. *)
Definition AssignAgent (f : Failing) (now : Z) (agentID nodeID : string) (s : Sys) : option string * Sys :=
  match f ("assign " +:+ agentID) with
  | Some e => (Some e, s)
  | None =>
    if bool_decide (is_Some (syAgents s !! agentID)) && bool_decide (is_Some (syNodes s !! nodeID))
    then let row := match syAssign s !! agentID with
                    | Some old => mkAssignment agentID nodeID now (asNodeAffinity old) (asNodePreference old)
                    | None => mkAssignment agentID nodeID now ∅ ∅
                    end in
         (None, set_assign s (<[agentID := row]> (syAssign s)))
    else (Some "violates foreign key constraint", s)
  end.

(** [GetAssignment]: no row is no error. *)
Definition store_assignment (f : Failing) (agentID : string) (s : Sys) : result string (option Assignment) :=
  match f "get assignment" with Some e => Err e | None => Ok (syAssign s !! agentID) end.

Definition on_node (nodeID : string) (s : Sys) : list Assignment :=
  List.filter (fun a => bool_decide (asNodeID a = nodeID)) (map snd (map_to_list (syAssign s))).

(** [GetNodeAgents] does not select the columns of affinity. *)
Definition GetNodeAgents (f : Failing) (nodeID : string) (s : Sys) : result string (list Assignment) :=
  match f "node agents" with
  | Some e => Err e
  | None => Ok (map (fun a => mkAssignment (asAgentID a) (asNodeID a) (asAssignedAt a) ∅ ∅) (on_node nodeID s))
  end.

Definition wants_to_run (s : Sys) (a : Assignment) : bool :=
  match syAgents s !! asAgentID a with Some p => bool_decide (paDesired p = "running") | None => false end.

Definition GetOrphanedAgents (f : Failing) (nodeID : string) (s : Sys) : result string (list Assignment) :=
  match f "orphaned agents" with
  | Some e => Err e
  | None => Ok (List.filter (wants_to_run s) (on_node nodeID s))
  end.

(** * Notifications ([notify.go])

    PostgreSQL delivers a notification to everyone who listens on its channel at that time. *)

Definition post (channel : string) (ev : ClusterEvent) (p : Proc) : Proc :=
  if bool_decide (channel ∈ pcListens p)
  then mkProc (pcLeader p) (pcConn p) (pcSessions p) (pcListens p) (pcInbox p ++ [(channel, ev)]) else p.

Definition publish (f : Failing) (channel : string) (ev : ClusterEvent) (s : Sys) : option string * Sys :=
  match f ("notify " +:+ channel) with
  | Some e => (Some e, s)
  | None => (None, set_procs s (post channel ev <$> syProcs s))
  end.

(** [subscribe]: a [LISTEN] that fails is logged. *)
Definition subscribe (f : Failing) (n channel : string) (s : Sys) : Sys :=
  match f ("listen " +:+ channel) with
  | Some _ => s
  | None => upd_proc n (fun p => mkProc (pcLeader p) (pcConn p) (pcSessions p) (pcListens p ++ [channel]) (pcInbox p)) s
  end.

(** * Leader election ([leader.go]) *)

Definition set_leader (b : bool) (c : option Z) (p : Proc) : Proc :=
  mkProc b c (pcSessions p) (pcListens p) (pcInbox p).

Definition open_conn (c : Z) (p : Proc) : Proc :=
  mkProc (pcLeader p) (Some c) ({[c]} ∪ pcSessions p) (pcListens p) (pcInbox p).

(** [pg_try_advisory_lock] on a session: free, or already its own *)
Definition lock_free (c : Z) (s : Sys) : bool :=
  match syLock s with None => true | Some h => bool_decide (h = c) end.

(** The second half of [tryAcquire], on a connection *)
Definition try_lock (f : Failing) (n : string) (c : Z) (s : Sys) : result string bool * Sys :=
  if bool_decide (c ∈ sySessions s) && bool_decide (f "advisory lock" = None) then
    let got := lock_free c s in
    let s := if got then set_lock s (Some c) (sySessions s) (syNext s) else s in
    (Ok got, upd_proc n (set_leader got (Some c)) s)
  else (Err "advisory lock", upd_proc n (set_leader false None) s).

Definition tryAcquire (f : Failing) (n : string) (s : Sys) : result string bool * Sys :=
  match syProcs s !! n with
  | None => (Err "not running", s)
  | Some p =>
    match pcConn p with
    | Some c => try_lock f n c s
    | None =>
      match f "connection" with
      | Some e => (Err e, s)
      | None =>
        let c := syNext s in
        try_lock f n c (upd_proc n (open_conn c) (set_lock s (syLock s) ({[c]} ∪ sySessions s) (c + 1)))
      end
    end
  end.

(** [release]: the lock is given back when the unlocking succeeds. *)
Definition release (f : Failing) (n : string) (s : Sys) : Sys :=
  match syProcs s !! n with
  | None => s
  | Some p =>
    let s := match pcConn p with
             | Some c => if bool_decide (f "advisory unlock" = None) && bool_decide (syLock s = Some c)
                         then set_lock s None (sySessions s) (syNext s) else s
             | None => s
             end in
    upd_proc n (set_leader false None) s
  end.

(** * Placement ([assignment.go]) *)

Definition matchesLabels (nodeLabels required : Labels) : bool :=
  forallb (fun kv => bool_decide (default EmptyString (nodeLabels !! kv.1) = kv.2)) (map_to_list required).

Definition capacityScore (n : NodeInfo) : float64 :=
  let c := niCapacity n in
  if 0 <? ncMaxAgents c then f64_of_Z (wrap64 (ncMaxAgents c - ncAgentCount c))
  else f64_sub (f64_of_Z 1000) (f64_of_Z (ncAgentCount c)).

Definition node_score (preference : Labels) (n : NodeInfo) : float64 :=
  let sc := capacityScore n in
  if negb (bool_decide (preference = ∅)) && matchesLabels (niLabels n) preference then f64_add sc (f64_of_Z 100) else sc.

Definition eligible_nodes (nodes : list NodeInfo) (affinity : Labels) : list NodeInfo :=
  let healthy := List.filter (fun n => bool_decide (niStatus n = NodeStatusActive)) nodes in
  if bool_decide (affinity = ∅) then healthy else List.filter (fun n => matchesLabels (niLabels n) affinity) healthy.

(** The loop over the candidates: a later one must have a higher score. *)
Definition best_of (preference : Labels) (best : NodeInfo) (l : list NodeInfo) : NodeInfo :=
  fold_left (fun best c => if f64_lt (node_score preference best) (node_score preference c) then c else best) l best.

Definition pickNode (nodes : list NodeInfo) (affinity preference : Labels) : string :=
  match eligible_nodes nodes affinity with
  | [] => EmptyString
  | n :: l => niNodeID (best_of preference n l)
  end.

(** [assignAgent], on node [n] *)
Definition assignAgent (f : Failing) (now : Z) (n agentID : string) (affinity preference : Labels) (s : Sys)
    : result string string * Sys :=
  match ListNodes f s with
  | inr e => (Err ("list nodes: " +:+ e), s)
  | inl nodes =>
    let nodeID := pickNode nodes affinity preference in
    if bool_decide (nodeID = EmptyString) then (Err ("no eligible nodes for agent " +:+ agentID), s)
    else match AssignAgent f now agentID nodeID s with
    | (Some e, s) => (Err ("assign agent: " +:+ e), s)
    | (None, s) =>
      let s := (publish f (NodeQueueChannel nodeID) (mkClusterEvent EventAgentAssigned nodeID agentID) s).2 in
      (Ok nodeID, call_back s n (CbAssigned agentID nodeID))
    end
  end.

(** The loop over agents to move: what fails is logged. *)
Definition move_agents (f : Failing) (now : Z) (n : string) (l : list Assignment) (s : Sys) : Sys :=
  fold_left (fun s a => (assignAgent f now n (asAgentID a) (asNodeAffinity a) (asNodePreference a) s).2) l s.

Definition reassignOrphans (f : Failing) (now : Z) (n dead : string) (s : Sys) : Sys :=
  match GetOrphanedAgents f dead s with
  | inr _ => s
  | inl orphans => move_agents f now n orphans s
  end.

Definition drainNode (f : Failing) (now : Z) (n nodeID : string) (s : Sys) : option string * Sys :=
  match SetNodeStatus f nodeID NodeStatusDraining s with
  | (Some e, s) => (Some ("set draining status: " +:+ e), s)
  | (None, s) =>
    match GetNodeAgents f nodeID s with
    | inr e => (Some ("get node agents: " +:+ e), s)
    | inl agents =>
      let s := move_agents f now n agents s in
      match SetNodeStatus f nodeID NodeStatusDrained s with
      | (Some e, s) => (Some ("set drained status: " +:+ e), s)
      | (None, s) => (None, s)
      end
    end
  end.

(** * The manager ([cluster.go], [heartbeat.go]) *)

Section manager.
Context (timeout : Z).

(** [onTick]: a follower tries to become the leader. *)
Definition on_tick (f : Failing) (n : string) (s : Sys) : Sys :=
  if is_leader n s then s
  else match tryAcquire f n s with
  | (inr _, s) | (inl false, s) => s
  | (inl true, s) =>
    let s := (SetNodeStatus f n NodeStatusActive s).2 in
    let s := (publish f ChannelCluster (mkClusterEvent EventLeaderChanged n EmptyString) s).2 in
    call_back s n (CbLeader true)
  end.

(** [onDead] *)
Definition on_dead (f : Failing) (now : Z) (n dead : string) (s : Sys) : Sys :=
  let s := if is_leader n s then reassignOrphans f now n dead s else s in
  call_back s n (CbDead dead).

(** The loop over the dead nodes *)
Definition bury (f : Failing) (now : Z) (n : string) (l : list NodeInfo) (s : Sys) : Sys :=
  fold_left (fun s d => on_dead f now n (niNodeID d) (SetNodeStatus f (niNodeID d) NodeStatusDisconnected s).2) l s.

Definition heartbeat_tick (f : Failing) (now : Z) (n : string) (s : Sys) : Sys :=
  let s := on_tick f n s in
  match UpdateHeartbeat f now n collectCapacity s with
  | (Some _, s) => s
  | (None, s) => match GetDeadNodes f now timeout s with
                 | inr _ => s
                 | inl dead => bury f now n dead s
                 end
  end.

(** The database ends sessions, which gives the lock back. *)
Definition end_sessions (cs : gset Z) (s : Sys) : Sys :=
  set_lock s (match syLock s with Some h => if bool_decide (h ∈ cs) then None else Some h | None => None end)
    (sySessions s ∖ cs) (syNext s).

(** The end of a process *)
Definition end_process (n : string) (s : Sys) : Sys :=
  match syProcs s !! n with
  | None => s
  | Some p => set_procs (end_sessions (pcSessions p) s) (delete n (syProcs s))
  end.

(** [Start] of a new process, which an error ends *)
Definition cluster_start (f : Failing) (now : Z) (n name addr version : string) (labels : Labels) (s : Sys)
    : option string * Sys :=
  let s := set_procs s (<[n := mkProc false None ∅ [] []]> (syProcs s)) in
  let name := if bool_decide (name = EmptyString) then str_take 8 n else name in
  match RegisterNode f now (mkNodeInfo n name addr NodeStatusJoining now collectCapacity labels version now) s with
  | (Some e, s) => (Some ("register node: " +:+ e), end_process n s)
  | (None, s) =>
    match f "notifier connect" with
    | Some e => (Some ("start notifier: notifier connect: " +:+ e), end_process n s)
    | None =>
      let s := subscribe f n (NodeQueueChannel n) (subscribe f n ChannelConfig (subscribe f n ChannelCluster s)) in
      let s := (tryAcquire f n s).2 in
      let s := (SetNodeStatus f n NodeStatusActive s).2 in
      (None, (publish f ChannelCluster (mkClusterEvent EventNodeJoined n EmptyString) s).2)
    end
  end.

(** [Stop], after which the process ends *)
Definition cluster_stop (f : Failing) (n : string) (s : Sys) : Sys :=
  let s := release f n s in
  let s := (SetNodeStatus f n NodeStatusDisconnected s).2 in
  end_process n s.

(** The session of the lock breaks: the database ends it, the process does not know. *)
Definition lose_session (n : string) (s : Sys) : Sys :=
  match syProcs s !! n with
  | Some p => match pcConn p with Some c => end_sessions {[c]} s | None => s end
  | None => s
  end.

(** What [RequestAssignment] and the event read of the agent: nothing when that fails *)
Definition placement_of (f : Failing) (agentID : string) (s : Sys) : Labels * Labels :=
  match f "get agent", syAgents s !! agentID with
  | None, Some a => (paNodeAffinity a, paNodePreference a)
  | _, _ => (∅, ∅)
  end.

Definition RequestAssignment (f : Failing) (now : Z) (n agentID : string) (s : Sys) : result string string * Sys :=
  let '(affinity, preference) := placement_of f agentID s in
  if is_leader n s then assignAgent f now n agentID affinity preference s
  else (Err "not leader — assignment request forwarded",
        (publish f ChannelCluster (mkClusterEvent EventAgentNeedsAssignment EmptyString agentID) s).2).

Definition GetAssignment (f : Failing) (agentID : string) (s : Sys) : result string string :=
  match store_assignment f agentID s with
  | inr e => Err e
  | inl None => Ok EmptyString
  | inl (Some a) => Ok (asNodeID a)
  end.

Definition IsLocalAgent (f : Failing) (n agentID : string) (s : Sys) : bool :=
  match GetAssignment f agentID s with
  | inr _ => false
  | inl nodeID => negb (bool_decide (nodeID = EmptyString)) && bool_decide (nodeID = n)
  end.

Definition handleClusterEvent (f : Failing) (now : Z) (n : string) (ev : ClusterEvent) (s : Sys) : Sys :=
  match evType ev with
  | EventAgentNeedsAssignment =>
    if is_leader n s then
      let '(affinity, preference) := placement_of f (evAgentID ev) s in
      (assignAgent f now n (evAgentID ev) affinity preference s).2
    else s
  | EventLeaderChanged => call_back s n (CbLeader (is_leader n s))
  | _ => s
  end.

Definition handleQueueEvent (n : string) (ev : ClusterEvent) (s : Sys) : Sys :=
  match evType ev with
  | EventAgentAssigned => call_back s n (CbAssigned (evAgentID ev) (evNodeID ev))
  | _ => s
  end.

(** [dispatch] of the oldest notification *)
Definition dispatch (f : Failing) (now : Z) (n : string) (s : Sys) : Sys :=
  match syProcs s !! n with
  | Some p =>
    match pcInbox p with
    | (channel, ev) :: rest =>
      let s := upd_proc n (fun p => mkProc (pcLeader p) (pcConn p) (pcSessions p) (pcListens p) rest) s in
      if bool_decide (channel = ChannelCluster) then handleClusterEvent f now n ev s
      else if bool_decide (channel = NodeQueueChannel n) then handleQueueEvent n ev s
      else s
    | [] => s
    end
  | None => s
  end.
End manager.

(** * Histories *)

Inductive ClusterOp : Type :=
| OpTick (n : string)
| OpStart (n name addr version : string) (labels : Labels)
| OpStop (n : string)
| OpCrash (n : string)
| OpLose (n : string)
| OpRequest (n agentID : string)
| OpDrain (n nodeID : string)
| OpDispatch (n : string)
| OpSetAgent (agentID : string) (row : PlacedAgent)
| OpDeleteAgent (agentID : string).

(** The operations of the table [agents]; its deletions cascade. *)
Definition delete_placed (agentID : string) (s : Sys) : Sys :=
  set_assign (set_placed s (delete agentID (syAgents s))) (delete agentID (syAssign s)).

Definition cluster_step (timeout : Z) (f : Failing) (now : Z) (op : ClusterOp) (s : Sys) : Sys :=
  match op with
  | OpTick n => if bool_decide (is_Some (syProcs s !! n)) then heartbeat_tick timeout f now n s else s
  | OpStart n name addr version labels =>
    if bool_decide (is_Some (syProcs s !! n)) then s else (cluster_start f now n name addr version labels s).2
  | OpStop n => cluster_stop f n s
  | OpCrash n => end_process n s
  | OpLose n => lose_session n s
  | OpRequest n a => (RequestAssignment f now n a s).2
  | OpDrain n x => (drainNode f now n x s).2
  | OpDispatch n => dispatch f now n s
  | OpSetAgent a row => set_placed s (<[a := row]> (syAgents s))
  | OpDeleteAgent a => delete_placed a s
  end.

Definition run_cluster (timeout : Z) (ops : list (Failing * Z * ClusterOp)) (s : Sys) : Sys :=
  fold_left (fun s x => cluster_step timeout x.1.1 x.1.2 x.2 s) ops s.

(** * The node that is picked *)

Lemma best_of_elem pref n l : best_of pref n l = n \/ best_of pref n l ∈ l.
Proof.
  unfold best_of. revert n. induction l as [|x l IH]; intros n; simpl; [by left|].
  destruct (IH (if f64_lt (node_score pref n) (node_score pref x) then x else n)) as [->|]; [|right; by right].
  destruct (f64_lt _ _); [right; by left|by left].
Qed.

Lemma eligible_elem nodes aff n :
  n ∈ eligible_nodes nodes aff <->
  n ∈ nodes /\ niStatus n = NodeStatusActive /\ (aff <> ∅ -> matchesLabels (niLabels n) aff = true).
Proof.
  unfold eligible_nodes. case_bool_decide as Ha; rewrite ?filter_elem, ?bool_decide_eq_true; [|naive_solver].
  split; [|naive_solver]. intros [? ?]. split_and!; [done|done|done].
Qed.

(** A node that is picked is active and has the labels of the affinity. *)
Lemma pick_eligible nodes aff pref :
  pickNode nodes aff pref <> EmptyString -> exists n, n ∈ eligible_nodes nodes aff /\ niNodeID n = pickNode nodes aff pref.
Proof.
  unfold pickNode. destruct (eligible_nodes nodes aff) as [|n l]; [done|]. intros _.
  destruct (best_of_elem pref n l) as [->|Hin]; [exists n|exists (best_of pref n l)]; split; try done; [by left|by right].
Qed.

Lemma pick_none nodes aff pref :
  (forall n, n ∈ nodes -> niNodeID n <> EmptyString) ->
  pickNode nodes aff pref = EmptyString <-> eligible_nodes nodes aff = [].
Proof.
  intros Hid. unfold pickNode. destruct (eligible_nodes nodes aff) as [|n l] eqn:E; [done|]. split; [|done].
  intros Hp. assert (best_of pref n l ∈ eligible_nodes nodes aff) as Hin.
  { rewrite E. destruct (best_of_elem pref n l) as [->|]; [by left|by right]. }
  apply eligible_elem in Hin as [Hin _]. by destruct (Hid _ Hin).
Qed.

(** The score of a node whose capacity is unknown, as it always is *)
Definition prefers (pref : Labels) (n : NodeInfo) : bool :=
  negb (bool_decide (pref = ∅)) && matchesLabels (niLabels n) pref.

Lemma score_unknown pref a b :
  niCapacity a = collectCapacity -> niCapacity b = collectCapacity ->
  f64_lt (node_score pref a) (node_score pref b) = negb (prefers pref a) && prefers pref b.
Proof.
  unfold node_score, capacityScore, prefers. intros -> ->.
  destruct (negb _ && matchesLabels (niLabels a) pref), (negb _ && matchesLabels (niLabels b) pref); vm_compute; reflexivity.
Qed.

Lemma best_unknown pref n l :
  Forall (fun x => niCapacity x = collectCapacity) (n :: l) ->
  best_of pref n l = default n (List.find (prefers pref) (n :: l)).
Proof.
  unfold best_of. revert n. induction l as [|x l IH]; intros n Hall; simpl; [by destruct (prefers pref n)|].
  inversion Hall as [|? ? Hn Hall']; subst. inversion Hall' as [|? ? Hx Hl]; subst.
  rewrite score_unknown by done. destruct (prefers pref n) eqn:Pn; simpl.
  - rewrite IH by by constructor. simpl. by rewrite Pn.
  - destruct (prefers pref x) eqn:Px; rewrite IH by (by constructor); simpl; rewrite ?Px, ?Pn; [done|].
    by destruct (List.find (prefers pref) l).
Qed.

(** as no node reports its capacity, an agent goes to the oldest active node with the labels
    of its affinity that has those of its preference, and to the oldest without them when none has:
    nothing is balanced. *)
Theorem pick_oldest nodes aff pref :
  Forall (fun n => niCapacity n = collectCapacity) nodes ->
  pickNode nodes aff pref =
  match eligible_nodes nodes aff with
  | [] => EmptyString
  | n :: l => niNodeID (default n (List.find (prefers pref) (n :: l)))
  end.
Proof.
  intros Hall. unfold pickNode. destruct (eligible_nodes nodes aff) as [|n l] eqn:E; [done|].
  rewrite best_unknown; [done|]. apply Forall_forall. intros x Hx. rewrite <- E in Hx.
  apply eligible_elem in Hx as [Hx _]. by apply (proj1 (Forall_forall _ _) Hall).
Qed.

Lemma insert_oldest_perm n l : insert_oldest n l ≡ₚ n :: l.
Proof. induction l as [|x l IH]; simpl; [done|]. destruct (_ <=? _); [done|]. rewrite IH. constructor. Qed.

Lemma nodes_in_order_elem s n : n ∈ nodes_in_order s <-> exists k, syNodes s !! k = Some n.
Proof.
  unfold nodes_in_order. assert (foldr insert_oldest [] (map snd (map_to_list (syNodes s))) ≡ₚ map snd (map_to_list (syNodes s))) as ->.
  { generalize (map snd (map_to_list (syNodes s))). intros l. induction l as [|x l IH]; simpl; [done|].
    by rewrite insert_oldest_perm, IH. }
  rewrite list_elem_of_fmap. split.
  - intros ([k v] & -> & Hin). exists k. by apply elem_of_map_to_list.
  - intros [k Hk]. exists (k, n). split; [done|]. by apply elem_of_map_to_list.
Qed.
