(* ===== verification/NodeRuns.v ===== *)
(** Histories of a cluster ([Nodes]): who takes itself for the leader, and what becomes of the
    agents of nodes that die or are drained. *)

From S2P Require Import Prelude GoString GoFloat Lifecycle Nodes.
#[local] Open Scope Z_scope.

(** * Leaders *)

(** What the election reads of a process, and of the system *)
Definition elect_of (p : Proc) : bool * option Z * gset Z := (pcLeader p, pcConn p, pcSessions p).

Definition same_election (s s' : Sys) : Prop :=
  syLock s' = syLock s /\ syNext s' = syNext s /\ elect_of <$> syProcs s' = elect_of <$> syProcs s.

Lemma same_election_refl s : same_election s s.
Proof. done. Qed.

Lemma same_election_trans a b c : same_election a b -> same_election b c -> same_election a c.
Proof. unfold same_election. intros (?&?&?) (?&?&?). split_and!; congruence. Qed.

#[local] Hint Resolve same_election_refl : core.

(** The lock belongs to the leader; sessions belong to one process each. *)
Record election_wf (s : Sys) : Prop := {
  el_leader : forall n p, syProcs s !! n = Some p -> pcLeader p = true -> exists c, pcConn p = Some c /\ syLock s = Some c;
  el_conn : forall n p c, syProcs s !! n = Some p -> pcConn p = Some c -> c ∈ pcSessions p;
  el_own : forall n m p q c, syProcs s !! n = Some p -> syProcs s !! m = Some q ->
    c ∈ pcSessions p -> c ∈ pcSessions q -> n = m;
  el_next : forall n p c, syProcs s !! n = Some p -> c ∈ pcSessions p -> c < syNext s;
}.

Lemma elect_lookup s n e :
  (elect_of <$> syProcs s) !! n = Some e <-> exists p, syProcs s !! n = Some p /\ elect_of p = e.
Proof. rewrite lookup_fmap, fmap_Some. naive_solver. Qed.

(** The same in terms of what the election reads *)
Lemma election_wf_same s s' : same_election s s' -> election_wf s -> election_wf s'.
Proof.
  intros (Hl & Hn & Hp) [Le Co Ow Ne].
  assert (forall n p, syProcs s' !! n = Some p -> exists p0, syProcs s !! n = Some p0 /\ elect_of p0 = elect_of p) as Hback.
  { intros n p Hp'. apply elect_lookup. rewrite <- Hp. apply elect_lookup. eauto. }
  split; rewrite ?Hl, ?Hn.
  - intros n p Hs Hlead. destruct (Hback n p Hs) as (p0 & H0 & [= E1 E2 E3]). rewrite <- E2. apply (Le n p0 H0). congruence.
  - intros n p c Hs Hc. destruct (Hback n p Hs) as (p0 & H0 & [= E1 E2 E3]). rewrite <- E3. apply (Co n p0 c H0). congruence.
  - intros n m p q c Hs Hq H1 H2. destruct (Hback n p Hs) as (p0 & H0 & [= _ _ E3]). destruct (Hback m q Hq) as (q0 & H0' & [= _ _ E3']).
    apply (Ow n m p0 q0 c); congruence.
  - intros n p c Hs Hc. destruct (Hback n p Hs) as (p0 & H0 & [= E1 E2 E3]). apply (Ne n p0); congruence.
Qed.

Lemma call_back_same s n c : same_election s (call_back s n c).
Proof. done. Qed.

Lemma publish_same (f : Failing) ch ev s : same_election s (publish f ch ev s).2.
Proof.
  unfold publish. destruct (f _); [done|]. split_and!; [done|done|]. simpl. rewrite <- map_fmap_compose.
  apply map_fmap_ext. intros n p _. simpl. unfold post. by case_bool_decide.
Qed.

Lemma upd_same n g s : (forall p, elect_of (g p) = elect_of p) -> same_election s (upd_proc n g s).
Proof.
  intros Hg. split_and!; [done|done|]. simpl. apply map_eq. intros k. rewrite !lookup_fmap.
  destruct (decide (k = n)) as [->|]; [|by rewrite lookup_alter_ne]. rewrite lookup_alter_eq.
  destruct (syProcs s !! n); simpl; [by rewrite Hg|done].
Qed.

Lemma set_status_same (f : Failing) n st s : same_election s (SetNodeStatus f n st s).2.
Proof. unfold SetNodeStatus. by destruct (f _). Qed.

Lemma assign_row_same (f : Failing) now a n s : same_election s (AssignAgent f now a n s).2.
Proof. unfold AssignAgent. destruct (f _); [done|]. by destruct (_ && _). Qed.

Lemma assign_same (f : Failing) now n a aff pref s : same_election s (assignAgent f now n a aff pref s).2.
Proof.
  unfold assignAgent. destruct (ListNodes f s) as [nodes|]; [|done]. case_bool_decide; [done|].
  pose proof (assign_row_same f now a (pickNode nodes aff pref) s) as H1.
  destruct (AssignAgent f now a _ s) as [[e|] s1]; [done|]. simpl in H1.
  apply (same_election_trans _ _ _ H1), publish_same.
Qed.

Lemma move_same (f : Failing) now n l s : same_election s (move_agents f now n l s).
Proof.
  unfold move_agents. revert s. induction l as [|a l IH]; intros s; simpl; [done|].
  eapply same_election_trans; [apply assign_same|apply IH].
Qed.

Lemma reassign_same (f : Failing) now n d s : same_election s (reassignOrphans f now n d s).
Proof. unfold reassignOrphans. destruct (GetOrphanedAgents f d s); [apply move_same|done]. Qed.

Lemma bury_same (f : Failing) now n l s : same_election s (bury f now n l s).
Proof.
  unfold bury. revert s. induction l as [|d l IH]; intros s; simpl; [done|].
  eapply same_election_trans; [|apply IH]. eapply same_election_trans; [apply (set_status_same f (niNodeID d) NodeStatusDisconnected)|].
  unfold on_dead. destruct (is_leader _ _); [|done]. eapply same_election_trans; [apply reassign_same|done].
Qed.

Lemma drain_same (f : Failing) now n x s : same_election s (drainNode f now n x s).2.
Proof.
  unfold drainNode. pose proof (set_status_same f x NodeStatusDraining s) as H1.
  destruct (SetNodeStatus f x NodeStatusDraining s) as [[e|] s1]; [done|]. simpl in H1.
  destruct (GetNodeAgents f x s1) as [l|]; [|done].
  pose proof (set_status_same f x NodeStatusDrained (move_agents f now n l s1)) as H2.
  destruct (SetNodeStatus f x NodeStatusDrained _) as [[e|] s2]; simpl in *;
    (eapply same_election_trans; [apply H1|eapply same_election_trans; [apply move_same|apply H2]]).
Qed.

Lemma request_same (f : Failing) now n a s : same_election s (RequestAssignment f now n a s).2.
Proof.
  unfold RequestAssignment. destruct (placement_of f a s) as [aff pref]. destruct (is_leader n s); [apply assign_same|apply publish_same].
Qed.

Lemma dispatch_same (f : Failing) now n s : same_election s (dispatch f now n s).
Proof.
  unfold dispatch. destruct (syProcs s !! n) as [p|]; [|done]. destruct (pcInbox p) as [|[ch ev] rest]; [done|].
  match goal with |- context [handleClusterEvent f now n ev ?x] => set (s1 := x) end.
  assert (same_election s s1) as H1 by by apply upd_same.
  case_bool_decide; [|case_bool_decide; [|done]]; apply (same_election_trans _ _ _ H1).
  - unfold handleClusterEvent. destruct (evType ev); try done. destruct (is_leader n s1); [|done].
    destruct (placement_of f (evAgentID ev) s1). apply assign_same.
  - unfold handleQueueEvent. by destruct (evType ev).
Qed.

(** ** Elections *)

Lemma upd_wf n g s p lock next :
  election_wf s -> syProcs s !! n = Some p ->
  (pcLeader (g p) = true -> exists c, pcConn (g p) = Some c /\ lock = Some c) ->
  (forall m q c, m <> n -> syProcs s !! m = Some q -> pcLeader q = true -> syLock s = Some c -> pcConn q = Some c -> lock = Some c) ->
  (forall c, pcConn (g p) = Some c -> c ∈ pcSessions (g p)) ->
  (forall c, c ∈ pcSessions (g p) -> c ∈ pcSessions p \/ syNext s <= c < next) ->
  syNext s <= next -> forall ss, election_wf (upd_proc n g (set_lock s lock ss next)).
Proof.
  intros [Le Co Ow Ne] Hp Hlead Hother Hconn Hses Hnext ss. unfold upd_proc. split; simpl.
  - intros m q. destruct (decide (m = n)) as [->|Hmn].
    + rewrite lookup_alter_eq, Hp. intros [= <-]. apply Hlead.
    + rewrite lookup_alter_ne by done. intros Hq Hl. destruct (Le m q Hq Hl) as (c & Hc & Hs). exists c. split; [done|]. eauto.
  - intros m q c. destruct (decide (m = n)) as [->|Hmn].
    + rewrite lookup_alter_eq, Hp. intros [= <-]. apply Hconn.
    + rewrite lookup_alter_ne by done. apply Co.
  - intros m k q r c Hq Hr Hcq Hcr.
    assert (forall m' q', m' <> n -> syProcs s !! m' = Some q' -> c ∈ pcSessions q' -> c ∈ pcSessions (g p) -> m' = n) as Hx.
    { intros m' q' Hm' Hq' Hc1 Hc2. destruct (Hses c Hc2) as [Hc2'|Hc2']; [by apply (Ow m' n q' p c)|].
      pose proof (Ne m' q' c Hq' Hc1). lia. }
    revert Hq Hr. destruct (decide (m = n)) as [->|Hmn], (decide (k = n)) as [->|Hkn];
      rewrite ?lookup_alter_eq, ?lookup_alter_ne, ?Hp by done; intros Hq Hr; simplify_eq/=; [done| | |by apply (Ow m k q r c)].
    + symmetry. eauto.
    + eauto.
  - intros m q c. destruct (decide (m = n)) as [->|Hmn].
    + rewrite lookup_alter_eq, Hp. intros [= <-] Hc. destruct (Hses c Hc); [|lia]. pose proof (Ne n p c Hp). naive_solver lia.
    + rewrite lookup_alter_ne by done. intros Hq Hc. pose proof (Ne m q c Hq Hc). lia.
Qed.

Lemma upd_lock_id n g s l : syLock s = l -> upd_proc n g s = upd_proc n g (set_lock s l (sySessions s) (syNext s)).
Proof. intros <-. by destruct s. Qed.

Lemma try_lock_wf (f : Failing) n c s p :
  election_wf s -> syProcs s !! n = Some p -> c ∈ pcSessions p -> election_wf (try_lock f n c s).2.
Proof.
  intros W Hp Hc. unfold try_lock. destruct (_ && _); simpl.
  - unfold lock_free. destruct (syLock s) as [h|] eqn:Hl; [case_bool_decide as E|]; try subst h.
    + apply (upd_wf n _ s p (Some c)); auto; simpl; try lia.
      * eauto.
      * intros m q c0 Hm _ _ Hs _. congruence.
      * by intros c0 [= <-].
    + rewrite (upd_lock_id _ _ _ _ Hl). apply (upd_wf n _ s p (Some h)); auto; simpl; try lia; [congruence|by intros c0 [= <-]].
    + apply (upd_wf n _ s p (Some c)); auto; simpl; try lia.
      * eauto.
      * intros m q c0 Hm Hq Hlead Hs. by rewrite Hl in Hs.
      * by intros c0 [= <-].
  - rewrite (upd_lock_id _ _ _ _ eq_refl). apply (upd_wf n _ s p (syLock s)); auto; simpl; try lia; done.
Qed.

Lemma tryAcquire_wf (f : Failing) n s : election_wf s -> election_wf (tryAcquire f n s).2.
Proof.
  intros W. unfold tryAcquire. destruct (syProcs s !! n) as [p|] eqn:Hp; [|done].
  destruct (pcConn p) as [c|] eqn:Hc; [apply (try_lock_wf _ _ _ _ p); [done..|by apply (el_conn _ W n p)]|].
  destruct (f "connection"); [done|]. apply (try_lock_wf _ _ _ _ (open_conn (syNext s) p)).
  - apply (upd_wf n _ s p); auto; simpl; try lia.
    + intros Hl. destruct (el_leader _ W n p Hp Hl) as (c & Hc' & _). congruence.
    + intros c [= <-]. set_solver.
    + intros c [->%elem_of_singleton|]%elem_of_union; [right; lia|by left].
  - simpl. by rewrite lookup_alter_eq, Hp.
  - simpl. set_solver.
Qed.

Lemma release_wf (f : Failing) n s : election_wf s -> election_wf (release f n s).
Proof.
  intros W. unfold release. destruct (syProcs s !! n) as [p|] eqn:Hp; [|done].
  assert (forall lock, (forall m q c, m <> n -> syProcs s !! m = Some q -> pcLeader q = true -> syLock s = Some c ->
    pcConn q = Some c -> lock = Some c) -> election_wf (upd_proc n (set_leader false None) (set_lock s lock (sySessions s) (syNext s)))) as Hrel.
  { intros lock Ho. apply (upd_wf n _ s p lock); auto; simpl; try lia; done. }
  destruct (pcConn p) as [c|] eqn:Hc; [|rewrite (upd_lock_id _ _ _ _ eq_refl); by apply Hrel].
  destruct (bool_decide (f "advisory unlock" = None) && bool_decide (syLock s = Some c)) eqn:E; [|rewrite (upd_lock_id _ _ _ _ eq_refl); by apply Hrel].
  apply Hrel. intros m q c0 Hm Hq _ Hl Hcq. to_prop. destruct Hm. assert (c0 = c) as -> by congruence.
  by apply (el_own _ W m n q p c); [..|apply (el_conn _ W m q)|apply (el_conn _ W n p)].
Qed.

Lemma end_process_wf n s : election_wf s -> election_wf (end_process n s).
Proof.
  intros [Le Co Ow Ne]. unfold end_process. destruct (syProcs s !! n) as [p|] eqn:Hp; [|by split]. split; simpl.
  - intros m q [Hm Hq]%lookup_delete_Some Hl. destruct (Le m q Hq Hl) as (c & Hc & ->). exists c. split; [done|].
    rewrite bool_decide_eq_false_2; [done|]. intros Hin. destruct Hm. apply (Ow n m p q c); [done|done|done|by apply (Co m q)].
  - intros m q c [_ Hq]%lookup_delete_Some. apply (Co m q c Hq).
  - intros m k q r c [_ Hq]%lookup_delete_Some [_ Hr]%lookup_delete_Some. apply (Ow m k q r c Hq Hr).
  - intros m q c [_ Hq]%lookup_delete_Some. apply (Ne m q c Hq).
Qed.

Lemma new_process_wf n ls s :
  election_wf s -> syProcs s !! n = None -> election_wf (set_procs s (<[n := mkProc false None ∅ ls []]> (syProcs s))).
Proof.
  intros [Le Co Ow Ne] Hn. split; simpl.
  - intros m p [[<- <-]|[_ Hp]]%lookup_insert_Some; [done|]. apply (Le m p Hp).
  - intros m p c [[<- <-]|[_ Hp]]%lookup_insert_Some; [done|]. apply (Co m p c Hp).
  - intros m k p q c [[<- <-]|[_ Hp]]%lookup_insert_Some [[<- <-]|[_ Hq]]%lookup_insert_Some; simpl; intros H1 H2;
      [done|set_solver|set_solver|by apply (Ow m k p q c)].
  - intros m p c [[<- <-]|[_ Hp]]%lookup_insert_Some; [simpl; set_solver|]. apply (Ne m p c Hp).
Qed.

Lemma on_tick_wf (f : Failing) n s : election_wf s -> election_wf (on_tick f n s).
Proof.
  intros W. unfold on_tick. destruct (is_leader n s); [done|]. pose proof (tryAcquire_wf f n s W) as W1.
  destruct (tryAcquire f n s) as [[[|]|] s1]; try done. simpl in W1.
  apply (election_wf_same s1); [|done]. eapply same_election_trans; [apply (set_status_same f n NodeStatusActive)|apply publish_same].
Qed.

Lemma tick_wf timeout (f : Failing) now n s : election_wf s -> election_wf (heartbeat_tick timeout f now n s).
Proof.
  intros W. unfold heartbeat_tick. pose proof (on_tick_wf f n s W) as W1. unfold UpdateHeartbeat.
  destruct (f "update heartbeat"); [done|]. destruct (GetDeadNodes _ _ _ _) as [dead|]; [|by apply (election_wf_same (on_tick f n s))].
  apply (election_wf_same (on_tick f n s)); [|done]. eapply same_election_trans; [|apply bury_same]. done.
Qed.

Lemma subscribe_same (f : Failing) n ch s : same_election s (subscribe f n ch s).
Proof. unfold subscribe. destruct (f _); [done|]. by apply upd_same. Qed.

Lemma cluster_start_wf (f : Failing) now n name addr version labels s :
  election_wf s -> syProcs s !! n = None -> election_wf (cluster_start f now n name addr version labels s).2.
Proof.
  intros W Hn. pose proof (new_process_wf n [] s W Hn) as W1. unfold cluster_start, RegisterNode.
  destruct (f "register node"); [by apply end_process_wf|]. destruct (f "notifier connect").
  { apply end_process_wf. by apply (election_wf_same (set_procs s (<[n := mkProc false None ∅ [] []]> (syProcs s)))). }
  match goal with |- context [tryAcquire f n ?x] => assert (election_wf x) as W2 end.
  { apply (election_wf_same (set_procs s (<[n := mkProc false None ∅ [] []]> (syProcs s)))); [|done].
    eapply same_election_trans; [|apply subscribe_same]. eapply same_election_trans; [|apply subscribe_same].
    by eapply same_election_trans; [|apply subscribe_same]. }
  apply (tryAcquire_wf f n) in W2. eapply election_wf_same; [|exact W2]. simpl.
  eapply same_election_trans; [apply (set_status_same f n NodeStatusActive)|apply publish_same].
Qed.

(** Connections are not lost in a history without these. *)
Definition keeps_connections (op : ClusterOp) : bool := match op with OpLose _ => false | _ => true end.

Lemma cluster_step_wf timeout (f : Failing) now op s :
  keeps_connections op = true -> election_wf s -> election_wf (cluster_step timeout f now op s).
Proof.
  intros Hop W. destruct op; simpl; try done.
  - case_bool_decide; [by apply tick_wf|done].
  - case_bool_decide as Hn; [done|]. apply cluster_start_wf; [done|]. by apply eq_None_not_Some.
  - unfold cluster_stop. apply end_process_wf.
    apply (election_wf_same (release f n s)); [apply set_status_same|by apply release_wf].
  - by apply end_process_wf.
  - by apply (election_wf_same s); [apply request_same|].
  - by apply (election_wf_same s); [apply drain_same|].
  - by apply (election_wf_same s); [apply dispatch_same|].
  - by apply (election_wf_same s).
  - by apply (election_wf_same s).
Qed.

Lemma cluster_run_wf timeout ops s :
  Forall (fun x => keeps_connections x.2 = true) ops -> election_wf s -> election_wf (run_cluster timeout ops s).
Proof.
  unfold run_cluster. revert s. induction ops as [|x ops IH]; intros s Hops W; simpl; [done|].
  inversion Hops; subst. apply IH; [done|]. by apply cluster_step_wf.
Qed.

(** C21: as long as no node loses the connection of its lock, at most one node takes itself for
    the leader, and it holds the lock; with any statements failing. *)
Theorem one_leader timeout ops s n m :
  election_wf s -> Forall (fun x => keeps_connections x.2 = true) ops ->
  is_leader n (run_cluster timeout ops s) = true -> is_leader m (run_cluster timeout ops s) = true -> n = m.
Proof.
  intros W Hops. pose proof (cluster_run_wf timeout ops s Hops W) as [Le Co Ow _]. unfold is_leader.
  destruct (syProcs _ !! n) as [p|] eqn:Hp; [|done]. destruct (syProcs _ !! m) as [q|] eqn:Hq; [|done]. intros H1 H2.
  destruct (Le n p Hp H1) as (c & Hc & Hl). destruct (Le m q Hq H2) as (d & Hd & Hl').
  assert (d = c) as -> by congruence. apply (Ow n m p q c); eauto.
Qed.

(** * The tables *)

(** Nodes are under their IDs; an assignment is of an agent that exists to a node that exists, and
    the columns of affinity are empty: no statement writes them. *)
Record placed_wf (s : Sys) : Prop := {
  pw_nodes : forall k n, syNodes s !! k = Some n -> niNodeID n = k /\ k <> EmptyString;
  pw_capacity : forall k n, syNodes s !! k = Some n -> niCapacity n = collectCapacity;
  pw_assign : forall a r, syAssign s !! a = Some r -> asAgentID r = a /\ is_Some (syAgents s !! a)
    /\ is_Some (syNodes s !! asNodeID r) /\ asNodeAffinity r = ∅ /\ asNodePreference r = ∅;
}.

Definition same_tables (s s' : Sys) : Prop :=
  syNodes s' = syNodes s /\ syAssign s' = syAssign s /\ syAgents s' = syAgents s.

Lemma placed_wf_same s s' : same_tables s s' -> placed_wf s -> placed_wf s'.
Proof. intros (En & Ea & Eg) [No Ca As]. split; rewrite ?En, ?Ea, ?Eg; done. Qed.

Lemma publish_tables (f : Failing) ch ev s : same_tables s (publish f ch ev s).2.
Proof. unfold publish. by destruct (f _). Qed.

Definition active (s : Sys) (x : string) : Prop := exists n, syNodes s !! x = Some n /\ niStatus n = NodeStatusActive.

(** An assignment leaves the tables as they are, or puts the agent on an active node. *)
Definition assigned_to (a x : string) (s s' : Sys) : Prop :=
  exists r, syNodes s' = syNodes s /\ syAgents s' = syAgents s /\ syAssign s' = <[a := r]> (syAssign s)
    /\ asNodeID r = x /\ active s x /\ (placed_wf s -> placed_wf s').

Lemma assigned_tables a x s s1 s2 : assigned_to a x s s1 -> same_tables s1 s2 -> assigned_to a x s s2.
Proof.
  intros (r & Hn & Hg & Ha & Hr & Hx & Hw) T. pose proof T as (Hn' & Ha' & Hg').
  exists r. split_and!; try congruence; try done. intros W. apply (placed_wf_same s1); auto.
Qed.

Lemma assign_row (f : Failing) now a x s s1 :
  active s x -> AssignAgent f now a x s = (None, s1) -> assigned_to a x s s1.
Proof.
  intros Hx. unfold AssignAgent. destruct (f _); [done|]. destruct (_ && _) eqn:E; [|done]. to_prop.
  match goal with |- context [<[a := ?r]> (syAssign s)] => remember r as row eqn:R end. intros [= <-].
  assert (asAgentID row = a /\ asNodeID row = x) as [Hid Hrow] by (subst row; by destruct (syAssign s !! a)).
  exists row. simpl. split_and!; try done. intros [No Ca As]. split; simpl; try done.
  intros b r [[<- <-]|[_ Hr]]%lookup_insert_Some; [|by apply As]. rewrite Hrow. split_and!; [done..| |].
  - subst row. destruct (syAssign s !! a) as [old|] eqn:Hold; [by apply (As a old)|done].
  - subst row. destruct (syAssign s !! a) as [old|] eqn:Hold; [by apply (As a old)|done].
Qed.

Lemma pick_active s aff pref :
  placed_wf s -> pickNode (nodes_in_order s) aff pref <> EmptyString -> active s (pickNode (nodes_in_order s) aff pref).
Proof.
  intros W Hx. destruct (pick_eligible _ _ _ Hx) as (nd & [Hin [Hact _]]%eligible_elem & <-).
  apply nodes_in_order_elem in Hin as [k Hk]. destruct (pw_nodes _ W _ _ Hk) as [-> _]. by exists nd.
Qed.

Lemma assign_cases (f : Failing) now n a aff pref s :
  placed_wf s ->
  same_tables s (assignAgent f now n a aff pref s).2 \/ exists x, assigned_to a x s (assignAgent f now n a aff pref s).2.
Proof.
  intros W. unfold assignAgent, ListNodes. destruct (f "list nodes"); [by left|].
  unfold Ok. cbn beta iota. case_bool_decide as Hx; [by left|]. destruct (AssignAgent f now a _ s) as [[e|] s1] eqn:E.
  - left. unfold AssignAgent in E. destruct (f _); [by injection E as _ <-|]. destruct (_ && _); [done|]. by injection E as _ <-.
  - right. exists (pickNode (nodes_in_order s) aff pref).
    eapply assigned_tables; [by apply (assign_row _ _ _ _ _ _ (pick_active _ _ _ W Hx) E)|].
    apply publish_tables.
Qed.

(** Without failures an agent that exists is placed if a node is eligible. *)
Lemma assign_done now n a aff pref s :
  placed_wf s -> is_Some (syAgents s !! a) -> eligible_nodes (nodes_in_order s) aff <> [] ->
  exists x, assigned_to a x s (assignAgent no_failure now n a aff pref s).2.
Proof.
  intros W Ha He. unfold assignAgent, ListNodes. simpl.
  assert (pickNode (nodes_in_order s) aff pref <> EmptyString) as Hne.
  { rewrite pick_none; [done|]. intros nd [k Hk]%nodes_in_order_elem. by destruct (pw_nodes _ W _ _ Hk) as [-> ?]. }
  rewrite (bool_decide_eq_false_2 _ Hne). pose proof (pick_active s aff pref W Hne) as Hact.
  destruct (AssignAgent no_failure now a _ s) as [[e|] s1] eqn:E.
  - exfalso. unfold AssignAgent in E. simpl in E. destruct Hact as (nd & Hnd & _).
    rewrite bool_decide_eq_true_2, bool_decide_eq_true_2 in E by eauto. done.
  - eexists. eapply assigned_tables; [by apply (assign_row _ _ _ _ _ _ Hact E)|]. done.
Qed.

(** ** Agents that are moved *)

(** What a loop of assignments keeps *)
Record moved (s s' : Sys) : Prop := {
  mv_nodes : syNodes s' = syNodes s;
  mv_agents : syAgents s' = syAgents s;
  mv_wf : placed_wf s -> placed_wf s';
  mv_target : forall a r, syAssign s' !! a = Some r -> syAssign s !! a = Some r \/ active s (asNodeID r);
}.

Lemma moved_tables s s' : same_tables s s' -> moved s s'.
Proof. intros T. pose proof T as (Hn & Ha & Hg). split; [done|done|by apply placed_wf_same|]. rewrite Ha. by left. Qed.

Lemma moved_assigned a x s s' : assigned_to a x s s' -> moved s s'.
Proof.
  intros (r & Hn & Hg & Ha & Hr & Hx & Hw). split; [done|done|done|]. rewrite Ha.
  intros b r' [[<- <-]|[_ Hb]]%lookup_insert_Some; [right; by rewrite Hr|by left].
Qed.

Lemma active_nodes s s' x : syNodes s' = syNodes s -> active s' x <-> active s x.
Proof. unfold active. by intros ->. Qed.

Lemma moved_trans s1 s2 s3 : moved s1 s2 -> moved s2 s3 -> moved s1 s3.
Proof.
  intros [N1 A1 W1 T1] [N2 A2 W2 T2]. split; [congruence|congruence|auto|]. intros a r Hr.
  destruct (T2 a r Hr) as [Hr'|Hx]; [by apply T1|]. right. by apply (active_nodes s1 s2).
Qed.

Lemma moved_refl s : moved s s.
Proof. by apply moved_tables. Qed.

Lemma assign_moved (f : Failing) now n a aff pref s : placed_wf s -> moved s (assignAgent f now n a aff pref s).2.
Proof. intros W. destruct (assign_cases f now n a aff pref s W) as [?|[x Hx]]; [by apply moved_tables|by apply (moved_assigned a x)]. Qed.

Lemma move_moved (f : Failing) now n l s : placed_wf s -> moved s (move_agents f now n l s).
Proof.
  unfold move_agents. revert s. induction l as [|a l IH]; intros s W; simpl; [apply moved_refl|].
  pose proof (assign_moved f now n (asAgentID a) (asNodeAffinity a) (asNodePreference a) s W) as Hm.
  apply (moved_trans _ _ _ Hm), IH, (mv_wf _ _ Hm W).
Qed.

Lemma assign_other (f : Failing) now n a aff pref b s :
  placed_wf s -> b <> a -> syAssign (assignAgent f now n a aff pref s).2 !! b = syAssign s !! b.
Proof.
  intros W Hb. destruct (assign_cases f now n a aff pref s W) as [(_ & -> & _)|[y (r & _ & _ & -> & _)]]; [done|].
  by rewrite lookup_insert_ne.
Qed.

Lemma move_other (f : Failing) now n b l s :
  placed_wf s -> b ∉ map asAgentID l -> syAssign (move_agents f now n l s) !! b = syAssign s !! b.
Proof.
  unfold move_agents. revert s. induction l as [|a l IH]; intros s W Hb; simpl; [done|].
  rewrite IH; [apply assign_other; [done|]|by apply (mv_wf _ _ (assign_moved _ _ _ _ _ _ _ W))|]; set_solver.
Qed.

(** Without failures, and with an active node, every agent of the list is moved to an active node. *)
Lemma move_all now n l s :
  placed_wf s -> (exists x, active s x) -> Forall (fun r => is_Some (syAgents s !! asAgentID r) /\ asNodeAffinity r = ∅) l ->
  forall r, r ∈ l -> exists r', syAssign (move_agents no_failure now n l s) !! asAgentID r = Some r' /\ active s (asNodeID r').
Proof.
  unfold move_agents. revert s. induction l as [|a l IH]; intros s W [x Hx] Hall r Hr; [by apply elem_of_nil in Hr|]. simpl.
  inversion Hall as [|? ? [Hex Haff] Hall']; subst.
  destruct (assign_done now n (asAgentID a) (asNodeAffinity a) (asNodePreference a) s W Hex) as [y Hy].
  { rewrite Haff. destruct Hx as (nd & Hnd & Hact). intros E.
    assert (nd ∈ eligible_nodes (nodes_in_order s) ∅) as Hin; [|rewrite E in Hin; by apply elem_of_nil in Hin].
    apply eligible_elem. split_and!; [apply nodes_in_order_elem; eauto|done|done]. }
  set (s1 := (assignAgent _ _ _ _ _ _ s).2) in *. pose proof (moved_assigned _ _ _ _ Hy) as M1.
  pose proof (mv_wf _ _ M1 W) as W1. pose proof (active_nodes s s1) as Hact. rewrite (mv_nodes _ _ M1) in Hact.
  destruct (decide (asAgentID r ∈ map asAgentID l)) as [Hin|Hout].
  - apply list_elem_of_fmap in Hin as (r0 & Heq & Hin). rewrite Heq.
    destruct (IH s1 W1) with (r := r0) as (r' & Hr' & Hx'); [exists x; by apply Hact| |done|exists r'; by rewrite <- Hact].
    by rewrite (mv_agents _ _ M1).
  - apply elem_of_cons in Hr as [->|Hr]; [|destruct Hout; by apply list_elem_of_fmap_2].
    destruct Hy as (r' & Hn & _ & Ha & Hrx & Hx' & _). exists r'. rewrite Hrx. split; [|done].
    assert (syAssign s1 !! asAgentID a = Some r') as Hrow by (by rewrite Ha, lookup_insert_eq).
    rewrite <- Hrow. by apply (move_other no_failure now n (asAgentID a) l s1).
Qed.

Lemma on_node_elem x s r : placed_wf s -> r ∈ on_node x s <-> syAssign s !! asAgentID r = Some r /\ asNodeID r = x.
Proof.
  intros W. unfold on_node. rewrite filter_elem, bool_decide_eq_true, list_elem_of_fmap. split.
  - intros [([k v] & -> & Hin) Hx]. apply elem_of_map_to_list in Hin. simpl in *. by rewrite (proj1 (pw_assign _ W _ _ Hin)).
  - intros [Hr Hx]. split; [|done]. exists (asAgentID r, r). split; [done|]. by apply elem_of_map_to_list.
Qed.

Definition status_set (x st : string) (s : Sys) : Sys := set_nodes s (alter (with_status st) x (syNodes s)).

Lemma status_wf x st s : placed_wf s -> placed_wf (status_set x st s).
Proof.
  intros [No Ca As]. split; simpl.
  - intros k n Hk. destruct (decide (k = x)) as [->|]; [rewrite lookup_alter_eq in Hk|rewrite lookup_alter_ne in Hk by done; by apply No].
    destruct (syNodes s !! x) as [n0|] eqn:E; [|done]. injection Hk as <-. exact (No x n0 E).
  - intros k n Hk. destruct (decide (k = x)) as [->|]; [rewrite lookup_alter_eq in Hk|rewrite lookup_alter_ne in Hk by done; by apply (Ca k)].
    destruct (syNodes s !! x) as [n0|] eqn:E; [|done]. injection Hk as <-. exact (Ca x n0 E).
  - intros a r Hr. destruct (As a r Hr) as (? & ? & Hn & ?). split_and!; [done|done| |naive_solver..].
    destruct (decide (asNodeID r = x)) as [<-|]; [rewrite lookup_alter_eq; destruct Hn as [? ->]; by eexists|by rewrite lookup_alter_ne].
Qed.

Lemma status_active x st s y :
  active (status_set x st s) y <-> if decide (y = x) then st = NodeStatusActive /\ is_Some (syNodes s !! x) else active s y.
Proof.
  unfold active, status_set. simpl. destruct (decide (y = x)) as [->|]; [rewrite lookup_alter_eq|by rewrite lookup_alter_ne].
  destruct (syNodes s !! x) as [n|]; simpl; split; [naive_solver| |naive_solver|naive_solver]. intros [-> _]. eexists. by split.
Qed.

(** draining a node that is not the only active one ends without an error with no agent
    assigned to it; the agents of other nodes stay. *)
Theorem drain_moves_agents now n x y s :
  placed_wf s -> y <> x -> active s y ->
  (drainNode no_failure now n x s).1 = None
  /\ (forall a r, syAssign (drainNode no_failure now n x s).2 !! a = Some r -> asNodeID r <> x)
  /\ forall a r, syAssign s !! a = Some r ->
       (asNodeID r <> x -> syAssign (drainNode no_failure now n x s).2 !! a = Some r)
       /\ is_Some (syAssign (drainNode no_failure now n x s).2 !! a).
Proof.
  intros W Hy Hact. unfold drainNode. simpl. fold (status_set x NodeStatusDraining s).
  set (s1 := status_set x NodeStatusDraining s). set (l := map _ (on_node x s1)).
  pose proof (status_wf x NodeStatusDraining s W) as W1. fold s1 in W1.
  assert (Forall (fun r => is_Some (syAgents s1 !! asAgentID r) /\ asNodeAffinity r = ∅) l) as Hl.
  { apply Forall_forall. intros r (r0 & -> & [Hr _]%(on_node_elem _ _ _ W1))%list_elem_of_fmap. simpl.
    by destruct (pw_assign _ W1 _ _ Hr) as (_ & ? & _). }
  assert (forall a r, syAssign s1 !! a = Some r -> asNodeID r = x -> exists r0, r0 ∈ l /\ asAgentID r0 = a) as Hin.
  { intros a r Hr Hx. pose proof (proj1 (pw_assign _ W1 _ _ Hr)) as Hid. subst a.
    exists (mkAssignment (asAgentID r) (asNodeID r) (asAssignedAt r) ∅ ∅). split; [|done].
    apply (list_elem_of_fmap_2 (fun a => mkAssignment (asAgentID a) (asNodeID a) (asAssignedAt a) ∅ ∅)).
    by apply on_node_elem. }
  assert (exists z, active s1 z) as Hz by (exists y; apply status_active; by destruct (decide (y = x))).
  pose proof (move_all now n l s1 W1 Hz Hl) as Hmove. pose proof (move_moved no_failure now n l s1 W1) as M.
  split_and!; [done| |].
  - intros a r Hr Hx. destruct (mv_target _ _ M a r Hr) as [Hold|Ha]; subst x.
    + destruct (Hin a r Hold eq_refl) as (r0 & Hr0 & <-). destruct (Hmove r0 Hr0) as (r' & Hr' & Ha').
      simpl in Hr. rewrite Hr in Hr'. injection Hr' as <-. apply status_active in Ha'. by destruct (decide _), Ha'.
    + apply status_active in Ha. by destruct (decide _), Ha.
  - intros a r Hr. destruct (decide (a ∈ map asAgentID l)) as [Hal|Hal].
    + apply list_elem_of_fmap in Hal as (r0 & -> & Hr0). destruct (Hmove r0 Hr0) as (r' & Hr' & _). split; [|by eexists].
      intros Hne. destruct Hne. apply list_elem_of_fmap in Hr0 as (r1 & -> & [Hr1 <-]%(on_node_elem _ _ _ W1)).
      simpl in *. congruence.
    + simpl. rewrite (move_other no_failure now n a l s1 W1 Hal). simpl. rewrite Hr. split; [done|by eexists].
Qed.

Lemma is_leader_same n s s' : same_election s s' -> is_leader n s' = is_leader n s.
Proof.
  intros (_ & _ & Hp). unfold is_leader. assert ((elect_of <$> syProcs s') !! n = (elect_of <$> syProcs s) !! n) as E by by rewrite Hp.
  rewrite !lookup_fmap in E. destruct (syProcs s !! n), (syProcs s' !! n); try done. by injection E.
Qed.

(** Nodes without an agent that should run, and that get none *)
Definition cleared (P : list string) (s : Sys) : Prop :=
  forall x, x ∈ P -> ~ active s x
    /\ forall a r, syAssign s !! a = Some r -> wants_to_run s r = true -> asNodeID r <> x.

Lemma on_dead_clears now n d P s :
  placed_wf s -> active s n -> d <> n -> is_leader n s = true -> cleared P s ->
  let s' := on_dead no_failure now n d (status_set d NodeStatusDisconnected s) in
  placed_wf s' /\ active s' n /\ is_leader n s' = true /\ cleared (P ++ [d]) s'
  /\ forall a, is_Some (syAssign s !! a) -> is_Some (syAssign s' !! a).
Proof.
  intros W Hn Hd Hlead Hc. set (s0 := status_set d NodeStatusDisconnected s).
  pose proof (status_wf d NodeStatusDisconnected s W) as W0. fold s0 in W0.
  assert (active s0 n) as Hn0 by (apply status_active; by destruct (decide (n = d))).
  assert (~ active s0 d) as Hd0 by (intros Ha%status_active; by destruct (decide _), Ha).
  unfold on_dead. assert (is_leader n s0 = true) as -> by done. unfold reassignOrphans, GetOrphanedAgents. simpl.
  set (l := List.filter (wants_to_run s0) (on_node d s0)). set (s2 := move_agents no_failure now n l s0).
  assert (Forall (fun r => is_Some (syAgents s0 !! asAgentID r) /\ asNodeAffinity r = ∅) l) as Hl.
  { apply Forall_forall. intros r [[Hr _]%(on_node_elem _ _ _ W0) _]%filter_elem.
    by destruct (pw_assign _ W0 _ _ Hr) as (_ & ? & _ & ? & _). }
  pose proof (move_moved no_failure now n l s0 W0) as M. fold s2 in M.
  pose proof (move_all now n l s0 W0 (ex_intro _ n Hn0) Hl) as Hmove. fold s2 in Hmove.
  pose proof (fun y => active_nodes s0 s2 y (mv_nodes _ _ M)) as Hact.
  split_and!.
  - apply (placed_wf_same s2); [done|]. by apply (mv_wf _ _ M).
  - by apply Hact.
  - rewrite <- Hlead. apply (is_leader_same n s s2). eapply same_election_trans; [|apply move_same]. done.
  - intros x Hx. assert (~ active s0 x) as Hx0.
    { apply elem_of_app in Hx as [Hx| ->%list_elem_of_singleton]; [|done]. intros Ha%status_active.
      destruct (decide (x = d)); [by destruct Ha|]. by destruct (Hc x Hx). }
    split; [by intros ?%Hact|]. intros a r Hr Hw Hxr. subst x.
    destruct (mv_target _ _ M a r Hr) as [Hold|Ha]; [|done].
    assert (wants_to_run s0 r = true) as Hw0 by (by unfold wants_to_run in *; rewrite <- (mv_agents _ _ M)).
    apply elem_of_app in Hx as [Hx|Hx%list_elem_of_singleton].
    + by destruct (proj2 (Hc _ Hx) a r Hold Hw0).
    + pose proof (proj1 (pw_assign _ W0 _ _ Hold)) as Hid. subst a.
      destruct (Hmove r) as (r' & Hr' & Ha'); [apply filter_elem; by rewrite (on_node_elem _ _ _ W0)|].
      simpl in Hr. congruence.
  - intros a Ha. simpl. destruct (decide (a ∈ map asAgentID l)) as [Hal|Hal].
    + apply list_elem_of_fmap in Hal as (r & -> & Hrl). destruct (Hmove r Hrl) as (r' & Hr' & _). by eexists.
    + unfold s2. by rewrite (move_other no_failure now n a l s0 W0 Hal).
Qed.

Lemma bury_clears now n l P s :
  placed_wf s -> active s n -> Forall (fun d => niNodeID d <> n) l -> is_leader n s = true -> cleared P s ->
  let s' := bury no_failure now n l s in
  cleared (P ++ map niNodeID l) s' /\ forall a, is_Some (syAssign s !! a) -> is_Some (syAssign s' !! a).
Proof.
  unfold bury. revert P s. induction l as [|d l IH]; intros P s W Hn Hl Hlead Hc; simpl; [by rewrite app_nil_r|].
  inversion Hl as [|? ? Hd Hl']; subst. destruct (on_dead_clears now n (niNodeID d) P s W Hn Hd Hlead Hc) as (W' & Hn' & Hlead' & Hc' & Has).
  destruct (IH (P ++ [niNodeID d]) _ W' Hn' Hl' Hlead' Hc') as [Hcl Hkeep]. rewrite <- app_assoc in Hcl. split; [exact Hcl|auto].
Qed.

(** C20: after a heartbeat of the leader, itself an active node, in which no statement fails, no agent that should
    run is assigned to a node that was still marked active while its heartbeats had stopped, and every agent that
    was assigned still is.  Nodes that another one's heartbeat has marked disconnected before are passed over
    ([orphans_of_follower_stranded]). *)
Theorem leader_tick_recovers timeout now n s :
  0 <= timeout -> placed_wf s -> is_leader n s = true -> active s n ->
  let s' := heartbeat_tick timeout no_failure now n s in
  (forall a, is_Some (syAssign s !! a) -> is_Some (syAssign s' !! a))
  /\ forall x nd, syNodes s !! x = Some nd -> dead_row now timeout nd = true -> x <> n ->
       forall a r, syAssign s' !! a = Some r -> wants_to_run s' r = true -> asNodeID r <> x.
Proof.
  intros Ht W Hlead Hn. unfold heartbeat_tick, on_tick. rewrite Hlead. simpl. unfold GetDeadNodes. simpl.
  match goal with |- context [bury _ _ _ ?l0 ?x0] => set (s1 := x0); set (l := l0) end.
  assert (forall k nd, syNodes s1 !! k = Some nd -> exists n0, syNodes s !! k = Some n0 /\ niNodeID nd = niNodeID n0
    /\ niStatus nd = niStatus n0 /\ (k <> n -> nd = n0) /\ (k = n -> niLastHeartbeat nd = now)) as Hback.
  { intros k nd. simpl. destruct (decide (k = n)) as [->|]; [rewrite lookup_alter_eq|rewrite lookup_alter_ne by done].
    - destruct (syNodes s !! n) as [n0|]; [|done]. intros [= <-]. by exists n0.
    - intros Hk. by exists nd. }
  assert (placed_wf s1) as W1.
  { destruct W as [No Ca As]. split.
    - intros k nd Hk. destruct (Hback k nd Hk) as (n0 & H0 & -> & _). by apply No.
    - intros k nd Hk. destruct (decide (k = n)) as [->|Hne].
      + simpl in Hk. rewrite lookup_alter_eq in Hk. destruct (syNodes s !! n); [|done]. by injection Hk as <-.
      + destruct (Hback k nd Hk) as (n0 & H0 & _ & _ & Heq & _). rewrite (Heq Hne). exact (Ca k n0 H0).
    - intros a r Hr. destruct (As a r Hr) as (? & ? & Hx & ?). split_and!; [done|done| |naive_solver..].
      simpl. by apply lookup_alter_is_Some. }
  assert (active s1 n) as Hn1.
  { destruct Hn as (n0 & H0 & Hst). eexists. simpl. rewrite lookup_alter_eq, H0. by split. }
  destruct (bury_clears now n l [] s1 W1 Hn1) as [Hc Hkeep]; [|done|by intros x ?%elem_of_nil|].
  - apply Forall_forall. intros d [Hin Hdead]%filter_elem Hid. apply list_elem_of_fmap in Hin as ([k nd] & -> & Hin).
    apply elem_of_map_to_list in Hin. pose proof (proj1 (pw_nodes _ W1 _ _ Hin)) as Hk. simpl in *. subst k.
    destruct (Hback _ _ Hin) as (_ & _ & _ & _ & _ & Hh). unfold dead_row in Hdead. rewrite Hh in Hdead by done. to_prop. lia.
  - split; [exact Hkeep|]. intros x nd Hx Hdead Hne a r Hr Hw. refine (proj2 (Hc x _) a r Hr Hw). simpl.
    assert (syNodes s1 !! x = Some nd) as Hx1 by (simpl; by rewrite lookup_alter_ne).
    rewrite <- (proj1 (pw_nodes _ W _ _ Hx)). apply list_elem_of_fmap_2, filter_elem. split; [|done].
    apply list_elem_of_fmap. exists (x, nd). split; [done|]. by apply elem_of_map_to_list.
Qed.

(** ** Every operation keeps the tables consistent *)

Definition starts_named (op : ClusterOp) : Prop := match op with OpStart n _ _ _ _ => n <> EmptyString | _ => True end.

Lemma set_status_wf (f : Failing) x st s : placed_wf s -> placed_wf (SetNodeStatus f x st s).2.
Proof. unfold SetNodeStatus. destruct (f _); [done|]. apply status_wf. Qed.

Lemma set_status_assign (f : Failing) x st s :
  syAssign (SetNodeStatus f x st s).2 = syAssign s /\ syAgents (SetNodeStatus f x st s).2 = syAgents s.
Proof. unfold SetNodeStatus. by destruct (f _). Qed.

Lemma elect_tables (f : Failing) n s : same_tables s (tryAcquire f n s).2.
Proof.
  unfold tryAcquire, try_lock. destruct (syProcs s !! n) as [p|]; [|done].
  destruct (pcConn p) as [c|]; [|destruct (f "connection"); [done|]]; destruct (_ && _); simpl; try done;
    by destruct (lock_free _ _).
Qed.

Lemma subscribe_tables (f : Failing) n ch s : same_tables s (subscribe f n ch s).
Proof. unfold subscribe. by destruct (f _). Qed.

Lemma end_tables n s : same_tables s (end_process n s).
Proof. unfold end_process. by destruct (syProcs s !! n). Qed.

Lemma bury_wf (f : Failing) now n l s : placed_wf s -> placed_wf (bury f now n l s).
Proof.
  unfold bury. revert s. induction l as [|d l IH]; intros s W; simpl; [done|]. apply IH. unfold on_dead.
  pose proof (set_status_wf f (niNodeID d) NodeStatusDisconnected s W) as W1.
  destruct (is_leader _ _); [|by apply (placed_wf_same (SetNodeStatus f (niNodeID d) NodeStatusDisconnected s).2)].
  unfold reassignOrphans. destruct (GetOrphanedAgents _ _ _) as [o|];
    [|by apply (placed_wf_same (SetNodeStatus f (niNodeID d) NodeStatusDisconnected s).2)].
  eapply placed_wf_same; [|exact (mv_wf _ _ (move_moved f now n o _ W1) W1)]. done.
Qed.

Lemma heartbeat_row_wf now n s :
  placed_wf s -> placed_wf (set_nodes s (alter (fun n => mkNodeInfo (niNodeID n) (niNodeName n) (niAddress n) (niStatus n) now
    collectCapacity (niLabels n) (niVersion n) (niCreatedAt n)) n (syNodes s))).
Proof.
  intros [No Ca As]. split; simpl.
  - intros k nd Hk. apply lookup_alter_Some in Hk as [(<- & n0 & H0 & ->)|[_ Hk]]; [exact (No n n0 H0)|exact (No k nd Hk)].
  - intros k nd Hk. apply lookup_alter_Some in Hk as [(<- & n0 & H0 & ->)|[_ Hk]]; [done|exact (Ca k nd Hk)].
  - intros a r Hr. destruct (As a r Hr) as (? & ? & Hx & ?). split_and!; [done|done| |naive_solver..]. by apply lookup_alter_is_Some.
Qed.

Lemma on_tick_placed (f : Failing) n s : placed_wf s -> placed_wf (on_tick f n s).
Proof.
  intros W. unfold on_tick. destruct (is_leader n s); [done|]. pose proof (elect_tables f n s) as T.
  destruct (tryAcquire f n s) as [[[|]|] s1]; simpl in T; try (by apply (placed_wf_same s)).
  eapply placed_wf_same; [|exact (set_status_wf f n NodeStatusActive s1 (placed_wf_same _ _ T W))].
  match goal with |- same_tables _ (call_back (publish f ?c ?e ?s0).2 _ _) => exact (publish_tables f c e s0) end.
Qed.

Lemma tick_placed timeout (f : Failing) now n s : placed_wf s -> placed_wf (heartbeat_tick timeout f now n s).
Proof.
  intros W. unfold heartbeat_tick. pose proof (on_tick_placed f n s W) as W1. unfold UpdateHeartbeat.
  destruct (f "update heartbeat"); [done|]. pose proof (heartbeat_row_wf now n _ W1) as W2.
  destruct (GetDeadNodes _ _ _ _) as [dead|]; [by apply bury_wf|done].
Qed.

Lemma register_wf (f : Failing) now nd s :
  niNodeID nd <> EmptyString -> niCapacity nd = collectCapacity -> placed_wf s -> placed_wf (RegisterNode f now nd s).2.
Proof.
  intros Hid Hc [No Ca As]. unfold RegisterNode. destruct (f _); [by split|]. split; simpl.
  - intros k n [[<- <-]|[_ Hk]]%lookup_insert_Some; [done|by apply No].
  - intros k n [[<- <-]|[_ Hk]]%lookup_insert_Some; [done|by apply (Ca k)].
  - intros a r Hr. destruct (As a r Hr) as (? & ? & Hx & ?). split_and!; [done|done| |naive_solver..].
    by apply lookup_insert_is_Some'; right.
Qed.

Lemma start_placed (f : Failing) now n name addr version labels s :
  n <> EmptyString -> placed_wf s -> placed_wf (cluster_start f now n name addr version labels s).2.
Proof.
  intros Hn W. unfold cluster_start.
  match goal with |- context [RegisterNode f now ?nd ?s0] =>
    pose proof (register_wf f now nd s0 Hn eq_refl (placed_wf_same s s0 (conj eq_refl (conj eq_refl eq_refl)) W)) as W1;
    destruct (RegisterNode f now nd s0) as [[e|] s1] end; simpl in W1.
  - eapply placed_wf_same; [apply end_tables|done].
  - destruct (f "notifier connect"); [by eapply placed_wf_same; [apply end_tables|]|].
    eapply placed_wf_same; [apply publish_tables|]. apply set_status_wf. eapply placed_wf_same; [apply elect_tables|].
    by do 3 (eapply placed_wf_same; [apply subscribe_tables|]).
Qed.

Lemma drain_placed (f : Failing) now n x s : placed_wf s -> placed_wf (drainNode f now n x s).2.
Proof.
  intros W. unfold drainNode. pose proof (set_status_wf f x NodeStatusDraining s W) as W1.
  destruct (SetNodeStatus f x NodeStatusDraining s) as [[e|] s1]; [done|]. simpl in W1.
  destruct (GetNodeAgents f x s1) as [l|]; [|done]. pose proof (mv_wf _ _ (move_moved f now n l s1 W1) W1) as W2.
  pose proof (set_status_wf f x NodeStatusDrained _ W2) as W3.
  by destruct (SetNodeStatus f x NodeStatusDrained (move_agents f now n l s1)) as [[e|] s2].
Qed.

Lemma dispatch_placed (f : Failing) now n s : placed_wf s -> placed_wf (dispatch f now n s).
Proof.
  intros W. unfold dispatch. destruct (syProcs s !! n) as [p|]; [|done]. destruct (pcInbox p) as [|[ch ev] rest]; [done|].
  match goal with |- context [handleClusterEvent f now n ev ?x] => set (s1 := x); assert (placed_wf s1) as W1 by by apply (placed_wf_same s) end.
  case_bool_decide; [|case_bool_decide; [|done]].
  - unfold handleClusterEvent. destruct (evType ev); try done; [|by apply (placed_wf_same s1)]. destruct (is_leader n s1); [|done].
    destruct (placement_of f (evAgentID ev) s1) as [aff pref]. apply (mv_wf _ _ (assign_moved f now n _ aff pref s1 W1) W1).
  - unfold handleQueueEvent. destruct (evType ev); try done. by apply (placed_wf_same s1).
Qed.

Lemma release_tables (f : Failing) n s : same_tables s (release f n s).
Proof.
  unfold release. destruct (syProcs s !! n) as [p|]; [|done]. destruct (pcConn p); [|done]. by destruct (_ && _).
Qed.

Lemma cluster_step_placed timeout (f : Failing) now op s :
  starts_named op -> placed_wf s -> placed_wf (cluster_step timeout f now op s).
Proof.
  intros Hop W. destruct op; simpl.
  - case_bool_decide; [by apply tick_placed|done].
  - case_bool_decide; [done|by apply start_placed].
  - unfold cluster_stop. eapply placed_wf_same; [apply end_tables|]. apply set_status_wf.
    eapply placed_wf_same; [apply release_tables|done].
  - eapply placed_wf_same; [apply end_tables|done].
  - unfold lose_session. destruct (syProcs s !! n) as [p|]; [|done]. by destruct (pcConn p); [apply (placed_wf_same s)|].
  - unfold RequestAssignment. destruct (placement_of f agentID s) as [aff pref]. destruct (is_leader n s).
    + apply (mv_wf _ _ (assign_moved f now n _ aff pref s W) W).
    + eapply placed_wf_same; [apply publish_tables|done].
  - by apply drain_placed.
  - by apply dispatch_placed.
  - destruct W as [No Ca As]. split; simpl; [done|done|]. intros a r Hr. destruct (As a r Hr) as (? & ? & Hx & ?).
    split_and!; [done| |done|naive_solver..]. by apply lookup_insert_is_Some'; right.
  - destruct W as [No Ca As]. split; simpl; [done|done|]. intros a r [Hne Hr]%lookup_delete_Some.
    destruct (As a r Hr) as (? & ? & Hx & ?). split_and!; [done| |done|naive_solver..]. by rewrite lookup_delete_ne.
Qed.

(** * Agents nobody moves any more *)

Definition asks_for (a : string) (ce : string * ClusterEvent) : Prop :=
  evType ce.2 = EventAgentNeedsAssignment /\ evAgentID ce.2 = a.

(** The agent is assigned to a node that counts as disconnected, and no request for it is on its way. *)
Record stranded (a x : string) (s : Sys) : Prop := {
  sd_row : exists r, syAssign s !! a = Some r /\ asNodeID r = x;
  sd_node : exists nd, syNodes s !! x = Some nd /\ niStatus nd = NodeStatusDisconnected;
  sd_quiet : forall n p ce, syProcs s !! n = Some p -> ce ∈ pcInbox p -> ~ asks_for a ce;
}.

(** The operations that do not move it: the node does not come back, nobody asks for the agent *)
Definition leaves_stranded (a x : string) (op : ClusterOp) : Prop :=
  match op with
  | OpTick n | OpStart n _ _ _ _ => n <> x
  | OpRequest _ b | OpDeleteAgent b => b <> a
  | OpDrain _ y => y <> x
  | _ => True
  end.

(** Changes of the processes that only take from the inboxes, or post events of other kinds *)
Definition quiet (a : string) (s s' : Sys) : Prop :=
  forall n p' ce, syProcs s' !! n = Some p' -> ce ∈ pcInbox p' -> asks_for a ce ->
    exists p, syProcs s !! n = Some p /\ ce ∈ pcInbox p.

Lemma quiet_refl a s s' : syProcs s' = syProcs s -> quiet a s s'.
Proof. intros E n p ce. rewrite E. eauto. Qed.

Lemma quiet_trans a s1 s2 s3 : quiet a s1 s2 -> quiet a s2 s3 -> quiet a s1 s3.
Proof. intros H1 H2 n p ce Hp Hc Ha. destruct (H2 n p ce Hp Hc Ha) as (q & Hq & Hc'). eauto. Qed.

Lemma quiet_upd a n g s : (forall p ce, ce ∈ pcInbox (g p) -> ce ∈ pcInbox p) -> quiet a s (upd_proc n g s).
Proof.
  intros Hg m p ce Hp Hc _. simpl in Hp. apply lookup_alter_Some in Hp as [(-> & p0 & H0 & ->)|[_ Hp]]; eauto.
Qed.

Lemma quiet_publish a (f : Failing) ch ev s : ~ asks_for a (ch, ev) -> quiet a s (publish f ch ev s).2.
Proof.
  intros Hev. unfold publish. destruct (f _); [by apply quiet_refl|]. intros n p ce Hp Hc Ha. simpl in Hp.
  apply lookup_fmap_Some in Hp as (p0 & <- & H0). exists p0. split; [done|]. unfold post in Hc.
  case_bool_decide; [|done]. simpl in Hc. apply elem_of_app in Hc as [|Hc%list_elem_of_singleton]; [done|]. by subst ce.
Qed.

Lemma quiet_assign a (f : Failing) now n b aff pref s : quiet a s (assignAgent f now n b aff pref s).2.
Proof.
  unfold assignAgent. destruct (ListNodes f s); [|by apply quiet_refl]. case_bool_decide; [by apply quiet_refl|].
  destruct (AssignAgent f now b _ s) as [[e|] s1] eqn:E; (assert (syProcs s1 = syProcs s) as Hp
    by (unfold AssignAgent in E; repeat case_match; by simplify_eq)).
  - by apply quiet_refl.
  - eapply quiet_trans; [by apply (quiet_refl a s s1)|]. eapply quiet_trans; [apply quiet_publish|by apply quiet_refl]. by intros [? _].
Qed.

Lemma quiet_move a (f : Failing) now n l s : quiet a s (move_agents f now n l s).
Proof.
  unfold move_agents. revert s. induction l as [|b l IH]; intros s; simpl; [by apply quiet_refl|].
  eapply quiet_trans; [apply quiet_assign|apply IH].
Qed.

Lemma quiet_status a (f : Failing) x st s : quiet a s (SetNodeStatus f x st s).2.
Proof. unfold SetNodeStatus. destruct (f _); by apply quiet_refl. Qed.

Lemma quiet_elect a (f : Failing) n s : quiet a s (tryAcquire f n s).2.
Proof.
  unfold tryAcquire. destruct (syProcs s !! n) as [p|]; [|by apply quiet_refl].
  assert (forall c s0, quiet a s0 (try_lock f n c s0).2) as Htry.
  { intros c s0. unfold try_lock. destruct (_ && _); simpl; [|by apply quiet_upd].
    destruct (lock_free c s0); [|by apply quiet_upd]. eapply quiet_trans; [|by apply quiet_upd]. by apply quiet_refl. }
  destruct (pcConn p) as [c|]; [apply Htry|]. destruct (f "connection"); [by apply quiet_refl|].
  eapply quiet_trans; [|apply Htry]. eapply quiet_trans; [|by apply quiet_upd]. by apply quiet_refl.
Qed.

(** What keeps an agent stranded, step by step *)
Lemma stranded_keep a x s s' :
  stranded a x s -> syAssign s' !! a = syAssign s !! a ->
  (forall nd, syNodes s !! x = Some nd -> niStatus nd = NodeStatusDisconnected ->
    exists nd', syNodes s' !! x = Some nd' /\ niStatus nd' = NodeStatusDisconnected) ->
  quiet a s s' -> stranded a x s'.
Proof.
  intros [Row (nd & Hnd & Hst) Qu] Ha Hn Hq. split; [by rewrite Ha|eauto|].
  intros n p ce Hp Hc Hask. destruct (Hq n p ce Hp Hc Hask) as (q & H0 & Hc'). by destruct (Qu n q ce H0 Hc').
Qed.

Lemma stranded_status (f : Failing) a x y st s :
  (y = x -> st = NodeStatusDisconnected) -> stranded a x s -> stranded a x (SetNodeStatus f y st s).2.
Proof.
  intros Hy W. apply (stranded_keep a x s); [done|by rewrite (proj1 (set_status_assign f y st s))| |apply quiet_status].
  intros nd Hnd Hst. unfold SetNodeStatus. destruct (f _); [by exists nd|]. simpl.
  destruct (decide (y = x)) as [->|]; [rewrite lookup_alter_eq, Hnd; eexists; by rewrite Hy|]. rewrite lookup_alter_ne by done. by exists nd.
Qed.

Lemma stranded_assign (f : Failing) now n a x b aff pref s :
  placed_wf s -> b <> a -> stranded a x s -> stranded a x (assignAgent f now n b aff pref s).2.
Proof.
  intros W Hb Hs. apply (stranded_keep a x s); [done|by apply assign_other| |apply quiet_assign].
  intros nd Hnd Hst. rewrite (mv_nodes _ _ (assign_moved f now n b aff pref s W)). by exists nd.
Qed.

Lemma stranded_move (f : Failing) now n a x l s :
  placed_wf s -> a ∉ map asAgentID l -> stranded a x s -> stranded a x (move_agents f now n l s).
Proof.
  intros W Hl Hs. apply (stranded_keep a x s); [done|by apply move_other| |apply quiet_move].
  intros nd Hnd Hst. rewrite (mv_nodes _ _ (move_moved f now n l s W)). by exists nd.
Qed.

Lemma not_on_other a x y s : placed_wf s -> stranded a x s -> y <> x -> a ∉ map asAgentID (on_node y s).
Proof.
  intros W [(r & Hr & Hx) _ _] Hy (r' & Hid & [Hr' Hy']%(on_node_elem _ _ _ W))%list_elem_of_fmap.
  subst a. simplify_eq.
Qed.

Lemma stranded_bury (f : Failing) now n a x l s :
  placed_wf s -> Forall (fun d => niNodeID d <> x) l -> stranded a x s -> stranded a x (bury f now n l s).
Proof.
  unfold bury. revert s. induction l as [|d l IH]; intros s W Hl Hs; simpl; [done|].
  inversion Hl as [|? ? Hd Hl']; subst. pose proof (set_status_wf f (niNodeID d) NodeStatusDisconnected s W) as W1.
  pose proof (stranded_status f a x (niNodeID d) NodeStatusDisconnected s (fun _ => eq_refl) Hs) as S1.
  set (s1 := (SetNodeStatus f (niNodeID d) NodeStatusDisconnected s).2) in *.
  pose proof (bury_wf f now n [d] s W) as W2. apply IH; [exact W2|done|]. unfold on_dead.
  assert (forall s2, stranded a x s2 -> stranded a x (call_back s2 n (CbDead (niNodeID d)))) as Hcb by (intros s2 [? ? ?]; by split).
  apply Hcb. fold s1. destruct (is_leader n s1); [|done]. unfold reassignOrphans, GetOrphanedAgents. destruct (f _); [done|].
  apply stranded_move; [done| |done]. intros (r & -> & [Hr _]%filter_elem)%list_elem_of_fmap.
  apply (not_on_other _ x (niNodeID d) s1 W1 S1 Hd). by apply list_elem_of_fmap_2.
Qed.

Lemma stranded_tables a x s s' : same_tables s s' -> quiet a s s' -> stranded a x s -> stranded a x s'.
Proof.
  intros (Hn & Ha & _) Hq Hs. apply (stranded_keep a x s); [done|by rewrite Ha| |done]. rewrite Hn. eauto.
Qed.

Lemma stranded_publish (f : Failing) a x ch ev s :
  ~ asks_for a (ch, ev) -> stranded a x s -> stranded a x (publish f ch ev s).2.
Proof. intros He. apply stranded_tables; [apply publish_tables|by apply quiet_publish]. Qed.

Lemma stranded_row a x n g s : n <> x -> stranded a x s -> stranded a x (set_nodes s (alter g n (syNodes s))).
Proof.
  intros Hn Hs. apply (stranded_keep a x s); [done|done| |by apply quiet_refl]. intros nd Hnd Hst. simpl.
  rewrite lookup_alter_ne by done. by exists nd.
Qed.

Lemma stranded_tick timeout (f : Failing) now n a x s :
  placed_wf s -> n <> x -> stranded a x s -> stranded a x (heartbeat_tick timeout f now n s).
Proof.
  intros W Hn Hs. unfold heartbeat_tick.
  assert (stranded a x (on_tick f n s)) as S1.
  { unfold on_tick. destruct (is_leader n s); [done|].
    pose proof (stranded_tables a x _ _ (elect_tables f n s) (quiet_elect a f n s) Hs) as S1.
    destruct (tryAcquire f n s) as [[[|]|] s1]; simpl in S1; [|done|done].
    apply (stranded_tables a x (publish f ChannelCluster (mkClusterEvent EventLeaderChanged n EmptyString)
      (SetNodeStatus f n NodeStatusActive s1).2).2); [done|by apply quiet_refl|].
    apply stranded_publish; [by intros [? _]|]. by apply stranded_status. }
  pose proof (on_tick_placed f n s W) as W1. unfold UpdateHeartbeat. destruct (f "update heartbeat"); [done|].
  pose proof (heartbeat_row_wf now n _ W1) as W2.
  match goal with |- context [GetDeadNodes f now timeout ?s0] => set (s2 := s0) in *;
    assert (stranded a x s2) as S2 by by apply stranded_row end.
  unfold GetDeadNodes. destruct (f "dead nodes"); [done|]. apply stranded_bury; [done| |done].
  apply Forall_forall. intros d [Hin Hdead]%filter_elem Hid. apply list_elem_of_fmap in Hin as ([k nd] & -> & Hin).
  apply elem_of_map_to_list in Hin. pose proof (proj1 (pw_nodes _ W2 _ _ Hin)) as Hk. simpl in *. subst k x.
  destruct (sd_node _ _ _ S2) as (nd' & Hnd' & Hst). assert (Some nd' = Some nd) as [= ->] by (etransitivity; [symmetry; exact Hnd'|exact Hin]).
  unfold dead_row in Hdead. rewrite Hst in Hdead. done.
Qed.

Lemma quiet_end a n s : quiet a s (end_process n s).
Proof.
  unfold end_process. destruct (syProcs s !! n); [|by apply quiet_refl]. intros m q ce. simpl. intros [_ Hq]%lookup_delete_Some Hc _. eauto.
Qed.

Lemma quiet_subscribe a (f : Failing) n ch s : quiet a s (subscribe f n ch s).
Proof. unfold subscribe. destruct (f _); [by apply quiet_refl|by apply quiet_upd]. Qed.

Lemma stranded_start (f : Failing) now n name addr version labels a x s :
  n <> x -> stranded a x s -> stranded a x (cluster_start f now n name addr version labels s).2.
Proof.
  intros Hn Hs. unfold cluster_start. set (s0 := set_procs s _).
  assert (stranded a x s0) as S0.
  { apply (stranded_tables a x s); [done| |done]. intros m p ce. simpl. intros [[<- <-]|[_ Hp]]%lookup_insert_Some Hc _; [by apply elem_of_nil in Hc|eauto]. }
  match goal with |- context [RegisterNode f now ?nd s0] => assert (stranded a x (RegisterNode f now nd s0).2) as S1 end.
  { unfold RegisterNode. destruct (f "register node"); [done|]. apply (stranded_keep a x s0); [done|done| |by apply quiet_refl].
    intros nd Hnd Hst. simpl. rewrite lookup_insert_ne by done. by exists nd. }
  destruct (RegisterNode f now _ s0) as [[e|] s1]; simpl in S1.
  - apply (stranded_tables a x s1); [apply end_tables|apply quiet_end|done].
  - destruct (f "notifier connect"); [apply (stranded_tables a x s1); [apply end_tables|apply quiet_end|done]|].
    apply stranded_publish; [by intros [? _]|]. apply stranded_status; [done|].
    eapply stranded_tables; [apply elect_tables|apply quiet_elect|].
    by do 3 (eapply stranded_tables; [apply subscribe_tables|apply quiet_subscribe|]).
Qed.

Lemma stranded_drain (f : Failing) now n a x y s :
  placed_wf s -> y <> x -> stranded a x s -> stranded a x (drainNode f now n y s).2.
Proof.
  intros W Hy Hs. unfold drainNode. pose proof (set_status_wf f y NodeStatusDraining s W) as W1.
  assert (stranded a x (SetNodeStatus f y NodeStatusDraining s).2) as S1 by by apply stranded_status.
  destruct (SetNodeStatus f y NodeStatusDraining s) as [[e|] s1]; [done|]. simpl in W1, S1.
  unfold GetNodeAgents. destruct (f "node agents"); [done|]. unfold Ok. cbn beta iota.
  match goal with |- context [move_agents f now n ?l0 s1] => set (l := l0) end.
  assert (stranded a x (move_agents f now n l s1)) as S2.
  { apply stranded_move; [done| |done]. subst l. rewrite map_map. simpl. by apply (not_on_other a x y). }
  pose proof (stranded_status f a x y NodeStatusDrained _ (fun E => False_rect _ (Hy E)) S2) as S3.
  by destruct (SetNodeStatus f y NodeStatusDrained (move_agents f now n l s1)) as [[e|] s2].
Qed.

Lemma stranded_dispatch (f : Failing) now n a x s :
  placed_wf s -> stranded a x s -> stranded a x (dispatch f now n s).
Proof.
  intros W Hs. unfold dispatch. destruct (syProcs s !! n) as [p|] eqn:Hp; [|done].
  destruct (pcInbox p) as [|[ch ev] rest] eqn:Hi; [done|].
  match goal with |- context [handleClusterEvent f now n ev ?x0] => set (s1 := x0) end.
  assert (stranded a x s1) as S1.
  { apply (stranded_tables a x s); [done| |done]. intros m q ce Hq Hc _. simpl in Hq.
    apply lookup_alter_Some in Hq as [(-> & p0 & H0 & ->)|[_ Hq]]; [|eauto]. assert (p0 = p) as -> by congruence.
    exists p. split; [done|]. rewrite Hi. by right. }
  assert (forall c, stranded a x (call_back s1 n c)) as Hcb by (intros c; apply (stranded_tables a x s1); [done|by apply quiet_refl|done]).
  case_bool_decide; [|case_bool_decide; [|done]].
  - unfold handleClusterEvent. destruct (evType ev) eqn:Ht; try done. destruct (is_leader n s1); [|done].
    destruct (placement_of f (evAgentID ev) s1) as [aff pref]. apply stranded_assign; [by apply (placed_wf_same s)| |done].
    intros Ha. apply (sd_quiet _ _ _ Hs n p (ch, ev) Hp); [rewrite Hi; by left|by split].
  - unfold handleQueueEvent. by destruct (evType ev).
Qed.

Lemma cluster_step_stranded timeout (f : Failing) now op a x s :
  starts_named op -> leaves_stranded a x op -> placed_wf s -> stranded a x s -> stranded a x (cluster_step timeout f now op s).
Proof.
  intros Hst Hop W Hs. destruct op; simpl in *.
  - case_bool_decide; [by apply stranded_tick|done].
  - case_bool_decide; [done|by apply stranded_start].
  - unfold cluster_stop. eapply stranded_tables; [apply end_tables|apply quiet_end|]. apply stranded_status; [done|].
    eapply stranded_tables; [apply release_tables| |exact Hs]. unfold release. destruct (syProcs s !! n) as [p|]; [|by apply quiet_refl].
    eapply quiet_trans; [|by apply quiet_upd]. destruct (pcConn p); [|by apply quiet_refl]. destruct (_ && _); by apply quiet_refl.
  - eapply stranded_tables; [apply end_tables|apply quiet_end|done].
  - unfold lose_session. destruct (syProcs s !! n) as [p|]; [|done]. destruct (pcConn p); [|done].
    apply (stranded_tables a x s); [done|by apply quiet_refl|done].
  - unfold RequestAssignment. destruct (placement_of f agentID s) as [aff pref]. destruct (is_leader n s); [by apply stranded_assign|].
    apply stranded_publish; [by intros [_ ?]|done].
  - by apply stranded_drain.
  - by apply stranded_dispatch.
  - apply (stranded_keep a x s); [done|done| |by apply quiet_refl]. eauto.
  - apply (stranded_keep a x s); [done| | |by apply quiet_refl]; [simpl; by rewrite lookup_delete_ne|eauto].
Qed.

Lemma cluster_run_stranded timeout ops a x s :
  Forall (fun o => starts_named o.2 /\ leaves_stranded a x o.2) ops -> placed_wf s -> stranded a x s ->
  stranded a x (run_cluster timeout ops s).
Proof.
  unfold run_cluster. revert s. induction ops as [|o ops IH]; intros s Hops W Hs; simpl; [done|].
  inversion Hops as [|? ? [H1 H2] Hops']; subst. apply IH; [done|by apply cluster_step_placed|by apply cluster_step_stranded].
Qed.

(** A heartbeat of a follower only marks nodes. *)
Lemma follower_bury now n l s :
  is_leader n s = false ->
  let s' := bury no_failure now n l s in
  syAssign s' = syAssign s /\ syProcs s' = syProcs s
  /\ forall k nd, syNodes s !! k = Some nd -> (k ∈ map niNodeID l \/ niStatus nd = NodeStatusDisconnected) ->
       exists nd', syNodes s' !! k = Some nd' /\ niStatus nd' = NodeStatusDisconnected.
Proof.
  unfold bury. revert s. induction l as [|d l IH]; intros s Hlead; cbn [fold_left map].
  - split_and!; [done|done|]. intros k nd Hk [?%elem_of_nil|]; [done|]. by exists nd.
  - change (SetNodeStatus no_failure (niNodeID d) NodeStatusDisconnected s).2 with (status_set (niNodeID d) NodeStatusDisconnected s).
    set (s1 := status_set (niNodeID d) NodeStatusDisconnected s).
    assert (on_dead no_failure now n (niNodeID d) s1 = call_back s1 n (CbDead (niNodeID d))) as ->.
    { unfold on_dead. assert (is_leader n s1 = false) as -> by done. done. }
    destruct (IH (call_back s1 n (CbDead (niNodeID d))) Hlead) as (Ha & Hp & Hn). split_and!; [by rewrite Ha|by rewrite Hp|].
    intros k nd Hk Hor. destruct (decide (k = niNodeID d)) as [->|Hne].
    + apply (Hn (niNodeID d) (with_status NodeStatusDisconnected nd)); [simpl; by rewrite lookup_alter_eq, Hk|by right].
    + apply (Hn k nd); [simpl; by rewrite lookup_alter_ne|]. destruct Hor as [Hin|]; [left|by right].
      apply elem_of_cons in Hin as [|]; done.
Qed.

(** A follower does not become the leader while another node is. *)
Lemma follower_waits n m s :
  election_wf s -> is_leader m s = true -> n <> m -> is_leader n (on_tick no_failure n s) = false
    /\ same_tables s (on_tick no_failure n s) /\ (forall a, quiet a s (on_tick no_failure n s)).
Proof.
  intros W Hm Hne. unfold is_leader in Hm. destruct (syProcs s !! m) as [q|] eqn:Hq; [|done].
  destruct (el_leader _ W m q Hq Hm) as (h & Hh & Hlock). pose proof (el_conn _ W m q h Hq Hh) as Hhq.
  pose proof (fun a => quiet_elect a no_failure n s) as Hquiet. pose proof (elect_tables no_failure n s) as Ht.
  assert (is_leader n s = false) as Hn.
  { unfold is_leader. destruct (syProcs s !! n) as [p|] eqn:Hp; [|done]. destruct (pcLeader p) eqn:Hl; [|done].
    destruct (el_leader _ W n p Hp Hl) as (c & Hc & Hcl). destruct Hne. assert (h = c) as -> by congruence.
    by apply (el_own _ W n m p q c Hp Hq); [apply (el_conn _ W n p)|]. }
  unfold on_tick. rewrite Hn.
  assert (exists r s1, tryAcquire no_failure n s = (r, s1) /\ is_leader n s1 = false /\ r <> Ok true) as (r & s1 & E & Hl & Hr).
  { unfold tryAcquire. destruct (syProcs s !! n) as [p|] eqn:Hp; [|by eexists _, _].
    assert (forall c s0, lock_free c s0 = false -> exists r s1, try_lock no_failure n c s0 = (r, s1) /\ is_leader n s1 = false /\ r <> Ok true) as Htry.
    { intros c s0 Hc. unfold try_lock. rewrite Hc. destruct (_ && _); (eexists _, _; split_and!; [done| |done]);
        unfold is_leader; simpl; rewrite lookup_alter_eq; by destruct (syProcs s0 !! n). }
    destruct (pcConn p) as [c|] eqn:Hc.
    - apply Htry. unfold lock_free. rewrite Hlock. apply bool_decide_eq_false. intros ->. destruct Hne.
      by apply (el_own _ W n m p q c Hp Hq); [apply (el_conn _ W n p)|].
    - simpl. apply Htry. unfold lock_free. simpl. rewrite Hlock. apply bool_decide_eq_false. intros ->.
      pose proof (el_next _ W m q _ Hq Hhq). lia. }
  rewrite E in *. simpl in *. destruct r as [[|]|]; [done| |]; by split_and!.
Qed.

(** C28: when the heartbeat of another node than the leader is the first to find a node dead, the
    agents of that node stay assigned to it for good: no heartbeat, no message, no start of other
    nodes moves them, until the node itself comes back, it is drained, or somebody asks for the agent. *)
Theorem orphans_of_follower_stranded timeout now n m s a r nd ops :
  placed_wf s -> election_wf s -> is_leader m s = true -> n <> m ->
  (forall k p ce, syProcs s !! k = Some p -> ce ∈ pcInbox p -> ~ asks_for a ce) ->
  syAssign s !! a = Some r -> asNodeID r <> n ->
  syNodes s !! asNodeID r = Some nd -> dead_row now timeout nd = true ->
  Forall (fun o => starts_named o.2 /\ leaves_stranded a (asNodeID r) o.2) ops ->
  exists r' nd', let s' := run_cluster timeout ops (heartbeat_tick timeout no_failure now n s) in
    syAssign s' !! a = Some r' /\ asNodeID r' = asNodeID r
    /\ syNodes s' !! asNodeID r = Some nd' /\ niStatus nd' = NodeStatusDisconnected.
Proof.
  intros W We Hm Hne Hquiet Ha Hrn Hnd Hdead Hops.
  assert (stranded a (asNodeID r) (heartbeat_tick timeout no_failure now n s)) as Hs.
  { destruct (follower_waits n m s We Hm Hne) as (Hlead & (Hn1 & Ha1 & _) & Hq1). unfold heartbeat_tick. simpl.
    set (s1 := on_tick no_failure n s) in *. unfold GetDeadNodes. simpl.
    match goal with |- context [bury _ _ _ ?l0 ?x0] => set (l := l0); set (s2 := x0) end.
    destruct (follower_bury now n l s2 Hlead) as (Ha2 & Hp2 & Hn2).
    assert (syNodes s2 !! asNodeID r = Some nd) as Hnd2 by (simpl; by rewrite lookup_alter_ne, Hn1).
    split.
    - exists r. split; [|done]. rewrite Ha2. simpl. by rewrite Ha1.
    - apply (Hn2 _ nd Hnd2). left. rewrite <- (proj1 (pw_nodes _ W _ _ Hnd)) at 1. apply list_elem_of_fmap_2, filter_elem.
      split; [|done]. apply list_elem_of_fmap. exists (asNodeID r, nd). split; [done|]. by apply elem_of_map_to_list.
    - intros k p ce. rewrite Hp2. intros Hp Hc Hask. destruct (Hq1 a k p ce Hp Hc Hask) as (p0 & H0 & Hc0).
      by apply (Hquiet k p0 ce). }
  destruct (cluster_run_stranded timeout ops a (asNodeID r) _ Hops (tick_placed timeout no_failure now n s W) Hs)
    as [(r' & Hr' & Hx) (nd' & Hnd' & Hst) _]. by exists r', nd'.
Qed.

(** * The starts of agents ([StartAgent], [Lifecycle]) *)

(** The manager of a node, as a start consults it *)
Definition cluster_view (f : Failing) (now : Z) (n : string) (s : Sys) : Cluster :=
  mkCluster (fun a => IsLocalAgent f n a s) (fun a => GetAssignment f a s)
    (fun a => (RequestAssignment f now n a s).1) n.

(** a start of an assigned agent goes on on its node and on no other. *)
Theorem assigned_agent_starts_there deps now n s a r :
  dCluster deps = Some (cluster_view no_failure now n s) -> syAssign s !! a = Some r -> asNodeID r <> EmptyString ->
  cluster_gate deps a = (if decide (asNodeID r = n) then None else Some None).
Proof.
  intros Hd Ha Hne. unfold cluster_gate. rewrite Hd. unfold cluster_view. cbn [clIsLocal clAssignment clNodeID].
  unfold IsLocalAgent, GetAssignment, store_assignment. simpl. rewrite Ha. simpl.
  rewrite (bool_decide_eq_false_2 _ Hne). simpl. destruct (decide (asNodeID r = n)) as [->|Hrn].
  - by rewrite bool_decide_eq_true_2.
  - by rewrite bool_decide_eq_false_2.
Qed.

Lemma cluster_run_placed timeout ops s :
  Forall (fun o => starts_named o.2) ops -> placed_wf s -> placed_wf (run_cluster timeout ops s).
Proof.
  unfold run_cluster. revert s. induction ops as [|o ops IH]; intros s Hops W; simpl; [done|].
  inversion Hops; subst. apply IH; [done|by apply cluster_step_placed].
Qed.

(** * A cluster of three nodes

    The first leads, the second has a GPU; heartbeats that are older than 30 are missing. *)

Definition empty_cluster : Sys := mkSys ∅ ∅ ∅ None ∅ 0 ∅ [].

Definition gpu : Labels := {["gpu" := "yes"]}.

Definition at_time (t : Z) (op : ClusterOp) : Failing * Z * ClusterOp := (no_failure, t, op).

Definition demo_history : list (Failing * Z * ClusterOp) :=
  [at_time 0 (OpStart "n-1" EmptyString "10.0.0.1" "1.0" ∅);
   at_time 1 (OpStart "n-2" EmptyString "10.0.0.2" "1.0" gpu);
   at_time 2 (OpStart "n-3" EmptyString "10.0.0.3" "1.0" ∅);
   at_time 3 (OpSetAgent "alice" (mkPlacedAgent "running" ∅ ∅));
   at_time 3 (OpSetAgent "bob" (mkPlacedAgent "running" gpu ∅));
   at_time 4 (OpRequest "n-1" "alice");
   at_time 4 (OpRequest "n-1" "bob")].

Definition demo_cluster : Sys := run_cluster 30 demo_history empty_cluster.

Definition node_of (a : string) (s : Sys) : option string := asNodeID <$> syAssign s !! a.
Definition status_of (n : string) (s : Sys) : option string := niStatus <$> syNodes s !! n.

Example demo_placement : node_of "alice" demo_cluster = Some "n-1" /\ node_of "bob" demo_cluster = Some "n-2".
Proof. split; vm_compute; reflexivity. Qed.

Lemma empty_cluster_wf : placed_wf empty_cluster /\ election_wf empty_cluster.
Proof.
  split; split; cbn [empty_cluster syNodes syAssign syProcs]; intros *; try (intros Hl; by rewrite lookup_empty in Hl).
Qed.

Lemma demo_cluster_wf : placed_wf demo_cluster /\ election_wf demo_cluster.
Proof.
  split; [apply cluster_run_placed|apply cluster_run_wf]; try apply empty_cluster_wf; by repeat constructor.
Qed.

(** The leader loses the session of its lock: the next heartbeat of another node makes that one a
    leader too, and nothing tells the first. *)
Example two_leaders :
  let s := run_cluster 30 [at_time 5 (OpLose "n-1"); at_time 6 (OpTick "n-2"); at_time 7 (OpTick "n-1")] demo_cluster in
  is_leader "n-1" s = true /\ is_leader "n-2" s = true /\ syLock s <> None.
Proof. vm_compute. done. Qed.

(** Draining forgets what the agent needs: it goes to a node without a GPU.  A drained node that is
    the only active one keeps its agents. *)
Example drain_ignores_affinity :
  let s := (drainNode no_failure 9 "n-1" "n-2" demo_cluster).2 in
  node_of "bob" s = Some "n-1" /\ status_of "n-2" s = Some NodeStatusDrained.
Proof. split; vm_compute; reflexivity. Qed.

Example last_node_drained_full :
  let s := run_cluster 30 [at_time 5 (OpDrain "n-1" "n-3"); at_time 5 (OpDrain "n-1" "n-2"); at_time 5 (OpDrain "n-1" "n-1")] demo_cluster in
  status_of "n-1" s = Some NodeStatusDrained /\ node_of "alice" s = Some "n-1" /\ node_of "bob" s = Some "n-1".
Proof. split_and!; vm_compute; reflexivity. Qed.

(** A node whose heartbeat was late is disconnected for good: its heartbeats do not bring it back,
    though it goes on running its agents, which another node starts as well. *)
Example late_node_stays_disconnected :
  let s := run_cluster 30 [at_time 40 (OpTick "n-1"); at_time 41 (OpTick "n-2"); at_time 42 (OpTick "n-2")] demo_cluster in
  status_of "n-2" s = Some NodeStatusDisconnected /\ node_of "bob" s = Some "n-1"
  /\ ("n-1", CbAssigned "bob" "n-1") ∈ syTrace s.
Proof. split_and!; [vm_compute; reflexivity..|]. apply (bool_decide_eq_true_1 _). vm_compute. reflexivity. Qed.

(** ** Witnesses *)

Lemma pick_oldest_witness :
  pickNode (nodes_in_order demo_cluster) ∅ gpu = "n-2".
Proof.
  rewrite pick_oldest.
  - vm_compute. reflexivity.
  - apply Forall_forall. intros n [k Hk]%nodes_in_order_elem. apply (pw_capacity _ (proj1 demo_cluster_wf) k n Hk).
Defined.

Lemma one_leader_witness :
  let s := run_cluster 30 [at_time 5 (OpTick "n-2"); at_time 6 (OpTick "n-3")] demo_cluster in
  is_leader "n-1" s = true /\ "n-1" = "n-1".
Proof.
  intros s. assert (is_leader "n-1" s = true) as Hl by (vm_compute; reflexivity). split; [exact Hl|].
  apply (one_leader 30 [at_time 5 (OpTick "n-2"); at_time 6 (OpTick "n-3")] demo_cluster "n-1" "n-1");
    [apply demo_cluster_wf|by repeat constructor|exact Hl|exact Hl].
Defined.

Lemma drain_moves_agents_witness :
  (drainNode no_failure 9 "n-1" "n-2" demo_cluster).1 = None
  /\ (forall a r, syAssign (drainNode no_failure 9 "n-1" "n-2" demo_cluster).2 !! a = Some r -> asNodeID r <> "n-2")
  /\ forall a r, syAssign demo_cluster !! a = Some r ->
       (asNodeID r <> "n-2" -> syAssign (drainNode no_failure 9 "n-1" "n-2" demo_cluster).2 !! a = Some r)
       /\ is_Some (syAssign (drainNode no_failure 9 "n-1" "n-2" demo_cluster).2 !! a).
Proof.
  apply (drain_moves_agents 9 "n-1" "n-2" "n-1"); [apply demo_cluster_wf|done|]. eexists. split; vm_compute; reflexivity.
Defined.

Lemma leader_tick_recovers_witness :
  let s' := heartbeat_tick 30 no_failure 40 "n-1" demo_cluster in
  (forall a, is_Some (syAssign demo_cluster !! a) -> is_Some (syAssign s' !! a))
  /\ forall x nd, syNodes demo_cluster !! x = Some nd -> dead_row 40 30 nd = true -> x <> "n-1" ->
       forall a r, syAssign s' !! a = Some r -> wants_to_run s' r = true -> asNodeID r <> x.
Proof.
  apply (leader_tick_recovers 30 40 "n-1" demo_cluster); [done|apply demo_cluster_wf|vm_compute; reflexivity|].
  eexists. split; vm_compute; reflexivity.
Defined.

(** The node with the GPU dies; the heartbeat of the third node notices first. *)
Lemma orphans_of_follower_stranded_witness :
  let ops := [at_time 41 (OpTick "n-1"); at_time 42 (OpTick "n-3"); at_time 43 (OpDispatch "n-1"); at_time 80 (OpTick "n-1")] in
  let s0 := run_cluster 30 [at_time 10 (OpCrash "n-2"); at_time 30 (OpTick "n-1")] demo_cluster in
  exists r' nd', let s' := run_cluster 30 ops (heartbeat_tick 30 no_failure 40 "n-3" s0) in
    syAssign s' !! "bob" = Some r' /\ asNodeID r' = "n-2" /\ syNodes s' !! "n-2" = Some nd' /\ niStatus nd' = NodeStatusDisconnected.
Proof.
  intros ops s0.
  assert (placed_wf s0 /\ election_wf s0) as [W We].
  { split; [apply cluster_run_placed|apply cluster_run_wf]; try apply demo_cluster_wf; by repeat constructor. }
  apply (orphans_of_follower_stranded 30 40 "n-3" "n-1" s0 "bob" (mkAssignment "bob" "n-2" 4 ∅ ∅)
    (mkNodeInfo "n-2" "n-2" "10.0.0.2" NodeStatusActive 1 collectCapacity gpu "1.0" 1) ops W We).
  - vm_compute. reflexivity.
  - discriminate.
  - assert (map_Forall (fun _ p => Forall (fun ce : string * ClusterEvent => evType ce.2 <> EventAgentNeedsAssignment) (pcInbox p)) (syProcs s0)) as Hall.
    { apply map_Forall_to_list. vm_compute. repeat constructor; discriminate. }
    intros k p ce Hp Hc [Ht _]. by apply (proj1 (Forall_forall _ _) (Hall k p Hp) ce Hc).
  - vm_compute. reflexivity.
  - discriminate.
  - vm_compute. reflexivity.
  - vm_compute. reflexivity.
  - repeat constructor; discriminate.
Defined.
