(* ===== verification/ApiAccess.v ===== *)
(** Keys of the REST API ([internal/apikeys]), the middleware in front of its handlers
    ([web/api/middleware.go], [api.go]) with the limit of requests, the handlers that manage keys
    and list agents ([keys.go], [agents.go]), and the interface a managing installation
    synchronises users with ([managed.go]).

    [api_agent_request_iff] says which requests reach a handler of an agent; [api_requests_bounded]
    that a key is served at most twice its limit in any minute; [created_key_validates] and
    [revoked_key_refused] what becomes of keys; [upsert_sets_roles] that a synchronised user has
    the roles of the request, and no others. *)

From S2P Require Import Prelude GoString Queue Access AccessRuns.
#[local] Open Scope Z_scope.

(** * Keys *)

Record APIKey := mkAPIKey {
  akID : string;
  akName : string;
  akKeyHash : string;
  akKeyPrefix : string;
  akScope : string;
  akAgentIDs : list string;
  akIsActive : bool;
  akExpiresAt : option Z;
  akCreatedAt : Z;
  akLastUsedAt : option Z;
}.

(** The table [api_keys]; there is no order among rows with the same prefix. *)
Notation KeyTable := (gmap string APIKey).

Inductive KeyError : Type :=
| ErrAPIKeyInvalid
| ErrAPIKeyInactive
| ErrAPIKeyNotFound
| ErrKey (text : string).

Definition key_row (k : APIKey) : APIKey :=
  mkAPIKey (akID k) (akName k) (akKeyHash k) (akKeyPrefix k) (akScope k) (akAgentIDs k) (akIsActive k)
    (db_time <$> akExpiresAt k) (db_time (akCreatedAt k)) (db_time <$> akLastUsedAt k).

Definition CreateAPIKey (f : Failures) (k : APIKey) (t : KeyTable) : result KeyError KeyTable :=
  match f "create api key" with
  | Some e => Err (ErrKey e)
  | None => if bool_decide (is_Some (t !! akID k)) then Err (ErrKey "pq: constraint violation")
            else Ok (<[akID k := key_row k]> t)
  end.

Definition keys_list (t : KeyTable) : list APIKey := map snd (map_to_list t).

Definition GetAPIKeyByPrefix (f : Failures) (prefix : string) (t : KeyTable) : result KeyError APIKey :=
  match f "scan api key" with
  | Some e => Err (ErrKey e)
  | None => match List.find (fun k => bool_decide (akKeyPrefix k = prefix)) (keys_list t) with
            | Some k => Ok k
            | None => Err ErrAPIKeyNotFound
            end
  end.

Definition DeleteAPIKey (f : Failures) (id : string) (t : KeyTable) : result KeyError KeyTable :=
  match f "delete api key" with
  | Some e => Err (ErrKey e)
  | None => if bool_decide (is_Some (t !! id)) then Ok (delete id t) else Err ErrAPIKeyNotFound
  end.

Definition UpdateAPIKeyLastUsed (f : Failures) (id : string) (at_ : Z) (t : KeyTable) : KeyTable :=
  match f "update api key last_used_at" with
  | Some _ => t
  | None => alter (fun k => mkAPIKey (akID k) (akName k) (akKeyHash k) (akKeyPrefix k) (akScope k) (akAgentIDs k)
                              (akIsActive k) (akExpiresAt k) (akCreatedAt k) (Some (db_time at_))) id t
  end.

Definition keyPrefixLen : nat := 11.

(** * The service *)
Section keys.
Context `{Bcrypt}.

(** [Create]; [raw] is the hexadecimal text of the random bytes, [salt] and [id] are fresh. *)
Definition CreateKey (f : Failures) (name scope : string) (agentIDs : list string) (expiresAt : option Z)
    (raw id : string) (salt now : Z) (t : KeyTable) : result KeyError (APIKey * string * KeyTable) :=
  if bool_decide (name = EmptyString) then Err (ErrKey "name is required")
  else if negb (IsDefaultRole scope) then Err (ErrKey "invalid scope")
  else
    let plainKey := "kv_" +:+ raw in
    match bcrypt_hash salt plainKey with
    | None => Err (ErrKey "hash key")
    | Some hash =>
      let key := mkAPIKey id name hash (str_take keyPrefixLen plainKey) scope agentIDs true expiresAt now None in
      match CreateAPIKey f key t with
      | inr e => Err e
      | inl t' => Ok (key, plainKey, t')
      end
    end.

(** [Validate]; the use of the key is noted afterwards, by [UpdateAPIKeyLastUsed]. *)
Definition ValidateKey (f : Failures) (plainKey : string) (now : Z) (t : KeyTable) : result KeyError APIKey :=
  if (String.length plainKey <? keyPrefixLen)%nat then Err ErrAPIKeyInvalid
  else match GetAPIKeyByPrefix f (str_take keyPrefixLen plainKey) t with
  | inr _ => Err ErrAPIKeyInvalid
  | inl key =>
    if negb (bcrypt_compare (akKeyHash key) plainKey) then Err ErrAPIKeyInvalid
    else if negb (akIsActive key) then Err ErrAPIKeyInactive
    else match akExpiresAt key with
         | Some e => if negb (now <? e) then Err ErrAPIKeyInactive else Ok key
         | None => Ok key
         end
  end.

Definition CanAccessAgent (key : APIKey) (agentID : string) : bool :=
  bool_decide (akAgentIDs key = []) || existsb (fun id => bool_decide (id = agentID)) (akAgentIDs key).

(** * The limit of requests *)

Record RateLimits := mkRateLimits {
  rlViewer : Z;
  rlOperator : Z;
  rlManager : Z;
  rlAdmin : Z;
}.

Definition DefaultRateLimits : RateLimits := mkRateLimits 60 120 120 300.

Record RateBucket := mkRateBucket {
  rbCount : Z;
  rbResetAt : Z;
}.

Notation Buckets := (gmap string RateBucket).

Definition limitForScope (l : RateLimits) (scope : string) : Z :=
  if bool_decide (scope = RoleAdmin) then rlAdmin l
  else if bool_decide (scope = RoleManager) then rlManager l
  else if bool_decide (scope = RoleOperator) then rlOperator l
  else rlViewer l.

(** [Allow]; [later] is the second reading of the clock, for the seconds to wait. *)
Definition Allow (l : RateLimits) (keyID scope : string) (now later : Z) (bs : Buckets) : bool * Z * Buckets :=
  let fresh := (true, 0, <[keyID := mkRateBucket 1 (now + minute)]> bs) in
  match bs !! keyID with
  | None => fresh
  | Some b =>
    if rbResetAt b <? now then fresh
    else
      let b := mkRateBucket (rbCount b + 1) (rbResetAt b) in
      let bs := <[keyID := b]> bs in
      if limitForScope l scope <? rbCount b then (false, Z.quot (rbResetAt b - later) second + 1, bs)
      else (true, 0, bs)
  end.

(** [cleanup], at a tick *)
Definition cleanup_buckets (now : Z) (bs : Buckets) : Buckets := filter (fun kb => now <= rbResetAt kb.2) bs.

(** * The middleware *)

Record ApiState := mkApiState {
  apKeys : KeyTable;
  apBuckets : Buckets;
}.

Inductive ApiAnswer : Type :=
| ApiError (status : Z) (code message : string)
| ApiPass (key : APIKey).

(** [RequireAPIKey] *)
Definition RequireAPIKey (f : Failures) (header : string) (now : Z) (t : KeyTable) : ApiAnswer :=
  if bool_decide (header = EmptyString) then ApiError 401 "missing_key" "Authorization header is required"
  else match strip_prefix "Bearer " header with
  | None | Some EmptyString => ApiError 401 "invalid_header" "Authorization header must use Bearer scheme"
  | Some token => match ValidateKey f token now t with
                  | inr _ => ApiError 401 "invalid_key" "Invalid or expired API key"
                  | inl key => ApiPass key
                  end
  end.

(** [RequireScope] and [RequireAgentScope]; [agentID] is the [id] of the path. *)
Definition RequireScope (permission : string) (key : APIKey) : ApiAnswer :=
  if Can (akScope key) permission then ApiPass key
  else ApiError 403 "forbidden" "scope does not have permission".

Definition RequireAgentScope (permission agentID : string) (key : APIKey) : ApiAnswer :=
  if negb (Can (akScope key) permission) then ApiError 403 "forbidden" "scope does not have permission"
  else if negb (bool_decide (agentID = EmptyString)) && negb (CanAccessAgent key agentID)
  then ApiError 403 "agent_scope" "API key does not have access to agent"
  else ApiPass key.

(** The routes of [Routes]: the key, its use, the limit, then the check of the route. *)
Definition api_route (limits : RateLimits) (check : APIKey -> ApiAnswer) (f : Failures) (header : string) (now later : Z)
    (s : ApiState) : ApiAnswer * ApiState :=
  match RequireAPIKey f header now (apKeys s) with
  | ApiPass key =>
    let t := UpdateAPIKeyLastUsed f (akID key) later (apKeys s) in
    match Allow limits (akID key) (akScope key) now later (apBuckets s) with
    | (false, _, bs) => (ApiError 429 "rate_limit" "Rate limit exceeded", mkApiState t bs)
    | (true, _, bs) => (check key, mkApiState t bs)
    end
  | a => (a, s)
  end.

(** * Handlers *)

Record CreateKeyRequest := mkCreateKeyRequest {
  ckName : string;
  ckScope : string;
  ckAgentIDs : list string;
  ckExpiresAt : option string;
}.

(** [HandleCreateKey], for a body that was decoded; [parse_time] reads RFC 3339. *)
Definition HandleCreateKey (parse_time : string -> option Z) (f : Failures) (req : CreateKeyRequest) (raw id : string)
    (salt now : Z) (t : KeyTable) : Z * option string * KeyTable :=
  let scope := or_default (ckScope req) RoleViewer in
  let create expiresAt :=
    match CreateKey f (ckName req) scope (ckAgentIDs req) expiresAt raw id salt now t with
    | inr _ => (400, None, t)
    | inl (_, plainKey, t') => (201, Some plainKey, t')
    end in
  match ckExpiresAt req with
  | None => create None
  | Some text => match parse_time text with None => (400, None, t) | Some e => create (Some e) end
  end.

(** [HandleDeleteKey] *)
Definition HandleDeleteKey (f : Failures) (id : string) (t : KeyTable) : Z * KeyTable :=
  if bool_decide (id = EmptyString) then (400, t)
  else match DeleteAPIKey f id t with inr _ => (404, t) | inl t' => (204, t') end.

(** [HandleListAgents]: the page of the agents the key may see, and whether there are more *)
Definition HandleListAgents (key : APIKey) (agents : list string) (limit offset : nat) : list string * bool :=
  let agents := if bool_decide (akAgentIDs key = []) then agents else List.filter (CanAccessAgent key) agents in
  let start := if (length agents <? offset)%nat then length agents else offset in
  let stop := if (length agents <? start + limit)%nat then length agents else (start + limit)%nat in
  (take (stop - start) (drop start agents), (stop <? length agents)%nat).
End keys.

(** * The managing installation ([managed.go]) *)

Record UpsertUserRequest := mkUpsertUserRequest {
  upUsername : string;
  upDisplayName : string;
  upIsAdmin : bool;
  upIsActive : bool;
  upRoles : list (string * string);
}.

(** [RequireSharedSecret]: whether the request passes *)
Definition RequireSharedSecret (secret header : string) : bool :=
  negb (bool_decide (header = EmptyString))
  && match strip_prefix "Bearer " header with Some token => bool_decide (token = secret) | None => false end.

Fixpoint clear_roles (f : Failures) (userID : string) (l : list (string * string)) (d : AccessDB) : bool * AccessDB :=
  match l with
  | [] => (true, d)
  | (g, _) :: l' => match DeleteUserGroupRole f userID g d with inr _ => (false, d) | inl d' => clear_roles f userID l' d' end
  end.

Fixpoint give_roles (f : Failures) (userID : string) (l : list (string * string)) (d : AccessDB) : bool * AccessDB :=
  match l with
  | [] => (true, d)
  | (g, role) :: l' =>
    if negb (IsDefaultRole role) then give_roles f userID l' d
    else match SetUserGroupRole f userID g role d with inr _ => (false, d) | inl d' => give_roles f userID l' d' end
  end.

Definition syncRoles (f : Failures) (userID : string) (roles : list (string * string)) (d : AccessDB) : bool * AccessDB :=
  match ListUserGroupRoles f userID d with
  | inr _ => (false, d)
  | inl existing =>
    match clear_roles f userID existing d with
    | (false, d) => (false, d)
    | (true, d) => give_roles f userID roles d
    end
  end.

Definition role_refused (gr : string * string) : bool :=
  bool_decide (trim_space gr.1 = EmptyString) || negb (IsDefaultRole gr.2).

(** [HandleUpsertUser], for a body that was decoded: the status and the tables *)
Definition HandleUpsertUser (f : Failures) (userID : string) (req : UpsertUserRequest) (now : Z) (d : AccessDB) : Z * AccessDB :=
  if bool_decide (userID = EmptyString) then (400, d)
  else if bool_decide (trim_space (upUsername req) = EmptyString) then (400, d)
  else if existsb role_refused (upRoles req) then (400, d)
  else
    let sync r :=
      match r with
      | inr _ => (500, d)
      | inl d1 => match syncRoles f userID (upRoles req) d1 with (true, d2) => (200, d2) | (false, d2) => (500, d2) end
      end in
    match GetUser f userID d with
    | inl u =>
      let name := if bool_decide (trim_space (upDisplayName req) = EmptyString) then uDisplayName u else upDisplayName req in
      sync (UpdateUser f (mkUser (uID u) (upUsername req) (uPasswordHash u) name (upIsAdmin req) (upIsActive req)
              (uCreatedAt u) (uLastLoginAt u) (uForcePasswordChange u)) d)
    | inr e =>
      if error_is e ErrUserNotFound then
        let name := or_default (trim_space (upDisplayName req)) (upUsername req) in
        sync (insert_user f (mkUser userID (upUsername req) EmptyString name (upIsAdmin req) (upIsActive req) now None false) d)
      else (500, d)
    end.

Definition HandleRevokeSessions (f : Failures) (userID : string) (d : AccessDB) : Z * AccessDB :=
  if bool_decide (userID = EmptyString) then (400, d)
  else match DeleteSessionsByUserID f userID d with inr _ => (500, d) | inl d' => (200, d') end.

(** ** Roles after a synchronisation *)

(** The role of a group in the list: the last one counts. *)
Definition last_role (l : list (string * string)) (g : string) : option string :=
  fold_left (fun acc gr => if bool_decide (gr.1 = g) then Some gr.2 else acc) l None.

Lemma last_role_from l g acc :
  fold_left (fun acc gr => if bool_decide (gr.1 = g) then Some gr.2 else acc) l acc
  = match last_role l g with Some r => Some r | None => acc end.
Proof.
  unfold last_role. revert acc. induction l as [|[h r] l IH]; intros acc; simpl; [done|].
  rewrite IH. rewrite (IH (if bool_decide (h = g) then Some r else None)). case_match; [done|]. by case_bool_decide.
Qed.

Lemma clear_roles_ok (f : Failures) u l d d' :
  clear_roles f u l d = (true, d') ->
  dbUsers d' = dbUsers d /\ forall v g, dbRoles d' !! (v, g) = if bool_decide (v = u /\ g ∈ map fst l) then None else dbRoles d !! (v, g).
Proof.
  revert d. induction l as [|[g0 r0] l IH]; intros d; simpl.
  - intros [= <-]. split; [done|]. intros v g. rewrite bool_decide_eq_false_2; [done|]. by intros [_ ?%elem_of_nil].
  - destruct (DeleteUserGroupRole f u g0 d) as [d1|] eqn:E; [|done]. intros H%IH. destruct H as [Hu Hr].
    apply stmt_ok in E as [_ E]. destruct (dbRoles d !! (u, g0)); [|done]. injection E as <-. split; [done|].
    intros v g. rewrite Hr. simpl. destruct (decide ((u, g0) = (v, g))) as [[= <- <-]|Hne].
    + rewrite lookup_delete_eq. rewrite (bool_decide_eq_true_2 (u = u /\ g0 ∈ g0 :: map fst l)) by set_solver. by case_bool_decide.
    + rewrite lookup_delete_ne by done. case_bool_decide as H1; case_bool_decide as H2; try done.
      * destruct H2. set_solver.
      * destruct H2 as [-> [->|H2]%elem_of_cons]; [done|]. by destruct H1.
Qed.

Lemma give_roles_ok (f : Failures) u l d d' :
  Forall (fun gr => IsDefaultRole gr.2 = true) l -> give_roles f u l d = (true, d') ->
  dbUsers d' = dbUsers d
  /\ forall v g, dbRoles d' !! (v, g) = if bool_decide (v = u) then match last_role l g with Some r => Some r | None => dbRoles d !! (v, g) end
                                      else dbRoles d !! (v, g).
Proof.
  revert d. induction l as [|[g0 r0] l IH]; intros d Hl; simpl.
  - intros [= <-]. split; [done|]. intros v g. by case_bool_decide.
  - inversion Hl as [|? ? Hr0 Hl']; subst. simpl in Hr0. rewrite Hr0. simpl.
    destruct (SetUserGroupRole f u g0 r0 d) as [d1|] eqn:E; [|done]. intros [Hu Hr]%IH; [|done].
    apply stmt_ok in E as [_ E]. destruct (_ && _); [|done]. injection E as <-. split; [done|].
    intros v g. rewrite Hr. simpl. unfold last_role at 2. simpl. rewrite last_role_from.
    case_bool_decide as Hv; [subst v; destruct (last_role l g); [done|]|rewrite lookup_insert_ne; [done|congruence]].
    case_bool_decide as Hg; [subst g; by rewrite lookup_insert_eq|rewrite lookup_insert_ne; [done|congruence]].
Qed.

(** a user that was synchronised is as the request says, with exactly its roles (the last one of
    a group), and the roles of nobody else change. *)
Theorem upsert_sets_roles (f : Failures) userID req now d d' :
  access_wf d -> HandleUpsertUser f userID req now d = (200, d') ->
  (exists u, dbUsers d' !! userID = Some u /\ uUsername u = upUsername req /\ uIsAdmin u = upIsAdmin req
     /\ uIsActive u = upIsActive req)
  /\ (forall g, dbRoles d' !! (userID, g) = last_role (upRoles req) g)
  /\ forall v g, v <> userID -> dbRoles d' !! (v, g) = dbRoles d !! (v, g).
Proof.
  intros W. unfold HandleUpsertUser. do 2 (case_bool_decide; [done|]). destruct (existsb role_refused (upRoles req)) eqn:R; [done|].
  assert (Forall (fun gr => IsDefaultRole gr.2 = true) (upRoles req)) as Hroles.
  { apply Forall_forall. intros gr Hin. pose proof (proj1 (existsb_elem_false _ _) R gr Hin) as Hr. unfold role_refused in Hr.
    apply orb_false_iff in Hr as [_ Hr]. by apply negb_false_iff. }
  assert (forall d1, syncRoles f userID (upRoles req) d1 = (true, d') ->
    dbUsers d' = dbUsers d1 /\ (forall g, dbRoles d' !! (userID, g) = last_role (upRoles req) g)
    /\ forall v g, v <> userID -> dbRoles d' !! (v, g) = dbRoles d1 !! (v, g)) as Hsync.
  { intros d1. unfold syncRoles. destruct (ListUserGroupRoles f userID d1) as [l|] eqn:L; [|done].
    destruct (clear_roles f userID l d1) as [[|] d2] eqn:C; [|done]. intros G.
    destruct (clear_roles_ok _ _ _ _ _ C) as [Hu1 Hr1]. destruct (give_roles_ok _ _ _ _ _ Hroles G) as [Hu2 Hr2].
    split; [congruence|]. split.
    - intros g. rewrite Hr2, bool_decide_eq_true_2 by done. destruct (last_role _ _); [done|]. rewrite Hr1.
      destruct (dbRoles d1 !! (userID, g)) as [r|] eqn:E; [|by case_bool_decide]. rewrite bool_decide_eq_true_2; [done|].
      split; [done|]. apply list_elem_of_fmap. exists (g, r). split; [done|]. by apply (user_roles_elem _ _ _ _ _ _ L).
    - intros v g Hv. rewrite Hr2, bool_decide_eq_false_2 by done. rewrite Hr1, bool_decide_eq_false_2; [done|]. by intros [? _]. }
  destruct (GetUser f userID d) as [u|e] eqn:G.
  - apply get_user_ok in G. match goal with |- context [UpdateUser f ?x d] => set (u' := x) end.
    destruct (UpdateUser f u' d) as [d1|] eqn:E; [|done]. destruct (syncRoles f userID (upRoles req) d1) as [[|] d2] eqn:S; [|done].
    intros [= ->]. destruct (Hsync d1 S) as (Hu & Hr & Ho). apply update_user_cases in E as (old & Hold & -> & _).
    split_and!; [|done|done]. rewrite Hu. simpl. rewrite (wf_users _ W _ _ G), lookup_insert_eq. by eexists.
  - destruct (error_is e ErrUserNotFound); [|done]. match goal with |- context [insert_user f ?x d] => set (u' := x) end.
    destruct (insert_user f u' d) as [d1|] eqn:E; [|done]. destruct (syncRoles f userID (upRoles req) d1) as [[|] d2] eqn:S; [|done].
    intros [= ->]. destruct (Hsync d1 S) as (Hu & Hr & Ho). apply stmt_ok in E as [_ E]. destruct (_ || _); [done|]. injection E as <-.
    split_and!; [|done|done]. rewrite Hu. simpl. rewrite lookup_insert_eq. by eexists.
Qed.

(** * Requests in a minute *)

Inductive LimitEvent : Type :=
| EvAllow (keyID scope : string) (now later : Z)
| EvCleanup (now : Z).

Definition event_time (e : LimitEvent) : Z := match e with EvAllow _ _ now _ => now | EvCleanup now => now end.

(** The clock does not go back. *)
Fixpoint in_order (t : Z) (evs : list LimitEvent) : Prop :=
  match evs with [] => True | e :: evs' => t <= event_time e /\ in_order (event_time e) evs' end.

(** How many requests of the key are served between two times *)
Fixpoint served (l : RateLimits) (k : string) (lo hi : Z) (evs : list LimitEvent) (bs : gmap string RateBucket) : Z :=
  match evs with
  | [] => 0
  | EvAllow key scope now later :: evs' =>
    let '(ok, _, bs') := Allow l key scope now later bs in
    (if ok && bool_decide (key = k) && (lo <=? now) && (now <=? hi) then 1 else 0) + served l k lo hi evs' bs'
  | EvCleanup now :: evs' => served l k lo hi evs' (cleanup_buckets now bs)
  end.

Section rate.
Context (l : RateLimits) (k : string) (lim lo hi : Z).

(** The key always comes with the same scope. *)
Definition limited (e : LimitEvent) : Prop :=
  match e with EvAllow key scope _ _ => key = k -> limitForScope l scope = lim | EvCleanup _ => True end.

Lemma served_late evs t bs : in_order t evs -> hi < t -> served l k lo hi evs bs = 0.
Proof.
  revert t bs. induction evs as [|e evs IH]; intros t bs Ho Ht; simpl; [done|]. destruct Ho as [H1 H2].
  destruct e as [key scope now later|now]; simpl in *; [|by apply (IH now); [|lia]].
  destruct (Allow l key scope now later bs) as [[ok w] bs']. rewrite (proj2 (Z.leb_gt now hi)) by lia.
  rewrite andb_false_r. simpl. apply (IH now); [done|lia].
Qed.

Lemma allow_other key scope now later (bs : gmap string RateBucket) :
  key <> k -> (Allow l key scope now later bs).2 !! k = bs !! k.
Proof.
  intros Hne. unfold Allow. destruct (bs !! key) as [b|]; [destruct (_ <? now); [|destruct (_ <? _)]|]; simpl; by rewrite lookup_insert_ne.
Qed.

(** What may still be served until [hi], which is at most a minute away *)
Definition allowance (bs : gmap string RateBucket) (t : Z) : Z :=
  match bs !! k with
  | Some b => if t <=? rbResetAt b then Z.max 0 (lim - rbCount b) + (if hi <=? rbResetAt b then 0 else Z.max 1 lim) else Z.max 1 lim
  | None => Z.max 1 lim
  end.

Definition near (bs : gmap string RateBucket) (t : Z) : Prop :=
  match bs !! k with Some b => hi <= Z.max t (rbResetAt b) + minute | None => hi <= t + minute end.

Lemma minute_pos : 0 < minute.
Proof. done. Qed.

Lemma allowance_mono bs t t' : t <= t' -> t' <= hi -> near bs t -> allowance bs t' <= allowance bs t /\ near bs t'.
Proof.
  unfold allowance, near. destruct (bs !! k) as [b|]; [|lia]. intros H1 H2 H3. split; [|lia].
  destruct (t' <=? rbResetAt b) eqn:E1, (t <=? rbResetAt b) eqn:E2, (hi <=? rbResetAt b) eqn:E3; to_prop; lia.
Qed.

Lemma allow_same_key scope now later bs t ok w bs' :
  limitForScope l scope = lim -> t <= now -> now <= hi -> near bs t -> Allow l k scope now later bs = (ok, w, bs') ->
  (if ok then 1 else 0) + allowance bs' now <= allowance bs t /\ near bs' now.
Proof.
  intros Hlim Ht Hhi Hn. destruct (allowance_mono bs t now Ht Hhi Hn) as [Hm Hn']. revert Hm Hn'. pose proof minute_pos as Hp.
  unfold Allow. rewrite Hlim. unfold allowance, near. destruct (bs !! k) as [b|].
  - destruct (rbResetAt b <? now) eqn:E; to_prop.
    + intros Hm Hn' [= <- <- <-]. rewrite lookup_insert_eq. simpl. rewrite (proj2 (Z.leb_gt now (rbResetAt b))) in Hm by lia.
      rewrite (proj2 (Z.leb_le now (now + minute))) by lia. rewrite (proj2 (Z.leb_le hi (now + minute))) by lia. lia.
    + simpl. rewrite (proj2 (Z.leb_le now (rbResetAt b))) by lia. intros Hm Hn'.
      destruct (lim <? rbCount b + 1) eqn:F; to_prop; intros [= <- <- <-]; rewrite lookup_insert_eq; simpl;
        rewrite (proj2 (Z.leb_le now (rbResetAt b))) by lia; split; lia.
  - intros Hm Hn' [= <- <- <-]. rewrite lookup_insert_eq. simpl.
    rewrite (proj2 (Z.leb_le now (now + minute))) by lia. rewrite (proj2 (Z.leb_le hi (now + minute))) by lia. lia.
Qed.

Lemma cleanup_keeps_allowance now bs t :
  t <= now -> now <= hi -> near bs t -> allowance (cleanup_buckets now bs) now <= allowance bs t /\ near (cleanup_buckets now bs) now.
Proof.
  intros Ht Hhi Hn. destruct (allowance_mono bs t now Ht Hhi Hn) as [Hm Hn']. revert Hm Hn'. unfold allowance, near.
  destruct (cleanup_buckets now bs !! k) as [b|] eqn:E.
  - apply map_lookup_filter_Some in E as [-> _]. done.
  - apply map_lookup_filter_None in E. destruct (bs !! k) as [b|]; [|done]. destruct E as [|E]; [done|].
    specialize (E b eq_refl). simpl in E. rewrite (proj2 (Z.leb_gt now (rbResetAt b))) by lia. lia.
Qed.

Lemma served_near evs t bs :
  in_order t evs -> Forall limited evs -> near bs t -> served l k lo hi evs bs <= allowance bs t.
Proof.
  revert t bs. induction evs as [|e evs IH]; intros t bs Ho Hl Hn.
  - simpl. unfold allowance. destruct (bs !! k); [destruct (_ <=? _); [destruct (_ <=? _)|]|]; lia.
  - destruct (Z.lt_ge_cases hi (event_time e)) as [Hlate|Htime].
    { destruct Ho as [_ Ho]. rewrite (served_late (e :: evs) (event_time e)); [|by split|done].
      unfold allowance. destruct (bs !! k); [destruct (_ <=? _); [destruct (_ <=? _)|]|]; lia. }
    destruct Ho as [Ht Ho]. inversion Hl as [|? ? He Hl']; subst. destruct e as [key scope now later|now]; simpl in *.
    + destruct (decide (key = k)) as [->|Hne].
      * destruct (Allow l k scope now later bs) as [[ok w] bs'] eqn:A.
        destruct (allow_same_key scope now later bs t ok w bs' (He eq_refl) Ht Htime Hn A) as [Ha Hn'].
        specialize (IH now bs' Ho Hl' Hn'). destruct (ok && _ && _ && _) eqn:B; [|destruct ok; lia].
        destruct ok; [lia|done].
      * pose proof (allow_other key scope now later bs Hne) as Hk. destruct (Allow l key scope now later bs) as [[ok w] bs'].
        simpl in Hk. rewrite (bool_decide_eq_false_2 _ Hne), andb_false_r. simpl.
        destruct (allowance_mono bs t now Ht Htime Hn) as [Hm Hn']. specialize (IH now bs' Ho Hl').
        unfold allowance, near in *. rewrite Hk in IH. specialize (IH Hn'). lia.
    + destruct (cleanup_keeps_allowance now bs t Ht Htime Hn) as [Ha Hn']. specialize (IH now _ Ho Hl' Hn'). lia.
Qed.
End rate.

Definition counts_ok (bs : gmap string RateBucket) : Prop := map_Forall (fun _ b => 0 <= rbCount b) bs.

Lemma allow_counts l key scope now later bs : counts_ok bs -> counts_ok (Allow l key scope now later bs).2.
Proof.
  intros Hc. unfold Allow. destruct (bs !! key) as [b|] eqn:E.
  - pose proof (Hc key b E) as Hb. simpl in Hb.
    destruct (_ <? now); [|destruct (_ <? _)]; simpl; apply map_Forall_insert_2; simpl; (done || lia).
  - simpl. by apply map_Forall_insert_2.
Qed.

(** C30: from whatever the limiter went through, a key is served at most twice the limit of its scope
    (at least once) in any minute. *)
Theorem api_requests_bounded l k lim start evs bs t0 :
  counts_ok bs -> in_order t0 evs -> Forall (limited l k lim) evs ->
  served l k start (start + minute) evs bs <= 2 * Z.max 1 lim.
Proof.
  revert t0 bs. induction evs as [|e evs IH]; intros t0 bs Hc Ho Hl; [simpl; lia|].
  destruct (Z.lt_ge_cases (event_time e) start) as [Hearly|Htime].
  - destruct Ho as [_ Ho]. inversion Hl as [|? ? He Hl']; subst. destruct e as [key scope now later|now]; simpl in *.
    + pose proof (allow_counts l key scope now later bs Hc) as Hc'. destruct (Allow l key scope now later bs) as [[ok w] bs'].
      rewrite (proj2 (Z.leb_gt start now)) by lia. rewrite andb_false_r. simpl. by apply (IH now).
    + apply (IH now); [|done|done]. intros x b [Hb _]%map_lookup_filter_Some. by apply (Hc x).
  - destruct Ho as [_ Ho]. pose proof minute_pos as Hp.
    assert (near k (start + minute) bs (event_time e)) as Hn by (unfold near; destruct (bs !! k); lia).
    pose proof (served_near l k lim start (start + minute) (e :: evs) (event_time e) bs
      (conj (Z.le_refl _) Ho) Hl Hn) as Hb.
    etransitivity; [apply Hb|]. unfold allowance. destruct (bs !! k) as [b|] eqn:E; [|lia].
    pose proof (Hc k b E) as Hcb. simpl in Hcb. destruct (_ <=? _); [destruct (_ <=? _)|]; lia.
Qed.

(** * Keys over time *)

Definition keys_wf (t : KeyTable) : Prop := map_Forall (fun id k => akID k = id) t.

Lemma keys_list_elem t k : k ∈ keys_list t <-> exists id, t !! id = Some k.
Proof.
  unfold keys_list. rewrite list_elem_of_fmap. split.
  - intros ([id v] & -> & Hin). exists id. by apply elem_of_map_to_list.
  - intros [id Hid]. exists (id, k). split; [done|]. by apply elem_of_map_to_list.
Qed.

Section key_laws.
Context `{BcryptLaws}.

(** The first row of the table, in the order the store returns rows, whose key begins with these characters *)
Definition first_with_prefix (prefix : string) (t : KeyTable) (k : APIKey) : Prop :=
  exists before after, keys_list t = before ++ k :: after /\ akKeyPrefix k = prefix /\ Forall (fun other => akKeyPrefix other <> prefix) before.

Lemma first_with_prefix_spec prefix t k :
  first_with_prefix prefix t k <-> List.find (fun k => bool_decide (akKeyPrefix k = prefix)) (keys_list t) = Some k.
Proof.
  unfold first_with_prefix. generalize (keys_list t). intros l. induction l as [|x l IH]; simpl.
  { split; [intros (before & ? & E & _); by destruct before|done]. }
  case_bool_decide as Hx.
  - split; [|intros [= <-]; by exists [], l]. intros (before & after & E & _ & Hb). destruct before as [|y before]; [by injection E as -> _|].
    injection E as -> ->. by inversion Hb.
  - rewrite <- IH. split.
    + intros (before & after & E & Hk & Hb). destruct before as [|y before]; injection E as -> ->; [done|]. inversion Hb. by exists before, after.
    + intros (before & after & -> & Hk & Hb). exists (x :: before), after. split_and!; [done|done|by constructor].
Qed.

(** A key is valid: the first row stored for its first eleven characters is of this key (by its hash), active and
    not expired. *)
Definition key_valid (now : Z) (t : KeyTable) (plain : string) (k : APIKey) : Prop :=
  (keyPrefixLen <= String.length plain)%nat
  /\ first_with_prefix (str_take 11 plain) t k
  /\ bcrypt_compare (akKeyHash k) plain = true /\ akIsActive k = true
  /\ match akExpiresAt k with Some e => now < e | None => True end.

Lemma validate_key (f : Failures) plain now t k : ValidateKey f plain now t = Ok k -> key_valid now t plain k.
Proof.
  unfold ValidateKey, key_valid, GetAPIKeyByPrefix. destruct (_ <? _)%nat eqn:L; [done|]. apply Nat.ltb_ge in L.
  destruct (f "scan api key"); [done|]. destruct (List.find _ _) as [k0|] eqn:F; [|done]. apply first_with_prefix_spec in F. unfold Ok. cbn beta iota.
  destruct (bcrypt_compare _ _) eqn:C; [|done]. destruct (akIsActive k0) eqn:A; [|done]. simpl.
  destruct (akExpiresAt k0) as [e|] eqn:E; [destruct (now <? e) eqn:T; [|done]|]; simpl; intros [= ->]; to_prop;
    rewrite E; by split_and!.
Qed.

Lemma valid_key plain now t k : key_valid now t plain k -> ValidateKey all_succeed plain now t = Ok k.
Proof.
  intros (L & F%first_with_prefix_spec & C & A & E). change 11%nat with keyPrefixLen in F. unfold ValidateKey, GetAPIKeyByPrefix. rewrite (proj2 (Nat.ltb_ge _ _) L), F.
  unfold all_succeed, Ok. cbn beta iota. rewrite C, A. cbn [negb]. destruct (akExpiresAt k) as [e|]; [|done]. by rewrite (proj2 (Z.ltb_lt _ _) E).
Qed.

Lemma create_key_ok (f : Failures) name scope ids exp raw id salt now t key plain t' :
  CreateKey f name scope ids exp raw id salt now t = Ok (key, plain, t') ->
  plain = "kv_" +:+ raw /\ t !! id = None /\ t' = <[id := key_row key]> t /\ akID key = id /\ IsDefaultRole scope = true
  /\ akKeyPrefix key = str_take keyPrefixLen plain /\ bcrypt_compare (akKeyHash key) plain = true
  /\ akIsActive key = true /\ akExpiresAt key = exp /\ akScope key = scope /\ akAgentIDs key = ids.
Proof.
  unfold CreateKey. case_bool_decide; [done|]. destruct (IsDefaultRole scope) eqn:R; [|done]. cbn [negb].
  destruct (bcrypt_hash salt ("kv_" +:+ raw)) as [h|] eqn:Hh; [|done]. unfold CreateAPIKey. cbn [akID].
  destruct (f "create api key"); [done|]. case_bool_decide as Hid; [done|].
  intros [= <- <- <-]. apply hash_matches in Hh. split_and!; try done. by apply eq_None_not_Some.
Qed.

(** a key that was created is accepted until it expires, with the scope and the agents it was created
    for, if no other key starts with the same characters. *)
Theorem created_key_validates (f : Failures) name scope ids exp raw id salt now t key plain t' now' :
  CreateKey f name scope ids exp raw id salt now t = Ok (key, plain, t') -> (8 <= String.length raw)%nat ->
  (forall k, k ∈ keys_list t -> akKeyPrefix k <> str_take keyPrefixLen plain) ->
  match exp with Some e => now' < db_time e | None => True end ->
  exists k, ValidateKey all_succeed plain now' t' = Ok k /\ akID k = id /\ akScope k = scope /\ akAgentIDs k = ids.
Proof.
  intros (Hplain & Hid & -> & Hkid & Hr & Hp & Hc & Ha & He & Hs & Hids)%create_key_ok Hraw Hother Hnow.
  exists (key_row key). split_and!; [|done..]. apply valid_key. split_and!.
  - rewrite Hplain, str_length_app. simpl. unfold keyPrefixLen. lia.
  - apply first_with_prefix_spec. destruct (List.find _ _) as [k|] eqn:F.
    + apply find_some in F as [Hin Hk]. to_prop. apply list_elem_of_In, keys_list_elem in Hin as [i Hi].
      apply lookup_insert_Some in Hi as [[_ <-]|[_ Hi]]; [done|]. destruct (Hother k); [|done]. apply keys_list_elem. eauto.
    + pose proof (find_none _ _ F (key_row key)) as Hno. cbn beta in Hno. rewrite bool_decide_eq_true_2 in Hno by exact Hp.
      discriminate Hno. apply list_elem_of_In, keys_list_elem. exists id. by rewrite lookup_insert_eq.
  - done.
  - done.
  - simpl. rewrite He. by destruct exp.
Qed.

(** ** A key that was revoked *)

Inductive KeyOp : Type :=
| KCreate (name scope : string) (ids : list string) (exp : option Z) (raw id : string) (salt now : Z)
| KRevoke (id : string)
| KUsed (id : string) (now : Z).

Definition apply_key (f : Failures) (op : KeyOp) (t : KeyTable) : KeyTable :=
  match op with
  | KCreate name scope ids exp raw id salt now =>
    match CreateKey f name scope ids exp raw id salt now t with inl (_, _, t') => t' | inr _ => t end
  | KRevoke id => match DeleteAPIKey f id t with inl t' => t' | inr _ => t end
  | KUsed id now => UpdateAPIKeyLastUsed f id now t
  end.

Definition run_keys (ops : list (Failures * KeyOp)) (t : KeyTable) : KeyTable := fold_left (fun t o => apply_key o.1 o.2 t) ops t.

(** Identifiers are new; this one is not used again. *)
Definition not_again (id : string) (op : KeyOp) : Prop := match op with KCreate _ _ _ _ _ id' _ _ => id' <> id | _ => True end.

Lemma key_step id (f : Failures) op t :
  keys_wf t -> t !! id = None -> not_again id op -> keys_wf (apply_key f op t) /\ apply_key f op t !! id = None.
Proof.
  intros W Hid Hop. destruct op as [name scope ids exp raw id' salt now|id'|id' now]; simpl.
  - destruct (CreateKey _ _ _ _ _ _ _ _ _ _) as [[[key plain] t']|] eqn:E; [|done].
    apply create_key_ok in E as (_ & _ & -> & Hk & _). split; [by apply map_Forall_insert_2|]. by rewrite lookup_insert_ne.
  - unfold DeleteAPIKey. destruct (f _); [done|]. case_bool_decide; [|done]. simpl. split; [by apply map_Forall_delete|].
    by apply lookup_delete_None; right.
  - unfold UpdateAPIKeyLastUsed. destruct (f _); [done|]. split.
    + intros i k. rewrite lookup_alter_Some. intros [(-> & k0 & Hk0 & ->)|[_ Hk]]; [exact (W i k0 Hk0)|exact (W i k Hk)].
    + apply eq_None_not_Some. intros [k Hk]. apply lookup_alter_Some in Hk as [(-> & k0 & Hk0 & _)|[_ Hk]]; congruence.
Qed.

(** a key that was revoked is never accepted again, whatever else is done. *)
Theorem revoked_key_refused (f : Failures) id t t' ops (g : Failures) plain now k :
  keys_wf t -> DeleteAPIKey f id t = Ok t' -> Forall (fun o => not_again id o.2) ops ->
  ValidateKey g plain now (run_keys ops t') = Ok k -> akID k <> id.
Proof.
  intros W E Hops V.
  assert (keys_wf t' /\ t' !! id = None) as [W' Hid].
  { unfold DeleteAPIKey in E. destruct (f _); [done|]. case_bool_decide; [|done]. injection E as <-.
    split; [by apply map_Forall_delete|apply lookup_delete_eq]. }
  assert (keys_wf (run_keys ops t') /\ run_keys ops t' !! id = None) as [W2 Hid2].
  { clear E V. unfold run_keys. revert t' W' Hid. induction ops as [|o ops IH]; intros t' W' Hid; simpl; [done|].
    inversion Hops; subst. destruct (key_step id o.1 o.2 t' W' Hid) as [? ?]; [done|]. by apply IH. }
  apply validate_key in V as (_ & F%first_with_prefix_spec & _). apply find_some in F as [Hin _].
  apply list_elem_of_In, keys_list_elem in Hin as [i Hi]. pose proof (W2 i k Hi) as Hk. simpl in Hk. congruence.
Qed.

(** * Requests that reach a handler of an agent *)

Definition may_touch (k : APIKey) (agentID permission : string) : Prop :=
  Can (akScope k) permission = true /\ (agentID = EmptyString \/ akAgentIDs k = [] \/ agentID ∈ akAgentIDs k).

Lemma can_access_spec k a : CanAccessAgent k a = true <-> akAgentIDs k = [] \/ a ∈ akAgentIDs k.
Proof.
  unfold CanAccessAgent. rewrite orb_true_iff, bool_decide_eq_true, existsb_exists. split; intros [?|Hx]; [by left| |by left|].
  - destruct Hx as (x & Hin & E). to_prop. subst x. right. by apply list_elem_of_In.
  - right. exists a. split; [by apply list_elem_of_In|by apply bool_decide_eq_true].
Qed.

Lemma agent_scope_spec perm a k x : RequireAgentScope perm a k = ApiPass x <-> x = k /\ may_touch k a perm.
Proof.
  unfold RequireAgentScope, may_touch. destruct (Can (akScope k) perm); cbn [negb]; [|split; [done|by intros (_ & ? & _)]].
  case_bool_decide as Ha; cbn [negb andb].
  - split; [intros [= <-]; split_and!; [done|done|by left]|by intros [-> _]].
  - destruct (CanAccessAgent k a) eqn:C; cbn [negb].
    + apply can_access_spec in C. split; [intros [= <-]; split_and!; [done|done|by right]|by intros [-> _]].
    + split; [done|]. intros (_ & _ & [?|Hin]); [done|]. apply can_access_spec in Hin. congruence.
Qed.

(** The window of a key is over, or fewer requests than the limit of its scope were made in it. *)
Definition limit_left (limits : RateLimits) (k : APIKey) (now : Z) (bs : gmap string RateBucket) : Prop :=
  forall b, bs !! akID k = Some b -> rbResetAt b < now \/ rbCount b < limitForScope limits (akScope k).

Lemma allow_spec limits k now later bs :
  (Allow limits (akID k) (akScope k) now later bs).1.1 = true <-> limit_left limits k now bs.
Proof.
  unfold Allow, limit_left. destruct (bs !! akID k) as [b|]; [|split; [by intros _ b|done]].
  destruct (Z.ltb_spec (rbResetAt b) now); [split; [intros _ c [= <-]; by left|done]|]. cbn [rbCount].
  destruct (Z.ltb_spec (limitForScope limits (akScope k)) (rbCount b + 1)); simpl.
  - split; [done|]. intros Hl. destruct (Hl b eq_refl); lia.
  - split; [|done]. intros _ c [= <-]. right. lia.
Qed.

(** C15: a request to a route behind [RequireAgentScope] passes to the handler exactly when it carries a key that is
    valid (the first row stored for its first eleven characters is active, not expired and has its hash), with
    requests of the current window left, whose scope has the permission, and which is for all agents or lists the
    one the path names. *)
Theorem api_agent_request_iff limits perm a (f : Failures) header now later s :
  (forall k s', api_route limits (RequireAgentScope perm a) f header now later s = (ApiPass k, s') ->
     exists plain, header = "Bearer " +:+ plain /\ key_valid now (apKeys s) plain k /\ may_touch k a perm
       /\ limit_left limits k now (apBuckets s))
  /\ (forall plain k, header = "Bearer " +:+ plain -> key_valid now (apKeys s) plain k -> may_touch k a perm ->
     limit_left limits k now (apBuckets s) ->
     exists s', api_route limits (RequireAgentScope perm a) all_succeed header now later s = (ApiPass k, s')).
Proof.
  unfold api_route, RequireAPIKey. split.
  - intros k s'. case_bool_decide; [done|]. destruct (strip_prefix "Bearer " header) as [[|c token]|] eqn:P; [done| |done].
    apply strip_prefix_spec in P. destruct (ValidateKey f (String c token) now (apKeys s)) as [key|] eqn:V; [|done].
    destruct (Allow _ _ _ _ _ _) as [[[|] w] bs] eqn:A; [|done]. intros [= Hc _]. apply agent_scope_spec in Hc as [<- Hm].
    exists (String c token). split_and!; [done|by apply (validate_key f)|done|].
    apply (allow_spec _ _ _ later). by rewrite A.
  - intros plain k -> Hv Hm Hl%(allow_spec _ _ _ later). destruct plain as [|c token]; [by destruct Hv as (Hlen & _); simpl in Hlen; unfold keyPrefixLen in Hlen; lia|].
    rewrite bool_decide_eq_false_2 by done. rewrite (proj2 (strip_prefix_spec "Bearer " _ (String c token)) eq_refl).
    rewrite (valid_key _ _ _ _ Hv). unfold Ok. cbn beta iota. destruct (Allow _ _ _ _ _ _) as [[ok w] bs] eqn:A. simpl in Hl. subst ok.
    eexists. f_equal. by apply agent_scope_spec.
Qed.

(** The list of agents of a key with agents holds no others. *)
Lemma listed_agents key agents limit offset a :
  a ∈ (HandleListAgents key agents limit offset).1 -> a ∈ agents /\ CanAccessAgent key a = true.
Proof.
  unfold HandleListAgents. simpl. intros Hin.
  assert (forall (l : list string) n m, a ∈ take n (drop m l) -> a ∈ l) as Hsub.
  { intros l n m Hx. rewrite <- (take_drop m l). apply elem_of_app. right.
    rewrite <- (take_drop n (drop m l)). apply elem_of_app. by left. }
  apply Hsub in Hin. revert Hin. case_bool_decide as E.
  - intros Hin. split; [done|]. unfold CanAccessAgent. by rewrite bool_decide_eq_true_2.
  - by intros [? ?]%filter_elem.
Qed.
End key_laws.

(** * An installation *)
Section api_demo.
#[local] Instance plain_bcrypt : Bcrypt := {|
  bcrypt_hash salt pw := if (72 <? String.length pw)%nat then None else Some pw;
  bcrypt_compare h pw := bool_decide (h = pw);
|}.

#[local] Instance plain_laws : BcryptLaws.
Proof.
  split. intros salt pw h. unfold bcrypt_hash, bcrypt_compare. simpl. destruct (_ <? _)%nat; [done|].
  intros [= ->]. by apply bool_decide_eq_true.
Qed.

(** An administrator's key for the agent "a1" alone *)
Definition scoped_keys : KeyTable :=
  match CreateKey all_succeed "ci" "admin" ["a1"] None "00112233445566778899" "k1" 1 0 ∅ with
  | inl (_, _, t) => t | inr _ => ∅
  end.

Definition bearer : string := "Bearer kv_00112233445566778899".

Definition demo_api (perm agent : string) : ApiAnswer :=
  (api_route DefaultRateLimits (RequireAgentScope perm agent) all_succeed bearer second second
    (mkApiState scoped_keys ∅)).1.

Example scoped_key_routes :
  (exists k, demo_api "agent.delete" "a1" = ApiPass k)
  /\ demo_api "agent.view" "a2" = ApiError 403 "agent_scope" "API key does not have access to agent".
Proof. split; [eexists|]; vm_compute; reflexivity. Qed.

(** A key for one agent that may manage keys makes itself one for all agents. *)
Example scoped_key_escalates :
  let answer := api_route DefaultRateLimits (RequireScope "api_keys.manage") all_succeed bearer second second (mkApiState scoped_keys ∅) in
  (exists k, answer.1 = ApiPass k /\ akAgentIDs k = ["a1"])
  /\ match HandleCreateKey (fun _ => None) all_succeed (mkCreateKeyRequest "all" "admin" [] None) "ffeeddccbbaa99887766" "k2" 2 second (apKeys answer.2) with
     | (201, Some plain, t) =>
       exists k, ValidateKey all_succeed plain (2 * second) t = Ok k /\ CanAccessAgent k "a2" = true
     | _ => False
     end.
Proof. vm_compute. split; eexists; split; reflexivity. Qed.

(** The second of two keys that start alike may never be accepted: only one row is looked at. *)
Example colliding_prefix_refused :
  match CreateKey all_succeed "other" "viewer" [] None "00112233aaaaaaaaaaaa" "k0" 2 0 scoped_keys with
  | inl (_, plain, t) =>
    (exists e, ValidateKey all_succeed plain second t = Err e)
    \/ exists e, ValidateKey all_succeed "kv_00112233445566778899" second t = Err e
  | inr _ => False
  end.
Proof. vm_compute. eauto. Qed.

(** A request names a group that does not exist: the user has lost all roles but those before it. *)
Definition managed_db : AccessDB :=
  (HandleUpsertUser all_succeed "bob-id" (mkUpsertUserRequest "bob" "Bob" false true [("g1", "operator"); ("g2", "viewer")]) 0
    (mkAccessDB ∅ {["g1" := mkAgentGroup "g1" "ops" EmptyString 0; "g2" := mkAgentGroup "g2" "qa" EmptyString 0]} ∅ ∅ ∅ ∅ None)).2.

Example failed_upsert_loses_roles :
  dbRoles managed_db !! ("bob-id", "g2") = Some "viewer"
  /\ let r := HandleUpsertUser all_succeed "bob-id"
                (mkUpsertUserRequest "bob" "Bob" false true [("g1", "operator"); ("gone", "viewer"); ("g2", "viewer")]) 1 managed_db in
     r.1 = 500 /\ dbRoles r.2 !! ("bob-id", "g1") = Some "operator" /\ dbRoles r.2 !! ("bob-id", "g2") = None.
Proof. split; [|intros r; split_and!]; vm_compute; reflexivity. Qed.

(** ** Witnesses *)

Lemma created_key_validates_witness :
  exists k, ValidateKey all_succeed "kv_00112233445566778899" (3600 * second) scoped_keys = Ok k
    /\ akID k = "k1" /\ akScope k = "admin" /\ akAgentIDs k = ["a1"].
Proof.
  apply (created_key_validates all_succeed "ci" "admin" ["a1"] None "00112233445566778899" "k1" 1 0 ∅
    (mkAPIKey "k1" "ci" "kv_00112233445566778899" "kv_00112233" "admin" ["a1"] true None 0 None)
    "kv_00112233445566778899" scoped_keys (3600 * second)).
  - vm_compute. reflexivity.
  - vm_compute. lia.
  - intros k [id Hid]%keys_list_elem. by rewrite lookup_empty in Hid.
  - exact I.
Defined.

Lemma revoked_key_refused_witness :
  let t := match CreateKey all_succeed "cd" "viewer" [] None "99887766554433221100" "k2" 3 0 scoped_keys with
           | inl (_, _, t) => t | inr _ => ∅ end in
  let t' := delete "k1" t in
  match ValidateKey all_succeed "kv_99887766554433221100" second (run_keys [(all_succeed, KUsed "k2" 5)] t') with
  | inl k => akID k <> "k1"
  | inr _ => False
  end.
Proof.
  intros t t'. set (t2 := run_keys [(all_succeed, KUsed "k2" 5)] t').
  assert (keys_wf t) as W by (apply map_Forall_to_list; vm_compute; repeat constructor).
  destruct (ValidateKey all_succeed "kv_99887766554433221100" second t2) as [k|e] eqn:V; [|vm_compute in V; discriminate].
  apply (revoked_key_refused all_succeed "k1" t t' [(all_succeed, KUsed "k2" 5)] all_succeed "kv_99887766554433221100" second k W).
  - vm_compute. reflexivity.
  - repeat constructor.
  - exact V.
Defined.

Lemma api_requests_bounded_witness :
  served (mkRateLimits 2 2 2 2) "k1" 30 (30 + minute)
    [EvAllow "k1" "viewer" 10 10; EvAllow "k1" "viewer" 40 40; EvAllow "k1" "viewer" 41 41; EvCleanup 42] ∅ <= 2 * Z.max 1 2.
Proof.
  apply (api_requests_bounded (mkRateLimits 2 2 2 2) "k1" 2 30 _ ∅ 0).
  - apply map_Forall_empty.
  - simpl. lia.
  - repeat constructor.
Defined.

Lemma upsert_sets_roles_witness :
  (exists u, dbUsers managed_db !! "bob-id" = Some u /\ uUsername u = "bob" /\ uIsAdmin u = false /\ uIsActive u = true)
  /\ (forall g, dbRoles managed_db !! ("bob-id", g) = last_role [("g1", "operator"); ("g2", "viewer")] g)
  /\ forall v g, v <> "bob-id" -> dbRoles managed_db !! (v, g) = (∅ : gmap (string * string) string) !! (v, g).
Proof.
  apply (upsert_sets_roles all_succeed "bob-id" (mkUpsertUserRequest "bob" "Bob" false true [("g1", "operator"); ("g2", "viewer")]) 0
    (mkAccessDB ∅ {["g1" := mkAgentGroup "g1" "ops" EmptyString 0; "g2" := mkAgentGroup "g2" "qa" EmptyString 0]} ∅ ∅ ∅ ∅ None)).
  - split; simpl.
    + intros k u Hl. by rewrite lookup_empty in Hl.
    + intros j k u v Hl. by rewrite lookup_empty in Hl.
    + intros a g Hm. by apply elem_of_empty in Hm.
    + intros u g r Hl. by rewrite lookup_empty in Hl.
    + intros k s Hl. by rewrite lookup_empty in Hl.
  - vm_compute. reflexivity.
Defined.
End api_demo.
