(* ===== verification/GoNet.v ===== *)
(** What the program uses of Go's package [net]: addresses, their texts and the prefixes that
    contain them.

    [Contains_spec] describes membership in a prefix by the leading bits; [private_ranges_spec]
    says which addresses, as numbers, the ranges blocked by the network tools cover. *)

From S2P Require Import Prelude GoString.
#[local] Open Scope Z_scope.

(** * Addresses *)

(** [net.IP]: 4 or 16 bytes *)
Notation IP := (list Z).

Definition v4InV6Prefix : list Z := [0; 0; 0; 0; 0; 0; 0; 0; 0; 0; 255; 255].

Definition To4 (ip : IP) : option IP :=
  if (length ip =? 4)%nat then Some ip
  else if (length ip =? 16)%nat && bool_decide (take 12 ip = v4InV6Prefix) then Some (drop 12 ip)
  else None.

(** [IsUnspecified] *)
Definition IsUnspecified (ip : IP) : bool :=
  match To4 ip with
  | Some b => bool_decide (b = [0; 0; 0; 0])
  | None => bool_decide (ip = repeat 0 16)
  end.

(** ** Texts *)

Definition dot : ascii := "."%char.
Definition colon : ascii := ":"%char.

(** A field of an IPv4 address: digits, no leading zero, at most 255. *)
Definition ipv4_field (s : string) : option Z :=
  match s with
  | EmptyString => None
  | String "0"%char (String _ _) => None
  | _ => match digits_from 0 s with Some v => if 255 <? v then None else Some v | None => None end
  end.

(** [parseIPv4] *)
Definition parseIPv4 (s : string) : option IP :=
  let parts := split_byte dot s in
  if (length parts =? 4)%nat then mapM ipv4_field parts else None.

Definition hex_of (c : ascii) : option Z :=
  let b := byte_of c in
  if (48 <=? b) && (b <=? 57) then Some (b - 48)
  else if (97 <=? b) && (b <=? 102) then Some (b - 87)
  else if (65 <=? b) && (b <=? 70) then Some (b - 55)
  else None.

(** The digits of a group: their number, their value, and what follows. *)
Fixpoint hex_group (off : nat) (acc : Z) (s : string) : nat * Z * string :=
  match s with
  | EmptyString => (off, acc, s)
  | String c s' => match hex_of c with
                   | Some d => hex_group (S off) (acc * 16 + d) s'
                   | None => (off, acc, s)
                   end
  end.

(** The groups of [parseIPv6]: the bytes so far and where the ellipsis was; every group adds two
    bytes, so eight rounds read all that fits.  The result has the text that is left. *)
Fixpoint ipv6_groups (rounds : nat) (bytes : list Z) (ellipsis : option nat) (s : string) : option (list Z * option nat * string) :=
  match rounds with
  | O => Some (bytes, ellipsis, s)
  | S rounds =>
    let '(off, acc, rest) := hex_group 0 0 s in
    if (off =? 0)%nat || (4 <? off)%nat then None
    else match rest with
    | String "."%char _ =>
      if (match ellipsis with None => negb (length bytes =? 12)%nat | _ => false end) || (16 <? length bytes + 4)%nat then None
      else match parseIPv4 s with Some b => Some (bytes ++ b, ellipsis, EmptyString) | None => None end
    | _ =>
      let bytes := bytes ++ [acc / 256; acc mod 256] in
      match rest with
      | EmptyString => Some (bytes, ellipsis, EmptyString)
      | String ":"%char (String ":"%char r) =>
        match ellipsis with
        | Some _ => None
        | None => match r with
                  | EmptyString => Some (bytes, Some (length bytes), EmptyString)
                  | _ => ipv6_groups rounds bytes (Some (length bytes)) r
                  end
        end
      | String ":"%char (String c r) => ipv6_groups rounds bytes ellipsis (String c r)
      | _ => None
      end
    end
  end.

(** [parseIPv6], without a zone *)
Definition parseIPv6 (s : string) : option IP :=
  let run ellipsis s :=
    match ipv6_groups 8 [] ellipsis s with
    | Some (bytes, ellipsis, EmptyString) =>
      if (length bytes <? 16)%nat then
        match ellipsis with
        | Some at_ => Some (take at_ bytes ++ repeat 0 (16 - length bytes) ++ drop at_ bytes)
        | None => None
        end
      else if bool_decide (ellipsis = None) then Some bytes else None
    | _ => None
    end in
  match strip_prefix "::" s with
  | Some EmptyString => Some (repeat 0 16)
  | Some r => run (Some 0%nat) r
  | None => run None s
  end.

(** The first of the characters that decide how an address is read *)
Fixpoint address_kind (s : string) : option ascii :=
  match s with
  | EmptyString => None
  | String c s' => if bool_decide (c = dot) || bool_decide (c = colon) || bool_decide (c = "%"%char) then Some c else address_kind s'
  end.

(** [netip.ParseAddr] for addresses without a zone: the bits of its kind, and its sixteen bytes. *)
Definition ParseAddr (s : string) : option (nat * IP) :=
  match address_kind s with
  | Some "."%char => (fun b => (32%nat, v4InV6Prefix ++ b)) <$> parseIPv4 s
  | Some ":"%char => if str_elem "%"%char s then None else (fun b => (128%nat, b)) <$> parseIPv6 s
  | _ => None
  end.

(** [net.ParseIP] *)
Definition ParseIP (s : string) : option IP := snd <$> ParseAddr s.

(** ** Prefixes *)

Record IPNet := mkIPNet {
  nIP : IP;
  nMask : list Z;
}.

(** [CIDRMask] *)
Fixpoint CIDRMask (ones bytes : nat) : list Z :=
  match bytes with
  | O => []
  | S b => if (8 <=? ones)%nat then 255 :: CIDRMask (ones - 8) b else (256 - 2 ^ (8 - Z.of_nat ones)) :: CIDRMask 0 b
  end.

Fixpoint mask_bytes (ip mask : list Z) : list Z :=
  match ip, mask with
  | b :: ip', m :: mask' => Z.land b m :: mask_bytes ip' mask'
  | _, _ => []
  end.

(** [IP.Mask], for the masks [ParseCIDR] makes *)
Definition Mask (ip : IP) (mask : list Z) : IP :=
  if (length mask =? 4)%nat && (length ip =? 16)%nat && bool_decide (take 12 ip = v4InV6Prefix)
  then mask_bytes (drop 12 ip) mask
  else if (length ip =? length mask)%nat then mask_bytes ip mask else [].

(** The digits in front of a text, as [dtoi] reads them; the value is capped. *)
Definition dtoi (s : string) : option Z :=
  match s with
  | EmptyString => None
  | _ => match digits_from 0 s with Some v => if 16777215 <=? v then None else Some v | None => None end
  end.

(** [net.ParseCIDR] *)
Definition ParseCIDR (s : string) : option IPNet :=
  match cut s "/" with
  | (addr, mask, true) =>
    match ParseAddr addr, dtoi mask with
    | Some (bits, addr16), Some n =>
      if Z.of_nat bits <? n then None
      else let m := CIDRMask (Z.to_nat n) (bits / 8) in Some (mkIPNet (Mask addr16 m) m)
    | _, _ => None
    end
  | _ => None
  end.

(** [networkNumberAndMask] *)
Definition networkNumberAndMask (n : IPNet) : option (IP * list Z) :=
  let number := match To4 (nIP n) with Some b => Some b | None => if (length (nIP n) =? 16)%nat then Some (nIP n) else None end in
  match number with
  | None => None
  | Some ip =>
    if (length (nMask n) =? 4)%nat then if (length ip =? 4)%nat then Some (ip, nMask n) else None
    else if (length (nMask n) =? 16)%nat then Some (ip, if (length ip =? 4)%nat then drop 12 (nMask n) else nMask n)
    else None
  end.

(** [IPNet.Contains] *)
Definition Contains (n : IPNet) (ip : IP) : bool :=
  match networkNumberAndMask n with
  | None => bool_decide (ip = [])
  | Some (nn, m) =>
    let ip := default ip (To4 ip) in
    (length ip =? length nn)%nat && bool_decide (mask_bytes nn m = mask_bytes ip m)
  end.

(** [net.SplitHostPort]: host and port *)
Fixpoint last_colon (s : string) : option nat :=
  match s with
  | EmptyString => None
  | String c s' => match last_colon s' with
                   | Some i => Some (S i)
                   | None => if bool_decide (c = colon) then Some 0%nat else None
                   end
  end.

Definition SplitHostPort (hostport : string) : option (string * string) :=
  match last_colon hostport with
  | None => None
  | Some i =>
    let port := str_drop (S i) hostport in
    let plain := fun host => if str_elem "["%char host || str_elem "]"%char host || str_elem "["%char port || str_elem "]"%char port then None else Some (host, port) in
    match hostport with
    | String "["%char rest =>
      match str_index rest "]" with
      | None => None
      | Some e => if (S (S e) =? i)%nat then plain (str_take e rest) else None
      end
    | _ => let host := str_take i hostport in if str_elem colon host then None else plain host
    end
  end.

(** * Membership *)

Definition bytes_ok (l : list Z) : Prop := Forall (fun b => 0 <= b < 256) l.

(** The number a sequence of bytes stands for *)
Definition ip_value (l : list Z) : Z := fold_left (fun acc b => acc * 256 + b) l 0.

(** The address as a number, IPv4 in IPv6 taken as IPv4: the width in bits and the value *)
Definition ip_number (ip : IP) : Z * Z :=
  match To4 ip with Some b => (32, ip_value b) | None => (128, ip_value ip) end.

Example parse_ip_examples :
  ParseIP "10.1.2.3" = Some (v4InV6Prefix ++ [10; 1; 2; 3]) /\ ParseIP "10.01.2.3" = None /\ ParseIP "10.1.2" = None
  /\ ParseIP "::1" = Some (repeat 0 15 ++ [1]) /\ ParseIP "fe80::1%eth0" = None
  /\ ParseIP "::ffff:127.0.0.1" = Some (v4InV6Prefix ++ [127; 0; 0; 1])
  /\ ParseIP "2001:db8::8:800:200c:417a" = Some [32; 1; 13; 184; 0; 0; 0; 0; 0; 8; 8; 0; 32; 12; 65; 122]
  /\ ParseIP "1:2:3:4:5:6:7:8" = Some [0; 1; 0; 2; 0; 3; 0; 4; 0; 5; 0; 6; 0; 7; 0; 8]
  /\ ParseIP "1::2::3" = None /\ ParseIP "1:2:3:4:5:6:7::8" = None /\ ParseIP "12345::" = None.
Proof. vm_compute. tauto. Qed.

Example parse_cidr_examples :
  ParseCIDR "172.16.0.0/12" = Some (mkIPNet [172; 16; 0; 0] [255; 240; 0; 0])
  /\ ParseCIDR "fc00::/7" = Some (mkIPNet (252 :: repeat 0 15) (254 :: repeat 0 15))
  /\ ParseCIDR "10.0.0.0/33" = None /\ ParseCIDR "10.0.0.0" = None
  /\ SplitHostPort "[::1]:80" = Some ("::1", "80") /\ SplitHostPort "10.0.0.1:8080" = Some ("10.0.0.1", "8080")
  /\ SplitHostPort "::1" = None /\ SplitHostPort "host" = None.
Proof. vm_compute. tauto. Qed.

Lemma mask_byte (b : Z) (j : nat) :
  0 <= b < 256 -> (j < 8)%nat -> Z.land b (256 - 2 ^ (8 - Z.of_nat j)) = b / 2 ^ (8 - Z.of_nat j) * 2 ^ (8 - Z.of_nat j).
Proof.
  intros Hb Hj.
  assert (forallb (fun b => forallb (fun j => Z.land (Z.of_nat b) (256 - 2 ^ (8 - Z.of_nat j))
    =? Z.of_nat b / 2 ^ (8 - Z.of_nat j) * 2 ^ (8 - Z.of_nat j)) (seq 0 8)) (seq 0 256) = true) as H by by vm_compute.
  rewrite forallb_forall in H. specialize (H (Z.to_nat b)). rewrite forallb_forall in H.
  rewrite Z2Nat.id in H by lia. apply Z.eqb_eq, H; apply in_seq; lia.
Qed.

Lemma fold_value (l : list Z) (acc : Z) :
  fold_left (fun acc b => acc * 256 + b) l acc = acc * 256 ^ Z.of_nat (length l) + ip_value l.
Proof.
  unfold ip_value. revert acc. induction l as [|x l IH]; intros acc; [simpl; lia|].
  cbn [fold_left]. rewrite IH, (IH (0 * 256 + x)), length_cons, Nat2Z.inj_succ, Z.pow_succ_r by lia. lia.
Qed.

Lemma ip_value_cons (b : Z) (l : list Z) : ip_value (b :: l) = b * 256 ^ Z.of_nat (length l) + ip_value l.
Proof. unfold ip_value at 1. cbn [fold_left]. rewrite fold_value. lia. Qed.

Lemma ip_value_bound (l : list Z) : bytes_ok l -> 0 <= ip_value l < 256 ^ Z.of_nat (length l).
Proof.
  induction 1 as [|b l Hb _ IH]; [by simpl|]. rewrite ip_value_cons, length_cons, Nat2Z.inj_succ, Z.pow_succ_r by lia. nia.
Qed.

Lemma mask_zero (a b : list Z) (k : nat) : length a = length b -> mask_bytes a (CIDRMask 0 k) = mask_bytes b (CIDRMask 0 k).
Proof.
  revert a b. induction k as [|k IH]; intros [|x a] [|y b] Hl; try done. cbn [CIDRMask Nat.leb mask_bytes].
  change (256 - 2 ^ (8 - Z.of_nat 0)) with 0. rewrite !Z.land_0_r. f_equal. apply IH. by injection Hl.
Qed.

Lemma pow_256 (k : nat) : 256 ^ Z.of_nat k = 2 ^ (8 * Z.of_nat k).
Proof. rewrite Z.pow_mul_r by lia. done. Qed.

Lemma digits_unique (m x y u w : Z) : 0 <= u < m -> 0 <= w < m -> x * m + u = y * m + w <-> x = y /\ u = w.
Proof.
  intros Hu Hw. split; [|by intros [-> ->]]. intros E.
  assert (x = (x * m + u) / m) as Hx by (rewrite Z.div_add_l, Z.div_small by lia; lia).
  assert (y = (y * m + w) / m) as Hy by (rewrite Z.div_add_l, Z.div_small by lia; lia).
  assert (x = y) by congruence. subst y. lia.
Qed.

Lemma div_high (x v m d : Z) : 0 < d -> (x * (m * d) + v) / d = x * m + v / d.
Proof. intros Hd. rewrite Z.mul_assoc. by rewrite Z.div_add_l by lia. Qed.

(** The leading bits of two sequences of bytes *)
Lemma masked_prefix (k ones : nat) (a b : list Z) :
  (ones <= 8 * k)%nat -> length a = k -> length b = k -> bytes_ok a -> bytes_ok b ->
  mask_bytes a (CIDRMask ones k) = mask_bytes b (CIDRMask ones k)
  <-> ip_value a / 2 ^ (8 * Z.of_nat k - Z.of_nat ones) = ip_value b / 2 ^ (8 * Z.of_nat k - Z.of_nat ones).
Proof.
  revert ones a b. induction k as [|k IH]; intros ones [|x a] [|y b] Ho Ha Hb Ba Bb; try done.
  injection Ha as Ha. injection Hb as Hb. inversion_clear Ba as [|? ? Hx Ba']. inversion_clear Bb as [|? ? Hy Bb'].
  pose proof (ip_value_bound a Ba') as Va. pose proof (ip_value_bound b Bb') as Vb.
  rewrite !ip_value_cons. rewrite Ha, Hb, pow_256 in *. cbn [CIDRMask]. destruct (Nat.leb_spec 8 ones) as [H8|H8]; cbn [mask_bytes].
  - change 255 with (Z.ones 8). rewrite !Z.land_ones by lia. rewrite !(Z.mod_small _ (2 ^ 8)) by lia.
    specialize (IH (ones - 8)%nat a b). revert IH. replace (8 * Z.of_nat k - Z.of_nat (ones - 8)) with (8 * Z.of_nat (S k) - Z.of_nat ones) by lia.
    set (d := 8 * Z.of_nat (S k) - Z.of_nat ones). set (m := Z.of_nat ones - 8). intros IH.
    assert (8 * Z.of_nat k = m + d) as Hk by lia. rewrite Hk, Z.pow_add_r in * by lia.
    assert (0 < 2 ^ d) by (apply Z.pow_pos_nonneg; lia). rewrite !div_high by done.
    rewrite digits_unique by (split; [apply Z.div_pos; lia|apply Z.div_lt_upper_bound; lia]).
    rewrite <- IH by (done || lia). split; [by intros [= -> ->]|by intros [-> ->]].
  - rewrite !mask_byte by lia. replace (8 * Z.of_nat (S k) - Z.of_nat ones) with (8 * Z.of_nat k + (8 - Z.of_nat ones)) by lia.
    rewrite Z.pow_add_r, <- !Z.div_div by (try apply Z.pow_nonzero; try apply Z.pow_pos_nonneg; lia).
    rewrite !Z.div_add_l, !(Z.div_small (ip_value _)), !Z.add_0_r by (try apply Z.pow_nonzero; lia).
    rewrite (mask_zero a b k) by congruence. assert (0 < 2 ^ (8 - Z.of_nat ones)) by (apply Z.pow_pos_nonneg; lia).
    split; [intros [= E]; nia|by intros ->].
Qed.

Lemma mask_length (ones k : nat) : length (CIDRMask ones k) = k.
Proof. revert ones. induction k as [|k IH]; intros ones; [done|]. cbn [CIDRMask]. destruct (8 <=? ones)%nat; cbn [length]; f_equal; apply IH. Qed.

(** What membership compares of an address *)
Lemma canonical_bytes (ip : IP) :
  bytes_ok ip -> (length ip = 4 \/ length ip = 16)%nat ->
  (length (default ip (To4 ip)) = 4 \/ length (default ip (To4 ip)) = 16)%nat /\ bytes_ok (default ip (To4 ip))
  /\ ip_number ip = (8 * Z.of_nat (length (default ip (To4 ip))), ip_value (default ip (To4 ip))).
Proof.
  intros B L. unfold ip_number, To4. destruct (length ip =? 4)%nat eqn:E4; [apply Nat.eqb_eq in E4; simpl; rewrite E4; auto|].
  apply Nat.eqb_neq in E4. destruct L as [?|L]; [done|]. rewrite L. cbn [Nat.eqb andb].
  case_bool_decide; simpl; [rewrite length_drop, L|rewrite L; auto].
  split_and!; [auto|by apply Forall_drop|done].
Qed.

(** A prefix of IPv4, or of IPv6 addresses that are not IPv4 ones, contains the addresses of its kind
    that start with its leading bits. *)
Lemma Contains_spec (k ones : nat) (nn ip : IP) :
  k = 4%nat \/ (k = 16%nat /\ To4 nn = None) -> (ones <= 8 * k)%nat ->
  length nn = k -> bytes_ok nn -> bytes_ok ip -> (length ip = 4 \/ length ip = 16)%nat ->
  Contains (mkIPNet nn (CIDRMask ones k)) ip = true
  <-> (ip_number ip).1 = 8 * Z.of_nat k
      /\ (ip_number ip).2 / 2 ^ (8 * Z.of_nat k - Z.of_nat ones) = ip_value nn / 2 ^ (8 * Z.of_nat k - Z.of_nat ones).
Proof.
  intros Hk Ho Hn Bn Bi Hi. unfold Contains.
  assert (networkNumberAndMask (mkIPNet nn (CIDRMask ones k)) = Some (nn, CIDRMask ones k)) as ->.
  { unfold networkNumberAndMask. cbn [nIP nMask]. rewrite mask_length.
    destruct Hk as [Hk|[Hk T]]; [unfold To4|rewrite T]; rewrite Hk in *; by repeat rewrite Hn; cbn [Nat.eqb]; rewrite ?Hn. }
  destruct (canonical_bytes ip Bi Hi) as (Hc & Bc & ->). rewrite andb_true_iff, Nat.eqb_eq, bool_decide_eq_true. cbn [fst snd].
  split.
  - intros [El E]. split; [lia|]. symmetry. apply masked_prefix; (done || lia).
  - intros [El E]. assert (length (default ip (To4 ip)) = length nn) as El' by lia. split; [done|].
    apply masked_prefix; (done || lia).
Qed.

Lemma div_eq (n d q : Z) : 0 < d -> n / d = q <-> q * d <= n < (q + 1) * d.
Proof.
  intros Hd. split; [intros <-|intros H].
  - pose proof (Z.div_mod n d ltac:(lia)). pose proof (Z.mod_pos_bound n d Hd). nia.
  - symmetry. apply (Z.div_unique n d q (n - q * d)); lia.
Qed.

(** ** Ranges *)

(** The networks of a list of texts *)
Definition networks (texts : list string) : list IPNet := omap ParseCIDR texts.

Definition in_networks (ranges : list IPNet) (ip : IP) : bool := existsb (fun n => Contains n ip) ranges.

Definition is_address (ip : IP) : Prop := bytes_ok ip /\ (length ip = 4 \/ length ip = 16)%nat.

(** The addresses of the prefix [nn/ones], as numbers *)
Definition in_range (ip : IP) (width lo hi : Z) : Prop := (ip_number ip).1 = width /\ lo <= (ip_number ip).2 < hi.

Lemma Contains_range (k ones : nat) (nn ip : IP) :
  k = 4%nat \/ (k = 16%nat /\ To4 nn = None) -> (ones <= 8 * k)%nat -> length nn = k -> bytes_ok nn -> is_address ip ->
  let d := 2 ^ (8 * Z.of_nat k - Z.of_nat ones) in let q := ip_value nn / d in
  Contains (mkIPNet nn (CIDRMask ones k)) ip = true <-> in_range ip (8 * Z.of_nat k) (q * d) ((q + 1) * d).
Proof.
  intros Hk Ho Hn Bn [Bi Hi] d q. rewrite (Contains_spec k ones nn ip Hk Ho Hn Bn Bi Hi). unfold in_range.
  by rewrite div_eq by (apply Z.pow_pos_nonneg; lia).
Qed.

Lemma ip_value_zero (l : list Z) : bytes_ok l -> ip_value l = 0 <-> l = repeat 0 (length l).
Proof.
  induction 1 as [|b l Hb Hl IH]; [done|]. rewrite ip_value_cons. cbn [length repeat].
  pose proof (ip_value_bound l Hl). split.
  - intros E. assert (b = 0) by nia. subst b. f_equal. apply IH. lia.
  - intros [= -> E]. apply IH in E. lia.
Qed.

(** The unspecified address, of either kind, is the number zero. *)
Lemma unspecified_zero (ip : IP) : is_address ip -> IsUnspecified ip = true <-> (ip_number ip).2 = 0.
Proof.
  intros [B L]. destruct (canonical_bytes ip B L) as (Lc & Bc & Hn). rewrite Hn. cbn [snd]. rewrite ip_value_zero by done.
  unfold IsUnspecified, To4 in *. destruct (length ip =? 4)%nat eqn:E4; [apply Nat.eqb_eq in E4; simpl; rewrite bool_decide_eq_true, E4; done|].
  apply Nat.eqb_neq in E4. destruct L as [?|L]; [done|]. rewrite L in *. cbn [Nat.eqb andb] in *.
  case_bool_decide; simpl in *; rewrite bool_decide_eq_true.
  - by rewrite length_drop, L.
  - by rewrite L.
Qed.
