(* ===== verification/NetTools.v ===== *)
(** The tools that reach the network on behalf of an agent: the HTTP tool
    ([internal/tools/httptool]), the guards of the browser ([internal/tools/browser]) and the
    proxy of the sandboxes ([internal/netproxy]).

    The internet is a class: what names resolve to, which addresses answer and what servers say,
    each depending on everything that happened before, so that nothing is assumed of names that
    change their addresses.  URLs are a class too.  A call adds to a trace of look-ups,
    connections and requests.

    [private_ranges_exact] says which addresses are blocked; [http_tool_confined] that no call of
    the HTTP tool below the admin tier connects to one of them, whatever redirects and look-ups
    answer; [http_client_ends] that redirects are bounded there, [search_never_ends] that they are
    not in the web search of the browser; [proxy_rebinding] that the proxy can be made to connect
    to a private address. *)

From S2P Require Import Prelude GoString GoFloat Types KtpTypes GoNet Scheduler.
#[local] Open Scope Z_scope.

(** * Blocked addresses *)

Definition privateRanges : list IPNet := networks
  ["127.0.0.0/8"; "10.0.0.0/8"; "172.16.0.0/12"; "192.168.0.0/16"; "169.254.0.0/16"; "::1/128"; "fc00::/7"; "fe80::/10"].

(** [isPrivateIP] of the HTTP tool, and, word for word, of the browser and the REST tool *)
Definition isPrivateIP (ip : IP) : bool := IsUnspecified ip || in_networks privateRanges ip.

(** The same of the proxy, with its own list and without the unspecified addresses *)
Definition proxyPrivateRanges : list IPNet := networks
  ["10.0.0.0/8"; "172.16.0.0/12"; "192.168.0.0/16"; "127.0.0.0/8"; "169.254.0.0/16"; "::1/128"; "fc00::/7"; "fe80::/10"; "0.0.0.0/8"].

Definition proxyIsPrivateIP (ip : IP) : bool := in_networks proxyPrivateRanges ip.

(** * URLs, requests and the internet *)

Class GoURL := {
  URL : Type;
  url_parse : string -> option URL;           (* [url.Parse] *)
  url_string : URL -> string;                 (* [URL.String] *)
  url_resolve : URL -> string -> option URL;  (* [URL.Parse], of a reference *)
  url_scheme : URL -> string;
  url_host : URL -> string;
  url_hostname : URL -> string;               (* [URL.Hostname] *)
  url_address : URL -> string;                (* host and port a transport connects to *)
  url_subdomain : URL -> URL -> bool;         (* the second is the domain of the first, or one above it *)
}.

(** The text of a URL is read as a URL with the same scheme and host. *)
Class GoURLLaws `{GoURL} := {
  url_reparse u u' : url_parse (url_string u) = Some u' -> url_scheme u' = url_scheme u /\ url_hostname u' = url_hostname u;
}.

Record HttpRequest `{GoURL} := mkHttpRequest {
  hrMethod : string;
  hrURL : URL;
  hrHeaders : list (string * string);
  hrBody : string;
}.

#[global] Arguments mkHttpRequest {_} _ _ _ _.

Record HttpResponse := mkHttpResponse {
  rsStatus : Z;
  rsLocation : string;
  rsHeaders : list (string * list string);
  rsContentType : string;
  rsBody : result string string;              (* what reading the body gives *)
}.

Inductive NetEvent `{GoURL} : Type :=
| Looked (host : string)
| Dialled (ip : IP) (port : string)
| Asked (req : HttpRequest).

Class Internet `{GoURL} := {
  net_lookup : list NetEvent -> string -> result string (list IP);
  net_dial : list NetEvent -> IP -> string -> option string;
  net_serve : list NetEvent -> HttpRequest -> result string HttpResponse;
}.

Section nets.
Context {U : GoURL} {N : Internet} (equal_fold : string -> string -> bool).
Notation Trace := (list NetEvent).

(** Connections to the addresses of a name, the first that succeeds *)
Fixpoint dial_each (port lastErr : string) (ips : list IP) (tr : Trace) : option string * Trace :=
  match ips with
  | [] => (Some lastErr, tr)
  | ip :: ips' =>
    let r := net_dial tr ip port in
    let tr := tr ++ [Dialled ip port] in
    match r with None => (None, tr) | Some e => dial_each port e ips' tr end
  end.

(** [net.Dialer.DialContext] with a name: it looks the name up itself. *)
Definition dial_name (host port : string) (tr : Trace) : option string * Trace :=
  let r := net_lookup tr host in
  let tr := tr ++ [Looked host] in
  match r with inr e => (Some e, tr) | inl ips => dial_each port "no suitable address found" ips tr end.

(** The [DialContext] of [newSafeClient] *)
Definition safe_dial (skipSSRF : bool) (addr : string) (tr : Trace) : option string * Trace :=
  match SplitHostPort addr with
  | None => (Some "invalid address", tr)
  | Some (host, port) =>
    if negb skipSSRF then
      let r := net_lookup tr host in
      let tr := tr ++ [Looked host] in
      match r with
      | inr e => (Some ("DNS resolution failed: " +:+ e), tr)
      | inl ips =>
        if existsb isPrivateIP ips then (Some "connection to private IP is blocked (SSRF protection)", tr)
        else dial_each port ("no usable IP addresses for " +:+ host) ips tr
      end
    else dial_name host port tr
  end.

(** ** The client of [net/http] *)

Definition sensitive_header (name : string) : bool :=
  bool_decide (name ∈ ["Authorization"; "Www-Authenticate"; "Cookie"; "Cookie2"]).

(** The request a redirect leads to, if the answer is one: its method, and its headers without
    those that are kept from other domains. *)
Definition redirect_of (first req : HttpRequest) (resp : HttpResponse) : option (result string HttpRequest) :=
  let code := rsStatus resp in
  let follow keep :=
    if bool_decide (rsLocation resp = EmptyString) then None
    else match url_resolve (hrURL req) (rsLocation resp) with
    | None => Some (Err "failed to parse Location header")
    | Some u =>
      let headers := if url_subdomain u (hrURL first) then hrHeaders first
                     else List.filter (fun kv => negb (sensitive_header kv.1)) (hrHeaders first) in
      let method := if keep || bool_decide (hrMethod req = "GET") || bool_decide (hrMethod req = "HEAD") then hrMethod req else "GET" in
      Some (Ok (mkHttpRequest method u headers (if keep then hrBody first else EmptyString)))
    end in
  if (code =? 301) || (code =? 302) || (code =? 303) then follow false
  else if (code =? 307) || (code =? 308) then follow true
  else None.

(** The bytes of a token, as methods and header names are: letters, digits and some signs *)
Definition token_byte (c : ascii) : bool :=
  let b := byte_of c in
  ((48 <=? b) && (b <=? 57)) || ((65 <=? b) && (b <=? 90)) || ((97 <=? b) && (b <=? 122)) || str_elem c "!#$%&'*+-.^_`|~".

Fixpoint all_bytes (p : ascii -> bool) (s : string) : bool :=
  match s with EmptyString => true | String c s' => p c && all_bytes p s' end.

Definition valid_header (kv : string * string) : bool :=
  negb (bool_decide (kv.1 = EmptyString)) && all_bytes token_byte kv.1
  && all_bytes (fun c => let b := byte_of c in (b =? 9) || ((32 <=? b) && negb (b =? 127))) kv.2.

(** [Client.Do]: [via] requests were made before; no result when the fuel is spent. *)
Fixpoint client_do (fuel : nat) (check : HttpRequest -> nat -> option string) (dial : string -> Trace -> option string * Trace)
    (first req : HttpRequest) (via : nat) (tr : Trace) : option (result string HttpResponse) * Trace :=
  match fuel with
  | O => (None, tr)
  | S fuel =>
    if negb (bool_decide (url_scheme (hrURL req) = "https") || bool_decide (url_scheme (hrURL req) = "http"))
    then (Some (Err "unsupported protocol scheme"), tr)
    else if negb (forallb valid_header (hrHeaders req)) then (Some (Err "net/http: invalid header field"), tr)
    else if bool_decide (url_host (hrURL req) = EmptyString) then (Some (Err "http: no Host in request URL"), tr)
    else
      match dial (url_address (hrURL req)) tr with
      | (Some e, tr) => (Some (Err e), tr)
      | (None, tr) =>
        let r := net_serve tr req in
        let tr := tr ++ [Asked req] in
        match r with
        | inr e => (Some (Err e), tr)
        | inl resp =>
          match redirect_of first req resp with
          | None => (Some (Ok resp), tr)
          | Some (inr e) => (Some (Err e), tr)
          | Some (inl req') =>
            match check req' (S via) with
            | Some e => (Some (Err e), tr)
            | None => client_do fuel check dial first req' (S via) tr
            end
          end
        end
      end
  end.

(** ** The HTTP tool *)

Definition MaxResponseBody : nat := Pos.to_nat 1048576.

(** [validateURL] *)
Definition validateURL (rawURL : string) (allowedHosts : list string) : result string URL :=
  match url_parse rawURL with
  | None => Err "invalid URL"
  | Some u =>
    if negb (bool_decide (url_scheme u = "https")) then Err "only HTTPS is allowed"
    else if negb (bool_decide (allowedHosts = [])) && negb (existsb (fun h => equal_fold (url_hostname u) h) allowedHosts)
    then Err "host is not in the allowed hosts list"
    else Ok u
  end.

(** The [CheckRedirect] of [newSafeClient] *)
Definition safe_redirect (allowedHosts : list string) (req : HttpRequest) (via : nat) : option string :=
  if (10 <=? via)%nat then Some "too many redirects"
  else match validateURL (url_string (hrURL req)) allowedHosts with
       | inr e => Some ("redirect blocked: " +:+ e)
       | inl _ => None
       end.

(** What the tool is made with: the hosts and, if there is one, the tier of an agent *)
Record HTTPTool := mkHTTPTool {
  htAllowedHosts : string -> result string (list string);
  htTier : option (string -> result string string);
}.

Definition getAgentTier (t : HTTPTool) (agentID : string) : string :=
  match htTier t with
  | None => EmptyString
  | Some f => match f agentID with inl tier => tier | inr _ => EmptyString end
  end.

(** [doRequest]; the result is the one of the response, for a body within the limit or cut off. *)
Definition http_result (resp : HttpResponse) : result string any :=
  match rsBody resp with
  | inr e => Err ("failed to read response: " +:+ e)
  | inl body =>
    let long := (MaxResponseBody <? String.length body)%nat in
    let fields := [("status", AInt (rsStatus resp));
                   ("headers", AStrMap (omap (fun kv => match kv.2 with v :: _ => Some (kv.1, v) | [] => None end) (rsHeaders resp)));
                   ("body", AString (if long then str_take MaxResponseBody body else body));
                   ("content_type", AString (rsContentType resp))] in
    Ok (AMap (if long then fields ++ [("truncated", ABool true)] else fields))
  end.

Definition doRequest (check : HttpRequest -> nat -> option string) (dial : string -> Trace -> option string * Trace)
    (req : HttpRequest) (reqID : string) (ms : Z) (tr : Trace) : option ToolResponse * Trace :=
  match client_do 11 check dial req req 0 tr with
  | (None, tr) => (None, tr)
  | (Some (inr e), tr) => (Some (errResp reqID ("request failed: " +:+ e)), tr)
  | (Some (inl resp), tr) =>
    (Some (match http_result resp with
           | inr e => errResp reqID e
           | inl res => NewToolResponse reqID true res EmptyString ms
           end), tr)
  end.

(** [intDefault]; a number is a [float64], an [int] or an [int64]. *)
Definition intDefault (params : list (string * any)) (key : string) (def : Z) : Z :=
  match alookup key params with Some (AFloat64 f) => f64_to_int f | Some (AInt z) => z | _ => def end.

Definition NewRequest (method rawURL body : string) : result string HttpRequest :=
  let method := or_default method "GET" in
  if negb (all_bytes token_byte method) then Err "net/http: invalid method"
  else match url_parse rawURL with
       | None => Err "parse"
       | Some u => Ok (mkHttpRequest method u [] body)
       end.

(** [textproto.CanonicalMIMEHeaderKey]: upper case at the start and after a hyphen *)
Fixpoint canonical_from (up : bool) (s : string) : string :=
  match s with
  | EmptyString => EmptyString
  | String c s' =>
    let b := byte_of c in
    let b := if up && (97 <=? b) && (b <=? 122) then b - 32 else if negb up && (65 <=? b) && (b <=? 90) then b + 32 else b in
    String (of_byte b) (canonical_from (b =? 45) s')
  end.

Definition canonical_header (name : string) : string :=
  if bool_decide (name = EmptyString) || negb (all_bytes token_byte name) then name else canonical_from true name.

(** [Header.Set] *)
Definition set_header (name value : string) (headers : list (string * string)) : list (string * string) :=
  let k := canonical_header name in
  List.filter (fun kv => negb (bool_decide (kv.1 = k))) headers ++ [(k, value)].

(** [newSafeClient]: the check of redirects and the dialer *)
Definition newSafeClient (allowedHosts : list string) (skipSSRF : bool)
    : (HttpRequest -> nat -> option string) * (string -> Trace -> option string * Trace) :=
  (safe_redirect allowedHosts, safe_dial skipSSRF).

(** [fetch] *)
Definition fetch (t : HTTPTool) (req : ToolRequest) (ms : Z) (tr : Trace) : option ToolResponse * Trace :=
  match strParam (rParameters req) "url" with
  | inr e => (Some (errResp (rID req) e), tr)
  | inl rawURL =>
    let skipSSRF := bool_decide (getAgentTier t (rAgentID req) = "admin") in
    match htAllowedHosts t (rAgentID req) with
    | inr e => (Some (errResp (rID req) ("failed to resolve allowed hosts: " +:+ e)), tr)
    | inl allowedHosts =>
      match validateURL rawURL allowedHosts with
      | inr e => (Some (errResp (rID req) e), tr)
      | inl _ =>
        let '(check, dial) := newSafeClient allowedHosts skipSSRF in
        match NewRequest "GET" rawURL EmptyString with
        | inr e => (Some (errResp (rID req) ("invalid request: " +:+ e)), tr)
        | inl r => doRequest check dial r (rID req) ms tr
        end
      end
    end
  end.

(** [request] *)
Definition request_action (t : HTTPTool) (req : ToolRequest) (ms : Z) (tr : Trace) : option ToolResponse * Trace :=
  match strParam (rParameters req) "url", strParam (rParameters req) "method" with
  | inr e, _ | inl _, inr e => (Some (errResp (rID req) e), tr)
  | inl rawURL, inl method =>
    let skipSSRF := bool_decide (getAgentTier t (rAgentID req) = "admin") in
    match htAllowedHosts t (rAgentID req) with
    | inr e => (Some (errResp (rID req) ("failed to resolve allowed hosts: " +:+ e)), tr)
    | inl allowedHosts =>
      match validateURL rawURL allowedHosts with
      | inr e => (Some (errResp (rID req) e), tr)
      | inl _ =>
        let '(check, dial) := newSafeClient allowedHosts skipSSRF in
        match NewRequest method rawURL (strDefault (rParameters req) "body" EmptyString) with
        | inr e => (Some (errResp (rID req) ("invalid request: " +:+ e)), tr)
        | inl r =>
          let headers := match alookup "headers" (rParameters req) with
                         | Some (AMap m) => fold_left (fun hs kv => match kv.2 with AString v => set_header kv.1 v hs | _ => hs end) m (hrHeaders r)
                         | _ => hrHeaders r
                         end in
          doRequest check dial (mkHttpRequest (hrMethod r) (hrURL r) headers (hrBody r)) (rID req) ms tr
        end
      end
    end
  end.

(** The seconds a request may take *)
Definition request_timeout (params : list (string * any)) : Z :=
  let t := intDefault params "timeout" 30 in
  let t := if 120 <? t then 120 else t in
  if t <? 1 then 1 else t.

(** [Execute] *)
Definition HTTPExecute (t : HTTPTool) (req : ToolRequest) (ms : Z) (tr : Trace) : option ToolResponse * Trace :=
  if bool_decide (rAction req = "fetch") then fetch t req ms tr
  else if bool_decide (rAction req = "request") then request_action t req ms tr
  else (Some (errResp (rID req) ("unknown action: " +:+ rAction req)), tr).

(** ** The browser *)

(** [validateURL] of the browser *)
Definition browser_validateURL (rawURL : string) (allowedHosts : list string) : result string URL :=
  match url_parse rawURL with
  | None => Err "invalid URL"
  | Some u =>
    if negb (bool_decide (url_scheme u = "https")) then Err "only HTTPS is allowed"
    else if bool_decide (url_hostname u = EmptyString) then Err "invalid URL: missing host"
    else if negb (bool_decide (allowedHosts = [])) && negb (existsb (fun h => equal_fold h (url_hostname u)) allowedHosts)
    then Err "host is not in the allowed hosts list"
    else Ok u
  end.

Definition hostAllowed (host : string) (allowedHosts : list string) : bool := existsb (fun h => equal_fold h host) allowedHosts.

(** [checkPrivateIPs]: an error, and the trace *)
Definition checkPrivateIPs (u : URL) (allowedHosts : list string) (tr : Trace) : option string * Trace :=
  let host := url_hostname u in
  let explicitAllow := hostAllowed host allowedHosts in
  match ParseIP host with
  | Some ip => (if isPrivateIP ip && negb explicitAllow then Some "connection to private IP is blocked (SSRF protection)" else None, tr)
  | None =>
    let r := net_lookup tr host in
    let tr := tr ++ [Looked host] in
    match r with
    | inr e => (Some ("DNS resolution failed: " +:+ e), tr)
    | inl ips => (if existsb isPrivateIP ips && negb explicitAllow then Some "connection to private IP is blocked (SSRF protection)" else None, tr)
    end
  end.

(** What [fetchPage], [screenshot] and [extractLinks] check before they hand the URL to the engine *)
Definition browser_guard (allowed : result string (list string)) (rawURL : string) (tr : Trace) : result string URL * Trace :=
  match allowed with
  | inr e => (Err e, tr)
  | inl allowedHosts =>
    match browser_validateURL rawURL allowedHosts with
    | inr e => (Err e, tr)
    | inl u => match checkPrivateIPs u allowedHosts tr with (Some e, tr) => (Err e, tr) | (None, tr) => (Ok u, tr) end
    end
  end.

Definition clampInt (val lo hi : Z) : Z := if val <? lo then lo else if hi <? val then hi else val.

(** [searchWeb], up to the parsing of the page: [ddgURL] is the address of the query. *)
Definition search_redirect (allowedHosts : list string) (req : HttpRequest) (via : nat) : option string :=
  match browser_validateURL (url_string (hrURL req)) allowedHosts with inr e => Some e | inl _ => None end.

Definition searchWeb (fuel : nat) (allowed : result string (list string)) (ddgURL : string) (tr : Trace)
    : option (result string HttpResponse) * Trace :=
  match allowed with
  | inr e => (Some (Err e), tr)
  | inl allowedHosts =>
    match browser_validateURL ddgURL [] with
    | inr e => (Some (Err e), tr)
    | inl u =>
      match checkPrivateIPs u allowedHosts tr with
      | (Some e, tr) => (Some (Err e), tr)
      | (None, tr) =>
        match NewRequest "GET" (url_string u) EmptyString with
        | inr e => (Some (Err ("request failed: " +:+ e)), tr)
        | inl r =>
          let r := mkHttpRequest (hrMethod r) (hrURL r) [("User-Agent", "KyvikBrowser/1.0 (+https://kyvik)")] (hrBody r) in
          client_do fuel (search_redirect allowedHosts)
            (fun addr tr => match SplitHostPort addr with Some (host, port) => dial_name host port tr | None => (Some "invalid address", tr) end)
            r r 0 tr
        end
      end
    end
  end.

(** ** The proxy of the sandboxes *)

Record TierPolicy := mkTierPolicy {
  tpAllowedMethods : list string;
  tpAllowPrivateIPs : bool;
}.

Record AgentInfo := mkAgentInfo {
  aiAgentID : string;
  aiTier : string;
  aiAllowedHosts : list string;
}.

Definition DefaultPolicies : list (string * TierPolicy) :=
  [("reader", mkTierPolicy ["GET"; "HEAD"; "OPTIONS"] false);
   ("writer", mkTierPolicy ["GET"; "HEAD"; "OPTIONS"; "POST"; "PUT"; "PATCH"] false);
   ("operator", mkTierPolicy ["GET"; "HEAD"; "OPTIONS"; "POST"; "PUT"; "PATCH"; "DELETE"] false);
   ("admin", mkTierPolicy [] true)].

(** [isHostAllowed] *)
Definition isHostAllowed (host : string) (allowedHosts : list string) : bool :=
  bool_decide (allowedHosts = []) || bool_decide (host ∈ allowedHosts).

(** [checkSSRF] *)
Definition checkSSRF (host : string) (tr : Trace) : option string * Trace :=
  let r := net_lookup tr host in
  let tr := tr ++ [Looked host] in
  match r with
  | inr e => (Some ("DNS resolution failed for " +:+ host +:+ ": " +:+ e), tr)
  | inl ips => (if existsb proxyIsPrivateIP ips then Some "blocked: resolves to private IP" else None, tr)
  end.

(** [DefaultTransport.RoundTrip] *)
Definition RoundTrip (req : HttpRequest) (tr : Trace) : result string HttpResponse * Trace :=
  if negb (bool_decide (url_scheme (hrURL req) = "https") || bool_decide (url_scheme (hrURL req) = "http"))
  then (Err "unsupported protocol scheme", tr)
  else if negb (forallb valid_header (hrHeaders req)) then (Err "net/http: invalid header field", tr)
  else if bool_decide (url_host (hrURL req) = EmptyString) then (Err "http: no Host in request URL", tr)
  else match SplitHostPort (url_address (hrURL req)) with
  | None => (Err "invalid address", tr)
  | Some (host, port) =>
    match dial_name host port tr with
    | (Some e, tr) => (Err e, tr)
    | (None, tr) => (net_serve tr req, tr ++ [Asked req])
    end
  end.

(** [Proxy.ServeHTTP]: the status, and the answer that was forwarded; [sandboxID] is the header
    [Proxy-Authorization], [rHost] the host of the request line or header. *)
Definition ProxyServe (policies : list (string * TierPolicy)) (resolveAgent : string -> result string AgentInfo)
    (sandboxID rHost : string) (req : HttpRequest) (tr : Trace) : Z * option HttpResponse * Trace :=
  if bool_decide (sandboxID = EmptyString) then (407, None, tr)
  else match resolveAgent sandboxID with
  | inr _ => (403, None, tr)
  | inl agent =>
    match alookup (aiTier agent) policies with
    | None => (403, None, tr)
    | Some policy =>
      if negb (bool_decide (tpAllowedMethods policy = [])) && negb (existsb (fun m => equal_fold (hrMethod req) m) (tpAllowedMethods policy))
      then (403, None, tr)
      else
        let host := or_default (url_hostname (hrURL req)) rHost in
        if negb (isHostAllowed host (aiAllowedHosts agent)) then (403, None, tr)
        else
          let '(blocked, tr) := if tpAllowPrivateIPs policy then (None, tr) else checkSSRF host tr in
          match blocked with
          | Some _ => (403, None, tr)
          | None => match RoundTrip req tr with
                    | (inr _, tr) => (502, None, tr)
                    | (inl resp, tr) => (rsStatus resp, Some resp, tr)
                    end
          end
    end
  end.
End nets.

(** * Which addresses are blocked *)

Definition v4 (a b c d : Z) : Z := ((a * 256 + b) * 256 + c) * 256 + d.

(** The addresses of the blocked ranges, as numbers *)
Definition blocked_number (ip : IP) : Prop :=
  let (width, n) := ip_number ip in
  (width = 32 /\ (n = 0 \/ v4 10 0 0 0 <= n <= v4 10 255 255 255 \/ v4 127 0 0 0 <= n <= v4 127 255 255 255
     \/ v4 169 254 0 0 <= n <= v4 169 254 255 255 \/ v4 172 16 0 0 <= n <= v4 172 31 255 255 \/ v4 192 168 0 0 <= n <= v4 192 168 255 255))
  \/ (width = 128 /\ (n = 0 \/ n = 1 \/ n / 2 ^ 121 = 126 \/ n / 2 ^ 118 = 1018)).

Lemma private_networks :
  privateRanges = [mkIPNet [127; 0; 0; 0] (CIDRMask 8 4); mkIPNet [10; 0; 0; 0] (CIDRMask 8 4); mkIPNet [172; 16; 0; 0] (CIDRMask 12 4);
    mkIPNet [192; 168; 0; 0] (CIDRMask 16 4); mkIPNet [169; 254; 0; 0] (CIDRMask 16 4);
    mkIPNet (repeat 0 15 ++ [1]) (CIDRMask 128 16); mkIPNet (252 :: repeat 0 15) (CIDRMask 7 16); mkIPNet (254 :: 128 :: repeat 0 14) (CIDRMask 10 16)].
Proof. vm_compute. reflexivity. Qed.

Ltac bytes := repeat (apply Forall_cons; split; [lia|]); apply Forall_nil_2.

(** Computes the bounds of a range. *)
Ltac range_bounds :=
  repeat match goal with
  | |- context [ip_value ?l / ?d] => let v := eval vm_compute in (ip_value l / d) in change (ip_value l / d) with v
  end;
  repeat match goal with |- context [2 ^ ?e] => let v := eval vm_compute in (2 ^ e) in progress change (2 ^ e) with v end.

(** C25: an address is blocked exactly when it is unspecified, loopback, link-local, of the private
    networks of IPv4, or unique local, IPv4 addresses in IPv6 form included. *)
Theorem private_ranges_exact ip : is_address ip -> isPrivateIP ip = true <-> blocked_number ip.
Proof.
  intros A. pose proof (unspecified_zero ip A) as Hz. unfold isPrivateIP, in_networks, blocked_number.
  rewrite private_networks. cbn [existsb]. rewrite !orb_true_iff, Hz.
  rewrite !(Contains_range 4), !(Contains_range 16) by (first [done | lia | by left | by right | (cbn; bytes)]).
  unfold in_range. destruct (canonical_bytes ip (proj1 A) (proj2 A)) as (L & B & Hn). rewrite Hn.
  pose proof (ip_value_bound _ B) as Hb. cbn [fst snd]. revert L Hb. generalize (ip_value (default ip (To4 ip))), (length (default ip (To4 ip))).
  intros n k L Hb. rewrite !(div_eq n) by done. range_bounds. unfold v4.
  assert (false = true <-> False) as -> by done. clear - L. destruct L as [-> | ->]; split; lia.
Qed.

(** * What a call can reach *)

(** [tr'] is [tr] with events of [P] added. *)
Definition adds {A} (P : A -> Prop) (tr tr' : list A) : Prop := exists new, tr' = tr ++ new /\ Forall P new.

Section adds.
Context {A : Type} (P : A -> Prop).

Lemma adds_none tr : adds P tr tr.
Proof. exists []. by rewrite app_nil_r. Qed.

Lemma adds_one tr e : P e -> adds P tr (tr ++ [e]).
Proof. intros He. exists [e]. by rewrite Forall_singleton. Qed.

Lemma adds_trans tr tr1 tr2 : adds P tr tr1 -> adds P tr1 tr2 -> adds P tr tr2.
Proof. intros (n1 & -> & H1) (n2 & -> & H2). exists (n1 ++ n2). rewrite app_assoc. split; [done|]. by apply Forall_app. Qed.

Lemma adds_mono (Q : A -> Prop) tr tr' : (forall e, P e -> Q e) -> adds P tr tr' -> adds Q tr tr'.
Proof. intros HPQ (n & -> & Hn). exists n. split; [done|]. by eapply Forall_impl. Qed.
End adds.

#[export] Hint Resolve adds_none adds_one : kyvik.

Section reach.
Context {U : GoURL} {N : Internet} {L : GoURLLaws} (equal_fold : string -> string -> bool).
Notation Trace := (list NetEvent).

Definition allowed_host (hosts : list string) (u : URL) : Prop :=
  hosts = [] \/ exists h, h ∈ hosts /\ equal_fold (url_hostname u) h = true.

(** Connections to addresses that are not blocked, unless the checks are skipped *)
Definition dial_ok (skip : bool) (e : NetEvent) : Prop :=
  match e with Looked _ => True | Dialled ip _ => skip = true \/ isPrivateIP ip = false | Asked _ => False end.

(** And requests over TLS to the hosts that are allowed *)
Definition event_ok (skip : bool) (hosts : list string) (e : NetEvent) : Prop :=
  match e with Asked r => url_scheme (hrURL r) = "https" /\ allowed_host hosts (hrURL r) | _ => dial_ok skip e end.

Definition asked (tr : Trace) : nat := length (List.filter (fun e => match e with Asked _ => true | _ => false end) tr).

Lemma validateURL_ok raw hosts u :
  validateURL equal_fold raw hosts = inl u -> url_parse raw = Some u /\ url_scheme u = "https" /\ allowed_host hosts u.
Proof.
  unfold validateURL. destruct (url_parse raw) as [v|]; [|done]. case_bool_decide as Hs; simpl; [|done].
  destruct (negb _ && _) eqn:E; [done|]. intros [= <-]. split_and!; [done..|]. apply andb_false_iff in E as [E|E]; to_prop; [by left|].
  right. by apply existsb_elem in E.
Qed.

Lemma redirect_ok hosts req via :
  safe_redirect equal_fold hosts req via = None ->
  (via < 10)%nat /\ url_scheme (hrURL req) = "https" /\ allowed_host hosts (hrURL req).
Proof using L.
  unfold safe_redirect. destruct (Nat.leb_spec 10 via) as [|Hv]; [done|]. destruct (validateURL _ _ _) as [u|e] eqn:E; [|done]. intros _.
  apply validateURL_ok in E as (Hp & Hs & Ha). apply url_reparse in Hp as [Es Eh]. split; [done|].
  unfold allowed_host. rewrite <- Es, <- Eh. done.
Qed.

Lemma dial_each_adds skip port last ips tr r tr' :
  (forall ip, ip ∈ ips -> skip = true \/ isPrivateIP ip = false) ->
  dial_each port last ips tr = (r, tr') -> adds (dial_ok skip) tr tr'.
Proof.
  revert last tr. induction ips as [|ip ips IH]; intros last tr Hips; simpl; [intros [= _ <-]; auto with kyvik|].
  assert (dial_ok skip (Dialled ip port)) as Hd by (simpl; set_solver).
  destruct (net_dial tr ip port).
  - intros E. apply IH in E; [|set_solver]. eapply adds_trans; [by apply adds_one|done].
  - intros [= _ <-]. by apply adds_one.
Qed.

Lemma safe_dial_adds skip addr tr r tr' : safe_dial skip addr tr = (r, tr') -> adds (dial_ok skip) tr tr'.
Proof.
  unfold safe_dial, dial_name. destruct (SplitHostPort addr) as [[host port]|]; [|intros [= _ <-]; auto with kyvik].
  assert (dial_ok skip (Looked host)) as Hl by done.
  destruct skip; simpl; (destruct (net_lookup tr host) as [ips|]; [|intros [= _ <-]; auto with kyvik]).
  - intros E. apply (dial_each_adds true) in E; [|by left]. eapply adds_trans; [by apply adds_one|done].
  - destruct (existsb isPrivateIP ips) eqn:P; [intros [= _ <-]; auto with kyvik|].
    intros E. apply (dial_each_adds false) in E; [eapply adds_trans; [by apply adds_one|done]|].
    intros ip Hip. right. by apply (existsb_elem_false isPrivateIP ips).
Qed.

Lemma asked_app (a b : Trace) : asked (a ++ b) = (asked a + asked b)%nat.
Proof. unfold asked. by rewrite List.filter_app, length_app. Qed.

Lemma dial_asks_nothing skip tr tr' : adds (dial_ok skip) tr tr' -> asked tr' = asked tr.
Proof.
  intros (new & -> & Hn). rewrite asked_app. assert (asked new = 0%nat); [|lia].
  unfold asked. induction Hn as [|e new He Hn IH]; [done|]. by destruct e.
Qed.

(** What the client does with the check of redirects of the HTTP tool: it ends, after at most ten
    requests in all. *)
Lemma client_confined skip hosts first req via fuel tr :
  url_scheme (hrURL req) = "https" -> allowed_host hosts (hrURL req) -> (via < 10 -> 11 <= fuel + via ->
  exists r tr', client_do fuel (safe_redirect equal_fold hosts) (safe_dial skip) first req via tr = (Some r, tr')
    /\ adds (event_ok skip hosts) tr tr' /\ asked tr' + via <= asked tr + 10)%nat.
Proof using L.
  revert req via tr. induction fuel as [|fuel IH]; intros req via tr Hs Ha Hv Hf; [lia|].
  assert (forall r : result string HttpResponse, exists r0 tr', (Some r, tr) = (Some r0, tr') /\ adds (event_ok skip hosts) tr tr' /\ (asked tr' + via <= asked tr + 10)%nat) as Hstop.
  { intros r. eexists _, _. split_and!; [done|auto with kyvik|lia]. }
  simpl. rewrite Hs. simpl. destruct (negb (forallb _ _)); [apply Hstop|]. case_bool_decide; [apply Hstop|].
  destruct (safe_dial skip _ tr) as [r tr1] eqn:D. apply safe_dial_adds in D. pose proof (dial_asks_nothing _ _ _ D) as Hasked.
  assert (adds (event_ok skip hosts) tr tr1) as D' by (eapply adds_mono; [|exact D]; by intros []).
  destruct r as [e|]; [eexists _, _; split_and!; [done|done|lia]|].
  assert (adds (event_ok skip hosts) tr (tr1 ++ [Asked req])) as Hadd.
  { eapply adds_trans; [exact D'|]. apply adds_one. done. }
  assert (asked (tr1 ++ [Asked req]) = S (asked tr)) as Hone by (rewrite asked_app, Hasked; unfold asked at 2; simpl; lia).
  destruct (net_serve tr1 req) as [resp|e]; [|eexists _, _; split_and!; [done|done|lia]].
  destruct (redirect_of first req resp) as [[req'|e]|]; [|eexists _, _; split_and!; [done|done|lia]..].
  destruct (safe_redirect _ _ req' (S via)) eqn:C; [eexists _, _; split_and!; [done|done|lia]|].
  apply redirect_ok in C as (Hv' & Hs' & Ha').
  destruct (IH req' (S via) (tr1 ++ [Asked req]) Hs' Ha' Hv' ltac:(lia)) as (r & tr' & -> & Hadds & Hcount).
  eexists _, _. split_and!; [done|by eapply adds_trans|lia].
Qed.

(** ** The HTTP tool *)

(** What a call may do, given what the tool is told of the agent *)
Definition call_ok (t : HTTPTool) (agentID : string) (e : NetEvent) : Prop :=
  exists hosts, htAllowedHosts t agentID = inl hosts /\ event_ok (bool_decide (getAgentTier t agentID = "admin")) hosts e.

Lemma doRequest_confined t agentID hosts req reqID ms tr :
  htAllowedHosts t agentID = inl hosts -> url_scheme (hrURL req) = "https" -> allowed_host hosts (hrURL req) ->
  exists resp tr', doRequest (safe_redirect equal_fold hosts) (safe_dial (bool_decide (getAgentTier t agentID = "admin"))) req reqID ms tr = (Some resp, tr')
    /\ adds (call_ok t agentID) tr tr' /\ (asked tr' <= asked tr + 10)%nat.
Proof using L.
  intros Ht Hs Ha. unfold doRequest.
  destruct (client_confined (bool_decide (getAgentTier t agentID = "admin")) hosts req req 0 11 tr Hs Ha ltac:(lia) ltac:(lia)) as (r & tr' & -> & Hadds & Hcount).
  assert (adds (call_ok t agentID) tr tr') as Hcall by (eapply adds_mono; [|exact Hadds]; intros e He; by exists hosts).
  destruct r; (eexists _, _; split_and!; [done|done|lia]).
Qed.

Lemma NewRequest_url method raw body r u :
  NewRequest method raw body = inl r -> url_parse raw = Some u -> hrURL r = u.
Proof. unfold NewRequest. destruct (negb _); [done|]. intros E Hp. rewrite Hp in E. by injection E as <-. Qed.

(** C6: a call of the HTTP tool ends, after at most ten requests, whatever names resolve to and servers
    answer; it asks over TLS and only hosts the agent is allowed, redirects included, and below the admin
    tier it connects to no blocked address. *)
Theorem http_tool_confined (t : HTTPTool) req ms tr :
  exists resp tr', HTTPExecute equal_fold t req ms tr = (Some resp, tr')
    /\ adds (call_ok t (rAgentID req)) tr tr' /\ (asked tr' <= asked tr + 10)%nat.
Proof using L.
  assert (forall resp : ToolResponse, exists r tr', (Some resp, tr) = (Some r, tr') /\ adds (call_ok t (rAgentID req)) tr tr' /\ (asked tr' <= asked tr + 10)%nat) as Hstop.
  { intros resp. eexists _, _. split_and!; [done|auto with kyvik|lia]. }
  unfold HTTPExecute. case_bool_decide; [|case_bool_decide; [|apply Hstop]].
  - unfold fetch. destruct (strParam _ _) as [raw|e]; [|apply Hstop]. destruct (htAllowedHosts t (rAgentID req)) as [hosts|e] eqn:Ht; [|apply Hstop].
    destruct (validateURL equal_fold raw hosts) as [u|e] eqn:V; [|apply Hstop]. apply validateURL_ok in V as (Hp & Hs & Ha).
    simpl. destruct (NewRequest _ raw _) as [r|e] eqn:R; [|apply Hstop]. pose proof (NewRequest_url _ _ _ _ _ R Hp) as Hu.
    apply (doRequest_confined t (rAgentID req) hosts); [done|by rewrite Hu..].
  - unfold request_action. destruct (strParam _ "url") as [raw|e]; [|apply Hstop]. destruct (strParam _ _) as [method|e]; [|apply Hstop].
    destruct (htAllowedHosts t (rAgentID req)) as [hosts|e] eqn:Ht; [|apply Hstop].
    destruct (validateURL equal_fold raw hosts) as [u|e] eqn:V; [|apply Hstop]. apply validateURL_ok in V as (Hp & Hs & Ha).
    simpl. destruct (NewRequest method raw _) as [r|e] eqn:R; [|apply Hstop]. pose proof (NewRequest_url _ _ _ _ _ R Hp) as Hu.
    apply (doRequest_confined t (rAgentID req) hosts); [done|simpl; by rewrite Hu..].
Qed.

(** A request the browser hands to its engine is over TLS, of a host that is allowed. *)
Lemma browser_guard_ok allowed raw tr u tr' :
  browser_guard equal_fold allowed raw tr = (inl u, tr') ->
  exists hosts, allowed = inl hosts /\ url_parse raw = Some u /\ url_scheme u = "https" /\ url_hostname u <> EmptyString
    /\ (hosts = [] \/ hostAllowed equal_fold (url_hostname u) hosts = true)
    /\ asked tr' = asked tr.
Proof.
  unfold browser_guard. destruct allowed as [hosts|]; [|done]. destruct (browser_validateURL _ _ _) as [v|] eqn:V; [|done].
  destruct (checkPrivateIPs _ v hosts tr) as [[e|] tr1] eqn:C; [done|]. intros [= <- <-]. exists hosts. split; [done|].
  unfold browser_validateURL in V. destruct (url_parse raw) as [w|]; [|done]. destruct (bool_decide (url_scheme w = _)) eqn:Hs; [|done]. simpl in V.
  destruct (bool_decide (url_hostname w = _)) eqn:Hh; [done|]. destruct (negb _ && _) eqn:E; [done|]. injection V as ->. to_prop.
  split_and!; [done..| |].
  - destruct E as [E|E]; to_prop; [by left|by right].
  - unfold checkPrivateIPs in C. destruct (ParseIP _); [destruct (_ && _); [done|by injection C as <-]|].
    destruct (net_lookup tr _); [destruct (_ && _); [done|]|done]. injection C as <-. rewrite asked_app. unfold asked at 2. simpl. lia.
Qed.
End reach.

(** * Concrete networks *)
Section net_demo.
(** URLs of the two schemes, of a host and a path *)
#[local] Instance demo_urls : GoURL := {|
  URL := bool * string;
  url_parse s := match strip_prefix "https://" s with
                 | Some r => Some (true, r)
                 | None => (fun r => (false, r)) <$> strip_prefix "http://" s
                 end;
  url_string u := (if u.1 then "https://" else "http://") +:+ u.2;
  url_resolve u loc := match strip_prefix "https://" loc with Some r => Some (true, r) | None => Some (u.1, (cut u.2 "/").1.1 +:+ loc) end;
  url_scheme u := if u.1 then "https" else "http";
  url_host u := (cut u.2 "/").1.1;
  url_hostname u := (cut u.2 "/").1.1;
  url_address u := (cut u.2 "/").1.1 +:+ (if u.1 then ":443" else ":80");
  url_subdomain u v := bool_decide ((cut u.2 "/").1.1 = (cut v.2 "/").1.1);
|}.

#[local] Instance demo_url_laws : GoURLLaws.
Proof. split. by intros [[] r] [b r'] [= <- <-]. Qed.

(** Names by what happened before, answers by the request *)
Definition demo_net (names : list NetEvent -> string -> result string (list IP)) (answer : HttpRequest -> HttpResponse) : Internet := {|
  net_lookup := names;
  net_dial _ _ _ := None;
  net_serve _ req := Ok (answer req);
|}.

Definition page : HttpResponse := mkHttpResponse 200 EmptyString [] "text/plain" (Ok "hello").
Definition moved (location : string) : HttpResponse := mkHttpResponse 302 location [] EmptyString (Ok EmptyString).

(** A public server that redirects to one of the internal network *)
#[local] Instance redirecting_net : Internet :=
  demo_net (fun _ host => if bool_decide (host = "intranet.example") then Ok [[10; 0; 0; 5]] else Ok [[93; 184; 216; 34]])
    (fun req => if bool_decide (url_hostname (hrURL req) = "public.example") then moved "https://intranet.example/" else page).

Definition demo_call : ToolRequest := NewToolRequest "r1" "a1" "http" "fetch" [("url", AString "https://public.example/x")].
Definition demo_tool (tier : string) : HTTPTool := mkHTTPTool (fun _ => Ok []) (Some (fun _ => Ok tier)).

Definition dialled (tr : list NetEvent) : list IP := omap (fun e => match e with Dialled ip _ => Some ip | _ => None end) tr.

Example redirect_to_intranet_blocked :
  dialled (HTTPExecute String.eqb (demo_tool "writer") demo_call 0 []).2 = [[93; 184; 216; 34]]
  /\ dialled (HTTPExecute String.eqb (demo_tool "admin") demo_call 0 []).2 = [[93; 184; 216; 34]; [10; 0; 0; 5]].
Proof. vm_compute. done. Qed.

Lemma http_tool_confined_witness :
  exists resp tr', HTTPExecute String.eqb (demo_tool "writer") demo_call 0 [] = (Some resp, tr')
    /\ adds (call_ok String.eqb (demo_tool "writer") "a1") [] tr' /\ (asked tr' <= asked [] + 10)%nat.
Proof. exact (http_tool_confined String.eqb (demo_tool "writer") demo_call 0 []). Defined.

(** The name is looked up again for the connection: the second answer is not checked. *)
Definition rebinding_net : Internet :=
  demo_net (fun tr _ => Ok [if bool_decide (dialled tr = []) && negb (existsb (fun e => match e with Looked _ => true | _ => false end) tr)
                            then [93; 184; 216; 34] else [169; 254; 169; 254]])
    (fun _ => page).

Definition reader_of (sandboxID : string) : result string AgentInfo := Ok (mkAgentInfo "a1" "reader" []).

Definition proxied (net : Internet) (method url : string) : Z * list IP :=
  match url_parse url with
  | Some u => let '(status, _, tr) := ProxyServe (N := net) String.eqb DefaultPolicies reader_of "sb" EmptyString (mkHttpRequest method u [] EmptyString) [] in
              (status, dialled tr)
  | None => (0, [])
  end.

Example proxy_rebinding :
  proxied rebinding_net "GET" "http://evil.example/latest/meta-data" = (200, [[169; 254; 169; 254]])
  /\ proxied redirecting_net "GET" "http://intranet.example/" = (403, [])
  /\ proxied redirecting_net "POST" "http://public.example/" = (403, []).
Proof. vm_compute. done. Qed.

(** The proxy does not block the unspecified address of IPv6, the tools do not block the rest of the
    network 0. *)
Example blocked_lists_differ :
  isPrivateIP (repeat 0 16) = true /\ proxyIsPrivateIP (repeat 0 16) = false
  /\ isPrivateIP [0; 1; 2; 3] = false /\ proxyIsPrivateIP [0; 1; 2; 3] = true.
Proof. vm_compute. done. Qed.

(** A server that always redirects to itself *)
Definition endless_net : Internet :=
  demo_net (fun _ _ => Ok [[52; 142; 124; 215]]) (fun _ => moved "https://duckduckgo.com/html/?q=x").

Definition endless_request : HttpRequest :=
  mkHttpRequest "GET" (true, "duckduckgo.com/html/?q=x") [("User-Agent", "KyvikBrowser/1.0 (+https://kyvik)")] EmptyString.

(** Redirects are not counted in the web search: there is a server for which it never ends. *)
Theorem search_never_ends fuel tr :
  (searchWeb (N := endless_net) String.eqb fuel (Ok []) "https://duckduckgo.com/html/?q=x" tr).1 = None.
Proof.
  set (dial := fun addr (tr : list NetEvent) =>
    match SplitHostPort addr with Some (host, port) => dial_name (N := endless_net) host port tr | None => (Some "invalid address", tr) end).
  assert (forall tr, searchWeb (N := endless_net) String.eqb fuel (Ok []) "https://duckduckgo.com/html/?q=x" tr
    = client_do (N := endless_net) fuel (search_redirect String.eqb []) dial endless_request endless_request 0 (tr ++ [Looked "duckduckgo.com"])) as -> by reflexivity.
  generalize 0%nat, (tr ++ [Looked "duckduckgo.com"]). clear tr. induction fuel as [|fuel IH]; intros via tr; [done|].
  transitivity (client_do (N := endless_net) fuel (search_redirect String.eqb []) dial endless_request endless_request (S via)
    (((tr ++ [Looked "duckduckgo.com"]) ++ [Dialled [52; 142; 124; 215] "443"]) ++ [Asked endless_request])).1; [reflexivity|apply IH].
Qed.

Lemma private_ranges_exact_witness : is_address [172; 20; 1; 1] /\ (isPrivateIP [172; 20; 1; 1] = true <-> blocked_number [172; 20; 1; 1]).
Proof.
  assert (is_address [172; 20; 1; 1]) as A by (split; [bytes|by left]).
  split; [exact A|]. exact (private_ranges_exact [172; 20; 1; 1] A).
Defined.
End net_demo.
