(* ===== verification/Vault.v ===== *)
(** The vault of secrets ([internal/secrets]), the rewriting of SQL placeholders it relies on
    ([internal/sqlutil]) and the resolver start-up gives the REST tool
    ([internal/bootstrap/build.go]).

    The table is a list of rows: its uniqueness is a parameter, since the code does not rely on it.
    Encryption is a class with the law of an authenticated cipher.

    [vault_roundtrip] says that a secret that was set is read until it is set again or deleted;
    [resolve_isolated] that the secrets of other agents and teams never matter to one;
    [rest_resolver_other_scopes] that the REST tool never
    sees the secrets that are stored for an agent. *)

From S2P Require Import Prelude GoString Queue.
#[local] Open Scope Z_scope.

(** * Placeholders ([sqlutil.Rebind]) *)

(** The decimal text of a positive number *)
Fixpoint decimal_from (fuel : nat) (n : Z) (acc : string) : string :=
  match fuel with
  | O => acc
  | S fuel => let acc := String (of_byte (48 + n mod 10)) acc in if n <? 10 then acc else decimal_from fuel (n / 10) acc
  end.

Definition decimal (n : Z) : string := decimal_from 20 n EmptyString.

Definition single_quote : ascii := "'"%char.
Definition double_quote : ascii := ascii_of_nat 34.

Fixpoint rebind_from (inSingle inDouble : bool) (param : Z) (query : string) : string :=
  match query with
  | EmptyString => EmptyString
  | String ch rest =>
    if bool_decide (ch = single_quote) then String ch (rebind_from (if inDouble then inSingle else negb inSingle) inDouble param rest)
    else if bool_decide (ch = double_quote) then String ch (rebind_from inSingle (if inSingle then inDouble else negb inDouble) param rest)
    else if bool_decide (ch = "?"%char) && negb (inSingle || inDouble)
    then String "$"%char (decimal param +:+ rebind_from inSingle inDouble (param + 1) rest)
    else String ch (rebind_from inSingle inDouble param rest)
  end.

Definition Rebind (query : string) : string :=
  if negb (contains query "?") then query else rebind_from false false 1 query.

(** * Encryption ([crypto.go]) *)

Class AEAD := {
  gcm_seal : string -> string -> string -> string;          (* key, nonce, plaintext *)
  gcm_open : string -> string -> string -> option string;   (* key, nonce, ciphertext *)
}.

Class AEADLaws `{AEAD} := {
  gcm_open_seal key nonce plain : gcm_open key nonce (gcm_seal key nonce plain) = Some plain;
}.

Definition nonce_size : nat := 12.

(** The lengths [aes.NewCipher] takes *)
Definition key_ok (key : string) : bool := existsb (Nat.eqb (String.length key)) [16; 24; 32]%nat.

Inductive SecretError : Type :=
| ErrSecretNotFound
| ErrDecryptionFailed
| ErrSecret (text : string).

Section vault.
Context `{AEAD}.

(** [Encrypt], with the nonce that is drawn *)
Definition Encrypt (key nonce plaintext : string) : result SecretError string :=
  if key_ok key then Ok (nonce +:+ gcm_seal key nonce plaintext) else Err (ErrSecret "create cipher").

(** [Decrypt] *)
Definition Decrypt (key data : string) : result SecretError string :=
  if negb (key_ok key) then Err ErrDecryptionFailed
  else if (String.length data <? nonce_size)%nat then Err ErrDecryptionFailed
  else match gcm_open key (str_take nonce_size data) (str_drop nonce_size data) with
       | Some plaintext => Ok plaintext
       | None => Err ErrDecryptionFailed
       end.

(** * The table *)

Record SecretRow := mkSecretRow {
  srID : string;
  srScope : string;
  srKey : string;
  srValue : string;
  srDescription : string;
  srCreatedAt : Z;
  srUpdatedAt : Z;
}.

Record SecretMeta := mkSecretMeta {
  smID : string;
  smScope : string;
  smKey : string;
  smDescription : string;
  smCreatedAt : Z;
  smUpdatedAt : Z;
}.

(** The rows, and the entries of the audit log: action, scope and key *)
Record VaultState := mkVaultState {
  vRows : list SecretRow;
  vAudit : list (string * string * string);
}.

(** Statements that fail: by their text and the scope they are for *)
Notation VaultFailures := (string -> string -> option string).
Definition no_failures : VaultFailures := fun _ _ => None.

Definition row_is (scope key : string) (r : SecretRow) : bool := bool_decide (srScope r = scope) && bool_decide (srKey r = key).

Definition log_secret (action scope key : string) (v : VaultState) : VaultState :=
  mkVaultState (vRows v) (vAudit v ++ [(action, scope, key)]).

(** The two statements of [Set]: the rows that were changed are counted. *)
Definition update_secret (encrypted description scope key : string) (now : Z) (rows : list SecretRow) : nat * list SecretRow :=
  (length (List.filter (row_is scope key) rows),
   map (fun r => if row_is scope key r
                 then mkSecretRow (srID r) (srScope r) (srKey r) encrypted description (srCreatedAt r) (db_time now) else r) rows).

(** [unique]: whether the table has its constraint on scope and key *)
Definition insert_secret (unique : bool) (row : SecretRow) (rows : list SecretRow) : result SecretError (list SecretRow) :=
  if existsb (fun r => bool_decide (srID r = srID row) || (unique && row_is (srScope row) (srKey row) r)) rows
  then Err (ErrSecret "insert secret: pq: constraint violation")
  else Ok (rows ++ [row]).

(** [Vault.Set] *)
Definition SetSecret (unique : bool) (f : VaultFailures) (key nonce id : string) (now : Z) (scope name plaintext description : string)
    (v : VaultState) : result SecretError VaultState :=
  match Encrypt key nonce plaintext with
  | inr e => Err e
  | inl encrypted =>
    match f "update secret" scope with
    | Some e => Err (ErrSecret ("update secret: " +:+ e))
    | None =>
      let '(n, rows) := update_secret encrypted description scope name now (vRows v) in
      if (n =? 0)%nat then
        match f "insert secret" scope with
        | Some e => Err (ErrSecret ("insert secret: " +:+ e))
        | None =>
          match insert_secret unique (mkSecretRow id scope name encrypted description (db_time now) (db_time now)) rows with
          | inr e => Err e
          | inl rows => Ok (log_secret "secret.created" scope name (mkVaultState rows (vAudit v)))
          end
        end
      else Ok (log_secret "secret.created" scope name (mkVaultState rows (vAudit v)))
    end
  end.

(** [Vault.Get] *)
Definition GetSecretValue (f : VaultFailures) (key scope name : string) (v : VaultState) : result SecretError string * VaultState :=
  match f "query secret" scope with
  | Some e => (Err (ErrSecret ("query secret: " +:+ e)), v)
  | None =>
    match List.find (row_is scope name) (vRows v) with
    | None => (Err ErrSecretNotFound, v)
    | Some r =>
      match Decrypt key (srValue r) with
      | inr e => (Err e, v)
      | inl plaintext => (Ok plaintext, log_secret "secret.accessed" scope name v)
      end
    end
  end.

(** [Vault.Resolve] *)
Definition ResolveSecret (f : VaultFailures) (key agentID teamID name : string) (v : VaultState) : result SecretError string * VaultState :=
  match GetSecretValue f key ("agent:" +:+ agentID) name v with
  | (inl val, v) => (Ok val, v)
  | (inr _, v) =>
    let team := if bool_decide (teamID = EmptyString) then (Err ErrSecretNotFound, v) else GetSecretValue f key ("team:" +:+ teamID) name v in
    match team with
    | (inl val, v) => (Ok val, v)
    | (inr _, v) =>
      match GetSecretValue f key "global" name v with
      | (inl val, v) => (Ok val, v)
      | (inr _, v) => (Err ErrSecretNotFound, log_secret "secret.resolve.miss" ("agent:" +:+ agentID) name v)
      end
    end
  end.

(** [Vault.Delete] *)
Definition DeleteSecret (f : VaultFailures) (scope name : string) (v : VaultState) : result SecretError VaultState :=
  match f "delete secret" scope with
  | Some e => Err (ErrSecret ("delete secret: " +:+ e))
  | None =>
    if existsb (row_is scope name) (vRows v)
    then Ok (log_secret "secret.deleted" scope name (mkVaultState (List.filter (fun r => negb (row_is scope name r)) (vRows v)) (vAudit v)))
    else Err ErrSecretNotFound
  end.

(** [Vault.List], ordered by key *)
Fixpoint insert_by_key (m : SecretMeta) (l : list SecretMeta) : list SecretMeta :=
  match l with
  | [] => [m]
  | x :: l' => if String.leb (smKey m) (smKey x) then m :: l else x :: insert_by_key m l'
  end.

Definition ListSecrets (f : VaultFailures) (scope : string) (v : VaultState) : result SecretError (list SecretMeta) :=
  match f "query secrets" scope with
  | Some e => Err (ErrSecret ("query secrets: " +:+ e))
  | None =>
    Ok (foldr insert_by_key []
          (map (fun r => mkSecretMeta (srID r) (srScope r) (srKey r) (srDescription r) (srCreatedAt r) (srUpdatedAt r))
             (List.filter (fun r => bool_decide (srScope r = scope)) (vRows v))))
  end.

(** [Vault.Exists] *)
Definition SecretExists (f : VaultFailures) (scope name : string) (v : VaultState) : result SecretError bool :=
  match f "check secret exists" scope with
  | Some e => Err (ErrSecret ("check secret exists: " +:+ e))
  | None => Ok (existsb (row_is scope name) (vRows v))
  end.

(** The [SecretResolverFunc] of start-up, for the REST tool *)
Definition rest_secret_resolver (f : VaultFailures) (key agentID teamID name : string) (v : VaultState) : result SecretError string * VaultState :=
  match GetSecretValue f key agentID name v with
  | (inl val, v) => (Ok val, v)
  | (inr _, v) =>
    let team := if bool_decide (teamID = EmptyString) then (Err ErrSecretNotFound, v) else GetSecretValue f key teamID name v in
    match team with
    | (inl val, v) => (Ok val, v)
    | (inr _, v) => GetSecretValue f key "global" name v
    end
  end.
End vault.

Example rebind_examples :
  Rebind "SELECT a FROM t WHERE x = ? AND y = '?' AND z = ?" = "SELECT a FROM t WHERE x = $1 AND y = '?' AND z = $2"
  /\ Rebind "SELECT 1" = "SELECT 1" /\ decimal 107 = "107".
Proof. vm_compute. done. Qed.

(** The placeholders outside of quotes *)
Fixpoint placeholders (inSingle inDouble : bool) (query : string) : nat :=
  match query with
  | EmptyString => 0
  | String ch rest =>
    if bool_decide (ch = single_quote) then placeholders (if inDouble then inSingle else negb inSingle) inDouble rest
    else if bool_decide (ch = double_quote) then placeholders inSingle (if inSingle then inDouble else negb inDouble) rest
    else ((if bool_decide (ch = "?"%char) && negb (inSingle || inDouble) then 1 else 0) + placeholders inSingle inDouble rest)%nat
  end.

(** A query whose question marks are all quoted is left alone. *)
Lemma rebind_quoted q : placeholders false false q = 0%nat -> Rebind q = q.
Proof.
  assert (forall s d n, placeholders s d q = 0%nat -> rebind_from s d n q = q) as Hgen; [|intros Hq; unfold Rebind; destruct (negb _); [done|by apply Hgen]].
  induction q as [|c q IH]; intros s d n; [done|]. cbn [placeholders rebind_from].
  case_bool_decide; [intros Hq; f_equal; by apply IH|]. case_bool_decide; [intros Hq; f_equal; by apply IH|].
  destruct (_ && _); [done|]. intros Hq. f_equal. by apply IH.
Qed.

(** * The vault over time *)
Section histories.
Context `{AEADLaws}.
Notation VaultFailures := (string -> string -> option string).

Inductive VaultOp : Type :=
| VSet (key nonce id : string) (now : Z) (scope name plaintext description : string)
| VGet (key scope name : string)
| VResolve (key agentID teamID name : string)
| VDelete (scope name : string).

(** The operation on the state; what fails leaves the rows alone. *)
Definition apply_vault (unique : bool) (f : VaultFailures) (op : VaultOp) (v : VaultState) : VaultState :=
  match op with
  | VSet key nonce id now scope name plain desc =>
    match SetSecret unique f key nonce id now scope name plain desc v with inl v' => v' | inr _ => v end
  | VGet key scope name => (GetSecretValue f key scope name v).2
  | VResolve key a t name => (ResolveSecret f key a t name v).2
  | VDelete scope name => match DeleteSecret f scope name v with inl v' => v' | inr _ => v end
  end.

Definition run_vault (unique : bool) (ops : list (VaultFailures * VaultOp)) (v : VaultState) : VaultState :=
  fold_left (fun v o => apply_vault unique o.1 o.2 v) ops v.

(** The operation does not change the secret [name] of [scope]. *)
Definition spares (scope name : string) (op : VaultOp) : Prop :=
  match op with VSet _ _ _ _ s n _ _ | VDelete s n => (s, n) <> (scope, name) | _ => True end.

Lemma row_is_true s n r : row_is s n r = true <-> srScope r = s /\ srKey r = n.
Proof. unfold row_is. by rewrite andb_true_iff, !bool_decide_eq_true. Qed.

Lemma get_rows (f : VaultFailures) key s n v : vRows (GetSecretValue f key s n v).2 = vRows v.
Proof. unfold GetSecretValue. destruct (f _ _); [done|]. destruct (List.find _ _); [|done]. by destruct (Decrypt _ _). Qed.

Lemma get_result (f : VaultFailures) key s n v w :
  List.find (row_is s n) (vRows v) = List.find (row_is s n) (vRows w) ->
  (GetSecretValue f key s n v).1 = (GetSecretValue f key s n w).1.
Proof. intros E. unfold GetSecretValue. destruct (f _ _); [done|]. rewrite E. destruct (List.find _ (vRows w)); [|done]. by destruct (Decrypt _ _). Qed.

Lemma resolve_rows (f : VaultFailures) key a t n v : vRows (ResolveSecret f key a t n v).2 = vRows v.
Proof.
  unfold ResolveSecret. pose proof (get_rows f key ("agent:" +:+ a) n v) as E1.
  destruct (GetSecretValue f key ("agent:" +:+ a) n v) as [[x|e] v1]; [done|]. simpl in E1.
  assert (vRows (if bool_decide (t = EmptyString) then (@Err SecretError string ErrSecretNotFound, v1) else GetSecretValue f key ("team:" +:+ t) n v1).2 = vRows v) as E2
    by (case_bool_decide; [done|by rewrite get_rows]).
  destruct (if bool_decide _ then _ else _) as [[x|e2] v2]; [done|]. simpl in E2.
  pose proof (get_rows f key "global" n v2) as E3. destruct (GetSecretValue f key "global" n v2) as [[x|e3] v3]; simpl in *; congruence.
Qed.

Lemma find_map_other s n (g : SecretRow -> SecretRow) rows :
  (forall r, srScope (g r) = srScope r /\ srKey (g r) = srKey r) -> (forall r, row_is s n r = true -> g r = r) ->
  List.find (row_is s n) (map g rows) = List.find (row_is s n) rows.
Proof.
  intros Hg Hid. induction rows as [|r rows IH]; [done|]. simpl.
  assert (row_is s n (g r) = row_is s n r) as -> by (unfold row_is; by destruct (Hg r) as [-> ->]).
  destruct (row_is s n r) eqn:E; [by rewrite Hid|done].
Qed.

Lemma find_app_other s n rows r : row_is s n r = false -> List.find (row_is s n) (rows ++ [r]) = List.find (row_is s n) rows.
Proof. intros E. induction rows as [|x rows IH]; simpl; [by rewrite E|]. by rewrite IH. Qed.

Lemma find_filter_other s n (p : SecretRow -> bool) rows :
  (forall r, row_is s n r = true -> p r = true) -> List.find (row_is s n) (List.filter p rows) = List.find (row_is s n) rows.
Proof.
  intros Hp. induction rows as [|r rows IH]; [done|]. simpl. destruct (row_is s n r) eqn:E.
  - rewrite (Hp r E). simpl. by rewrite E.
  - destruct (p r); simpl; [by rewrite E|done].
Qed.

Lemma row_is_other s n s' n' r : (s', n') <> (s, n) -> row_is s n r = true -> row_is s' n' r = false.
Proof.
  intros Hne Hr. destruct (row_is s' n' r) eqn:E; [|done]. apply row_is_true in Hr as [<- <-], E as [<- <-]. done.
Qed.

(** An operation leaves the rows of the secrets it is not about. *)
Lemma vault_step unique (f : VaultFailures) op v s n :
  spares s n op -> List.find (row_is s n) (vRows (apply_vault unique f op v)) = List.find (row_is s n) (vRows v).
Proof.
  destruct op as [key nonce id now s' n' plain desc|key s' n'|key a t n'|s' n']; intros Hs; simpl; [|by rewrite get_rows|by rewrite resolve_rows|].
  - unfold SetSecret. destruct (Encrypt key nonce plain) as [enc|]; [|done]. destruct (f _ _); [done|]. simpl.
    assert (forall r, row_is s n r = true -> (if row_is s' n' r then mkSecretRow (srID r) (srScope r) (srKey r) enc desc (srCreatedAt r) (db_time now) else r) = r) as Hkeep
      by (intros r Hr; by rewrite (row_is_other s n s' n' r)).
    set (g := fun r => if row_is s' n' r then mkSecretRow (srID r) (srScope r) (srKey r) enc desc (srCreatedAt r) (db_time now) else r) in *.
    assert (List.find (row_is s n) (map g (vRows v)) = List.find (row_is s n) (vRows v)) as Hm.
    { apply find_map_other; [|done]. intros r. unfold g. by destruct (row_is s' n' r). }
    destruct (_ =? 0)%nat; [|done]. destruct (f _ _); [done|]. unfold insert_secret. destruct (existsb _ _); [done|]. simpl.
    rewrite find_app_other; [done|]. destruct (row_is s n _) eqn:E; [|done]. apply row_is_true in E as [? ?]. simpl in *. subst. done.
  - unfold DeleteSecret. destruct (f _ _); [done|]. destruct (existsb _ _); [|done]. simpl. apply find_filter_other.
    intros r Hr. by rewrite (row_is_other s n s' n' r).
Qed.

Lemma vault_run unique ops v s n :
  Forall (fun o => spares s n o.2) ops -> List.find (row_is s n) (vRows (run_vault unique ops v)) = List.find (row_is s n) (vRows v).
Proof.
  intros Hops. unfold run_vault. revert v. induction Hops as [|o ops Ho _ IH]; intros v; simpl; [done|].
  rewrite IH. by apply vault_step.
Qed.

Lemma decrypt_encrypt key nonce plain enc :
  String.length nonce = nonce_size -> Encrypt key nonce plain = inl enc -> Decrypt key enc = inl plain.
Proof.
  intros Hn. unfold Encrypt, Decrypt. destruct (key_ok key); [|done]. intros [= <-]. cbn [negb].
  rewrite str_length_app, Hn. destruct (Nat.ltb_spec (nonce_size + String.length (gcm_seal key nonce plain)) nonce_size); [lia|].
  rewrite <- Hn, str_take_app, str_drop_app, gcm_open_seal. done.
Qed.

Lemma find_map_set s n (g : SecretRow -> SecretRow) enc rows :
  (forall r, srScope (g r) = srScope r /\ srKey (g r) = srKey r) -> (forall r, row_is s n r = true -> srValue (g r) = enc) ->
  List.filter (row_is s n) rows <> [] -> exists r, List.find (row_is s n) (map g rows) = Some r /\ srValue r = enc.
Proof.
  intros Hg Hv. induction rows as [|r rows IH]; [done|]. simpl.
  assert (row_is s n (g r) = row_is s n r) as -> by (unfold row_is; by destruct (Hg r) as [-> ->]).
  destruct (row_is s n r) eqn:E; [intros _; exists (g r); auto|apply IH].
Qed.

Lemma set_stores unique (f : VaultFailures) key nonce id now s n plain desc v v' :
  SetSecret unique f key nonce id now s n plain desc v = inl v' ->
  exists enc r, Encrypt key nonce plain = inl enc /\ List.find (row_is s n) (vRows v') = Some r /\ srValue r = enc.
Proof.
  unfold SetSecret. destruct (Encrypt key nonce plain) as [enc|]; [|done]. destruct (f _ _); [done|]. simpl.
  set (g := fun r => if row_is s n r then mkSecretRow (srID r) (srScope r) (srKey r) enc desc (srCreatedAt r) (db_time now) else r).
  assert (forall r, srScope (g r) = srScope r /\ srKey (g r) = srKey r) as Hg by (intros r; unfold g; by destruct (row_is s n r)).
  assert (forall r, row_is s n r = true -> srValue (g r) = enc) as Hv by (intros r Hr; unfold g; by rewrite Hr).
  destruct (Nat.eqb_spec (length (List.filter (row_is s n) (vRows v))) 0) as [E0|E0].
  - destruct (f _ _); [done|]. unfold insert_secret. destruct (existsb _ _); [done|]. intros [= <-]. simpl.
    apply length_zero_iff_nil in E0. exists enc, (mkSecretRow id s n enc desc (db_time now) (db_time now)). split; [done|]. split; [|done].
    assert (List.find (row_is s n) (map g (vRows v)) = None) as Hnone.
    { destruct (List.find (row_is s n) (map g (vRows v))) as [r|] eqn:F; [|done]. apply find_elem_Some in F as [Hin Hr].
      apply list_elem_of_In, in_map_iff in Hin as (x & <- & Hx). assert (x ∈ List.filter (row_is s n) (vRows v)) as Hx'; [|by rewrite E0 in Hx'; apply elem_of_nil in Hx'].
      apply filter_elem. split; [by apply list_elem_of_In|]. revert Hr. unfold row_is. by destruct (Hg x) as [-> ->]. }
    revert Hnone. generalize (map g (vRows v)). intros rows. induction rows as [|x rows IH]; simpl.
    + intros _. unfold row_is at 1. simpl. by rewrite !bool_decide_eq_true_2.
    + destruct (row_is s n x); [done|apply IH].
  - intros [= <-]. simpl. destruct (find_map_set s n g enc (vRows v) Hg Hv) as (r & Hr & Er); [|by exists enc, r].
    intros E. by rewrite E in E0.
Qed.

(** C37: a secret that was set is read back with the key it was set with, whatever is done to other secrets and
    whatever statements fail in between. *)
Theorem vault_roundtrip unique (f : VaultFailures) key nonce id now scope name plain desc v v' ops :
  SetSecret unique f key nonce id now scope name plain desc v = inl v' -> String.length nonce = nonce_size ->
  Forall (fun o => spares scope name o.2) ops ->
  (GetSecretValue no_failures key scope name (run_vault unique ops v')).1 = Ok plain.
Proof.
  intros (enc & r & Henc & Hr & Hv)%set_stores Hn Hops. unfold GetSecretValue. simpl.
  rewrite (vault_run unique ops v' scope name Hops), Hr, Hv. by rewrite (decrypt_encrypt key nonce plain enc Hn Henc).
Qed.

(** What one agent of a team resolves depends on three scopes. *)
Definition scopes_of (agentID teamID : string) : list string := ["agent:" +:+ agentID; "team:" +:+ teamID; "global"].

Lemma resolve_rows_only (f : VaultFailures) key a t name v w :
  (forall s, s ∈ scopes_of a t -> List.find (row_is s name) (vRows v) = List.find (row_is s name) (vRows w)) ->
  (ResolveSecret f key a t name v).1 = (ResolveSecret f key a t name w).1.
Proof.
  intros Hs.
  assert (forall s v1 w1, s ∈ scopes_of a t -> vRows v1 = vRows v -> vRows w1 = vRows w ->
    (GetSecretValue f key s name v1).1 = (GetSecretValue f key s name w1).1
    /\ vRows (GetSecretValue f key s name v1).2 = vRows v /\ vRows (GetSecretValue f key s name w1).2 = vRows w) as Hget.
  { intros s v1 w1 Hin Ev Ew. rewrite !get_rows. split_and!; [|done..]. apply get_result. rewrite Ev, Ew. by apply Hs. }
  unfold ResolveSecret.
  destruct (Hget ("agent:" +:+ a) v w) as (E1 & V1 & W1); [set_solver|done..|].
  destruct (GetSecretValue f key ("agent:" +:+ a) name v) as [x1 v1], (GetSecretValue f key ("agent:" +:+ a) name w) as [y1 w1]. simpl in *. subst y1.
  destruct x1; [done|]. case_bool_decide.
  - destruct (Hget "global" v1 w1) as (E3 & _ & _); [set_solver|done..|].
    destruct (GetSecretValue f key "global" name v1) as [x3 v3], (GetSecretValue f key "global" name w1) as [y3 w3]. simpl in *. subst y3. by destruct x3.
  - destruct (Hget ("team:" +:+ t) v1 w1) as (E2 & V2 & W2); [set_solver|done..|].
    destruct (GetSecretValue f key ("team:" +:+ t) name v1) as [x2 v2], (GetSecretValue f key ("team:" +:+ t) name w1) as [y2 w2]. simpl in *. subst y2.
    destruct x2; [done|]. destruct (Hget "global" v2 w2) as (E3 & _ & _); [set_solver|done..|].
    destruct (GetSecretValue f key "global" name v2) as [x3 v3], (GetSecretValue f key "global" name w2) as [y3 w3]. simpl in *. subst y3. by destruct x3.
Qed.

(** C26: what an agent resolves does not depend on the secrets of other agents and teams: no operation on them
    changes it. *)
Theorem resolve_isolated unique ops (f : VaultFailures) key agentID teamID name v :
  Forall (fun o => forall s n, s ∈ scopes_of agentID teamID -> spares s n o.2) ops ->
  (ResolveSecret f key agentID teamID name (run_vault unique ops v)).1 = (ResolveSecret f key agentID teamID name v).1.
Proof.
  intros Hops. apply resolve_rows_only. intros s Hs. apply vault_run. eapply Forall_impl; [exact Hops|]. intros o Ho. by apply Ho.
Qed.

(** The resolver of the REST tool looks the identifiers up as scopes: what is stored for the agent
    makes no difference. *)
Lemma rest_resolver_other_scopes unique ops (f : VaultFailures) key agentID teamID name v :
  agentID <> "global" -> teamID <> "agent:" +:+ agentID ->
  Forall (fun o => exists key' nonce id now n plain desc, o.2 = VSet key' nonce id now ("agent:" +:+ agentID) n plain desc) ops ->
  (rest_secret_resolver f key agentID teamID name (run_vault unique ops v)).1 = (rest_secret_resolver f key agentID teamID name v).1.
Proof.
  intros Hglobal Hteam Hops.
  assert (forall s, s <> "agent:" +:+ agentID -> List.find (row_is s name) (vRows (run_vault unique ops v)) = List.find (row_is s name) (vRows v)) as Hs.
  { intros s Hne. apply vault_run. eapply Forall_impl; [exact Hops|]. intros o (k & no & id & now & n & p & d & ->). simpl. congruence. }
  assert (agentID <> "agent:" +:+ agentID) as Hself by (intros E; apply (f_equal String.length) in E; rewrite str_length_app in E; simpl in E; lia).
  set (w := run_vault unique ops v) in *.
  assert (forall s v1 w1, s <> "agent:" +:+ agentID -> vRows v1 = vRows v -> vRows w1 = vRows w ->
    (GetSecretValue f key s name w1).1 = (GetSecretValue f key s name v1).1
    /\ vRows (GetSecretValue f key s name w1).2 = vRows w /\ vRows (GetSecretValue f key s name v1).2 = vRows v) as Hget.
  { intros s v1 w1 Hne Ev Ew. rewrite !get_rows. split_and!; [|done..]. apply get_result. rewrite Ev, Ew. by apply Hs. }
  unfold rest_secret_resolver. destruct (Hget agentID v w) as (E1 & W1 & V1); [done..|].
  destruct (GetSecretValue f key agentID name w) as [x1 w1], (GetSecretValue f key agentID name v) as [y1 v1]. simpl in *. subst y1.
  destruct x1; [done|]. case_bool_decide; [by apply Hget|].
  destruct (Hget teamID v1 w1) as (E2 & W2 & V2); [done..|].
  destruct (GetSecretValue f key teamID name w1) as [x2 w2], (GetSecretValue f key teamID name v1) as [y2 v2]. simpl in *. subst y2.
  destruct x2; [done|]. by apply Hget.
Qed.
End histories.

(** * A vault *)
Section vault_demo.
(** A cipher that puts the key in front *)
#[local] Instance plain_cipher : AEAD := {| gcm_seal key _ plain := key +:+ plain; gcm_open key _ c := strip_prefix key c |}.
#[local] Instance plain_cipher_laws : AEADLaws.
Proof. split. intros key nonce plain. by apply strip_prefix_spec. Qed.

Definition key1 : string := "0123456789abcdef0123456789abcdef".
Definition key2 : string := "fedcba9876543210fedcba9876543210".
Definition nonce1 : string := "nonce-nonce-".

Definition set_demo (key id scope value : string) (v : VaultState) : VaultState :=
  match SetSecret true no_failures key nonce1 id 0 scope "token" value EmptyString v with inl v' => v' | inr _ => v end.

Definition demo_vault : VaultState :=
  set_demo key1 "s2" "agent:a1" "own" (set_demo key1 "s1" "global" "shared" (mkVaultState [] [])).

(** A secret that cannot be read, for a changed key or a failing statement, is passed over: the
    agent silently gets the shared one. *)
Example unreadable_falls_through :
  (ResolveSecret no_failures key1 "a1" EmptyString "token" demo_vault).1 = Ok "own"
  /\ (ResolveSecret (fun _ scope => if bool_decide (scope = "agent:a1") then Some "timeout" else None) key1 "a1" EmptyString "token" demo_vault).1 = Ok "shared"
  /\ (ResolveSecret no_failures key2 "a1" EmptyString "token" (set_demo key2 "s1" "global" "shared" demo_vault)).1 = Ok "shared".
Proof. vm_compute. done. Qed.

(** The resolver of the REST tool gives the shared secret to an agent that has its own. *)
Example rest_resolver_misses :
  (rest_secret_resolver no_failures key1 "a1" EmptyString "token" demo_vault).1 = Ok "shared".
Proof. vm_compute. done. Qed.

(** Two first calls that both find nothing to update insert twice: without the constraint the secret has
    two rows, with it one of the calls fails. *)
Definition racing_rows (unique : bool) : list (result SecretError (list SecretRow)) :=
  let row id value := mkSecretRow id "global" "token" value EmptyString 0 0 in
  let first := insert_secret unique (row "s1" "v1") (update_secret "v1" EmptyString "global" "token" 0 []).2 in
  [first; match first with inl rows => insert_secret unique (row "s2" "v2") rows | e => e end].

Example racing_sets :
  map (fun r => match r with inl rows => length rows | inr _ => 0%nat end) (racing_rows false) = [1; 2]%nat
  /\ map (fun r => match r with inl rows => length rows | inr _ => 0%nat end) (racing_rows true) = [1; 0]%nat.
Proof. vm_compute. done. Qed.

Definition other_ops : list ((string -> string -> option string) * VaultOp) :=
  [(no_failures, VSet key1 nonce1 "s3" 5 "agent:a2" "token" "other" EmptyString); (no_failures, VDelete "agent:a2" "token");
   (no_failures, VResolve key1 "a2" "t1" "token")].

Lemma vault_roundtrip_witness :
  exists v', SetSecret true no_failures key1 nonce1 "s9" 1 "agent:a1" "token" "new" EmptyString demo_vault = inl v'
    /\ (GetSecretValue no_failures key1 "agent:a1" "token" (run_vault true other_ops v')).1 = Ok "new".
Proof.
  eexists. split; [reflexivity|].
  apply (vault_roundtrip true no_failures key1 nonce1 "s9" 1 "agent:a1" "token" "new" EmptyString demo_vault); [reflexivity|reflexivity|].
  unfold other_ops. repeat (apply Forall_cons; split; [simpl; try (intros E; discriminate E); exact I|]). apply Forall_nil_2.
Defined.

Lemma resolve_isolated_witness :
  (ResolveSecret no_failures key1 "a1" "t9" "token" (run_vault true other_ops demo_vault)).1
  = (ResolveSecret no_failures key1 "a1" "t9" "token" demo_vault).1.
Proof.
  apply (resolve_isolated true other_ops no_failures key1 "a1" "t9" "token" demo_vault).
  unfold other_ops, scopes_of. repeat (apply Forall_cons; split).
  all: try apply Forall_nil_2.
  all: intros s n Hs; simpl; try exact I.
  all: intros E; injection E as <- <-; repeat (apply elem_of_cons in Hs as [Hs|Hs]; [discriminate Hs|]); by apply elem_of_nil in Hs.
Defined.
End vault_demo.
