(* ===== verification/Webhooks.v ===== *)
(** Inbound webhooks ([internal/webhooks/inbound.go]): the handler with its pipeline of checks, in the
    order of the code, over the vault that keeps the secrets.

    [inbound_accepted_iff] says exactly which requests become a message of the agent;
    [inbound_rate_bounded] that an agent gets no more of them in a minute than its limiter allows;
    [form_body_ignored] that the body of a form never reaches the agent. *)

From S2P Require Import Prelude GoString GoNet Queue Vault.
#[local] Open Scope Z_scope.

(** * Data *)

(** [types.InboundWebhookConfig] *)
Record InboundWebhookConfig := mkInboundWebhookConfig {
  iwEnabled : bool;
  iwAllowedSources : list string;
  iwRateLimit : Z;
  iwTransformTemplate : string;
  iwSignatureHeader : string;
  iwMaxPayloadBytes : Z;
}.

Definition defaultRateLimit : Z := 60.
Definition defaultMaxPayload : Z := 1048576.
Definition SecretVaultKey : string := "webhook_inbound_secret".
Definition HMACVaultKey : string := "webhook_inbound_hmac_secret".
Definition rateLimitWindowSecs : Z := 60.

(** A request: reading the body may fail. *)
Record HookRequest := mkHookRequest {
  hqMethod : string;
  hqAgentID : string;
  hqSecret : string;
  hqHeader : string -> string;
  hqRemoteAddr : string;
  hqQuery : string;
  hqBody : option string;
}.

Record agentLimiter := mkagentLimiter {
  limWindow : list Z;
  limMaxReqs : Z;
}.

(** An entry of the audit log: agent, source, size, decision, reason *)
Record DeliveryEntry := mkDeliveryEntry {
  deAgentID : string;
  deSourceIP : string;
  dePayloadSize : Z;
  deDecision : string;
  deReason : string;
}.

(** The handler's limiters, what it logged, and the messages that were queued: agent and text *)
Record HookState := mkHookState {
  hsLimiters : gmap string agentLimiter;
  hsAudit : list DeliveryEntry;
  hsSent : list (string * string);
}.

(** What is used of the decoding of payloads and of templates.  [form_values] are the values of the
    query and of what is left of the body. *)
Class Payloads := {
  Payload : Type;
  no_payload : Payload;
  json_object : string -> option Payload;
  form_values : string -> string -> string -> option Payload;     (* content type, query, body *)
  indented : Payload -> string;
  run_template : string -> Payload -> result string string;
}.

(** HMAC-SHA256 as hexadecimal text: secret, then body *)
Class HMAC := { hmac_hex : string -> string -> string }.

(** * Helpers *)

(** The first part of [strings.SplitN(s, ",", 2)] *)
Definition first_part (s : string) : string := (cut s ",").1.1.

(** [extractIP] *)
Definition extractIP (r : HookRequest) : string :=
  let fwd := hqHeader r "X-Forwarded-For" in
  if negb (bool_decide (fwd = EmptyString)) then trim_space (first_part fwd)
  else match SplitHostPort (hqRemoteAddr r) with Some (host, _) => host | None => hqRemoteAddr r end.

(** [checkIPAllowlist] *)
Definition checkIPAllowlist (sourceIP : string) (allowlist : list string) : bool :=
  bool_decide (allowlist = [])
  || existsb (fun entry =>
       if contains entry "/" then
         match ParseCIDR entry, ParseIP sourceIP with Some cidr, Some ip => Contains cidr ip | _, _ => false end
       else bool_decide (entry = sourceIP)) allowlist.

Section helpers.
Context `{HMAC, Payloads}.

(** [ComputeHMAC] and [verifyHMAC] *)
Definition ComputeHMAC (body secret : string) : string := "sha256=" +:+ hmac_hex secret body.

Definition verifyHMAC (body secret sig : string) : bool :=
  bool_decide (match strip_prefix "sha256=" sig with Some r => r | None => sig end = hmac_hex secret body).

(** [buildMessageContent]: the body was read before, so nothing is left of it for the form. *)
Definition buildMessageContent (contentType query body tmpl : string) : result string string :=
  let finish data :=
    if bool_decide (tmpl = EmptyString) then Ok (indented data) else run_template tmpl data in
  if has_prefix contentType "application/json" then
    match json_object body with None => Err "invalid JSON" | Some data => finish data end
  else if has_prefix contentType "application/x-www-form-urlencoded" || has_prefix contentType "multipart/form-data" then
    match form_values contentType query EmptyString with None => Err "invalid form" | Some data => finish data end
  else match json_object body with None => Ok body | Some data => finish data end.
End helpers.

(** [io.ReadAll] of [io.LimitReader] *)
Definition limit_read (limit : Z) (body : string) : string :=
  if Z.of_nat (String.length body) <=? limit then body else str_take (Z.to_nat limit) body.

(** The entries that are left of a window *)
Fixpoint evict (cutoff : Z) (window : list Z) : list Z :=
  match window with
  | [] => []
  | t :: window' => if t <? cutoff then evict cutoff window' else window
  end.

Definition limiter_step (now : Z) (lim : agentLimiter) : bool * agentLimiter :=
  let window := evict (now - rateLimitWindowSecs * second) (limWindow lim) in
  if limMaxReqs lim <=? Z.of_nat (length window) then (false, mkagentLimiter window (limMaxReqs lim))
  else (true, mkagentLimiter (window ++ [now]) (limMaxReqs lim)).

(** [allowRequest] *)
Definition allowRequest (agentID : string) (limit now : Z) (s : HookState) : bool * HookState :=
  let lim := default (mkagentLimiter [] limit) (hsLimiters s !! agentID) in
  let '(ok, lim') := limiter_step now lim in
  (ok, mkHookState (<[agentID := lim']> (hsLimiters s)) (hsAudit s) (hsSent s)).

Definition logDelivery (agentID sourceIP : string) (size : Z) (decision reason : string) (s : HookState) : HookState :=
  mkHookState (hsLimiters s) (hsAudit s ++ [mkDeliveryEntry agentID sourceIP size decision reason]) (hsSent s).

(** * The handler *)
Section handler.
Context `{AEAD, HMAC, Payloads}.
Notation VaultFailures := (string -> string -> option string).

(** What it runs against: the agents, the key of the vault, and the queue of messages, which may refuse *)
Record HookEnv := mkHookEnv {
  heAgent : string -> option (option InboundWebhookConfig);
  heFailures : VaultFailures;
  heKey : string;
  heSend : string -> string -> option string;
}.

(** [GenerateSecret] and [GetSecret]; [raw] is the hexadecimal text that is drawn. *)
Definition GenerateSecret (unique : bool) (f : VaultFailures) (key nonce id raw agentID : string) (now : Z) (v : VaultState)
    : result SecretError (string * VaultState) :=
  match SetSecret unique f key nonce id now ("agent:" +:+ agentID) SecretVaultKey raw "inbound webhook URL secret" v with
  | inr e => Err e
  | inl v' => Ok (raw, v')
  end.

Definition GetInboundSecret (f : VaultFailures) (key agentID : string) (v : VaultState) : result SecretError string * VaultState :=
  match GetSecretValue f key ("agent:" +:+ agentID) SecretVaultKey v with
  | (inr e, v) =>
    let missing := match e with ErrSecretNotFound => true | ErrDecryptionFailed => false | ErrSecret text => contains text "not found" end in
    (if missing then Ok EmptyString else Err e, v)
  | r => r
  end.

(** The check of the signature: whether the request is refused *)
Definition signature_refused (env : HookEnv) (wh : InboundWebhookConfig) (r : HookRequest) (body : string) (v : VaultState) : bool * VaultState :=
  if bool_decide (iwSignatureHeader wh = EmptyString) then (false, v)
  else match GetSecretValue (heFailures env) (heKey env) ("agent:" +:+ hqAgentID r) HMACVaultKey v with
       | (inr _, v) => (false, v)
       | (inl secret, v) =>
         (negb (bool_decide (secret = EmptyString)) && negb (verifyHMAC body secret (hqHeader r (iwSignatureHeader wh))), v)
       end.

(** The last steps of [ServeHTTP]: the body, its signature, the message *)
Definition serve_payload (env : HookEnv) (wh : InboundWebhookConfig) (r : HookRequest) (sourceIP : string) (s : HookState) (v : VaultState)
    : Z * HookState * VaultState :=
  let agentID := hqAgentID r in
  let maxBytes := if iwMaxPayloadBytes wh <=? 0 then defaultMaxPayload else iwMaxPayloadBytes wh in
  match hqBody r with
  | None => (400, s, v)
  | Some sent =>
    let body := limit_read (wrap64 (maxBytes + 1)) sent in
    let size := Z.of_nat (String.length body) in
    if maxBytes <? size then (413, s, v)
    else
      let '(refused, v) := signature_refused env wh r body v in
      if refused then (401, logDelivery agentID sourceIP size "rejected" "invalid signature" s, v)
      else match buildMessageContent (hqHeader r "Content-Type") (hqQuery r) body (iwTransformTemplate wh) with
      | inr e => (400, logDelivery agentID sourceIP size "rejected" ("parse error: " +:+ e) s, v)
      | inl content =>
        match heSend env agentID content with
        | Some _ => (503, s, v)
        | None =>
          let s := mkHookState (hsLimiters s) (hsAudit s) (hsSent s ++ [(agentID, content)]) in
          (200, logDelivery agentID sourceIP size "accepted" EmptyString s, v)
        end
      end
  end.

(** [ServeHTTP]: the status, the handler's state and the vault *)
Definition ServeHook (env : HookEnv) (r : HookRequest) (now : Z) (s : HookState) (v : VaultState) : Z * HookState * VaultState :=
  if negb (bool_decide (hqMethod r = "POST")) then (405, s, v)
  else
    let agentID := hqAgentID r in
    let sourceIP := extractIP r in
    match heAgent env agentID with
    | None | Some None => (401, s, v)
    | Some (Some wh) =>
      if negb (iwEnabled wh) then (401, s, v)
      else
        let '(vaultSecret, v) := GetSecretValue (heFailures env) (heKey env) ("agent:" +:+ agentID) SecretVaultKey v in
        if match vaultSecret with inl x => negb (bool_decide (hqSecret r = x)) | inr _ => true end
        then (401, logDelivery agentID sourceIP 0 "rejected" "invalid secret" s, v)
        else if negb (checkIPAllowlist sourceIP (iwAllowedSources wh))
        then (403, logDelivery agentID sourceIP 0 "rejected" "ip not allowed" s, v)
        else
          let limit := if iwRateLimit wh <=? 0 then defaultRateLimit else iwRateLimit wh in
          let '(ok, s) := allowRequest agentID limit now s in
          if negb ok then (429, logDelivery agentID sourceIP 0 "rate_limited" "rate limit exceeded" s, v)
          else
            serve_payload env wh r sourceIP s v
    end.
End handler.

(** * Which requests become messages *)

Lemma limit_read_short (m : Z) (body : string) :
  0 <= m < max_int64 ->
  let read := limit_read (wrap64 (m + 1)) body in
  if m <? Z.of_nat (String.length body) then m < Z.of_nat (String.length read) else read = body.
Proof.
  intros Hm read. subst read. rewrite wrap64_id by (unfold in_int64, min_int64, max_int64 in *; lia). unfold limit_read.
  destruct (Z.ltb_spec m (Z.of_nat (String.length body))) as [Hl|Hl], (Z.leb_spec (Z.of_nat (String.length body)) (m + 1)); try done; try lia.
  rewrite str_length_take by lia. lia.
Qed.

(** Independent readings of the checks *)

(** Where the request says it comes from: what is before the first comma of the header a proxy sets, or else the
    host of the address it came from.  Anybody can set the header. *)
Definition claims_source (r : HookRequest) (ip : string) : Prop :=
  let fwd := hqHeader r "X-Forwarded-For" in
  (exists first, fwd <> EmptyString /\ stands_before "," fwd first /\ ip = trim_space first)
  \/ (fwd = EmptyString
      /\ ((exists port, SplitHostPort (hqRemoteAddr r) = Some (ip, port)) \/ (SplitHostPort (hqRemoteAddr r) = None /\ ip = hqRemoteAddr r))).

(** A source is on a list that names it or a network it is in; on an empty list there is every source. *)
Definition listed (ip : string) (allowlist : list string) : Prop :=
  allowlist = []
  \/ (ip ∈ allowlist /\ contains ip "/" = false)
  \/ exists entry cidr addr, entry ∈ allowlist /\ contains entry "/" = true /\ ParseCIDR entry = Some cidr
       /\ ParseIP ip = Some addr /\ Contains cidr addr = true.

(** Fewer requests than the limit of the limiter (the one it was made with) are left in the window, once those
    older than a minute at its front are gone. *)
Definition under_limit (agentID : string) (limit now : Z) (s : HookState) : Prop :=
  let lim := default (mkagentLimiter [] limit) (hsLimiters s !! agentID) in
  exists old recent, limWindow lim = old ++ recent /\ Forall (fun t => t < now - 60 * second) old
    /\ (forall t, head recent = Some t -> now - 60 * second <= t) /\ Z.of_nat (length recent) < limMaxReqs lim.

Lemma claims_source_spec (r : HookRequest) (ip : string) : claims_source r ip <-> ip = extractIP r.
Proof.
  unfold claims_source, extractIP. case_bool_decide as Hf; cbn [negb].
  - rewrite Hf. split.
    + intros [(? & ? & _)|(_ & [(port & ->)|(-> & ->)])]; done.
    + intros ->. right. split; [done|]. destruct (SplitHostPort (hqRemoteAddr r)) as [[host port]|]; [left; by exists port|by right].
  - split.
    + intros [(first & _ & ->%stands_before_spec & ->)|(? & _)]; done.
    + intros ->. left. exists (first_part (hqHeader r "X-Forwarded-For")). split_and!; [done|by apply stands_before_spec|done].
Qed.

Lemma listed_spec (ip : string) (allowlist : list string) : checkIPAllowlist ip allowlist = true <-> listed ip allowlist.
Proof.
  unfold checkIPAllowlist, listed. rewrite orb_true_iff, bool_decide_eq_true, existsb_elem. split.
  - intros [->|(entry & Hin & Hc)]; [by left|right]. destruct (contains entry "/") eqn:Hs.
    + right. destruct (ParseCIDR entry) as [cidr|] eqn:Hp; [|done]. destruct (ParseIP ip) as [addr|] eqn:Ha; [|done]. by exists entry, cidr, addr.
    + apply bool_decide_eq_true in Hc as <-. by left.
  - intros [->|[[Hin Hs]|(entry & cidr & addr & Hin & Hs & Hp & Ha & Hc)]]; [by left|right..].
    + exists ip. rewrite Hs. split; [done|]. by apply bool_decide_eq_true.
    + exists entry. by rewrite Hs, Hp, Ha.
Qed.

(** What is left of a window: the oldest go as long as they are too old. *)
Lemma evict_split (cutoff : Z) (w : list Z) :
  exists old, w = old ++ evict cutoff w /\ Forall (fun t => t < cutoff) old /\ forall t, head (evict cutoff w) = Some t -> cutoff <= t.
Proof.
  induction w as [|t w (old & E & Ho & Hr)]; [by exists []|]. simpl. destruct (Z.ltb_spec t cutoff) as [Ht|Ht].
  - exists (t :: old). split_and!; [by rewrite E at 1|by constructor|done].
  - exists []. split_and!; [done|constructor|by intros x [= <-]].
Qed.

Lemma evict_unique (cutoff : Z) (old recent : list Z) :
  Forall (fun t => t < cutoff) old -> (forall t, head recent = Some t -> cutoff <= t) -> evict cutoff (old ++ recent) = recent.
Proof.
  intros Ho Hr. induction Ho as [|t old Ht _ IH]; simpl.
  - destruct recent as [|t recent]; [done|]. simpl. specialize (Hr t eq_refl). destruct (Z.ltb_spec t cutoff); [lia|done].
  - destruct (Z.ltb_spec t cutoff); [done|lia].
Qed.

Lemma under_limit_spec (agentID : string) (limit now : Z) (s : HookState) :
  (allowRequest agentID limit now s).1 = true <-> under_limit agentID limit now s.
Proof.
  unfold allowRequest, under_limit. cbv zeta. generalize (default (mkagentLimiter [] limit) (hsLimiters s !! agentID)). intros lim.
  unfold limiter_step, rateLimitWindowSecs. destruct (evict_split (now - 60 * second) (limWindow lim)) as (old & E & Ho & Hr).
  destruct (Z.leb_spec (limMaxReqs lim) (Z.of_nat (length (evict (now - 60 * second) (limWindow lim))))) as [Hl|Hl]; simpl.
  - split; [done|]. intros (old' & recent & E' & Ho' & Hr' & Hn). rewrite E', evict_unique in Hl by done. lia.
  - split; [|done]. intros _. by exists old, (evict (now - 60 * second) (limWindow lim)).
Qed.

Section accepted.
Context `{AEAD, HMAC, Payloads}.

Definition max_payload (wh : InboundWebhookConfig) : Z :=
  if iwMaxPayloadBytes wh <=? 0 then defaultMaxPayload else iwMaxPayloadBytes wh.

Definition rate_limit (wh : InboundWebhookConfig) : Z := if iwRateLimit wh <=? 0 then defaultRateLimit else iwRateLimit wh.

(** The text of a signature is the hash of the body, with or without the name of the hash before it. *)
Definition signs (body secret sig : string) : Prop :=
  sig = "sha256=" +:+ hmac_hex secret body \/ (sig = hmac_hex secret body /\ has_prefix sig "sha256=" = false).

Lemma signs_spec body secret sig : verifyHMAC body secret sig = true <-> signs body secret sig.
Proof.
  unfold verifyHMAC, signs, has_prefix. rewrite bool_decide_eq_true, <- strip_prefix_spec. destruct (strip_prefix "sha256=" sig) as [rest|]; [|naive_solver].
  split; [intros ->; by left|]. intros [[= ->]|[_ ?]]; done.
Qed.

(** The signature is right, if a header is configured and there is a secret to check it with. *)
Definition signature_ok (env : HookEnv) (wh : InboundWebhookConfig) (r : HookRequest) (body : string) (v : VaultState) : Prop :=
  iwSignatureHeader wh = EmptyString
  \/ forall secret, (GetSecretValue (heFailures env) (heKey env) ("agent:" +:+ hqAgentID r) HMACVaultKey v).1 = Ok secret ->
       secret = EmptyString \/ signs body secret (hqHeader r (iwSignatureHeader wh)).

(** The checks before the body is read *)
Definition admitted (env : HookEnv) (wh : InboundWebhookConfig) (r : HookRequest) (now : Z) (s : HookState) (v : VaultState) : Prop :=
  hqMethod r = "POST" /\ heAgent env (hqAgentID r) = Some (Some wh) /\ iwEnabled wh = true
  /\ (GetSecretValue (heFailures env) (heKey env) ("agent:" +:+ hqAgentID r) SecretVaultKey v).1 = Ok (hqSecret r)
  /\ (forall ip, claims_source r ip -> listed ip (iwAllowedSources wh))
  /\ under_limit (hqAgentID r) (rate_limit wh) now s.

(** And those of the payload *)
Definition payload_ok (env : HookEnv) (wh : InboundWebhookConfig) (r : HookRequest) (v : VaultState) (content : string) : Prop :=
  exists body, hqBody r = Some body /\ Z.of_nat (String.length body) <= max_payload wh /\ signature_ok env wh r body v
  /\ buildMessageContent (hqHeader r "Content-Type") (hqQuery r) body (iwTransformTemplate wh) = Ok content
  /\ heSend env (hqAgentID r) content = None.

Definition acceptable (env : HookEnv) (r : HookRequest) (now : Z) (s : HookState) (v : VaultState) (content : string) : Prop :=
  exists wh, admitted env wh r now s v /\ payload_ok env wh r v content.

Lemma signature_refused_spec env wh r body v v1 :
  vRows v1 = vRows v -> (signature_refused env wh r body v1).1 = false <-> signature_ok env wh r body v.
Proof.
  intros Hv. unfold signature_refused, signature_ok. case_bool_decide as Hh; [by split; [left|]|].
  pose proof (get_result (heFailures env) (heKey env) ("agent:" +:+ hqAgentID r) HMACVaultKey v1 v ltac:(by rewrite Hv)) as E.
  destruct (GetSecretValue _ _ _ _ v1) as [[secret|e] v2]; simpl in *; rewrite <- E.
  - rewrite andb_false_iff, !negb_false_iff, bool_decide_eq_true, signs_spec. split.
    + intros Hor. right. by intros x [= <-].
    + intros [?|Hx]; [done|]. by apply Hx.
  - split; [intros _; right; by intros x|done].
Qed.

(** The two ways an answer and its state can be, given what is acceptable *)
Definition hook_answered (env : HookEnv) (r : HookRequest) (s s' : HookState) (status : Z) (good : string -> Prop) : Prop :=
  (status <> 200 /\ hsSent s' = hsSent s /\ forall content, ~ good content)
  \/ (status = 200 /\ exists content, good content /\ hsSent s' = hsSent s ++ [(hqAgentID r, content)]).

Lemma serve_payload_cases env wh r ip s v v1 :
  iwMaxPayloadBytes wh < max_int64 -> vRows v1 = vRows v ->
  hook_answered env r s (serve_payload env wh r ip s v1).1.2 (serve_payload env wh r ip s v1).1.1 (payload_ok env wh r v).
Proof.
  intros Hmax Hrows. unfold serve_payload, payload_ok. fold (max_payload wh).
  assert (0 <= max_payload wh < max_int64) as Hm0.
  { unfold max_payload, defaultMaxPayload, max_int64 in *. destruct (Z.leb_spec (iwMaxPayloadBytes wh) 0); lia. }
  destruct (hqBody r) as [sent|]; [|left; split_and!; [done|done|]; by intros c (? & ? & _)].
  pose proof (limit_read_short (max_payload wh) sent Hm0) as Hread. cbv zeta in Hread |- *. revert Hread.
  generalize (limit_read (wrap64 (max_payload wh + 1)) sent). intros body Hread.
  destruct (Z.ltb_spec (max_payload wh) (Z.of_nat (String.length sent))) as [Hlen|Hlen].
  { rewrite (proj2 (Z.ltb_lt (max_payload wh) (Z.of_nat (String.length body)))) by done.
    left. split_and!; [done|done|]. intros c (? & [= <-] & ? & _). lia. }
  subst body. rewrite (proj2 (Z.ltb_ge (max_payload wh) (Z.of_nat (String.length sent)))) by done.
  pose proof (signature_refused_spec env wh r sent v v1 Hrows) as Hsig.
  destruct (signature_refused env wh r sent v1) as [[|] v2]; simpl in Hsig.
  { left. split_and!; [done|done|]. intros c (? & [= <-] & _ & Hok & _). apply Hsig in Hok. done. }
  destruct (buildMessageContent _ _ _ _) as [content|e] eqn:Hc.
  2:{ left. split_and!; [done|done|]. intros c (? & [= <-] & _ & _ & Hc' & _). rewrite Hc in Hc'. done. }
  destruct (heSend env (hqAgentID r) content) eqn:Hq.
  { left. split_and!; [done|done|]. intros c (? & [= <-] & _ & _ & Hc' & Hq'). rewrite Hc in Hc'. injection Hc' as <-. congruence. }
  right. split; [done|]. exists content. split; [|done]. exists sent. split_and!; [done|done|by apply Hsig|done|done].
Qed.

Lemma serve_cases env r now s v :
  (forall wh, heAgent env (hqAgentID r) = Some (Some wh) -> iwMaxPayloadBytes wh < max_int64) ->
  hook_answered env r s (ServeHook env r now s v).1.2 (ServeHook env r now s v).1.1 (acceptable env r now s v).
Proof.
  intros Hmax. unfold ServeHook, acceptable, admitted.
  case_bool_decide as Hm; cbn [negb]; [|left; split_and!; [done|done|]; by intros c (wh' & (? & _) & _)].
  destruct (heAgent env (hqAgentID r)) as [[wh|]|] eqn:Ha; [|left; split_and!; [done|done|]; by intros c (wh' & (_ & ? & _) & _)..].
  destruct (iwEnabled wh) eqn:He; cbn [negb]; [|left; split_and!; [done|done|]; intros c (wh' & (_ & [= <-] & ? & _) & _); congruence].
  destruct (GetSecretValue _ _ _ SecretVaultKey v) as [vs v1] eqn:G.
  pose proof (get_rows (heFailures env) (heKey env) ("agent:" +:+ hqAgentID r) SecretVaultKey v) as Hrows. rewrite G in Hrows. simpl in Hrows.
  destruct (match vs with inl x => _ | inr _ => true end) eqn:Hs.
  { left. split_and!; [done|done|]. intros c (wh' & (_ & _ & _ & Hg & _) & _). simpl in Hg. subst vs.
    apply negb_true_iff, bool_decide_eq_false in Hs. done. }
  destruct vs as [x|]; [|done]. apply negb_false_iff, bool_decide_eq_true in Hs. subst x.
  destruct (checkIPAllowlist _ _) eqn:Hip; cbn [negb].
  2:{ left. split_and!; [done|done|]. intros c (wh' & (_ & [= <-] & _ & _ & Hsrc & _) & _).
      rewrite (proj2 (listed_spec _ _) (Hsrc _ (proj2 (claims_source_spec r _) eq_refl))) in Hip. done. }
  fold (rate_limit wh). destruct (allowRequest _ (rate_limit wh) now s) as [ok s1] eqn:Hl.
  assert (hsSent s1 = hsSent s) as Hs1 by (unfold allowRequest in Hl; destruct (limiter_step _ _); by injection Hl as <- <-).
  destruct ok; cbn [negb].
  2:{ left. split_and!; [done|done|]. intros c (wh' & (_ & [= <-] & _ & _ & _ & Hl'%under_limit_spec) & _). by rewrite Hl in Hl'. }
  destruct (serve_payload_cases env wh r (extractIP r) s1 v v1 (Hmax wh eq_refl) Hrows) as [(H200 & Hsent & Hno)|(H200 & c & Hc & Hsent)].
  - left. split_and!; [done|by rewrite Hsent|]. intros c (wh' & (_ & [= <-] & _) & Hp). by apply (Hno c).
  - right. split; [done|]. exists c. rewrite Hsent, Hs1. split; [|done]. exists wh. split; [|done]. split_and!; try done.
    + intros ip ->%claims_source_spec. by apply listed_spec.
    + apply under_limit_spec. by rewrite Hl.
Qed.

Lemma acceptable_unique env r now s v c c' : acceptable env r now s v c -> acceptable env r now s v c' -> c = c'.
Proof.
  intros (wh & (_ & Hw & _) & body & Hb & _ & _ & Hc & _) (wh' & (_ & Hw' & _) & body' & Hb' & _ & _ & Hc' & _).
  rewrite Hw in Hw'. injection Hw' as <-. rewrite Hb in Hb'. injection Hb' as <-. rewrite Hc in Hc'. by injection Hc'.
Qed.

(** C11: a request is answered with success exactly when it is a POST for an agent with webhooks on, its secret is
    the stored one, the source it claims (X-Forwarded-For, which anybody can set, or else the address it came from)
    is listed by itself or by a network, fewer requests than the agent's limiter allows were let through in the
    last minute, its body is within the size, it is signed with the agent's secret where a header for that is
    configured and the secret can be read, and its content can be built and queued; that content is then the one
    message added for the agent, and no other answer adds any. *)
Theorem inbound_accepted_iff env r now s v :
  (forall wh, heAgent env (hqAgentID r) = Some (Some wh) -> iwMaxPayloadBytes wh < max_int64) ->
  let '(status, s', _) := ServeHook env r now s v in
  (status = 200 <-> exists content, acceptable env r now s v content)
  /\ (forall content, acceptable env r now s v content -> hsSent s' = hsSent s ++ [(hqAgentID r, content)])
  /\ (status <> 200 -> hsSent s' = hsSent s).
Proof.
  intros Hmax. pose proof (serve_cases env r now s v Hmax) as Hcases. destruct (ServeHook env r now s v) as [[status s'] v']. simpl in Hcases.
  destruct Hcases as [(H200 & Hsent & Hno)|(H200 & c & Hc & Hsent)].
  - split_and!; [|by intros c ?%Hno|done]. split; [done|]. by intros [c ?%Hno].
  - split_and!; [|intros c' Hc'; by rewrite (acceptable_unique _ _ _ _ _ _ _ Hc' Hc)|done]. split; [eauto|done].
Qed.
End accepted.

(** * The limit of an agent *)

(** Calls of [allowRequest]: agent, limit and time *)
Notation LimitCall := (string * Z * Z)%type.

Fixpoint calls_in_order (t : Z) (calls : list LimitCall) : Prop :=
  match calls with [] => True | (_, _, now) :: calls' => t <= now /\ calls_in_order now calls' end.

(** When requests of an agent were let through *)
Fixpoint let_through (a : string) (calls : list LimitCall) (s : HookState) : list Z :=
  match calls with
  | [] => []
  | (agentID, limit, now) :: calls' =>
    let '(ok, s') := allowRequest agentID limit now s in
    (if bool_decide (agentID = a) && ok then [now] else []) ++ let_through a calls' s'
  end.

Definition count_within (lo hi : Z) (l : list Z) : Z := Z.of_nat (length (List.filter (fun t => (lo <=? t) && (t <=? hi)) l)).

Definition window_of (a : string) (s : HookState) : list Z := default [] (limWindow <$> hsLimiters s !! a).

(** The limiter of the agent, if there is one, keeps the limit [m]. *)
Definition limiter_ok (m : Z) (a : string) (s : HookState) : Prop :=
  Z.of_nat (length (window_of a s)) <= Z.max 0 m /\ forall lim, hsLimiters s !! a = Some lim -> limMaxReqs lim <= m.

Lemma within_app lo hi l l' : count_within lo hi (l ++ l') = count_within lo hi l + count_within lo hi l'.
Proof. unfold count_within. rewrite List.filter_app, length_app. lia. Qed.

Lemma within_length lo hi l : count_within lo hi l <= Z.of_nat (length l).
Proof. unfold count_within. induction l as [|t l IH]; simpl; [lia|]. destruct (_ && _); simpl; lia. Qed.

Lemma within_late lo hi l t : hi < t -> Forall (fun x => t <= x) l -> count_within lo hi l = 0.
Proof.
  intros Ht Hl. unfold count_within. induction Hl as [|x l Hx _ IH]; [done|]. simpl. destruct (Z.leb_spec x hi); [lia|]. by rewrite andb_false_r.
Qed.

Lemma evict_length cutoff w : (length (evict cutoff w) <= length w)%nat.
Proof. induction w as [|t w IH]; simpl; [done|]. destruct (t <? cutoff); simpl; lia. Qed.

Lemma evict_within cutoff lo hi w : cutoff <= lo -> count_within lo hi (evict cutoff w) = count_within lo hi w.
Proof.
  intros Hc. induction w as [|t w IH]; [done|]. simpl. destruct (Z.ltb_spec t cutoff); [|done].
  rewrite IH. unfold count_within. simpl. destruct (Z.leb_spec lo t); [lia|done].
Qed.

Lemma let_through_late a t calls s : calls_in_order t calls -> Forall (fun x => t <= x) (let_through a calls s).
Proof.
  revert t s. induction calls as [|[[b limit] now] calls IH]; intros t s; simpl; [constructor|]. intros [Ht Ho].
  destruct (allowRequest b limit now s) as [ok s']. apply Forall_app. split.
  - destruct (_ && _); constructor; [done|constructor].
  - eapply Forall_impl; [by apply (IH now)|]. simpl. lia.
Qed.

(** One call: for another agent it changes nothing; for this one the window keeps what counts. *)
Lemma allow_step m a b limit now s lo hi ok s' :
  limiter_ok m a s -> (b = a -> limit <= m) -> now <= hi -> hi - rateLimitWindowSecs * second <= lo -> allowRequest b limit now s = (ok, s') ->
  limiter_ok m a s'
  /\ count_within lo hi (window_of a s') = count_within lo hi (window_of a s) + count_within lo hi (if bool_decide (b = a) && ok then [now] else []).
Proof.
  intros [Hw Hlim] Hb Hnow Hlo. unfold allowRequest.
  destruct (limiter_step now (default (mkagentLimiter [] limit) (hsLimiters s !! b))) as [ok' lim'] eqn:E. intros [= <- <-].
  unfold limiter_ok, window_of in *. simpl. case_bool_decide as Hba; [subst b|rewrite lookup_insert_ne by congruence; simpl; split; [by split|unfold count_within; simpl; lia]].
  rewrite lookup_insert_eq. simpl.
  set (lim := default (mkagentLimiter [] limit) (hsLimiters s !! a)) in *.
  assert (default [] (limWindow <$> hsLimiters s !! a) = limWindow lim) as Hwin by (unfold lim; by destruct (hsLimiters s !! a)).
  assert (limMaxReqs lim <= m) as Hm by (unfold lim in *; destruct (hsLimiters s !! a) as [l|]; simpl; [by apply Hlim|by apply Hb]).
  rewrite Hwin in *. unfold limiter_step in E.
  pose proof (evict_length (now - rateLimitWindowSecs * second) (limWindow lim)) as Hle.
  pose proof (evict_within (now - rateLimitWindowSecs * second) lo hi (limWindow lim) ltac:(lia)) as Hin.
  destruct (Z.leb_spec (limMaxReqs lim) (Z.of_nat (length (evict (now - rateLimitWindowSecs * second) (limWindow lim)))));
    injection E as <- <-; simpl.
  - split; [split; [lia|]|]; [by intros l [= <-]|]. rewrite Hin. unfold count_within at 3. simpl. lia.
  - split; [split; [rewrite length_app; simpl; lia|]|]; [by intros l [= <-]|]. by rewrite within_app, Hin.
Qed.

(** however requests of agents are mixed, in no minute more are let through for an agent than the limit its
    limiter was made with. *)
Theorem inbound_rate_bounded m a calls s start t :
  limiter_ok m a s -> calls_in_order t calls -> Forall (fun c => c.1.1 = a -> c.1.2 <= m) calls ->
  count_within start (start + rateLimitWindowSecs * second) (let_through a calls s) <= Z.max 0 m.
Proof.
  intros Hok Ho Hc. cut (count_within start (start + rateLimitWindowSecs * second) (window_of a s ++ let_through a calls s) <= Z.max 0 m).
  { rewrite within_app. unfold count_within. lia. }
  revert t s Hok Ho. induction Hc as [|[[b limit] now] calls Hb _ IH]; intros t s Hok Ho.
  - destruct Hok as [Hw _]. simpl. rewrite app_nil_r. etransitivity; [apply within_length|done].
  - destruct Ho as [Ht Ho]. destruct (Z.le_gt_cases now (start + rateLimitWindowSecs * second)) as [Hnow|Hnow].
    + simpl. destruct (allowRequest b limit now s) as [ok s'] eqn:E.
      destruct (allow_step m a b limit now s start (start + rateLimitWindowSecs * second) ok s') as [Hok' Hw]; try done; [lia|].
      rewrite !within_app. specialize (IH now s' Hok' Ho). rewrite within_app in IH. lia.
    + rewrite within_app, (within_late start _ (let_through a _ s) now Hnow).
      * destruct Hok as [Hw _]. etransitivity; [|exact Hw]. rewrite Z.add_0_r. apply within_length.
      * apply (let_through_late a now). simpl. split; [lia|done].
Qed.

(** * Forms *)

(** The body of a form does not matter: it was read before the form is parsed. *)
Theorem form_body_ignored `{HMAC, Payloads} contentType query body body' tmpl :
  has_prefix contentType "application/json" = false ->
  has_prefix contentType "application/x-www-form-urlencoded" || has_prefix contentType "multipart/form-data" = true ->
  buildMessageContent contentType query body tmpl = buildMessageContent contentType query body' tmpl.
Proof. intros Hj Hf. unfold buildMessageContent. by rewrite Hj, Hf. Qed.

(** An address that is listed can be claimed by anybody, in the header a proxy would set. *)
Lemma claimed_source_passes r entry allowlist :
  entry ∈ allowlist -> contains entry "/" = false -> hqHeader r "X-Forwarded-For" = entry -> entry <> EmptyString ->
  trim_space (first_part entry) = entry -> checkIPAllowlist (extractIP r) allowlist = true.
Proof.
  intros Hin Hplain Hh Hne Htrim. unfold checkIPAllowlist, extractIP. rewrite Hh, (bool_decide_eq_false_2 (entry = EmptyString)) by done. cbn [negb]. rewrite Htrim.
  apply orb_true_iff. right. apply existsb_elem. exists entry. rewrite Hplain. split; [done|]. by rewrite bool_decide_eq_true_2.
Qed.

(** * An agent with a webhook *)
Section hook_demo.
#[local] Instance hook_cipher : AEAD := {| gcm_seal key _ plain := key +:+ plain; gcm_open key _ c := strip_prefix key c |}.
#[local] Instance hook_hmac : HMAC := {| hmac_hex secret body := secret +:+ ":" +:+ body |}.
(** Payloads that are texts; a form is the query with the body. *)
#[local] Instance hook_payloads : Payloads := {|
  Payload := string; no_payload := EmptyString;
  json_object s := if has_prefix s "{" then Some s else None;
  form_values _ query body := Some (query +:+ body);
  indented s := s;
  run_template t s := Ok (t +:+ s);
|}.

Definition hook_config : InboundWebhookConfig := mkInboundWebhookConfig true ["10.1.0.0/16"; "192.0.2.7"] 2 EmptyString "X-Sig" 100.

Definition hook_store (scope name value : string) (v : VaultState) : VaultState :=
  match SetSecret true no_failures key1 nonce1 (scope +:+ name) 0 scope name value EmptyString v with inl v' => v' | inr _ => v end.

Definition hook_vault : VaultState :=
  hook_store "agent:a1" HMACVaultKey "hs" (hook_store "agent:a1" SecretVaultKey "s3cret" (mkVaultState [] [])).

Definition hook_env (f : string -> string -> option string) : HookEnv :=
  mkHookEnv (fun id => if bool_decide (id = "a1") then Some (Some hook_config) else None) f key1 (fun _ _ => None).

Definition hook_request (forwarded contentType sig body : string) : HookRequest :=
  mkHookRequest "POST" "a1" "s3cret"
    (fun h => if bool_decide (h = "X-Forwarded-For") then forwarded else if bool_decide (h = "Content-Type") then contentType
              else if bool_decide (h = "X-Sig") then sig else EmptyString)
    "10.1.2.3:4711" EmptyString (Some body).

Definition no_state : HookState := mkHookState ∅ [] [].

Definition serve_status (env : HookEnv) (r : HookRequest) : Z * list (string * string) :=
  let '(status, s, _) := ServeHook env r 0 no_state hook_vault in (status, hsSent s).

Example hook_answers :
  serve_status (hook_env no_failures) (hook_request EmptyString "text/plain" "sha256=hs:hello" "hello") = (200, [("a1", "hello")])
  /\ serve_status (hook_env no_failures) (hook_request EmptyString "text/plain" "sha256=wrong" "hello") = (401, [])
  /\ serve_status (hook_env no_failures) (hook_request "203.0.113.9" "text/plain" "sha256=hs:hello" "hello") = (403, [])
  /\ serve_status (hook_env no_failures) (hook_request EmptyString "application/json" "sha256=hs:[1]" "[1]") = (400, []).
Proof. vm_compute. done. Qed.

(** A signature is not checked when the secret for it cannot be read. *)
Example unsigned_request_passes :
  let f name (scope : string) := if bool_decide (scope = "agent:a1") then None else Some name in
  let broken := hook_store "agent:a1" SecretVaultKey "s3cret"
    (mkVaultState [mkSecretRow "x" "agent:a1" HMACVaultKey "garbage" EmptyString 0 0] []) in
  (ServeHook (hook_env f) (hook_request EmptyString "text/plain" "sha256=wrong" "hello") 0 no_state broken).1.1 = 200.
Proof. vm_compute. done. Qed.

(** The limiter keeps the limit it was made with. *)
Example limit_change_ignored :
  let s := (allowRequest "a1" 2 0 no_state).2 in
  (allowRequest "a1" 100 2 (allowRequest "a1" 100 1 s).2).1 = false.
Proof. vm_compute. done. Qed.

Lemma inbound_accepted_iff_witness :
  let r := hook_request EmptyString "text/plain" "sha256=hs:hello" "hello" in
  iwMaxPayloadBytes hook_config < max_int64
  /\ let '(status, s', _) := ServeHook (hook_env no_failures) r 0 no_state hook_vault in
     (status = 200 <-> exists content, acceptable (hook_env no_failures) r 0 no_state hook_vault content)
     /\ (forall content, acceptable (hook_env no_failures) r 0 no_state hook_vault content -> hsSent s' = hsSent no_state ++ [(hqAgentID r, content)])
     /\ (status <> 200 -> hsSent s' = hsSent no_state).
Proof.
  split; [reflexivity|].
  apply (inbound_accepted_iff (hook_env no_failures) (hook_request EmptyString "text/plain" "sha256=hs:hello" "hello") 0 no_state hook_vault).
  intros wh E. injection E as <-. reflexivity.
Defined.

Lemma inbound_rate_bounded_witness :
  count_within 0 (0 + rateLimitWindowSecs * second) (let_through "a1" [("a1", 2, 1); ("a2", 5, 2); ("a1", 2, 3); ("a1", 2, 4)] no_state) <= Z.max 0 2
  /\ let_through "a1" [("a1", 2, 1); ("a2", 5, 2); ("a1", 2, 3); ("a1", 2, 4)] no_state = [1; 3].
Proof.
  split; [|vm_compute; reflexivity].
  apply (inbound_rate_bounded 2 "a1" [("a1", 2, 1); ("a2", 5, 2); ("a1", 2, 3); ("a1", 2, 4)] no_state 0 0).
  - split; [vm_compute; discriminate|]. intros lim E. vm_compute in E. discriminate E.
  - simpl. lia.
  - repeat (apply Forall_cons; split; [simpl; first [intros _; lia | intros E; discriminate E]|]). apply Forall_nil_2.
Defined.

Lemma form_body_ignored_witness :
  buildMessageContent "application/x-www-form-urlencoded" "q=1" "text=hello" EmptyString
  = buildMessageContent "application/x-www-form-urlencoded" "q=1" EmptyString EmptyString.
Proof. apply (form_body_ignored "application/x-www-form-urlencoded" "q=1" "text=hello" EmptyString EmptyString); reflexivity. Defined.
End hook_demo.
