(* ===== verification/Outbound.v ===== *)
(** Outbound webhooks ([internal/webhooks/outbound.go]) with their tables
    ([internal/store/postgres/postgres.go]).

    A delivery runs in a goroutine of its own: sending an event starts jobs, which finish in any
    order with whatever the endpoint answers; the loop of retries goes through a list of rows it
    read before, one delivery at a time.  The steps are those of [Step], in any order.

    [posts_bounded] says that each dispatch of an event to a webhook costs at most one attempt and the retries it
    is configured with, and ten requests for each; [failure_is_retried] that an attempt that failed is made
    again after its pause. *)

From S2P Require Import Prelude GoString Queue.
#[local] Open Scope Z_scope.

(** * Data ([pkg/types]) *)

Record OutboundWebhook := mkOutboundWebhook {
  owID : string;
  owName : string;
  owURL : string;
  owAgentID : string;
  owEvents : list string;
  owSecretRef : string;
  owHeaders : list (string * string);
  owPayloadTemplate : string;
  owMaxRetries : Z;
  owBackoffSeconds : list Z;
  owCBThreshold : Z;
  owCBCooldownSecs : Z;
  owEnabled : bool;
  owCreatedAt : Z;
  owUpdatedAt : Z;
}.

Inductive DeliveryStatus := StatusSuccess | StatusFailed | StatusPendingRetry.

#[global] Instance DeliveryStatus_eq_dec : EqDecision DeliveryStatus.
Proof. solve_decision. Defined.

Record WebhookDelivery := mkWebhookDelivery {
  wdID : string;
  wdWebhookID : string;
  wdEventType : string;
  wdPayload : string;
  wdStatus : DeliveryStatus;
  wdHTTPCode : Z;
  wdResponseBody : string;
  wdRetryCount : Z;
  wdNextRetryAt : option Z;
  wdErrorMessage : string;
  wdCreatedAt : Z;
}.

(** [notifications.Event], without its metadata *)
Record HookEvent := mkHookEvent {
  evType : string;
  evSeverity : string;
  evAgent : string;
  evTitle : string;
  evDetail : string;
  evTimestamp : Z;
}.

Record circuitState := mkcircuitState {
  consecutiveFailures : Z;
  openUntil : Z;
}.

(** A delivery that is under way *)
Record Job := mkJob {
  jHook : OutboundWebhook;
  jEventType : string;
  jPayload : string;
  jHeaders : list (string * string);
  jRetry : Z;
}.

(** The tables, the circuits, the jobs under way, the rows the loop of retries still has to go
    through and its own job, and the attempts that were made, with the requests of each: whether it was a POST,
    which carries the payload, or a GET *)
Record Dispatcher := mkDispatcher {
  dsHooks : gmap string OutboundWebhook;
  dsDeliveries : gmap string WebhookDelivery;
  dsBreakers : gmap string circuitState;
  dsJobs : list Job;
  dsRetries : list WebhookDelivery;
  dsRetryJob : option Job;
  dsPosts : list (Job * list bool);
}.

Notation Failures := (string -> option string).
Definition none_fails : Failures := fun _ => None.

Section update.
Context (d : Dispatcher).
Definition set_hooks m := mkDispatcher m (dsDeliveries d) (dsBreakers d) (dsJobs d) (dsRetries d) (dsRetryJob d) (dsPosts d).
Definition set_deliveries m := mkDispatcher (dsHooks d) m (dsBreakers d) (dsJobs d) (dsRetries d) (dsRetryJob d) (dsPosts d).
Definition set_breakers m := mkDispatcher (dsHooks d) (dsDeliveries d) m (dsJobs d) (dsRetries d) (dsRetryJob d) (dsPosts d).
Definition set_jobs l := mkDispatcher (dsHooks d) (dsDeliveries d) (dsBreakers d) l (dsRetries d) (dsRetryJob d) (dsPosts d).
Definition set_retries l := mkDispatcher (dsHooks d) (dsDeliveries d) (dsBreakers d) (dsJobs d) l (dsRetryJob d) (dsPosts d).
Definition set_retry_job j := mkDispatcher (dsHooks d) (dsDeliveries d) (dsBreakers d) (dsJobs d) (dsRetries d) j (dsPosts d).
Definition add_post j := mkDispatcher (dsHooks d) (dsDeliveries d) (dsBreakers d) (dsJobs d) (dsRetries d) (dsRetryJob d) (dsPosts d ++ [j]).
End update.

(** * The tables *)

(** The times are those of the statement. *)
Definition stored_hook (wh : OutboundWebhook) (created updated : Z) : OutboundWebhook :=
  mkOutboundWebhook (owID wh) (owName wh) (owURL wh) (owAgentID wh) (owEvents wh) (owSecretRef wh) (owHeaders wh) (owPayloadTemplate wh)
    (owMaxRetries wh) (owBackoffSeconds wh) (owCBThreshold wh) (owCBCooldownSecs wh) (owEnabled wh) (db_time created) (db_time updated).

Definition CreateOutboundWebhook (f : Failures) (now : Z) (wh : OutboundWebhook) (d : Dispatcher) : option string * Dispatcher :=
  match f "create outbound webhook" with
  | Some e => (Some e, d)
  | None => if bool_decide (is_Some (dsHooks d !! owID wh)) then (Some "pq: constraint violation", d)
            else (None, set_hooks d (<[owID wh := stored_hook wh now now]> (dsHooks d)))
  end.

Definition UpdateOutboundWebhook (f : Failures) (now : Z) (wh : OutboundWebhook) (d : Dispatcher) : option string * Dispatcher :=
  match f "update outbound webhook" with
  | Some e => (Some e, d)
  | None => match dsHooks d !! owID wh with
            | None => (Some "outbound webhook not found", d)
            | Some old => (None, set_hooks d (<[owID wh := stored_hook wh (owCreatedAt old) now]> (dsHooks d)))
            end
  end.

(** The deliveries of the webhook go with it. *)
Definition DeleteOutboundWebhook (f : Failures) (id : string) (d : Dispatcher) : option string * Dispatcher :=
  match f "delete outbound webhook" with
  | Some e => (Some e, d)
  | None => match dsHooks d !! id with
            | None => (Some "outbound webhook not found", d)
            | Some _ => (None, set_deliveries (set_hooks d (delete id (dsHooks d)))
                                 (filter (fun kv => wdWebhookID kv.2 <> id) (dsDeliveries d)))
            end
  end.

Definition ListAllEnabledOutboundWebhooks (d : Dispatcher) : list OutboundWebhook :=
  List.filter owEnabled (map snd (map_to_list (dsHooks d))).

(** A delivery needs its webhook. *)
Definition InsertWebhookDelivery (f : Failures) (w : WebhookDelivery) (d : Dispatcher) : Dispatcher :=
  match f "insert webhook delivery" with
  | Some _ => d
  | None =>
    if bool_decide (is_Some (dsDeliveries d !! wdID w)) || negb (bool_decide (is_Some (dsHooks d !! wdWebhookID w))) then d
    else set_deliveries d (<[wdID w := mkWebhookDelivery (wdID w) (wdWebhookID w) (wdEventType w) (wdPayload w) (wdStatus w) (wdHTTPCode w)
           (wdResponseBody w) (wdRetryCount w) (db_time <$> wdNextRetryAt w) (wdErrorMessage w) (db_time (wdCreatedAt w))]> (dsDeliveries d))
  end.

Definition due (now : Z) (d : Dispatcher) (w : WebhookDelivery) : bool :=
  bool_decide (wdStatus w = StatusPendingRetry)
  && match wdNextRetryAt w with Some t => t <=? db_time now | None => false end
  && match dsHooks d !! wdWebhookID w with Some h => owEnabled h | None => false end.

Fixpoint insert_next (w : WebhookDelivery) (l : list WebhookDelivery) : list WebhookDelivery :=
  match l with
  | [] => [w]
  | x :: l' => if default 0 (wdNextRetryAt w) <=? default 0 (wdNextRetryAt x) then w :: l else x :: insert_next w l'
  end.

Definition ListPendingRetries (now : Z) (d : Dispatcher) : list WebhookDelivery :=
  foldr insert_next [] (List.filter (due now d) (map snd (map_to_list (dsDeliveries d)))).

Definition with_delivery_status (status : DeliveryStatus) (httpCode : Z) (body errMsg : string) (w : WebhookDelivery) : WebhookDelivery :=
  mkWebhookDelivery (wdID w) (wdWebhookID w) (wdEventType w) (wdPayload w) status httpCode body (wdRetryCount w) (wdNextRetryAt w) errMsg (wdCreatedAt w).

Definition UpdateDeliveryStatus (f : Failures) (id : string) (status : DeliveryStatus) (httpCode : Z) (body errMsg : string) (d : Dispatcher) : Dispatcher :=
  match f "update delivery status" with
  | Some _ => d
  | None => set_deliveries d (alter (with_delivery_status status httpCode body errMsg) id (dsDeliveries d))
  end.

Definition PruneWebhookDeliveries (f : Failures) (olderThan now : Z) (d : Dispatcher) : Dispatcher :=
  match f "prune webhook deliveries" with
  | Some _ => d
  | None => set_deliveries d (filter (fun kv => ~ (wdCreatedAt kv.2 < db_time (now - olderThan) /\ wdStatus kv.2 <> StatusPendingRetry)) (dsDeliveries d))
  end.

(** * The circuits *)

Definition isCircuitOpen (webhookID : string) (threshold now : Z) (d : Dispatcher) : bool :=
  match dsBreakers d !! webhookID with
  | None => false
  | Some cs => (threshold <=? consecutiveFailures cs) && (now <? openUntil cs)
  end.

Definition incrementBreaker (webhookID : string) (cooldownSecs now : Z) (d : Dispatcher) : Dispatcher :=
  let cs := default (mkcircuitState 0 0) (dsBreakers d !! webhookID) in
  set_breakers d (<[webhookID := mkcircuitState (consecutiveFailures cs + 1) (now + wrap64 (cooldownSecs * second))]> (dsBreakers d)).

Definition resetBreaker (webhookID : string) (d : Dispatcher) : Dispatcher := set_breakers d (delete webhookID (dsBreakers d)).

(** * Dispatching *)

Definition eventTypeMap : list (string * string) :=
  [("circuit_breaker", "circuit_breaker.tripped"); ("agent_error", "agent.error"); ("agent_killed", "agent.killed");
   ("spending_alert", "spending.threshold"); ("security_alert", "security.alert"); ("backup_status", "backup.complete");
   ("key_failure", "security.key_failure"); ("agent_quarantine", "agent.quarantine")].

Definition mapEventType (raw : string) : string :=
  match List.find (fun kv => bool_decide (kv.1 = raw)) eventTypeMap with Some (_, mapped) => mapped | None => raw end.

(** Patterns of [path.Match], JSON and templates *)
Class HookTexts := {
  path_match : string -> string -> bool;
  default_payload : HookEvent -> string -> string;
  templated_payload : string -> HookEvent -> string -> result string string;
}.

Section dispatch.
Context `{HookTexts}.

Definition matchesEventPatterns (eventType : string) (patterns : list string) : bool :=
  existsb (fun p => bool_decide (p = "*") || bool_decide (p = eventType) || path_match p eventType) patterns.

Definition buildPayload (wh : OutboundWebhook) (event : HookEvent) (eventType : string) : result string string :=
  if negb (bool_decide (owPayloadTemplate wh = EmptyString)) then templated_payload (owPayloadTemplate wh) event eventType
  else Ok (default_payload event eventType).

(** [resolveHeaders]; [vault] reads the global secrets, if there is a vault. *)
Definition resolveHeaders (vault : option (string -> option string)) (wh : OutboundWebhook) : list (string * string) :=
  map (fun kv =>
    match vault with
    | Some get =>
      if contains kv.2 "{secret}" && negb (bool_decide (owSecretRef wh = EmptyString)) then
        match get (owSecretRef wh) with Some secret => (kv.1, replace_all kv.2 "{secret}" secret) | None => kv end
      else kv
    | None => kv
    end) (owHeaders wh).

(** The jobs [Send] starts for the webhooks it goes through *)
Definition dispatch_one (vault : option (string -> option string)) (event : HookEvent) (now : Z) (d : Dispatcher) (wh : OutboundWebhook) : list Job :=
  let eventType := mapEventType (evType event) in
  if negb (bool_decide (owAgentID wh = EmptyString)) && negb (bool_decide (owAgentID wh = evAgent event)) then []
  else if negb (matchesEventPatterns eventType (owEvents wh)) then []
  else if isCircuitOpen (owID wh) (owCBThreshold wh) now d then []
  else match buildPayload wh event eventType with
       | inr _ => []
       | inl payload => [mkJob wh eventType payload (resolveHeaders vault wh) 0]
       end.

(** [Send] *)
Definition SendEvent (f : Failures) (vault : option (string -> option string)) (event : HookEvent) (now : Z) (d : Dispatcher) : Dispatcher :=
  match f "list enabled outbound webhooks" with
  | Some _ => d
  | None => set_jobs d (dsJobs d ++ concat (map (dispatch_one vault event now d) (ListAllEnabledOutboundWebhooks d)))
  end.
End dispatch.

(** What an attempt ends with: a URL that makes no request, an error of the network, an answer with
    the first KiB of its body *)
Inductive Outcome :=
| BadURL (err : string)
| NetError (err : string)
| Answered (code : Z) (body : string).

(** What an endpoint answers to one request: where a redirect leads, if the answer names a place, which may be one
    the client cannot use *)
Inductive Location := NoLocation | Usable | Unusable (err : string).

Record WireReply := mkWireReply { wrCode : Z; wrLocation : Location; wrBody : string }.

(** An attempt: a URL that makes no request, or the answers to its requests, one after another; when there is no
    further answer the time is up. *)
Inductive Attempt :=
| NoRequest (err : string)
| Requests (answers : list (result string WireReply)).

(** The method after a redirect; [post] is the one before. *)
Definition redirect_method (code : Z) (post : bool) : option bool :=
  if (code =? 301) || (code =? 302) || (code =? 303) then Some false
  else if (code =? 307) || (code =? 308) then Some post
  else None.

(** [Client.Do] of the client the dispatcher is made with, which follows redirects as [net/http] does by default:
    the requests it makes and how it ends; [more] more redirects are followed.  A 307 or a 308 repeats the POST
    with its payload, the others lead to a GET. *)
Fixpoint client_post (more : nat) (post : bool) (answers : list (result string WireReply)) : list bool * Outcome :=
  match answers with
  | [] => ([post], NetError "context deadline exceeded")
  | inr e :: _ => ([post], NetError e)
  | inl r :: answers =>
    match redirect_method (wrCode r) post, wrLocation r with
    | None, _ | _, NoLocation => ([post], Answered (wrCode r) (wrBody r))
    | Some _, Unusable e => ([post], NetError e)
    | Some post', Usable =>
      match more with
      | O => ([post], NetError "stopped after 10 redirects")
      | S more => let '(requests, o) := client_post more post' answers in (post :: requests, o)
      end
    end
  end.

Definition attempt_result (a : Attempt) : list bool * Outcome :=
  match a with NoRequest err => ([], BadURL err) | Requests answers => client_post 9 true answers end.

(** [handleFailure]; [id] is the new identifier. *)
Definition handleFailure (f : Failures) (j : Job) (httpCode : Z) (respBody errMsg id : string) (now : Z) (d : Dispatcher) : Dispatcher :=
  let wh := jHook j in
  let d := incrementBreaker (owID wh) (owCBCooldownSecs wh) now d in
  let '(status, nextRetry) :=
    match owBackoffSeconds wh !! Z.to_nat (jRetry j) with
    | Some b => if (jRetry j <? owMaxRetries wh) then (StatusPendingRetry, Some (now + wrap64 (b * second))) else (StatusFailed, None)
    | None => (StatusFailed, None)
    end in
  InsertWebhookDelivery f (mkWebhookDelivery id (owID wh) (jEventType j) (jPayload j) status httpCode respBody (jRetry j) nextRetry errMsg now) d.

(** [recordDelivery] *)
Definition recordDelivery (f : Failures) (j : Job) (httpCode : Z) (respBody errMsg id : string) (now : Z) (d : Dispatcher) : Dispatcher :=
  let status := if bool_decide (errMsg = EmptyString) then StatusSuccess else StatusFailed in
  InsertWebhookDelivery f (mkWebhookDelivery id (owID (jHook j)) (jEventType j) (jPayload j) status httpCode respBody (jRetry j) None errMsg now) d.

(** What [deliver] does with the end of the attempt; the text for a status is [HTTP code]. *)
Definition after_attempt (f : Failures) (status_text : Z -> string) (j : Job) (requests : list bool) (o : Outcome) (id : string) (now : Z)
    (d : Dispatcher) : Dispatcher :=
  match o with
  | BadURL err => recordDelivery f j 0 EmptyString err id now d
  | NetError err => handleFailure f j 0 EmptyString err id now (add_post d (j, requests))
  | Answered code body =>
    let d := add_post d (j, requests) in
    if (200 <=? code) && (code <? 300) then recordDelivery f j code body EmptyString id now (resetBreaker (owID (jHook j)) d)
    else handleFailure f j code body (status_text code) id now d
  end.

(** [deliver] *)
Definition deliver (f : Failures) (status_text : Z -> string) (j : Job) (a : Attempt) (id : string) (now : Z) (d : Dispatcher) : Dispatcher :=
  let '(requests, o) := attempt_result a in after_attempt f status_text j requests o id now d.

(** * The steps *)

(** [processRetries], for the next of the rows it read *)
Definition retry_next (f : Failures) (vault : option (string -> option string)) (now : Z) (d : Dispatcher) : Dispatcher :=
  match dsRetries d with
  | [] => d
  | w :: rest =>
    let d := set_retries d rest in
    match (match f "get outbound webhook" with Some _ => None | None => dsHooks d !! wdWebhookID w end) with
    | None => UpdateDeliveryStatus f (wdID w) StatusFailed 0 EmptyString "webhook deleted" d
    | Some wh =>
      if negb (owEnabled wh) then d
      else if isCircuitOpen (owID wh) (owCBThreshold wh) now d then d
      else
        let d := UpdateDeliveryStatus f (wdID w) StatusFailed (wdHTTPCode w) (wdResponseBody w) (wdErrorMessage w) d in
        set_retry_job d (Some (mkJob wh (wdEventType w) (wdPayload w) (resolveHeaders vault wh) (wdRetryCount w + 1)))
    end
  end.

Inductive Step : Type :=
| StSend (event : HookEvent) (now : Z)
| StJob (i : nat) (o : Attempt) (id : string) (now : Z)      (* a goroutine of [Send] ends *)
| StList (now : Z)                                           (* the loop of retries reads its rows *)
| StRetry (now : Z)                                          (* and goes on to the next *)
| StRetryJob (o : Attempt) (id : string) (now : Z)           (* its delivery ends *)
| StCreate (wh : OutboundWebhook) (now : Z)
| StUpdate (wh : OutboundWebhook) (now : Z)
| StDelete (id : string)
| StPrune (olderThan now : Z)
| StCrash.                                                   (* the process starts again *)

Section steps.
Context `{HookTexts} (vault : option (string -> option string)) (status_text : Z -> string).

Definition apply_step (f : Failures) (st : Step) (d : Dispatcher) : Dispatcher :=
  match st with
  | StSend event now => SendEvent f vault event now d
  | StJob i o id now =>
    match dsJobs d !! i with
    | Some j => deliver f status_text j o id now (set_jobs d (take i (dsJobs d) ++ drop (S i) (dsJobs d)))
    | None => d
    end
  | StList now =>
    match dsRetries d, dsRetryJob d, f "list pending retries" with
    | [], None, None => set_retries d (ListPendingRetries now d)
    | _, _, _ => d
    end
  | StRetry now => match dsRetryJob d with None => retry_next f vault now d | Some _ => d end
  | StRetryJob o id now =>
    match dsRetryJob d with Some j => deliver f status_text j o id now (set_retry_job d None) | None => d end
  | StCreate wh now => (CreateOutboundWebhook f now wh d).2
  | StUpdate wh now => (UpdateOutboundWebhook f now wh d).2
  | StDelete id => (DeleteOutboundWebhook f id d).2
  | StPrune olderThan now => PruneWebhookDeliveries f olderThan now d
  | StCrash => mkDispatcher (dsHooks d) (dsDeliveries d) ∅ [] [] None (dsPosts d)
  end.

Definition run_dispatcher (steps : list (Failures * Step)) (d : Dispatcher) : Dispatcher :=
  fold_left (fun d s => apply_step s.1 s.2 d) steps d.

(** The deliveries that were dispatched: the jobs each [Send] starts *)
Definition dispatched (f : Failures) (st : Step) (d : Dispatcher) : nat :=
  match st with StSend _ _ => (length (dsJobs (apply_step f st d)) - length (dsJobs d))%nat | _ => 0%nat end.

Fixpoint total_dispatched (steps : list (Failures * Step)) (d : Dispatcher) : nat :=
  match steps with [] => 0%nat | s :: steps' => (dispatched s.1 s.2 d + total_dispatched steps' (apply_step s.1 s.2 d))%nat end.
End steps.

(** * What a dispatch may cost *)

Section sums.
Context {V : Type}.

(** The sum over the rows of a table *)
Definition total (g : string -> V -> nat) (m : gmap string V) : nat := sum_list_with (fun kv => g kv.1 kv.2) (map_to_list m).

Definition at_key (g : string -> V -> nat) (m : gmap string V) (k : string) : nat := match m !! k with Some v => g k v | None => 0%nat end.

Lemma total_split g m k : total g m = (total g (delete k m) + at_key g m k)%nat.
Proof.
  unfold total, at_key. destruct (m !! k) as [v|] eqn:E.
  - rewrite <- (map_to_list_delete m k v E). simpl. lia.
  - rewrite delete_id by done. lia.
Qed.

Lemma total_ext g g' m : (forall k v, m !! k = Some v -> g k v = g' k v) -> total g m = total g' m.
Proof.
  intros Hg. unfold total. assert (forall kv, kv ∈ map_to_list m -> g kv.1 kv.2 = g' kv.1 kv.2) as Hl.
  { intros [k v] Hkv. apply elem_of_map_to_list in Hkv. by apply Hg. }
  induction (map_to_list m) as [|kv l IH]; [done|]. simpl. rewrite Hl by left. f_equal. apply IH. intros x Hx. apply Hl. by right.
Qed.

Lemma total_add g g1 g2 m : (forall k v, m !! k = Some v -> g k v = (g1 k v + g2 k v)%nat) -> total g m = (total g1 m + total g2 m)%nat.
Proof.
  intros Hg. unfold total. assert (forall kv, kv ∈ map_to_list m -> g kv.1 kv.2 = (g1 kv.1 kv.2 + g2 kv.1 kv.2)%nat) as Hl.
  { intros [k v] Hkv. apply elem_of_map_to_list in Hkv. by apply Hg. }
  induction (map_to_list m) as [|kv l IH]; [done|]. simpl. rewrite Hl by left. rewrite IH; [lia|]. intros x Hx. apply Hl. by right.
Qed.

Lemma total_subset g m m' : m ⊆ m' -> (total g m <= total g m')%nat.
Proof.
  intros Hs. unfold total. apply map_to_list_submseteq in Hs. revert Hs. generalize (map_to_list m), (map_to_list m').
  intros l l' Hs. induction Hs; simpl; lia.
Qed.

(** Tables that differ at one key, with weights that differ there *)
Lemma total_change g g' m m' k :
  delete k m = delete k m' -> (forall k' v, k' <> k -> m !! k' = Some v -> g k' v = g' k' v) ->
  (total g' m' + at_key g m k = total g m + at_key g' m' k)%nat.
Proof.
  intros Hd Hg. rewrite (total_split g m k), (total_split g' m' k), <- Hd.
  rewrite (total_ext g g' (delete k m)); [lia|]. intros k' v [Hne Hv]%lookup_delete_Some. by apply Hg.
Qed.
End sums.

Section bound.
Context `{HookTexts} (vault : option (string -> option string)) (status_text : Z -> string) (M : nat).

(** The requests that may still follow from a retry count *)
Definition left_after (r : Z) : nat := Z.to_nat (Z.of_nat M - r).

Definition job_weight (j : Job) : nat := S (left_after (jRetry j)).

Definition retry_ids (d : Dispatcher) : list string := map wdID (dsRetries d).

Definition row_weight (ids : list string) (k : string) (w : WebhookDelivery) : nat :=
  if bool_decide (wdStatus w = StatusPendingRetry) && negb (bool_decide (k ∈ ids)) then left_after (wdRetryCount w) else 0%nat.

Definition potential (d : Dispatcher) : nat :=
  (sum_list_with job_weight (dsJobs d) + match dsRetryJob d with Some j => job_weight j | None => 0 end
   + sum_list_with (fun w => left_after (wdRetryCount w)) (dsRetries d)
   + total (row_weight (retry_ids d)) (dsDeliveries d))%nat.

Definition job_ok (j : Job) : Prop := 0 <= jRetry j <= Z.of_nat M /\ owMaxRetries (jHook j) <= Z.of_nat M.

Record outbound_inv (d : Dispatcher) : Prop := {
  oi_hooks : forall id h, dsHooks d !! id = Some h -> owMaxRetries h <= Z.of_nat M;
  oi_jobs : Forall job_ok (dsJobs d);
  oi_retry : forall j, dsRetryJob d = Some j -> job_ok j;
  oi_rows : forall id w, dsDeliveries d !! id = Some w -> wdID w = id /\ (wdStatus w = StatusPendingRetry -> 0 <= wdRetryCount w < Z.of_nat M);
  oi_list : Forall (fun w => 0 <= wdRetryCount w < Z.of_nat M
              /\ forall row, dsDeliveries d !! wdID w = Some row -> wdRetryCount row = wdRetryCount w) (dsRetries d);
  oi_nodup : NoDup (retry_ids d);
}.

(** An identifier nothing has yet *)
Definition unused (id : string) (d : Dispatcher) : Prop := dsDeliveries d !! id = None /\ id ∉ retry_ids d.

Lemma left_after_lt r r' : 0 <= r -> r < r' -> r' <= Z.of_nat M -> (S (left_after r') <= left_after r)%nat.
Proof. unfold left_after. lia. Qed.

(** The new row of a finished attempt costs less than its job did. *)
Lemma insert_potential (f : Failures) w d :
  outbound_inv d -> unused (wdID w) d -> (wdStatus w = StatusPendingRetry -> 0 <= wdRetryCount w < Z.of_nat M) ->
  outbound_inv (InsertWebhookDelivery f w d)
  /\ (potential (InsertWebhookDelivery f w d) <= potential d + (if bool_decide (wdStatus w = StatusPendingRetry) then left_after (wdRetryCount w) else 0))%nat
  /\ dsPosts (InsertWebhookDelivery f w d) = dsPosts d /\ dsJobs (InsertWebhookDelivery f w d) = dsJobs d
  /\ retry_ids (InsertWebhookDelivery f w d) = retry_ids d
  /\ (forall id, id <> wdID w -> unused id d -> unused id (InsertWebhookDelivery f w d)).
Proof.
  intros I [Hu Hl] Hr. unfold InsertWebhookDelivery. destruct (f _); [split_and!; (done || lia)|]. destruct (_ || _); [split_and!; (done || lia)|].
  set (row := mkWebhookDelivery _ _ _ _ _ _ _ _ _ _ _). split_and!; try done.
  - destruct I as [I1 I2 I3 I4 I5 I6]. constructor; try done; simpl.
    + intros id x [[<- <-]|[_ Hx]]%lookup_insert_Some; [done|by apply I4].
    + rewrite Forall_forall in I5 |- *. intros x Hin. destruct (I5 x Hin) as [Hx Hrow]. split; [done|].
      intros y [[E <-]|[_ Hy]]%lookup_insert_Some; [|by apply Hrow]. destruct Hl. rewrite E. by apply list_elem_of_fmap_2.
  - assert (total (row_weight (retry_ids d)) (<[wdID w := row]> (dsDeliveries d)) + at_key (row_weight (retry_ids d)) (dsDeliveries d) (wdID w)
      = total (row_weight (retry_ids d)) (dsDeliveries d) + at_key (row_weight (retry_ids d)) (<[wdID w := row]> (dsDeliveries d)) (wdID w))%nat as Ht
      by (apply total_change; [by rewrite delete_insert_eq|done]).
    unfold at_key in Ht. rewrite Hu, lookup_insert_eq in Ht. unfold potential. simpl. unfold retry_ids in *. simpl in *.
    assert (row_weight (map wdID (dsRetries d)) (wdID w) row <= if bool_decide (wdStatus w = StatusPendingRetry) then left_after (wdRetryCount w) else 0)%nat
      by (unfold row_weight; simpl; do 2 case_bool_decide; simpl; lia). lia.
  - intros id Hne [Hu' Hl']. split; [|done]. simpl. by rewrite lookup_insert_ne.
Qed.

(** A circuit or the record of a request changes nothing of this. *)
Lemma inv_breakers d m : outbound_inv d -> outbound_inv (set_breakers d m).
Proof. intros []. by constructor. Qed.

Lemma inv_post d j : outbound_inv d -> outbound_inv (add_post d j).
Proof. intros []. by constructor. Qed.

Ltac new_row := first [done | by auto using inv_breakers, inv_post | simpl; rewrite ?length_app; simpl; lia].

(** The end of an attempt: its job gave way to at most one request and what is left to retry. *)
Lemma deliver_potential (f : Failures) j a id now d :
  outbound_inv d -> job_ok j -> unused id d ->
  let d' := deliver f status_text j a id now d in
  outbound_inv d' /\ (length (dsPosts d') + potential d' <= length (dsPosts d) + potential d + job_weight j)%nat
  /\ dsJobs d' = dsJobs d /\ (forall id', id' <> id -> unused id' d -> unused id' d').
Proof.
  intros I [Hr Hm] Hu. cbv zeta.
  assert (forall (w : WebhookDelivery) d1, wdID w = id -> outbound_inv d1 -> unused id d1 -> potential d1 = potential d -> dsJobs d1 = dsJobs d ->
    (length (dsPosts d1) <= length (dsPosts d) + 1)%nat -> (forall id', unused id' d -> unused id' d1) ->
    (wdStatus w = StatusPendingRetry -> wdRetryCount w = jRetry j /\ jRetry j < owMaxRetries (jHook j)) ->
    outbound_inv (InsertWebhookDelivery f w d1) /\ (length (dsPosts (InsertWebhookDelivery f w d1)) + potential (InsertWebhookDelivery f w d1)
      <= length (dsPosts d) + potential d + job_weight j)%nat
    /\ dsJobs (InsertWebhookDelivery f w d1) = dsJobs d /\ (forall id', id' <> id -> unused id' d -> unused id' (InsertWebhookDelivery f w d1))) as Hrow.
  { intros w d1 Hid I1 Hu1 Hp Hj Hl Hun Hw.
    destruct (insert_potential f w d1 I1) as (I' & Hp' & Hl' & Hj' & _ & Hun'); [by rewrite Hid|intros E; apply Hw in E as [-> ?]; lia|].
    split_and!; [done| |congruence|intros id' Hne Hid'; apply Hun'; [by rewrite Hid|by apply Hun]].
    unfold job_weight. revert Hp'. case_bool_decide as E; [apply Hw in E as [-> ?]|]; rewrite Hl'; lia. }
  unfold deliver. destruct (attempt_result a) as [requests o]. unfold after_attempt.
  assert (forall code body msg d1, d1 = add_post d (j, requests) -> let d2 := handleFailure f j code body msg id now d1 in
    outbound_inv d2 /\ (length (dsPosts d2) + potential d2 <= length (dsPosts d) + potential d + job_weight j)%nat
    /\ dsJobs d2 = dsJobs d /\ (forall id', id' <> id -> unused id' d -> unused id' d2)) as Hfail.
  { intros code body msg d1 ->. unfold handleFailure, incrementBreaker. cbv zeta.
    destruct (owBackoffSeconds (jHook j) !! _); [destruct (Z.ltb_spec (jRetry j) (owMaxRetries (jHook j)))|]; apply Hrow; new_row. }
  destruct o as [err|err|code body]; simpl; [|by apply Hfail|].
  - apply Hrow; try new_row. simpl. by case_bool_decide.
  - destruct (_ && _); [|by apply Hfail]. unfold recordDelivery, resetBreaker. apply Hrow; new_row.
Qed.

(** ** The list of retries *)

Lemma insert_next_perm w l : insert_next w l ≡ₚ w :: l.
Proof. induction l as [|x l IH]; simpl; [done|]. destruct (_ <=? _); [done|]. rewrite IH. constructor. Qed.

Lemma pending_perm now d : ListPendingRetries now d ≡ₚ List.filter (due now d) (map snd (map_to_list (dsDeliveries d))).
Proof.
  unfold ListPendingRetries. induction (List.filter _ _) as [|w l IH]; simpl; [done|]. by rewrite insert_next_perm, IH.
Qed.

Lemma listed_pending now d w :
  outbound_inv d -> w ∈ ListPendingRetries now d <-> dsDeliveries d !! wdID w = Some w /\ due now d w = true.
Proof.
  intros I. rewrite pending_perm, filter_elem. split; intros [Hin Hd]; (split; [|done]).
  - apply list_elem_of_In, in_map_iff in Hin as ([k v] & Hv & Hkv). simpl in Hv. subst v.
    apply list_elem_of_In, elem_of_map_to_list in Hkv. by destruct (oi_rows d I k w Hkv) as [-> _].
  - apply list_elem_of_In, in_map_iff. exists (wdID w, w). split; [done|]. by apply list_elem_of_In, elem_of_map_to_list.
Qed.

Lemma due_pending now d w : due now d w = true -> wdStatus w = StatusPendingRetry.
Proof. unfold due. intros Hd. by to_prop. Qed.

Lemma NoDup_map_filter {A B} (g : A -> B) (p : A -> bool) l : NoDup (map g l) -> NoDup (map g (List.filter p l)).
Proof.
  induction l as [|x l IH]; simpl; [done|]. intros [Hx Hl]%NoDup_cons. destruct (p x); simpl; [|by apply IH].
  constructor; [|by apply IH]. intros Hin. destruct Hx. apply list_elem_of_In, in_map_iff in Hin as (y & <- & Hy).
  apply list_elem_of_In, filter_elem in Hy as [Hy _]. by apply list_elem_of_fmap_2.
Qed.

Lemma pending_nodup now d : outbound_inv d -> NoDup (map wdID (ListPendingRetries now d)).
Proof.
  intros I. rewrite (fmap_Permutation wdID _ _ (pending_perm now d)). apply NoDup_map_filter. rewrite map_map.
  rewrite (map_ext_in _ fst); [apply NoDup_fst_map_to_list|]. intros [k v] Hin. simpl.
  apply list_elem_of_In, elem_of_map_to_list in Hin. by apply (oi_rows d I) in Hin as [-> _].
Qed.

Lemma sum_perm {A} (g : A -> nat) l l' : l ≡ₚ l' -> sum_list_with g l = sum_list_with g l'.
Proof. by intros ->. Qed.

Lemma sum_filter {A B} (g : B -> nat) (p : B -> bool) (l : list (A * B)) :
  sum_list_with g (List.filter p (map snd l)) = sum_list_with (fun kv => if p kv.2 then g kv.2 else 0%nat) l.
Proof. induction l as [|kv l IH]; simpl; [done|]. destruct (p kv.2); simpl; by rewrite IH. Qed.

Lemma list_potential now d :
  outbound_inv d -> dsRetries d = [] ->
  outbound_inv (set_retries d (ListPendingRetries now d)) /\ potential (set_retries d (ListPendingRetries now d)) = potential d.
Proof.
  intros I He. pose proof (pending_nodup now d I) as Hnd. pose proof (listed_pending now d) as Hel. split.
  - destruct I as [I1 I2 I3 I4 I5 I6]. constructor; try done. simpl. apply Forall_forall. intros w Hw.
    apply Hel in Hw as [Hrow Hd]; [|by constructor]. split; [apply (I4 _ _ Hrow); by apply (due_pending now d)|]. intros row Hr. by simplify_eq.
  - unfold potential, retry_ids. simpl. rewrite He. simpl.
    rewrite (sum_perm _ _ _ (pending_perm now d)), sum_filter. fold (total (fun _ w => if due now d w then left_after (wdRetryCount w) else 0%nat) (dsDeliveries d)).
    rewrite (total_add (row_weight []) (fun _ w => if due now d w then left_after (wdRetryCount w) else 0%nat)
      (row_weight (map wdID (ListPendingRetries now d))) (dsDeliveries d)); [lia|].
    intros k w Hk. pose proof (oi_rows d I k w Hk) as [<- _]. unfold row_weight. destruct (due now d w) eqn:Hd.
    + rewrite (bool_decide_eq_true_2 (wdStatus w = _)) by (by apply (due_pending now d)). simpl.
      rewrite bool_decide_eq_true_2; [simpl; lia|]. apply list_elem_of_fmap_2. by apply Hel.
    + rewrite (bool_decide_eq_false_2 (wdID w ∈ map _ _)); [done|]. intros (x & Hx & Hin)%list_elem_of_fmap. apply Hel in Hin as [Hrow Hdx]; [|done].
      rewrite <- Hx in Hrow. rewrite Hk in Hrow. injection Hrow as <-. congruence.
Qed.

Definition still_pending (m : gmap string WebhookDelivery) (id : string) : bool :=
  match m !! id with Some row => bool_decide (wdStatus row = StatusPendingRetry) | None => false end.

(** Going on to the next row: what the list held of it returns to the row, or is gone. *)
Lemma pop_potential d w rest (m' : gmap string WebhookDelivery) :
  outbound_inv d -> dsRetries d = w :: rest -> delete (wdID w) m' = delete (wdID w) (dsDeliveries d) ->
  (forall row, m' !! wdID w = Some row -> exists old, dsDeliveries d !! wdID w = Some old /\ wdID row = wdID old
     /\ wdRetryCount row = wdRetryCount old /\ (wdStatus row = StatusPendingRetry -> row = old)) ->
  let d' := set_deliveries (set_retries d rest) m' in
  outbound_inv d' /\ (forall id, unused id d -> unused id d')
  /\ (potential d' + (if still_pending m' (wdID w) then 0 else left_after (wdRetryCount w)) <= potential d)%nat.
Proof.
  intros I Hr Hd Hrow d'. destruct I as [I1 I2 I3 I4 I5 I6]. unfold retry_ids in I6. rewrite Hr in I5, I6.
  assert (forall k x, m' !! k = Some x -> exists old, dsDeliveries d !! k = Some old /\ wdID x = wdID old
     /\ wdRetryCount x = wdRetryCount old /\ (wdStatus x = StatusPendingRetry -> x = old)) as Hold.
  { intros k x Hx. destruct (decide (k = wdID w)) as [->|Hne]; [by apply Hrow|].
    assert (dsDeliveries d !! k = Some x) as Hkx by (rewrite <- (lookup_delete_ne _ (wdID w) k), <- Hd, lookup_delete_ne; done).
    by exists x. }
  inversion I5 as [|? ? [Hw Hwrow] I5']; subst. apply NoDup_cons in I6 as [Hnw I6']. split_and!.
  - constructor; try done.
    + intros k x (old & Ho & Hid & Hc & Hs)%Hold. destruct (I4 k old Ho) as [Hk Hp]. split; [congruence|].
      intros E. rewrite Hc. apply Hp. by rewrite <- (Hs E).
    + simpl. eapply Forall_impl; [exact I5'|]. intros x [Hx Hxr]. split; [done|]. intros row (old & Ho & _ & Hc & _)%Hold. rewrite Hc. by apply Hxr.
  - intros id [Hu Hl]. split.
    + simpl. destruct (m' !! id) as [x|] eqn:E; [|done]. apply Hold in E as (old & Ho & _). congruence.
    + unfold retry_ids in *. rewrite Hr in Hl. simpl in *. by apply not_elem_of_cons in Hl as [_ ?].
  - unfold potential, retry_ids. simpl. rewrite Hr. simpl.
    assert (total (row_weight (map wdID rest)) m' + at_key (row_weight (wdID w :: map wdID rest)) (dsDeliveries d) (wdID w)
      = total (row_weight (wdID w :: map wdID rest)) (dsDeliveries d) + at_key (row_weight (map wdID rest)) m' (wdID w))%nat as Ht.
    { apply total_change; [done|]. intros k' v Hne _. unfold row_weight.
      assert (bool_decide (k' ∈ wdID w :: map wdID rest) = bool_decide (k' ∈ map wdID rest)) as ->; [|done]. apply bool_decide_ext.
      rewrite elem_of_cons. split; [by intros [?|?]|by right]. }
    assert (at_key (row_weight (wdID w :: map wdID rest)) (dsDeliveries d) (wdID w) = 0%nat) as H0.
    { unfold at_key. destruct (dsDeliveries d !! wdID w); [|reflexivity]. unfold row_weight. rewrite (bool_decide_eq_true_2 (wdID w ∈ _)) by left. by rewrite andb_false_r. }
    assert (at_key (row_weight (map wdID rest)) m' (wdID w) <= if still_pending m' (wdID w) then left_after (wdRetryCount w) else 0)%nat as Hk.
    { unfold at_key, still_pending. destruct (m' !! wdID w) as [row|] eqn:E; [|lia]. unfold row_weight. case_bool_decide as Ep.
      - destruct (Hrow row eq_refl) as (old & Ho & _ & Hc & _).
        rewrite Hc, (Hwrow old Ho). destruct (true && _); lia.
      - simpl. lia. }
    destruct (still_pending m' (wdID w)); lia.
Qed.

(** ** One step *)

(** What a step may add: the jobs of a dispatch *)
Definition step_ok (f : Failures) (st : Step) (d d' : Dispatcher) (ids : list string) : Prop :=
  outbound_inv d' /\ (length (dsPosts d') + potential d' <= length (dsPosts d) + potential d + S M * dispatched vault status_text f st d)%nat
  /\ forall id, id ∉ ids -> unused id d -> unused id d'.

Lemma send_ok (f : Failures) event now d : outbound_inv d -> step_ok f (StSend event now) d (SendEvent f vault event now d) [].
Proof.
  intros I. unfold step_ok, dispatched, apply_step, SendEvent. destruct (f _); [split_and!; [done|lia|done]|].
  set (new := concat _). simpl.
  assert (Forall (fun j => jRetry j = 0 /\ owMaxRetries (jHook j) <= Z.of_nat M) new) as Hnew.
  { apply Forall_forall. intros j Hj. unfold new in Hj. apply list_elem_of_In, in_concat in Hj as (l & Hl & Hj).
    apply in_map_iff in Hl as (wh & <- & Hwh). apply list_elem_of_In, filter_elem in Hwh as [Hwh _].
    apply list_elem_of_In, in_map_iff in Hwh as ([k h] & E & Hkh). simpl in E. subst h. apply list_elem_of_In, elem_of_map_to_list in Hkh.
    unfold dispatch_one in Hj. repeat (destruct (_ && _) in Hj || destruct (negb _) in Hj || destruct (isCircuitOpen _ _ _ _) in Hj; [done|]).
    destruct (buildPayload _ _ _); [|done]. destruct Hj as [<-|[]]. simpl. split; [done|]. by apply (oi_hooks d I k). }
  assert (sum_list_with job_weight new = S M * length new)%nat as Hsum.
  { clear -Hnew. induction Hnew as [|j l [Hj _] _ IH]; [done|]. simpl. rewrite IH. unfold job_weight, left_after. rewrite Hj. lia. }
  split_and!; [| |done].
  - destruct I. constructor; try done. simpl. apply Forall_app. split; [done|]. eapply Forall_impl; [exact Hnew|]. intros j [Hr Hm]. split; [lia|done].
  - unfold potential, retry_ids. simpl. rewrite sum_list_with_app, length_app, Hsum. lia.
Qed.

Lemma unused_jobs d l id : unused id d -> unused id (set_jobs d l).
Proof. done. Qed.

Lemma job_ok_step (f : Failures) i o id now d :
  outbound_inv d -> unused id d -> step_ok f (StJob i o id now) d (apply_step vault status_text f (StJob i o id now) d) [id].
Proof.
  intros I Hu. unfold step_ok. simpl. destruct (dsJobs d !! i) as [j|] eqn:Ei; [|split_and!; [done|lia|done]].
  assert (dsJobs d = take i (dsJobs d) ++ j :: drop (S i) (dsJobs d)) as Hsplit by (symmetry; by apply take_drop_middle).
  assert (job_ok j) as Hj by (eapply Forall_lookup_1; [apply (oi_jobs d I)|done]).
  set (d1 := set_jobs d (take i (dsJobs d) ++ drop (S i) (dsJobs d))).
  assert (outbound_inv d1) as I1.
  { destruct I as [I1 I2 I3 I4 I5 I6]. constructor; try done. simpl. rewrite Hsplit in I2. apply Forall_app in I2 as [? I2]. inversion I2; subst. by apply Forall_app. }
  destruct (deliver_potential f j o id now d1 I1 Hj Hu) as (I' & Hp & _ & Hun). split_and!; [done| |].
  - assert (potential d1 + job_weight j = potential d)%nat as Hd1.
    { pose proof (f_equal (sum_list_with job_weight) Hsplit) as E. rewrite sum_list_with_app in E. cbn [sum_list_with] in E.
      unfold potential, retry_ids. subst d1. simpl. rewrite sum_list_with_app. lia. }
    simpl in Hp. lia.
  - intros id' Hid Hu'. apply Hun; [by intros ->; apply Hid; left|done].
Qed.

Lemma retry_job_step (f : Failures) o id now d :
  outbound_inv d -> unused id d -> step_ok f (StRetryJob o id now) d (apply_step vault status_text f (StRetryJob o id now) d) [id].
Proof.
  intros I Hu. unfold step_ok. simpl. destruct (dsRetryJob d) as [j|] eqn:Ej; [|split_and!; [done|lia|done]].
  set (d1 := set_retry_job d None).
  assert (outbound_inv d1) as I1 by (destruct I; by constructor).
  destruct (deliver_potential f j o id now d1 I1 (oi_retry d I j Ej) Hu) as (I' & Hp & _ & Hun). split_and!; [done| |].
  - assert (potential d1 + job_weight j = potential d)%nat as Hd1 by (unfold potential, retry_ids; subst d1; simpl; rewrite Ej; lia).
    simpl in Hp. lia.
  - intros id' Hid Hu'. apply Hun; [by intros ->; apply Hid; left|done].
Qed.

Lemma same_row (row : WebhookDelivery) : exists old, Some row = Some old /\ wdID row = wdID old /\ wdRetryCount row = wdRetryCount old /\ (wdStatus row = StatusPendingRetry -> row = old).
Proof. by exists row. Qed.

Lemma delete_alter_same (g : WebhookDelivery -> WebhookDelivery) k (m : gmap string WebhookDelivery) : delete k (alter g k m) = delete k m.
Proof.
  apply map_eq. intros k'. destruct (decide (k' = k)) as [->|Hne]; [by rewrite !lookup_delete_eq|].
  rewrite !lookup_delete_ne, lookup_alter_ne by done. done.
Qed.

Lemma next_step (f : Failures) now d :
  outbound_inv d -> f "update delivery status" = None ->
  step_ok f (StRetry now) d (apply_step vault status_text f (StRetry now) d) [].
Proof.
  intros I Hf. unfold step_ok. simpl. destruct (dsRetryJob d) eqn:Ej; [split_and!; [done|lia|done]|]. unfold retry_next.
  destruct (dsRetries d) as [|w rest] eqn:Hr; [split_and!; [done|lia|done]|].
  destruct (pop_potential d w rest (dsDeliveries d) I Hr eq_refl) as (Ik & Hk & Pk); [intros row ->; apply same_row|].
  assert (forall code body msg, let d2 := UpdateDeliveryStatus f (wdID w) StatusFailed code body msg (set_retries d rest) in
    outbound_inv d2 /\ (forall id, unused id d -> unused id d2) /\ (potential d2 + left_after (wdRetryCount w) <= potential d)%nat /\ dsRetryJob d2 = None) as Hupd.
  { intros code body msg. unfold UpdateDeliveryStatus. rewrite Hf. cbv zeta.
    destruct (pop_potential d w rest (alter (with_delivery_status StatusFailed code body msg) (wdID w) (dsDeliveries d)) I Hr) as (Iu & Hu & Pu).
    { apply delete_alter_same. }
    { rewrite lookup_alter_eq. intros row (old & Ho & ->)%fmap_Some. exists old. by rewrite Ho. }
    split_and!; [done|done| |done]. revert Pu. unfold still_pending. rewrite lookup_alter_eq. destruct (_ !! _); done. }
  assert (outbound_inv (set_retries d rest)) as Ik' by exact Ik.
  assert (forall d2, outbound_inv d2 -> (forall id, unused id d -> unused id d2) -> dsPosts d2 = dsPosts d -> (potential d2 <= potential d)%nat ->
    outbound_inv d2 /\ (length (dsPosts d2) + potential d2 <= length (dsPosts d) + potential d + S M * 0)%nat /\ (forall id, id ∉ [] -> unused id d -> unused id d2)) as Hdone.
  { intros d2 I2 Hu2 Hp2 Hle. split_and!; [done|rewrite Hp2; lia|auto]. }
  assert (potential (set_retries d rest) <= potential d)%nat as Hskip by (unfold potential, retry_ids in *; simpl in *; lia).
  destruct (match f _ with Some _ => None | None => _ end) as [wh|] eqn:Hw.
  2:{ destruct (Hupd 0 EmptyString "webhook deleted") as (I2 & U2 & P2 & _). apply Hdone; [done|done| |lia]. unfold UpdateDeliveryStatus. by rewrite Hf. }
  destruct (negb _); [by apply Hdone|]. destruct (isCircuitOpen _ _ _ _); [by apply Hdone|].
  destruct (Hupd (wdHTTPCode w) (wdResponseBody w) (wdErrorMessage w)) as (Iu & Hu & Pu & Ju).
  set (d2 := UpdateDeliveryStatus _ _ _ _ _ _ _) in *. set (j := mkJob _ _ _ _ _).
  pose proof (oi_list d I) as Hl. rewrite Hr in Hl. apply Forall_cons in Hl as [[Hb _] _].
  assert (job_ok j) as Hj.
  { split; [simpl; lia|]. simpl. clear -I Hw. break_in Hw; [done|]. by apply (oi_hooks d I (wdWebhookID w)). }
  split_and!; [| |intros id _; apply Hu].
  - destruct Iu as [I1 I2 I3 I4 I5 I6]. constructor; try done. simpl. by intros ? [= <-].
  - assert (potential (set_retry_job d2 (Some j)) = potential d2 + job_weight j)%nat as -> by (unfold potential, retry_ids; simpl; rewrite Ju; lia).
    assert (dsPosts (set_retry_job d2 (Some j)) = dsPosts d) as -> by (unfold d2, UpdateDeliveryStatus; simpl; by rewrite Hf).
    unfold job_weight. simpl. pose proof (left_after_lt (wdRetryCount w) (wdRetryCount w + 1) ltac:(lia) ltac:(lia) ltac:(lia)). lia.
Qed.

(** The rows that are left of a table *)
Lemma fewer_rows d m hooks :
  outbound_inv d -> m ⊆ dsDeliveries d -> (forall id h, hooks !! id = Some h -> owMaxRetries h <= Z.of_nat M) ->
  let d' := mkDispatcher hooks m (dsBreakers d) (dsJobs d) (dsRetries d) (dsRetryJob d) (dsPosts d) in
  outbound_inv d' /\ (potential d' <= potential d)%nat /\ (forall id, unused id d -> unused id d').
Proof.
  intros [I1 I2 I3 I4 I5 I6] Hs Hh d'. split_and!.
  - constructor; try done.
    + intros id w Hw. apply (I4 id). by eapply lookup_weaken.
    + eapply Forall_impl; [exact I5|]. intros w [Hw Hr]. split; [done|]. intros row Hrow. apply Hr. by eapply lookup_weaken.
  - unfold potential. subst d'. simpl. pose proof (total_subset (row_weight (retry_ids d)) m (dsDeliveries d) Hs). unfold retry_ids in *. simpl. lia.
  - intros id [Hu Hl]. split; [|done]. by eapply lookup_weaken_None.
Qed.

Lemma crash_ok d : outbound_inv d ->
  let d' := mkDispatcher (dsHooks d) (dsDeliveries d) ∅ [] [] None (dsPosts d) in
  outbound_inv d' /\ (potential d' <= potential d)%nat /\ (forall id, unused id d -> unused id d').
Proof.
  intros I d'.
  assert (forall l d0, dsRetries d0 = l -> outbound_inv d0 -> outbound_inv (set_retries d0 []) /\ (potential (set_retries d0 []) <= potential d0)%nat) as Hdrop.
  { induction l as [|w l IH]; intros d0 Hl I0; [destruct d0; simpl in *; subst; by split|].
    destruct (pop_potential d0 w l (dsDeliveries d0) I0 Hl eq_refl) as (Ik & _ & Pk); [intros row ->; apply same_row|].
    destruct (IH (set_retries d0 l) eq_refl Ik) as [I2 P2]. split; [done|]. unfold potential, retry_ids in *. simpl in *. lia. }
  destruct (Hdrop _ d eq_refl I) as [[I1 I2 I3 I4 I5 I6] P2]. split_and!.
  - constructor; try done.
  - unfold potential, retry_ids in *. subst d'. simpl in *. lia.
  - intros id [Hu _]. split; [done|apply not_elem_of_nil].
Qed.

Definition ids_of (st : Step) : list string := match st with StJob _ _ id _ | StRetryJob _ id _ => [id] | _ => [] end.

(** Every webhook is configured with at most [M] retries. *)
Definition configured (st : Step) : Prop := match st with StCreate wh _ | StUpdate wh _ => owMaxRetries wh <= Z.of_nat M | _ => True end.

Lemma one_step (f : Failures) st d :
  outbound_inv d -> f "update delivery status" = None -> configured st -> Forall (fun id => unused id d) (ids_of st) ->
  step_ok f st d (apply_step vault status_text f st d) (ids_of st).
Proof.
  intros I Hf Hc Hids.
  assert (forall d2, outbound_inv d2 /\ (potential d2 <= potential d)%nat /\ (forall id, unused id d -> unused id d2) -> dsPosts d2 = dsPosts d ->
    outbound_inv d2 /\ (length (dsPosts d2) + potential d2 <= length (dsPosts d) + potential d + S M * 0)%nat /\ (forall id, id ∉ [] -> unused id d -> unused id d2)) as Hdone.
  { intros d2 (I2 & P2 & U2) Hp2. split_and!; [done|rewrite Hp2; lia|auto]. }
  assert (outbound_inv d /\ (potential d <= potential d)%nat /\ (forall id, unused id d -> unused id d)) as Hsame by auto.
  destruct st as [event now|i o id now|now|now|o id now|wh now|wh now|id|older now|]; simpl in *.
  - by apply send_ok.
  - inversion Hids; subst. by apply job_ok_step.
  - apply Hdone; [|by repeat break].
    destruct (dsRetries d) as [|w l] eqn:Hr; [|exact Hsame]. destruct (dsRetryJob d) as [j|]; [exact Hsame|]. destruct (f "list pending retries"); [exact Hsame|].
    destruct (list_potential now d I Hr) as [I2 P2]. split_and!; [done|lia|]. intros id [Hu Hl]. split; [done|].
    intros (x & -> & Hin)%list_elem_of_fmap. apply listed_pending in Hin as [Hx _]; [|done]. simpl in *. congruence.
  - by apply next_step.
  - inversion Hids; subst. by apply retry_job_step.
  - unfold CreateOutboundWebhook. destruct (f "create outbound webhook"); [|case_bool_decide]; apply Hdone; try done; try exact Hsame.
    apply (fewer_rows d); [done|done|]. intros id h [[<- <-]|[_ Hh]]%lookup_insert_Some; [done|by apply (oi_hooks d I id)].
  - unfold UpdateOutboundWebhook. destruct (f "update outbound webhook"); [|destruct (dsHooks d !! owID wh)]; apply Hdone; try done; try exact Hsame.
    apply (fewer_rows d); [done|done|]. intros id h [[<- <-]|[_ Hh]]%lookup_insert_Some; [done|by apply (oi_hooks d I id)].
  - unfold DeleteOutboundWebhook. destruct (f "delete outbound webhook"); [|destruct (dsHooks d !! id)]; apply Hdone; try done; try exact Hsame.
    apply (fewer_rows d); [done|apply map_filter_subseteq|]. simpl. intros i h [_ Hh]%lookup_delete_Some. by apply (oi_hooks d I i).
  - unfold PruneWebhookDeliveries. destruct (f "prune webhook deliveries"); apply Hdone; try done; try exact Hsame.
    apply (fewer_rows d); [done|apply map_filter_subseteq|apply (oi_hooks d I)].
  - apply Hdone; [|done]. by apply crash_ok.
Qed.

(** *** Requests *)

(** The requests of all attempts *)
Definition requests_made (d : Dispatcher) : list bool := concat (map snd (dsPosts d)).

Definition ten_each (l : list (Job * list bool)) : Prop := Forall (fun p => (length p.2 <= 10)%nat) l.

Lemma client_post_length more post answers : (length (client_post more post answers).1 <= S more)%nat.
Proof.
  revert post answers. induction more as [|more IH]; intros post [|[r|e] answers]; simpl; try lia;
    (destruct (redirect_method _ _) as [post'|]; [|simpl; lia]); (destruct (wrLocation r); simpl; try lia).
  specialize (IH post' answers). destruct (client_post more post' answers). simpl in *. lia.
Qed.

Lemma insert_posts (f : Failures) w d : dsPosts (InsertWebhookDelivery f w d) = dsPosts d.
Proof. unfold InsertWebhookDelivery. destruct (f _); [done|]. by destruct (_ || _). Qed.

Lemma failure_posts (f : Failures) j code body msg id now d : dsPosts (handleFailure f j code body msg id now d) = dsPosts d.
Proof. unfold handleFailure. destruct (owBackoffSeconds _ !! _); [destruct (_ <? _)|]; by rewrite insert_posts. Qed.

Lemma deliver_ten (f : Failures) j a id now d : ten_each (dsPosts d) -> ten_each (dsPosts (deliver f status_text j a id now d)).
Proof.
  intros Hd. unfold deliver. assert (length (attempt_result a).1 <= 10)%nat as Ha.
  { destruct a as [err|answers]; [simpl; lia|]. apply (client_post_length 9). }
  destruct (attempt_result a) as [requests o]. simpl in Ha.
  assert (ten_each (dsPosts (add_post d (j, requests)))) as Hadd by (apply Forall_app; split; [done|by apply Forall_singleton]).
  unfold after_attempt. destruct o as [err|err|code body]; unfold recordDelivery; rewrite ?insert_posts, ?failure_posts; try done.
  destruct (_ && _); by rewrite ?insert_posts, ?failure_posts.
Qed.

Lemma step_ten (f : Failures) st d : ten_each (dsPosts d) -> ten_each (dsPosts (apply_step vault status_text f st d)).
Proof.
  intros Hd. destruct st; simpl.
  - unfold SendEvent. by destruct (f _).
  - destruct (dsJobs d !! i); [|done]. by apply deliver_ten.
  - by destruct (dsRetries d), (dsRetryJob d), (f "list pending retries").
  - destruct (dsRetryJob d); [done|]. unfold retry_next, UpdateDeliveryStatus. destruct (dsRetries d) as [|w rest]; [done|].
    destruct (f "get outbound webhook"), (f "update delivery status"), (dsHooks d !! wdWebhookID w); simpl; try done; repeat case_match; done.
  - destruct (dsRetryJob d); [|done]. by apply deliver_ten.
  - unfold CreateOutboundWebhook. destruct (f _); [done|]. by case_bool_decide.
  - unfold UpdateOutboundWebhook. by destruct (f _), (dsHooks d !! owID wh).
  - unfold DeleteOutboundWebhook. by destruct (f _), (dsHooks d !! id).
  - unfold PruneWebhookDeliveries. by destruct (f _).
  - done.
Qed.

Lemma run_ten steps d : ten_each (dsPosts d) -> ten_each (dsPosts (run_dispatcher vault status_text steps d)).
Proof.
  unfold run_dispatcher. revert d. induction steps as [|s steps IH]; intros d Hd; simpl; [done|]. by apply IH, step_ten.
Qed.

Lemma ten_requests l : ten_each l -> (length (concat (map snd l)) <= 10 * length l)%nat.
Proof. induction 1 as [|p l Hp _ IH]; simpl; [lia|]. rewrite length_app. lia. Qed.

Lemma attempts_bounded steps d :
  outbound_inv d -> potential d = 0%nat -> dsPosts d = [] ->
  Forall (fun s => s.1 "update delivery status" = None /\ configured s.2) steps ->
  NoDup (concat (map (fun s => ids_of s.2) steps)) -> Forall (fun id => unused id d) (concat (map (fun s => ids_of s.2) steps)) ->
  (length (dsPosts (run_dispatcher vault status_text steps d)) <= S M * total_dispatched vault status_text steps d)%nat.
Proof.
  intros I Hp Hposts. cut (forall steps d, outbound_inv d -> Forall (fun s => s.1 "update delivery status" = None /\ configured s.2) steps ->
    NoDup (concat (map (fun s => ids_of s.2) steps)) -> Forall (fun id => unused id d) (concat (map (fun s => ids_of s.2) steps)) ->
    (length (dsPosts (run_dispatcher vault status_text steps d)) <= length (dsPosts d) + potential d + S M * total_dispatched vault status_text steps d)%nat).
  { intros Hcut Hok Hnd Hun. etransitivity; [by apply Hcut|]. rewrite Hposts, Hp. simpl. lia. }
  clear. induction steps as [|[f st] steps IH]; intros d I Hok Hnd Hun; simpl; [lia|].
  inversion Hok as [|? ? [Hf Hc] Hok']; subst. simpl in *. apply NoDup_app in Hnd as (_ & Hdis & Hnd'). apply Forall_app in Hun as [Hun Hun'].
  destruct (one_step f st d I Hf Hc Hun) as (I' & Hle & Hun2).
  specialize (IH (apply_step vault status_text f st d) I' Hok' Hnd'). unfold run_dispatcher in *. simpl in *.
  etransitivity; [apply IH|lia]. rewrite Forall_forall in Hun' |- *. intros id Hid. apply Hun2; [|by apply Hun'].
  intros Hin. by apply (Hdis id).
Qed.

(** C35: however the steps of one process follow one another, whatever endpoints answer and webhooks are changed to,
    and across crashes, the attempts made are at most one and the retries that are configured for each dispatch of
    an event to a webhook, as long as the rows of retried deliveries can be updated; and since an attempt follows
    redirects the requests made are at most ten times as many. *)
Theorem posts_bounded steps d :
  outbound_inv d -> potential d = 0%nat -> dsPosts d = [] ->
  Forall (fun s => s.1 "update delivery status" = None /\ configured s.2) steps ->
  NoDup (concat (map (fun s => ids_of s.2) steps)) -> Forall (fun id => unused id d) (concat (map (fun s => ids_of s.2) steps)) ->
  let d' := run_dispatcher vault status_text steps d in
  let allowed := (S M * total_dispatched vault status_text steps d)%nat in
  (length (dsPosts d') <= allowed)%nat /\ (length (requests_made d') <= 10 * allowed)%nat.
Proof.
  intros I Hp Hposts Hok Hnd Hun d' allowed. pose proof (attempts_bounded steps d I Hp Hposts Hok Hnd Hun) as Ha. split; [exact Ha|].
  assert (ten_each (dsPosts d')) as Ht by (apply run_ten; rewrite Hposts; constructor).
  pose proof (ten_requests _ Ht). unfold requests_made. fold d' allowed in Ha. lia.
Qed.
End bound.

(** * Retries *)

(** The attempt ended without success. *)
Definition failed_outcome (o : Outcome) : bool :=
  match o with BadURL _ => false | NetError _ => true | Answered code _ => negb ((200 <=? code) && (code <? 300)) end.

Lemma insert_lookup (f : Failures) w d :
  f "insert webhook delivery" = None -> dsDeliveries d !! wdID w = None -> is_Some (dsHooks d !! wdWebhookID w) ->
  dsDeliveries (InsertWebhookDelivery f w d) !! wdID w = Some (mkWebhookDelivery (wdID w) (wdWebhookID w) (wdEventType w) (wdPayload w) (wdStatus w)
    (wdHTTPCode w) (wdResponseBody w) (wdRetryCount w) (db_time <$> wdNextRetryAt w) (wdErrorMessage w) (db_time (wdCreatedAt w)))
  /\ dsHooks (InsertWebhookDelivery f w d) = dsHooks d.
Proof.
  intros Hf Hn Hh. unfold InsertWebhookDelivery. rewrite Hf, Hn, bool_decide_eq_false_2 by by intros [? ?].
  rewrite bool_decide_eq_true_2 by done. simpl. by rewrite lookup_insert_eq.
Qed.

(** an attempt that failed, with retries and a pause left for it, is among the deliveries the loop reads once
    the pause is over, as long as its webhook is enabled; and when the loop comes to a delivery whose circuit is
    closed it posts the same payload again, counted as the next attempt. *)
Theorem failure_is_retried `{HookTexts} vault status_text (f : Failures) j a id now later h b d :
  f "insert webhook delivery" = None -> failed_outcome (attempt_result a).2 = true -> 0 <= jRetry j < owMaxRetries (jHook j) ->
  owBackoffSeconds (jHook j) !! Z.to_nat (jRetry j) = Some b -> dsDeliveries d !! id = None ->
  dsHooks d !! owID (jHook j) = Some h -> owEnabled h = true -> db_time (now + wrap64 (b * second)) <= db_time later ->
  (exists w, w ∈ ListPendingRetries later (deliver f status_text j a id now d)
     /\ wdID w = id /\ wdWebhookID w = owID (jHook j) /\ wdPayload w = jPayload j /\ wdRetryCount w = jRetry j)
  /\ forall w rest wh now' d2, dsRetries d2 = w :: rest -> dsHooks d2 !! wdWebhookID w = Some wh -> owEnabled wh = true ->
       isCircuitOpen (owID wh) (owCBThreshold wh) now' d2 = false ->
       exists headers, dsRetryJob (retry_next none_fails vault now' d2) = Some (mkJob wh (wdEventType w) (wdPayload w) headers (wdRetryCount w + 1)).
Proof.
  intros Hf Ho Hr Hb Hn Hh He Hlate. split.
  - unfold deliver. destruct (attempt_result a) as [requests o]. simpl in Ho.
    assert (exists code body msg d0, after_attempt f status_text j requests o id now d = InsertWebhookDelivery f
      (mkWebhookDelivery id (owID (jHook j)) (jEventType j) (jPayload j) StatusPendingRetry code body (jRetry j) (Some (now + wrap64 (b * second))) msg now) d0
      /\ dsDeliveries d0 = dsDeliveries d /\ dsHooks d0 = dsHooks d) as (code & body & msg & d0 & -> & Hd & Hhooks).
    { assert (forall code body msg, exists d0, handleFailure f j code body msg id now (add_post d (j, requests)) = InsertWebhookDelivery f
        (mkWebhookDelivery id (owID (jHook j)) (jEventType j) (jPayload j) StatusPendingRetry code body (jRetry j) (Some (now + wrap64 (b * second))) msg now) d0
        /\ dsDeliveries d0 = dsDeliveries d /\ dsHooks d0 = dsHooks d) as Hfail.
      { intros code body msg. unfold handleFailure. rewrite Hb, (proj2 (Z.ltb_lt _ _) (proj2 Hr)). by eexists. }
      destruct o as [e|e|code body]; [done|..]; simpl in *.
      - destruct (Hfail 0 EmptyString e) as (d0 & ? & ? & ?). by exists 0, EmptyString, e, d0.
      - apply negb_true_iff in Ho. rewrite Ho. destruct (Hfail code body (status_text code)) as (d0 & ? & ? & ?). by exists code, body, (status_text code), d0. }
    set (w := mkWebhookDelivery _ _ _ _ _ _ _ _ _ _ _).
    destruct (insert_lookup f w d0 Hf) as [Hrow Hsame]; [by rewrite Hd|rewrite Hhooks; by exists h|].
    match type of Hrow with _ = Some ?r => exists r end. split_and!; [|reflexivity..]. rewrite (pending_perm later _). apply filter_elem. split.
    + apply list_elem_of_In, in_map_iff. eexists (wdID w, _). split; [|by apply list_elem_of_In, elem_of_map_to_list, Hrow]. reflexivity.
    + unfold due. simpl. rewrite Hsame, Hhooks, Hh, He, (proj2 (Z.leb_le _ _) Hlate). done.
  - intros w rest wh now' d2 Hl Hw Hen Hc. unfold retry_next. rewrite Hl. simpl. rewrite Hw, Hen. simpl.
    assert (isCircuitOpen (owID wh) (owCBThreshold wh) now' (set_retries d2 rest) = isCircuitOpen (owID wh) (owCBThreshold wh) now' d2) as -> by done.
    rewrite Hc. by eexists.
Qed.

(** * Concrete webhooks *)
Section outbound_demo.
#[local] Instance demo_texts : HookTexts := {| path_match p s := String.eqb p s; default_payload e t := t +:+ ":" +:+ evTitle e; templated_payload t _ _ := Ok t |}.

Definition demo_text (code : Z) : string := "HTTP".

Definition demo_hook (threshold : Z) : OutboundWebhook :=
  mkOutboundWebhook "h1" "alerts" "https://hooks.example/x" EmptyString ["*"] EmptyString [] EmptyString 2 [5; 30] threshold 60 true 0 0.

Definition empty_dispatcher : Dispatcher := mkDispatcher ∅ ∅ ∅ [] [] None [].

Definition demo_event : HookEvent := mkHookEvent "agent_error" "critical" "a1" "boom" EmptyString 0.

Definition sec (n : Z) : Z := n * second.

Definition demo_run (fs : list (Failures * Step)) : Dispatcher := run_dispatcher None demo_text fs empty_dispatcher.

Definition ok (st : Step) : Failures * Step := (none_fails, st).

(** An endpoint that fails at first, and answers at the second retry *)
Definition flaky : list (Failures * Step) :=
  [ok (StCreate (demo_hook 10) 0); ok (StSend demo_event (sec 1)); ok (StJob 0 (Requests [inr "refused"]) "d1" (sec 1));
   ok (StList (sec 10)); ok (StRetry (sec 10)); ok (StRetryJob (Requests [inl (mkWireReply 503 NoLocation EmptyString)]) "d2" (sec 10));
   ok (StList (sec 20)); ok (StRetry (sec 20)); ok (StList (sec 40)); ok (StRetry (sec 40)); ok (StRetryJob (Requests [inl (mkWireReply 200 NoLocation "ok")]) "d3" (sec 41))].

Definition statuses (d : Dispatcher) : list (string * DeliveryStatus * Z) :=
  map (fun kv => (kv.1, wdStatus kv.2, wdRetryCount kv.2)) (map_to_list (dsDeliveries d)).

Example flaky_endpoint :
  statuses (demo_run flaky) ≡ₚ [("d1", StatusFailed, 0); ("d2", StatusFailed, 1); ("d3", StatusSuccess, 2)]
  /\ length (dsPosts (demo_run flaky)) = 3%nat.
Proof. split; [|vm_compute; reflexivity]. vm_compute. solve_Permutation. Qed.

(** A process that ends between the update of the row and the end of the attempt loses the delivery:
    nothing is pending any more. *)
Example crash_loses_retry :
  let d := demo_run (take 5 flaky ++ [ok StCrash]) in
  statuses d = [("d1", StatusFailed, 0)] /\ ListPendingRetries (sec 1000) d = [] /\ dsJobs d = [] /\ dsRetryJob d = None
  /\ length (dsPosts d) = 1%nat.
Proof. vm_compute. done. Qed.

(** So does a statement that fails when the webhook is read: any error counts as a deleted webhook. *)
Example failed_lookup_drops_retry :
  let broken : Failures := fun c => if bool_decide (c = "get outbound webhook") then Some "timeout" else None in
  let d := demo_run (take 4 flaky ++ [(broken, StRetry (sec 10))]) in
  map (fun kv => (wdStatus kv.2, wdErrorMessage kv.2)) (map_to_list (dsDeliveries d)) = [(StatusFailed, "webhook deleted")]
  /\ is_Some (dsHooks d !! "h1").
Proof. vm_compute. eauto. Qed.

(** When the row cannot be updated it stays pending, and is sent again every time. *)
Example unmarked_retry_repeats :
  let broken : Failures := fun c => if bool_decide (c = "update delivery status") then Some "timeout" else None in
  let again id := [ok (StList (sec 10)); (broken, StRetry (sec 10)); ok (StRetryJob (Requests [inl (mkWireReply 200 NoLocation EmptyString)]) id (sec 10))] in
  length (dsPosts (demo_run (take 3 flaky ++ again "e1" ++ again "e2" ++ again "e3" ++ again "e4"))) = 5%nat.
Proof. vm_compute. done. Qed.

(** A threshold of zero opens the circuit at the first failure; and a circuit whose time is over lets
    every event through, not one. *)
Example circuit_thresholds :
  let after threshold now := demo_run ([ok (StCreate (demo_hook threshold) 0); ok (StSend demo_event (sec 1)); ok (StJob 0 (Requests [inr "refused"]) "d1" (sec 1));
    ok (StSend demo_event now); ok (StSend demo_event now); ok (StSend demo_event now)]) in
  length (dsJobs (after 0 (sec 2))) = 0%nat /\ length (dsJobs (after 10 (sec 2))) = 3%nat /\ length (dsJobs (after 1 (sec 62))) = 3%nat.
Proof. vm_compute. done. Qed.

(** An endpoint that redirects with a 307 gets the payload as often as the client follows. *)
Example redirect_repeats_post :
  let self := inl (mkWireReply 307 Usable EmptyString) in
  let d := demo_run (take 2 flaky ++ [ok (StJob 0 (Requests (repeat self 20)) "d1" (sec 1))]) in
  map snd (dsPosts d) = [repeat true 10] /\ statuses d = [("d1", StatusPendingRetry, 0)].
Proof. vm_compute. done. Qed.

Lemma posts_bounded_witness :
  let d' := run_dispatcher None demo_text flaky empty_dispatcher in
  ((length (dsPosts d') <= 3 * total_dispatched None demo_text flaky empty_dispatcher)%nat
   /\ (length (requests_made d') <= 10 * (3 * total_dispatched None demo_text flaky empty_dispatcher))%nat)
  /\ total_dispatched None demo_text flaky empty_dispatcher = 1%nat.
Proof.
  split; [|vm_compute; reflexivity].
  apply (posts_bounded None demo_text 2 flaky empty_dispatcher).
  - constructor; try (intros ? ? E; discriminate E); try (intros ? E; discriminate E); constructor.
  - reflexivity.
  - reflexivity.
  - unfold flaky. repeat (apply Forall_cons; split; [split; [reflexivity|simpl; first [exact I | lia]]|]). apply Forall_nil_2.
  - apply (bool_decide_unpack _). vm_compute. exact I.
  - repeat (apply Forall_cons; split; [split; [reflexivity|apply not_elem_of_nil]|]). apply Forall_nil_2.
Defined.

Lemma failure_is_retried_witness :
  let d := demo_run (take 2 flaky) in let j := mkJob (demo_hook 10) "agent.error" "agent.error:boom" [] 0 in
  dsJobs d <> [] /\ exists w, w ∈ ListPendingRetries (sec 10) (deliver none_fails demo_text j (Requests [inr "refused"]) "d1" (sec 1) d)
     /\ wdID w = "d1" /\ wdWebhookID w = "h1" /\ wdPayload w = "agent.error:boom" /\ wdRetryCount w = 0.
Proof.
  cbv zeta. split; [vm_compute; discriminate|].
  apply (failure_is_retried None demo_text none_fails (mkJob (demo_hook 10) "agent.error" "agent.error:boom" [] 0) (Requests [inr "refused"]) "d1" (sec 1) (sec 10)
    (stored_hook (demo_hook 10) 0 0) 5 (demo_run (take 2 flaky))); try reflexivity; vm_compute; done.
Defined.
End outbound_demo.
