(* ===== verification/ProcTools.v ===== *)
(** Tools that start processes: [internal/tools/executil], the shell tool
    ([internal/tools/shell]) and the code tool ([internal/tools/code]).

    What a process writes, how it ends and what it does to the file system is the class
    [Processes], and may depend on all that was started before.  A machine keeps the file
    system and the processes that were started, each with the file system it started in.

    [shell_confined] says which processes the shell tool starts, and where; [code_confined]
    the same for the code tool, and that its script is gone afterwards; [RunProcess_output]
    and [long_output_fails] what becomes of long outputs. *)

From S2P Require Import Prelude GoString GoPath GoJson GoFS GoFloat Types KtpTypes HostFS FileTool Queue.
#[local] Open Scope Z_scope.

(** * Processes ([executil]) *)

Definition MaxOutputSize : nat := 1024 * 1024.

Record ProcessConfig := mkProcessConfig {
  pcCommand : string;
  pcArgs : list string;
  pcWorkingDir : string;
  pcEnv : list string;
  pcTimeout : Z;
}.

Record ProcessResult := mkProcessResult {
  prStdout : string;
  prStderr : string;
  prExitCode : Z;
  prElapsedMs : Z;
  prTimedOut : bool;
}.

(** How a process ends: the deadline passed, it exited, or waiting for it failed otherwise *)
Inductive ProcEnd :=
| EndDeadline
| EndExit (code : Z)
| EndWait (err : string).

(** What comes of starting one: an error, or the chunks read from its outputs, its end, the
    milliseconds it took and the file system it leaves *)
Inductive ProcRun :=
| NotStarted (err : string)
| Ran (stdout stderr : list string) (fin : ProcEnd) (ms : Z) (left : FS).

Record Machine := mkMachine {
  mcFS : FS;
  mcStarted : list (ProcessConfig * FS);
}.

Class Processes := {
  proc_run : Machine -> ProcessConfig -> ProcRun;
  fs_error_text : FsError -> string;
}.

(** [limitedWriter.Write]: the buffer, and the number of bytes it says it wrote *)
Definition limited_write (limit : nat) (buf p : string) : string * nat :=
  let remaining := Z.of_nat limit - Z.of_nat (String.length buf) in
  if remaining <=? 0 then (buf, String.length p)
  else
    let p := if remaining <? Z.of_nat (String.length p) then str_take (Z.to_nat remaining) p else p in
    (buf +:+ p, String.length p).

(** [io.Copy] of an output into it: the buffer, and whether a write was short *)
Fixpoint copy_output (limit : nat) (buf : string) (chunks : list string) : string * bool :=
  match chunks with
  | [] => (buf, false)
  | p :: chunks =>
    let '(buf, n) := limited_write limit buf p in
    if (n =? String.length p)%nat then copy_output limit buf chunks else (buf, true)
  end.

(** [RunProcess]: an exit code other than zero comes before an error of a copy. *)
Definition RunProcess `{Processes} (cfg : ProcessConfig) (m : Machine) : result string ProcessResult * Machine :=
  if bool_decide (pcCommand cfg = EmptyString) then (Err "command must not be empty", m)
  else match proc_run m cfg with
  | NotStarted e => (Err ("failed to start process: " +:+ e), m)
  | Ran out err fin ms fs =>
    let '(stdout, short1) := copy_output MaxOutputSize EmptyString out in
    let '(stderr, short2) := copy_output MaxOutputSize EmptyString err in
    (match fin with
     | EndDeadline => Ok (mkProcessResult stdout stderr (-1) ms true)
     | EndExit code =>
       if bool_decide (code = 0) && (short1 || short2) then Err "process wait error: short write"
       else Ok (mkProcessResult stdout stderr code ms false)
     | EndWait e => Err ("process wait error: " +:+ e)
     end, mkMachine fs (mcStarted m ++ [(cfg, mcFS m)]))
  end.

Definition BuildMinimalEnv (path home tmpdir user : string) : list string :=
  ["PATH=" +:+ path; "HOME=" +:+ home; "TMPDIR=" +:+ tmpdir]
  ++ (if bool_decide (user = EmptyString) then [] else ["USER=" +:+ user]).

Definition safe_path_text `{Processes} (e : SafePathError) : string :=
  match e with
  | SafeEmpty => "path must not be empty"
  | SafeAbsolute => "absolute paths are not allowed"
  | SafeTraversal => "path traversal is not allowed"
  | SafeWorkspace e => "failed to resolve workspace: " +:+ fs_error_text e
  | SafeEscape => "path traversal is not allowed (symlink escape)"
  end.

(** [SafePath] with the text of its error *)
Definition safe_path `{OS, Processes} (fs : FS) (workspace userPath : string) : result string string :=
  match SafePath fs workspace userPath with inl p => Ok p | inr e => Err (safe_path_text e) end.

(** * Parameters *)

Definition procStringParam (params : list (string * any)) (key : string) : result string string :=
  match alookup key params with
  | None => Err ("missing required parameter: " +:+ key)
  | Some (AString s) => Ok s
  | Some _ => Err ("parameter " +:+ key +:+ " must be a string")
  end.

Definition procIntDefault (params : list (string * any)) (key : string) (def : Z) : Z :=
  match alookup key params with
  | Some (AFloat64 f) => f64_to_int f
  | Some (AInt z) => z
  | _ => def
  end.

Definition strings_of (l : list any) : list string := omap (fun v => match v with AString s => Some s | _ => None end) l.

Definition stringSliceParam (params : list (string * any)) (key : string) : list string :=
  match alookup key params with
  | Some (AStrSlice ss) => ss
  | Some (ASlice l) => strings_of l
  | _ => []
  end.

Definition mapParam (params : list (string * any)) (key : string) : list (string * string) :=
  match alookup key params with
  | Some (AMap m) => omap (fun kv => match kv.2 with AString s => Some (kv.1, s) | _ => None end) m
  | _ => []
  end.

Definition procErr (reqID msg : string) : ToolResponse := NewToolResponse reqID false ANil msg 0.

(** [time.Duration(seconds) * time.Second], between the default and the longest *)
Definition clamp_timeout (def longest seconds : Z) : Z :=
  let t := wrap64 (seconds * second) in
  let t := if t <=? 0 then def * second else t in
  if longest * second <? t then longest * second else t.

(** * The shell tool *)

Definition blockedCommands : list string :=
  ["mkfs"; "shutdown"; "reboot"; "poweroff"; "halt"; "init"; "systemctl"; "fdisk"; "parted"; "cryptsetup"; "iptables"; "ip6tables";
   "nftables"; "chroot"; "mount"; "umount"; "swapon"; "swapoff"; "insmod"; "rmmod"; "modprobe"].

Definition blockedArgPatterns : list string := ["rm -rf /"; "rm -rf /*"; "dd if=/dev/zero"; "dd if=/dev/random"].

Definition protectedEnvKeys : list string := ["PATH"; "HOME"; "TMPDIR"; "USER"].

Record ShellTool := mkShellTool {
  shAllowed : string -> result string (list string);
  shWorkspace : string -> result string string;
  shTier : string -> result string string;
}.

Section shell.
Context `{OS, Processes, UnicodeCase}.

(** [resolveWorkingDir] *)
Definition resolveWorkingDir (t : ShellTool) (fs : FS) (agentID workspace workingDir : string) : result string string :=
  if bool_decide (workingDir = EmptyString) then Ok workspace
  else if is_abs workingDir then
    match shTier t agentID with
    | inr e => Err ("failed to resolve agent tier: " +:+ e)
    | inl tier =>
      if bool_decide (tier = TierAdmin) then Ok workingDir
      else Err "absolute working directories are only allowed for admin tier agents"
    end
  else safe_path fs workspace workingDir.

(** The list of allowed commands, below the admin tier *)
Definition command_allowed (t : ShellTool) (agentID command : string) : option string :=
  match shTier t agentID with
  | inr e => Some ("failed to resolve agent tier: " +:+ e)
  | inl tier =>
    if bool_decide (tier = TierAdmin) then None
    else match shAllowed t agentID with
    | inr e => Some ("failed to resolve allowed commands: " +:+ e)
    | inl allowed =>
      if is_nil allowed then Some "no commands are allowed (empty allowlist)"
      else if contains command slash_s then Some "path-qualified command not allowed when allowlist is active"
      else if negb (bool_decide (path_base command ∈ allowed)) then Some "command not in allowlist"
      else None
    end
  end.

(** The environment: what is asked for, but for the protected names *)
Definition shell_env (path workspace : string) (extra : list (string * string)) : list string :=
  BuildMinimalEnv path workspace (path_join workspace "tmp") EmptyString
  ++ omap (fun kv => if bool_decide (to_upper kv.1 ∈ protectedEnvKeys) then None else Some (kv.1 +:+ "=" +:+ kv.2)) extra.

Definition full_command (command : string) (args : list string) : string :=
  if is_nil args then command else command +:+ " " +:+ join " " args.

(** [exec], up to the process it starts; [path] is the [PATH] of the server. *)
Definition shell_config (t : ShellTool) (path : string) (fs : FS) (req : ToolRequest) : result string ProcessConfig :=
  let params := rParameters req in
  let? command := procStringParam params "command" in
  let args := stringSliceParam params "args" in
  let timeout := clamp_timeout 30 300 (procIntDefault params "timeout_seconds" 30) in
  if bool_decide (path_base command ∈ blockedCommands) then Err "command is blocked"
  else if existsb (contains (full_command command args)) blockedArgPatterns then Err "command matches blocked pattern"
  else match command_allowed t (rAgentID req) command with
  | Some e => Err e
  | None =>
    match shWorkspace t (rAgentID req) with
    | inr e => Err ("failed to resolve workspace: " +:+ e)
    | inl workspace =>
      let? dir := resolveWorkingDir t fs (rAgentID req) workspace (stringParamDefault params "working_dir" EmptyString) in
      Ok (mkProcessConfig command args dir (shell_env path workspace (mapParam params "env")) timeout)
    end
  end.

(** [Execute]; [ms] is the time it took. *)
Definition ShellExecute (t : ShellTool) (path : string) (ms : Z) (req : ToolRequest) (m : Machine) : ToolResponse * Machine :=
  if negb (bool_decide (rAction req = "exec")) then (procErr (rID req) ("unknown action: " +:+ rAction req), m)
  else match shell_config t path (mcFS m) req with
  | inr e => (procErr (rID req) e, m)
  | inl cfg =>
    match RunProcess cfg m with
    | (inr e, m) => (procErr (rID req) e, m)
    | (inl r, m) =>
      (NewToolResponse (rID req) true
         (AMap [("stdout", AString (prStdout r)); ("stderr", AString (prStderr r)); ("exit_code", AInt (prExitCode r));
                ("elapsed_ms", AInt (prElapsedMs r)); ("timed_out", ABool (prTimedOut r))]) EmptyString ms, m)
    end
  end.
End shell.

(** * The code tool *)

Record languageConfig := mklanguageConfig {
  lcInterpreter : string;
  lcExtension : string;
  lcRunPrefix : list string;
}.

Definition supportedLanguages : list (string * languageConfig) :=
  [("python3", mklanguageConfig "python3" ".py" []); ("bash", mklanguageConfig "bash" ".sh" []); ("go", mklanguageConfig "go" ".go" ["run"])].

Definition extensionToLanguage : list (string * string) := [(".py", "python3"); (".sh", "bash"); (".go", "go")].

(** [filepath.Ext]: from the last dot of the last element *)
Fixpoint last_dot (s : string) : option string :=
  match s with
  | EmptyString => None
  | String c s' =>
    match last_dot s' with
    | Some e => Some e
    | None => if Ascii.eqb c "."%char then Some s else None
    end
  end.

Definition path_ext (path : string) : string := default EmptyString (last_dot (List.last (split_byte slash path) EmptyString)).

Definition buildCmdArgs (cfg : languageConfig) (filePath : string) (userArgs : list string) : list string :=
  lcRunPrefix cfg ++ [filePath] ++ userArgs.

Definition buildEnv (workspace : string) : list string :=
  BuildMinimalEnv "/usr/local/bin:/usr/bin:/bin" workspace (path_join workspace "tmp") EmptyString.

Section code.
Context `{OS, Processes}.

(** [snapshotFiles]: the files below the workspace, as the names that lead to them *)
Definition snapshotFiles (fs : FS) (workspace : string) : list (list string) :=
  match locate kernel_links false false fs workspace with
  | inr _ => []
  | inl root =>
    (WalkDir fs (fun loc n e (acc : list (list string)) =>
       (WalkOn, match e with Some _ => acc | None => if is_dir n then acc else acc ++ [drop (length root) loc] end)) workspace []).2
  end.

(** [diffFiles]: [exclude] are the names of the script, if it is a temporary one. *)
Definition diffFiles (fs : FS) (workspace : string) (before : list (list string)) (exclude : option (list string)) : list string :=
  map (fun names => if is_nil names then "." else join slash_s names)
    (List.filter (fun names => negb (bool_decide (Some names = exclude)) && negb (bool_decide (names ∈ before))) (snapshotFiles fs workspace)).

(** What both actions end with: the interpreter runs, and the new files are listed. *)
Definition run_script (cfg : languageConfig) (workspace file : string) (exclude : option (list string)) (req : ToolRequest) (ms : Z) (m : Machine)
    : ToolResponse * Machine :=
  let params := rParameters req in
  let before := snapshotFiles (mcFS m) workspace in
  let pc := mkProcessConfig (lcInterpreter cfg) (buildCmdArgs cfg file (stringSliceParam params "args")) workspace (buildEnv workspace)
              (clamp_timeout 60 600 (procIntDefault params "timeout_seconds" 60)) in
  match RunProcess pc m with
  | (inr e, m) => (procErr (rID req) e, m)
  | (inl r, m) =>
    (NewToolResponse (rID req) true
       (AMap [("stdout", AString (prStdout r)); ("stderr", AString (prStderr r)); ("exit_code", AInt (prExitCode r));
              ("elapsed_ms", AInt (prElapsedMs r)); ("files_created", AStrSlice (diffFiles (mcFS m) workspace before exclude))]) EmptyString ms, m)
  end.

Definition set_fs (m : Machine) (fs : FS) : Machine := mkMachine fs (mcStarted m).

(** [run]; [name] is the identifier that is drawn for the script. *)
Definition code_run (workspaceOf : string -> result string string) (name : string) (ms : Z) (req : ToolRequest) (m : Machine) : ToolResponse * Machine :=
  let params := rParameters req in
  match (let? language := procStringParam params "language" in
         let? code := procStringParam params "code" in
         match alookup language supportedLanguages with
         | None => Err ("unsupported language: " +:+ language)
         | Some cfg =>
           match workspaceOf (rAgentID req) with
           | inr e => Err ("failed to resolve workspace: " +:+ e)
           | inl workspace => Ok (code, cfg, workspace)
           end
         end) with
  | inr e => (procErr (rID req) e, m)
  | inl (code, cfg, workspace) =>
    let tmpDir := path_join workspace "tmp" in
    match MkdirAll (mcFS m) tmpDir with
    | (Some e, fs) => (procErr (rID req) ("failed to create tmp directory: " +:+ fs_error_text e), set_fs m fs)
    | (None, fs) =>
      let file := name +:+ lcExtension cfg in
      let tmpFile := path_join tmpDir file in
      match write_file true fs tmpFile code with
      | inr e => (procErr (rID req) ("failed to write temp file: " +:+ fs_error_text e), set_fs m fs)
      | inl fs =>
        let '(resp, m) := run_script cfg workspace tmpFile (Some ["tmp"; file]) req ms (set_fs m fs) in
        (resp, match Remove (mcFS m) tmpFile with inl fs => set_fs m fs | inr _ => m end)
      end
    end
  end.

(** [runFile], up to the interpreter *)
Definition run_file_check (workspaceOf : string -> result string string) (req : ToolRequest) (fs : FS)
    : result string (languageConfig * string * string) :=
  let? path := procStringParam (rParameters req) "path" in
  match workspaceOf (rAgentID req) with
  | inr e => Err ("failed to resolve workspace: " +:+ e)
  | inl workspace =>
    let? absPath := safe_path fs workspace path in
    match Stat fs absPath with
    | inr e => Err ("file not found: " +:+ fs_error_text e)
    | inl fi =>
      if fiIsDir fi then Err ("path is not a regular file: " +:+ path)
      else match alookup (path_ext absPath) extensionToLanguage with
      | None => Err ("unsupported file extension: " +:+ path_ext absPath)
      | Some language => Ok (default (mklanguageConfig EmptyString EmptyString []) (alookup language supportedLanguages), workspace, absPath)
      end
    end
  end.

Definition code_run_file (workspaceOf : string -> result string string) (ms : Z) (req : ToolRequest) (m : Machine) : ToolResponse * Machine :=
  match run_file_check workspaceOf req (mcFS m) with
  | inr e => (procErr (rID req) e, m)
  | inl (cfg, workspace, absPath) => run_script cfg workspace absPath None req ms m
  end.

(** [Execute] *)
Definition CodeExecute (workspaceOf : string -> result string string) (name : string) (ms : Z) (req : ToolRequest) (m : Machine) : ToolResponse * Machine :=
  if bool_decide (rAction req = "run") then code_run workspaceOf name ms req m
  else if bool_decide (rAction req = "run_file") then code_run_file workspaceOf ms req m
  else (procErr (rID req) ("unknown action: " +:+ rAction req), m).
End code.

(** * Outputs *)

Lemma limited_write_spec limit buf p buf' n :
  (String.length buf <= limit)%nat -> limited_write limit buf p = (buf', n) ->
  (String.length buf' <= limit)%nat /\ exists q, p = q +:+ str_drop (String.length q) p /\ buf' = buf +:+ q
    /\ (n = String.length p <-> limit = String.length buf \/ (String.length buf + String.length p <= limit)%nat \/ p = EmptyString).
Proof.
  unfold limited_write. intros Hb. destruct (Z.leb_spec (Z.of_nat limit - Z.of_nat (String.length buf)) 0) as [Hr|Hr].
  - intros [= <- <-]. split; [done|]. exists EmptyString. rewrite str_app_nil_r. split_and!; [done|done|]. split; [intros _; left; lia|done].
  - destruct (Z.ltb_spec (Z.of_nat limit - Z.of_nat (String.length buf)) (Z.of_nat (String.length p))) as [Hl|Hl]; intros [= <- <-].
    + set (k := Z.to_nat _). assert (String.length (str_take k p) = k) as Hk by (apply str_length_take; lia).
      rewrite str_length_app, Hk. split; [lia|]. exists (str_take k p). rewrite Hk, str_take_drop. split_and!; [done|done|].
      assert (Z.of_nat k = Z.of_nat limit - Z.of_nat (String.length buf)) as Ek by (unfold k; lia). clearbody k.
      split; [lia|]. intros [?|[?| ->]]; cbn [String.length] in *; lia.
    + rewrite str_length_app. split; [lia|]. exists p. split_and!; [|done|].
      * pose proof (str_drop_app p EmptyString) as E. rewrite str_app_nil_r in E. by rewrite E, str_app_nil_r.
      * split; [intros _; right; left; lia|done].
Qed.

(** What is kept of an output is a part of it, within the limit. *)
Lemma copy_output_spec limit chunks buf out short :
  (String.length buf <= limit)%nat -> copy_output limit buf chunks = (out, short) ->
  (String.length out <= limit)%nat /\ exists q rest, out = buf +:+ q /\ str_concat chunks = q +:+ rest.
Proof.
  revert buf. induction chunks as [|p chunks IH]; intros buf Hb; simpl.
  - intros [= <- _]. split; [done|]. exists EmptyString, EmptyString. by rewrite str_app_nil_r.
  - destruct (limited_write limit buf p) as [buf' n] eqn:Hw. destruct (limited_write_spec _ _ _ _ _ Hb Hw) as (Hb' & q & Hq & -> & Hn).
    destruct (Nat.eqb_spec n (String.length p)) as [->|Hne].
    + intros Hc. destruct (IH _ Hb' Hc) as (Ho & q' & rest & -> & Hrest). split; [done|].
      destruct (proj1 Hn eq_refl) as [Hfull|Hfit].
      * (* nothing is kept any more *)
        assert (q = EmptyString) as ->. { rewrite str_length_app in Hb'. destruct q; [done|]. cbn [String.length] in Hb'. lia. }
        assert (q' = EmptyString) as ->. { rewrite !str_length_app in Ho. destruct q'; [done|]. cbn [String.length] in Ho. lia. }
        exists EmptyString, (p +:+ str_concat chunks). by rewrite !str_app_nil_r.
      * assert (str_drop (String.length q) p = EmptyString) as Hd.
        { revert Hw. unfold limited_write. destruct (Z.leb_spec (Z.of_nat limit - Z.of_nat (String.length buf)) 0) as [Hr|Hr].
          - intros [= E]. destruct Hfit as [Hfit| ->]; [|by destruct q].
            destruct p; [by destruct q|]. cbn [String.length] in Hfit. lia.
          - destruct Hfit as [Hfit| ->]; [|by destruct q].
            rewrite (proj2 (Z.ltb_ge _ _)) by lia. intros [= E]. apply str_app_inv_l in E as <-.
            pose proof (str_drop_app p EmptyString) as E. by rewrite str_app_nil_r in E. }
        rewrite Hd, str_app_nil_r in Hq. subst q. exists (p +:+ q'), rest. by rewrite Hrest, !str_app_assoc.
    + intros [= <- _]. split; [done|]. exists q, (str_drop (String.length q) p +:+ str_concat chunks). split; [done|].
      by rewrite str_app_assoc, <- Hq.
Qed.

(** An output that passes the limit within a chunk is short. *)
Lemma copy_output_short limit a b chunks :
  (String.length a < limit < String.length a + String.length b)%nat -> copy_output limit EmptyString (a :: b :: chunks) = (a +:+ str_take (limit - String.length a) b, true).
Proof.
  intros Hl. assert (limited_write limit EmptyString a = (a, String.length a)) as Ha.
  { unfold limited_write. cbn [String.length]. rewrite (proj2 (Z.leb_gt _ _)), (proj2 (Z.ltb_ge _ _)) by lia. done. }
  assert (limited_write limit a b = (a +:+ str_take (limit - String.length a) b, (limit - String.length a)%nat)) as Hb.
  { unfold limited_write. rewrite (proj2 (Z.leb_gt _ _)), (proj2 (Z.ltb_lt _ _)) by lia.
    replace (Z.to_nat _) with (limit - String.length a)%nat by lia. by rewrite str_length_take by lia. }
  cbn [copy_output]. rewrite Ha, Nat.eqb_refl, Hb. by rewrite (proj2 (Nat.eqb_neq _ _)) by lia.
Qed.

Section processes.
Context `{Processes}.

Lemma RunProcess_cases cfg m r m' :
  RunProcess cfg m = (r, m') ->
  (m' = m /\ exists e, r = Err e) \/ pcCommand cfg <> EmptyString /\ mcStarted m' = mcStarted m ++ [(cfg, mcFS m)].
Proof.
  unfold RunProcess. case_bool_decide as He; [intros [= <- <-]; left; eauto|].
  destruct (proc_run m cfg) as [e|out err fin ms fs]; [intros [= <- <-]; left; eauto|].
  destruct (copy_output _ _ out), (copy_output _ _ err). intros [= _ <-]. by right.
Qed.

(** The outputs a tool hands on are within the limit. *)
Lemma RunProcess_output cfg m r m' :
  RunProcess cfg m = (Ok r, m') -> (String.length (prStdout r) <= MaxOutputSize)%nat /\ (String.length (prStderr r) <= MaxOutputSize)%nat.
Proof.
  unfold RunProcess. case_bool_decide; [done|]. destruct (proc_run m cfg) as [e|out err fin ms fs]; [done|].
  destruct (copy_output MaxOutputSize _ out) as [o s1] eqn:Ho, (copy_output MaxOutputSize _ err) as [e s2] eqn:He.
  apply copy_output_spec in Ho as [Ho _]; [|cbn [String.length]; lia]. apply copy_output_spec in He as [He _]; [|cbn [String.length]; lia].
  destruct fin; [|destruct (_ && _)|]; intros [= <- _]; by split.
Qed.

(** A command that succeeds after it wrote more than the limit, a chunk across it, is
    reported as failed, without its output. *)
Lemma long_output_fails cfg m a b rest err ms fs :
  pcCommand cfg <> EmptyString -> proc_run m cfg = Ran (a :: b :: rest) err (EndExit 0) ms fs ->
  (String.length a < MaxOutputSize < String.length a + String.length b)%nat ->
  (RunProcess cfg m).1 = Err "process wait error: short write".
Proof.
  intros Hc Hp Hl. unfold RunProcess. rewrite bool_decide_eq_false_2, Hp, copy_output_short by done.
  by destruct (copy_output _ _ err).
Qed.
End processes.

(** * The shell tool: what it starts *)

Lemma contains_slash (s : string) : contains s slash_s = str_elem slash s.
Proof.
  unfold contains. induction s as [|c s IH]; [done|]. cbn [str_index str_elem]. rewrite <- IH.
  unfold has_prefix, slash_s. cbn [strip_prefix]. rewrite Ascii.eqb_sym. change "/"%char with slash.
  destruct (Ascii.eqb c slash); [done|]. simpl. by destruct (str_index s _).
Qed.

Lemma path_base_plain (c : string) : c <> EmptyString -> str_elem slash c = false -> path_base c = c.
Proof.
  intros Hc Hs. unfold path_base, path_elems. rewrite bool_decide_eq_false_2 by done.
  rewrite split_byte_plain by done. simpl. by rewrite bool_decide_eq_false_2.
Qed.

Section shell_confinement.
Context `{OS, Processes, UnicodeCase}.

Lemma clamp_timeout_spec def longest seconds :
  0 < def <= longest -> 0 < clamp_timeout def longest seconds <= longest * second.
Proof.
  intros Hd. unfold clamp_timeout, second. set (t := wrap64 _). clearbody t.
  destruct (Z.leb_spec t 0); [destruct (Z.ltb_spec (longest * 1000000000) (def * 1000000000)); lia|].
  destruct (Z.ltb_spec (longest * 1000000000) t); lia.
Qed.

(** A path within the workspace, when it leads somewhere, leads into the real workspace. *)
Lemma safe_path_within fs ws userPath a loc :
  Forall plain_elem ws -> safe_path fs (abs_of ws) userPath = Ok a -> locate kernel_links true false fs a = Ok loc ->
  exists rws, locate eval_links true false fs (abs_of ws) = Ok rws /\ rws `prefix_of` loc.
Proof.
  intros Hws. unfold safe_path. destruct (SafePath fs (abs_of ws) userPath) as [p|] eqn:Hp; [|done]. intros [= <-] Hl.
  destruct (SafePath_spec _ _ _ _ Hws Hp) as (rws & r & t & d & -> & Hsafe).
  destruct (safe_resolves _ _ _ _ _ _ Hsafe _ Hl) as [_ ->]. destruct Hsafe as (_ & _ & Hw & _ & Hpre & _). by exists rws.
Qed.

Definition within_workspace (fs : FS) (ws : location) (dir : string) : Prop :=
  forall loc, locate kernel_links true false fs dir = Ok loc ->
  exists rws, locate eval_links true false fs (abs_of ws) = Ok rws /\ rws `prefix_of` loc.

Lemma workspace_within fs ws : within_workspace fs ws (abs_of ws).
Proof. intros loc Hl. exists loc. split; [by apply kernel_eval|done]. Qed.

Lemma command_allowed_spec t agentID command :
  command_allowed t agentID command = None -> command <> EmptyString ->
  shTier t agentID = Ok TierAdmin
  \/ (exists tier allowed, shTier t agentID = Ok tier /\ tier <> TierAdmin /\ shAllowed t agentID = Ok allowed
      /\ command ∈ allowed /\ str_elem slash command = false).
Proof.
  unfold command_allowed. intros Hc Hne. destruct (shTier t agentID) as [tier|]; [|done]. case_bool_decide as Ht; [subst; by left|]. right.
  destruct (shAllowed t agentID) as [allowed|]; [|done]. destruct (is_nil allowed); [done|].
  rewrite contains_slash in Hc. destruct (str_elem slash command) eqn:Es; [done|]. rewrite path_base_plain in Hc by done.
  case_bool_decide as Hin; [|done]. by exists tier, allowed.
Qed.

Lemma working_dir_spec t fs agentID ws workingDir dir :
  Forall plain_elem ws -> resolveWorkingDir t fs agentID (abs_of ws) workingDir = Ok dir ->
  within_workspace fs ws dir \/ shTier t agentID = Ok TierAdmin /\ dir = workingDir /\ is_abs workingDir = true.
Proof.
  intros Hws. unfold resolveWorkingDir. case_bool_decide; [intros [= <-]; left; apply workspace_within|].
  destruct (is_abs workingDir).
  - destruct (shTier t agentID) as [tier|]; [|done]. case_bool_decide as Ht; [|done]. intros [= <-]. subst. by right.
  - intros Hs. left. intros loc Hl. by eapply safe_path_within.
Qed.

(** The processes an agent may start *)
Record shell_process_ok (t : ShellTool) (path : string) (fs : FS) (ws : location) (req : ToolRequest) (cfg : ProcessConfig) : Prop := {
  so_command : alookup "command" (rParameters req) = Some (AString (pcCommand cfg));
  so_args : pcArgs cfg = stringSliceParam (rParameters req) "args";
  so_not_blocked : path_base (pcCommand cfg) ∉ blockedCommands;
  so_no_pattern : forall p, p ∈ blockedArgPatterns -> ~ occurs p (full_command (pcCommand cfg) (pcArgs cfg));
  so_allowed : shTier t (rAgentID req) = Ok TierAdmin
    \/ (exists allowed, shAllowed t (rAgentID req) = Ok allowed /\ pcCommand cfg ∈ allowed) /\ str_elem slash (pcCommand cfg) = false
       /\ within_workspace fs ws (pcWorkingDir cfg);
  so_env : pcEnv cfg = shell_env path (abs_of ws) (mapParam (rParameters req) "env");
  so_timeout : 0 < pcTimeout cfg <= 300 * second;
}.

Lemma shell_config_spec t path fs req ws cfg :
  Forall plain_elem ws -> shWorkspace t (rAgentID req) = Ok (abs_of ws) -> shell_config t path fs req = Ok cfg -> pcCommand cfg <> EmptyString ->
  shell_process_ok t path fs ws req cfg.
Proof.
  intros Hws Hw. unfold shell_config. destruct (procStringParam _ _) as [command|] eqn:Hc; [|done]. cbn [rbind].
  case_bool_decide as Hb; [done|]. destruct (existsb (contains (full_command command _)) blockedArgPatterns) eqn:Hp; [done|].
  destruct (command_allowed _ _ _) eqn:Ha; [done|]. rewrite Hw. cbn beta iota delta [Ok rbind].
  destruct (resolveWorkingDir t fs _ _ _) as [dir|] eqn:Hd; [|done]. intros [= <-] Hne. simpl in Hne. constructor; simpl; try done.
  - unfold procStringParam in Hc. destruct (alookup _ _) as [[]|]; try done. by injection Hc as ->.
  - intros p Hin Ho. pose proof (proj1 (existsb_elem_false _ _) Hp p Hin) as Hpp. apply contains_spec in Ho. simpl in Hpp. congruence.
  - destruct (command_allowed_spec _ _ _ Ha Hne) as [|(tier & allowed & Ht & Hna & Hal & Hin & Hs)]; [by left|right].
    split_and!; [by exists allowed|done|]. destruct (working_dir_spec _ _ _ _ _ _ Hws Hd) as [|(Ht' & _)]; [done|]. rewrite Ht in Ht'. by injection Ht'.
  - apply clamp_timeout_spec. lia.
Qed.

(** C7: the shell tool starts at most one process, and only for a command whose name is not blocked, whose text
    contains no blocked pattern, for at most five minutes, with the environment it builds; and below the admin
    tier only a command of the agent's list, named without a path, in a directory of the real workspace. *)
Theorem shell_confined t path ms req ws m resp m' :
  Forall plain_elem ws -> shWorkspace t (rAgentID req) = Ok (abs_of ws) -> ShellExecute t path ms req m = (resp, m') ->
  m' = m \/ exists cfg, mcStarted m' = mcStarted m ++ [(cfg, mcFS m)] /\ rAction req = "exec" /\ shell_process_ok t path (mcFS m) ws req cfg.
Proof.
  intros Hws Hw. unfold ShellExecute. case_bool_decide as Ha; [|intros [= _ <-]; by left]. simpl.
  destruct (shell_config _ _ _ _) as [cfg|] eqn:Hc; [|intros [= _ <-]; by left].
  destruct (RunProcess cfg m) as [r m1] eqn:Hr. intros E. assert (m' = m1) as -> by (by destruct r; injection E as _ <-).
  destruct (RunProcess_cases _ _ _ _ Hr) as [[-> _]|[Hne Hs]]; [by left|right]. exists cfg. split_and!; [done|done|].
  by eapply shell_config_spec.
Qed.
End shell_confinement.

(** ** The environment of a command *)

(** What a process reads of its environment: the last value of a name counts ([exec] keeps that one). *)
Definition getenv (name : string) (env : list string) : option string :=
  fold_left (fun v e => match strip_prefix (name +:+ "=") e with Some x => Some x | None => v end) env None.

Lemma getenv_app name env l : Forall (fun e => strip_prefix (name +:+ "=") e = None) l -> getenv name (env ++ l) = getenv name env.
Proof.
  unfold getenv. rewrite fold_left_app. generalize (fold_left (fun v e => match strip_prefix (name +:+ "=") e with Some x => Some x | None => v end) env None).
  intros v Hl. revert v. induction Hl as [|e l He _ IH]; intros v; simpl; [done|]. by rewrite He, IH.
Qed.

Lemma strip_assignment (name k v x : string) :
  str_elem "="%char name = false -> str_elem "="%char k = false -> strip_prefix (name +:+ "=") (k +:+ "=" +:+ v) = Some x -> k = name.
Proof.
  intros Hn Hk Hs%strip_prefix_spec. revert k Hn Hk Hs. induction name as [|a name IH]; intros [|b k] Hn Hk E; simpl in *; try done.
  - injection E as -> _. done.
  - injection E as <- _. done.
  - injection E as -> E. apply orb_false_iff in Hn as [_ Hn]. apply orb_false_iff in Hk as [_ Hk]. f_equal. by apply IH.
Qed.

Lemma protected_upper `{UnicodeCase} name : name ∈ protectedEnvKeys -> to_upper name = name /\ str_elem "="%char name = false.
Proof. unfold protectedEnvKeys. rewrite !elem_of_cons, elem_of_nil. intros [->|[->|[->|[->|[]]]]]; by split. Qed.

(** Names without an equals sign cannot replace a protected variable. *)
Lemma protected_env_kept `{UnicodeCase} path workspace extra name :
  Forall (fun kv => str_elem "="%char kv.1 = false) extra -> name ∈ protectedEnvKeys ->
  getenv name (shell_env path workspace extra) = getenv name (BuildMinimalEnv path workspace (path_join workspace "tmp") EmptyString).
Proof.
  intros Hx Hp. apply getenv_app, Forall_forall. intros e He. apply list_elem_of_omap in He as ([k v] & Hin & Hkv).
  case_bool_decide as Hprot; [done|]. injection Hkv as <-. destruct (protected_upper name Hp) as [Hup Hn].
  destruct (strip_prefix _ _) as [x|] eqn:E; [|done]. rewrite Forall_forall in Hx. specialize (Hx (k, v) Hin).
  apply strip_assignment in E; [|done..]. simpl in *. subst k. by rewrite Hup in Hprot.
Qed.

(** A name with one can: the agent chooses the [PATH] of the commands it may start. *)
Example env_key_with_equals :
  let _ := ascii_case in
  getenv "PATH" (shell_env "/usr/bin" "/ws" [("PATH=/ws/bin:", "/x")]) = Some "/ws/bin:=/x".
Proof. vm_compute. done. Qed.

(** * The code tool: what it starts *)


Lemma walk_insert `{OS} fs p data links loc todo :
  (forall n, node_at fs p = Some n -> exists s, n = FFile s) -> p <> [] ->
  walk links true true fs loc todo = Ok p -> walk links true false (<[p := FFile data]> fs) loc todo = Ok p.
Proof.
  intros Hfile Hne. unfold node_at in Hfile. rewrite bool_decide_eq_false_2 in Hfile by done.
  revert loc todo. induction links as [|links IHl]; intros loc todo; revert loc;
    (induction todo as [|c rest IH]; intros loc; [by rewrite !walk_nil|]); rewrite !walk_cons;
    (case_bool_decide; [by apply IH|]); (case_bool_decide; [by apply IH|]);
    (destruct (negb (os_permits OpLookup (loc ++ [c]))); [done|]);
    (destruct (decide (loc ++ [c] = p)) as [<-|Hp];
      [rewrite lookup_insert_eq; destruct (fs !! (loc ++ [c])) as [n|] eqn:E;
        [destruct (Hfile n eq_refl) as [s ->]; by destruct (is_nil rest)|by destruct (is_nil rest)]|
       rewrite lookup_insert_ne by done; destruct (fs !! (loc ++ [c])) as [[s| |t]|] eqn:E; simpl; try done]);
    try by apply IH.
  all: try (destruct (is_nil rest); [|done]; intros [= <-]; by destruct Hp).
  by apply IHl.
Qed.

Section code_confinement.
Context `{OS, Processes}.

Lemma written_read fs path data fs' :
  write_file true fs path data = Ok fs' -> ReadFile fs' path = Ok data \/ ReadFile fs' path = Err PermissionDenied.
Proof.
  unfold write_file, ReadFile, locate. destruct (is_abs path); [|done]. destruct (walk _ true true _ _ _) as [loc|] eqn:Hl; [|done].
  cbn [rbind]. intros Hw. assert (fs' = <[loc := FFile data]> fs /\ loc <> [] /\ forall n, node_at fs loc = Some n -> exists s, n = FFile s)
    as (-> & Hne & Hfile).
  { unfold node_at in *. case_bool_decide as Hr; [done|].
    destruct (fs !! loc) as [[s| |t]|]; try done; (destruct (os_permits _ _); [|done]); injection Hw as <-; (split_and!; [done|done|]); [intros n [= <-]; eauto|done]. }
  rewrite (walk_insert fs loc data _ [] _ Hfile Hne Hl). cbn [rbind Ok]. unfold node_at.
  rewrite bool_decide_eq_false_2, lookup_insert_eq by done. destruct (os_permits OpRead loc); [by left|by right].
Qed.

(** The processes the code tool may start, and the file system it starts them in *)
Record code_process_ok (ws : location) (req : ToolRequest) (cfg : ProcessConfig) (fs : FS) : Prop := {
  co_script : exists language lc script, (language, lc) ∈ supportedLanguages /\ pcCommand cfg = lcInterpreter lc
    /\ pcArgs cfg = lcRunPrefix lc ++ [script] ++ stringSliceParam (rParameters req) "args"
    /\ ((rAction req = "run" /\ alookup "language" (rParameters req) = Some (AString language)
         /\ exists code, alookup "code" (rParameters req) = Some (AString code) /\ (ReadFile fs script = Ok code \/ ReadFile fs script = Err PermissionDenied))
        \/ (rAction req = "run_file" /\ within_workspace fs ws script /\ exists info, Stat fs script = Ok info /\ fiIsDir info = false));
  co_dir : pcWorkingDir cfg = abs_of ws;
  co_env : pcEnv cfg = buildEnv (abs_of ws);
  co_timeout : 0 < pcTimeout cfg <= 600 * second;
}.

Lemma run_script_started lc workspace file exclude req ms m :
  let m' := (run_script lc workspace file exclude req ms m).2 in
  mcStarted m' = mcStarted m \/
  mcStarted m' = mcStarted m ++ [(mkProcessConfig (lcInterpreter lc) (buildCmdArgs lc file (stringSliceParam (rParameters req) "args")) workspace
    (buildEnv workspace) (clamp_timeout 60 600 (procIntDefault (rParameters req) "timeout_seconds" 60)), mcFS m)].
Proof.
  unfold run_script. set (pc := mkProcessConfig _ _ _ _ _). destruct (RunProcess pc m) as [r m1] eqn:Hr.
  destruct (RunProcess_cases _ _ _ _ Hr) as [[-> _]|[_ Hs]]; destruct r; simpl; tauto.
Qed.

Lemma string_param_spec params key s : procStringParam params key = Ok s -> alookup key params = Some (AString s).
Proof. unfold procStringParam. destruct (alookup key params) as [[]|]; try done. by intros [= ->]. Qed.

Lemma alookup_supported language lc : alookup language supportedLanguages = Some lc -> (language, lc) ∈ supportedLanguages.
Proof. intros Ha. unfold supportedLanguages in *. simpl in Ha. repeat (case_bool_decide; [injection Ha as <-; subst; set_solver|]). done. Qed.

Lemma run_file_check_spec workspaceOf req fs ws lc workspace a :
  Forall plain_elem ws -> workspaceOf (rAgentID req) = Ok (abs_of ws) -> run_file_check workspaceOf req fs = Ok (lc, workspace, a) ->
  workspace = abs_of ws /\ within_workspace fs ws a /\ (exists info, Stat fs a = Ok info /\ fiIsDir info = false)
  /\ exists language, (language, lc) ∈ supportedLanguages.
Proof.
  intros Hws Hw. unfold run_file_check. destruct (procStringParam _ _) as [path|]; [|done]. cbn [rbind]. rewrite Hw. cbn beta iota delta [Ok].
  destruct (safe_path fs _ path) as [p|] eqn:Hp; [|done]. cbn [rbind]. destruct (Stat fs p) as [info|] eqn:Hs; [|done].
  destruct (fiIsDir info) eqn:Hd; [done|]. destruct (alookup _ extensionToLanguage) as [language|] eqn:Hl; [|done].
  assert (exists lc, alookup language supportedLanguages = Some lc) as [lc' Hlc].
  { unfold extensionToLanguage in Hl. simpl in Hl. repeat (case_bool_decide; [injection Hl as <-; by eexists|]). done. }
  rewrite Hlc. intros [= <- <- <-]. split_and!; [done| |by exists info|].
  - intros loc Hloc. by eapply safe_path_within.
  - exists language. by apply alookup_supported.
Qed.

(** the code tool starts at most one process: the interpreter of one of three languages, in the workspace, with
    an environment of its own, for at most ten minutes; it runs either exactly the code it was given, or a file
    that is there and lies within the real workspace. *)
Theorem code_confined workspaceOf name ms req ws m resp m' :
  Forall plain_elem ws -> workspaceOf (rAgentID req) = Ok (abs_of ws) -> CodeExecute workspaceOf name ms req m = (resp, m') ->
  mcStarted m' = mcStarted m \/ exists cfg fs, mcStarted m' = mcStarted m ++ [(cfg, fs)] /\ code_process_ok ws req cfg fs.
Proof.
  intros Hws Hw. unfold CodeExecute. case_bool_decide as Ha; [|case_bool_decide as Hf; [|intros [= _ <-]; by left]].
  - unfold code_run. destruct (procStringParam _ "language") as [language|] eqn:Hl; [|intros [= _ <-]; by left].
    destruct (procStringParam _ "code") as [code|] eqn:Hc; [|intros [= _ <-]; by left]. cbn [rbind].
    destruct (alookup language supportedLanguages) as [lc|] eqn:Hlc; [|intros [= _ <-]; by left]. rewrite Hw. cbn beta iota delta [Ok].
    destruct (MkdirAll _ _) as [[e|] fs1]; [intros [= _ <-]; by left|].
    destruct (write_file _ _ _ _) as [fs2|] eqn:Hwr; [|intros [= _ <-]; by left].
    set (tmp := path_join (path_join _ _) _) in *.
    pose proof (run_script_started lc (abs_of ws) tmp (Some ["tmp"; name +:+ lcExtension lc]) req ms (set_fs m fs2)) as Hrun.
    destruct (run_script _ _ _ _ _ _ _) as [rp m1]. simpl in Hrun. intros E.
    assert (mcStarted m' = mcStarted m1) as -> by (injection E as _ <-; by destruct (Remove _ _)).
    destruct Hrun as [->| ->]; [by left|right]. do 2 eexists. split; [done|]. constructor; simpl; [|done|done|apply clamp_timeout_spec; lia].
    exists language, lc, tmp. split_and!; [by apply alookup_supported|done|done|left].
    split_and!; [done|by apply string_param_spec|]. exists code. split; [by apply string_param_spec|by eapply written_read].
  - unfold code_run_file. destruct (run_file_check _ _ _) as [[[lc workspace] a]|] eqn:Hc; [|intros [= _ <-]; by left].
    destruct (run_file_check_spec _ _ _ _ _ _ _ Hws Hw Hc) as (-> & Hin & Hst & language & Hlang). intros E.
    pose proof (run_script_started lc (abs_of ws) a None req ms m) as Hrun. rewrite E in Hrun. simpl in Hrun.
    destruct Hrun as [->| ->]; [by left|right]. do 2 eexists. split; [done|]. constructor; simpl; [|done|done|apply clamp_timeout_spec; lia].
    exists language, lc, a. split_and!; [done|done|done|by right].
Qed.
End code_confinement.

(** * Concrete calls *)
Section proc_demo.
#[local] Instance demo_os : OS :=
  {| os_permits _ _ := true; os_dir_size _ := 4096; os_modified _ := "now"; os_mode _ := "-rw-r--r--" |}.
#[local] Instance demo_case : UnicodeCase := ascii_case.
#[local] Instance demo_processes : Processes :=
  {| proc_run m cfg := Ran [pcCommand cfg; "!"] [] (EndExit 0) 5 (mcFS m); fs_error_text _ := "error" |}.

(** A workspace, a link of it that leads out, and a script *)
Definition ws_loc : location := ["srv"; "ws"].
Definition demo_fs : FS :=
  list_to_map [(["srv"], FDir); (["etc"], FDir); (ws_loc, FDir); (ws_loc ++ ["src"], FDir); (ws_loc ++ ["src"; "job.py"], FFile "print(1)");
               (ws_loc ++ ["out"], FLink "/etc")].
Definition linked_fs : FS := <[ws_loc ++ ["tmp"] := FLink "/etc"]> demo_fs.

Definition demo_shell (tier : string) : ShellTool := mkShellTool (fun _ => Ok ["git"; "ls"]) (fun _ => Ok "/srv/ws") (fun _ => Ok tier).

Definition tool_call (action : string) (params : list (string * any)) : ToolRequest := NewToolRequest "r1" "a1" "shell" action params.

Definition processes_of (r : ToolResponse * Machine) : list (string * list string * string) :=
  map (fun e => (pcCommand e.1, pcArgs e.1, pcWorkingDir e.1)) (mcStarted r.2).

Definition shell_call (tier : string) (params : list (string * any)) : ToolResponse * Machine :=
  ShellExecute (demo_shell tier) "/usr/bin" 7 (tool_call "exec" params) (mkMachine demo_fs []).

Example shell_calls :
  processes_of (shell_call "operator" [("command", AString "ls"); ("args", ASlice [AString "-l"; AInt 3]); ("working_dir", AString "src")]) = [("ls", ["-l"], "/srv/ws/src")]
  /\ respError (shell_call "operator" [("command", AString "/tmp/ls")]).1 = "path-qualified command not allowed when allowlist is active"
  /\ respError (shell_call "operator" [("command", AString "curl")]).1 = "command not in allowlist"
  /\ respError (shell_call "operator" [("command", AString "ls"); ("working_dir", AString "out")]).1 = "path traversal is not allowed (symlink escape)"
  /\ respError (shell_call "operator" [("command", AString "ls"); ("working_dir", AString "/")]).1 = "absolute working directories are only allowed for admin tier agents"
  /\ processes_of (shell_call "admin" [("command", AString "/tmp/ls"); ("working_dir", AString "/")]) = [("/tmp/ls", [], "/")]
  /\ respError (shell_call "admin" [("command", AString "/sbin/reboot")]).1 = "command is blocked".
Proof. vm_compute. done. Qed.

(** The patterns are looked for in the text of the command: they refuse the removal of a directory of
    the workspace, and let other spellings of what they are meant for pass. *)
Example patterns_are_substrings :
  let rm args := shell_call "admin" [("command", AString "rm"); ("args", AStrSlice args)] in
  respError (rm ["-rf"; "/srv/ws/build"]).1 = "command matches blocked pattern" /\ processes_of (rm ["-r"; "-f"; "/"]) = [("rm", ["-r"; "-f"; "/"], "/srv/ws")]
  /\ respError (shell_call "operator" [("command", AString "ls"); ("args", AStrSlice ["echo rm -rf /tmp/x"])]).1 = "command matches blocked pattern".
Proof. vm_compute. done. Qed.

(** The timeout wraps around in nanoseconds before it is clamped. *)
Example timeouts :
  clamp_timeout 30 300 0 = 30 * second /\ clamp_timeout 30 300 1000 = 300 * second /\ clamp_timeout 30 300 9223372037 = 30 * second
  /\ clamp_timeout 30 300 18446744074 = 290448384.
Proof. vm_compute. done. Qed.

Definition code_call (fs : FS) (action : string) (params : list (string * any)) : ToolResponse * Machine :=
  CodeExecute (fun _ => Ok "/srv/ws") "01J" 9 (tool_call action params) (mkMachine fs []).

(** The script is written, run and removed; a link in place of the directory for scripts leads it out of the workspace. *)
Example code_calls :
  let run fs := code_call fs "run" [("language", AString "go"); ("code", AString "package main")] in
  processes_of (run demo_fs) = [("go", ["run"; "/srv/ws/tmp/01J.go"], "/srv/ws")]
  /\ map (fun e => e.2 !! (ws_loc ++ ["tmp"; "01J.go"])) (mcStarted (run demo_fs).2) = [Some (FFile "package main")]
  /\ mcFS (run demo_fs).2 !! (ws_loc ++ ["tmp"; "01J.go"]) = None
  /\ map (fun e => e.2 !! ["etc"; "01J.go"]) (mcStarted (run linked_fs).2) = [Some (FFile "package main")]
  /\ processes_of (code_call demo_fs "run_file" [("path", AString "src/job.py"); ("args", ASlice [AString "x"])]) = [("python3", ["/srv/ws/src/job.py"; "x"], "/srv/ws")]
  /\ respError (code_call demo_fs "run_file" [("path", AString "out/passwd.py")]).1 = "path traversal is not allowed (symlink escape)".
Proof. vm_compute. done. Qed.

(** What a run leaves behind is listed, but for the script. *)
Example new_files_listed :
  let fs := <[ws_loc ++ ["src"; "a.txt"] := FFile "x"]> (<[ws_loc ++ ["tmp"; "01J.go"] := FFile "y"]> (<[ws_loc ++ ["tmp"] := FDir]> demo_fs)) in
  diffFiles fs "/srv/ws" (snapshotFiles demo_fs "/srv/ws") (Some ["tmp"; "01J.go"]) = ["src/a.txt"].
Proof. vm_compute. done. Qed.

Lemma shell_confined_witness :
  let params := [("command", AString "ls"); ("working_dir", AString "src")] in
  let req := tool_call "exec" params in let m := mkMachine demo_fs [] in
  let m' := (ShellExecute (demo_shell "operator") "/usr/bin" 7 req m).2 in
  length (mcStarted m') = 1%nat
  /\ (m' = m \/ exists cfg, mcStarted m' = mcStarted m ++ [(cfg, mcFS m)] /\ rAction req = "exec"
        /\ shell_process_ok (demo_shell "operator") "/usr/bin" (mcFS m) ws_loc req cfg).
Proof.
  cbv zeta. split; [vm_compute; reflexivity|].
  apply (shell_confined (demo_shell "operator") "/usr/bin" 7 (tool_call "exec" [("command", AString "ls"); ("working_dir", AString "src")]) ws_loc (mkMachine demo_fs [])
    (ShellExecute (demo_shell "operator") "/usr/bin" 7 (tool_call "exec" [("command", AString "ls"); ("working_dir", AString "src")]) (mkMachine demo_fs [])).1).
  - repeat constructor; discriminate.
  - reflexivity.
  - apply surjective_pairing.
Defined.

Lemma code_confined_witness :
  let req := tool_call "run" [("language", AString "bash"); ("code", AString "ls")] in let m := mkMachine demo_fs [] in
  let m' := (CodeExecute (fun _ => Ok "/srv/ws") "01J" 9 req m).2 in
  length (mcStarted m') = 1%nat
  /\ (mcStarted m' = mcStarted m \/ exists cfg fs, mcStarted m' = mcStarted m ++ [(cfg, fs)] /\ code_process_ok ws_loc req cfg fs).
Proof.
  cbv zeta. split; [vm_compute; reflexivity|].
  apply (code_confined (fun _ => Ok "/srv/ws") "01J" 9 (tool_call "run" [("language", AString "bash"); ("code", AString "ls")]) ws_loc (mkMachine demo_fs [])
    (CodeExecute (fun _ => Ok "/srv/ws") "01J" 9 (tool_call "run" [("language", AString "bash"); ("code", AString "ls")]) (mkMachine demo_fs [])).1).
  - repeat constructor; discriminate.
  - reflexivity.
  - apply surjective_pairing.
Defined.
End proc_demo.
