(* ===== verification/DockerTool.v ===== *)
(** The Docker tool ([internal/tools/docker]).

    docker is a process of [ProcTools].  JSON and the printing of values are the class
    [DockerTexts].

    [docker_run_isolated] says that a container an agent runs has the limits, no network and a
    read-only root, and mounts only what lies in the workspace, by the options before its image;
    [image_is_an_option] that the image itself may be one.  [docker_call] says what else the tool
    starts. *)

From S2P Require Import Prelude GoString GoPath GoJson GoFS GoFloat Types KtpTypes HostFS FileTool Queue Scheduler ProcTools GitTool.
From stdpp Require Import pretty.
From S2P Require Import GoString.
#[local] Open Scope Z_scope.

(** * Validation *)

Class DockerTexts := {
  sprint : any -> string;                               (* [fmt.Sprint] *)
  json_line : string -> option any;                     (* an object *)
  json_array : string -> result string (list any);      (* an array of objects *)
}.

Section docker_validate.
Context `{UnicodeCase}.

(** [hasNext]: the flag is followed by the value, somewhere *)
Fixpoint hasNext (args : list string) (current nextVal : string) : bool :=
  match args with
  | a :: ((b :: _) as rest) => (bool_decide (a = current) && bool_decide (to_lower b = nextVal)) || hasNext rest current nextVal
  | _ => false
  end.

Definition docker_arg_refused (args : list string) (arg : string) : option string :=
  let lower := to_lower arg in
  let host flag := bool_decide (lower = flag +:+ "=host") || (bool_decide (lower = flag) && hasNext args arg "host") in
  if bool_decide (lower = "--privileged") then Some "--privileged is not allowed"
  else if host "--pid" then Some "--pid=host is not allowed"
  else if host "--network" then Some "--network=host is not allowed"
  else if host "--ipc" then Some "--ipc=host is not allowed"
  else if has_prefix lower "--cap-add" then Some "--cap-add is not allowed"
  else if has_prefix lower "--device" then Some "--device is not allowed"
  else None.

Definition docker_validateArgs (args : list string) : option string :=
  match args with
  | [] => Some "no docker arguments provided"
  | sub :: _ =>
    let sub := to_lower sub in
    if bool_decide (sub ∈ ["system"; "network"; "volume"]) then Some ("docker " +:+ sub +:+ " is not allowed")
    else if bool_decide (sub = "exec") then Some "docker exec is not allowed"
    else first_some (docker_arg_refused args) args
  end.
End docker_validate.

Definition name_start (c : ascii) : bool :=
  let b := byte_of c in ((97 <=? b) && (b <=? 122)) || ((65 <=? b) && (b <=? 90)) || ((48 <=? b) && (b <=? 57)).

Definition name_char (c : ascii) : bool := name_start c || existsb (Ascii.eqb c) ["_"%char; "."%char; "-"%char].

(** [containerNameRe] *)
Definition containerName (s : string) : bool :=
  match s with EmptyString => false | String c s => name_start c && negb (str_existsb (fun c => negb (name_char c)) s) end.

Definition validateContainerName (name : string) : option string :=
  if bool_decide (name = EmptyString) then Some "container name must not be empty"
  else if negb (containerName name) then Some "invalid container name"
  else None.

(** * Outputs *)

Definition parseJSONLines `{DockerTexts} (output : string) : list any :=
  omap (fun line => let line := trim_space line in if bool_decide (line = EmptyString) then None else json_line line) (split_byte nl (trim_space output)).

(** The word after a word *)
Fixpoint word_after (w : string) (parts : list string) : option string :=
  match parts with
  | p :: ((q :: _) as rest) => if bool_decide (p = w) then Some q else word_after w rest
  | _ => None
  end.

Definition digest_of (line : string) : option string :=
  match (if contains line "Digest:" then word_after "Digest:" (fields line) else None) with
  | Some d => Some d
  | None => if contains line "digest:" then word_after "digest:" (fields line) else None
  end.

Definition parseDigest (output : string) : string := default EmptyString (first_some digest_of (split_byte nl output)).

Definition image_id_of (line : string) : option string :=
  if has_prefix line "Successfully built " then Some (trim_space (default line (strip_prefix "Successfully built " line)))
  else if contains line "writing image sha256:" then
    match str_index line "sha256:" with
    | Some i =>
      let rest := str_drop i line in
      Some (match str_index rest " " with Some (S n) => str_take (S n) rest | _ => trim_space rest end)
    | None => None
    end
  else None.

Definition parseImageID (output : string) : string := default EmptyString (first_some image_id_of (split_byte nl output)).

(** * The tool *)

Definition buildTimeout : Z := 300 * second.
Definition runTimeout : Z := 120 * second.

Record DockerTool := mkDockerTool {
  dtWorkspace : string -> result string string;
  dtEnviron : list (string * string);
}.

(** [mapParam]: values that are no texts are printed. *)
Definition printedMapParam `{DockerTexts} (params : list (string * any)) (key : string) : list (string * string) :=
  match alookup key params with
  | Some (AMap m) => map (fun kv => (kv.1, match kv.2 with AString s => s | v => sprint v end)) m
  | _ => []
  end.

Section docker.
Context `{OS, Processes, UnicodeCase, DockerTexts}.

(** [runDocker] *)
Definition runDocker (t : DockerTool) (workDir : string) (args : list string) (timeout : Z) (m : Machine) : result string ProcessResult * Machine :=
  match docker_validateArgs args with
  | Some e => (Err e, m)
  | None => RunProcess (mkProcessConfig "docker" args workDir (map assign (dtEnviron t)) timeout) m
  end.

Definition docker_then (req : ToolRequest) (r : result string ProcessResult * Machine) (k : ProcessResult -> ToolResponse) : ToolResponse * Machine :=
  match r with
  | (inr e, m) => (errResp (rID req) ("docker error: " +:+ e), m)
  | (inl r, m) =>
    (if bool_decide (prExitCode r = 0) then k r else errResp (rID req) ("docker " +:+ rAction req +:+ " failed: " +:+ prStderr r), m)
  end.

(** The container a request names *)
Definition container_param (params : list (string * any)) (key : string) : result string string :=
  let? name := textParam params key in
  match validateContainerName name with Some e => Err e | None => Ok name end.

(** ** Reading *)

Definition execPs (t : DockerTool) (ws : string) (req : ToolRequest) (m : Machine) : ToolResponse * Machine :=
  docker_then req (runDocker t ws (["ps"; "--format"; "{{json .}}"] ++ (if boolDefault (rParameters req) "all" false then ["--all"] else [])) localTimeout m)
    (fun r => git_reply req [("containers", ASlice (parseJSONLines (prStdout r)))]).

Definition execImages (t : DockerTool) (ws : string) (req : ToolRequest) (m : Machine) : ToolResponse * Machine :=
  docker_then req (runDocker t ws ["images"; "--format"; "{{json .}}"] localTimeout m)
    (fun r => git_reply req [("images", ASlice (parseJSONLines (prStdout r)))]).

Definition execInspect (t : DockerTool) (ws : string) (req : ToolRequest) (m : Machine) : ToolResponse * Machine :=
  match container_param (rParameters req) "target" with
  | inr e => (errResp (rID req) e, m)
  | inl target =>
    docker_then req (runDocker t ws ["inspect"; target] localTimeout m) (fun r =>
      match json_array (prStdout r) with
      | inr e => errResp (rID req) ("parse inspect output: " +:+ e)
      | inl [] => errResp (rID req) "no results from inspect"
      | inl (info :: _) => git_reply req [("info", info)]
      end)
  end.

Definition execLogs (t : DockerTool) (ws : string) (req : ToolRequest) (m : Machine) : ToolResponse * Machine :=
  match container_param (rParameters req) "container" with
  | inr e => (errResp (rID req) e, m)
  | inl container =>
    let n := numberDefault (rParameters req) "tail" 100 in
    let n := if n <? 1 then 1 else n in
    let n := if 10000 <? n then 10000 else n in
    docker_then req (runDocker t ws ["logs"; "--tail"; pretty n; container] localTimeout m)
      (fun r => git_reply req [("stdout", AString (prStdout r)); ("stderr", AString (prStderr r))])
  end.

(** ** Running *)

(** [validateVolumeMounts], and the mounts it leads to *)
Definition volume_mount (fs : FS) (ws v : string) : result string string :=
  match cut v ":" with
  | (_, _, false) => Err "invalid volume mount format: expected src:dest"
  | (src, dest, true) =>
    match safe_path fs ws src with
    | inl a => Ok (a +:+ ":" +:+ dest)
    | inr e => Err ("invalid volume source: " +:+ e)
    end
  end.

Fixpoint volume_mounts (fs : FS) (ws : string) (volumes : list string) : result string (list string) :=
  match volumes with
  | [] => Ok []
  | v :: volumes => let? x := volume_mount fs ws v in let? l := volume_mounts fs ws volumes in Ok (x :: l)
  end.

Definition flagged (flag : string) (values : list string) : list string := concat (map (fun v => [flag; v]) values).

Definition container_limits : list string := ["--memory=512m"; "--cpus=1.0"; "--pids-limit=256"; "--network=none"; "--read-only"; "--tmpfs"; "/tmp"].

(** What stands between [run] and the image *)
Definition run_options (fs : FS) (ws : string) (req : ToolRequest) : result string (list string) :=
  let params := rParameters req in
  let detach := boolDefault params "detach" false in
  let name := strDefault params "name" EmptyString in
  let workdir := strDefault params "workdir" EmptyString in
  let? mounts := volume_mounts fs ws (strSliceParam params "volumes") in
  Ok ((if detach then [] else ["--rm"])
      ++ (if bool_decide (name = EmptyString) then [] else ["--name"; "kyvik-" +:+ rAgentID req +:+ "-" +:+ name])
      ++ container_limits
      ++ flagged "-e" (map assign (printedMapParam params "env"))
      ++ flagged "-p" (map (fun kv => kv.1 +:+ ":" +:+ kv.2) (printedMapParam params "ports"))
      ++ flagged "-v" mounts
      ++ (if bool_decide (workdir = EmptyString) then [] else ["-w"; workdir])
      ++ (if detach then ["-d"] else [])).

Definition docker_execRun (t : DockerTool) (ws : string) (req : ToolRequest) (m : Machine) : ToolResponse * Machine :=
  match textParam (rParameters req) "image" with
  | inr e => (errResp (rID req) e, m)
  | inl image =>
    match run_options (mcFS m) ws req with
    | inr e => (errResp (rID req) e, m)
    | inl options =>
      match runDocker t ws (["run"] ++ options ++ [image] ++ strSliceParam (rParameters req) "command") runTimeout m with
      | (inr e, m) => (errResp (rID req) ("docker error: " +:+ e), m)
      | (inl r, m) =>
        (if boolDefault (rParameters req) "detach" false
         then if bool_decide (prExitCode r = 0) then git_reply req [("container_id", AString (trim_space (prStdout r)))]
              else errResp (rID req) ("docker run failed: " +:+ prStderr r)
         else git_reply req [("stdout", AString (prStdout r)); ("stderr", AString (prStderr r)); ("exit_code", AInt (prExitCode r))], m)
      end
    end
  end.

Definition docker_execStop (t : DockerTool) (ws : string) (req : ToolRequest) (m : Machine) : ToolResponse * Machine :=
  match container_param (rParameters req) "container" with
  | inr e => (errResp (rID req) e, m)
  | inl container =>
    let timeout := numberDefault (rParameters req) "timeout" 10 in
    docker_then req (runDocker t ws ["stop"; "--time"; pretty timeout; container] (wrap64 (wrap64 (timeout + 15) * second)) m)
      (fun _ => git_reply req [("stopped", ABool true)])
  end.

Definition docker_execRm (t : DockerTool) (ws : string) (req : ToolRequest) (m : Machine) : ToolResponse * Machine :=
  match container_param (rParameters req) "container" with
  | inr e => (errResp (rID req) e, m)
  | inl container =>
    docker_then req (runDocker t ws (["rm"] ++ (if boolDefault (rParameters req) "force" false then ["--force"] else []) ++ [container]) localTimeout m)
      (fun _ => git_reply req [("removed", ABool true)])
  end.

(** The paths of a build are looked at, and handed on as they are. *)
Definition build_args (fs : FS) (ws : string) (params : list (string * any)) (tag : string) : result string (list string) :=
  let context := strDefault params "context_path" "." in
  let dockerfile := strDefault params "dockerfile" EmptyString in
  match (if bool_decide (context = ".") then Ok context else safe_path fs ws context) with
  | inr e => Err ("invalid context_path: " +:+ e)
  | inl _ =>
    match (if bool_decide (dockerfile = EmptyString) then Ok dockerfile else safe_path fs ws dockerfile) with
    | inr e => Err ("invalid dockerfile path: " +:+ e)
    | inl _ =>
      Ok (["build"; "-t"; tag] ++ (if boolDefault params "no_cache" false then ["--no-cache"] else [])
          ++ flagged "--build-arg" (map assign (printedMapParam params "build_args"))
          ++ (if bool_decide (dockerfile = EmptyString) then [] else ["-f"; dockerfile]) ++ [context])
    end
  end.

Definition execBuild (t : DockerTool) (ws : string) (req : ToolRequest) (m : Machine) : ToolResponse * Machine :=
  match textParam (rParameters req) "tag" with
  | inr e => (errResp (rID req) e, m)
  | inl tag =>
    match build_args (mcFS m) ws (rParameters req) tag with
    | inr e => (errResp (rID req) e, m)
    | inl args =>
      docker_then req (runDocker t ws args buildTimeout m)
        (fun r => git_reply req [("image_id", AString (parseImageID (prStdout r))); ("tag", AString tag)])
    end
  end.

(** [execPull] and [execPush] *)
Definition docker_registry (verb : string) (t : DockerTool) (ws : string) (req : ToolRequest) (m : Machine) : ToolResponse * Machine :=
  match textParam (rParameters req) "image" with
  | inr e => (errResp (rID req) e, m)
  | inl image =>
    docker_then req (runDocker t ws [verb; image] networkTimeout m)
      (fun r => git_reply req [("image", AString image); ("digest", AString (parseDigest (prStdout r)))])
  end.

Definition docker_action (t : DockerTool) (action : string) : option (string -> ToolRequest -> Machine -> ToolResponse * Machine) :=
  alookup action
    [("build", execBuild t); ("run", docker_execRun t); ("stop", docker_execStop t); ("rm", docker_execRm t); ("logs", execLogs t); ("ps", execPs t);
     ("images", execImages t); ("inspect", execInspect t); ("pull", docker_registry "pull" t); ("push", docker_registry "push" t)].

(** [Execute] *)
Definition DockerExecute (t : DockerTool) (req : ToolRequest) (m : Machine) : ToolResponse * Machine :=
  match docker_action t (rAction req) with
  | None => (errResp (rID req) ("unknown action: " +:+ rAction req), m)
  | Some handler =>
    match dtWorkspace t (rAgentID req) with
    | inr e => (errResp (rID req) ("workspace error: " +:+ e), m)
    | inl ws => handler ws req m
    end
  end.
End docker.

(** * How docker reads the options of a container *)

Definition run_valued : list string := ["--name"; "--tmpfs"; "-e"; "-p"; "-v"; "-w"].
Definition run_plain : list string := ["--rm"; "-d"; "--memory=512m"; "--cpus=1.0"; "--pids-limit=256"; "--network=none"; "--read-only"].

(** The options with their values, if there are none but those of the tool *)
Fixpoint read_options (args : list string) : option (list (string * string)) :=
  match args with
  | [] => Some []
  | a :: rest =>
    if bool_decide (a ∈ run_plain) then ((a, EmptyString) ::.) <$> read_options rest
    else if bool_decide (a ∈ run_valued) then match rest with v :: rest => ((a, v) ::.) <$> read_options rest | [] => None end
    else None
  end.

Lemma valued_not_plain a : a ∈ run_valued -> a ∉ run_plain.
Proof. unfold run_valued. rewrite !elem_of_cons, elem_of_nil. intros Ha. repeat destruct Ha as [->|Ha]; [apply (bool_decide_unpack _); by vm_compute..|done]. Qed.

Lemma read_valued a v rest : a ∈ run_valued -> read_options (a :: v :: rest) = ((a, v) ::.) <$> read_options rest.
Proof. intros Ha. cbn [read_options]. by rewrite bool_decide_eq_false_2, bool_decide_eq_true_2 by (done || by apply valued_not_plain). Qed.

Lemma read_options_app a b la : read_options a = Some la -> read_options (a ++ b) = (la ++.) <$> read_options b.
Proof.
  remember (length a) as n eqn:Hn. assert (length a <= n)%nat as Hle by lia. clear Hn. revert a la Hle.
  induction n as [|n IH]; intros [|x a] la Hle Ha; simpl in Hle; try lia.
  - injection Ha as <-. simpl app. by destruct (read_options b).
  - injection Ha as <-. simpl app. by destruct (read_options b).
  - cbn [read_options app] in *. destruct (bool_decide (x ∈ run_plain)).
    + destruct (read_options a) as [l|] eqn:E; [|done]. injection Ha as <-. rewrite (IH a l) by (done || lia). by destruct (read_options b).
    + destruct (bool_decide (x ∈ run_valued)); [|done]. destruct a as [|v a]; [done|]. simpl in Hle. cbn [app].
      destruct (read_options a) as [l|] eqn:E; [|done]. injection Ha as <-. rewrite (IH a l) by (done || lia). by destruct (read_options b).
Qed.

Lemma read_flagged flag values : flag ∈ run_valued -> read_options (flagged flag values) = Some (map (pair flag) values).
Proof.
  intros Hf. induction values as [|v values IH]; [done|]. change (flagged flag (v :: values)) with (flag :: v :: flagged flag values).
  by rewrite read_valued, IH.
Qed.

Lemma read_flagged_app flag values rest : flag ∈ run_valued -> read_options (flagged flag values ++ rest) = (map (pair flag) values ++.) <$> read_options rest.
Proof. intros Hf. by apply read_options_app, read_flagged. Qed.

(** * What the tool starts *)

Definition docker_commands : list string := ["build"; "run"; "stop"; "rm"; "logs"; "ps"; "images"; "inspect"; "pull"; "push"].

Section docker_started.
Context `{OS, Processes, UnicodeCase, DockerTexts} (t : DockerTool) (req : ToolRequest).

Record docker_process_ok (ws : string) (cfg : ProcessConfig) : Prop := {
  dp_docker : pcCommand cfg = "docker";
  dp_allowed : docker_validateArgs (pcArgs cfg) = None;
  dp_command : exists rest, pcArgs cfg = rAction req :: rest;
  dp_dir : pcWorkingDir cfg = ws;
  dp_env : pcEnv cfg = map assign (dtEnviron t);
}.

Definition one_docker (ws : string) (m m' : Machine) : Prop :=
  m' = m \/ exists cfg, mcStarted m' = mcStarted m ++ [(cfg, mcFS m)] /\ docker_process_ok ws cfg.

Lemma runDocker_one ws args timeout m : (exists rest, args = rAction req :: rest) -> one_docker ws m (runDocker t ws args timeout m).2.
Proof.
  intros Ha. unfold runDocker. destruct (docker_validateArgs args) eqn:Hv; [by left|].
  destruct (RunProcess _ m) as [r m'] eqn:Hr. destruct (RunProcess_cases _ _ _ _ Hr) as [[-> _]|[_ Hs]]; [by left|right].
  eexists. by split; [exact Hs|].
Qed.

Lemma docker_then_one ws args timeout m k : (exists rest, args = rAction req :: rest) -> one_docker ws m (docker_then req (runDocker t ws args timeout m) k).2.
Proof. intros Ha. pose proof (runDocker_one ws args timeout m Ha) as Hr. unfold docker_then. by destruct (runDocker _ _ _ _ _) as [[r|e] m']. Qed.

Lemma run_one ws m : rAction req = "run" -> one_docker ws m (docker_execRun t ws req m).2.
Proof.
  intros Ha. unfold docker_execRun. destruct (textParam _ _) as [image|]; [|by left]. destruct (run_options _ _ _) as [options|]; [|by left].
  pose proof (runDocker_one ws (["run"] ++ options ++ [image] ++ strSliceParam (rParameters req) "command") runTimeout m) as Hr.
  destruct (runDocker _ _ _ _ _) as [[r|e] m']; apply Hr; rewrite Ha; by eexists.
Qed.

Ltac docker_one Ha :=
  repeat match goal with |- one_docker _ _ (match ?x with _ => _ end).2 => destruct x; [|by left] end;
  apply docker_then_one; rewrite Ha; by eexists.

(** Every call starts at most one process: docker, in the workspace, for the action it is a call of. *)
Lemma docker_call ws m resp m' :
  dtWorkspace t (rAgentID req) = Ok ws -> DockerExecute t req m = (resp, m') -> one_docker ws m m'.
Proof.
  intros Hw. unfold DockerExecute. destruct (docker_action t (rAction req)) as [handler|] eqn:Ha; [|intros [= _ <-]; by left].
  rewrite Hw. cbn beta iota delta [Ok]. intros E. replace m' with (handler ws req m).2 by by rewrite E. clear E. revert Ha.
  unfold docker_action. simpl.
  repeat (case_bool_decide as Hact; [intros [= <-]; symmetry in Hact; first
    [by apply run_one
    |unfold execBuild; destruct (textParam _ _) as [tag|]; [|by left]; unfold build_args;
       destruct (if bool_decide _ then _ else _); [|by left]; destruct (if bool_decide _ then _ else _); [|by left];
       apply docker_then_one; rewrite Hact; by eexists
    |unfold docker_execStop, docker_execRm, execLogs, execPs, execImages, execInspect, docker_registry; docker_one Hact]|clear Hact]).
  done.
Qed.

(** ** Containers *)

Lemma volume_mounts_spec fs ws volumes mounts :
  volume_mounts fs ws volumes = Ok mounts -> forall x, x ∈ mounts -> exists src dest a, safe_path fs ws src = Ok a /\ x = a +:+ ":" +:+ dest.
Proof.
  revert mounts. induction volumes as [|v volumes IH]; intros mounts; simpl; [intros [= <-] x Hx; by apply elem_of_nil in Hx|].
  destruct (volume_mount fs ws v) as [x|] eqn:Hv; [|done]. simpl. destruct (volume_mounts fs ws volumes) as [l|]; [|done]. intros [= <-] y [->|Hy]%elem_of_cons; [|by apply (IH l)].
  unfold volume_mount in Hv. destruct (cut v ":") as [[src dest] []]; [|done]. destruct (safe_path fs ws src) as [a|] eqn:Hs; [|done].
  injection Hv as <-. by exists src, dest, a.
Qed.

(** The restrictions of a container *)
Definition run_limits : list string := ["--memory=512m"; "--cpus=1.0"; "--pids-limit=256"; "--network=none"; "--read-only"].

Lemma Ok_inj {E A} (a b : A) : @Ok E A a = Ok b -> a = b.
Proof. by intros [= ->]. Qed.

Lemma run_options_read fs ws options :
  run_options fs ws req = Ok options ->
  exists l, read_options options = Some l /\ (forall x, x ∈ run_limits -> (x, EmptyString) ∈ l)
    /\ (forall x, ("-v", x) ∈ l -> exists src dest a, safe_path fs ws src = Ok a /\ x = a +:+ ":" +:+ dest)
    /\ (forall x, ("--name", x) ∈ l -> exists name, x = "kyvik-" +:+ rAgentID req +:+ "-" +:+ name).
Proof.
  unfold run_options. destruct (volume_mounts _ _ _) as [mounts|] eqn:Hm; [|done]. cbn [rbind]. intros <-%Ok_inj.
  set (detach := boolDefault _ _ _). set (name := strDefault _ "name" _). set (workdir := strDefault _ "workdir" _).
  set (le := map assign _). set (lp := map _ (printedMapParam _ "ports")).
  exists ((if detach then [] else [("--rm", EmptyString)])
     ++ (if bool_decide (name = EmptyString) then [] else [("--name", "kyvik-" +:+ rAgentID req +:+ "-" +:+ name)])
     ++ [("--memory=512m", EmptyString); ("--cpus=1.0", EmptyString); ("--pids-limit=256", EmptyString); ("--network=none", EmptyString);
         ("--read-only", EmptyString); ("--tmpfs", "/tmp")]
     ++ map (pair "-e") le ++ map (pair "-p") lp ++ map (pair "-v") mounts
     ++ (if bool_decide (workdir = EmptyString) then [] else [("-w", workdir)]) ++ (if detach then [("-d", EmptyString)] else [])).
  split_and!.
  - rewrite (read_options_app _ _ (if detach then [] else [("--rm", EmptyString)])) by by destruct detach.
    rewrite (read_options_app _ _ (if bool_decide (name = EmptyString) then [] else [("--name", "kyvik-" +:+ rAgentID req +:+ "-" +:+ name)]))
      by by destruct (bool_decide (name = EmptyString)).
    rewrite (read_options_app container_limits _ _ eq_refl).
    rewrite (read_flagged_app "-e"), (read_flagged_app "-p"), (read_flagged_app "-v") by git_command.
    rewrite (read_options_app _ _ (if bool_decide (workdir = EmptyString) then [] else [("-w", workdir)])) by by destruct (bool_decide (workdir = EmptyString)).
    by destruct detach.
  - intros x Hx. rewrite !elem_of_app. right. right. left. unfold run_limits in Hx. set_solver.
  - intros x Hx. rewrite !elem_of_app in Hx. apply (volume_mounts_spec _ _ _ _ Hm).
    destruct Hx as [Hx|[Hx|[Hx|[Hx|[Hx|[Hx|[Hx|Hx]]]]]]]; try (apply list_elem_of_In, in_map_iff in Hx as (y & E & Hy); first [by discriminate E|injection E as ->; by apply list_elem_of_In]).
    all: exfalso; revert Hx; repeat (destruct (bool_decide _) || destruct detach); rewrite ?elem_of_cons, ?elem_of_nil; intuition discriminate.
  - intros x Hx. rewrite !elem_of_app in Hx.
    destruct Hx as [Hx|[Hx|[Hx|[Hx|[Hx|[Hx|[Hx|Hx]]]]]]]; try (apply list_elem_of_In, in_map_iff in Hx as (y & E & Hy); by discriminate E);
      revert Hx; repeat (destruct (bool_decide _) || destruct detach); rewrite ?elem_of_cons, ?elem_of_nil; intros Hx;
      repeat destruct Hx as [[=]|Hx]; try done; subst; by eexists.
Qed.
End docker_started.

Section docker_theorems.
Context `{OS, Processes, UnicodeCase, DockerTexts}.

(** A container an agent runs, by the arguments docker is started with *)
Record isolated_run (fs : FS) (ws : location) (req : ToolRequest) (args : list string) : Prop := {
  ir_args : exists options image l, args = "run" :: options ++ image :: strSliceParam (rParameters req) "command"
    /\ alookup "image" (rParameters req) = Some (AString image) /\ read_options options = Some l
    /\ (forall x, x ∈ run_limits -> (x, EmptyString) ∈ l)
    /\ (forall x, ("-v", x) ∈ l -> exists a dest, x = a +:+ ":" +:+ dest /\ within_workspace fs ws a)
    /\ (forall x, ("--name", x) ∈ l -> exists name, x = "kyvik-" +:+ rAgentID req +:+ "-" +:+ name);
}.

(** C9: a container an agent runs is started, if at all, by one process, docker in the workspace; what stands before
    its image are options of the tool, with the limits on memory, processors and processes, no network and a
    read-only root among them; what it mounts leads into the real workspace, and its name carries the agent's. *)
Theorem docker_run_isolated t req ws m resp m' :
  Forall plain_elem ws -> dtWorkspace t (rAgentID req) = Ok (abs_of ws) -> rAction req = "run" -> DockerExecute t req m = (resp, m') ->
  m' = m \/ exists cfg, mcStarted m' = mcStarted m ++ [(cfg, mcFS m)] /\ docker_process_ok t req (abs_of ws) cfg
    /\ isolated_run (mcFS m) ws req (pcArgs cfg).
Proof.
  intros Hws Hw Hact E. destruct (docker_call t req _ _ _ _ Hw E) as [|(cfg & Hs & Hok)]; [by left|].
  assert (m' = m \/ m' <> m) as [|Hne]; [|by left|].
  { right. intros ->. apply (f_equal length) in Hs. rewrite length_app in Hs. simpl in Hs. lia. }
  right. exists cfg. split_and!; [done|done|]. revert E. unfold DockerExecute. rewrite Hact, Hw. cbn beta iota delta [Ok docker_action alookup].
  simpl. unfold docker_execRun. destruct (textParam _ _) as [image|] eqn:Hi; [|intros [= _ ->]; done].
  destruct (run_options (mcFS m) (abs_of ws) req) as [options|] eqn:Ho; [|intros [= _ ->]; done].
  destruct (runDocker _ _ _ _ _) as [r m1] eqn:Hr. intros E. assert (m' = m1) as -> by (by destruct r; injection E as _ <-). clear E.
  unfold runDocker in Hr. destruct (docker_validateArgs _); [by injection Hr as _ <-|].
  destruct (RunProcess_cases _ _ _ _ Hr) as [[-> _]|[_ Hs']]; [done|]. rewrite Hs in Hs'. apply app_inj_tail in Hs' as [_ [= ->]].
  destruct (run_options_read _ _ _ _ Ho) as (l & Hl & Hlim & Hv & Hn). constructor. exists options, image, l. split_and!; try done.
  - unfold textParam in Hi. destruct (alookup _ _) as [[]|]; try done. case_bool_decide; [done|]. by injection Hi as ->.
  - intros x Hx. destruct (Hv x Hx) as (src & dest & a & Hp & ->). exists a, dest. split; [done|]. intros loc Hloc. by eapply safe_path_within.
Qed.
End docker_theorems.

(** * Concrete calls *)
Section docker_demo.
#[local] Instance docker_os : OS := {| os_permits _ _ := true; os_dir_size _ := 4096; os_modified _ := "now"; os_mode _ := "-rw-r--r--" |}.
#[local] Instance docker_case : UnicodeCase := ascii_case.
#[local] Instance docker_processes : Processes := {| proc_run m cfg := Ran [join " " (pcArgs cfg)] [] (EndExit 0) 5 (mcFS m); fs_error_text _ := "error" |}.
#[local] Instance docker_texts : DockerTexts := {| sprint _ := "?"; json_line s := Some (AString s); json_array s := Ok [AString s] |}.

Definition docker_fs : FS := list_to_map [(["srv"], FDir); (["srv"; "ws"], FDir); (["srv"; "ws"; "data"], FDir); (["srv"; "ws"; "out"], FLink "/")].

Definition demo_docker : DockerTool := mkDockerTool (fun _ => Ok "/srv/ws") [].

Definition docker_request (action : string) (params : list (string * any)) : ToolRequest := NewToolRequest "r1" "a1" "docker" action params.

Definition docker_demo_call (action : string) (params : list (string * any)) : ToolResponse * Machine :=
  DockerExecute demo_docker (docker_request action params) (mkMachine docker_fs []).

Definition docker_started (r : ToolResponse * Machine) : list (list string) := map (fun e => pcArgs e.1) (mcStarted r.2).

Example docker_calls :
  docker_started (docker_demo_call "run" [("image", AString "alpine"); ("command", AStrSlice ["ls"]); ("volumes", AStrSlice ["data:/data:ro"]); ("name", AString "job")])
    = [["run"; "--rm"; "--name"; "kyvik-a1-job"] ++ container_limits ++ ["-v"; "/srv/ws/data:/data:ro"; "alpine"; "ls"]]
  /\ respError (docker_demo_call "run" [("image", AString "alpine"); ("volumes", AStrSlice ["out:/data"])]).1
     = "invalid volume source: path traversal is not allowed (symlink escape)"
  /\ respError (docker_demo_call "run" [("image", AString "alpine"); ("command", AStrSlice ["sh"; "--privileged"])]).1 = "docker error: --privileged is not allowed"
  /\ docker_started (docker_demo_call "logs" [("container", AString "db"); ("tail", AInt 0)]) = [["logs"; "--tail"; "1"; "db"]]
  /\ respError (docker_demo_call "rm" [("container", AString "-f")]).1 = "invalid container name".
Proof. vm_compute. done. Qed.

(** The image is not looked at: it may be an option, with the image among the words of the command.  docker reads
    this one as a mount of the root of the host, and the next as a privileged container: the check knows the flag
    without a value only. *)
Example image_is_an_option :
  docker_started (docker_demo_call "run" [("image", AString "--volume=/:/host"); ("command", AStrSlice ["alpine"; "sh"])])
    = [["run"; "--rm"] ++ container_limits ++ ["--volume=/:/host"; "alpine"; "sh"]]
  /\ docker_started (docker_demo_call "run" [("image", AString "--privileged=true"); ("command", AStrSlice ["--net=host"; "alpine"])])
    = [["run"; "--rm"] ++ container_limits ++ ["--privileged=true"; "--net=host"; "alpine"]].
Proof. vm_compute. done. Qed.

(** Containers are named for their agents, but any agent may stop any container of the host. *)
Example containers_of_others :
  docker_started (docker_demo_call "stop" [("container", AString "kyvik-a2-job")]) = [["stop"; "--time"; "10"; "kyvik-a2-job"]]
  /\ docker_started (docker_demo_call "rm" [("container", AString "postgres"); ("force", ABool true)]) = [["rm"; "--force"; "postgres"]].
Proof. vm_compute. done. Qed.

(** A stop with a long grace is itself ended at once: the seconds wrap around. *)
Example stop_timeout_wraps :
  map (fun e => pcTimeout e.1) (mcStarted (docker_demo_call "stop" [("container", AString "db"); ("timeout", AInt 9223372030)]).2) = [-9223372028709551616].
Proof. vm_compute. done. Qed.

Example outputs_read :
  parseImageID ("Step 1" +:+ String nl "Successfully built abc123") = "abc123" /\ parseImageID "#8 writing image sha256:beef done" = "sha256:beef"
  /\ parseDigest ("x" +:+ String nl "Digest: sha256:cafe") = "sha256:cafe" /\ parseDigest "latest: digest: sha256:d00d size: 5" = "sha256:d00d".
Proof. vm_compute. done. Qed.

Lemma docker_run_isolated_witness :
  let req := docker_request "run" [("image", AString "alpine"); ("volumes", AStrSlice ["data:/data"])] in let m := mkMachine docker_fs [] in
  let m' := (DockerExecute demo_docker req m).2 in
  length (mcStarted m') = 1%nat
  /\ (m' = m \/ exists cfg, mcStarted m' = mcStarted m ++ [(cfg, mcFS m)] /\ docker_process_ok demo_docker req (abs_of ["srv"; "ws"]) cfg
        /\ isolated_run (mcFS m) ["srv"; "ws"] req (pcArgs cfg)).
Proof.
  cbv zeta. split; [vm_compute; reflexivity|].
  apply (docker_run_isolated demo_docker (docker_request "run" [("image", AString "alpine"); ("volumes", AStrSlice ["data:/data"])]) ["srv"; "ws"] (mkMachine docker_fs [])
    (DockerExecute demo_docker (docker_request "run" [("image", AString "alpine"); ("volumes", AStrSlice ["data:/data"])]) (mkMachine docker_fs [])).1).
  - repeat constructor; discriminate.
  - reflexivity.
  - reflexivity.
  - apply surjective_pairing.
Defined.
End docker_demo.
